(* ===== verification/_CoqProject ===== *)
-Q . S2P
Prelude.v
CFInternal.v
CFBinaryHeap.v
CFBitVector.v
CFBigNumber.v
CFSortFunctions.v
CFArray.v
CFTree.v
CFDate.v
CFBasicHash.v
CFBasicHashProbe.v
CFBasicHashTable.v
CFBasicHashQueries.v
CFBasicHashCreate.v
CFCollections.v
CFDataSearch.v
CFData.v
CFDataEdits.v
CFDataQueries.v
CFStorage.v
CFStorageTree.v
CFStorageInsert.v
CFStorageDelete.v
CFStorageAccess.v
CFStorageApply.v
CFStorageEqual.v
CFStorageValues.v
CFUniChar.v
CFUnicodeDecomposition.v
CFUnicodeDecomposeText.v
CFUnicodeData.v
CFUTF8.v
CFUnicodePrecomposition.v
CFEightBit.v
CFStringEncodingConverter.v
CFStringConversions.v
CFStringScanner.v
CFUUID.v
CFBinaryPList.v
CFBinaryPListRead.v
CFBinaryPListWrite.v
CFBinaryPListRoundTrip.v
