(* ===== verification/Prelude.v ===== *)
(** * CoreFoundation, verified

    This library models the data structures, the calendar arithmetic, the Unicode
    normalization and the string encodings of CoreFoundation, the C library under
    src/CF-master, with its binary property lists, and proves that they do what they
    promise.  The repository collects systems to be read: next to CoreFoundation there are the xnu kernel, the Objective-C runtime, dyld,
    GNUstep and several annotated Cocoa projects.  CoreFoundation is the library
    whose data structures the others build on, and its components are
    self-contained C.  The configuration is the one its
    MakefileLinux builds ("CF-Lite"): 64-bit, no Objective-C bridge, no garbage
    collection, no libdispatch sorting, assertions compiled out.

    ** The program and the files that model it

    - CFInternal.v: bit fields of the object header, [flsl], ranges and
      comparison results (CFInternal.h, CoreFoundation_Prefix.h, CFBase.h).
    - CFBinaryHeap.v: the priority queue (CFBinaryHeap.c).
    - CFBitVector.v: packed bits and the bucket mapper (CFBitVector.c).
    - CFBigNumber.v: five-digit numbers to the base 10^9 (CFBigNumber.c).
    - CFSortFunctions.v: the stable merge sort (CFSortFunctions.c).
    - CFArray.v: immutable arrays and deques; sorts with CFSortFunctions
      (CFArray.c).
    - CFTree.v: trees as linked nodes in a shared heap; sorts with
      CFSortFunctions (CFTree.c).
    - CFDate.v: Gregorian dates and absolute times (CFDate.c).
    - CFBasicHash.v: the hash table with its three ways of probing
      (CFBasicHash.c, CFBasicHash.h, CFBasicHashFindBucket.m);
      CFBasicHashProbe.v, CFBasicHashTable.v, CFBasicHashQueries.v and
      CFBasicHashCreate.v hold its theory.
    - CFCollections.v: dictionaries, sets and bags on top of the hash table
      (CFDictionary.c, CFSet.c, CFBag.c), one template with three instances.
    - CFData.v: byte buffers (CFData.c), with the Boyer-Moore search in
      CFDataSearch.v; CFDataEdits.v holds what the operations do to the bytes,
      CFDataQueries.v searching, comparing and copying.
    - CFStorage.v: sequences of fixed-size values in a tree of leaves whose
      nodes are counted, frozen and shared (CFStorage.c).  CFStorageTree.v has
      the tree the nodes represent, CFStorageInsert.v, CFStorageDelete.v,
      CFStorageAccess.v, CFStorageApply.v and CFStorageEqual.v what the
      operations do to it, CFStorageValues.v the sequence of values.
    - CFUniChar.v: character sets as bitmaps, the encoding forms of text
      (CFUniChar.c, CFUniChar.h).  CFUnicodeDecomposition.v: canonical
      decomposition and reordering (CFUnicodeDecomposition.c), with the theory of
      texts in CFUnicodeDecomposeText.v and the shipped tables in CFUnicodeData.v.
      CFUnicodePrecomposition.v: composition (CFUnicodePrecomposition.c).
    - CFUTF8.v and CFEightBit.v: the built-in converters (CFBuiltinConverters.c).
      CFStringEncodingConverter.v: wrappers, substitutes, registry and
      conversions (CFStringEncodingConverter.c); CFStringConversions.v its
      theorems.
    - CFStringScanner.v: the window through which strings are read (CFString.h,
      ForFoundationOnly.h) and the scanners of numbers (CFStringScanner.c).
    - CFUUID.v: identifiers, the table of the existing ones and their text
      (CFUUID.c).
    - CFBinaryPList.v: the writer and the reader of binary property lists
      (CFBinaryPList.c); CFBinaryPListRead.v, CFBinaryPListWrite.v and
      CFBinaryPListRoundTrip.v hold their theory.
    - This file: machine integers, blocks of memory, effects, and the lemmas and
      tactics all files share.

    ** How the code is modelled

    A C integer is a [Z] and every operation that can leave its width is wrapped
    ([uwrap], [swrap]); where the theorems are about the absence of overflow, as in the
    scanners and the calendar, signed arithmetic that leaves its width is [None], and the
    double sums of day numbers are rounded.  A pointer is a [Z] and NULL is 0; a function pointer is
    the number under which a parameter of the model interprets it
    ([call_retain], [call_equal], [call_compare], ..), so the callbacks of a
    client are arbitrary functions and the theorems name what they need of them
    (an order, an equivalence that hashing respects, a retained value of the same rank).  A block of memory is a
    list read and written with [rd] and [wr], which are [None] outside the block;
    cells of fresh memory are [None] or an argument of the operation.  The type
    [option] is also the result of code that may halt.  Calls that a client can
    observe (retain, release, appliers) are events collected by the monad [io].
    Objects that other objects point to (the nodes of CFTree) live in a heap.
    Definitions have the names of the source and are executable.

    ** What is proved

    - Refinement: any sequence of calls on a heap, a bit vector, an array, a
      data object, a storage, a tree, a hash table, a dictionary, a set or a bag
      succeeds, stays inside its memory, keeps the invariant of the structure, makes the specified retain and
      release calls, and changes the contents as the abstract structure (a
      multiset, a list of bits, a list, a forest, a finite map, a partial
      function, a counting function) prescribes.
    - Functional behaviour: sorting is stable, binary search finds the lower
      bound, queries agree with the abstract contents, copies hold the same
      values, arithmetic of big numbers is exact.
    - Number theory: the table sizes are prime, the listed roots are primitive,
      and so every probe sequence visits every bucket exactly once; the proof
      evaluates Lucas certificates.
    - Round trips: dates and day numbers, numbers and their decimal text, bits and
      bytes, contexts, UTF-16 text and UTF-8, UTF-32 or the bytes of an encoding,
      Hangul syllables and their letters, UUIDs and their text, graphs of objects and
      binary property lists.
    - Text: decomposing a text stores its canonical decomposition, reordered, in
      any encoding form; composing two characters inverts decomposition.  The laws
      the tables must have are a class, and the tables CoreFoundation ships,
      which are in the development as data, are proved to have them by
      evaluation.  Conversions to and from encodings consume exactly what
      they store and return the right code, for UTF-8 and, through a class that
      states what a converter promises, for the five encodings of single bytes;
      the registry keeps the converter of every encoding.
    - Ownership: a storage frees every node it made and touches no node of
      another storage, as long as none of them was created as a part of another
      one; for those that were, three programs show how they interfere.
    - Numbers in text: the scanners give the value of the digits or the nearest
      value of the type without a signed overflow, and read and write inside their
      buffers.
    - Untrusted input: reading any bytes as a binary property list ends, stays inside
      the bytes, and gives exactly what they denote; files with circles are refused.
    - Ownership of identifiers: there is one object for each value as long as a
      reference to it is owned.
    - Errors: where the code deviates from what its comments say, a theorem
      states exactly how (see the findings of the manifest).

    ** Fuel and bounds

    Loops whose recursion is not structural take fuel, and the theorems are that
    the fuel given by the callers is enough: they return [Some].  Trees walk at
    most one step per node of the heap plus one; the merge sort halves its count
    at every level and gets the count as fuel; a search of the hash table makes as
    many rounds as there are buckets, which covers the table; the recursion on
    the nodes of a storage gets one step more than there are nodes; the loops on
    text get the number of units.  The loop of
    CFStringEncodingUnicodeToBytes takes fuel as an argument, since it need not
    end: the length of the text is enough where it does, and one theorem is a text
    on which no fuel is.  Hash tables are
    followed up to 2^30 entries: the source's size index stays at most 43 there,
    and below the last table size the 64-bit products of exponential probing do
    not overflow.  Arrays and heaps are followed below 2^30 and 2^31 values,
    where the shifts of the capacity computation are exact; the theorems on bounds
    say what happens beyond.  Times are whole seconds below 2^53; day numbers are followed
    below 2^51.  The recursion of the reader of binary property lists is at most as deep as
    the file is long and 20 more, since from depth 16 on it keeps the offsets it is inside of;
    the writer's is as deep as the graph, which must be acyclic and weigh less than 2^31.

    ** What is not modelled

    Descriptions (formatting for debugging), class registration, the Objective-C
    and garbage-collection branches, the concurrent sort, floating-point code,
    and everything that only calls the operating system or ICU: run loops, ports,
    sockets, streams, bundles, preferences, locales, calendars, formatters.
    Of Unicode: the files the tables are mapped from, case mapping, compatibility
    decomposition, CFCharacterSet.  Of the encodings: ICU and the platform
    converters, which are parameters, the two classes of converters without a
    converter, and the database of names.  CFString itself and the parsers above
    it are not modelled, nor are the reading of parts of a binary property list by key
    paths and the other formats of property lists.  The other projects of the
    repository are an operating-system kernel, C++ and Objective-C. *)

From stdpp Require Import base list numbers option.
From Stdlib Require Import ZArith Lia Sorting.Permutation.

Open Scope Z_scope.

(** ** Machine integers

    A C integer is a [Z]; every operation that can leave the range of its
    type is wrapped explicitly.  [uwrap w] is the conversion to an unsigned
    [w]-bit type, [swrap w] the conversion to a signed one (two's complement,
    which is what every compiler CoreFoundation targets does). *)

Definition uwrap (w x : Z) : Z := x mod 2 ^ w.

Definition swrap (w x : Z) : Z := (x + 2 ^ (w - 1)) mod 2 ^ w - 2 ^ (w - 1).

Definition in_unsigned (w x : Z) : Prop := 0 <= x < 2 ^ w.

Definition in_signed (w x : Z) : Prop := - 2 ^ (w - 1) <= x < 2 ^ (w - 1).

Lemma uwrap_range w x : 0 <= w -> 0 <= uwrap w x < 2 ^ w.
Proof. intros. unfold uwrap. apply Z.mod_pos_bound. lia. Qed.

Lemma uwrap_id w x : in_unsigned w x -> uwrap w x = x.
Proof. intros. unfold uwrap. by apply Z.mod_small. Qed.

Lemma pow2_half w : 0 < w -> 2 ^ w = 2 * 2 ^ (w - 1).
Proof. intros. rewrite <- Z.pow_succ_r by lia. f_equal. lia. Qed.

Lemma swrap_range w x : 0 < w -> in_signed w (swrap w x).
Proof.
  intros. unfold in_signed, swrap. pose proof (pow2_half w H).
  pose proof (Z.mod_pos_bound (x + 2 ^ (w - 1)) (2 ^ w)). lia.
Qed.

Lemma swrap_id w x : 0 < w -> in_signed w x -> swrap w x = x.
Proof.
  unfold in_signed, swrap. intros. pose proof (pow2_half w H).
  rewrite Z.mod_small; lia.
Qed.

Lemma swrap_add_l w a b : 0 < w -> swrap w (swrap w a + b) = swrap w (a + b).
Proof.
  intros Hw. unfold swrap. f_equal.
  replace ((a + 2 ^ (w - 1)) mod 2 ^ w - 2 ^ (w - 1) + b + 2 ^ (w - 1))
    with ((a + 2 ^ (w - 1)) mod 2 ^ w + b) by lia.
  rewrite Zplus_mod_idemp_l. f_equal. lia.
Qed.

(** ** C arrays

    A block of [n] cells is a list of length [n].  A read or a write outside
    the block has no defined behaviour in C: it is [None] here, so a theorem
    that an operation returns [Some] also says that every access it makes is
    inside its block. *)

Definition rd {A} (a : list A) (i : Z) : option A :=
  if 0 <=? i then a !! Z.to_nat i else None.

Definition wr {A} (a : list A) (i : Z) (v : A) : option (list A) :=
  if (0 <=? i) && (i <? Z.of_nat (length a))
  then Some (<[Z.to_nat i := v]> a) else None.

(** Cells of freshly allocated memory hold no value yet: a cell is an
    [option], and reading an unwritten one is undefined too. *)
Definition rdi {A} (a : list (option A)) (i : Z) : option A :=
  match rd a i with Some c => c | None => None end.

(** [memmove] between two blocks (or inside one): [n] cells from [src + so]
    to [dst + d].  The source cells are read before any is written, which is
    what [memmove] promises for overlapping regions. *)
Definition memmove {A} (dst : list A) (d : Z) (src : list A) (so n : Z) : option (list A) :=
  if (0 <=? d) && (0 <=? so) && (0 <=? n) &&
     (d + n <=? Z.of_nat (length dst)) && (so + n <=? Z.of_nat (length src))
  then Some (take (Z.to_nat d) dst ++
             take (Z.to_nat n) (drop (Z.to_nat so) src) ++
             drop (Z.to_nat (d + n)) dst)
  else None.

(** [memset] of [n] whole cells. *)
Definition memset {A} (dst : list A) (d : Z) (v : A) (n : Z) : option (list A) :=
  if (0 <=? d) && (0 <=? n) && (d + n <=? Z.of_nat (length dst))
  then Some (take (Z.to_nat d) dst ++ replicate (Z.to_nat n) v ++
             drop (Z.to_nat (d + n)) dst)
  else None.

Lemma rd_nat {A} (a : list A) (i : nat) : rd a (Z.of_nat i) = a !! i.
Proof. unfold rd. destruct (Z.leb_spec 0 (Z.of_nat i)); [|lia]. by rewrite Nat2Z.id. Qed.

Lemma rd_Some {A} (a : list A) i :
  0 <= i < Z.of_nat (length a) -> exists v, rd a i = Some v.
Proof.
  intros. unfold rd. destruct (Z.leb_spec 0 i); [|lia].
  apply lookup_lt_is_Some. lia.
Qed.

Lemma rd_inv {A} (a : list A) i v :
  rd a i = Some v -> 0 <= i < Z.of_nat (length a) /\ a !! Z.to_nat i = Some v.
Proof.
  unfold rd. destruct (Z.leb_spec 0 i); [|done]. intros E.
  pose proof (lookup_lt_Some _ _ _ E). split; [lia|done].
Qed.

Lemma wr_ok {A} (a : list A) i v :
  0 <= i < Z.of_nat (length a) -> wr a i v = Some (<[Z.to_nat i := v]> a).
Proof. intros. unfold wr. by rewrite (proj2 (Z.leb_le _ _)), (proj2 (Z.ltb_lt _ _)) by lia. Qed.

Lemma wr_nat {A} (a : list A) (i : nat) v :
  (i < length a)%nat -> wr a (Z.of_nat i) v = Some (<[i := v]> a).
Proof. intros. rewrite wr_ok by lia. by rewrite Nat2Z.id. Qed.

Lemma rdi_nat {A} (a : list (option A)) (i : nat) v :
  rdi a (Z.of_nat i) = Some v <-> a !! i = Some (Some v).
Proof. unfold rdi. rewrite rd_nat. destruct (a !! i); naive_solver. Qed.

Lemma length_wr {A} (a a' : list A) i v : wr a i v = Some a' -> length a' = length a.
Proof.
  unfold wr. destruct (_ && _); [|done]. intros [= <-]. by rewrite length_insert.
Qed.

Lemma length_memmove {A} (dst src dst' : list A) d so n :
  memmove dst d src so n = Some dst' -> length dst' = length dst.
Proof.
  unfold memmove. destruct (_ && _) eqn:E; [|done]. intros [= <-].
  rewrite !andb_true_iff, !Z.leb_le in E.
  rewrite !length_app, !length_take, !length_drop. lia.
Qed.

Lemma memmove_ok {A} (dst src : list A) d so n :
  0 <= d -> 0 <= so -> 0 <= n ->
  d + n <= Z.of_nat (length dst) -> so + n <= Z.of_nat (length src) ->
  memmove dst d src so n =
    Some (take (Z.to_nat d) dst ++ take (Z.to_nat n) (drop (Z.to_nat so) src) ++
          drop (Z.to_nat (d + n)) dst).
Proof.
  intros. unfold memmove.
  repeat match goal with
  | |- context [?a <=? ?b] => rewrite (proj2 (Z.leb_le a b)) by lia
  end. done.
Qed.

(** ** Effects

    The callbacks a client registers (retain, release, an applier) are code
    outside the library.  A call is an [event]; an operation that makes calls
    returns its result with the calls in order.  [None] is undefined
    behaviour or [HALT]. *)

Inductive event : Type :=
| EvRetain (fp value : Z)    (** the retain callback [fp] called on [value] *)
| EvRelease (fp value : Z)   (** the release callback [fp] called on [value] *)
| EvApply (fp value ctx : Z) (** an applier function called on [value] *)
| EvApplyPair (fp key value ctx : Z) (** an applier function called on a key and its value *).

#[global] Instance event_eq_dec : EqDecision event.
Proof. solve_decision. Defined.

Definition io (A : Type) : Type := option (A * list event).

Definition io_ret {A} (x : A) : io A := Some (x, []).

Definition io_bind {A B} (m : io A) (k : A -> io B) : io B :=
  match m with
  | None => None
  | Some (x, t) =>
      match k x with
      | None => None
      | Some (y, t') => Some (y, t ++ t')
      end
  end.

Definition io_lift {A} (m : option A) : io A :=
  match m with Some x => Some (x, []) | None => None end.

Definition emit (e : event) : io unit := Some (tt, [e]).

Definition opt_bind {A B} (m : option A) (k : A -> option B) : option B :=
  match m with Some x => k x | None => None end.

Declare Scope cf_scope.
Delimit Scope cf_scope with cf.

Notation "'let*' x := m 'in' k" := (opt_bind m (fun x => k))
  (at level 10, x pattern, m at level 100, k at level 200) : cf_scope.

Notation "'do*' x := m 'in' k" := (io_bind m (fun x => k))
  (at level 10, x pattern, m at level 100, k at level 200) : cf_scope.

Lemma io_bind_ok {A B} (m : io A) (k : A -> io B) x t y t' :
  m = Some (x, t) -> k x = Some (y, t') -> io_bind m k = Some (y, t ++ t').
Proof. intros -> E. simpl. by rewrite E. Qed.

Lemma io_bind_lift {A B} (x : A) (k : A -> io B) : io_bind (io_lift (Some x)) k = k x.
Proof. simpl. by destruct (k x) as [[y t]|]. Qed.

Lemma io_bind_assoc {A B C} (m : io A) (f : A -> io B) (g : B -> io C) :
  io_bind (io_bind m f) g = io_bind m (fun x => io_bind (f x) g).
Proof.
  destruct m as [[x t]|]; simpl; [|done]. destruct (f x) as [[y t']|]; simpl; [|done].
  destruct (g y) as [[z t'']|]; simpl; [|done]. by rewrite (assoc_L (++)).
Qed.

Lemma opt_bind_Some {A B} (m : option A) (k : A -> option B) y :
  opt_bind m k = Some y <-> exists x, m = Some x /\ k x = Some y.
Proof. destruct m; simpl; naive_solver. Qed.

(** ** Automation *)

Create Rewrite HintDb cf_len.
#[export] Hint Rewrite @length_insert @length_app @length_take @length_drop
  @length_replicate @length_fmap @length_nil @length_cons : cf_len.

(** [cf_lia]: linear arithmetic after normalising list lengths. *)
Ltac cf_lia := autorewrite with cf_len in *; simpl in *; lia.

(** [bool_case]: case analysis on the integer tests in the goal. *)
Ltac bool_case :=
  repeat match goal with
  | |- context [?a <=? ?b] => destruct (Z.leb_spec a b); try lia
  | |- context [?a <? ?b] => destruct (Z.ltb_spec a b); try lia
  | |- context [?a =? ?b] => destruct (Z.eqb_spec a b); try lia
  end.

(** ** Exchanging two cells permutes a list *)

Lemma insert_swap_Permutation {A} (l : list A) i j x y :
  l !! i = Some x -> l !! j = Some y ->
  <[i := y]> (<[j := x]> l) ≡ₚ l.
Proof.
  intros Hi Hj. destruct (decide (i = j)) as [->|Hne].
  - rewrite list_insert_insert_eq. rewrite list_insert_id; [done|congruence].
  - assert (i < length l)%nat by eauto using lookup_lt_Some.
    assert (j < length l)%nat by eauto using lookup_lt_Some.
    apply Permutation_inj. split; [by rewrite !length_insert|].
    exists (fun k => if decide (k = i) then j else if decide (k = j) then i else k). split.
    + intros k1 k2. repeat case_decide; congruence.
    + intros k. repeat case_decide; subst.
      * rewrite list_lookup_insert_eq by (rewrite length_insert; lia). done.
      * rewrite list_lookup_insert_ne, list_lookup_insert_eq by done. done.
      * by rewrite !list_lookup_insert_ne by done.
Qed.

(** ** Lists *)

(** Checking a predicate on all of 0..n-1 by evaluation. *)
Lemma forall_below (P : Z -> bool) (n : nat) :
  forallb P (Z.of_nat <$> seq 0 n) = true -> forall k, 0 <= k < Z.of_nat n -> P k = true.
Proof.
  intros H k Hk. rewrite forallb_forall in H. apply H. rewrite <- list_elem_of_In.
  apply list_elem_of_fmap. exists (Z.to_nat k). split; [lia|]. apply elem_of_seq. lia.
Qed.

Lemma filter_none {A} (P : A -> Prop) `{!forall x, Decision (P x)} l :
  Forall (fun x => ~ P x) l -> filter P l = [].
Proof. induction 1 as [|x l Hx Hl IH]; [done|]. rewrite filter_cons. by rewrite decide_False. Qed.

Lemma lookup_window {A} (l mid : list A) loc len k :
  (loc + len <= length l)%nat -> length mid = len ->
  (take loc l ++ mid ++ drop (loc + len) l) !! k =
    if decide (loc <= k < loc + len)%nat then mid !! (k - loc)%nat else l !! k.
Proof.
  intros Hl Hm. case_decide as Hd.
  - rewrite lookup_app_r, length_take, Nat.min_l, lookup_app_l by (rewrite ?length_take; lia). done.
  - destruct (decide (k < loc)%nat).
    + rewrite lookup_app_l, lookup_take_lt by (rewrite ?length_take; lia). done.
    + rewrite !lookup_app_r, length_take, Nat.min_l, lookup_drop by (rewrite ?length_take; lia). f_equal. lia.
Qed.

Lemma memset_ok {A} (dst : list A) v n :
  0 <= n <= Z.of_nat (length dst) ->
  memset dst 0 v n = Some (replicate (Z.to_nat n) v ++ drop (Z.to_nat n) dst).
Proof. intros. unfold memset. rewrite Z.add_0_l. bool_case. done. Qed.

(** ** Blocks cell by cell

    The same facts for integer indexes: what a cell holds after a write, a
    [memmove] or a [memset]. *)

Lemma rd_lookup {A} (a : list A) i : 0 <= i -> rd a i = a !! Z.to_nat i.
Proof. intros. unfold rd. destruct (Z.leb_spec 0 i); [done|lia]. Qed.

Lemma wr_rd {A} (a : list A) i v :
  0 <= i < Z.of_nat (length a) ->
  exists a', wr a i v = Some a' /\ length a' = length a /\
    forall j, 0 <= j -> rd a' j = if j =? i then Some v else rd a j.
Proof.
  intros Hi. rewrite wr_ok by done. eexists. split_and!; [done|apply length_insert|]. intros j Hj.
  rewrite !rd_lookup by done. destruct (Z.eqb_spec j i) as [->|Hne].
  - apply list_lookup_insert_eq. lia.
  - apply list_lookup_insert_ne. lia.
Qed.

Lemma memmove_rd {A} (dst src : list A) d so n :
  0 <= d -> 0 <= so -> 0 <= n -> d + n <= Z.of_nat (length dst) -> so + n <= Z.of_nat (length src) ->
  exists r, memmove dst d src so n = Some r /\ length r = length dst /\
    forall i, 0 <= i -> rd r i = if (d <=? i) && (i <? d + n) then rd src (so + (i - d)) else rd dst i.
Proof.
  intros Hd Hso Hn Hdn Hsn. rewrite memmove_ok by done. eexists. split_and!; [done|cf_lia|]. intros i Hi.
  replace (Z.to_nat (d + n)) with (Z.to_nat d + Z.to_nat n)%nat by lia.
  rewrite !(rd_lookup _ i), lookup_window by (try rewrite length_take, length_drop; lia).
  destruct (Z.leb_spec d i), (Z.ltb_spec i (d + n)); case_decide; try lia; try done.
  rewrite lookup_take_lt, lookup_drop, rd_lookup by lia. cbn [andb]. f_equal. lia.
Qed.

Lemma memset_rd {A} (dst : list A) d v n :
  0 <= d -> 0 <= n -> d + n <= Z.of_nat (length dst) ->
  exists r, memset dst d v n = Some r /\ length r = length dst /\
    forall i, 0 <= i -> rd r i = if (d <=? i) && (i <? d + n) then Some v else rd dst i.
Proof.
  intros Hd Hn Hdn. unfold memset.
  assert ((0 <=? d) && (0 <=? n) && (d + n <=? Z.of_nat (length dst)) = true) as -> by (bool_case; done).
  eexists. split_and!; [done|cf_lia|]. intros i Hi.
  replace (Z.to_nat (d + n)) with (Z.to_nat d + Z.to_nat n)%nat by lia.
  rewrite !(rd_lookup _ i), lookup_window by (try rewrite length_replicate; lia).
  destruct (Z.leb_spec d i), (Z.ltb_spec i (d + n)); case_decide; try lia; try done.
  by rewrite lookup_replicate_2 by lia.
Qed.

(** A move of no cells may be skipped. *)
Lemma memmove_if_rd {A} (dst src : list A) d so n :
  0 <= d -> 0 <= so -> 0 <= n -> d + n <= Z.of_nat (length dst) -> so + n <= Z.of_nat (length src) ->
  exists r, (if 0 <? n then memmove dst d src so n else Some dst) = Some r /\ length r = length dst /\
    forall i, 0 <= i -> rd r i = if (d <=? i) && (i <? d + n) then rd src (so + (i - d)) else rd dst i.
Proof.
  intros. destruct (Z.ltb_spec 0 n); [by apply memmove_rd|]. exists dst. split_and!; [done..|].
  intros i Hi. bool_case; done.
Qed.

Lemma memset_if_rd {A} (dst : list A) d v m m' :
  0 <= d -> d + (m - m') <= Z.of_nat (length dst) ->
  exists r, (if m' <? m then memset dst d v (m - m') else Some dst) = Some r /\ length r = length dst /\
    forall i, 0 <= i -> rd r i = if (d <=? i) && (i <? d + (m - m')) then Some v else rd dst i.
Proof.
  intros. destruct (Z.ltb_spec m' m); [apply memset_rd; lia|]. exists dst. split_and!; [done..|].
  intros i Hi. bool_case; done.
Qed.
