(* ===== verification/CFInternal.v ===== *)
(** * CFInternal: the helpers every component shares

    [flsl] (CoreFoundation_Prefix.h), the bit-field macros of the runtime
    header word (CFInternal.h), [CFComparisonResult], [CFRange] and the
    not-found index (CFBase.h). *)

From S2P Require Import Prelude.
From stdpp Require Import base list numbers option.
From Stdlib Require Import ZArith Lia.
Open Scope Z_scope.
Open Scope cf_scope.

(** ** CFBase.h *)

Definition kCFCompareLessThan : Z := -1.
Definition kCFCompareEqualTo : Z := 0.
Definition kCFCompareGreaterThan : Z := 1.

Definition kCFNotFound : Z := -1.

Record CFRange := CFRangeMake { location : Z; range_length : Z }.

(** ** flsl: one plus the index of the most significant set bit

    [while (mask != 0) mask = (unsigned long)mask >> 1, idx++;] on a 64-bit
    [long]: 64 rounds are enough because each one drops a bit. *)

Fixpoint flsl_loop (fuel : nat) (mask idx : Z) : Z :=
  match fuel with
  | O => idx
  | S f => if mask =? 0 then idx
           else flsl_loop f (Z.shiftr (uwrap 64 mask) 1) (idx + 1)
  end.

Definition flsl (mask : Z) : Z := flsl_loop 64 mask 0.

(** [1 << n] in [int]: undefined once the result leaves the type. *)
Definition int_shl1 (n : Z) : option Z :=
  if (0 <=? n) && (n <? 31) then Some (Z.shiftl 1 n) else None.

(** ** Bit fields of the 32-bit header word *)

Definition __CFBitfieldMask (N1 N2 : Z) : Z :=
  Z.shiftr (uwrap 32 (Z.shiftl (2 ^ 32 - 1) (31 - N1 + N2))) (31 - N1).

Definition __CFBitfieldGetValue (V N1 N2 : Z) : Z :=
  Z.shiftr (Z.land V (__CFBitfieldMask N1 N2)) N2.

Definition __CFBitfieldSetValue (V N1 N2 X : Z) : Z :=
  Z.lor (Z.land V (uwrap 32 (Z.lnot (__CFBitfieldMask N1 N2))))
        (Z.land (uwrap 32 (Z.shiftl X N2)) (__CFBitfieldMask N1 N2)).

(** ** flsl computes [log2 + 1] *)

Lemma flsl_loop_spec fuel : forall m idx,
  0 <= m < 2 ^ Z.of_nat fuel -> m < 2 ^ 64 ->
  flsl_loop fuel m idx = idx + (if m =? 0 then 0 else Z.log2 m + 1).
Proof.
  induction fuel as [|f IH]; intros m idx Hm Hb.
  - assert (m = 0) as -> by (change (2 ^ Z.of_nat 0) with 1 in Hm; lia). simpl. lia.
  - cbn [flsl_loop]. destruct (Z.eqb_spec m 0); [lia|].
    rewrite uwrap_id by (unfold in_unsigned; lia).
    rewrite Z.shiftr_div_pow2, Z.pow_1_r by lia.
    rewrite Nat2Z.inj_succ, Z.pow_succ_r in Hm by lia.
    assert (0 <= m / 2 < 2 ^ Z.of_nat f) by (split; [apply Z.div_pos|apply Z.div_lt_upper_bound]; lia).
    rewrite IH by (try lia; pose proof (Z.div_le_upper_bound m 2 m); lia).
    destruct (Z.eqb_spec (m / 2) 0) as [E|E].
    + assert (m = 1) as -> by (pose proof (Z.div_mod m 2); pose proof (Z.mod_pos_bound m 2); lia).
      simpl. lia.
    + assert (2 <= m) by (pose proof (Z.div_mod m 2); pose proof (Z.mod_pos_bound m 2); lia).
      rewrite <- (Z.div_1_r m) at 2.
      assert (Z.log2 m = Z.succ (Z.log2 (m / 2))).
      { rewrite <- Z.div2_div. symmetry. rewrite <- Z.log2_double by (rewrite Z.div2_div; lia).
        destruct (Z.eq_dec (m mod 2) 0) as [Ev|Od].
        - f_equal. rewrite Z.div2_div. pose proof (Z.div_mod m 2). lia.
        - assert (m = 2 * Z.div2 m + 1) as Em by (rewrite Z.div2_div; pose proof (Z.div_mod m 2); pose proof (Z.mod_pos_bound m 2); lia).
          rewrite Em at 2. rewrite Z.log2_succ_double, Z.log2_double by (rewrite Z.div2_div; lia). done. }
      rewrite Z.div_1_r. lia.
Qed.

Lemma flsl_spec m : 0 < m < 2 ^ 64 -> flsl m = Z.log2 m + 1.
Proof.
  intros. unfold flsl. rewrite flsl_loop_spec by (simpl in *; lia).
  destruct (Z.eqb_spec m 0); lia.
Qed.

(** A power of two above [m] and at most twice it. *)
Lemma shl_flsl_bounds m :
  0 < m < 2 ^ 30 -> exists c, int_shl1 (flsl m) = Some c /\ m < c <= 2 * m.
Proof.
  intros. rewrite flsl_spec by lia. pose proof (Z.log2_spec m).
  pose proof (Z.log2_nonneg m).
  assert (Z.log2 m < 30) by (apply Z.log2_lt_pow2; lia).
  unfold int_shl1. bool_case. simpl. exists (2 ^ (Z.log2 m + 1)).
  rewrite Z.shiftl_1_l. split; [done|]. rewrite Z.pow_add_r, Z.pow_succ_r in * by lia. lia.
Qed.
