(* ===== verification/CFBinaryHeap.v ===== *)
(** * CFBinaryHeap: the array-backed priority queue (CFBinaryHeap.c)

    The heap object is the record [__CFBinaryHeap]; its bucket store is a
    block of cells that may be unwritten.  Pointers are integers and a null
    function pointer is 0.  The client's callbacks are parameters of the
    model: [call_retain] gives what the retain callback returns,
    [call_compare] what the comparison callback returns for two values and
    the context info.  Calls of retain and release are events.

    The theorems: the heap order is an invariant of every operation, adding
    and removing change the contents as a multiset by exactly the value
    concerned, the minimum is the first bucket, [CFBinaryHeapGetValues]
    returns the contents in order, and retains and releases balance. *)

From S2P Require Import Prelude CFInternal.
From stdpp Require Import base list numbers option.
From Stdlib Require Import ZArith Lia Sorting.Permutation Sorting.Sorted.
Open Scope Z_scope.
Open Scope cf_scope.

Record CFBinaryHeapCallBacks := {
  retain : Z;
  release : Z;
  copyDescription : Z;
  compare : Z
}.

Record __CFBinaryHeap := mkHeap {
  _cfinfo : Z;
  _count : Z;
  _capacity : Z;
  _callbacks : CFBinaryHeapCallBacks;
  _context_info : Z;
  _buckets : list (option Z)
}.

(** ** Accessors *)

Definition __CFBinaryHeapRoundUpCapacity (capacity : Z) : option Z :=
  if capacity <? 4 then Some 4 else int_shl1 (flsl capacity).

Definition __CFBinaryHeapNumBucketsForCapacity (capacity : Z) : Z := capacity.

Definition __CFBinaryHeapCount (h : __CFBinaryHeap) : Z := _count h.

Definition __CFBinaryHeapSetCount (h : __CFBinaryHeap) (v : Z) : __CFBinaryHeap := h.

Definition __CFBinaryHeapCapacity (h : __CFBinaryHeap) : Z := _capacity h.

Definition __CFBinaryHeapSetCapacity (h : __CFBinaryHeap) (v : Z) : __CFBinaryHeap := h.

Definition __CFBinaryHeapNumBucketsUsed (h : __CFBinaryHeap) : Z := _count h.

Definition __CFBinaryHeapSetNumBucketsUsed (h : __CFBinaryHeap) (v : Z) : __CFBinaryHeap :=
  mkHeap (_cfinfo h) v (_capacity h) (_callbacks h) (_context_info h) (_buckets h).

Definition __CFBinaryHeapNumBuckets (h : __CFBinaryHeap) : Z := _capacity h.

Definition __CFBinaryHeapSetNumBuckets (h : __CFBinaryHeap) (v : Z) : __CFBinaryHeap :=
  mkHeap (_cfinfo h) (_count h) v (_callbacks h) (_context_info h) (_buckets h).

Definition set_buckets (h : __CFBinaryHeap) (b : list (option Z)) : __CFBinaryHeap :=
  mkHeap (_cfinfo h) (_count h) (_capacity h) (_callbacks h) (_context_info h) b.

Definition kCFBinaryHeapMutable : Z := 1.

Definition __CFBinaryHeapMutableVariety (h : __CFBinaryHeap) : Z :=
  __CFBitfieldGetValue (_cfinfo h) 3 2.

Definition __CFBinaryHeapSetMutableVariety (h : __CFBinaryHeap) (v : Z) : __CFBinaryHeap :=
  mkHeap (__CFBitfieldSetValue (_cfinfo h) 3 2 v) (_count h) (_capacity h)
         (_callbacks h) (_context_info h) (_buckets h).

Definition __CFBinaryHeapMutableVarietyFromFlags (flags : Z) : Z :=
  __CFBitfieldGetValue flags 1 0.

Definition __CFBinaryHeapHash (h : __CFBinaryHeap) : Z := __CFBinaryHeapCount h.

Definition CFBinaryHeapGetCount (h : __CFBinaryHeap) : Z := __CFBinaryHeapCount h.

Section Heap.
Context (call_retain : Z -> Z -> Z).
Context (call_compare : Z -> Z -> Z -> Z -> Z).

(** [item <= value], the test that ends the upward walk of an insertion:
    [(!compare && item <= value) ||
     (compare && kCFCompareGreaterThan != compare(item, value, info))]. *)
Definition item_le (cb : CFBinaryHeapCallBacks) (info item value : Z) : bool :=
  ((compare cb =? 0) && (item <=? value)) ||
  (negb (compare cb =? 0) &&
   negb (kCFCompareGreaterThan =? call_compare (compare cb) item value info)).

(** [item > value], the test of the downward walk of a removal. *)
Definition item_gt (cb : CFBinaryHeapCallBacks) (info item value : Z) : bool :=
  ((compare cb =? 0) && (value <? item)) ||
  (negb (compare cb =? 0) &&
   (kCFCompareGreaterThan =? call_compare (compare cb) item value info)).

(** ** Growing the store *)

(** Reallocation keeps the old cells; the new ones are unwritten.  When it
    fails the code stops the process ([HALT]). *)
Definition realloc_buckets (b : list (option Z)) (n : Z) : list (option Z) :=
  take (Z.to_nat n) b ++ replicate (Z.to_nat n - length b) None.

Definition __CFBinaryHeapGrow (h : __CFBinaryHeap) (numNewValues : Z) : option __CFBinaryHeap :=
  let oldCount := __CFBinaryHeapCount h in
  let* capacity := __CFBinaryHeapRoundUpCapacity (oldCount + numNewValues) in
  let h := __CFBinaryHeapSetCapacity h capacity in
  let h := __CFBinaryHeapSetNumBuckets h (__CFBinaryHeapNumBucketsForCapacity capacity) in
  Some (set_buckets h (realloc_buckets (_buckets h) (__CFBinaryHeapNumBuckets h))).

(** ** Adding a value *)

(** The loop walks the parents of [idx] down to 0; each round at least halves
    [idx], so [idx] rounds are enough. *)
Fixpoint add_loop (fuel : nat) (cb : CFBinaryHeapCallBacks) (info : Z)
    (b : list (option Z)) (idx value : Z) : option (list (option Z) * Z) :=
  let pidx := Z.shiftr (idx - 1) 1 in
  if 0 <? idx then
    match fuel with
    | O => None
    | S f =>
        let* item := rdi b pidx in
        if item_le cb info item value then Some (b, idx)
        else
          let* b := wr b idx (Some item) in
          add_loop f cb info b pidx value
    end
  else Some (b, idx).

Definition CFBinaryHeapAddValue (h : __CFBinaryHeap) (value : Z) : io __CFBinaryHeap :=
  do* h := io_lift
    (if __CFBinaryHeapMutableVariety h =? kCFBinaryHeapMutable then
       if __CFBinaryHeapNumBucketsUsed h =? __CFBinaryHeapCapacity h
       then __CFBinaryHeapGrow h 1 else Some h
     else Some h) in
  let cnt := __CFBinaryHeapCount h in
  let h := __CFBinaryHeapSetNumBucketsUsed h (cnt + 1) in
  let h := __CFBinaryHeapSetCount h (cnt + 1) in
  do* (b, idx) := io_lift
    (add_loop (Z.to_nat cnt) (_callbacks h) (_context_info h) (_buckets h) cnt value) in
  if negb (retain (_callbacks h) =? 0) then
    do* _ := emit (EvRetain (retain (_callbacks h)) value) in
    do* b := io_lift (wr b idx (Some (call_retain (retain (_callbacks h)) value))) in
    io_ret (set_buckets h b)
  else
    do* b := io_lift (wr b idx (Some value)) in
    io_ret (set_buckets h b).

(** ** Removing the minimum *)

(** The loop walks down from [idx] along the smaller children; each round
    at least doubles [idx + 1], so [cnt] rounds are enough. *)
Fixpoint remove_loop (fuel : nat) (cb : CFBinaryHeapCallBacks) (info cnt : Z)
    (b : list (option Z)) (idx val : Z) : option (list (option Z) * Z) :=
  let cidx := Z.shiftl idx 1 + 1 in
  if cidx <? cnt then
    match fuel with
    | O => None
    | S f =>
        let* item := rdi b cidx in
        let* (cidx, item) :=
          (if cidx + 1 <? cnt then
             let* item2 := rdi b (cidx + 1) in
             if item_gt cb info item item2 then Some (cidx + 1, item2)
             else Some (cidx, item)
           else Some (cidx, item)) in
        if item_gt cb info item val then Some (b, idx)
        else
          let* b := wr b idx (Some item) in
          remove_loop f cb info cnt b cidx val
    end
  else Some (b, idx).

Definition CFBinaryHeapRemoveMinimumValue (h : __CFBinaryHeap) : io __CFBinaryHeap :=
  let cnt := __CFBinaryHeapCount h in
  if 0 =? cnt then io_ret h else
  let h := __CFBinaryHeapSetNumBucketsUsed h (cnt - 1) in
  let h := __CFBinaryHeapSetCount h (cnt - 1) in
  do* _ :=
    (if negb (release (_callbacks h) =? 0) then
       do* item := io_lift (rdi (_buckets h) 0) in
       emit (EvRelease (release (_callbacks h)) item)
     else io_ret tt) in
  do* val := io_lift (rdi (_buckets h) (cnt - 1)) in
  do* (b, idx) := io_lift
    (remove_loop (Z.to_nat cnt) (_callbacks h) (_context_info h)
       (__CFBinaryHeapCount h) (_buckets h) 0 val) in
  do* b := io_lift (wr b idx (Some val)) in
  io_ret (set_buckets h b).

(** ** Removing everything, creating, copying *)

Fixpoint release_loop (fp : Z) (b : list (option Z)) (idx : Z) (n : nat) : io unit :=
  match n with
  | O => io_ret tt
  | S n =>
      do* item := io_lift (rdi b idx) in
      do* _ := emit (EvRelease fp item) in
      release_loop fp b (idx + 1) n
  end.

Definition CFBinaryHeapRemoveAllValues (h : __CFBinaryHeap) : io __CFBinaryHeap :=
  let cnt := __CFBinaryHeapCount h in
  do* _ :=
    (if negb (release (_callbacks h) =? 0)
     then release_loop (release (_callbacks h)) (_buckets h) 0 (Z.to_nat cnt)
     else io_ret tt) in
  let h := __CFBinaryHeapSetNumBucketsUsed h 0 in
  let h := __CFBinaryHeapSetCount h 0 in
  io_ret h.

(** The deallocator: the values are removed and the store is freed. *)
Definition __CFBinaryHeapDeallocate (h : __CFBinaryHeap) : io __CFBinaryHeap :=
  do* h := CFBinaryHeapRemoveAllValues h in
  if __CFBinaryHeapMutableVariety h =? kCFBinaryHeapMutable
  then io_ret (set_buckets h []) else io_ret h.

Fixpoint add_all (h : __CFBinaryHeap) (values : list (option Z)) (idx : Z) (n : nat) :
    io __CFBinaryHeap :=
  match n with
  | O => io_ret h
  | S n =>
      do* v := io_lift (rdi values idx) in
      do* h := CFBinaryHeapAddValue h v in
      add_all h values (idx + 1) n
  end.

Definition null_callbacks : CFBinaryHeapCallBacks := Build_CFBinaryHeapCallBacks 0 0 0 0.

(** [instance_ok] and [store_ok] say whether the allocator returned memory
    for the object and for its buckets; the result is [None] (NULL) when
    one of them failed.  A fresh instance is zeroed by the runtime apart
    from its header word, which marks the system allocator (0x80). *)
Definition __CFBinaryHeapInit (instance_ok store_ok : bool) (flags capacity : Z)
    (values : list (option Z)) (numValues : Z)
    (callBacks : option CFBinaryHeapCallBacks) (compareContext : option Z) :
    io (option __CFBinaryHeap) :=
  if negb instance_ok then io_ret None else
  let memory := mkHeap 128 0 0 null_callbacks 0 [] in
  do* cap := io_lift (__CFBinaryHeapRoundUpCapacity 1) in
  let memory := __CFBinaryHeapSetCapacity memory cap in
  let memory := __CFBinaryHeapSetNumBuckets memory (__CFBinaryHeapNumBucketsForCapacity cap) in
  if negb store_ok then io_ret None else
  let memory := set_buckets memory
    (replicate (Z.to_nat (__CFBinaryHeapNumBuckets memory)) None) in
  let memory := __CFBinaryHeapSetNumBucketsUsed memory 0 in
  let memory := __CFBinaryHeapSetCount memory 0 in
  let memory := mkHeap (_cfinfo memory) (_count memory) (_capacity memory)
    (match callBacks with Some cb => cb | None => null_callbacks end)
    (match compareContext with Some info => info | None => 0 end)
    (_buckets memory) in
  let memory := __CFBinaryHeapSetMutableVariety memory kCFBinaryHeapMutable in
  do* memory := add_all memory values 0 (Z.to_nat numValues) in
  io_ret (Some (__CFBinaryHeapSetMutableVariety memory
                  (__CFBinaryHeapMutableVarietyFromFlags flags))).

Definition CFBinaryHeapCreate (instance_ok store_ok : bool) (capacity : Z)
    (callBacks : option CFBinaryHeapCallBacks) (compareContext : option Z) :
    io (option __CFBinaryHeap) :=
  __CFBinaryHeapInit instance_ok store_ok kCFBinaryHeapMutable capacity [] 0
    callBacks compareContext.

Definition CFBinaryHeapCreateCopy (instance_ok store_ok : bool) (capacity : Z)
    (h : __CFBinaryHeap) : io (option __CFBinaryHeap) :=
  __CFBinaryHeapInit instance_ok store_ok kCFBinaryHeapMutable capacity
    (_buckets h) (__CFBinaryHeapCount h) (Some (_callbacks h)) (Some (_context_info h)).

(** ** Queries *)

Definition value_matches (cb : CFBinaryHeapCallBacks) (info value item : Z) : bool :=
  (value =? item) ||
  (negb (compare cb =? 0) &&
   (kCFCompareEqualTo =? call_compare (compare cb) value item info)).

Fixpoint count_loop (h : __CFBinaryHeap) (value idx : Z) (n : nat) (cnt : Z) : option Z :=
  match n with
  | O => Some cnt
  | S n =>
      let* item := rdi (_buckets h) idx in
      count_loop h value (idx + 1) n
        (if value_matches (_callbacks h) (_context_info h) value item then cnt + 1 else cnt)
  end.

Definition CFBinaryHeapGetCountOfValue (h : __CFBinaryHeap) (value : Z) : option Z :=
  count_loop h value 0 (Z.to_nat (__CFBinaryHeapCount h)) 0.

Fixpoint contains_loop (h : __CFBinaryHeap) (value idx : Z) (n : nat) : option bool :=
  match n with
  | O => Some false
  | S n =>
      let* item := rdi (_buckets h) idx in
      if value_matches (_callbacks h) (_context_info h) value item then Some true
      else contains_loop h value (idx + 1) n
  end.

Definition CFBinaryHeapContainsValue (h : __CFBinaryHeap) (value : Z) : option bool :=
  contains_loop h value 0 (Z.to_nat (__CFBinaryHeapCount h)).

Definition CFBinaryHeapGetMinimum (h : __CFBinaryHeap) : option Z :=
  if 0 <? __CFBinaryHeapCount h then rdi (_buckets h) 0 else Some 0.

(** The boolean result, and the value stored through the [value] pointer
    when that pointer is not NULL ([wanted]). *)
Definition CFBinaryHeapGetMinimumIfPresent (h : __CFBinaryHeap) (wanted : bool) :
    option (bool * option Z) :=
  if 0 =? __CFBinaryHeapCount h then Some (false, None)
  else if wanted then let* v := rdi (_buckets h) 0 in Some (true, Some v)
  else Some (true, None).

(** ** Draining a copy: the sorted contents *)

Fixpoint drain_loop (fuel : nat) (h : __CFBinaryHeap) (values : list Z) :
    io (__CFBinaryHeap * list Z) :=
  if 0 <? __CFBinaryHeapCount h then
    match fuel with
    | O => None
    | S f =>
        do* value := io_lift (CFBinaryHeapGetMinimum h) in
        do* h := CFBinaryHeapRemoveMinimumValue h in
        drain_loop f h (values ++ [value])
    end
  else io_ret (h, values).

(** The array written through [values]; the copy is released at the end,
    which runs its deallocator.  The copy's allocations are taken to
    succeed: the code does not test them. *)
Definition CFBinaryHeapGetValues (h : __CFBinaryHeap) : io (list Z) :=
  let cnt := __CFBinaryHeapCount h in
  if 0 =? cnt then io_ret [] else
  do* copy := CFBinaryHeapCreateCopy true true cnt h in
  do* heapCopy := io_lift copy in
  do* (heapCopy, values) := drain_loop (Z.to_nat cnt) heapCopy [] in
  do* _ := __CFBinaryHeapDeallocate heapCopy in
  io_ret values.

Fixpoint apply_loop (fuel : nat) (h : __CFBinaryHeap) (applier context : Z) : io __CFBinaryHeap :=
  if 0 <? __CFBinaryHeapCount h then
    match fuel with
    | O => None
    | S f =>
        do* value := io_lift (CFBinaryHeapGetMinimum h) in
        do* h := CFBinaryHeapRemoveMinimumValue h in
        do* _ := emit (EvApply applier value context) in
        apply_loop f h applier context
    end
  else io_ret h.

Definition CFBinaryHeapApplyFunction (h : __CFBinaryHeap) (applier context : Z) : io unit :=
  let cnt := __CFBinaryHeapCount h in
  if 0 =? cnt then io_ret tt else
  do* copy := CFBinaryHeapCreateCopy true true cnt h in
  do* heapCopy := io_lift copy in
  do* heapCopy := apply_loop (Z.to_nat cnt) heapCopy applier context in
  do* _ := __CFBinaryHeapDeallocate heapCopy in
  io_ret tt.

(** ** Equality *)

Fixpoint equal_loop (cb : CFBinaryHeapCallBacks) (info : Z) (list1 list2 : list Z) : bool :=
  match list1, list2 with
  | val1 :: list1, val2 :: list2 =>
      if negb (val1 =? val2) then
        if compare cb =? 0 then false
        else if call_compare (compare cb) val1 val2 info =? 0 then false
        else equal_loop cb info list1 list2
      else equal_loop cb info list1 list2
  | _, _ => true
  end.

Definition __CFBinaryHeapEqual (heap1 heap2 : __CFBinaryHeap) : io bool :=
  let cnt := __CFBinaryHeapCount heap1 in
  if negb (cnt =? __CFBinaryHeapCount heap2) then io_ret false else
  if negb (compare (_callbacks heap1) =? compare (_callbacks heap2)) then io_ret false else
  if 0 =? cnt then io_ret true else
  do* list1 := CFBinaryHeapGetValues heap1 in
  do* list2 := CFBinaryHeapGetValues heap2 in
  io_ret (equal_loop (_callbacks heap1) (_context_info heap1) list1 list2).

End Heap.

(** ** The heap order

    [le a b] is "[a] does not compare greater than [b]".  The comparison
    callback must be a total preorder for the heap to mean anything
    (CFBinaryHeap.h documents it as an ordering); with no callback the
    pointers themselves are compared, which always is one. *)

Class HeapOrder (call_compare : Z -> Z -> Z -> Z -> Z)
    (cb : CFBinaryHeapCallBacks) (info : Z) : Prop := {
  gt_asym a b : item_gt call_compare cb info a b = true ->
                item_gt call_compare cb info b a = false;
  ngt_trans a b c : item_gt call_compare cb info a b = false ->
                    item_gt call_compare cb info b c = false ->
                    item_gt call_compare cb info a c = false
}.

(** With a NULL comparison callback the order is the one on addresses. *)
#[export] Instance null_compare_order call_compare r d c info :
  HeapOrder call_compare (Build_CFBinaryHeapCallBacks r d c 0) info.
Proof.
  split; intros *; unfold item_gt; simpl; rewrite ?orb_false_r; bool_case; done.
Qed.

Definition parent (j : nat) : nat := ((j - 1) / 2)%nat.

Lemma parent_lt j : (0 < j -> parent j < j)%nat.
Proof. intros. unfold parent. apply Nat.Div0.div_lt_upper_bound. lia. Qed.

Lemma parent_children i j :
  (0 < j)%nat -> parent j = i <-> (j = 2 * i + 1 \/ j = 2 * i + 2)%nat.
Proof.
  unfold parent. intros. pose proof (Nat.div_mod_eq (j - 1) 2).
  pose proof (Nat.mod_upper_bound (j - 1) 2). lia.
Qed.

Section Order.
Context (call_compare : Z -> Z -> Z -> Z -> Z) (cb : CFBinaryHeapCallBacks) (info : Z).
Context `{!HeapOrder call_compare cb info}.

Definition le (a b : Z) : Prop := item_gt call_compare cb info a b = false.

Lemma item_le_gt a b : item_le call_compare cb info a b = negb (item_gt call_compare cb info a b).
Proof. unfold item_le, item_gt. bool_case; simpl; by rewrite ?orb_false_r. Qed.

Lemma le_total a b : item_gt call_compare cb info a b = true -> le b a.
Proof. apply gt_asym. Qed.

Lemma le_trans a b c : le a b -> le b c -> le a c.
Proof. apply ngt_trans. Qed.

Lemma le_refl a : le a a.
Proof. unfold le. destruct (item_gt _ _ _ a a) eqn:E; [|done]. pose proof (gt_asym _ _ E). congruence. Qed.

Definition edge (l : list Z) (j : nat) : Prop := le (l !!! parent j) (l !!! j).

Definition heap_ordered (l : list Z) : Prop :=
  forall j, (0 < j < length l)%nat -> edge l j.

(** The first element is a lower bound of all. *)
Lemma heap_root_min l j : heap_ordered l -> (j < length l)%nat -> le (l !!! 0%nat) (l !!! j).
Proof.
  intros Hl. induction j as [j IH] using lt_wf_ind. intros Hj.
  destruct (decide (j = 0%nat)) as [->|]; [apply le_refl|].
  pose proof (parent_lt j). eapply le_trans; [apply (IH (parent j))|apply Hl]; lia.
Qed.

(** Invariants of the two walks: [l] is the contents with the travelling
    value at [idx]. *)
Definition up_inv (l : list Z) (idx : nat) : Prop :=
  (forall j, (0 < j < length l)%nat -> j <> idx -> edge l j) /\
  (forall j, (0 < j < length l)%nat -> parent j = idx -> (0 < idx)%nat ->
             le (l !!! parent idx) (l !!! j)).

Definition down_inv (l : list Z) (idx : nat) : Prop :=
  (forall j, (0 < j < length l)%nat -> parent j <> idx -> edge l j) /\
  (forall j, (0 < j < length l)%nat -> parent j = idx -> (0 < idx)%nat ->
             le (l !!! parent idx) (l !!! j)).

(** Exchanging the cells [i] and [j]. *)
Definition exchange (l : list Z) (i j : nat) : list Z :=
  <[i := l !!! j]> (<[j := l !!! i]> l).

Lemma length_exchange l i j : length (exchange l i j) = length l.
Proof. unfold exchange. by rewrite !length_insert. Qed.

Lemma exchange_perm l i j :
  (i < length l)%nat -> (j < length l)%nat -> exchange l i j ≡ₚ l.
Proof.
  intros. unfold exchange. apply insert_swap_Permutation;
    by apply list_lookup_lookup_total_lt.
Qed.

Lemma exchange_lookup l i j k :
  (i < length l)%nat -> (j < length l)%nat ->
  exchange l i j !!! k =
    if decide (k = i) then l !!! j else if decide (k = j) then l !!! i else l !!! k.
Proof.
  intros. unfold exchange. repeat case_decide; subst.
  - by rewrite list_lookup_total_insert_eq by (rewrite length_insert; lia).
  - by rewrite list_lookup_total_insert_ne, list_lookup_total_insert_eq by done.
  - by rewrite !list_lookup_total_insert_ne by done.
Qed.

Ltac exch := rewrite !exchange_lookup by lia; repeat case_decide; subst; try lia.

Lemma up_inv_step l idx :
  (0 < idx < length l)%nat -> up_inv l idx ->
  item_gt call_compare cb info (l !!! parent idx) (l !!! idx) = true ->
  up_inv (exchange l (parent idx) idx) (parent idx).
Proof.
  intros Hi [H1 H2] Hgt. apply le_total in Hgt. pose proof (parent_lt idx ltac:(lia)).
  split; rewrite length_exchange; unfold edge in *.
  - intros j Hj Hne. pose proof (parent_lt j ltac:(lia)). exch; [done| |apply H2; lia|apply H1; lia].
    eapply le_trans; [done|]. replace (parent idx) with (parent j) by done. apply H1; lia.
  - intros j Hj Hp Hpos. pose proof (parent_lt j ltac:(lia)).
    pose proof (parent_lt (parent idx) Hpos). exch.
    + apply (H1 (parent idx)); lia.
    + eapply le_trans; [apply (H1 (parent idx)); lia|].
      replace (parent idx) with (parent j) by done. apply H1; lia.
Qed.

Lemma up_inv_stop l idx :
  (idx < length l)%nat -> up_inv l idx ->
  (0 < idx)%nat -> le (l !!! parent idx) (l !!! idx) -> heap_ordered l.
Proof.
  intros Hi [H1 _] Hpos Hle j Hj. destruct (decide (j = idx)) as [->|]; [done|by apply H1].
Qed.

Lemma down_inv_step l idx c :
  (idx < length l)%nat -> (0 < c < length l)%nat -> parent c = idx -> down_inv l idx ->
  (forall j, (0 < j < length l)%nat -> parent j = idx -> le (l !!! c) (l !!! j)) ->
  le (l !!! c) (l !!! idx) ->
  down_inv (exchange l idx c) c.
Proof.
  intros Hi Hc Hpc [H1 H2] Hmin Hle. pose proof (parent_lt c ltac:(lia)).
  split; rewrite length_exchange; unfold edge in *.
  - intros j Hj Hne. pose proof (parent_lt j ltac:(lia)).
    exch; [done|apply Hmin; lia|apply H2; lia|apply H1; lia].
  - intros j Hj Hp Hpos. pose proof (parent_lt j ltac:(lia)). rewrite Hpc. exch.
    apply H1; lia.
Qed.

Lemma down_inv_stop l idx :
  down_inv l idx ->
  (forall j, (0 < j < length l)%nat -> parent j = idx -> le (l !!! idx) (l !!! j)) ->
  heap_ordered l.
Proof.
  intros [H1 _] Hc j Hj. destruct (decide (parent j = idx)) as [E|]; [|by apply H1].
  unfold edge. rewrite E. by apply Hc.
Qed.

(** ** The walks on the bucket store

    [hole_rep b idx v l spare]: with [v] written at [idx], the store holds
    the contents [l] followed by the [spare] cells. *)
Definition hole_rep (b : list (option Z)) (idx : nat) (l : list Z) (spare : list (option Z)) : Prop :=
  (idx < length l)%nat /\ <[idx := Some (l !!! idx)]> b = (Some <$> l) ++ spare.

Lemma hole_rep_length b idx l spare :
  hole_rep b idx l spare -> length b = (length l + length spare)%nat.
Proof. intros [_ E]. apply (f_equal length) in E. cf_lia. Qed.

Lemma hole_rep_read b idx l spare k :
  hole_rep b idx l spare -> k <> idx -> (k < length l)%nat ->
  rdi b (Z.of_nat k) = Some (l !!! k).
Proof.
  intros [_ E] Hne Hk. apply rdi_nat.
  rewrite <- (list_lookup_insert_ne b idx k (Some (l !!! idx))) by done.
  rewrite E, lookup_app_l by (rewrite length_fmap; lia).
  rewrite list_lookup_fmap, list_lookup_lookup_total_lt by done. done.
Qed.

Lemma hole_rep_step b idx l spare k :
  hole_rep b idx l spare -> k <> idx -> (k < length l)%nat ->
  hole_rep (<[idx := Some (l !!! k)]> b) k (exchange l k idx) spare.
Proof.
  intros [Hi E] Hne Hk. split; [by rewrite length_exchange|].
  rewrite exchange_lookup by lia. rewrite decide_True by done.
  rewrite <- (list_insert_insert_eq b idx (Some (l !!! k)) (Some (l !!! idx))), E.
  unfold exchange. rewrite !list_fmap_insert.
  rewrite !insert_app_l by (rewrite ?length_insert, length_fmap; lia). done.
Qed.

Lemma exchange_comm l i j : i <> j -> exchange l i j = exchange l j i.
Proof. intros. unfold exchange. by rewrite list_insert_insert_ne. Qed.

Lemma parent_shiftr j : (0 < j)%nat -> Z.shiftr (Z.of_nat j - 1) 1 = Z.of_nat (parent j).
Proof.
  intros. rewrite Z.shiftr_div_pow2 by lia. unfold parent.
  rewrite Nat2Z.inj_div. f_equal. lia.
Qed.

(** What both walks establish: the travelling value [v] has a place [idx']
    at which the store is the heap-ordered list [l']. *)
Definition settled (v : Z) (l : list Z) (spare : list (option Z)) (r : option (list (option Z) * Z)) : Prop :=
  exists b' idx' l', r = Some (b', Z.of_nat idx') /\ hole_rep b' idx' l' spare /\
    l' !!! idx' = v /\ l' ≡ₚ l /\ heap_ordered l'.

Lemma settled_perm v l1 l2 spare r : l1 ≡ₚ l2 -> settled v l1 spare r -> settled v l2 spare r.
Proof. intros E (b' & i' & l' & ? & ? & ? & Hp & ?). exists b', i', l'. by rewrite <- E. Qed.

Lemma add_loop_spec fuel : forall b idx l spare,
  hole_rep b idx l spare -> up_inv l idx -> (idx <= fuel)%nat ->
  settled (l !!! idx) l spare (add_loop call_compare fuel cb info b (Z.of_nat idx) (l !!! idx)).
Proof.
  induction fuel as [|f IH]; intros b idx l spare Hrep Hinv Hf; simpl;
    (destruct (Z.ltb_spec 0 (Z.of_nat idx)) as [Hpos|Hz];
     [|exists b, idx, l; split_and!; try done; intros j Hj; apply Hinv; lia]); [lia|].
  pose proof Hrep as [Hi _]. pose proof (parent_lt idx ltac:(lia)) as Hp.
  rewrite parent_shiftr by lia.
  rewrite (hole_rep_read b idx l spare) by (done || lia). cbn [opt_bind].
  rewrite item_le_gt. destruct (item_gt _ _ _ _ _) eqn:Hgt; simpl.
  - rewrite wr_nat by (rewrite (hole_rep_length _ _ _ _ Hrep); lia). cbn [opt_bind].
    pose proof (hole_rep_step _ _ _ _ (parent idx) Hrep ltac:(lia) ltac:(lia)) as Hrep'.
    assert (exchange l (parent idx) idx !!! parent idx = l !!! idx) as Hv
      by (rewrite exchange_lookup, decide_True by (done || lia); done).
    rewrite <- Hv. eapply settled_perm; [apply (exchange_perm l (parent idx) idx); lia|].
    apply IH; [done|apply up_inv_step; [lia|done|done]|lia].
  - exists b, idx, l. split_and!; try done. eapply up_inv_stop; eauto; lia.
Qed.

(** Both children of [idx], the second of which may not exist. *)
Lemma smaller_child l idx c :
  (0 < c < length l)%nat -> (c = 2 * idx + 1 \/ c = 2 * idx + 2)%nat ->
  le (l !!! c) (l !!! (2 * idx + 1)%nat) ->
  ((2 * idx + 2 < length l)%nat -> le (l !!! c) (l !!! (2 * idx + 2)%nat)) ->
  forall j, (0 < j < length l)%nat -> parent j = idx -> le (l !!! c) (l !!! j).
Proof. intros ? ? H1 H2 j Hj E. apply parent_children in E as [->| ->]; [done|apply H2|]; lia. Qed.

Lemma remove_loop_go fuel b idx l spare c
    (IH : forall b idx l spare, hole_rep b idx l spare -> down_inv l idx ->
            (length l - idx <= fuel)%nat ->
            settled (l !!! idx) l spare
              (remove_loop call_compare fuel cb info (Z.of_nat (length l)) b (Z.of_nat idx) (l !!! idx))) :
  hole_rep b idx l spare -> down_inv l idx -> (length l - idx <= S fuel)%nat ->
  (0 < c < length l)%nat -> parent c = idx ->
  (forall j, (0 < j < length l)%nat -> parent j = idx -> le (l !!! c) (l !!! j)) ->
  settled (l !!! idx) l spare
    (if item_gt call_compare cb info (l !!! c) (l !!! idx) then Some (b, Z.of_nat idx)
     else opt_bind (wr b (Z.of_nat idx) (Some (l !!! c))) (fun b =>
       remove_loop call_compare fuel cb info (Z.of_nat (length l)) b (Z.of_nat c) (l !!! idx))).
Proof.
  intros Hrep Hinv Hf Hc Hpc Hmin. pose proof Hrep as [Hi _].
  pose proof (parent_lt c ltac:(lia)). destruct (item_gt _ _ _ _ _) eqn:Hgt.
  - exists b, idx, l. split_and!; try done. apply down_inv_stop with idx; [done|].
    intros j Hj Hpj. eapply le_trans; [by apply le_total|by apply Hmin].
  - rewrite wr_nat by (rewrite (hole_rep_length _ _ _ _ Hrep); lia). cbn [opt_bind].
    pose proof (hole_rep_step _ _ _ _ c Hrep ltac:(lia) ltac:(lia)) as Hrep'.
    assert (exchange l c idx !!! c = l !!! idx) as Hv
      by (rewrite exchange_lookup, decide_True by (done || lia); done).
    rewrite <- Hv. rewrite <- (length_exchange l c idx).
    eapply settled_perm; [apply (exchange_perm l c idx); lia|].
    apply IH; [done| |rewrite length_exchange; lia].
    rewrite exchange_comm by lia. by apply down_inv_step.
Qed.

Lemma remove_loop_spec fuel : forall b idx l spare,
  hole_rep b idx l spare -> down_inv l idx -> (length l - idx <= fuel)%nat ->
  settled (l !!! idx) l spare
    (remove_loop call_compare fuel cb info (Z.of_nat (length l)) b (Z.of_nat idx) (l !!! idx)).
Proof.
  induction fuel as [|f IH]; intros b idx l spare Hrep Hinv Hf; pose proof Hrep as [Hi _]; [lia|].
  cbn [remove_loop]. rewrite Z.shiftl_mul_pow2 by lia.
  replace (Z.of_nat idx * 2 ^ 1 + 1) with (Z.of_nat (2 * idx + 1)) by lia.
  replace (Z.of_nat (2 * idx + 1) + 1) with (Z.of_nat (2 * idx + 2)) by lia.
  assert (forall c, c = (2 * idx + 1)%nat \/ c = (2 * idx + 2)%nat -> parent c = idx) as Hpar
    by (intros c Hc; apply parent_children; lia).
  destruct (Z.ltb_spec (Z.of_nat (2 * idx + 1)) (Z.of_nat (length l))) as [Hc|Hc].
  2: { exists b, idx, l. split_and!; try done. eapply down_inv_stop; [done|].
       intros j Hj E. apply parent_children in E; lia. }
  rewrite (hole_rep_read b idx l spare) by (done || lia). cbn [opt_bind].
  destruct (Z.ltb_spec (Z.of_nat (2 * idx + 2)) (Z.of_nat (length l))) as [Hc2|Hc2].
  - rewrite (hole_rep_read b idx l spare) by (done || lia). cbn [opt_bind].
    destruct (item_gt call_compare cb info (l !!! (2 * idx + 1)%nat) _) eqn:Hgt; cbn [opt_bind];
      apply remove_loop_go; auto; try lia; apply smaller_child; auto; try lia;
      intros; try apply le_refl; try done. by apply le_total.
  - cbn [opt_bind]. apply remove_loop_go; auto; try lia. apply smaller_child; auto; try lia.
    apply le_refl.
Qed.

End Order.

(** ** Well-formed heaps

    [heap_wf h vals]: the object [h] holds the values [vals], in bucket
    order, heap-ordered, in the first [_count] of [_capacity] cells. *)

Record heap_wf (call_compare : Z -> Z -> Z -> Z -> Z) (h : __CFBinaryHeap) (vals : list Z) : Prop := {
  wf_count : _count h = Z.of_nat (length vals);
  wf_capacity : _capacity h = Z.of_nat (length (_buckets h));
  wf_store : exists spare, _buckets h = (Some <$> vals) ++ spare;
  wf_mutable : __CFBinaryHeapMutableVariety h = kCFBinaryHeapMutable;
  wf_ordered : heap_ordered call_compare (_callbacks h) (_context_info h) vals
}.

(** Operations never touch the callbacks or the context. *)
Definition same_object (h h' : __CFBinaryHeap) : Prop :=
  _callbacks h' = _callbacks h /\ _context_info h' = _context_info h /\ _cfinfo h' = _cfinfo h.

Lemma same_object_trans h1 h2 h3 : same_object h1 h2 -> same_object h2 h3 -> same_object h1 h3.
Proof. unfold same_object. intuition congruence. Qed.

Definition retain_events (cb : CFBinaryHeapCallBacks) (v : Z) : list event :=
  if retain cb =? 0 then [] else [EvRetain (retain cb) v].

Definition release_events (cb : CFBinaryHeapCallBacks) (v : Z) : list event :=
  if release cb =? 0 then [] else [EvRelease (release cb) v].

(** Unfolds the accessors. *)
Ltac heap_cbn :=
  unfold set_buckets, __CFBinaryHeapCount, __CFBinaryHeapSetCount, __CFBinaryHeapCapacity,
    __CFBinaryHeapSetCapacity, __CFBinaryHeapNumBucketsUsed, __CFBinaryHeapSetNumBucketsUsed,
    __CFBinaryHeapNumBuckets, __CFBinaryHeapSetNumBuckets, __CFBinaryHeapNumBucketsForCapacity,
    io_lift, io_ret, emit;
  cbn [_cfinfo _count _capacity _callbacks _context_info _buckets opt_bind io_bind app].

(** The value that is stored for a value that is added. *)
Definition stored_value (call_retain : Z -> Z -> Z) (cb : CFBinaryHeapCallBacks) (v : Z) : Z :=
  if retain cb =? 0 then v else call_retain (retain cb) v.

(** Neither value is greater than the other. *)
Definition same_rank (call_compare : Z -> Z -> Z -> Z -> Z) (cb : CFBinaryHeapCallBacks) (info v w : Z) : Prop :=
  le call_compare cb info v w /\ le call_compare cb info w v.

Section Operations.
Context (call_retain : Z -> Z -> Z) (call_compare : Z -> Z -> Z -> Z -> Z).

Abbreviation wf := (heap_wf call_compare).
Abbreviation order h := (HeapOrder call_compare (_callbacks h) (_context_info h)).
Abbreviation ordered h := (heap_ordered call_compare (_callbacks h) (_context_info h)).

Lemma wf_length_le h vals : wf h vals -> (length vals <= length (_buckets h))%nat.
Proof. intros [_ _ [spare E] _ _]. rewrite E. cf_lia. Qed.

Lemma rdi_contents (vals : list Z) spare i :
  (i < length vals)%nat -> rdi ((Some <$> vals) ++ spare) (Z.of_nat i) = Some (vals !!! i).
Proof.
  intros. apply rdi_nat. rewrite lookup_app_l by (rewrite length_fmap; lia).
  by rewrite list_lookup_fmap, list_lookup_lookup_total_lt.
Qed.

Lemma contents_loop_read (pre : list Z) v vals spare :
  rdi ((Some <$> pre ++ v :: vals) ++ spare) (Z.of_nat (length pre)) = Some v.
Proof.
  rewrite rdi_contents by cf_lia.
  by rewrite lookup_total_app_r, Nat.sub_diag by lia.
Qed.

(** *** Adding *)

Lemma grow_spec h vals :
  wf h vals -> _count h = _capacity h -> _count h + 1 < 2 ^ 30 ->
  exists h', __CFBinaryHeapGrow h 1 = Some h' /\ wf h' vals /\ same_object h h' /\
    _count h' < _capacity h'.
Proof.
  intros Hwf Heq Hb. pose proof Hwf as [Hc Hcap [spare Hs] Hm Ho].
  assert (exists c, __CFBinaryHeapRoundUpCapacity (_count h + 1) = Some c /\ _count h + 1 <= c) as (c & Ec & Hle).
  { unfold __CFBinaryHeapRoundUpCapacity. destruct (Z.ltb_spec (_count h + 1) 4); [exists 4; split; [done|lia]|].
    destruct (shl_flsl_bounds (_count h + 1)) as (c & ? & ?); [lia|]. exists c. split; [done|lia]. }
  unfold __CFBinaryHeapGrow, __CFBinaryHeapCount. rewrite Ec. eexists. split; [done|].
  assert (length (realloc_buckets (_buckets h) c) = Z.to_nat c) as Hlen
    by (unfold realloc_buckets; cf_lia).
  assert (spare = []) as -> by (destruct spare; [done|]; rewrite Hs in *; cf_lia).
  split; [split; heap_cbn; try done|split; [done|heap_cbn; lia]].
  - rewrite Hlen. lia.
  - unfold realloc_buckets. rewrite Hs, app_nil_r, take_ge by cf_lia. eauto.
Qed.

Lemma edge_app_l `{!order h} vals v j :
  (0 < j < length vals)%nat ->
  edge call_compare (_callbacks h) (_context_info h) vals j ->
  edge call_compare (_callbacks h) (_context_info h) (vals ++ [v]) j.
Proof.
  intros. unfold edge in *. pose proof (parent_lt j ltac:(lia)).
  by rewrite !lookup_total_app_l by lia.
Qed.

Lemma add_place `{!order h} vals v c spare :
  ordered h vals ->
  settled call_compare (_callbacks h) (_context_info h) v (vals ++ [v]) spare
    (add_loop call_compare (length vals) (_callbacks h) (_context_info h)
       ((Some <$> vals) ++ c :: spare) (Z.of_nat (length vals)) v).
Proof.
  intros Ho. assert ((vals ++ [v]) !!! length vals = v) as Hv
    by (rewrite lookup_total_app_r, Nat.sub_diag by lia; done).
  rewrite <- Hv at 1 3. apply add_loop_spec; [done|split| |lia].
  - cf_lia.
  - rewrite Hv, fmap_app, <- (assoc_L (++)). rewrite <- (length_fmap Some vals).
    by rewrite insert_app_r_alt, Nat.sub_diag by lia.
  - split; intros j Hj; autorewrite with cf_len in Hj; simpl in Hj.
    + intros. apply edge_app_l; [lia|]. apply Ho. lia.
    + intros E. pose proof (parent_lt j ltac:(lia)). lia.
Qed.

(** A settled store with the value written back is a heap. *)
Lemma settled_wf h v l spare b idx n :
  settled call_compare (_callbacks h) (_context_info h) v l spare (Some (b, idx)) ->
  __CFBinaryHeapMutableVariety h = kCFBinaryHeapMutable ->
  _capacity h = Z.of_nat (length l + length spare) -> n = Z.of_nat (length l) ->
  _count h = n ->
  exists b' vals', wr b idx (Some v) = Some b' /\ wf (set_buckets h b') vals' /\ vals' ≡ₚ l.
Proof.
  intros (b0 & i & l' & [= -> ->] & Hrep & Hv & Hp & Ho) Hm Hcap -> Hn.
  pose proof (hole_rep_length _ _ _ _ Hrep) as Hl. destruct Hrep as [Hi E].
  pose proof (Permutation_length Hp). rewrite wr_nat by lia. rewrite Hv in E.
  exists ((Some <$> l') ++ spare), l'. rewrite E. split; [done|]. split; [|done].
  split; simpl; try done; [lia| |eauto]. rewrite Hcap. cf_lia.
Qed.

(** The place of a value depends on its rank only. *)
Lemma add_loop_same_rank fuel cb info v w :
  (forall item, item_le call_compare cb info item v = item_le call_compare cb info item w) ->
  forall b idx, add_loop call_compare fuel cb info b idx v = add_loop call_compare fuel cb info b idx w.
Proof.
  intros Hr. induction fuel as [|fuel IH]; intros b idx; [done|]. cbn [add_loop].
  destruct (0 <? idx); [|done]. destruct (rdi _ _) as [item|]; [|done]. cbn [opt_bind]. rewrite Hr.
  destruct (item_le _ _ _ _ _); [done|]. destruct (wr _ _ _); [apply IH|done].
Qed.

Lemma same_rank_le cb info v w item `{!HeapOrder call_compare cb info} : same_rank call_compare cb info v w ->
  item_le call_compare cb info item v = item_le call_compare cb info item w.
Proof.
  intros [Hvw Hwv]. rewrite !item_le_gt. f_equal. destruct (item_gt call_compare cb info item v) eqn:Ev, (item_gt call_compare cb info item w) eqn:Ew; try done.
  - pose proof (le_trans call_compare cb info item w v Ew Hwv). unfold le in *. congruence.
  - pose proof (le_trans call_compare cb info item v w Ev Hvw). unfold le in *. congruence.
Qed.

(** What is stored is what the retain callback returns; the place is found with
    the value that was passed. *)
Lemma add_stored_spec h vals v `{!order h} :
  same_rank call_compare (_callbacks h) (_context_info h) v (stored_value call_retain (_callbacks h) v) ->
  wf h vals -> Z.of_nat (length vals) + 1 < 2 ^ 30 ->
  exists h' vals', CFBinaryHeapAddValue call_retain call_compare h v =
      Some (h', retain_events (_callbacks h) v) /\
    wf h' vals' /\ vals' ≡ₚ stored_value call_retain (_callbacks h) v :: vals /\ same_object h h'.
Proof.
  intros Hrank Hwf Hb. pose proof (wf_count _ _ _ Hwf) as Hcnt.
  assert (exists h1, (if __CFBinaryHeapMutableVariety h =? kCFBinaryHeapMutable then
       if __CFBinaryHeapNumBucketsUsed h =? __CFBinaryHeapCapacity h
       then __CFBinaryHeapGrow h 1 else Some h else Some h) = Some h1 /\
     wf h1 vals /\ same_object h h1 /\ _count h1 < _capacity h1) as (h1 & E1 & Hwf1 & Hso & Hroom).
  { rewrite (wf_mutable _ _ _ Hwf), Z.eqb_refl.
    unfold __CFBinaryHeapNumBucketsUsed, __CFBinaryHeapCapacity.
    destruct (Z.eqb_spec (_count h) (_capacity h)); [apply grow_spec; auto; lia|].
    exists h. split_and!; try done. pose proof (wf_length_le _ _ Hwf). destruct Hwf. lia. }
  destruct Hwf1 as [Hc Hcap [spare Hs] Hm Ho]. destruct Hso as (Hcb & Hinfo & Hfl).
  destruct spare as [|c spare]; [rewrite Hs in Hcap; cf_lia|].
  rewrite Hcb, Hinfo in Ho. set (w := stored_value call_retain (_callbacks h) v) in *.
  pose proof (add_place vals w c spare Ho) as Hset. pose proof Hset as (b & i & _ & Er & _).
  rewrite Er in Hset.
  destruct (settled_wf (__CFBinaryHeapSetNumBucketsUsed h1 (_count h1 + 1)) w (vals ++ [w]) spare b
     (Z.of_nat i) (_count h1 + 1)) as (b' & vals' & Ew & Hwf' & Hp).
  1-5: simpl; rewrite ?Hcb, ?Hinfo; try done; rewrite ?Hcap, ?Hs; cf_lia.
  exists (set_buckets (__CFBinaryHeapSetNumBucketsUsed h1 (_count h1 + 1)) b'), vals'.
  split; [|split_and!; [done| |done..]].
  2: by rewrite Hp, Permutation_app_comm.
  unfold CFBinaryHeapAddValue. rewrite E1. heap_cbn.
  rewrite Hcb, Hinfo, Hs, Hc, Nat2Z.id.
  rewrite (add_loop_same_rank _ _ _ v w (fun item => same_rank_le _ _ v w item Hrank)), Er. heap_cbn.
  unfold retain_events. unfold w, stored_value in Ew. destruct (Z.eqb_spec (retain (_callbacks h)) 0); cbn [negb];
    rewrite Ew; done.
Qed.

(** For what copies a heap: the retain callback returns the value it is given, as
    CFRetain does. *)
Hypothesis retain_returns_value : forall fp v, call_retain fp v = v.

Lemma add_value_spec h vals v `{!order h} :
  wf h vals -> Z.of_nat (length vals) + 1 < 2 ^ 30 ->
  exists h' vals', CFBinaryHeapAddValue call_retain call_compare h v =
      Some (h', retain_events (_callbacks h) v) /\
    wf h' vals' /\ vals' ≡ₚ v :: vals /\ same_object h h'.
Proof.
  intros Hwf Hb. assert (stored_value call_retain (_callbacks h) v = v) as Hv by (unfold stored_value; rewrite retain_returns_value; by destruct (_ =? 0)).
  destruct (add_stored_spec h vals v) as (h' & vals' & E & ? & Hp & ?); [rewrite Hv; split; by apply le_refl|done..|].
  rewrite Hv in Hp. by exists h', vals'.
Qed.

(** *** Removing the minimum *)

Lemma remove_place `{!order h} x t val spare :
  ordered h (x :: t ++ [val]) ->
  settled call_compare (_callbacks h) (_context_info h) val (val :: t) (Some val :: spare)
    (remove_loop call_compare (S (S (length t))) (_callbacks h) (_context_info h)
       (Z.of_nat (S (length t))) ((Some <$> x :: t ++ [val]) ++ spare) 0 val).
Proof.
  intros Ho.
  apply (remove_loop_spec call_compare (_callbacks h) (_context_info h) (S (S (length t)))
           ((Some <$> x :: t ++ [val]) ++ spare) 0 (val :: t) (Some val :: spare)); [split| |simpl; lia].
  - simpl. lia.
  - simpl. rewrite fmap_app, <- (assoc_L (++)). done.
  - assert (forall j, (j < length t)%nat -> (x :: t ++ [val]) !!! S j = t !!! j) as Hlk
      by (intros; simpl; by rewrite lookup_total_app_l).
    split; intros j Hj; [|lia]. intros Hp. simpl in Hj. pose proof (parent_lt j ltac:(lia)).
    specialize (Ho j ltac:(cf_lia)). unfold edge in *.
    destruct j as [|j]; [lia|]. destruct (parent (S j)) as [|p] eqn:E; [lia|].
    by rewrite !Hlk in Ho by lia.
Qed.

Lemma remove_release h x vals spare :
  _buckets h = (Some <$> x :: vals) ++ spare ->
  (if negb (release (_callbacks h) =? 0)
   then do* item := io_lift (rdi (_buckets h) 0) in
        emit (EvRelease (release (_callbacks h)) item)
   else io_ret tt) = Some (tt, release_events (_callbacks h) x).
Proof. intros ->. unfold release_events. by destruct (_ =? 0). Qed.

Lemma remove_minimum_spec h x vals `{!order h} :
  wf h (x :: vals) ->
  exists h' vals', CFBinaryHeapRemoveMinimumValue call_compare h =
      Some (h', release_events (_callbacks h) x) /\
    wf h' vals' /\ vals' ≡ₚ vals /\ same_object h h'.
Proof.
  intros [Hc Hcap [spare Hs] Hm Ho].
  unfold CFBinaryHeapRemoveMinimumValue, __CFBinaryHeapCount, __CFBinaryHeapSetCount.
  rewrite Hc. destruct (Z.eqb_spec 0 (Z.of_nat (length (x :: vals)))) as [E|_]; [cf_lia|].
  cbn [__CFBinaryHeapSetNumBucketsUsed _callbacks _buckets _context_info _count].
  rewrite (remove_release h x vals spare Hs). cbn [io_bind].
  destruct vals as [|val t _] using rev_ind.
  - rewrite Hs. simpl. eexists _, []. split; [by rewrite app_nil_r|].
    split_and!; try done. split; heap_cbn; try done; [|by eexists|intros j Hj; cf_lia].
    rewrite Hcap, Hs. cf_lia.
  - pose proof (remove_place x t val spare Ho) as Hset. pose proof Hset as (b & i & _ & Er & _).
    rewrite Er in Hset. set (h1 := __CFBinaryHeapSetNumBucketsUsed h (Z.of_nat (S (length t)))).
    destruct (settled_wf h1 val (val :: t) (Some val :: spare) b (Z.of_nat i)
      (Z.of_nat (S (length t)))) as (b' & vals' & Ew & Hwf' & Hp); try done.
    { subst h1. heap_cbn. rewrite Hcap, Hs. cf_lia. }
    exists (set_buckets h1 b'), vals'. split; [|split_and!; try done].
    2: by rewrite Hp, Permutation_app_comm.
    replace (Z.of_nat (length (x :: t ++ [val])) - 1) with (Z.of_nat (S (length t))) by cf_lia.
    rewrite Hs, rdi_contents by cf_lia.
    assert ((x :: t ++ [val]) !!! S (length t) = val) as ->
      by (simpl; rewrite lookup_total_app_r, Nat.sub_diag by lia; done).
    replace (Z.to_nat (Z.of_nat (length (x :: t ++ [val])))) with (S (S (length t))) by cf_lia.
    cbn [io_bind io_lift]. rewrite Er. cbn [io_bind io_lift]. rewrite Ew. heap_cbn.
    by rewrite app_nil_r.
Qed.

(** *** Draining *)

Abbreviation le_of h := (le call_compare (_callbacks h) (_context_info h)).

Lemma get_minimum_spec h x vals : wf h (x :: vals) -> CFBinaryHeapGetMinimum h = Some x.
Proof.
  intros [Hc _ [spare Hs] _ _]. unfold CFBinaryHeapGetMinimum. heap_cbn. rewrite Hc, Hs.
  destruct (Z.ltb_spec 0 (Z.of_nat (length (x :: vals)))); [done|cf_lia].
Qed.

Lemma ordered_Forall h x vals `{!order h} :
  ordered h (x :: vals) -> Forall (le_of h x) vals.
Proof.
  intros Ho. apply Forall_lookup. intros i y Hy.
  apply (list_lookup_total_correct _ _ _) in Hy as Hy'. rewrite <- Hy'.
  apply (heap_root_min _ _ _ (x :: vals) (S i) Ho). apply lookup_lt_Some in Hy. simpl. lia.
Qed.

(** The pop loop that GetValues and ApplyFunction share: it empties the heap,
    the values coming out sorted. *)
Lemma drain_spec n : forall h vals acc `{!order h},
  wf h vals -> length vals = n ->
  exists h' out, drain_loop call_compare n h acc =
      Some ((h', acc ++ out), concat (release_events (_callbacks h) <$> out)) /\
    out ≡ₚ vals /\ StronglySorted (le_of h) out /\ wf h' [] /\ same_object h h'.
Proof.
  induction n as [|n IH]; intros h vals acc Hord Hwf Hn; pose proof (wf_count _ _ _ Hwf) as Hc.
  - destruct vals; [|done]. exists h, []. simpl in *. unfold __CFBinaryHeapCount.
    rewrite Hc. simpl. split_and!; try done; [by rewrite app_nil_r|constructor].
  - destruct vals as [|x vals]; [done|].
    destruct (remove_minimum_spec h x vals Hwf) as (h1 & vals1 & E1 & Hwf1 & Hp1 & Hso).
    pose proof Hso as (Hcb & Hinfo & _).
    assert (order h1) by (rewrite Hcb, Hinfo; done).
    destruct (IH h1 vals1 (acc ++ [x])) as (h2 & out & E2 & Hp2 & Hs2 & Hwf2 & Hso2); try done.
    { rewrite (Permutation_length Hp1). simpl in Hn. lia. }
    exists h2, (x :: out). split; [|split_and!; try done].
    + cbn [drain_loop]. unfold __CFBinaryHeapCount. rewrite Hc.
      destruct (Z.ltb_spec 0 (Z.of_nat (length (x :: vals)))); [|cf_lia].
      rewrite (get_minimum_spec h x vals Hwf). cbn [io_bind io_lift].
      rewrite E1. cbn [io_bind]. rewrite E2. rewrite <- (assoc_L (++)). by rewrite Hcb.
    + by rewrite Hp2, Hp1.
    + rewrite Hcb, Hinfo in Hs2. constructor; [done|].
      pose proof (ordered_Forall h x vals (wf_ordered _ _ _ Hwf)).
      by rewrite Hp2, Hp1.
    + by apply same_object_trans with h1.
Qed.

(** *** Creating, copying, emptying *)

Lemma add_all_spec vals : forall pre spare h cur `{!order h},
  wf h cur -> Z.of_nat (length cur + length vals) < 2 ^ 30 ->
  exists h' vals', add_all call_retain call_compare h ((Some <$> pre ++ vals) ++ spare)
        (Z.of_nat (length pre)) (length vals) =
      Some (h', concat (retain_events (_callbacks h) <$> vals)) /\
    wf h' vals' /\ vals' ≡ₚ vals ++ cur /\ same_object h h'.
Proof.
  induction vals as [|v vals IH]; intros pre spare h cur Hord Hwf Hb; cbn [length add_all].
  - exists h, cur. by split_and!.
  - rewrite contents_loop_read. cbn [io_bind io_lift].
    destruct (add_value_spec h cur v Hwf) as (h1 & cur1 & E1 & Hwf1 & Hp1 & Hso); [cf_lia|].
    rewrite E1. cbn [io_bind]. pose proof Hso as (Hcb & Hinfo & _).
    assert (order h1) by (rewrite Hcb, Hinfo; done).
    destruct (IH (pre ++ [v]) spare h1 cur1) as (h2 & vals2 & E2 & Hwf2 & Hp2 & Hso2); try done.
    { rewrite (Permutation_length Hp1). cf_lia. }
    rewrite <- (assoc_L (++)) in E2. simpl ([v] ++ vals) in E2.
    replace (Z.of_nat (length (pre ++ [v]))) with (Z.of_nat (length pre) + 1) in E2 by cf_lia.
    exists h2, vals2. split; [by rewrite E2, Hcb|]. split_and!; try done.
    + rewrite Hp2, Hp1. by rewrite <- Permutation_middle.
    + by apply same_object_trans with h1.
Qed.

(** A fresh heap: the object before any value is added. *)
Definition fresh_heap (cb : option CFBinaryHeapCallBacks) (ctx : option Z) : __CFBinaryHeap :=
  mkHeap 132 0 4 (match cb with Some cb => cb | None => null_callbacks end)
    (match ctx with Some i => i | None => 0 end) [None; None; None; None].

Lemma fresh_heap_wf cb ctx : wf (fresh_heap cb ctx) [].
Proof. split; try done; [by eexists|intros j Hj; cf_lia]. Qed.

Lemma init_spec flags capacity values n cb ctx :
  __CFBinaryHeapInit call_retain call_compare true true flags capacity values n cb ctx =
  do* memory := add_all call_retain call_compare (fresh_heap cb ctx) values 0 (Z.to_nat n) in
  io_ret (Some (__CFBinaryHeapSetMutableVariety memory (__CFBinaryHeapMutableVarietyFromFlags flags))).
Proof.
  unfold __CFBinaryHeapInit. change (__CFBinaryHeapRoundUpCapacity 1) with (Some 4).
  cbn [negb]. by rewrite io_bind_lift.
Qed.

Lemma set_mutable_wf h vals :
  wf h vals -> _cfinfo h = 132 ->
  __CFBinaryHeapSetMutableVariety h (__CFBinaryHeapMutableVarietyFromFlags kCFBinaryHeapMutable) = h.
Proof. intros _ E. destruct h. simpl in E. subst. reflexivity. Qed.

Lemma create_spec capacity cb ctx :
  CFBinaryHeapCreate call_retain call_compare true true capacity cb ctx =
  Some (Some (fresh_heap cb ctx), []).
Proof. reflexivity. Qed.

Lemma create_copy_spec h vals capacity `{!order h} :
  wf h vals -> Z.of_nat (length vals) < 2 ^ 30 ->
  exists h' vals', CFBinaryHeapCreateCopy call_retain call_compare true true capacity h =
      Some (Some h', concat (retain_events (_callbacks h) <$> vals)) /\
    wf h' vals' /\ vals' ≡ₚ vals /\ _callbacks h' = _callbacks h /\
    _context_info h' = _context_info h.
Proof.
  intros [Hc Hcap [spare Hs] Hm Ho] Hb. unfold CFBinaryHeapCreateCopy.
  rewrite init_spec. unfold __CFBinaryHeapCount. rewrite Hc, Hs, Nat2Z.id.
  destruct (add_all_spec vals [] spare (fresh_heap (Some (_callbacks h)) (Some (_context_info h))) [])
    as (h1 & vals1 & E1 & Hwf1 & Hp1 & (Hcb & Hinfo & Hfl)); [apply fresh_heap_wf|cf_lia|].
  cbn [app] in E1. change (Z.of_nat (length [])) with 0 in E1. rewrite E1. cbn [io_bind]. rewrite (set_mutable_wf h1 vals1 Hwf1 Hfl).
  exists h1, vals1. split; [simpl; by rewrite app_nil_r|]. split_and!; try done.
  by rewrite Hp1, app_nil_r.
Qed.

Lemma release_loop_spec vals : forall pre spare fp,
  release_loop fp ((Some <$> pre ++ vals) ++ spare) (Z.of_nat (length pre)) (length vals) =
  Some (tt, EvRelease fp <$> vals).
Proof.
  induction vals as [|v vals IH]; intros; cbn [length release_loop]; [done|].
  rewrite contents_loop_read. cbn [io_bind io_lift emit]. specialize (IH (pre ++ [v]) spare fp).
  rewrite <- (assoc_L (++)) in IH. simpl ([v] ++ vals) in IH.
  replace (Z.of_nat (length (pre ++ [v]))) with (Z.of_nat (length pre) + 1) in IH by cf_lia.
  by rewrite IH.
Qed.

Lemma concat_release_events cb vals :
  concat (release_events cb <$> vals) =
  if release cb =? 0 then [] else EvRelease (release cb) <$> vals.
Proof.
  unfold release_events. destruct (_ =? 0); (induction vals as [|v vals IH]; [done|]);
    rewrite fmap_cons; cbn [concat]; by rewrite IH.
Qed.

Lemma remove_all_spec h vals :
  wf h vals ->
  exists h', CFBinaryHeapRemoveAllValues h =
      Some (h', concat (release_events (_callbacks h) <$> vals)) /\
    wf h' [] /\ same_object h h'.
Proof.
  intros [Hc Hcap [spare Hs] Hm Ho]. eexists. split.
  - unfold CFBinaryHeapRemoveAllValues. heap_cbn. rewrite Hc, Hs, Nat2Z.id, concat_release_events.
    destruct (_ =? 0); cbn [negb]; [done|].
    pose proof (release_loop_spec vals [] spare (release (_callbacks h))) as E.
    cbn [app] in E. change (Z.of_nat (length [])) with 0 in E. rewrite E. simpl. by rewrite app_nil_r.
  - split; [|done]. split; heap_cbn; try done; [by rewrite Hcap, Hs|by eexists|intros j Hj; cf_lia].
Qed.

Lemma get_values_spec h vals `{!order h} :
  wf h vals -> Z.of_nat (length vals) < 2 ^ 30 ->
  exists out, CFBinaryHeapGetValues call_retain call_compare h =
      Some (out, concat (retain_events (_callbacks h) <$> vals) ++
                 concat (release_events (_callbacks h) <$> out)) /\
    out ≡ₚ vals /\ StronglySorted (le_of h) out.
Proof.
  intros Hwf Hb. pose proof (wf_count _ _ _ Hwf) as Hc.
  unfold CFBinaryHeapGetValues, __CFBinaryHeapCount. rewrite Hc.
  destruct (Z.eqb_spec 0 (Z.of_nat (length vals))) as [E|Hne].
  { destruct vals; [|done]. exists []. split_and!; [done..|constructor]. }
  destruct (create_copy_spec h vals (Z.of_nat (length vals)) Hwf Hb)
    as (h1 & vals1 & E1 & Hwf1 & Hp1 & Hcb & Hinfo).
  assert (order h1) by (rewrite Hcb, Hinfo; done).
  destruct (drain_spec (length vals) h1 vals1 []) as (h2 & out & E2 & Hp2 & Hs2 & Hwf2 & Hso2); try done.
  { by apply Permutation_length. }
  destruct (remove_all_spec h2 [] Hwf2) as (h3 & E3 & _ & Hso3).
  rewrite E1. cbn [io_bind io_lift]. rewrite Nat2Z.id, E2. cbn [io_bind io_lift].
  unfold __CFBinaryHeapDeallocate. rewrite E3. cbn [io_bind].
  exists out. split_and!; [|by rewrite Hp2|by rewrite Hcb, Hinfo in Hs2].
  destruct (_ =? _); simpl; rewrite !app_nil_r, Hcb; done.
Qed.

(** *** Queries *)

Lemma count_loop_spec h value vals : forall pre spare n,
  _buckets h = (Some <$> pre ++ vals) ++ spare ->
  count_loop call_compare h value (Z.of_nat (length pre)) (length vals) n =
  Some (n + Z.of_nat (length (filter
    (fun item => value_matches call_compare (_callbacks h) (_context_info h) value item = true) vals))).
Proof.
  induction vals as [|v vals IH]; intros pre spare n Hs; cbn [length count_loop].
  - f_equal. simpl. lia.
  - rewrite Hs, contents_loop_read. cbn [opt_bind].
    replace (Z.of_nat (length pre) + 1) with (Z.of_nat (length (pre ++ [v]))) by cf_lia.
    rewrite (IH (pre ++ [v]) spare) by (by rewrite Hs, <- (assoc_L (++) pre)).
    f_equal. rewrite filter_cons. destruct (value_matches _ _ _ _ _); simpl; lia.
Qed.

Lemma contains_loop_spec h value vals : forall pre spare,
  _buckets h = (Some <$> pre ++ vals) ++ spare ->
  contains_loop call_compare h value (Z.of_nat (length pre)) (length vals) =
  Some (existsb (value_matches call_compare (_callbacks h) (_context_info h) value) vals).
Proof.
  induction vals as [|v vals IH]; intros pre spare Hs; cbn [length contains_loop existsb]; [done|].
  rewrite Hs, contents_loop_read. cbn [opt_bind].
  replace (Z.of_nat (length pre) + 1) with (Z.of_nat (length (pre ++ [v]))) by cf_lia.
  rewrite (IH (pre ++ [v]) spare) by (by rewrite Hs, <- (assoc_L (++) pre)).
  by destruct (value_matches _ _ _ _ _).
Qed.

End Operations.

(** ** The abstract priority queue

    A heap is a multiset of values, written as a list up to permutation.  Adding
    puts in the value that [stored] gives.  Removing the minimum takes out a value
    no other is below. *)

Inductive heap_op := OpAdd (v : Z) | OpRemoveMinimum | OpRemoveAll.

Inductive pq_step (stored : Z -> Z) (R : Z -> Z -> Prop) : heap_op -> list Z -> list Z -> Prop :=
| pq_add v m m' : m' ≡ₚ stored v :: m -> pq_step stored R (OpAdd v) m m'
| pq_remove_empty : pq_step stored R OpRemoveMinimum [] []
| pq_remove x m m' : m ≡ₚ x :: m' -> Forall (R x) m' -> pq_step stored R OpRemoveMinimum m m'
| pq_clear m : pq_step stored R OpRemoveAll m [].

Inductive pq_run (stored : Z -> Z) (R : Z -> Z -> Prop) : list heap_op -> list Z -> list Z -> Prop :=
| pq_done m : pq_run stored R [] m m
| pq_next op ops m1 m2 m3 : pq_step stored R op m1 m2 -> pq_run stored R ops m2 m3 -> pq_run stored R (op :: ops) m1 m3.

Definition heap_run_op (call_retain : Z -> Z -> Z) (call_compare : Z -> Z -> Z -> Z -> Z)
    (h : __CFBinaryHeap) (op : heap_op) : io __CFBinaryHeap :=
  match op with
  | OpAdd v => CFBinaryHeapAddValue call_retain call_compare h v
  | OpRemoveMinimum => CFBinaryHeapRemoveMinimumValue call_compare h
  | OpRemoveAll => CFBinaryHeapRemoveAllValues h
  end.

Fixpoint heap_run (call_retain : Z -> Z -> Z) (call_compare : Z -> Z -> Z -> Z -> Z)
    (h : __CFBinaryHeap) (ops : list heap_op) : io __CFBinaryHeap :=
  match ops with
  | [] => io_ret h
  | op :: ops =>
      do* h := heap_run_op call_retain call_compare h op in
      heap_run call_retain call_compare h ops
  end.

Section Refinement.
Context (call_retain : Z -> Z -> Z) (call_compare : Z -> Z -> Z -> Z -> Z).

Abbreviation ranks_kept h := (forall v, same_rank call_compare (_callbacks h) (_context_info h) v (stored_value call_retain (_callbacks h) v)).
Abbreviation step_of h := (pq_step (stored_value call_retain (_callbacks h)) (le call_compare (_callbacks h) (_context_info h))).
Abbreviation run_of h := (pq_run (stored_value call_retain (_callbacks h)) (le call_compare (_callbacks h) (_context_info h))).

Lemma heap_run_op_spec h vals op
    `{!HeapOrder call_compare (_callbacks h) (_context_info h)} :
  ranks_kept h -> heap_wf call_compare h vals -> Z.of_nat (length vals) + 1 < 2 ^ 30 ->
  exists h' vals' tr, heap_run_op call_retain call_compare h op = Some (h', tr) /\
    heap_wf call_compare h' vals' /\ same_object h h' /\
    (length vals' <= S (length vals))%nat /\
    step_of h op vals vals'.
Proof.
  intros Hrk Hwf Hb. destruct op as [v| |]; cbn [heap_run_op].
  - destruct (add_stored_spec call_retain call_compare h vals v (Hrk v) Hwf Hb)
      as (h' & vals' & E & ? & Hp & ?).
    eexists h', vals', _. split_and!; try done; [by rewrite Hp|by constructor].
  - destruct vals as [|x vals].
    + exists h, [], []. pose proof (wf_count _ _ _ Hwf) as Hc.
      unfold CFBinaryHeapRemoveMinimumValue, __CFBinaryHeapCount. rewrite Hc.
      split_and!; try done; [simpl; lia|constructor].
    + destruct (remove_minimum_spec call_compare h x vals Hwf) as (h' & vals' & E & ? & Hp & ?).
      eexists h', vals', _. split_and!; try done; [rewrite Hp; simpl; lia|].
      apply (pq_remove _ _ x); [by rewrite Hp|].
      rewrite Hp. apply (ordered_Forall call_compare h), Hwf. done.
  - destruct (remove_all_spec call_compare h vals Hwf) as (h' & E & ? & ?).
    eexists h', [], _. split_and!; try done; [simpl; lia|constructor].
Qed.

Lemma heap_run_spec ops : forall h vals
    `{!HeapOrder call_compare (_callbacks h) (_context_info h)},
  ranks_kept h -> heap_wf call_compare h vals -> Z.of_nat (length vals + length ops) < 2 ^ 30 ->
  exists h' vals' tr, heap_run call_retain call_compare h ops = Some (h', tr) /\
    heap_wf call_compare h' vals' /\ same_object h h' /\
    run_of h ops vals vals'.
Proof.
  induction ops as [|op ops IH]; intros h vals Hord Hrk Hwf Hb.
  - exists h, vals, []. split_and!; try done. constructor.
  - destruct (heap_run_op_spec h vals op Hrk Hwf) as (h1 & vals1 & tr1 & E1 & Hwf1 & Hso & Hl & Hst); [cf_lia|].
    pose proof Hso as (Hcb & Hinfo & _).
    destruct (IH h1 vals1) as (h2 & vals2 & tr2 & E2 & Hwf2 & Hso2 & Hrun); try done.
    { by rewrite Hcb, Hinfo. }
    { by rewrite Hcb, Hinfo. }
    { cf_lia. }
    exists h2, vals2, (tr1 ++ tr2). cbn [heap_run]. rewrite E1. cbn [io_bind]. rewrite E2.
    split_and!; try done; [by apply same_object_trans with h1|].
    rewrite Hcb, Hinfo in Hrun. by apply pq_next with vals1.
Qed.

End Refinement.

(** ** Properties *)

(** C1: refinement.  A heap made by CFBinaryHeapCreate and driven by fewer than
    2^30 additions, minimum removals and clears runs without undefined behaviour,
    stays well formed and heap-ordered, and behaves as the abstract priority queue
    on multisets, into which an addition puts what the retain callback returns.
    The comparison is a total preorder, or NULL, and ranks what the retain callback
    returns as the value it was given; the two may differ. *)
Theorem CFBinaryHeap_refines_priority_queue
    (call_retain : Z -> Z -> Z) (call_compare : Z -> Z -> Z -> Z -> Z)
    (cb : CFBinaryHeapCallBacks) (info capacity : Z)
    (compare_is_order : HeapOrder call_compare cb info)
    (retain_keeps_rank : forall v, same_rank call_compare cb info v (stored_value call_retain cb v))
    (ops : list heap_op) :
  Z.of_nat (length ops) < 2 ^ 30 ->
  exists h0 h vals tr,
    CFBinaryHeapCreate call_retain call_compare true true capacity (Some cb) (Some info) =
      Some (Some h0, []) /\
    heap_run call_retain call_compare h0 ops = Some (h, tr) /\
    heap_wf call_compare h vals /\
    pq_run (stored_value call_retain cb) (le call_compare cb info) ops [] vals.
Proof.
  intros Hb. rewrite create_spec.
  destruct (heap_run_spec call_retain call_compare ops
              (fresh_heap (Some cb) (Some info)) []) as (h & vals & tr & E & Hwf & _ & Hrun);
    [done|apply fresh_heap_wf|cf_lia|].
  exists (fresh_heap (Some cb) (Some info)), h, vals, tr. by split_and!.
Qed.

(** The comparison used by the witnesses: integers in their usual order. *)
Definition int_compare (fp a b info : Z) : Z :=
  if a <? b then kCFCompareLessThan else if b <? a then kCFCompareGreaterThan else kCFCompareEqualTo.

Lemma int_compare_order r d c fp info : HeapOrder int_compare (Build_CFBinaryHeapCallBacks r d c fp) info.
Proof.
  split; intros *; unfold item_gt, int_compare, kCFCompareLessThan, kCFCompareGreaterThan,
    kCFCompareEqualTo; simpl; destruct (fp =? 0); bool_case; done.
Qed.

(** Integers boxed at addresses: the values 10 and 20 both box the number 0, and
    a retain callback that returns a copy of the box. *)
Definition boxed_compare (fp a b info : Z) : Z := int_compare fp (a mod 10) (b mod 10) info.

Definition copy_box (fp v : Z) : Z := v + 10.

Lemma boxed_compare_order r d c fp info : HeapOrder boxed_compare (Build_CFBinaryHeapCallBacks r d c (Zpos fp)) info.
Proof.
  destruct (int_compare_order r d c (Zpos fp) info) as [H1 H2]. split; intros *; unfold item_gt, boxed_compare in *.
  - apply (H1 (a mod 10) (b mod 10)).
  - apply (H2 (a mod 10) (b mod 10) (c0 mod 10)).
Qed.

Lemma copy_box_rank r d c fp info v :
  same_rank boxed_compare (Build_CFBinaryHeapCallBacks (Zpos r) d c (Zpos fp)) info v
    (stored_value copy_box (Build_CFBinaryHeapCallBacks (Zpos r) d c (Zpos fp)) v).
Proof.
  unfold same_rank, le, item_gt, stored_value, copy_box, boxed_compare, int_compare. cbn [compare retain Z.eqb].
  replace ((v + 10) mod 10) with (v mod 10) by (rewrite <- (Z_mod_plus_full v 1 10); f_equal; lia).
  rewrite Z.ltb_irrefl. done.
Qed.

Lemma CFBinaryHeap_refines_priority_queue_witness :
  exists h0 h vals tr,
    CFBinaryHeapCreate copy_box boxed_compare true true 0
      (Some (Build_CFBinaryHeapCallBacks 1 2 0 3)) (Some 0) = Some (Some h0, []) /\
    heap_run copy_box boxed_compare h0
      [OpAdd 5; OpAdd 3; OpAdd 9; OpAdd 1; OpAdd 4; OpRemoveMinimum] = Some (h, tr) /\
    heap_wf boxed_compare h vals /\
    pq_run (stored_value copy_box (Build_CFBinaryHeapCallBacks 1 2 0 3)) (le boxed_compare (Build_CFBinaryHeapCallBacks 1 2 0 3) 0)
      [OpAdd 5; OpAdd 3; OpAdd 9; OpAdd 1; OpAdd 4; OpRemoveMinimum] [] vals.
Proof.
  apply (CFBinaryHeap_refines_priority_queue copy_box boxed_compare
    (Build_CFBinaryHeapCallBacks 1 2 0 3) 0 0 (boxed_compare_order _ _ _ _ _) (copy_box_rank _ _ _ _ _)). reflexivity.
Defined.

(** The place is found with the value that was passed, not with the one the retain
    callback returns for it: when the two rank differently, as here where the
    callback returns the negative, the first bucket is not the minimum. *)
Lemma CFBinaryHeapAddValue_ranks_unretained :
  exists h tr, heap_run (fun _ v => - v) int_compare (fresh_heap (Some (Build_CFBinaryHeapCallBacks 1 2 0 3)) (Some 0)) [OpAdd 1; OpAdd 2] = Some (h, tr) /\
    CFBinaryHeapGetMinimum h = Some (-1) /\ CFBinaryHeapContainsValue int_compare h (-2) = Some true.
Proof. eexists _, _. split; [vm_compute; reflexivity|]. split; vm_compute; reflexivity. Qed.

(** CFBinaryHeapGetValues returns the contents of the heap, each value
    as often as the heap holds it, in ascending order; the values it retains
    for its private copy are exactly the ones it releases again. *)
Lemma CFBinaryHeapGetValues_sorted
    (call_retain : Z -> Z -> Z) (call_compare : Z -> Z -> Z -> Z -> Z)
    (retain_returns_value : forall fp v, call_retain fp v = v)
    (h : __CFBinaryHeap) (vals : list Z)
    (compare_is_order : HeapOrder call_compare (_callbacks h) (_context_info h)) :
  heap_wf call_compare h vals -> Z.of_nat (length vals) < 2 ^ 30 ->
  exists out tr_retain tr_release,
    CFBinaryHeapGetValues call_retain call_compare h = Some (out, tr_retain ++ tr_release) /\
    StronglySorted (le call_compare (_callbacks h) (_context_info h)) out /\
    out ≡ₚ vals /\
    tr_retain = concat (retain_events (_callbacks h) <$> vals) /\
    tr_release ≡ₚ concat (release_events (_callbacks h) <$> vals).
Proof.
  intros Hwf Hb.
  destruct (get_values_spec call_retain call_compare retain_returns_value h vals Hwf Hb)
    as (out & E & Hp & Hs).
  exists out, (concat (retain_events (_callbacks h) <$> vals)),
    (concat (release_events (_callbacks h) <$> out)).
  split_and!; try done. by rewrite Hp.
Qed.

Definition example_heap : __CFBinaryHeap :=
  mkHeap 132 3 4 (Build_CFBinaryHeapCallBacks 1 2 0 3) 0 [Some 1; Some 5; Some 3; None].

Lemma example_heap_wf : heap_wf int_compare example_heap [1; 5; 3].
Proof.
  split; try done; [by exists [None]|]. intros [|[|[|j]]] Hj; try (simpl in *; lia); reflexivity.
Qed.

Lemma CFBinaryHeapGetValues_sorted_witness :
  exists out tr_retain tr_release,
    CFBinaryHeapGetValues (fun _ v => v) int_compare example_heap = Some (out, tr_retain ++ tr_release) /\
    StronglySorted (le int_compare (_callbacks example_heap) (_context_info example_heap)) out /\
    out ≡ₚ [1; 5; 3] /\
    tr_retain = concat (retain_events (_callbacks example_heap) <$> [1; 5; 3]) /\
    tr_release ≡ₚ concat (release_events (_callbacks example_heap) <$> [1; 5; 3]).
Proof.
  apply (CFBinaryHeapGetValues_sorted (fun _ v => v) int_compare (fun _ _ => eq_refl)
    example_heap [1; 5; 3] (int_compare_order _ _ _ _ _) example_heap_wf). reflexivity.
Defined.

Lemma existsb_filter_pos (f : Z -> bool) l :
  existsb f l = true <-> 0 < 0 + Z.of_nat (length (filter (fun x => f x = true) l)).
Proof.
  induction l as [|x l IH]; simpl; [done|]. rewrite filter_cons.
  destruct (f x); simpl; [split; [lia|done]|]. by rewrite IH.
Qed.

(** The queries.  On a well-formed heap the minimum is a value of the
    heap that no value is below (NULL and "not present" when the heap is
    empty), the count of a value is the number of matching values, and
    CFBinaryHeapContainsValue is true exactly when that count is not 0. *)
Lemma CFBinaryHeap_queries (call_compare : Z -> Z -> Z -> Z -> Z)
    (h : __CFBinaryHeap) (vals : list Z) (value : Z)
    (compare_is_order : HeapOrder call_compare (_callbacks h) (_context_info h)) :
  heap_wf call_compare h vals ->
  CFBinaryHeapGetCount h = Z.of_nat (length vals) /\
  (vals = [] -> CFBinaryHeapGetMinimum h = Some 0 /\
                CFBinaryHeapGetMinimumIfPresent h true = Some (false, None)) /\
  (vals <> [] -> exists x, CFBinaryHeapGetMinimum h = Some x /\
                CFBinaryHeapGetMinimumIfPresent h true = Some (true, Some x) /\
                x ∈ vals /\ Forall (le call_compare (_callbacks h) (_context_info h) x) vals) /\
  exists n b, CFBinaryHeapGetCountOfValue call_compare h value = Some n /\
    CFBinaryHeapContainsValue call_compare h value = Some b /\
    n = Z.of_nat (length (filter (fun item => value_matches call_compare (_callbacks h)
                            (_context_info h) value item = true) vals)) /\
    (b = true <-> 0 < n).
Proof.
  intros Hwf. pose proof Hwf as [Hc _ [spare Hs] _ Ho]. split; [done|]. split; [|split].
  - intros ->. unfold CFBinaryHeapGetMinimum, CFBinaryHeapGetMinimumIfPresent. heap_cbn. by rewrite Hc.
  - intros Hne. destruct vals as [|x vals]; [done|]. exists x.
    unfold CFBinaryHeapGetMinimumIfPresent. heap_cbn. rewrite Hc, Hs.
    split_and!; [by apply (get_minimum_spec call_compare h x vals)|done|by left|].
    constructor; [by apply le_refl|]. by apply (ordered_Forall call_compare h).
  - eexists _, _. unfold CFBinaryHeapGetCountOfValue, CFBinaryHeapContainsValue. heap_cbn.
    rewrite Hc, Nat2Z.id. split_and!.
    + apply (count_loop_spec call_compare h value vals [] spare 0 Hs).
    + apply (contains_loop_spec call_compare h value vals [] spare Hs).
    + done.
    + apply existsb_filter_pos.
Qed.

Lemma CFBinaryHeap_queries_witness :
  heap_wf int_compare example_heap [1; 5; 3] /\
  exists n b, CFBinaryHeapGetCountOfValue int_compare example_heap 5 = Some n /\
    CFBinaryHeapContainsValue int_compare example_heap 5 = Some b /\ (b = true <-> 0 < n).
Proof.
  split; [exact example_heap_wf|].
  destruct (CFBinaryHeap_queries int_compare example_heap [1; 5; 3] 5
    (int_compare_order _ _ _ _ _) example_heap_wf) as (_ & _ & _ & n & b & H1 & H2 & _ & H3).
  by exists n, b.
Defined.

(** __CFBinaryHeapEqual inverts the client's comparison.  For two heaps
    that hold one value each and share a comparison callback, different
    pointers whose comparison says "equal" ([kCFCompareEqualTo] is 0) make
    the heaps unequal, and every pair the comparison tells apart makes them
    equal. *)
Lemma CFBinaryHeapEqual_inverts_comparison
    (call_retain : Z -> Z -> Z) (call_compare : Z -> Z -> Z -> Z -> Z)
    (retain_returns_value : forall fp v, call_retain fp v = v)
    (h1 h2 : __CFBinaryHeap) (x y : Z)
    (order1 : HeapOrder call_compare (_callbacks h1) (_context_info h1))
    (order2 : HeapOrder call_compare (_callbacks h2) (_context_info h2)) :
  heap_wf call_compare h1 [x] -> heap_wf call_compare h2 [y] ->
  compare (_callbacks h1) = compare (_callbacks h2) -> compare (_callbacks h1) <> 0 -> x <> y ->
  exists tr, __CFBinaryHeapEqual call_retain call_compare h1 h2 =
    Some (negb (call_compare (compare (_callbacks h1)) x y (_context_info h1) =? kCFCompareEqualTo), tr).
Proof.
  intros Hwf1 Hwf2 Hcmp Hnz Hne.
  destruct (get_values_spec call_retain call_compare retain_returns_value h1 [x] Hwf1) as (o1 & E1 & Hp1 & _); [done|].
  destruct (get_values_spec call_retain call_compare retain_returns_value h2 [y] Hwf2) as (o2 & E2 & Hp2 & _); [done|].
  symmetry in Hp1, Hp2. apply Permutation_length_1_inv in Hp1 as ->, Hp2 as ->.
  unfold __CFBinaryHeapEqual, __CFBinaryHeapCount.
  rewrite (wf_count _ _ _ Hwf1), (wf_count _ _ _ Hwf2), Hcmp, !Z.eqb_refl.
  cbn [length negb]. change (0 =? Z.of_nat 1) with false. cbn iota. rewrite E1. cbn [io_bind]. rewrite E2. cbn [io_bind io_ret].
  eexists. f_equal. f_equal. cbn [equal_loop].
  destruct (Z.eqb_spec x y); [done|]. cbn [negb]. rewrite <- Hcmp.
  destruct (Z.eqb_spec (compare (_callbacks h1)) 0); [done|].
  unfold kCFCompareEqualTo. by destruct (_ =? 0).
Qed.

Definition singleton_heap (x : Z) : __CFBinaryHeap :=
  mkHeap 132 1 4 (Build_CFBinaryHeapCallBacks 0 0 0 3) 0 [Some x; None; None; None].

Lemma singleton_heap_wf cmp x : heap_wf cmp (singleton_heap x) [x].
Proof. split; try done; [by exists [None; None; None]|]. intros j Hj. simpl in Hj. lia. Qed.

Lemma CFBinaryHeapEqual_inverts_comparison_witness :
  exists tr, __CFBinaryHeapEqual (fun _ v => v) boxed_compare (singleton_heap 11) (singleton_heap 21) =
    Some (negb (boxed_compare 3 11 21 0 =? kCFCompareEqualTo), tr).
Proof.
  apply (CFBinaryHeapEqual_inverts_comparison (fun _ v => v) boxed_compare (fun _ _ => eq_refl)
    (singleton_heap 11) (singleton_heap 21) 11 21 (boxed_compare_order 0 0 0 3 0) (boxed_compare_order 0 0 0 3 0)
    (singleton_heap_wf _ 11) (singleton_heap_wf _ 21)); discriminate || reflexivity.
Defined.

(** Bounds of the capacity computation.  Below 2^30 the rounded capacity
    is defined, at least 4 and more than what was asked for at most twice
    over; from 2^30 on, [1 << flsl(capacity)] leaves the [int] it is computed
    in although the index type has 64 bits. *)
Lemma CFBinaryHeapRoundUpCapacity_bounds (capacity : Z) :
  0 <= capacity < 2 ^ 63 ->
  (capacity < 2 ^ 30 -> exists c, __CFBinaryHeapRoundUpCapacity capacity = Some c /\
     4 <= c /\ capacity < c <= Z.max 4 (2 * capacity)) /\
  (2 ^ 30 <= capacity -> __CFBinaryHeapRoundUpCapacity capacity = None).
Proof.
  intros Hr. unfold __CFBinaryHeapRoundUpCapacity. split; intros Hb.
  - destruct (Z.ltb_spec capacity 4); [exists 4; split; [done|lia]|].
    destruct (shl_flsl_bounds capacity) as (c & -> & ?); [lia|]. exists c. split; [done|lia].
  - destruct (Z.ltb_spec capacity 4); [lia|]. rewrite flsl_spec by lia.
    pose proof (Z.log2_le_mono _ _ Hb) as Hl. rewrite Z.log2_pow2 in Hl by lia.
    unfold int_shl1. bool_case. done.
Qed.

Lemma CFBinaryHeapRoundUpCapacity_bounds_witness :
  0 <= 100 < 2 ^ 63 /\ exists c, __CFBinaryHeapRoundUpCapacity 100 = Some c /\
     4 <= c /\ 100 < c <= Z.max 4 (2 * 100).
Proof.
  split; [lia|]. apply (CFBinaryHeapRoundUpCapacity_bounds 100); lia.
Defined.
