(* ===== verification/CFBitVector.v ===== *)
(** * CFBitVector: packed vectors of bits (CFBitVector.c)

    Buckets are bytes (integers 0..255); bit 0 of a bucket is its most
    significant one.  Ranges of bits are processed bucket by bucket by
    [__CFBitVectorInternalMap], which hands each bucket and the mask of the
    bits concerned to a mapper; a mapper may carry a context.  Memory that
    [CFAllocatorReallocate] adds holds arbitrary bytes: operations that grow
    the store take them as the argument [garbage]. *)

From S2P Require Import Prelude CFInternal.
From stdpp Require Import base list numbers option.
From Stdlib Require Import ZArith Lia.
Open Scope Z_scope.
Open Scope cf_scope.

Definition __CF_BITS_PER_BYTE : Z := 8.
Definition __CF_BITS_PER_BYTE_MASK : Z := 7.
Definition __CF_BITS_PER_BUCKET : Z := 8.
Definition __CF_BITS_PER_BUCKET_MASK : Z := 7.

Definition kCFBitVectorImmutable : Z := 0.
Definition kCFBitVectorMutable : Z := 1.

Record __CFBitVector := mkBV {
  _cfinfo : Z;
  _count : Z;
  _capacity : Z;
  _buckets : list Z
}.

(** ** Accessors *)

Definition __CFBitVectorRoundUpCapacity (capacity : Z) : Z :=
  let capacity := if 0 =? capacity then 1 else capacity in
  Z.quot (capacity + 63) 64 * 64.

Definition __CFBitVectorNumBucketsForCapacity (capacity : Z) : Z :=
  Z.quot capacity __CF_BITS_PER_BUCKET +
  (if negb (Z.land capacity __CF_BITS_PER_BUCKET_MASK =? 0) then 1 else 0).

Definition __CFBitVectorMutableVariety (bv : __CFBitVector) : Z :=
  __CFBitfieldGetValue (_cfinfo bv) 3 2.

Definition __CFBitVectorSetMutableVariety (bv : __CFBitVector) (v : Z) : __CFBitVector :=
  mkBV (__CFBitfieldSetValue (_cfinfo bv) 3 2 v) (_count bv) (_capacity bv) (_buckets bv).

Definition __CFBitVectorMutableVarietyFromFlags (flags : Z) : Z := __CFBitfieldGetValue flags 1 0.

Definition __CFBitVectorCount (bv : __CFBitVector) : Z := _count bv.

Definition __CFBitVectorSetCount (bv : __CFBitVector) (v : Z) : __CFBitVector :=
  mkBV (_cfinfo bv) v (_capacity bv) (_buckets bv).

Definition __CFBitVectorCapacity (bv : __CFBitVector) : Z := _capacity bv.

Definition __CFBitVectorSetCapacity (bv : __CFBitVector) (v : Z) : __CFBitVector :=
  mkBV (_cfinfo bv) (_count bv) v (_buckets bv).

Definition __CFBitVectorNumBuckets (bv : __CFBitVector) : Z :=
  Z.quot (_capacity bv) __CF_BITS_PER_BUCKET + 1.

(** The two setters with an empty body in the source. *)
Definition __CFBitVectorSetNumBucketsUsed (bv : __CFBitVector) (v : Z) : __CFBitVector := bv.
Definition __CFBitVectorSetNumBuckets (bv : __CFBitVector) (v : Z) : __CFBitVector := bv.

Definition set_buckets (bv : __CFBitVector) (b : list Z) : __CFBitVector :=
  mkBV (_cfinfo bv) (_count bv) (_capacity bv) b.

(** ** Single bits *)

Definition __CFBitBucketMask (bottomBit topBit : Z) : Z :=
  let shiftL := __CF_BITS_PER_BUCKET - topBit + bottomBit - 1 in
  let result := uwrap 8 (Z.lnot 0) in
  let result := uwrap 8 (Z.shiftl result shiftL) in
  uwrap 8 (Z.shiftr result bottomBit).

Definition __CFBitVectorBit (buckets : list Z) (idx : Z) : option Z :=
  let bucketIdx := Z.quot idx __CF_BITS_PER_BUCKET in
  let bitOfBucket := Z.land idx (__CF_BITS_PER_BUCKET - 1) in
  let* b := rd buckets bucketIdx in
  Some (Z.land (Z.shiftr b (__CF_BITS_PER_BUCKET - 1 - bitOfBucket)) 1).

Definition __CFSetBitVectorBit (buckets : list Z) (idx value : Z) : option (list Z) :=
  let bucketIdx := Z.quot idx __CF_BITS_PER_BUCKET in
  let bitOfBucket := Z.land idx (__CF_BITS_PER_BUCKET - 1) in
  let* b := rd buckets bucketIdx in
  if negb (value =? 0) then
    wr buckets bucketIdx
      (uwrap 8 (Z.lor b (Z.shiftl 1 (__CF_BITS_PER_BUCKET - 1 - bitOfBucket))))
  else
    wr buckets bucketIdx
      (uwrap 8 (Z.land b (Z.lnot (Z.shiftl 1 (__CF_BITS_PER_BUCKET - 1 - bitOfBucket))))).

Definition __CFFlipBitVectorBit (buckets : list Z) (idx : Z) : option (list Z) :=
  let bucketIdx := Z.quot idx __CF_BITS_PER_BUCKET in
  let bitOfBucket := Z.land idx (__CF_BITS_PER_BUCKET - 1) in
  let* b := rd buckets bucketIdx in
  wr buckets bucketIdx
    (uwrap 8 (Z.lxor b (Z.shiftl 1 (__CF_BITS_PER_BUCKET - 1 - bitOfBucket)))).

(** ** The bucket-by-bucket map *)

Section InternalMap.
Context {C : Type} (mapper : Z -> Z -> C -> option (Z * C)).

(** A bucket at either end of the range: only the bits of the mask change. *)
Definition map_masked (b : list Z) (bucketIdx bucketValMask : Z) (context : C) :
    option (list Z * C) :=
  let* v := rd b bucketIdx in
  let* (newBucketVal, context) := mapper v bucketValMask context in
  let* v := rd b bucketIdx in
  let* b := wr b bucketIdx
    (uwrap 8 (Z.lor (Z.land v (Z.lnot bucketValMask)) (Z.land newBucketVal bucketValMask))) in
  Some (b, context).

(** [while (nBuckets--)]: whole buckets. *)
Fixpoint map_whole (n : nat) (b : list Z) (bucketIdx : Z) (context : C) :
    option (list Z * Z * C) :=
  match n with
  | O => Some (b, bucketIdx, context)
  | S n =>
      let* v := rd b bucketIdx in
      let* (newBucketVal, context) := mapper v (uwrap 8 (Z.lnot 0)) context in
      let* b := wr b bucketIdx newBucketVal in
      map_whole n b (bucketIdx + 1) context
  end.

Definition __CFBitVectorInternalMap (b : list Z) (range : CFRange) (context : C) :
    option (list Z * C) :=
  if 0 =? range_length range then Some (b, context) else
  let bucketIdx := Z.quot (location range) __CF_BITS_PER_BUCKET in
  let bitOfBucket := Z.land (location range) (__CF_BITS_PER_BUCKET - 1) in
  let '(bucketValMask, length) :=
    if bitOfBucket + range_length range <? __CF_BITS_PER_BUCKET
    then (__CFBitBucketMask bitOfBucket (bitOfBucket + range_length range - 1), 0)
    else (__CFBitBucketMask bitOfBucket (__CF_BITS_PER_BUCKET - 1),
          range_length range - (__CF_BITS_PER_BUCKET - bitOfBucket)) in
  let* (b, context) := map_masked b bucketIdx bucketValMask context in
  let bucketIdx := bucketIdx + 1 in
  let nBuckets := Z.quot length __CF_BITS_PER_BUCKET in
  let length := length - nBuckets * __CF_BITS_PER_BUCKET in
  let* (b, bucketIdx, context) := map_whole (Z.to_nat nBuckets) b bucketIdx context in
  if negb (0 =? length)
  then map_masked b bucketIdx (__CFBitBucketMask 0 (length - 1)) context
  else Some (b, context).
End InternalMap.

(** The mappers that only compute a new bucket. *)
Definition pure_mapper (f : Z -> Z) (bucketValue bucketValueMask : Z) (context : unit) :
    option (Z * unit) := Some (f bucketValue, tt).

Definition __CFBitVectorZeroBits (bucketValue : Z) : Z := 0.

Definition __CFBitVectorOneBits (bucketValue : Z) : Z := uwrap 8 (Z.lnot 0).

Definition __CFBitVectorFlipBits (bucketValue : Z) : Z := Z.lxor (uwrap 8 (Z.lnot 0)) bucketValue.

(** [__CFBitVectorInternalMap] with a mapper that ignores its context. *)
Definition map_range (f : Z -> Z) (b : list Z) (range : CFRange) : option (list Z) :=
  let* (b, _) := __CFBitVectorInternalMap (pure_mapper f) b range tt in Some b.

(** ** Counting *)

Record _occursContext := { value : Z; count : Z }.

Definition __CFNibbleBitCount : list Z := [0; 1; 1; 2; 1; 2; 2; 3; 1; 2; 2; 3; 2; 3; 3; 4].

Fixpoint nibble_loop (n : nat) (val cnt : Z) : option Z :=
  match n with
  | O => Some cnt
  | S n =>
      let* c := rd __CFNibbleBitCount (Z.land val 15) in
      nibble_loop n (Z.shiftr val 4) (cnt + c)
  end.

Definition __CFBitVectorCountBits (bucketValue bucketValueMask : Z) (context : _occursContext) :
    option (Z * _occursContext) :=
  let val := if negb (value context =? 0) then Z.land bucketValue bucketValueMask
             else uwrap 8 (Z.land (Z.lnot bucketValue) bucketValueMask) in
  let* cnt := nibble_loop 2 val (count context) in
  Some (bucketValue, {| value := value context; count := cnt |}).

Definition CFBitVectorGetCountOfBit (bv : __CFBitVector) (range : CFRange) (v : Z) : option Z :=
  if 0 =? range_length range then Some 0 else
  let* (_, context) := __CFBitVectorInternalMap __CFBitVectorCountBits (_buckets bv) range
                         {| value := v; count := 0 |} in
  Some (count context).

Definition CFBitVectorContainsBit (bv : __CFBitVector) (range : CFRange) (v : Z) : option bool :=
  let* n := CFBitVectorGetCountOfBit bv range v in Some (negb (n =? 0)).

Definition CFBitVectorGetBitAtIndex (bv : __CFBitVector) (idx : Z) : option Z :=
  __CFBitVectorBit (_buckets bv) idx.

(** ** Copying bits out *)

(** The context of [__CFBitVectorGetBits]; [curByte] is the index of the
    current byte of the caller's buffer [bytes]. *)
Record _getBitsContext := mkGetBits {
  curByte : Z;
  initBits : Z;
  totalBits : Z;
  ignoreFirstInitBits : bool;
  bytes : list Z
}.

(** [while (__CF_BITS_PER_BYTE <= nBits)]; a bucket has 8 bits, so the loop
    runs at most once and [val] is 0 afterwards. *)
Fixpoint whole_bytes (fuel : nat) (val nBits : Z) (ctx : _getBitsContext) :
    option (Z * Z * _getBitsContext) :=
  if __CF_BITS_PER_BYTE <=? nBits then
    match fuel with
    | O => None
    | S f =>
        let* out := wr (bytes ctx) (curByte ctx)
                      (uwrap 8 (Z.shiftr val (__CF_BITS_PER_BUCKET - __CF_BITS_PER_BYTE))) in
        whole_bytes f 0 (nBits - __CF_BITS_PER_BYTE)
          (mkGetBits (curByte ctx + 1) (initBits ctx) (totalBits ctx - initBits ctx)
             (ignoreFirstInitBits ctx) out)
    end
  else Some (val, nBits, ctx).

Definition __CFBitVectorGetBits (bucketValue bucketValueMask : Z) (ctx : _getBitsContext) :
    option (Z * _getBitsContext) :=
  let val := Z.land bucketValue bucketValueMask in
  let nBits := Z.min (__CF_BITS_PER_BUCKET - initBits ctx) (totalBits ctx) in
  let* (val, ctx) :=
    (if 0 <? initBits ctx then
       let* ctx :=
         (if negb (ignoreFirstInitBits ctx) then
            let* b := rd (bytes ctx) (curByte ctx) in
            let* out := wr (bytes ctx) (curByte ctx)
              (uwrap 8 (Z.lor b (uwrap 8 (Z.shiftr val (__CF_BITS_PER_BUCKET - initBits ctx))))) in
            Some (mkGetBits (curByte ctx + 1) (initBits ctx) (totalBits ctx - initBits ctx)
                    false out)
          else Some ctx) in
       Some (uwrap 8 (Z.shiftl val (initBits ctx)), ctx)
     else Some (val, ctx)) in
  let* (val, nBits, ctx) := whole_bytes 1 val nBits ctx in
  if 0 <? nBits then
    let* out := wr (bytes ctx) (curByte ctx)
                  (uwrap 8 (Z.shiftr val (__CF_BITS_PER_BUCKET - __CF_BITS_PER_BYTE))) in
    Some (bucketValue, mkGetBits (curByte ctx) (initBits ctx) (totalBits ctx - nBits)
                         (ignoreFirstInitBits ctx) out)
  else Some (bucketValue, ctx).

Definition CFBitVectorGetBits (bv : __CFBitVector) (range : CFRange) (buffer : list Z) :
    option (list Z) :=
  if 0 =? range_length range then Some buffer else
  let* (_, ctx) := __CFBitVectorInternalMap __CFBitVectorGetBits (_buckets bv) range
    (mkGetBits 0 (Z.land (location range) (__CF_BITS_PER_BUCKET - 1)) (range_length range)
       true buffer) in
  Some (bytes ctx).

(** ** Searching *)

Fixpoint first_index_loop (bv : __CFBitVector) (loc v idx : Z) (n : nat) : option Z :=
  match n with
  | O => Some kCFNotFound
  | S n =>
      let* b := CFBitVectorGetBitAtIndex bv (loc + idx) in
      if v =? b then Some (loc + idx) else first_index_loop bv loc v (idx + 1) n
  end.

Definition CFBitVectorGetFirstIndexOfBit (bv : __CFBitVector) (range : CFRange) (v : Z) : option Z :=
  first_index_loop bv (location range) v 0 (Z.to_nat (range_length range)).

(** [for (idx = range.length; idx--;)]: [n] is the value of [idx] before the
    decrement. *)
Fixpoint last_index_loop (bv : __CFBitVector) (loc v : Z) (n : nat) : option Z :=
  match n with
  | O => Some kCFNotFound
  | S n =>
      let* b := CFBitVectorGetBitAtIndex bv (loc + Z.of_nat n) in
      if v =? b then Some (loc + Z.of_nat n) else last_index_loop bv loc v n
  end.

Definition CFBitVectorGetLastIndexOfBit (bv : __CFBitVector) (range : CFRange) (v : Z) : option Z :=
  last_index_loop bv (location range) v (Z.to_nat (range_length range)).

(** ** Creating *)

(** The object is [None] (NULL) when an allocation fails. *)
Definition __CFBitVectorInit (instance_ok store_ok : bool) (flags capacity : Z)
    (bytes : option (list Z)) (numBits : Z) : option (option __CFBitVector) :=
  if negb instance_ok then Some None else
  let memory := mkBV 128 0 0 [] in
  let memory := __CFBitVectorSetCapacity memory (__CFBitVectorRoundUpCapacity numBits) in
  let memory := __CFBitVectorSetNumBuckets memory
    (__CFBitVectorNumBucketsForCapacity (__CFBitVectorRoundUpCapacity numBits)) in
  if negb store_ok then Some None else
  let memory := set_buckets memory (replicate (Z.to_nat (__CFBitVectorNumBuckets memory)) 0) in
  let memory := __CFBitVectorSetNumBucketsUsed memory (Z.quot numBits __CF_BITS_PER_BUCKET + 1) in
  let memory := __CFBitVectorSetCount memory numBits in
  let* memory :=
    match bytes with
    | Some bytes =>
        let* b := memmove (_buckets memory) 0 bytes 0
          (Z.quot numBits __CF_BITS_PER_BYTE +
           (if negb (Z.land numBits __CF_BITS_PER_BYTE_MASK =? 0) then 1 else 0)) in
        Some (set_buckets memory b)
    | None => Some memory
    end in
  Some (Some (__CFBitVectorSetMutableVariety memory (__CFBitVectorMutableVarietyFromFlags flags))).

Definition CFBitVectorCreate (instance_ok store_ok : bool) (bytes : option (list Z)) (numBits : Z) :=
  __CFBitVectorInit instance_ok store_ok kCFBitVectorImmutable numBits bytes numBits.

Definition CFBitVectorCreateMutable (instance_ok store_ok : bool) (capacity : Z) :=
  __CFBitVectorInit instance_ok store_ok kCFBitVectorMutable capacity None 0.

Definition CFBitVectorCreateCopy (instance_ok store_ok : bool) (bv : __CFBitVector) :=
  __CFBitVectorInit instance_ok store_ok kCFBitVectorImmutable (__CFBitVectorCount bv)
    (Some (_buckets bv)) (__CFBitVectorCount bv).

Definition CFBitVectorCreateMutableCopy (instance_ok store_ok : bool) (capacity : Z)
    (bv : __CFBitVector) :=
  __CFBitVectorInit instance_ok store_ok kCFBitVectorMutable capacity
    (Some (_buckets bv)) (__CFBitVectorCount bv).

Definition CFBitVectorGetCount (bv : __CFBitVector) : Z := __CFBitVectorCount bv.

Definition __CFBitVectorHash (bv : __CFBitVector) : Z := __CFBitVectorCount bv.

(** ** Equality *)

Fixpoint equal_loop (b1 b2 : list Z) (idx : Z) (n : nat) : option bool :=
  match n with
  | O => Some true
  | S n =>
      let* val1 := rd b1 idx in
      let* val2 := rd b2 idx in
      if negb (val1 =? val2) then Some false else equal_loop b1 b2 (idx + 1) n
  end.

Definition __CFBitVectorEqual (bv1 bv2 : __CFBitVector) : option bool :=
  let cnt := __CFBitVectorCount bv1 in
  if negb (cnt =? __CFBitVectorCount bv2) then Some false else
  if 0 =? cnt then Some true else
  equal_loop (_buckets bv1) (_buckets bv2) 0 (Z.to_nat (Z.quot cnt __CF_BITS_PER_BUCKET + 1)).

(** ** Changing *)

(** [realloc] to [n] bytes: the kept prefix, then bytes of [garbage]. *)
Definition realloc_bytes (garbage : nat -> Z) (b : list Z) (n : Z) : list Z :=
  take (Z.to_nat n) b ++ (garbage <$> seq (length b) (Z.to_nat n - length b)).

Definition __CFBitVectorGrow (garbage : nat -> Z) (bv : __CFBitVector) (numNewValues : Z) :
    __CFBitVector :=
  let oldCount := __CFBitVectorCount bv in
  let capacity := __CFBitVectorRoundUpCapacity (oldCount + numNewValues) in
  let bv := __CFBitVectorSetCapacity bv capacity in
  let bv := __CFBitVectorSetNumBuckets bv (__CFBitVectorNumBucketsForCapacity capacity) in
  set_buckets bv (realloc_bytes garbage (_buckets bv) (__CFBitVectorNumBuckets bv)).

Definition CFBitVectorSetCount (garbage : nat -> Z) (bv : __CFBitVector) (count : Z) :
    option __CFBitVector :=
  let cnt := __CFBitVectorCount bv in
  let bv :=
    if __CFBitVectorMutableVariety bv =? kCFBitVectorMutable then
      if cnt <? count then __CFBitVectorGrow garbage bv (count - cnt) else bv
    else bv in
  let* bv :=
    (if cnt <? count then
       let* b := map_range __CFBitVectorZeroBits (_buckets bv) (CFRangeMake cnt (count - cnt)) in
       Some (set_buckets bv b)
     else Some bv) in
  let bv := __CFBitVectorSetNumBucketsUsed bv (Z.quot count __CF_BITS_PER_BUCKET + 1) in
  Some (__CFBitVectorSetCount bv count).

Definition CFBitVectorFlipBitAtIndex (bv : __CFBitVector) (idx : Z) : option __CFBitVector :=
  let* b := __CFFlipBitVectorBit (_buckets bv) idx in Some (set_buckets bv b).

Definition CFBitVectorFlipBits (bv : __CFBitVector) (range : CFRange) : option __CFBitVector :=
  if 0 =? range_length range then Some bv else
  let* b := map_range __CFBitVectorFlipBits (_buckets bv) range in Some (set_buckets bv b).

Definition CFBitVectorSetBitAtIndex (bv : __CFBitVector) (idx v : Z) : option __CFBitVector :=
  let* b := __CFSetBitVectorBit (_buckets bv) idx v in Some (set_buckets bv b).

Definition CFBitVectorSetBits (bv : __CFBitVector) (range : CFRange) (v : Z) : option __CFBitVector :=
  if 0 =? range_length range then Some bv else
  let* b :=
    (if negb (v =? 0) then map_range __CFBitVectorOneBits (_buckets bv) range
     else map_range __CFBitVectorZeroBits (_buckets bv) range) in
  Some (set_buckets bv b).

Definition CFBitVectorSetAllBits (bv : __CFBitVector) (v : Z) : option __CFBitVector :=
  let nBuckets := Z.quot (__CFBitVectorCount bv) __CF_BITS_PER_BUCKET in
  let leftover := __CFBitVectorCount bv - nBuckets * __CF_BITS_PER_BUCKET in
  let* b :=
    (if 0 <? leftover then
       let range := CFRangeMake (nBuckets * __CF_BITS_PER_BUCKET) leftover in
       if negb (v =? 0) then map_range __CFBitVectorOneBits (_buckets bv) range
       else map_range __CFBitVectorZeroBits (_buckets bv) range
     else Some (_buckets bv)) in
  let* b := memset b 0 (uwrap 8 (if negb (v =? 0) then Z.lnot 0 else 0)) nBuckets in
  Some (set_buckets bv b).

(** The deallocator frees the store. *)
Definition __CFBitVectorDeallocate (bv : __CFBitVector) : __CFBitVector := set_buckets bv [].

(** ** Bytes and bits *)

Definition byte (x : Z) : Prop := 0 <= x < 256.

(** Bit [p] of a store: most significant bit of a bucket first. *)
Definition bvbit (b : list Z) (p : Z) : bool :=
  Z.testbit (b !!! Z.to_nat (p / 8)) (7 - p mod 8).

Lemma uwrap8_byte x : byte (uwrap 8 x).
Proof. unfold byte. pose proof (uwrap_range 8 x). lia. Qed.

Lemma uwrap8_id x : byte x -> uwrap 8 x = x.
Proof. intros. apply uwrap_id. unfold in_unsigned. unfold byte in *. lia. Qed.

Lemma testbit_uwrap8 x k : 0 <= k < 8 -> Z.testbit (uwrap 8 x) k = Z.testbit x k.
Proof. intros. unfold uwrap. apply Z.mod_pow2_bits_low. lia. Qed.

Lemma byte_ext x y :
  byte x -> byte y -> (forall k, 0 <= k < 8 -> Z.testbit x (7 - k) = Z.testbit y (7 - k)) -> x = y.
Proof.
  intros Hx Hy H. rewrite <- (uwrap8_id x Hx), <- (uwrap8_id y Hy).
  apply Z.bits_inj'. intros n Hn. destruct (Z.lt_ge_cases n 8).
  - rewrite !testbit_uwrap8 by lia. replace n with (7 - (7 - n)) by lia. apply H. lia.
  - unfold uwrap. by rewrite !Z.mod_pow2_bits_high by lia.
Qed.

Lemma land7 x : Z.land x 7 = x mod 8.
Proof. change 7 with (Z.ones 3). by rewrite Z.land_ones. Qed.

Lemma quot8 x : 0 <= x -> Z.quot x 8 = x / 8.
Proof. intros. by rewrite Z.quot_div_nonneg by lia. Qed.

(** The mask of the bits [lo..hi] of a bucket. *)
Lemma bucket_mask_spec lo hi k :
  0 <= lo <= hi -> hi < 8 -> 0 <= k < 8 ->
  Z.testbit (__CFBitBucketMask lo hi) (7 - k) = (lo <=? k) && (k <=? hi).
Proof.
  intros Hlo Hhi Hk.
  pose (P := fun lo => forallb (fun hi => forallb (fun k => negb (lo <=? hi) ||
    Bool.eqb (Z.testbit (__CFBitBucketMask lo hi) (7 - k)) ((lo <=? k) && (k <=? hi)))
    (Z.of_nat <$> seq 0 8)) (Z.of_nat <$> seq 0 8)).
  assert (P lo = true) as H by (apply (forall_below P 8); [vm_compute; reflexivity|lia]).
  eapply (forall_below _ 8) in H; [|instantiate (1 := hi); lia].
  eapply (forall_below _ 8) in H; [|instantiate (1 := k); lia].
  destruct (Z.leb_spec lo hi); [|lia]. by apply Bool.eqb_prop in H.
Qed.

Lemma bucket_mask_byte lo hi : byte (__CFBitBucketMask lo hi).
Proof. apply uwrap8_byte. Qed.

(** ** The range as a chain of segments

    [seg_chain lo hi segs]: the buckets and masks [segs] cover exactly the
    bits [lo..hi-1], in order, one segment per bucket. *)

Inductive seg_chain : Z -> Z -> list (Z * Z) -> Prop :=
| chain_nil lo : seg_chain lo lo []
| chain_cons lo mid hi mask segs :
    lo < mid <= 8 * (lo / 8) + 8 -> mid <= hi -> (mid = 8 * (lo / 8) + 8 \/ mid = hi) ->
    byte mask ->
    (forall k, 0 <= k < 8 -> Z.testbit mask (7 - k) = (lo <=? 8 * (lo / 8) + k) && (8 * (lo / 8) + k <? mid)) ->
    seg_chain mid hi segs -> seg_chain lo hi ((lo / 8, mask) :: segs).

Section Segments.
Context {C : Type} (mapper : Z -> Z -> C -> option (Z * C)).
Hypothesis mapper_byte : forall v m c n c', byte v -> mapper v m c = Some (n, c') -> byte n.

Fixpoint run_segs (segs : list (Z * Z)) (b : list Z) (context : C) : option (list Z * C) :=
  match segs with
  | [] => Some (b, context)
  | (i, m) :: segs => let* (b, context) := map_masked mapper b i m context in run_segs segs b context
  end.

Lemma run_segs_app s1 s2 b c :
  run_segs (s1 ++ s2) b c = let* (b, c) := run_segs s1 b c in run_segs s2 b c.
Proof.
  revert b c. induction s1 as [|[i m] s1 IH]; intros; [done|]. simpl.
  destruct (map_masked mapper b i m c) as [[b' c']|]; simpl; [apply IH|done].
Qed.

Lemma map_masked_bytes b i m c b' c' :
  Forall byte b -> map_masked mapper b i m c = Some (b', c') ->
  Forall byte b' /\ length b' = length b.
Proof.
  unfold map_masked. intros Hb. destruct (rd b i) as [v|] eqn:Ev; [|done]. simpl.
  destruct (mapper v m c) as [[n c1]|]; [|done]. simpl.
  destruct (wr _ _ _) eqn:Ew; [|done]. intros [= <- <-]. split; [|by eapply length_wr].
  unfold wr in Ew. destruct (_ && _); [|done]. injection Ew as <-.
  apply Forall_insert; [done|apply uwrap8_byte].
Qed.

(** A whole bucket is the segment with the full mask. *)
Lemma whole_is_masked b i c :
  Forall byte b ->
  (let* v := rd b i in
   let* (n, c) := mapper v (uwrap 8 (Z.lnot 0)) c in
   let* b := wr b i n in Some (b, c)) = map_masked mapper b i 255 c.
Proof.
  intros Hb. unfold map_masked. change (uwrap 8 (Z.lnot 0)) with 255.
  destruct (rd b i) as [v|] eqn:Ev; [|done]. simpl.
  destruct (mapper v 255 c) as [[n c1]|] eqn:En; [|done]. simpl.
  assert (byte v) as Hv by (apply rd_inv in Ev as [_ Ev]; by eapply Forall_lookup_1 in Ev).
  pose proof (mapper_byte _ _ _ _ _ Hv En) as Hn.
  assert (uwrap 8 (Z.lor (Z.land v (Z.lnot 255)) (Z.land n 255)) = n) as ->; [|done].
  change 255 with (Z.ones 8). rewrite <- Z.ldiff_land.
  assert (Z.land v (Z.ones 8) = v) by (rewrite Z.land_ones by lia; apply Z.mod_small; apply Hv).
  rewrite <- H at 1. rewrite Z.ldiff_land, <- Z.land_assoc, Z.land_lnot_diag, Z.land_0_r, Z.lor_0_l.
  rewrite Z.land_ones, Z.mod_small by (try apply Hn; lia). by apply uwrap8_id.
Qed.

Lemma map_whole_segs n : forall b i c,
  Forall byte b ->
  map_whole mapper n b i c =
  let* (b, c) := run_segs ((fun k => (i + Z.of_nat k, 255)) <$> seq 0 n) b c in
  Some (b, i + Z.of_nat n, c).
Proof.
  induction n as [|n IH]; intros b i c Hb; [simpl; by rewrite Z.add_0_r|].
  cbn [map_whole seq]. rewrite fmap_cons. cbn [run_segs]. rewrite Z.add_0_r.
  rewrite <- whole_is_masked by done.
  destruct (rd b i) as [v|] eqn:Ev; [|done]. cbn [opt_bind].
  destruct (mapper v _ c) as [[nv c1]|] eqn:En; [|done]. cbn [opt_bind].
  destruct (wr b i nv) as [b1|] eqn:Ew; [|done]. cbn [opt_bind].
  assert (Forall byte b1).
  { unfold wr in Ew. destruct (_ && _); [|done]. injection Ew as <-. apply Forall_insert; [done|].
    eapply mapper_byte; [|done]. apply rd_inv in Ev as [_ Ev]. by eapply Forall_lookup_1 in Ev. }
  rewrite IH by done. rewrite <- fmap_S_seq, <- list_fmap_compose.
  assert ((fun k => (i + 1 + Z.of_nat k, 255)) <$> seq 0 n =
          ((fun k => (i + Z.of_nat k, 255)) ∘ S) <$> seq 0 n) as ->
    by (apply list_fmap_ext; intros; simpl; f_equal; lia).
  destruct (run_segs _ b1 c1) as [[b2 c2]|]; [|done]. simpl. by rewrite <- Z.add_assoc, Z.add_1_l, <- Nat2Z.inj_succ.
Qed.

Lemma whole_chain n lo hi segs :
  lo mod 8 = 0 -> seg_chain (lo + 8 * Z.of_nat n) hi segs -> lo + 8 * Z.of_nat n <= hi ->
  seg_chain lo hi (((fun k => (lo / 8 + Z.of_nat k, 255)) <$> seq 0 n) ++ segs).
Proof.
  revert lo. induction n as [|n IH]; intros lo Hlo Hc Hhi.
  - by rewrite Z.add_0_r in Hc.
  - assert (lo = 8 * (lo / 8)) as Elo by (pose proof (Z.div_mod lo 8); lia).
    cbn [seq]. rewrite fmap_cons, Z.add_0_r. cbn [app]. apply chain_cons with (lo + 8); [lia..|done| |].
    + intros k Hk. bool_case.
      apply (forall_below (fun k => Z.testbit 255 (7 - k)) 8); [reflexivity|done].
    + rewrite <- fmap_S_seq, <- list_fmap_compose.
      assert (((fun k => (lo / 8 + Z.of_nat k, 255)) ∘ S) <$> seq 0 n =
              (fun k => ((lo + 8) / 8 + Z.of_nat k, 255)) <$> seq 0 n) as ->.
      { apply list_fmap_ext. intros. simpl. f_equal.
        rewrite <- (Z.mul_1_l 8) at 2. rewrite Z.div_add by lia. lia. }
      apply IH; [|replace (lo + 8 + 8 * Z.of_nat n) with (lo + 8 * Z.of_nat (S n)) by lia; done|lia].
      rewrite <- Z.add_mod_idemp_r, Z.mod_same, Z.add_0_r by lia. done.
Qed.

Lemma div8_range lo : 8 * (lo / 8) <= lo < 8 * (lo / 8) + 8.
Proof. pose proof (Z.div_mod lo 8). pose proof (Z.mod_pos_bound lo 8). lia. Qed.

Lemma first_segment lo mid hi segs :
  0 <= lo -> lo < mid <= 8 * (lo / 8) + 8 -> mid <= hi -> (mid = 8 * (lo / 8) + 8 \/ mid = hi) ->
  seg_chain mid hi segs ->
  seg_chain lo hi ((lo / 8, __CFBitBucketMask (lo mod 8) (mid - 8 * (lo / 8) - 1)) :: segs).
Proof.
  intros Hlo Hmid Hhi Hor Hc. pose proof (div8_range lo).
  assert (lo mod 8 = lo - 8 * (lo / 8)) as Em by (pose proof (Z.div_mod lo 8); lia).
  apply chain_cons with mid; try done; [apply bucket_mask_byte|].
  intros k Hk. rewrite bucket_mask_spec by lia. rewrite Em. bool_case; done.
Qed.

(** [__CFBitVectorInternalMap] visits the segments of its range in order. *)
Lemma internal_map_segs b loc len c :
  0 <= loc -> 0 <= len -> Forall byte b ->
  exists segs, seg_chain loc (loc + len) segs /\
    __CFBitVectorInternalMap mapper b (CFRangeMake loc len) c = run_segs segs b c.
Proof.
  intros Hloc Hlen Hb. unfold __CFBitVectorInternalMap, __CF_BITS_PER_BUCKET. cbn [location range_length].
  change (8 - 1) with 7. rewrite land7, quot8 by done.
  pose proof (div8_range loc) as Hd. pose proof (Z.div_mod loc 8 ltac:(lia)) as Hdm.
  destruct (Z.eqb_spec 0 len) as [<-|Hnz].
  { exists []. rewrite Z.add_0_r. split; [constructor|done]. }
  destruct (Z.ltb_spec (loc mod 8 + len) 8) as [Hs|Hs]; cbn [opt_bind].
  { eexists. split.
    - apply (first_segment loc (loc + len) (loc + len) []); try lia. constructor.
    - replace (loc + len - 8 * (loc / 8) - 1) with (loc mod 8 + len - 1) by lia. cbn [run_segs].
      destruct (map_masked _ _ _ _ _) as [[b1 c1]|]; reflexivity. }
  set (len1 := len - (8 - loc mod 8)). set (mid := 8 * (loc / 8) + 8).
  assert (loc + len = mid + len1) as Ehi by lia. assert (mid mod 8 = 0) as Hmid.
  { unfold mid. replace (8 * (loc / 8) + 8) with ((loc / 8 + 1) * 8) by lia. apply Z.mod_mul. lia. }
  assert (mid / 8 = loc / 8 + 1) as Hmd.
  { unfold mid. replace (8 * (loc / 8) + 8) with ((loc / 8 + 1) * 8) by lia. apply Z.div_mul. lia. }
  rewrite quot8 by lia. set (n := len1 / 8). assert (0 <= n) by (apply Z.div_pos; lia).
  pose proof (Z.div_mod len1 8 ltac:(lia)) as Hdn. pose proof (Z.mod_pos_bound len1 8 ltac:(lia)).
  fold n in Hdn.
  set (tail := if negb (0 =? len1 - n * 8)
    then [(mid / 8 + n, __CFBitBucketMask 0 (len1 - n * 8 - 1))] else []).
  exists ((loc / 8, __CFBitBucketMask (loc mod 8) 7) ::
     ((fun k => (mid / 8 + Z.of_nat k, 255)) <$> seq 0 (Z.to_nat n)) ++ tail). split.
  - replace (__CFBitBucketMask (loc mod 8) 7) with (__CFBitBucketMask (loc mod 8) (mid - 8 * (loc / 8) - 1))
      by (f_equal; lia).
    apply first_segment; try lia. apply whole_chain; [done| |rewrite Z2Nat.id; lia].
    rewrite Z2Nat.id by done. unfold tail. destruct (Z.eqb_spec 0 (len1 - n * 8)) as [E|E]; cbn [negb].
    + replace (loc + len) with (mid + 8 * n) by lia. constructor.
    + assert ((mid + 8 * n) / 8 = mid / 8 + n) as Ed by (rewrite (Z.mul_comm 8 n), Z.div_add by lia; done).
      assert ((mid + 8 * n) mod 8 = 0) as Em by (rewrite (Z.mul_comm 8 n), Z.mod_add by lia; done).
      pose proof (first_segment (mid + 8 * n) (loc + len) (loc + len) []) as Hf. rewrite Ed, Em in Hf.
      replace (loc + len - 8 * (mid / 8 + n) - 1) with (len1 - n * 8 - 1) in Hf by lia.
      apply Hf; try lia. constructor.
  - cbn [run_segs]. destruct (map_masked mapper b _ _ c) as [[b1 c1]|] eqn:E1; [|done]. cbn [opt_bind].
    apply map_masked_bytes in E1 as [Hb1 _]; [|done].
    rewrite run_segs_app, map_whole_segs, <- Hmd by done.
    destruct (run_segs _ b1 c1) as [[b2 c2]|]; [|done]. cbn [opt_bind].
    rewrite Z2Nat.id by done. unfold tail. destruct (negb _); [|done]. cbn [run_segs].
    destruct (map_masked _ _ _ _ _) as [[b3 c3]|]; reflexivity.
Qed.

End Segments.

(** ** What the pure mappers do to the bits *)

Definition byte_map (f : Z -> Z) : Prop := forall v, byte v -> byte (f v).

Lemma lookup_byte b i : Forall byte b -> (i < length b)%nat -> byte (b !!! i).
Proof. intros Hb Hi. eapply Forall_lookup_total_1; done. Qed.

Lemma pure_masked f b i m :
  0 <= i < Z.of_nat (length b) ->
  map_masked (pure_mapper f) b i m tt =
  Some (<[Z.to_nat i := uwrap 8 (Z.lor (Z.land (b !!! Z.to_nat i) (Z.lnot m))
                                       (Z.land (f (b !!! Z.to_nat i)) m))]> b, tt).
Proof.
  intros Hi. unfold map_masked.
  assert (rd b i = Some (b !!! Z.to_nat i)) as ->.
  { unfold rd. destruct (Z.leb_spec 0 i); [|lia]. apply list_lookup_lookup_total_lt. lia. }
  simpl. rewrite wr_ok by lia. done.
Qed.

Lemma merge_bit v n m k :
  0 <= k < 8 ->
  Z.testbit (uwrap 8 (Z.lor (Z.land v (Z.lnot m)) (Z.land n m))) (7 - k) =
  if Z.testbit m (7 - k) then Z.testbit n (7 - k) else Z.testbit v (7 - k).
Proof.
  intros. rewrite testbit_uwrap8, Z.lor_spec, !Z.land_spec, Z.lnot_spec by lia.
  destruct (Z.testbit m (7 - k)), (Z.testbit v (7 - k)), (Z.testbit n (7 - k)); done.
Qed.

Lemma run_segs_pure f segs : forall b lo hi,
  seg_chain lo hi segs -> 0 <= lo -> hi <= 8 * Z.of_nat (length b) -> Forall byte b ->
  exists b', run_segs (pure_mapper f) segs b tt = Some (b', tt) /\ Forall byte b' /\
    length b' = length b /\
    forall p, 0 <= p < 8 * Z.of_nat (length b) ->
      bvbit b' p = if (lo <=? p) && (p <? hi) then Z.testbit (f (b !!! Z.to_nat (p / 8))) (7 - p mod 8)
                   else bvbit b p.
Proof.
  induction segs as [|[i m] segs IH]; intros b lo hi Hc Hlo Hhi Hb;
    inversion Hc as [|? mid ? ? ? Hm1 Hm2 Hm3 Hm4 Hm5 Hm6]; subst.
  - exists b. split_and!; try done. intros p Hp. bool_case; done.
  - pose proof (div8_range lo). cbn [run_segs]. rewrite pure_masked by lia. cbn [opt_bind].
    set (b1 := <[Z.to_nat (lo / 8) := _]> b).
    assert (Forall byte b1) by (apply Forall_insert; [done|apply uwrap8_byte]).
    assert (length b1 = length b) as Hl1 by apply length_insert.
    destruct (IH b1 mid hi) as (b' & E & Hb' & Hl & Hbits); [done|lia|lia|done|].
    exists b'. split_and!; [done|done|lia|]. intros p Hp. rewrite Hbits by lia.
    pose proof (div8_range p). pose proof (Z.div_mod p 8 ltac:(lia)).
    pose proof (Z.mod_pos_bound p 8 ltac:(lia)).
    destruct (Z.eq_dec (p / 8) (lo / 8)) as [E8|E8].
    + assert (b1 !!! Z.to_nat (p / 8) = uwrap 8 (Z.lor (Z.land (b !!! Z.to_nat (lo / 8)) (Z.lnot m))
                 (Z.land (f (b !!! Z.to_nat (lo / 8))) m))) as E1
        by (rewrite E8; apply list_lookup_total_insert_eq; lia).
      assert ((mid <=? p) && (p <? hi) = false) as -> by (bool_case; done).
      unfold bvbit at 1. rewrite E1, merge_bit, Hm5 by lia. unfold bvbit. rewrite E8.
      replace (8 * (lo / 8) + p mod 8) with p by lia. bool_case; done.
    + assert (b1 !!! Z.to_nat (p / 8) = b !!! Z.to_nat (p / 8)) as E1
        by (apply list_lookup_total_insert_ne; lia).
      unfold bvbit. rewrite E1. bool_case; done.
Qed.

Lemma map_range_spec f b loc len :
  byte_map f -> 0 <= loc -> 0 <= len -> loc + len <= 8 * Z.of_nat (length b) -> Forall byte b ->
  exists b', map_range f b (CFRangeMake loc len) = Some b' /\ Forall byte b' /\
    length b' = length b /\
    forall p, 0 <= p < 8 * Z.of_nat (length b) ->
      bvbit b' p = if (loc <=? p) && (p <? loc + len) then Z.testbit (f (b !!! Z.to_nat (p / 8))) (7 - p mod 8)
                   else bvbit b p.
Proof.
  intros Hf Hloc Hlen Hhi Hb. unfold map_range.
  destruct (internal_map_segs (pure_mapper f)) with (b := b) (loc := loc) (len := len) (c := tt)
    as (segs & Hc & E); try done.
  { intros v m c n c' Hv [= <- _]. by apply Hf. }
  rewrite E. destruct (run_segs_pure f segs b loc (loc + len)) as (b' & E' & ?); try done.
  exists b'. by rewrite E'.
Qed.

Lemma zero_bits_byte : byte_map __CFBitVectorZeroBits.
Proof. intros v _. done. Qed.

Lemma one_bits_byte : byte_map __CFBitVectorOneBits.
Proof. intros v _. done. Qed.

Lemma testbit_255 k : 0 <= k < 8 -> Z.testbit 255 k = true.
Proof. intros. change 255 with (Z.ones 8). apply Z.ones_spec_low. lia. Qed.

Lemma flip_bits_byte : byte_map __CFBitVectorFlipBits.
Proof.
  intros v Hv. unfold __CFBitVectorFlipBits. change (uwrap 8 (Z.lnot 0)) with 255.
  assert (Z.lxor 255 v = uwrap 8 (Z.lxor 255 v)) as ->; [|apply uwrap8_byte].
  apply Z.bits_inj'. intros n Hn. unfold uwrap. destruct (Z.lt_ge_cases n 8).
  - by rewrite Z.mod_pow2_bits_low.
  - rewrite Z.mod_pow2_bits_high, Z.lxor_spec by lia. change 255 with (Z.ones 8).
    rewrite Z.ones_spec_high, <- (uwrap8_id v Hv) by lia. unfold uwrap. by rewrite Z.mod_pow2_bits_high by lia.
Qed.

Lemma flip_bits_bit v k : 0 <= k < 8 -> Z.testbit (__CFBitVectorFlipBits v) k = negb (Z.testbit v k).
Proof.
  intros. unfold __CFBitVectorFlipBits. change (uwrap 8 (Z.lnot 0)) with 255.
  rewrite Z.lxor_spec, testbit_255 by done. by destruct (Z.testbit v k).
Qed.

(** ** Counting *)

(** The positions of [lo..hi-1] whose bit is [v]. *)
Definition positions (b : list Z) (v : bool) (lo hi : Z) : list Z :=
  filter (fun p => bvbit b p = v) (seqZ lo (hi - lo)).

Lemma positions_split b v lo mid hi :
  lo <= mid <= hi -> positions b v lo hi = positions b v lo mid ++ positions b v mid hi.
Proof.
  intros. unfold positions. rewrite <- list.filter_app.
  replace (hi - lo) with ((mid - lo) + (hi - mid)) by lia.
  rewrite seqZ_app by lia. by replace (lo + (mid - lo)) with mid by lia.
Qed.

(** Number of set bits of a byte. *)
Definition popcount (w : Z) : Z :=
  Z.of_nat (length (filter (fun k => Z.testbit w (7 - k) = true) (seqZ 0 8))).

Lemma nibble_loop_spec w c : byte w -> nibble_loop 2 w c = Some (c + popcount w).
Proof.
  intros Hw.
  assert (match nibble_loop 2 w 0 with Some n => n =? popcount w | None => false end = true) as H.
  { apply (forall_below (fun w => match nibble_loop 2 w 0 with Some n => n =? popcount w | None => false end) 256);
      [vm_compute; reflexivity|exact Hw]. }
  assert (forall n w c d, nibble_loop n w (c + d) =
            match nibble_loop n w c with Some x => Some (x + d) | None => None end) as Hadd.
  { induction n as [|n IH]; intros; simpl; [done|]. destruct (rd _ _) as [x|]; simpl; [|done].
    rewrite <- IH. f_equal. lia. }
  rewrite <- (Z.add_0_l c), Hadd. destruct (nibble_loop 2 w 0); [|done].
  apply Z.eqb_eq in H as ->. f_equal. lia.
Qed.

Lemma filter_shift (P Q : Z -> Prop) `{!forall x, Decision (P x), !forall x, Decision (Q x)} d l :
  (forall k, k ∈ l -> P (d + k) <-> Q k) ->
  length (filter P (Z.add d <$> l)) = length (filter Q l).
Proof.
  induction l as [|x l IH]; intros HPQ; [done|]. rewrite fmap_cons, !filter_cons.
  pose proof (HPQ x ltac:(left)). specialize (IH (fun k Hk => HPQ k ltac:(by right))).
  destruct (decide (P (d + x))), (decide (Q x)); simpl; tauto || lia.
Qed.

(** The set bits of a bucket whose bits outside [lo..mid-1] are clear are the
    positions of that range. *)
Lemma popcount_segment b v lo mid w :
  0 <= lo -> lo < mid <= 8 * (lo / 8) + 8 ->
  (forall k, 0 <= k < 8 -> Z.testbit w (7 - k) =
     (lo <=? 8 * (lo / 8) + k) && (8 * (lo / 8) + k <? mid) &&
     Bool.eqb (bvbit b (8 * (lo / 8) + k)) v) ->
  popcount w = Z.of_nat (length (positions b v lo mid)).
Proof.
  intros Hlo Hmid Hw. pose proof (div8_range lo). unfold popcount, positions. f_equal.
  set (base := 8 * (lo / 8)) in *.
  replace 8 with ((lo - base) + ((mid - lo) + (base + 8 - mid))) at 1 by lia.
  rewrite !seqZ_app by lia. rewrite !list.filter_app.
  rewrite (filter_none _ (seqZ 0 (lo - base))).
  2: { apply list.Forall_forall. intros k Hk. apply elem_of_seqZ in Hk. rewrite Hw by lia. by bool_case. }
  rewrite (filter_none _ (seqZ (0 + (lo - base) + (mid - lo)) _)).
  2: { apply list.Forall_forall. intros k Hk. apply elem_of_seqZ in Hk. rewrite Hw by lia. by bool_case. }
  rewrite app_nil_r. cbn [app].
  assert (seqZ lo (mid - lo) = Z.add base <$> seqZ (0 + (lo - base)) (mid - lo)) as ->.
  { rewrite fmap_add_seqZ. f_equal. lia. }
  symmetry. apply filter_shift. intros k. rewrite elem_of_seqZ. intros Hk. rewrite Hw by lia.
  bool_case. simpl. by rewrite Bool.eqb_true_iff.
Qed.

Lemma div8_add q k : 0 <= k < 8 -> (8 * q + k) / 8 = q.
Proof. intros. symmetry. apply (Z.div_unique _ _ _ k); lia. Qed.

Lemma mod8_add q k : 0 <= k < 8 -> (8 * q + k) mod 8 = k.
Proof. intros. symmetry. apply (Z.mod_unique _ _ q k); lia. Qed.

Lemma count_masked b v mask c lo mid :
  0 <= lo -> lo < mid <= 8 * (lo / 8) + 8 -> mid <= 8 * Z.of_nat (length b) ->
  Forall byte b -> byte mask ->
  (forall k, 0 <= k < 8 -> Z.testbit mask (7 - k) = (lo <=? 8 * (lo / 8) + k) && (8 * (lo / 8) + k <? mid)) ->
  map_masked __CFBitVectorCountBits b (lo / 8) mask {| value := v; count := c |} =
  Some (b, {| value := v; count := c + Z.of_nat (length (positions b (negb (v =? 0)) lo mid)) |}).
Proof.
  intros Hlo Hmid Hlen Hb Hm Hmask. pose proof (div8_range lo).
  set (i := Z.to_nat (lo / 8)). set (x := b !!! i).
  assert (byte x) as Hx by (apply lookup_byte; [done|lia]).
  assert (rd b (lo / 8) = Some x) as Erd.
  { unfold rd. destruct (Z.leb_spec 0 (lo / 8)); [|lia]. apply list_lookup_lookup_total_lt. lia. }
  assert (forall k, 0 <= k < 8 -> bvbit b (8 * (lo / 8) + k) = Z.testbit x (7 - k)) as Hbit.
  { intros k Hk. unfold bvbit. by rewrite div8_add, mod8_add. }
  unfold map_masked. rewrite Erd. cbn [opt_bind]. unfold __CFBitVectorCountBits. cbn [value count].
  set (w := if negb (v =? 0) then _ else _).
  assert (byte w /\ forall k, 0 <= k < 8 -> Z.testbit w (7 - k) =
            Z.testbit mask (7 - k) && Bool.eqb (Z.testbit x (7 - k)) (negb (v =? 0))) as [Hwb Hw].
  { unfold w. destruct (v =? 0); cbn [negb]; split.
    - apply uwrap8_byte.
    - intros k Hk. rewrite testbit_uwrap8, Z.land_spec, Z.lnot_spec by lia.
      by destruct (Z.testbit x _), (Z.testbit mask _).
    - unfold byte. rewrite <- (uwrap8_id mask Hm). unfold uwrap. rewrite <- Z.land_ones by lia.
      rewrite Z.land_assoc, Z.land_ones by lia. apply (Z.mod_pos_bound _ (2 ^ 8)). lia.
    - intros k Hk. rewrite Z.land_spec. by destruct (Z.testbit x _), (Z.testbit mask _). }
  rewrite nibble_loop_spec by done. cbn [opt_bind].
  rewrite (popcount_segment b (negb (v =? 0)) lo mid w); try done.
  2: { intros k Hk. rewrite Hw, Hmask, Hbit by lia. done. }
  rewrite wr_ok by lia. cbn [opt_bind].
  assert (uwrap 8 (Z.lor (Z.land x (Z.lnot mask)) (Z.land x mask)) = x) as ->.
  { apply byte_ext; [apply uwrap8_byte|done|]. intros k Hk. rewrite merge_bit by lia.
    by destruct (Z.testbit mask (7 - k)). }
  rewrite list_insert_id; [done|]. apply list_lookup_lookup_total_lt. lia.
Qed.

Lemma run_segs_count b v segs : forall c lo hi,
  seg_chain lo hi segs -> 0 <= lo -> hi <= 8 * Z.of_nat (length b) -> Forall byte b ->
  run_segs __CFBitVectorCountBits segs b {| value := v; count := c |} =
  Some (b, {| value := v; count := c + Z.of_nat (length (positions b (negb (v =? 0)) lo hi)) |}).
Proof.
  induction segs as [|[i m] segs IH]; intros c lo hi Hc Hlo Hhi Hb;
    inversion Hc as [|? mid ? ? ? Hm1 Hm2 Hm3 Hm4 Hm5 Hm6]; subst.
  - unfold positions. rewrite Z.sub_diag. simpl. by rewrite Z.add_0_r.
  - cbn [run_segs]. rewrite (count_masked b v m c lo mid) by (done || lia). cbn [opt_bind].
    rewrite (IH _ mid hi) by (done || lia). rewrite (positions_split b _ lo mid hi) by lia.
    rewrite length_app. do 3 f_equal. lia.
Qed.

Lemma count_bits_byte v m c n c' : byte v -> __CFBitVectorCountBits v m c = Some (n, c') -> byte n.
Proof.
  unfold __CFBitVectorCountBits. intros Hv. destruct (nibble_loop _ _ _); [|done]. by intros [= <- _].
Qed.

Lemma get_count_spec bv loc len v :
  0 <= loc -> 0 <= len -> loc + len <= 8 * Z.of_nat (length (_buckets bv)) -> Forall byte (_buckets bv) ->
  CFBitVectorGetCountOfBit bv (CFRangeMake loc len) v =
  Some (Z.of_nat (length (positions (_buckets bv) (negb (v =? 0)) loc (loc + len)))).
Proof.
  intros Hloc Hlen Hhi Hb. unfold CFBitVectorGetCountOfBit. cbn [range_length].
  destruct (Z.eqb_spec 0 len) as [<-|Hnz].
  { unfold positions. by rewrite Z.add_0_r, Z.sub_diag. }
  destruct (internal_map_segs __CFBitVectorCountBits count_bits_byte (_buckets bv) loc len
    {| value := v; count := 0 |}) as (segs & Hc & ->); try done.
  by rewrite (run_segs_count _ _ _ _ loc (loc + len)).
Qed.

(** ** Single bits *)

Lemma bit_spec b p :
  0 <= p < 8 * Z.of_nat (length b) -> __CFBitVectorBit b p = Some (Z.b2z (bvbit b p)).
Proof.
  intros Hp. unfold __CFBitVectorBit, __CF_BITS_PER_BUCKET. change (8 - 1) with 7.
  rewrite quot8, land7 by lia. pose proof (div8_range p).
  assert (rd b (p / 8) = Some (b !!! Z.to_nat (p / 8))) as ->.
  { unfold rd. destruct (Z.leb_spec 0 (p / 8)); [|lia]. apply list_lookup_lookup_total_lt. lia. }
  cbn [opt_bind]. f_equal. unfold bvbit. pose proof (Z.mod_pos_bound p 8 ltac:(lia)).
  change 1 with (Z.ones 1). rewrite Z.land_ones by lia. change (2 ^ 1) with 2.
  by rewrite <- Z.bit0_mod, Z.shiftr_spec, Z.add_0_l by lia.
Qed.

Lemma rd_bucket (b : list Z) p :
  0 <= p < 8 * Z.of_nat (length b) -> rd b (p / 8) = Some (b !!! Z.to_nat (p / 8)).
Proof.
  intros Hp. pose proof (div8_range p). unfold rd. destruct (Z.leb_spec 0 (p / 8)); [|lia].
  apply list_lookup_lookup_total_lt. lia.
Qed.

(** Writing a new value into the bucket of bit [p] that differs from the old
    one in that bit only. *)
Lemma write_bit b p w x :
  0 <= p < 8 * Z.of_nat (length b) -> Forall byte b ->
  (forall k, 0 <= k < 8 -> Z.testbit w (7 - k) =
     if k =? p mod 8 then x else Z.testbit (b !!! Z.to_nat (p / 8)) (7 - k)) ->
  exists b', wr b (p / 8) (uwrap 8 w) = Some b' /\ Forall byte b' /\ length b' = length b /\
    forall q, 0 <= q < 8 * Z.of_nat (length b) -> bvbit b' q = if q =? p then x else bvbit b q.
Proof.
  intros Hp Hb Hw. pose proof (div8_range p). rewrite wr_ok by lia. eexists.
  split_and!; [done|apply Forall_insert; [done|apply uwrap8_byte]|by rewrite length_insert|].
  intros q Hq. pose proof (div8_range q). pose proof (Z.mod_pos_bound q 8 ltac:(lia)).
  pose proof (Z.div_mod q 8 ltac:(lia)). pose proof (Z.div_mod p 8 ltac:(lia)). unfold bvbit.
  destruct (Z.eq_dec (q / 8) (p / 8)) as [E|E].
  - rewrite E, list_lookup_total_insert_eq, testbit_uwrap8, Hw by lia. bool_case; done.
  - rewrite list_lookup_total_insert_ne by lia. bool_case; done.
Qed.

Lemma testbit_one_bit p k :
  0 <= k < 8 -> Z.testbit (Z.shiftl 1 (7 - p mod 8)) (7 - k) = (k =? p mod 8).
Proof.
  intros Hk. pose proof (Z.mod_pos_bound p 8 ltac:(lia)).
  rewrite Z.shiftl_1_l, Z.pow2_bits_eqb by lia. bool_case; done.
Qed.

Lemma set_bit_spec b p v :
  0 <= p < 8 * Z.of_nat (length b) -> Forall byte b ->
  exists b', __CFSetBitVectorBit b p v = Some b' /\ Forall byte b' /\ length b' = length b /\
    forall q, 0 <= q < 8 * Z.of_nat (length b) ->
      bvbit b' q = if q =? p then negb (v =? 0) else bvbit b q.
Proof.
  intros Hp Hb. unfold __CFSetBitVectorBit, __CF_BITS_PER_BUCKET. change (8 - 1) with 7.
  rewrite quot8, land7, rd_bucket by lia. cbn [opt_bind].
  destruct (v =? 0); cbn [negb]; apply write_bit; try done; intros k Hk.
  - rewrite Z.land_spec, Z.lnot_spec, testbit_one_bit by lia. destruct (_ =? _); simpl; [apply andb_false_r|apply andb_true_r].
  - rewrite Z.lor_spec, testbit_one_bit by lia. destruct (_ =? _); [apply orb_true_r|apply orb_false_r].
Qed.

Lemma flip_bit_spec b p :
  0 <= p < 8 * Z.of_nat (length b) -> Forall byte b ->
  exists b', __CFFlipBitVectorBit b p = Some b' /\ Forall byte b' /\ length b' = length b /\
    forall q, 0 <= q < 8 * Z.of_nat (length b) ->
      bvbit b' q = if q =? p then negb (bvbit b p) else bvbit b q.
Proof.
  intros Hp Hb. unfold __CFFlipBitVectorBit, __CF_BITS_PER_BUCKET. change (8 - 1) with 7.
  rewrite quot8, land7, rd_bucket by lia. cbn [opt_bind].
  apply write_bit; try done; intros k Hk. rewrite Z.lxor_spec, testbit_one_bit by lia.
  destruct (Z.eqb_spec k (p mod 8)) as [->|]; [by rewrite xorb_true_r|apply xorb_false_r].
Qed.

(** ** The well-formed vector and the bit list it stands for *)

Record bv_wf (bv : __CFBitVector) : Prop := {
  wf_count : 0 <= _count bv <= _capacity bv;
  wf_length : Z.of_nat (length (_buckets bv)) = _capacity bv / 8 + 1;
  wf_bytes : Forall byte (_buckets bv)
}.

Definition bits_of (b : list Z) (n : Z) : list bool := bvbit b <$> seqZ 0 n.

Definition bits (bv : __CFBitVector) : list bool := bits_of (_buckets bv) (_count bv).

Lemma wf_room bv : bv_wf bv -> _count bv <= 8 * Z.of_nat (length (_buckets bv)).
Proof. intros [Hc Hl _]. pose proof (Z.div_mod (_capacity bv) 8). pose proof (Z.mod_pos_bound (_capacity bv) 8). lia. Qed.

Lemma length_bits_of b n : 0 <= n -> length (bits_of b n) = Z.to_nat n.
Proof. intros. unfold bits_of. by rewrite length_fmap, length_seqZ. Qed.

Lemma lookup_bits_of b n k :
  (k < Z.to_nat n)%nat -> bits_of b n !! k = Some (bvbit b (Z.of_nat k)).
Proof. intros. unfold bits_of. rewrite list_lookup_fmap, lookup_seqZ_lt by lia. done. Qed.

(** A list is the bit list of a store when it agrees with it bit by bit. *)
Lemma bits_of_eq b n (l : list bool) :
  0 <= n -> length l = Z.to_nat n ->
  (forall k, (k < Z.to_nat n)%nat -> l !! k = Some (bvbit b (Z.of_nat k))) -> bits_of b n = l.
Proof.
  intros Hn Hl H. apply list_eq_same_length with (Z.to_nat n); [done|by apply length_bits_of|].
  intros k x y Hk. rewrite lookup_bits_of, H by done. congruence.
Qed.

Lemma set_buckets_wf bv b :
  bv_wf bv -> Forall byte b -> length b = length (_buckets bv) -> bv_wf (set_buckets bv b).
Proof. intros [Hc Hl Hb] ? E. split; simpl; [done|by rewrite E|done]. Qed.

(** ** The operations against lists of bits *)

(** The mutating calls of the public interface. *)
Inductive bv_call :=
| CallSetBitAtIndex (idx value : Z)
| CallFlipBitAtIndex (idx : Z)
| CallSetBits (range : CFRange) (value : Z)
| CallFlipBits (range : CFRange)
| CallSetAllBits (value : Z)
| CallSetCount (count : Z).

Definition run_call (garbage : nat -> Z) (bv : __CFBitVector) (c : bv_call) : option __CFBitVector :=
  match c with
  | CallSetBitAtIndex idx v => CFBitVectorSetBitAtIndex bv idx v
  | CallFlipBitAtIndex idx => CFBitVectorFlipBitAtIndex bv idx
  | CallSetBits range v => CFBitVectorSetBits bv range v
  | CallFlipBits range => CFBitVectorFlipBits bv range
  | CallSetAllBits v => CFBitVectorSetAllBits bv v
  | CallSetCount n => CFBitVectorSetCount garbage bv n
  end.

(** The arguments the debug assertions of the source ask for. *)
Definition call_ok (n : Z) (c : bv_call) : bool :=
  match c with
  | CallSetBitAtIndex idx _ | CallFlipBitAtIndex idx => (0 <=? idx) && (idx <? n)
  | CallSetBits (CFRangeMake loc len) _ | CallFlipBits (CFRangeMake loc len) =>
      (0 <=? loc) && (0 <=? len) && (loc + len <=? n)
  | CallSetAllBits _ => true
  | CallSetCount m => 0 <=? m
  end.

Definition window {A} (f : list A -> list A) (loc len : Z) (l : list A) : list A :=
  take (Z.to_nat loc) l ++ f (take (Z.to_nat len) (drop (Z.to_nat loc) l)) ++
  drop (Z.to_nat loc + Z.to_nat len) l.

(** What each call does to the list of bits. *)
Definition spec_call (l : list bool) (c : bv_call) : list bool :=
  match c with
  | CallSetBitAtIndex idx v => <[Z.to_nat idx := negb (v =? 0)]> l
  | CallFlipBitAtIndex idx => alter negb (Z.to_nat idx) l
  | CallSetBits (CFRangeMake loc len) v =>
      window (fmap (fun _ => negb (v =? 0))) loc len l
  | CallFlipBits (CFRangeMake loc len) => window (fmap negb) loc len l
  | CallSetAllBits v => replicate (length l) (negb (v =? 0))
  | CallSetCount n => take (Z.to_nat n) l ++ replicate (Z.to_nat n - length l) false
  end.

Lemma window_fmap_bits b b' n loc len (g : bool -> bool) :
  0 <= loc -> 0 <= len -> loc + len <= n ->
  (forall p, 0 <= p < n -> bvbit b' p =
     if (loc <=? p) && (p <? loc + len) then g (bvbit b p) else bvbit b p) ->
  bits_of b' n = window (fmap g) loc len (bits_of b n).
Proof.
  intros Hloc Hlen Hn H. pose proof (length_bits_of b n ltac:(lia)) as Hl. unfold window.
  set (mid := g <$> _). assert (length mid = Z.to_nat len) as Hm by (unfold mid; cf_lia).
  apply bits_of_eq; [lia|cf_lia|]. intros k Hk. rewrite lookup_window by (cf_lia || done).
  rewrite H by lia. unfold mid. case_decide as Hd.
  - rewrite list_lookup_fmap, lookup_take_lt, lookup_drop, lookup_bits_of by lia. simpl.
    replace (Z.to_nat loc + (k - Z.to_nat loc))%nat with k by lia. bool_case. done.
  - rewrite lookup_bits_of by lia. bool_case; done.
Qed.

(** A pure mapper whose bits are [g] of the old bits. *)
Lemma map_range_bits f g bv loc len :
  byte_map f -> (forall v k, byte v -> 0 <= k < 8 -> Z.testbit (f v) (7 - k) = g (Z.testbit v (7 - k))) ->
  bv_wf bv -> 0 <= loc -> 0 <= len -> loc + len <= _count bv ->
  exists b', map_range f (_buckets bv) (CFRangeMake loc len) = Some b' /\
    bv_wf (set_buckets bv b') /\
    bits (set_buckets bv b') = window (fmap g) loc len (bits bv).
Proof.
  intros Hf Hg Hwf Hloc Hlen Hn. pose proof (wf_room bv Hwf).
  destruct (map_range_spec f (_buckets bv) loc len) as (b' & E & Hb' & Hl & Hbits);
    [done..|lia|apply Hwf|].
  exists b'. split_and!; [done|by apply set_buckets_wf|]. apply window_fmap_bits; [lia..|].
  intros p Hp. rewrite Hbits by lia. pose proof (div8_range p).
  rewrite Hg; [done| |apply Z.mod_pos_bound; lia]. apply lookup_byte; [apply Hwf|lia].
Qed.

Lemma fill_bits (v : Z) :
  let f := if negb (v =? 0) then __CFBitVectorOneBits else __CFBitVectorZeroBits in
  byte_map f /\
  forall x k, byte x -> 0 <= k < 8 -> Z.testbit (f x) (7 - k) = (fun _ => negb (v =? 0)) (Z.testbit x (7 - k)).
Proof.
  destruct (v =? 0); cbn [negb]; split; [apply zero_bits_byte| |apply one_bits_byte|].
  - intros x k _ Hk. apply Z.testbit_0_l.
  - intros x k _ Hk. apply testbit_255. lia.
Qed.

Lemma fill_range v b r :
  (if negb (v =? 0) then map_range __CFBitVectorOneBits b r else map_range __CFBitVectorZeroBits b r) =
  map_range (if negb (v =? 0) then __CFBitVectorOneBits else __CFBitVectorZeroBits) b r.
Proof. by destruct (negb _). Qed.

Lemma window_zero {A} (g : A -> A) loc l : window (fmap g) loc 0 l = l.
Proof. unfold window. rewrite take_0, Nat.add_0_r. apply take_drop. Qed.

Section Calls.
Context (garbage : nat -> Z) (Hgarbage : forall i, byte (garbage i)).

(** One call: it returns, keeps the vector well formed and does to the bits
    what the specification says. *)
Definition call_refines (bv : __CFBitVector) (c : bv_call) : Prop :=
  exists bv', run_call garbage bv c = Some bv' /\ bv_wf bv' /\
    _cfinfo bv' = _cfinfo bv /\ bits bv' = spec_call (bits bv) c.

Lemma set_bit_refines bv idx v :
  bv_wf bv -> 0 <= idx < _count bv -> call_refines bv (CallSetBitAtIndex idx v).
Proof.
  intros Hwf Hi. pose proof (wf_room bv Hwf). unfold call_refines. simpl. unfold CFBitVectorSetBitAtIndex.
  destruct (set_bit_spec (_buckets bv) idx v) as (b' & -> & Hb & Hl & Hbits); [lia|apply Hwf|].
  eexists. split_and!; [done|by apply set_buckets_wf|done|].
  unfold bits. apply bits_of_eq; [simpl; lia|rewrite length_insert, length_bits_of; simpl; lia|]. intros k Hk. simpl in *.
  rewrite Hbits by lia. destruct (Z.eqb_spec (Z.of_nat k) idx) as [<-|Hne].
  - rewrite Nat2Z.id, list_lookup_insert_eq; [done|rewrite length_bits_of; lia].
  - rewrite list_lookup_insert_ne by lia. apply lookup_bits_of. lia.
Qed.

Lemma flip_bit_refines bv idx :
  bv_wf bv -> 0 <= idx < _count bv -> call_refines bv (CallFlipBitAtIndex idx).
Proof.
  intros Hwf Hi. pose proof (wf_room bv Hwf). unfold call_refines. simpl. unfold CFBitVectorFlipBitAtIndex.
  destruct (flip_bit_spec (_buckets bv) idx) as (b' & -> & Hb & Hl & Hbits); [lia|apply Hwf|].
  eexists. split_and!; [done|by apply set_buckets_wf|done|].
  unfold bits. apply bits_of_eq; [simpl; lia|rewrite length_alter, length_bits_of; simpl; lia|]. intros k Hk. simpl in *.
  rewrite Hbits by lia. destruct (Z.eqb_spec (Z.of_nat k) idx) as [<-|Hne].
  - rewrite Nat2Z.id, list_lookup_alter_eq. by rewrite lookup_bits_of by lia.
  - rewrite list_lookup_alter_ne by lia. apply lookup_bits_of. lia.
Qed.

Lemma set_bits_refines bv loc len v :
  bv_wf bv -> 0 <= loc -> 0 <= len -> loc + len <= _count bv ->
  call_refines bv (CallSetBits (CFRangeMake loc len) v).
Proof.
  intros Hwf Hloc Hlen Hn. unfold call_refines. simpl. unfold CFBitVectorSetBits. cbn [range_length].
  destruct (Z.eqb_spec 0 len) as [<-|_].
  { exists bv. split_and!; try done. by rewrite window_zero. }
  rewrite fill_range. destruct (fill_bits v) as [Hf Hg].
  destruct (map_range_bits _ (fun _ => negb (v =? 0)) bv loc len Hf Hg) as (b' & -> & Hw & E); try done. by eexists.
Qed.

Lemma flip_bits_refines bv loc len :
  bv_wf bv -> 0 <= loc -> 0 <= len -> loc + len <= _count bv ->
  call_refines bv (CallFlipBits (CFRangeMake loc len)).
Proof.
  intros Hwf Hloc Hlen Hn. unfold call_refines. simpl. unfold CFBitVectorFlipBits. cbn [range_length].
  destruct (Z.eqb_spec 0 len) as [<-|_].
  { exists bv. split_and!; try done. by rewrite window_zero. }
  destruct (map_range_bits __CFBitVectorFlipBits negb bv loc len) as (b' & -> & Hw & E); try done.
  - apply flip_bits_byte.
  - intros. apply flip_bits_bit. lia.
  - by eexists.
Qed.

(** Whole buckets filled, then the rest of the store. *)
Lemma filled_bit w n b p :
  0 <= n <= Z.of_nat (length b) -> 0 <= p < 8 * Z.of_nat (length b) ->
  bvbit (replicate (Z.to_nat n) w ++ drop (Z.to_nat n) b) p =
    if p <? 8 * n then Z.testbit w (7 - p mod 8) else bvbit b p.
Proof.
  intros Hn Hp. pose proof (div8_range p). unfold bvbit. f_equal. destruct (Z.ltb_spec p (8 * n)).
  - rewrite lookup_total_app_l by cf_lia. rewrite lookup_total_replicate_2 by lia. done.
  - rewrite lookup_total_app_r, length_replicate, lookup_total_drop by cf_lia. f_equal. f_equal. lia.
Qed.

Lemma fill_byte_bit v k : 0 <= k < 8 ->
  Z.testbit (uwrap 8 (if negb (v =? 0) then Z.lnot 0 else 0)) (7 - k) = negb (v =? 0).
Proof.
  intros. destruct (v =? 0); cbn [negb]; [apply Z.testbit_0_l|].
  change (uwrap 8 (Z.lnot 0)) with 255. apply testbit_255. lia.
Qed.

Lemma set_all_refines bv v : bv_wf bv -> call_refines bv (CallSetAllBits v).
Proof.
  intros Hwf. pose proof (wf_room bv Hwf). pose proof (wf_count _ Hwf).
  unfold call_refines. simpl. unfold CFBitVectorSetAllBits, __CFBitVectorCount, __CF_BITS_PER_BUCKET.
  rewrite quot8 by lia. set (n := _count bv / 8). pose proof (Z.div_mod (_count bv) 8 ltac:(lia)) as Hd.
  pose proof (Z.mod_pos_bound (_count bv) 8 ltac:(lia)). fold n in Hd.
  assert (0 <= n) by (apply Z.div_pos; lia).
  set (m := if 0 <? _ then _ else _).
  assert (exists b, m = Some b /\ Forall byte b /\ length b = length (_buckets bv) /\
            forall p, 8 * n <= p < _count bv -> bvbit b p = negb (v =? 0)) as (b & -> & Hb & Hl & Hbit).
  { unfold m. destruct (Z.ltb_spec 0 (_count bv - n * 8)).
    - rewrite fill_range. destruct (fill_bits v) as [Hf Hg].
      destruct (map_range_spec _ (_buckets bv) (n * 8) (_count bv - n * 8) Hf)
        as (b & -> & Hb & Hl & Hbits); [lia..|apply Hwf|].
      exists b. split_and!; try done. intros p Hp. rewrite Hbits by lia.
      rewrite (proj2 (Z.leb_le _ _)), (proj2 (Z.ltb_lt _ _)) by lia. cbn [andb]. pose proof (div8_range p).
      apply Hg; [apply lookup_byte; [apply Hwf|lia]|apply Z.mod_pos_bound; lia].
    - eexists. split_and!; [done|apply Hwf|done|lia]. }
  cbn [opt_bind]. rewrite memset_ok by lia. cbn [opt_bind]. eexists. split_and!; [done| |done|].
  - apply set_buckets_wf; [done| |cf_lia]. apply Forall_app. split; [|by apply Forall_drop].
    apply Forall_replicate, uwrap8_byte.
  - unfold bits. rewrite length_bits_of by lia. apply bits_of_eq; [simpl; lia|cf_lia|]. intros k Hk.
    simpl in *. rewrite lookup_replicate_2 by lia. rewrite filled_bit, fill_byte_bit by (try apply Z.mod_pos_bound; lia).
    destruct (Z.ltb_spec (Z.of_nat k) (8 * n)); [done|]. by rewrite Hbit by lia.
Qed.

Lemma round_up_spec n : 0 <= n ->
  n <= __CFBitVectorRoundUpCapacity n /\ __CFBitVectorRoundUpCapacity n mod 64 = 0 /\
  0 < __CFBitVectorRoundUpCapacity n <= n + 64.
Proof.
  intros Hn. unfold __CFBitVectorRoundUpCapacity. set (c := if 0 =? n then 1 else n).
  assert (1 <= c /\ n <= c <= n + 1) by (unfold c; destruct (Z.eqb_spec 0 n); lia).
  rewrite Z.quot_div_nonneg by lia. rewrite Z.mod_mul by lia.
  pose proof (Z.div_mod (c + 63) 64). pose proof (Z.mod_pos_bound (c + 63) 64).
  unfold c in *. destruct (Z.eqb_spec 0 n); lia.
Qed.

Lemma length_realloc b n : 0 <= n -> length (realloc_bytes garbage b n) = Z.to_nat n.
Proof. intros. unfold realloc_bytes. rewrite length_app, length_take, length_fmap, length_seq. lia. Qed.

Lemma realloc_bit b n p :
  0 <= n -> 0 <= p < 8 * Z.of_nat (length b) -> p < 8 * n -> bvbit (realloc_bytes garbage b n) p = bvbit b p.
Proof.
  intros Hn Hp Hpn. pose proof (div8_range p). unfold bvbit, realloc_bytes. f_equal.
  rewrite lookup_total_app_l by cf_lia. apply lookup_total_take_lt. lia.
Qed.

(** Growing: the store has room for [new] bits and the old bits are kept. *)
Lemma bv_grow_spec bv new :
  bv_wf bv -> _count bv <= new ->
  let bv' := __CFBitVectorGrow garbage bv (new - _count bv) in
  bv_wf bv' /\ new <= _capacity bv' /\ _cfinfo bv' = _cfinfo bv /\ _count bv' = _count bv /\
  forall p, 0 <= p < _count bv -> bvbit (_buckets bv') p = bvbit (_buckets bv) p.
Proof.
  intros Hwf Hnew. pose proof (wf_count _ Hwf). pose proof (wf_room bv Hwf).
  unfold __CFBitVectorGrow, __CFBitVectorNumBuckets, __CFBitVectorCount. cbn -[realloc_bytes Z.quot].
  replace (_count bv + (new - _count bv)) with new by lia.
  destruct (round_up_spec new ltac:(lia)) as (Hge & Hmod & Hpos).
  set (cap := __CFBitVectorRoundUpCapacity new) in *. unfold __CF_BITS_PER_BUCKET. rewrite quot8 by lia.
  pose proof (Z.div_mod cap 8 ltac:(lia)). pose proof (Z.mod_pos_bound cap 8 ltac:(lia)).
  split_and!; try done.
  - split; simpl; [lia|rewrite length_realloc; lia|]. unfold realloc_bytes. apply Forall_app. split.
    + apply Forall_take, Hwf.
    + apply Forall_fmap, list.Forall_forall. intros; apply Hgarbage.
  - intros p Hp. apply realloc_bit; lia.
Qed.

Lemma set_count_refines bv n :
  bv_wf bv -> __CFBitVectorMutableVariety bv = kCFBitVectorMutable -> 0 <= n ->
  call_refines bv (CallSetCount n).
Proof.
  intros Hwf Hmut Hn. unfold call_refines. simpl. unfold CFBitVectorSetCount. rewrite Hmut. simpl.
  pose proof (wf_count _ Hwf). unfold __CFBitVectorCount, __CFBitVectorSetNumBucketsUsed.
  destruct (Z.ltb_spec (_count bv) n) as [Hlt|Hge].
  - destruct (bv_grow_spec bv n Hwf ltac:(lia)) as (Hwf' & Hcap & Hi & Hc & Hkeep).
    set (bv' := __CFBitVectorGrow garbage bv (n - _count bv)) in *. destruct Hwf' as [Hw1 Hw2 Hw3].
    pose proof (Z.div_mod (_capacity bv') 8). pose proof (Z.mod_pos_bound (_capacity bv') 8).
    destruct (map_range_spec __CFBitVectorZeroBits (_buckets bv') (_count bv) (n - _count bv))
      as (b' & -> & Hb & Hl & Hbits); [apply zero_bits_byte|lia|lia|lia|done|].
    simpl. eexists. split_and!; [done| |done|].
    + split; cbn [_count _capacity _buckets __CFBitVectorSetCount set_buckets __CFBitVectorSetNumBucketsUsed];
        [lia|by rewrite Hl|done].
    + unfold bits. simpl. rewrite length_bits_of by lia. rewrite take_ge by (rewrite length_bits_of; lia).
      apply bits_of_eq; [lia|rewrite length_app, length_bits_of, length_replicate; lia|].
      intros k Hk. rewrite Hbits by lia. destruct (Z.leb_spec (_count bv) (Z.of_nat k)); simpl.
      * rewrite lookup_app_r, length_bits_of by (rewrite ?length_bits_of; lia).
        rewrite lookup_replicate_2 by lia. bool_case. symmetry. f_equal. apply Z.testbit_0_l.
      * rewrite lookup_app_l, lookup_bits_of by (rewrite ?length_bits_of; lia). by rewrite Hkeep by lia.
  - simpl. eexists. split_and!; [done| |done|].
    + split; simpl; [lia|apply Hwf|apply Hwf].
    + unfold bits. simpl. rewrite length_bits_of by lia.
      replace (Z.to_nat n - Z.to_nat (_count bv))%nat with 0%nat by lia. rewrite app_nil_r.
      apply bits_of_eq; [lia|rewrite length_take, length_bits_of; lia|]. intros k Hk.
      rewrite lookup_take_lt, lookup_bits_of by lia. done.
Qed.

Lemma call_refines_ok bv c :
  bv_wf bv -> __CFBitVectorMutableVariety bv = kCFBitVectorMutable -> call_ok (_count bv) c = true ->
  call_refines bv c.
Proof.
  intros Hwf Hmut Hok. destruct c as [idx v|idx|[loc len] v|[loc len]|v|n]; simpl in Hok;
    rewrite ?andb_true_iff, ?Z.leb_le, ?Z.ltb_lt in Hok.
  - by apply set_bit_refines.
  - by apply flip_bit_refines.
  - apply set_bits_refines; tauto.
  - apply flip_bits_refines; tauto.
  - by apply set_all_refines.
  - by apply set_count_refines.
Qed.

Fixpoint run_calls (bv : __CFBitVector) (cs : list bv_call) : option __CFBitVector :=
  match cs with
  | [] => Some bv
  | c :: cs => let* bv := run_call garbage bv c in run_calls bv cs
  end.

End Calls.

(** ** Creating *)

Lemma ceil8_spec n : 0 <= n ->
  let m := Z.quot n 8 + (if negb (Z.land n 7 =? 0) then 1 else 0) in n <= 8 * m < n + 8.
Proof.
  intros Hn. rewrite quot8, land7 by done. pose proof (Z.div_mod n 8 ltac:(lia)).
  pose proof (Z.mod_pos_bound n 8 ltac:(lia)). destruct (Z.eqb_spec (n mod 8) 0); simpl; lia.
Qed.

Definition variety_ok (flags : Z) : Prop := flags = kCFBitVectorImmutable \/ flags = kCFBitVectorMutable.

Lemma init_variety flags bv :
  variety_ok flags -> _cfinfo bv = 128 ->
  __CFBitVectorMutableVariety (__CFBitVectorSetMutableVariety bv (__CFBitVectorMutableVarietyFromFlags flags)) = flags.
Proof. unfold __CFBitVectorMutableVariety, __CFBitVectorSetMutableVariety. simpl. intros [-> | ->] ->; reflexivity. Qed.

Lemma bv_init_spec flags capacity src n :
  variety_ok flags -> 0 <= n -> Forall byte src -> n <= 8 * Z.of_nat (length src) ->
  exists bv, __CFBitVectorInit true true flags capacity (Some src) n = Some (Some bv) /\
    bv_wf bv /\ _count bv = n /\ __CFBitVectorMutableVariety bv = flags /\ bits bv = bits_of src n.
Proof.
  intros Hfl Hn Hsrc Hlen. unfold __CFBitVectorInit. cbn [negb].
  unfold __CF_BITS_PER_BYTE, __CF_BITS_PER_BYTE_MASK, __CFBitVectorNumBuckets, __CF_BITS_PER_BUCKET.
  destruct (round_up_spec n Hn) as (Hge & Hmod & Hpos). cbn -[Z.quot Z.land __CFBitVectorRoundUpCapacity memmove].
  set (cap := __CFBitVectorRoundUpCapacity n) in *. rewrite quot8 by lia.
  pose proof (Z.div_mod cap 8 ltac:(lia)). pose proof (Z.mod_pos_bound cap 8 ltac:(lia)).
  pose proof (ceil8_spec n Hn) as Hm. cbn zeta in Hm. set (m := Z.quot n 8 + _) in *.
  rewrite memmove_ok by (rewrite ?length_replicate; lia). cbn [opt_bind]. eexists.
  split_and!; [done| |done|by apply init_variety|].
  - split; cbn -[Z.div]; [lia| |].
    + rewrite !length_app, !length_take, !length_drop, !length_replicate. lia.
    + apply Forall_app; split; [done|]. apply Forall_app; split; [apply Forall_take; by apply Forall_drop|].
      apply Forall_drop, Forall_replicate. done.
  - unfold bits. cbn -[Z.div]. symmetry. apply bits_of_eq; [lia|apply length_bits_of; lia|].
    intros k Hk. rewrite lookup_bits_of by lia. f_equal. pose proof (div8_range (Z.of_nat k)).
    unfold bvbit. f_equal. change (Z.to_nat 0) with 0%nat. rewrite take_0, drop_0. cbn [app].
    rewrite lookup_total_app_l, lookup_total_take_lt by cf_lia. done.
Qed.

(** ** Queries *)

Lemma bits_window bv loc len :
  0 <= loc -> 0 <= len -> loc + len <= _count bv ->
  take (Z.to_nat len) (drop (Z.to_nat loc) (bits bv)) = bvbit (_buckets bv) <$> seqZ loc len.
Proof.
  intros. unfold bits, bits_of. rewrite <- fmap_drop, <- fmap_take. f_equal.
  replace (_count bv) with (loc + (len + (_count bv - loc - len))) by lia.
  rewrite !seqZ_app by lia. rewrite drop_app_length' by (rewrite length_seqZ; lia).
  rewrite take_app_length' by (rewrite length_seqZ; lia). done.
Qed.

Lemma filter_fmap_length {A B} (f : A -> B) (x : B) `{EqDecision B} (l : list A) :
  length (filter (fun y => y = x) (f <$> l)) = length (filter (fun a => f a = x) l).
Proof.
  induction l as [|a l IH]; [done|]. rewrite fmap_cons, !filter_cons.
  destruct (decide (f a = x)); simpl; congruence.
Qed.

Lemma first_index_spec bv loc v n : forall idx,
  0 <= loc + idx -> loc + idx + Z.of_nat n <= 8 * Z.of_nat (length (_buckets bv)) ->
  exists r, first_index_loop bv loc v idx n = Some r /\
    ((r = kCFNotFound /\ forall p, loc + idx <= p < loc + idx + Z.of_nat n -> Z.b2z (bvbit (_buckets bv) p) <> v) \/
     (loc + idx <= r < loc + idx + Z.of_nat n /\ Z.b2z (bvbit (_buckets bv) r) = v /\
      forall p, loc + idx <= p < r -> Z.b2z (bvbit (_buckets bv) p) <> v)).
Proof.
  induction n as [|n IH]; intros idx Hlo Hhi.
  - eexists. split; [done|]. left. split; [done|lia].
  - cbn [first_index_loop]. unfold CFBitVectorGetBitAtIndex. rewrite bit_spec by lia. cbn [opt_bind].
    destruct (Z.eqb_spec v (Z.b2z (bvbit (_buckets bv) (loc + idx)))) as [E|E].
    + eexists. split; [done|]. right. split_and!; [lia|lia|done|lia].
    + destruct (IH (idx + 1)) as (r & -> & Hr); [lia..|]. exists r. split; [done|].
      destruct Hr as [[-> Hno]|(Hr & Hv & Hno)]; [left|right]; split_and!; try done; try lia; intros p Hp;
        (destruct (Z.eq_dec p (loc + idx)) as [->|]; [congruence|apply Hno; lia]).
Qed.

Lemma last_index_spec bv loc v n :
  0 <= loc -> loc + Z.of_nat n <= 8 * Z.of_nat (length (_buckets bv)) ->
  exists r, last_index_loop bv loc v n = Some r /\
    ((r = kCFNotFound /\ forall p, loc <= p < loc + Z.of_nat n -> Z.b2z (bvbit (_buckets bv) p) <> v) \/
     (loc <= r < loc + Z.of_nat n /\ Z.b2z (bvbit (_buckets bv) r) = v /\
      forall p, r < p < loc + Z.of_nat n -> Z.b2z (bvbit (_buckets bv) p) <> v)).
Proof.
  intros Hlo. induction n as [|n IH]; intros Hhi.
  - eexists. split; [done|]. left. split; [done|lia].
  - cbn [last_index_loop]. unfold CFBitVectorGetBitAtIndex. rewrite bit_spec by lia. cbn [opt_bind].
    destruct (Z.eqb_spec v (Z.b2z (bvbit (_buckets bv) (loc + Z.of_nat n)))) as [E|E].
    + eexists. split; [done|]. right. split_and!; [lia|lia|done|lia].
    + destruct IH as (r & -> & Hr); [lia..|]. exists r. split; [done|].
      destruct Hr as [[-> Hno]|(Hr & Hv & Hno)]; [left|right]; split_and!; try done; try lia; intros p Hp;
        (destruct (Z.eq_dec p (loc + Z.of_nat n)) as [->|]; [congruence|apply Hno; lia]).
Qed.

(** ** Equality *)

Lemma equal_loop_spec b1 b2 n : forall idx,
  0 <= idx -> idx + Z.of_nat n <= Z.of_nat (length b1) -> idx + Z.of_nat n <= Z.of_nat (length b2) ->
  equal_loop b1 b2 idx n =
  Some (bool_decide (take n (drop (Z.to_nat idx) b1) = take n (drop (Z.to_nat idx) b2))).
Proof.
  induction n as [|n IH]; intros idx Hi H1 H2; [done|]. cbn [equal_loop].
  destruct (rd_Some b1 idx) as [x Ex]; [lia|]. destruct (rd_Some b2 idx) as [y Ey]; [lia|].
  rewrite Ex, Ey. cbn [opt_bind]. apply rd_inv in Ex as [_ Ex]. apply rd_inv in Ey as [_ Ey].
  rewrite (drop_S b1 x), (drop_S b2 y) by done. cbn [take].
  destruct (Z.eqb_spec x y) as [->|Hne]; cbn [negb].
  - rewrite IH by lia. replace (Z.to_nat (idx + 1)) with (S (Z.to_nat idx)) by lia.
    f_equal. apply bool_decide_ext. split; congruence.
  - by rewrite bool_decide_eq_false_2 by congruence.
Qed.

(** The bits of the compared buckets that lie beyond the count. *)
Definition padding (bv : __CFBitVector) : list bool :=
  bvbit (_buckets bv) <$> seqZ (_count bv) (8 * (_count bv / 8 + 1) - _count bv).

Lemma buckets_ext (b1 b2 : list Z) n :
  Forall byte b1 -> Forall byte b2 -> (n <= length b1)%nat -> (n <= length b2)%nat ->
  take n b1 = take n b2 <-> bvbit b1 <$> seqZ 0 (8 * Z.of_nat n) = bvbit b2 <$> seqZ 0 (8 * Z.of_nat n).
Proof.
  intros Hb1 Hb2 Hn1 Hn2. split.
  - intros E. apply list_fmap_ext. intros i p Hp. apply lookup_seqZ in Hp as [-> Hp].
    unfold bvbit. f_equal. set (q := (0 + Z.of_nat i)) in *. pose proof (div8_range q).
    rewrite <- (lookup_total_take_lt b1 n), <- (lookup_total_take_lt b2 n) by lia. by rewrite E.
  - intros E. apply list_eq_same_length with n; [cf_lia..|]. intros i x y Hi.
    rewrite !lookup_take_lt by done. intros Hx Hy.
    apply byte_ext; [by eapply Forall_lookup_1 in Hx|by eapply Forall_lookup_1 in Hy|]. intros k Hk.
    assert (forall b, (bvbit b <$> seqZ 0 (8 * Z.of_nat n)) !! Z.to_nat (8 * Z.of_nat i + k) =
              Some (bvbit b (8 * Z.of_nat i + k))) as Hl.
    { intros b. rewrite list_lookup_fmap, lookup_seqZ_lt by lia. simpl. do 2 f_equal. lia. }
    pose proof (Hl b1) as E1. rewrite E, Hl in E1. injection E1 as E1. unfold bvbit in E1.
    rewrite div8_add, mod8_add, Nat2Z.id in E1 by done. symmetry.
    by rewrite (list_lookup_total_correct _ _ _ Hx), (list_lookup_total_correct _ _ _ Hy) in E1.
Qed.

(** ** Copying whole buckets out *)

Lemma land_byte x m : byte x -> byte (Z.land x m).
Proof.
  intros Hx. unfold byte. rewrite <- (uwrap8_id x Hx). unfold uwrap. rewrite <- Z.land_ones by lia.
  rewrite <- Z.land_assoc, (Z.land_comm _ m), Z.land_assoc, Z.land_ones by lia.
  apply (Z.mod_pos_bound _ (2 ^ 8)). lia.
Qed.

Lemma merge_self x m : byte x -> uwrap 8 (Z.lor (Z.land x (Z.lnot m)) (Z.land x m)) = x.
Proof.
  intros Hx. apply byte_ext; [apply uwrap8_byte|done|]. intros k Hk. rewrite merge_bit by lia.
  by destruct (Z.testbit m (7 - k)).
Qed.

(** With no initial bits a bucket is one byte of the buffer. *)
Lemma get_bits_step v m cur T buf :
  byte v -> 0 < T -> 0 <= cur < Z.of_nat (length buf) ->
  __CFBitVectorGetBits v m (mkGetBits cur 0 T true buf) =
  Some (v, mkGetBits (if 8 <=? T then cur + 1 else cur) 0 (if 8 <=? T then T else 0) true
             (<[Z.to_nat cur := Z.land v m]> buf)).
Proof.
  intros Hv HT Hc. pose proof (land_byte v m Hv) as Hw. unfold __CFBitVectorGetBits.
  cbn -[Z.leb Z.min Z.shiftr uwrap wr whole_bytes]. unfold __CF_BITS_PER_BUCKET, __CF_BITS_PER_BYTE.
  change (8 - 8) with 0. change (8 - 0) with 8.
  destruct (Z.leb_spec 8 T) as [H8|H8].
  - rewrite Z.min_l by lia. cbn -[uwrap wr Z.shiftr]. rewrite Z.shiftr_0_r, uwrap8_id by done.
    rewrite wr_ok by done. cbn. by rewrite Z.sub_0_r.
  - rewrite Z.min_r by lia. unfold whole_bytes, __CF_BITS_PER_BYTE. bool_case.
    cbn -[uwrap wr Z.shiftr]. change (Z.ltb 0 T) with (0 <? T). bool_case.
    rewrite Z.shiftr_0_r, uwrap8_id, wr_ok by done. cbn. by rewrite Z.sub_diag.
Qed.

Lemma get_bits_masked b i m cur T buf :
  Forall byte b -> 0 <= i < Z.of_nat (length b) -> 0 < T -> 0 <= cur < Z.of_nat (length buf) ->
  map_masked __CFBitVectorGetBits b i m (mkGetBits cur 0 T true buf) =
  Some (b, mkGetBits (if 8 <=? T then cur + 1 else cur) 0 (if 8 <=? T then T else 0) true
             (<[Z.to_nat cur := Z.land (b !!! Z.to_nat i) m]> buf)).
Proof.
  intros Hb Hi HT Hc. assert (byte (b !!! Z.to_nat i)) by (apply lookup_byte; [done|lia]).
  assert (rd b i = Some (b !!! Z.to_nat i)) as E.
  { unfold rd. destruct (Z.leb_spec 0 i); [|lia]. apply list_lookup_lookup_total_lt. lia. }
  unfold map_masked. rewrite E. cbn [opt_bind]. rewrite get_bits_step by done. cbn [opt_bind].
  rewrite merge_self, wr_ok by done. cbn [opt_bind].
  rewrite list_insert_id; [done|]. apply list_lookup_lookup_total_lt. lia.
Qed.

(** Bits of the buffer after the byte of one segment is stored. *)
Lemma stored_bit b m lo mid cur (buf : list Z) p :
  0 <= lo -> lo mod 8 = 0 -> 0 <= cur < Z.of_nat (length buf) -> 0 <= p ->
  (forall k, 0 <= k < 8 -> Z.testbit m (7 - k) = (lo <=? 8 * (lo / 8) + k) && (8 * (lo / 8) + k <? mid)) ->
  bvbit (<[Z.to_nat cur := Z.land (b !!! Z.to_nat (lo / 8)) m]> buf) p =
    if p / 8 =? cur then (lo + (p - 8 * cur) <? mid) && bvbit b (lo + (p - 8 * cur)) else bvbit buf p.
Proof.
  intros Hlo Hal Hc Hp Hm. pose proof (div8_range p). pose proof (Z.div_mod lo 8 ltac:(lia)).
  pose proof (Z.mod_pos_bound p 8 ltac:(lia)). pose proof (Z.div_mod p 8 ltac:(lia)).
  assert (0 <= p / 8) by (apply Z.div_pos; lia). unfold bvbit at 1.
  destruct (Z.eqb_spec (p / 8) cur) as [E|E].
  - rewrite E, list_lookup_total_insert_eq by lia. rewrite Z.land_spec, Hm by lia.
    unfold bvbit. replace (lo + (p - 8 * cur)) with (8 * (lo / 8) + p mod 8) by lia.
    rewrite div8_add, mod8_add by lia. bool_case; simpl; by rewrite ?andb_true_r, ?andb_false_r.
  - rewrite list_lookup_total_insert_ne by lia. done.
Qed.

Lemma run_segs_get b segs : forall lo hi cur T buf,
  seg_chain lo hi segs -> 0 <= lo -> lo mod 8 = 0 -> hi <= 8 * Z.of_nat (length b) -> Forall byte b ->
  0 <= cur -> 8 * cur + (hi - lo) <= 8 * Z.of_nat (length buf) -> (8 <= T \/ (0 < T /\ hi <= lo + 8)) ->
  exists ctx, run_segs __CFBitVectorGetBits segs b (mkGetBits cur 0 T true buf) = Some (b, ctx) /\
    length (bytes ctx) = length buf /\
    forall p, 0 <= p -> bvbit (bytes ctx) p =
      if (cur <=? p / 8) && (p / 8 <? cur + (hi - lo + 7) / 8)
      then (lo + (p - 8 * cur) <? hi) && bvbit b (lo + (p - 8 * cur)) else bvbit buf p.
Proof.
  induction segs as [|[i m] segs IH]; intros lo hi cur T buf Hc Hlo Hal Hhi Hb Hcur Hbuf HT;
    inversion Hc as [|? mid ? ? ? Hm1 Hm2 Hm3 Hm4 Hm5 Hm6]; subst.
  - eexists. split_and!; [done..|]. intros p Hp. rewrite Z.sub_diag. change ((0 + 7) / 8) with 0. bool_case; done.
  - pose proof (Z.div_mod lo 8 ltac:(lia)) as Hd. pose proof (div8_range (hi - lo + 7)).
    cbn [run_segs]. rewrite get_bits_masked by (done || lia). cbn [opt_bind].
    set (buf1 := <[_ := _]> buf). assert (length buf1 = length buf) as Hl1 by apply length_insert.
    assert (forall p, 0 <= p -> bvbit buf1 p =
      if p / 8 =? cur then (lo + (p - 8 * cur) <? mid) && bvbit b (lo + (p - 8 * cur)) else bvbit buf p) as Hb1
      by (intros; apply stored_bit; done || lia).
    destruct (Z.eq_dec mid hi) as [->|Hne].
    + inversion Hm6 as [|? mid' ? ? ? Hx1 Hx2]; subst; [|lia]. eexists. split_and!; [done..|]. intros p Hp.
      cbn [bytes]. rewrite Hb1 by done. bool_case; done.
    + assert (mid = lo + 8) as -> by lia.
      assert ((8 <=? T) = true) as -> by (apply Z.leb_le; lia).
      pose proof (div8_range (hi - (lo + 8) + 7)).
      destruct (IH (lo + 8) hi (cur + 1) T buf1) as (ctx & -> & Hl & Hbits); try done; try lia.
      { rewrite <- (Z.mul_1_l 8), Z.mod_add by lia. done. }
      exists ctx. split_and!; [done|lia|]. intros p Hp. rewrite Hbits, Hb1 by done.
      replace (lo + 8 + (p - 8 * (cur + 1))) with (lo + (p - 8 * cur)) by lia.
      pose proof (div8_range p). bool_case; done.
Qed.

Lemma get_bits_byte v m c n c' : byte v -> __CFBitVectorGetBits v m c = Some (n, c') -> byte n.
Proof.
  unfold __CFBitVectorGetBits. intros Hv H. apply opt_bind_Some in H as ([val ctx] & _ & H).
  apply opt_bind_Some in H as ([[val' nb] ctx'] & _ & H). destruct (0 <? nb).
  - apply opt_bind_Some in H as (out & _ & [= <- _]). done.
  - by injection H as <- _.
Qed.

(** ** Properties *)

(** The calls are within bounds when each one is on the bits the earlier
    calls leave. *)
Fixpoint calls_ok (l : list bool) (cs : list bv_call) : bool :=
  match cs with
  | [] => true
  | c :: cs => call_ok (Z.of_nat (length l)) c && calls_ok (spec_call l c) cs
  end.

Lemma length_bits bv : bv_wf bv -> Z.of_nat (length (bits bv)) = _count bv.
Proof. intros Hwf. pose proof (wf_count _ Hwf). unfold bits. rewrite length_bits_of; lia. Qed.

Lemma run_calls_refine garbage cs : (forall i, byte (garbage i)) -> forall bv,
  bv_wf bv -> __CFBitVectorMutableVariety bv = kCFBitVectorMutable -> calls_ok (bits bv) cs = true ->
  exists bv', run_calls garbage bv cs = Some bv' /\ bv_wf bv' /\
    __CFBitVectorMutableVariety bv' = kCFBitVectorMutable /\ bits bv' = foldl spec_call (bits bv) cs.
Proof.
  intros Hg. induction cs as [|c cs IH]; intros bv Hwf Hm Hok; [by exists bv|].
  cbn [calls_ok] in Hok. apply andb_true_iff in Hok as [Hok Hoks]. rewrite length_bits in Hok by done.
  destruct (call_refines_ok garbage Hg bv c) as (bv1 & E & Hwf1 & Hi & Hb); try done.
  cbn [run_calls]. rewrite E. cbn [opt_bind foldl]. rewrite <- Hb in *. apply IH; try done.
  unfold __CFBitVectorMutableVariety in *. by rewrite Hi.
Qed.

(** C26: every sequence of in-range mutating calls (set or flip a bit or a
    range, set all bits, change the count) on a well-formed mutable vector
    returns, makes only accesses inside the store, keeps the vector well
    formed, and has on the bits exactly the effect of the list
    specification, whatever bytes the reallocations of [SetCount] bring in. *)
Theorem CFBitVector_refines_bit_list (garbage : nat -> Z) (bv : __CFBitVector) (cs : list bv_call) :
  (forall i, byte (garbage i)) -> bv_wf bv ->
  __CFBitVectorMutableVariety bv = kCFBitVectorMutable -> calls_ok (bits bv) cs = true ->
  exists bv', run_calls garbage bv cs = Some bv' /\ bv_wf bv' /\
    bits bv' = foldl spec_call (bits bv) cs.
Proof.
  intros Hg Hwf Hm Hok. destruct (run_calls_refine garbage cs Hg bv) as (bv' & ? & ? & _ & ?); eauto.
Qed.

Definition empty_mutable : __CFBitVector := mkBV 132 0 64 (replicate 9 0).

Lemma empty_mutable_wf : bv_wf empty_mutable.
Proof. split; [simpl; lia|reflexivity|]. repeat constructor; done. Qed.

Lemma CFBitVector_refines_bit_list_witness :
  exists bv', run_calls (fun _ => 170) empty_mutable
      [CallSetCount 70; CallSetBits (CFRangeMake 3 10) 1; CallFlipBits (CFRangeMake 0 5); CallSetCount 6] = Some bv' /\
    bv_wf bv' /\ bits bv' = [true; true; true; false; false; true].
Proof.
  apply (CFBitVector_refines_bit_list (fun _ => 170) empty_mutable); [done|apply empty_mutable_wf| |]; vm_compute; reflexivity.
Defined.

(** The queries on a range inside the count: [GetBitAtIndex] reads the
    bit, [GetCountOfBit] counts the bits of the range equal to the value,
    [ContainsBit] says whether there is one, and the first and last index
    searches return the lowest and the highest such position, or
    [kCFNotFound] when there is none. *)
Lemma CFBitVector_queries (bv : __CFBitVector) (loc len : Z) (v : bool) :
  bv_wf bv -> 0 <= loc -> 0 <= len -> loc + len <= _count bv ->
  let range := CFRangeMake loc len in
  let n := Z.of_nat (length (filter (fun b => b = v) (take (Z.to_nat len) (drop (Z.to_nat loc) (bits bv))))) in
  (forall i, loc <= i < loc + len -> exists b, bits bv !! Z.to_nat i = Some b /\
     CFBitVectorGetBitAtIndex bv i = Some (Z.b2z b)) /\
  CFBitVectorGetCountOfBit bv range (Z.b2z v) = Some n /\
  CFBitVectorContainsBit bv range (Z.b2z v) = Some (bool_decide (0 < n)) /\
  (exists r, CFBitVectorGetFirstIndexOfBit bv range (Z.b2z v) = Some r /\
     ((r = kCFNotFound /\ n = 0) \/
      (loc <= r < loc + len /\ bits bv !! Z.to_nat r = Some v /\
       forall p, loc <= p < r -> bits bv !! Z.to_nat p = Some (negb v)))) /\
  (exists r, CFBitVectorGetLastIndexOfBit bv range (Z.b2z v) = Some r /\
     ((r = kCFNotFound /\ n = 0) \/
      (loc <= r < loc + len /\ bits bv !! Z.to_nat r = Some v /\
       forall p, r < p < loc + len -> bits bv !! Z.to_nat p = Some (negb v)))).
Proof.
  intros Hwf Hloc Hlen Hn range n. pose proof (wf_room bv Hwf).
  assert (forall p, 0 <= p < _count bv -> bits bv !! Z.to_nat p = Some (bvbit (_buckets bv) p)) as Hlk.
  { intros p Hp. unfold bits. rewrite lookup_bits_of, Z2Nat.id by lia. done. }
  assert (Hneg : forall p, 0 <= p < _count bv -> Z.b2z (bvbit (_buckets bv) p) <> Z.b2z v ->
            bits bv !! Z.to_nat p = Some (negb v)).
  { intros p Hp Hne. rewrite Hlk by done. f_equal. by destruct (bvbit _ p), v. }
  assert (n = Z.of_nat (length (positions (_buckets bv) v loc (loc + len)))) as En.
  { unfold n, positions. rewrite bits_window, filter_fmap_length by done.
    replace (loc + len - loc) with len by lia. done. }
  assert (Hnone : (forall p, loc <= p < loc + len -> Z.b2z (bvbit (_buckets bv) p) <> Z.b2z v) -> n = 0).
  { intros Hno. rewrite En. unfold positions. rewrite filter_none; [done|].
    apply list.Forall_forall. intros p Hp. apply elem_of_seqZ in Hp. intros E.
    apply (Hno p); [lia|by rewrite E]. }
  assert (CFBitVectorGetCountOfBit bv range (Z.b2z v) = Some n) as Ecount.
  { unfold range. rewrite get_count_spec by (try apply Hwf; lia). rewrite En. by destruct v. }
  split_and!.
  - intros i Hi. eexists. split; [apply Hlk; lia|]. apply bit_spec. lia.
  - done.
  - unfold CFBitVectorContainsBit. rewrite Ecount. cbn [opt_bind]. f_equal.
    destruct (Z.eqb_spec n 0) as [->|]; [done|]. rewrite bool_decide_eq_true_2; [done|unfold n in *; lia].
  - destruct (first_index_spec bv loc (Z.b2z v) (Z.to_nat len) 0) as (r & E & Hr); [lia..|].
    rewrite Z.add_0_r, Z2Nat.id in Hr by done. exists r. split; [done|].
    destruct Hr as [[-> Hno]|(Hr & Hv & Hno)]; [left; auto|right]. split_and!; [lia..| |].
    + rewrite Hlk by lia. f_equal. by destruct (bvbit _ r), v.
    + intros p Hp. apply Hneg; [lia|apply Hno; lia].
  - destruct (last_index_spec bv loc (Z.b2z v) (Z.to_nat len)) as (r & E & Hr); [lia..|].
    rewrite Z2Nat.id in Hr by done. exists r. split; [done|].
    destruct Hr as [[-> Hno]|(Hr & Hv & Hno)]; [left; auto|right]. split_and!; [lia..| |].
    + rewrite Hlk by lia. f_equal. by destruct (bvbit _ r), v.
    + intros p Hp. apply Hneg; [lia|apply Hno; lia].
Qed.

Definition sample_bv : __CFBitVector := mkBV 132 20 64 [15; 240; 16; 0; 0; 0; 0; 0; 0].

Lemma sample_bv_wf : bv_wf sample_bv.
Proof. split; [simpl; lia|reflexivity|]. repeat constructor; done. Qed.

Lemma CFBitVector_queries_witness :
  CFBitVectorGetCountOfBit sample_bv (CFRangeMake 2 12) 1 = Some 8 /\
  CFBitVectorGetFirstIndexOfBit sample_bv (CFRangeMake 2 12) 1 = Some 4.
Proof.
  destruct (CFBitVector_queries sample_bv 2 12 true sample_bv_wf) as (_ & H1 & _ & (r & H2 & _) & _);
    [lia..|simpl; lia|]. split; vm_compute; reflexivity.
Defined.

(** A vector created from bytes holds exactly their first [numBits] bits,
    most significant bit first, is well formed and immutable; a copy of a
    well-formed vector (immutable or mutable) holds the same bits. *)
Lemma CFBitVectorCreate_roundtrip (src : list Z) (numBits capacity : Z) :
  0 <= numBits <= 8 * Z.of_nat (length src) -> Forall byte src ->
  exists bv, CFBitVectorCreate true true (Some src) numBits = Some (Some bv) /\ bv_wf bv /\
    __CFBitVectorMutableVariety bv = kCFBitVectorImmutable /\
    bits bv = bits_of src numBits /\
    (exists bv', CFBitVectorCreateCopy true true bv = Some (Some bv') /\ bv_wf bv' /\
       __CFBitVectorMutableVariety bv' = kCFBitVectorImmutable /\ bits bv' = bits bv) /\
    (exists bv', CFBitVectorCreateMutableCopy true true capacity bv = Some (Some bv') /\ bv_wf bv' /\
       __CFBitVectorMutableVariety bv' = kCFBitVectorMutable /\ bits bv' = bits bv).
Proof.
  intros Hn Hb. destruct (bv_init_spec kCFBitVectorImmutable numBits src numBits) as (bv & E & Hwf & Hc & Hm & Hbits);
    [by left|lia|done|lia|].
  exists bv. pose proof (wf_room bv Hwf). unfold CFBitVectorCreateCopy, CFBitVectorCreateMutableCopy, __CFBitVectorCount.
  split_and!; try done.
  - destruct (bv_init_spec kCFBitVectorImmutable (_count bv) (_buckets bv) (_count bv)) as (bv' & ? & ? & _ & ? & ?);
      [by left|lia|apply Hwf|lia|]. exists bv'. auto.
  - destruct (bv_init_spec kCFBitVectorMutable capacity (_buckets bv) (_count bv)) as (bv' & ? & ? & _ & ? & ?);
      [by right|lia|apply Hwf|lia|]. exists bv'. auto.
Qed.

Lemma CFBitVectorCreate_roundtrip_witness :
  exists bv, CFBitVectorCreate true true (Some [165; 255]) 11 = Some (Some bv) /\
    bits bv = [true; false; true; false; false; true; false; true; true; true; true].
Proof.
  destruct (CFBitVectorCreate_roundtrip [165; 255] 11 0) as (bv & E & _ & _ & Hb & _);
    [simpl; lia|repeat constructor; done|]. exists bv. split; [exact E|]. rewrite Hb. vm_compute. reflexivity.
Defined.

(** [CFBitVectorGetBits] on a range that starts at a byte boundary copies
    the bits of the range to the front of the buffer, clears the rest of the
    last byte it touches and leaves the bytes after it alone. *)
Lemma CFBitVectorGetBits_aligned (bv : __CFBitVector) (loc len : Z) (buffer : list Z) :
  bv_wf bv -> 0 <= loc -> loc mod 8 = 0 -> 0 <= len -> loc + len <= _count bv ->
  len <= 8 * Z.of_nat (length buffer) ->
  exists out, CFBitVectorGetBits bv (CFRangeMake loc len) buffer = Some out /\
    length out = length buffer /\
    forall p, 0 <= p -> bvbit out p =
      if p / 8 <? (len + 7) / 8 then (p <? len) && bvbit (_buckets bv) (loc + p) else bvbit buffer p.
Proof.
  intros Hwf Hloc Hal Hlen Hn Hbuf. pose proof (wf_room bv Hwf). unfold CFBitVectorGetBits. cbn [range_length location _buckets].
  destruct (Z.eqb_spec 0 len) as [<-|Hnz].
  { exists buffer. split_and!; try done. intros p Hp. change ((0 + 7) / 8) with 0.
    assert (0 <= p / 8) by (apply Z.div_pos; lia). bool_case. done. }
  unfold __CF_BITS_PER_BUCKET. change (8 - 1) with 7. rewrite land7, Hal.
  destruct (internal_map_segs __CFBitVectorGetBits get_bits_byte (_buckets bv) loc len
    (mkGetBits 0 0 len true buffer)) as (segs & Hc & ->); try lia; [apply Hwf|].
  destruct (run_segs_get (_buckets bv) segs loc (loc + len) 0 len buffer)
    as (ctx & -> & Hl & Hbits); try done; try lia; [apply Hwf|].
  cbn [opt_bind]. exists (bytes ctx). split_and!; try done. intros p Hp. rewrite Hbits by done.
  replace (loc + len - loc + 7) with (len + 7) by lia. replace (p - 8 * 0) with p by lia.
  assert (0 <= p / 8) by (apply Z.div_pos; lia). bool_case; done.
Qed.

Lemma CFBitVectorGetBits_aligned_witness :
  CFBitVectorGetBits sample_bv (CFRangeMake 8 12) [7; 7; 7] = Some [240; 16; 7].
Proof.
  destruct (CFBitVectorGetBits_aligned sample_bv 8 12 [7; 7; 7] sample_bv_wf) as (out & E & _);
    [lia|reflexivity|lia|simpl; lia|simpl; lia|].
  vm_compute in E. injection E as <-. vm_compute. reflexivity.
Defined.

Lemma internal_map_4_8 {C} (mapper : Z -> Z -> C -> option (Z * C)) b c :
  __CFBitVectorInternalMap mapper b (CFRangeMake 4 8) c =
  let* (b, c) := map_masked mapper b 0 15 c in map_masked mapper b 1 240 c.
Proof.
  unfold __CFBitVectorInternalMap.
  change (map_masked mapper b (Z.quot (location (CFRangeMake 4 8)) __CF_BITS_PER_BUCKET)) with (map_masked mapper b 0).
  simpl. change (__CFBitBucketMask _ _) with 15 at 1. destruct (map_masked mapper b 0 15 c) as [[b' c']|]; reflexivity.
Qed.

Lemma get_bits_4_8 v m T old :
  4 <= T -> __CFBitVectorGetBits v m (mkGetBits 0 4 T true [old]) =
  Some (v, mkGetBits 0 4 (T - 4) true [uwrap 8 (Z.shiftr (uwrap 8 (Z.shiftl (Z.land v m) 4)) 0)]).
Proof.
  intros HT. unfold __CFBitVectorGetBits. cbn [initBits totalBits].
  change (__CF_BITS_PER_BUCKET - 4) with 4. rewrite Z.min_l by done. reflexivity.
Qed.

(** On a range that does not start at a byte boundary the bits that
    belong to the next byte of the buffer are never stored: the flag
    [ignoreFirstInitBits] is only cleared inside the branch it disables, so
    every bucket overwrites the same byte.  For any vector of at least 12 bits
    the range (4, 8) comes out as the byte 0, whatever the bits are. *)
Lemma CFBitVectorGetBits_unaligned_loses_bits (bv : __CFBitVector) (old : Z) :
  bv_wf bv -> 12 <= _count bv ->
  CFBitVectorGetBits bv (CFRangeMake 4 8) [old] = Some [0].
Proof.
  intros Hwf Hn. pose proof (wf_room bv Hwf). destruct bv as [info cnt cap [|x [|y b]]]; simpl in *; try lia.
  pose proof (wf_bytes _ Hwf) as Hb. simpl in Hb. inversion Hb as [|? ? Hx Hb']; subst. inversion Hb' as [|? ? Hy _]; subst.
  assert (uwrap 8 (Z.shiftl (Z.land y 240) 4) = 0) as Ey.
  { apply Z.eqb_eq. apply (forall_below (fun y => uwrap 8 (Z.shiftl (Z.land y 240) 4) =? 0) 256); [vm_compute; reflexivity|apply Hy]. }
  unfold CFBitVectorGetBits. cbn [range_length location _buckets].
  change (Z.land 4 (__CF_BITS_PER_BUCKET - 1)) with 4. change (0 =? 8) with false. rewrite internal_map_4_8. unfold map_masked.
  change (rd (_ :: _) 0) with (Some x). cbn [opt_bind]. rewrite get_bits_4_8 by done. cbn [opt_bind].
  rewrite wr_ok by (simpl; lia). cbn [opt_bind]. change (Z.to_nat 0) with 0%nat. cbn [insert list_insert].
  change (rd (_ :: _ :: _) 1) with (Some y). cbn [opt_bind]. rewrite get_bits_4_8 by done. cbn [opt_bind].
  rewrite wr_ok by (simpl; lia). cbn [opt_bind bytes]. by rewrite Ey.
Qed.

Lemma CFBitVectorGetBits_unaligned_loses_bits_witness :
  bits_of [255] 8 = take 8 (drop 4 (bits sample_bv)) /\
  CFBitVectorGetBits sample_bv (CFRangeMake 4 8) [0] = Some [0].
Proof.
  split; [vm_compute; reflexivity|].
  apply (CFBitVectorGetBits_unaligned_loses_bits sample_bv 0 sample_bv_wf). simpl. lia.
Defined.

(** [__CFBitVectorEqual] compares whole buckets: on non-empty vectors of
    the same length it answers true exactly when the bits are equal and the
    padding bits beyond the count are equal too, so it never equates
    different vectors but may separate equal ones. *)
Lemma CFBitVectorEqual_compares_padding (bv1 bv2 : __CFBitVector) :
  bv_wf bv1 -> bv_wf bv2 -> 0 < _count bv1 -> _count bv2 = _count bv1 ->
  __CFBitVectorEqual bv1 bv2 = Some (bool_decide (bits bv1 = bits bv2 /\ padding bv1 = padding bv2)).
Proof.
  intros Hw1 Hw2 Hn Hc. unfold __CFBitVectorEqual, __CFBitVectorCount, __CF_BITS_PER_BUCKET.
  rewrite Hc, Z.eqb_refl. cbn [negb]. destruct (Z.eqb_spec 0 (_count bv1)) as [|_]; [lia|].
  pose proof (wf_count _ Hw1). pose proof (wf_count _ Hw2). pose proof (wf_length _ Hw1). pose proof (wf_length _ Hw2).
  rewrite quot8 by lia. set (n := _count bv1 / 8). pose proof (div8_range (_count bv1)) as Hd. fold n in Hd.
  assert (0 <= n) by (apply Z.div_pos; lia).
  assert (n <= _capacity bv1 / 8) by (apply Z.div_le_mono; lia).
  assert (n <= _capacity bv2 / 8) by (apply Z.div_le_mono; lia).
  rewrite equal_loop_spec by lia. f_equal. apply bool_decide_ext. change (Z.to_nat 0) with 0%nat. rewrite !drop_0.
  rewrite buckets_ext by (try apply Hw1; try apply Hw2; lia). rewrite Z2Nat.id by lia.
  unfold padding, bits, bits_of. rewrite Hc. fold n.
  replace (8 * (n + 1)) with (_count bv1 + (8 * (n + 1) - _count bv1)) at 1 2 by lia.
  rewrite seqZ_app, !fmap_app by lia. rewrite Z.add_0_l. split.
  - intros E. by apply app_inj_1 in E; [|by rewrite !length_fmap].
  - intros [-> ->]. done.
Qed.

(** Two vectors created from bytes that agree on the four bits used. *)
Lemma CFBitVectorEqual_compares_padding_witness :
  let bv1 := mkBV 128 4 64 (240 :: replicate 8 0) in
  let bv2 := mkBV 128 4 64 (255 :: replicate 8 0) in
  CFBitVectorCreate true true (Some [240]) 4 = Some (Some bv1) /\
  CFBitVectorCreate true true (Some [255]) 4 = Some (Some bv2) /\
  bits bv1 = bits bv2 /\ __CFBitVectorEqual bv1 bv2 = Some false.
Proof.
  intros bv1 bv2. split_and!; [vm_compute; reflexivity..|].
  assert (bv_wf bv1) as H1 by (split; [simpl; lia|reflexivity|repeat constructor; done]).
  assert (bv_wf bv2) as H2 by (split; [simpl; lia|reflexivity|repeat constructor; done]).
  rewrite (CFBitVectorEqual_compares_padding bv1 bv2 H1 H2) by done. vm_compute. reflexivity.
Defined.
