(* ===== verification/CFBigNumber.v ===== *)
(** * CFBigNumber: signed base-10^9 numbers of five digits (CFBigNumber.c)

    A [_CFBigNum] is five [uint32_t] digits, least significant first, and a
    sign that is 0 or -1.  Every C expression is written with the width it has
    in the source; a signed negation that overflows wraps, as it does on the
    targets of the library.  Memory handed to or from [CFNumber] is a list of
    bytes, little endian; C strings are lists of character codes that end in
    0. *)

From S2P Require Import Prelude CFInternal.
From stdpp Require Import base list numbers option.
From Stdlib Require Import ZArith Lia.
Open Scope Z_scope.
Open Scope cf_scope.

(** ** Data *)

Record _CFBigNum := mkBig { digits : list Z; sign : Z }.

Definition BIG_DIGITS_LIMIT : Z := 1000000000.
Definition BIG_DIGITS_LIMIT_2 : Z := uwrap 64 (BIG_DIGITS_LIMIT * BIG_DIGITS_LIMIT).
Definition BIG_DIGITS_LIMIT_3 : Z := uwrap 128 (BIG_DIGITS_LIMIT_2 * BIG_DIGITS_LIMIT).
Definition BIG_DIGITS_LIMIT_4 : Z := uwrap 128 (BIG_DIGITS_LIMIT_3 * BIG_DIGITS_LIMIT).

(** [num->digits[i]] and its assignment; [i] is always one of 0..4. *)
Definition dig (a : _CFBigNum) (i : nat) : Z := digits a !!! i.

Definition set_dig (a : _CFBigNum) (i : nat) (v : Z) : _CFBigNum :=
  mkBig (<[i := uwrap 32 v]> (digits a)) (sign a).

Definition set_sign (a : _CFBigNum) (s : Z) : _CFBigNum := mkBig (digits a) (swrap 8 s).

(** [memset(r, 0, sizeof( *r))] *)
Definition big_zero : _CFBigNum := mkBig [0; 0; 0; 0; 0] 0.

(** ** From machine integers *)

(** The absolute value and the sign, as every signed initialiser starts:
    [unsignInNum] at width [w]. *)
Definition unsign (w inNum : Z) : Z * _CFBigNum :=
  let unsignInNum := uwrap w inNum in
  if inNum <? 0 then (uwrap w (-1 * inNum), set_sign big_zero (-1)) else (unsignInNum, big_zero).

Definition _CFBigNumInitWithInt8 (inNum : Z) : _CFBigNum :=
  let '(unsignInNum, r) := unsign 8 inNum in set_dig r 0 unsignInNum.

Definition _CFBigNumInitWithInt16 (inNum : Z) : _CFBigNum :=
  let '(unsignInNum, r) := unsign 16 inNum in set_dig r 0 unsignInNum.

(** The splitting of an unsigned value into two, three or five digits. *)
Definition split2 (r : _CFBigNum) (unsignInNum : Z) : _CFBigNum :=
  let dig0 := uwrap 32 (unsignInNum / BIG_DIGITS_LIMIT) in
  let r := set_dig r 0 (unsignInNum - dig0 * BIG_DIGITS_LIMIT) in
  set_dig r 1 dig0.

Definition split3 (r : _CFBigNum) (unsignInNum : Z) : _CFBigNum :=
  let dig2 := uwrap 32 (unsignInNum / BIG_DIGITS_LIMIT_2) in
  let unsignInNum := uwrap 64 (unsignInNum - uwrap 64 (dig2 * BIG_DIGITS_LIMIT_2)) in
  let dig1 := uwrap 32 (unsignInNum / BIG_DIGITS_LIMIT) in
  let r := set_dig r 0 (uwrap 64 (unsignInNum - uwrap 64 (dig1 * BIG_DIGITS_LIMIT))) in
  let r := set_dig r 1 dig1 in
  set_dig r 2 dig2.

Definition split5 (r : _CFBigNum) (unsignInNum : Z) : _CFBigNum :=
  let dig4 := uwrap 32 (unsignInNum / BIG_DIGITS_LIMIT_4) in
  let unsignInNum := uwrap 128 (unsignInNum - uwrap 128 (dig4 * BIG_DIGITS_LIMIT_4)) in
  let dig3 := uwrap 32 (unsignInNum / BIG_DIGITS_LIMIT_3) in
  let unsignInNum := uwrap 128 (unsignInNum - uwrap 128 (dig3 * BIG_DIGITS_LIMIT_3)) in
  let dig2 := uwrap 32 (unsignInNum / BIG_DIGITS_LIMIT_2) in
  let unsignInNum := uwrap 128 (unsignInNum - uwrap 128 (dig2 * BIG_DIGITS_LIMIT_2)) in
  let dig1 := uwrap 32 (unsignInNum / BIG_DIGITS_LIMIT) in
  let r := set_dig r 0 (uwrap 128 (unsignInNum - uwrap 128 (dig1 * BIG_DIGITS_LIMIT))) in
  let r := set_dig r 1 dig1 in
  let r := set_dig r 2 dig2 in
  let r := set_dig r 3 dig3 in
  set_dig r 4 dig4.

Definition _CFBigNumInitWithInt32 (inNum : Z) : _CFBigNum :=
  let '(unsignInNum, r) := unsign 32 inNum in split2 r unsignInNum.

Definition _CFBigNumInitWithInt64 (inNum : Z) : _CFBigNum :=
  let '(unsignInNum, r) := unsign 64 inNum in split3 r unsignInNum.

Definition _CFBigNumInitWithInt128 (inNum : Z) : _CFBigNum :=
  let '(unsignInNum, r) := unsign 128 inNum in split5 r unsignInNum.

Definition _CFBigNumInitWithUInt8 (inNum : Z) : _CFBigNum := set_dig big_zero 0 inNum.

Definition _CFBigNumInitWithUInt16 (inNum : Z) : _CFBigNum := set_dig big_zero 0 inNum.

Definition _CFBigNumInitWithUInt32 (inNum : Z) : _CFBigNum := split2 big_zero inNum.

Definition _CFBigNumInitWithUInt64 (inNum : Z) : _CFBigNum := split3 big_zero inNum.

Definition _CFBigNumInitWithUInt128 (inNum : Z) : _CFBigNum := split5 big_zero inNum.

(** ** To machine integers *)

Definition _CFBigNumGetInt8 (num : _CFBigNum) : Z :=
  let result := swrap 8 (dig num 0) in
  if sign num <? 0 then swrap 8 (-1 * result) else result.

Definition _CFBigNumGetInt16 (num : _CFBigNum) : Z :=
  let result := swrap 16 (dig num 0) in
  if sign num <? 0 then swrap 16 (-1 * result) else result.

Definition _CFBigNumGetInt32 (num : _CFBigNum) : Z :=
  let result := swrap 32 (dig num 0) in
  let result := swrap 32 (result + dig num 1 * BIG_DIGITS_LIMIT) in
  if sign num <? 0 then swrap 32 (-1 * result) else result.

Definition _CFBigNumGetInt64 (num : _CFBigNum) : Z :=
  let result := dig num 0 in
  let result := swrap 64 (result + dig num 1 * BIG_DIGITS_LIMIT) in
  let result := swrap 64 (result + dig num 2 * BIG_DIGITS_LIMIT_2) in
  if sign num <? 0 then swrap 64 (-1 * result) else result.

Definition _CFBigNumGetInt128 (num : _CFBigNum) : Z :=
  let result := dig num 0 in
  let result := swrap 128 (result + dig num 1 * BIG_DIGITS_LIMIT) in
  let result := swrap 128 (result + dig num 2 * BIG_DIGITS_LIMIT_2) in
  let result := swrap 128 (result + dig num 3 * BIG_DIGITS_LIMIT_3) in
  let result := swrap 128 (result + dig num 4 * BIG_DIGITS_LIMIT_4) in
  if sign num <? 0 then swrap 128 (-1 * result) else result.

Definition _CFBigNumGetUInt8 (num : _CFBigNum) : Z := uwrap 8 (dig num 0).

Definition _CFBigNumGetUInt16 (num : _CFBigNum) : Z := uwrap 16 (dig num 0).

Definition _CFBigNumGetUInt32 (num : _CFBigNum) : Z :=
  let result := dig num 0 in
  uwrap 32 (result + dig num 1 * BIG_DIGITS_LIMIT).

Definition _CFBigNumGetUInt64 (num : _CFBigNum) : Z :=
  let result := dig num 0 in
  let result := uwrap 64 (result + dig num 1 * BIG_DIGITS_LIMIT) in
  uwrap 64 (result + dig num 2 * BIG_DIGITS_LIMIT_2).

Definition _CFBigNumGetUInt128 (num : _CFBigNum) : Z :=
  let result := dig num 0 in
  let result := uwrap 128 (result + dig num 1 * BIG_DIGITS_LIMIT) in
  let result := uwrap 128 (result + dig num 2 * BIG_DIGITS_LIMIT_2) in
  let result := uwrap 128 (result + dig num 3 * BIG_DIGITS_LIMIT_3) in
  uwrap 128 (result + dig num 4 * BIG_DIGITS_LIMIT_4).

(** ** Comparison *)

(** [for (i = 5; i--;)]: [n] is [i] before the decrement.  The first digits
    that differ, from the most significant one: -1, 1, or 0. *)
Fixpoint compare_digits (a b : _CFBigNum) (n : nat) : Z :=
  match n with
  | O => 0
  | S i => if dig a i <? dig b i then -1
           else if dig b i <? dig a i then 1
           else compare_digits a b i
  end.

Definition _CFBigNumCompare (a b : _CFBigNum) : Z :=
  let sameSign := sign a =? sign b in
  if sameSign then
    let negative := sign a <? 0 in
    let c := compare_digits a b 5 in
    if c =? -1 then (if negb negative then kCFCompareLessThan else kCFCompareGreaterThan)
    else if c =? 1 then (if negative then kCFCompareLessThan else kCFCompareGreaterThan)
    else kCFCompareEqualTo
  else if sign a <? sign b then kCFCompareLessThan else kCFCompareGreaterThan.

Definition _CFBigNumAbsoluteLessThan (a b : _CFBigNum) : bool := compare_digits a b 5 =? -1.

(** ** Arithmetic *)

Definition _CFBigNumNeg (a : _CFBigNum) : _CFBigNum :=
  let aIsZero := forallb (fun i => dig a i =? 0) (seq 0 5) in
  if negb aIsZero then set_sign a (sign a * sign a - 1) else a.

(** The column loop of an addition of equal signs; [i] is the column, [n] the
    number left. *)
Fixpoint add_columns (n i : nat) (a b r : _CFBigNum) (carry : Z) : _CFBigNum * Z :=
  match n with
  | O => (r, carry)
  | S n =>
      let result := uwrap 32 (dig a i + dig b i + carry) in
      let '(carry, result) :=
        if BIG_DIGITS_LIMIT <? result then (1, uwrap 32 (result - BIG_DIGITS_LIMIT))
        else (0, result) in
      add_columns n (S i) a b (set_dig r i result) carry
  end.

(** The column loop of a subtraction of absolute values. *)
Fixpoint sub_columns (n i : nat) (bigNum smallNum r : _CFBigNum) (carry : Z) : _CFBigNum * Z :=
  match n with
  | O => (r, carry)
  | S n =>
      let result := dig bigNum i - dig smallNum i - carry in
      let '(carry, result) :=
        if result <? 0 then (1, result + BIG_DIGITS_LIMIT) else (0, result) in
      sub_columns n (S i) bigNum smallNum (set_dig r i result) carry
  end.

(** [r] is the caller's number before the call; the returned carry is the
    [uint8_t] result. *)
Definition _CFBigNumAdd (r a b : _CFBigNum) : _CFBigNum * Z :=
  let sameSign := sign a =? sign b in
  if sameSign then
    let '(r, carry) := add_columns 5 0 a b r 0 in
    (set_sign r (sign a), carry)
  else
    let '(bigNum, smallNum) := if _CFBigNumAbsoluteLessThan a b then (b, a) else (a, b) in
    let '(r, carry) := sub_columns 5 0 bigNum smallNum r 0 in
    (set_sign r (if sign bigNum <? 0 then -1 else 0), carry).

Definition _CFBigNumSub (r a b : _CFBigNum) : _CFBigNum * Z :=
  let nb := _CFBigNumNeg b in
  _CFBigNumAdd r a nb.

(** ** Numbers as bytes *)

Definition kCFNumberSInt8Type : Z := 1.
Definition kCFNumberSInt16Type : Z := 2.
Definition kCFNumberSInt32Type : Z := 3.
Definition kCFNumberSInt64Type : Z := 4.
Definition kCFNumberCharType : Z := 7.
Definition kCFNumberShortType : Z := 8.
Definition kCFNumberIntType : Z := 9.
Definition kCFNumberLongType : Z := 10.
Definition kCFNumberLongLongType : Z := 11.
Definition kCFNumberCFIndexType : Z := 14.
Definition kCFNumberNSIntegerType : Z := 15.
Definition kCFNumberSInt128Type : Z := 17.

(** Unsigned load of [n] bytes at offset [off] and the bytes a store of an
    integer leaves, least significant first. *)
Fixpoint load_le (bytes : list Z) (off : Z) (n : nat) : option Z :=
  match n with
  | O => Some 0
  | S n => let* b := rd bytes off in
           let* rest := load_le bytes (off + 1) n in
           Some (b + 256 * rest)
  end.

Fixpoint store_le (v : Z) (n : nat) : list Z :=
  match n with
  | O => []
  | S n => v mod 256 :: store_le (v / 256) n
  end.

(** [*(intW_t * )bytes]. *)
Definition load_signed (w : Z) (bytes : list Z) : option Z :=
  let* v := load_le bytes 0 (Z.to_nat (w / 8)) in Some (swrap w v).

(** Stored at [type] in the memory of a [CFSInt128Struct]: the high word
    comes first. *)
Record CFSInt128Struct := { high : Z; low : Z }.

Definition load_128 (bytes : list Z) : option CFSInt128Struct :=
  let* h := load_le bytes 0 8 in
  let* l := load_le bytes 8 8 in
  Some {| high := swrap 64 h; low := l |}.

Definition sizeof_long : Z := 8.
Definition sizeof_CFIndex : Z := 8.

(** [r] is returned unchanged for a type that is not an integer type. *)
Definition _CFBigNumInitWithBytes (r : _CFBigNum) (bytes : list Z) (type : Z) : option _CFBigNum :=
  let init8 := let* v := load_signed 8 bytes in Some (_CFBigNumInitWithInt8 v) in
  let init16 := let* v := load_signed 16 bytes in Some (_CFBigNumInitWithInt16 v) in
  let init32 := let* v := load_signed 32 bytes in Some (_CFBigNumInitWithInt32 v) in
  let init64 := let* v := load_signed 64 bytes in Some (_CFBigNumInitWithInt64 v) in
  if type =? kCFNumberSInt8Type then init8
  else if type =? kCFNumberSInt16Type then init16
  else if type =? kCFNumberSInt32Type then init32
  else if type =? kCFNumberSInt64Type then init64
  else if type =? kCFNumberCharType then init8
  else if type =? kCFNumberShortType then init16
  else if type =? kCFNumberIntType then init32
  else if type =? kCFNumberLongType then (if sizeof_long =? 8 then init64 else init32)
  else if type =? kCFNumberLongLongType then init64
  else if type =? kCFNumberCFIndexType then (if sizeof_CFIndex =? 8 then init64 else init32)
  else if type =? kCFNumberNSIntegerType then (if sizeof_long =? 8 then init64 else init32)
  else if type =? kCFNumberSInt128Type then
    let* s := load_128 bytes in
    let val := swrap 128 (low s + swrap 128 (Z.shiftl (high s) 64)) in
    Some (_CFBigNumInitWithInt128 val)
  else Some r.

Definition INT8_MAX : Z := 127.
Definition INT16_MAX : Z := 32767.
Definition INT32_MAX : Z := 2147483647.
Definition INT32_MIN : Z := -2147483648.
Definition INT64_MAX : Z := 9223372036854775807.
Definition INT64_MIN : Z := -9223372036854775808.
Definition INT128_MAX : Z := -1 + Z.shiftl 1 126 + Z.shiftl 1 126.
Definition INT128_MIN : Z := 0 - Z.shiftl 1 126 - Z.shiftl 1 126.

(** The range test against two limits. *)
Definition within_limits (input maxlimit minlimit : _CFBigNum) : bool :=
  let cr := _CFBigNumCompare input maxlimit in
  let crn := _CFBigNumCompare input minlimit in
  ((kCFCompareLessThan =? cr) || (kCFCompareEqualTo =? cr)) && negb (kCFCompareLessThan =? crn).

(** The type and the value memory handed to [CFNumberCreate]; [None] is the
    NULL result. *)
Definition _CFNumberCreateWithBigNum (input : _CFBigNum) : option (Z * list Z) :=
  let z i := 0 =? dig input i in
  let narrow :=
    if z 4%nat && z 3%nat && z 2%nat && z 1%nat then
      if dig input 0 <=? INT8_MAX then Some (kCFNumberSInt8Type, store_le (_CFBigNumGetInt8 input) 1)
      else if dig input 0 <=? INT16_MAX then Some (kCFNumberSInt16Type, store_le (_CFBigNumGetInt16 input) 2)
      else None
    else None in
  match narrow with
  | Some n => Some n
  | None =>
      if z 4%nat && z 3%nat && z 2%nat &&
         within_limits input (_CFBigNumInitWithInt32 INT32_MAX) (_CFBigNumInitWithInt32 INT32_MIN)
      then Some (kCFNumberSInt32Type, store_le (_CFBigNumGetInt32 input) 4)
      else if z 4%nat && z 3%nat &&
         within_limits input (_CFBigNumInitWithInt64 INT64_MAX) (_CFBigNumInitWithInt64 INT64_MIN)
      then Some (kCFNumberSInt64Type, store_le (_CFBigNumGetInt64 input) 8)
      else if within_limits input (_CFBigNumInitWithInt128 INT128_MAX) (_CFBigNumInitWithInt128 INT128_MIN)
      then Some (kCFNumberSInt128Type, store_le (_CFBigNumGetInt128 input) 16)
      else None
  end.

(** ** C strings *)

Definition ch_0 : Z := 48.
Definition ch_minus : Z := 45.
Definition ch_plus : Z := 43.

(** [strlen] from offset [off]: [None] when the block ends before a 0. *)
Fixpoint strlen_from (s : list Z) : option nat :=
  match s with
  | [] => None
  | c :: s => if c =? 0 then Some O else let* n := strlen_from s in Some (S n)
  end.

Definition strlen (s : list Z) (off : nat) : option nat := strlen_from (drop off s).

(** Decimal digits of an unsigned number, most significant first; ten are
    enough for a [uint32_t]. *)
Fixpoint dec_digits (fuel : nat) (n : Z) : list Z :=
  match fuel with
  | O => []
  | S f => (if n <? 10 then [] else dec_digits f (n / 10)) ++ [ch_0 + n mod 10]
  end.

(** The conversions [%u] and [%09u] of printf. *)
Definition fmt_u (n : Z) : list Z := dec_digits 10 n.
Definition fmt_09u (n : Z) : list Z := replicate (9 - length (fmt_u n)) ch_0 ++ fmt_u n.

(** [snprintf] into a buffer of [size] bytes. *)
Definition snprintf (size : nat) (s : list Z) : list Z := take (size - 1) s ++ [0].

(** [strlcpy(dst + off, s, size)]; [s] is the rest of a block from the source
    pointer on. *)
Definition strlcpy (dst : list Z) (off : Z) (s : list Z) (size : Z) : option (list Z) :=
  let* n := strlen_from s in
  if size =? 0 then Some dst else
  let n := Z.min (Z.of_nat n) (size - 1) in
  let* dst := memmove dst off s 0 n in
  wr dst (off + n) 0.

(** [while ( *s == c) s++] from index [i] of a block. *)
Fixpoint skip_char (fuel : nat) (c : Z) (s : list Z) (i : Z) : option Z :=
  match fuel with
  | O => None
  | S f => let* x := rd s i in if x =? c then skip_char f c s (i + 1) else Some i
  end.

Definition _CFBigNumToCString (vp : _CFBigNum) (leading_zeros leading_plus : bool)
    (buffer : list Z) (buflen : Z) : option (list Z) :=
  let* (buffer, off, buflen) :=
    (if sign vp <? 0 then
       let* buffer := wr buffer 0 ch_minus in Some (buffer, 1, uwrap 64 (buflen - 1))
     else if leading_plus then
       let* buffer := wr buffer 0 ch_plus in Some (buffer, 1, uwrap 64 (buflen - 1))
     else Some (buffer, 0, buflen)) in
  let tmp := snprintf 46 (fmt_09u (dig vp 4) ++ fmt_09u (dig vp 3) ++ fmt_09u (dig vp 2) ++
                          fmt_09u (dig vp 1) ++ fmt_09u (dig vp 0)) in
  if leading_zeros then
    let* buffer := memset buffer off ch_0 buflen in
    let tocopy := uwrap 32 (Z.min 46 buflen) in
    memmove buffer (off + buflen - tocopy) tmp (46 - tocopy) tocopy
  else
    let* s := skip_char 46 ch_0 tmp 0 in
    let* c := rd tmp s in
    let s := if c =? 0 then s - 1 else s in
    strlcpy buffer off (drop (Z.to_nat s) tmp) buflen.

(** [atol]: white space, a sign, decimal digits; undefined when the value does
    not fit in a [long]. *)
Definition is_space (c : Z) : bool := (c =? 32) || ((9 <=? c) && (c <=? 13)).
Definition is_digit (c : Z) : bool := (ch_0 <=? c) && (c <=? ch_0 + 9).

Fixpoint atol_digits (s : list Z) (acc : Z) : Z :=
  match s with
  | c :: s => if is_digit c then atol_digits s (10 * acc + (c - ch_0)) else acc
  | [] => acc
  end.

Fixpoint skip_spaces (s : list Z) : list Z :=
  match s with
  | c :: s' => if is_space c then skip_spaces s' else s
  | [] => []
  end.

Definition atol (s : list Z) : option Z :=
  let s := skip_spaces s in
  let v := match s with
           | c :: s' => if c =? ch_minus then - atol_digits s' 0
                        else if c =? ch_plus then atol_digits s' 0 else atol_digits s 0
           | [] => 0
           end in
  if (- 2 ^ 63 <=? v) && (v <? 2 ^ 63) then Some v else None.

(** The loop that cuts nine characters off the end of [working] per digit. *)
Fixpoint cut_digits (fuel : nat) (r : _CFBigNum) (copy : list Z) (working length : Z) (curDigit : nat) :
    option (_CFBigNum * list Z * nat) :=
  if (Z.of_nat curDigit + 1 <? 5) && (9 <? length) then
    match fuel with
    | O => None
    | S f =>
        let* digit := atol (drop (Z.to_nat (working + length - 9)) copy) in
        let r := set_dig r curDigit (uwrap 32 digit) in
        let* copy := wr copy (working + length - 9) 0 in
        cut_digits f r copy working (length - 9) (S curDigit)
    end
  else Some (r, copy, curDigit).

Definition _CFBigNumFromCString (string : list Z) : option _CFBigNum :=
  let r := big_zero in
  let* len := strlen string 0 in
  let copy := take (len + 1) string in
  let working := 0 in
  let* c := rd copy working in
  let '(r, working) :=
    if c =? ch_minus then (set_sign r (-1), working + 1)
    else if c =? ch_plus then (r, working + 1)
    else (r, working) in
  let* working := skip_char (S (length copy)) ch_0 copy working in
  let* length := strlen copy (Z.to_nat working) in
  if (length =? 0)%nat then Some r else
  let* (r, copy, curDigit) := cut_digits 4 r copy working (Z.of_nat length) 0 in
  let* digit := atol (drop (Z.to_nat working) copy) in
  Some (set_dig r curDigit (uwrap 32 digit)).

(** ** Values *)

(** The magnitude of a digit list and the value of a number. *)
Fixpoint mag (ds : list Z) : Z :=
  match ds with [] => 0 | d :: ds => d + BIG_DIGITS_LIMIT * mag ds end.

Definition bmag (a : _CFBigNum) : Z := mag (digits a).

Definition bval (a : _CFBigNum) : Z := if sign a <? 0 then - bmag a else bmag a.

(** A normalised number: five digits below 10^9 and a sign of 0 or -1. *)
Record big_norm (a : _CFBigNum) : Prop := {
  norm_length : length (digits a) = 5%nat;
  norm_digits : Forall (fun d => 0 <= d < BIG_DIGITS_LIMIT) (digits a);
  norm_sign : sign a = 0 \/ sign a = -1
}.

(** A canonical one has no negative zero. *)
Definition big_canonical (a : _CFBigNum) : Prop := big_norm a /\ (bmag a = 0 -> sign a = 0).

#[local] Arguments Z.mul : simpl never.
#[local] Arguments Z.add : simpl never.

Ltac limits :=
  change BIG_DIGITS_LIMIT_2 with 1000000000000000000 in *;
  change BIG_DIGITS_LIMIT_3 with 1000000000000000000000000000 in *;
  change BIG_DIGITS_LIMIT_4 with 1000000000000000000000000000000000000 in *;
  change BIG_DIGITS_LIMIT with 1000000000 in *;
  change (2 ^ 32) with 4294967296 in *;
  change (2 ^ 64) with 18446744073709551616 in *;
  change (2 ^ 128) with 340282366920938463463374607431768211456 in *.

Lemma uwrap_mod_id w x : 0 <= x < 2 ^ w -> uwrap w x = x.
Proof. intros. by apply uwrap_id. Qed.

(** Conversions of values already in range disappear. *)
Ltac unwrap := repeat match goal with
  | |- context [uwrap ?w ?x] => rewrite (uwrap_mod_id w x) by (limits; lia)
  end.

(** One digit [d] split off the value [u] at the place value [M]; [u'] is the
    rest. *)
Lemma peel u M n : 0 < M -> 0 <= u < n * M -> 0 <= u / M < n /\ 0 <= u - u / M * M < M.
Proof.
  intros HM Hu. pose proof (Z.div_mod u M). pose proof (Z.mod_pos_bound u M).
  split; [split; [apply Z.div_pos|apply Z.div_lt_upper_bound]|]; lia.
Qed.

Ltac peel_digit u M n d u' :=
  destruct (peel u M n) as [? ?]; [lia|lia|]; unwrap;
  generalize dependent (u / M); intros d; intros; unwrap; remember (u - d * M) as u'.

(** Five digits. *)
Lemma five_digits (l : list Z) :
  length l = 5%nat -> exists d0 d1 d2 d3 d4, l = [d0; d1; d2; d3; d4].
Proof. intros H. destruct l as [|d0 [|d1 [|d2 [|d3 [|d4 [|]]]]]]; simpl in H; try lia. by repeat eexists. Qed.

Lemma norm_inv a :
  big_norm a -> exists d0 d1 d2 d3 d4 s, a = mkBig [d0; d1; d2; d3; d4] s /\ (s = 0 \/ s = -1) /\
    0 <= d0 < 1000000000 /\ 0 <= d1 < 1000000000 /\ 0 <= d2 < 1000000000 /\
    0 <= d3 < 1000000000 /\ 0 <= d4 < 1000000000.
Proof.
  destruct a as [ds s]. intros [Hl Hd Hs]. simpl in *. apply five_digits in Hl as (d0 & d1 & d2 & d3 & d4 & ->).
  repeat match goal with H : Forall _ (_ :: _) |- _ => inversion H; clear H; subst end. limits.
  exists d0, d1, d2, d3, d4, s. auto 10.
Qed.

Lemma norm_intro d0 d1 d2 d3 d4 s :
  s = 0 \/ s = -1 ->
  0 <= d0 < 1000000000 -> 0 <= d1 < 1000000000 -> 0 <= d2 < 1000000000 ->
  0 <= d3 < 1000000000 -> 0 <= d4 < 1000000000 -> big_norm (mkBig [d0; d1; d2; d3; d4] s).
Proof. intros. split; [done| |done]. simpl. repeat constructor; limits; lia. Qed.

(** ** From machine integers *)

Lemma split5_spec ds s u :
  length ds = 5%nat -> 0 <= u < 2 ^ 128 -> s = 0 \/ s = -1 ->
  big_norm (split5 (mkBig ds s) u) /\ bmag (split5 (mkBig ds s) u) = u /\ sign (split5 (mkBig ds s) u) = s.
Proof.
  intros Hl Hu Hs. apply five_digits in Hl as (e0 & e1 & e2 & e3 & e4 & ->). limits.
  unfold split5. cbv zeta. limits.
  peel_digit u 1000000000000000000000000000000000000 341 d4 u4.
  peel_digit u4 1000000000000000000000000000 1000000000 d3 u3.
  peel_digit u3 1000000000000000000 1000000000 d2 u2.
  peel_digit u2 1000000000 1000000000 d1 u1.
  unwrap. unfold set_dig. cbn -[uwrap]. unwrap. split_and!.
  - apply norm_intro; lia.
  - unfold bmag. cbn [digits mag]. limits. lia.
  - done.
Qed.

Lemma split3_spec ds s u :
  length ds = 5%nat -> (forall i, (3 <= i < 5)%nat -> ds !! i = Some 0) ->
  0 <= u < 2 ^ 64 -> s = 0 \/ s = -1 ->
  big_norm (split3 (mkBig ds s) u) /\ bmag (split3 (mkBig ds s) u) = u /\ sign (split3 (mkBig ds s) u) = s.
Proof.
  intros Hl Hz Hu Hs. apply five_digits in Hl as (e0 & e1 & e2 & e3 & e4 & ->).
  pose proof (Hz 3%nat ltac:(lia)) as [= ->]. pose proof (Hz 4%nat ltac:(lia)) as [= ->].
  limits. unfold split3. cbv zeta. limits.
  peel_digit u 1000000000000000000 19 d2 u2.
  peel_digit u2 1000000000 1000000000 d1 u1.
  unwrap. unfold set_dig. cbn -[uwrap]. unwrap. split_and!.
  - apply norm_intro; lia.
  - unfold bmag. cbn [digits mag]. limits. lia.
  - done.
Qed.

Lemma split2_spec s u :
  0 <= u < 2 ^ 32 -> s = 0 \/ s = -1 ->
  let r := split2 (mkBig [0; 0; 0; 0; 0] s) u in big_norm r /\ bmag r = u /\ sign r = s.
Proof.
  intros Hu Hs. limits. unfold split2. cbv zeta. limits.
  peel_digit u 1000000000 5 d1 u1. unfold set_dig. cbn -[uwrap]. unwrap. split_and!.
  - apply norm_intro; lia.
  - unfold bmag. cbn [digits mag]. limits. lia.
  - done.
Qed.

Lemma one_digit_spec s u :
  0 <= u < 2 ^ 16 -> s = 0 \/ s = -1 ->
  let r := set_dig (mkBig [0; 0; 0; 0; 0] s) 0 u in big_norm r /\ bmag r = u /\ sign r = s.
Proof.
  intros Hu Hs. change (2 ^ 16) with 65536 in *. unfold set_dig. cbn -[uwrap]. unwrap. split_and!.
  - apply norm_intro; lia.
  - unfold bmag. cbn [digits mag]. limits. lia.
  - done.
Qed.

Lemma unsign_spec w x :
  1 < w -> in_signed w x ->
  unsign w x = (Z.abs x, mkBig [0; 0; 0; 0; 0] (if x <? 0 then -1 else 0)).
Proof.
  intros Hw Hx. unfold unsign. cbv zeta. unfold in_signed in Hx.
  assert (2 ^ w = 2 * 2 ^ (w - 1)) by (apply pow2_half; lia). pose proof (Z.pow_pos_nonneg 2 (w - 1)).
  destruct (Z.ltb_spec x 0); rewrite uwrap_id by (unfold in_unsigned; lia).
  - f_equal. lia.
  - by rewrite Z.abs_eq.
Qed.

(** Every signed initialiser yields a canonical number with the value. *)
Definition init_with_signed (w x : Z) : _CFBigNum :=
  if w =? 8 then _CFBigNumInitWithInt8 x else if w =? 16 then _CFBigNumInitWithInt16 x
  else if w =? 32 then _CFBigNumInitWithInt32 x else if w =? 64 then _CFBigNumInitWithInt64 x
  else _CFBigNumInitWithInt128 x.

Definition init_with_unsigned (w x : Z) : _CFBigNum :=
  if w =? 8 then _CFBigNumInitWithUInt8 x else if w =? 16 then _CFBigNumInitWithUInt16 x
  else if w =? 32 then _CFBigNumInitWithUInt32 x else if w =? 64 then _CFBigNumInitWithUInt64 x
  else _CFBigNumInitWithUInt128 x.

Definition get_signed (w : Z) (a : _CFBigNum) : Z :=
  if w =? 8 then _CFBigNumGetInt8 a else if w =? 16 then _CFBigNumGetInt16 a
  else if w =? 32 then _CFBigNumGetInt32 a else if w =? 64 then _CFBigNumGetInt64 a
  else _CFBigNumGetInt128 a.

Definition get_unsigned (w : Z) (a : _CFBigNum) : Z :=
  if w =? 8 then _CFBigNumGetUInt8 a else if w =? 16 then _CFBigNumGetUInt16 a
  else if w =? 32 then _CFBigNumGetUInt32 a else if w =? 64 then _CFBigNumGetUInt64 a
  else _CFBigNumGetUInt128 a.

Definition is_width (w : Z) : Prop := w = 8 \/ w = 16 \/ w = 32 \/ w = 64 \/ w = 128.

Lemma canonical_of r u s x :
  big_norm r /\ bmag r = u /\ sign r = s -> u = Z.abs x -> s = (if x <? 0 then -1 else 0) ->
  big_canonical r /\ bval r = x.
Proof.
  intros (Hn & Hm & Hs) -> ->. split; [split; [done|]|].
  - intros E. rewrite Hs. destruct (Z.ltb_spec x 0); lia.
  - unfold bval. rewrite Hs, Hm. destruct (Z.ltb_spec x 0); simpl; lia.
Qed.

Lemma init_signed_spec w x :
  is_width w -> in_signed w x ->
  big_canonical (init_with_signed w x) /\ bval (init_with_signed w x) = x.
Proof.
  intros Hw Hx. assert ((if x <? 0 then -1 else 0) = 0 \/ (if x <? 0 then -1 else 0) = -1) as Hs by (destruct (x <? 0); auto).
  assert (1 < w) by (unfold is_width in Hw; lia).
  assert (0 <= Z.abs x <= 2 ^ (w - 1)) as Ha by (unfold in_signed in Hx; lia).
  destruct Hw as [-> |[-> |[-> |[-> | ->]]]]; unfold init_with_signed; simpl;
    [unfold _CFBigNumInitWithInt8|unfold _CFBigNumInitWithInt16|unfold _CFBigNumInitWithInt32
    |unfold _CFBigNumInitWithInt64|unfold _CFBigNumInitWithInt128];
    rewrite unsign_spec by done; (eapply canonical_of; [|reflexivity|reflexivity]).
  - apply one_digit_spec; [simpl in *; lia|done].
  - apply one_digit_spec; [simpl in *; lia|done].
  - apply split2_spec; [simpl in *; lia|done].
  - apply split3_spec; [done| |simpl in *; lia|done].
    intros [|[|[|[|[|]]]]] Hi; try lia; done.
  - apply split5_spec; [done|simpl in *; lia|done].
Qed.

Lemma init_unsigned_spec w x :
  is_width w -> in_unsigned w x ->
  big_canonical (init_with_unsigned w x) /\ bval (init_with_unsigned w x) = x.
Proof.
  intros Hw Hx. unfold in_unsigned in Hx.
  destruct Hw as [-> |[-> |[-> |[-> | ->]]]]; unfold init_with_unsigned; simpl;
    [unfold _CFBigNumInitWithUInt8|unfold _CFBigNumInitWithUInt16|unfold _CFBigNumInitWithUInt32
    |unfold _CFBigNumInitWithUInt64|unfold _CFBigNumInitWithUInt128];
    (eapply canonical_of; [|symmetry; apply Z.abs_eq; lia|destruct (Z.ltb_spec x 0); [lia|reflexivity]]).
  - apply one_digit_spec; [simpl in *; lia|by left].
  - apply one_digit_spec; [simpl in *; lia|by left].
  - apply split2_spec; [simpl in *; lia|by left].
  - apply split3_spec; [done| |simpl in *; lia|by left].
    intros [|[|[|[|[|]]]]] Hi; try lia; done.
  - apply split5_spec; [done|simpl in *; lia|by left].
Qed.

(** ** To machine integers *)

Lemma swrap_neg w a : 0 < w -> swrap w (-1 * swrap w a) = swrap w (- a).
Proof.
  intros Hw. unfold swrap. f_equal. set (m := 2 ^ w). set (h := 2 ^ (w - 1)).
  assert (m = 2 * h) as Hm by (apply pow2_half; lia).
  replace (-1 * ((a + h) mod m - h) + h) with (m - (a + h) mod m) by lia.
  rewrite <- Zminus_mod_idemp_r, Z.mod_mod, Zminus_mod_idemp_r by lia.
  replace (m - (a + h)) with (- a + h) by lia. done.
Qed.

Lemma uwrap_add_l w a b : 0 <= w -> uwrap w (uwrap w a + b) = uwrap w (a + b).
Proof. intros. unfold uwrap. apply Zplus_mod_idemp_l. Qed.

(** The getters reduce the value modulo their width, provided the digits they
    do not read are zero. *)
Definition fits_digits (w : Z) (a : _CFBigNum) : Prop :=
  Z.abs (bval a) < (if w <=? 16 then 10 ^ 9 else if w =? 32 then 10 ^ 18 else if w =? 64 then 10 ^ 27 else 10 ^ 45).

Lemma get_signed_spec w a :
  is_width w -> big_norm a -> fits_digits w a -> get_signed w a = swrap w (bval a).
Proof.
  intros Hw Hn Hf. apply norm_inv in Hn as (d0 & d1 & d2 & d3 & d4 & s & -> & Hs & ? & ? & ? & ? & ?).
  unfold fits_digits in Hf. unfold bval, bmag in *. cbn [digits mag sign] in *.
  destruct Hw as [-> |[-> |[-> |[-> | ->]]]]; unfold get_signed; simpl in *;
    [unfold _CFBigNumGetInt8|unfold _CFBigNumGetInt16|unfold _CFBigNumGetInt32
    |unfold _CFBigNumGetInt64|unfold _CFBigNumGetInt128]; cbn [sign]; unfold dig; cbn -[swrap]; limits;
  destruct Hs as [-> | ->]; simpl in *; repeat (rewrite swrap_add_l by lia; rewrite <- ?Z.add_assoc);
  rewrite ?swrap_neg by lia; f_equal; lia.
Qed.

Lemma get_unsigned_spec w a :
  is_width w -> big_norm a -> fits_digits w a -> sign a = 0 -> get_unsigned w a = uwrap w (bval a).
Proof.
  intros Hw Hn Hf Hs. apply norm_inv in Hn as (d0 & d1 & d2 & d3 & d4 & s & -> & _ & ? & ? & ? & ? & ?).
  unfold fits_digits in Hf. simpl in Hs. subst s. unfold bval, bmag in *. cbn [digits mag sign] in *.
  destruct Hw as [-> |[-> |[-> |[-> | ->]]]]; unfold get_unsigned; simpl in *;
    [unfold _CFBigNumGetUInt8|unfold _CFBigNumGetUInt16|unfold _CFBigNumGetUInt32
    |unfold _CFBigNumGetUInt64|unfold _CFBigNumGetUInt128]; unfold dig; cbn -[uwrap]; limits;
  repeat (rewrite uwrap_add_l by lia; rewrite <- ?Z.add_assoc); f_equal; lia.
Qed.

(** ** Comparison *)

Lemma compare_digits_spec a b :
  big_norm a -> big_norm b ->
  compare_digits a b 5 = (if bmag a <? bmag b then -1 else if bmag b <? bmag a then 1 else 0).
Proof.
  intros Ha Hb. apply norm_inv in Ha as (a0 & a1 & a2 & a3 & a4 & sa & -> & _ & ? & ? & ? & ? & ?).
  apply norm_inv in Hb as (b0 & b1 & b2 & b3 & b4 & sb & -> & _ & ? & ? & ? & ? & ?).
  unfold bmag. cbn [digits mag]. limits. unfold compare_digits, dig.
  cbn -[Z.ltb]. bool_case; done || lia.
Qed.

Definition to_comparison (c : comparison) : Z :=
  match c with Lt => kCFCompareLessThan | Eq => kCFCompareEqualTo | Gt => kCFCompareGreaterThan end.

Lemma bmag_nonneg a : big_norm a -> 0 <= bmag a.
Proof.
  intros Ha. apply norm_inv in Ha as (a0 & a1 & a2 & a3 & a4 & sa & -> & _ & ? & ? & ? & ? & ?).
  unfold bmag. cbn [digits mag]. limits. lia.
Qed.

Lemma big_compare_spec a b :
  big_canonical a -> big_canonical b ->
  _CFBigNumCompare a b = to_comparison (bval a ?= bval b).
Proof.
  intros [Ha Ha0] [Hb Hb0]. unfold _CFBigNumCompare. rewrite compare_digits_spec by done.
  pose proof (bmag_nonneg a Ha). pose proof (bmag_nonneg b Hb).
  destruct (norm_sign a Ha) as [Ea|Ea], (norm_sign b Hb) as [Eb|Eb];
    unfold bval; rewrite Ea, Eb in *; simpl;
    destruct (Z.compare_spec (if sign a <? 0 then - bmag a else bmag a) (if sign b <? 0 then - bmag b else bmag b)) as [E|E|E];
    rewrite Ea, Eb in E; simpl in E.
  all: try (destruct (Z.compare_spec (bmag a) (bmag b))); try (destruct (Z.compare_spec (- bmag a) (- bmag b)));
       try (destruct (Z.compare_spec (- bmag a) (bmag b))); try (destruct (Z.compare_spec (bmag a) (- bmag b)));
       try lia; bool_case; done || lia.
Qed.

(** ** Addition *)

(** One column of an addition. *)
Lemma add_column x y c :
  0 <= x < 1000000000 -> 0 <= y < 1000000000 -> c = 0 \/ c = 1 ->
  exists r c', (let result := uwrap 32 (x + y + c) in
      if BIG_DIGITS_LIMIT <? result then (1, uwrap 32 (result - BIG_DIGITS_LIMIT)) else (0, result)) = (c', r) /\
    (c' = 0 \/ c' = 1) /\ 0 <= r <= 1000000000 /\ r + 1000000000 * c' = x + y + c /\ (r = 1000000000 <-> x + y + c = 1000000000).
Proof.
  intros Hx Hy Hc. cbv zeta. limits. unwrap. destruct (Z.ltb_spec 1000000000 (x + y + c)).
  - unwrap. do 2 eexists. split_and!; [done|lia..].
  - do 2 eexists. split_and!; [done|lia..].
Qed.

Lemma sub_column x y c :
  0 <= x < 1000000000 -> 0 <= y < 1000000000 -> c = 0 \/ c = 1 ->
  exists r c', (let result := x - y - c in
      if result <? 0 then (1, result + BIG_DIGITS_LIMIT) else (0, result)) = (c', r) /\
    (c' = 0 \/ c' = 1) /\ 0 <= r < 1000000000 /\ r - 1000000000 * c' = x - y - c.
Proof.
  intros Hx Hy Hc. cbv zeta. limits. destruct (Z.ltb_spec (x - y - c) 0);
    do 2 eexists; (split_and!; [done|lia..]).
Qed.

Lemma add_columns_S n i a b r carry :
  add_columns (S n) i a b r carry =
  let '(carry, result) := (let result := uwrap 32 (dig a i + dig b i + carry) in
      if BIG_DIGITS_LIMIT <? result then (1, uwrap 32 (result - BIG_DIGITS_LIMIT)) else (0, result)) in
  add_columns n (S i) a b (set_dig r i result) carry.
Proof. done. Qed.

Lemma sub_columns_S n i a b r carry :
  sub_columns (S n) i a b r carry =
  let '(carry, result) := (let result := dig a i - dig b i - carry in
      if result <? 0 then (1, result + BIG_DIGITS_LIMIT) else (0, result)) in
  sub_columns n (S i) a b (set_dig r i result) carry.
Proof. done. Qed.

(** Run one column: [r] and [c'] are its digit and carry. *)
Ltac column S L x y c r c' :=
  let E := fresh "E" in
  destruct (L x y c) as (r & c' & E & ? & ? & ?);
  [assumption|assumption|assumption || by left|];
  rewrite S; unfold dig; cbn [digits lookup_total list_lookup_total];
  cbv zeta in E |- *; rewrite E; clear E; unfold set_dig at 1;
  rewrite (uwrap_mod_id 32 r) by (limits; match goal with
    | H : 0 <= r <= _ |- _ => clear - H | H : 0 <= r < _ |- _ => clear - H end; lia); cbn [digits sign insert list_insert].

(** Linear arithmetic on the column equations alone. *)
Ltac equations_lia :=
  repeat match goal with H : _ /\ (_ <-> _) |- _ => destruct H as [? _] end;
  repeat match goal with H : _ \/ _ |- _ => clear H end; lia.

Lemma add_columns_spec a b r :
  big_norm a -> big_norm b -> length (digits r) = 5%nat ->
  exists r0 r1 r2 r3 r4 c, add_columns 5 0 a b r 0 = (mkBig [r0; r1; r2; r3; r4] (sign r), c) /\
    (c = 0 \/ c = 1) /\ Forall (fun d => 0 <= d <= BIG_DIGITS_LIMIT) [r0; r1; r2; r3; r4] /\
    mag [r0; r1; r2; r3; r4] + c * 10 ^ 45 = bmag a + bmag b /\
    (r0 = BIG_DIGITS_LIMIT <-> dig a 0 + dig b 0 = BIG_DIGITS_LIMIT).
Proof.
  intros Ha Hb Hr. destruct r as [dr sr]. simpl in Hr. apply five_digits in Hr as (e0 & e1 & e2 & e3 & e4 & ->).
  apply norm_inv in Ha as (a0 & a1 & a2 & a3 & a4 & sa & -> & _ & ? & ? & ? & ? & ?).
  apply norm_inv in Hb as (b0 & b1 & b2 & b3 & b4 & sb & -> & _ & ? & ? & ? & ? & ?).
  column add_columns_S add_column a0 b0 0 r0 c0. column add_columns_S add_column a1 b1 c0 r1 c1. column add_columns_S add_column a2 b2 c1 r2 c2.
  column add_columns_S add_column a3 b3 c2 r3 c3. column add_columns_S add_column a4 b4 c3 r4 c4.
  exists r0, r1, r2, r3, r4, c4. unfold bmag. cbn [digits mag sign]. limits.
  split_and!; [done|done|repeat constructor; equations_lia| |].
  - change (10 ^ 45) with 1000000000000000000000000000000000000000000000. equations_lia.
  - unfold dig. cbn. rewrite Z.add_0_r in *. tauto.
Qed.

Lemma sub_columns_spec a b r :
  big_norm a -> big_norm b -> length (digits r) = 5%nat -> bmag b <= bmag a ->
  exists ds, sub_columns 5 0 a b r 0 = (mkBig ds (sign r), 0) /\ length ds = 5%nat /\
    Forall (fun d => 0 <= d < BIG_DIGITS_LIMIT) ds /\ mag ds = bmag a - bmag b.
Proof.
  intros Ha Hb Hr Hle. destruct r as [dr sr]. simpl in Hr. apply five_digits in Hr as (e0 & e1 & e2 & e3 & e4 & ->).
  apply norm_inv in Ha as (a0 & a1 & a2 & a3 & a4 & sa & -> & _ & ? & ? & ? & ? & ?).
  apply norm_inv in Hb as (b0 & b1 & b2 & b3 & b4 & sb & -> & _ & ? & ? & ? & ? & ?).
  column sub_columns_S sub_column a0 b0 0 r0 c0. column sub_columns_S sub_column a1 b1 c0 r1 c1. column sub_columns_S sub_column a2 b2 c1 r2 c2.
  column sub_columns_S sub_column a3 b3 c2 r3 c3. column sub_columns_S sub_column a4 b4 c3 r4 c4.
  unfold bmag in *. cbn [digits mag sign] in *. limits.
  assert (c4 = 0) as ->.
  { enough (c4 < 1) by lia. equations_lia. }
  exists [r0; r1; r2; r3; r4]. cbn [mag]. limits.
  split_and!; [done|done|repeat constructor; equations_lia|equations_lia].
Qed.

(** What [_CFBigNumAdd] promises on normalised arguments: the carry stands for
    10^45 with the sign of the result. *)
Definition add_result (a b s : _CFBigNum) (carry : Z) : Prop :=
  length (digits s) = 5%nat /\ Forall (fun d => 0 <= d <= BIG_DIGITS_LIMIT) (digits s) /\
  (sign s = 0 \/ sign s = -1) /\ (carry = 0 \/ carry = 1) /\
  bval s + (if sign s <? 0 then - carry else carry) * 10 ^ 45 = bval a + bval b.

Lemma big_add_spec r a b :
  big_norm a -> big_norm b -> length (digits r) = 5%nat ->
  let '(s, carry) := _CFBigNumAdd r a b in
  add_result a b s carry /\ (sign a <> sign b -> big_norm s /\ carry = 0).
Proof.
  intros Ha Hb Hr. unfold _CFBigNumAdd, _CFBigNumAbsoluteLessThan.
  pose proof (norm_sign a Ha) as Hsa. pose proof (norm_sign b Hb) as Hsb.
  destruct (Z.eqb_spec (sign a) (sign b)) as [Es|Es].
  - destruct (add_columns_spec a b r Ha Hb Hr) as (r0 & r1 & r2 & r3 & r4 & c & -> & Hc & Hd & Hm & _).
    split; [|done]. unfold add_result, set_sign, bval, bmag in *. cbn [digits sign] in *.
    rewrite <- Es in *. destruct Hsa as [E|E]; rewrite E in *; simpl; split_and!; try done; try tauto; simpl in Hm; lia.
  - rewrite compare_digits_spec by done.
    set (p := if _ =? -1 then (b, a) else (a, b)).
    assert (exists big small, p = (big, small) /\ big_norm big /\ big_norm small /\ bmag small <= bmag big /\
              (if sign big <? 0 then bmag small - bmag big else bmag big - bmag small) = bval a + bval b)
      as (big & small & -> & Hbig & Hsmall & Hle & Hval).
    { unfold p, bval. destruct Hsa as [Ea|Ea], Hsb as [Eb|Eb]; try congruence; rewrite ?Ea, ?Eb;
        destruct (Z.ltb_spec (bmag a) (bmag b)); [|destruct (Z.ltb_spec (bmag b) (bmag a))| |destruct (Z.ltb_spec (bmag b) (bmag a))];
        simpl; do 2 eexists; split_and!; try done; try lia; rewrite ?Ea, ?Eb; simpl; lia. }
    destruct (sub_columns_spec big small r Hbig Hsmall Hr Hle) as (ds & -> & Hl & Hd & Hm).
    unfold set_sign. cbn [digits]. split; [|intros _; split; [split|]; try done; destruct (sign big <? 0); [by right|by left]].
    unfold add_result, bval, bmag in *. cbn [digits sign].
    split_and!; [done|apply (list.Forall_impl _ _ _ Hd); lia|destruct (sign big <? 0); [by right|by left]|by left|].
    rewrite Hm. destruct (sign big <? 0); simpl; lia.
Qed.

Lemma big_neg_spec b : big_norm b -> big_norm (_CFBigNumNeg b) /\ bval (_CFBigNumNeg b) = - bval b /\
  (bmag b <> 0 -> sign (_CFBigNumNeg b) <> sign b) /\ bmag (_CFBigNumNeg b) = bmag b.
Proof.
  intros Hb. pose proof Hb as Hb'. apply norm_inv in Hb' as (b0 & b1 & b2 & b3 & b4 & s & -> & Hs & ? & ? & ? & ? & ?).
  unfold _CFBigNumNeg, dig. cbn -[Z.eqb]. unfold bval, bmag. 
  destruct (Z.eqb_spec b0 0), (Z.eqb_spec b1 0), (Z.eqb_spec b2 0), (Z.eqb_spec b3 0), (Z.eqb_spec b4 0);
    cbn [andb negb]; destruct Hs as [-> | ->]; unfold set_sign; cbn [sign digits mag];
    change (swrap 8 (0 * 0 - 1)) with (-1); change (swrap 8 (-1 * -1 - 1)) with 0; limits; subst;
    (split_and!; [apply norm_intro; lia|simpl; lia|lia|lia]).
Qed.

(** ** Digit strings *)

(** All characters are decimal digits. *)
Definition all_digits (s : list Z) : Prop := Forall (fun c => is_digit c = true) s.

(** The number a digit string spells. *)
Definition sval (s : list Z) : Z := atol_digits s 0.

Lemma is_digit_range c : is_digit c = true <-> 48 <= c <= 57.
Proof. unfold is_digit. change (ch_0 + 9) with 57. change ch_0 with 48. lia. Qed.

Lemma atol_digits_app s : forall t acc,
  all_digits s -> atol_digits (s ++ t) acc = atol_digits t (acc * 10 ^ Z.of_nat (length s) + sval s).
Proof.
  unfold sval. induction s as [|c s IH] using rev_ind; intros t acc Hs.
  - simpl. f_equal. lia.
  - apply Forall_app in Hs as [Hs Hc]. inversion Hc as [|? ? Hc' _]; subst.
    rewrite <- (app_assoc s), !IH by done. simpl. rewrite Hc'. f_equal.
    rewrite length_app, Nat2Z.inj_add, Z.pow_add_r by lia. simpl. lia.
Qed.

Lemma atol_digits_all s acc : all_digits s -> atol_digits s acc = acc * 10 ^ Z.of_nat (length s) + sval s.
Proof. intros. rewrite <- (app_nil_r s) at 1. by rewrite atol_digits_app. Qed.

Lemma sval_app s t : all_digits s -> all_digits t -> sval (s ++ t) = sval s * 10 ^ Z.of_nat (length t) + sval t.
Proof. intros. unfold sval at 1. rewrite atol_digits_app, atol_digits_all by done. done. Qed.

Lemma sval_range s : all_digits s -> 0 <= sval s < 10 ^ Z.of_nat (length s).
Proof.
  induction s as [|c s IH] using rev_ind; intros Hs; [done|].
  apply Forall_app in Hs as [Hs Hc]. rewrite sval_app by done. inversion Hc as [|? ? Hc' _]; subst.
  apply is_digit_range in Hc'. specialize (IH Hs).
  assert (sval [c] = c - 48) as -> by (unfold sval; simpl; rewrite (proj2 (is_digit_range c)) by done; change ch_0 with 48; lia).
  rewrite length_app, Nat2Z.inj_add, Z.pow_add_r by lia. simpl. change (10 ^ 1) with 10. lia.
Qed.

Lemma sval_zeros z s : sval (replicate z ch_0 ++ s) = sval s.
Proof. induction z as [|z IH]; [done|]. rewrite <- IH. done. Qed.

Lemma all_digits_split s :
  all_digits s -> exists z t, s = replicate z ch_0 ++ t /\ all_digits t /\
    match t with [] => True | c :: _ => c <> ch_0 end.
Proof.
  induction s as [|c s IH]; intros Hs; [by exists 0%nat, []|].
  inversion Hs as [|? ? Hc Hs']; subst. destruct (Z.eq_dec c ch_0) as [->|Hne].
  - destruct (IH Hs') as (z & t & -> & Ht & Hh). exists (S z), t. auto.
  - exists 0%nat, (c :: s). auto.
Qed.

(** [atol] on a digit string that a NUL (or any other character) ends. *)
Lemma atol_spec s t :
  all_digits s -> s <> [] -> (length s <= 18)%nat -> match t with [] => True | c :: _ => is_digit c = false end ->
  atol (s ++ t) = Some (sval s).
Proof.
  intros Hs Hne Hl Ht. pose proof (sval_range s Hs) as Hr.
  assert (10 ^ Z.of_nat (length s) <= 10 ^ 18) by (apply Z.pow_le_mono_r; lia).
  assert (atol_digits (s ++ t) 0 = sval s) as Ea.
  { rewrite atol_digits_app by done. simpl. destruct t as [|c t]; simpl; [lia|]. rewrite Ht. lia. }
  destruct s as [|c s]; [done|]. inversion Hs as [|? ? Hc _]; subst. apply is_digit_range in Hc.
  unfold atol. assert (skip_spaces ((c :: s) ++ t) = c :: s ++ t) as ->.
  { simpl. unfold is_space. bool_case; done. }
  cbn [app] in Ea. rewrite Ea. change ch_minus with 45. change ch_plus with 43.
  destruct (Z.eqb_spec c 45); [lia|]. destruct (Z.eqb_spec c 43); [lia|].
  assert ((- 2 ^ 63 <=? sval (c :: s)) && (sval (c :: s) <? 2 ^ 63) = true) as ->; [|done].
  change (10 ^ 18) with 1000000000000000000 in *. change (2 ^ 63) with 9223372036854775808.
  apply andb_true_iff. rewrite Z.leb_le, Z.ltb_lt. lia.
Qed.

Lemma dec_digits_spec fuel : forall n, 0 <= n < 10 ^ Z.of_nat fuel -> (0 < fuel)%nat ->
  all_digits (dec_digits fuel n) /\ sval (dec_digits fuel n) = n /\
  (forall k, n < 10 ^ Z.of_nat k -> (0 < k)%nat -> (length (dec_digits fuel n) <= k)%nat).
Proof.
  induction fuel as [|f IH]; intros n Hn Hf; [lia|]. cbn [dec_digits].
  pose proof (Z.div_mod n 10 ltac:(lia)). pose proof (Z.mod_pos_bound n 10 ltac:(lia)).
  rewrite Nat2Z.inj_succ, Z.pow_succ_r in Hn by lia.
  assert (all_digits [ch_0 + n mod 10]) as H1.
  { repeat constructor. apply is_digit_range. change ch_0 with 48. lia. }
  assert (sval [ch_0 + n mod 10] = n mod 10) as H2.
  { apply Forall_inv in H1. unfold sval. cbn [atol_digits]. rewrite H1. lia. }
  destruct (Z.ltb_spec n 10).
  - split_and!; [done|simpl; rewrite H2; lia|]. intros k _ Hk. simpl. lia.
  - destruct (IH (n / 10)) as (Ha & Hv & Hl); [lia| |].
    { destruct f; [simpl in Hn; lia|lia]. }
    split_and!.
    + by apply Forall_app.
    + rewrite sval_app, Hv, H2 by done. simpl. change (10 ^ 1) with 10. lia.
    + intros k Hk Hk0. rewrite length_app. simpl. destruct k as [|k]; [lia|].
      rewrite Nat2Z.inj_succ, Z.pow_succ_r in Hk by lia.
      destruct k as [|k]; [simpl in Hk; lia|]. specialize (Hl (S k) ltac:(lia) ltac:(lia)). lia.
Qed.

Lemma fmt_09u_spec d :
  0 <= d < 1000000000 -> all_digits (fmt_09u d) /\ length (fmt_09u d) = 9%nat /\ sval (fmt_09u d) = d.
Proof.
  intros Hd. unfold fmt_09u, fmt_u. destruct (dec_digits_spec 10 d) as (Ha & Hv & Hl); [simpl; lia|lia|].
  specialize (Hl 9%nat ltac:(simpl; lia) ltac:(lia)). split_and!.
  - apply Forall_app. split; [|done]. by apply Forall_replicate.
  - rewrite length_app, length_replicate. lia.
  - rewrite sval_zeros. done.
Qed.

(** The 45 characters of the five digits. *)
Definition digit_chars (a : _CFBigNum) : list Z :=
  fmt_09u (dig a 4) ++ fmt_09u (dig a 3) ++ fmt_09u (dig a 2) ++ fmt_09u (dig a 1) ++ fmt_09u (dig a 0).

Lemma digit_chars_spec a :
  big_norm a -> all_digits (digit_chars a) /\ length (digit_chars a) = 45%nat /\ sval (digit_chars a) = bmag a.
Proof.
  intros Ha. apply norm_inv in Ha as (d0 & d1 & d2 & d3 & d4 & s & -> & _ & H0 & H1 & H2 & H3 & H4).
  unfold digit_chars, dig, bmag. cbn [digits mag lookup_total list_lookup_total].
  apply fmt_09u_spec in H0 as (A0 & L0 & V0), H1 as (A1 & L1 & V1), H2 as (A2 & L2 & V2),
    H3 as (A3 & L3 & V3), H4 as (A4 & L4 & V4).
  split_and!.
  - repeat (apply Forall_app; split; [done|]). done.
  - rewrite !length_app. lia.
  - rewrite !sval_app by (repeat (apply Forall_app; split; [done|]); done).
    rewrite !length_app, L0, L1, L2, L3, V0, V1, V2, V3, V4. limits. simpl.
    change (10 ^ 9) with 1000000000. change (10 ^ 18) with 1000000000000000000.
    change (10 ^ 27) with 1000000000000000000000000000.
    change (10 ^ 36) with 1000000000000000000000000000000000000. lia.
Qed.

(** ** Parsing *)

Lemma mag_insert ds k d :
  ds !! k = Some 0 -> mag (<[k := d]> ds) = mag ds + BIG_DIGITS_LIMIT ^ Z.of_nat k * d.
Proof.
  revert k. induction ds as [|e ds IH]; intros [|k] H; try done; simpl in H.
  - injection H as ->. cbn [insert list_insert mag]. lia.
  - cbn [insert list_insert mag]. rewrite IH by done. rewrite Nat2Z.inj_succ, Z.pow_succ_r by lia. lia.
Qed.

Lemma set_dig_spec r k d :
  big_norm r -> digits r !! k = Some 0 -> 0 <= d < BIG_DIGITS_LIMIT ->
  big_norm (set_dig r k d) /\ sign (set_dig r k d) = sign r /\
  bmag (set_dig r k d) = bmag r + BIG_DIGITS_LIMIT ^ Z.of_nat k * d.
Proof.
  intros [Hl Hd Hs] Hk Hdr. unfold set_dig, bmag. cbn [digits sign].
  rewrite (uwrap_mod_id 32) by (limits; lia). split_and!; [split; cbn [digits sign]|done|by apply mag_insert].
  - by rewrite length_insert.
  - by apply Forall_insert.
  - done.
Qed.

(** The digits from index [k] on are still zero. *)
Definition zeros_from (r : _CFBigNum) (k : nat) : Prop := forall i, (k <= i < 5)%nat -> digits r !! i = Some 0.

Lemma set_dig_zeros r k d : zeros_from r k -> zeros_from (set_dig r k d) (S k).
Proof. intros H i Hi. simpl. rewrite list_lookup_insert_ne by lia. apply H. lia. Qed.

Lemma drop_app_exact {A} (p s : list A) : drop (length p) (p ++ s) = s.
Proof. by rewrite drop_app_length. Qed.

(** The loop and the last digit, on a string [s] of at most [9 * (5 - k)]
    digit characters that starts at offset [length p] and ends at a NUL. *)
Lemma cut_digits_spec fuel : forall k r p s rest,
  (4 - k <= fuel)%nat -> (k <= 4)%nat -> big_norm r -> zeros_from r k -> all_digits s -> s <> [] ->
  (length s <= 9 * (5 - k))%nat ->
  exists r', (let* (r, copy, curDigit) :=
                cut_digits fuel r (p ++ s ++ 0 :: rest) (Z.of_nat (length p)) (Z.of_nat (length s)) k in
              let* digit := atol (drop (Z.to_nat (Z.of_nat (length p))) copy) in
              Some (set_dig r curDigit (uwrap 32 digit))) = Some r' /\
    big_norm r' /\ sign r' = sign r /\ bmag r' = bmag r + BIG_DIGITS_LIMIT ^ Z.of_nat k * sval s.
Proof.
  induction fuel as [|fuel IH]; intros k r p s rest Hf Hk Hr Hz Hs Hne Hl;
    pose proof (sval_range s Hs) as Hsv; cbn [cut_digits];
    destruct ((Z.of_nat k + 1 <? 5) && (9 <? Z.of_nat (length s))) eqn:Ec;
    rewrite ?andb_true_iff, ?andb_false_iff, ?Z.ltb_lt, ?Z.ltb_ge in Ec; try lia.
  1, 3: cbn [opt_bind]; rewrite Nat2Z.id, drop_app_exact, atol_spec by (done || lia); cbn [opt_bind];
    assert (sval s < BIG_DIGITS_LIMIT) by
      (assert (10 ^ Z.of_nat (length s) <= 10 ^ 9) by (apply Z.pow_le_mono_r; lia); limits; lia);
    rewrite (uwrap_mod_id 32) by (limits; lia); eexists; split; [done|];
    apply set_dig_spec; [done|apply Hz; lia|lia].
  set (n := (length s - 9)%nat). pose proof (take_drop n s) as Es.
  set (pre := take n s) in *. set (last := drop n s) in *.
  assert (all_digits pre /\ all_digits last) as [Hp Hla] by (rewrite <- Es in Hs; by apply Forall_app in Hs).
  assert (length pre = n) as Lp by (unfold pre; rewrite length_take; lia).
  assert (length last = 9%nat) as Ll by (unfold last; rewrite length_drop; lia).
  replace (Z.of_nat (length p) + Z.of_nat (length s) - 9) with (Z.of_nat (length (p ++ pre)))
    by (rewrite length_app; lia).
  replace (p ++ s ++ 0 :: rest) with ((p ++ pre) ++ last ++ 0 :: rest)
    by (rewrite <- Es, <- !app_assoc; done).
  rewrite Nat2Z.id, drop_app_exact, atol_spec; [|done|by destruct last|lia|done].
  cbn [opt_bind]. pose proof (sval_range last Hla) as Hlv. rewrite Ll in Hlv. change (10 ^ Z.of_nat 9) with BIG_DIGITS_LIMIT in Hlv.
  rewrite (uwrap_mod_id 32) by (limits; lia).
  rewrite wr_nat by (rewrite !length_app; lia). cbn [opt_bind].
  destruct last as [|c last']; [done|]. rewrite insert_app_r_alt, Nat.sub_diag by lia. cbn [app insert list_insert].
  replace (Z.of_nat (length s) - 9) with (Z.of_nat (length pre)) by lia.
  rewrite <- app_assoc.
  destruct (set_dig_spec r k (sval (c :: last')) Hr ltac:(apply Hz; lia) Hlv) as (Hr1 & Hs1 & Hm1).
  destruct (IH (S k) (set_dig r k (sval (c :: last'))) p pre (last' ++ 0 :: rest)) as (r' & -> & Hr' & Hs' & Hm');
    [lia|lia|done|by apply set_dig_zeros|done| |lia|].
  { intros E. rewrite E in Lp. simpl in Lp. lia. }
  exists r'. split_and!; [done|done|congruence|]. rewrite Hm', Hm1, <- Es, sval_app, Ll by done.
  change (10 ^ Z.of_nat 9) with BIG_DIGITS_LIMIT. rewrite Nat2Z.inj_succ, Z.pow_succ_r by lia. lia.
Qed.

Lemma skip_char_spec fuel c : forall z p t,
  (z < fuel)%nat -> match t with [] => False | x :: _ => x <> c end ->
  skip_char fuel c (p ++ replicate z c ++ t) (Z.of_nat (length p)) = Some (Z.of_nat (length p + z)).
Proof.
  induction fuel as [|fuel IH]; intros z p t Hz Ht; [lia|]. cbn [skip_char].
  rewrite rd_nat, lookup_app_r, Nat.sub_diag by lia. destruct z as [|z]; simpl.
  - destruct t as [|x t]; [done|]. simpl. destruct (Z.eqb_spec x c); [done|]. by rewrite Nat.add_0_r.
  - rewrite Z.eqb_refl. specialize (IH z (p ++ [c]) t ltac:(lia) Ht). rewrite <- app_assoc in IH. simpl in IH.
    rewrite length_app in IH. simpl in IH. rewrite Nat2Z.inj_add in IH.
    change (Z.of_nat 1) with 1 in IH. rewrite IH. f_equal. lia.
Qed.

Lemma strlen_from_spec s rest : Forall (fun c => c <> 0) s -> strlen_from (s ++ 0 :: rest) = Some (length s).
Proof.
  induction 1 as [|c s Hc Hs IH]; [done|]. simpl. destruct (Z.eqb_spec c 0); [done|]. by rewrite IH.
Qed.

Lemma digits_nonzero s : all_digits s -> Forall (fun c => c <> 0) s.
Proof. intros Hs. apply (list.Forall_impl _ _ _ Hs). intros c Hc. apply is_digit_range in Hc. lia. Qed.

Lemma big_zero_norm s : s = 0 \/ s = -1 -> big_norm (mkBig [0; 0; 0; 0; 0] s).
Proof. intros. by apply norm_intro; try lia. Qed.

(** Parsing an optional sign, zeros, and at most 45 digits. *)
Lemma from_cstring_spec p z t rest :
  p = [] \/ p = [ch_minus] \/ p = [ch_plus] -> all_digits t -> (length t <= 45)%nat ->
  match t with [] => True | c :: _ => c <> ch_0 end -> (p = [] -> (0 < z)%nat \/ t <> []) ->
  exists r, _CFBigNumFromCString (p ++ replicate z ch_0 ++ t ++ 0 :: rest) = Some r /\ big_norm r /\
    sign r = (if decide (p = [ch_minus]) then -1 else 0) /\ bmag r = sval t.
Proof.
  intros Hp Ht Hl Hh Hfirst. unfold _CFBigNumFromCString, strlen. rewrite drop_0.
  assert (Forall (fun c => c <> 0) (p ++ replicate z ch_0 ++ t)) as Hnz.
  { apply Forall_app; split; [destruct Hp as [-> |[-> | ->]]; repeat constructor; done|].
    apply Forall_app; split; [by apply Forall_replicate|by apply digits_nonzero]. }
  replace (p ++ replicate z ch_0 ++ t ++ 0 :: rest) with ((p ++ replicate z ch_0 ++ t) ++ 0 :: rest)
    by (rewrite <- !app_assoc; done).
  rewrite strlen_from_spec by done. cbn [opt_bind].
  cbv zeta. rewrite take_app_add. cbn [take]. rewrite take_0. set (copy := (p ++ replicate z ch_0 ++ t) ++ [0]).
  set (s := if decide (p = [ch_minus]) then -1 else 0).
  assert (exists c, rd copy 0 = Some c /\
    (if c =? ch_minus then (set_sign big_zero (-1), 0 + 1) else if c =? ch_plus then (big_zero, 0 + 1) else (big_zero, 0))
    = (mkBig [0; 0; 0; 0; 0] s, Z.of_nat (length p))) as (c & -> & Ec).
  { destruct Hp as [-> |[-> | ->]]; [|by eexists|by eexists].
    assert (exists c l, copy = c :: l /\ is_digit c = true) as (c & l & -> & Hc).
    { unfold copy. destruct z as [|z]; [|by do 2 eexists]. destruct t as [|c t]; [destruct (Hfirst eq_refl); by lia || done|].
      do 2 eexists. split; [done|]. by apply Forall_inv in Ht. }
    apply is_digit_range in Hc. exists c. split; [done|]. change ch_minus with 45. change ch_plus with 43. bool_case. done. }
  cbn [opt_bind]. rewrite Ec.
  assert (copy = p ++ replicate z ch_0 ++ t ++ [0]) as Ecopy by (unfold copy; by rewrite <- !app_assoc).
  rewrite Ecopy, skip_char_spec by (try (rewrite !length_app, length_replicate; lia); by destruct t).
  cbn [opt_bind]. rewrite Nat2Z.id.
  assert (p ++ replicate z ch_0 ++ t ++ [0] = (p ++ replicate z ch_0) ++ t ++ [0]) as Ep by by rewrite <- app_assoc.
  assert (length p + z = length (p ++ replicate z ch_0))%nat as Elen by (rewrite length_app, length_replicate; done).
  rewrite Ep, Elen, drop_app_exact, strlen_from_spec by by apply digits_nonzero. cbn [opt_bind].
  assert (big_norm (mkBig [0; 0; 0; 0; 0] s)) as Hzn by (apply big_zero_norm; unfold s; case_decide; auto).
  destruct (Nat.eqb_spec (length t) 0) as [E0|E0].
  { destruct t; [|done]. eexists. split_and!; done. }
  destruct (cut_digits_spec 4 0 (mkBig [0; 0; 0; 0; 0] s) (p ++ replicate z ch_0) t []) as (r & E & Hr & Hs & Hm); try done; try lia.
  { intros [|[|[|[|[|]]]]] Hi; done || lia. }
  { by destruct t. }
  rewrite Nat2Z.id in E. exists r. split_and!; [exact E|done|done|]. rewrite Hm. unfold bmag. cbn [digits mag]. limits. lia.
Qed.

(** ** Printing *)

Lemma strlcpy_spec pre x w :
  Forall (fun c => c <> 0) w -> (length w < length x)%nat ->
  strlcpy (pre ++ x) (Z.of_nat (length pre)) (w ++ [0]) (Z.of_nat (length x)) =
  Some (pre ++ w ++ 0 :: drop (S (length w)) x).
Proof.
  intros Hw Hl. unfold strlcpy. rewrite strlen_from_spec by done. cbn [opt_bind].
  destruct (Z.eqb_spec (Z.of_nat (length x)) 0); [lia|]. rewrite Z.min_l by lia.
  rewrite memmove_ok by (rewrite ?length_app; lia). cbn [opt_bind]. change (Z.to_nat 0) with 0%nat.
  rewrite drop_0, <- Nat2Z.inj_add, !Nat2Z.id, take_app_length, take_app_length, drop_app_add.
  rewrite app_assoc, <- length_app. rewrite wr_nat by (rewrite !length_app, length_drop; lia).
  f_equal. rewrite insert_app_r_alt, Nat.sub_diag, <- app_assoc by lia. do 2 f_equal.
  destruct (drop (length w) x) as [|y x'] eqn:E.
  - apply (f_equal length) in E. rewrite length_drop in E. simpl in E. lia.
  - cbn. f_equal. replace (S (length w)) with (length w + 1)%nat by lia. rewrite <- drop_drop, E. done.
Qed.

Lemma to_cstring_spec a leading_plus buffer :
  big_norm a -> (47 <= length buffer)%nat -> Z.of_nat (length buffer) < 2 ^ 64 ->
  exists p z t rest,
    _CFBigNumToCString a false leading_plus buffer (Z.of_nat (length buffer)) =
      Some (p ++ replicate z ch_0 ++ t ++ 0 :: rest) /\
    p = (if sign a <? 0 then [ch_minus] else if leading_plus then [ch_plus] else []) /\
    all_digits t /\ (length t <= 45)%nat /\ match t with [] => True | c :: _ => c <> ch_0 end /\
    sval t = bmag a /\ z = (if bmag a =? 0 then 1%nat else 0%nat).
Proof.
  intros Ha Hb Hb64. destruct (digit_chars_spec a Ha) as (Hd & Hl & Hv).
  destruct (all_digits_split _ Hd) as (z & t & Ez & Ht & Hh).
  assert (z + length t = 45)%nat as Hzt by (rewrite Ez, length_app, length_replicate in Hl; lia).
  assert (sval t = bmag a) as Hvt by (rewrite <- Hv, Ez, sval_zeros; done).
  set (w := match t with [] => [ch_0] | _ => t end).
  set (z' := if bmag a =? 0 then 1%nat else 0%nat).
  assert (w = replicate z' ch_0 ++ t) as Ew.
  { unfold w, z'. rewrite <- Hvt. destruct t as [|c t]; [done|].
    inversion Ht as [|? ? Hc Ht']; subst. pose proof (sval_range t Ht'). apply is_digit_range in Hc.
    assert (sval (c :: t) = (c - 48) * 10 ^ Z.of_nat (length t) + sval t) as ->.
    { change (c :: t) with ([c] ++ t). rewrite sval_app by (done || (repeat constructor; by apply is_digit_range)).
      unfold sval at 1. cbn [atol_digits]. rewrite (proj2 (is_digit_range c)) by done. change ch_0 with 48. lia. }
    change ch_0 with 48 in Hh. destruct (Z.eqb_spec ((c - 48) * 10 ^ Z.of_nat (length t) + sval t) 0); [nia|done]. }
  assert (Forall (fun c => c <> 0) w) as Hw.
  { rewrite Ew. apply Forall_app. split; [by apply Forall_replicate|by apply digits_nonzero]. }
  assert (length w <= 45)%nat by (unfold w; destruct t; simpl in *; lia).
  assert (forall off pre x, Z.of_nat (length pre) = off -> (45 < length x)%nat ->
    (let* s := skip_char 46 ch_0 (digit_chars a ++ [0]) 0 in
     let* c := rd (digit_chars a ++ [0]) s in
     strlcpy (pre ++ x) off (drop (Z.to_nat (if c =? 0 then s - 1 else s)) (digit_chars a ++ [0])) (Z.of_nat (length x)))
    = Some (pre ++ replicate z' ch_0 ++ t ++ 0 :: drop (S (length w)) x)) as Hcopy.
  { intros off pre x <- Hx. rewrite Ez, <- app_assoc.
    assert (match t ++ [0] with [] => False | c :: _ => c <> ch_0 end) as Hh' by by destruct t.
    pose proof (skip_char_spec 46 ch_0 z [] (t ++ [0]) ltac:(lia) Hh') as Esk. cbn [app length Nat.add] in Esk.
    change (Z.of_nat 0) with 0 in Esk. rewrite Esk. cbn [opt_bind].
    rewrite rd_nat, lookup_app_r, length_replicate, Nat.sub_diag by (rewrite length_replicate; lia).
    assert (exists c, (t ++ [0]) !! 0%nat = Some c /\
      drop (Z.to_nat (if c =? 0 then Z.of_nat z - 1 else Z.of_nat z)) (replicate z ch_0 ++ t ++ [0]) = w ++ [0])
      as (c & -> & Ed).
    { destruct t as [|c t]; eexists; (split; [reflexivity|]).
      - assert (z = 45)%nat as -> by (simpl in Hzt; lia). reflexivity.
      - inversion Ht as [|? ? Hc _]; subst. apply is_digit_range in Hc. destruct (Z.eqb_spec c 0); [lia|].
        rewrite Nat2Z.id, drop_app_length' by (by rewrite length_replicate). done. }
    cbn [opt_bind]. rewrite Ed, strlcpy_spec by (done || lia). rewrite Ew, <- app_assoc. done. }
  unfold _CFBigNumToCString, snprintf. change (fmt_09u (dig a 4) ++ _) with (digit_chars a).
  rewrite take_ge by lia. destruct buffer as [|b0 buf]; [simpl in Hb; lia|].
  cbn [length] in Hb, Hb64. rewrite Nat2Z.inj_succ in *.
  assert (forall c, wr (b0 :: buf) 0 c = Some (c :: buf)) as Hwr.
  { intros c. by rewrite (wr_nat (b0 :: buf) 0) by (simpl; lia). }
  rewrite !Hwr. cbn [opt_bind].
  assert (uwrap 64 (Z.of_nat (length (b0 :: buf)) - 1) = Z.of_nat (length buf)) as ->.
  { cbn [length]. rewrite Nat2Z.inj_succ, uwrap_mod_id by lia. lia. }
  destruct (sign a <? 0); [|destruct leading_plus]; cbn [opt_bind].
  - exists [ch_minus], z', t, (drop (S (length w)) buf). split_and!; try done; [|lia]. apply (Hcopy 1 [ch_minus] buf); done || lia.
  - exists [ch_plus], z', t, (drop (S (length w)) buf). split_and!; try done; [|lia]. apply (Hcopy 1 [ch_plus] buf); done || lia.
  - exists [], z', t, (drop (S (length w)) (b0 :: buf)). split_and!; try done; [|lia].
    apply (Hcopy 0 [] (b0 :: buf)); done || (simpl; lia).
Qed.

(** A normalised number is determined by its magnitude and sign. *)
Lemma norm_inj a b : big_norm a -> big_norm b -> bmag a = bmag b -> sign a = sign b -> a = b.
Proof.
  intros Ha Hb. apply norm_inv in Ha as (a0 & a1 & a2 & a3 & a4 & sa & -> & _ & ? & ? & ? & ? & ?).
  apply norm_inv in Hb as (b0 & b1 & b2 & b3 & b4 & sb & -> & _ & ? & ? & ? & ? & ?).
  unfold bmag. cbn [digits mag sign]. limits. intros E ->.
  assert (a0 = b0) as -> by lia. assert (a1 = b1) as -> by lia. assert (a2 = b2) as -> by lia.
  assert (a3 = b3) as -> by lia. assert (a4 = b4) as -> by lia. done.
Qed.

(** ** Numbers as bytes *)

Lemma length_store_le v n : length (store_le v n) = n.
Proof. revert v. induction n as [|n IH]; intros v; simpl; [done|]. by rewrite IH. Qed.

Lemma load_store p v n rest :
  load_le (p ++ store_le v n ++ rest) (Z.of_nat (length p)) n = Some (v mod 256 ^ Z.of_nat n).
Proof.
  revert p v. induction n as [|n IH]; intros p v; [by rewrite Z.mod_1_r|].
  cbn [load_le store_le]. rewrite rd_nat, lookup_app_r, Nat.sub_diag by lia. cbn [app lookup list_lookup opt_bind].
  replace (Z.of_nat (length p) + 1) with (Z.of_nat (length (p ++ [v mod 256]))) by (rewrite length_app; simpl; lia).
  replace (p ++ v mod 256 :: store_le (v / 256) n ++ rest) with ((p ++ [v mod 256]) ++ store_le (v / 256) n ++ rest)
    by (rewrite <- app_assoc; done).
  rewrite IH. cbn [opt_bind]. f_equal. rewrite Nat2Z.inj_succ, Z.pow_succ_r by lia.
  rewrite Z.rem_mul_r by lia. done.
Qed.

Lemma swrap_mod w x : 0 < w -> swrap w (x mod 2 ^ w) = swrap w x.
Proof. intros. unfold swrap. f_equal. apply Zplus_mod_idemp_l. Qed.

Lemma load_signed_store w v :
  is_width w -> load_signed w (store_le v (Z.to_nat (w / 8))) = Some (swrap w v).
Proof.
  intros Hw. unfold load_signed.
  pose proof (load_store [] v (Z.to_nat (w / 8)) []) as E. rewrite app_nil_r in E. cbn [app length] in E.
  change (Z.of_nat 0) with 0 in E. rewrite E. cbn [opt_bind]. f_equal. rewrite <- (swrap_mod w v) by (unfold is_width in Hw; lia).
  f_equal. f_equal. destruct Hw as [-> |[-> |[-> |[-> | ->]]]]; done.
Qed.

Lemma store_le_add v m n : store_le v (m + n) = store_le v m ++ store_le (v / 256 ^ Z.of_nat m) n.
Proof.
  revert v. induction m as [|m IH]; intros v; [by rewrite Z.div_1_r|]. cbn [store_le Nat.add app]. f_equal.
  rewrite IH. do 2 f_equal. rewrite Nat2Z.inj_succ, Z.pow_succ_r, Z.div_div by lia. done.
Qed.

(** A 128-bit integer stored as such and read as a [CFSInt128Struct] has its
    words exchanged. *)
Lemma load_128_store v :
  load_128 (store_le v 16) = Some {| high := swrap 64 v; low := (v / 2 ^ 64) mod 2 ^ 64 |}.
Proof.
  unfold load_128. assert (store_le v 16 = store_le v 8 ++ store_le (v / 256 ^ Z.of_nat 8) 8) as ->
    by apply (store_le_add v 8 8).
  pose proof (load_store [] v 8 (store_le (v / 256 ^ Z.of_nat 8) 8)) as E1. cbn [app length] in E1.
  change (Z.of_nat 0) with 0 in E1. rewrite E1. cbn [opt_bind].
  pose proof (load_store (store_le v 8) (v / 256 ^ Z.of_nat 8) 8 []) as E2. rewrite app_nil_r, length_store_le in E2.
  change (Z.of_nat 8) with 8 in E2. change (Z.of_nat 8) with 8. rewrite E2. cbn [opt_bind].
  change (256 ^ 8) with (2 ^ 64). by rewrite swrap_mod.
Qed.

Lemma within_limits_spec a mx mn :
  big_canonical a -> big_canonical mx -> big_canonical mn ->
  within_limits a mx mn = (bval a <=? bval mx) && (bval mn <=? bval a).
Proof.
  intros Ha Hx Hn. unfold within_limits. rewrite !big_compare_spec by done.
  destruct (Z.compare_spec (bval a) (bval mx)), (Z.compare_spec (bval a) (bval mn)); simpl; bool_case; done.
Qed.

Lemma abs_bval a : big_norm a -> Z.abs (bval a) = bmag a.
Proof. intros H. pose proof (bmag_nonneg a H). unfold bval. destruct (sign a <? 0); lia. Qed.

Lemma zero_above a k :
  big_norm a -> (k < 5)%nat ->
  forallb (fun i => 0 =? dig a i) (rev (seq k (5 - k))) = (bmag a <? BIG_DIGITS_LIMIT ^ Z.of_nat k).
Proof.
  intros Ha Hk. apply norm_inv in Ha as (d0 & d1 & d2 & d3 & d4 & s & -> & _ & ? & ? & ? & ? & ?).
  unfold bmag, dig. cbn [digits mag]. limits.
  destruct k as [|[|[|[|[|]]]]]; [| | | | |lia]; cbn -[Z.eqb Z.ltb Z.pow];
    [change (1000000000 ^ 0) with 1|change (1000000000 ^ 1) with 1000000000|change (1000000000 ^ 2) with 1000000000000000000
    |change (1000000000 ^ 3) with 1000000000000000000000000000|change (1000000000 ^ 4) with 1000000000000000000000000000000000000];
    bool_case; done.
Qed.

(** The width the narrowing tests select for the value [v]. *)
Definition number_width (v : Z) : Z :=
  if Z.abs v <=? INT8_MAX then 8 else if Z.abs v <=? INT16_MAX then 16
  else if (INT32_MIN <=? v) && (v <=? INT32_MAX) then 32
  else if (INT64_MIN <=? v) && (v <=? INT64_MAX) then 64 else 128.

Definition type_of_width (w : Z) : Z :=
  if w =? 8 then kCFNumberSInt8Type else if w =? 16 then kCFNumberSInt16Type
  else if w =? 32 then kCFNumberSInt32Type else if w =? 64 then kCFNumberSInt64Type else kCFNumberSInt128Type.

Lemma limits_canonical w : w = 32 \/ w = 64 \/ w = 128 ->
  big_canonical (init_with_signed w (2 ^ (w - 1) - 1)) /\ bval (init_with_signed w (2 ^ (w - 1) - 1)) = 2 ^ (w - 1) - 1 /\
  big_canonical (init_with_signed w (- 2 ^ (w - 1))) /\ bval (init_with_signed w (- 2 ^ (w - 1))) = - 2 ^ (w - 1).
Proof.
  intros Hw. assert (is_width w) by (unfold is_width; tauto). pose proof (Z.pow_pos_nonneg 2 (w - 1)).
  destruct (init_signed_spec w (2 ^ (w - 1) - 1)) as [? ?]; [done|unfold in_signed; lia|].
  destruct (init_signed_spec w (- 2 ^ (w - 1))) as [? ?]; [done|unfold in_signed; lia|]. auto.
Qed.

Ltac narrow_constants :=
  change (BIG_DIGITS_LIMIT ^ Z.of_nat 1) with 1000000000; change (BIG_DIGITS_LIMIT ^ Z.of_nat 2) with 1000000000000000000;
  change (BIG_DIGITS_LIMIT ^ Z.of_nat 3) with 1000000000000000000000000000; limits;
  change (2 ^ (32 - 1)) with 2147483648; change (2 ^ (64 - 1)) with 9223372036854775808;
  change (2 ^ (128 - 1)) with 170141183460469231731687303715884105728;
  change INT128_MIN with (-170141183460469231731687303715884105728);
  change INT128_MAX with 170141183460469231731687303715884105727;
  change INT64_MIN with (-9223372036854775808); change INT64_MAX with 9223372036854775807;
  change INT32_MIN with (-2147483648); change INT32_MAX with 2147483647;
  change INT16_MAX with 32767; change INT8_MAX with 127.

Lemma create_spec_big a :
  big_canonical a ->
  _CFNumberCreateWithBigNum a =
    if (INT128_MIN <=? bval a) && (bval a <=? INT128_MAX)
    then let w := number_width (bval a) in
         Some (type_of_width w, store_le (get_signed w a) (Z.to_nat (w / 8)))
    else None.
Proof.
  intros Ha. pose proof (proj1 Ha) as Hn. pose proof (abs_bval a Hn) as Habs.
  assert (forall b3 b2 b1, (0 =? dig a 4) && b3 && b2 && b1 = (0 =? dig a 4) && (b3 && (b2 && (b1 && true)))) as Hassoc
    by (intros [] [] []; by destruct (0 =? dig a 4)).
  pose proof (zero_above a 1 Hn ltac:(lia)) as Z1. pose proof (zero_above a 2 Hn ltac:(lia)) as Z2.
  pose proof (zero_above a 3 Hn ltac:(lia)) as Z3. cbn [seq rev app forallb Nat.sub] in Z1, Z2, Z3.
  rewrite <- Hassoc in Z1.
  assert ((0 =? dig a 4) && (0 =? dig a 3) && (0 =? dig a 2) = (bmag a <? BIG_DIGITS_LIMIT ^ Z.of_nat 2)) as Z2'
    by (rewrite <- Z2; by destruct (0 =? dig a 4), (0 =? dig a 3), (0 =? dig a 2)).
  assert ((0 =? dig a 4) && (0 =? dig a 3) = (bmag a <? BIG_DIGITS_LIMIT ^ Z.of_nat 3)) as Z3'
    by (rewrite <- Z3; by destruct (0 =? dig a 4), (0 =? dig a 3)).
  unfold _CFNumberCreateWithBigNum. cbv zeta. rewrite Z1, Z2', Z3'. clear Z1 Z2 Z3 Z2' Z3' Hassoc.
  change (_CFBigNumInitWithInt32 INT32_MAX) with (init_with_signed 32 (2 ^ (32 - 1) - 1)).
  change (_CFBigNumInitWithInt32 INT32_MIN) with (init_with_signed 32 (- 2 ^ (32 - 1))).
  change (_CFBigNumInitWithInt64 INT64_MAX) with (init_with_signed 64 (2 ^ (64 - 1) - 1)).
  change (_CFBigNumInitWithInt64 INT64_MIN) with (init_with_signed 64 (- 2 ^ (64 - 1))).
  change (_CFBigNumInitWithInt128 INT128_MAX) with (init_with_signed 128 (2 ^ (128 - 1) - 1)).
  change (_CFBigNumInitWithInt128 INT128_MIN) with (init_with_signed 128 (- 2 ^ (128 - 1))).
  destruct (limits_canonical 32) as (? & E1 & ? & E2); [auto|].
  destruct (limits_canonical 64) as (? & E3 & ? & E4); [auto|].
  destruct (limits_canonical 128) as (? & E5 & ? & E6); [auto|].
  rewrite !within_limits_spec, E1, E2, E3, E4, E5, E6 by done.
  assert (bmag a < BIG_DIGITS_LIMIT -> dig a 0 = bmag a) as Hd0.
  { apply norm_inv in Hn as (d0 & d1 & d2 & d3 & d4 & s & -> & _ & ? & ? & ? & ? & ?).
    unfold bmag, dig. cbn [digits mag lookup_total list_lookup_total]. limits. lia. }
  unfold number_width. rewrite Habs. narrow_constants.
  destruct (Z.ltb_spec (bmag a) 1000000000).
  - rewrite Hd0 by done. bool_case; reflexivity.
  - bool_case; reflexivity.
Qed.

(** ** Properties *)

(** Canonical form by evaluation. *)
Definition big_check (a : _CFBigNum) : bool :=
  (length (digits a) =? 5)%nat && forallb (fun d => (0 <=? d) && (d <? BIG_DIGITS_LIMIT)) (digits a) &&
  ((sign a =? 0) || ((sign a =? -1) && negb (bmag a =? 0))).

Lemma big_check_ok a : big_check a = true -> big_canonical a.
Proof.
  unfold big_check. rewrite !andb_true_iff, orb_true_iff, andb_true_iff, negb_true_iff, Nat.eqb_eq, !Z.eqb_eq, Z.eqb_neq.
  intros [[Hl Hd] Hs]. split; [split; [done| |tauto]|lia]. apply list.Forall_forall. intros d Hin.
  rewrite forallb_forall in Hd. apply list_elem_of_In, Hd in Hin. lia.
Qed.

Lemma get_init_signed w x :
  is_width w -> in_signed w x -> get_signed w (init_with_signed w x) = x.
Proof.
  intros Hw Hx. destruct (init_signed_spec w x Hw Hx) as [[Hn _] Hv].
  rewrite get_signed_spec, Hv, swrap_id; try done; [unfold is_width in Hw; lia|].
  unfold fits_digits. rewrite Hv. unfold in_signed in Hx. destruct Hw as [-> |[-> |[-> |[-> | ->]]]]; simpl in *; lia.
Qed.

Lemma get_init_unsigned w x :
  is_width w -> in_unsigned w x -> get_unsigned w (init_with_unsigned w x) = x.
Proof.
  intros Hw Hx. destruct (init_unsigned_spec w x Hw Hx) as [[Hn Hz] Hv]. unfold in_unsigned in Hx.
  rewrite get_unsigned_spec, Hv, uwrap_id; try done.
  - unfold fits_digits. rewrite Hv. destruct Hw as [-> |[-> |[-> |[-> | ->]]]]; simpl in *; lia.
  - pose proof (bmag_nonneg _ Hn). destruct (norm_sign _ Hn) as [E|E]; [done|].
    apply Hz. unfold bval in Hv. rewrite E in Hv. simpl in Hv. lia.
Qed.

(** For each of the five widths, initialising from a signed or unsigned
    machine integer gives a canonical number with exactly that value, the most
    negative value included, and the getter of the same width reads it back. *)
Lemma CFBigNum_init_get_roundtrip (w x : Z) :
  is_width w ->
  (in_signed w x ->
     big_canonical (init_with_signed w x) /\ bval (init_with_signed w x) = x /\
     get_signed w (init_with_signed w x) = x) /\
  (in_unsigned w x ->
     big_canonical (init_with_unsigned w x) /\ bval (init_with_unsigned w x) = x /\
     get_unsigned w (init_with_unsigned w x) = x).
Proof.
  intros Hw. split; intros Hx.
  - destruct (init_signed_spec w x Hw Hx). auto using get_init_signed.
  - destruct (init_unsigned_spec w x Hw Hx). auto using get_init_unsigned.
Qed.

Lemma CFBigNum_init_get_roundtrip_witness :
  _CFBigNumGetInt64 (_CFBigNumInitWithInt64 INT64_MIN) = INT64_MIN.
Proof.
  destruct (CFBigNum_init_get_roundtrip 64 INT64_MIN) as [H _]; [unfold is_width; lia|].
  apply H. unfold in_signed. vm_compute. split; [discriminate|reflexivity].
Defined.

(** On canonical numbers [_CFBigNumCompare] is the order of the values. *)
Lemma CFBigNumCompare_is_numeric_order (a b : _CFBigNum) :
  big_canonical a -> big_canonical b ->
  _CFBigNumCompare a b = to_comparison (bval a ?= bval b).
Proof. apply big_compare_spec. Qed.

Lemma CFBigNumCompare_is_numeric_order_witness :
  _CFBigNumCompare (_CFBigNumInitWithInt64 (-5000000000)) (_CFBigNumInitWithInt32 7) = kCFCompareLessThan.
Proof.
  rewrite CFBigNumCompare_is_numeric_order; [reflexivity| |];
    (apply big_check_ok; vm_compute; reflexivity).
Defined.

(** C28: addition and subtraction of normalised numbers are exact: the five
    result digits together with the returned carry, which stands for 10^45
    with the sign of the result, have the sum or the difference as value; when
    the operand signs differ the result is normalised and there is no carry. *)
Theorem CFBigNumAddSub_exact (r a b : _CFBigNum) :
  big_norm a -> big_norm b -> length (digits r) = 5%nat ->
  (let '(s, carry) := _CFBigNumAdd r a b in
   add_result a b s carry /\ (sign a <> sign b -> big_norm s /\ carry = 0)) /\
  (let '(s, carry) := _CFBigNumSub r a b in
   bval s + (if sign s <? 0 then - carry else carry) * 10 ^ 45 = bval a - bval b).
Proof.
  intros Ha Hb Hr. split; [by apply big_add_spec|]. destruct (big_neg_spec b Hb) as (Hnb & Hv & _ & _).
  unfold _CFBigNumSub. pose proof (big_add_spec r a (_CFBigNumNeg b) Ha Hnb Hr) as H.
  destruct (_CFBigNumAdd _ _ _) as [s carry]. destruct H as [(_ & _ & _ & _ & H) _]. lia.
Qed.

Lemma CFBigNumAddSub_exact_witness :
  let a := _CFBigNumInitWithInt64 7000000000 in let b := _CFBigNumInitWithInt32 (-2147483648) in
  bval (fst (_CFBigNumAdd big_zero a b)) = 4852516352 /\ bval (fst (_CFBigNumSub big_zero a b)) = 9147483648.
Proof.
  intros a b. destruct (CFBigNumAddSub_exact big_zero a b) as [H1 H2].
  - apply big_check_ok. vm_compute. reflexivity.
  - apply big_check_ok. vm_compute. reflexivity.
  - reflexivity.
  - split; vm_compute; reflexivity.
Defined.

(** Two ways in which [_CFBigNumAdd] leaves the canonical form.  When the
    lowest digits of two numbers of equal sign sum to exactly 10^9 the test
    [result > BIG_DIGITS_LIMIT] does not carry: the sum has the digit 10^9 and
    [_CFBigNumCompare] finds it different from every normalised number, the
    one with the same value included.  And a negative number plus its negation
    is a zero with sign -1, which compares less than zero. *)
Lemma CFBigNumAdd_leaves_canonical_form (r a b : _CFBigNum) :
  big_norm a -> big_norm b -> length (digits r) = 5%nat ->
  (sign a = sign b -> dig a 0 + dig b 0 = BIG_DIGITS_LIMIT ->
     dig (fst (_CFBigNumAdd r a b)) 0 = BIG_DIGITS_LIMIT /\
     forall c, big_norm c -> _CFBigNumCompare (fst (_CFBigNumAdd r a b)) c <> kCFCompareEqualTo) /\
  (bval a < 0 ->
     let s := fst (_CFBigNumAdd r a (_CFBigNumNeg a)) in
     bval s = 0 /\ _CFBigNumCompare s big_zero = kCFCompareLessThan).
Proof.
  intros Ha Hb Hr. split.
  - intros Hs Hd. unfold _CFBigNumAdd. rewrite Hs, Z.eqb_refl.
    destruct (add_columns_spec a b r Ha Hb Hr) as (r0 & r1 & r2 & r3 & r4 & c & -> & _ & _ & _ & H0).
    apply H0 in Hd. subst r0. cbn [fst]. split; [done|]. intros n Hn.
    apply norm_inv in Hn as (d0 & d1 & d2 & d3 & d4 & sn & -> & _ & ? & _).
    unfold _CFBigNumCompare, set_sign, compare_digits, dig. cbn -[Z.ltb Z.eqb swrap BIG_DIGITS_LIMIT]. limits.
    bool_case; try done; try lia; by destruct (_ <? 0).
  - intros Hneg. pose proof (bmag_nonneg a Ha). destruct (big_neg_spec a Ha) as (Hna & Hv & Hsg & Hm).
    assert (sign a = -1) as Hsa by (destruct (norm_sign a Ha) as [E|E]; [|done]; unfold bval in Hneg; rewrite E in Hneg; simpl in Hneg; lia).
    assert (bmag a <> 0) as Hnz by (unfold bval in Hneg; rewrite Hsa in Hneg; simpl in Hneg; lia).
    pose proof (big_add_spec r a (_CFBigNumNeg a) Ha Hna Hr) as H1. unfold _CFBigNumAdd in *.
    destruct (Z.eqb_spec (sign a) (sign (_CFBigNumNeg a))) as [E|_]; [by apply Hsg in Hnz|].
    unfold _CFBigNumAbsoluteLessThan in *. rewrite compare_digits_spec, Hm, Z.ltb_irrefl in * by done.
    change (0 =? -1) with false in *. cbv iota beta in *.
    destruct (sub_columns_spec a (_CFBigNumNeg a) r Ha Hna Hr ltac:(lia)) as (ds & -> & Hl & Hds & Hmag).
    cbn [fst]. rewrite Hsa in *. change (-1 <? 0) with true in *. split; [|reflexivity].
    unfold bval, bmag, set_sign in *. cbn [sign digits]. change (swrap 8 (-1) <? 0) with true. cbv iota. lia.
Qed.

Lemma CFBigNumAdd_leaves_canonical_form_witness :
  let a := _CFBigNumInitWithInt32 999999999 in let b := _CFBigNumInitWithInt32 1 in
  _CFBigNumCompare (fst (_CFBigNumAdd big_zero a b)) (_CFBigNumInitWithInt32 1000000000) <> kCFCompareEqualTo /\
  let n := _CFBigNumInitWithInt32 (-5) in
  _CFBigNumCompare (fst (_CFBigNumAdd big_zero n (_CFBigNumNeg n))) big_zero = kCFCompareLessThan.
Proof.
  intros a b. split.
  - apply (CFBigNumAdd_leaves_canonical_form big_zero a b); try reflexivity;
      (apply big_check_ok; vm_compute; reflexivity).
  - intros n. apply (CFBigNumAdd_leaves_canonical_form big_zero n n); try reflexivity;
      (apply big_check_ok; vm_compute; reflexivity).
Defined.

(** C29: printing and parsing are inverse: for every canonical number and any
    buffer of at least 47 bytes, without leading zeros and with or without a leading
    plus, the string
    [_CFBigNumToCString] writes is parsed back by [_CFBigNumFromCString] to the
    same number. *)
Theorem CFBigNum_string_roundtrip (a : _CFBigNum) (leading_plus : bool) (buffer : list Z) :
  big_canonical a -> (47 <= length buffer)%nat -> Z.of_nat (length buffer) < 2 ^ 64 ->
  exists out, _CFBigNumToCString a false leading_plus buffer (Z.of_nat (length buffer)) = Some out /\
    _CFBigNumFromCString out = Some a.
Proof.
  intros [Ha Hz] Hb Hb64.
  destruct (to_cstring_spec a leading_plus buffer Ha Hb Hb64) as (p & z & t & rest & -> & Hp & Ht & Hl & Hh & Hv & Ez).
  eexists. split; [done|].
  destruct (from_cstring_spec p z t rest) as (r & -> & Hr & Hs & Hm); try done.
  - rewrite Hp. destruct (sign a <? 0), leading_plus; auto.
  - intros _. rewrite Ez. destruct (Z.eqb_spec (bmag a) 0) as [E|E]; [left; lia|right].
    intros ->. by rewrite <- Hv in E.
  - f_equal. apply norm_inj; try done; [congruence|]. rewrite Hs, Hp.
    destruct (norm_sign a Ha) as [-> | ->]; simpl; [by destruct leading_plus|done].
Qed.

Lemma CFBigNum_string_roundtrip_witness :
  exists out, _CFBigNumToCString (_CFBigNumInitWithInt64 (-12000000034)) false false (replicate 64 7) 64 = Some out /\
    _CFBigNumFromCString out = Some (_CFBigNumInitWithInt64 (-12000000034)).
Proof.
  apply (CFBigNum_string_roundtrip (_CFBigNumInitWithInt64 (-12000000034)) false (replicate 64 7)).
  - apply big_check_ok. vm_compute. reflexivity.
  - rewrite length_replicate. lia.
  - rewrite length_replicate. vm_compute. reflexivity.
Defined.

Lemma number_width_cases v :
  INT64_MIN <= v <= INT64_MAX ->
  let w := number_width v in (w = 8 \/ w = 16 \/ w = 32 \/ w = 64) /\ in_signed w v.
Proof.
  unfold number_width, in_signed. change INT64_MIN with (-9223372036854775808). change INT64_MAX with 9223372036854775807.
  change INT32_MIN with (-2147483648). change INT32_MAX with 2147483647. change INT16_MAX with 32767. change INT8_MAX with 127.
  intros Hv. bool_case; simpl; lia.
Qed.

Lemma init_bytes_spec r w v :
  w = 8 \/ w = 16 \/ w = 32 \/ w = 64 ->
  _CFBigNumInitWithBytes r (store_le v (Z.to_nat (w / 8))) (type_of_width w) = Some (init_with_signed w (swrap w v)).
Proof.
  intros Hw. assert (is_width w) as Hw' by (unfold is_width; tauto). pose proof (load_signed_store w v Hw') as E.
  destruct Hw as [-> |[-> |[-> | ->]]]; unfold _CFBigNumInitWithBytes; cbn -[load_signed store_le] in *; by rewrite E.
Qed.

(** A canonical number is what initialising from its value gives. *)
Lemma init_of_value w a : is_width w -> big_canonical a -> in_signed w (bval a) -> init_with_signed w (bval a) = a.
Proof.
  intros Hw [Ha Hz] Hin. destruct (init_signed_spec w (bval a) Hw Hin) as [[Hn Hz'] Hv].
  pose proof (abs_bval _ Ha). pose proof (abs_bval _ Hn).
  apply norm_inj; [done|done|congruence|]. assert (bmag (init_with_signed w (bval a)) = bmag a) as Em by congruence.
  unfold bval in Hv at 1. pose proof (bmag_nonneg a Ha).
  destruct (norm_sign a Ha) as [Ea|Ea], (norm_sign _ Hn) as [Eb|Eb]; rewrite ?Ea, ?Eb in *; try done;
    unfold bval in *; rewrite ?Ea, ?Eb, ?Em in *; simpl in *; lia.
Qed.

(** A canonical number whose value fits in 64 bits becomes a [CFNumber] of
    the width the narrowing tests choose (8 or 16 bits by magnitude, so that
    -128 and -32768 move up, then 32, then 64), and reading the number's bytes
    back gives the same big number; outside the 128-bit range the result is
    NULL. *)
Lemma CFNumberCreateWithBigNum_roundtrip (a r : _CFBigNum) :
  big_canonical a ->
  (INT64_MIN <= bval a <= INT64_MAX ->
     exists bytes, _CFNumberCreateWithBigNum a = Some (type_of_width (number_width (bval a)), bytes) /\
       Z.of_nat (length bytes) = number_width (bval a) / 8 /\
       _CFBigNumInitWithBytes r bytes (type_of_width (number_width (bval a))) = Some a) /\
  (bval a < INT128_MIN \/ INT128_MAX < bval a -> _CFNumberCreateWithBigNum a = None).
Proof.
  intros Ha. rewrite create_spec_big by done. split.
  - intros Hv. destruct (number_width_cases _ Hv) as [Hw Hin]. cbv zeta in *. set (w := number_width (bval a)) in *.
    assert (is_width w) as Hw' by (unfold is_width; tauto).
    assert ((INT128_MIN <=? bval a) && (bval a <=? INT128_MAX) = true) as ->.
    { change INT64_MIN with (-9223372036854775808) in Hv. change INT64_MAX with 9223372036854775807 in Hv.
      change INT128_MIN with (-170141183460469231731687303715884105728).
      change INT128_MAX with 170141183460469231731687303715884105727. bool_case; done. }
    exists (store_le (get_signed w a) (Z.to_nat (w / 8))).
    split_and!; [done|rewrite length_store_le; unfold is_width in Hw'; Z.to_euclidean_division_equations; lia|].
    rewrite init_bytes_spec by done. f_equal. rewrite <- (init_of_value w a Hw' Ha Hin) at 1.
    rewrite get_init_signed, swrap_id; [by apply init_of_value|unfold is_width in Hw'; lia|done..].
  - intros Hv. destruct (_ && _) eqn:E; [|done]. apply andb_true_iff in E as [E1 E2].
    apply Z.leb_le in E1. apply Z.leb_le in E2. lia.
Qed.

Lemma CFNumberCreateWithBigNum_roundtrip_witness :
  exists bytes, _CFNumberCreateWithBigNum (_CFBigNumInitWithInt64 (-128)) = Some (kCFNumberSInt16Type, bytes) /\
    _CFBigNumInitWithBytes big_zero bytes kCFNumberSInt16Type = Some (_CFBigNumInitWithInt64 (-128)).
Proof.
  destruct (CFNumberCreateWithBigNum_roundtrip (_CFBigNumInitWithInt64 (-128)) big_zero) as [H _].
  - apply big_check_ok. vm_compute. reflexivity.
  - destruct H as (bytes & H1 & _ & H3); [vm_compute; split; discriminate|]. exists bytes. split; [exact H1|exact H3].
Defined.

(** A value that needs more than 64 bits does not survive: the 128-bit
    integer is stored least significant word first, but [CFNumber] memory of
    that type is read as a [CFSInt128Struct], whose high word comes first, so
    the number read back has the two words exchanged. *)
Lemma CFNumberCreateWithBigNum_swaps_words (a r : _CFBigNum) :
  big_canonical a -> in_signed 128 (bval a) -> bval a < INT64_MIN \/ INT64_MAX < bval a ->
  exists bytes b, _CFNumberCreateWithBigNum a = Some (kCFNumberSInt128Type, bytes) /\
    _CFBigNumInitWithBytes r bytes kCFNumberSInt128Type = Some b /\
    bval b = swrap 64 (bval a) * 2 ^ 64 + (bval a / 2 ^ 64) mod 2 ^ 64.
Proof.
  intros Ha Hin Hv. rewrite create_spec_big by done. pose proof Hin as Hin'. unfold in_signed in Hin'.
  change (2 ^ (128 - 1)) with 170141183460469231731687303715884105728 in Hin'.
  change INT64_MIN with (-9223372036854775808) in Hv. change INT64_MAX with 9223372036854775807 in Hv.
  assert ((INT128_MIN <=? bval a) && (bval a <=? INT128_MAX) = true) as ->.
  { change INT128_MIN with (-170141183460469231731687303715884105728).
    change INT128_MAX with 170141183460469231731687303715884105727. bool_case; done || lia. }
  assert (number_width (bval a) = 128) as ->.
  { unfold number_width. narrow_constants. bool_case; done. }
  cbv zeta. change (type_of_width 128) with kCFNumberSInt128Type. change (Z.to_nat (128 / 8)) with 16%nat.
  assert (get_signed 128 a = bval a) as ->.
  { rewrite <- (get_init_signed 128 (bval a)) by (done || (unfold is_width; lia)).
    by rewrite (init_of_value 128 a) by (done || (unfold is_width; lia)). }
  do 2 eexists. split; [reflexivity|]. unfold _CFBigNumInitWithBytes. cbn -[load_128 store_le swrap Z.shiftl].
  rewrite load_128_store. cbn [opt_bind high low]. rewrite Z.shiftl_mul_pow2 by lia.
  pose proof (swrap_range 64 (bval a) ltac:(lia)) as Hh. pose proof (Z.mod_pos_bound (bval a / 2 ^ 64) (2 ^ 64) ltac:(lia)) as Hl.
  unfold in_signed in *. change (2 ^ 64) with 18446744073709551616 in *.
  change (2 ^ (64 - 1)) with 9223372036854775808 in *.
  change (2 ^ (128 - 1)) with 170141183460469231731687303715884105728 in *.
  rewrite (swrap_id 128 (swrap 64 _ * _)), (swrap_id 128) by (unfold in_signed; lia). split; [reflexivity|].
  destruct (init_signed_spec 128 ((bval a / 18446744073709551616) mod 18446744073709551616 + swrap 64 (bval a) * 18446744073709551616)) as [_ E];
    [unfold is_width; lia|unfold in_signed; change (2 ^ (128 - 1)) with 170141183460469231731687303715884105728; lia|].
  unfold init_with_signed in E. simpl in E. rewrite E. lia.
Qed.

Lemma CFNumberCreateWithBigNum_swaps_words_witness :
  exists bytes b, _CFNumberCreateWithBigNum (_CFBigNumInitWithInt128 (2 ^ 64 + 5)) = Some (kCFNumberSInt128Type, bytes) /\
    _CFBigNumInitWithBytes big_zero bytes kCFNumberSInt128Type = Some b /\ bval b = 5 * 2 ^ 64 + 1.
Proof.
  destruct (CFNumberCreateWithBigNum_swaps_words (mkBig [709551621; 446744073; 18; 0; 0] 0) big_zero)
    as (bytes & b & H1 & H2 & H3).
  - apply big_check_ok. vm_compute. reflexivity.
  - vm_compute. split; [discriminate|reflexivity].
  - right. vm_compute. reflexivity.
  - exists bytes, b. split_and!; [|exact H2|rewrite H3; vm_compute; reflexivity].
    rewrite <- H1. vm_compute. reflexivity.
Defined.
