(* ===== verification/CFSortFunctions.v ===== *)
(** * CFSortFunctions: the stable merge sort (CFSortFunctions.c)

    The sequential configuration: without libdispatch the concurrent sort is
    not compiled and [CFSortIndexes] always runs the simple merge sort.  An
    array segment [listp] is a block and the index of its first cell; the
    scratch block [tmp] starts out uninitialised.  The comparator block is a
    function of the two values; element arrays are lists of elements. *)

From S2P Require Import Prelude CFInternal.
From stdpp Require Import base list numbers option sorting.
From Stdlib Require Import ZArith Lia.
Open Scope Z_scope.
Open Scope cf_scope.

Definition kCFSortConcurrent : Z := Z.shiftl 1 0.
Definition kCFSortStable : Z := Z.shiftl 1 4.
Definition INTPTR_MAX : Z := 2 ^ 63 - 1.
Definition sizeof_CFIndex : Z := 8.

Section Sort.
Context (cmp : Z -> Z -> Z).

(** [while (idx--) listp[idx] = tmp[idx];] *)
Fixpoint copy_back (idx : nat) (l : list Z) (listp : Z) (tmp : list (option Z)) : option (list Z) :=
  match idx with
  | O => Some l
  | S idx =>
      let* v := rdi tmp (Z.of_nat idx) in
      let* l := wr l (listp + Z.of_nat idx) v in
      copy_back idx l listp tmp
  end.

(** [for (t = cnt1 + cnt2 - 1; idx <= t; t--) listp[t] = listp[t - cnt2];]
    with [n] rounds left, so [t] is [idx + n - 1]. *)
Fixpoint shift_up (n : nat) (l : list Z) (listp cnt2 idx : Z) : option (list Z) :=
  match n with
  | O => Some l
  | S n =>
      let t := idx + Z.of_nat n in
      let* v := rd l (listp + (t - cnt2)) in
      let* l := wr l (listp + t) v in
      shift_up n l listp cnt2 idx
  end.

(** The [for (;;)] of the merge.  Every round consumes an element of one of
    the lists, so [cnt1 + cnt2 + 1] rounds are enough. *)
Fixpoint merge_loop (fuel : nat) (l : list Z) (listp cnt1 cnt2 : Z) (tmp : list (option Z))
    (idx idx1 idx2 : Z) : option (list Z * list (option Z)) :=
  match fuel with
  | O => None
  | S fuel =>
      if cnt1 <=? idx1 then
        let* l := copy_back (Z.to_nat idx) l listp tmp in Some (l, tmp)
      else if cnt1 + cnt2 <=? idx2 then
        let* l := shift_up (Z.to_nat (cnt1 + cnt2 - idx)) l listp cnt2 idx in
        let* l := copy_back (Z.to_nat idx) l listp tmp in
        Some (l, tmp)
      else
        let* v1 := rd l (listp + idx1) in
        let* v2 := rd l (listp + idx2) in
        if cmp v1 v2 <=? 0 then
          let* tmp := wr tmp idx (Some v1) in
          merge_loop fuel l listp cnt1 cnt2 tmp (idx + 1) (idx1 + 1) idx2
        else
          let* tmp := wr tmp idx (Some v2) in
          merge_loop fuel l listp cnt1 cnt2 tmp (idx + 1) idx1 (idx2 + 1)
  end.

Definition __CFSimpleMerge (l : list Z) (listp cnt1 cnt2 : Z) (tmp : list (option Z)) :
    option (list Z * list (option Z)) :=
  if (cnt1 <=? 0) || (cnt2 <=? 0) then Some (l, tmp) else
  let* ordered :=
    (if 16 <? cnt1 + cnt2 then
       let* a := rd l (listp + (cnt1 - 1)) in
       let* b := rd l (listp + cnt1) in
       Some (cmp a b <=? 0)
     else Some false) in
  if ordered then Some (l, tmp) else
  merge_loop (Z.to_nat (cnt1 + cnt2) + 1) l listp cnt1 cnt2 tmp 0 0 cnt1.

(** Each level halves [cnt], so [cnt] levels are more than enough. *)
Fixpoint simple_merge_sort (fuel : nat) (l : list Z) (listp cnt : Z) (tmp : list (option Z)) :
    option (list Z * list (option Z)) :=
  match fuel with
  | O => None
  | S fuel =>
      if cnt <? 2 then Some (l, tmp)
      else if 2 =? cnt then
        let* v0 := rd l (listp + 0) in
        let* v1 := rd l (listp + 1) in
        if 0 <? cmp v0 v1 then
          let* l := wr l (listp + 0) v1 in
          let* l := wr l (listp + 1) v0 in
          Some (l, tmp)
        else Some (l, tmp)
      else if 3 =? cnt then
        let* v0 := rd l (listp + 0) in
        let* v1 := rd l (listp + 1) in
        let* v2 := rd l (listp + 2) in
        let '(v0, v1) := if 0 <? cmp v0 v1 then (v1, v0) else (v0, v1) in
        let '(v0, v1, v2) :=
          if 0 <? cmp v1 v2 then
            let '(v1, v2) := (v2, v1) in
            let '(v0, v1) := if 0 <? cmp v0 v1 then (v1, v0) else (v0, v1) in
            (v0, v1, v2)
          else (v0, v1, v2) in
        let* l := wr l (listp + 0) v0 in
        let* l := wr l (listp + 1) v1 in
        let* l := wr l (listp + 2) v2 in
        Some (l, tmp)
      else
        let half_cnt := Z.quot cnt 2 in
        let* (l, tmp) := simple_merge_sort fuel l listp half_cnt tmp in
        let* (l, tmp) := simple_merge_sort fuel l (listp + half_cnt) (cnt - half_cnt) tmp in
        __CFSimpleMerge l listp half_cnt (cnt - half_cnt) tmp
  end.

Definition __CFSimpleMergeSort (l : list Z) (listp cnt : Z) (tmp : list (option Z)) :=
  simple_merge_sort (S (Z.to_nat cnt)) l listp cnt tmp.

(** [for (idx = 0; idx < count; idx++) indexBuffer[idx] = idx;] *)
Fixpoint fill_indexes (n : nat) (idx : Z) (indexBuffer : list Z) : option (list Z) :=
  match n with
  | O => Some indexBuffer
  | S n => let* b := wr indexBuffer idx idx in fill_indexes n (idx + 1) b
  end.

(** [opts] only selects the concurrent sort, which this configuration does
    not have. *)
Definition CFSortIndexes (indexBuffer : list Z) (count opts : Z) : option (list Z) :=
  if count <? 1 then Some indexBuffer else
  if INTPTR_MAX / sizeof_CFIndex <? count then Some indexBuffer else
  let* indexBuffer := fill_indexes (Z.to_nat count) 0 indexBuffer in
  let tmp := replicate (Z.to_nat count) None in
  let* (indexBuffer, _) := __CFSimpleMergeSort indexBuffer 0 count tmp in
  Some indexBuffer.
End Sort.

(** ** Sorting arrays of elements *)

(** The block as values, when every cell has been written. *)
Fixpoint all_written {A} (l : list (option A)) : option (list A) :=
  match l with
  | [] => Some []
  | None :: _ => None
  | Some x :: l => let* l := all_written l in Some (x :: l)
  end.

Section SortArray.
Context {A : Type} (comparator : A -> A -> Z).

(** The comparator block of the array sorts: the elements at the two
    indexes. The array is not modified while it runs. *)
Definition compare_at (lst : list A) (a b : Z) : Z :=
  match rd lst a, rd lst b with
  | Some x, Some y => comparator x y
  | _, _ => 0
  end.

(** [store[idx] = list[indexes[idx]]] for each [idx]. *)
Fixpoint gather (n : nat) (idx : Z) (lst : list A) (indexes : list Z) (store : list (option A)) :
    option (list (option A)) :=
  match n with
  | O => Some store
  | S n =>
      let* i := rd indexes idx in
      let* v := rd lst i in
      let* store := wr store idx (Some v) in
      gather n (idx + 1) lst indexes store
  end.

(** Both array sorts have this body; [opts] is what they pass on.  The index
    buffer is fresh: [CFSortIndexes] writes every cell before it reads it. *)
Definition sort_array (opts : Z) (lst : list A) (count elementSize : Z) : option (list A) :=
  if (count <? 2) || (elementSize <? 1) then Some lst else
  let* indexes := CFSortIndexes (compare_at lst) (replicate (Z.to_nat count) 0) count opts in
  let* store := gather (Z.to_nat count) 0 lst indexes (replicate (Z.to_nat count) None) in
  let* lst := memmove (Some <$> lst) 0 store 0 count in
  all_written lst.

Definition CFQSortArray (lst : list A) (count elementSize : Z) : option (list A) :=
  sort_array 0 lst count elementSize.

Definition CFMergeSortArray (lst : list A) (count elementSize : Z) : option (list A) :=
  sort_array kCFSortStable lst count elementSize.
End SortArray.

(** ** The sort as a function on lists *)

Section Pure.
Context (cmp : Z -> Z -> Z).

Fixpoint merge (l1 : list Z) : list Z -> list Z :=
  fix go l2 :=
    match l1, l2 with
    | [], _ => l2
    | _, [] => l1
    | x :: l1', y :: l2' => if cmp x y <=? 0 then x :: merge l1' l2 else y :: go l2'
    end.

(** The merge with the test that skips it when the two lists are in order. *)
Definition merge_runs (l1 l2 : list Z) : list Z :=
  match last l1, head l2 with
  | Some a, Some b =>
      if (16 <? Z.of_nat (length l1 + length l2)) && (cmp a b <=? 0) then l1 ++ l2 else merge l1 l2
  | _, _ => l1 ++ l2
  end.

Fixpoint msort (fuel : nat) (l : list Z) : list Z :=
  match fuel with
  | O => l
  | S fuel =>
      match l with
      | [] | [_] => l
      | [v0; v1] => if 0 <? cmp v0 v1 then [v1; v0] else [v0; v1]
      | [v0; v1; v2] =>
          let '(v0, v1) := if 0 <? cmp v0 v1 then (v1, v0) else (v0, v1) in
          if 0 <? cmp v1 v2 then
            if 0 <? cmp v0 v2 then [v2; v0; v1] else [v0; v2; v1]
          else [v0; v1; v2]
      | _ => let h := (length l / 2)%nat in
             merge_runs (msort fuel (take h l)) (msort fuel (drop h l))
      end
  end.

Lemma merge_nil_r l : merge l [] = l.
Proof. by destruct l. Qed.

Lemma merge_cons x l1 y l2 :
  merge (x :: l1) (y :: l2) = if cmp x y <=? 0 then x :: merge l1 (y :: l2) else y :: merge (x :: l1) l2.
Proof. done. Qed.

Lemma merge_perm l1 l2 : merge l1 l2 ≡ₚ l1 ++ l2.
Proof.
  revert l2. induction l1 as [|x l1 IH1]; intros l2; [by destruct l2|]. induction l2 as [|y l2 IH2]; [by rewrite app_nil_r|].
  rewrite merge_cons. destruct (cmp x y <=? 0).
  - by rewrite IH1.
  - rewrite IH2. by rewrite Permutation_middle.
Qed.

Lemma length_merge l1 l2 : length (merge l1 l2) = (length l1 + length l2)%nat.
Proof. rewrite merge_perm. apply length_app. Qed.

Lemma merge_runs_perm l1 l2 : merge_runs l1 l2 ≡ₚ l1 ++ l2.
Proof.
  unfold merge_runs. destruct (last l1), (head l2); try done. destruct (_ && _); [done|apply merge_perm].
Qed.

Lemma msort_perm fuel l : msort fuel l ≡ₚ l.
Proof.
  revert l. induction fuel as [|fuel IH]; intros l; [done|]. cbn [msort].
  destruct l as [|v0 [|v1 [|v2 [|v3 l]]]]; try done.
  - destruct (0 <? _); [apply Permutation_swap|done].
  - destruct (0 <? cmp v0 v1); repeat destruct (0 <? _);
      eauto 6 using perm_swap, perm_skip, Permutation_refl, Permutation_trans.
  - rewrite merge_runs_perm, !IH. by rewrite take_drop.
Qed.


(** ** The C routines compute the same lists *)

(** Reading and writing cell [i] of a segment that starts after [pre]. *)
Lemma rd_seg {B} (pre s post : list B) i :
  (i < length s)%nat -> rd (pre ++ s ++ post) (Z.of_nat (length pre) + Z.of_nat i) = s !! i.
Proof.
  intros Hi. rewrite <- Nat2Z.inj_add, rd_nat, lookup_app_r, lookup_app_l by lia. f_equal. lia.
Qed.

Lemma wr_seg {B} (pre s post : list B) i v :
  (i < length s)%nat ->
  wr (pre ++ s ++ post) (Z.of_nat (length pre) + Z.of_nat i) v = Some (pre ++ <[i := v]> s ++ post).
Proof.
  intros Hi. rewrite <- Nat2Z.inj_add, wr_nat by (rewrite !length_app; lia).
  rewrite insert_app_r, insert_app_l by lia. done.
Qed.

(** [tmp] holds the values [out] in its first cells. *)
Definition holds (tmp : list (option Z)) (out : list Z) : Prop :=
  forall i v, out !! i = Some v -> tmp !! i = Some (Some v).

Lemma copy_back_spec out : forall pre old post tmp,
  length old = length out -> holds tmp out ->
  copy_back (length out) (pre ++ old ++ post) (Z.of_nat (length pre)) tmp = Some (pre ++ out ++ post).
Proof.
  induction out as [|v out IH] using rev_ind; intros pre old post tmp Hl Ht.
  - by destruct old.
  - rewrite length_app, Nat.add_1_r in *. cbn [copy_back].
    assert (rdi tmp (Z.of_nat (length out)) = Some v) as ->.
    { apply rdi_nat, Ht. rewrite lookup_app_r, Nat.sub_diag by lia. done. }
    cbn [opt_bind]. rewrite wr_seg by (simpl in Hl; lia). cbn [opt_bind].
    destruct old as [|w old _] using rev_ind; [simpl in Hl; lia|].
    rewrite length_app in Hl. simpl in Hl.
    replace (length out) with (length old) at 2 by lia. rewrite insert_app_r_alt, Nat.sub_diag by lia. cbn [insert list_insert].
    rewrite <- app_assoc, IH; [by rewrite <- app_assoc|lia|].
    intros i x Hx. apply Ht. by apply lookup_app_l_Some.
Qed.

Lemma shift_up_spec rest : forall pre c post,
  (0 < length c)%nat ->
  exists c', length c' = length c /\
    shift_up (length rest) (pre ++ rest ++ c ++ post) 0 (Z.of_nat (length c)) (Z.of_nat (length pre + length c)) =
    Some (pre ++ c' ++ rest ++ post).
Proof.
  induction rest as [|v rest IH] using rev_ind; intros pre c post Hc; [by exists c|].
  rewrite length_app, Nat.add_1_r. cbn [shift_up].
  replace (0 + (Z.of_nat (length pre + length c) + Z.of_nat (length rest) - Z.of_nat (length c)))
    with (Z.of_nat (length pre) + Z.of_nat (length rest)) by lia.
  rewrite rd_seg by (rewrite length_app; simpl; lia).
  rewrite lookup_app_r, Nat.sub_diag by lia. cbn [lookup list_lookup opt_bind].
  destruct c as [|w c _] using rev_ind; [simpl in Hc; lia|]. rewrite length_app, Nat.add_1_r in *.
  replace (0 + (Z.of_nat (length pre + S (length c)) + Z.of_nat (length rest)))
    with (Z.of_nat (length (pre ++ rest ++ v :: c)) + Z.of_nat 0) by (rewrite !length_app; simpl; lia).
  replace (pre ++ (rest ++ [v]) ++ (c ++ [w]) ++ post) with ((pre ++ rest ++ v :: c) ++ [w] ++ post)
    by (rewrite <- ?app_assoc; simpl; rewrite <- ?app_assoc; done).
  rewrite wr_seg by (simpl; lia). cbn [opt_bind insert list_insert].
  destruct (IH pre (v :: c) (v :: post)) as (c' & Hl' & E); [simpl; lia|]. exists c'. split; [done|].
  cbn [length] in E. rewrite <- ?app_assoc in *. cbn [app] in *. exact E.
Qed.

Lemma shift_up_base n : forall l b c idx, shift_up n l b c idx = shift_up n l 0 c (b + idx).
Proof.
  induction n as [|n IH]; intros l b c idx; [done|]. cbn [shift_up].
  replace (0 + (b + idx + Z.of_nat n - c)) with (b + (idx + Z.of_nat n - c)) by lia.
  replace (0 + (b + idx + Z.of_nat n)) with (b + (idx + Z.of_nat n)) by lia.
  destruct (rd _ _); [|done]. cbn [opt_bind]. destruct (wr _ _ _); [|done]. cbn [opt_bind]. apply IH.
Qed.

(** The left list is used up: the rest of the right one is in place. *)
Lemma merge_left_done pre l1 l2 post tmp out a2 :
  (a2 <= length l2)%nat -> (length out = length l1 + a2)%nat -> holds tmp out ->
  copy_back (length out) (pre ++ l1 ++ l2 ++ post) (Z.of_nat (length pre)) tmp =
  Some (pre ++ (out ++ merge [] (drop a2 l2)) ++ post).
Proof.
  intros H2 Ho Hh.
  replace (pre ++ l1 ++ l2 ++ post) with (pre ++ (l1 ++ take a2 l2) ++ drop a2 l2 ++ post)
    by (rewrite <- !app_assoc, (app_assoc (take a2 l2)), take_drop; done).
  rewrite copy_back_spec by (done || (rewrite length_app, length_take; lia)).
  rewrite <- !app_assoc. do 3 f_equal. by destruct (drop a2 l2).
Qed.

(** The right list is used up: the rest of the left one is moved to the end. *)
Lemma merge_right_done pre l1 l2 post tmp out a1 :
  (0 < length l2)%nat -> (a1 <= length l1)%nat -> (length out = a1 + length l2)%nat -> holds tmp out ->
  (let* l := shift_up (Z.to_nat (Z.of_nat (length l1) + Z.of_nat (length l2) - Z.of_nat (length out)))
       (pre ++ l1 ++ l2 ++ post) (Z.of_nat (length pre)) (Z.of_nat (length l2)) (Z.of_nat (length out)) in
   copy_back (length out) l (Z.of_nat (length pre)) tmp) =
  Some (pre ++ (out ++ merge (drop a1 l1) []) ++ post).
Proof.
  intros Hl2 H1 Ho Hh. rewrite shift_up_base, Ho.
  replace (Z.of_nat (length pre) + Z.of_nat (a1 + length l2)) with (Z.of_nat (length (pre ++ take a1 l1) + length l2))
    by (rewrite length_app, length_take; lia).
  replace (Z.to_nat (Z.of_nat (length l1) + Z.of_nat (length l2) - Z.of_nat (a1 + length l2)))
    with (length (drop a1 l1)) by (rewrite length_drop; lia).
  replace (pre ++ l1 ++ l2 ++ post) with ((pre ++ take a1 l1) ++ drop a1 l1 ++ l2 ++ post)
    by (rewrite <- !app_assoc, (app_assoc (take a1 l1)), take_drop; done).
  destruct (shift_up_spec (drop a1 l1) (pre ++ take a1 l1) l2 post Hl2) as (c' & Hc' & ->). cbn [opt_bind].
  rewrite <- Ho.
  replace ((pre ++ take a1 l1) ++ c' ++ drop a1 l1 ++ post) with (pre ++ (take a1 l1 ++ c') ++ drop a1 l1 ++ post)
    by (rewrite <- !app_assoc; done).
  rewrite copy_back_spec by (done || (rewrite length_app, length_take; lia)).
  by rewrite merge_nil_r, <- !app_assoc.
Qed.

Lemma holds_push tmp out z :
  (length out < length tmp)%nat -> holds tmp out -> holds (<[length out := Some z]> tmp) (out ++ [z]).
Proof.
  intros Hl Hh i v Hv. apply lookup_app_Some in Hv as [Hv|[Hi Hv]].
  - rewrite list_lookup_insert_ne; [by apply Hh|]. apply lookup_lt_Some in Hv. lia.
  - apply list_lookup_singleton_Some in Hv as [Hi' ->].
    assert (i = length out) as -> by lia. apply list_lookup_insert_eq. lia.
Qed.

Lemma merge_loop_spec fuel : forall pre l1 l2 post tmp out a1 a2,
  (length l1 + length l2 + 1 <= fuel + length out)%nat ->
  (length l1 + length l2 <= length tmp)%nat -> (0 < length l2)%nat ->
  (a1 <= length l1)%nat -> (a2 <= length l2)%nat -> (length out = a1 + a2)%nat -> holds tmp out ->
  exists tmp', merge_loop cmp fuel (pre ++ l1 ++ l2 ++ post) (Z.of_nat (length pre)) (Z.of_nat (length l1))
      (Z.of_nat (length l2)) tmp (Z.of_nat (length out)) (Z.of_nat a1) (Z.of_nat (length l1 + a2)) =
    Some (pre ++ (out ++ merge (drop a1 l1) (drop a2 l2)) ++ post, tmp') /\ length tmp' = length tmp.
Proof.
  induction fuel as [|fuel IH]; intros pre l1 l2 post tmp out a1 a2 Hf Ht Hl2 H1 H2 Ho Hh; [lia|].
  cbn [merge_loop]. rewrite Nat2Z.id. destruct (Z.leb_spec (Z.of_nat (length l1)) (Z.of_nat a1)).
  { assert (a1 = length l1) as -> by lia. rewrite (merge_left_done _ _ _ _ _ _ a2), drop_all by done. eauto. }
  destruct (Z.leb_spec (Z.of_nat (length l1) + Z.of_nat (length l2)) (Z.of_nat (length l1 + a2))).
  { assert (a2 = length l2) as -> by lia. pose proof (merge_right_done pre l1 l2 post tmp out a1 Hl2 H1 Ho Hh) as E.
    destruct (shift_up _ _ _ _ _); [|done]. cbn [opt_bind] in *. rewrite E, drop_all. eauto. }
  destruct (lookup_lt_is_Some_2 l1 a1) as [x Hx]; [lia|]. destruct (lookup_lt_is_Some_2 l2 a2) as [y Hy]; [lia|].
  rewrite rd_seg, Hx by lia. cbn [opt_bind]. rewrite (app_assoc l1), rd_seg by (rewrite length_app; lia).
  rewrite lookup_app_r by lia. replace (length l1 + a2 - length l1)%nat with a2 by lia. rewrite Hy. cbn [opt_bind].
  rewrite <- app_assoc, (drop_S l1 x a1 Hx), (drop_S l2 y a2 Hy), merge_cons.
  destruct (cmp x y <=? 0); rewrite wr_nat by lia; cbn [opt_bind].
  - destruct (IH pre l1 l2 post (<[length out := Some x]> tmp) (out ++ [x]) (S a1) a2) as (tmp' & E & Hl');
      rewrite ?length_insert, ?length_app; simpl; try lia; [apply holds_push; done || lia|].
    exists tmp'. split; [|by rewrite length_insert in Hl'].
    replace (Z.of_nat (length out) + 1) with (Z.of_nat (length (out ++ [x]))) by (rewrite length_app; simpl; lia).
    replace (Z.of_nat a1 + 1) with (Z.of_nat (S a1)) by lia.
    rewrite E, (drop_S l2 y a2 Hy), <- !app_assoc. done.
  - destruct (IH pre l1 l2 post (<[length out := Some y]> tmp) (out ++ [y]) a1 (S a2)) as (tmp' & E & Hl');
      rewrite ?length_insert, ?length_app; simpl; try lia; [apply holds_push; done || lia|].
    exists tmp'. split; [|by rewrite length_insert in Hl'].
    replace (Z.of_nat (length out) + 1) with (Z.of_nat (length (out ++ [y]))) by (rewrite length_app; simpl; lia).
    replace (Z.of_nat (length l1 + a2) + 1) with (Z.of_nat (length l1 + S a2)) by lia.
    rewrite E, (drop_S l1 x a1 Hx), <- !app_assoc. done.
Qed.

Lemma simple_merge_spec pre l1 l2 post tmp :
  (length l1 + length l2 <= length tmp)%nat ->
  exists tmp', __CFSimpleMerge cmp (pre ++ l1 ++ l2 ++ post) (Z.of_nat (length pre)) (Z.of_nat (length l1))
      (Z.of_nat (length l2)) tmp = Some (pre ++ merge_runs l1 l2 ++ post, tmp') /\ length tmp' = length tmp.
Proof.
  intros Ht. unfold __CFSimpleMerge, merge_runs.
  destruct l1 as [|x l1 _] using rev_ind; [exists tmp; by rewrite app_nil_l|].
  rewrite last_snoc. set (l := l1 ++ [x]) in *. assert (0 < length l)%nat by (unfold l; rewrite length_app; simpl; lia).
  destruct (Z.leb_spec (Z.of_nat (length l)) 0); [lia|]. destruct l2 as [|y l2].
  { exists tmp. by rewrite app_nil_r. }
  cbn [head]. set (l2' := y :: l2) in *. destruct (Z.leb_spec (Z.of_nat (length l2')) 0); [simpl in *; lia|].
  cbn [orb]. rewrite <- Nat2Z.inj_add.
  replace (Z.of_nat (length l) - 1) with (Z.of_nat (length l - 1)) by lia.
  assert (rd (pre ++ l ++ l2' ++ post) (Z.of_nat (length pre) + Z.of_nat (length l - 1)) = Some x) as ->.
  { rewrite rd_seg by lia. unfold l. rewrite length_app. simpl. rewrite lookup_app_r by lia.
    replace (length l1 + 1 - 1 - length l1)%nat with 0%nat by lia. done. }
  assert (rd (pre ++ l ++ l2' ++ post) (Z.of_nat (length pre) + Z.of_nat (length l)) = Some y) as ->.
  { rewrite (app_assoc l), rd_seg by (rewrite length_app; simpl; lia). by rewrite lookup_app_r, Nat.sub_diag by lia. }
  cbn [opt_bind].
  destruct (merge_loop_spec (length l + length l2' + 1) pre l l2' post tmp [] 0 0) as (tmp' & E & Hl');
    [lia|lia|simpl; lia|lia|lia|done|done|].
  rewrite Nat2Z.id. cbn [length] in E. change (Z.of_nat 0) with 0 in E. rewrite Nat.add_0_r in E.
  destruct (16 <? _); cbn [opt_bind andb]; [destruct (cmp x y <=? 0)|]; rewrite ?E; eauto.
  exists tmp. by rewrite <- app_assoc.
Qed.
End Pure.

Section Refine.
Context (cmp : Z -> Z -> Z).

Lemma length_msort fuel l : length (msort cmp fuel l) = length l.
Proof. by rewrite msort_perm. Qed.

(** The recursion of the C sort is the one of [msort]. *)
Lemma simple_merge_sort_spec fuel : forall pre s post tmp,
  (length s < fuel)%nat -> (length s <= length tmp)%nat ->
  exists tmp', simple_merge_sort cmp fuel (pre ++ s ++ post) (Z.of_nat (length pre)) (Z.of_nat (length s)) tmp =
    Some (pre ++ msort cmp fuel s ++ post, tmp') /\ length tmp' = length tmp.
Proof.
  induction fuel as [|fuel IH]; intros pre s post tmp Hf Ht; [lia|]. cbn [simple_merge_sort].
  destruct s as [|v0 [|v1 [|v2 [|v3 s]]]]; [by eauto|by eauto| | |].
  - cbn [length] in *. change (Z.of_nat 2) with 2. change (2 <? 2) with false. change (2 =? 2) with true. cbv iota.
    change (Z.of_nat (length pre) + 0) with (Z.of_nat (length pre) + Z.of_nat 0).
    change (Z.of_nat (length pre) + 1) with (Z.of_nat (length pre) + Z.of_nat 1).
    rewrite !rd_seg by (simpl; lia). cbn [lookup list_lookup opt_bind msort].
    destruct (0 <? cmp v0 v1); [|by eauto].
    rewrite wr_seg by (simpl; lia). cbn [opt_bind insert list_insert].
    rewrite wr_seg by (simpl; lia). cbn [opt_bind insert list_insert]. eauto.
  - cbn [length] in *. change (Z.of_nat 3) with 3. change (3 <? 2) with false. change (2 =? 3) with false.
    change (3 =? 3) with true. cbv iota.
    change (Z.of_nat (length pre) + 0) with (Z.of_nat (length pre) + Z.of_nat 0).
    change (Z.of_nat (length pre) + 1) with (Z.of_nat (length pre) + Z.of_nat 1).
    change (Z.of_nat (length pre) + 2) with (Z.of_nat (length pre) + Z.of_nat 2).
    rewrite !rd_seg by (simpl; lia). cbn [lookup list_lookup opt_bind msort].
    assert (forall a b c, (let* l := wr (pre ++ [v0; v1; v2] ++ post) (Z.of_nat (length pre) + Z.of_nat 0) a in
      let* l := wr l (Z.of_nat (length pre) + Z.of_nat 1) b in
      let* l := wr l (Z.of_nat (length pre) + Z.of_nat 2) c in Some (l, tmp)) = Some (pre ++ [a; b; c] ++ post, tmp)) as Hw.
    { intros a b c. rewrite wr_seg by (simpl; lia). cbn [opt_bind insert list_insert].
      rewrite wr_seg by (simpl; lia). cbn [opt_bind insert list_insert].
      rewrite wr_seg by (simpl; lia). done. }
    destruct (0 <? cmp v0 v1); [destruct (0 <? cmp v0 v2); [destruct (0 <? cmp v1 v2)|]
      |destruct (0 <? cmp v1 v2); [destruct (0 <? cmp v0 v2)|]]; rewrite Hw; eauto.
  - set (l := v0 :: v1 :: v2 :: v3 :: s) in *.
    assert (4 <= length l)%nat as Hl4 by (simpl; lia).
    destruct (Z.ltb_spec (Z.of_nat (length l)) 2); [lia|]. destruct (Z.eqb_spec 2 (Z.of_nat (length l))); [lia|].
    destruct (Z.eqb_spec 3 (Z.of_nat (length l))); [lia|].
    assert (msort cmp (S fuel) l = merge_runs cmp (msort cmp fuel (take (length l / 2) l)) (msort cmp fuel (drop (length l / 2) l))) as ->
      by done.
    set (h := (length l / 2)%nat). assert (h < length l)%nat as Hh by (apply Nat.div_lt; lia).
    assert (2 <= h)%nat by (apply Nat.div_le_lower_bound; lia).
    assert (Z.quot (Z.of_nat (length l)) 2 = Z.of_nat (length (take h l))) as ->.
    { rewrite Z.quot_div_nonneg, length_take, Nat.min_l by lia. unfold h. by rewrite Nat2Z.inj_div. }
    cbv zeta. replace (Z.of_nat (length l) - Z.of_nat (length (take h l))) with (Z.of_nat (length (drop h l)))
      by (rewrite length_take, length_drop; lia).
    replace (pre ++ l ++ post) with (pre ++ take h l ++ drop h l ++ post)
      by (rewrite (app_assoc (take h l)), take_drop; done).
    destruct (IH pre (take h l) (drop h l ++ post) tmp) as (t1 & -> & L1); [rewrite length_take; lia..|]. cbn [opt_bind].
    rewrite (app_assoc pre), <- (length_msort fuel (take h l)), <- Nat2Z.inj_add, <- length_app.
    destruct (IH (pre ++ msort cmp fuel (take h l)) (drop h l) post t1) as (t2 & -> & L2);
      [rewrite length_drop; lia..|]. cbn [opt_bind].
    rewrite <- app_assoc, <- (length_msort fuel (drop h l)).
    destruct (simple_merge_spec cmp pre (msort cmp fuel (take h l)) (msort cmp fuel (drop h l)) post t2) as (t3 & -> & L3);
      [rewrite !length_msort, length_take, length_drop; lia|].
    exists t3. split; [done|lia].
Qed.

Lemma fill_indexes_spec n : forall pre s post,
  length s = n ->
  fill_indexes n (Z.of_nat (length pre)) (pre ++ s ++ post) =
  Some (pre ++ seqZ (Z.of_nat (length pre)) (Z.of_nat n) ++ post).
Proof.
  induction n as [|n IH]; intros pre s post Hs; destruct s as [|x s]; try done. cbn [fill_indexes].
  rewrite wr_nat by (rewrite !length_app; simpl; lia). cbn [opt_bind].
  rewrite insert_app_r_alt, Nat.sub_diag by lia. cbn [app insert list_insert].
  replace (pre ++ Z.of_nat (length pre) :: s ++ post) with ((pre ++ [Z.of_nat (length pre)]) ++ s ++ post)
    by (rewrite <- app_assoc; done).
  replace (Z.of_nat (length pre) + 1) with (Z.of_nat (length (pre ++ [Z.of_nat (length pre)]))) by (rewrite length_app; simpl; lia).
  rewrite IH by (simpl in *; lia). rewrite <- app_assoc. cbn [app]. do 2 f_equal.
  rewrite length_app, Nat2Z.inj_succ, (seqZ_cons (Z.of_nat (length pre))) by lia. cbn [app length].
  rewrite Z.pred_succ, Nat2Z.inj_add. done.
Qed.

Lemma sort_indexes_spec buffer count opts :
  1 <= count <= INTPTR_MAX / sizeof_CFIndex -> count <= Z.of_nat (length buffer) ->
  CFSortIndexes cmp buffer count opts =
  Some (msort cmp (S (Z.to_nat count)) (seqZ 0 count) ++ drop (Z.to_nat count) buffer).
Proof.
  intros Hc Hb. unfold CFSortIndexes. bool_case.
  replace buffer with (take (Z.to_nat count) buffer ++ drop (Z.to_nat count) buffer) at 1 by apply take_drop.
  pose proof (fill_indexes_spec (Z.to_nat count) [] (take (Z.to_nat count) buffer) (drop (Z.to_nat count) buffer)) as E.
  cbn [app length] in E. change (Z.of_nat 0) with 0 in E. rewrite E by (try rewrite length_take; done || lia). cbn [opt_bind].
  rewrite Z2Nat.id by lia. unfold __CFSimpleMergeSort.
  destruct (simple_merge_sort_spec (S (Z.to_nat count)) [] (seqZ 0 count) (drop (Z.to_nat count) buffer)
    (replicate (Z.to_nat count) None)) as (t & E' & _); [rewrite length_seqZ; lia|rewrite length_seqZ, length_replicate; lia|].
  cbn [app length] in E'. change (Z.of_nat 0) with 0 in E'. rewrite length_seqZ, Z2Nat.id in E' by lia. rewrite E'. done.
Qed.
End Refine.

(** ** Order and stability *)

(** A comparator that orders its arguments: a total preorder. *)
Class CompareOrder {A} (cmp : A -> A -> Z) : Prop := {
  cmp_total a b : cmp a b <= 0 \/ cmp b a <= 0;
  cmp_trans a b c : cmp a b <= 0 -> cmp b c <= 0 -> cmp a c <= 0
}.

Section Order.
Context (cmp : Z -> Z -> Z) `{!CompareOrder cmp}.

(** Before in the order, or equivalent with the smaller index: the order a
    stable sort of indexes produces. *)
Definition stable_le (i j : Z) : Prop := cmp i j <= 0 /\ (cmp j i <= 0 -> i < j).

#[local] Instance stable_le_trans : Transitive stable_le.
Proof.
  intros i j k [H1 H2] [H3 H4]. split; [by eapply cmp_trans|]. intros H.
  pose proof (H2 ltac:(by eapply cmp_trans)). pose proof (H4 ltac:(by eapply cmp_trans)). lia.
Qed.

(** Every index of the left list is below every index of the right one. *)
Definition below (l1 l2 : list Z) : Prop := forall i j, i ∈ l1 -> j ∈ l2 -> i < j.

Lemma below_perm l1 l1' l2 l2' : l1 ≡ₚ l1' -> l2 ≡ₚ l2' -> below l1 l2 -> below l1' l2'.
Proof. intros H1 H2 H i j Hi Hj. apply H; [by rewrite H1|by rewrite H2]. Qed.

Lemma below_le i j : i < j -> cmp i j <= 0 -> stable_le i j.
Proof. split; [done|]. intros _. done. Qed.

Lemma above_le i j : ~ cmp i j <= 0 -> stable_le j i.
Proof. intros H. destruct (cmp_total (cmp := cmp) i j); [done|]. by split. Qed.

Lemma Forall_stable x y l : stable_le x y -> Forall (stable_le y) l -> Forall (stable_le x) l.
Proof. intros Hxy Hl. apply (list.Forall_impl _ _ _ Hl). intros z. by apply transitivity. Qed.

Lemma merge_sorted l1 : forall l2,
  StronglySorted stable_le l1 -> StronglySorted stable_le l2 -> below l1 l2 ->
  StronglySorted stable_le (merge cmp l1 l2).
Proof.
  induction l1 as [|x l1 IH1]; intros l2 H1 H2 Hb; [by destruct l2|].
  induction l2 as [|y l2 IH2]; [done|]. rewrite merge_cons.
  apply StronglySorted_inv in H1 as [H1 F1]. apply StronglySorted_inv in H2 as [H2 F2].
  destruct (Z.leb_spec (cmp x y) 0) as [E|E].
  - constructor.
    + apply IH1; [done|by constructor|]. intros i j Hi Hj. apply Hb; [by right|done].
    + rewrite merge_perm. apply Forall_app. split; [done|].
      assert (stable_le x y) by (apply below_le; [apply Hb; left|done]).
      constructor; [done|by eapply Forall_stable].
  - constructor.
    + apply IH2; [done|]. intros i j Hi Hj. apply Hb; [done|by right].
    + rewrite merge_perm. apply Forall_app. assert (stable_le y x) by (apply above_le; lia).
      split; [|done]. constructor; [done|by eapply Forall_stable].
Qed.

Lemma sorted_last l x : StronglySorted stable_le l -> last l = Some x -> Forall (fun y => y = x \/ stable_le y x) l.
Proof.
  intros Hs Hl. apply last_Some in Hl as [l' ->]. apply Forall_app. split; [|by repeat constructor; left].
  apply list.Forall_forall. intros y Hy. right.
  apply StronglySorted_app in Hs as (H & _ & _). apply H; [done|]. by apply list_elem_of_singleton.
Qed.

Lemma merge_runs_sorted l1 l2 :
  StronglySorted stable_le l1 -> StronglySorted stable_le l2 -> below l1 l2 ->
  StronglySorted stable_le (merge_runs cmp l1 l2).
Proof.
  intros H1 H2 Hb. unfold merge_runs. destruct (last l1) as [x|] eqn:E1.
  2: { apply last_None in E1 as ->. done. }
  destruct l2 as [|y l2]; cbn [head]; [by rewrite app_nil_r|].
  destruct (16 <? _), (Z.leb_spec (cmp x y) 0); simpl; try by apply merge_sorted.
  pose proof (sorted_last l1 x H1 E1) as Hlast. apply StronglySorted_app_2; [|done..].
  intros i j Hi Hj. apply below_le; [by apply Hb|].
  assert (cmp y j <= 0).
  { apply StronglySorted_inv in H2 as [_ F2]. apply elem_of_cons in Hj as [->|Hj].
    - by destruct (cmp_total (cmp := cmp) y y).
    - rewrite list.Forall_forall in F2. by apply F2. }
  rewrite list.Forall_forall in Hlast. destruct (Hlast i Hi) as [->|[Hix _]]; [by eapply cmp_trans|].
  eapply cmp_trans; [done|]. by eapply cmp_trans.
Qed.

Lemma msort_sorted fuel : forall l,
  (length l < fuel)%nat -> StronglySorted Z.lt l -> StronglySorted stable_le (msort cmp fuel l).
Proof.
  induction fuel as [|fuel IH]; intros l Hf Hl; [lia|]. cbn [msort].
  destruct l as [|v0 [|v1 [|v2 [|v3 l]]]]; [constructor|repeat constructor| | |].
  - apply StronglySorted_inv in Hl as [_ Hl]. inversion Hl; subst.
    destruct (Z.ltb_spec 0 (cmp v0 v1)); repeat constructor; try (apply above_le; lia); by auto with lia.
  - apply StronglySorted_inv in Hl as [Hl Hl0]. apply StronglySorted_inv in Hl as [_ Hl1].
    inversion Hl0 as [|? ? H01 Hl02]; subst. inversion Hl02 as [|? ? H02 _]; subst. inversion Hl1 as [|? ? H12 _]; subst.
    assert (forall a b c, stable_le a b -> stable_le b c -> StronglySorted stable_le [a; b; c]) as H3.
    { intros a b c Hab Hbc. apply SSorted_cons; [apply SSorted_cons; [apply SSorted_cons; constructor|]|].
      - apply list.Forall_singleton. done.
      - apply list.Forall_cons. split; [done|]. apply list.Forall_singleton. by etransitivity. }
    destruct (Z.ltb_spec 0 (cmp v0 v1)).
    + destruct (Z.ltb_spec 0 (cmp v0 v2)); [destruct (Z.ltb_spec 0 (cmp v1 v2))|]; apply H3;
        solve [apply above_le; lia | apply below_le; lia].
    + destruct (Z.ltb_spec 0 (cmp v1 v2)); [destruct (Z.ltb_spec 0 (cmp v0 v2))|]; apply H3;
        solve [apply above_le; lia | apply below_le; lia].
  - set (s := v0 :: v1 :: v2 :: v3 :: l) in *. set (h := (length s / 2)%nat).
    assert (h < length s)%nat by (apply Nat.div_lt; simpl; lia).
    assert (2 <= h)%nat by (apply Nat.div_le_lower_bound; simpl; lia).
    rewrite <- (take_drop h s) in Hl. apply StronglySorted_app in Hl as (Hb & H1 & H2).
    apply merge_runs_sorted.
    + apply IH; [rewrite length_take; lia|done].
    + apply IH; [rewrite length_drop; lia|done].
    + eapply below_perm; [symmetry; apply msort_perm..|]. intros i j Hi Hj. by apply Hb.
Qed.
End Order.

(** ** Only the comparisons of the elements matter *)

Section Ext.
Context (cmp cmp' : Z -> Z -> Z).

Lemma merge_ext l1 : forall l2,
  (forall a b, a ∈ l1 -> b ∈ l2 -> cmp a b = cmp' a b) -> merge cmp l1 l2 = merge cmp' l1 l2.
Proof.
  induction l1 as [|x l1 IH1]; intros l2 H; [by destruct l2|]. induction l2 as [|y l2 IH2]; [done|].
  rewrite !merge_cons, (H x y) by by left. destruct (_ <=? 0); f_equal.
  - apply IH1. intros a b Ha Hb. apply H; [by right|done].
  - apply IH2. intros a b Ha Hb. apply H; [done|by right].
Qed.

Lemma merge_runs_ext l1 l2 :
  (forall a b, a ∈ l1 -> b ∈ l2 -> cmp a b = cmp' a b) -> merge_runs cmp l1 l2 = merge_runs cmp' l1 l2.
Proof.
  intros H. unfold merge_runs. destruct (last l1) as [x|] eqn:E; [|done]. destruct l2 as [|y l2]; [done|]. cbn [head].
  rewrite (H x y), merge_ext; [done|done|by apply last_Some_elem_of|by left].
Qed.

Lemma msort_ext fuel : forall l,
  (forall a b, a ∈ l -> b ∈ l -> cmp a b = cmp' a b) -> msort cmp fuel l = msort cmp' fuel l.
Proof.
  induction fuel as [|fuel IH]; intros l H; [done|]. cbn [msort].
  destruct l as [|v0 [|v1 [|v2 [|v3 l]]]]; [done|done| | |].
  - by rewrite (H v0 v1) by (rewrite !elem_of_cons; auto).
  - assert (forall a b, a ∈ [v0; v1; v2] -> b ∈ [v0; v1; v2] -> (0 <? cmp a b) = (0 <? cmp' a b)) as H'
      by (intros; by rewrite H).
    rewrite (H' v0 v1) by (rewrite !elem_of_cons; auto). destruct (0 <? cmp' v0 v1).
    + by rewrite (H' v0 v2), (H' v1 v2) by (rewrite !elem_of_cons; auto).
    + by rewrite (H' v0 v2), (H' v1 v2) by (rewrite !elem_of_cons; auto).
  - set (s := v0 :: v1 :: v2 :: v3 :: l) in *. set (h := (length s / 2)%nat).
    assert (forall a, a ∈ take h s \/ a ∈ drop h s -> a ∈ s) as Hin.
    { intros a Ha. rewrite <- (take_drop h s). by apply elem_of_app. }
    rewrite <- !IH by (intros; apply H; auto). apply merge_runs_ext.
    intros a b. rewrite !msort_perm. auto.
Qed.
End Ext.

(** ** Sorting elements *)

(** What a stable sort promises: the same elements, in order, and equivalent
    elements in the order they had. *)
Record stable_sort {A} (cmp : A -> A -> Z) (l l' : list A) : Prop := {
  sort_perm : l' ≡ₚ l;
  sort_sorted : StronglySorted (fun a b => cmp a b <= 0) l';
  sort_stable x : filter (fun y => cmp x y <= 0 /\ cmp y x <= 0) l' = filter (fun y => cmp x y <= 0 /\ cmp y x <= 0) l
}.

(** The interface the array and tree components use: a routine that sorts the
    first [count] elements of a block. *)
Class SortRoutine (sort : forall A, (A -> A -> Z) -> list A -> Z -> Z -> option (list A)) : Prop :=
  sort_routine_ok : forall A (cmp : A -> A -> Z) (lst : list A) (count size : Z),
    CompareOrder cmp -> 0 <= count <= Z.of_nat (length lst) -> count <= INTPTR_MAX / sizeof_CFIndex -> 1 <= size ->
    exists l', sort A cmp lst count size = Some (l' ++ drop (Z.to_nat count) lst) /\
      stable_sort cmp (take (Z.to_nat count) lst) l'.

Section Elements.
Context {A : Type} (comparator : A -> A -> Z).

Lemma gather_spec (f : Z -> A) lst idxs : forall ipre ipost spre old spost,
  (forall i, i ∈ idxs -> rd lst i = Some (f i)) -> length spre = length ipre -> length old = length idxs ->
  gather (length idxs) (Z.of_nat (length ipre)) lst (ipre ++ idxs ++ ipost) (spre ++ old ++ spost) =
  Some (spre ++ (Some <$> (f <$> idxs)) ++ spost).
Proof.
  induction idxs as [|i idxs IH]; intros ipre ipost spre old spost Hf Hp Hl; destruct old as [|o old]; try done.
  cbn [length gather]. rewrite rd_nat, lookup_app_r, Nat.sub_diag by lia. cbn [app lookup list_lookup opt_bind].
  rewrite Hf by left. cbn [opt_bind]. rewrite wr_nat by (rewrite length_app; simpl; lia). cbn [opt_bind].
  rewrite insert_app_r_alt, Hp, Nat.sub_diag by lia. cbn [insert list_insert].
  replace (Z.of_nat (length ipre) + 1) with (Z.of_nat (length (ipre ++ [i]))) by (rewrite length_app; simpl; lia).
  replace (ipre ++ i :: idxs ++ ipost) with ((ipre ++ [i]) ++ idxs ++ ipost) by (rewrite <- app_assoc; done).
  replace (spre ++ Some (f i) :: old ++ spost) with ((spre ++ [Some (f i)]) ++ old ++ spost) by (rewrite <- app_assoc; done).
  rewrite IH; [by rewrite <- app_assoc| |rewrite !length_app; simpl; lia|simpl in Hl; lia].
  intros j Hj. apply Hf. by right.
Qed.

Lemma all_written_Some (l : list A) : all_written (Some <$> l) = Some l.
Proof. induction l as [|x l IH]; [done|]. rewrite fmap_cons. cbn [all_written]. by rewrite IH. Qed.

Lemma sorted_fmap {B C} (f : B -> C) (R : C -> C -> Prop) l :
  StronglySorted (fun a b => R (f a) (f b)) l -> StronglySorted R (f <$> l).
Proof. induction 1 as [|x l Hl IH Hx]; [constructor|]. rewrite fmap_cons. constructor; [done|by apply Forall_fmap]. Qed.

Lemma sorted_impl {B} (R R' : B -> B -> Prop) l :
  (forall a b, R a b -> R' a b) -> StronglySorted R l -> StronglySorted R' l.
Proof. intros H. induction 1 as [|x l Hl IH Hx]; constructor; [done|]. apply (list.Forall_impl _ _ _ Hx). auto. Qed.

Lemma seqZ_sorted m n : StronglySorted Z.lt (seqZ m n).
Proof.
  destruct (Z.le_gt_cases n 0) as [H|H]; [rewrite seqZ_nil by lia; constructor|].
  replace n with (Z.of_nat (Z.to_nat n)) by lia. generalize (Z.to_nat n) as k. clear. intros k. revert m.
  induction k as [|k IH]; intros m; [constructor|]. rewrite Nat2Z.inj_succ, seqZ_cons, Z.pred_succ by lia.
  constructor; [done|]. apply list.Forall_forall. intros i Hi. apply elem_of_seqZ in Hi. lia.
Qed.

Lemma filter_fmap {B C} (f : B -> C) (P : C -> Prop) `{!forall x, Decision (P x)} (l : list B) :
  filter P (f <$> l) = f <$> filter (fun x => P (f x)) l.
Proof.
  induction l as [|x l IH]; [done|]. rewrite fmap_cons, !filter_cons, IH. by destruct (decide (P (f x))).
Qed.

(** Among equivalent elements the indexes ascend. *)
Lemma equivalent_ascend `{!CompareOrder comparator} (f : Z -> A) (cmp : Z -> Z -> Z) x idxs :
  (forall i j, cmp i j = comparator (f i) (f j)) -> StronglySorted (stable_le cmp) idxs ->
  StronglySorted Z.lt (filter (fun i => comparator x (f i) <= 0 /\ comparator (f i) x <= 0) idxs).
Proof.
  intros Hcmp. induction 1 as [|y l Hl IH Hy]; [constructor|]. rewrite filter_cons.
  case_decide as Hxy; [|done]. constructor; [done|]. apply list.Forall_forall. intros z Hz.
  apply list_elem_of_filter in Hz as [Hxz Hz]. rewrite list.Forall_forall in Hy. destruct (Hy z Hz) as [_ H].
  apply H. rewrite Hcmp. eapply cmp_trans; [apply Hxz|apply Hxy].
Qed.

(** The indexes sorted by the elements they stand for, as elements. *)
Lemma sorted_indexes_elements `{!CompareOrder comparator} (f : Z -> A) (cmp : Z -> Z -> Z) idxs l :
  (forall i j, cmp i j = comparator (f i) (f j)) ->
  idxs ≡ₚ l -> StronglySorted (stable_le cmp) idxs -> StronglySorted Z.lt l ->
  stable_sort comparator (f <$> l) (f <$> idxs).
Proof.
  intros Hcmp Hp Hs Hl. split.
  - by rewrite Hp.
  - apply sorted_fmap. eapply sorted_impl; [|done]. intros a b [H _]. by rewrite Hcmp in H.
  - intros x. rewrite !filter_fmap. f_equal. apply (StronglySorted_unique_strong Z.lt); [lia| | |].
    + by eapply equivalent_ascend.
    + clear -Hl. induction Hl as [|y l Hl IH Hy]; [constructor|]. rewrite filter_cons. case_decide; [|done].
      constructor; [done|]. apply list.Forall_forall. intros z Hz.
      apply list_elem_of_filter in Hz as [_ Hz]. rewrite list.Forall_forall in Hy. auto.
    + by rewrite Hp.
Qed.

Lemma sort_array_spec `{!CompareOrder comparator} opts lst count size :
  0 <= count <= Z.of_nat (length lst) -> count <= INTPTR_MAX / sizeof_CFIndex -> 1 <= size ->
  exists l', sort_array comparator opts lst count size = Some (l' ++ drop (Z.to_nat count) lst) /\
    stable_sort comparator (take (Z.to_nat count) lst) l'.
Proof.
  intros Hc Hmax Hsize. unfold sort_array. destruct (Z.ltb_spec count 2) as [H2|H2].
  { exists (take (Z.to_nat count) lst). split; [by rewrite take_drop|]. split; [done| |done].
    destruct lst as [|x lst]; [rewrite take_nil; constructor|].
    assert (count = 0 \/ count = 1) as [-> | ->] by lia; repeat constructor. }
  destruct (Z.ltb_spec size 1); [lia|]. cbn [orb].
  destruct lst as [|x0 lst']; [simpl in Hc; lia|]. set (lst := x0 :: lst') in *.
  set (f i := nth (Z.to_nat i) lst x0). set (cmp' i j := comparator (f i) (f j)).
  assert (CompareOrder cmp') by (split; intros *; [apply (cmp_total (cmp := comparator))|apply (cmp_trans (cmp := comparator))]).
  assert (forall i, i ∈ seqZ 0 count -> rd lst i = Some (f i)) as Hrd.
  { intros i Hi. apply elem_of_seqZ in Hi. unfold rd, f. destruct (Z.leb_spec 0 i); [|lia].
    destruct (nth_lookup_or_length lst (Z.to_nat i) x0) as [E|E]; [done|lia]. }
  assert (f <$> seqZ 0 count = take (Z.to_nat count) lst) as Hf.
  { apply list_eq_same_length with (Z.to_nat count); [rewrite length_take; lia|by rewrite length_fmap, length_seqZ|].
    intros i a b Hi Ha Hb. rewrite list_lookup_fmap, lookup_seqZ_lt in Ha by lia. rewrite lookup_take_lt in Hb by done.
    injection Ha as <-. unfold f. rewrite Z.add_0_l, Nat2Z.id. by apply nth_lookup_Some. }
  set (idxs := msort cmp' (S (Z.to_nat count)) (seqZ 0 count)).
  assert (idxs ≡ₚ seqZ 0 count) as Hp by apply msort_perm.
  rewrite sort_indexes_spec by (rewrite ?length_replicate; lia). cbn [opt_bind].
  rewrite (msort_ext _ cmp').
  2: { intros a b Ha Hb. unfold compare_at. by rewrite !Hrd. }
  fold idxs. assert (length idxs = Z.to_nat count) as Hl by (rewrite Hp, length_seqZ; done).
  pose proof (gather_spec f lst idxs [] (drop (Z.to_nat count) (replicate (Z.to_nat count) 0)) [] (replicate (Z.to_nat count) None) []) as E.
  cbn [app length] in E. rewrite !app_nil_r, Hl in E. change (Z.of_nat 0) with 0 in E.
  rewrite E; [|intros i Hi; apply Hrd; by rewrite <- Hp|done|apply length_replicate]. cbn [opt_bind].
  rewrite memmove_ok by (rewrite ?length_fmap; lia). cbn [opt_bind]. change (Z.to_nat 0) with 0%nat.
  rewrite take_0, drop_0, Z.add_0_l, take_ge, <- fmap_drop, app_nil_l, <- fmap_app, all_written_Some
    by (rewrite !length_fmap; lia).
  exists (f <$> idxs). split; [done|]. rewrite <- Hf.
  apply (sorted_indexes_elements f cmp'); [done|done| |apply seqZ_sorted].
  apply msort_sorted; [done|rewrite length_seqZ; lia|apply seqZ_sorted].
Qed.
End Elements.

#[export] Instance qsort_routine : SortRoutine (fun A cmp => CFQSortArray cmp).
Proof. intros A cmp lst count size Ho Hc Hm Hs. by apply sort_array_spec. Qed.

#[export] Instance merge_sort_routine : SortRoutine (fun A cmp => CFMergeSortArray cmp).
Proof. intros A cmp lst count size Ho Hc Hm Hs. by apply sort_array_spec. Qed.

(** ** Properties *)

(** [CFSortIndexes] returns, whatever the options, with the first [count]
    cells of the buffer a permutation of 0 .. count-1 that is in comparator
    order and lists equivalent indexes in ascending order; the rest of the
    buffer is untouched. *)
Lemma CFSortIndexes_stable_permutation (cmp : Z -> Z -> Z) (Hcmp : CompareOrder cmp)
    (buffer : list Z) (count opts : Z) :
  1 <= count <= INTPTR_MAX / sizeof_CFIndex -> count <= Z.of_nat (length buffer) ->
  exists idxs, CFSortIndexes cmp buffer count opts = Some (idxs ++ drop (Z.to_nat count) buffer) /\
    idxs ≡ₚ seqZ 0 count /\
    StronglySorted (fun i j => cmp i j <= 0 /\ (cmp j i <= 0 -> i < j)) idxs.
Proof.
  intros Hc Hb. exists (msort cmp (S (Z.to_nat count)) (seqZ 0 count)). split_and!.
  - by apply sort_indexes_spec.
  - apply msort_perm.
  - apply msort_sorted; [done|rewrite length_seqZ; lia|apply seqZ_sorted].
Qed.

(** Integers by their last decimal digit. *)
Definition compare_last_digit (a b : Z) : Z := a mod 10 - b mod 10.

#[export] Instance compare_last_digit_order : CompareOrder compare_last_digit.
Proof. split; unfold compare_last_digit; intros *; lia. Qed.

Lemma CFSortIndexes_stable_permutation_witness :
  exists idxs, CFSortIndexes compare_last_digit (replicate 25 7) 24 0 = Some (idxs ++ [7]) /\
    idxs ≡ₚ seqZ 0 24 /\
    StronglySorted (fun i j => compare_last_digit i j <= 0 /\ (compare_last_digit j i <= 0 -> i < j)) idxs.
Proof.
  apply (CFSortIndexes_stable_permutation compare_last_digit _ (replicate 25 7) 24 0).
  - vm_compute. split; discriminate.
  - vm_compute. discriminate.
Defined.

(** C6: [CFQSortArray] and [CFMergeSortArray] sort the first [count] elements
    of the array stably: the same elements, in comparator order, equivalent
    elements in their original order, every access inside the blocks; the
    elements beyond [count] stay. *)
Theorem CFSortArray_stable {A} (comparator : A -> A -> Z) (Hcmp : CompareOrder comparator)
    (lst : list A) (count size : Z) :
  0 <= count <= Z.of_nat (length lst) -> count <= INTPTR_MAX / sizeof_CFIndex -> 1 <= size ->
  (exists l', CFQSortArray comparator lst count size = Some (l' ++ drop (Z.to_nat count) lst) /\
     stable_sort comparator (take (Z.to_nat count) lst) l') /\
  (exists l', CFMergeSortArray comparator lst count size = Some (l' ++ drop (Z.to_nat count) lst) /\
     stable_sort comparator (take (Z.to_nat count) lst) l').
Proof. intros Hc Hm Hs. split; by apply sort_array_spec. Qed.

Lemma CFSortArray_stable_witness :
  exists l', CFQSortArray compare_last_digit [31; 22; 11; 42; 5; 12] 6 8 = Some (l' ++ []) /\
    stable_sort compare_last_digit [31; 22; 11; 42; 5; 12] l'.
Proof.
  apply (CFSortArray_stable compare_last_digit _ [31; 22; 11; 42; 5; 12] 6 8).
  - vm_compute. split; discriminate.
  - vm_compute. discriminate.
  - vm_compute. discriminate.
Defined.
