(* ===== verification/CFArray.v ===== *)
(** * CFArray: immutable and deque-based arrays (CFArray.c)

    A mutable array keeps its values in a deque: a block of buckets with free
    room on both sides, re-centred or reallocated when room runs out.  An
    immutable array keeps its buckets behind its header.  Fresh buckets hold
    nothing until they are written.  Calls of the retain and release callbacks
    are events.  Growing allocates with an allocator that succeeds (the source
    does not test the result). *)

From S2P Require Import Prelude CFInternal CFSortFunctions.
From stdpp Require Import base list numbers option sorting.
From Stdlib Require Import ZArith Lia.
Open Scope Z_scope.
Open Scope cf_scope.

(** ** Data *)

Record CFArrayCallBacks := mkCB { cb_retain : Z; cb_release : Z; cb_copyDescription : Z; cb_equal : Z }.

#[export] Instance CFArrayCallBacks_eq_dec : EqDecision CFArrayCallBacks.
Proof. solve_decision. Defined.

Definition __kCFNullArrayCallBacks : CFArrayCallBacks := mkCB 0 0 0 0.

Record __CFArrayDeque := mkDeque { _leftIdx : Z; _capacity : Z; deque_buckets : list (option Z) }.

(** [inline_buckets] are the buckets behind the header of an immutable array,
    [custom_callbacks] the callbacks there when the flag bits say so. *)
Record __CFArray := mkArray {
  _cfinfo : Z;
  _count : Z;
  _mutations : Z;
  _mutInProgress : Z;
  _store : option __CFArrayDeque;
  custom_callbacks : CFArrayCallBacks;
  inline_buckets : list (option Z)
}.

Definition __kCFArrayImmutable : Z := 0.
Definition __kCFArrayDeque : Z := 2.
Definition __kCFArrayHasNullCallBacks : Z := 0.
Definition __kCFArrayHasCFTypeCallBacks : Z := 1.
Definition __kCFArrayHasCustomCallBacks : Z := 3.

Definition LONG_MAX : Z := 2 ^ 63 - 1.
Definition __CF_MAX_BUCKETS_PER_DEQUE : Z := LONG_MAX.

Definition __CFArrayDequeRoundUpCapacity (capacity : Z) : option Z :=
  if capacity <? 4 then Some 4 else
  let* c := int_shl1 (flsl capacity) in
  Some (Z.min c __CF_MAX_BUCKETS_PER_DEQUE).

Definition hasBeenFinalized (array : __CFArray) : bool :=
  negb (__CFBitfieldGetValue (_cfinfo array) 5 5 =? 0).

Definition __CFArrayGetType (array : __CFArray) : Z := __CFBitfieldGetValue (_cfinfo array) 1 0.

Definition __CFArrayGetCount (array : __CFArray) : Z := _count array.

Definition set_count (array : __CFArray) (v : Z) : __CFArray :=
  mkArray (_cfinfo array) v (_mutations array) (_mutInProgress array) (_store array)
    (custom_callbacks array) (inline_buckets array).

Definition __CFArraySetCount (array : __CFArray) (v : Z) : __CFArray := set_count array v.

Definition set_store (array : __CFArray) (s : option __CFArrayDeque) : __CFArray :=
  mkArray (_cfinfo array) (_count array) (_mutations array) (_mutInProgress array) s
    (custom_callbacks array) (inline_buckets array).

Definition set_inline (array : __CFArray) (b : list (option Z)) : __CFArray :=
  mkArray (_cfinfo array) (_count array) (_mutations array) (_mutInProgress array) (_store array)
    (custom_callbacks array) b.

(** [array->_mutations++] *)
Definition mutated (array : __CFArray) : __CFArray :=
  mkArray (_cfinfo array) (_count array) (swrap 64 (_mutations array + 1)) (_mutInProgress array)
    (_store array) (custom_callbacks array) (inline_buckets array).

(** [__CFArrayGetBucketsPtr]: the block that holds the buckets and the index
    of the bucket of value 0 in it.  With a NULL store there is none. *)
Definition __CFArrayGetBucketsPtr (array : __CFArray) : option (list (option Z) * Z) :=
  if __CFArrayGetType array =? __kCFArrayImmutable then Some (inline_buckets array, 0)
  else if __CFArrayGetType array =? __kCFArrayDeque then
    let* deque := _store array in Some (deque_buckets deque, _leftIdx deque)
  else None.

(** The array with that block replaced. *)
Definition put_buckets (array : __CFArray) (b : list (option Z)) : option __CFArray :=
  if __CFArrayGetType array =? __kCFArrayImmutable then Some (set_inline array b)
  else if __CFArrayGetType array =? __kCFArrayDeque then
    let* deque := _store array in
    Some (set_store array (Some (mkDeque (_leftIdx deque) (_capacity deque) b)))
  else None.

(** [__CFArrayGetBucketAtIndex(array, idx)->_item], read and written. *)
Definition __CFArrayGetBucketAtIndex (array : __CFArray) (idx : Z) : option Z :=
  let* (b, base) := __CFArrayGetBucketsPtr array in rdi b (base + idx).

Definition set_bucket (array : __CFArray) (idx v : Z) : option __CFArray :=
  let* (b, base) := __CFArrayGetBucketsPtr array in
  let* b := wr b (base + idx) (Some v) in
  put_buckets array b.

(** The address of the static [kCFTypeArrayCallBacks] is not distinguished
    from its contents. *)
Section Array.
Context (kCFTypeArrayCallBacks : CFArrayCallBacks).
Context (call_retain : Z -> Z -> Z).
Context (call_equal : Z -> Z -> Z -> bool).
Context (call_compare : Z -> Z -> Z -> Z -> Z).

Definition __CFArrayGetCallBacks (array : __CFArray) : CFArrayCallBacks :=
  let f := __CFBitfieldGetValue (_cfinfo array) 3 2 in
  if f =? __kCFArrayHasNullCallBacks then __kCFNullArrayCallBacks
  else if f =? __kCFArrayHasCFTypeCallBacks then kCFTypeArrayCallBacks
  else custom_callbacks array.

Definition __CFArrayCallBacksMatchNull (c : option CFArrayCallBacks) : bool :=
  match c with
  | None => true
  | Some c => bool_decide (c = __kCFNullArrayCallBacks)
  end.

Definition __CFArrayCallBacksMatchCFType (c : CFArrayCallBacks) : bool :=
  bool_decide (c = kCFTypeArrayCallBacks).

(** ** Releasing *)

(** Release (when there is a callback) and clear [n] buckets from [idx] on. *)
Fixpoint release_loop (n : nat) (array : __CFArray) (release loc idx : Z) : io __CFArray :=
  match n with
  | O => io_ret array
  | S n =>
      do* item := io_lift (__CFArrayGetBucketAtIndex array (idx + loc)) in
      do* _ := (if negb (release =? 0) then emit (EvRelease release item) else io_ret tt) in
      do* array := io_lift (set_bucket array (idx + loc) 0) in
      release_loop n array release loc (idx + 1)
  end.

(** Clearing without releasing does not read the buckets. *)
Fixpoint clear_loop (n : nat) (array : __CFArray) (loc idx : Z) : option __CFArray :=
  match n with
  | O => Some array
  | S n => let* array := set_bucket array (idx + loc) 0 in clear_loop n array loc (idx + 1)
  end.

Definition __CFArrayReleaseValues (array : __CFArray) (range : CFRange) (releaseStorageIfPossible : bool) :
    io __CFArray :=
  let cb := __CFArrayGetCallBacks array in
  if __CFArrayGetType array =? __kCFArrayImmutable then
    if negb (cb_release cb =? 0) && (0 <? range_length range) && negb (hasBeenFinalized array)
    then release_loop (Z.to_nat (range_length range)) array (cb_release cb) (location range) 0
    else io_ret array
  else if __CFArrayGetType array =? __kCFArrayDeque then
    do* array :=
      (match _store array with
       | Some _ =>
           if (0 <? range_length range) && negb (hasBeenFinalized array) then
             if negb (cb_release cb =? 0)
             then release_loop (Z.to_nat (range_length range)) array (cb_release cb) (location range) 0
             else io_lift (clear_loop (Z.to_nat (range_length range)) array (location range) 0)
           else io_ret array
       | None => io_ret array
       end) in
    if releaseStorageIfPossible && (0 =? location range) && (__CFArrayGetCount array =? range_length range)
    then io_ret (set_store (__CFArraySetCount array 0) None)
    else io_ret array
  else io_ret array.

Definition __CFArrayDeallocate (array : __CFArray) : io __CFArray :=
  __CFArrayReleaseValues array (CFRangeMake 0 (__CFArrayGetCount array)) true.

(** ** Creating *)

Definition __CFArrayInit (instance_ok : bool) (flags capacity : Z) (callBacks : option CFArrayCallBacks) :
    option __CFArray :=
  let flags := __CFBitfieldSetValue flags 31 2 0 in
  let flags :=
    if __CFArrayCallBacksMatchNull callBacks then
      __CFBitfieldSetValue flags 3 2 __kCFArrayHasNullCallBacks
    else match callBacks with
      | Some c => if __CFArrayCallBacksMatchCFType c
                  then __CFBitfieldSetValue flags 3 2 __kCFArrayHasCFTypeCallBacks
                  else __CFBitfieldSetValue flags 3 2 __kCFArrayHasCustomCallBacks
      | None => flags
      end in
  if negb instance_ok then None else
  let memory := mkArray (__CFBitfieldSetValue 128 6 0 flags) 0 0 0 None __kCFNullArrayCallBacks
    (if __CFBitfieldGetValue flags 1 0 =? __kCFArrayImmutable
     then replicate (Z.to_nat capacity) None else []) in
  let memory := if __CFBitfieldGetValue flags 1 0 =? __kCFArrayDeque
    then mkArray (_cfinfo memory) 0 1 0 None (custom_callbacks memory) (inline_buckets memory) else memory in
  Some (if __CFBitfieldGetValue flags 3 2 =? __kCFArrayHasCustomCallBacks
        then match callBacks with
             | Some c => mkArray (_cfinfo memory) (_count memory) (_mutations memory) (_mutInProgress memory)
                           (_store memory) c (inline_buckets memory)
             | None => memory
             end
        else memory).

(** Retain (when there is a callback) [values] into the buckets from [idx]. *)
Fixpoint create_loop (values : list Z) (array : __CFArray) (retain idx : Z) : io __CFArray :=
  match values with
  | [] => io_ret array
  | v :: values =>
      do* v := (if negb (retain =? 0)
                then do* _ := emit (EvRetain retain v) in io_ret (call_retain retain v)
                else io_ret v) in
      do* array := io_lift (set_bucket array idx v) in
      create_loop values array retain (idx + 1)
  end.

(** [values] are the first [numValues] cells of the caller's array. *)
Definition __CFArrayCreate0 (values : list Z) (callBacks : option CFArrayCallBacks) : io __CFArray :=
  let numValues := Z.of_nat (length values) in
  do* result := io_lift (__CFArrayInit true __kCFArrayImmutable numValues callBacks) in
  let cb := __CFArrayGetCallBacks result in
  do* result := create_loop values result (cb_retain cb) 0 in
  io_ret (__CFArraySetCount result numValues).

Definition __CFArrayCreateMutable0 (instance_ok : bool) (capacity : Z) (callBacks : option CFArrayCallBacks) :
    option __CFArray := __CFArrayInit instance_ok __kCFArrayDeque capacity callBacks.

Definition CFArrayCreate := __CFArrayCreate0.
Definition CFArrayCreateMutable := __CFArrayCreateMutable0.

(** An immutable array that takes over already retained values. *)
Definition __CFArrayCreateTransfer (instance_ok : bool) (values : list Z) : option (option __CFArray) :=
  let numValues := Z.of_nat (length values) in
  let flags := __CFBitfieldSetValue __kCFArrayImmutable 31 2 0 in
  let flags := __CFBitfieldSetValue flags 3 2 __kCFArrayHasCFTypeCallBacks in
  if negb instance_ok then Some None else
  let memory := mkArray (__CFBitfieldSetValue 128 6 0 flags) 0 0 0 None __kCFNullArrayCallBacks
    (replicate (length values) None) in
  let memory := __CFArraySetCount memory numValues in
  let* b := memmove (inline_buckets memory) 0 (Some <$> values) 0 numValues in
  Some (Some (set_inline memory b)).

(** ** Queries *)

Definition CFArrayGetCount (array : __CFArray) : Z := __CFArrayGetCount array.

Definition CFArrayGetValueAtIndex (array : __CFArray) (idx : Z) : option Z :=
  __CFArrayGetBucketAtIndex array idx.

Definition _CFArrayCheckAndGetValueAtIndex (array : __CFArray) (idx : Z) : option Z :=
  if (0 <=? idx) && (idx <? __CFArrayGetCount array) then __CFArrayGetBucketAtIndex array idx
  else Some (-1).

(** [value == item || (cb->equal && cb->equal(value, item))] *)
Definition value_matches (cb : CFArrayCallBacks) (value item : Z) : bool :=
  (value =? item) || (negb (cb_equal cb =? 0) && call_equal (cb_equal cb) value item).

Fixpoint count_loop (n : nat) (array : __CFArray) (loc idx value count : Z) : option Z :=
  match n with
  | O => Some count
  | S n =>
      let* item := CFArrayGetValueAtIndex array (loc + idx) in
      count_loop n array loc (idx + 1) value
        (if value_matches (__CFArrayGetCallBacks array) value item then count + 1 else count)
  end.

Definition CFArrayGetCountOfValue (array : __CFArray) (range : CFRange) (value : Z) : option Z :=
  count_loop (Z.to_nat (range_length range)) array (location range) 0 value 0.

Fixpoint first_loop (n : nat) (array : __CFArray) (loc idx value : Z) : option Z :=
  match n with
  | O => Some kCFNotFound
  | S n =>
      let* item := CFArrayGetValueAtIndex array (loc + idx) in
      if value_matches (__CFArrayGetCallBacks array) value item then Some (idx + loc)
      else first_loop n array loc (idx + 1) value
  end.

Definition CFArrayGetFirstIndexOfValue (array : __CFArray) (range : CFRange) (value : Z) : option Z :=
  first_loop (Z.to_nat (range_length range)) array (location range) 0 value.

Fixpoint contains_loop (n : nat) (array : __CFArray) (loc idx value : Z) : option bool :=
  match n with
  | O => Some false
  | S n =>
      let* item := CFArrayGetValueAtIndex array (loc + idx) in
      if value_matches (__CFArrayGetCallBacks array) value item then Some true
      else contains_loop n array loc (idx + 1) value
  end.

Definition CFArrayContainsValue (array : __CFArray) (range : CFRange) (value : Z) : option bool :=
  contains_loop (Z.to_nat (range_length range)) array (location range) 0 value.

(** [for (idx = range.length; idx--;)] *)
Fixpoint last_loop (n : nat) (array : __CFArray) (loc value : Z) : option Z :=
  match n with
  | O => Some kCFNotFound
  | S n =>
      let* item := CFArrayGetValueAtIndex array (loc + Z.of_nat n) in
      if value_matches (__CFArrayGetCallBacks array) value item then Some (Z.of_nat n + loc)
      else last_loop n array loc value
  end.

Definition CFArrayGetLastIndexOfValue (array : __CFArray) (range : CFRange) (value : Z) : option Z :=
  last_loop (Z.to_nat (range_length range)) array (location range) value.

(** [values] is the caller's buffer. *)
Definition CFArrayGetValues (array : __CFArray) (range : CFRange) (values : list (option Z)) :
    option (list (option Z)) :=
  if 0 <? range_length range then
    let* (b, base) := __CFArrayGetBucketsPtr array in
    memmove values 0 b (base + location range) (range_length range)
  else Some values.

Fixpoint apply_loop (n : nat) (array : __CFArray) (loc idx applier context : Z) : io unit :=
  match n with
  | O => io_ret tt
  | S n =>
      do* item := io_lift (CFArrayGetValueAtIndex array (loc + idx)) in
      do* _ := emit (EvApply applier item context) in
      apply_loop n array loc (idx + 1) applier context
  end.

Definition CFArrayApplyFunction (array : __CFArray) (range : CFRange) (applier context : Z) : io unit :=
  apply_loop (Z.to_nat (range_length range)) array (location range) 0 applier context.

(** [array1 == array2] is the comparison of the two references. *)
Fixpoint equal_loop (n : nat) (array1 array2 : __CFArray) (cb1 : CFArrayCallBacks) (idx : Z) : option bool :=
  match n with
  | O => Some true
  | S n =>
      let* val1 := __CFArrayGetBucketAtIndex array1 idx in
      let* val2 := __CFArrayGetBucketAtIndex array2 idx in
      if negb (val1 =? val2) then
        if cb_equal cb1 =? 0 then Some false
        else if negb (call_equal (cb_equal cb1) val1 val2) then Some false
        else equal_loop n array1 array2 cb1 (idx + 1)
      else equal_loop n array1 array2 cb1 (idx + 1)
  end.

Definition __CFArrayEqual (same : bool) (array1 array2 : __CFArray) : option bool :=
  if same then Some true else
  let cnt := __CFArrayGetCount array1 in
  if negb (cnt =? __CFArrayGetCount array2) then Some false else
  let cb1 := __CFArrayGetCallBacks array1 in
  let cb2 := __CFArrayGetCallBacks array2 in
  if negb (cb_equal cb1 =? cb_equal cb2) then Some false else
  if 0 =? cnt then Some true else
  equal_loop (Z.to_nat cnt) array1 array2 cb1 0.

Definition __CFArrayHash (array : __CFArray) : Z := __CFArrayGetCount array.

(** ** The deque *)

(** Make room for [newCount] values in place of the range: [A] values stay on
    the left, [C] on the right; [L] and [R] buckets are free on the sides. *)
Definition __CFArrayRepositionDequeRegions (array : __CFArray) (range : CFRange) (newCount : Z) :
    option __CFArray :=
  let* deque := _store array in
  let buckets := deque_buckets deque in
  let cnt := __CFArrayGetCount array in
  let futureCnt := cnt - range_length range + newCount in
  let L := _leftIdx deque in
  let A := location range in
  let B := range_length range in
  let C := cnt - B - A in
  let R := _capacity deque - cnt - L in
  let numNewElems := newCount - B in
  let wiggle := Z.shiftr (_capacity deque) 17 in
  let wiggle := if wiggle <? 4 then 4 else wiggle in
  if (_capacity deque <? uwrap 32 futureCnt) || ((cnt <? futureCnt) && (L + R <? wiggle)) then
    let* capacity := __CFArrayDequeRoundUpCapacity (futureCnt + wiggle) in
    let newBuckets := replicate (Z.to_nat capacity) None in
    let oldL := L in
    let newL := Z.quot (capacity - futureCnt) 2 in
    let oldC0 := oldL + A + B in
    let newC0 := newL + A + newCount in
    let* newBuckets := (if 0 <? A then memmove newBuckets newL buckets oldL A else Some newBuckets) in
    let* newBuckets := (if 0 <? C then memmove newBuckets newC0 buckets oldC0 C else Some newBuckets) in
    Some (set_store array (Some (mkDeque newL capacity newBuckets)))
  else if ((numNewElems <? 0) && (C <? A)) || ((numNewElems <=? R) && (C <? A)) then
    let oldC0 := L + A + B in
    let newC0 := L + A + newCount in
    let* buckets := (if 0 <? C then memmove buckets newC0 buckets oldC0 C else Some buckets) in
    let* buckets := (if newC0 <? oldC0 then memset buckets (newC0 + C) (Some 0) (oldC0 - newC0) else Some buckets) in
    Some (set_store array (Some (mkDeque L (_capacity deque) buckets)))
  else if (numNewElems <? 0) || ((numNewElems <=? L) && (A <=? C)) then
    let oldL := L in
    let newL := L - numNewElems in
    let* buckets := (if 0 <? A then memmove buckets newL buckets oldL A else Some buckets) in
    let* buckets := (if oldL <? newL then memset buckets oldL (Some 0) (newL - oldL) else Some buckets) in
    Some (set_store array (Some (mkDeque newL (_capacity deque) buckets)))
  else
    let oldL := L in
    let newL := Z.quot (L + R - numNewElems) 2 in
    let newL := newL - Z.quot newL 2 in
    let oldC0 := oldL + A + B in
    let newC0 := newL + A + newCount in
    if newL <? oldL then
      let* buckets := (if 0 <? A then memmove buckets newL buckets oldL A else Some buckets) in
      let* buckets := (if 0 <? C then memmove buckets newC0 buckets oldC0 C else Some buckets) in
      let* buckets := (if newC0 <? oldC0 then memset buckets (newC0 + C) (Some 0) (oldC0 - newC0) else Some buckets) in
      Some (set_store array (Some (mkDeque newL (_capacity deque) buckets)))
    else
      let* buckets := (if 0 <? C then memmove buckets newC0 buckets oldC0 C else Some buckets) in
      let* buckets := (if 0 <? A then memmove buckets newL buckets oldL A else Some buckets) in
      let* buckets := (if oldL <? newL then memset buckets oldL (Some 0) (newL - oldL) else Some buckets) in
      Some (set_store array (Some (mkDeque newL (_capacity deque) buckets))).

(** A NULL block from the allocator ends in [HALT] here. *)
Definition _CFArraySetCapacity (array : __CFArray) (cap : Z) : option __CFArray :=
  if __CFArrayGetType array =? __kCFArrayDeque then
    let* capacity := __CFArrayDequeRoundUpCapacity cap in
    let fresh := replicate (Z.to_nat capacity) None in
    let* deque :=
      match _store array with
      | None => Some (mkDeque (Z.quot capacity 2) capacity fresh)
      | Some olddeque =>
          let oldcap := _capacity olddeque in
          let* b := memmove fresh 0 (deque_buckets olddeque) 0 oldcap in
          Some (mkDeque (_leftIdx olddeque) oldcap b)
      end in
    Some (set_store array (Some (mkDeque (_leftIdx deque) capacity (deque_buckets deque))))
  else Some array.

(** Retain the new values into a temporary buffer. *)
Fixpoint retain_loop (retain : Z) (newValues : list Z) : io (list Z) :=
  match newValues with
  | [] => io_ret []
  | v :: newValues =>
      do* _ := emit (EvRetain retain v) in
      do* rest := retain_loop retain newValues in
      io_ret (call_retain retain v :: rest)
  end.

(** [newValues] are the [newCount] values the caller passes. *)
Definition _CFArrayReplaceValues (array : __CFArray) (range : CFRange) (newValues : list Z) : io __CFArray :=
  let newCount := Z.of_nat (length newValues) in
  let cnt := __CFArrayGetCount array in
  let futureCnt := cnt - range_length range + newCount in
  let cb := __CFArrayGetCallBacks array in
  do* newv :=
    (if negb (cb_retain cb =? 0) && negb (hasBeenFinalized array)
     then retain_loop (cb_retain cb) newValues else io_ret newValues) in
  let array := mutated array in
  do* array :=
    (if 0 <? range_length range then __CFArrayReleaseValues array range false else io_ret array) in
  do* array :=
    io_lift (match _store array with
     | None =>
         if 0 <=? futureCnt then
           let* capacity := __CFArrayDequeRoundUpCapacity futureCnt in
           Some (set_store array (Some (mkDeque (Z.quot (capacity - newCount) 2) capacity
                                          (replicate (Z.to_nat capacity) None))))
         else Some array
     | Some _ =>
         if negb (range_length range =? newCount)
         then __CFArrayRepositionDequeRegions array range newCount else Some array
     end) in
  do* array :=
    io_lift (if 0 <? newCount then
       let* deque := _store array in
       let* b := memmove (deque_buckets deque) (_leftIdx deque + location range) (Some <$> newv) 0 newCount in
       Some (set_store array (Some (mkDeque (_leftIdx deque) (_capacity deque) b)))
     else Some array) in
  io_ret (__CFArraySetCount array futureCnt).

Definition CFArrayReplaceValues (array : __CFArray) (range : CFRange) (newValues : list Z) : io __CFArray :=
  _CFArrayReplaceValues array range newValues.

Definition CFArrayAppendValue (array : __CFArray) (value : Z) : io __CFArray :=
  _CFArrayReplaceValues array (CFRangeMake (__CFArrayGetCount array) 0) [value].

Definition CFArraySetValueAtIndex (array : __CFArray) (idx value : Z) : io __CFArray :=
  if idx =? __CFArrayGetCount array then _CFArrayReplaceValues array (CFRangeMake idx 0) [value]
  else
    let cb := __CFArrayGetCallBacks array in
    do* value :=
      (if negb (cb_retain cb =? 0) && negb (hasBeenFinalized array)
       then do* _ := emit (EvRetain (cb_retain cb) value) in io_ret (call_retain (cb_retain cb) value)
       else io_ret value) in
    do* old_value := io_lift (__CFArrayGetBucketAtIndex array idx) in
    do* array := io_lift (set_bucket array idx value) in
    do* _ :=
      (if negb (cb_release cb =? 0) && negb (hasBeenFinalized array)
       then emit (EvRelease (cb_release cb) old_value) else io_ret tt) in
    io_ret (mutated array).

Definition CFArrayInsertValueAtIndex (array : __CFArray) (idx value : Z) : io __CFArray :=
  _CFArrayReplaceValues array (CFRangeMake idx 0) [value].

Definition CFArrayExchangeValuesAtIndices (array : __CFArray) (idx1 idx2 : Z) : option __CFArray :=
  let* tmp := __CFArrayGetBucketAtIndex array idx1 in
  let* item2 := __CFArrayGetBucketAtIndex array idx2 in
  let* array := set_bucket array idx1 item2 in
  let* array := set_bucket array idx2 tmp in
  Some (mutated array).

Definition CFArrayRemoveValueAtIndex (array : __CFArray) (idx : Z) : io __CFArray :=
  _CFArrayReplaceValues array (CFRangeMake idx 1) [].

Definition CFArrayRemoveAllValues (array : __CFArray) : io __CFArray :=
  do* array := __CFArrayReleaseValues array (CFRangeMake 0 (__CFArrayGetCount array)) true in
  io_ret (mutated (__CFArraySetCount array 0)).

Fixpoint append_loop (n : nat) (array otherArray : __CFArray) (idx : Z) : io __CFArray :=
  match n with
  | O => io_ret array
  | S n =>
      do* v := io_lift (CFArrayGetValueAtIndex otherArray idx) in
      do* array := CFArrayAppendValue array v in
      append_loop n array otherArray (idx + 1)
  end.

(** The other array is a different object: appending does not change it. *)
Definition CFArrayAppendArray (array otherArray : __CFArray) (otherRange : CFRange) : io __CFArray :=
  append_loop (Z.to_nat (range_length otherRange)) array otherArray (location otherRange).

(** ** Copying *)

(** Each value is read, retained and stored. *)
Fixpoint copy_loop (n : nat) (array result : __CFArray) (retain idx : Z) : io __CFArray :=
  match n with
  | O => io_ret result
  | S n =>
      do* value := io_lift (CFArrayGetValueAtIndex array idx) in
      do* value := (if negb (retain =? 0)
                    then do* _ := emit (EvRetain retain value) in io_ret (call_retain retain value)
                    else io_ret value) in
      do* result := io_lift (set_bucket result idx value) in
      copy_loop n array result retain (idx + 1)
  end.

Definition __CFArrayCreateCopy0 (array : __CFArray) : io __CFArray :=
  let numValues := CFArrayGetCount array in
  let cb := __CFArrayGetCallBacks array in
  do* result := io_lift (__CFArrayInit true __kCFArrayImmutable numValues (Some cb)) in
  let cb := __CFArrayGetCallBacks result in
  do* result := copy_loop (Z.to_nat numValues) array result (cb_retain cb) 0 in
  io_ret (__CFArraySetCount result numValues).

Definition __CFArrayCreateMutableCopy0 (capacity : Z) (array : __CFArray) : io __CFArray :=
  let numValues := CFArrayGetCount array in
  let cb := __CFArrayGetCallBacks array in
  do* result := io_lift (__CFArrayInit true __kCFArrayDeque capacity (Some cb)) in
  do* result := io_lift (if 0 =? capacity then _CFArraySetCapacity result numValues else Some result) in
  append_loop (Z.to_nat numValues) result array 0.

Definition CFArrayCreateCopy := __CFArrayCreateCopy0.
Definition CFArrayCreateMutableCopy := __CFArrayCreateMutableCopy0.

(** ** Searching and sorting *)

(** The probes of the binary search after the first: [lg] counts down. *)
Fixpoint bsearch_loop (lg : nat) (array : __CFArray) (loc value comparator context idx : Z) : option Z :=
  match lg with
  | O => Some idx
  | S lg =>
      let* step := int_shl1 (Z.of_nat lg) in
      let* item := CFArrayGetValueAtIndex array (loc + idx + step) in
      bsearch_loop lg array loc value comparator context
        (if call_compare comparator item value context <? 0 then idx + step else idx)
  end.

Definition CFArrayBSearchValues (array : __CFArray) (range : CFRange) (value comparator context : Z) : option Z :=
  if range_length range <=? 0 then Some (location range) else
  let* item := CFArrayGetValueAtIndex array (location range + range_length range - 1) in
  if call_compare comparator item value context <? 0 then Some (location range + range_length range) else
  let* item := CFArrayGetValueAtIndex array (location range) in
  if call_compare comparator value item context <? 0 then Some (location range) else
  let lg := flsl (range_length range) - 1 in
  let* p := int_shl1 lg in
  let* item := CFArrayGetValueAtIndex array (location range + -1 + p) in
  let idx := if call_compare comparator item value context <? 0 then range_length range - p else -1 in
  let* idx := bsearch_loop (Z.to_nat lg) array (location range) value comparator context idx in
  let idx := idx + 1 in
  Some (idx + location range).

(** One pass of the exchange sort: neighbours [idx], [idx + 1]. *)
Fixpoint zsort_pass (n : nat) (array : __CFArray) (idx comparator context : Z) : option __CFArray :=
  match n with
  | O => Some array
  | S n =>
      let* a := CFArrayGetValueAtIndex array idx in
      let* b := CFArrayGetValueAtIndex array (idx + 1) in
      let* array := (if call_compare comparator b a context <? 0
                     then CFArrayExchangeValuesAtIndices array idx (idx + 1) else Some array) in
      zsort_pass n array (idx + 1) comparator context
  end.

(** [while (1 < cnt)]: [cnt] passes, each one shorter. *)
Fixpoint zsort_loop (cnt : nat) (array : __CFArray) (loc comparator context : Z) : option __CFArray :=
  match cnt with
  | O | S O => Some array
  | S n => let* array := zsort_pass n array loc comparator context in
           zsort_loop n array loc comparator context
  end.

Definition __CFZSort (array : __CFArray) (range : CFRange) (comparator context : Z) : option __CFArray :=
  zsort_loop (Z.to_nat (range_length range)) array (location range) comparator context.

(** The context and the comparator handed to the sort routine: the two values
    the addresses point to, then the context. *)
Record _acompareContext := { func : Z; context : Z }.

Definition __CFArrayCompareValues (ctx : _acompareContext) (v1 v2 : Z) : Z :=
  call_compare (func ctx) v1 v2 (context ctx).

Definition sizeof_ptr : Z := 8.

(** The values of the range are copied out, sorted and put back. *)
Definition _CFArraySortValues (array : __CFArray) (comparator ctx : Z) : io __CFArray :=
  let range := CFRangeMake 0 (CFArrayGetCount array) in
  if range_length range <? 2 then io_ret array else
  do* values := io_lift (CFArrayGetValues array range (replicate (Z.to_nat (range_length range)) None)) in
  do* values := io_lift (all_written values) in
  do* values := io_lift (CFQSortArray (__CFArrayCompareValues {| func := comparator; context := ctx |}) values
                           (range_length range) sizeof_ptr) in
  CFArrayReplaceValues array range values.

Definition CFArraySortValues (array : __CFArray) (range : CFRange) (comparator ctx : Z) : io __CFArray :=
  let immutable := __kCFArrayImmutable =? __CFArrayGetType array in
  let cb := __CFArrayGetCallBacks array in
  if negb immutable && ((negb (cb_retain cb =? 0) && (cb_release cb =? 0)) ||
                        ((cb_retain cb =? 0) && negb (cb_release cb =? 0)))
  then io_lift (__CFZSort array range comparator ctx) else
  if range_length range <? 2 then io_ret array else
  do* values := io_lift (CFArrayGetValues array range (replicate (Z.to_nat (range_length range)) None)) in
  do* values := io_lift (all_written values) in
  do* values := io_lift (CFQSortArray (__CFArrayCompareValues {| func := comparator; context := ctx |}) values
                           (range_length range) sizeof_ptr) in
  if negb immutable then CFArrayReplaceValues array range values else io_ret array.
End Array.

(** ** What an array represents *)

(** The values [vals] sit in consecutive cells of [b] from [base] on. *)
Definition cells (b : list (option Z)) (base : Z) (vals : list Z) : Prop :=
  0 <= base /\ base + Z.of_nat (length vals) <= Z.of_nat (length b) /\
  forall k v, vals !! k = Some v -> rd b (base + Z.of_nat k) = Some (Some v).

(** Capacities stay at most 2^30, where [1 << flsl(capacity)] is defined. *)
Record array_rep (a : __CFArray) (vals : list Z) : Prop := {
  rep_count : _count a = Z.of_nat (length vals);
  rep_alive : hasBeenFinalized a = false;
  rep_cells :
    (__CFArrayGetType a = __kCFArrayImmutable /\ cells (inline_buckets a) 0 vals) \/
    (__CFArrayGetType a = __kCFArrayDeque /\
     match _store a with
     | None => vals = []
     | Some d => _capacity d = Z.of_nat (length (deque_buckets d)) /\ _capacity d <= 2 ^ 30 /\
                 cells (deque_buckets d) (_leftIdx d) vals
     end)
}.

(** The fields no operation changes. *)
Definition same_header (a a' : __CFArray) : Prop :=
  _cfinfo a' = _cfinfo a /\ custom_callbacks a' = custom_callbacks a.

Lemma same_header_trans a1 a2 a3 : same_header a1 a2 -> same_header a2 a3 -> same_header a1 a3.
Proof. intros [? ?] [? ?]. split; congruence. Qed.

Lemma same_header_type a a' : same_header a a' -> __CFArrayGetType a' = __CFArrayGetType a.
Proof. intros [E _]. unfold __CFArrayGetType. by rewrite E. Qed.

Lemma same_header_alive a a' : same_header a a' -> hasBeenFinalized a' = hasBeenFinalized a.
Proof. intros [E _]. unfold hasBeenFinalized. by rewrite E. Qed.

Lemma same_header_callbacks ty a a' :
  same_header a a' -> __CFArrayGetCallBacks ty a' = __CFArrayGetCallBacks ty a.
Proof. intros [E1 E2]. unfold __CFArrayGetCallBacks. by rewrite E1, E2. Qed.

Lemma cells_lookup b base vals k v :
  cells b base vals -> vals !! k = Some v -> rdi b (base + Z.of_nat k) = Some v.
Proof. intros (_ & _ & H) Hk. unfold rdi. by rewrite (H k v Hk). Qed.

Lemma cells_write b base vals k v :
  cells b base vals -> (k < length vals)%nat ->
  exists b', wr b (base + Z.of_nat k) (Some v) = Some b' /\ length b' = length b /\ cells b' base (<[k := v]> vals).
Proof.
  intros (H0 & H1 & H2) Hk. destruct (wr_rd b (base + Z.of_nat k) (Some v)) as (b' & -> & Hl & Hr); [lia|].
  exists b'. split_and!; [done|done|]. split_and!; [done|rewrite length_insert; lia|]. intros j w Hj.
  rewrite Hr by lia. destruct (decide (j = k)) as [->|Hne].
  - rewrite list_lookup_insert_eq in Hj by done. injection Hj as <-. by rewrite Z.eqb_refl.
  - rewrite list_lookup_insert_ne in Hj by done. destruct (Z.eqb_spec (base + Z.of_nat j) (base + Z.of_nat k)); [lia|]. auto.
Qed.

Lemma rep_nonempty a vals k v :
  array_rep a vals -> vals !! k = Some v ->
  exists b base, __CFArrayGetBucketsPtr a = Some (b, base) /\ cells b base vals /\
    forall b', length b' = length b -> forall vals', length vals' = length vals -> cells b' base vals' ->
      exists a', put_buckets a b' = Some a' /\ array_rep a' vals' /\ same_header a a' /\ _mutations a' = _mutations a.
Proof.
  intros [Hc Hf [[Ht Hcell]|[Ht Hs]]] Hk; unfold __CFArrayGetBucketsPtr, put_buckets; rewrite Ht; simpl.
  - eexists _, _. split_and!; [done|done|]. intros b' _ vals' Hl Hcell'. eexists. split_and!; [done| |done|done].
    split; simpl; [congruence|done|left; done].
  - destruct (_store a) as [d|]; [|subst; done]. destruct Hs as (Hcap & Hmax & Hcell).
    eexists _, _. split_and!; [done|done|]. intros b' Hlb vals' Hl Hcell'. eexists. split_and!; [done| |done|done].
    split; simpl; [congruence|done|right]. split; [done|]. simpl. rewrite Hlb. done.
Qed.

Lemma get_bucket_spec a vals k v :
  array_rep a vals -> vals !! k = Some v -> __CFArrayGetBucketAtIndex a (Z.of_nat k) = Some v.
Proof.
  intros Hr Hk. destruct (rep_nonempty a vals k v Hr Hk) as (b & base & E & Hcell & _).
  unfold __CFArrayGetBucketAtIndex. rewrite E. cbn [opt_bind]. by eapply cells_lookup.
Qed.

Lemma set_bucket_spec a vals k v :
  array_rep a vals -> (k < length vals)%nat ->
  exists a', set_bucket a (Z.of_nat k) v = Some a' /\ array_rep a' (<[k := v]> vals) /\ same_header a a' /\
    _mutations a' = _mutations a.
Proof.
  intros Hr Hk. destruct (lookup_lt_is_Some_2 vals k Hk) as [w Hw].
  destruct (rep_nonempty a vals k w Hr Hw) as (b & base & E & Hcell & Hput).
  destruct (cells_write b base vals k v Hcell Hk) as (b' & Ew & Hl & Hcell').
  unfold set_bucket. rewrite E. cbn [opt_bind]. rewrite Ew. cbn [opt_bind].
  apply Hput; [done|apply length_insert|done].
Qed.

(** ** Rounding up the capacity *)

Lemma round_up_deque n :
  0 <= n < 2 ^ 29 -> exists c, __CFArrayDequeRoundUpCapacity n = Some c /\ n <= c <= 2 ^ 30 /\ 4 <= c /\ (4 <= n -> c <= 2 * n).
Proof.
  intros Hn. unfold __CFArrayDequeRoundUpCapacity. destruct (Z.ltb_spec n 4).
  - exists 4. split_and!; [done|lia..].
  - destruct (shl_flsl_bounds n) as (c & -> & Hc); [lia|]. cbn [opt_bind].
    exists c. rewrite Z.min_l by (unfold __CF_MAX_BUCKETS_PER_DEQUE, LONG_MAX; lia). split_and!; [done|lia..].
Qed.

(** ** Repositioning the deque *)

Section Reposition.
Context (a : __CFArray) (d : __CFArrayDeque) (A B C newCount : Z).

(** The outcome: room for [newCount] values between the first [A] and the last
    [C], which are where they were relative to each other. *)
Definition repositioned (a' : __CFArray) : Prop :=
  exists d', a' = set_store a (Some d') /\
    _capacity d' = Z.of_nat (length (deque_buckets d')) /\ _capacity d' <= 2 ^ 30 /\
    0 <= _leftIdx d' /\ _leftIdx d' + (A + newCount + C) <= _capacity d' /\
    (forall i, 0 <= i < A -> rd (deque_buckets d') (_leftIdx d' + i) = rd (deque_buckets d) (_leftIdx d + i)) /\
    (forall i, 0 <= i < C -> rd (deque_buckets d') (_leftIdx d' + A + newCount + i) =
                             rd (deque_buckets d) (_leftIdx d + A + B + i)).

Context (Hstore : _store a = Some d) (Hcount : _count a = A + B + C).
Context (Hcap : _capacity d = Z.of_nat (length (deque_buckets d))) (Hmax : _capacity d <= 2 ^ 30).
Context (HL : 0 <= _leftIdx d) (HR : _leftIdx d + (A + B + C) <= _capacity d).
Context (HA : 0 <= A) (HB : 0 <= B) (HC : 0 <= C) (Hnew : 0 <= newCount).
Context (Hsmall : A + newCount + C < 2 ^ 28).

Ltac pointwise :=
  intros i Hi;
  repeat (match goal with H : forall i, 0 <= i -> rd ?x i = _ |- context [rd ?x _] => rewrite H by lia end;
          bool_case; cbn [andb]); try (f_equal; lia); try lia.

Lemma reposition_spec :
  exists a', __CFArrayRepositionDequeRegions a (CFRangeMake A B) newCount = Some a' /\ repositioned a'.
Proof.
  unfold __CFArrayRepositionDequeRegions. rewrite Hstore. cbn [opt_bind location range_length].
  unfold __CFArrayGetCount. rewrite Hcount. cbv zeta.
  replace (A + B + C - B + newCount) with (A + newCount + C) by lia.
  replace (A + B + C - B - A) with C by lia.
  rewrite (uwrap_id 32) by (unfold in_unsigned; lia).
  set (L := _leftIdx d) in *. set (cap := _capacity d) in *. set (b := deque_buckets d) in *.
  set (wiggle := if Z.shiftr cap 17 <? 4 then 4 else Z.shiftr cap 17).
  assert (4 <= wiggle <= 2 ^ 13) as Hw.
  { unfold wiggle. rewrite Z.shiftr_div_pow2 by lia.
    assert (cap / 2 ^ 17 <= 2 ^ 13) by (apply Z.div_le_upper_bound; lia).
    destruct (Z.ltb_spec (cap / 2 ^ 17) 4); lia. }
  destruct ((cap <? A + newCount + C) || _) eqn:E1.
  { destruct (round_up_deque (A + newCount + C + wiggle)) as (c & -> & Hc); [lia|]. cbn [opt_bind].
    rewrite Z.quot_div_nonneg by lia. set (nL := (c - (A + newCount + C)) / 2).
    assert (0 <= nL /\ nL + (A + newCount + C) <= c) by (unfold nL; Z.to_euclidean_division_equations; lia).
    destruct (memmove_if_rd (replicate (Z.to_nat c) None) b nL L A) as (b1 & -> & Hl1 & H1);
      [rewrite ?length_replicate; lia..|]. cbn [opt_bind].
    rewrite length_replicate in Hl1.
    destruct (memmove_if_rd b1 b (nL + A + newCount) (L + A + B) C) as (b2 & -> & Hl2 & H2); [lia..|]. cbn [opt_bind].
    eexists. split; [done|]. eexists. split_and!; [done|cbn [_capacity deque_buckets _leftIdx]; try lia..].
    - pointwise.
    - pointwise. }
  apply orb_false_iff in E1 as [E1 _]. apply Z.ltb_ge in E1. clear Hw wiggle.
  destruct (_ || _) eqn:E2.
  { assert (newCount - B <= cap - (A + B + C) - L /\ C < A) as [Hr HCA].
    { apply orb_true_iff in E2 as [E2|E2]; apply andb_true_iff in E2 as [E2 E3]; [apply Z.ltb_lt in E2|apply Z.leb_le in E2]; apply Z.ltb_lt in E3; lia. }
    destruct (memmove_if_rd b b (L + A + newCount) (L + A + B) C) as (b1 & -> & Hl1 & H1); [lia..|]. cbn [opt_bind].
    destruct (memset_if_rd b1 (L + A + newCount + C) (Some 0) (L + A + B) (L + A + newCount)) as (b2 & -> & Hl2 & H2); [lia..|].
    cbn [opt_bind]. eexists. split; [done|]. eexists. split_and!; [done|cbn [_capacity deque_buckets _leftIdx]; try lia..].
    - pointwise.
    - pointwise. }
  clear E2. destruct (_ || _) eqn:E3.
  { assert (newCount - B <= L) as Hr.
    { apply orb_true_iff in E3 as [E3|E3]; [apply Z.ltb_lt in E3; lia|]. apply andb_true_iff in E3 as [E3 _]. apply Z.leb_le in E3. lia. }
    destruct (memmove_if_rd b b (L - (newCount - B)) L A) as (b1 & -> & Hl1 & H1); [lia..|]. cbn [opt_bind].
    destruct (memset_if_rd b1 L (Some 0) (L - (newCount - B)) L) as (b2 & -> & Hl2 & H2); [lia..|].
    cbn [opt_bind]. eexists. split; [done|]. eexists. split_and!; [done|cbn [_capacity deque_buckets _leftIdx]; try lia..].
    - pointwise.
    - pointwise. }
  apply orb_false_iff in E3 as [E3 _]. apply Z.ltb_ge in E3.
  set (X := L + (cap - (A + B + C) - L) - (newCount - B)).
  set (nL := Z.quot X 2 - Z.quot (Z.quot X 2) 2).
  assert (0 <= nL /\ nL + (A + newCount + C) <= cap) as [Hn1 Hn2].
  { unfold nL, X. rewrite !Z.quot_div_nonneg by (try apply Z.quot_pos; lia). Z.to_euclidean_division_equations; lia. }
  destruct (Z.ltb_spec nL L).
  - destruct (memmove_if_rd b b nL L A) as (b1 & -> & Hl1 & H1); [lia..|]. cbn [opt_bind].
    destruct (memmove_if_rd b1 b1 (nL + A + newCount) (L + A + B) C) as (b2 & -> & Hl2 & H2); [lia..|]. cbn [opt_bind].
    destruct (memset_if_rd b2 (nL + A + newCount + C) (Some 0) (L + A + B) (nL + A + newCount)) as (b3 & -> & Hl3 & H3); [lia..|].
    cbn [opt_bind]. eexists. split; [done|]. eexists. split_and!; [done|cbn [_capacity deque_buckets _leftIdx]; try lia..].
    + pointwise.
    + pointwise.
  - destruct (memmove_if_rd b b (nL + A + newCount) (L + A + B) C) as (b1 & -> & Hl1 & H1); [lia..|]. cbn [opt_bind].
    destruct (memmove_if_rd b1 b1 nL L A) as (b2 & -> & Hl2 & H2); [lia..|]. cbn [opt_bind].
    destruct (memset_if_rd b2 L (Some 0) nL L) as (b3 & -> & Hl3 & H3); [lia..|].
    cbn [opt_bind]. eexists. split; [done|]. eexists. split_and!; [done|cbn [_capacity deque_buckets _leftIdx]; try lia..].
    + pointwise.
    + pointwise.
Qed.
End Reposition.

(** ** Loops over the buckets *)

(** The calls a retain or release callback gets, none for a NULL one. *)
Definition release_events (release : Z) (vals : list Z) : list event :=
  if release =? 0 then [] else EvRelease release <$> vals.

Definition retain_events (retain : Z) (vals : list Z) : list event :=
  if retain =? 0 then [] else EvRetain retain <$> vals.

Definition retained (call_retain : Z -> Z -> Z) (retain : Z) (vals : list Z) : list Z :=
  if retain =? 0 then vals else call_retain retain <$> vals.

Lemma length_retained cr r vals : length (retained cr r vals) = length vals.
Proof. unfold retained. destruct (r =? 0); [done|apply length_fmap]. Qed.

(** [len] values from [loc] on replaced by [new]. *)
Definition splice (loc len : nat) (new vals : list Z) : list Z :=
  take loc vals ++ new ++ drop (loc + len) vals.

Lemma length_splice loc len new vals :
  (loc + len <= length vals)%nat -> length (splice loc len new vals) = (length vals - len + length new)%nat.
Proof. intros. unfold splice. rewrite !length_app, length_take, length_drop. lia. Qed.

Lemma splice_step loc n v new vals :
  (loc + S n <= length vals)%nat ->
  splice (S loc) n new (<[loc := v]> vals) = splice loc (S n) (v :: new) vals.
Proof.
  intros. unfold splice. rewrite drop_insert_lt by lia.
  rewrite (take_S_r _ loc v), take_insert_ge by (try apply list_lookup_insert_eq; lia).
  replace (S loc + n)%nat with (loc + S n)%nat by lia. by rewrite <- (assoc_L (++)).
Qed.

Lemma splice_nil loc vals : splice loc 0 [] vals = vals.
Proof. unfold splice. rewrite Nat.add_0_r. simpl. apply take_drop. Qed.

Lemma splice_one loc vals v : (loc < length vals)%nat -> splice loc 1 [v] vals = <[loc := v]> vals.
Proof. intros. rewrite <- (splice_step loc 0 v [] vals) by lia. apply splice_nil. Qed.

Lemma splice_splice loc len new mid vals :
  (loc + len <= length vals)%nat -> length mid = len -> splice loc len new (splice loc len mid vals) = splice loc len new vals.
Proof.
  intros Hl Hm. unfold splice.
  rewrite take_app_le, take_take, Nat.min_id by (rewrite length_take; lia). do 2 f_equal.
  rewrite (assoc_L (++)), drop_app_length'; [done|]. rewrite length_app, length_take. lia.
Qed.

(** Same array but for its buckets. *)
Definition rewritten (a a' : __CFArray) (vals' : list Z) : Prop :=
  array_rep a' vals' /\ same_header a a' /\ _mutations a' = _mutations a.

Lemma array_release_loop_spec n : forall a vals release loc i,
  array_rep a vals -> (loc + i + n <= length vals)%nat ->
  exists a', release_loop n a release (Z.of_nat loc) (Z.of_nat i) =
      Some (a', release_events release (take n (drop (loc + i) vals))) /\
    rewritten a a' (splice (loc + i) n (replicate n 0) vals).
Proof.
  induction n as [|n IH]; intros a vals release loc i Hr Hn.
  - exists a. split; [|by rewrite splice_nil]. unfold release_events. by destruct (release =? 0).
  - destruct (lookup_lt_is_Some_2 vals (loc + i)) as [v Hv]; [lia|].
    destruct (set_bucket_spec a vals (loc + i) 0 Hr ltac:(lia)) as (a1 & E1 & R1 & H1 & M1).
    destruct (IH a1 (<[(loc + i)%nat := 0]> vals) release loc (S i) R1) as (a2 & E2 & R2 & H2 & M2); [rewrite length_insert; lia|].
    exists a2. split; [|split_and!].
    + simpl. replace (Z.of_nat i + Z.of_nat loc) with (Z.of_nat (loc + i)) by lia.
      rewrite (get_bucket_spec a vals _ v Hr Hv), E1. simpl.
      replace (Z.of_nat i + 1) with (Z.of_nat (S i)) by lia. rewrite E2.
      rewrite (drop_S vals v (loc + i)) by done. rewrite drop_insert_lt by lia. simpl.
      replace (loc + S i)%nat with (S (loc + i)) by lia.
      unfold release_events. by destruct (release =? 0).
    + replace (loc + S i)%nat with (S (loc + i)) in R2 by lia. by rewrite splice_step in R2 by lia.
    + by eapply same_header_trans.
    + congruence.
Qed.

Lemma clear_loop_spec n : forall a vals loc i,
  array_rep a vals -> (loc + i + n <= length vals)%nat ->
  exists a', clear_loop n a (Z.of_nat loc) (Z.of_nat i) = Some a' /\
    rewritten a a' (splice (loc + i) n (replicate n 0) vals).
Proof.
  induction n as [|n IH]; intros a vals loc i Hr Hn.
  - exists a. split; [done|by rewrite splice_nil].
  - destruct (set_bucket_spec a vals (loc + i) 0 Hr ltac:(lia)) as (a1 & E1 & R1 & H1 & M1).
    destruct (IH a1 (<[(loc + i)%nat := 0]> vals) loc (S i) R1) as (a2 & E2 & R2 & H2 & M2); [rewrite length_insert; lia|].
    exists a2. split; [|split_and!].
    + simpl. replace (Z.of_nat i + Z.of_nat loc) with (Z.of_nat (loc + i)) by lia. rewrite E1. simpl.
      replace (Z.of_nat i + 1) with (Z.of_nat (S i)) by lia. done.
    + replace (loc + S i)%nat with (S (loc + i)) in R2 by lia. by rewrite splice_step in R2 by lia.
    + by eapply same_header_trans.
    + congruence.
Qed.

Lemma retain_loop_spec cr retain vals :
  retain_loop cr retain vals = Some (cr retain <$> vals, EvRetain retain <$> vals).
Proof. induction vals as [|v vals IH]; [done|]. simpl. rewrite IH. simpl. by rewrite app_nil_r. Qed.

(** ** Releasing a range of a deque *)

Lemma release_values_spec ty a vals loc len flag :
  array_rep a vals -> __CFArrayGetType a = __kCFArrayDeque -> (loc + len <= length vals)%nat ->
  exists a', __CFArrayReleaseValues ty a (CFRangeMake (Z.of_nat loc) (Z.of_nat len)) flag =
      Some (a', release_events (cb_release (__CFArrayGetCallBacks ty a)) (take len (drop loc vals))) /\
    rewritten a a' (if flag && (0 =? Z.of_nat loc) && (_count a =? Z.of_nat len) then []
                    else splice loc len (replicate len 0) vals) /\
    (flag && (0 =? Z.of_nat loc) && (_count a =? Z.of_nat len) = true -> _store a' = None).
Proof.
  intros Hr Ht Hl. unfold __CFArrayReleaseValues. rewrite Ht. cbn [Z.eqb Pos.eqb __kCFArrayImmutable __kCFArrayDeque range_length location].
  set (rel := cb_release _).
  assert (exists a1, match _store a with
     | Some _ => if (0 <? Z.of_nat len) && negb (hasBeenFinalized a)
         then if negb (rel =? 0) then release_loop (Z.to_nat (Z.of_nat len)) a rel (Z.of_nat loc) 0
              else io_lift (clear_loop (Z.to_nat (Z.of_nat len)) a (Z.of_nat loc) 0)
         else io_ret a
     | None => io_ret a end = Some (a1, release_events rel (take len (drop loc vals))) /\
     rewritten a a1 (splice loc len (replicate len 0) vals)) as (a1 & -> & R1 & H1 & M1).
  { destruct len as [|len].
    { exists a. simpl. split; [|by rewrite splice_nil]. unfold release_events. destruct (_store a), (rel =? 0); done. }
    assert (is_Some (_store a)) as [d Hd].
    { destruct Hr as [_ _ [[Ht' _]|[_ Hs]]]; [rewrite Ht in Ht'; done|]. destruct (_store a); [done|]. subst. simpl in Hl. lia. }
    rewrite Hd, (rep_alive _ _ Hr), Nat2Z.id, (proj2 (Z.ltb_lt _ _)) by lia. cbn [andb negb].
    pose proof (array_release_loop_spec (S len) a vals rel loc 0 Hr ltac:(lia)) as (a1 & E1 & R1).
    pose proof (clear_loop_spec (S len) a vals loc 0 Hr ltac:(lia)) as (a2 & E2 & R2).
    rewrite Nat.add_0_r in *. change (Z.of_nat 0) with 0 in *. unfold release_events in *. destruct (rel =? 0) eqn:Er; cbn [negb].
    - exists a2. by rewrite E2.
    - exists a1. by rewrite E1. }
  assert (_count a1 = _count a) as Hc.
  { rewrite (rep_count _ _ R1), (rep_count _ _ Hr), length_splice, length_replicate by lia. lia. }
  cbn [io_bind]. unfold __CFArrayGetCount. rewrite Hc. destruct (flag && _ && _) eqn:E.
  - eexists. simpl. rewrite app_nil_r. split; [done|]. split; [|done]. split_and!; [|done|done].
    split; [done| |right]; [by rewrite <- (rep_alive _ _ R1)|]. split; [|done]. simpl.
    rewrite <- Ht. by apply same_header_type.
  - exists a1. simpl. rewrite app_nil_r. done.
Qed.

(** ** Replacing a range *)

(** Room for [n] values between the values [left] and the values [right]. *)
Record room (d : __CFArrayDeque) (left right : list Z) (n : Z) : Prop := {
  room_cap : _capacity d = Z.of_nat (length (deque_buckets d));
  room_max : _capacity d <= 2 ^ 30;
  room_base : 0 <= _leftIdx d;
  room_end : _leftIdx d + Z.of_nat (length left) + n + Z.of_nat (length right) <= _capacity d;
  room_left : forall k v, left !! k = Some v -> rd (deque_buckets d) (_leftIdx d + Z.of_nat k) = Some (Some v);
  room_right : forall k v, right !! k = Some v ->
    rd (deque_buckets d) (_leftIdx d + Z.of_nat (length left) + n + Z.of_nat k) = Some (Some v)
}.

Lemma make_room_spec a vals loc len n :
  array_rep a vals -> __CFArrayGetType a = __kCFArrayDeque -> (loc + len <= length vals)%nat -> 0 <= n ->
  Z.of_nat (length vals) - Z.of_nat len + n < 2 ^ 28 ->
  exists d, match _store a with
    | None =>
        if 0 <=? Z.of_nat (length vals) - Z.of_nat len + n then
          let* capacity := __CFArrayDequeRoundUpCapacity (Z.of_nat (length vals) - Z.of_nat len + n) in
          Some (set_store a (Some (mkDeque (Z.quot (capacity - n) 2) capacity
                                     (replicate (Z.to_nat capacity) None))))
        else Some a
    | Some _ =>
        if negb (Z.of_nat len =? n)
        then __CFArrayRepositionDequeRegions a (CFRangeMake (Z.of_nat loc) (Z.of_nat len)) n else Some a
    end = Some (set_store a (Some d)) /\ room d (take loc vals) (drop (loc + len) vals) n.
Proof.
  intros [Hc Hf Hs] Ht Hl Hn Hsmall. destruct Hs as [[Ht' _]|[_ Hs]]; [rewrite Ht in Ht'; done|].
  destruct (_store a) as [d|] eqn:Hd.
  - destruct Hs as (Hcap & Hmax & H0 & H1 & H2).
    assert (length (take loc vals) = loc) as Hlt by (rewrite length_take; lia).
    assert (length (drop (loc + len) vals) = length vals - (loc + len))%nat as Hld by apply length_drop.
    destruct (Z.eqb_spec (Z.of_nat len) n) as [<-|Hne]; cbn [negb].
    + exists d. split; [rewrite <- Hd; by destruct a|]. split; rewrite ?Hlt, ?Hld; try lia.
      * intros k v Hk. apply lookup_take_Some in Hk as [Hk _]. auto.
      * intros k v Hk. rewrite lookup_drop in Hk. rewrite <- (H2 _ _ Hk). f_equal. lia.
    + destruct (reposition_spec a d (Z.of_nat loc) (Z.of_nat len) (Z.of_nat (length vals - (loc + len))) n)
        as (a' & -> & d' & -> & Hcap' & Hmax' & HL' & HE' & HA & HC); try lia; [done|].
      exists d'. split; [done|]. split; rewrite ?Hlt, ?Hld; try lia.
      * intros k v Hk. apply lookup_take_Some in Hk as [Hk Hlk]. rewrite HA by lia. auto.
      * intros k v Hk. pose proof (lookup_lt_Some _ _ _ Hk). rewrite lookup_drop in Hk. rewrite HC by lia.
        rewrite <- (H2 _ _ Hk). f_equal. lia.
  - subst vals. simpl in Hl. assert (loc = 0%nat /\ len = 0%nat) as [-> ->] by lia.
    cbn [length] in *. rewrite (proj2 (Z.leb_le _ _)) by lia.
    destruct (round_up_deque (Z.of_nat 0 - Z.of_nat 0 + n)) as (c & -> & Hc'); [lia|]. cbn [opt_bind].
    eexists. split; [done|]. rewrite Z.quot_div_nonneg by lia.
    split; simpl; rewrite ?length_replicate; try done; try (Z.to_euclidean_division_equations; lia).
Qed.

(** Writing [new] into the room. *)
Lemma fill_room_spec a d vals loc len new :
  hasBeenFinalized a = false -> __CFArrayGetType a = __kCFArrayDeque ->
  room d (take loc vals) (drop (loc + len) vals) (Z.of_nat (length new)) ->
  (loc + len <= length vals)%nat ->
  exists a', (if 0 <? Z.of_nat (length new) then
       let* deque := _store (set_store a (Some d)) in
       let* b := memmove (deque_buckets deque) (_leftIdx deque + Z.of_nat loc) (Some <$> new) 0 (Z.of_nat (length new)) in
       Some (set_store (set_store a (Some d)) (Some (mkDeque (_leftIdx deque) (_capacity deque) b)))
     else Some (set_store a (Some d))) = Some a' /\
    array_rep (set_count a' (Z.of_nat (length (splice loc len new vals)))) (splice loc len new vals) /\
    same_header a a' /\ _mutations a' = _mutations a.
Proof.
  intros Hf Ht [Hcap Hmax H0 H1 HA HC] Hl.
  assert (length (take loc vals) = loc) as Hlt by (rewrite length_take; lia). rewrite Hlt in *.
  destruct (memmove_if_rd (deque_buckets d) (Some <$> new) (_leftIdx d + Z.of_nat loc) 0 (Z.of_nat (length new)))
    as (b & E & Hlb & Hb); [rewrite ?length_fmap; lia..|].
  exists (set_store a (Some (mkDeque (_leftIdx d) (_capacity d) b))). split; [|split; [|done]].
  { destruct (0 <? _); [|injection E as <-; by destruct d]. simpl. by rewrite E. }
  split; [done|done|right]. split; [done|]. simpl. split; [congruence|]. split; [done|].
  split_and!; [done|rewrite length_splice, Hlb by done; rewrite length_drop in H1; lia|].
  intros k v Hk. rewrite Hb by lia. unfold splice in Hk. apply lookup_app_Some in Hk as [Hk|[Hk1 Hk]].
  - pose proof (lookup_lt_Some _ _ _ Hk). bool_case. cbn [andb]. auto.
  - rewrite Hlt in *. apply lookup_app_Some in Hk as [Hk|[Hk2 Hk]].
    + pose proof (lookup_lt_Some _ _ _ Hk). bool_case. cbn [andb].
      replace (0 + _) with (Z.of_nat (k - loc)) by lia. by rewrite rd_nat, list_lookup_fmap, Hk.
    + bool_case. rewrite andb_false_r. rewrite <- (HC _ _ Hk). f_equal. lia.
Qed.

Section Replace.
Context (ty : CFArrayCallBacks) (cr : Z -> Z -> Z).

Lemma replace_values_spec a vals loc len new :
  array_rep a vals -> __CFArrayGetType a = __kCFArrayDeque -> (loc + len <= length vals)%nat ->
  Z.of_nat (length vals) - Z.of_nat len + Z.of_nat (length new) < 2 ^ 28 ->
  let cb := __CFArrayGetCallBacks ty a in
  exists a', _CFArrayReplaceValues ty cr a (CFRangeMake (Z.of_nat loc) (Z.of_nat len)) new =
      Some (a', retain_events (cb_retain cb) new ++ release_events (cb_release cb) (take len (drop loc vals))) /\
    array_rep a' (splice loc len (retained cr (cb_retain cb) new) vals) /\
    same_header a a' /\ _mutations a' = swrap 64 (_mutations a + 1).
Proof.
  intros Hr Ht Hl Hsmall cb. unfold _CFArrayReplaceValues. cbv zeta. fold cb. rewrite (rep_alive _ _ Hr).
  cbn [range_length location]. unfold __CFArrayGetCount. rewrite (rep_count _ _ Hr).
  assert ((if negb (cb_retain cb =? 0) && negb false then retain_loop cr (cb_retain cb) new else io_ret new) =
    Some (retained cr (cb_retain cb) new, retain_events (cb_retain cb) new)) as ->.
  { unfold retained, retain_events. rewrite retain_loop_spec. by destruct (cb_retain cb =? 0). }
  assert (array_rep (mutated a) vals) as Hm by (destruct Hr; by split).
  assert (exists a1, (if 0 <? Z.of_nat len then
      __CFArrayReleaseValues ty (mutated a) (CFRangeMake (Z.of_nat loc) (Z.of_nat len)) false else io_ret (mutated a)) =
      Some (a1, release_events (cb_release cb) (take len (drop loc vals))) /\
      rewritten (mutated a) a1 (splice loc len (replicate len 0) vals)) as (a1 & E1 & R1 & H1 & M1).
  { destruct (Z.ltb_spec 0 (Z.of_nat len)).
    - destruct (release_values_spec ty (mutated a) vals loc len false Hm Ht Hl) as (a1 & E1 & R1 & _). by exists a1.
    - assert (len = 0%nat) as -> by lia. exists (mutated a). split; [|by rewrite splice_nil].
      simpl. unfold release_events. by destruct (_ =? 0). }
  assert (length (splice loc len (replicate len 0) vals) = length vals) as Hls.
  { rewrite length_splice, length_replicate by done. lia. }
  assert (__CFArrayGetType a1 = __kCFArrayDeque) as Ht1 by (by rewrite (same_header_type _ _ H1)).
  destruct (make_room_spec a1 _ loc len (Z.of_nat (length new)) R1 Ht1) as (d & E2 & Hroom); [lia..|].
  rewrite Hls in E2.
  destruct (fill_room_spec a1 d (splice loc len (replicate len 0) vals) loc len (retained cr (cb_retain cb) new))
    as (a2 & E3 & R3 & H3 & M3); [apply R1|done|by rewrite length_retained|lia|].
  rewrite length_retained in E3.
  assert (splice loc len (retained cr (cb_retain cb) new) (splice loc len (replicate len 0) vals) =
          splice loc len (retained cr (cb_retain cb) new) vals) as Hss.
  { by rewrite splice_splice by (rewrite ?length_replicate; lia). }
  rewrite Hss in R3. exists (set_count a2 (Z.of_nat (length vals) - Z.of_nat len + Z.of_nat (length new))).
  split; [|split; [|split]].
  - cbn [io_bind]. rewrite E1. cbn [io_bind io_lift]. rewrite E2. cbn [io_lift io_bind]. rewrite E3. simpl. by rewrite app_nil_r.
  - rewrite length_splice, length_retained in R3 by done. by replace (Z.of_nat _ - _ + _) with (Z.of_nat (length vals - len + length new)) by lia.
  - destruct H1, H3. split; simpl in *; congruence.
  - simpl. by rewrite M3, M1.
Qed.
End Replace.

(** ** Mutating an array, abstractly *)

(** A mutation of a mutable array; indexes in range are natural numbers. *)
Inductive array_call : Type :=
| ReplaceCall (loc len : nat) (new : list Z)
| AppendCall (v : Z)
| InsertCall (i : nat) (v : Z)
| SetCall (i : nat) (v : Z)
| RemoveCall (i : nat)
| ExchangeCall (i j : nat)
| RemoveAllCall.

Section Calls.
Context (ty : CFArrayCallBacks) (cr : Z -> Z -> Z).

Definition do_call (a : __CFArray) (c : array_call) : io __CFArray :=
  match c with
  | ReplaceCall loc len new => CFArrayReplaceValues ty cr a (CFRangeMake (Z.of_nat loc) (Z.of_nat len)) new
  | AppendCall v => CFArrayAppendValue ty cr a v
  | InsertCall i v => CFArrayInsertValueAtIndex ty cr a (Z.of_nat i) v
  | SetCall i v => CFArraySetValueAtIndex ty cr a (Z.of_nat i) v
  | RemoveCall i => CFArrayRemoveValueAtIndex ty cr a (Z.of_nat i)
  | ExchangeCall i j => io_lift (CFArrayExchangeValuesAtIndices a (Z.of_nat i) (Z.of_nat j))
  | RemoveAllCall => CFArrayRemoveAllValues ty a
  end.

(** What the header of the functions promises: a list edited in place, new
    values retained, dropped ones released.  [None] when an index is out of
    range or the array would hold 2^28 values or more. *)
Definition spec_replace (cb : CFArrayCallBacks) (vals : list Z) (loc len : nat) (new : list Z) :
    option (list Z * list event) :=
  if ((loc + len <=? length vals)%nat) &&
     (Z.of_nat (length vals) - Z.of_nat len + Z.of_nat (length new) <? 2 ^ 28)
  then Some (splice loc len (retained cr (cb_retain cb) new) vals,
             retain_events (cb_retain cb) new ++ release_events (cb_release cb) (take len (drop loc vals)))
  else None.

Definition spec_call (cb : CFArrayCallBacks) (vals : list Z) (c : array_call) : option (list Z * list event) :=
  match c with
  | ReplaceCall loc len new => spec_replace cb vals loc len new
  | AppendCall v => spec_replace cb vals (length vals) 0 [v]
  | InsertCall i v => spec_replace cb vals i 0 [v]
  | SetCall i v => if (i =? length vals)%nat then spec_replace cb vals i 0 [v] else spec_replace cb vals i 1 [v]
  | RemoveCall i => spec_replace cb vals i 1 []
  | ExchangeCall i j => let* x := vals !! i in let* y := vals !! j in Some (<[j := x]> (<[i := y]> vals), [])
  | RemoveAllCall => Some ([], release_events (cb_release cb) vals)
  end.

Fixpoint do_calls (a : __CFArray) (cs : list array_call) : io __CFArray :=
  match cs with
  | [] => io_ret a
  | c :: cs => do* a := do_call a c in do_calls a cs
  end.

Fixpoint spec_calls (cb : CFArrayCallBacks) (vals : list Z) (cs : list array_call) : option (list Z * list event) :=
  match cs with
  | [] => Some (vals, [])
  | c :: cs => let* (vals, t) := spec_call cb vals c in
               let* (vals, t') := spec_calls cb vals cs in Some (vals, t ++ t')
  end.

Lemma replace_refines a vals loc len new vals' t :
  array_rep a vals -> __CFArrayGetType a = __kCFArrayDeque ->
  spec_replace (__CFArrayGetCallBacks ty a) vals loc len new = Some (vals', t) ->
  exists a', _CFArrayReplaceValues ty cr a (CFRangeMake (Z.of_nat loc) (Z.of_nat len)) new = Some (a', t) /\
    array_rep a' vals' /\ same_header a a' /\ _mutations a' = swrap 64 (_mutations a + 1).
Proof.
  intros Hr Ht. unfold spec_replace. destruct (_ && _) eqn:E; [|done]. intros [= <- <-].
  apply andb_true_iff in E as [E1%Nat.leb_le E2%Z.ltb_lt]. by apply replace_values_spec.
Qed.

Lemma set_value_spec a vals i v :
  array_rep a vals -> __CFArrayGetType a = __kCFArrayDeque -> (i < length vals)%nat ->
  let cb := __CFArrayGetCallBacks ty a in
  exists a', CFArraySetValueAtIndex ty cr a (Z.of_nat i) v =
      Some (a', retain_events (cb_retain cb) [v] ++ release_events (cb_release cb) (take 1 (drop i vals))) /\
    array_rep a' (splice i 1 (retained cr (cb_retain cb) [v]) vals) /\
    same_header a a' /\ _mutations a' = swrap 64 (_mutations a + 1).
Proof.
  intros Hr Ht Hi cb. unfold CFArraySetValueAtIndex, __CFArrayGetCount. rewrite (rep_count _ _ Hr).
  destruct (Z.eqb_spec (Z.of_nat i) (Z.of_nat (length vals))); [lia|]. cbv zeta. fold cb. rewrite (rep_alive _ _ Hr).
  destruct (lookup_lt_is_Some_2 vals i Hi) as [x Hx].
  set (w := if cb_retain cb =? 0 then v else cr (cb_retain cb) v).
  destruct (set_bucket_spec a vals i w Hr Hi) as (a' & E & R & H & M).
  exists (mutated a'). rewrite (get_bucket_spec a vals i x Hr Hx), (drop_S vals x i Hx). split; [|split_and!].
  - unfold w, retain_events, release_events in *. destruct (cb_retain cb =? 0); cbn [negb andb io_bind emit io_ret io_lift];
      rewrite E; cbn [io_lift io_bind]; rewrite (rep_alive _ _ R); destruct (cb_release cb =? 0); done.
  - rewrite <- (splice_one i vals w Hi) in R. replace (retained cr (cb_retain cb) [v]) with [w]; [by destruct R|].
    unfold retained, w. by destruct (_ =? 0).
  - done.
  - simpl. by rewrite M.
Qed.

Lemma exchange_spec a vals i j x y :
  array_rep a vals -> vals !! i = Some x -> vals !! j = Some y ->
  exists a', CFArrayExchangeValuesAtIndices a (Z.of_nat i) (Z.of_nat j) = Some a' /\
    array_rep a' (<[j := x]> (<[i := y]> vals)) /\ same_header a a' /\ _mutations a' = swrap 64 (_mutations a + 1).
Proof.
  intros Hr Hx Hy. unfold CFArrayExchangeValuesAtIndices.
  rewrite (get_bucket_spec a vals i x), (get_bucket_spec a vals j y) by done. cbn [opt_bind].
  destruct (set_bucket_spec a vals i y Hr) as (a1 & -> & R1 & H1 & M1); [by eapply lookup_lt_Some|]. cbn [opt_bind].
  destruct (set_bucket_spec a1 _ j x R1) as (a2 & -> & R2 & H2 & M2);
    [rewrite length_insert; by eapply lookup_lt_Some|]. cbn [opt_bind].
  eexists. split; [done|]. split_and!; [by destruct R2|by eapply (same_header_trans a a1 a2)|simpl; congruence].
Qed.

Lemma array_remove_all_spec a vals :
  array_rep a vals -> __CFArrayGetType a = __kCFArrayDeque ->
  exists a', CFArrayRemoveAllValues ty a =
      Some (a', release_events (cb_release (__CFArrayGetCallBacks ty a)) vals) /\
    array_rep a' [] /\ same_header a a' /\ _mutations a' = swrap 64 (_mutations a + 1).
Proof.
  intros Hr Ht. unfold CFArrayRemoveAllValues, __CFArrayGetCount. rewrite (rep_count _ _ Hr).
  destruct (release_values_spec ty a vals 0 (length vals) true Hr Ht) as (a1 & E & (R & H & M) & Hst); [lia|].
  change (Z.of_nat 0) with 0 in *. rewrite drop_0, take_ge in E by lia. rewrite E. cbn [io_bind].
  rewrite (rep_count _ _ Hr) in R. cbn [andb Z.eqb] in R. rewrite Z.eqb_refl in R.
  eexists. split; [simpl; by rewrite app_nil_r|]. split_and!; [by destruct R|done|simpl; by rewrite M].
Qed.

Lemma do_call_refines a vals c vals' t :
  array_rep a vals -> __CFArrayGetType a = __kCFArrayDeque ->
  spec_call (__CFArrayGetCallBacks ty a) vals c = Some (vals', t) ->
  exists a', do_call a c = Some (a', t) /\ array_rep a' vals' /\ same_header a a' /\
    _mutations a' = swrap 64 (_mutations a + 1).
Proof.
  intros Hr Ht. destruct c as [loc len new|v|i v|i v|i|i j|]; simpl.
  - by apply replace_refines.
  - unfold CFArrayAppendValue, __CFArrayGetCount. rewrite (rep_count _ _ Hr). by apply replace_refines.
  - by apply (replace_refines _ _ _ 0).
  - destruct (Nat.eqb_spec i (length vals)) as [->|Hne].
    + unfold CFArraySetValueAtIndex, __CFArrayGetCount. rewrite (rep_count _ _ Hr), Z.eqb_refl.
      by apply (replace_refines _ _ _ 0).
    + unfold spec_replace. destruct (_ && _) eqn:E; [|done]. intros [= <- <-].
      apply andb_true_iff in E as [E%Nat.leb_le _]. apply set_value_spec; [done..|lia].
  - by apply (replace_refines _ _ _ 1).
  - destruct (vals !! i) as [x|] eqn:Hx, (vals !! j) as [y|] eqn:Hy; simpl; [|done..]. intros [= <- <-].
    destruct (exchange_spec a vals i j x y Hr Hx Hy) as (a' & -> & H). by exists a'.
  - intros [= <- <-]. by apply array_remove_all_spec.
Qed.

(** C19: every sequence of mutations of a mutable array whose indexes are in
    range runs without touching memory outside its buckets, ends in the array
    that represents the edited list, makes exactly the retain and release
    calls the list editing implies, in that order, and counts one mutation
    per call. *)
Theorem CFArray_calls_refine_list cs a vals vals' t :
  array_rep a vals -> __CFArrayGetType a = __kCFArrayDeque ->
  spec_calls (__CFArrayGetCallBacks ty a) vals cs = Some (vals', t) ->
  exists a', do_calls a cs = Some (a', t) /\ array_rep a' vals' /\ same_header a a' /\
    (in_signed 64 (_mutations a) -> _mutations a' = swrap 64 (_mutations a + Z.of_nat (length cs))).
Proof.
  revert a vals vals' t. induction cs as [|c cs IH]; intros a vals vals' t Hr Ht; simpl.
  { intros [= <- <-]. exists a. split_and!; [done..|]. intros. rewrite Z.add_0_r. symmetry. by apply swrap_id. }
  destruct (spec_call _ vals c) as [[vals1 t1]|] eqn:E1; [|done]. cbn [opt_bind].
  destruct (spec_calls _ vals1 cs) as [[vals2 t2]|] eqn:E2; [|done]. cbn [opt_bind]. intros [= <- <-].
  destruct (do_call_refines a vals c vals1 t1 Hr Ht E1) as (a1 & F1 & R1 & H1 & M1).
  rewrite <- (same_header_callbacks ty a a1 H1) in E2.
  destruct (IH a1 vals1 vals2 t2 R1) as (a2 & F2 & R2 & H2 & M2); [by rewrite (same_header_type a a1)|done|].
  exists a2. split_and!; [|done|by eapply same_header_trans|].
  - by apply (io_bind_ok _ _ a1 t1 a2 t2).
  - intros _. rewrite M2, M1 by (rewrite M1; by apply swrap_range). rewrite swrap_add_l by done. f_equal. lia.
Qed.
End Calls.

(** ** Creating *)

(** An immutable array under construction: [n] buckets, the first ones written. *)
Record building (a : __CFArray) (n : nat) (vals : list Z) : Prop := {
  bld_type : __CFArrayGetType a = __kCFArrayImmutable;
  bld_alive : hasBeenFinalized a = false;
  bld_len : length (inline_buckets a) = n;
  bld_cells : cells (inline_buckets a) 0 vals
}.

Lemma cells_extend b base vals v :
  cells b base vals -> base + Z.of_nat (length vals) < Z.of_nat (length b) ->
  exists b', wr b (base + Z.of_nat (length vals)) (Some v) = Some b' /\ length b' = length b /\
    cells b' base (vals ++ [v]).
Proof.
  intros (H0 & H1 & H2) Hlt. destruct (wr_rd b (base + Z.of_nat (length vals)) (Some v)) as (b' & -> & Hl & Hr); [lia|].
  exists b'. split_and!; [done..|]. split_and!; [done|rewrite length_app; simpl; lia|]. intros j w Hj.
  rewrite Hr by lia. apply lookup_app_Some in Hj as [Hj|[Hj1 Hj]].
  - pose proof (lookup_lt_Some _ _ _ Hj). bool_case. auto.
  - pose proof (lookup_lt_Some _ _ _ Hj). cbn [length] in *. replace (j - length vals)%nat with 0%nat in Hj by lia.
    injection Hj as <-. bool_case. done.
Qed.

Lemma building_step a n vals v :
  building a n vals -> (length vals < n)%nat ->
  exists a', set_bucket a (Z.of_nat (length vals)) v = Some a' /\ building a' n (vals ++ [v]) /\
    same_header a a' /\ _mutations a' = _mutations a.
Proof.
  intros [Ht Hf Hl Hc] Hn. unfold set_bucket, __CFArrayGetBucketsPtr, put_buckets. rewrite Ht. cbn [Z.eqb __kCFArrayImmutable opt_bind].
  destruct (cells_extend (inline_buckets a) 0 vals v Hc) as (b' & -> & Hl' & Hc'); [lia|]. cbn [opt_bind].
  eexists. split; [done|]. split_and!; [|done|done]. split; simpl; [done|done|congruence|done].
Qed.

Lemma building_done a vals :
  building a (length vals) vals -> array_rep (__CFArraySetCount a (Z.of_nat (length vals))) vals.
Proof. intros [Ht Hf Hl Hc]. split; [done|done|left; done]. Qed.

Section Create.
Context (ty : CFArrayCallBacks) (cr : Z -> Z -> Z).

Lemma create_loop_spec new : forall a n vals retain,
  building a n vals -> (length vals + length new = n)%nat ->
  exists a', create_loop cr new a retain (Z.of_nat (length vals)) = Some (a', retain_events retain new) /\
    building a' n (vals ++ retained cr retain new) /\ same_header a a'.
Proof.
  induction new as [|v new IH]; intros a n vals retain Hb Hn; simpl in Hn.
  - exists a. unfold retain_events, retained. simpl. destruct (retain =? 0); simpl; by rewrite app_nil_r.
  - set (w := if retain =? 0 then v else cr retain v).
    destruct (building_step a n vals w Hb ltac:(lia)) as (a1 & E1 & B1 & H1 & _).
    destruct (IH a1 n (vals ++ [w]) retain B1) as (a2 & E2 & B2 & H2); [rewrite length_app; simpl; lia|].
    rewrite length_app in E2. simpl in E2. replace (Z.of_nat (length vals + 1)) with (Z.of_nat (length vals) + 1) in E2 by lia.
    exists a2. split; [|split; [|by eapply same_header_trans]].
    + simpl. unfold w, retain_events in *. destruct (retain =? 0) eqn:E; simpl; rewrite E1; simpl; rewrite E2; done.
    + rewrite <- (assoc_L (++)) in B2. unfold retained, w in *. by destruct (retain =? 0).
Qed.

Lemma copy_loop_spec a vals : forall k res done' retain,
  array_rep a vals -> (length done' + k = length vals)%nat -> building res (length vals) done' ->
  exists res', copy_loop cr k a res retain (Z.of_nat (length done')) =
      Some (res', retain_events retain (drop (length done') vals)) /\
    building res' (length vals) (done' ++ retained cr retain (drop (length done') vals)) /\ same_header res res'.
Proof.
  intros k. induction k as [|k IH]; intros res done' retain Hr Hn Hb.
  - rewrite drop_ge by lia. exists res. unfold retain_events, retained. simpl.
    destruct (retain =? 0); simpl; by rewrite app_nil_r.
  - destruct (lookup_lt_is_Some_2 vals (length done')) as [v Hv]; [lia|].
    set (w := if retain =? 0 then v else cr retain v).
    destruct (building_step res _ done' w Hb ltac:(lia)) as (a1 & E1 & B1 & H1 & _).
    destruct (IH a1 (done' ++ [w]) retain Hr) as (a2 & E2 & B2 & H2); [rewrite length_app; simpl; lia|done|].
    rewrite length_app in E2, B2. simpl in E2, B2. rewrite Nat.add_1_r in E2, B2.
    replace (Z.of_nat (S (length done'))) with (Z.of_nat (length done') + 1) in E2 by lia.
    exists a2. rewrite (drop_S vals v _ Hv). split; [|split; [|by eapply same_header_trans]].
    + simpl. unfold CFArrayGetValueAtIndex. rewrite (get_bucket_spec a vals _ v Hr Hv). simpl.
      unfold w, retain_events in *. destruct (retain =? 0) eqn:E; simpl; rewrite E1; simpl; rewrite E2; done.
    + rewrite <- (assoc_L (++)) in B2. unfold retained, w in *. by destruct (retain =? 0).
Qed.

(** What the new object has, for a kind of array. *)
Lemma array_init_spec flags capacity cbs :
  flags = __kCFArrayImmutable \/ flags = __kCFArrayDeque ->
  exists a, __CFArrayInit ty true flags capacity cbs = Some a /\ __CFArrayGetType a = flags /\
    hasBeenFinalized a = false /\ _count a = 0 /\ _store a = None /\
    __CFArrayGetCallBacks ty a = default __kCFNullArrayCallBacks cbs /\
    inline_buckets a = (if flags =? __kCFArrayImmutable then replicate (Z.to_nat capacity) None else []) /\
    _mutations a = (if flags =? __kCFArrayDeque then 1 else 0).
Proof.
  intros Hf. unfold __CFArrayInit, __CFArrayCallBacksMatchNull, __CFArrayCallBacksMatchCFType.
  destruct cbs as [c|]; [case_bool_decide as Hn; [subst c|case_bool_decide as Ht; [subst c|]]|];
    destruct Hf as [-> | ->]; eexists; split_and!; reflexivity.
Qed.

(** Creating an immutable array retains each value once, in order, with
    the callbacks the caller gives, and stores what the retain callback
    returns; the new array uses those callbacks. *)
Lemma CFArrayCreate_holds_retained values cbs :
  let cb := default __kCFNullArrayCallBacks cbs in
  exists a, CFArrayCreate ty cr values cbs = Some (a, retain_events (cb_retain cb) values) /\
    array_rep a (retained cr (cb_retain cb) values) /\ __CFArrayGetType a = __kCFArrayImmutable /\
    __CFArrayGetCallBacks ty a = cb.
Proof.
  intros cb. unfold CFArrayCreate, __CFArrayCreate0.
  destruct (array_init_spec __kCFArrayImmutable (Z.of_nat (length values)) cbs) as (a0 & -> & Ht & Hf & _ & _ & Hcb & Hb & _); [by left|].
  cbn [io_lift io_bind]. rewrite Hcb. fold cb.
  destruct (create_loop_spec values a0 (length values) [] (cb_retain cb)) as (a1 & E1 & B1 & H1); [|done|].
  { split; [done|done|rewrite Hb; simpl; by rewrite length_replicate, Nat2Z.id|]. split_and!; [done|simpl; lia|done]. }
  change (Z.of_nat (length [])) with 0 in E1. rewrite E1. eexists. simpl. rewrite app_nil_r. split; [done|].
  pose proof (building_done a1 (retained cr (cb_retain cb) values)) as Hd. rewrite length_retained in Hd.
  split; [by apply Hd|]. split; [rewrite <- Ht; by apply same_header_type|].
  transitivity (__CFArrayGetCallBacks ty a0); [by apply same_header_callbacks|done].
Qed.

(** ** Copying *)

Lemma append_loop_spec n : forall a vals other ovals i,
  array_rep a vals -> __CFArrayGetType a = __kCFArrayDeque -> array_rep other ovals -> (i + n <= length ovals)%nat ->
  Z.of_nat (length vals) + Z.of_nat n < 2 ^ 28 ->
  let cb := __CFArrayGetCallBacks ty a in
  exists a', append_loop ty cr n a other (Z.of_nat i) = Some (a', retain_events (cb_retain cb) (take n (drop i ovals))) /\
    array_rep a' (vals ++ retained cr (cb_retain cb) (take n (drop i ovals))) /\ same_header a a'.
Proof.
  induction n as [|n IH]; intros a vals other ovals i Hr Ht Ho Hi Hs cb.
  - exists a. unfold retain_events, retained. simpl. destruct (_ =? 0); simpl; by rewrite app_nil_r.
  - destruct (lookup_lt_is_Some_2 ovals i) as [v Hv]; [lia|].
    pose proof (replace_values_spec ty cr a vals (length vals) 0 [v] Hr Ht) as (a1 & E1 & R1 & H1 & _); [lia|simpl; lia|].
    fold cb in E1, R1. unfold splice in R1. rewrite Nat.add_0_r, take_ge, drop_ge, app_nil_r in R1 by lia.
    destruct (IH a1 _ other ovals (S i) R1) as (a2 & E2 & R2 & H2);
      [by rewrite (same_header_type a a1)|done|lia|rewrite length_app, length_retained; simpl; lia|].
    rewrite (same_header_callbacks ty a a1 H1) in E2, R2. fold cb in E2, R2.
    exists a2. rewrite (drop_S ovals v i Hv). split; [|split; [|by eapply same_header_trans]].
    + cbn [append_loop]. unfold CFArrayGetValueAtIndex. rewrite (get_bucket_spec other ovals i v Ho Hv), io_bind_lift.
      unfold CFArrayAppendValue, __CFArrayGetCount. rewrite (rep_count _ _ Hr).
      replace (Z.of_nat i + 1) with (Z.of_nat (S i)) by lia. change 0 with (Z.of_nat 0).
      erewrite io_bind_ok; [|exact E1|exact E2]. do 2 f_equal.
      unfold retain_events, release_events. simpl. destruct (cb_retain cb =? 0), (cb_release cb =? 0); done.
    + rewrite <- (assoc_L (++)) in R2. unfold retained in *. by destruct (cb_retain cb =? 0).
Qed.

(** Appending a range of another array retains the range's values in
    order and appends them, so it is the concatenation of the two lists. *)
Lemma CFArrayAppendArray_concatenates a vals other ovals loc len :
  array_rep a vals -> __CFArrayGetType a = __kCFArrayDeque -> array_rep other ovals -> (loc + len <= length ovals)%nat ->
  Z.of_nat (length vals) + Z.of_nat len < 2 ^ 28 ->
  let cb := __CFArrayGetCallBacks ty a in
  exists a', CFArrayAppendArray ty cr a other (CFRangeMake (Z.of_nat loc) (Z.of_nat len)) =
      Some (a', retain_events (cb_retain cb) (take len (drop loc ovals))) /\
    array_rep a' (vals ++ retained cr (cb_retain cb) (take len (drop loc ovals))) /\ same_header a a'.
Proof. intros. unfold CFArrayAppendArray. simpl. rewrite Nat2Z.id. by apply append_loop_spec. Qed.

Lemma set_capacity_fresh a n :
  array_rep a [] -> __CFArrayGetType a = __kCFArrayDeque -> _store a = None -> 0 <= n < 2 ^ 29 ->
  exists a', _CFArraySetCapacity a n = Some a' /\ array_rep a' [] /\ same_header a a'.
Proof.
  intros [Hc Hf _] Ht Hs Hn. unfold _CFArraySetCapacity. rewrite Ht, Hs. cbn [Z.eqb Pos.eqb __kCFArrayDeque].
  destruct (round_up_deque n Hn) as (c & -> & Hc' & H4 & _). cbn [opt_bind _leftIdx _capacity deque_buckets].
  eexists. split; [done|]. split; [|done]. split; [done|done|right]. split; [done|]. simpl.
  rewrite length_replicate, Z2Nat.id by lia. split_and!; [done|lia|].
  assert (0 <= Z.quot c 2 <= c) by (rewrite Z.quot_div_nonneg by lia; Z.to_euclidean_division_equations; lia).
  split_and!; [lia|rewrite length_replicate; simpl; lia|done].
Qed.

(** A copy, immutable or mutable, of any array holds the values of the
    original, each retained once in order, and has its callbacks. *)
Lemma CFArray_copies_hold_retained a vals capacity :
  array_rep a vals -> Z.of_nat (length vals) < 2 ^ 28 ->
  let cb := __CFArrayGetCallBacks ty a in
  (exists a1, CFArrayCreateCopy ty cr a = Some (a1, retain_events (cb_retain cb) vals) /\
     array_rep a1 (retained cr (cb_retain cb) vals) /\ __CFArrayGetType a1 = __kCFArrayImmutable /\
     __CFArrayGetCallBacks ty a1 = cb) /\
  (exists a2, CFArrayCreateMutableCopy ty cr capacity a = Some (a2, retain_events (cb_retain cb) vals) /\
     array_rep a2 (retained cr (cb_retain cb) vals) /\ __CFArrayGetType a2 = __kCFArrayDeque /\
     __CFArrayGetCallBacks ty a2 = cb).
Proof.
  intros Hr Hs cb. split.
  - unfold CFArrayCreateCopy, __CFArrayCreateCopy0, CFArrayGetCount, __CFArrayGetCount. rewrite (rep_count _ _ Hr). fold cb.
    destruct (array_init_spec __kCFArrayImmutable (Z.of_nat (length vals)) (Some cb)) as (a0 & -> & Ht & Hf & _ & _ & Hcb & Hb & _); [by left|].
    cbn [io_lift io_bind]. rewrite Hcb, Nat2Z.id. simpl default.
    destruct (copy_loop_spec a vals (length vals) a0 [] (cb_retain cb) Hr) as (a1 & E1 & B1 & H1); [done| |].
    { split; [done|done|rewrite Hb; simpl; by rewrite length_replicate, Nat2Z.id|]. split_and!; [done|simpl; lia|done]. }
    simpl in E1, B1. rewrite drop_0 in E1, B1. change (Z.of_nat 0) with 0 in E1. rewrite E1. eexists. simpl. rewrite app_nil_r. split; [done|].
    pose proof (building_done a1 (retained cr (cb_retain cb) vals)) as Hd. rewrite length_retained in Hd.
    split; [by apply Hd|]. split; [rewrite <- Ht; by apply same_header_type|].
    by rewrite <- (same_header_callbacks ty a0 a1 H1) in Hcb.
  - unfold CFArrayCreateMutableCopy, __CFArrayCreateMutableCopy0, CFArrayGetCount, __CFArrayGetCount. rewrite (rep_count _ _ Hr). fold cb.
    destruct (array_init_spec __kCFArrayDeque capacity (Some cb)) as (a0 & -> & Ht & Hf & Hc & Hst & Hcb & Hb & _); [by right|].
    cbn [io_lift io_bind].
    assert (array_rep a0 []) as R0 by (split; [done|done|right; by rewrite Hst]).
    assert (exists a1, (if 0 =? capacity then _CFArraySetCapacity a0 (Z.of_nat (length vals)) else Some a0) = Some a1 /\
      array_rep a1 [] /\ same_header a0 a1) as (a1 & -> & R1 & H1).
    { destruct (0 =? capacity); [apply set_capacity_fresh; try done; lia|by exists a0]. }
    cbn [io_lift io_bind]. rewrite Nat2Z.id.
    destruct (append_loop_spec (length vals) a1 [] a vals 0 R1) as (a2 & E2 & R2 & H2);
      [by rewrite (same_header_type a0 a1)|done|lia|simpl; lia|].
    rewrite drop_0, take_ge in E2, R2 by lia. rewrite (same_header_callbacks ty a0 a1 H1), Hcb in E2, R2. simpl in E2, R2.
    change (Z.of_nat 0) with 0 in E2. exists a2. rewrite E2. simpl. split; [done|]. split; [done|].
    pose proof (same_header_trans _ _ _ H1 H2) as H3.
    split; [by rewrite (same_header_type a0 a2)|by rewrite (same_header_callbacks ty a0 a2)].
Qed.
End Create.

(** ** Queries *)

Section Queries.
Context (ty : CFArrayCallBacks) (ce : Z -> Z -> Z -> bool).

Lemma window_step {A} (vals : list A) loc i n :
  (loc + i + S n <= length vals)%nat ->
  exists v, vals !! (loc + i)%nat = Some v /\ take (S n) (drop (loc + i) vals) = v :: take n (drop (loc + S i) vals).
Proof.
  intros Hn. destruct (lookup_lt_is_Some_2 vals (loc + i)) as [v Hv]; [lia|]. exists v. split; [done|].
  rewrite (drop_S vals v _ Hv). simpl. do 3 f_equal. lia.
Qed.

Lemma get_value_spec a vals loc i v :
  array_rep a vals -> vals !! (loc + i)%nat = Some v ->
  CFArrayGetValueAtIndex a (Z.of_nat loc + Z.of_nat i) = Some v.
Proof. intros. unfold CFArrayGetValueAtIndex. rewrite <- Nat2Z.inj_add. by eapply get_bucket_spec. Qed.

(** One step of a loop over a window: read the next value. *)
Ltac next_value a vals loc i n v :=
  let Hv := fresh "Hv" in let Hw := fresh "Hw" in
  destruct (window_step vals loc i n) as (v & Hv & Hw); [lia|]; rewrite Hw; simpl;
  rewrite (get_value_spec a vals loc i v) by done; cbn [opt_bind io_lift io_bind];
  replace (Z.of_nat i + 1) with (Z.of_nat (S i)) by lia.

Lemma array_count_loop_spec a vals loc value n : forall i c,
  array_rep a vals -> (loc + i + n <= length vals)%nat ->
  count_loop ty ce n a (Z.of_nat loc) (Z.of_nat i) value c =
    Some (c + Z.of_nat (length (filter (fun x => value_matches ce (__CFArrayGetCallBacks ty a) value x = true)
                                  (take n (drop (loc + i) vals))))).
Proof.
  induction n as [|n IH]; intros i c Hr Hn; [simpl; f_equal; lia|].
  next_value a vals loc i n v. rewrite IH by (done || lia). f_equal. rewrite filter_cons.
  destruct (value_matches _ _ _ v); case_decide; try done; simpl; lia.
Qed.

Lemma first_loop_spec a vals loc value n : forall i,
  array_rep a vals -> (loc + i + n <= length vals)%nat ->
  first_loop ty ce n a (Z.of_nat loc) (Z.of_nat i) value =
    Some (match list_find (fun x => value_matches ce (__CFArrayGetCallBacks ty a) value x = true)
                  (take n (drop (loc + i) vals)) with
          | Some (k, _) => Z.of_nat (loc + i + k) | None => kCFNotFound end).
Proof.
  induction n as [|n IH]; intros i Hr Hn; [done|].
  next_value a vals loc i n v. destruct (value_matches _ _ _ v) eqn:E; case_decide; try done.
  - simpl. f_equal. lia.
  - rewrite IH by (done || lia). f_equal. destruct (list_find _ _) as [[k ?]|]; simpl; [|done]. lia.
Qed.

Lemma array_contains_loop_spec a vals loc value n : forall i,
  array_rep a vals -> (loc + i + n <= length vals)%nat ->
  contains_loop ty ce n a (Z.of_nat loc) (Z.of_nat i) value =
    Some (existsb (value_matches ce (__CFArrayGetCallBacks ty a) value) (take n (drop (loc + i) vals))).
Proof.
  induction n as [|n IH]; intros i Hr Hn; [done|].
  next_value a vals loc i n v. destruct (value_matches _ _ _ v) eqn:E; [done|]. by apply IH; [|lia].
Qed.

Lemma last_loop_spec a vals loc value n :
  array_rep a vals -> (loc + n <= length vals)%nat ->
  last_loop ty ce n a (Z.of_nat loc) value =
    Some (match list_find (fun x => value_matches ce (__CFArrayGetCallBacks ty a) value x = true)
                  (reverse (take n (drop loc vals))) with
          | Some (k, _) => Z.of_nat (loc + (n - 1 - k)) | None => kCFNotFound end).
Proof.
  intros Hr. induction n as [|n IH]; intros Hn; [done|]. cbn [last_loop].
  destruct (lookup_lt_is_Some_2 vals (loc + n)) as [v Hv]; [lia|].
  rewrite (get_value_spec a vals loc n v) by done. cbn [opt_bind].
  rewrite (take_S_r _ n v), reverse_app by (by rewrite lookup_drop). simpl.
  destruct (value_matches _ _ _ v) eqn:E; case_decide; try done.
  - f_equal. lia.
  - rewrite IH by lia. f_equal. destruct (list_find _ _) as [[k ?]|]; simpl; [|done]. lia.
Qed.

Lemma apply_loop_spec a vals loc applier ctx n : forall i,
  array_rep a vals -> (loc + i + n <= length vals)%nat ->
  apply_loop n a (Z.of_nat loc) (Z.of_nat i) applier ctx =
    Some (tt, (fun v => EvApply applier v ctx) <$> take n (drop (loc + i) vals)).
Proof.
  induction n as [|n IH]; intros i Hr Hn; [done|].
  next_value a vals loc i n v. by rewrite IH by (done || lia).
Qed.

Lemma array_get_values_spec a vals loc len buf :
  array_rep a vals -> (loc + len <= length vals)%nat -> (len <= length buf)%nat ->
  CFArrayGetValues a (CFRangeMake (Z.of_nat loc) (Z.of_nat len)) buf =
    Some ((Some <$> take len (drop loc vals)) ++ drop len buf).
Proof.
  intros Hr Hl Hb. unfold CFArrayGetValues. simpl. destruct len as [|len]; [done|].
  rewrite (proj2 (Z.ltb_lt _ _)) by lia. destruct (lookup_lt_is_Some_2 vals loc) as [v Hv]; [lia|].
  destruct (rep_nonempty a vals loc v Hr Hv) as (b & base & -> & (H0 & H1 & H2) & _). cbn [opt_bind].
  rewrite memmove_ok by lia. simpl. do 2 f_equal; [|f_equal; lia].
  apply list_eq. intros k. rewrite list_lookup_fmap. destruct (decide (k < S len)%nat).
  - rewrite !lookup_take_lt, !lookup_drop by lia. destruct (lookup_lt_is_Some_2 vals (loc + k)) as [w Hw]; [lia|].
    rewrite Hw. specialize (H2 _ _ Hw). rewrite rd_lookup in H2 by lia. simpl. rewrite <- H2. f_equal. lia.
  - rewrite !lookup_ge_None_2; [done|rewrite length_take; lia..].
Qed.

(** On every range inside an array, immutable or mutable, the queries
    answer about the list of values the array represents: how many values
    match, the first and the last index of a match (or not found), whether
    one matches; the values are copied out and the applier is called on each
    of them in order.  A value matches when it is the same pointer or the
    equal callback says so. *)
Lemma CFArray_queries_of_list a vals loc len value buf applier ctx :
  array_rep a vals -> (loc + len <= length vals)%nat -> (len <= length buf)%nat ->
  let range := CFRangeMake (Z.of_nat loc) (Z.of_nat len) in
  let w := take len (drop loc vals) in
  let matches := fun x => value_matches ce (__CFArrayGetCallBacks ty a) value x = true in
  CFArrayGetCount a = Z.of_nat (length vals) /\
  CFArrayGetCountOfValue ty ce a range value = Some (Z.of_nat (length (filter matches w))) /\
  CFArrayGetFirstIndexOfValue ty ce a range value =
    Some (match list_find matches w with Some (k, _) => Z.of_nat (loc + k) | None => kCFNotFound end) /\
  CFArrayGetLastIndexOfValue ty ce a range value =
    Some (match list_find matches (reverse w) with
          | Some (k, _) => Z.of_nat (loc + (len - 1 - k)) | None => kCFNotFound end) /\
  CFArrayContainsValue ty ce a range value = Some (existsb (value_matches ce (__CFArrayGetCallBacks ty a) value) w) /\
  CFArrayGetValues a range buf = Some ((Some <$> w) ++ drop len buf) /\
  CFArrayApplyFunction a range applier ctx = Some (tt, (fun v => EvApply applier v ctx) <$> w) /\
  (forall i v, vals !! i = Some v -> CFArrayGetValueAtIndex a (Z.of_nat i) = Some v).
Proof.
  intros Hr Hl Hb range w matches. unfold CFArrayGetCountOfValue, CFArrayGetFirstIndexOfValue,
    CFArrayGetLastIndexOfValue, CFArrayContainsValue, CFArrayApplyFunction, range.
  cbn [range_length location]. rewrite !Nat2Z.id. split_and!.
  - apply (rep_count _ _ Hr).
  - pose proof (array_count_loop_spec a vals loc value len 0 0 Hr) as E. rewrite Nat.add_0_r in E. change (Z.of_nat 0) with 0 in E. by rewrite E by lia.
  - pose proof (first_loop_spec a vals loc value len 0 Hr) as E. rewrite Nat.add_0_r in E. change (Z.of_nat 0) with 0 in E. by rewrite E by lia.
  - by apply last_loop_spec.
  - pose proof (array_contains_loop_spec a vals loc value len 0 Hr) as E. rewrite Nat.add_0_r in E. change (Z.of_nat 0) with 0 in E. by rewrite E by lia.
  - by apply array_get_values_spec.
  - pose proof (apply_loop_spec a vals loc applier ctx len 0 Hr) as E. rewrite Nat.add_0_r in E. change (Z.of_nat 0) with 0 in E. by rewrite E by lia.
  - intros i v Hv. by eapply get_bucket_spec.
Qed.

(** ** Equality *)

Definition values_equal (eq x y : Z) : Prop := x = y \/ (eq <> 0 /\ ce eq x y = true).

Lemma array_equal_loop_spec a1 a2 v1 v2 cb n : forall i,
  array_rep a1 v1 -> array_rep a2 v2 -> (i + n = length v1)%nat -> length v1 = length v2 ->
  exists r, equal_loop ce n a1 a2 cb (Z.of_nat i) = Some r /\
    (r = true <-> Forall2 (values_equal (cb_equal cb)) (drop i v1) (drop i v2)).
Proof.
  induction n as [|n IH]; intros i R1 R2 Hn Hl.
  - exists true. split; [done|]. rewrite !drop_ge by lia. by split; [constructor|].
  - destruct (lookup_lt_is_Some_2 v1 i) as [x Hx]; [lia|]. destruct (lookup_lt_is_Some_2 v2 i) as [y Hy]; [lia|].
    simpl. rewrite (get_bucket_spec a1 v1 i x), (get_bucket_spec a2 v2 i y) by done. cbn [opt_bind].
    rewrite (drop_S v1 x i), (drop_S v2 y i) by done. setoid_rewrite Forall2_cons. unfold values_equal at 1.
    replace (Z.of_nat i + 1) with (Z.of_nat (S i)) by lia.
    destruct (IH (S i)) as (r & -> & Hr); [done..|lia|done|].
    destruct (Z.eqb_spec x y) as [->|Hne]; cbn [negb]; [exists r; naive_solver|].
    destruct (Z.eqb_spec (cb_equal cb) 0) as [E|E]; [exists false; naive_solver|].
    destruct (ce (cb_equal cb) x y) eqn:E'; cbn [negb]; [exists r; naive_solver|exists false; naive_solver].
Qed.

(** Two arrays are equal exactly when they have the same equal callback and
    pairwise equal values; the comparison always ends with an answer, and equal arrays hash alike. *)
Lemma CFArrayEqual_pointwise a1 a2 v1 v2 :
  array_rep a1 v1 -> array_rep a2 v2 ->
  let cb1 := __CFArrayGetCallBacks ty a1 in
  exists r, __CFArrayEqual ty ce false a1 a2 = Some r /\
    (r = true <-> cb_equal cb1 = cb_equal (__CFArrayGetCallBacks ty a2) /\ Forall2 (values_equal (cb_equal cb1)) v1 v2) /\
    (r = true -> __CFArrayHash a1 = __CFArrayHash a2).
Proof.
  intros R1 R2 cb1. unfold __CFArrayEqual, __CFArrayHash, __CFArrayGetCount. rewrite (rep_count _ _ R1), (rep_count _ _ R2). fold cb1.
  destruct (Z.eqb_spec (Z.of_nat (length v1)) (Z.of_nat (length v2))) as [El|El]; cbn [negb].
  2:{ exists false. split; [done|]. split; [|done]. split; [done|]. intros [_ H]. apply Forall2_length in H. lia. }
  destruct (Z.eqb_spec (cb_equal cb1) (cb_equal (__CFArrayGetCallBacks ty a2))) as [Ec|Ec]; cbn [negb].
  2:{ exists false. naive_solver. }
  destruct (array_equal_loop_spec a1 a2 v1 v2 cb1 (length v1) 0 R1 R2) as (r & E & Hr); [lia..|]. rewrite !drop_0 in Hr.
  destruct (Z.eqb_spec 0 (Z.of_nat (length v1))).
  - exists true. split; [done|]. destruct v1, v2; simpl in *; try lia. naive_solver.
  - rewrite Nat2Z.id. exists r. split; [done|]. naive_solver.
Qed.
End Queries.

(** ** Binary search *)

(** A comparator whose answer changes sign when its arguments are exchanged. *)
Class CompareAntisym {A} (cmp : A -> A -> Z) : Prop :=
  cmp_antisym a b : cmp a b < 0 <-> 0 < cmp b a.

Lemma int_shl1_pow n : 0 <= n < 31 -> int_shl1 n = Some (2 ^ n).
Proof. intros. unfold int_shl1. bool_case. simpl. by rewrite Z.shiftl_1_l. Qed.

Section Search.
Context (cc : Z -> Z -> Z -> Z -> Z) (comparator context : Z).
Let cmp x y := cc comparator x y context.

(** [m] values of the window are below [value]: the first [m]. *)
Context (a : __CFArray) (vals : list Z) (loc n : nat) (value : Z) (m : Z).
Context (Hr : array_rep a vals) (Hn : (loc + n <= length vals)%nat).
Context (Hm : forall i x, (i < n)%nat -> vals !! (loc + i)%nat = Some x -> cmp x value < 0 <-> Z.of_nat i < m).

Lemma probe k : 0 <= k < Z.of_nat n ->
  exists x, CFArrayGetValueAtIndex a (Z.of_nat loc + k) = Some x /\ (cmp x value < 0 <-> k < m).
Proof.
  intros Hk. destruct (lookup_lt_is_Some_2 vals (loc + Z.to_nat k)) as [x Hx]; [lia|]. exists x. split.
  - rewrite <- (Z2Nat.id k) by lia. by eapply get_value_spec.
  - rewrite (Hm (Z.to_nat k) x) by (done || lia). lia.
Qed.

Lemma bsearch_loop_spec lg : forall idx,
  (lg <= 31)%nat -> -1 <= idx -> idx < m -> m <= idx + 2 ^ Z.of_nat lg -> idx + 2 ^ Z.of_nat lg <= Z.of_nat n ->
  bsearch_loop cc lg a (Z.of_nat loc) value comparator context idx = Some (m - 1).
Proof.
  induction lg as [|lg IH]; intros idx Hlg H0 H1 H2 H3.
  - change (2 ^ Z.of_nat 0) with 1 in *. simpl. f_equal. lia.
  - rewrite Nat2Z.inj_succ, Z.pow_succ_r in H2, H3 by lia. simpl.
    assert (0 < 2 ^ Z.of_nat lg) by (apply Z.pow_pos_nonneg; lia).
    rewrite int_shl1_pow by lia. cbn [opt_bind].
    destruct (probe (idx + 2 ^ Z.of_nat lg)) as (x & E & Hx); [lia|]. rewrite Z.add_assoc in E. rewrite E. cbn [opt_bind].
    destruct (Z.ltb_spec (cc comparator x value context) 0) as [Hc|Hc].
    + apply Hx in Hc. apply IH; lia.
    + assert (~ idx + 2 ^ Z.of_nat lg < m) by (intros ?%Hx; unfold cmp in *; lia). apply IH; lia.
Qed.

Lemma bsearch_spec :
  0 <= m <= Z.of_nat n -> (n <> 0)%nat -> Z.of_nat n < 2 ^ 31 ->
  (forall x, vals !! loc = Some x -> cmp value x < 0 -> m = 0) ->
  CFArrayBSearchValues cc a (CFRangeMake (Z.of_nat loc) (Z.of_nat n)) value comparator context = Some (Z.of_nat loc + m).
Proof.
  intros Hm' Hn0 Hmax Hfirst. unfold CFArrayBSearchValues. simpl.
  destruct (Z.leb_spec (Z.of_nat n) 0); [lia|].
  destruct (probe (Z.of_nat n - 1)) as (x & E & Hx); [lia|]. rewrite Z.add_sub_assoc in E. rewrite E. cbn [opt_bind].
  destruct (Z.ltb_spec (cc comparator x value context) 0) as [Hc|Hc]; [apply Hx in Hc; f_equal; lia|].
  assert (m < Z.of_nat n) by (destruct (Z.lt_ge_cases (Z.of_nat n - 1) m) as [?%Hx|]; [unfold cmp in *; lia|lia]).
  destruct (lookup_lt_is_Some_2 vals loc) as [y Hy]; [lia|].
  pose proof (get_value_spec a vals loc 0 y Hr) as Ey. rewrite Nat.add_0_r, Z.add_0_r in Ey. rewrite Ey by done. cbn [opt_bind].
  destruct (Z.ltb_spec (cc comparator value y context) 0) as [Hcy|Hcy]; [rewrite (Hfirst y Hy Hcy); f_equal; lia|].
  rewrite flsl_spec by lia. replace (Z.log2 (Z.of_nat n) + 1 - 1) with (Z.log2 (Z.of_nat n)) by lia.
  pose proof (Z.log2_spec (Z.of_nat n) ltac:(lia)) as [Hl1 Hl2]. pose proof (Z.log2_nonneg (Z.of_nat n)).
  rewrite Z.pow_succ_r in Hl2 by lia.
  assert (Z.log2 (Z.of_nat n) < 31) by (apply Z.log2_lt_pow2; lia).
  rewrite int_shl1_pow by lia. cbn [opt_bind]. set (p := 2 ^ Z.log2 (Z.of_nat n)) in *.
  destruct (probe (-1 + p)) as (z & Ez & Hz); [lia|]. rewrite Z.add_assoc in Ez. rewrite Ez. cbn [opt_bind].
  rewrite bsearch_loop_spec; [simpl; f_equal; lia|lia|..]; rewrite ?Z2Nat.id by lia; fold p;
    destruct (Z.ltb_spec (cc comparator z value context) 0) as [Hcz|Hcz]; try (apply Hz in Hcz); try lia;
    assert (~ -1 + p < m) by (intros ?%Hz; unfold cmp in *; lia); lia.
Qed.
End Search.

Section SearchSorted.
Context (cc : Z -> Z -> Z -> Z -> Z) (comparator context : Z).
Let cmp x y := cc comparator x y context.
Context `{!CompareOrder cmp, !CompareAntisym cmp}.

Lemma below_downward x y v : cmp x y <= 0 -> cmp y v < 0 -> cmp x v < 0.
Proof.
  intros Hxy Hyv. destruct (Z.lt_ge_cases (cmp x v) 0) as [|H]; [done|]. exfalso.
  assert (cmp v x <= 0) as Hvx.
  { destruct (Z.le_gt_cases (cmp v x) 0) as [|Hgt]; [done|]. assert (0 < cmp v x) as Hp%cmp_antisym by lia. unfold cmp in *. lia. }
  pose proof (cmp_trans v x y Hvx Hxy). apply cmp_antisym in Hyv. unfold cmp in *. lia.
Qed.

(** The values below [v] in a sorted list come first. *)
Lemma below_prefix v w : StronglySorted (fun x y => cmp x y <= 0) w ->
  exists m, 0 <= m <= Z.of_nat (length w) /\
    forall i x, w !! i = Some x -> cmp x v < 0 <-> Z.of_nat i < m.
Proof.
  induction 1 as [|y w Hs IH Hy]; [exists 0; split; [done|]; intros i x Hi; done|].
  destruct (Z.lt_ge_cases (cmp y v) 0) as [Hlt|Hge].
  - destruct IH as (m & Hm & H). exists (m + 1). split; [simpl; lia|]. intros [|i] x Hi; simpl in Hi.
    + injection Hi as <-. split; intros; [lia|done].
    + rewrite (H i x Hi). lia.
  - exists 0. split; [simpl; lia|]. intros i x Hi. split; [|lia]. intros Hx. exfalso.
    assert (cmp y v < 0); [|lia]. destruct i as [|i]; simpl in Hi; [by injection Hi as ->|].
    eapply below_downward; [|exact Hx]. rewrite list.Forall_forall in Hy. apply Hy. by eapply list_elem_of_lookup_2.
Qed.

(** C33: binary search of a sorted range of fewer than 2^31 values returns,
    with every probe inside the range, the index of the first value that is
    not below the one searched: all values before it are below, none after
    it is.  It is the range's end when all values are below. *)
Theorem CFArrayBSearchValues_lower_bound a vals loc len value :
  array_rep a vals -> (loc + len <= length vals)%nat -> Z.of_nat len < 2 ^ 31 ->
  StronglySorted (fun x y => cmp x y <= 0) (take len (drop loc vals)) ->
  exists k, (k <= len)%nat /\
    CFArrayBSearchValues cc a (CFRangeMake (Z.of_nat loc) (Z.of_nat len)) value comparator context =
      Some (Z.of_nat (loc + k)) /\
    forall i x, (i < len)%nat -> vals !! (loc + i)%nat = Some x -> cc comparator x value context < 0 <-> (i < k)%nat.
Proof.
  intros Hr Hl Hmax Hs. destruct (below_prefix value _ Hs) as (m & Hm & H).
  rewrite length_take, length_drop, Nat.min_l in Hm by lia.
  assert (forall i x, (i < len)%nat -> vals !! (loc + i)%nat = Some x -> cmp x value < 0 <-> Z.of_nat i < m) as Hp.
  { intros i x Hi Hx. apply H. by rewrite lookup_take_lt, lookup_drop by done. }
  exists (Z.to_nat m). split; [lia|]. split.
  - destruct (decide (len = 0%nat)) as [->|Hne].
    + unfold CFArrayBSearchValues. simpl. f_equal. lia.
    + rewrite (bsearch_spec cc comparator context a vals loc len value m); [f_equal; lia|done..|].
      intros x Hx Hv. destruct (Z.eq_dec m 0) as [|Hm0]; [done|]. exfalso.
      assert (cmp x value < 0) as Hxv%cmp_antisym; [|unfold cmp in *; lia]. apply (Hp 0%nat); [lia|by rewrite Nat.add_0_r|lia].
  - intros i x Hi Hx. pose proof (Hp i x Hi Hx) as Hix. unfold cmp in Hix. rewrite Hix. lia.
Qed.
End SearchSorted.

(** ** Sorting *)

Section Bubble.
Context (cmp : Z -> Z -> Z) `{!CompareOrder cmp, !CompareAntisym cmp}.

(** One pass of the exchange sort, on the list. *)
Fixpoint bubble (x : Z) (w : list Z) : list Z :=
  match w with
  | [] => [x]
  | y :: w => if cmp y x <? 0 then y :: bubble x w else x :: bubble y w
  end.

Lemma bubble_perm w : forall x, bubble x w ≡ₚ x :: w.
Proof.
  induction w as [|y w IH]; intros x; simpl; [done|]. destruct (cmp y x <? 0); rewrite IH; [apply Permutation_swap|done].
Qed.

(** The last value of the pass is a greatest one. *)
Lemma bubble_last w : forall x, exists w' z,
  bubble x w = w' ++ [z] /\ cmp x z <= 0 /\ Forall (fun y => cmp y z <= 0) w'.
Proof.
  assert (forall y x, cmp y x < 0 \/ cmp x y <= 0) as Hd.
  { intros y x. destruct (Z.lt_ge_cases (cmp y x) 0) as [|H]; [by left|right].
    destruct (Z.le_gt_cases (cmp x y) 0) as [|Hg]; [done|]. assert (0 < cmp x y) as Hp%cmp_antisym by lia. lia. }
  assert (forall x, cmp x x <= 0) as Hrefl by (intros x; destruct (cmp_total x x); done).
  induction w as [|y w IH]; intros x; simpl; [by exists [], x|]. destruct (Z.ltb_spec (cmp y x) 0).
  - destruct (IH x) as (w' & z & -> & Hx & Hw). exists (y :: w'), z. split_and!; [done|done|].
    constructor; [|done]. apply (cmp_trans y x z); [lia|done].
  - destruct (IH y) as (w' & z & -> & Hy & Hw). assert (cmp x y <= 0) as Hxy by (destruct (Hd y x); [lia|done]).
    exists (x :: w'), z. split_and!; [done|by apply (cmp_trans x y z)|]. constructor; [by apply (cmp_trans x y z)|done].
Qed.

(** Values that are exchanged are not equivalent, so a pass is stable. *)
Lemma bubble_stable w t : forall x,
  filter (fun y => cmp t y <= 0 /\ cmp y t <= 0) (bubble x w) = filter (fun y => cmp t y <= 0 /\ cmp y t <= 0) (x :: w).
Proof.
  induction w as [|y w IH]; intros x; [done|]. cbn [bubble]. destruct (Z.ltb_spec (cmp y x) 0) as [H|H].
  - rewrite filter_cons, IH, !filter_cons. apply cmp_antisym in H. repeat case_decide; try done.
    pose proof (cmp_trans x t y ltac:(naive_solver) ltac:(naive_solver)). lia.
  - rewrite filter_cons, IH, !filter_cons. done.
Qed.

(** [n] passes over ever shorter prefixes. *)
Fixpoint bubbles (n : nat) (w : list Z) : list Z :=
  match n, w with
  | S m, x :: y :: w => let p := bubble x (y :: w) in bubbles m (take m p) ++ drop m p
  | _, _ => w
  end.

Lemma bubbles_sort n : forall w, length w = n -> stable_sort cmp w (bubbles n w).
Proof.
  induction n as [|n IH]; intros w Hl.
  { destruct w; [|done]. split; [done|constructor|done]. }
  destruct w as [|x [|y w]]; [done|split; [done|repeat constructor|done]|].
  cbn [bubbles]. cbv zeta. destruct (bubble_last (y :: w) x) as (w' & z & E & _ & Hw).
  pose proof (bubble_perm (y :: w) x) as Hp. pose proof (bubble_stable (y :: w)) as Hst. rewrite E in *.
  assert (length w' = n) as Hlw.
  { pose proof (Permutation_length Hp) as Hpl. rewrite length_app in Hpl. simpl in *. lia. }
  rewrite take_app_length', drop_app_length' by done. destruct (IH w' Hlw) as [P S T]. split.
  - by rewrite P.
  - apply StronglySorted_app. split_and!; [|done|repeat constructor].
    intros a b Ha Hb. apply list_elem_of_singleton in Hb as ->. rewrite list.Forall_forall in Hw. apply Hw. by rewrite <- P.
  - intros t. rewrite <- Hst, E, !list.filter_app, T. done.
Qed.
End Bubble.

Section Sorting.
Context (ty : CFArrayCallBacks) (cr : Z -> Z -> Z) (cc : Z -> Z -> Z -> Z -> Z) (comparator ctx : Z).
Let cmp x y := cc comparator x y ctx.

Lemma swap_neighbours {A} (pre post : list A) x y :
  <[(length pre + 1)%nat := x]> (<[length pre := y]> (pre ++ x :: y :: post)) = pre ++ y :: x :: post.
Proof.
  rewrite <- (Nat.add_0_r (length pre)) at 2. rewrite !insert_app_r. done.
Qed.

Lemma zsort_pass_spec w : forall a pre x post,
  array_rep a (pre ++ (x :: w) ++ post) ->
  exists a', zsort_pass cc (length w) a (Z.of_nat (length pre)) comparator ctx = Some a' /\
    array_rep a' (pre ++ bubble cmp x w ++ post) /\ same_header a a'.
Proof.
  induction w as [|y w IH]; intros a pre x post Hr; [by exists a|]. simpl.
  pose proof (get_value_spec a _ (length pre) 0 x Hr) as E0. pose proof (get_value_spec a _ (length pre) 1 y Hr) as E1.
  rewrite Z.add_0_r, Nat.add_0_r in E0. rewrite E0 by (by apply list_lookup_middle). change (Z.of_nat 1) with 1 in E1.
  rewrite E1 by (rewrite lookup_app_r, Nat.add_comm, Nat.add_sub by lia; done). cbn [opt_bind]. fold (cmp y x).
  replace (Z.of_nat (length pre) + 1) with (Z.of_nat (length pre + 1)) by lia.
  destruct (cmp y x <? 0).
  - destruct (exchange_spec a _ (length pre) (length pre + 1) x y Hr) as (a1 & -> & R1 & H1 & _);
      [by apply list_lookup_middle|rewrite lookup_app_r, Nat.add_comm, Nat.add_sub by lia; done|].
    cbn [opt_bind app] in *. rewrite swap_neighbours in R1.
    destruct (IH a1 (pre ++ [y]) x post) as (a2 & E & R2 & H2); [by rewrite <- (assoc_L (++))|].
    rewrite length_app in E. rewrite <- (assoc_L (++)) in R2. exists a2. split_and!; [done|done|by eapply same_header_trans].
  - destruct (IH a (pre ++ [x]) y post) as (a2 & E & R2 & H2); [by rewrite <- (assoc_L (++))|].
    rewrite length_app in E. rewrite <- (assoc_L (++)) in R2. by exists a2.
Qed.

Lemma zsort_loop_spec n : forall a pre w post,
  length w = n -> array_rep a (pre ++ w ++ post) ->
  exists a', zsort_loop cc n a (Z.of_nat (length pre)) comparator ctx = Some a' /\
    array_rep a' (pre ++ bubbles cmp n w ++ post) /\ same_header a a'.
Proof.
  induction n as [|n IH]; intros a pre w post Hl Hr; [by exists a|].
  destruct w as [|x [|y w]]; [done|injection Hl as <-; by exists a|]. injection Hl as <-.
  destruct (zsort_pass_spec (y :: w) a pre x post Hr) as (a1 & E1 & R1 & H1).
  cbn [zsort_loop]. cbn [length] in E1. rewrite E1. cbn [opt_bind bubbles]. cbv zeta.
  set (p := bubble cmp x (y :: w)) in *.
  assert (length p = S (S (length w))) as Hlp by (unfold p; by rewrite bubble_perm).
  rewrite <- (take_drop (S (length w)) p), <- (assoc_L (++)) in R1.
  destruct (IH a1 pre (take (S (length w)) p) (drop (S (length w)) p ++ post)) as (a2 & E2 & R2 & H2);
    [rewrite length_take; lia|done|].
  exists a2. split_and!; [done|by rewrite <- (assoc_L (++))|by eapply same_header_trans].
Qed.

(** Exactly one of retain and release is a callback. *)
Definition unbalanced (cb : CFArrayCallBacks) : bool :=
  (negb (cb_retain cb =? 0) && (cb_release cb =? 0)) || ((cb_retain cb =? 0) && negb (cb_release cb =? 0)).

Lemma sort_replace_spec a vals loc len :
  CompareOrder cmp -> array_rep a vals -> (loc + len <= length vals)%nat -> Z.of_nat (length vals) < 2 ^ 28 ->
  let range := CFRangeMake (Z.of_nat loc) (Z.of_nat len) in
  exists w', stable_sort cmp (take len (drop loc vals)) w' /\ length w' = len /\
    (do* values := io_lift (CFArrayGetValues a range (replicate (Z.to_nat (range_length range)) None)) in
     do* values := io_lift (all_written values) in
     do* values := io_lift (CFQSortArray (__CFArrayCompareValues cc {| func := comparator; context := ctx |}) values
                              (range_length range) sizeof_ptr) in io_ret values) = Some (w', []).
Proof.
  intros Ho Hr Hl Hs range. unfold range. cbn [range_length]. rewrite Nat2Z.id.
  rewrite (array_get_values_spec a vals) by (rewrite ?length_replicate; done || lia). cbn [io_lift io_bind].
  rewrite (drop_ge (replicate _ _)), app_nil_r, all_written_Some by (by rewrite length_replicate). cbn [io_lift io_bind].
  assert (length (take len (drop loc vals)) = len) as Hlw by (rewrite length_take, length_drop; lia).
  destruct (sort_routine_ok (sort := fun A c => CFQSortArray c) Z cmp (take len (drop loc vals)) (Z.of_nat len) sizeof_ptr) as (w' & E & Hw);
    [done|lia| |by vm_compute|].
  { transitivity (2 ^ 28); [lia|]. by vm_compute. }
  rewrite Nat2Z.id, (drop_ge (take _ _)), app_nil_r in E by lia. rewrite Nat2Z.id, (take_ge (take _ _)) in Hw by lia.
  exists w'. split; [done|]. split; [by rewrite (sort_perm _ _ _ Hw)|].
  change (__CFArrayCompareValues _ _) with cmp. by rewrite E.
Qed.

(** Sorting a range of a mutable array with any comparator that is a
    total order sorts the values of the range stably and leaves the others.
    With a balanced pair of callbacks the sorted values are retained and the
    old ones released; with only one of the two callbacks the values are
    exchanged in place and neither is called. *)
Lemma CFArraySortValues_stable a vals loc len :
  CompareOrder cmp -> CompareAntisym cmp ->
  array_rep a vals -> __CFArrayGetType a = __kCFArrayDeque -> (2 <= len)%nat -> (loc + len <= length vals)%nat ->
  Z.of_nat (length vals) < 2 ^ 28 ->
  let cb := __CFArrayGetCallBacks ty a in
  exists a' w', stable_sort cmp (take len (drop loc vals)) w' /\ same_header a a' /\
    if unbalanced cb then
      CFArraySortValues ty cr cc a (CFRangeMake (Z.of_nat loc) (Z.of_nat len)) comparator ctx = Some (a', []) /\
      array_rep a' (splice loc len w' vals)
    else
      CFArraySortValues ty cr cc a (CFRangeMake (Z.of_nat loc) (Z.of_nat len)) comparator ctx =
        Some (a', retain_events (cb_retain cb) w' ++ release_events (cb_release cb) (take len (drop loc vals))) /\
      array_rep a' (splice loc len (retained cr (cb_retain cb) w') vals).
Proof.
  intros Ho Ha Hr Ht H2 Hl Hs cb. unfold CFArraySortValues. cbv zeta. rewrite Ht. cbn [Z.eqb __kCFArrayImmutable __kCFArrayDeque negb andb].
  fold cb. fold (unbalanced cb). destruct (unbalanced cb).
  - unfold __CFZSort. cbn [range_length location]. rewrite Nat2Z.id.
    assert (length (take loc vals) = loc) as Hlt by (rewrite length_take; lia).
    destruct (zsort_loop_spec len a (take loc vals) (take len (drop loc vals)) (drop (loc + len) vals)) as (a' & E & R & H).
    + rewrite length_take, length_drop. lia.
    + rewrite <- drop_drop, take_drop, take_drop. done.
    + rewrite Hlt in E. exists a', (bubbles cmp len (take len (drop loc vals))). rewrite E.
      split_and!; [|done|done|done]. apply bubbles_sort; [done..|]. rewrite length_take, length_drop. lia.
  - destruct (sort_replace_spec a vals loc len Ho Hr Hl Hs) as (w' & Hw & Hlw & E).
    destruct (replace_values_spec ty cr a vals loc len w' Hr Ht Hl) as (a' & E2 & R & H & _); [lia|].
    exists a', w'. split_and!; [done|done| |done]. cbn [range_length] in *.
    destruct (Z.ltb_spec (Z.of_nat len) 2); [lia|].
    destruct (CFArrayGetValues _ _ _) as [v1|]; [|done]. cbn [io_lift io_bind] in *.
    destruct (all_written v1) as [v2|]; [|done]. cbn [io_lift io_bind] in *.
    destruct (CFQSortArray _ _ _ _) as [v3|]; [|done]. cbn [io_lift io_bind io_ret] in *. injection E as ->.
    unfold CFArrayReplaceValues. by rewrite E2.
Qed.
End Sorting.

(** ** Setting the capacity *)

(** C39: setting the capacity of a mutable array rounds it up to a power of two
    and keeps the values, as long as the new block is not smaller than the
    old one.  When it is smaller the old block is copied beyond the end of
    the new one. *)
Theorem CFArraySetCapacity_grows_or_overruns a vals d cap c :
  array_rep a vals -> __CFArrayGetType a = __kCFArrayDeque -> _store a = Some d ->
  __CFArrayDequeRoundUpCapacity cap = Some c -> c <= 2 ^ 30 ->
  if _capacity d <=? c
  then exists a', _CFArraySetCapacity a cap = Some a' /\ array_rep a' vals /\ same_header a a' /\
         (exists d', _store a' = Some d' /\ _capacity d' = c)
  else _CFArraySetCapacity a cap = None.
Proof.
  intros [Hc Hf Hs] Ht Hd Hcap Hmax. destruct Hs as [[Ht' _]|[_ Hs]]; [rewrite Ht in Ht'; done|].
  unfold _CFArraySetCapacity. rewrite Ht, Hcap. cbn [Z.eqb Pos.eqb __kCFArrayDeque opt_bind]. rewrite Hd in *.
  destruct Hs as (Hlen & Hm & H0 & H1 & H2).
  destruct (Z.leb_spec (_capacity d) c) as [Hle|Hgt].
  - destruct (memmove_rd (replicate (Z.to_nat c) None) (deque_buckets d) 0 0 (_capacity d)) as (b & -> & Hlb & Hb);
      [rewrite ?length_replicate; lia..|]. cbn [opt_bind _leftIdx _capacity deque_buckets].
    rewrite length_replicate in Hlb.
    eexists. split; [done|]. split_and!; [|done|by eexists]. split; [done|done|right]. split; [done|]. simpl.
    split_and!; [lia|done|]. split_and!; [done|lia|]. intros k v Hk.
    pose proof (lookup_lt_Some _ _ _ Hk). rewrite Hb by lia. bool_case. cbn [andb]. rewrite <- (H2 k v Hk). f_equal. lia.
  - assert (0 <= c).
    { revert Hcap. unfold __CFArrayDequeRoundUpCapacity, int_shl1. destruct (cap <? 4); [intros [= <-]; lia|].
      destruct (_ && _); [|done]. intros [= <-]. apply Z.min_glb; [|done]. apply Z.shiftl_nonneg. lia. }
    unfold memmove. rewrite length_replicate.
    destruct (Z.leb_spec (0 + _capacity d) (Z.of_nat (Z.to_nat c))) as [Hx|Hx]; [lia|].
    by rewrite andb_false_r.
Qed.

(** ** The properties on a concrete array *)

Definition demo_type_callbacks : CFArrayCallBacks := mkCB 21 22 23 24.

Definition demo_callbacks : CFArrayCallBacks := mkCB 11 12 0 13.

Definition demo_retain (fp v : Z) : Z := v + 100.

Definition demo_equal (fp x y : Z) : bool := x mod 10 =? y mod 10.

Definition demo_compare (fp x y ctx : Z) : Z := x mod ctx - y mod ctx.

(** A mutable array that holds 5, 13, 4, 8 with free buckets on both sides. *)
Definition demo_array : __CFArray :=
  mkArray 142 4 7 0 (Some (mkDeque 1 8 [None; Some 5; Some 13; Some 4; Some 8; None; None; None])) demo_callbacks [].

Ltac concrete_cells :=
  split_and!; [done|simpl; lia|]; let k := fresh "k" in let v := fresh "v" in let H := fresh "H" in
  intros k v H; repeat (destruct k as [|k]; [injection H as <-; reflexivity|]); discriminate H.

Lemma demo_array_rep : array_rep demo_array [5; 13; 4; 8].
Proof. split; [done|done|right]. split; [done|]. simpl. split_and!; [done|lia|]. concrete_cells. Qed.

Lemma CFArray_calls_refine_list_witness :
  exists a', do_calls demo_type_callbacks demo_retain demo_array
      [InsertCall 1 6; RemoveCall 0; AppendCall 7; SetCall 2 9; ExchangeCall 0 3; ReplaceCall 1 2 [1; 2; 3]] =
      Some (a', [EvRetain 11 6; EvRelease 12 5; EvRetain 11 7; EvRetain 11 9; EvRelease 12 4;
                 EvRetain 11 1; EvRetain 11 2; EvRetain 11 3; EvRelease 12 13; EvRelease 12 109]) /\
    array_rep a' [8; 101; 102; 103; 106; 107] /\ same_header demo_array a' /\
    (in_signed 64 7 -> _mutations a' = 13).
Proof.
  apply (CFArray_calls_refine_list demo_type_callbacks demo_retain
    [InsertCall 1 6; RemoveCall 0; AppendCall 7; SetCall 2 9; ExchangeCall 0 3; ReplaceCall 1 2 [1; 2; 3]]
    demo_array [5; 13; 4; 8]); [apply demo_array_rep|vm_compute; reflexivity..].
Defined.

Lemma CFArray_copies_hold_retained_witness :
  (exists a1, CFArrayCreateCopy demo_type_callbacks demo_retain demo_array =
       Some (a1, [EvRetain 11 5; EvRetain 11 13; EvRetain 11 4; EvRetain 11 8]) /\
     array_rep a1 [105; 113; 104; 108] /\ __CFArrayGetType a1 = __kCFArrayImmutable /\
     __CFArrayGetCallBacks demo_type_callbacks a1 = demo_callbacks) /\
  (exists a2, CFArrayCreateMutableCopy demo_type_callbacks demo_retain 0 demo_array =
       Some (a2, [EvRetain 11 5; EvRetain 11 13; EvRetain 11 4; EvRetain 11 8]) /\
     array_rep a2 [105; 113; 104; 108] /\ __CFArrayGetType a2 = __kCFArrayDeque /\
     __CFArrayGetCallBacks demo_type_callbacks a2 = demo_callbacks).
Proof.
  apply (CFArray_copies_hold_retained demo_type_callbacks demo_retain demo_array [5; 13; 4; 8] 0);
    [apply demo_array_rep|simpl; lia].
Defined.

Lemma CFArray_queries_of_list_witness :
  CFArrayGetCountOfValue demo_type_callbacks demo_equal demo_array (CFRangeMake 0 3) 25 = Some 1 /\
  CFArrayGetFirstIndexOfValue demo_type_callbacks demo_equal demo_array (CFRangeMake 0 3) 25 = Some 0.
Proof.
  pose proof (CFArray_queries_of_list demo_type_callbacks demo_equal demo_array [5; 13; 4; 8] 0 3 25 (replicate 3 None) 1 2)
    as (_ & H1 & H2 & _); [apply demo_array_rep|simpl; lia|simpl; lia|].
  split; [exact H1|exact H2].
Defined.

Lemma CFArrayEqual_pointwise_witness :
  exists r, __CFArrayEqual demo_type_callbacks demo_equal false demo_array demo_array = Some r /\
    (r = true <-> cb_equal demo_callbacks = cb_equal demo_callbacks /\
                  Forall2 (values_equal demo_equal 13) [5; 13; 4; 8] [5; 13; 4; 8]) /\
    (r = true -> __CFArrayHash demo_array = __CFArrayHash demo_array).
Proof.
  apply (CFArrayEqual_pointwise demo_type_callbacks demo_equal demo_array demo_array [5; 13; 4; 8] [5; 13; 4; 8]);
    apply demo_array_rep.
Defined.

#[export] Instance demo_compare_order fp ctx : CompareOrder (fun x y => demo_compare fp x y ctx).
Proof. split; unfold demo_compare; intros *; lia. Qed.

#[export] Instance demo_compare_antisym fp ctx : CompareAntisym (fun x y => demo_compare fp x y ctx).
Proof. intros a b. unfold demo_compare. lia. Qed.

(** By their remainder modulo 5 the values of the array are in order. *)
Lemma CFArrayBSearchValues_lower_bound_witness :
  exists k, (k <= 2)%nat /\
    CFArrayBSearchValues demo_compare demo_array (CFRangeMake 0 2) 11 1 5 = Some (Z.of_nat (0 + k)) /\
    forall i x, (i < 2)%nat -> [5; 13; 4; 8] !! (0 + i)%nat = Some x -> demo_compare 1 x 11 5 < 0 <-> (i < k)%nat.
Proof.
  apply (CFArrayBSearchValues_lower_bound demo_compare 1 5 demo_array [5; 13; 4; 8] 0 2 11);
    [apply demo_array_rep|simpl; lia|simpl; lia|].
  simpl. repeat constructor; unfold demo_compare; discriminate.
Defined.

Lemma CFArraySortValues_stable_witness :
  exists a' w', stable_sort (fun x y => demo_compare 1 x y 5) [13; 4; 8] w' /\ same_header demo_array a' /\
    CFArraySortValues demo_type_callbacks demo_retain demo_compare demo_array
        (CFRangeMake 1 3) 1 5 = Some (a', retain_events 11 w' ++ release_events 12 [13; 4; 8]) /\
      array_rep a' (splice 1 3 (retained demo_retain 11 w') [5; 13; 4; 8]).
Proof.
  apply (CFArraySortValues_stable demo_type_callbacks demo_retain demo_compare 1 5
           demo_array [5; 13; 4; 8] 1 3);
    [apply demo_compare_order|apply demo_compare_antisym|apply demo_array_rep|reflexivity|lia|simpl; lia|simpl; lia].
Defined.

Lemma CFArraySetCapacity_grows_or_overruns_witness :
  __CFArrayDequeRoundUpCapacity 3 = Some 4 /\ _CFArraySetCapacity demo_array 3 = None.
Proof.
  split; [reflexivity|].
  apply (CFArraySetCapacity_grows_or_overruns demo_array [5; 13; 4; 8]
           (mkDeque 1 8 [None; Some 5; Some 13; Some 4; Some 8; None; None; None]) 3 4);
    [apply demo_array_rep|reflexivity|reflexivity|reflexivity|lia].
Defined.
