(* ===== verification/CFTree.v ===== *)
(** * CFTree: n-ary trees with intrusive sibling lists (CFTree.c)

    Trees are objects in a shared heap: a finite map from addresses to node
    structures, the null pointer being 0.  An operation reads and writes nodes
    through their addresses, so two references to one node are two uses of one
    key.  Following a null or unknown address is [None], as is [HALT].  The
    loops along sibling and parent links take one step per node of the heap
    plus one, which is enough for every chain without a cycle.

    The runtime's [CFRetain] and [CFRelease] of a node are events: a client
    that goes on using a removed node holds a reference of its own, so the
    release does not destroy it. *)

From S2P Require Import Prelude CFInternal CFSortFunctions.
From stdpp Require Import base list numbers option gmap sets fin_map_dom sorting.
From Stdlib Require Import ZArith Lia.
Open Scope Z_scope.
Open Scope cf_scope.

(** ** Data *)

Record __CFTreeCallBacks := mkTreeCB { retain : Z; release : Z; copyDescription : Z }.

(** [CFTreeContext] without its version, which is always 0. *)
Record CFTreeContext := mkContext { ctx_info : Z; ctx_retain : Z; ctx_release : Z; ctx_copyDescription : Z }.

(** [_callbacks] are the custom callbacks the pointer of that name leads to. *)
Record __CFTree := mkTree {
  _cfinfo : Z;
  _parent : Z;
  _sibling : Z;
  _child : Z;
  _rightmostChild : Z;
  _info : Z;
  _callbacks : __CFTreeCallBacks
}.

Notation heap := (gmap Z __CFTree).

Definition set_parent (h : heap) (p v : Z) : option heap :=
  let* n := h !! p in
  Some (<[p := mkTree (_cfinfo n) v (_sibling n) (_child n) (_rightmostChild n) (_info n) (_callbacks n)]> h).

Definition set_sibling (h : heap) (p v : Z) : option heap :=
  let* n := h !! p in
  Some (<[p := mkTree (_cfinfo n) (_parent n) v (_child n) (_rightmostChild n) (_info n) (_callbacks n)]> h).

Definition set_child (h : heap) (p v : Z) : option heap :=
  let* n := h !! p in
  Some (<[p := mkTree (_cfinfo n) (_parent n) (_sibling n) v (_rightmostChild n) (_info n) (_callbacks n)]> h).

Definition set_rightmost (h : heap) (p v : Z) : option heap :=
  let* n := h !! p in
  Some (<[p := mkTree (_cfinfo n) (_parent n) (_sibling n) (_child n) v (_info n) (_callbacks n)]> h).

Definition set_context_fields (h : heap) (p info : Z) (cfinfo : Z) (cb : __CFTreeCallBacks) : option heap :=
  let* n := h !! p in
  Some (<[p := mkTree cfinfo (_parent n) (_sibling n) (_child n) (_rightmostChild n) info cb]> h).

(** The bound of the loops along links. *)
Definition fuel (h : heap) : nat := S (size h).

Definition __kCFNullTreeCallBacks : __CFTreeCallBacks := mkTreeCB 0 0 0.
Definition __kCFTreeHasNullCallBacks : Z := 0.
Definition __kCFTreeHasCFTypeCallBacks : Z := 1.
Definition __kCFTreeHasCustomCallBacks : Z := 3.

Section Tree.
Context (CFRetain CFRelease CFCopyDescription : Z).
Context (call_retain : Z -> Z -> Z).
Context (call_compare : Z -> Z -> Z -> Z -> Z).

Definition __kCFTypeTreeCallBacks : __CFTreeCallBacks := mkTreeCB CFRetain CFRelease CFCopyDescription.

Definition __CFTreeGetCallBacksType (tree : __CFTree) : Z := __CFBitfieldGetValue (_cfinfo tree) 1 0.

Definition __CFTreeGetCallBacks (tree : __CFTree) : __CFTreeCallBacks :=
  let f := __CFTreeGetCallBacksType tree in
  if f =? __kCFTreeHasNullCallBacks then __kCFNullTreeCallBacks
  else if f =? __kCFTreeHasCFTypeCallBacks then __kCFTypeTreeCallBacks
  else _callbacks tree.

Definition __CFTreeCallBacksMatchNull (c : option CFTreeContext) : bool :=
  match c with
  | None => true
  | Some c => (ctx_retain c =? 0) && (ctx_release c =? 0) && (ctx_copyDescription c =? 0)
  end.

Definition __CFTreeCallBacksMatchCFType (c : option CFTreeContext) : bool :=
  match c with
  | None => false
  | Some c => (ctx_retain c =? CFRetain) && (ctx_release c =? CFRelease) && (ctx_copyDescription c =? CFCopyDescription)
  end.

(** ** Context *)

Definition CFTreeGetContext (h : heap) (tree : Z) : option CFTreeContext :=
  let* n := h !! tree in
  let cb := __CFTreeGetCallBacks n in
  Some (mkContext (_info n) (retain cb) (release cb) (copyDescription cb)).

(** A null context is dereferenced for its info. *)
Definition CFTreeSetContext (h : heap) (tree : Z) (context : option CFTreeContext) : io heap :=
  do* n := io_lift (h !! tree) in
  let oldcb := __CFTreeGetCallBacks n in
  let oldinfo := _info n in
  let '(newtype, callbacks) :=
    (if __CFTreeCallBacksMatchNull context then (__kCFTreeHasNullCallBacks, _callbacks n)
     else if __CFTreeCallBacksMatchCFType context then (__kCFTreeHasCFTypeCallBacks, _callbacks n)
     else (__kCFTreeHasCustomCallBacks,
           match context with
           | Some c => mkTreeCB (ctx_retain c) (ctx_release c) (ctx_copyDescription c)
           | None => _callbacks n
           end)) in
  let cfinfo := __CFBitfieldSetValue (_cfinfo n) 1 0 newtype in
  do* h := io_lift (set_context_fields h tree oldinfo cfinfo callbacks) in
  do* n := io_lift (h !! tree) in
  let newcb := __CFTreeGetCallBacks n in
  do* c := io_lift context in
  do* info :=
    (if negb (retain newcb =? 0)
     then do* _ := emit (EvRetain (retain newcb) (ctx_info c)) in io_ret (call_retain (retain newcb) (ctx_info c))
     else io_ret (ctx_info c)) in
  do* h := io_lift (set_context_fields h tree info cfinfo callbacks) in
  do* _ := (if negb (release oldcb =? 0) then emit (EvRelease (release oldcb) oldinfo) else io_ret tt) in
  io_ret h.

(** [memory] is the address of the new object, 0 when there is none; the
    runtime clears the object, whose header word then holds its base value. *)
Definition CFTreeCreate (h : heap) (memory : Z) (context : option CFTreeContext) : io (heap * Z) :=
  if memory =? 0 then io_ret (h, 0) else
  let fresh := mkTree (__CFBitfieldSetValue 128 1 0 __kCFTreeHasNullCallBacks) 0 0 0 0 0 __kCFNullTreeCallBacks in
  do* h := CFTreeSetContext (<[memory := fresh]> h) memory context in
  io_ret (h, memory).

(** ** Queries *)

(** The nodes of a sibling chain. *)
Fixpoint count_children (n : nat) (h : heap) (tree cnt : Z) : option Z :=
  match n with
  | O => None
  | S n =>
      if tree =? 0 then Some cnt else
      if 2 ^ 31 <=? cnt + 1 then None else
      let* t := h !! tree in count_children n h (_sibling t) (cnt + 1)
  end.

Definition CFTreeGetChildCount (h : heap) (tree : Z) : option Z :=
  let* t := h !! tree in count_children (fuel h) h (_child t) 0.

Definition CFTreeGetParent (h : heap) (tree : Z) : option Z := let* t := h !! tree in Some (_parent t).
Definition CFTreeGetNextSibling (h : heap) (tree : Z) : option Z := let* t := h !! tree in Some (_sibling t).
Definition CFTreeGetFirstChild (h : heap) (tree : Z) : option Z := let* t := h !! tree in Some (_child t).

Fixpoint find_root (n : nat) (h : heap) (tree : Z) : option Z :=
  match n with
  | O => None
  | S n => let* t := h !! tree in if negb (_parent t =? 0) then find_root n h (_parent t) else Some tree
  end.

Definition CFTreeFindRoot (h : heap) (tree : Z) : option Z := find_root (fuel h) h tree.

Fixpoint child_at (n : nat) (h : heap) (tree idx : Z) : option Z :=
  match n with
  | O => None
  | S n =>
      if tree =? 0 then Some 0 else
      if 0 =? idx then Some tree else
      let* t := h !! tree in child_at n h (_sibling t) (idx - 1)
  end.

Definition CFTreeGetChildAtIndex (h : heap) (tree idx : Z) : option Z :=
  let* t := h !! tree in child_at (fuel h) h (_child t) idx.

(** [*children++ = tree], from cell [idx] of the caller's array. *)
Fixpoint store_children (n : nat) (h : heap) (tree idx : Z) (children : list (option Z)) : option (list (option Z)) :=
  match n with
  | O => None
  | S n =>
      if tree =? 0 then Some children else
      let* children := wr children idx (Some tree) in
      let* t := h !! tree in store_children n h (_sibling t) (idx + 1) children
  end.

Definition CFTreeGetChildren (h : heap) (tree : Z) (children : list (option Z)) : option (list (option Z)) :=
  let* t := h !! tree in store_children (fuel h) h (_child t) 0 children.

Fixpoint apply_children (n : nat) (h : heap) (tree applier context : Z) : io unit :=
  match n with
  | O => None
  | S n =>
      if tree =? 0 then io_ret tt else
      do* _ := emit (EvApply applier tree context) in
      do* t := io_lift (h !! tree) in apply_children n h (_sibling t) applier context
  end.

Definition CFTreeApplyFunctionToChildren (h : heap) (tree applier context : Z) : io unit :=
  do* t := io_lift (h !! tree) in apply_children (fuel h) h (_child t) applier context.

(** ** Linking *)

Definition CFTreePrependChild (h : heap) (tree newChild : Z) : io heap :=
  do* _ := emit (EvRetain CFRetain newChild) in
  io_lift (
    let* h := set_parent h newChild tree in
    let* t := h !! tree in
    let* h := set_sibling h newChild (_child t) in
    let* t := h !! tree in
    let* h := (if _child t =? 0 then set_rightmost h tree newChild else Some h) in
    set_child h tree newChild).

Definition CFTreeAppendChild (h : heap) (tree newChild : Z) : io heap :=
  do* c := io_lift (h !! newChild) in
  if negb (_parent c =? 0) then None else
  do* _ := emit (EvRetain CFRetain newChild) in
  io_lift (
    let* h := set_parent h newChild tree in
    let* h := set_sibling h newChild 0 in
    let* t := h !! tree in
    let* h := (if _child t =? 0 then set_child h tree newChild
               else set_sibling h (_rightmostChild t) newChild) in
    set_rightmost h tree newChild).

Definition CFTreeInsertSibling (h : heap) (tree newSibling : Z) : io heap :=
  do* _ := emit (EvRetain CFRetain newSibling) in
  io_lift (
    let* t := h !! tree in
    let* h := set_parent h newSibling (_parent t) in
    let* t := h !! tree in
    let* h := set_sibling h newSibling (_sibling t) in
    let* h := set_sibling h tree newSibling in
    let* t := h !! tree in
    if negb (_parent t =? 0) then
      let* p := h !! _parent t in
      if _rightmostChild p =? tree then set_rightmost h (_parent t) newSibling else Some h
    else Some h).

(** The search for the previous sibling. *)
Fixpoint unlink (n : nat) (h : heap) (tree prevSibling : Z) : option heap :=
  match n with
  | O => None
  | S n =>
      if prevSibling =? 0 then Some h else
      let* q := h !! prevSibling in
      if _sibling q =? tree then
        let* t := h !! tree in
        let* h := set_sibling h prevSibling (_sibling t) in
        let* t := h !! tree in
        let* p := h !! _parent t in
        if _rightmostChild p =? tree then set_rightmost h (_parent t) prevSibling else Some h
      else unlink n h tree (_sibling q)
  end.

Definition CFTreeRemove (h : heap) (tree : Z) : io heap :=
  do* t := io_lift (h !! tree) in
  if negb (_parent t =? 0) then
    do* p := io_lift (h !! _parent t) in
    do* h := io_lift (
      if tree =? _child p then
        let* h := set_child h (_parent t) (_sibling t) in
        if _sibling t =? 0 then set_rightmost h (_parent t) 0 else Some h
      else unlink (fuel h) h tree (_child p)) in
    do* h := io_lift (set_parent h tree 0) in
    do* h := io_lift (set_sibling h tree 0) in
    do* _ := emit (EvRelease CFRelease tree) in
    io_ret h
  else io_ret h.

Fixpoint remove_children (n : nat) (h : heap) (nextChild : Z) : io heap :=
  match n with
  | O => None
  | S n =>
      if nextChild =? 0 then io_ret h else
      do* c := io_lift (h !! nextChild) in
      let nextSibling := _sibling c in
      do* h := io_lift (set_parent h nextChild 0) in
      do* h := io_lift (set_sibling h nextChild 0) in
      do* _ := emit (EvRelease CFRelease nextChild) in
      remove_children n h nextSibling
  end.

Definition CFTreeRemoveAllChildren (h : heap) (tree : Z) : io heap :=
  do* t := io_lift (h !! tree) in
  let nextChild := _child t in
  do* h := io_lift (set_child h tree 0) in
  do* h := io_lift (set_rightmost h tree 0) in
  remove_children (fuel h) h nextChild.

(** [DEPLOYMENT_TARGET_MACOSX] decides whether the children are let go. *)
Definition __CFTreeDeallocate (macosx : bool) (h : heap) (tree : Z) : io heap :=
  do* h := (if macosx then CFTreeRemoveAllChildren h tree else io_ret h) in
  do* t := io_lift (h !! tree) in
  let cb := __CFTreeGetCallBacks t in
  do* _ := (if negb (release cb =? 0) then emit (EvRelease (release cb) (_info t)) else io_ret tt) in
  io_ret h.

(** ** Sorting the children *)

Record _tcompareContext := { func : Z; context : Z }.

Definition __CFTreeCompareValues (ctx : _tcompareContext) (v1 v2 : Z) : Z :=
  call_compare (func ctx) v1 v2 (context ctx).

(** [list[idx - 1]->_sibling = list[idx]] along the sorted list, the last
    sibling being null. *)
Fixpoint relink (h : heap) (prev : Z) (rest : list Z) : option heap :=
  match rest with
  | [] => set_sibling h prev 0
  | c :: rest => let* h := set_sibling h prev c in relink h c rest
  end.

Definition CFTreeSortChildren (h : heap) (tree comparator ctx : Z) : option heap :=
  let* children := CFTreeGetChildCount h tree in
  if 1 <? children then
    let* t := h !! tree in
    let* buffer := store_children (fuel h) h (_child t) 0 (replicate (Z.to_nat children) None) in
    let* list := all_written buffer in
    let* list := CFQSortArray (__CFTreeCompareValues {| func := comparator; context := ctx |}) list children 8 in
    match list with
    | [] => None
    | c :: rest =>
        let* h := set_child h tree c in
        let* h := relink h c rest in
        set_rightmost h tree (List.last rest c)
    end
  else Some h.
End Tree.

(** ** Observing the heap *)

Definition par (h : heap) (x : Z) : option Z := _parent <$> h !! x.
Definition sib (h : heap) (x : Z) : option Z := _sibling <$> h !! x.
Definition chi (h : heap) (x : Z) : option Z := _child <$> h !! x.
Definition rig (h : heap) (x : Z) : option Z := _rightmostChild <$> h !! x.

(** What the links do not touch. *)
Definition payload (h : heap) (x : Z) : option (Z * Z * __CFTreeCallBacks) :=
  (fun n => (_cfinfo n, _info n, _callbacks n)) <$> h !! x.

Definition same_objects (h h' : heap) : Prop := dom h' = dom h /\ forall x, payload h' x = payload h x.

#[export] Instance same_objects_preorder : PreOrder same_objects.
Proof. split; [by intros h|]. intros h1 h2 h3 [E1 F1] [E2 F2]. split; [congruence|]. intros x. by rewrite F2, F1. Qed.

Lemma same_objects_fuel h h' : same_objects h h' -> fuel h' = fuel h.
Proof. intros [E _]. unfold fuel. rewrite <- !size_dom. by rewrite E. Qed.

Lemma same_objects_Some h h' x : same_objects h h' -> is_Some (h !! x) -> is_Some (h' !! x).
Proof. intros [E _]. rewrite <- !elem_of_dom. by rewrite E. Qed.

(** Reading a field that is observed. *)
Lemma par_node h x v : par h x = Some v -> exists n, h !! x = Some n /\ _parent n = v.
Proof. unfold par. destruct (h !! x) as [n|]; [|done]. intros [= <-]. by exists n. Qed.
Lemma sib_node h x v : sib h x = Some v -> exists n, h !! x = Some n /\ _sibling n = v.
Proof. unfold sib. destruct (h !! x) as [n|]; [|done]. intros [= <-]. by exists n. Qed.
Lemma chi_node h x v : chi h x = Some v -> exists n, h !! x = Some n /\ _child n = v.
Proof. unfold chi. destruct (h !! x) as [n|]; [|done]. intros [= <-]. by exists n. Qed.
Lemma rig_node h x v : rig h x = Some v -> exists n, h !! x = Some n /\ _rightmostChild n = v.
Proof. unfold rig. destruct (h !! x) as [n|]; [|done]. intros [= <-]. by exists n. Qed.

Lemma node_links h x n :
  h !! x = Some n -> par h x = Some (_parent n) /\ sib h x = Some (_sibling n) /\ chi h x = Some (_child n) /\
    rig h x = Some (_rightmostChild n).
Proof. intros E. unfold par, sib, chi, rig. by rewrite E. Qed.

(** [upd f p v] is [f] with [v] at [p]. *)
Definition upd (f : Z -> option Z) (p v : Z) : Z -> option Z := fun x => if decide (x = p) then Some v else f x.

Lemma upd_eq f p v : upd f p v p = Some v.
Proof. unfold upd. by rewrite decide_True. Qed.
Lemma upd_ne f p v x : x <> p -> upd f p v x = f x.
Proof. intros. unfold upd. by rewrite decide_False. Qed.

(** One field of one object written. *)
Ltac setter p :=
  let n := fresh "n" in let E := fresh "E" in let x := fresh "x" in
  intros [n E]; rewrite E; eexists; split; [reflexivity|]; split;
    [split; [apply dom_insert_lookup_L; by rewrite E|]|split_and!];
    try (intros x; unfold upd, payload, par, sib, chi, rig; destruct (decide (x = p)) as [->|];
         rewrite ?lookup_insert_eq, ?lookup_insert_ne, ?E by done; done).

Lemma set_parent_spec h p v : is_Some (h !! p) ->
  exists h', set_parent h p v = Some h' /\ same_objects h h' /\
    (forall x, par h' x = upd (par h) p v x) /\ (forall x, sib h' x = sib h x) /\
    (forall x, chi h' x = chi h x) /\ (forall x, rig h' x = rig h x).
Proof. unfold set_parent. setter p. Qed.

Lemma set_sibling_spec h p v : is_Some (h !! p) ->
  exists h', set_sibling h p v = Some h' /\ same_objects h h' /\
    (forall x, par h' x = par h x) /\ (forall x, sib h' x = upd (sib h) p v x) /\
    (forall x, chi h' x = chi h x) /\ (forall x, rig h' x = rig h x).
Proof. unfold set_sibling. setter p. Qed.

Lemma set_child_spec h p v : is_Some (h !! p) ->
  exists h', set_child h p v = Some h' /\ same_objects h h' /\
    (forall x, par h' x = par h x) /\ (forall x, sib h' x = sib h x) /\
    (forall x, chi h' x = upd (chi h) p v x) /\ (forall x, rig h' x = rig h x).
Proof. unfold set_child. setter p. Qed.

Lemma set_rightmost_spec h p v : is_Some (h !! p) ->
  exists h', set_rightmost h p v = Some h' /\ same_objects h h' /\
    (forall x, par h' x = par h x) /\ (forall x, sib h' x = sib h x) /\
    (forall x, chi h' x = chi h x) /\ (forall x, rig h' x = upd (rig h) p v x).
Proof. unfold set_rightmost. setter p. Qed.

(** ** What the heap represents *)

(** The nodes [l] are children of [p] linked in this order, then comes [e]. *)
Fixpoint lseg (h : heap) (p : Z) (l : list Z) (e : Z) : Prop :=
  match l with
  | [] => True
  | c :: l => par h c = Some p /\ sib h c = Some (hd e l) /\ lseg h p l e
  end.

(** [kids] gives each node its children, in order. *)
Notation children_map := (gmap Z (list Z)).

Record forest (h : heap) (kids : children_map) : Prop := {
  f_null : h !! 0 = None;
  f_dom : dom h = dom kids;
  f_nodup p cs : kids !! p = Some cs -> NoDup cs;
  f_first p cs : kids !! p = Some cs -> chi h p = Some (hd 0 cs);
  f_last p cs : kids !! p = Some cs -> rig h p = Some (List.last cs 0);
  f_links p cs : kids !! p = Some cs -> lseg h p cs 0;
  f_root x : par h x = Some 0 -> sib h x = Some 0;
  f_parent x q : par h x = Some q -> q <> 0 -> exists cs, kids !! q = Some cs /\ x ∈ cs
}.

Lemma lseg_app h p l1 l2 e : lseg h p (l1 ++ l2) e <-> lseg h p l1 (hd e l2) /\ lseg h p l2 e.
Proof.
  induction l1 as [|c l1 IH]; simpl; [tauto|]. rewrite IH.
  assert (hd e (l1 ++ l2) = hd (hd e l2) l1) as -> by (by destruct l1). tauto.
Qed.

Lemma lseg_frame h h' p l e :
  (forall x, x ∈ l -> par h' x = par h x /\ sib h' x = sib h x) -> lseg h p l e -> lseg h' p l e.
Proof.
  induction l as [|c l IH]; intros Hf; simpl; [done|]. intros (H1 & H2 & H3).
  destruct (Hf c) as [-> ->]; [apply elem_of_cons; by left|]. split_and!; [done|done|].
  apply IH; [|done]. intros x Hx. apply Hf, elem_of_cons. by right.
Qed.

Lemma lseg_par h p l e x : lseg h p l e -> x ∈ l -> par h x = Some p.
Proof.
  induction l as [|c l IH]; [by intros _ ?%not_elem_of_nil|]. intros (H1 & _ & H3) [-> |Hx]%elem_of_cons; [done|auto].
Qed.

Lemma lseg_end h p l z e : lseg h p (l ++ [z]) e <-> lseg h p l z /\ par h z = Some p /\ sib h z = Some e.
Proof. rewrite lseg_app. simpl. tauto. Qed.

Lemma observed_Some {A B} (f : A -> B) (m : option A) v : f <$> m = Some v -> is_Some m.
Proof. destruct m; [by eexists|done]. Qed.

Section Forest.
Context (h : heap) (kids : children_map) (F : forest h kids).

Lemma forest_key p cs : kids !! p = Some cs -> is_Some (h !! p) /\ p <> 0.
Proof.
  intros Hp. assert (is_Some (h !! p)) as Hs by (apply elem_of_dom; rewrite (f_dom _ _ F); by eapply elem_of_dom_2).
  split; [done|]. intros ->. rewrite (f_null _ _ F) in Hs. by destruct Hs.
Qed.

Lemma forest_node x : is_Some (h !! x) -> exists cs, kids !! x = Some cs.
Proof. intros Hx%elem_of_dom. rewrite (f_dom _ _ F) in Hx. by apply elem_of_dom in Hx. Qed.

Lemma forest_child p cs x : kids !! p = Some cs -> x ∈ cs -> par h x = Some p /\ is_Some (h !! x) /\ x <> 0.
Proof.
  intros Hp Hx. pose proof (lseg_par _ _ _ _ _ (f_links _ _ F p cs Hp) Hx) as E. split; [done|].
  pose proof (observed_Some _ _ _ E) as Hs. split; [done|]. intros ->. rewrite (f_null _ _ F) in Hs. by destruct Hs.
Qed.

Lemma forest_length p cs : kids !! p = Some cs -> (length cs <= size h)%nat.
Proof.
  intros Hp. rewrite <- (size_list_to_set (C := gset Z) cs) by (by eapply f_nodup). rewrite <- (size_dom h).
  apply subseteq_size. intros x Hx%elem_of_list_to_set. apply elem_of_dom. by eapply forest_child.
Qed.

(** A new list of children for one node. *)
Lemma forest_update h' p cs cs' :
  kids !! p = Some cs -> same_objects h h' -> NoDup cs' ->
  chi h' p = Some (hd 0 cs') -> rig h' p = Some (List.last cs' 0) -> lseg h' p cs' 0 ->
  (forall x, x <> p -> chi h' x = chi h x /\ rig h' x = rig h x) ->
  (forall x, x ∉ cs -> x ∉ cs' -> par h' x = par h x /\ sib h' x = sib h x) ->
  (forall x, x ∈ cs -> x ∉ cs' -> par h' x = Some 0 /\ sib h' x = Some 0) ->
  (forall x, x ∈ cs' -> x ∈ cs \/ par h x = Some 0) ->
  forest h' (<[p := cs']> kids).
Proof.
  intros Hp [Hd Hpay] Hnd Hchi Hrig Hseg Hoth Hout Hrem Hin. destruct (forest_key p cs Hp) as [Hps Hp0]. split.
  - apply not_elem_of_dom. rewrite Hd. apply not_elem_of_dom, F.
  - rewrite Hd, (f_dom _ _ F). symmetry. apply dom_insert_lookup_L. by eexists.
  - intros q qs. destruct (decide (q = p)) as [->|Hq]; rewrite ?lookup_insert_eq, ?lookup_insert_ne by done; [by intros [= <-]|apply F].
  - intros q qs. destruct (decide (q = p)) as [->|Hq]; rewrite ?lookup_insert_eq, ?lookup_insert_ne by done; [by intros [= <-]|].
    destruct (Hoth q Hq) as [-> _]. apply F.
  - intros q qs. destruct (decide (q = p)) as [->|Hq]; rewrite ?lookup_insert_eq, ?lookup_insert_ne by done; [by intros [= <-]|].
    destruct (Hoth q Hq) as [_ ->]. apply F.
  - intros q qs. destruct (decide (q = p)) as [->|Hq]; rewrite ?lookup_insert_eq, ?lookup_insert_ne by done; [by intros [= <-]|].
    intros Hqs. apply (lseg_frame h); [|by apply F]. intros x Hx. destruct (forest_child q qs x Hqs Hx) as (E & _ & _).
    destruct (forest_key q qs Hqs) as [_ Hq0].
    assert (x ∉ cs) as Hxc by (intros Hc; destruct (forest_child p cs x Hp Hc) as (E' & _); congruence).
    apply Hout; [done|]. intros Hc. destruct (Hin x Hc) as [|E']; [done|congruence].
  - intros x. destruct (decide (x ∈ cs')) as [Hx|Hx].
    { rewrite (lseg_par _ _ _ _ _ Hseg Hx). congruence. }
    destruct (decide (x ∈ cs)) as [Hc|Hc]; [intros _; by apply Hrem|]. destruct (Hout x Hc Hx) as [-> ->]. apply F.
  - intros x q. destruct (decide (x ∈ cs')) as [Hx|Hx].
    { rewrite (lseg_par _ _ _ _ _ Hseg Hx). intros [= <-] _. exists cs'. by rewrite lookup_insert_eq. }
    destruct (decide (x ∈ cs)) as [Hc|Hc]; [destruct (Hrem x Hc Hx) as [-> _]; congruence|].
    destruct (Hout x Hc Hx) as [-> _]. intros E Hq. destruct (f_parent _ _ F x q E Hq) as (qs & Hqs & Hxq).
    exists qs. rewrite lookup_insert_ne; [done|]. intros <-. congruence.
Qed.
End Forest.

(** A node without a parent is nobody's child. *)
Lemma root_not_child h kids p cs c : forest h kids -> kids !! p = Some cs -> par h c = Some 0 -> c ∉ cs.
Proof.
  intros F Hp Hc Hin. destruct (forest_child h kids F p cs c Hp Hin) as (E & _).
  destruct (forest_key h kids F p cs Hp) as [_ Hp0]. congruence.
Qed.

(** ** Paths to the root *)

Inductive path (h : heap) : Z -> list Z -> Z -> Prop :=
| path_root x : par h x = Some 0 -> path h x [x] x
| path_up x q l r : par h x = Some q -> q <> 0 -> path h q l r -> path h x (x :: l) r.

Definition acyclic (h : heap) : Prop := forall x, is_Some (h !! x) -> exists l r, path h x l r.

Lemma path_det h x l r : path h x l r -> forall l' r', path h x l' r' -> l = l' /\ r = r'.
Proof.
  induction 1 as [x E|x q l r E Hq _ IH]; intros l' r' H'; inversion H' as [y E'|y q' m r'' E' Hq' Hp]; subst; try congruence; try done.
  assert (q' = q) as -> by congruence. destruct (IH _ _ Hp) as [-> ->]. done.
Qed.

Lemma path_elem h x l r : path h x l r -> forall y, y ∈ l -> exists m, path h y m r /\ (length m <= length l)%nat.
Proof.
  induction 1 as [x E|x q l r E Hq Hp IH]; intros y Hy.
  - apply list_elem_of_singleton in Hy as ->. exists [x]. split; [by constructor|done].
  - apply elem_of_cons in Hy as [-> |Hy]; [exists (x :: l); split; [by econstructor|done]|].
    destruct (IH y Hy) as (m & Hm & Hl). exists m. split; [done|simpl; lia].
Qed.

Lemma path_nodup h x l r : path h x l r -> NoDup l.
Proof.
  induction 1 as [x E|x q l r E Hq Hp IH]; [apply NoDup_singleton|]. apply NoDup_cons. split; [|done].
  intros Hx. destruct (path_elem _ _ _ _ Hp x Hx) as (m & Hm & Hl).
  destruct (path_det _ _ _ _ (path_up h x q l r E Hq Hp) _ _ Hm) as [<- _]. simpl in Hl. lia.
Qed.

Lemma path_length h x l r : path h x l r -> (length l <= size h)%nat.
Proof.
  intros Hp. rewrite <- (size_list_to_set (C := gset Z) l) by (by eapply path_nodup). rewrite <- (size_dom h).
  apply subseteq_size. intros y Hy%elem_of_list_to_set. apply elem_of_dom.
  destruct (path_elem _ _ _ _ Hp y Hy) as (m & Hm & _). destruct Hm as [? E|? ? ? ? E]; by eapply observed_Some.
Qed.

Lemma path_is_root h x l r : path h x l r -> par h r = Some 0.
Proof. induction 1; done. Qed.

(** Links cut: some parents become null. *)
Lemma acyclic_cut h h' : dom h' = dom h -> (forall x, par h' x = par h x \/ par h' x = Some 0) -> acyclic h -> acyclic h'.
Proof.
  intros Hd Hc Ha x Hx. rewrite <- elem_of_dom, Hd, elem_of_dom in Hx. destruct (Ha x Hx) as (l & r & Hp).
  induction Hp as [x E|x q l r E Hq Hp IH].
  - exists [x], x. constructor. destruct (Hc x) as [->|]; done.
  - destruct (Hc x) as [E'|E']; [|exists [x], x; by constructor].
    destruct IH as (l' & r' & H').
    { destruct Hp as [? E0|? ? ? ? E0]; by eapply observed_Some. }
    exists (x :: l'), r'. eapply path_up; [by rewrite E'|done|done].
Qed.

(** A root [c] linked below [p], which is not below [c]. *)
Lemma acyclic_link h h' c p lp rp :
  dom h' = dom h -> par h c = Some 0 -> p <> 0 -> path h p lp rp -> rp <> c ->
  (forall x, par h' x = upd (par h) c p x) -> acyclic h -> acyclic h'.
Proof.
  intros Hd Hc Hp0 Hp Hrc Hu Ha.
  assert (forall x l r, path h x l r -> r <> c -> path h' x l r) as Hkeep.
  { induction 1 as [x E|x q l r E Hq Hpq IH]; intros Hr; (assert (x <> c) by congruence);
      (assert (par h' x = par h x) by (by rewrite Hu, upd_ne)).
    - constructor. congruence.
    - eapply (path_up _ x q); [congruence|done|auto]. }
  assert (forall x l, path h x l c -> exists l', path h' x l' rp) as Hmove.
  { intros x l H. remember c as r eqn:Er. induction H as [x E|x q l r E Hq Hpq IH]; subst.
    - exists (c :: lp). eapply path_up; [by rewrite Hu, upd_eq|done|by apply Hkeep].
    - destruct (IH eq_refl) as (l' & Hl'); [done..|]. exists (x :: l').
      eapply path_up; [rewrite Hu, upd_ne; [done|congruence]|done|done]. }
  intros x Hx. rewrite <- elem_of_dom, Hd, elem_of_dom in Hx. destruct (Ha x Hx) as (l & r & Hl).
  destruct (decide (r = c)) as [->|Hr]; [|by exists l, r; apply Hkeep].
  destruct (Hmove x l Hl) as (l' & Hl'). by exists l', rp.
Qed.

(** [a] is [b] or above it. *)
Definition child_of (kids : children_map) (a b : Z) : Prop := exists cs, kids !! a = Some cs /\ b ∈ cs.

Lemma path_above h kids x l r : forest h kids -> path h x l r -> rtc (child_of kids) r x.
Proof.
  intros F. induction 1 as [x E|x q l r E Hq Hp IH]; [apply rtc_refl|].
  eapply rtc_r; [exact IH|]. destruct (f_parent _ _ F x q E Hq) as (cs & Hcs & Hx). by exists cs.
Qed.

(** ** Linking operations *)

Section Ops.
Context (CFRetain CFRelease CFCopyDescription : Z).

Lemma hd_null h kids p cs : forest h kids -> kids !! p = Some cs -> (hd 0 cs =? 0) = true <-> cs = [].
Proof.
  intros F Hp. destruct cs as [|c cs]; simpl; [done|].
  destruct (forest_child h kids F p (c :: cs) c Hp) as (_ & _ & H0); [apply elem_of_cons; by left|].
  rewrite Z.eqb_eq. done.
Qed.

Lemma last_app_one {A} (l : list A) z d : List.last (l ++ [z]) d = z.
Proof. induction l as [|x [|y l] IH]; done. Qed.

Lemma last_cons_ne {A} (l : list A) c d : l <> [] -> List.last (c :: l) d = List.last l d.
Proof. by destruct l. Qed.

Lemma last_default {A} (l : list A) d d' : l <> [] -> List.last l d = List.last l d'.
Proof. induction l as [|x [|y l] IH]; intros; [done|done|]. simpl in *. by apply IH. Qed.

Lemma last_app_cons {A} (l1 l2 : list A) c d : List.last (l1 ++ c :: l2) d = List.last l2 c.
Proof.
  induction l1 as [|x l1 IH]; simpl; [destruct l2 as [|y l2]; [done|by apply last_default]|]. rewrite <- IH. by destruct l1.
Qed.

(** What linking a root [c] below [p] does. *)
Definition linked (h h' : heap) (kids : children_map) (p c : Z) (cs' : list Z) : Prop :=
  forest h' (<[p := cs']> kids) /\ same_objects h h' /\ (forall x, par h' x = upd (par h) c p x).

Ltac set_field lem h p v h' :=
  let E := fresh "E" in let O := fresh "O" in let P := fresh "P" in let S := fresh "S" in let C := fresh "C" in let R := fresh "R" in
  destruct (lem h p v) as (h' & E & O & P & S & C & R);
    [solve [eauto using same_objects_Some]|]; rewrite E; cbn [opt_bind io_lift io_bind].

Ltac read_field lem E :=
  let n := fresh "n" in let E1 := fresh "E" in let E2 := fresh "E" in
  destruct (lem _ _ _ E) as (n & E1 & E2); rewrite E1; cbn [opt_bind io_lift io_bind]; rewrite E2; clear n E1 E2.

Lemma prepend_spec h kids p cs c :
  forest h kids -> kids !! p = Some cs -> par h c = Some 0 -> c <> p ->
  exists h', CFTreePrependChild CFRetain h p c = Some (h', [EvRetain CFRetain c]) /\ linked h h' kids p c (c :: cs).
Proof.
  intros F Hp Hc Hne. destruct (forest_key _ _ F p cs Hp) as [Hps Hp0].
  pose proof (observed_Some _ _ _ Hc) as Hcs. pose proof (root_not_child _ _ p cs c F Hp Hc) as Hnc.
  unfold CFTreePrependChild. cbn [io_bind emit].
  set_field set_parent_spec h c p h1. assert (chi h1 p = Some (hd 0 cs)) as E1 by (rewrite C; by apply F).
  read_field chi_node E1.
  set_field set_sibling_spec h1 c (hd 0 cs) h2. assert (chi h2 p = Some (hd 0 cs)) as E2 by (by rewrite C0).
  read_field chi_node E2.
  assert (exists h3, (if hd 0 cs =? 0 then set_rightmost h2 p c else Some h2) = Some h3 /\ same_objects h2 h3 /\
    (forall x, par h3 x = par h2 x) /\ (forall x, sib h3 x = sib h2 x) /\ (forall x, chi h3 x = chi h2 x) /\
    (forall x, rig h3 x = upd (rig h) p (List.last (c :: cs) 0) x)) as (h3 & -> & O3 & P3 & S3 & C3 & R3).
  { pose proof (hd_null _ _ p cs F Hp) as Hn. destruct (hd 0 cs =? 0).
    - rewrite (proj1 Hn eq_refl). set_field set_rightmost_spec h2 p c h3. exists h3. split_and!; [done..|].
      intros x. rewrite R1. unfold upd. by rewrite R0, R.
    - exists h2. split_and!; [done..|]. intros x. rewrite R0, R. rewrite last_cons_ne by (by intros ->; destruct Hn as [_ Hn]; specialize (Hn eq_refl)).
      unfold upd. case_decide; [subst; by apply F|done]. }
  cbn [opt_bind]. set_field set_child_spec h3 p c h4.
  eexists. split; [done|]. split; [|split; [do 3 (etransitivity; [eassumption|]); done|]].
  2:{ intros x. by rewrite P1, P3, P0, P. }
  assert (forall x, par h4 x = upd (par h) c p x) as Hpar by (intros x; by rewrite P1, P3, P0, P).
  assert (forall x, sib h4 x = upd (sib h) c (hd 0 cs) x) as Hsib by (intros x; rewrite S1, S3, S0; unfold upd; by rewrite S).
  eapply (forest_update h kids F h4 p cs); try done.
  - do 3 (etransitivity; [eassumption|]). done.
  - apply NoDup_cons. split; [done|by eapply f_nodup].
  - by rewrite C1, upd_eq.
  - by rewrite R1, R3, upd_eq.
  - simpl. split_and!; [by rewrite Hpar, upd_eq|by rewrite Hsib, upd_eq|].
    apply (lseg_frame h); [|by apply F]. intros x Hx. rewrite Hpar, Hsib, !upd_ne by (intros ->; done). done.
  - intros x Hx. by rewrite C1, R1, R3, !upd_ne, C3, C0, C by done.
  - intros x _ Hx. rewrite not_elem_of_cons in Hx. rewrite Hpar, Hsib, !upd_ne by naive_solver. done.
  - intros x Hx Hx'. exfalso. apply Hx', elem_of_cons. by right.
  - intros x [-> |Hx]%elem_of_cons; [by right|by left].
Qed.
Lemma append_spec h kids p cs c :
  forest h kids -> kids !! p = Some cs -> par h c = Some 0 -> c <> p ->
  exists h', CFTreeAppendChild CFRetain h p c = Some (h', [EvRetain CFRetain c]) /\ linked h h' kids p c (cs ++ [c]).
Proof.
  intros F Hp Hc Hne. destruct (forest_key _ _ F p cs Hp) as [Hps Hp0].
  pose proof (observed_Some _ _ _ Hc) as Hcs. pose proof (root_not_child _ _ p cs c F Hp Hc) as Hnc.
  unfold CFTreeAppendChild. destruct (par_node _ _ _ Hc) as (n & En & Epar). rewrite En. cbn [io_lift io_bind]. rewrite Epar.
  cbn [Z.eqb negb io_bind emit].
  set_field set_parent_spec h c p h1. set_field set_sibling_spec h1 c 0 h2.
  assert (chi h2 p = Some (hd 0 cs)) as E2 by (rewrite C0, C; by apply F).
  assert (rig h2 p = Some (List.last cs 0)) as E3 by (rewrite R0, R; by apply F).
  destruct (chi_node _ _ _ E2) as (n2 & E4 & E5). rewrite E4. cbn [opt_bind]. rewrite E5.
  assert (_rightmostChild n2 = List.last cs 0) as -> by (unfold rig in E3; rewrite E4 in E3; by injection E3).
  assert (exists h3, (if hd 0 cs =? 0 then set_child h2 p c else set_sibling h2 (List.last cs 0) c) = Some h3 /\ same_objects h2 h3 /\
    (forall x, par h3 x = par h2 x) /\ lseg h3 p (cs ++ [c]) 0 /\
    (forall x, x ∉ cs ++ [c] -> sib h3 x = sib h x) /\
    (forall x, chi h3 x = upd (chi h) p (hd 0 (cs ++ [c])) x) /\
    (forall x, rig h3 x = rig h x)) as (h3 & -> & O3 & P3 & S3 & S3' & C3 & R3).
  { pose proof (hd_null _ _ p cs F Hp) as Hn. pose proof (f_links _ _ F p cs Hp) as Hseg.
    pose proof (f_nodup _ _ F p cs Hp) as Hnd.
    destruct (decide (cs = [])) as [->|Hcs0]; [|destruct (exists_last Hcs0) as (l & z & ->)].
    - simpl. set_field set_child_spec h2 p c h3. exists h3. split_and!; try done.
      + rewrite P1, P0, P. apply upd_eq.
      + rewrite S1, S0. apply upd_eq.
      + intros x Hx%not_elem_of_cons. rewrite S1, S0, upd_ne by naive_solver. apply S.
      + intros x. rewrite C1. unfold upd. by rewrite C0, C.
      + intros x. by rewrite R1, R0, R.
    - destruct (hd 0 (l ++ [z]) =? 0); [by destruct l; specialize (proj1 Hn eq_refl)|]. rewrite last_app_one.
      apply lseg_end in Hseg as (Hl & Hz1 & Hz2). apply NoDup_app in Hnd as (_ & Hlz & _).
      apply not_elem_of_app in Hnc as [Hcl Hcz%not_elem_of_cons].
      assert (is_Some (h2 !! z)) as Hzs by (pose proof (observed_Some _ _ _ Hz1); eauto using same_objects_Some).
      set_field set_sibling_spec h2 z c h3. exists h3. split_and!; try done.
      + rewrite <- (assoc_L (++)). apply lseg_app. split.
        * apply (lseg_frame h); [|done]. intros x Hx. assert (x <> c) by (intros ->; done).
          assert (x <> z) by (intros ->; apply (Hlz z Hx), elem_of_cons; by left).
          rewrite P1, P0, P, S1, upd_ne, upd_ne, S0, upd_ne by done. by rewrite S.
        * simpl. rewrite !P1, !P0, !P, !S1. rewrite (upd_eq (par h)), (upd_eq (sib h2)), (upd_ne (par h)), (upd_ne (sib h2)), S0, upd_eq by naive_solver.
          done.
      + intros x Hx. rewrite !not_elem_of_app, !not_elem_of_cons in Hx. rewrite S1, upd_ne, S0, upd_ne by naive_solver. apply S.
      + intros x. rewrite C1, C0, C. unfold upd. case_decide; [subst|done]. rewrite (f_first _ _ F p _ Hp). by destruct l.
      + intros x. by rewrite R1, R0, R. }
  cbn [opt_bind]. set_field set_rightmost_spec h3 p c h4.
  eexists. split; [done|]. split; [|split; [do 3 (etransitivity; [eassumption|]); done|intros x; by rewrite P1, P3, P0, P]].
  assert (forall x, par h4 x = upd (par h) c p x) as Hpar by (intros x; by rewrite P1, P3, P0, P).
  eapply (forest_update h kids F h4 p cs); try done.
  - do 3 (etransitivity; [eassumption|]). done.
  - apply NoDup_app. split_and!; [by eapply f_nodup| |apply NoDup_singleton]. intros x Hx ->%list_elem_of_singleton. done.
  - by rewrite C1, C3, upd_eq.
  - by rewrite R1, upd_eq, last_app_one.
  - apply (lseg_frame h3); [|done]. intros x Hx. by rewrite P1, S1.
  - intros x Hx. by rewrite C1, R1, C3, !upd_ne, R3 by done.
  - intros x _ Hx. rewrite Hpar, S1, S3' by done. rewrite upd_ne; [done|]. intros ->. apply Hx, elem_of_app. right. by apply list_elem_of_singleton.
  - intros x Hx Hx'. exfalso. apply Hx', elem_of_app. by left.
  - intros x [Hx| ->%list_elem_of_singleton]%elem_of_app; [by left|by right].
Qed.

Lemma insert_sibling_spec h kids p l1 t l2 c :
  forest h kids -> kids !! p = Some (l1 ++ t :: l2) -> par h c = Some 0 -> c <> p ->
  exists h', CFTreeInsertSibling CFRetain h t c = Some (h', [EvRetain CFRetain c]) /\
    linked h h' kids p c (l1 ++ t :: c :: l2).
Proof.
  intros F Hp Hc Hne. destruct (forest_key _ _ F p _ Hp) as [Hps Hp0].
  pose proof (observed_Some _ _ _ Hc) as Hcs. pose proof (root_not_child _ _ p _ c F Hp Hc) as Hnc.
  pose proof (f_links _ _ F p _ Hp) as Hseg. pose proof (f_nodup _ _ F p _ Hp) as Hnd.
  apply lseg_app in Hseg as (Hl1 & Ht1 & Ht2 & Hl2). simpl in Hl1.
  apply not_elem_of_app in Hnc as [Hc1 [Hct Hc2]%not_elem_of_cons].
  apply NoDup_app in Hnd as (Hn1 & Hx1 & [Hn2 Hn3]%NoDup_cons).
  assert (t ∉ l1) as Ht by (intros H; apply (Hx1 t H), elem_of_cons; by left).
  pose proof (observed_Some _ _ _ Ht1) as Hts.
  unfold CFTreeInsertSibling. cbn [io_bind emit]. read_field par_node Ht1.
  set_field set_parent_spec h c p h1. assert (sib h1 t = Some (hd 0 l2)) as E1 by (by rewrite S). read_field sib_node E1.
  set_field set_sibling_spec h1 c (hd 0 l2) h2. set_field set_sibling_spec h2 t c h3.
  assert (par h3 t = Some p) as E4 by (rewrite P1, P0, P, upd_ne; done). read_field par_node E4.
  destruct (Z.eqb_spec p 0); [done|]. cbn [negb].
  assert (rig h3 p = Some (List.last l2 t)) as E5.
  { rewrite R1, R0, R, (f_last _ _ F p _ Hp). by rewrite last_app_cons. }
  read_field rig_node E5.
  assert (exists h4, (if List.last l2 t =? t then set_rightmost h3 p c else Some h3) = Some h4 /\ same_objects h3 h4 /\
    (forall x, par h4 x = par h3 x) /\ (forall x, sib h4 x = sib h3 x) /\ (forall x, chi h4 x = chi h3 x) /\
    (forall x, rig h4 x = upd (rig h) p (List.last l2 c) x)) as (h4 & -> & O4 & P4 & S4 & C4 & R4).
  { destruct (decide (l2 = [])) as [->|Hl]; simpl.
    - rewrite Z.eqb_refl. set_field set_rightmost_spec h3 p c h4. exists h4. split_and!; try done.
      intros x. rewrite R2. unfold upd. by rewrite R1, R0, R.
    - destruct (exists_last Hl) as (m & z & ->). rewrite !last_app_one.
      destruct (Z.eqb_spec z t) as [->|Hz]; [exfalso; apply Hn2, elem_of_app; right; by apply list_elem_of_singleton|].
      exists h3. split_and!; try done. intros x. rewrite R1, R0, R. unfold upd. case_decide; [subst|done].
      rewrite (f_last _ _ F p _ Hp), last_app_cons. by rewrite last_app_one. }
  cbn [io_lift]. eexists. split; [done|].
  assert (forall x, par h4 x = upd (par h) c p x) as Hpar by (intros x; by rewrite P4, P1, P0, P).
  assert (forall x, sib h4 x = upd (upd (sib h) c (hd 0 l2)) t c x) as Hsib.
  { intros x. rewrite S4, S1. unfold upd at 1 2. case_decide; [done|]. rewrite S0. unfold upd. by rewrite S. }
  assert (same_objects h h4) as HO by (do 3 (etransitivity; [eassumption|]); done).
  split; [|done].
  eapply (forest_update h kids F h4 p (l1 ++ t :: l2)); try done.
  - apply NoDup_app. split_and!; [done| |].
    + intros x Hx. rewrite !not_elem_of_cons. specialize (Hx1 x Hx). rewrite not_elem_of_cons in Hx1.
      split_and!; [naive_solver|intros ->; done|naive_solver].
    + apply NoDup_cons. rewrite not_elem_of_cons. split; [naive_solver|]. apply NoDup_cons. done.
  - rewrite C4, C1, C0, C, (f_first _ _ F p _ Hp). by destruct l1.
  - by rewrite R4, upd_eq, last_app_cons, <- (last_app_cons [] l2 c t).
  - apply lseg_app. split; [|simpl; split_and!].
    + apply (lseg_frame h); [|done]. intros x Hx. assert (x <> c) by (intros ->; done). assert (x <> t) by (intros ->; done).
      by rewrite Hpar, Hsib, !upd_ne by done.
    + by rewrite Hpar, upd_ne.
    + by rewrite Hsib, upd_eq.
    + by rewrite Hpar, upd_eq.
    + by rewrite Hsib, upd_ne, upd_eq by done.
    + apply (lseg_frame h); [|done]. intros x Hx. assert (x <> c) by (intros ->; done). assert (x <> t) by (intros ->; done).
      by rewrite Hpar, Hsib, !upd_ne by done.
  - intros x Hx. rewrite C4, C1, C0, C, R4. by rewrite upd_ne.
  - intros x _ Hx. rewrite !not_elem_of_app, !not_elem_of_cons in Hx. rewrite Hpar, Hsib, !upd_ne by naive_solver. done.
  - intros x Hx Hx'. exfalso. apply Hx'. revert Hx. rewrite !elem_of_app, !elem_of_cons. naive_solver.
  - intros x. rewrite !elem_of_app, !elem_of_cons. intros [?|[->|[->|?]]]; naive_solver.
Qed.

(** ** Unlinking *)

(** The children [cs] of [p] lose those that are not in [cs']. *)
Definition unlinked (h h' : heap) (kids : children_map) (p : Z) (cs cs' : list Z) : Prop :=
  forest h' (<[p := cs']> kids) /\ same_objects h h' /\
  (forall x, par h' x = par h x \/ par h' x = Some 0).

Lemma unlink_walk h p t q (m : list Z) : forall n,
  (length m < n)%nat -> lseg h p (m ++ [q]) t -> t ∉ m ++ [q] -> 0 ∉ m ++ [q] ->
  unlink n h t (hd q m) =
    let* t' := h !! t in
    let* h := set_sibling h q (_sibling t') in
    let* t' := h !! t in
    let* p' := h !! _parent t' in
    if _rightmostChild p' =? t then set_rightmost h (_parent t') q else Some h.
Proof.
  induction m as [|c m IH]; intros n Hn Hseg Ht H0; (destruct n as [|n]; [simpl in Hn; lia|]); cbn [hd unlink app] in *.
  - destruct Hseg as (_ & E & _). destruct (sib_node _ _ _ E) as (nq & -> & Eq). cbn [opt_bind]. rewrite Eq. simpl.
    rewrite Z.eqb_refl. apply not_elem_of_cons in H0 as [H0 _]. destruct (Z.eqb_spec q 0); [lia|]. done.
  - destruct Hseg as (_ & E & Hseg). apply not_elem_of_cons in H0 as [Hc0 H0]. apply not_elem_of_cons in Ht as [Htc Ht].
    destruct (Z.eqb_spec c 0); [lia|]. destruct (sib_node _ _ _ E) as (nc & -> & Ec). cbn [opt_bind]. rewrite Ec.
    assert (hd t (m ++ [q]) = hd q m) as -> by (by destruct m).
    destruct (Z.eqb_spec (hd q m) t) as [Hh|Hh].
    { exfalso. apply Ht. rewrite <- Hh. destruct m; simpl; apply elem_of_cons; by left. }
    apply IH; [simpl in Hn; lia|done..].
Qed.

(** Taking [t] out of the links of its parent, before its own are cleared. *)
Lemma remove_links_spec h kids p l1 t l2 :
  forest h kids -> kids !! p = Some (l1 ++ t :: l2) ->
  exists h', (if t =? hd 0 (l1 ++ t :: l2)
     then let* h := set_child h p (hd 0 l2) in if hd 0 l2 =? 0 then set_rightmost h p 0 else Some h
     else unlink (fuel h) h t (hd 0 (l1 ++ t :: l2))) = Some h' /\
    same_objects h h' /\ (forall x, par h' x = par h x) /\ lseg h' p (l1 ++ l2) 0 /\
    (forall x, x ∉ l1 ++ l2 -> sib h' x = sib h x) /\
    (forall x, chi h' x = upd (chi h) p (hd 0 (l1 ++ l2)) x) /\
    (forall x, rig h' x = upd (rig h) p (List.last (l1 ++ l2) 0) x).
Proof.
  intros F Hp. destruct (forest_key _ _ F p _ Hp) as [Hps Hp0].
  pose proof (f_links _ _ F p _ Hp) as Hseg. pose proof (f_nodup _ _ F p _ Hp) as Hnd.
  pose proof (f_last _ _ F p _ Hp) as Hrig. rewrite last_app_cons in Hrig. pose proof (forest_length _ _ F p _ Hp) as Hlen.
  assert (forall x, x ∈ l1 ++ t :: l2 -> is_Some (h !! x) /\ x <> 0) as Hin by (intros x Hx; by eapply forest_child).
  apply lseg_app in Hseg as (Hl1 & Ht1 & Ht2 & Hl2). simpl in Hl1.
  apply NoDup_app in Hnd as (Hn1 & Hx1 & [Hn2 Hn3]%NoDup_cons).
  assert (t ∉ l1) as Ht by (intros H; apply (Hx1 t H), elem_of_cons; by left).
  assert (hd 0 l2 = 0 <-> l2 = []) as Hl20.
  { destruct l2 as [|y l2]; simpl; [done|]. destruct (Hin y) as [_ Hy]; [apply elem_of_app; right; rewrite !elem_of_cons; by right; left|].
    split; intros; [congruence|done]. }
  destruct (decide (l1 = [])) as [->|Hl]; [|destruct (exists_last Hl) as (m & q & ->)].
  - simpl. rewrite Z.eqb_refl. set_field set_child_spec h p (hd 0 l2) h1.
    destruct (Z.eqb_spec (hd 0 l2) 0) as [E2|E2].
    + rewrite (proj1 Hl20 E2). set_field set_rightmost_spec h1 p 0 h2. exists h2. split_and!; try done.
      * etransitivity; eassumption.
      * intros x. by rewrite P0, P.
      * intros x _. by rewrite S0, S.
      * intros x. rewrite C0, C. by rewrite E2.
      * intros x. rewrite R0. unfold upd. by rewrite R.
    + exists h1. split_and!; try done.
      * apply (lseg_frame h); [|done]. intros x _. by rewrite P, S.
      * intros x. rewrite R. unfold upd. case_decide; [subst|done]. rewrite Hrig. f_equal. apply last_default. intros ->. by apply E2.
  - assert (hd 0 ((m ++ [q]) ++ t :: l2) = hd q m) as -> by (by destruct m).
    assert (q ∉ m /\ q ∉ l2 /\ q <> t) as (Hqm & Hq2 & Hqt).
    { assert (q ∈ m ++ [q]) as Hq by (apply elem_of_app; right; by apply list_elem_of_singleton).
      apply NoDup_app in Hn1 as (_ & Hmq & _). specialize (Hx1 q Hq). apply not_elem_of_cons in Hx1 as [Hqt Hq2].
      split_and!; [|done|done]. intros Hq'. by apply (Hmq q Hq'), list_elem_of_singleton. }
    destruct (Z.eqb_spec t (hd q m)) as [E0|E0].
    { exfalso. apply Ht. rewrite E0. destruct m; simpl; apply elem_of_cons; by left. }
    rewrite (unlink_walk h p t q m).
    2:{ unfold fuel. rewrite !length_app in Hlen. simpl in Hlen. lia. }
    2:{ done. } 2:{ done. }
    2:{ intros H0. destruct (Hin 0) as [_ ?]; [|done]. apply elem_of_app. by left. }
    read_field sib_node Ht2. apply lseg_end in Hl1 as (Hm & Hq1 & _).
    pose proof (observed_Some _ _ _ Hq1) as Hqs. set_field set_sibling_spec h q (hd 0 l2) h1.
    assert (par h1 t = Some p) as E1 by (by rewrite P). read_field par_node E1.
    assert (rig h1 p = Some (List.last l2 t)) as E3 by (by rewrite R). read_field rig_node E3.
    assert (exists h2, (if List.last l2 t =? t then set_rightmost h1 p q else Some h1) = Some h2 /\ same_objects h1 h2 /\
      (forall x, par h2 x = par h1 x) /\ (forall x, sib h2 x = sib h1 x) /\ (forall x, chi h2 x = chi h1 x) /\
      (forall x, rig h2 x = upd (rig h) p (List.last l2 q) x)) as (h2 & -> & O2 & P2 & S2 & C2 & R2).
    { destruct (decide (l2 = [])) as [->|Hl2e]; simpl.
      - rewrite Z.eqb_refl. set_field set_rightmost_spec h1 p q h2. exists h2. split_and!; try done.
        intros x. rewrite R0. unfold upd. by rewrite R.
      - destruct (exists_last Hl2e) as (l & z & ->). rewrite !last_app_one in *.
        destruct (Z.eqb_spec z t) as [->|Hz]; [exfalso; apply Hn2, elem_of_app; right; by apply list_elem_of_singleton|].
        exists h1. split_and!; try done. intros x. rewrite R. unfold upd. by case_decide; subst. }
    exists h2. split_and!; [done|etransitivity; eassumption|intros x; by rewrite P2, P|..].
    + rewrite <- (assoc_L (++)). apply lseg_app. split; [|simpl; split_and!].
      * apply (lseg_frame h); [|done]. intros x Hx. rewrite P2, P, S2, S, upd_ne; [done|]. intros ->. done.
      * by rewrite P2, P.
      * by rewrite S2, S, upd_eq.
      * apply (lseg_frame h); [|done]. intros x Hx. rewrite P2, P, S2, S, upd_ne; [done|]. intros ->. done.
    + intros x Hx. rewrite S2, S, upd_ne; [done|]. intros ->. apply Hx. rewrite !elem_of_app. left. right. by apply list_elem_of_singleton.
    + intros x. rewrite C2, C. unfold upd. case_decide; [subst|done]. rewrite (f_first _ _ F p _ Hp). by destruct m.
    + intros x. rewrite R2. f_equal. rewrite <- (assoc_L (++)). simpl. by rewrite last_app_cons.
Qed.

Lemma remove_spec h kids p l1 t l2 :
  forest h kids -> kids !! p = Some (l1 ++ t :: l2) ->
  exists h', CFTreeRemove CFRelease h t = Some (h', [EvRelease CFRelease t]) /\
    unlinked h h' kids p (l1 ++ t :: l2) (l1 ++ l2).
Proof.
  intros F Hp. destruct (forest_key _ _ F p _ Hp) as [Hps Hp0].
  pose proof (f_nodup _ _ F p _ Hp) as Hnd. pose proof (f_links _ _ F p _ Hp) as Hseg.
  assert (t ∉ l1 ++ l2) as Htn.
  { rewrite <- Permutation_middle in Hnd. by apply NoDup_cons in Hnd as [? _]. }
  destruct (forest_child _ _ F p _ t Hp) as (Ht1 & Hts & _); [apply elem_of_app; right; apply elem_of_cons; by left|].
  unfold CFTreeRemove. destruct (par_node _ _ _ Ht1) as (nt & Ent & Ept). rewrite Ent. cbn [io_lift io_bind]. rewrite Ept.
  destruct (Z.eqb_spec p 0); [done|]. cbn [negb].
  assert (_sibling nt = hd 0 l2) as ->.
  { apply lseg_app in Hseg as (_ & _ & E & _). unfold sib in E. rewrite Ent in E. by injection E. }
  destruct (chi_node _ _ _ (f_first _ _ F p _ Hp)) as (np & -> & Ecp). cbn [io_lift io_bind]. rewrite Ecp.
  destruct (remove_links_spec h kids p l1 t l2 F Hp) as (h1 & -> & O1 & P1 & L1 & S1 & C1 & R1). cbn [io_lift io_bind].
  set_field set_parent_spec h1 t 0 h2. set_field set_sibling_spec h2 t 0 h3.
  eexists. split; [done|].
  assert (same_objects h h3) as HO by (do 2 (etransitivity; [eassumption|]); done).
  assert (forall x, par h3 x = upd (par h) t 0 x) as Hpar by (intros x; rewrite P0, P; unfold upd; by rewrite P1).
  assert (forall x, sib h3 x = upd (sib h1) t 0 x) as Hsib by (intros x; rewrite S0; unfold upd; by rewrite S).
  split; [|split; [done|intros x; rewrite Hpar; unfold upd; case_decide; auto]].
  eapply (forest_update h kids F h3 p (l1 ++ t :: l2)); try done.
  - rewrite <- Permutation_middle in Hnd. by apply NoDup_cons in Hnd as [_ ?].
  - by rewrite C0, C, C1, upd_eq.
  - by rewrite R0, R, R1, upd_eq.
  - apply (lseg_frame h1); [|done]. intros x Hx. rewrite Hpar, Hsib, !upd_ne by (intros ->; done). by rewrite P1.
  - intros x Hx. by rewrite C0, C, C1, R0, R, R1, !upd_ne.
  - intros x Hx1 Hx2. assert (x <> t) by (intros ->; apply Hx1, elem_of_app; right; apply elem_of_cons; by left).
    by rewrite Hpar, Hsib, !upd_ne, S1.
  - intros x Hx1 Hx2. assert (x = t) as -> by (revert Hx1 Hx2; rewrite !elem_of_app, elem_of_cons; naive_solver).
    by rewrite Hpar, Hsib, !upd_eq.
  - intros x. rewrite !elem_of_app, elem_of_cons. naive_solver.
Qed.

(** A root stays a root. *)
Lemma remove_root_spec h t : par h t = Some 0 -> CFTreeRemove CFRelease h t = Some (h, []).
Proof. intros E. unfold CFTreeRemove. destruct (par_node _ _ _ E) as (n & -> & En). simpl. by rewrite En. Qed.

Lemma remove_children_spec l : forall n h p,
  (length l < n)%nat -> lseg h p l 0 -> NoDup l -> 0 ∉ l ->
  exists h', remove_children CFRelease n h (hd 0 l) = Some (h', EvRelease CFRelease <$> l) /\ same_objects h h' /\
    (forall x, x ∈ l -> par h' x = Some 0 /\ sib h' x = Some 0) /\
    (forall x, x ∉ l -> par h' x = par h x /\ sib h' x = sib h x) /\
    (forall x, chi h' x = chi h x) /\ (forall x, rig h' x = rig h x).
Proof.
  induction l as [|c l IH]; intros n h p Hn Hseg Hnd H0; (destruct n as [|n]; [simpl in Hn; lia|]).
  { exists h. split_and!; try done. by intros x ?%not_elem_of_nil. }
  apply not_elem_of_cons in H0 as [Hc0 H0]. apply NoDup_cons in Hnd as [Hcl Hnd]. destruct Hseg as (E1 & E2 & Hseg).
  cbn [hd remove_children]. destruct (Z.eqb_spec c 0); [lia|].
  destruct (sib_node _ _ _ E2) as (nc & Ec & Es). rewrite Ec. cbn [io_lift io_bind]. rewrite Es.
  assert (is_Some (h !! c)) as Hcs by eauto.
  set_field set_parent_spec h c 0 h1. set_field set_sibling_spec h1 c 0 h2.
  destruct (IH n h2 p) as (h' & -> & HO & Hin & Hout & HC & HR); [simpl in Hn; lia| |done|done|].
  { apply (lseg_frame h); [|done]. intros x Hx. assert (x <> c) by (intros ->; done). by rewrite P0, P, S0, !upd_ne, S. }
  exists h'. split; [done|]. split; [do 2 (etransitivity; [eassumption|]); done|]. split_and!.
  - intros x [-> |Hx]%elem_of_cons; [|by apply Hin]. destruct (Hout c Hcl) as [-> ->]. by rewrite P0, P, S0, !upd_eq.
  - intros x [Hxc Hx]%not_elem_of_cons. destruct (Hout x Hx) as [-> ->]. by rewrite P0, P, S0, !upd_ne, S.
  - intros x. by rewrite HC, C0, C.
  - intros x. by rewrite HR, R0, R.
Qed.

Lemma tree_remove_all_spec h kids p cs :
  forest h kids -> kids !! p = Some cs ->
  exists h', CFTreeRemoveAllChildren CFRelease h p = Some (h', EvRelease CFRelease <$> cs) /\ unlinked h h' kids p cs [].
Proof.
  intros F Hp. destruct (forest_key _ _ F p _ Hp) as [Hps Hp0].
  unfold CFTreeRemoveAllChildren. destruct (chi_node _ _ _ (f_first _ _ F p _ Hp)) as (np & Enp & Ecp). rewrite Enp. cbn [io_lift io_bind].
  rewrite Ecp. set_field set_child_spec h p 0 h1. set_field set_rightmost_spec h1 p 0 h2.
  assert (same_objects h h2) as HO2 by (etransitivity; eassumption). rewrite (same_objects_fuel h h2 HO2).
  destruct (remove_children_spec cs (fuel h) h2 p) as (h' & E' & HO & Hin & Hout & HC & HR).
  - unfold fuel. pose proof (forest_length _ _ F p _ Hp). lia.
  - apply (lseg_frame h); [|by apply F]. intros x _. by rewrite P0, P, S0, S.
  - by eapply f_nodup.
  - intros H0. by destruct (forest_child _ _ F p cs 0 Hp H0) as (_ & _ & ?).
  - rewrite E'. eexists. split; [done|]. assert (same_objects h h') as HO' by (etransitivity; eassumption).
    split; [|split; [done|]].
    2:{ intros x. destruct (decide (x ∈ cs)) as [Hx|Hx]; [right; by apply Hin|]. left. destruct (Hout x Hx) as [-> _]. by rewrite P0, P. }
    eapply (forest_update h kids F h' p cs); try done.
    + apply NoDup_nil_2.
    + by rewrite HC, C0, C, upd_eq.
    + by rewrite HR, R0, upd_eq.
    + intros x Hx. by rewrite HC, C0, C, HR, R0, !upd_ne, R by done.
    + intros x Hx _. destruct (Hout x Hx) as [-> ->]. by rewrite P0, P, S0, S.
    + intros x Hx _. by apply Hin.
    + by intros x ?%not_elem_of_nil.
Qed.
End Ops.

(** ** Editing a forest, abstractly *)

Inductive tree_call : Type :=
| PrependCall (tree newChild : Z)
| AppendCall (tree newChild : Z)
| InsertCall (tree newSibling : Z)
| RemoveCall (tree : Z)
| RemoveAllCall (tree : Z).

(** A node of the forest that is nobody's child. *)
Definition is_root (kids : children_map) (c : Z) : Prop :=
  is_Some (kids !! c) /\ forall q cs, kids !! q = Some cs -> c ∉ cs.

Section Calls.
Context (CFRetain CFRelease CFCopyDescription : Z).

Definition do_call (h : heap) (c : tree_call) : io heap :=
  match c with
  | PrependCall p c => CFTreePrependChild CFRetain h p c
  | AppendCall p c => CFTreeAppendChild CFRetain h p c
  | InsertCall t c => CFTreeInsertSibling CFRetain h t c
  | RemoveCall t => CFTreeRemove CFRelease h t
  | RemoveAllCall p => CFTreeRemoveAllChildren CFRelease h p
  end.

(** What each call does to the lists of children.  A node is added when it has
    no parent and the place is not below it. *)
Inductive tree_step (kids : children_map) : tree_call -> children_map -> list event -> Prop :=
| step_prepend p c cs : kids !! p = Some cs -> is_root kids c -> ~ rtc (child_of kids) c p ->
    tree_step kids (PrependCall p c) (<[p := c :: cs]> kids) [EvRetain CFRetain c]
| step_append p c cs : kids !! p = Some cs -> is_root kids c -> ~ rtc (child_of kids) c p ->
    tree_step kids (AppendCall p c) (<[p := cs ++ [c]]> kids) [EvRetain CFRetain c]
| step_insert p l1 t l2 c : kids !! p = Some (l1 ++ t :: l2) -> is_root kids c -> ~ rtc (child_of kids) c p ->
    tree_step kids (InsertCall t c) (<[p := l1 ++ t :: c :: l2]> kids) [EvRetain CFRetain c]
| step_remove p l1 t l2 : kids !! p = Some (l1 ++ t :: l2) ->
    tree_step kids (RemoveCall t) (<[p := l1 ++ l2]> kids) [EvRelease CFRelease t]
| step_remove_root t : is_root kids t -> tree_step kids (RemoveCall t) kids []
| step_remove_all p cs : kids !! p = Some cs ->
    tree_step kids (RemoveAllCall p) (<[p := []]> kids) (EvRelease CFRelease <$> cs).

Inductive tree_steps (kids : children_map) : list tree_call -> children_map -> list event -> Prop :=
| steps_nil : tree_steps kids [] kids []
| steps_cons c kids1 t1 cs kids2 t2 : tree_step kids c kids1 t1 -> tree_steps kids1 cs kids2 t2 ->
    tree_steps kids (c :: cs) kids2 (t1 ++ t2).

Fixpoint do_calls (h : heap) (cs : list tree_call) : io heap :=
  match cs with
  | [] => io_ret h
  | c :: cs => do* h := do_call h c in do_calls h cs
  end.

Lemma root_par h kids c : forest h kids -> is_root kids c -> par h c = Some 0.
Proof.
  intros F [Hs Hn]. apply elem_of_dom in Hs. rewrite <- (f_dom _ _ F) in Hs. apply elem_of_dom in Hs as [n En].
  destruct (node_links _ _ _ En) as (E & _). rewrite E. destruct (decide (_parent n = 0)) as [->|H0]; [done|].
  destruct (f_parent _ _ F c _ E H0) as (cs & Hcs & Hc). by destruct (Hn _ _ Hcs).
Qed.

Lemma par_root h kids r : forest h kids -> par h r = Some 0 -> is_root kids r.
Proof.
  intros F E. split.
  - apply elem_of_dom. rewrite <- (f_dom _ _ F). apply elem_of_dom. by eapply observed_Some.
  - intros q cs Hq. by eapply root_not_child.
Qed.

Lemma linked_acyclic h h' kids p c cs cs' :
  forest h kids -> acyclic h -> kids !! p = Some cs -> par h c = Some 0 -> ~ rtc (child_of kids) c p ->
  linked h h' kids p c cs' -> acyclic h'.
Proof.
  intros F Ha Hp Hc Hn (_ & [Hd _] & Hpar). destruct (forest_key _ _ F p cs Hp) as [Hps Hp0].
  destruct (Ha p Hps) as (l & r & Hl). eapply (acyclic_link h h' c p l r); try done.
  intros ->. apply Hn. by eapply path_above.
Qed.

Lemma tree_call_refines h kids c kids' t :
  forest h kids -> acyclic h -> tree_step kids c kids' t ->
  exists h', do_call h c = Some (h', t) /\ forest h' kids' /\ acyclic h' /\ same_objects h h'.
Proof.
  intros F Ha Hstep.
  assert (forall c p, ~ rtc (child_of kids) c p -> c <> p) as Hne by (intros ? ? H ->; apply H, rtc_refl).
  destruct Hstep as [p c cs Hp Hr Hn|p c cs Hp Hr Hn|p l1 t l2 c Hp Hr Hn|p l1 t l2 Hp|t Hr|p cs Hp]; simpl.
  - pose proof (root_par h kids c F Hr) as Hc. destruct (prepend_spec CFRetain h kids p cs c F Hp Hc (Hne _ _ Hn)) as (h' & E & L).
    exists h'. pose proof (linked_acyclic h h' kids p c cs _ F Ha Hp Hc Hn L). destruct L as (? & ? & _). done.
  - pose proof (root_par h kids c F Hr) as Hc. destruct (append_spec CFRetain h kids p cs c F Hp Hc (Hne _ _ Hn)) as (h' & E & L).
    exists h'. pose proof (linked_acyclic h h' kids p c cs _ F Ha Hp Hc Hn L). destruct L as (? & ? & _). done.
  - pose proof (root_par h kids c F Hr) as Hc. destruct (insert_sibling_spec CFRetain h kids p l1 t l2 c F Hp Hc (Hne _ _ Hn)) as (h' & E & L).
    exists h'. pose proof (linked_acyclic h h' kids p c _ _ F Ha Hp Hc Hn L). destruct L as (? & ? & _). done.
  - destruct (remove_spec CFRelease h kids p l1 t l2 F Hp) as (h' & E & F' & O & P). exists h'. split_and!; try done.
    destruct O. by eapply acyclic_cut.
  - exists h. split_and!; try done. apply remove_root_spec. by eapply root_par.
  - destruct (tree_remove_all_spec CFRelease h kids p cs F Hp) as (h' & E & F' & O & P). exists h'. split_and!; try done.
    destruct O. by eapply acyclic_cut.
Qed.

(** C25: any sequence of prepend, append, insert, remove and remove-all calls
    that adds only parentless nodes outside their own subtrees edits the lists
    of children as the calls say, keeps every link of the heap (first and last
    child, parent, next sibling) consistent with them and the heap free of
    cycles, retains each node added and releases each one removed, and leaves
    the contexts of all nodes alone. *)
Theorem CFTree_calls_refine_forest h kids cs kids' t :
  forest h kids -> acyclic h -> tree_steps kids cs kids' t ->
  exists h', do_calls h cs = Some (h', t) /\ forest h' kids' /\ acyclic h' /\ same_objects h h'.
Proof.
  intros F Ha Hs. revert h F Ha. induction Hs as [kids|kids c kids1 t1 cs kids2 t2 H1 _ IH]; intros h F Ha; [by exists h|].
  destruct (tree_call_refines h kids c kids1 t1 F Ha H1) as (h1 & E1 & F1 & A1 & O1).
  destruct (IH h1 F1 A1) as (h2 & E2 & F2 & A2 & O2). exists h2. split_and!; [|done|done|by transitivity h1].
  simpl. by apply (io_bind_ok _ _ h1 t1 h2 t2).
Qed.
End Calls.

(** ** Queries *)

Lemma count_children_spec h p l : forall n k,
  (length l < n)%nat -> lseg h p l 0 -> 0 ∉ l -> k + Z.of_nat (length l) < 2 ^ 31 ->
  count_children n h (hd 0 l) k = Some (k + Z.of_nat (length l)).
Proof.
  induction l as [|c l IH]; intros n k Hn Hseg H0 Hk; (destruct n as [|n]; [simpl in Hn; lia|]); cbn [hd count_children].
  - simpl. f_equal. lia.
  - apply not_elem_of_cons in H0 as [Hc0 H0]. destruct Hseg as (_ & E & Hseg). cbn [length] in *.
    destruct (Z.eqb_spec c 0); [lia|]. destruct (Z.leb_spec (2 ^ 31) (k + 1)); [lia|].
    destruct (sib_node _ _ _ E) as (nc & -> & Ec). cbn [opt_bind]. rewrite Ec, IH by (done || lia). f_equal. lia.
Qed.

Lemma child_at_spec h p l : forall n i,
  (length l < n)%nat -> lseg h p l 0 -> 0 ∉ l -> child_at n h (hd 0 l) (Z.of_nat i) = Some (nth i l 0).
Proof.
  induction l as [|c l IH]; intros n i Hn Hseg H0; (destruct n as [|n]; [simpl in Hn; lia|]); cbn [hd child_at].
  - by destruct i.
  - apply not_elem_of_cons in H0 as [Hc0 H0]. destruct Hseg as (_ & E & Hseg). cbn [length] in *.
    destruct (Z.eqb_spec c 0); [lia|]. destruct i as [|i]; [done|].
    destruct (Z.eqb_spec 0 (Z.of_nat (S i))); [lia|].
    destruct (sib_node _ _ _ E) as (nc & -> & Ec). cbn [opt_bind]. rewrite Ec.
    replace (Z.of_nat (S i) - 1) with (Z.of_nat i) by lia. apply IH; [lia|done..].
Qed.

Lemma store_children_spec h p l : forall n done' buf,
  (length l < n)%nat -> lseg h p l 0 -> 0 ∉ l -> (length l <= length buf)%nat ->
  store_children n h (hd 0 l) (Z.of_nat (length done')) (done' ++ buf) =
    Some (done' ++ (Some <$> l) ++ drop (length l) buf).
Proof.
  induction l as [|c l IH]; intros n done' buf Hn Hseg H0 Hb; (destruct n as [|n]; [simpl in Hn; lia|]); cbn [hd store_children].
  - done.
  - apply not_elem_of_cons in H0 as [Hc0 H0]. destruct Hseg as (_ & E & Hseg). cbn [length] in *.
    destruct (Z.eqb_spec c 0); [lia|]. destruct buf as [|b buf]; [simpl in Hb; lia|].
    rewrite wr_nat by (rewrite length_app; simpl; lia). cbn [opt_bind].
    rewrite (insert_app_r_alt done') by lia. rewrite Nat.sub_diag. cbn [list_insert].
    destruct (sib_node _ _ _ E) as (nc & -> & Ec). cbn [opt_bind]. rewrite Ec. simpl.
    pose proof (IH n (done' ++ [Some c]) buf) as IH'. rewrite length_app, <- (assoc_L (++)) in IH'. simpl in IH'.
    replace (Z.of_nat (length done') + 1) with (Z.of_nat (length done' + 1)) by lia.
    rewrite IH' by (done || simpl in *; lia). by rewrite <- (assoc_L (++)).
Qed.

Lemma apply_children_spec h p applier ctx l : forall n,
  (length l < n)%nat -> lseg h p l 0 -> 0 ∉ l ->
  apply_children n h (hd 0 l) applier ctx = Some (tt, (fun c => EvApply applier c ctx) <$> l).
Proof.
  induction l as [|c l IH]; intros n Hn Hseg H0; (destruct n as [|n]; [simpl in Hn; lia|]); cbn [hd apply_children]; [done|].
  apply not_elem_of_cons in H0 as [Hc0 H0]. destruct Hseg as (_ & E & Hseg). cbn [length] in *.
  destruct (Z.eqb_spec c 0); [lia|]. cbn [io_bind emit].
  destruct (sib_node _ _ _ E) as (nc & -> & Ec). cbn [io_lift io_bind]. rewrite Ec, IH by (done || lia). done.
Qed.

Lemma find_root_spec h x l r : path h x l r -> forall n, (length l <= n)%nat -> find_root n h x = Some r.
Proof.
  induction 1 as [x E|x q l r E Hq Hp IH]; intros n Hn; (destruct n as [|n]; [simpl in Hn; lia|]);
    destruct (par_node _ _ _ E) as (nx & Ex & Epx); simpl; rewrite Ex; cbn [opt_bind]; rewrite Epx.
  - done.
  - destruct (Z.eqb_spec q 0); [done|]. simpl. apply IH. simpl in Hn. lia.
Qed.

Lemma children_not_null h kids p cs : forest h kids -> kids !! p = Some cs -> 0 ∉ cs.
Proof. intros F Hp H0. by destruct (forest_child _ _ F p cs 0 Hp H0) as (_ & _ & ?). Qed.

Lemma lseg_nth h p l e i c : lseg h p l e -> l !! i = Some c -> par h c = Some p /\ sib h c = Some (nth (S i) l e).
Proof.
  revert i. induction l as [|y l IH]; intros i Hseg Hi; [done|]. destruct Hseg as (E1 & E2 & Hseg).
  destruct i as [|i]; [injection Hi as ->; split; [done|by destruct l]|]. by apply IH.
Qed.

(** In a consistent heap the queries end and agree with the lists of
    children: how many there are, which is the first or the one at an index
    (null beyond the end), all of them in order, the applier called on each
    in order; every child leads to its parent and its next sibling, and every
    node to the root above it. *)
Lemma CFTree_queries_of_forest h kids p cs buf applier ctx :
  forest h kids -> acyclic h -> kids !! p = Some cs -> Z.of_nat (length cs) < 2 ^ 31 -> (length cs <= length buf)%nat ->
  CFTreeGetChildCount h p = Some (Z.of_nat (length cs)) /\
  CFTreeGetFirstChild h p = Some (hd 0 cs) /\
  (forall i : nat, CFTreeGetChildAtIndex h p (Z.of_nat i) = Some (nth i cs 0)) /\
  CFTreeGetChildren h p buf = Some ((Some <$> cs) ++ drop (length cs) buf) /\
  CFTreeApplyFunctionToChildren h p applier ctx = Some (tt, (fun c => EvApply applier c ctx) <$> cs) /\
  (forall i c, cs !! i = Some c -> CFTreeGetParent h c = Some p /\ CFTreeGetNextSibling h c = Some (nth (S i) cs 0)) /\
  exists r, CFTreeFindRoot h p = Some r /\ is_root kids r /\ rtc (child_of kids) r p.
Proof.
  intros F Ha Hp Hs Hb. pose proof (f_links _ _ F p cs Hp) as Hseg. pose proof (children_not_null _ _ p cs F Hp) as H0.
  assert (length cs < fuel h)%nat as Hf by (unfold fuel; pose proof (forest_length _ _ F p cs Hp); lia).
  destruct (chi_node _ _ _ (f_first _ _ F p cs Hp)) as (np & Ep & Ec).
  unfold CFTreeGetChildCount, CFTreeGetFirstChild, CFTreeGetChildAtIndex, CFTreeGetChildren, CFTreeApplyFunctionToChildren,
    CFTreeGetParent, CFTreeGetNextSibling. rewrite Ep. cbn [opt_bind io_lift io_bind]. rewrite Ec. split_and!.
  - by apply (count_children_spec h p cs).
  - done.
  - intros i. by apply (child_at_spec h p).
  - by apply (store_children_spec h p cs (fuel h) [] buf).
  - by rewrite (apply_children_spec h p).
  - intros i c Hi. destruct (lseg_nth _ _ _ _ _ _ Hseg Hi) as [E1 E2].
    destruct (par_node _ _ _ E1) as (nc & Ec1 & <-). unfold sib in E2. rewrite Ec1 in *. by injection E2 as <-.
  - destruct (Ha p) as (l & r & Hl); [by eexists|]. exists r. split_and!.
    + apply (find_root_spec h p l r Hl). unfold fuel. pose proof (path_length _ _ _ _ Hl). lia.
    + apply (par_root h); [done|]. by eapply path_is_root.
    + by eapply path_above.
Qed.

(** ** Sorting the children *)

Lemma relink_spec p rest : forall h c,
  (forall x, x ∈ c :: rest -> par h x = Some p) -> NoDup (c :: rest) ->
  exists h', relink h c rest = Some h' /\ same_objects h h' /\ (forall x, par h' x = par h x) /\
    (forall x, chi h' x = chi h x) /\ (forall x, rig h' x = rig h x) /\
    (forall x, x ∉ c :: rest -> sib h' x = sib h x) /\ lseg h' p (c :: rest) 0.
Proof.
  induction rest as [|d rest IH]; intros h c Hpar Hnd.
  - assert (par h c = Some p) as Hc by (apply Hpar; by apply list_elem_of_singleton).
    destruct (set_sibling_spec h c 0) as (h' & E & O & P & S & C & R); [by eapply observed_Some|].
    exists h'. simpl. split_and!; try done.
    + intros x Hx%not_elem_of_cons. rewrite S, upd_ne; naive_solver.
    + by rewrite P.
    + by rewrite S, upd_eq.
  - apply NoDup_cons in Hnd as [Hcn Hnd].
    assert (par h c = Some p) as Hc by (apply Hpar, elem_of_cons; by left).
    destruct (set_sibling_spec h c d) as (h1 & E & O & P & S & C & R); [by eapply observed_Some|].
    destruct (IH h1 d) as (h2 & E2 & O2 & P2 & C2 & R2 & S2 & L2); [|done|].
    { intros x Hx. rewrite P. apply Hpar, elem_of_cons. by right. }
    exists h2. cbn [relink]. rewrite E. cbn [opt_bind]. split_and!; [done|by transitivity h1|..].
    + intros x. by rewrite P2, P.
    + intros x. by rewrite C2, C.
    + intros x. by rewrite R2, R.
    + intros x [Hx1 Hx2]%not_elem_of_cons. by rewrite S2, S, upd_ne.
    + split_and!; [by rewrite P2, P|by rewrite S2, S, upd_eq|done].
Qed.

Section SortChildren.
Context (call_compare : Z -> Z -> Z -> Z -> Z) (comparator ctx : Z).
Let cmp x y := call_compare comparator x y ctx.

(** Sorting the children of a node with a comparator that is a total
    preorder stably sorts its list of children and relinks them in that
    order; nothing else changes. *)
Lemma CFTreeSortChildren_stable h kids p cs :
  CompareOrder cmp -> forest h kids -> acyclic h -> kids !! p = Some cs -> Z.of_nat (length cs) < 2 ^ 31 ->
  exists h' cs', CFTreeSortChildren call_compare h p comparator ctx = Some h' /\ stable_sort cmp cs cs' /\
    forest h' (<[p := cs']> kids) /\ acyclic h' /\ same_objects h h'.
Proof.
  intros Ho F Ha Hp Hs. pose proof (f_links _ _ F p cs Hp) as Hseg. pose proof (children_not_null _ _ p cs F Hp) as H0.
  assert (length cs < fuel h)%nat as Hf by (unfold fuel; pose proof (forest_length _ _ F p cs Hp); lia).
  destruct (forest_key _ _ F p cs Hp) as [Hps _].
  destruct (chi_node _ _ _ (f_first _ _ F p cs Hp)) as (np & Ep & Ec).
  unfold CFTreeSortChildren, CFTreeGetChildCount. rewrite Ep. cbn [opt_bind]. rewrite Ec.
  rewrite (count_children_spec h p cs) by done. cbn [opt_bind]. rewrite Z.add_0_l.
  destruct (Z.ltb_spec 1 (Z.of_nat (length cs))) as [Hl|Hl].
  2:{ exists h, cs. split_and!; try done.
      - split; [done| |done]. destruct cs as [|x [|y cs]]; [constructor|repeat constructor|simpl in Hl; lia].
      - by rewrite insert_id. }
  pose proof (store_children_spec h p cs (fuel h) [] (replicate (length cs) None) Hf Hseg H0) as Est.
  rewrite length_replicate, drop_ge, app_nil_r in Est by (by rewrite length_replicate). cbn [app length] in Est.
  change (Z.of_nat 0) with 0 in Est. rewrite Nat2Z.id, Est by done. cbn [opt_bind]. rewrite all_written_Some. cbn [opt_bind].
  destruct (sort_routine_ok (sort := fun A c => CFQSortArray c) Z cmp cs (Z.of_nat (length cs)) 8) as (cs' & E & Hsort);
    [done|lia| |done|].
  { transitivity (2 ^ 31); [lia|]. by vm_compute. }
  rewrite Nat2Z.id, drop_ge, app_nil_r in E by done. rewrite Nat2Z.id, take_ge in Hsort by done.
  change (__CFTreeCompareValues _ _) with cmp. rewrite E. cbn [opt_bind].
  assert (cs' ≡ₚ cs) as Hperm by apply Hsort.
  assert (NoDup cs') as Hnd by (rewrite Hperm; by eapply f_nodup).
  destruct cs' as [|c rest]; [apply Permutation_length in Hperm; simpl in Hperm; lia|].
  destruct (set_child_spec h p c Hps) as (h1 & -> & O1 & P1 & S1 & C1 & R1). cbn [opt_bind].
  destruct (relink_spec p rest h1 c) as (h2 & -> & O2 & P2 & C2 & R2 & S2 & L2); [|done|].
  { intros x Hx. rewrite P1. rewrite Hperm in Hx. by eapply lseg_par. }
  cbn [opt_bind]. destruct (set_rightmost_spec h2 p (List.last rest c)) as (h3 & -> & O3 & P3 & S3 & C3 & R3).
  { eauto using same_objects_Some. }
  exists h3, (c :: rest). assert (same_objects h h3) as HO by (transitivity h1; [done|]; by transitivity h2).
  split_and!; try done.
  - eapply (forest_update h kids F h3 p cs); try done.
    + by rewrite C3, C2, C1, upd_eq.
    + rewrite R3, upd_eq. f_equal. symmetry. apply (last_app_cons []).
    + apply (lseg_frame h2); [|done]. intros x _. by rewrite P3, S3.
    + intros x Hx. by rewrite C3, C2, C1, R3, !upd_ne, R2, R1.
    + intros x Hx Hx'. by rewrite P3, P2, P1, S3, S2, S1.
    + intros x Hx Hx'. by rewrite Hperm in Hx'.
    + intros x Hx. left. by rewrite <- Hperm.
  - destruct HO. eapply (acyclic_cut h); [done| |done]. intros x. left. by rewrite P3, P2, P1.
Qed.
End SortChildren.

(** ** Contexts *)

Lemma callbacks_type_set v x : 0 <= x < 4 -> __CFBitfieldGetValue (__CFBitfieldSetValue v 1 0 x) 1 0 = x.
Proof.
  intros Hx. unfold __CFBitfieldGetValue, __CFBitfieldSetValue. rewrite Z.land_lor_distr_l, <- Z.land_assoc.
  change (Z.land (uwrap 32 (Z.lnot (__CFBitfieldMask 1 0))) (__CFBitfieldMask 1 0)) with 0. rewrite Z.land_0_r, Z.lor_0_l.
  assert (x = 0 \/ x = 1 \/ x = 2 \/ x = 3) as [-> | [-> | [-> | ->]]] by lia; reflexivity.
Qed.

Section Contexts.
Context (CFRetain CFRelease CFCopyDescription : Z) (call_retain : Z -> Z -> Z).

Definition callbacks_of (c : CFTreeContext) : __CFTreeCallBacks :=
  mkTreeCB (ctx_retain c) (ctx_release c) (ctx_copyDescription c).

(** What installing a context stores and calls. *)
Definition installed_info (c : CFTreeContext) : Z :=
  if ctx_retain c =? 0 then ctx_info c else call_retain (ctx_retain c) (ctx_info c).

Definition install_events (old : __CFTreeCallBacks) (oldinfo : Z) (c : CFTreeContext) : list event :=
  (if ctx_retain c =? 0 then [] else [EvRetain (ctx_retain c) (ctx_info c)]) ++
  (if release old =? 0 then [] else [EvRelease (release old) oldinfo]).

(** The callbacks chosen for a context are the context's own. *)
Lemma chosen_callbacks n c newtype cbs :
  (newtype, cbs) =
    (if __CFTreeCallBacksMatchNull (Some c) then (__kCFTreeHasNullCallBacks, _callbacks n)
     else if __CFTreeCallBacksMatchCFType CFRetain CFRelease CFCopyDescription (Some c)
          then (__kCFTreeHasCFTypeCallBacks, _callbacks n)
          else (__kCFTreeHasCustomCallBacks, callbacks_of c)) ->
  forall info p s ch r,
  __CFTreeGetCallBacks CFRetain CFRelease CFCopyDescription
    (mkTree (__CFBitfieldSetValue (_cfinfo n) 1 0 newtype) p s ch r info cbs) = callbacks_of c.
Proof.
  intros E info p s ch r. unfold __CFTreeGetCallBacks, __CFTreeGetCallBacksType. cbn [_cfinfo _callbacks].
  unfold __CFTreeCallBacksMatchNull, __CFTreeCallBacksMatchCFType in E.
  destruct (_ && _ && _) eqn:E1.
  - injection E as -> ->. rewrite callbacks_type_set by (vm_compute; done). simpl.
    rewrite !andb_true_iff, !Z.eqb_eq in E1. destruct E1 as [[E1 E2] E3]. unfold callbacks_of. by rewrite E1, E2, E3.
  - clear E1. destruct (_ && _ && _) eqn:E1.
    + injection E as -> ->. rewrite callbacks_type_set by (vm_compute; done). simpl.
      rewrite !andb_true_iff, !Z.eqb_eq in E1. destruct E1 as [[E1 E2] E3]. unfold callbacks_of. by rewrite E1, E2, E3.
    + injection E as -> ->. rewrite callbacks_type_set by (vm_compute; done). done.
Qed.

(** Fields of the node after its context is set. *)
Definition same_links (n n' : __CFTree) : Prop :=
  _parent n' = _parent n /\ _sibling n' = _sibling n /\ _child n' = _child n /\ _rightmostChild n' = _rightmostChild n.

Lemma set_context_spec h t n c :
  h !! t = Some n ->
  exists n', CFTreeSetContext CFRetain CFRelease CFCopyDescription call_retain h t (Some c) =
      Some (<[t := n']> h, install_events (__CFTreeGetCallBacks CFRetain CFRelease CFCopyDescription n) (_info n) c) /\
    same_links n n' /\ _info n' = installed_info c /\
    __CFTreeGetCallBacks CFRetain CFRelease CFCopyDescription n' = callbacks_of c.
Proof.
  intros En. unfold CFTreeSetContext. rewrite En. cbn [io_lift io_bind]. fold (callbacks_of c).
  destruct (if __CFTreeCallBacksMatchNull (Some c) then _ else _) as [newtype cbs] eqn:Ety.
  unfold set_context_fields. rewrite En. cbn [opt_bind io_lift io_bind]. rewrite lookup_insert_eq. cbn [opt_bind io_lift io_bind].
  rewrite (chosen_callbacks n c newtype cbs) by (by rewrite Ety). cbn [callbacks_of retain].
  set (old := __CFTreeGetCallBacks _ _ _ n). unfold install_events, installed_info.
  destruct (ctx_retain c =? 0) eqn:Er; cbn [negb io_bind io_ret emit]; rewrite ?lookup_insert_eq; cbn [opt_bind io_lift io_bind];
    rewrite insert_insert_eq; cbn [_parent _sibling _child _rightmostChild];
    destruct (release old =? 0); simpl; (eexists; split; [done|]; split_and!; [done|done|by apply chosen_callbacks]).
Qed.

(** Setting the context of a node retains the new info, then releases the
    old one with the old callback; getting it back gives the same callbacks
    and the retained info, whichever of the three representations was chosen,
    and no link of any node changes. *)
Lemma CFTreeContext_roundtrip h t n c :
  h !! t = Some n ->
  exists h', CFTreeSetContext CFRetain CFRelease CFCopyDescription call_retain h t (Some c) =
      Some (h', install_events (__CFTreeGetCallBacks CFRetain CFRelease CFCopyDescription n) (_info n) c) /\
    CFTreeGetContext CFRetain CFRelease CFCopyDescription h' t =
      Some (mkContext (installed_info c) (ctx_retain c) (ctx_release c) (ctx_copyDescription c)) /\
    (forall x, par h' x = par h x /\ sib h' x = sib h x /\ chi h' x = chi h x /\ rig h' x = rig h x) /\
    (forall x, x <> t -> h' !! x = h !! x).
Proof.
  intros En. destruct (set_context_spec h t n c En) as (n' & E & (L1 & L2 & L3 & L4) & Ei & Ecb).
  eexists. split; [done|]. split_and!.
  - unfold CFTreeGetContext. rewrite lookup_insert_eq. cbn [opt_bind]. by rewrite Ecb, Ei.
  - intros x. unfold par, sib, chi, rig. destruct (decide (x = t)) as [->|Hx]; [|by rewrite lookup_insert_ne].
    rewrite lookup_insert_eq, En. simpl. by rewrite L1, L2, L3, L4.
  - intros x Hx. by rewrite lookup_insert_ne.
Qed.

(** Creating a node at a fresh address adds it to the forest without
    children and without a parent, with the context given, its info retained;
    without memory nothing happens and null is returned. *)
Lemma CFTreeCreate_adds_root h kids memory c :
  forest h kids -> acyclic h -> h !! memory = None ->
  CFTreeCreate CFRetain CFRelease CFCopyDescription call_retain h 0 (Some c) = Some ((h, 0), []) /\
  (memory <> 0 ->
   exists h', CFTreeCreate CFRetain CFRelease CFCopyDescription call_retain h memory (Some c) =
       Some ((h', memory), if ctx_retain c =? 0 then [] else [EvRetain (ctx_retain c) (ctx_info c)]) /\
     forest h' (<[memory := []]> kids) /\ acyclic h' /\ is_root (<[memory := []]> kids) memory /\
     CFTreeGetContext CFRetain CFRelease CFCopyDescription h' memory =
       Some (mkContext (installed_info c) (ctx_retain c) (ctx_release c) (ctx_copyDescription c))).
Proof.
  intros F Ha Hm. split; [done|]. intros H0. unfold CFTreeCreate. destruct (Z.eqb_spec memory 0); [done|].
  set (fresh := mkTree _ 0 0 0 0 0 _).
  destruct (set_context_spec (<[memory := fresh]> h) memory fresh c) as (n' & E & (L1 & L2 & L3 & L4) & Ei & Ecb);
    [apply lookup_insert_eq|].
  rewrite insert_insert_eq in E. unfold install_events in E.
  assert (release (__CFTreeGetCallBacks CFRetain CFRelease CFCopyDescription fresh) = 0) as Er by reflexivity.
  rewrite Er, Z.eqb_refl, app_nil_r in E.
  assert (kids !! memory = None) as Hkm by (apply not_elem_of_dom; rewrite <- (f_dom _ _ F); by apply not_elem_of_dom).
  assert (forall x, x <> memory -> <[memory := n']> h !! x = h !! x) as Hother by (intros; by rewrite lookup_insert_ne).
  assert (forall x q, par h x = Some q -> x <> memory) as Hpne by (intros x q Hq ->; apply observed_Some in Hq; rewrite Hm in Hq; by destruct Hq).
  assert (forall p cs x, kids !! p = Some cs -> x ∈ cs -> x <> memory) as Hcne.
  { intros p cs x Hp Hx. eapply Hpne. by eapply lseg_par; [apply F|]. }
  assert (forest (<[memory := n']> h) (<[memory := []]> kids)) as F'.
  { split.
    - rewrite Hother by done. apply F.
    - by rewrite !dom_insert_L, (f_dom _ _ F).
    - intros p cs [[<- <-]|[Hp Hk]]%lookup_insert_Some; [apply NoDup_nil_2|by eapply f_nodup].
    - intros p cs [[<- <-]|[Hp Hk]]%lookup_insert_Some; unfold chi; [rewrite lookup_insert_eq; simpl; by rewrite L3|].
      rewrite Hother by done. by apply (f_first _ _ F).
    - intros p cs [[<- <-]|[Hp Hk]]%lookup_insert_Some; unfold rig; [rewrite lookup_insert_eq; simpl; by rewrite L4|].
      rewrite Hother by done. by apply (f_last _ _ F).
    - intros p cs [[<- <-]|[Hp Hk]]%lookup_insert_Some; [done|]. apply (lseg_frame h); [|by apply F].
      intros x Hx. unfold par, sib. rewrite Hother by (by eapply Hcne). done.
    - intros x. unfold par, sib. destruct (decide (x = memory)) as [->|Hx]; [rewrite lookup_insert_eq; simpl; by rewrite L2|].
      rewrite Hother by done. apply F.
    - intros x q. unfold par. destruct (decide (x = memory)) as [->|Hx]; [rewrite lookup_insert_eq; simpl; rewrite L1; by intros [= <-]|].
      rewrite Hother by done. intros Hq Hq0. destruct (f_parent _ _ F x q Hq Hq0) as (cs & Hcs & Hxc).
      exists cs. rewrite lookup_insert_ne; [done|congruence]. }
  exists (<[memory := n']> h). rewrite E. simpl. rewrite app_nil_r. split_and!; try done.
  - intros x [Hx|Hx] %lookup_insert_is_Some.
    + subst x. exists [memory], memory. constructor. unfold par. rewrite lookup_insert_eq. simpl. by rewrite L1.
    + destruct Hx as [_ Hx]. destruct (Ha x Hx) as (l & r & Hl). exists l, r.
      induction Hl as [x E'|x q l r E' Hq Hp IH].
      * constructor. unfold par. rewrite Hother by (by eapply Hpne). done.
      * eapply path_up; [unfold par; rewrite Hother by (by eapply Hpne); exact E'|done|]. apply IH.
        destruct Hp as [? E0|? ? ? ? E0]; by eapply observed_Some.
  - eapply par_root; [done|]. unfold par. rewrite lookup_insert_eq. simpl. by rewrite L1.
  - unfold CFTreeGetContext. rewrite lookup_insert_eq. cbn [opt_bind]. by rewrite Ecb, Ei.
Qed.
End Contexts.

(** ** The properties on a concrete forest *)

Definition demo_node (parent sibling child rightmost : Z) : __CFTree :=
  mkTree 128 parent sibling child rightmost 0 __kCFNullTreeCallBacks.

(** Node 1 has the children 2 and 3; node 4 stands alone. *)
Definition demo_heap : heap :=
  <[1 := demo_node 0 0 2 3]> (<[2 := demo_node 1 3 0 0]> (<[3 := demo_node 1 0 0 0]> (<[4 := demo_node 0 0 0 0]> ∅))).

Definition demo_kids : children_map := <[1 := [2; 3]]> (<[2 := []]> (<[3 := []]> (<[4 := []]> ∅))).

Ltac each_key H :=
  repeat (apply lookup_insert_Some in H as [[<- <-]|[_ H]]; [|]); try (by rewrite lookup_empty in H).

Lemma demo_forest : forest demo_heap demo_kids.
Proof.
  split.
  - reflexivity.
  - reflexivity.
  - intros p cs H. unfold demo_kids in H. each_key H; apply (bool_decide_unpack _); vm_compute; exact I.
  - intros p cs H. unfold demo_kids in H. each_key H; reflexivity.
  - intros p cs H. unfold demo_kids in H. each_key H; reflexivity.
  - intros p cs H. unfold demo_kids in H. each_key H; repeat split; reflexivity.
  - intros x H. unfold par in H. apply fmap_Some in H as (n & H & E). unfold demo_heap in H. each_key H; (discriminate E || reflexivity).
  - intros x q H Hq. unfold par in H. apply fmap_Some in H as (n & H & E). unfold demo_heap in H.
    each_key H; simpl in E; subst q; try done; exists [2; 3]; (split; [reflexivity|]);
      apply (bool_decide_unpack _); vm_compute; exact I.
Qed.

Lemma demo_acyclic : acyclic demo_heap.
Proof.
  intros x [n H]. assert (path demo_heap 1 [1] 1) as H1 by (by constructor). unfold demo_heap in H. each_key H.
  - by exists [1], 1.
  - exists [2; 1], 1. by apply (path_up _ 2 1).
  - exists [3; 1], 1. by apply (path_up _ 3 1).
  - exists [4], 4. by constructor.
Qed.

Lemma demo_root_4 : is_root demo_kids 4 /\ ~ rtc (child_of demo_kids) 4 1.
Proof.
  split; [split; [by eexists|]|].
  - intros q cs H. unfold demo_kids in H. each_key H; apply (bool_decide_unpack _); vm_compute; exact I.
  - intros H. inversion H as [|? y ? (cs & Hcs & Hy) _]; subst. injection Hcs as <-. by apply not_elem_of_nil in Hy.
Qed.

Lemma CFTree_calls_refine_forest_witness :
  exists h', do_calls 11 12 demo_heap [InsertCall 2 4; RemoveCall 2] = Some (h', [EvRetain 11 4; EvRelease 12 2]) /\
    forest h' (<[1 := [4; 3]]> (<[1 := [2; 4; 3]]> demo_kids)) /\ acyclic h' /\ same_objects demo_heap h'.
Proof.
  apply (CFTree_calls_refine_forest 11 12 demo_heap demo_kids [InsertCall 2 4; RemoveCall 2]
           (<[1 := [4; 3]]> (<[1 := [2; 4; 3]]> demo_kids)) [EvRetain 11 4; EvRelease 12 2]);
    [apply demo_forest|apply demo_acyclic|].
  apply (steps_cons 11 12 demo_kids (InsertCall 2 4) (<[1 := [2; 4; 3]]> demo_kids) [EvRetain 11 4] [RemoveCall 2] _ [EvRelease 12 2]).
  - apply (step_insert 11 12 demo_kids 1 [] 2 [3] 4); [reflexivity|apply demo_root_4..].
  - apply (steps_cons 11 12 _ (RemoveCall 2) (<[1 := [4; 3]]> (<[1 := [2; 4; 3]]> demo_kids)) [EvRelease 12 2] [] _ []); [|constructor].
    apply (step_remove 11 12 _ 1 [] 2 [4; 3]). reflexivity.
Defined.

Lemma CFTree_queries_of_forest_witness :
  CFTreeGetChildCount demo_heap 1 = Some 2 /\ CFTreeGetFirstChild demo_heap 1 = Some 2.
Proof.
  pose proof (CFTree_queries_of_forest demo_heap demo_kids 1 [2; 3] [None; None] 7 8) as (H1 & H2 & _);
    [apply demo_forest|apply demo_acyclic|reflexivity|simpl; lia|simpl; lia|].
  split; [exact H1|exact H2].
Defined.

Definition demo_compare (fp x y ctx : Z) : Z := y - x.

#[export] Instance demo_compare_order fp ctx : CompareOrder (fun x y => demo_compare fp x y ctx).
Proof. split; unfold demo_compare; intros *; lia. Qed.

Lemma CFTreeSortChildren_stable_witness :
  exists h' cs', CFTreeSortChildren demo_compare demo_heap 1 5 6 = Some h' /\
    stable_sort (fun x y => demo_compare 5 x y 6) [2; 3] cs' /\
    forest h' (<[1 := cs']> demo_kids) /\ acyclic h' /\ same_objects demo_heap h'.
Proof.
  apply (CFTreeSortChildren_stable demo_compare 5 6 demo_heap demo_kids 1 [2; 3]);
    [apply demo_compare_order|apply demo_forest|apply demo_acyclic|reflexivity|simpl; lia].
Defined.

Lemma CFTreeContext_roundtrip_witness :
  exists h', CFTreeSetContext 11 12 13 (fun _ v => v + 100) demo_heap 2 (Some (mkContext 50 11 12 13)) =
      Some (h', [EvRetain 11 50]) /\
    CFTreeGetContext 11 12 13 h' 2 = Some (mkContext 150 11 12 13) /\
    (forall x, par h' x = par demo_heap x /\ sib h' x = sib demo_heap x /\ chi h' x = chi demo_heap x /\ rig h' x = rig demo_heap x) /\
    (forall x, x <> 2 -> h' !! x = demo_heap !! x).
Proof.
  apply (CFTreeContext_roundtrip 11 12 13 (fun _ v => v + 100) demo_heap 2 (demo_node 1 3 0 0) (mkContext 50 11 12 13)).
  reflexivity.
Defined.

Lemma CFTreeCreate_adds_root_witness :
  exists h', CFTreeCreate 11 12 13 (fun _ v => v + 100) demo_heap 5 (Some (mkContext 50 21 22 0)) =
      Some ((h', 5), [EvRetain 21 50]) /\
    forest h' (<[5 := []]> demo_kids) /\ acyclic h' /\ is_root (<[5 := []]> demo_kids) 5 /\
    CFTreeGetContext 11 12 13 h' 5 = Some (mkContext 150 21 22 0).
Proof.
  apply (CFTreeCreate_adds_root 11 12 13 (fun _ v => v + 100) demo_heap demo_kids 5 (mkContext 50 21 22 0));
    [apply demo_forest|apply demo_acyclic|reflexivity|lia].
Defined.
