(* ===== verification/CFDate.v ===== *)
(** * CFDate: Gregorian calendar arithmetic (CFDate.c)

    A [CFAbsoluteTime] is a number of seconds since 2001-01-01 00:00:00 GMT.
    The source computes with [double].  The sums of [__CFAbsoluteFromYMD], a number
    of days, are rounded as doubles are ([to_double]).  For times the model covers those
    that are a whole number of seconds below 2^53 in magnitude, where every operation the
    source makes on them is exact: sums, differences and products of integers
    below 2^53 are, and the rounded quotient by 86400, 3600 or 60 lies on the
    same side of every integer as the true one.  A time is then a [Z], and
    [floor] of a quotient is [Z.div].  Fractions of a second, and the hash and
    the timestamp conversions, which are floating-point only, are left out.

    Years, months and days are C integers of the widths of the source;
    [chk32] is [int] arithmetic, undefined on overflow.  The time zone is a
    parameter: the offset from GMT at a given time, or none. *)

From S2P Require Import Prelude CFInternal CFSortFunctions.
From stdpp Require Import base list numbers option.
From Stdlib Require Import ZArith Lia.
Open Scope Z_scope.
Open Scope cf_scope.

Definition chk32 (x : Z) : option Z := if (- 2 ^ 31 <=? x) && (x <? 2 ^ 31) then Some x else None.

Definition INT32_MAX : Z := 2 ^ 31 - 1.

(** ** Date objects *)

Record __CFDate := mkDate { _time : Z }.

Definition CFDateCreate (instance_ok : bool) (at' : Z) : option __CFDate :=
  if negb instance_ok then None else Some (mkDate at').

Definition CFDateGetAbsoluteTime (date : __CFDate) : Z := _time date.

Definition CFDateGetTimeIntervalSinceDate (date otherDate : __CFDate) : Z := _time date - _time otherDate.

Definition __CFDateEqual (date1 date2 : __CFDate) : bool :=
  if negb (_time date1 =? _time date2) then false else true.

Definition CFDateCompare (date otherDate : __CFDate) : Z :=
  if _time date <? _time otherDate then kCFCompareLessThan
  else if _time otherDate <? _time date then kCFCompareGreaterThan
  else kCFCompareEqualTo.

(** ** Days of months and years

    A year is counted from 2001, a day from 2001-01-01. *)

Definition __CFDoubleModToInt (d modulus : Z) : Z :=
  let result := d - d / modulus * modulus in
  if result <? 0 then result + modulus else result.

Definition __CFDoubleMod (d modulus : Z) : Z :=
  let result := d - d / modulus * modulus in
  if result <? 0 then result + modulus else result.

Definition daysInMonth : list Z := [0; 31; 28; 31; 30; 31; 30; 31; 31; 30; 31; 30; 31; 0; 0; 0].
Definition daysBeforeMonth : list Z := [0; 0; 31; 59; 90; 120; 151; 181; 212; 243; 273; 304; 334; 365; 0; 0].
Definition daysAfterMonth : list Z := [365; 334; 306; 275; 245; 214; 184; 153; 122; 92; 61; 31; 0; 0; 0; 0].

Definition isleap (year : Z) : bool :=
  let y := Z.rem (year + 1) 400 in
  let y := if y <? 0 then - y else y in
  (0 =? Z.land y 3) && negb (100 =? y) && negb (200 =? y) && negb (300 =? y).

Definition __CFDaysInMonth (month year : Z) (leap : bool) : option Z :=
  let* d := rd daysInMonth month in Some (d + Z.b2z ((2 =? month) && leap)).

Definition __CFDaysBeforeMonth (month year : Z) (leap : bool) : option Z :=
  let* d := rd daysBeforeMonth month in Some (d + Z.b2z ((2 <? month) && leap)).

Definition __CFDaysAfterMonth (month year : Z) (leap : bool) : option Z :=
  let* d := rd daysAfterMonth month in Some (d + Z.b2z ((month <? 2) && leap)).

(** ** Day numbers and dates *)

(** [while (absolute < 0)]: back one year at a time. *)
Fixpoint back_years (fuel : nat) (absolute y : Z) : option (Z * Z) :=
  match fuel with
  | O => None
  | S fuel =>
      if absolute <? 0 then
        let y := y - 1 in
        let* d := __CFDaysAfterMonth 0 y (isleap y) in
        back_years fuel (absolute + d) y
      else Some (absolute, y)
  end.

(** [while (ydays <= absolute)]: forward one year at a time. *)
Fixpoint forward_years (fuel : nat) (absolute y ydays : Z) : option (Z * Z) :=
  match fuel with
  | O => None
  | S fuel =>
      if ydays <=? absolute then
        let y := y + 1 in
        let absolute := absolute - ydays in
        let* ydays := __CFDaysAfterMonth 0 y (isleap y) in
        forward_years fuel absolute y ydays
      else Some (absolute, y)
  end.

(** The search for the month from an approximation. *)
Fixpoint month_search (fuel : nat) (m y : Z) (leap : bool) (absolute : Z) : option Z :=
  match fuel with
  | O => None
  | S fuel =>
      let* b := __CFDaysBeforeMonth (m + 1) y leap in
      if b <=? absolute then month_search fuel (m + 1) y leap absolute else Some m
  end.

(** Fewer than 400 years remain after whole multiples of 400 years, and a
    year has 12 months. *)
Definition __CFYMDFromAbsolute (absolute : Z) : option (Z * Z * Z) :=
  let b := Z.quot absolute 146097 in
  let y := b * 400 in
  let absolute := absolute - b * 146097 in
  let* (absolute, y) := back_years 402 absolute y in
  let* ydays := __CFDaysAfterMonth 0 y (isleap y) in
  let* (absolute, y) := forward_years 402 absolute y ydays in
  let m := Z.quot absolute 33 + 1 in
  let leap := isleap y in
  let* m := month_search 13 m y leap absolute in
  let* before := __CFDaysBeforeMonth m y leap in
  Some (y, m, absolute - before + 1).

(** The double nearest to an integer: 53 binary digits, ties to the even one. *)
Definition to_double (x : Z) : Z :=
  let k := Z.log2 (Z.abs x) - 52 in
  if k <=? 0 then x
  else
    let u := 2 ^ k in
    let q := x / u in
    let r := x mod u in
    (if 2 * r <? u then q else if u <? 2 * r then q + 1 else if Z.even q then q else q + 1) * u.

(** [for (idx = year; idx < 0; idx++)] with [n] rounds left. *)
Fixpoint sub_years (n : nat) (idx absolute : Z) : option Z :=
  match n with
  | O => Some absolute
  | S n => let* d := __CFDaysAfterMonth 0 idx (isleap idx) in sub_years n (idx + 1) (to_double (absolute - d))
  end.

Fixpoint add_years (n : nat) (idx absolute : Z) : option Z :=
  match n with
  | O => Some absolute
  | S n => let* d := __CFDaysAfterMonth 0 idx (isleap idx) in add_years n (idx + 1) (to_double (absolute + d))
  end.

(** The result is a double; every sum and product is rounded to one. *)
Definition __CFAbsoluteFromYMD (year month day : Z) : option Z :=
  let absolute := 0 in
  let b := Z.quot year 400 in
  let absolute := to_double (absolute + to_double (to_double b * 146097)) in
  let year := year - b * 400 in
  let* absolute := (if year <? 0 then sub_years (Z.to_nat (- year)) year absolute
                    else add_years (Z.to_nat year) 0 absolute) in
  let* before := __CFDaysBeforeMonth month year (isleap year) in
  Some (to_double (absolute + (before + day - 1))).

(** ** Gregorian dates *)

Record CFGregorianDate := mkGDate { year : Z; month : Z; day : Z; hour : Z; minute : Z; second : Z }.

Record CFGregorianUnits := mkUnits { years : Z; months : Z; days : Z; hours : Z; minutes : Z; seconds : Z }.

Definition kCFGregorianUnitsYears : Z := 1.
Definition kCFGregorianUnitsMonths : Z := 2.
Definition kCFGregorianUnitsDays : Z := 4.
Definition kCFGregorianUnitsHours : Z := 8.
Definition kCFGregorianUnitsMinutes : Z := 16.
Definition kCFGregorianUnitsSeconds : Z := 32.
Definition kCFGregorianAllUnits : Z := 16777215.

Definition has_flag (unitFlags flag : Z) : bool := negb (Z.land unitFlags flag =? 0).

Definition CFGregorianDateIsValid (gdate : CFGregorianDate) (unitFlags : Z) : option bool :=
  let f := has_flag unitFlags in
  if f kCFGregorianUnitsYears && (year gdate <=? 0) then Some false else
  if f kCFGregorianUnitsMonths && ((month gdate <? 1) || (12 <? month gdate)) then Some false else
  if f kCFGregorianUnitsDays && ((day gdate <? 1) || (31 <? day gdate)) then Some false else
  if f kCFGregorianUnitsHours && ((hour gdate <? 0) || (23 <? hour gdate)) then Some false else
  if f kCFGregorianUnitsMinutes && ((minute gdate <? 0) || (59 <? minute gdate)) then Some false else
  if f kCFGregorianUnitsSeconds && ((second gdate <? 0) || (60 <=? second gdate)) then Some false else
  if f kCFGregorianUnitsDays && f kCFGregorianUnitsMonths && f kCFGregorianUnitsYears then
    let* y := chk32 (year gdate - 2001) in
    let* d := __CFDaysInMonth (month gdate) y (isleap y) in
    if d <? day gdate then Some false else Some true
  else Some true.

(** A time zone: [CFTimeZoneGetSecondsFromGMT], or none for a NULL zone. *)
Definition timezone : Type := option (Z -> Z).

Definition CFGregorianDateGetAbsoluteTime (gdate : CFGregorianDate) (tz : timezone) : option Z :=
  let* y := chk32 (year gdate - 2001) in
  let* a := __CFAbsoluteFromYMD y (month gdate) (day gdate) in
  let at' := 86400 * a in
  let at' := at' + (3600 * hour gdate + 60 * minute gdate + second gdate) in
  Some (match tz with
        | Some f => let offset0 := f at' in let offset1 := f (at' - offset0) in at' - offset1
        | None => at'
        end).

(** [at + (NULL != tz ? CFTimeZoneGetSecondsFromGMT(tz, at) : 0.0)] *)
Definition fixed_time (at' : Z) (tz : timezone) : Z :=
  at' + match tz with Some f => f at' | None => 0 end.

Definition CFAbsoluteTimeGetGregorianDate (at' : Z) (tz : timezone) : option CFGregorianDate :=
  let fixedat := fixed_time at' tz in
  let absolute := fixedat / 86400 in
  let* (y, m, d) := __CFYMDFromAbsolute absolute in
  let y := if INT32_MAX - 2001 <? y then INT32_MAX - 2001 else y in
  Some (mkGDate (swrap 32 (y + 2001)) m d
          (__CFDoubleModToInt (fixedat / 3600) 24)
          (__CFDoubleModToInt (fixedat / 60) 60)
          (__CFDoubleMod fixedat 60)).

(** ** Adding units *)

(** [while (12 < working.months)] *)
Fixpoint months_down (fuel : nat) (ms ys : Z) : option (Z * Z) :=
  match fuel with
  | O => None
  | S fuel => if 12 <? ms then let* ys := chk32 (ys + 1) in months_down fuel (ms - 12) ys else Some (ms, ys)
  end.

(** [while (working.months < 1)] *)
Fixpoint months_up (fuel : nat) (ms ys : Z) : option (Z * Z) :=
  match fuel with
  | O => None
  | S fuel => if ms <? 1 then let* ys := chk32 (ys - 1) in months_up fuel (ms + 12) ys else Some (ms, ys)
  end.

Definition month_days (ms ys : Z) : option Z :=
  let* y := chk32 (ys - 2001) in __CFDaysInMonth ms y (isleap y).

(** [while (monthdays < working.days)] *)
Fixpoint days_down (fuel : nat) (ds ms ys monthdays : Z) : option (Z * Z * Z * Z) :=
  match fuel with
  | O => None
  | S fuel =>
      if monthdays <? ds then
        let ms := ms + 1 in
        let* (ms, ys) := (if 12 <? ms then let* ys := chk32 (ys + 1) in Some (ms - 12, ys) else Some (ms, ys)) in
        let ds := ds - monthdays in
        let* monthdays := month_days ms ys in
        days_down fuel ds ms ys monthdays
      else Some (ds, ms, ys, monthdays)
  end.

(** [while (working.days < 1)] *)
Fixpoint days_up (fuel : nat) (ds ms ys : Z) : option (Z * Z * Z) :=
  match fuel with
  | O => None
  | S fuel =>
      if ds <? 1 then
        let ms := ms - 1 in
        let* (ms, ys) := (if ms <? 1 then let* ys := chk32 (ys - 1) in Some (ms + 12, ys) else Some (ms, ys)) in
        let* monthdays := month_days ms ys in
        days_up fuel (ds + monthdays) ms ys
      else Some (ds, ms, ys)
  end.

(** A loop that counts a number down by one or more ends within this. *)
Definition rounds (x : Z) : nat := S (S (Z.to_nat (Z.abs x))).

Definition CFAbsoluteTimeAddGregorianUnits (at' : Z) (tz : timezone) (units : CFGregorianUnits) : option Z :=
  let* gdate := CFAbsoluteTimeGetGregorianDate at' tz in
  let* ys := chk32 (year gdate + years units) in
  let* ms := chk32 (month gdate + months units) in
  let* (ms, ys) := months_down (rounds ms) ms ys in
  let* (ms, ys) := months_up (rounds ms) ms ys in
  let* monthdays := month_days ms ys in
  let ds := if monthdays <? day gdate then monthdays else day gdate in
  let* ds := chk32 (ds + days units) in
  let* (ds, ms, ys, monthdays) := days_down (rounds ds) ds ms ys monthdays in
  let* (ds, ms, ys) := days_up (rounds ds) ds ms ys in
  let gdate := mkGDate ys (swrap 8 ms) (swrap 8 ds) (hour gdate) (minute gdate) (second gdate) in
  let* candidate_at0 := CFGregorianDateGetAbsoluteTime gdate tz in
  Some (candidate_at0 + 3600 * hours units + 60 * minutes units + seconds units).

(** ** Days of the week and of the year *)

Definition CFAbsoluteTimeGetDayOfWeek (at' : Z) (tz : timezone) : Z :=
  let absolute := fixed_time at' tz / 86400 in
  if absolute <? 0 then Z.rem (absolute + 1) 7 + 7 else Z.rem absolute 7 + 1.

Definition CFAbsoluteTimeGetDayOfYear (at' : Z) (tz : timezone) : option Z :=
  let absolute := fixed_time at' tz / 86400 in
  let* (y, m, d) := __CFYMDFromAbsolute absolute in
  let* before := __CFDaysBeforeMonth m y (isleap y) in
  Some (before + d).

Definition CFAbsoluteTimeGetWeekOfYear (at' : Z) (tz : timezone) : option Z :=
  let absolute := fixed_time at' tz / 86400 in
  let* (y, m, d) := __CFYMDFromAbsolute absolute in
  let* absolute0101 := __CFAbsoluteFromYMD y 1 1 in
  let dow0101 := __CFDoubleModToInt absolute0101 7 + 1 in
  if (1 =? m) && (d <? 4) &&
     (((d <? 4) && (5 =? dow0101)) || ((d <? 3) && (6 =? dow0101)) || ((d <? 2) && (7 =? dow0101)))
  then Some 53 else
  let* next := (if (12 =? m) && (28 <? d) then
      let* absolute20101 := __CFAbsoluteFromYMD (y + 1) 1 1 in
      let dow20101 := __CFDoubleModToInt absolute20101 7 + 1 in
      Some (((28 <? d) && (4 =? dow20101)) || ((29 <? d) && (3 =? dow20101)) || ((30 <? d) && (2 =? dow20101)))
    else Some false) in
  if next then Some 1 else
  let* before := __CFDaysBeforeMonth m y (isleap y) in
  Some (Z.quot (before + d + Z.rem (dow0101 - 11) 7 + 2) 7 + 1).

(** ** Differences *)

(** [((int32_t * )&units)[idx]], read and written. *)
Definition unit_at (units : CFGregorianUnits) (idx : nat) : Z :=
  match idx with
  | 0 => years units | 1 => months units | 2 => days units | 3 => hours units | _ => minutes units
  end%nat.

Definition set_unit (units : CFGregorianUnits) (idx : nat) (v : Z) : CFGregorianUnits :=
  match idx with
  | 0 => mkUnits v (months units) (days units) (hours units) (minutes units) (seconds units)
  | 1 => mkUnits (years units) v (days units) (hours units) (minutes units) (seconds units)
  | 2 => mkUnits (years units) (months units) v (hours units) (minutes units) (seconds units)
  | 3 => mkUnits (years units) (months units) (days units) v (minutes units) (seconds units)
  | _ => mkUnits (years units) (months units) (days units) (hours units) v (seconds units)
  end%nat.

Definition unit_seconds : list Z := [366 * 24 * 3600; 31 * 24 * 3600; 24 * 3600; 3600; 60].

(** The [do .. while] loop: ends with the last unit count that does not pass
    [at1], and the time it leads to. *)
Fixpoint approach (fuel : nat) (at1 at2 : Z) (tz : timezone) (incr : Z) (idx : nat) (units : CFGregorianUnits) (atnew : Z) :
    option (CFGregorianUnits * Z) :=
  match fuel with
  | O => None
  | S fuel =>
      let atold := atnew in
      let* u := chk32 (unit_at units idx + incr) in
      let units := set_unit units idx u in
      let* atnew := CFAbsoluteTimeAddGregorianUnits at2 tz units in
      if ((1 =? incr) && (atnew <=? at1)) || ((-1 =? incr) && (at1 <=? atnew))
      then approach fuel at1 at2 tz incr idx units atnew
      else let* u := chk32 (u - incr) in Some (set_unit units idx u, atold)
  end.

(** The shortest length of each unit bounds how far off the first guess is. *)
Definition unit_least : list Z := [365 * 24 * 3600; 28 * 24 * 3600; 24 * 3600; 3600; 60].

Definition approach_fuel (idx : nat) (gap : Z) : nat := Z.to_nat (Z.abs gap / default 1 (unit_least !! idx)) + 10.

(** [for (idx = 0; idx < 5; idx++)] *)
Fixpoint difference_loop (idxs : list nat) (at1 at2 : Z) (tz : timezone) (incr unitFlags : Z)
    (units : CFGregorianUnits) (atnew : Z) : option (CFGregorianUnits * Z) :=
  match idxs with
  | [] => Some (units, atnew)
  | idx :: idxs =>
      let* (units, atnew) :=
        (if has_flag unitFlags (Z.shiftl 1 (Z.of_nat idx)) then
           let* s := unit_seconds !! idx in
           let* q := chk32 (Z.quot (at1 - atnew) s) in
           let* u := chk32 (-3 * incr + q) in
           approach (approach_fuel idx (at1 - atnew)) at1 at2 tz incr idx (set_unit units idx u) atnew
         else Some (units, atnew)) in
      difference_loop idxs at1 at2 tz incr unitFlags units atnew
  end.

Definition CFAbsoluteTimeGetDifferenceAsGregorianUnits (at1 at2 : Z) (tz : timezone) (unitFlags : Z) :
    option CFGregorianUnits :=
  let incr := if at2 <? at1 then 1 else -1 in
  let* (units, atnew) := difference_loop [0; 1; 2; 3; 4]%nat at1 at2 tz incr unitFlags (mkUnits 0 0 0 0 0 0) at2 in
  Some (if has_flag unitFlags kCFGregorianUnitsSeconds
        then mkUnits (years units) (months units) (days units) (hours units) (minutes units) (at1 - atnew)
        else units).

(** ** The proleptic Gregorian calendar *)

Definition gregorian_leap (Y : Z) : bool :=
  (Y mod 4 =? 0) && (negb (Y mod 100 =? 0) || (Y mod 400 =? 0)).

(** Days from 2001-01-01 to the first day of year 2001 + [y]. *)
Definition days_before_year (y : Z) : Z := 365 * y + y / 4 - y / 100 + y / 400.

Definition year_length (y : Z) : Z := 365 + Z.b2z (gregorian_leap (y + 2001)).

Definition month_length (y m : Z) : Z := default 0 (rd daysInMonth m) + Z.b2z ((2 =? m) && gregorian_leap (y + 2001)).

Definition days_before_month (y m : Z) : Z := default 0 (rd daysBeforeMonth m) + Z.b2z ((2 <? m) && gregorian_leap (y + 2001)).

Record date_ok (y m d : Z) : Prop := {
  month_ok : 1 <= m <= 12;
  day_ok : 1 <= d <= month_length y m
}.

(** The number of the day of a date. *)
Definition day_number (y m d : Z) : Z := days_before_year y + days_before_month y m + d - 1.

(** The test of the source on the absolute remainder. *)
Definition leap_remainder (r : Z) : bool :=
  (0 =? Z.land r 3) && negb (100 =? r) && negb (200 =? r) && negb (300 =? r).

Lemma leap_mod400 Y : gregorian_leap Y = gregorian_leap (Y mod 400).
Proof.
  unfold gregorian_leap. rewrite (Z.mod_mod Y 400) by lia.
  assert ((Y mod 400) mod 4 = Y mod 4) as -> by (Z.to_euclidean_division_equations; lia).
  assert ((Y mod 400) mod 100 = Y mod 100) as -> by (Z.to_euclidean_division_equations; lia). done.
Qed.

Lemma leap_remainder_ok r : 0 <= r < 400 ->
  leap_remainder r = gregorian_leap r /\ leap_remainder (400 - r) = gregorian_leap r.
Proof.
  intros Hr. pose proof (forall_below (fun r => eqb (leap_remainder r) (gregorian_leap r) && eqb (leap_remainder (400 - r)) (gregorian_leap r))
    400 ltac:(vm_compute; reflexivity) r ltac:(lia)) as H. cbv beta in H.
  apply andb_true_iff in H as [H1%eqb_prop H2%eqb_prop]. done.
Qed.

Lemma isleap_spec y : isleap y = gregorian_leap (y + 2001).
Proof.
  rewrite leap_mod400. assert ((y + 2001) mod 400 = (y + 1) mod 400) as -> by (Z.to_euclidean_division_equations; lia).
  pose proof (Z.mod_pos_bound (y + 1) 400 ltac:(lia)) as Hb. destruct (leap_remainder_ok _ Hb) as [H1 H2].
  unfold isleap. fold (leap_remainder (if Z.rem (y + 1) 400 <? 0 then - Z.rem (y + 1) 400 else Z.rem (y + 1) 400)).
  destruct (Z.ltb_spec (Z.rem (y + 1) 400) 0).
  - replace (- Z.rem (y + 1) 400) with (400 - (y + 1) mod 400) by (Z.to_euclidean_division_equations; lia). done.
  - replace (Z.rem (y + 1) 400) with ((y + 1) mod 400) by (Z.to_euclidean_division_equations; lia). done.
Qed.

Lemma days_before_year_succ y : days_before_year (y + 1) = days_before_year y + year_length y.
Proof.
  unfold days_before_year, year_length, gregorian_leap.
  destruct (Z.eqb_spec ((y + 2001) mod 4) 0), (Z.eqb_spec ((y + 2001) mod 100) 0), (Z.eqb_spec ((y + 2001) mod 400) 0);
    simpl Z.b2z; Z.to_euclidean_division_equations; lia.
Qed.

Lemma year_length_bounds y : 365 <= year_length y <= 366.
Proof. unfold year_length. destruct (gregorian_leap _); simpl; lia. Qed.

Lemma days_before_year_400 y b : days_before_year (y + b * 400) = days_before_year y + b * 146097.
Proof. unfold days_before_year. Z.to_euclidean_division_equations; lia. Qed.

Lemma leap_400 y b : gregorian_leap (y + b * 400 + 2001) = gregorian_leap (y + 2001).
Proof. rewrite leap_mod400, (leap_mod400 (y + 2001)). f_equal. Z.to_euclidean_division_equations; lia. Qed.

(** The tables. *)
Lemma days_after_0 y : __CFDaysAfterMonth 0 y (isleap y) = Some (year_length y).
Proof. unfold __CFDaysAfterMonth, year_length. rewrite isleap_spec. done. Qed.

Lemma days_before_spec y m leap : 0 <= m < 16 -> leap = gregorian_leap (y + 2001) ->
  forall y', __CFDaysBeforeMonth m y' leap = Some (days_before_month y m).
Proof.
  intros Hm -> y'. unfold __CFDaysBeforeMonth, days_before_month.
  destruct (rd_Some daysBeforeMonth m) as [v ->]; [simpl; lia|]. done.
Qed.

Lemma days_in_spec y m leap : 0 <= m < 16 -> leap = gregorian_leap (y + 2001) ->
  forall y', __CFDaysInMonth m y' leap = Some (month_length y m).
Proof.
  intros Hm -> y'. unfold __CFDaysInMonth, month_length. destruct (rd_Some daysInMonth m) as [v ->]; [simpl; lia|]. done.
Qed.

(** The months partition the year. *)
Lemma months_cover y m : 1 <= m <= 12 ->
  days_before_month y (m + 1) = days_before_month y m + month_length y m /\ 28 <= month_length y m <= 31 /\
  0 <= days_before_month y m.
Proof.
  intros Hm. unfold days_before_month, month_length.
  assert (m = 1 \/ m = 2 \/ m = 3 \/ m = 4 \/ m = 5 \/ m = 6 \/ m = 7 \/ m = 8 \/ m = 9 \/ m = 10 \/ m = 11 \/ m = 12) as Hc by lia.
  repeat destruct Hc as [-> |Hc]; try subst m; destruct (gregorian_leap (y + 2001)); vm_compute; repeat split; discriminate.
Qed.

Lemma year_is_months y : days_before_month y 1 = 0 /\ days_before_month y 13 = year_length y.
Proof. unfold days_before_month, year_length. destruct (gregorian_leap (y + 2001)); done. Qed.

(** ** From a day number to a date *)

Lemma back_years_spec fuel : forall a y,
  (1 <= fuel)%nat -> - a <= 365 * (Z.of_nat fuel - 1) ->
  exists a' y', back_years fuel a y = Some (a', y') /\ 0 <= a' <= Z.max a 366 /\
    days_before_year y' + a' = days_before_year y + a.
Proof.
  induction fuel as [|fuel IH]; intros a y H1 H2; [lia|]. cbn [back_years]. destruct (Z.ltb_spec a 0).
  - rewrite days_after_0. cbn [opt_bind]. pose proof (year_length_bounds (y - 1)) as Hb.
    pose proof (days_before_year_succ (y - 1)) as Hs. replace (y - 1 + 1) with y in Hs by lia.
    destruct (IH (a + year_length (y - 1)) (y - 1)) as (a' & y' & -> & H3 & H4); [lia..|].
    exists a', y'. split_and!; [done|lia..].
  - exists a, y. split_and!; [done|lia..].
Qed.

Lemma forward_years_spec fuel : forall a y,
  0 <= a < 365 * Z.of_nat fuel ->
  exists a' y', forward_years fuel a y (year_length y) = Some (a', y') /\ 0 <= a' < year_length y' /\
    days_before_year y' + a' = days_before_year y + a.
Proof.
  induction fuel as [|fuel IH]; intros a y H; [lia|]. cbn [forward_years]. pose proof (year_length_bounds y) as Hb.
  destruct (Z.leb_spec (year_length y) a).
  - rewrite days_after_0. cbn [opt_bind]. pose proof (days_before_year_succ y) as Hs.
    destruct (IH (a - year_length y) (y + 1)) as (a' & y' & -> & H3 & H4); [lia..|].
    exists a', y'. split_and!; [done|lia..].
  - exists a, y. split_and!; [done|lia..].
Qed.

Lemma month_search_spec leap a : 0 <= a < 365 + Z.b2z leap ->
  exists m, month_search 13 (Z.quot a 33 + 1) 0 leap a = Some m /\ 1 <= m <= 12 /\
    exists b b', __CFDaysBeforeMonth m 0 leap = Some b /\ __CFDaysBeforeMonth (m + 1) 0 leap = Some b' /\ b <= a < b'.
Proof.
  intros Ha.
  set (P := fun a => match month_search 13 (Z.quot a 33 + 1) 0 leap a with
    | Some m => (1 <=? m) && (m <=? 12) &&
        match __CFDaysBeforeMonth m 0 leap, __CFDaysBeforeMonth (m + 1) 0 leap with
        | Some b, Some b' => (b <=? a) && (a <? b') | _, _ => false end
    | None => false end || negb (a <? 365 + Z.b2z leap)).
  pose proof (forall_below P 366 ltac:(destruct leap; vm_compute; reflexivity) a) as H.
  destruct leap; simpl Z.b2z in *; specialize (H ltac:(lia)); unfold P in H; simpl Z.b2z in H;
    rewrite (proj2 (Z.ltb_lt _ _) (proj2 Ha)), orb_false_r in H;
    (destruct (month_search _ _ _ _ _) as [m|]; [|done]); rewrite !andb_true_iff, !Z.leb_le in H; destruct H as [[Hm1 Hm2] H];
    exists m; (split; [done|]); (split; [lia|]);
    (destruct (__CFDaysBeforeMonth m _ _) as [b|]; [|done]); (destruct (__CFDaysBeforeMonth (m + 1) _ _) as [b'|]; [|done]);
    exists b, b'; rewrite andb_true_iff, Z.leb_le, Z.ltb_lt in H; done.
Qed.

Lemma month_search_year fuel m y leap a : month_search fuel m y leap a = month_search fuel m 0 leap a.
Proof. revert m. induction fuel as [|fuel IH]; intros m; [done|]. simpl. unfold __CFDaysBeforeMonth. destruct (rd _ _); [|done]. simpl. by rewrite IH. Qed.

Lemma ymd_from_absolute_spec a :
  exists y m d, __CFYMDFromAbsolute a = Some (y, m, d) /\ date_ok y m d /\ day_number y m d = a.
Proof.
  unfold __CFYMDFromAbsolute. cbv zeta. set (b := Z.quot a 146097).
  assert (- 146097 < a - b * 146097 < 146097) as Hr by (unfold b; Z.to_euclidean_division_equations; lia).
  destruct (back_years_spec 402 (a - b * 146097) (b * 400)) as (a1 & y1 & -> & H1 & H2); [lia..|]. cbn [opt_bind].
  rewrite days_after_0. cbn [opt_bind].
  destruct (forward_years_spec 402 a1 y1) as (a2 & y2 & -> & H3 & H4); [lia|]. cbn [opt_bind].
  pose proof (days_before_year_400 0 b) as H400. change (days_before_year 0) with 0 in H400. rewrite Z.add_0_l in H400.
  rewrite month_search_year.
  destruct (month_search_spec (isleap y2) a2) as (m & -> & Hm & d0 & d1 & E0 & E1 & Hd).
  { unfold year_length in H3. rewrite isleap_spec. done. }
  cbn [opt_bind].
  rewrite (days_before_spec y2 m) in E0 by (rewrite ?isleap_spec; done || lia). injection E0 as <-.
  rewrite (days_before_spec y2 (m + 1)) in E1 by (rewrite ?isleap_spec; done || lia). injection E1 as <-.
  rewrite (days_before_spec y2 m) by (rewrite ?isleap_spec; done || lia). cbn [opt_bind].
  destruct (months_cover y2 m Hm) as (Hc & _ & _).
  eexists _, _, _. split; [done|]. split; [split; lia|]. unfold day_number. lia.
Qed.

(** ** From a date to a day number *)

Lemma to_double_exact x : Z.abs x < 2 ^ 53 -> to_double x = x.
Proof.
  intros Hx. unfold to_double. destruct (Z.leb_spec (Z.log2 (Z.abs x) - 52) 0) as [|Hk]; [done|].
  assert (0 < Z.abs x) as Hp by (destruct (decide (x = 0)) as [->|]; [change (Z.log2 (Z.abs 0)) with 0 in Hk; lia|lia]).
  apply Z.log2_lt_pow2 in Hx; lia.
Qed.

Lemma sub_years_spec n : forall idx a, Z.abs a + 366 * Z.of_nat n < 2 ^ 53 ->
  sub_years n idx a = Some (a - (days_before_year (idx + Z.of_nat n) - days_before_year idx)).
Proof.
  induction n as [|n IH]; intros idx a Ha; cbn [sub_years].
  - rewrite Z.add_0_r. f_equal. lia.
  - rewrite days_after_0. cbn [opt_bind]. pose proof (year_length_bounds idx). rewrite to_double_exact, IH by lia. f_equal. pose proof (days_before_year_succ idx).
    replace (idx + Z.of_nat (S n)) with (idx + 1 + Z.of_nat n) by lia. lia.
Qed.

Lemma add_years_spec n : forall idx a, Z.abs a + 366 * Z.of_nat n < 2 ^ 53 ->
  add_years n idx a = Some (a + (days_before_year (idx + Z.of_nat n) - days_before_year idx)).
Proof.
  induction n as [|n IH]; intros idx a Ha; cbn [add_years].
  - rewrite Z.add_0_r. f_equal. lia.
  - rewrite days_after_0. cbn [opt_bind]. pose proof (year_length_bounds idx). rewrite to_double_exact, IH by lia. f_equal. pose proof (days_before_year_succ idx).
    replace (idx + Z.of_nat (S n)) with (idx + 1 + Z.of_nat n) by lia. lia.
Qed.

Lemma days_before_year_bounds y : Z.abs (days_before_year y - 365 * y) <= Z.abs y + 2.
Proof. unfold days_before_year. Z.to_euclidean_division_equations; lia. Qed.

Lemma days_before_month_bounds y m : 0 <= m < 16 -> 0 <= days_before_month y m <= 366.
Proof.
  intros Hm. unfold days_before_month. pose proof (forall_below (fun m => (0 <=? default 0 (rd daysBeforeMonth m)) && (default 0 (rd daysBeforeMonth m) <=? 365)) 16
    ltac:(vm_compute; reflexivity) m Hm) as Hb. cbv beta in Hb. apply andb_true_iff in Hb as [H1%Z.leb_le H2%Z.leb_le].
  destruct ((2 <? m) && _); cbn [Z.b2z]; lia.
Qed.

(** Exact while the day numbers are far below 2^53. *)
Lemma absolute_from_ymd_spec y m d : 0 <= m < 16 -> Z.abs y < 2 ^ 43 -> Z.abs d < 2 ^ 8 -> __CFAbsoluteFromYMD y m d = Some (day_number y m d).
Proof.
  intros Hm Hyb Hd. unfold __CFAbsoluteFromYMD. cbv zeta. set (b := Z.quot y 400). set (r := y - b * 400).
  assert (y = r + b * 400) as Hy by (unfold r; lia).
  assert (Z.abs r < 400) as Hr by (unfold r, b; Z.to_euclidean_division_equations; lia). assert (Z.abs b < 2 ^ 35) as Hb by (unfold b; Z.to_euclidean_division_equations; lia).
  rewrite (to_double_exact b), !to_double_exact by (rewrite ?to_double_exact; lia). rewrite Z.add_0_l. pose proof (days_before_year_bounds y) as Hdy. pose proof (days_before_month_bounds y m Hm) as Hdm.
  assert ((if r <? 0 then sub_years (Z.to_nat (- r)) r (b * 146097) else add_years (Z.to_nat r) 0 (b * 146097)) =
          Some (days_before_year y)) as ->.
  { rewrite Hy, days_before_year_400. destruct (Z.ltb_spec r 0).
    - rewrite sub_years_spec, Z2Nat.id by lia. replace (r + - r) with 0 by lia. change (days_before_year 0) with 0. f_equal. lia.
    - rewrite add_years_spec, Z2Nat.id by lia. rewrite Z.add_0_l. change (days_before_year 0) with 0. f_equal. lia. }
  cbn [opt_bind]. rewrite (days_before_spec y m).
  - cbn [opt_bind]. unfold day_number. rewrite to_double_exact by lia. f_equal. lia.
  - lia.
  - rewrite isleap_spec, Hy. by rewrite leap_400.
Qed.

(** ** Dates and day numbers correspond *)

Lemma days_before_month_mono y m m' : 1 <= m -> m < m' -> m' <= 13 -> days_before_month y (m + 1) <= days_before_month y m'.
Proof.
  intros H1 H2 H3. replace m' with (m + 1 + Z.of_nat (Z.to_nat (m' - m - 1))) by lia.
  assert (Z.to_nat (m' - m - 1) + Z.to_nat m <= 12)%nat as Hk by lia. revert Hk. generalize (Z.to_nat (m' - m - 1)) as k.
  induction k as [|k IH]; intros Hk; [rewrite Z.add_0_r; lia|]. specialize (IH ltac:(lia)).
  destruct (months_cover y (m + 1 + Z.of_nat k)) as (Hc & ? & _); [lia|].
  replace (m + 1 + Z.of_nat (S k)) with (m + 1 + Z.of_nat k + 1) by lia. lia.
Qed.

Lemma day_number_in_year y m d : date_ok y m d ->
  days_before_year y <= day_number y m d < days_before_year (y + 1).
Proof.
  intros [Hm Hd]. rewrite days_before_year_succ. unfold day_number. destruct (months_cover y m Hm) as (Hc & _ & H0).
  destruct (year_is_months y) as [_ H13]. split; [lia|]. rewrite <- H13.
  destruct (decide (m = 12)) as [->|Hne]; [change (12 + 1) with 13 in *; lia|].
  pose proof (days_before_month_mono y m 13 ltac:(lia) ltac:(lia) ltac:(lia)). lia.
Qed.

Lemma days_before_year_mono y y' : y <= y' -> days_before_year y <= days_before_year y'.
Proof.
  intros H. replace y' with (y + Z.of_nat (Z.to_nat (y' - y))) by lia. generalize (Z.to_nat (y' - y)) as k. clear.
  induction k as [|k IH]; [rewrite Z.add_0_r; lia|]. pose proof (days_before_year_succ (y + Z.of_nat k)).
  pose proof (year_length_bounds (y + Z.of_nat k)). replace (y + Z.of_nat (S k)) with (y + Z.of_nat k + 1) by lia. lia.
Qed.

Lemma day_number_inj y m d y' m' d' :
  date_ok y m d -> date_ok y' m' d' -> day_number y m d = day_number y' m' d' -> y = y' /\ m = m' /\ d = d'.
Proof.
  intros H H' E. pose proof (day_number_in_year _ _ _ H) as B. pose proof (day_number_in_year _ _ _ H') as B'.
  assert (y = y') as <-.
  { destruct (Z.lt_trichotomy y y') as [Hlt|[?|Hlt]]; [|done|].
    - pose proof (days_before_year_mono (y + 1) y' ltac:(lia)). lia.
    - pose proof (days_before_year_mono (y' + 1) y ltac:(lia)). lia. }
  destruct H as [Hm Hd], H' as [Hm' Hd']. unfold day_number in E.
  destruct (months_cover y m Hm) as (Hc & _), (months_cover y m' Hm') as (Hc' & _).
  assert (m = m') as <-.
  { destruct (Z.lt_trichotomy m m') as [Hlt|[?|Hlt]]; [|done|].
    - pose proof (days_before_month_mono y m m' ltac:(lia) Hlt ltac:(lia)). lia.
    - pose proof (days_before_month_mono y m' m ltac:(lia) Hlt ltac:(lia)). lia. }
  split_and!; [done..|lia].
Qed.

Lemma day_small y m d : date_ok y m d -> Z.abs d < 2 ^ 8.
Proof.
  intros [Hm Hd]. assert (month_length y m <= 32) as Hl; [|lia]. unfold month_length.
  pose proof (forall_below (fun m => default 0 (rd daysInMonth m) <=? 31) 16 ltac:(vm_compute; reflexivity) m ltac:(lia)) as Hb%Z.leb_le.
  destruct ((2 =? m) && _); cbn [Z.b2z]; lia.
Qed.

Lemma ymd_of_day_number y m d : date_ok y m d -> __CFYMDFromAbsolute (day_number y m d) = Some (y, m, d).
Proof.
  intros H. destruct (ymd_from_absolute_spec (day_number y m d)) as (y' & m' & d' & -> & H' & E).
  destruct (day_number_inj _ _ _ _ _ _ H' H E) as (-> & -> & ->). done.
Qed.

(** ** Properties of the calendar *)

(** C27: day numbers below 2^51 in magnitude and valid dates of the proleptic
    Gregorian calendar within 2^42 years of 2001 correspond one to one: every such
    day number converts to a valid date, whose number it is, and every such date
    converts to a number that converts back; all loops end, all table accesses are
    in range and no sum is rounded. *)
Theorem CFDate_day_numbers_bijective :
  (forall a, Z.abs a < 2 ^ 51 ->
     exists y m d, __CFYMDFromAbsolute a = Some (y, m, d) /\ date_ok y m d /\ __CFAbsoluteFromYMD y m d = Some a) /\
  (forall y m d, Z.abs y < 2 ^ 42 -> date_ok y m d ->
     __CFAbsoluteFromYMD y m d = Some (day_number y m d) /\ __CFYMDFromAbsolute (day_number y m d) = Some (y, m, d)).
Proof.
  split.
  - intros a Ha. destruct (ymd_from_absolute_spec a) as (y & m & d & E & H & <-). exists y, m, d. split_and!; [done|done|].
    apply absolute_from_ymd_spec; [by destruct H; lia| |by eapply day_small].
    pose proof (day_number_in_year y m d H). pose proof (days_before_year_bounds y). pose proof (days_before_year_bounds (y + 1)). lia.
  - intros y m d Hy H. split; [apply absolute_from_ymd_spec; [by destruct H; lia|lia|by eapply day_small]|by apply ymd_of_day_number].
Qed.

Lemma CFDate_day_numbers_bijective_witness :
  (exists y m d, __CFYMDFromAbsolute (-300000000) = Some (y, m, d) /\ date_ok y m d /\ __CFAbsoluteFromYMD y m d = Some (-300000000)) /\
  __CFAbsoluteFromYMD 23 2 29 = Some (day_number 23 2 29) /\ __CFYMDFromAbsolute (day_number 23 2 29) = Some (23, 2, 29).
Proof.
  split; [apply (proj1 CFDate_day_numbers_bijective (-300000000)); lia|].
  apply (proj2 CFDate_day_numbers_bijective 23 2 29); [lia|]. split; [lia|vm_compute; split; discriminate].
Defined.

(** From 2^53 on the sum that gives the day number is rounded. *)
Lemma day_number_rounded :
  __CFYMDFromAbsolute (2 ^ 53 + 1) = Some (24660873952897, 1, 11) /\ __CFAbsoluteFromYMD 24660873952897 1 11 = Some (2 ^ 53).
Proof. split; vm_compute; reflexivity. Qed.

(** A zone without transitions: the same offset [c] at all times. *)
Definition fixed_offset (tz : timezone) (c : Z) : Prop :=
  match tz with None => c = 0 | Some f => forall t, f t = c end.

Lemma fixed_time_offset at' tz c : fixed_offset tz c -> fixed_time at' tz = at' + c.
Proof. unfold fixed_offset, fixed_time. destruct tz; [intros H; by rewrite H|by intros ->]. Qed.

Lemma double_mod d n : 0 < n -> __CFDoubleModToInt d n = d mod n /\ __CFDoubleMod d n = d mod n.
Proof.
  intros Hn. unfold __CFDoubleModToInt, __CFDoubleMod. rewrite (Z.mod_eq d n) by lia. rewrite (Z.mul_comm n).
  pose proof (Z.mod_pos_bound d n Hn) as H. rewrite Z.mod_eq, Z.mul_comm in H by lia.
  destruct (Z.ltb_spec (d - d / n * n) 0); [lia|done].
Qed.

Lemma year_bounds a y m d : date_ok y m d -> day_number y m d = a -> Z.abs a < 2 ^ 36 -> - 2 ^ 29 < y < 2 ^ 29.
Proof.
  intros H E Ha. pose proof (day_number_in_year y m d H) as B. rewrite E in B. unfold days_before_year in B.
  Z.to_euclidean_division_equations; lia.
Qed.

(** The date of a time, for times within 2^52 seconds of the reference. *)
Lemma gregorian_date_spec at' tz c :
  fixed_offset tz c -> Z.abs (at' + c) < 2 ^ 52 ->
  exists y m d, CFAbsoluteTimeGetGregorianDate at' tz =
      Some (mkGDate (y + 2001) m d (((at' + c) / 3600) mod 24) (((at' + c) / 60) mod 60) ((at' + c) mod 60)) /\
    date_ok y m d /\ day_number y m d = (at' + c) / 86400 /\ - 2 ^ 29 < y < 2 ^ 29.
Proof.
  intros Htz Hat. unfold CFAbsoluteTimeGetGregorianDate. rewrite (fixed_time_offset _ _ _ Htz). cbv zeta.
  destruct (ymd_from_absolute_spec ((at' + c) / 86400)) as (y & m & d & -> & H & E). cbn [opt_bind].
  pose proof (year_bounds _ _ _ _ H E) as Hy.
  assert (- 2 ^ 29 < y < 2 ^ 29) as Hb by (apply Hy; apply Z.abs_lt; Z.to_euclidean_division_equations; lia).
  exists y, m, d. split; [|done]. destruct (Z.ltb_spec (INT32_MAX - 2001) y); [unfold INT32_MAX in *; lia|].
  rewrite swrap_id by (unfold in_signed; lia).
  do 2 f_equal; by apply double_mod.
Qed.

Lemma chk32_ok x : - 2 ^ 31 <= x < 2 ^ 31 -> chk32 x = Some x.
Proof. intros. unfold chk32. bool_case. done. Qed.

Lemma absolute_time_spec g tz c :
  fixed_offset tz c -> - 2 ^ 31 <= year g - 2001 < 2 ^ 31 -> 0 <= month g < 16 -> Z.abs (day g) < 2 ^ 8 ->
  CFGregorianDateGetAbsoluteTime g tz =
    Some (86400 * day_number (year g - 2001) (month g) (day g) + 3600 * hour g + 60 * minute g + second g - c).
Proof.
  intros Htz Hy Hm Hd. unfold CFGregorianDateGetAbsoluteTime. rewrite chk32_ok by lia. cbn [opt_bind].
  rewrite absolute_from_ymd_spec by lia. cbn [opt_bind]. cbv zeta. f_equal.
  destruct tz as [f|]; simpl in Htz; [rewrite Htz|]; lia.
Qed.

(** A valid moment of the calendar in the range considered. *)
Record moment_ok (g : CFGregorianDate) : Prop := {
  mo_date : date_ok (year g - 2001) (month g) (day g);
  mo_year : Z.abs (year g - 2001) < 2 ^ 26;
  mo_hour : 0 <= hour g < 24;
  mo_minute : 0 <= minute g < 60;
  mo_second : 0 <= second g < 60
}.

Lemma seconds_of_day s : s = 86400 * (s / 86400) + 3600 * ((s / 3600) mod 24) + 60 * ((s / 60) mod 60) + s mod 60.
Proof. Z.to_euclidean_division_equations; lia. Qed.

Lemma date_valid g :
  date_ok (year g - 2001) (month g) (day g) -> 0 <= hour g < 24 -> 0 <= minute g < 60 -> 0 <= second g < 60 ->
  0 < year g < 2 ^ 31 -> CFGregorianDateIsValid g kCFGregorianAllUnits = Some true.
Proof.
  intros [Hm Hd] Hh Hmi Hs Hy. destruct (months_cover (year g - 2001) (month g) Hm) as (_ & Hl & _).
  unfold CFGregorianDateIsValid. change (has_flag kCFGregorianAllUnits _) with true.
  repeat change (has_flag kCFGregorianAllUnits _) with true. cbn [andb].
  rewrite chk32_ok by lia. cbn [opt_bind]. rewrite (days_in_spec (year g - 2001)) by (rewrite ?isleap_spec; done || lia). cbn [opt_bind].
  bool_case. done.
Qed.

(** In GMT or a zone with a fixed offset, a time of at most 2^52 seconds
    converts to a date with all fields in range (and accepted as valid when
    its year is positive) that converts back to it, and
    a valid date of a year within 2^26 years converts to a time that converts
    back to the same date. *)
Lemma CFGregorianDate_roundtrip tz c :
  fixed_offset tz c ->
  (forall at', Z.abs (at' + c) < 2 ^ 52 ->
     exists g, CFAbsoluteTimeGetGregorianDate at' tz = Some g /\
       date_ok (year g - 2001) (month g) (day g) /\ 0 <= hour g < 24 /\ 0 <= minute g < 60 /\ 0 <= second g < 60 /\
       (0 < year g -> CFGregorianDateIsValid g kCFGregorianAllUnits = Some true) /\
       CFGregorianDateGetAbsoluteTime g tz = Some at') /\
  (forall g, moment_ok g ->
     exists at', CFGregorianDateGetAbsoluteTime g tz = Some at' /\ CFAbsoluteTimeGetGregorianDate at' tz = Some g).
Proof.
  intros Htz. split.
  - intros at' Hat. destruct (gregorian_date_spec at' tz c Htz Hat) as (y & m & d & E & H & Hn & Hy).
    eexists. split; [exact E|]. cbn [year month day hour minute second]. replace (y + 2001 - 2001) with y by lia.
    split_and!; [done|apply Z.mod_pos_bound; lia..| |].
    { intros Hpos. apply date_valid; cbn [year month day hour minute second]; [by replace (y + 2001 - 2001) with y by lia|apply Z.mod_pos_bound; lia..|lia]. }
    rewrite (absolute_time_spec _ tz c Htz); cbn [year month day hour minute second]; [|lia|destruct H; lia|by eapply day_small].
    replace (y + 2001 - 2001) with y by lia. rewrite Hn. f_equal. pose proof (seconds_of_day (at' + c)). lia.
  - intros [Y m d h mi s] [H Hy Hh Hmi Hs]. cbn [year month day hour minute second] in *.
    eexists. split; [apply (absolute_time_spec _ tz c Htz); cbn [year month day]; [destruct H; lia..|by eapply day_small]|]. cbn [year month day hour minute second].
    set (n := day_number (Y - 2001) m d). set (t := 86400 * n + 3600 * h + 60 * mi + s).
    replace (86400 * n + 3600 * h + 60 * mi + s - c) with (t - c) by (unfold t; lia).
    assert (t / 86400 = n) as Hdiv by (unfold t; clearbody n; Z.to_euclidean_division_equations; lia).
    destruct (gregorian_date_spec (t - c) tz c Htz) as (y & m' & d' & E & H' & Hn & _).
    { pose proof (day_number_in_year _ _ _ H) as B. fold n in B. unfold days_before_year in B.
      assert (Z.abs n < 2 ^ 35) by (clearbody n; Z.to_euclidean_division_equations; lia). unfold t. lia. }
    replace (t - c + c) with t in * by lia. rewrite E. rewrite Hdiv in Hn. unfold n in Hn.
    destruct (day_number_inj _ _ _ _ _ _ H' H Hn) as (-> & -> & ->). do 2 f_equal; [lia|..]; unfold t; clearbody n; Z.to_euclidean_division_equations; lia.
Qed.

(** ** Adding units *)

Lemma next_month_number y m : 1 <= m <= 12 ->
  day_number (if 12 <? m + 1 then y + 1 else y) (if 12 <? m + 1 then m + 1 - 12 else m + 1) 1 =
  day_number y m 1 + month_length y m.
Proof.
  intros Hm. unfold day_number. destruct (months_cover y m Hm) as (Hc & _). destruct (Z.ltb_spec 12 (m + 1)).
  - assert (m = 12) as -> by lia. rewrite days_before_year_succ. destruct (year_is_months y) as [_ H13].
    destruct (year_is_months (y + 1)) as [H1 _]. change (12 + 1 - 12) with 1. change (12 + 1) with 13 in Hc. lia.
  - lia.
Qed.

Lemma months_down_spec fuel : forall ms ys,
  (1 <= fuel)%nat -> ms - 12 < Z.of_nat fuel -> Z.abs ys + Z.abs ms < 2 ^ 31 ->
  exists ms' ys', months_down fuel ms ys = Some (ms', ys') /\ 12 * ys' + ms' = 12 * ys + ms /\ ms' <= 12 /\
    (ms <= 12 -> ms' = ms) /\ (12 < ms -> 1 <= ms').
Proof.
  induction fuel as [|fuel IH]; intros ms ys H1 H2 H3; [lia|]. cbn [months_down]. destruct (Z.ltb_spec 12 ms).
  - rewrite chk32_ok by lia. cbn [opt_bind].
    destruct (IH (ms - 12) (ys + 1)) as (ms' & ys' & -> & E & Hle & Hk & Hg); [lia..|].
    exists ms', ys'. split_and!; [done|lia..|]. intros _. destruct (Z.le_gt_cases (ms - 12) 12); [rewrite Hk; lia|auto].
  - exists ms, ys. split_and!; [done|lia..].
Qed.

Lemma months_up_spec fuel : forall ms ys,
  (1 <= fuel)%nat -> 1 - ms < Z.of_nat fuel -> ms <= 12 -> Z.abs ys + Z.max 0 (1 - ms) < 2 ^ 31 ->
  exists ms' ys', months_up fuel ms ys = Some (ms', ys') /\ 12 * ys' + ms' = 12 * ys + ms /\ 1 <= ms' <= 12.
Proof.
  induction fuel as [|fuel IH]; intros ms ys H1 H2 H3 H4; [lia|]. cbn [months_up]. destruct (Z.ltb_spec ms 1).
  - rewrite chk32_ok by lia. cbn [opt_bind].
    destruct (IH (ms + 12) (ys - 1)) as (ms' & ys' & -> & E & Hm); [lia..|]. exists ms', ys'. split_and!; [done|lia..].
  - exists ms, ys. split_and!; [done|lia..].
Qed.

Lemma month_days_spec ms ys : 1 <= ms <= 12 -> Z.abs ys < 2 ^ 30 + 2 ^ 29 -> month_days ms ys = Some (month_length (ys - 2001) ms).
Proof.
  intros. unfold month_days. rewrite chk32_ok by lia. cbn [opt_bind]. apply days_in_spec; [lia|apply isleap_spec].
Qed.

Lemma days_down_spec fuel : forall ds ms ys,
  (1 <= fuel)%nat -> ds - 28 < Z.of_nat fuel -> 1 <= ms <= 12 -> Z.abs ys + Z.max 0 ds < 2 ^ 30 + 2 ^ 29 ->
  exists ds' ms' ys' md', days_down fuel ds ms ys (month_length (ys - 2001) ms) = Some (ds', ms', ys', md') /\
    day_number (ys' - 2001) ms' 1 + ds' = day_number (ys - 2001) ms 1 + ds /\ 1 <= ms' <= 12 /\
    ds' <= month_length (ys' - 2001) ms' /\ (ds' = ds \/ 1 <= ds') /\ Z.abs ys' <= Z.abs ys + Z.max 0 ds.
Proof.
  induction fuel as [|fuel IH]; intros ds ms ys H1 H2 Hm Hy; [lia|]. cbn [days_down].
  destruct (months_cover (ys - 2001) ms Hm) as (_ & Hl & _). pose proof (next_month_number (ys - 2001) ms Hm) as Hnext.
  destruct (Z.ltb_spec (month_length (ys - 2001) ms) ds) as [Hd|Hd].
  - assert ((if 12 <? ms + 1 then let* ys := chk32 (ys + 1) in Some (ms + 1 - 12, ys) else Some (ms + 1, ys)) =
      Some (if 12 <? ms + 1 then ms + 1 - 12 else ms + 1, if 12 <? ms + 1 then ys + 1 else ys)) as ->.
    { destruct (12 <? ms + 1); [|done]. by rewrite chk32_ok by lia. }
    cbn [opt_bind]. set (ms1 := if 12 <? ms + 1 then ms + 1 - 12 else ms + 1) in *. set (ys1 := if 12 <? ms + 1 then ys + 1 else ys).
    assert (1 <= ms1 <= 12) as Hm1 by (unfold ms1; bool_case).
    assert (Z.abs ys1 <= Z.abs ys + 1) as Hy1 by (unfold ys1; bool_case).
    replace (if 12 <? ms + 1 then ys - 2001 + 1 else ys - 2001) with (ys1 - 2001) in Hnext by (unfold ys1; bool_case).
    rewrite month_days_spec by lia. cbn [opt_bind].
    destruct (IH (ds - month_length (ys - 2001) ms) ms1 ys1) as (ds' & ms' & ys' & md' & -> & E & Hm' & Hle & Hor & Hya); [lia..|].
    exists ds', ms', ys', md'. split_and!; [done|lia..].
  - exists ds, ms, ys, (month_length (ys - 2001) ms). split_and!; [done|lia..].
Qed.

Lemma days_up_spec fuel : forall ds ms ys,
  (1 <= fuel)%nat -> 1 - ds < Z.of_nat fuel -> 1 <= ms <= 12 -> Z.abs ys + Z.max 0 (1 - ds) < 2 ^ 30 + 2 ^ 29 ->
  ds <= month_length (ys - 2001) ms ->
  exists ds' ms' ys', days_up fuel ds ms ys = Some (ds', ms', ys') /\
    day_number (ys' - 2001) ms' 1 + ds' = day_number (ys - 2001) ms 1 + ds /\ 1 <= ms' <= 12 /\
    1 <= ds' <= month_length (ys' - 2001) ms' /\ Z.abs ys' < 2 ^ 30 + 2 ^ 29.
Proof.
  induction fuel as [|fuel IH]; intros ds ms ys H1 H2 Hm Hy Hle; [lia|]. cbn [days_up].
  destruct (Z.ltb_spec ds 1) as [Hd|Hd].
  - assert ((if ms - 1 <? 1 then let* ys := chk32 (ys - 1) in Some (ms - 1 + 12, ys) else Some (ms - 1, ys)) =
      Some (if ms - 1 <? 1 then ms - 1 + 12 else ms - 1, if ms - 1 <? 1 then ys - 1 else ys)) as ->.
    { destruct (ms - 1 <? 1); [|done]. by rewrite chk32_ok by lia. }
    cbn [opt_bind]. set (ms1 := if ms - 1 <? 1 then ms - 1 + 12 else ms - 1) in *. set (ys1 := if ms - 1 <? 1 then ys - 1 else ys).
    assert (1 <= ms1 <= 12) as Hm1 by (unfold ms1; bool_case).
    assert (Z.abs ys1 <= Z.abs ys + 1) as Hy1 by (unfold ys1; bool_case).
    pose proof (next_month_number (ys1 - 2001) ms1 Hm1) as Hnext. destruct (months_cover (ys1 - 2001) ms1 Hm1) as (_ & Hl & _).
    replace (if 12 <? ms1 + 1 then ys1 - 2001 + 1 else ys1 - 2001) with (ys - 2001) in Hnext by (unfold ms1, ys1; bool_case).
    replace (if 12 <? ms1 + 1 then ms1 + 1 - 12 else ms1 + 1) with ms in Hnext by (unfold ms1; bool_case).
    rewrite month_days_spec by lia. cbn [opt_bind].
    destruct (IH (ds + month_length (ys1 - 2001) ms1) ms1 ys1) as (ds' & ms' & ys' & -> & E & Hm' & Hd' & Hy'); [lia..|].
    exists ds', ms', ys'. split_and!; [done|lia..].
  - exists ds, ms, ys. split_and!; [done|lia..].
Qed.

(** The date [n] months after the first of a month, by month count. *)
Definition month_after (y m n : Z) : Z * Z := let M := 12 * y + (m - 1) + n in (M / 12, M mod 12 + 1).

(** The day number after adding years, months and days to a date: the months
    count as they come, the day is clamped to the month reached, then the
    days are added. *)
Definition added_day (y m d : Z) (units : CFGregorianUnits) : Z :=
  let '(y', m') := month_after y m (12 * years units + months units) in
  day_number y' m' (Z.min d (month_length y' m')) + days units.

Record small_units (units : CFGregorianUnits) : Prop := {
  su_years : Z.abs (years units) < 2 ^ 28;
  su_months : Z.abs (months units) < 2 ^ 28;
  su_days : Z.abs (days units) < 2 ^ 28
}.

Lemma add_units_spec at' tz c units :
  fixed_offset tz c -> Z.abs (at' + c) < 2 ^ 52 -> small_units units ->
  exists y m d, date_ok y m d /\ day_number y m d = (at' + c) / 86400 /\
    CFAbsoluteTimeAddGregorianUnits at' tz units =
      Some (at' + 86400 * (added_day y m d units - (at' + c) / 86400) +
            3600 * hours units + 60 * minutes units + seconds units).
Proof.
  intros Htz Hat [Hsy Hsm Hsd]. destruct (gregorian_date_spec at' tz c Htz Hat) as (y & m & d & E & [Hm Hd] & Hn & Hy).
  exists y, m, d. split; [done|]. split; [done|]. unfold CFAbsoluteTimeAddGregorianUnits. rewrite E. cbn [opt_bind year month day hour minute second].
  rewrite !chk32_ok by lia. cbn [opt_bind].
  destruct (months_down_spec (rounds (m + months units)) (m + months units) (y + 2001 + years units)) as (ms1 & ys1 & -> & E1 & H1 & H2 & H3);
    [unfold rounds; lia..|]. cbn [opt_bind].
  destruct (months_up_spec (rounds ms1) ms1 ys1) as (ms2 & ys2 & -> & E2 & Hm2); [unfold rounds; lia..|]. cbn [opt_bind].
  assert (month_after y m (12 * years units + months units) = (ys2 - 2001, ms2)) as Hma.
  { unfold month_after. replace (12 * y + (m - 1) + (12 * years units + months units)) with ((ms2 - 1) + (ys2 - 2001) * 12) by lia.
    rewrite Z.div_add, Z.mod_add, Z.div_small, Z.mod_small by lia. f_equal. lia. }
  unfold added_day. rewrite Hma. rewrite month_days_spec by lia. cbn [opt_bind].
  destruct (months_cover (ys2 - 2001) ms2 Hm2) as (_ & Hl & _).
  destruct (months_cover y m Hm) as (_ & Hl0 & _).
  set (dc := if month_length (ys2 - 2001) ms2 <? d then month_length (ys2 - 2001) ms2 else d).
  assert (dc = Z.min d (month_length (ys2 - 2001) ms2)) as <- by (unfold dc; bool_case).
  assert (1 <= dc <= 31) as Hdc by (unfold dc; bool_case). clearbody dc.
  rewrite chk32_ok by lia. cbn [opt_bind].
  destruct (days_down_spec (rounds (dc + days units)) (dc + days units) ms2 ys2) as (ds3 & ms3 & ys3 & md3 & -> & E3 & Hm3 & Hle3 & Hor3 & Hy3);
    [unfold rounds; lia..|]. cbn [opt_bind].
  destruct (days_up_spec (rounds ds3) ds3 ms3 ys3) as (ds4 & ms4 & ys4 & -> & E4 & Hm4 & Hd4 & Hy4); [unfold rounds; lia..|]. cbn [opt_bind].
  destruct (months_cover (ys4 - 2001) ms4 Hm4) as (_ & Hl4 & _).
  rewrite !swrap_id by (unfold in_signed; lia).
  rewrite (absolute_time_spec _ tz c Htz); cbn [year month day hour minute second]; [|lia..]. cbn [opt_bind].
  f_equal. pose proof (seconds_of_day (at' + c)) as Hs.
  assert (day_number (ys4 - 2001) ms4 ds4 = day_number (ys2 - 2001) ms2 dc + days units) as ->.
  { unfold day_number in *. lia. }
  lia.
Qed.

(** In GMT or a zone with a fixed offset, adding units moves the date by
    the years and months counted as months, clamps the day to the month
    reached, then adds the days, and keeps the time of day before the hours,
    minutes and seconds are added; no loop runs over and no [int] overflows
    for units below 2^28.  Without years and months it is plain addition. *)
Lemma CFAbsoluteTimeAddGregorianUnits_late_clamping at' tz c units :
  fixed_offset tz c -> Z.abs (at' + c) < 2 ^ 52 -> small_units units ->
  exists y m d, date_ok y m d /\ day_number y m d = (at' + c) / 86400 /\
    CFAbsoluteTimeAddGregorianUnits at' tz units =
      Some (at' + 86400 * (added_day y m d units - (at' + c) / 86400) +
            3600 * hours units + 60 * minutes units + seconds units) /\
    (years units = 0 -> months units = 0 -> CFAbsoluteTimeAddGregorianUnits at' tz units =
       Some (at' + 86400 * days units + 3600 * hours units + 60 * minutes units + seconds units)).
Proof.
  intros Htz Hat Hu. destruct (add_units_spec at' tz c units Htz Hat Hu) as (y & m & d & H & Hn & E).
  exists y, m, d. split_and!; [done..|]. intros Ey Em. rewrite E. f_equal. unfold added_day, month_after.
  rewrite Ey, Em. replace (12 * y + (m - 1) + (12 * 0 + 0)) with ((m - 1) + y * 12) by lia. destruct H as [Hm Hd].
  rewrite Z.div_add, Z.mod_add, Z.div_small, Z.mod_small by lia. rewrite Z.add_0_l. replace (m - 1 + 1) with m by lia.
  rewrite Z.min_l by lia. lia.
Qed.

(** ** Days of the week and of the year *)

(** The day of the week is 1 for Monday to 7 for Sunday and advances by
    one each day (2001-01-01 was a Monday); the day of the year counts from 1
    at January 1 and is at most the length of the year. *)
Lemma CFAbsoluteTime_day_of_week_and_year at' tz :
  CFAbsoluteTimeGetDayOfWeek at' tz = (fixed_time at' tz / 86400) mod 7 + 1 /\
  exists y m d, __CFYMDFromAbsolute (fixed_time at' tz / 86400) = Some (y, m, d) /\ date_ok y m d /\
    CFAbsoluteTimeGetDayOfYear at' tz = Some (fixed_time at' tz / 86400 - days_before_year y + 1) /\
    1 <= fixed_time at' tz / 86400 - days_before_year y + 1 <= year_length y.
Proof.
  unfold CFAbsoluteTimeGetDayOfWeek, CFAbsoluteTimeGetDayOfYear. cbv zeta. set (a := fixed_time at' tz / 86400). clearbody a. split.
  - destruct (Z.ltb_spec a 0); Z.to_euclidean_division_equations; lia.
  - destruct (ymd_from_absolute_spec a) as (y & m & d & -> & H & E). exists y, m, d. split_and!; [done|done| |..].
    + cbn [opt_bind]. rewrite (days_before_spec y m) by (destruct H; rewrite ?isleap_spec; done || lia). cbn [opt_bind].
      f_equal. unfold day_number in E. lia.
    + pose proof (day_number_in_year y m d H). lia.
    + pose proof (day_number_in_year y m d H) as B. rewrite days_before_year_succ in B. lia.
Qed.

(** ** Weeks *)

(** ISO 8601: weeks run from Monday to Sunday and belong to the year of their
    Thursday. *)
Definition thursday (a : Z) : Z := a - a mod 7 + 3.

Definition iso_week (a yt : Z) : Z := (thursday a - days_before_year yt) / 7 + 1.

Definition in_year (a y : Z) : Prop := days_before_year y <= a < days_before_year (y + 1).

(** The week in terms of the day of the year [D], the weekday [w] of January 1
    (0 for Monday) and the length [L] of the year. *)
Lemma week_cases D w L : 0 <= D < L -> 365 <= L <= 366 -> 0 <= w < 7 ->
  let T := D - (w + D) mod 7 + 3 in
  (T < 0 <-> D < 3 /\ ((w = 4) \/ (D < 2 /\ w = 5) \/ (D < 1 /\ w = 6))) /\
  (L <= T <-> L - D <= 3 /\ let w' := (w + L) mod 7 in (w' = 3 \/ (L - D <= 2 /\ w' = 2) \/ (L - D <= 1 /\ w' = 1))) /\
  (0 <= T < L -> Z.quot (D + 1 + Z.rem (w + 1 - 11) 7 + 2) 7 = T / 7).
Proof.
  intros HD HL Hw T. unfold T.
  assert (w = 0 \/ w = 1 \/ w = 2 \/ w = 3 \/ w = 4 \/ w = 5 \/ w = 6) as Hc by lia.
  assert (L = 365 \/ L = 366) as [-> | ->] by lia; repeat destruct Hc as [-> |Hc]; try subst w; split_and!;
    Z.to_euclidean_division_equations; lia.
Qed.

Lemma first_month y m d : date_ok y m d -> days_before_month y m + d <= 31 -> m = 1.
Proof.
  intros [Hm Hd] H. destruct (decide (m = 1)) as [|Hne]; [done|]. exfalso.
  assert (days_before_month y (1 + 1) <= days_before_month y m).
  { change (1 + 1) with 2. destruct (decide (m = 2)) as [->|]; [lia|]. destruct (months_cover y 2 ltac:(lia)) as (Hc & Hl & _).
    pose proof (days_before_month_mono y 2 m ltac:(lia) ltac:(lia) ltac:(lia)). lia. }
  destruct (months_cover y 1 ltac:(lia)) as (Hc & _). destruct (year_is_months y) as [H1 _]. rewrite H1 in Hc.
  assert (month_length y 1 = 31) as H31 by done. lia.
Qed.

Lemma last_month y m d : date_ok y m d -> year_length y - 31 < days_before_month y m + d -> m = 12.
Proof.
  intros [Hm Hd] H. destruct (decide (m = 12)) as [|Hne]; [done|]. exfalso.
  destruct (months_cover y m Hm) as (Hc & _). destruct (months_cover y 12 ltac:(lia)) as (Hc12 & _).
  destruct (year_is_months y) as [_ H13]. change (12 + 1) with 13 in Hc12. assert (month_length y 12 = 31) as H31 by done.
  pose proof (days_before_month_mono y m 12 ltac:(lia) ltac:(lia) ltac:(lia)). lia.
Qed.

Lemma month_one_number y : Z.abs y < 2 ^ 43 -> __CFAbsoluteFromYMD y 1 1 = Some (days_before_year y).
Proof. intros Hy. rewrite absolute_from_ymd_spec by lia. unfold day_number. destruct (year_is_months y) as [-> _]. f_equal. lia. Qed.

Ltac bool_prop := apply eq_true_iff_eq; rewrite ?orb_true_iff, ?andb_true_iff, ?Z.eqb_eq, ?Z.ltb_lt.

(** The week of the year is the ISO 8601 week (Monday to Sunday, in the
    year of the week's Thursday), except that the days of January that belong
    to the last week of the year before always get 53, also where that year
    has 52 weeks, as on Sunday, January 1, 2006. *)
Lemma CFAbsoluteTimeGetWeekOfYear_iso_or_53 at' tz :
  (Z.abs (fixed_time at' tz) < 2 ^ 53 -> exists y yt, in_year (fixed_time at' tz / 86400) y /\ in_year (thursday (fixed_time at' tz / 86400)) yt /\
     CFAbsoluteTimeGetWeekOfYear at' tz =
       Some (if yt <? y then 53 else iso_week (fixed_time at' tz / 86400) yt)) /\
  (in_year 1826 5 /\ in_year (thursday 1826) 4 /\ iso_week 1826 4 = 52 /\
   CFAbsoluteTimeGetWeekOfYear (1826 * 86400) None = Some 53).
Proof.
  split; [|vm_compute; repeat split; discriminate].
  intros Hat. unfold CFAbsoluteTimeGetWeekOfYear. cbv zeta. set (a := fixed_time at' tz / 86400).
  assert (Z.abs a < 2 ^ 50) as Hab by (unfold a; Z.to_euclidean_division_equations; lia). clearbody a.
  destruct (ymd_from_absolute_spec a) as (y & m & d & -> & H & E). cbn [opt_bind]. 
  assert (Z.abs y < 2 ^ 42) as Hy42.
  { pose proof (day_number_in_year y m d H). pose proof (days_before_year_bounds y). pose proof (days_before_year_bounds (y + 1)). lia. }
  rewrite !month_one_number by lia. cbn [opt_bind]. clear Hat Hab Hy42.
  rewrite !(proj1 (double_mod _ 7 ltac:(lia))). pose proof (day_number_in_year y m d H) as B. rewrite E in B.
  pose proof (days_before_year_succ y) as Hs. pose proof (year_length_bounds y) as HL. pose proof (year_length_bounds (y + 1)) as HL1.
  pose proof (days_before_year_succ (y - 1)) as Hs0. pose proof (year_length_bounds (y - 1)) as HL0. replace (y - 1 + 1) with y in Hs0 by lia.
  pose proof (days_before_year_succ (y + 1)) as Hs1.
  set (D := a - days_before_year y) in *. set (w := days_before_year y mod 7) in *.
  assert (a = days_before_year y + D) as Ha by (unfold D; lia).
  assert (0 <= w < 7) as Hw by (apply Z.mod_pos_bound; lia).
  assert (days_before_year (y + 1) mod 7 = (w + year_length y) mod 7) as -> by (rewrite Hs; unfold w; by rewrite Z.add_mod_idemp_l by lia).
  assert (a mod 7 = (w + D) mod 7) as Hamod by (unfold w, D; rewrite Z.add_mod_idemp_l by lia; f_equal; lia).
  pose proof (week_cases D w (year_length y) ltac:(lia) HL Hw) as (C1 & C2 & C3). cbv zeta in C2. set (T := D - (w + D) mod 7 + 3) in *.
  assert (thursday a = days_before_year y + T) as HT by (unfold thursday, T; rewrite Hamod; lia).
  assert (D + 1 = days_before_month y m + d) as HD by (unfold day_number in E; lia). clearbody D w.
  pose proof (Z.mod_pos_bound (w + D) 7 ltac:(lia)) as Hmod.
  pose proof (first_month y m d H) as Hfirst. pose proof (last_month y m d H) as Hlast. destruct (year_is_months y) as [Hb1 Hb13].
  destruct (months_cover y 12 ltac:(lia)) as (Hc12 & _ & _). change (12 + 1) with 13 in Hc12. assert (month_length y 12 = 31) as H31 by done.
  destruct H as [Hm Hd]. exists y, (if T <? 0 then y - 1 else if year_length y <=? T then y + 1 else y).
  split; [unfold in_year; lia|]. split.
  { rewrite HT. unfold in_year. bool_case; replace (y - 1 + 1) with y by lia; lia. }
  match goal with |- (if ?c then _ else _) = _ => assert (c = (T <? 0)) as -> end.
  { bool_prop. rewrite C1. clear C1 C2 C3. split; [intros [[<- ?] ?]; lia|]. intros [? ?]. assert (m = 1) as -> by (apply Hfirst; lia). lia. }
  destruct (Z.ltb_spec T 0) as [HT0|HT0]; [destruct (Z.ltb_spec (y - 1) y); [done|lia]|].
  match goal with |- opt_bind ?e _ = _ => assert (e = Some (year_length y <=? T)) as -> end.
  { assert (forall b1 b2 : bool, (b1 = true -> b2 = (year_length y <=? T)) -> (b1 = false -> (year_length y <=? T) = false) ->
      (if b1 then Some b2 else Some false) = Some (year_length y <=? T)) as Hif by (intros [] b2 Ht Hf; f_equal; [by apply Ht|symmetry; by apply Hf]).
    apply Hif.
    - rewrite andb_true_iff, Z.eqb_eq, Z.ltb_lt. intros [<- ?]. bool_prop. rewrite Z.leb_le, C2. clear C1 C2 C3 Hfirst Hlast. lia.
    - rewrite andb_false_iff, Z.eqb_neq, Z.ltb_ge. intros Hor. apply Z.leb_gt. destruct (Z.lt_ge_cases T (year_length y)) as [|Hge]; [done|].
      exfalso. apply C2 in Hge as [Hge _]. assert (m = 12) as -> by (apply Hlast; lia). lia. }
  cbn [opt_bind]. destruct (Z.leb_spec (year_length y) T) as [HTL|HTL].
  - destruct (Z.ltb_spec (y + 1) y); [lia|]. unfold iso_week. rewrite HT, Hs.
    replace (days_before_year y + T - (days_before_year y + year_length y)) with (T - year_length y) by lia.
    rewrite Z.div_small by (unfold T in *; lia). done.
  - rewrite (days_before_spec y m) by (rewrite ?isleap_spec; done || lia). cbn [opt_bind]. rewrite Z.ltb_irrefl.
    unfold iso_week. rewrite HT. replace (days_before_year y + T - days_before_year y) with T by lia.
    rewrite <- C3 by lia. do 2 f_equal. f_equal. lia.
Qed.

(** ** Differences are inverse to adding *)

Lemma set_unit_twice u idx v w : set_unit (set_unit u idx v) idx w = set_unit u idx w.
Proof. by destruct idx as [|[|[|[|[|]]]]]. Qed.

Lemma unit_at_set u idx v : unit_at (set_unit u idx v) idx = v.
Proof. by destruct idx as [|[|[|[|[|]]]]]. Qed.

Section Approach.
Context (at1 at2 : Z) (tz : timezone) (s : Z) (Hs : s = 1 \/ s = -1).
Context (idx : nat) (u : CFGregorianUnits) (f : Z -> Z) (least secs : Z).
Context (Hls : 60 <= least <= secs) (Hls2 : secs <= 2 * least).
Context (Hstep : forall v, least <= f (v + 1) - f v <= secs).
Context (Hadd : forall v, Z.abs v * least <= 2 ^ 36 + 8 * secs ->
  CFAbsoluteTimeAddGregorianUnits at2 tz (set_unit u idx v) = Some (f v)).
Context (Hgap : 0 <= s * (at1 - f 0) <= 2 ^ 36).

Lemma steps_add v (k : nat) : least * Z.of_nat k <= f (v + Z.of_nat k) - f v <= secs * Z.of_nat k.
Proof.
  induction k as [|k IH]; [rewrite Z.add_0_r; lia|]. specialize (Hstep (v + Z.of_nat k)).
  replace (v + Z.of_nat (S k)) with (v + Z.of_nat k + 1) by lia. lia.
Qed.

(** [f] in the direction of the search, [w] steps from the start. *)
Lemma steps_dir v w : v <= w -> least * (w - v) <= s * (f (s * w) - f (s * v)) <= secs * (w - v).
Proof.
  intros H. destruct Hs as [-> | ->].
  - pose proof (steps_add v (Z.to_nat (w - v))) as Hk. rewrite Z2Nat.id in Hk by lia.
    replace (v + (w - v)) with w in Hk by lia. rewrite !Z.mul_1_l. done.
  - pose proof (steps_add (- w) (Z.to_nat (w - v))) as Hk. rewrite Z2Nat.id in Hk by lia.
    replace (- w + (w - v)) with (- v) in Hk by lia.
    replace (-1 * w) with (- w) by lia. replace (-1 * v) with (- v) by lia. lia.
Qed.

(** The loop once it follows [f]. *)
Lemma approach_run fuel : forall w,
  -3 <= w -> s * f (s * w) <= s * at1 -> s * at1 - s * f (s * w) < least * Z.of_nat fuel ->
  exists w', w <= w' /\ s * f (s * w') <= s * at1 < s * f (s * (w' + 1)) /\
    approach fuel at1 at2 tz s idx (set_unit u idx (s * w)) (f (s * w)) = Some (set_unit u idx (s * w'), f (s * w')).
Proof.
  induction fuel as [|fuel IH]; intros w Hw H1 H2; [lia|]. cbn [approach].
  pose proof (steps_dir w (w + 1) ltac:(lia)) as Hd. rewrite unit_at_set.
  assert ((w + 1) * least <= 2 ^ 36 + 2 * secs) as Hb.
  { destruct (Z.le_gt_cases w 0); [nia|]. pose proof (steps_dir 0 w ltac:(lia)) as H0. rewrite Z.mul_0_r in H0. nia. }
  assert (Z.abs (w + 1) * least <= 2 ^ 36 + 8 * secs) as Hb' by (destruct (Z.abs_spec (w + 1)) as [[_ ->]|[_ ->]]; nia).
  assert (Z.abs (w + 1) < 2 ^ 31 - 2) as Hb31 by nia.
  replace (s * w + s) with (s * (w + 1)) by lia.
  rewrite chk32_ok by (destruct Hs as [-> | ->]; lia). cbn [opt_bind]. rewrite set_unit_twice.
  rewrite Hadd by (destruct Hs as [-> | ->]; rewrite Z.abs_mul; simpl Z.abs at 1; lia). cbn [opt_bind].
  assert (((1 =? s) && (f (s * (w + 1)) <=? at1)) || ((-1 =? s) && (at1 <=? f (s * (w + 1)))) =
          (s * f (s * (w + 1)) <=? s * at1)) as ->.
  { destruct Hs as [-> | ->]; cbn [Z.eqb Pos.eqb andb orb]; [rewrite orb_false_r|];
      apply eq_true_iff_eq; rewrite !Z.leb_le; lia. }
  destruct (Z.leb_spec (s * f (s * (w + 1))) (s * at1)) as [Hle|Hgt].
  - destruct (IH (w + 1)) as (w' & Hw' & Hf & ->); [lia..|]. exists w'. split_and!; [lia|lia|lia|done].
  - rewrite chk32_ok by (destruct Hs as [-> | ->]; lia). cbn [opt_bind]. exists w.
    replace (s * (w + 1) - s) with (s * w) by lia. rewrite set_unit_twice. split_and!; [lia|lia|lia|done].
Qed.

(** The whole search from the first guess [q - 3]. *)
Lemma approach_spec q fuel :
  q = s * (at1 - f 0) / secs -> s * (at1 - f 0) + 4 * secs < least * (Z.of_nat fuel - 1) ->
  exists w, 0 <= w /\ s * f (s * w) <= s * at1 < s * f (s * (w + 1)) /\ w * least <= 2 ^ 36 /\ s * f 0 <= s * f (s * w) /\
    approach fuel at1 at2 tz s idx (set_unit u idx (s * (q - 3))) (f 0) = Some (set_unit u idx (s * w), f (s * w)).
Proof.
  intros Hq Hfuel. destruct fuel as [|fuel]; [nia|]. cbn [approach].
  assert (0 <= q /\ q * secs <= s * (at1 - f 0)) as [Hq0 Hqs].
  { rewrite Hq. split; [apply Z.div_pos; lia|]. rewrite Z.mul_comm. apply Z.mul_div_le. lia. }
  rewrite unit_at_set. replace (s * (q - 3) + s) with (s * (q - 2)) by lia.
  assert (Z.abs (q - 2) * least <= 2 ^ 36 + 8 * secs) as Hb by (destruct (Z.abs_spec (q - 2)) as [[_ ->]|[_ ->]]; nia).
  assert (Z.abs (q - 2) < 2 ^ 31 - 2) as Hb31 by nia.
  rewrite chk32_ok by (destruct Hs as [-> | ->]; lia). cbn [opt_bind]. rewrite set_unit_twice.
  rewrite Hadd by (destruct Hs as [-> | ->]; rewrite Z.abs_mul; simpl Z.abs at 1; lia). cbn [opt_bind].
  pose proof (steps_dir 0 q Hq0) as H0q. rewrite Z.mul_0_r in H0q. pose proof (steps_dir (q - 2) q ltac:(lia)) as H2q.
  assert (s * f (s * (q - 2)) <= s * at1) as Hle by lia.
  assert (((1 =? s) && (f (s * (q - 2)) <=? at1)) || ((-1 =? s) && (at1 <=? f (s * (q - 2)))) = true) as ->.
  { destruct Hs as [-> | ->]; cbn [Z.eqb Pos.eqb andb orb]; [rewrite orb_false_r|]; apply Z.leb_le; lia. }
  assert (s * f 0 <= s * f (s * (q - 2)) + 2 * secs) as H02.
  { destruct (Z.le_gt_cases 2 q); [pose proof (steps_dir 0 (q - 2) ltac:(lia)) as H3|pose proof (steps_dir (q - 2) 0 ltac:(lia)) as H3];
      rewrite Z.mul_0_r in H3; nia. }
  destruct (approach_run fuel (q - 2)) as (w & Hw & Hf & E); [lia|done|lia|].
  exists w. assert (0 <= w) as Hw0.
  { destruct (Z.le_gt_cases 0 w); [done|]. pose proof (steps_dir (w + 1) 0 ltac:(lia)) as H3. rewrite Z.mul_0_r in H3.
    assert (0 <= least * (0 - (w + 1))) by (apply Z.mul_nonneg_nonneg; lia). lia. }
  pose proof (steps_dir 0 w Hw0) as H3. rewrite Z.mul_0_r in H3. assert (0 <= least * (w - 0)) by (apply Z.mul_nonneg_nonneg; lia).
  split_and!; [done|lia..|done].
Qed.
End Approach.

(** The time that adding [units] to [at2] reaches, when [at2] falls on the
    date [y], [m], [d]. *)
Definition reached (at2 c y m d : Z) (units : CFGregorianUnits) : Z :=
  at2 + 86400 * (added_day y m d units - (at2 + c) / 86400) + 3600 * hours units + 60 * minutes units + seconds units.

(** One more month, with the day clamped, is 28 to 31 days. *)
Lemma month_step d y m : 1 <= d <= 31 -> 1 <= m <= 12 ->
  let y' := if 12 <? m + 1 then y + 1 else y in let m' := if 12 <? m + 1 then m + 1 - 12 else m + 1 in
  28 <= day_number y' m' (Z.min d (month_length y' m')) - day_number y m (Z.min d (month_length y m)) <= 31.
Proof.
  intros Hd Hm y' m'. pose proof (next_month_number y m Hm) as Hn. fold y' m' in Hn.
  destruct (months_cover y m Hm) as (_ & Hl & _).
  assert (1 <= m' <= 12) as Hm' by (unfold m'; bool_case). destruct (months_cover y' m' Hm') as (_ & Hl' & _).
  unfold day_number in *. lia.
Qed.

(** One more year is 365 or 366 days. *)
Lemma year_step d y m : 1 <= d <= 31 -> 1 <= m <= 12 ->
  365 <= day_number (y + 1) m (Z.min d (month_length (y + 1) m)) - day_number y m (Z.min d (month_length y m)) <= 366.
Proof.
  intros Hd Hm. unfold day_number. rewrite days_before_year_succ. unfold year_length.
  assert (gregorian_leap (y + 2001) && gregorian_leap (y + 1 + 2001) = false) as Hboth.
  { unfold gregorian_leap. destruct (Z.eqb_spec ((y + 2001) mod 4) 0); [|done].
    destruct (Z.eqb_spec ((y + 1 + 2001) mod 4) 0); [exfalso|by rewrite andb_false_r]. Z.to_euclidean_division_equations; lia. }
  assert (m = 1 \/ m = 2 \/ 3 <= m) as [-> |[-> |Hm3]] by lia.
  - unfold days_before_month, month_length. simpl. destruct (gregorian_leap (y + 2001)); simpl; lia.
  - unfold days_before_month, month_length. simpl.
    destruct (gregorian_leap (y + 2001)), (gregorian_leap (y + 1 + 2001)); simpl in *; try done; lia.
  - unfold days_before_month, month_length. destruct (Z.ltb_spec 2 m); [|lia]. destruct (Z.eqb_spec 2 m); [lia|]. simpl andb.
    destruct (gregorian_leap (y + 2001)), (gregorian_leap (y + 1 + 2001)); simpl in *; try done; lia.
Qed.

Lemma month_after_step y m n : 1 <= m <= 12 ->
  let '(y1, m1) := month_after y m n in 1 <= m1 <= 12 /\
  month_after y m (n + 1) = (if 12 <? m1 + 1 then y1 + 1 else y1, if 12 <? m1 + 1 then m1 + 1 - 12 else m1 + 1) /\
  month_after y m (n + 12) = (y1 + 1, m1).
Proof.
  intros Hm. unfold month_after. cbv zeta. set (M := 12 * y + (m - 1) + n).
  replace (12 * y + (m - 1) + (n + 1)) with (M + 1) by (unfold M; lia). replace (12 * y + (m - 1) + (n + 12)) with (M + 1 * 12) by (unfold M; lia).
  rewrite Z.div_add, Z.mod_add by lia. clearbody M. split_and!; [Z.to_euclidean_division_equations; lia..| |done].
  destruct (Z.ltb_spec 12 (M mod 12 + 1 + 1)); f_equal; Z.to_euclidean_division_equations; lia.
Qed.

Section Difference.
Context (at2 c y m d : Z) (Hd : 1 <= d <= 31) (Hm : 1 <= m <= 12).

Lemma reached_step idx u v least secs : (idx < 5)%nat ->
  unit_least !! idx = Some least -> unit_seconds !! idx = Some secs ->
  least <= reached at2 c y m d (set_unit u idx (v + 1)) - reached at2 c y m d (set_unit u idx v) <= secs.
Proof.
  intros Hi El Es. unfold reached.
  destruct idx as [|[|[|[|[|]]]]]; try lia; injection El as <-; injection Es as <-;
    cbn [set_unit years months days hours minutes seconds].
  - unfold added_day. cbn [years months days]. replace (12 * (v + 1) + months u) with (12 * v + months u + 12) by lia.
    pose proof (month_after_step y m (12 * v + months u) Hm) as Hstep.
    destruct (month_after y m (12 * v + months u)) as [y1 m1]. destruct Hstep as (Hm1 & _ & ->).
    pose proof (year_step d y1 m1 Hd Hm1). lia.
  - unfold added_day. cbn [years months days]. replace (12 * years u + (v + 1)) with (12 * years u + v + 1) by lia.
    pose proof (month_after_step y m (12 * years u + v) Hm) as Hstep.
    destruct (month_after y m (12 * years u + v)) as [y1 m1]. destruct Hstep as (Hm1 & -> & _).
    pose proof (month_step d y1 m1 Hd Hm1). cbv zeta in *. lia.
  - unfold added_day. cbn [years months days]. destruct (month_after _ _ _) as [y1 m1]. lia.
  - unfold added_day. cbn [years months days]. destruct (month_after _ _ _) as [y1 m1]. lia.
  - unfold added_day. cbn [years months days]. destruct (month_after _ _ _) as [y1 m1]. lia.
Qed.

Context (tz : timezone) (Htz : fixed_offset tz c) (Hat : Z.abs (at2 + c) < 2 ^ 52).
Context (Hok : date_ok y m d) (Hn : day_number y m d = (at2 + c) / 86400).

Lemma add_reaches units : small_units units ->
  CFAbsoluteTimeAddGregorianUnits at2 tz units = Some (reached at2 c y m d units).
Proof.
  intros Hu. destruct (add_units_spec at2 tz c units Htz Hat Hu) as (y' & m' & d' & H' & Hn' & ->).
  destruct (day_number_inj y' m' d' y m d H' Hok) as (-> & -> & ->); [congruence|]. done.
Qed.

Context (at1 s : Z) (Hs : s = 1 \/ s = -1).

(** The state between two units of the search: nothing overshot, no unit of
    the wrong sign, the units from [k] on still zero. *)
Record approached (k : nat) (units : CFGregorianUnits) (atnew : Z) : Prop := {
  ap_reached : atnew = reached at2 c y m d units;
  ap_gap : 0 <= s * (at1 - atnew) <= 2 ^ 36;
  ap_sign i : (i < 5)%nat -> 0 <= s * unit_at units i <= 2 ^ 31;
  ap_small : small_units units;
  ap_zero i : (k <= i < 5)%nat -> unit_at units i = 0;
  ap_seconds : seconds units = 0
}.

Lemma set_unit_same u idx : set_unit u idx (unit_at u idx) = u.
Proof. destruct u. by destruct idx as [|[|[|[|[|]]]]]. Qed.

Lemma unit_at_set_ne u i j v : (i < 5)%nat -> (j < 5)%nat -> i <> j -> unit_at (set_unit u j v) i = unit_at u i.
Proof. intros. destruct i as [|[|[|[|[|]]]]], j as [|[|[|[|[|]]]]]; try done; lia. Qed.

Lemma small_set_unit u idx v : (idx < 5)%nat -> small_units u -> ((idx < 3)%nat -> Z.abs v < 2 ^ 28) -> small_units (set_unit u idx v).
Proof. intros Hi [Hy Hm' Hd'] Hv. destruct idx as [|[|[|[|[|]]]]]; try lia; split; simpl; auto with lia. Qed.

Lemma approach_unit k units atnew : (k < 5)%nat -> approached k units atnew ->
  exists units' atnew' sec,
    unit_seconds !! k = Some sec /\ chk32 (Z.quot (at1 - atnew) sec) = Some (Z.quot (at1 - atnew) sec) /\
    chk32 (-3 * s + Z.quot (at1 - atnew) sec) = Some (-3 * s + Z.quot (at1 - atnew) sec) /\
    approach (approach_fuel k (at1 - atnew)) at1 at2 tz s k
      (set_unit units k (-3 * s + Z.quot (at1 - atnew) sec)) atnew = Some (units', atnew') /\
    approached (S k) units' atnew'.
Proof.
  intros Hk [Hr Hg Hsg Hsm Hz Hsec].
  assert (exists sec least, unit_seconds !! k = Some sec /\ unit_least !! k = Some least /\ 60 <= least <= sec /\ sec <= 2 * least /\
    ((k < 3)%nat -> 86400 <= least)) as (sec & least & Es & El & Hb1 & Hb2 & Hb3).
  { destruct k as [|[|[|[|[|]]]]]; try lia; eexists _, _; (split; [reflexivity|]); (split; [reflexivity|]); lia. }
  assert (Z.quot (at1 - atnew) sec = s * (s * (at1 - atnew) / sec)) as Hquot.
  { destruct Hs as [-> | ->].
    - rewrite !Z.mul_1_l. apply Z.quot_div_nonneg; lia.
    - rewrite <- (Z.opp_involutive (at1 - atnew)) at 1. rewrite Z.quot_opp_l, Z.quot_div_nonneg by lia.
      replace (-1 * (at1 - atnew)) with (- (at1 - atnew)) by lia. lia. }
  set (q := s * (at1 - atnew) / sec) in *.
  assert (0 <= q <= 2 ^ 31 - 10) as Hq.
  { unfold q. split; [apply Z.div_pos; lia|]. apply Z.div_le_upper_bound; lia. }
  set (f := fun v => reached at2 c y m d (set_unit units k v)).
  assert (f 0 = atnew) as Hf0.
  { unfold f. rewrite <- (Hz k) by lia. rewrite set_unit_same. done. }
  destruct (approach_spec at1 at2 tz s Hs k units f least sec Hb1 Hb2) with (q := q) (fuel := approach_fuel k (at1 - atnew))
    as (w & Hw & Hbound & Hwl & Hmono & E).
  - intros v. by apply reached_step.
  - intros v Hv. apply add_reaches. apply small_set_unit; [done|done|]. intros H3. specialize (Hb3 H3).
    assert (Z.abs v * 86400 <= Z.abs v * least) by (apply Z.mul_le_mono_nonneg_l; lia).
    assert (sec <= 366 * 24 * 3600) by (destruct k as [|[|[|[|[|]]]]]; try lia; injection Es as <-; lia). lia.
  - rewrite Hf0. done.
  - rewrite Hf0. done.
  - rewrite Hf0. unfold approach_fuel. rewrite El. simpl default.
    assert (Z.abs (at1 - atnew) = s * (at1 - atnew)) as -> by (destruct Hs as [-> | ->]; lia).
    rewrite Nat2Z.inj_add, Z2Nat.id by (apply Z.div_pos; lia). pose proof (Z.mul_succ_div_gt (s * (at1 - atnew)) least ltac:(lia)). lia.
  - rewrite Hf0 in E. exists (set_unit units k (s * w)), (f (s * w)), sec.
    replace (-3 * s + Z.quot (at1 - atnew) sec) with (s * (q - 3)) by (rewrite Hquot; lia).
    split_and!; [done|rewrite Hquot; apply chk32_ok; destruct Hs as [-> | ->]; lia|apply chk32_ok; destruct Hs as [-> | ->]; lia|done|].
    assert (0 <= w <= 2 ^ 31) as Hw31.
    { split; [done|]. assert (w * 60 <= w * least) by (apply Z.mul_le_mono_nonneg_l; lia). lia. }
    split.
    + done.
    + rewrite Hf0 in Hmono. lia.
    + intros i Hi. destruct (decide (i = k)) as [->|Hne]; [|by rewrite unit_at_set_ne; auto].
      rewrite unit_at_set. destruct Hs as [-> | ->]; lia.
    + apply small_set_unit; [done|done|]. intros H3. specialize (Hb3 H3).
      assert (w * 86400 <= w * least) by (apply Z.mul_le_mono_nonneg_l; lia). destruct Hs as [-> | ->]; lia.
    + intros i Hi. rewrite unit_at_set_ne by lia. apply Hz. lia.
    + by destruct k as [|[|[|[|[|]]]]].
Qed.

Lemma difference_loop_spec flags n : forall k units atnew,
  (k + n = 5)%nat -> approached k units atnew ->
  exists units' atnew', difference_loop (seq k n) at1 at2 tz s flags units atnew = Some (units', atnew') /\ approached 5 units' atnew'.
Proof.
  induction n as [|n IH]; intros k units atnew Hk H; [exists units, atnew; by replace 5%nat with k by lia|].
  cbn [seq difference_loop]. destruct (has_flag flags (Z.shiftl 1 (Z.of_nat k))).
  - destruct (approach_unit k units atnew ltac:(lia) H) as (units' & atnew' & sec & Es & E1 & E2 & E3 & H').
    rewrite Es. cbn [opt_bind]. rewrite E1. cbn [opt_bind]. rewrite E2. cbn [opt_bind]. rewrite E3. cbn [opt_bind].
    by apply IH; [lia|].
  - cbn [opt_bind]. apply IH; [lia|]. destruct H as [? ? ? ? Hz ?]. split; try done. intros i Hi. apply Hz. lia.
Qed.
End Difference.

(** Taking a difference in units is inverse to adding them, as its comment
    demands: in GMT or a zone with a fixed offset, for times at most 2^36
    seconds (over two thousand years) apart, every set of unit flags gives
    units that all point from [at2] towards [at1] and, added to [at2], do not
    pass it; with the seconds among the flags they lead exactly to [at1].  The
    search for each unit ends. *)
Lemma CFAbsoluteTimeGetDifference_inverts_adding at1 at2 tz c flags :
  fixed_offset tz c -> Z.abs (at2 + c) < 2 ^ 52 -> Z.abs (at1 - at2) <= 2 ^ 36 ->
  let s := if at2 <? at1 then 1 else -1 in
  exists units r, CFAbsoluteTimeGetDifferenceAsGregorianUnits at1 at2 tz flags = Some units /\
    CFAbsoluteTimeAddGregorianUnits at2 tz units = Some r /\
    (forall i, (i < 5)%nat -> 0 <= s * unit_at units i) /\ 0 <= s * seconds units /\ s * r <= s * at1 /\
    (has_flag flags kCFGregorianUnitsSeconds = true -> r = at1).
Proof.
  intros Htz Hat Hgap s. destruct (ymd_from_absolute_spec ((at2 + c) / 86400)) as (y & m & d & _ & Hok & Hn).
  assert (s = 1 \/ s = -1) as Hs by (unfold s; destruct (at2 <? at1); auto).
  assert (Hok' := Hok). destruct Hok' as [Hm Hd]. destruct (months_cover y m Hm) as (_ & Hl & _).
  destruct (difference_loop_spec at2 c y m d ltac:(lia) Hm tz Htz Hat Hok Hn at1 s Hs flags 5 0 (mkUnits 0 0 0 0 0 0) at2) as (units & atnew & E & H).
  { done. }
  { split.
    - unfold reached, added_day, month_after. cbn [years months days hours minutes seconds].
      replace (12 * y + (m - 1) + (12 * 0 + 0)) with ((m - 1) + y * 12) by lia.
      rewrite Z.div_add, Z.mod_add, Z.div_small, Z.mod_small by lia. rewrite Z.add_0_l. replace (m - 1 + 1) with m by lia.
      rewrite Z.min_l by lia. lia.
    - unfold s. destruct (Z.ltb_spec at2 at1); lia.
    - intros i Hi. destruct i as [|[|[|[|[|]]]]]; simpl; lia.
    - split; simpl; lia.
    - intros i Hi. by destruct i as [|[|[|[|[|]]]]].
    - done. }
  unfold CFAbsoluteTimeGetDifferenceAsGregorianUnits. cbv zeta. fold s. change [0; 1; 2; 3; 4]%nat with (seq 0 5). rewrite E. cbn [opt_bind].
  destruct H as [Hr Hg Hsg Hsm _ Hsec]. destruct (has_flag flags kCFGregorianUnitsSeconds).
  - eexists _, at1. split; [done|]. split; [|split_and!; [intros i Hi; apply (Hsg i Hi)|simpl; lia|lia|done]].
    rewrite (add_reaches at2 c y m d tz Htz Hat Hok Hn) by (by destruct Hsm). f_equal. rewrite Hr. unfold reached. cbn [years months days hours minutes seconds].
    unfold added_day in *. cbn [years months days]. destruct (month_after _ _ _) as [y1 m1]. rewrite Hsec. lia.
  - exists units, atnew. split; [done|]. split; [rewrite Hr; by apply add_reaches|].
    split_and!; [intros i Hi; apply (Hsg i Hi)|rewrite Hsec; lia|lia|done].
Qed.

(** ** Ordering date objects *)

(** Dates may be handed to the sort functions: their comparison is a total
    preorder, and equality is its equivalence. *)
#[export] Instance CFDateCompare_order : CompareOrder CFDateCompare.
Proof.
  split; unfold CFDateCompare, kCFCompareLessThan, kCFCompareGreaterThan, kCFCompareEqualTo; intros *; bool_case.
Qed.

Lemma CFDateEqual_compare d1 d2 : __CFDateEqual d1 d2 = true <-> CFDateCompare d1 d2 = kCFCompareEqualTo.
Proof.
  unfold __CFDateEqual, CFDateCompare, kCFCompareLessThan, kCFCompareGreaterThan, kCFCompareEqualTo.
  destruct (Z.eqb_spec (_time d1) (_time d2)); simpl; bool_case; done.
Qed.

(** ** The properties on concrete dates *)

(** 2004-02-29 12:34:56 in a zone one hour east of Greenwich. *)
Definition demo_zone : timezone := Some (fun _ => 3600).

Definition demo_time : Z := 86400 * 1154 + 3600 * 11 + 60 * 34 + 56.

Lemma CFGregorianDate_roundtrip_witness :
  exists g, CFAbsoluteTimeGetGregorianDate demo_time demo_zone = Some g /\
    date_ok (year g - 2001) (month g) (day g) /\ 0 <= hour g < 24 /\ 0 <= minute g < 60 /\ 0 <= second g < 60 /\
    (0 < year g -> CFGregorianDateIsValid g kCFGregorianAllUnits = Some true) /\
    CFGregorianDateGetAbsoluteTime g demo_zone = Some demo_time.
Proof. apply (CFGregorianDate_roundtrip demo_zone 3600); [intros t; reflexivity|vm_compute; reflexivity]. Defined.

(** One year and thirteen months and one day later: March 30, 2006. *)
Lemma CFAbsoluteTimeAddGregorianUnits_late_clamping_witness :
  exists y m d, date_ok y m d /\ day_number y m d = (demo_time + 3600) / 86400 /\
    CFAbsoluteTimeAddGregorianUnits demo_time demo_zone (mkUnits 1 13 1 2 3 4) =
      Some (demo_time + 86400 * (added_day y m d (mkUnits 1 13 1 2 3 4) - (demo_time + 3600) / 86400) + 3600 * 2 + 60 * 3 + 4) /\
    (1 = 0 -> 13 = 0 -> CFAbsoluteTimeAddGregorianUnits demo_time demo_zone (mkUnits 1 13 1 2 3 4) =
       Some (demo_time + 86400 * 1 + 3600 * 2 + 60 * 3 + 4)).
Proof.
  apply (CFAbsoluteTimeAddGregorianUnits_late_clamping demo_time demo_zone 3600 (mkUnits 1 13 1 2 3 4));
    [intros t; reflexivity|vm_compute; reflexivity|split; vm_compute; reflexivity].
Defined.

Lemma CFAbsoluteTimeGetDifference_inverts_adding_witness :
  exists units r, CFAbsoluteTimeGetDifferenceAsGregorianUnits 0 demo_time demo_zone 63 = Some units /\
    CFAbsoluteTimeAddGregorianUnits demo_time demo_zone units = Some r /\
    (forall i, (i < 5)%nat -> 0 <= -1 * unit_at units i) /\ 0 <= -1 * seconds units /\ -1 * r <= -1 * 0 /\
    (has_flag 63 kCFGregorianUnitsSeconds = true -> r = 0).
Proof.
  apply (CFAbsoluteTimeGetDifference_inverts_adding 0 demo_time demo_zone 3600 63);
    [intros t; reflexivity|vm_compute; reflexivity|vm_compute; discriminate].
Defined.
