(* ===== verification/CFBasicHash.v ===== *)
(** * CFBasicHash: the open-addressing hash table (CFBasicHash.c)

    The table under CFDictionary, CFSet and CFBag: parallel arrays of values,
    keys and counts, searched by linear, double or exponential probing
    (CFBasicHashFindBucket.m).  A cell of 0 is an empty bucket and a cell of
    [~0] a deleted one; the values 0 and [~0] themselves are stored as two
    substitutes.  The hash cache and the strong and weak references exist only
    with garbage collection, where [__CFBasicHashHasHashCache] and
    [CFBasicHashHasStrongValues] are not constantly false; they are off here.
    A NULL array is the empty block (no array of no cells is ever allocated).
    Calls of the retain and release callbacks are events; the equality, the
    hash and the indirect-key callbacks are functions of their arguments.
    Memory is allocated by an allocator that succeeds. *)

From S2P Require Import Prelude CFInternal.
From stdpp Require Import base list numbers option sorting.
From Stdlib Require Import ZArith Znumtheory Lia.
Open Scope Z_scope.
Open Scope cf_scope.

(** ** Tables and constants *)

(** Numbers of buckets. *)
Definition __CFBasicHashTableSizes : list Z :=
  [0; 3; 7; 13; 23; 41; 71; 127; 191; 251; 383; 631; 1087; 1723; 2803; 4523; 7351;
   11959; 19447; 31231; 50683; 81919; 132607; 214519; 346607; 561109; 907759; 1468927;
   2376191; 3845119; 6221311; 10066421; 16287743; 26354171; 42641881; 68996069;
   111638519; 180634607; 292272623; 472907251; 765180413; 1238087663; 2003267557;
   3241355263; 5244622819; 0; 0; 0; 0; 0; 0; 0; 0; 0; 0; 0; 0; 0; 0; 0; 0; 0; 0; 0].

(** Numbers of entries a table of each size may hold. *)
Definition __CFBasicHashTableCapacities : list Z :=
  [0; 3; 6; 11; 19; 32; 52; 85; 118; 155; 237; 390; 672; 1065; 1732; 2795; 4543; 7391;
   12019; 19302; 31324; 50629; 81956; 132580; 214215; 346784; 561026; 907847; 1468567;
   2376414; 3844982; 6221390; 10066379; 16287773; 26354132; 42641916; 68996399;
   111638327; 180634415; 292272755; 472907503; 765180257; 1238087439; 2003267722;
   3241355160; 0; 0; 0; 0; 0; 0; 0; 0; 0; 0; 0; 0; 0; 0; 0; 0; 0; 0; 0].

(** A primitive root of each size. *)
Definition __CFBasicHashPrimitiveRoots : list Z :=
  [0; 2; 3; 2; 5; 6; 7; 3; 19; 6; 5; 3; 3; 3; 2; 5; 6; 3; 3; 6; 2; 3; 3; 3; 5; 10; 3;
   3; 22; 3; 3; 3; 5; 2; 22; 2; 11; 5; 5; 2; 3; 10; 2; 3; 10; 2; 3; 5; 3; 3; 2; 7; 2;
   3; 3; 3; 2; 3; 5; 5; 2; 3; 2; 0].

Definition __CFBasicHashSubABZero : Z := 0xa7baadb1.
Definition __CFBasicHashSubABOne : Z := 0xa5baadb9.

(** [~0UL], the mark of a deleted bucket. *)
Definition ones : Z := 2 ^ 64 - 1.

Definition __kCFBasicHashLinearHashingValue : Z := 1.
Definition __kCFBasicHashDoubleHashingValue : Z := 2.
Definition __kCFBasicHashExponentialHashingValue : Z := 3.

Definition kCFBasicHashHasKeys : Z := Z.shiftl 1 0.
Definition kCFBasicHashHasCounts : Z := Z.shiftl 1 1.
Definition kCFBasicHashHasHashCache : Z := Z.shiftl 1 2.
Definition kCFBasicHashIntegerValues : Z := Z.shiftl 1 6.
Definition kCFBasicHashIntegerKeys : Z := Z.shiftl 1 7.
Definition kCFBasicHashStrongValues : Z := Z.shiftl 1 8.
Definition kCFBasicHashStrongKeys : Z := Z.shiftl 1 9.
Definition kCFBasicHashWeakValues : Z := Z.shiftl 1 10.
Definition kCFBasicHashWeakKeys : Z := Z.shiftl 1 11.
Definition kCFBasicHashIndirectKeys : Z := Z.shiftl 1 12.
Definition kCFBasicHashLinearHashing : Z := Z.shiftl __kCFBasicHashLinearHashingValue 13.
Definition kCFBasicHashDoubleHashing : Z := Z.shiftl __kCFBasicHashDoubleHashingValue 13.
Definition kCFBasicHashExponentialHashing : Z := Z.shiftl __kCFBasicHashExponentialHashingValue 13.
Definition kCFBasicHashAggressiveGrowth : Z := Z.shiftl 1 15.

(** ** Data *)

(** The callbacks a creator passes, as function pointers. *)
Record CFBasicHashCallbacks := mkHashCallbacks {
  retainValue : Z; retainKey : Z; releaseValue : Z; releaseKey : Z;
  equateValues : Z; equateKeys : Z; hashKey : Z; getIndirectKey : Z;
  copyValueDescription : Z; copyKeyDescription : Z
}.

(** The bits that only [CFBasicHashCreate] writes: the style, which arrays
    there are and the indexes of the callbacks in [CFBasicHashCallBackPtrs]. *)
Record hash_config := mkConfig {
  hash_style : Z; keys_offset : Z; counts_offset : Z; hashes_offset : Z;
  strong_values : Z; strong_keys : Z; weak_values : Z; weak_keys : Z;
  int_values : Z; int_keys : Z; indirect_keys : Z; fast_grow : Z;
  __kret : Z; __vret : Z; __krel : Z; __vrel : Z; __kdes : Z; __vdes : Z;
  __kequ : Z; __vequ : Z; __khas : Z; __kget : Z
}.

(** The table: the header word, the bits, and the arrays behind [pointers]
    ([pointers[0]], [pointers[keys_offset]] and [pointers[counts_offset]]). *)
Record __CFBasicHash := mkHash {
  info_bits : Z;
  config : hash_config;
  mutations : Z; counts_width : Z; used_buckets : Z; deleted : Z;
  num_buckets_idx : Z; null_rc : Z; finalized : Z;
  values : list Z; keys : list Z; counts : list Z
}.

(** A bucket as the search returns it; the key and the value are not set when
    nothing was found. *)
Record CFBasicHashBucket := mkBucket {
  idx : Z; weak_key : option Z; weak_value : option Z; count : Z
}.

Definition set_info ht v := mkHash v (config ht) (mutations ht) (counts_width ht) (used_buckets ht) (deleted ht) (num_buckets_idx ht) (null_rc ht) (finalized ht) (values ht) (keys ht) (counts ht).
Definition set_mutations ht v := mkHash (info_bits ht) (config ht) v (counts_width ht) (used_buckets ht) (deleted ht) (num_buckets_idx ht) (null_rc ht) (finalized ht) (values ht) (keys ht) (counts ht).
Definition set_counts_width ht v := mkHash (info_bits ht) (config ht) (mutations ht) v (used_buckets ht) (deleted ht) (num_buckets_idx ht) (null_rc ht) (finalized ht) (values ht) (keys ht) (counts ht).
Definition set_used_buckets ht v := mkHash (info_bits ht) (config ht) (mutations ht) (counts_width ht) v (deleted ht) (num_buckets_idx ht) (null_rc ht) (finalized ht) (values ht) (keys ht) (counts ht).
Definition set_deleted ht v := mkHash (info_bits ht) (config ht) (mutations ht) (counts_width ht) (used_buckets ht) v (num_buckets_idx ht) (null_rc ht) (finalized ht) (values ht) (keys ht) (counts ht).
Definition set_num_buckets_idx ht v := mkHash (info_bits ht) (config ht) (mutations ht) (counts_width ht) (used_buckets ht) (deleted ht) v (null_rc ht) (finalized ht) (values ht) (keys ht) (counts ht).
Definition set_null_rc ht v := mkHash (info_bits ht) (config ht) (mutations ht) (counts_width ht) (used_buckets ht) (deleted ht) (num_buckets_idx ht) v (finalized ht) (values ht) (keys ht) (counts ht).
Definition set_finalized ht v := mkHash (info_bits ht) (config ht) (mutations ht) (counts_width ht) (used_buckets ht) (deleted ht) (num_buckets_idx ht) (null_rc ht) v (values ht) (keys ht) (counts ht).
Definition __CFBasicHashSetValues ht v := mkHash (info_bits ht) (config ht) (mutations ht) (counts_width ht) (used_buckets ht) (deleted ht) (num_buckets_idx ht) (null_rc ht) (finalized ht) v (keys ht) (counts ht).

(** [mutations++], on 16 bits. *)
Definition bump_mutations (ht : __CFBasicHash) : __CFBasicHash :=
  set_mutations ht (uwrap 16 (mutations ht + 1)).

Definition has_keys (ht : __CFBasicHash) : bool := negb (keys_offset (config ht) =? 0).
Definition has_counts (ht : __CFBasicHash) : bool := negb (counts_offset (config ht) =? 0).

(** [pointers[keys_offset]] and [pointers[counts_offset]]: with the offset 0
    that is the array of values. *)
Definition __CFBasicHashGetValues (ht : __CFBasicHash) : list Z := values ht.
Definition __CFBasicHashGetKeys (ht : __CFBasicHash) : list Z :=
  if has_keys ht then keys ht else values ht.
Definition __CFBasicHashGetCounts (ht : __CFBasicHash) : list Z :=
  if has_counts ht then counts ht else values ht.

Definition __CFBasicHashSetKeys (ht : __CFBasicHash) (p : list Z) : __CFBasicHash :=
  if has_keys ht
  then mkHash (info_bits ht) (config ht) (mutations ht) (counts_width ht) (used_buckets ht) (deleted ht) (num_buckets_idx ht) (null_rc ht) (finalized ht) (values ht) p (counts ht)
  else __CFBasicHashSetValues ht p.

Definition __CFBasicHashSetCounts (ht : __CFBasicHash) (p : list Z) : __CFBasicHash :=
  if has_counts ht
  then mkHash (info_bits ht) (config ht) (mutations ht) (counts_width ht) (used_buckets ht) (deleted ht) (num_buckets_idx ht) (null_rc ht) (finalized ht) (values ht) (keys ht) p
  else __CFBasicHashSetValues ht p.

Definition nonnull (p : list Z) : bool := match p with [] => false | _ => true end.

Definition CFBasicHashIsMutable (ht : __CFBasicHash) : bool :=
  if negb (__CFBitfieldGetValue (info_bits ht) 6 6 =? 0) then false else true.

Definition CFBasicHashMakeImmutable (ht : __CFBasicHash) : __CFBasicHash :=
  set_info ht (__CFBitfieldSetValue (info_bits ht) 6 6 1).

Definition CFBasicHashHasStrongValues (ht : __CFBasicHash) : bool := false.
Definition CFBasicHashHasStrongKeys (ht : __CFBasicHash) : bool := false.
Definition __CFBasicHashHasHashCache (ht : __CFBasicHash) : bool := false.

Definition CFBasicHashSuppressRC (ht : __CFBasicHash) : __CFBasicHash := set_null_rc ht 1.
Definition CFBasicHashUnsuppressRC (ht : __CFBasicHash) : __CFBasicHash := set_null_rc ht 0.

(** ** The registry of callbacks *)

(** [CFBasicHashCallBackPtrs] (1024 pointers, NULL at first) and its count. *)
Record callback_registry := mkRegistry { CFBasicHashCallBackPtrs : list Z; CFBasicHashCallBackPtrsCount : Z }.

(** The registry after the first call: the standard callbacks come first. *)
Definition initial_registry (CFCopyDescription __CFTypeCollectionRelease __CFTypeCollectionRetain
    CFEqual CFHash __CFStringCollectionCopy : Z) : callback_registry :=
  mkRegistry ([0; CFCopyDescription; __CFTypeCollectionRelease; __CFTypeCollectionRetain;
               CFEqual; CFHash; __CFStringCollectionCopy; 0] ++ replicate 1016 0) 8.

(** [for (idx = 0; idx < CFBasicHashCallBackPtrsCount; idx++)
       if (CFBasicHashCallBackPtrs[idx] == ptr) return idx;] *)
Fixpoint find_ptr (ptrs : list Z) (ptr : Z) (rest : nat) (i : Z) : option (option Z) :=
  match rest with
  | O => Some None
  | S rest' =>
      let* p := rd ptrs i in
      if p =? ptr then Some (Some i) else find_ptr ptrs ptr rest' (i + 1)
  end.

Definition CFBasicHashGetPtrIndex (reg : callback_registry) (ptr : Z) : option (callback_registry * Z) :=
  let* found := find_ptr (CFBasicHashCallBackPtrs reg) ptr (Z.to_nat (CFBasicHashCallBackPtrsCount reg)) 0 in
  match found with
  | Some i => Some (reg, i)
  | None =>
      if 1000 <? CFBasicHashCallBackPtrsCount reg then None else
      let i := CFBasicHashCallBackPtrsCount reg + 1 in
      let* ptrs := wr (CFBasicHashCallBackPtrs reg) (i - 1) ptr in
      Some (mkRegistry ptrs i, i - 1)
  end.

Definition get_bit (flags mask : Z) : Z := if negb (Z.land flags mask =? 0) then 1 else 0.

(** [x && y] of two one-bit fields. *)
Definition both (x y : Z) : bool := negb (x =? 0) && negb (y =? 0).

Definition CFBasicHashCreate (reg : callback_registry) (flags : Z) (cb : CFBasicHashCallbacks)
    : option (callback_registry * __CFBasicHash) :=
  let strong_values := get_bit flags kCFBasicHashStrongValues in
  let strong_keys := get_bit flags kCFBasicHashStrongKeys in
  let weak_values := get_bit flags kCFBasicHashWeakValues in
  let weak_keys := get_bit flags kCFBasicHashWeakKeys in
  let int_values := get_bit flags kCFBasicHashIntegerValues in
  let int_keys := get_bit flags kCFBasicHashIntegerKeys in
  let indirect_keys := get_bit flags kCFBasicHashIndirectKeys in
  if both strong_values weak_values || both strong_values int_values ||
     both strong_keys weak_keys || both strong_keys int_keys ||
     both weak_values int_values || both weak_keys int_keys ||
     both indirect_keys strong_keys || both indirect_keys weak_keys ||
     both indirect_keys int_keys then None else
  let offset := 1 in
  let keys_offset := if negb (Z.land flags kCFBasicHashHasKeys =? 0) then offset else 0 in
  let offset := if negb (Z.land flags kCFBasicHashHasKeys =? 0) then offset + 1 else offset in
  let counts_offset := if negb (Z.land flags kCFBasicHashHasCounts =? 0) then offset else 0 in
  let offset := if negb (Z.land flags kCFBasicHashHasCounts =? 0) then offset + 1 else offset in
  let hashes_offset := if negb (Z.land flags kCFBasicHashHasHashCache =? 0) then offset else 0 in
  let* (reg, kret) := CFBasicHashGetPtrIndex reg (retainKey cb) in
  let* (reg, vret) := CFBasicHashGetPtrIndex reg (retainValue cb) in
  let* (reg, krel) := CFBasicHashGetPtrIndex reg (releaseKey cb) in
  let* (reg, vrel) := CFBasicHashGetPtrIndex reg (releaseValue cb) in
  let* (reg, kdes) := CFBasicHashGetPtrIndex reg (copyKeyDescription cb) in
  let* (reg, vdes) := CFBasicHashGetPtrIndex reg (copyValueDescription cb) in
  let* (reg, kequ) := CFBasicHashGetPtrIndex reg (equateKeys cb) in
  let* (reg, vequ) := CFBasicHashGetPtrIndex reg (equateValues cb) in
  let* (reg, khas) := CFBasicHashGetPtrIndex reg (hashKey cb) in
  let* (reg, kget) := CFBasicHashGetPtrIndex reg (getIndirectKey cb) in
  Some (reg, mkHash 0
    (mkConfig (Z.land (Z.shiftr flags 13) 0x3) keys_offset counts_offset hashes_offset
       strong_values strong_keys weak_values weak_keys int_values int_keys indirect_keys
       (get_bit flags kCFBasicHashAggressiveGrowth)
       kret vret krel vrel kdes vdes kequ vequ khas kget)
    1 0 0 0 0 0 0 [] [] []).

Definition CFBasicHashGetFlags (ht : __CFBasicHash) : Z :=
  let flags := Z.shiftl (hash_style (config ht)) 13 in
  let flags := if CFBasicHashHasStrongValues ht then Z.lor flags kCFBasicHashStrongValues else flags in
  let flags := if CFBasicHashHasStrongKeys ht then Z.lor flags kCFBasicHashStrongKeys else flags in
  let flags := if negb (fast_grow (config ht) =? 0) then Z.lor flags kCFBasicHashAggressiveGrowth else flags in
  let flags := if has_keys ht then Z.lor flags kCFBasicHashHasKeys else flags in
  let flags := if has_counts ht then Z.lor flags kCFBasicHashHasCounts else flags in
  if __CFBasicHashHasHashCache ht then Z.lor flags kCFBasicHashHasHashCache else flags.

(** ** Operations *)

Section Table.
(** The registry's pointers, and the functions behind the pointers. *)
Context (ptrs : list Z).
Context (call_retain : Z -> Z -> Z).
Context (call_equal : Z -> Z -> Z -> bool).
Context (call_hash : Z -> Z -> Z).
Context (call_indirect : Z -> Z -> Z).

(** [CFBasicHashCallBackPtrs[i]]; the index has ten bits, the array 1024 cells. *)
Definition cb_ptr (i : Z) : Z := nth (Z.to_nat i) ptrs 0.

Definition __CFBasicHashImportValue (ht : __CFBasicHash) (stack_value : Z) : io Z :=
  let func := cb_ptr (__vret (config ht)) in
  if (func =? 0) || negb (null_rc ht =? 0) then io_ret stack_value
  else Some (call_retain func stack_value, [EvRetain func stack_value]).

Definition __CFBasicHashImportKey (ht : __CFBasicHash) (stack_key : Z) : io Z :=
  let func := cb_ptr (__kret (config ht)) in
  if (func =? 0) || negb (null_rc ht =? 0) then io_ret stack_key
  else Some (call_retain func stack_key, [EvRetain func stack_key]).

Definition __CFBasicHashEjectValue (ht : __CFBasicHash) (stack_value : Z) : io unit :=
  let func := cb_ptr (__vrel (config ht)) in
  if (func =? 0) || negb (null_rc ht =? 0) then io_ret tt else emit (EvRelease func stack_value).

Definition __CFBasicHashEjectKey (ht : __CFBasicHash) (stack_key : Z) : io unit :=
  let func := cb_ptr (__krel (config ht)) in
  if (func =? 0) || negb (null_rc ht =? 0) then io_ret tt else emit (EvRelease func stack_key).

Definition __CFBasicHashTestEqualValue (ht : __CFBasicHash) (a b : Z) : bool :=
  let func := cb_ptr (__vequ (config ht)) in
  if func =? 0 then a =? b else call_equal func a b.

Definition __CFBasicHashTestEqualKey (ht : __CFBasicHash) (in_coll_key stack_key : Z) : bool :=
  let func := cb_ptr (__kequ (config ht)) in
  if func =? 0 then in_coll_key =? stack_key else call_equal func in_coll_key stack_key.

Definition __CFBasicHashHashKey (ht : __CFBasicHash) (stack_key : Z) : Z :=
  let func := cb_ptr (__khas (config ht)) in
  if negb (func =? 0) then call_hash func stack_key else stack_key.

Definition __CFBasicHashGetIndirectKey (ht : __CFBasicHash) (coll_key : Z) : Z :=
  let func := cb_ptr (__kget (config ht)) in
  if func =? 0 then coll_key else call_indirect func coll_key.

(** What a cell stands for, and the cell a value is stored as. *)
Definition decode (v : Z) : Z :=
  if __CFBasicHashSubABZero =? v then 0 else if __CFBasicHashSubABOne =? v then ones else v.

Definition encode (v : Z) : Z :=
  if 0 =? v then __CFBasicHashSubABZero else if ones =? v then __CFBasicHashSubABOne else v.

Definition __CFBasicHashGetValue (ht : __CFBasicHash) (i : Z) : option Z :=
  let* val := rd (__CFBasicHashGetValues ht) i in Some (decode val).

Definition __CFBasicHashSetValue (ht : __CFBasicHash) (i stack_value : Z) (ignoreOld literal : bool)
    : io __CFBasicHash :=
  do* old_value := io_lift (if ignoreOld then Some 0 else rd (__CFBasicHashGetValues ht) i) in
  do* vals := io_lift (wr (__CFBasicHashGetValues ht) i (if literal then stack_value else encode stack_value)) in
  let ht := __CFBasicHashSetValues ht vals in
  if negb ignoreOld && negb ((old_value =? 0) || (old_value =? ones)) then
    do* _ := __CFBasicHashEjectValue ht (decode old_value) in io_ret ht
  else io_ret ht.

Definition __CFBasicHashGetKey (ht : __CFBasicHash) (i : Z) : option Z :=
  if has_keys ht then let* key := rd (__CFBasicHashGetKeys ht) i in Some (decode key)
  else if negb (indirect_keys (config ht) =? 0) then
    let* stack_value := __CFBasicHashGetValue ht i in
    Some (__CFBasicHashGetIndirectKey ht stack_value)
  else __CFBasicHashGetValue ht i.

Definition __CFBasicHashSetKey (ht : __CFBasicHash) (i stack_key : Z) (ignoreOld literal : bool)
    : io __CFBasicHash :=
  if negb (has_keys ht) then None else
  do* old_key := io_lift (if ignoreOld then Some 0 else rd (__CFBasicHashGetKeys ht) i) in
  do* ks := io_lift (wr (__CFBasicHashGetKeys ht) i (if literal then stack_key else encode stack_key)) in
  let ht := __CFBasicHashSetKeys ht ks in
  if negb ignoreOld && negb ((old_key =? 0) || (old_key =? ones)) then
    do* _ := __CFBasicHashEjectKey ht (decode old_key) in io_ret ht
  else io_ret ht.

Definition __CFBasicHashIsEmptyOrDeleted (ht : __CFBasicHash) (i : Z) : option bool :=
  let* stack_value := rd (__CFBasicHashGetValues ht) i in
  Some ((0 =? stack_value) || (ones =? stack_value)).

Definition __CFBasicHashIsDeleted (ht : __CFBasicHash) (i : Z) : option bool :=
  let* stack_value := rd (__CFBasicHashGetValues ht) i in Some (ones =? stack_value).

(** *** Counts

    An array of counts holds cells of 8, 16, 32 or 64 bits ([counts_width] 0
    to 3). *)

Definition __CFBasicHashGetSlotCount (ht : __CFBasicHash) (i : Z) : option Z :=
  rd (__CFBasicHashGetCounts ht) i.

(** Bits of a count. *)
Definition width_bits (w : Z) : Z := 8 * 2 ^ w.

(** [for (idx2 = 0; idx2 < num_buckets; idx2++) new[idx2] = old[idx2];] into a
    fresh block. *)
Definition widen_counts (old : list Z) (num_buckets : Z) : option (list Z) :=
  mapM (fun i => rd old (Z.of_nat i)) (seq 0 (Z.to_nat num_buckets)).

Definition __CFBasicHashBumpCounts (ht : __CFBasicHash) : option __CFBasicHash :=
  let old := __CFBasicHashGetCounts ht in
  if (0 <=? counts_width ht) && (counts_width ht <? 3) then
    let ht := set_counts_width ht (counts_width ht + 1) in
    let* num_buckets := rd __CFBasicHashTableSizes (num_buckets_idx ht) in
    let* new := widen_counts old num_buckets in
    Some (__CFBasicHashSetCounts ht new)
  else None.

(** The recursion ends at the fourth width, where a full count is [HALT]. *)
Fixpoint inc_slot_count (fuel : nat) (ht : __CFBasicHash) (i : Z) : option __CFBasicHash :=
  match fuel with
  | O => None
  | S f =>
      let* val := rd (__CFBasicHashGetCounts ht) i in
      if val <? 2 ^ (width_bits (counts_width ht) - 1) - 1 then
        let* cs := wr (__CFBasicHashGetCounts ht) i (val + 1) in
        Some (__CFBasicHashSetCounts ht cs)
      else
        let* ht := __CFBasicHashBumpCounts ht in
        inc_slot_count f ht i
  end.

Definition __CFBasicHashIncSlotCount (ht : __CFBasicHash) (i : Z) : option __CFBasicHash :=
  inc_slot_count 5 ht i.

Definition __CFBasicHashDecSlotCount (ht : __CFBasicHash) (i : Z) : option __CFBasicHash :=
  let* val := rd (__CFBasicHashGetCounts ht) i in
  let* cs := wr (__CFBasicHashGetCounts ht) i (uwrap (width_bits (counts_width ht)) (val - 1)) in
  Some (__CFBasicHashSetCounts ht cs).

(** *** Sizes *)

Definition __CFBasicHashGetCapacityForNumBuckets (i : Z) : option Z := rd __CFBasicHashTableCapacities i.

Fixpoint idx_for_capacity (rest : nat) (i capacity : Z) : option Z :=
  match rest with
  | O => None
  | S rest' =>
      let* c := __CFBasicHashGetCapacityForNumBuckets i in
      if capacity <=? c then Some i else idx_for_capacity rest' (i + 1) capacity
  end.

Definition __CFBasicHashGetNumBucketsIndexForCapacity (capacity : Z) : option Z :=
  idx_for_capacity 64 0 capacity.

Definition CFBasicHashGetNumBuckets (ht : __CFBasicHash) : option Z :=
  rd __CFBasicHashTableSizes (num_buckets_idx ht).

Definition CFBasicHashGetCapacity (ht : __CFBasicHash) : option Z :=
  __CFBasicHashGetCapacityForNumBuckets (num_buckets_idx ht).

Definition CFBasicHashGetBucket (ht : __CFBasicHash) (i : Z) : option CFBasicHashBucket :=
  let* free := __CFBasicHashIsEmptyOrDeleted ht i in
  if (free : bool) then Some (mkBucket i (Some 0) (Some 0) 0)
  else
    let* c := if has_counts ht then __CFBasicHashGetSlotCount ht i else Some 1 in
    let* v := __CFBasicHashGetValue ht i in
    let* k := __CFBasicHashGetKey ht i in
    Some (mkBucket i (Some k) (Some v) c).

(** *** Searching *)

(** The first probe [h1], the step [h2] and the primitive root [pr]. *)
Definition probe_h1 (hash_code num_buckets : Z) : Z := hash_code mod num_buckets.

Definition probe_h2 (hash_code num_buckets : Z) : Z :=
  let h2 := (hash_code / num_buckets) mod num_buckets in
  if 0 =? h2 then num_buckets - 1 else h2.

(** From one probe (and accumulated power of the root) to the next. *)
Definition next_probe (style num_buckets h1 h2 pr : Z) (st : Z * Z) : Z * Z :=
  let '(probe, acc) := st in
  if style =? 1 then
    let probe := uwrap 64 (probe + 1) in
    (if num_buckets <=? probe then probe - num_buckets else probe, acc)
  else if style =? 2 then
    let probe := uwrap 64 (probe + h2) in
    (if num_buckets <=? probe then probe - num_buckets else probe, acc)
  else
    let probe := uwrap 64 (h1 + h2 * acc) in
    let acc := uwrap 64 (acc * pr) in
    (if num_buckets <=? probe then probe mod num_buckets else probe,
     if num_buckets <=? acc then acc mod num_buckets else acc).

Fixpoint find_bucket_loop (ht : __CFBasicHash) (indirect : bool) (stack_key : Z)
    (next : Z * Z -> Z * Z) (rest : nat) (st : Z * Z) (deleted_idx : Z) : option CFBasicHashBucket :=
  match rest with
  | O => Some (mkBucket deleted_idx None None 0)
  | S rest' =>
      let probe := fst st in
      let* curr_key := rd (if has_keys ht then __CFBasicHashGetKeys ht else __CFBasicHashGetValues ht) probe in
      if curr_key =? 0 then
        Some (mkBucket (if kCFNotFound =? deleted_idx then probe else deleted_idx) None None 0)
      else if curr_key =? ones then
        find_bucket_loop ht indirect stack_key next rest' (next st)
          (if kCFNotFound =? deleted_idx then probe else deleted_idx)
      else
        let curr_key := decode curr_key in
        let curr_key := if indirect then __CFBasicHashGetIndirectKey ht curr_key else curr_key in
        if (curr_key =? stack_key) || __CFBasicHashTestEqualKey ht curr_key stack_key then
          let* v := __CFBasicHashGetValue ht probe in
          let* c := if has_counts ht then __CFBasicHashGetSlotCount ht probe else Some 1 in
          Some (mkBucket probe (Some curr_key) (Some v) c)
        else find_bucket_loop ht indirect stack_key next rest' (next st) deleted_idx
  end.

(** The search of one style, for direct or indirect keys. *)
Definition ___CFBasicHashFindBucket (style : Z) (indirect : bool) (ht : __CFBasicHash) (stack_key : Z)
    : option CFBasicHashBucket :=
  let* num_buckets := rd __CFBasicHashTableSizes (num_buckets_idx ht) in
  if num_buckets =? 0 then None else
  let hash_code := __CFBasicHashHashKey ht stack_key in
  let h1 := probe_h1 hash_code num_buckets in
  let h2 := probe_h2 hash_code num_buckets in
  let* pr := rd __CFBasicHashPrimitiveRoots (num_buckets_idx ht) in
  find_bucket_loop ht indirect stack_key (next_probe style num_buckets h1 h2 pr)
    (Z.to_nat num_buckets) (h1, pr) kCFNotFound.

(** The search of a rehash: the key is not in the table and nothing is deleted. *)
Fixpoint find_free_loop (cells : list Z) (next : Z * Z -> Z * Z) (rest : nat) (st : Z * Z) : option Z :=
  match rest with
  | O => Some kCFNotFound
  | S rest' =>
      let* curr_key := rd cells (fst st) in
      if curr_key =? 0 then Some (fst st) else find_free_loop cells next rest' (next st)
  end.

Definition ___CFBasicHashFindBucket_NoCollision (style : Z) (ht : __CFBasicHash) (stack_key key_hash : Z)
    : option Z :=
  let* num_buckets := rd __CFBasicHashTableSizes (num_buckets_idx ht) in
  if num_buckets =? 0 then None else
  let hash_code := if negb (key_hash =? 0) then key_hash else __CFBasicHashHashKey ht stack_key in
  let h1 := probe_h1 hash_code num_buckets in
  let h2 := probe_h2 hash_code num_buckets in
  let* pr := rd __CFBasicHashPrimitiveRoots (num_buckets_idx ht) in
  find_free_loop (if has_keys ht then __CFBasicHashGetKeys ht else __CFBasicHashGetValues ht)
    (next_probe style num_buckets h1 h2 pr) (Z.to_nat num_buckets) (h1, pr).

Definition known_style (style : Z) : bool :=
  (style =? __kCFBasicHashLinearHashingValue) || (style =? __kCFBasicHashDoubleHashingValue) ||
  (style =? __kCFBasicHashExponentialHashingValue).

Definition __CFBasicHashFindBucket (ht : __CFBasicHash) (stack_key : Z) : option CFBasicHashBucket :=
  if 0 =? num_buckets_idx ht then Some (mkBucket kCFNotFound (Some 0) (Some 0) 0) else
  if negb (known_style (hash_style (config ht))) then None else
  ___CFBasicHashFindBucket (hash_style (config ht)) (negb (indirect_keys (config ht) =? 0)) ht stack_key.

Definition __CFBasicHashFindBucket_NoCollision (ht : __CFBasicHash) (stack_key key_hash : Z) : option Z :=
  if 0 =? num_buckets_idx ht then Some kCFNotFound else
  if negb (known_style (hash_style (config ht))) then None else
  ___CFBasicHashFindBucket_NoCollision (hash_style (config ht)) ht stack_key key_hash.

Definition CFBasicHashFindBucket (ht : __CFBasicHash) (stack_key : Z) : option CFBasicHashBucket :=
  if (__CFBasicHashSubABZero =? stack_key) || (__CFBasicHashSubABOne =? stack_key)
  then Some (mkBucket kCFNotFound (Some 0) (Some 0) 0)
  else __CFBasicHashFindBucket ht stack_key.

(** *** Queries *)

Fixpoint sum_counts (ht : __CFBasicHash) (rest : nat) (i total : Z) : option Z :=
  match rest with
  | O => Some total
  | S rest' =>
      let* c := __CFBasicHashGetSlotCount ht i in
      sum_counts ht rest' (i + 1) (swrap 64 (total + c))
  end.

Definition CFBasicHashGetCount (ht : __CFBasicHash) : option Z :=
  if has_counts ht then
    let* cnt := rd __CFBasicHashTableSizes (num_buckets_idx ht) in
    sum_counts ht (Z.to_nat cnt) 0 0
  else Some (used_buckets ht).

Definition CFBasicHashGetCountOfKey (ht : __CFBasicHash) (stack_key : Z) : option Z :=
  if (__CFBasicHashSubABZero =? stack_key) || (__CFBasicHashSubABOne =? stack_key) then Some 0 else
  if 0 =? used_buckets ht then Some 0 else
  let* bkt := __CFBasicHashFindBucket ht stack_key in Some (swrap 64 (count bkt)).

(** A block over the buckets, with the state it captures; it says whether to
    go on. *)
Fixpoint apply_loop {S} (ht : __CFBasicHash) (block : S -> CFBasicHashBucket -> option (S * bool))
    (rest : nat) (i used : Z) (s : S) : option S :=
  match rest with
  | O => Some s
  | Datatypes.S rest' =>
      if 0 <? used then
        let* bkt := CFBasicHashGetBucket ht i in
        if 0 <? count bkt then
          let* (s, go_on) := block s bkt in
          if (go_on : bool) then apply_loop ht block rest' (i + 1) (used - 1) s else Some s
        else apply_loop ht block rest' (i + 1) used s
      else Some s
  end.

Definition CFBasicHashApply {S} (ht : __CFBasicHash) (block : S -> CFBasicHashBucket -> option (S * bool)) (s : S)
    : option S :=
  let* cnt := rd __CFBasicHashTableSizes (num_buckets_idx ht) in
  apply_loop ht block (Z.to_nat cnt) 0 (used_buckets ht) s.

Fixpoint apply_indexed_loop {S} (ht : __CFBasicHash) (block : S -> CFBasicHashBucket -> option (S * bool))
    (rest : nat) (i : Z) (s : S) : option S :=
  match rest with
  | O => Some s
  | Datatypes.S rest' =>
      let* bkt := CFBasicHashGetBucket ht i in
      if 0 <? count bkt then
        let* (s, go_on) := block s bkt in
        if (go_on : bool) then apply_indexed_loop ht block rest' (i + 1) s else Some s
      else apply_indexed_loop ht block rest' (i + 1) s
  end.

Definition CFBasicHashApplyIndexed {S} (ht : __CFBasicHash) (range : CFRange)
    (block : S -> CFBasicHashBucket -> option (S * bool)) (s : S) : option S :=
  if range_length range <? 0 then None else
  if range_length range =? 0 then Some s else
  let* cnt := rd __CFBasicHashTableSizes (num_buckets_idx ht) in
  if cnt <? location range + range_length range then None else
  apply_indexed_loop ht block (Z.to_nat (range_length range)) (location range) s.

Definition CFBasicHashGetCountOfValue (ht : __CFBasicHash) (stack_value : Z) : option Z :=
  if __CFBasicHashSubABZero =? stack_value then Some 0 else
  if 0 =? used_buckets ht then Some 0 else
  if negb (has_keys ht) then
    let* bkt := __CFBasicHashFindBucket ht stack_value in Some (swrap 64 (count bkt))
  else
    CFBasicHashApply ht (fun total bkt =>
      let* v := weak_value bkt in
      Some (if (stack_value =? v) || __CFBasicHashTestEqualValue ht v stack_value
            then swrap 64 (total + count bkt) else total, true)) 0.

Definition CFBasicHashesAreEqual (ht1 ht2 : __CFBasicHash) : option bool :=
  let* cnt1 := CFBasicHashGetCount ht1 in
  let* cnt2 := CFBasicHashGetCount ht2 in
  if negb (cnt1 =? cnt2) then Some false else
  if 0 =? cnt1 then Some true else
  CFBasicHashApply ht1 (fun equal bkt1 =>
    let* k1 := weak_key bkt1 in
    let* bkt2 := __CFBasicHashFindBucket ht2 k1 in
    if negb (count bkt1 =? count bkt2) then Some (false, false) else
    if has_keys ht1 then
      let* v1 := weak_value bkt1 in
      let* v2 := weak_value bkt2 in
      if negb (v1 =? v2) && negb (__CFBasicHashTestEqualValue ht1 v1 v2) then Some (false, false)
      else Some (equal, true)
    else Some (equal, true)) true.

Definition __CFBasicHashEqual (cf1 cf2 : __CFBasicHash) : option bool := CFBasicHashesAreEqual cf1 cf2.

Definition __CFBasicHashHash (cf : __CFBasicHash) : option Z :=
  let* c := CFBasicHashGetCount cf in Some (uwrap 64 c).

(** One store into a buffer that may be NULL. *)
Definition put (buf : option (list Z)) (i v : Z) : option (option (list Z)) :=
  match buf with
  | None => Some None
  | Some b => let* b := wr b i v in Some (Some b)
  end.

(** [for (CFIndex cnt = bkt.count; cnt-- && offset < bufferslen;)] *)
Fixpoint emit_element (bkt : CFBasicHashBucket) (bufferslen : Z) (cnt : nat) (offset : Z)
    (weak_values weak_keys : option (list Z)) : option (Z * option (list Z) * option (list Z)) :=
  match cnt with
  | O => Some (offset, weak_values, weak_keys)
  | S cnt' =>
      if offset <? bufferslen then
        let* v := weak_value bkt in
        let* k := weak_key bkt in
        let* weak_values := put weak_values offset v in
        let* weak_keys := put weak_keys offset k in
        emit_element bkt bufferslen cnt' (offset + 1) weak_values weak_keys
      else Some (offset, weak_values, weak_keys)
  end.

Fixpoint get_elements_loop (ht : __CFBasicHash) (bufferslen : Z) (rest : nat) (i used offset : Z)
    (weak_values weak_keys : option (list Z)) : option (option (list Z) * option (list Z)) :=
  match rest with
  | O => Some (weak_values, weak_keys)
  | S rest' =>
      if (0 <? used) && (offset <? bufferslen) then
        let* bkt := CFBasicHashGetBucket ht i in
        if 0 <? count bkt then
          let* (offset, weak_values, weak_keys) :=
            emit_element bkt bufferslen (Z.to_nat (count bkt)) offset weak_values weak_keys in
          get_elements_loop ht bufferslen rest' (i + 1) (used - 1) offset weak_values weak_keys
        else get_elements_loop ht bufferslen rest' (i + 1) used offset weak_values weak_keys
      else Some (weak_values, weak_keys)
  end.

Definition CFBasicHashGetElements (ht : __CFBasicHash) (bufferslen : Z) (weak_values weak_keys : option (list Z))
    : option (option (list Z) * option (list Z)) :=
  let* cnt := rd __CFBasicHashTableSizes (num_buckets_idx ht) in
  get_elements_loop ht bufferslen (Z.to_nat cnt) 0 (used_buckets ht) 0 weak_values weak_keys.

(** The state of an enumeration; [mutationsPtr] is set once it points to the
    table's bits. *)
Record fast_enumeration := mkEnumeration { state : Z; mutationsPtr : bool; itemsPtr : list Z }.

Fixpoint enumerate_loop (ht : __CFBasicHash) (cnt : Z) (rest : nat) (i used cntx limit st : Z) (items : list Z)
    : option (Z * Z * list Z) :=
  match rest with
  | O => Some (cntx, st, items)
  | S rest' =>
      if (0 <? used) && (i <? cnt) && (cntx <? limit) then
        let* bkt := CFBasicHashGetBucket ht i in
        if 0 <? count bkt then
          let* k := weak_key bkt in
          let* items := wr items cntx k in
          enumerate_loop ht cnt rest' (i + 1) (used - 1) (cntx + 1) limit (st + 1) items
        else enumerate_loop ht cnt rest' (i + 1) used cntx limit (st + 1) items
      else Some (cntx, st, items)
  end.

(** The loop starts at bucket [state] and stops at the last one, so it makes
    no more rounds than there are buckets. *)
Definition __CFBasicHashFastEnumeration (ht : __CFBasicHash) (s : fast_enumeration) (stackbuffer : list Z)
    (limit : Z) : option (Z * fast_enumeration) :=
  let mp := if 0 =? state s then true else mutationsPtr s in
  let* cnt := rd __CFBasicHashTableSizes (num_buckets_idx ht) in
  let* (cntx, st, items) :=
    enumerate_loop ht cnt (Z.to_nat cnt) (state s) (used_buckets ht) 0 limit (state s) stackbuffer in
  Some (cntx, mkEnumeration st mp items).

(** *** Changing the table *)

Fixpoint drain_loop (ht : __CFBasicHash) (old_values old_keys : list Z) (rest : nat) (i : Z) : io unit :=
  match rest with
  | O => io_ret tt
  | S rest' =>
      do* stack_value := io_lift (rd old_values i) in
      do* _ :=
        if negb (stack_value =? 0) && negb (stack_value =? ones) then
          do* _ := __CFBasicHashEjectValue ht (decode stack_value) in
          if nonnull old_keys then
            do* old_key := io_lift (rd old_keys i) in
            __CFBasicHashEjectKey ht (decode old_key)
          else io_ret tt
        else io_ret tt in
      drain_loop ht old_values old_keys rest' (i + 1)
  end.

(** Without garbage collection [nullify] is always true. *)
Definition __CFBasicHashDrain (ht : __CFBasicHash) (forFinalization : bool) : io __CFBasicHash :=
  do* old_num_buckets := io_lift (rd __CFBasicHashTableSizes (num_buckets_idx ht)) in
  let old_values := __CFBasicHashGetValues ht in
  let old_keys := if has_keys ht then __CFBasicHashGetKeys ht else [] in
  let ht := __CFBasicHashSetValues ht [] in
  let ht := if has_keys ht then __CFBasicHashSetKeys ht [] else ht in
  let ht := if has_counts ht then __CFBasicHashSetCounts ht [] else ht in
  let ht := set_deleted (set_used_buckets (set_num_buckets_idx (bump_mutations ht) 0) 0) 0 in
  do* _ := drain_loop ht old_values old_keys (Z.to_nat old_num_buckets) 0 in
  io_ret ht.

Fixpoint rehash_loop (old_values old_keys old_counts : list Z) (rest : nat) (i : Z) (ht : __CFBasicHash)
    : io __CFBasicHash :=
  match rest with
  | O => io_ret ht
  | S rest' =>
      do* cell := io_lift (rd old_values i) in
      do* ht :=
        if negb (cell =? 0) && negb (cell =? ones) then
          let stack_value := decode cell in
          do* stack_key :=
            if has_keys ht then
              do* k := io_lift (rd old_keys i) in io_ret (decode k)
            else io_ret stack_value in
          let stack_key :=
            if negb (indirect_keys (config ht) =? 0)
            then __CFBasicHashGetIndirectKey ht stack_value else stack_key in
          do* bkt_idx := io_lift (__CFBasicHashFindBucket_NoCollision ht stack_key 0) in
          do* ht := __CFBasicHashSetValue ht bkt_idx stack_value false false in
          do* ht := if nonnull old_keys then __CFBasicHashSetKey ht bkt_idx stack_key false false
                    else io_ret ht in
          if nonnull old_counts then
            do* c := io_lift (rd old_counts i) in
            do* cs := io_lift (wr (__CFBasicHashGetCounts ht) bkt_idx c) in
            io_ret (__CFBasicHashSetCounts ht cs)
          else io_ret ht
        else io_ret ht in
      rehash_loop old_values old_keys old_counts rest' (i + 1) ht
  end.

Definition rehash_idx (ht : __CFBasicHash) (newItemCount : Z) : option Z :=
  if negb (0 =? newItemCount) then
    let newItemCount := if newItemCount <? 0 then 0 else newItemCount in
    let* i := __CFBasicHashGetNumBucketsIndexForCapacity (used_buckets ht + newItemCount) in
    Some (if (1 =? newItemCount) && negb (fast_grow (config ht) =? 0) then i + 1 else i)
  else Some (num_buckets_idx ht).

Definition __CFBasicHashRehash (ht : __CFBasicHash) (newItemCount : Z) : io __CFBasicHash :=
  do* new_num_buckets_idx := io_lift (rehash_idx ht newItemCount) in
  do* new_num_buckets := io_lift (rd __CFBasicHashTableSizes new_num_buckets_idx) in
  do* old_num_buckets := io_lift (rd __CFBasicHashTableSizes (num_buckets_idx ht)) in
  let fresh := if 0 <? new_num_buckets then replicate (Z.to_nat new_num_buckets) 0 else [] in
  let ht := set_deleted (set_num_buckets_idx ht (uwrap 8 new_num_buckets_idx)) 0 in
  let old_values := __CFBasicHashGetValues ht in
  let old_keys := if has_keys ht then __CFBasicHashGetKeys ht else [] in
  let old_counts := if has_counts ht then __CFBasicHashGetCounts ht else [] in
  let ht := __CFBasicHashSetValues ht fresh in
  let ht := if has_keys ht then __CFBasicHashSetKeys ht fresh else ht in
  let ht := if has_counts ht then __CFBasicHashSetCounts ht fresh else ht in
  rehash_loop old_values old_keys old_counts (Z.to_nat old_num_buckets) 0 ht.

Definition CFBasicHashSetCapacity (ht : __CFBasicHash) (capacity : Z) : io __CFBasicHash :=
  if negb (CFBasicHashIsMutable ht) then None else
  if used_buckets ht <? capacity then
    __CFBasicHashRehash (bump_mutations ht) (capacity - used_buckets ht)
  else io_ret ht.

Definition __CFBasicHashAddValue (ht : __CFBasicHash) (bkt_idx stack_key stack_value : Z) : io __CFBasicHash :=
  let ht := bump_mutations ht in
  do* capacity := io_lift (CFBasicHashGetCapacity ht) in
  do* (ht, bkt_idx) :=
    if capacity <? uwrap 32 (used_buckets ht + 1) then
      do* ht := __CFBasicHashRehash ht 1 in
      do* i := io_lift (__CFBasicHashFindBucket_NoCollision ht stack_key 0) in
      io_ret (ht, i)
    else
      do* del := io_lift (__CFBasicHashIsDeleted ht bkt_idx) in
      io_ret (if (del : bool) then set_deleted ht (uwrap 16 (deleted ht - 1)) else ht, bkt_idx) in
  do* stack_value := __CFBasicHashImportValue ht stack_value in
  do* stack_key := if has_keys ht then __CFBasicHashImportKey ht stack_key else io_ret stack_key in
  do* ht := __CFBasicHashSetValue ht bkt_idx stack_value false false in
  do* ht := if has_keys ht then __CFBasicHashSetKey ht bkt_idx stack_key false false else io_ret ht in
  do* ht := if has_counts ht then io_lift (__CFBasicHashIncSlotCount ht bkt_idx) else io_ret ht in
  io_ret (set_used_buckets ht (uwrap 32 (used_buckets ht + 1))).

Definition __CFBasicHashReplaceValue (ht : __CFBasicHash) (bkt_idx stack_key stack_value : Z) : io __CFBasicHash :=
  let ht := bump_mutations ht in
  do* stack_value := __CFBasicHashImportValue ht stack_value in
  do* stack_key := if has_keys ht then __CFBasicHashImportKey ht stack_key else io_ret stack_key in
  do* ht := __CFBasicHashSetValue ht bkt_idx stack_value false false in
  if has_keys ht then __CFBasicHashSetKey ht bkt_idx stack_key false false else io_ret ht.

Definition __CFBasicHashRemoveValue (ht : __CFBasicHash) (bkt_idx : Z) : io __CFBasicHash :=
  let ht := bump_mutations ht in
  do* ht := __CFBasicHashSetValue ht bkt_idx ones false true in
  do* ht := if has_keys ht then __CFBasicHashSetKey ht bkt_idx ones false true else io_ret ht in
  do* ht := if has_counts ht then io_lift (__CFBasicHashDecSlotCount ht bkt_idx) else io_ret ht in
  let ht := set_used_buckets ht (uwrap 32 (used_buckets ht - 1)) in
  let ht := set_deleted ht (uwrap 16 (deleted ht + 1)) in
  let back := if negb (fast_grow (config ht) =? 0) then 5 else 2 in
  do* do_shrink :=
    if back <? num_buckets_idx ht then
      do* c := io_lift (__CFBasicHashGetCapacityForNumBuckets (num_buckets_idx ht - back)) in
      io_ret (used_buckets ht <? c)
    else io_ret false in
  if (do_shrink : bool) then __CFBasicHashRehash ht (-1) else
  do* num_buckets := io_lift (rd __CFBasicHashTableSizes (num_buckets_idx ht)) in
  if (0 =? deleted ht) || ((20 <=? num_buckets) && (num_buckets / 4 <=? deleted ht))
  then __CFBasicHashRehash ht 0 else io_ret ht.

(** The tests at the head of the functions that store a pair. *)
Definition storable (ht : __CFBasicHash) (stack_key stack_value : Z) : bool :=
  CFBasicHashIsMutable ht &&
  negb (__CFBasicHashSubABZero =? stack_key) && negb (__CFBasicHashSubABOne =? stack_key) &&
  negb (__CFBasicHashSubABZero =? stack_value) && negb (__CFBasicHashSubABOne =? stack_value).

Definition INT64_MAX : Z := 2 ^ 63 - 1.

Definition CFBasicHashAddValue (ht : __CFBasicHash) (stack_key stack_value : Z) : io (__CFBasicHash * bool) :=
  if negb (storable ht stack_key stack_value) then None else
  do* bkt := io_lift (__CFBasicHashFindBucket ht stack_key) in
  if 0 <? count bkt then
    let ht := bump_mutations ht in
    if has_counts ht && (count bkt <? INT64_MAX) then
      do* ht := io_lift (__CFBasicHashIncSlotCount ht (idx bkt)) in
      io_ret (ht, true)
    else io_ret (ht, false)
  else
    do* ht := __CFBasicHashAddValue ht (idx bkt) stack_key stack_value in
    io_ret (ht, true).

Definition CFBasicHashReplaceValue (ht : __CFBasicHash) (stack_key stack_value : Z) : io __CFBasicHash :=
  if negb (storable ht stack_key stack_value) then None else
  do* bkt := io_lift (__CFBasicHashFindBucket ht stack_key) in
  if 0 <? count bkt then __CFBasicHashReplaceValue ht (idx bkt) stack_key stack_value else io_ret ht.

Definition CFBasicHashSetValue (ht : __CFBasicHash) (stack_key stack_value : Z) : io __CFBasicHash :=
  if negb (storable ht stack_key stack_value) then None else
  do* bkt := io_lift (__CFBasicHashFindBucket ht stack_key) in
  if 0 <? count bkt then __CFBasicHashReplaceValue ht (idx bkt) stack_key stack_value
  else __CFBasicHashAddValue ht (idx bkt) stack_key stack_value.

(** Take one occurrence of a bucket out. *)
Definition remove_bucket (ht : __CFBasicHash) (bkt : CFBasicHashBucket) : io (__CFBasicHash * Z) :=
  if 1 <? count bkt then
    let ht := bump_mutations ht in
    do* ht := if has_counts ht && (count bkt <? INT64_MAX)
              then io_lift (__CFBasicHashDecSlotCount ht (idx bkt)) else io_ret ht in
    io_ret (ht, count bkt)
  else if 0 <? count bkt then
    do* ht := __CFBasicHashRemoveValue ht (idx bkt) in
    io_ret (ht, count bkt)
  else io_ret (ht, count bkt).

Definition CFBasicHashRemoveValue (ht : __CFBasicHash) (stack_key : Z) : io (__CFBasicHash * Z) :=
  if negb (CFBasicHashIsMutable ht) then None else
  if (__CFBasicHashSubABZero =? stack_key) || (__CFBasicHashSubABOne =? stack_key) then io_ret (ht, 0) else
  do* bkt := io_lift (__CFBasicHashFindBucket ht stack_key) in
  remove_bucket ht bkt.

Definition CFBasicHashRemoveValueAtIndex (ht : __CFBasicHash) (i : Z) : io (__CFBasicHash * Z) :=
  if negb (CFBasicHashIsMutable ht) then None else
  do* bkt := io_lift (CFBasicHashGetBucket ht i) in
  remove_bucket ht bkt.

Definition CFBasicHashRemoveAllValues (ht : __CFBasicHash) : io __CFBasicHash :=
  if negb (CFBasicHashIsMutable ht) then None else
  if 0 =? num_buckets_idx ht then io_ret ht else __CFBasicHashDrain ht false.

Definition __CFBasicHashDeallocate (cf : __CFBasicHash) : io __CFBasicHash :=
  if negb (finalized cf =? 0) then None else __CFBasicHashDrain (set_finalized cf 1) true.

(** [for (idx = 0; idx < cnt; idx++)]: the integer values from [int_value] on
    move up by one. *)
Fixpoint inc_loop (int_value : Z) (rest : nat) (i : Z) (ht : __CFBasicHash) : io __CFBasicHash :=
  match rest with
  | O => io_ret ht
  | S rest' =>
      do* free := io_lift (__CFBasicHashIsEmptyOrDeleted ht i) in
      do* ht :=
        if negb free then
          do* stack_value := io_lift (__CFBasicHashGetValue ht i) in
          if int_value <=? stack_value then
            do* ht := __CFBasicHashSetValue ht i (uwrap 64 (stack_value + 1)) true false in
            io_ret (bump_mutations ht)
          else io_ret ht
        else io_ret ht in
      inc_loop int_value rest' (i + 1) ht
  end.

Definition CFBasicHashAddIntValueAndInc (ht : __CFBasicHash) (stack_key int_value : Z) : io (__CFBasicHash * bool) :=
  if negb (storable ht stack_key int_value) then None else
  do* bkt := io_lift (__CFBasicHashFindBucket ht stack_key) in
  if 0 <? count bkt then io_ret (bump_mutations ht, false)
  else
    do* capacity := io_lift (CFBasicHashGetCapacity ht) in
    do* (ht, bkt_idx) :=
      if capacity <? uwrap 32 (used_buckets ht + 1) then
        do* ht := __CFBasicHashRehash ht 1 in
        do* i := io_lift (__CFBasicHashFindBucket_NoCollision ht stack_key 0) in
        io_ret (ht, i)
      else io_ret (ht, idx bkt) in
    do* cnt := io_lift (rd __CFBasicHashTableSizes (num_buckets_idx ht)) in
    do* ht := inc_loop int_value (Z.to_nat cnt) 0 ht in
    do* ht := __CFBasicHashAddValue ht bkt_idx stack_key int_value in
    io_ret (ht, true).

(** The integer values above [int_value] move down by one; the bucket that
    holds it is noted. *)
Fixpoint dec_loop (int_value : Z) (rest : nat) (i bkt_idx : Z) (ht : __CFBasicHash) : io (__CFBasicHash * Z) :=
  match rest with
  | O => io_ret (ht, bkt_idx)
  | S rest' =>
      do* free := io_lift (__CFBasicHashIsEmptyOrDeleted ht i) in
      do* (ht, bkt_idx) :=
        if negb free then
          do* stack_value := io_lift (__CFBasicHashGetValue ht i) in
          let bkt_idx := if int_value =? stack_value then i else bkt_idx in
          if int_value <? stack_value then
            do* ht := __CFBasicHashSetValue ht i (uwrap 64 (stack_value - 1)) true false in
            io_ret (bump_mutations ht, bkt_idx)
          else io_ret (ht, bkt_idx)
        else io_ret (ht, bkt_idx) in
      dec_loop int_value rest' (i + 1) bkt_idx ht
  end.

Definition CFBasicHashRemoveIntValueAndDec (ht : __CFBasicHash) (int_value : Z) : io __CFBasicHash :=
  if negb (CFBasicHashIsMutable ht) || (__CFBasicHashSubABZero =? int_value) || (__CFBasicHashSubABOne =? int_value)
  then None else
  do* cnt := io_lift (rd __CFBasicHashTableSizes (num_buckets_idx ht)) in
  do* (ht, bkt_idx) := dec_loop int_value (Z.to_nat cnt) 0 ones ht in
  __CFBasicHashRemoveValue ht (swrap 64 bkt_idx).

(** *** Copies

    [fresh_values], [fresh_keys] and [fresh_counts] are the contents of the
    newly allocated blocks. *)

Fixpoint copy_loop (old_values old_keys : list Z) (rest : nat) (i : Z) (ht : __CFBasicHash) : io __CFBasicHash :=
  match rest with
  | O => io_ret ht
  | S rest' =>
      do* stack_value := io_lift (rd old_values i) in
      do* ht :=
        if negb (stack_value =? 0) && negb (stack_value =? ones) then
          do* v := __CFBasicHashImportValue ht (decode stack_value) in
          do* ht := __CFBasicHashSetValue ht i v true false in
          if nonnull old_keys then
            do* old_key := io_lift (rd old_keys i) in
            do* k := __CFBasicHashImportKey ht (decode old_key) in
            __CFBasicHashSetKey ht i k true false
          else io_ret ht
        else
          do* ht := __CFBasicHashSetValue ht i stack_value true true in
          if nonnull old_keys then __CFBasicHashSetKey ht i stack_value true true else io_ret ht in
      copy_loop old_values old_keys rest' (i + 1) ht
  end.

Definition CFBasicHashCreateCopy (src_ht : __CFBasicHash) (fresh_values fresh_keys fresh_counts : list Z)
    : io __CFBasicHash :=
  do* new_num_buckets := io_lift (rd __CFBasicHashTableSizes (num_buckets_idx src_ht)) in
  let ht := mkHash 0 (config src_ht) 1 (counts_width src_ht) (used_buckets src_ht) (deleted src_ht)
              (num_buckets_idx src_ht) (null_rc src_ht) 0 [] [] [] in
  if 0 =? new_num_buckets then io_ret ht else
  let old_keys := if has_keys src_ht then __CFBasicHashGetKeys src_ht else [] in
  let ht := __CFBasicHashSetValues ht fresh_values in
  let ht := if has_keys src_ht then __CFBasicHashSetKeys ht fresh_keys else ht in
  let ht := if has_counts src_ht then __CFBasicHashSetCounts ht fresh_counts else ht in
  do* ht := copy_loop (__CFBasicHashGetValues src_ht) old_keys (Z.to_nat new_num_buckets) 0 ht in
  if has_counts src_ht then
    do* cs := io_lift (memmove (__CFBasicHashGetCounts ht) 0 (__CFBasicHashGetCounts src_ht) 0 new_num_buckets) in
    io_ret (__CFBasicHashSetCounts ht cs)
  else io_ret ht.

End Table.

