(* ===== verification/CFBasicHashProbe.v ===== *)
(** * CFBasicHashProbe: probe sequences visit every bucket

    The three probe sequences of CFBasicHashFindBucket.m in closed form, and
    the fact that each of them visits every bucket exactly once.  Linear probing
    needs nothing; double hashing needs the number of buckets to be prime, and
    exponential hashing needs the primitive roots of the table to be primitive
    roots.  Both are checked here for the sizes up to [max_idx], by evaluation. *)

From S2P Require Import Prelude CFInternal CFBasicHash.
From stdpp Require Import base list numbers option sets.
From Stdlib Require Import ZArith Znumtheory Zpow_facts Lia.
Open Scope Z_scope.

(** For a prime [p]: a primitive root and the prime factors of [p - 1].  The sizes
    1 to 43 of the tables with their roots, and the primes below they need. *)
Definition prime_certificates : list (Z * Z * list Z) :=
  [(3, 2, [2]); (5, 2, [2; 2]); (7, 3, [2; 3]); (11, 2, [2; 5]); (13, 2, [2; 2; 3]);
   (17, 3, [2; 2; 2; 2]); (19, 2, [2; 3; 3]); (23, 5, [2; 11]); (29, 2, [2; 2; 7]);
   (31, 3, [2; 3; 5]); (37, 2, [2; 2; 3; 3]); (41, 6, [2; 2; 2; 5]); (43, 3, [2; 3;
   7]); (47, 5, [2; 23]); (53, 2, [2; 2; 13]); (59, 2, [2; 29]); (67, 2, [2; 3; 11]);
   (71, 7, [2; 5; 7]); (73, 5, [2; 2; 2; 3; 3]); (79, 3, [2; 3; 13]); (83, 2, [2; 41]);
   (89, 3, [2; 2; 2; 11]); (101, 2, [2; 2; 5; 5]); (103, 5, [2; 3; 17]); (107, 2, [2;
   53]); (109, 6, [2; 2; 3; 3; 3]); (113, 3, [2; 2; 2; 2; 7]); (127, 3, [2; 3; 3; 7]);
   (131, 2, [2; 5; 13]); (139, 2, [2; 3; 23]); (173, 2, [2; 2; 43]); (179, 2, [2; 89]);
   (181, 2, [2; 2; 3; 3; 5]); (191, 19, [2; 5; 19]); (229, 6, [2; 2; 3; 19]); (233, 3,
   [2; 2; 2; 29]); (239, 7, [2; 7; 17]); (251, 6, [2; 5; 5; 5]); (269, 2, [2; 2; 67]);
   (307, 5, [2; 3; 3; 17]); (337, 10, [2; 2; 2; 2; 3; 7]); (347, 2, [2; 173]); (349, 2,
   [2; 2; 3; 29]); (383, 5, [2; 191]); (433, 5, [2; 2; 2; 2; 3; 3; 3]); (449, 3, [2; 2;
   2; 2; 2; 2; 7]); (463, 3, [2; 3; 7; 11]); (467, 2, [2; 233]); (613, 2, [2; 2; 3; 3;
   17]); (631, 3, [2; 3; 3; 5; 7]); (673, 5, [2; 2; 2; 2; 2; 3; 7]); (997, 7, [2; 2; 3;
   83]); (1033, 5, [2; 2; 2; 3; 43]); (1087, 3, [2; 3; 181]); (1223, 5, [2; 13; 47]);
   (1321, 13, [2; 2; 2; 3; 5; 11]); (1429, 6, [2; 2; 3; 7; 17]); (1723, 3, [2; 3; 7;
   41]); (1993, 5, [2; 2; 2; 3; 83]); (2081, 3, [2; 2; 2; 2; 2; 5; 13]); (2803, 2, [2;
   3; 467]); (4523, 5, [2; 7; 17; 19]); (5393, 3, [2; 2; 2; 2; 337]); (5531, 10, [2; 5;
   7; 79]); (7351, 6, [2; 3; 5; 5; 7; 7]); (8447, 5, [2; 41; 103]); (8969, 3, [2; 2; 2;
   19; 59]); (11959, 3, [2; 3; 1993]); (13331, 2, [2; 5; 31; 43]); (14723, 2, [2; 17;
   433]); (17863, 6, [2; 3; 13; 229]); (19447, 3, [2; 3; 7; 463]); (31231, 6, [2; 3; 3;
   5; 347]); (35753, 3, [2; 2; 2; 41; 109]); (46103, 10, [2; 7; 37; 89]); (50683, 2,
   [2; 3; 8447]); (71453, 2, [2; 2; 17863]); (81919, 3, [2; 3; 3; 3; 37; 41]); (87491,
   2, [2; 5; 13; 673]); (132607, 3, [2; 3; 3; 53; 139]); (142907, 2, [2; 71453]);
   (179381, 2, [2; 2; 5; 8969]); (207377, 3, [2; 2; 2; 2; 13; 997]); (214519, 3, [2; 3;
   35753]); (237619, 7, [2; 3; 3; 43; 307]); (346607, 5, [2; 13; 13331]); (441361, 11,
   [2; 2; 2; 2; 3; 3; 5; 613]); (561109, 10, [2; 2; 3; 19; 23; 107]); (611449, 7, [2;
   2; 2; 3; 73; 349]); (640853, 2, [2; 2; 131; 1223]); (907759, 3, [2; 3; 3; 29; 37;
   47]); (907843, 5, [2; 3; 13; 103; 113]); (1143257, 3, [2; 2; 2; 142907]); (1468927,
   3, [2; 3; 3; 79; 1033]); (2376191, 22, [2; 5; 237619]); (3845119, 3, [2; 3;
   640853]); (6221311, 3, [2; 3; 5; 207377]); (10066421, 3, [2; 2; 5; 7; 13; 5531]);
   (16287743, 5, [2; 41; 139; 1429]); (26354171, 2, [2; 5; 179; 14723]); (42641881, 22,
   [2; 2; 2; 3; 5; 269; 1321]); (45018823, 5, [2; 3; 17; 441361]); (55819259, 2, [2;
   11; 29; 87491]); (68996069, 2, [2; 2; 19; 907843]); (111638519, 11, [2; 55819259]);
   (180634607, 5, [2; 79; 1143257]); (292272623, 5, [2; 239; 611449]); (472907251, 2,
   [2; 3; 3; 5; 5; 5; 101; 2081]); (540225877, 2, [2; 2; 3; 45018823]); (765180413, 3,
   [2; 2; 79; 449; 5393]); (1238087663, 10, [2; 7; 17; 29; 179381]); (2003267557, 2,
   [2; 2; 3; 3; 17; 71; 46103]); (3241355263, 3, [2; 3; 540225877])].

(** ** Primitive roots *)

Definition primitive_rootb (n g : Z) (factors : list Z) : bool :=
  (foldr Z.mul 1 factors =? n - 1) &&
  (Zpow_mod g (n - 1) n =? 1) &&
  forallb (fun q => negb (Zpow_mod g ((n - 1) / q) n =? 1)) factors.

Lemma coprime_product m (l : list Z) :
  (forall q, q ∈ l -> Z.coprime m q) -> Z.coprime m (foldr Z.mul 1 l).
Proof.
  induction l as [|q l IH]; intros H; simpl; [apply Z.coprime_1_r|].
  apply Z.coprime_mul_r; [apply H; set_solver|apply IH; set_solver].
Qed.

Lemma common_factor m (l : list Z) :
  1 < m -> (m | foldr Z.mul 1 l) -> (forall q, q ∈ l -> Z.prime q) -> exists q, q ∈ l /\ (q | m).
Proof.
  intros Hm Hd Hp.
  destruct (decide (Exists (fun q => m mod q = 0) l)) as [E|E].
  - apply list.Exists_exists in E as (q & Hin & Hq). exists q. split; [done|].
    apply Z.mod_divide; [|done]. pose proof (Z.prime_ge_2 q (Hp q Hin)). lia.
  - exfalso. assert (Z.coprime m (foldr Z.mul 1 l)) as Hrp.
    { apply coprime_product. intros q Hq. pose proof (Z.prime_ge_2 q (Hp q Hq)).
      apply Z.Symmetric_coprime, Z.coprime_prime_l; [auto|].
      intros Hdiv. apply E, list.Exists_exists. exists q. split; [done|]. apply Z.mod_divide; [lia|done]. }
    assert (m | 1) as H1 by (rewrite <- Hrp; by apply Z.gcd_greatest).
    apply Z.divide_1_r_nonneg in H1; lia.
Qed.

Lemma pow_mod_1 g n a k : 1 < n -> 0 <= a -> 0 <= k -> g ^ a mod n = 1 -> g ^ (a * k) mod n = 1.
Proof.
  intros Hn Ha Hk H. rewrite Z.pow_mul_r by done. rewrite Zpower_mod, H by lia.
  rewrite Z.pow_1_l by done. apply Z.mod_small. lia.
Qed.

(** No power of a primitive root below [n - 1] is 1. *)
Lemma primitive_root_order n g factors :
  1 < n -> (forall q, q ∈ factors -> Z.prime q) -> primitive_rootb n g factors = true ->
  forall d, 0 < d < n - 1 -> g ^ d mod n <> 1.
Proof.
  intros Hn Hprime. unfold primitive_rootb. rewrite !andb_true_iff, forallb_forall. intros [[Hf H1] Hq].
  apply Z.eqb_eq in Hf. rewrite Zpow_mod_correct in H1 by lia. apply Z.eqb_eq in H1.
  assert (forall q, q ∈ factors -> Z.prime q /\ g ^ ((n - 1) / q) mod n <> 1) as Hq'.
  { intros q Hin. split; [auto|]. apply list_elem_of_In, Hq in Hin. rewrite Zpow_mod_correct in Hin by lia.
    intros E. rewrite E in Hin. done. }
  induction d as [d IH] using (well_founded_induction (Z.lt_wf 0)). intros Hd E.
  assert (0 <= (n - 1) mod d < d) as Hr by (apply Z.mod_pos_bound; lia).
  pose proof (Z.div_mod (n - 1) d ltac:(lia)) as Hdm.
  assert (0 < (n - 1) / d) by (apply Z.div_str_pos; lia).
  destruct (decide ((n - 1) mod d = 0)) as [E0|Hne].
  - set (m := (n - 1) / d) in *. assert (1 < m) by nia.
    destruct (common_factor m factors) as (q & Hin & [k Hk]); [done| |naive_solver|].
    { rewrite Hf. exists d. lia. }
    destruct (Hq' q Hin) as [Hp Hne]. pose proof (Z.prime_ge_2 q Hp). apply Hne.
    replace ((n - 1) / q) with (d * k); [apply pow_mod_1; nia|].
    apply Z.div_unique_exact; [lia|]. nia.
  - apply (IH ((n - 1) mod d)); [lia..|].
    assert (g ^ (n - 1) mod n = (g ^ ((n - 1) mod d)) mod n) as <-; [|done].
    rewrite Hdm at 1. rewrite Z.pow_add_r by nia. rewrite Z.mul_mod, pow_mod_1 by (try done; lia).
    rewrite Z.mul_1_l. by rewrite Z.mod_mod by lia.
Qed.

(** A map of 0..n-1 into itself that is one to one reaches everything. *)
Lemma injective_surjective (f : nat -> nat) n :
  (forall i, (i < n)%nat -> (f i < n)%nat) ->
  (forall i j, (i < n)%nat -> (j < n)%nat -> f i = f j -> i = j) ->
  forall k, (k < n)%nat -> exists i, (i < n)%nat /\ f i = k.
Proof.
  intros Hr Hinj k Hk.
  assert (NoDup (f <$> seq 0 n)) as Hnd.
  { apply NoDup_fmap_2_strong; [|apply NoDup_seq]. intros i j Hi Hj.
    apply elem_of_seq in Hi, Hj. apply Hinj; lia. }
  assert (f <$> seq 0 n ≡ₚ seq 0 n) as Hp.
  { apply submseteq_length_Permutation; [|by rewrite length_fmap].
    apply NoDup_submseteq; [done|]. intros x Hx. apply list_elem_of_fmap in Hx as (i & -> & Hi).
    apply elem_of_seq in Hi. apply elem_of_seq. specialize (Hr i). lia. }
  assert (k ∈ f <$> seq 0 n) as Hin by (rewrite Hp; apply elem_of_seq; lia).
  apply list_elem_of_fmap in Hin as (i & -> & Hi). apply elem_of_seq in Hi. exists i. split; [lia|done].
Qed.

(** Powers of a number of order [n - 1] differ. *)
Lemma pow_mod_injective n g factors i j :
  1 < n -> (forall q, q ∈ factors -> Z.prime q) -> primitive_rootb n g factors = true ->
  0 <= i <= j -> j < n - 1 -> g ^ i mod n = g ^ j mod n -> i = j.
Proof.
  intros Hn Hp Hc Hi Hj E. destruct (decide (i = j)) as [|Hne]; [done|exfalso].
  apply (primitive_root_order n g factors Hn Hp Hc (j - i)); [lia|].
  unfold primitive_rootb in Hc. rewrite !andb_true_iff in Hc. destruct Hc as [[_ H1] _].
  rewrite Zpow_mod_correct in H1 by lia. apply Z.eqb_eq in H1.
  assert (g ^ (n - 1 - i) * g ^ j = g ^ (j - i) * g ^ (n - 1)) as Ej
    by (rewrite <- !Z.pow_add_r by lia; f_equal; lia).
  assert (g ^ (n - 1 - i) * g ^ i = g ^ (n - 1)) as Ei by (rewrite <- !Z.pow_add_r by lia; f_equal; lia).
  apply (f_equal (fun x => x mod n)) in Ej, Ei.
  rewrite (Z.mul_mod (g ^ (j - i))), H1, Z.mul_1_r, Z.mod_mod in Ej by lia.
  rewrite <- Ej, Z.mul_mod, <- E, <- Z.mul_mod, Ei by lia. done.
Qed.

Lemma pow_mod_nonzero n g factors i :
  1 < n -> primitive_rootb n g factors = true -> 0 <= i -> forall m, 1 < m -> (m | n) -> ~ (m | g ^ i).
Proof.
  intros Hn Hc Hi m Hm Hmn Hmg. unfold primitive_rootb in Hc. rewrite !andb_true_iff in Hc. destruct Hc as [[_ H1] _].
  rewrite Zpow_mod_correct in H1 by lia. apply Z.eqb_eq in H1.
  assert (g ^ ((n - 1) * (i + 1)) mod n = 1) as H2 by (apply pow_mod_1; lia).
  replace ((n - 1) * (i + 1)) with (i + ((n - 1) * (i + 1) - i)) in H2 by lia.
  rewrite Z.pow_add_r in H2 by nia.
  pose proof (Z.div_mod (g ^ i * g ^ ((n - 1) * (i + 1) - i)) n ltac:(lia)) as Hd. rewrite H2 in Hd.
  assert (m | 1) as H3; [|apply Z.divide_1_r_nonneg in H3; lia].
  replace 1 with (g ^ i * g ^ ((n - 1) * (i + 1) - i) - n * (g ^ i * g ^ ((n - 1) * (i + 1) - i) / n)) by lia.
  apply Z.divide_sub_r; by apply Z.divide_mul_l.
Qed.

(** A number with an element of order [n - 1] is prime (Lucas). *)
Lemma lucas n g factors :
  1 < n -> (forall q, q ∈ factors -> Z.prime q) -> primitive_rootb n g factors = true -> Z.prime n.
Proof.
  intros Hn Hp Hc. split; [done|]. intros m Hm Hmn.
  set (f := fun i => Z.to_nat (g ^ Z.of_nat i mod n - 1)).
  assert (forall i, 1 <= g ^ Z.of_nat i mod n < n) as Hb.
  { intros i. pose proof (Z.mod_pos_bound (g ^ Z.of_nat i) n ltac:(lia)).
    destruct (decide (g ^ Z.of_nat i mod n = 0)) as [E|]; [|lia]. exfalso.
    apply (pow_mod_nonzero n g factors (Z.of_nat i) Hn Hc ltac:(lia) n Hn); [done|].
    apply Z.mod_divide; [lia|done]. }
  destruct (injective_surjective f (Z.to_nat (n - 1))) with (k := Z.to_nat (m - 1)) as (i & Hi & E).
  - intros i _. specialize (Hb i). unfold f. lia.
  - intros i j Hi Hj E. pose proof (Hb i). pose proof (Hb j). unfold f in E.
    assert (g ^ Z.of_nat i mod n = g ^ Z.of_nat j mod n) as E' by lia.
    destruct (decide (i <= j)%nat).
    + pose proof (pow_mod_injective n g factors (Z.of_nat i) (Z.of_nat j) Hn Hp Hc ltac:(lia) ltac:(lia) E'). lia.
    + pose proof (pow_mod_injective n g factors (Z.of_nat j) (Z.of_nat i) Hn Hp Hc ltac:(lia) ltac:(lia) (eq_sym E')). lia.
  - lia.
  - specialize (Hb i). unfold f in E. assert (g ^ Z.of_nat i mod n = m) as Em by lia.
    apply (pow_mod_nonzero n g factors (Z.of_nat i) Hn Hc ltac:(lia) m ltac:(lia) Hmn).
    rewrite (Z.div_mod (g ^ Z.of_nat i) n) by lia. rewrite Em.
    apply Z.divide_add_r; [by apply Z.divide_mul_l|done].
Qed.

(** ** The sizes of the tables *)

Definition certificate_ok (known : list Z) (c : Z * Z * list Z) : bool :=
  let '(p, g, fs) := c in
  (1 <? p) && (0 <? g) && (g <? p) && primitive_rootb p g fs && forallb (fun q => existsb (Z.eqb q) known) fs.

Fixpoint certificates_ok (known : list Z) (cs : list (Z * Z * list Z)) : bool :=
  match cs with
  | [] => true
  | c :: cs' => certificate_ok known c && certificates_ok (c.1.1 :: known) cs'
  end.

(** What a certificate shows. *)
Definition certified (c : Z * Z * list Z) : Prop :=
  let '(p, g, fs) := c in
  Z.prime p /\ 0 < g < p /\ primitive_rootb p g fs = true /\ forall q, q ∈ fs -> Z.prime q.

Lemma certificates_sound known cs :
  (forall q, q ∈ known -> Z.prime q) -> certificates_ok known cs = true -> forall c, c ∈ cs -> certified c.
Proof.
  revert known. induction cs as [|[[p g] fs] cs IH]; intros known Hk H c Hc; [set_solver|].
  simpl in H. rewrite !andb_true_iff, !Z.ltb_lt, forallb_forall in H. destruct H as [[[[[Hp Hg0] Hg] Hr] Hfs] H].
  assert (forall q, q ∈ fs -> Z.prime q) as Hfp.
  { intros q Hq. apply Hk. apply list_elem_of_In, Hfs, existsb_exists in Hq as (q' & Hq' & E).
    apply Z.eqb_eq in E as ->. by apply list_elem_of_In. }
  assert (Z.prime p) by (by apply (lucas p g fs)).
  apply elem_of_cons in Hc as [->|Hc]; [done|].
  apply (IH (p :: known)); [|done|done]. intros q Hq. apply elem_of_cons in Hq as [->|Hq]; auto.
Qed.

Lemma prime_certificates_ok : certificates_ok [2] prime_certificates = true.
Proof. vm_compute. reflexivity. Qed.

(** The largest size the theorems use: up to it the products of the
    exponential probes fit in 64 bits. *)
Definition max_idx : Z := 43.

Definition size_certified (i : Z) : bool :=
  match rd __CFBasicHashTableSizes i, rd __CFBasicHashPrimitiveRoots i with
  | Some n, Some g => existsb (fun c => (c.1.1 =? n) && (c.1.2 =? g)) prime_certificates && (n <? 2 ^ 32)
  | _, _ => false
  end.

Lemma sizes_certified : forallb size_certified (Z.of_nat <$> seq 1 43) = true.
Proof. vm_compute. reflexivity. Qed.

(** The sizes are primes below 2^32, with a primitive root each. *)
Lemma size_prime_root i :
  1 <= i <= max_idx ->
  exists n g fs, rd __CFBasicHashTableSizes i = Some n /\ rd __CFBasicHashPrimitiveRoots i = Some g /\
    n < 2 ^ 32 /\ certified (n, g, fs).
Proof.
  intros Hi. pose proof sizes_certified as H. rewrite forallb_forall in H.
  specialize (H i). unfold size_certified in H.
  assert (In i (Z.of_nat <$> seq 1 43)) as Hin.
  { rewrite <- list_elem_of_In. apply list_elem_of_fmap. exists (Z.to_nat i). split; [lia|].
    apply elem_of_seq. unfold max_idx in Hi. lia. }
  specialize (H Hin). destruct (rd __CFBasicHashTableSizes i) as [n|]; [|done].
  destruct (rd __CFBasicHashPrimitiveRoots i) as [g|]; [|done].
  apply andb_true_iff in H as [H Hn]. apply existsb_exists in H as ([[p g'] fs] & Hc & E).
  simpl in E. apply andb_true_iff in E as [E1 E2]. apply Z.eqb_eq in E1 as ->, E2 as ->.
  exists n, g, fs. split_and!; [done..|by apply Z.ltb_lt|].
  apply (certificates_sound [2] prime_certificates); [|apply prime_certificates_ok|by apply list_elem_of_In].
  intros q Hq. apply elem_of_cons in Hq as [->|Hq]; [apply Z.prime_2|set_solver].
Qed.
(** ** The probe sequences *)

Definition probe_state (style n pr h : Z) (t : nat) : Z * Z :=
  Nat.iter t (next_probe style n (probe_h1 h n) (probe_h2 h n) pr) (probe_h1 h n, pr).

(** The bucket probed in round [t] for the hash code [h]. *)
Definition probe_at (style n pr h : Z) (t : nat) : Z := fst (probe_state style n pr h t).

(** A sum or product below 2^64, brought below [n]. *)
Lemma uwrap_small x : 0 <= x < 2 ^ 64 -> uwrap 64 x = x.
Proof. apply uwrap_id. Qed.

Lemma reduce_sub x n : 0 <= x < 2 * n -> (if n <=? x then x - n else x) = x mod n.
Proof.
  intros H. destruct (Z.leb_spec n x); [|by rewrite Z.mod_small by lia].
  apply (Z.mod_unique x n 1); lia.
Qed.

Lemma reduce_mod x n : 0 <= x -> (if n <=? x then x mod n else x) = x mod n.
Proof. intros H. destruct (Z.leb_spec n x); [done|]. by rewrite Z.mod_small by lia. Qed.

Lemma probe_h1_range h n : 0 < n -> 0 <= probe_h1 h n < n.
Proof. intros. apply Z.mod_pos_bound. lia. Qed.

Lemma probe_h2_range h n : 1 < n -> 0 < probe_h2 h n < n.
Proof.
  intros. unfold probe_h2. pose proof (Z.mod_pos_bound (h / n) n ltac:(lia)).
  destruct (Z.eqb_spec 0 ((h / n) mod n)); lia.
Qed.

Section Sequences.
Context (n pr h : Z) (Hn : 1 < n) (Hsmall : n < 2 ^ 32).

Lemma probe_linear t : probe_at 1 n pr h t = (probe_h1 h n + Z.of_nat t) mod n.
Proof.
  induction t as [|t IH].
  - simpl. rewrite Z.add_0_r, Z.mod_small; [done|apply probe_h1_range; lia].
  - unfold probe_at, probe_state in *. simpl Nat.iter. destruct (Nat.iter t _ _) as [p a]. simpl in *. subst p.
    pose proof (Z.mod_pos_bound (probe_h1 h n + Z.of_nat t) n ltac:(lia)).
    rewrite uwrap_small, reduce_sub, Zplus_mod_idemp_l by lia. f_equal. lia.
Qed.

Lemma probe_double t : probe_at 2 n pr h t = (probe_h1 h n + Z.of_nat t * probe_h2 h n) mod n.
Proof.
  pose proof (probe_h2_range h n Hn). induction t as [|t IH].
  - simpl. rewrite Z.add_0_r, Z.mod_small; [done|apply probe_h1_range; lia].
  - unfold probe_at, probe_state in *. simpl Nat.iter. destruct (Nat.iter t _ _) as [p a]. simpl in *. subst p.
    pose proof (Z.mod_pos_bound (probe_h1 h n + Z.of_nat t * probe_h2 h n) n ltac:(lia)).
    rewrite uwrap_small, reduce_sub, Zplus_mod_idemp_l by lia. f_equal. lia.
Qed.

Lemma probe_exponential_state t :
  0 < pr < n ->
  probe_state 3 n pr h t =
    (match t with
     | O => probe_h1 h n
     | S _ => (probe_h1 h n + probe_h2 h n * pr ^ Z.of_nat t) mod n
     end, pr ^ Z.of_nat (S t) mod n).
Proof.
  intros Hpr. pose proof (probe_h2_range h n Hn). pose proof (probe_h1_range h n ltac:(lia)).
  assert (forall x, 0 <= x < n -> probe_h1 h n + probe_h2 h n * x < 2 ^ 64) as Hmul.
  { intros x Hx. assert (probe_h2 h n * x <= (2 ^ 32 - 2) * (2 ^ 32 - 2)) by (apply Z.mul_le_mono_nonneg; lia). lia. }
  induction t as [|t IH].
  - unfold probe_state. simpl Nat.iter. f_equal. change (Z.of_nat 1) with 1. rewrite Z.pow_1_r, Z.mod_small by lia. done.
  - unfold probe_state in *. simpl Nat.iter. rewrite IH. unfold next_probe at 1. cbv beta iota.
    rewrite !(proj2 (Z.eqb_neq _ _)) by lia.
    pose proof (Z.mod_pos_bound (pr ^ Z.of_nat (S t)) n ltac:(lia)) as Hb. pose proof (Hmul _ Hb).
    assert (pr ^ Z.of_nat (S t) mod n * pr < 2 ^ 64).
    { assert (pr ^ Z.of_nat (S t) mod n * pr <= (2 ^ 32 - 1) * (2 ^ 32 - 1)) by (apply Z.mul_le_mono_nonneg; lia). lia. }
    rewrite !uwrap_small, !reduce_mod by nia. f_equal.
    + rewrite <- Zplus_mod_idemp_r, Zmult_mod_idemp_r, Zplus_mod_idemp_r. done.
    + rewrite Zmult_mod_idemp_l. f_equal. rewrite (Nat2Z.inj_succ (S t)), Z.pow_succ_r by lia. lia.
Qed.

End Sequences.

Lemma mod_eq_divide a b n : n <> 0 -> a mod n = b mod n -> (n | a - b).
Proof.
  intros Hn E. apply Z.mod_divide; [done|]. rewrite Zminus_mod, E, Z.sub_diag. by apply Z.mod_0_l.
Qed.

Lemma divide_small n x : (n | x) -> - n < x < n -> x = 0.
Proof. intros [k ->] H. assert (k = 0); nia. Qed.

Lemma prime_cancel n a x : Z.prime n -> 0 < a < n -> (n | x * a) -> (n | x).
Proof.
  intros Hp Ha Hd. apply Z.divide_prime_mul in Hd as [|Hd]; [done| |done].
  apply divide_small in Hd; lia.
Qed.

(** In [n] rounds no bucket is probed twice. *)
Lemma probe_injective style n pr fs h s t :
  1 <= style <= 3 -> n < 2 ^ 32 -> certified (n, pr, fs) ->
  (s < t)%nat -> Z.of_nat t < n -> probe_at style n pr h s <> probe_at style n pr h t.
Proof.
  intros Hs Hsm (Hp & Hpr & Hroot & Hfs) Hst Ht E. pose proof (Z.prime_ge_2 n Hp).
  pose proof (probe_h1_range h n ltac:(lia)) as H1. pose proof (probe_h2_range h n ltac:(lia)) as H2.
  assert (style = 1 \/ style = 2 \/ style = 3) as [->|[->| ->]] by lia.
  - rewrite !probe_linear in E by lia. apply mod_eq_divide, divide_small in E; lia.
  - rewrite !probe_double in E by lia. apply mod_eq_divide in E; [|lia].
    replace (_ - _) with ((Z.of_nat s - Z.of_nat t) * probe_h2 h n) in E by lia.
    apply prime_cancel, divide_small in E; [lia|lia|done|done].
  - unfold probe_at in E. rewrite !probe_exponential_state in E by lia. simpl fst in E.
    destruct t as [|t]; [lia|]. destruct s as [|s].
    + rewrite <- (Z.mod_small (probe_h1 h n) n) in E at 1 by lia. apply mod_eq_divide in E; [|lia].
      replace (_ - _) with ((- pr ^ Z.of_nat (S t)) * probe_h2 h n) in E by lia.
      apply prime_cancel in E; [|done|done]. rewrite Z.divide_opp_r in E.
      revert E. apply (pow_mod_nonzero n pr fs); [lia|done|lia|lia|done].
    + apply mod_eq_divide in E; [|lia].
      replace (_ - _) with ((pr ^ Z.of_nat (S s) - pr ^ Z.of_nat (S t)) * probe_h2 h n) in E by lia.
      apply prime_cancel in E; [|done|done].
      replace (_ - _) with ((pr ^ Z.of_nat s - pr ^ Z.of_nat t) * pr) in E
        by (rewrite !Nat2Z.inj_succ, !Z.pow_succ_r by lia; lia).
      apply prime_cancel in E as [k Ek]; [|done|done].
      assert (pr ^ Z.of_nat s mod n = pr ^ Z.of_nat t mod n) as E.
      { replace (pr ^ Z.of_nat s) with (pr ^ Z.of_nat t + k * n) by lia. apply Z_mod_plus_full. }
      apply (pow_mod_injective n pr fs) in E; [lia|lia|done|done|lia|lia].
Qed.

Lemma probe_range style n pr fs h t :
  1 <= style <= 3 -> n < 2 ^ 32 -> certified (n, pr, fs) -> 0 <= probe_at style n pr h t < n.
Proof.
  intros Hs Hsm (Hp & Hpr & _). pose proof (Z.prime_ge_2 n Hp).
  assert (style = 1 \/ style = 2 \/ style = 3) as [->|[->| ->]] by lia.
  - rewrite probe_linear by lia. apply Z.mod_pos_bound. lia.
  - rewrite probe_double by lia. apply Z.mod_pos_bound. lia.
  - unfold probe_at. rewrite probe_exponential_state by lia. destruct t; simpl fst;
      [apply probe_h1_range|apply Z.mod_pos_bound]; lia.
Qed.

(** Every bucket is probed within [n] rounds. *)
Lemma probe_surjective style n pr fs h b :
  1 <= style <= 3 -> n < 2 ^ 32 -> certified (n, pr, fs) -> 0 <= b < n ->
  exists t, Z.of_nat t < n /\ probe_at style n pr h t = b.
Proof.
  intros Hs Hsm Hc Hb.
  assert (forall t, 0 <= probe_at style n pr h t < n) as Hr by (intros t; by apply (probe_range style n pr fs)).
  destruct (injective_surjective (fun t => Z.to_nat (probe_at style n pr h t)) (Z.to_nat n)) with (k := Z.to_nat b)
    as (t & Ht & E).
  - intros i _. specialize (Hr i). lia.
  - intros i j Hi Hj E. pose proof (Hr i). pose proof (Hr j).
    assert (probe_at style n pr h i = probe_at style n pr h j) as E' by lia.
    destruct (lt_eq_lt_dec i j) as [[Hlt| ->]|Hlt]; [|done|].
    + exfalso. by apply (probe_injective style n pr fs h i j Hs Hsm Hc Hlt); [lia|].
    + exfalso. by apply (probe_injective style n pr fs h j i Hs Hsm Hc Hlt); [lia|].
  - lia.
  - exists t. specialize (Hr t). split; lia.
Qed.

(** C3: the sizes of the tables are primes with the primitive roots the source
    lists, and so for each of the three styles, every size (index 1 to 43) and
    every hash code, the probe sequence stays inside the table and visits every
    bucket exactly once in as many rounds as there are buckets. *)
Theorem CFBasicHash_probes_cover_table (style i h : Z) :
  1 <= style <= 3 -> 1 <= i <= max_idx ->
  exists n pr, rd __CFBasicHashTableSizes i = Some n /\ rd __CFBasicHashPrimitiveRoots i = Some pr /\ Z.prime n /\
    (forall t, 0 <= probe_at style n pr h t < n) /\
    forall b, 0 <= b < n -> exists t, Z.of_nat t < n /\ probe_at style n pr h t = b /\
      forall t', Z.of_nat t' < n -> probe_at style n pr h t' = b -> t' = t.
Proof.
  intros Hs Hi. destruct (size_prime_root i Hi) as (n & pr & fs & En & Epr & Hsm & Hc). exists n, pr.
  split; [done|]. split; [done|]. split; [exact (proj1 Hc)|]. split; [intros t; by apply (probe_range style n pr fs)|].
  intros b Hb. destruct (probe_surjective style n pr fs h b Hs Hsm Hc Hb) as (t & Ht & E). exists t.
  split_and!; [done|done|]. intros t' Ht' E'. destruct (lt_eq_lt_dec t' t) as [[Hlt| ->]|Hlt]; [|done|].
  - exfalso. apply (probe_injective style n pr fs h t' t Hs Hsm Hc Hlt Ht). congruence.
  - exfalso. apply (probe_injective style n pr fs h t t' Hs Hsm Hc Hlt Ht'). congruence.
Qed.

(** Exponential probing of the seven buckets from a hash code of 100. *)
Lemma CFBasicHash_probes_cover_table_witness :
  exists n pr, rd __CFBasicHashTableSizes 2 = Some n /\ rd __CFBasicHashPrimitiveRoots 2 = Some pr /\ Z.prime n /\
    (forall t, 0 <= probe_at 3 n pr 100 t < n) /\
    forall b, 0 <= b < n -> exists t, Z.of_nat t < n /\ probe_at 3 n pr 100 t = b /\
      forall t', Z.of_nat t' < n -> probe_at 3 n pr 100 t' = b -> t' = t.
Proof. apply (CFBasicHash_probes_cover_table 3 2 100); [lia|unfold max_idx; lia]. Defined.
