(* ===== verification/CFBasicHashTable.v ===== *)
(** * CFBasicHashTable: the table is a finite map

    The arrays of a table are a list of slots: empty, deleted or live with an
    entry (key, value, count).  The invariant says how the arrays encode the
    slots, that the probe sequence of every live key reaches it before an empty
    slot, and that no two live keys are equal.  On top of it every operation of
    CFBasicHash.c is an operation on the bag of entries. *)

From S2P Require Import Prelude CFInternal CFBasicHash CFBasicHashProbe.
From stdpp Require Import base list numbers option sets.
From Stdlib Require Import ZArith Lia.
Open Scope Z_scope.
Open Scope cf_scope.

(** ** Slots *)

Record entry := mkEntry { e_key : Z; e_value : Z; e_count : Z }.

Inductive slot := SEmpty | SDeleted | SLive (e : entry).

#[global] Instance entry_eq_dec : EqDecision entry.
Proof. solve_decision. Defined.
#[global] Instance slot_eq_dec : EqDecision slot.
Proof. solve_decision. Defined.

Definition slot_entry (s : slot) : option entry := match s with SLive e => Some e | _ => None end.

(** The live entries, in bucket order. *)
Definition entries (sl : list slot) : list entry := omap slot_entry sl.

Definition is_live (s : slot) : bool := match s with SLive _ => true | _ => false end.

Definition num_deleted (sl : list slot) : nat := length (filter (fun s => s = SDeleted) sl).

(** ** Lists with one cell changed *)

Lemma insert_split {A} (l : list A) i x y :
  l !! i = Some x -> <[i := y]> l = take i l ++ y :: drop (S i) l /\ l = take i l ++ x :: drop (S i) l.
Proof.
  intros H. split; [|symmetry; by apply take_drop_middle].
  apply insert_take_drop. by eapply lookup_lt_Some.
Qed.

(** The entries around slot [i]. *)
Lemma entries_split sl i s :
  sl !! i = Some s ->
  exists rest, entries sl ≡ₚ option_list (slot_entry s) ++ rest /\
    forall s', entries (<[i := s']> sl) ≡ₚ option_list (slot_entry s') ++ rest.
Proof.
  intros H. exists (entries (take i sl) ++ entries (drop (S i) sl)).
  assert (forall s', entries (take i sl ++ s' :: drop (S i) sl) ≡ₚ
    option_list (slot_entry s') ++ (entries (take i sl) ++ entries (drop (S i) sl))) as Hp.
  { intros s'. unfold entries. rewrite omap_app. simpl. destruct (slot_entry s'); simpl; [|done].
    symmetry. apply Permutation_middle. }
  split.
  - destruct (insert_split sl i s s H) as [_ E]. rewrite E at 1. apply Hp.
  - intros s'. destruct (insert_split sl i s s' H) as [-> _]. apply Hp.
Qed.

Lemma entries_fill sl i s e :
  sl !! i = Some s -> is_live s = false -> entries (<[i := SLive e]> sl) ≡ₚ e :: entries sl.
Proof.
  intros H Hs. destruct (entries_split sl i s H) as (rest & E & E'). rewrite E', E. by destruct s.
Qed.

Lemma entries_delete sl i e :
  sl !! i = Some (SLive e) -> entries sl ≡ₚ e :: entries (<[i := SDeleted]> sl).
Proof. intros H. destruct (entries_split sl i _ H) as (rest & E & E'). by rewrite E, E'. Qed.

Lemma entries_update sl i e e' :
  sl !! i = Some (SLive e) ->
  exists rest, entries sl ≡ₚ e :: rest /\ entries (<[i := SLive e']> sl) ≡ₚ e' :: rest.
Proof. intros H. destruct (entries_split sl i _ H) as (rest & E & E'). exists rest. by rewrite E, E'. Qed.

Lemma entries_cons s sl : entries (s :: sl) = option_list (slot_entry s) ++ entries sl.
Proof. by destruct s. Qed.

Lemma entries_app sl sl' : entries (sl ++ sl') = entries sl ++ entries sl'.
Proof. apply omap_app. Qed.

Lemma elem_of_entries sl e : e ∈ entries sl <-> exists i : nat, sl !! i = Some (SLive e).
Proof.
  unfold entries. rewrite list_elem_of_omap. split.
  - intros (s & Hs & E). destruct s; try done. injection E as ->. apply list_elem_of_lookup in Hs. done.
  - intros (i & H). exists (SLive e). split; [by eapply list_elem_of_lookup_2|done].
Qed.

Lemma length_entries_le sl : (length (entries sl) <= length sl)%nat.
Proof.
  induction sl as [|s sl IH]; [done|]. rewrite entries_cons, length_app. destruct (slot_entry s); simpl; lia.
Qed.

(** Fewer entries than slots: some slot is not live. *)
Lemma free_slot sl :
  (length (entries sl) < length sl)%nat -> exists i s, sl !! i = Some s /\ is_live s = false.
Proof.
  induction sl as [|s sl IH]; [simpl; lia|]. rewrite entries_cons. destruct s as [| |e]; simpl.
  - intros _. by exists 0%nat, SEmpty.
  - intros _. by exists 0%nat, SDeleted.
  - intros H. destruct IH as (i & s & Hs & Hl); [lia|]. by exists (S i), s.
Qed.

Lemma num_deleted_insert sl i s s' :
  sl !! i = Some s ->
  (num_deleted (<[i := s']> sl) + (if decide (s = SDeleted) then 1 else 0) =
   num_deleted sl + (if decide (s' = SDeleted) then 1 else 0))%nat.
Proof.
  intros H. destruct (insert_split sl i s s' H) as [-> E]. rewrite E at 3. unfold num_deleted.
  rewrite !list.filter_app, !filter_cons, !length_app. repeat case_decide; simpl; lia.
Qed.

(** ** The sentinels *)

Definition plain (v : Z) : Prop := v <> __CFBasicHashSubABZero /\ v <> __CFBasicHashSubABOne.

Lemma decode_encode v : plain v -> decode (encode v) = v.
Proof.
  intros [H1 H2]. unfold encode, decode.
  destruct (Z.eqb_spec 0 v) as [<-|]; [done|]. destruct (Z.eqb_spec ones v) as [<-|]; [done|].
  rewrite !(proj2 (Z.eqb_neq _ _)) by congruence. done.
Qed.

Lemma encode_live v : (encode v =? 0) = false /\ (encode v =? ones) = false.
Proof.
  unfold encode. destruct (Z.eqb_spec 0 v) as [<-|]; [done|]. destruct (Z.eqb_spec ones v) as [<-|]; [done|].
  rewrite !(proj2 (Z.eqb_neq _ _)) by congruence. done.
Qed.

(** ** Keys *)

Section Keys.
Context (ptrs : list Z) (cr : Z -> Z -> Z) (ce : Z -> Z -> Z -> bool) (ch ci : Z -> Z -> Z).

(** What the search compares, hashes and reads keys with: functions of the
    configuration alone. *)
Definition key_eq (c : hash_config) (a b : Z) : bool :=
  (a =? b) || (if cb_ptr ptrs (__kequ c) =? 0 then a =? b else ce (cb_ptr ptrs (__kequ c)) a b).

Definition key_hash (c : hash_config) (k : Z) : Z :=
  if negb (cb_ptr ptrs (__khas c) =? 0) then ch (cb_ptr ptrs (__khas c)) k else k.

(** The key of an entry of a table without an array of keys. *)
Definition own_key (c : hash_config) (v : Z) : Z :=
  if negb (indirect_keys c =? 0) then
    (if cb_ptr ptrs (__kget c) =? 0 then v else ci (cb_ptr ptrs (__kget c)) v)
  else v.

(** What a client owes the table: the equality of keys is an equivalence and
    equal keys have equal hash codes (CFDictionary.h). *)
Class KeyContract (c : hash_config) : Prop := {
  key_eq_sym : forall a b, key_eq c a b = true -> key_eq c b a = true;
  key_eq_trans : forall a b d, key_eq c a b = true -> key_eq c b d = true -> key_eq c a d = true;
  key_eq_hash : forall a b, key_eq c a b = true -> key_hash c a = key_hash c b
}.

Definition config_ok (c : hash_config) : Prop :=
  1 <= hash_style c <= 3 /\ (keys_offset c = 0 \/ indirect_keys c = 0).

(** ** Probing a list of slots *)

Definition size_of (i : Z) : Z := default 0 (rd __CFBasicHashTableSizes i).
Definition root_of (i : Z) : Z := default 0 (rd __CFBasicHashPrimitiveRoots i).

(** The slot probed in round [t] for key [k] in a table of size index [i]. *)
Definition bucket_of (c : hash_config) (i k : Z) (t : nat) : nat :=
  Z.to_nat (probe_at (hash_style c) (size_of i) (root_of i) (key_hash c k) t).

Lemma size_of_pos i : 1 <= i <= max_idx -> 1 < size_of i < 2 ^ 32.
Proof.
  intros Hi. destruct (size_prime_root i Hi) as (n & g & fs & En & Eg & Hn & Hp & _).
  unfold size_of. rewrite En. simpl. pose proof (Z.prime_ge_2 n Hp). lia.
Qed.

Lemma probe_at_nat c i k t :
  config_ok c -> 1 <= i <= max_idx ->
  probe_at (hash_style c) (size_of i) (root_of i) (key_hash c k) t = Z.of_nat (bucket_of c i k t) /\
  Z.of_nat (bucket_of c i k t) < size_of i.
Proof.
  intros [Hs _] Hi. destruct (size_prime_root i Hi) as (n & g & fs & En & Eg & Hn & Hc).
  unfold bucket_of, size_of, root_of. rewrite En, Eg. simpl.
  pose proof (probe_range (hash_style c) n g fs (key_hash c k) t Hs Hn Hc). lia.
Qed.

Lemma bucket_of_cover c i k b :
  config_ok c -> 1 <= i <= max_idx -> Z.of_nat b < size_of i ->
  exists t, Z.of_nat t < size_of i /\ bucket_of c i k t = b.
Proof.
  intros [Hs _] Hi. destruct (size_prime_root i Hi) as (n & g & fs & En & Eg & Hn & Hc).
  unfold bucket_of, size_of, root_of. rewrite En, Eg. simpl. intros Hb.
  destruct (probe_surjective (hash_style c) n g fs (key_hash c k) (Z.of_nat b) Hs Hn Hc) as (t & Ht & E); [lia|].
  exists t. split; [done|]. rewrite E. lia.
Qed.

(** The probe sequence of a live key meets no empty slot before the key's. *)
Definition reachable (c : hash_config) (i : Z) (sl : list slot) (k : Z) (b : nat) : Prop :=
  exists t, (t < length sl)%nat /\ bucket_of c i k t = b /\
    forall s, (s < t)%nat -> sl !! bucket_of c i k s <> Some SEmpty.

Definition chained (c : hash_config) (i : Z) (sl : list slot) : Prop :=
  forall b e, sl !! b = Some (SLive e) -> reachable c i sl (e_key e) b.

Definition unique_keys (c : hash_config) (sl : list slot) : Prop :=
  forall b b' e e', sl !! b = Some (SLive e) -> sl !! b' = Some (SLive e') ->
    key_eq c (e_key e) (e_key e') = true -> b = b'.

(** No live key is equal to [k]. *)
Definition absent (c : hash_config) (sl : list slot) (k : Z) : Prop :=
  forall b e, sl !! b = Some (SLive e) -> key_eq c (e_key e) k = false.

Section Contract.
Context (c : hash_config) `{!KeyContract c}.

Lemma key_eq_refl a : key_eq c a a = true.
Proof. unfold key_eq. by rewrite Z.eqb_refl. Qed.

Lemma bucket_of_eq i a b t : key_eq c a b = true -> bucket_of c i a t = bucket_of c i b t.
Proof. intros H. unfold bucket_of. by rewrite (key_eq_hash a b H). Qed.

Lemma reachable_eq i sl a b j : key_eq c a b = true -> reachable c i sl a j -> reachable c i sl b j.
Proof.
  intros H (t & Ht & E & Hs). exists t. split_and!; [done|by rewrite <- (bucket_of_eq i a b)|].
  intros s Hlt. rewrite <- (bucket_of_eq i a b) by done. auto.
Qed.

(** Writing something that is not empty keeps paths. *)
Lemma reachable_insert i sl k b j s :
  s <> SEmpty -> reachable c i sl k b -> reachable c i (<[j := s]> sl) k b.
Proof.
  intros Hs (t & Ht & E & Hp). exists t. split_and!; [by rewrite length_insert|done|].
  intros s' Hlt. destruct (decide (bucket_of c i k s' = j)) as [<-|Hne].
  - destruct (decide (bucket_of c i k s' < length sl)%nat).
    + rewrite list_lookup_insert_eq by done. congruence.
    + rewrite list_insert_ge by lia. auto.
  - rewrite list_lookup_insert_ne by done. auto.
Qed.

Lemma chained_insert i sl j s :
  chained c i sl -> s <> SEmpty ->
  (forall e, s = SLive e -> reachable c i sl (e_key e) j) -> chained c i (<[j := s]> sl).
Proof.
  intros Hc Hs Hr b e H. apply reachable_insert; [done|].
  destruct (decide (b = j)) as [->|Hne].
  - pose proof (lookup_lt_Some _ _ _ H) as Hl. rewrite length_insert in Hl.
    rewrite list_lookup_insert_eq in H by done. injection H as ->. by apply Hr.
  - rewrite list_lookup_insert_ne in H by done. by apply Hc.
Qed.

Lemma unique_insert_dead sl j : unique_keys c sl -> unique_keys c (<[j := SDeleted]> sl).
Proof.
  intros Hu b b' e e' H H'. apply list_lookup_insert_Some in H, H'.
  destruct H as [(_ & ? & _)|[_ H]], H' as [(_ & ? & _)|[_ H']]; try done. by apply (Hu b b').
Qed.

(** A key equal to the one in slot [j], or to none, may be stored there. *)
Lemma unique_insert_live sl j e :
  unique_keys c sl ->
  (forall b e', sl !! b = Some (SLive e') -> key_eq c (e_key e') (e_key e) = true -> b = j) ->
  unique_keys c (<[j := SLive e]> sl).
Proof.
  intros Hu Hj b b' e1 e2 H H' E. apply list_lookup_insert_Some in H, H'.
  destruct H as [(-> & H & _)|[Hne H]], H' as [(-> & H' & _)|[Hne' H']]; try done.
  - injection H as <-. symmetry. apply (Hj b' e2 H'). by apply key_eq_sym.
  - injection H' as <-. by apply (Hj b e1 H).
  - by apply (Hu b b' e1 e2).
Qed.

End Contract.

(** ** The arrays of a table *)

Definition cell_value (s : slot) : Z :=
  match s with SEmpty => 0 | SDeleted => ones | SLive e => encode (e_value e) end.
Definition cell_key (s : slot) : Z :=
  match s with SEmpty => 0 | SDeleted => ones | SLive e => encode (e_key e) end.
Definition cell_count (s : slot) : Z := match s with SLive e => e_count e | _ => 0 end.

(** The largest count an array of counts of width [w] is used for. *)
Definition max_slot_count (w : Z) : Z := 2 ^ (width_bits w - 1) - 1.

Definition slot_ok (ht : __CFBasicHash) (s : slot) : Prop :=
  match s with
  | SLive e =>
      plain (e_value e) /\
      (if has_keys ht then plain (e_key e) else e_key e = own_key (config ht) (e_value e)) /\
      (if has_counts ht then 1 <= e_count e <= max_slot_count (counts_width ht) else e_count e = 1)
  | _ => True
  end.

(** The arrays hold the slots [sl]. *)
Record rep (ht : __CFBasicHash) (sl : list slot) : Prop := mkRep {
  rep_values : values ht = cell_value <$> sl;
  rep_keys : has_keys ht = true -> keys ht = cell_key <$> sl;
  rep_counts : has_counts ht = true -> counts ht = cell_count <$> sl;
  rep_ok : Forall (slot_ok ht) sl;
  rep_config : config_ok (config ht);
  rep_idx : 0 <= num_buckets_idx ht <= max_idx;
  rep_size : size_of (num_buckets_idx ht) = Z.of_nat (length sl);
  rep_width : 0 <= counts_width ht <= 3
}.

Lemma rd_size i : 0 <= i <= max_idx -> rd __CFBasicHashTableSizes i = Some (size_of i).
Proof.
  intros Hi. unfold size_of. destruct (rd_Some __CFBasicHashTableSizes i) as [v E]; [|by rewrite E].
  change (Z.of_nat (length __CFBasicHashTableSizes)) with 64. unfold max_idx in Hi. lia.
Qed.

Lemma rd_root i : 0 <= i <= max_idx -> rd __CFBasicHashPrimitiveRoots i = Some (root_of i).
Proof.
  intros Hi. unfold root_of. destruct (rd_Some __CFBasicHashPrimitiveRoots i) as [v E]; [|by rewrite E].
  change (Z.of_nat (length __CFBasicHashPrimitiveRoots)) with 64. unfold max_idx in Hi. lia.
Qed.

Section Representation.
Context (ht : __CFBasicHash) (sl : list slot) (Hrep : rep ht sl).

Lemma rd_values (i : nat) s : sl !! i = Some s -> rd (__CFBasicHashGetValues ht) (Z.of_nat i) = Some (cell_value s).
Proof.
  intros H. unfold __CFBasicHashGetValues. rewrite rd_nat, (rep_values _ _ Hrep), list_lookup_fmap, H. done.
Qed.

Lemma rd_keys (i : nat) s :
  has_keys ht = true -> sl !! i = Some s -> rd (__CFBasicHashGetKeys ht) (Z.of_nat i) = Some (cell_key s).
Proof.
  intros Hk H. unfold __CFBasicHashGetKeys. rewrite Hk, rd_nat, (rep_keys _ _ Hrep Hk), list_lookup_fmap, H. done.
Qed.

Lemma rd_counts (i : nat) s :
  has_counts ht = true -> sl !! i = Some s -> rd (__CFBasicHashGetCounts ht) (Z.of_nat i) = Some (cell_count s).
Proof.
  intros Hk H. unfold __CFBasicHashGetCounts. rewrite Hk, rd_nat, (rep_counts _ _ Hrep Hk), list_lookup_fmap, H. done.
Qed.

Lemma slot_ok_live (i : nat) e :
  sl !! i = Some (SLive e) -> slot_ok ht (SLive e).
Proof. intros H. eapply Forall_lookup_1; [apply Hrep|exact H]. Qed.

Lemma is_free (i : nat) s :
  sl !! i = Some s -> __CFBasicHashIsEmptyOrDeleted ht (Z.of_nat i) = Some (negb (is_live s)).
Proof.
  intros H. unfold __CFBasicHashIsEmptyOrDeleted. rewrite (rd_values i s H). cbn [opt_bind].
  destruct s as [| |e]; [done|done|]. cbn [cell_value is_live negb].
  destruct (encode_live (e_value e)) as [E1 E2]. by rewrite (Z.eqb_sym 0), (Z.eqb_sym ones), E1, E2.
Qed.

Lemma get_value (i : nat) e :
  sl !! i = Some (SLive e) -> __CFBasicHashGetValue ht (Z.of_nat i) = Some (e_value e).
Proof.
  intros H. unfold __CFBasicHashGetValue. rewrite (rd_values i _ H). simpl.
  destruct (slot_ok_live i e H) as [Hp _]. by rewrite decode_encode.
Qed.

Lemma get_key (i : nat) e :
  sl !! i = Some (SLive e) -> __CFBasicHashGetKey ptrs ci ht (Z.of_nat i) = Some (e_key e).
Proof.
  intros H. unfold __CFBasicHashGetKey. destruct (slot_ok_live i e H) as (_ & Hk & _).
  rewrite (get_value i e H). destruct (has_keys ht) eqn:Ek.
  - rewrite (rd_keys i _ Ek H). simpl. by rewrite decode_encode.
  - simpl. rewrite Hk. unfold own_key, __CFBasicHashGetIndirectKey. by destruct (negb _).
Qed.

Lemma get_count (i : nat) e :
  sl !! i = Some (SLive e) ->
  (if has_counts ht then __CFBasicHashGetSlotCount ht (Z.of_nat i) else Some 1) = Some (e_count e).
Proof.
  intros H. destruct (slot_ok_live i e H) as (_ & _ & Hc). destruct (has_counts ht) eqn:Ec.
  - unfold __CFBasicHashGetSlotCount. by rewrite (rd_counts i _ Ec H).
  - by rewrite Hc.
Qed.

Definition bucket_view (i : nat) (s : slot) : CFBasicHashBucket :=
  match s with
  | SLive e => mkBucket (Z.of_nat i) (Some (e_key e)) (Some (e_value e)) (e_count e)
  | _ => mkBucket (Z.of_nat i) (Some 0) (Some 0) 0
  end.

Lemma get_bucket (i : nat) s :
  sl !! i = Some s -> CFBasicHashGetBucket ptrs ci ht (Z.of_nat i) = Some (bucket_view i s).
Proof.
  intros H. unfold CFBasicHashGetBucket. rewrite (is_free i s H). simpl.
  destruct s as [| |e]; [done|done|]. simpl. rewrite (get_count i e H). simpl.
  rewrite (get_value i e H). simpl. by rewrite (get_key i e H).
Qed.

Lemma entry_count_pos (i : nat) e : sl !! i = Some (SLive e) -> 0 < e_count e.
Proof. intros H. destruct (slot_ok_live i e H) as (_ & _ & Hc). destruct (has_counts ht); lia. Qed.

(** The cells the search looks at. *)
Lemma search_cells (i : nat) s :
  sl !! i = Some s ->
  exists cell, rd (if has_keys ht then __CFBasicHashGetKeys ht else __CFBasicHashGetValues ht) (Z.of_nat i) = Some cell /\
    match s with
    | SEmpty => cell = 0
    | SDeleted => cell = ones
    | SLive e =>
        cell <> 0 /\ cell <> ones /\
        (if negb (indirect_keys (config ht) =? 0)
         then __CFBasicHashGetIndirectKey ptrs ci ht (decode cell) else decode cell) = e_key e
    end.
Proof.
  intros H. destruct (has_keys ht) eqn:Ek.
  - exists (cell_key s). split; [by apply rd_keys|]. destruct s as [| |e]; [done|done|]. simpl.
    destruct (encode_live (e_key e)) as [E1 E2]. apply Z.eqb_neq in E1, E2.
    destruct (slot_ok_live i e H) as (_ & Hk & _). rewrite Ek in Hk.
    destruct (rep_config _ _ Hrep) as [_ [Hko|Hi]]; [unfold has_keys in Ek; by rewrite Hko in Ek|].
    rewrite Hi. simpl. split_and!; [done|done|by apply decode_encode].
  - exists (cell_value s). split; [by apply rd_values|]. destruct s as [| |e]; [done|done|]. simpl.
    destruct (encode_live (e_value e)) as [E1 E2]. apply Z.eqb_neq in E1, E2.
    destruct (slot_ok_live i e H) as (Hp & Hk & _). rewrite Ek in Hk. rewrite decode_encode by done.
    split_and!; [done|done|by rewrite Hk].
Qed.

End Representation.

(** ** Searching *)

(** What a search for [k] finds: the live bucket with an equal key, or no such
    bucket and the bucket to fill (-1 when every bucket is live). *)
Inductive find_result (c : hash_config) (i : Z) (sl : list slot) (k : Z) : CFBasicHashBucket -> Prop :=
| find_hit (b : nat) e :
    sl !! b = Some (SLive e) -> key_eq c (e_key e) k = true ->
    find_result c i sl k (mkBucket (Z.of_nat b) (Some (e_key e)) (Some (e_value e)) (e_count e))
| find_miss (b : nat) s wk wv :
    absent c sl k -> sl !! b = Some s -> is_live s = false -> reachable c i sl k b ->
    find_result c i sl k (mkBucket (Z.of_nat b) wk wv 0)
| find_full wk wv :
    absent c sl k -> length (entries sl) = length sl ->
    find_result c i sl k (mkBucket kCFNotFound wk wv 0).

Section Search.
Context (ht : __CFBasicHash) (sl : list slot) (Hrep : rep ht sl).
Context `{!KeyContract (config ht)}.
Context (Hchain : chained (config ht) (num_buckets_idx ht) sl).
Context (Hi : 1 <= num_buckets_idx ht).
Context (k : Z).

Notation c := (config ht).
Notation nidx := (num_buckets_idx ht).
Notation pos t := (bucket_of c nidx k t).

Lemma slot_at t : exists s, sl !! pos t = Some s.
Proof.
  apply lookup_lt_is_Some. destruct (probe_at_nat c nidx k t) as [_ H]; [apply Hrep|split; [done|apply Hrep]|].
  rewrite (rep_size _ _ Hrep) in H. lia.
Qed.

(** The round at which a live equal key is met. *)
Lemma equal_key_round b e :
  sl !! b = Some (SLive e) -> key_eq c (e_key e) k = true ->
  exists t, (t < length sl)%nat /\ pos t = b /\ forall s, (s < t)%nat -> sl !! pos s <> Some SEmpty.
Proof. intros H E. apply (reachable_eq c _ _ (e_key e) k); [done|by apply Hchain]. Qed.

(** What the rounds before [t] have seen. *)
Definition searched (t : nat) (del : Z) : Prop :=
  (forall s, (s < t)%nat -> sl !! pos s <> Some SEmpty) /\
  (forall s e, (s < t)%nat -> sl !! pos s = Some (SLive e) -> key_eq c (e_key e) k = false) /\
  ((del = kCFNotFound /\ forall s, (s < t)%nat -> sl !! pos s <> Some SDeleted) \/
   exists s, (s < t)%nat /\ del = Z.of_nat (pos s) /\ sl !! pos s = Some SDeleted).

Lemma searched_step t del s :
  searched t del -> sl !! pos t = Some s -> s <> SEmpty ->
  (forall e, s = SLive e -> key_eq c (e_key e) k = false) ->
  searched (S t) (if decide (s = SDeleted) then (if kCFNotFound =? del then Z.of_nat (pos t) else del) else del).
Proof.
  intros (H1 & H2 & H3) Hs Hne Hk. split_and!.
  - intros s' Hlt. destruct (decide (s' = t)) as [->|]; [congruence|]. apply H1. lia.
  - intros s' e Hlt E. destruct (decide (s' = t)) as [->|]; [|apply (H2 s'); [lia|done]].
    rewrite Hs in E. injection E as ->. by apply Hk.
  - destruct H3 as [[-> H3]|(s0 & Hs0 & -> & E0)].
    + rewrite Z.eqb_refl. case_decide as Hd.
      * right. exists t. subst s. split_and!; [lia|done|done].
      * left. split; [done|]. intros s' Hlt. destruct (decide (s' = t)) as [->|]; [congruence|]. apply H3. lia.
    + right. exists s0. rewrite (proj2 (Z.eqb_neq kCFNotFound (Z.of_nat (pos s0)))) by (unfold kCFNotFound; lia).
      split_and!; [lia|by case_decide|done].
Qed.

Lemma searched_miss t b :
  (t <= length sl)%nat -> searched t (Z.of_nat b) -> sl !! b = Some SDeleted -> reachable c nidx sl k b.
Proof.
  intros Ht (H1 & _ & H3) Hb. destruct H3 as [[E _]|(s & Hs & E & _)]; [unfold kCFNotFound in E; lia|].
  exists s. split_and!; [lia|lia|]. intros s' Hlt. apply H1. lia.
Qed.

Lemma absent_empty t : (forall s e, (s < t)%nat -> sl !! pos s = Some (SLive e) -> key_eq c (e_key e) k = false) ->
  sl !! pos t = Some SEmpty -> absent c sl k.
Proof.
  intros H2 He b e Hb. destruct (key_eq c (e_key e) k) eqn:E; [|done]. exfalso.
  destruct (equal_key_round b e Hb E) as (t0 & Ht0 & Ep & Hne).
  destruct (lt_eq_lt_dec t0 t) as [[Hlt| ->]|Hlt].
  - rewrite <- Ep in Hb. by rewrite (H2 t0 e Hlt Hb) in E.
  - congruence.
  - by apply (Hne t).
Qed.

Lemma all_live : (forall s, (s < length sl)%nat -> sl !! pos s <> Some SEmpty) ->
  (forall s, (s < length sl)%nat -> sl !! pos s <> Some SDeleted) -> length (entries sl) = length sl.
Proof.
  intros H1 H2. destruct (decide (length (entries sl) < length sl)%nat) as [Hlt|]; [exfalso|pose proof (length_entries_le sl); lia].
  destruct (free_slot sl Hlt) as (b & s & Hb & Hf).
  destruct (bucket_of_cover c nidx k b) as (t & Ht & Ep); [apply Hrep|split; [done|apply Hrep]| |].
  { rewrite (rep_size _ _ Hrep). apply lookup_lt_Some in Hb. lia. }
  rewrite (rep_size _ _ Hrep) in Ht. rewrite <- Ep in Hb.
  destruct s; [by apply (H1 t); [lia|]|by apply (H2 t); [lia|]|done].
Qed.

Lemma probe_at_pos t : probe_at (hash_style c) (size_of nidx) (root_of nidx) (key_hash c k) t = Z.of_nat (pos t).
Proof. apply probe_at_nat; [apply Hrep|split; [done|apply Hrep]]. Qed.

Lemma find_bucket_loop_spec rest t del :
  (t + rest = length sl)%nat -> searched t del ->
  exists b, find_bucket_loop ptrs ce ci ht (negb (indirect_keys c =? 0)) k
      (next_probe (hash_style c) (size_of nidx) (probe_h1 (key_hash c k) (size_of nidx)) (probe_h2 (key_hash c k) (size_of nidx)) (root_of nidx))
      rest (probe_state (hash_style c) (size_of nidx) (root_of nidx) (key_hash c k) t) del = Some b /\
    find_result c nidx sl k b.
Proof.
  revert t del. induction rest as [|rest IH]; intros t del Ht Hsr.
  - simpl. eexists. split; [done|]. pose proof Hsr as (H1 & H2 & H3).
    assert (absent c sl k) as Habs.
    { intros b e Hb. destruct (key_eq c (e_key e) k) eqn:E; [|done].
      destruct (equal_key_round b e Hb E) as (t0 & Ht0 & Ep & _). rewrite <- Ep in Hb.
      rewrite (H2 t0 e) in E; [done|lia|done]. }
    destruct H3 as [[-> H3]|(s & Hs & -> & E)].
    + apply find_full; [done|]. apply all_live; intros s Hs; [apply H1|apply H3]; lia.
    + apply (find_miss _ _ _ _ (pos s) SDeleted); [done|done|done|]. apply (searched_miss t); [lia|done|done].
  - cbn [find_bucket_loop]. fold (probe_at (hash_style c) (size_of nidx) (root_of nidx) (key_hash c k) t).
    rewrite probe_at_pos. destruct (slot_at t) as [s Hs].
    destruct (search_cells ht sl Hrep (pos t) s Hs) as (cell & -> & Hcell). cbn [opt_bind].
    destruct s as [| |e].
    + rewrite Hcell, Z.eqb_refl. eexists. split; [done|]. destruct Hsr as (H1 & H2 & H3).
      pose proof (absent_empty t H2 Hs). destruct H3 as [[-> H3]|(s & Hlt & -> & E)].
      * rewrite Z.eqb_refl. apply (find_miss _ _ _ _ (pos t) SEmpty); [done|done|done|].
        exists t. split_and!; [lia|done|done].
      * rewrite (proj2 (Z.eqb_neq _ _)) by (unfold kCFNotFound; lia).
        apply (find_miss _ _ _ _ (pos s) SDeleted); [done|done|done|].
        exists s. split_and!; [lia|done|]. intros s' Hlt'. apply H1. lia.
    + rewrite Hcell. apply (IH (S t)); [lia|]. by apply (searched_step t del SDeleted).
    + destruct Hcell as (Hc0 & Hc1 & Hkey). rewrite !(proj2 (Z.eqb_neq _ _)) by done. cbv zeta.
      rewrite Hkey. change (_ || _) with (key_eq c (e_key e) k).
      destruct (key_eq c (e_key e) k) eqn:E.
      * rewrite (get_value ht sl Hrep _ e Hs). cbn [opt_bind]. rewrite (get_count ht sl Hrep _ e Hs). cbn [opt_bind].
        eexists. split; [done|]. by apply find_hit.
      * apply (IH (S t)); [lia|]. apply (searched_step t del (SLive e)); [done|done|done|]. by intros e' [= <-].
Qed.

End Search.

Lemma find_spec ht sl k :
  rep ht sl -> KeyContract (config ht) -> chained (config ht) (num_buckets_idx ht) sl ->
  exists b, __CFBasicHashFindBucket ptrs ce ch ci ht k = Some b /\
    find_result (config ht) (num_buckets_idx ht) sl k b.
Proof.
  intros Hrep HK Hc. unfold __CFBasicHashFindBucket.
  destruct (Z.eqb_spec 0 (num_buckets_idx ht)) as [E|Hne].
  - eexists. split; [done|]. pose proof (rep_size _ _ Hrep) as Hn. rewrite <- E in Hn. change (size_of 0) with 0 in Hn.
    destruct sl; [|done]. by apply find_full.
  - pose proof (rep_idx _ _ Hrep) as Hi. destruct (rep_config _ _ Hrep) as [Hs _].
    assert (known_style (hash_style (config ht)) = true) as ->.
    { assert (hash_style (config ht) = 1 \/ hash_style (config ht) = 2 \/ hash_style (config ht) = 3) as [->|[->| ->]] by lia; done. }
    simpl. unfold ___CFBasicHashFindBucket. rewrite rd_size, rd_root by lia. cbn [opt_bind].
    pose proof (size_of_pos (num_buckets_idx ht) ltac:(lia)). rewrite (proj2 (Z.eqb_neq _ 0)) by lia.
    apply (find_bucket_loop_spec ht sl Hrep Hc ltac:(lia) k (Z.to_nat (size_of (num_buckets_idx ht))) 0 kCFNotFound).
    + rewrite (rep_size _ _ Hrep). lia.
    + split_and!; [lia|lia|]. left. split; [done|]. lia.
Qed.

(** ** The search of a rehash *)

Lemma find_free_spec ht sl k :
  rep ht sl -> 1 <= num_buckets_idx ht -> SDeleted ∉ sl -> (length (entries sl) < length sl)%nat ->
  exists b : nat, __CFBasicHashFindBucket_NoCollision ptrs ch ht k 0 = Some (Z.of_nat b) /\
    sl !! b = Some SEmpty /\ reachable (config ht) (num_buckets_idx ht) sl k b.
Proof.
  intros Hrep Hi Hd Hlt. unfold __CFBasicHashFindBucket_NoCollision.
  pose proof (rep_idx _ _ Hrep) as Hidx. destruct (rep_config _ _ Hrep) as [Hs _].
  rewrite (proj2 (Z.eqb_neq 0 _)) by lia.
  assert (known_style (hash_style (config ht)) = true) as ->.
  { assert (hash_style (config ht) = 1 \/ hash_style (config ht) = 2 \/ hash_style (config ht) = 3) as [->|[->| ->]] by lia; done. }
  cbn [negb]. unfold ___CFBasicHashFindBucket_NoCollision. rewrite rd_size, rd_root by lia. cbn [opt_bind].
  pose proof (size_of_pos (num_buckets_idx ht) ltac:(lia)). rewrite (proj2 (Z.eqb_neq _ 0)) by lia.
  set (c := config ht). set (ni := num_buckets_idx ht). change (if negb (0 =? 0) then _ else _) with (key_hash c k).
  set (cells := if has_keys ht then _ else _).
  set (next := next_probe _ _ _ _ _).
  assert (forall rest t, (t + rest = length sl)%nat ->
    (forall s, (s < t)%nat -> sl !! bucket_of c ni k s <> Some SEmpty) ->
    exists b : nat, find_free_loop cells next rest (probe_state (hash_style c) (size_of ni) (root_of ni) (key_hash c k) t) = Some (Z.of_nat b) /\
      sl !! b = Some SEmpty /\ reachable c ni sl k b) as Hloop.
  { induction rest as [|rest IH]; intros t Ht Hne.
    - exfalso. destruct (free_slot sl Hlt) as (b & s & Hb & Hf).
      destruct (bucket_of_cover c ni k b) as (t' & Ht' & Ep); [apply Hrep|unfold ni; lia| |].
      { unfold ni. rewrite (rep_size _ _ Hrep). apply lookup_lt_Some in Hb. lia. }
      unfold ni in Ht'. rewrite (rep_size _ _ Hrep) in Ht'. apply (Hne t'); [lia|]. rewrite Ep.
      destruct s; [done| |done]. exfalso. apply Hd. by eapply list_elem_of_lookup_2.
    - cbn [find_free_loop]. fold (probe_at (hash_style c) (size_of ni) (root_of ni) (key_hash c k) t).
      rewrite (probe_at_pos ht sl Hrep Hi). destruct (slot_at ht sl Hrep Hi k t) as [s Hst].
      destruct (search_cells ht sl Hrep _ s Hst) as (cell & Ec & Hcell). fold cells in Ec. rewrite Ec. cbn [opt_bind].
      destruct s as [| |e].
      + rewrite Hcell. simpl. eexists. split; [done|]. split; [done|]. exists t. split_and!; [lia|done|done].
      + exfalso. apply Hd. by eapply list_elem_of_lookup_2.
      + destruct Hcell as (Hc0 & _). rewrite (proj2 (Z.eqb_neq cell 0)) by done.
        apply (IH (S t)); [lia|]. intros s Hlt'. destruct (decide (s = t)) as [->|]; [fold c ni in Hst; congruence|].
        apply Hne. lia. }
  apply (Hloop (Z.to_nat (size_of ni)) 0%nat); [|lia]. unfold ni. rewrite (rep_size _ _ Hrep). lia.
Qed.

(** ** Changing one bucket *)

(** The table with other arrays. *)
Definition set_arrays (ht : __CFBasicHash) (vs ks cs : list Z) : __CFBasicHash :=
  mkHash (info_bits ht) (config ht) (mutations ht) (counts_width ht) (used_buckets ht) (deleted ht)
    (num_buckets_idx ht) (null_rc ht) (finalized ht) vs ks cs.

(** The calls that storing and dropping a value or a key make. *)
Definition value_retains (ht : __CFBasicHash) (v : Z) : list event :=
  let f := cb_ptr ptrs (__vret (config ht)) in
  if (f =? 0) || negb (null_rc ht =? 0) then [] else [EvRetain f v].
Definition key_retains (ht : __CFBasicHash) (k : Z) : list event :=
  let f := cb_ptr ptrs (__kret (config ht)) in
  if (f =? 0) || negb (null_rc ht =? 0) then [] else [EvRetain f k].
Definition value_releases (ht : __CFBasicHash) (v : Z) : list event :=
  let f := cb_ptr ptrs (__vrel (config ht)) in
  if (f =? 0) || negb (null_rc ht =? 0) then [] else [EvRelease f v].
Definition key_releases (ht : __CFBasicHash) (k : Z) : list event :=
  let f := cb_ptr ptrs (__krel (config ht)) in
  if (f =? 0) || negb (null_rc ht =? 0) then [] else [EvRelease f k].

(** What is stored for a value or a key. *)
Definition stored_value (ht : __CFBasicHash) (v : Z) : Z :=
  let f := cb_ptr ptrs (__vret (config ht)) in
  if (f =? 0) || negb (null_rc ht =? 0) then v else cr f v.
Definition stored_key (ht : __CFBasicHash) (k : Z) : Z :=
  let f := cb_ptr ptrs (__kret (config ht)) in
  if (f =? 0) || negb (null_rc ht =? 0) then k else cr f k.

Lemma import_value ht v : __CFBasicHashImportValue ptrs cr ht v = Some (stored_value ht v, value_retains ht v).
Proof. unfold __CFBasicHashImportValue, stored_value, value_retains. by destruct (_ || _). Qed.

Lemma import_key ht k : __CFBasicHashImportKey ptrs cr ht k = Some (stored_key ht k, key_retains ht k).
Proof. unfold __CFBasicHashImportKey, stored_key, key_retains. by destruct (_ || _). Qed.

Lemma eject_value ht v : __CFBasicHashEjectValue ptrs ht v = Some (tt, value_releases ht v).
Proof. unfold __CFBasicHashEjectValue, value_releases. by destruct (_ || _). Qed.

Lemma eject_key ht k : __CFBasicHashEjectKey ptrs ht k = Some (tt, key_releases ht k).
Proof. unfold __CFBasicHashEjectKey, key_releases. by destruct (_ || _). Qed.

(** Calls for what a slot held. *)
Definition slot_value_releases (ht : __CFBasicHash) (s : slot) : list event :=
  match s with SLive e => value_releases ht (e_value e) | _ => [] end.
Definition slot_key_releases (ht : __CFBasicHash) (s : slot) : list event :=
  match s with SLive e => key_releases ht (e_key e) | _ => [] end.

Lemma set_value ht (b : nat) v (lit : bool) s :
  values ht !! b = Some (cell_value s) -> slot_ok ht s ->
  __CFBasicHashSetValue ptrs ht (Z.of_nat b) v false lit =
    Some (set_arrays ht (<[b := if lit then v else encode v]> (values ht)) (keys ht) (counts ht), slot_value_releases ht s).
Proof.
  intros H Hok. unfold __CFBasicHashSetValue, __CFBasicHashGetValues. rewrite rd_nat, H, io_bind_lift.
  rewrite wr_nat by (by eapply lookup_lt_Some). rewrite io_bind_lift.
  destruct s as [| |e]; [done|done|]. cbn [cell_value slot_value_releases].
  destruct (encode_live (e_value e)) as [-> ->]. cbn [negb orb andb]. rewrite eject_value. cbn [io_bind io_ret].
  rewrite app_nil_r, decode_encode by apply Hok. done.
Qed.

Lemma set_key ht (b : nat) k (lit : bool) s :
  has_keys ht = true -> keys ht !! b = Some (cell_key s) -> slot_ok ht s ->
  __CFBasicHashSetKey ptrs ht (Z.of_nat b) k false lit =
    Some (set_arrays ht (values ht) (<[b := if lit then k else encode k]> (keys ht)) (counts ht), slot_key_releases ht s).
Proof.
  intros Hk H Hok. unfold __CFBasicHashSetKey. rewrite Hk. cbn [negb]. unfold __CFBasicHashGetKeys, __CFBasicHashSetKeys.
  rewrite Hk, rd_nat, H, io_bind_lift.
  rewrite wr_nat by (by eapply lookup_lt_Some). rewrite io_bind_lift.
  destruct s as [| |e]; [done|done|]. cbn [cell_key slot_key_releases].
  destruct (encode_live (e_key e)) as [-> ->]. cbn [negb orb andb]. rewrite eject_key. cbn [io_bind io_ret].
  destruct Hok as (_ & Hp & _). rewrite Hk in Hp. rewrite app_nil_r, decode_encode by done. done.
Qed.

(** Storing a value and, in a table with keys, a key in bucket [b]. *)
Lemma set_pair ht sl (b : nat) k v (lit : bool) s :
  rep ht sl -> sl !! b = Some s ->
  (do* ht := __CFBasicHashSetValue ptrs ht (Z.of_nat b) v false lit in
   if has_keys ht then __CFBasicHashSetKey ptrs ht (Z.of_nat b) k false lit else io_ret ht) =
    Some (set_arrays ht (<[b := if lit then v else encode v]> (values ht))
            (if has_keys ht then <[b := if lit then k else encode k]> (keys ht) else keys ht) (counts ht),
          slot_value_releases ht s ++ if has_keys ht then slot_key_releases ht s else []).
Proof.
  intros Hrep H. assert (slot_ok ht s) as Hok by (eapply Forall_lookup_1; [apply Hrep|exact H]).
  rewrite (set_value ht b v lit s) by (try done; rewrite (rep_values _ _ Hrep), list_lookup_fmap, H; done).
  cbn [io_bind]. change (has_keys (set_arrays _ _ _ _)) with (has_keys ht). destruct (has_keys ht) eqn:Ek.
  - rewrite (set_key _ b k lit s); [done|done| |done]. simpl. by rewrite (rep_keys _ _ Hrep Ek), list_lookup_fmap, H.
  - cbn [io_ret]. by rewrite !app_nil_r.
Qed.

Lemma slot_ok_frame ht ht' s :
  config ht' = config ht -> counts_width ht <= counts_width ht' -> 0 <= counts_width ht -> slot_ok ht s -> slot_ok ht' s.
Proof.
  intros Hc Hw Hw0. destruct s as [| |e]; [done|done|]. unfold slot_ok, has_keys, has_counts. rewrite Hc.
  intros (H1 & H2 & H3). split_and!; [done|done|]. destruct (negb (counts_offset (config ht) =? 0)); [|done].
  split; [lia|]. etrans; [apply H3|]. unfold max_slot_count, width_bits.
  assert (2 ^ (8 * 2 ^ counts_width ht - 1) <= 2 ^ (8 * 2 ^ counts_width ht' - 1)); [|lia].
  apply Z.pow_le_mono_r; [lia|]. assert (2 ^ counts_width ht <= 2 ^ counts_width ht') by (apply Z.pow_le_mono_r; lia). lia.
Qed.

Lemma rep_update ht ht' sl (b : nat) s s0 :
  rep ht sl -> sl !! b = Some s0 ->
  values ht' = <[b := cell_value s]> (values ht) ->
  (has_keys ht = true -> keys ht' = <[b := cell_key s]> (keys ht)) ->
  (has_counts ht = true -> counts ht' = <[b := cell_count s]> (counts ht)) ->
  config ht' = config ht -> num_buckets_idx ht' = num_buckets_idx ht ->
  counts_width ht <= counts_width ht' <= 3 -> slot_ok ht' s -> rep ht' (<[b := s]> sl).
Proof.
  intros Hrep Hb Hv Hk Hcn Hc Hi Hw Hs. pose proof (rep_width _ _ Hrep).
  assert (has_keys ht' = has_keys ht) as Ek by (unfold has_keys; by rewrite Hc).
  assert (has_counts ht' = has_counts ht) as Ec by (unfold has_counts; by rewrite Hc).
  constructor.
  - by rewrite Hv, (rep_values _ _ Hrep), list_fmap_insert.
  - intros E. rewrite Ek in E. by rewrite Hk, (rep_keys _ _ Hrep), list_fmap_insert.
  - intros E. rewrite Ec in E. by rewrite Hcn, (rep_counts _ _ Hrep), list_fmap_insert.
  - apply Forall_insert; [|done]. eapply Forall_impl; [apply Hrep|]. intros x Hx.
    apply (slot_ok_frame ht); [done|lia|lia|done].
  - rewrite Hc. apply Hrep.
  - rewrite Hi. apply Hrep.
  - rewrite Hi, length_insert. apply Hrep.
  - lia.
Qed.

(** Arrays apart, a table with the same bits holds the same slots. *)
Lemma rep_frame ht ht' sl :
  rep ht sl -> values ht' = values ht -> keys ht' = keys ht -> counts ht' = counts ht ->
  config ht' = config ht -> num_buckets_idx ht' = num_buckets_idx ht -> counts_width ht' = counts_width ht -> rep ht' sl.
Proof.
  intros Hrep Hv Hk Hcn Hc Hi Hw.
  constructor; unfold has_keys, has_counts; rewrite ?Hv, ?Hk, ?Hcn, ?Hc, ?Hi, ?Hw; try apply Hrep.
  eapply Forall_impl; [apply Hrep|]. intros x. pose proof (rep_width _ _ Hrep). apply slot_ok_frame; [done|lia|lia].
Qed.

(** ** Rehashing *)

(** A table of live and empty slots only, in good order. *)
Definition clean (ht : __CFBasicHash) (sl : list slot) : Prop :=
  rep ht sl /\ chained (config ht) (num_buckets_idx ht) sl /\ unique_keys (config ht) sl /\ SDeleted ∉ sl.

Section Rehash.
Context (c : hash_config) `{!KeyContract c}.
(** The slots before. *)
Context (sl0 : list slot) (Huniq : unique_keys c sl0).

(** One live slot of the old table goes into the new one. *)
Lemma rehash_put ht sl i e :
  clean ht sl -> config ht = c -> sl0 !! i = Some (SLive e) -> slot_ok ht (SLive e) ->
  1 <= num_buckets_idx ht -> (length (entries sl) < length sl)%nat -> entries sl ≡ₚ entries (take i sl0) ->
  exists b : nat, __CFBasicHashFindBucket_NoCollision ptrs ch ht (e_key e) 0 = Some (Z.of_nat b) /\
    sl !! b = Some SEmpty /\
    forall ht', rep ht' (<[b := SLive e]> sl) -> config ht' = c -> num_buckets_idx ht' = num_buckets_idx ht ->
      clean ht' (<[b := SLive e]> sl) /\ entries (<[b := SLive e]> sl) ≡ₚ entries (take (S i) sl0).
Proof.
  intros (Hrep & Hch & Hu & Hd) Hc Hi Hok Hidx Hlt Hp.
  destruct (find_free_spec ht sl (e_key e) Hrep Hidx Hd Hlt) as (b & Hf & Hb & Hr). exists b. split_and!; [done|done|].
  intros ht' Hrep' Hc' Hi'. unfold clean. rewrite Hc' in *. rewrite Hc, ?Hi' in *. split_and!.
  - done.
  - apply chained_insert; [done|done|]. by intros e' [= <-].
  - apply (unique_insert_live c); [done|]. intros b' e' Hb' E. exfalso.
    assert (e' ∈ entries (take i sl0)) as Hin by (rewrite <- Hp; apply elem_of_entries; eauto).
    apply elem_of_entries in Hin as (j & Hj). apply lookup_take_Some in Hj as [Hj Hlt'].
    pose proof (Huniq _ _ _ _ Hj Hi E). lia.
  - intros Hin. apply list_elem_of_lookup in Hin as (j & Hj). apply list_lookup_insert_Some in Hj as [(_ & ? & _)|[_ Hj]]; [done|].
    apply Hd. by eapply list_elem_of_lookup_2.
  - rewrite (entries_fill sl b SEmpty e) by done. rewrite (take_S_r _ _ _ Hi), entries_app, Hp. simpl.
    by rewrite Permutation_app_comm.
Qed.

(** The key of a live slot, as the loop reads it. *)
Lemma rehash_key ht sl i e :
  rep ht sl -> sl0 !! i = Some (SLive e) -> slot_ok ht (SLive e) ->
  (if has_keys ht then
     do* k := io_lift (rd (if has_keys ht then cell_key <$> sl0 else []) (Z.of_nat i)) in io_ret (decode k)
   else io_ret (e_value e)) = io_ret (if has_keys ht then e_key e else e_value e).
Proof.
  intros Hrep Hs (_ & Hp & _). destruct (has_keys ht) eqn:Ek; [|done].
  rewrite rd_nat, list_lookup_fmap, Hs. simpl. by rewrite decode_encode.
Qed.

Lemma rehash_own_key ht sl e :
  rep ht sl -> slot_ok ht (SLive e) ->
  (if negb (indirect_keys (config ht) =? 0) then __CFBasicHashGetIndirectKey ptrs ci ht (e_value e)
   else if has_keys ht then e_key e else e_value e) = e_key e.
Proof.
  intros Hrep (_ & Hp & _). destruct (has_keys ht) eqn:Ek.
  - destruct (rep_config _ _ Hrep) as [_ [Hko|Hii]]; [unfold has_keys in Ek; by rewrite Hko in Ek|]. by rewrite Hii.
  - rewrite Hp. unfold own_key, __CFBasicHashGetIndirectKey. by destruct (negb _).
Qed.

(** Writing an entry of the old table into an empty bucket of the new one. *)
Lemma rehash_store ht sl i (b : nat) e :
  rep ht sl -> sl0 !! i = Some (SLive e) -> sl !! b = Some SEmpty ->
  (do* ht0 := __CFBasicHashSetValue ptrs ht (Z.of_nat b) (e_value e) false false in
   do* ht1 := (if nonnull (if has_keys ht then cell_key <$> sl0 else [])
      then __CFBasicHashSetKey ptrs ht0 (Z.of_nat b) (e_key e) false false else io_ret ht0) in
   if nonnull (if has_counts ht then cell_count <$> sl0 else []) then
     do* n := io_lift (rd (if has_counts ht then cell_count <$> sl0 else []) (Z.of_nat i)) in
     do* cs := io_lift (wr (__CFBasicHashGetCounts ht1) (Z.of_nat b) n) in
     io_ret (__CFBasicHashSetCounts ht1 cs)
   else io_ret ht1) =
   Some (set_arrays ht (<[b := encode (e_value e)]> (values ht))
     (if has_keys ht then <[b := encode (e_key e)]> (keys ht) else keys ht)
     (if has_counts ht then <[b := e_count e]> (counts ht) else counts ht), []).
Proof.
  intros Hrep Hs Hb.
  assert (nonnull (cell_key <$> sl0) = true) as Hnk by (by destruct sl0).
  assert (nonnull (cell_count <$> sl0) = true) as Hnc by (by destruct sl0).
  assert (forall ht0, config ht0 = config ht ->
    (if nonnull (if has_keys ht then cell_key <$> sl0 else [])
     then __CFBasicHashSetKey ptrs ht0 (Z.of_nat b) (e_key e) false false else io_ret ht0) =
    (if has_keys ht0 then __CFBasicHashSetKey ptrs ht0 (Z.of_nat b) (e_key e) false false else io_ret ht0)) as Hk.
  { intros ht0 E. unfold has_keys. rewrite E. fold (has_keys ht). destruct (has_keys ht); [by rewrite Hnk|done]. }
  pose proof (set_pair ht sl b (e_key e) (e_value e) false SEmpty Hrep Hb) as Hsp.
  rewrite <- io_bind_assoc.
  match goal with |- io_bind ?m _ = _ => assert (m = Some (set_arrays ht (<[b := encode (e_value e)]> (values ht))
     (if has_keys ht then <[b := encode (e_key e)]> (keys ht) else keys ht) (counts ht), [])) as -> end.
  { rewrite (set_value ht b (e_value e) false SEmpty) in Hsp |- *
      by (try done; rewrite (rep_values _ _ Hrep), list_lookup_fmap, Hb; done).
    cbn [io_bind] in Hsp |- *. rewrite Hk by done. rewrite Hsp. do 2 f_equal. by destruct (has_keys ht). }
  cbn [io_bind].
  destruct (has_counts ht) eqn:Ec; [|done].
  rewrite Hnc, rd_nat, list_lookup_fmap, Hs. cbn [fmap option_fmap option_map cell_count]. rewrite io_bind_lift.
  unfold __CFBasicHashGetCounts, __CFBasicHashSetCounts. change (has_counts (set_arrays _ _ _ _)) with (has_counts ht).
  rewrite Ec, wr_nat; [rewrite io_bind_lift; done|]. simpl. rewrite (rep_counts _ _ Hrep Ec), length_fmap.
  by eapply lookup_lt_Some.
Qed.

Lemma rehash_loop_spec w rest i ht sl :
  clean ht sl -> config ht = c -> ((0 < length (entries sl0))%nat -> 1 <= num_buckets_idx ht) -> counts_width ht = w ->
  Forall (slot_ok ht) sl0 -> (length (entries sl0) <= length sl)%nat ->
  (i + rest = length sl0)%nat -> entries sl ≡ₚ entries (take i sl0) ->
  exists vs ks cs sl',
    rehash_loop ptrs ch ci (cell_value <$> sl0)
      (if has_keys ht then cell_key <$> sl0 else []) (if has_counts ht then cell_count <$> sl0 else [])
      rest (Z.of_nat i) ht = Some (set_arrays ht vs ks cs, []) /\
    clean (set_arrays ht vs ks cs) sl' /\ length sl' = length sl /\ entries sl' ≡ₚ entries sl0.
Proof.
  revert i ht sl. induction rest as [|rest IH]; intros i ht sl Hcl Hc Hidx Hw Hok Hlen Hi Hp.
  - exists (values ht), (keys ht), (counts ht), sl. rewrite take_ge in Hp by lia. by destruct ht.
  - assert (exists s, sl0 !! i = Some s) as [s Hs] by (apply lookup_lt_is_Some; lia).
    assert (rd (cell_value <$> sl0) (Z.of_nat i) = Some (cell_value s)) as Ev by (rewrite rd_nat, list_lookup_fmap, Hs; done).
    cbn [rehash_loop]. rewrite Ev, io_bind_lift.
    replace (Z.of_nat i + 1) with (Z.of_nat (S i)) by lia.
    assert (forall s', s = s' -> is_live s' = false -> entries (take (S i) sl0) = entries (take i sl0)) as Hskip.
    { intros s' -> Hl. rewrite (take_S_r _ _ _ Hs), entries_app, entries_cons. destruct s'; try done; apply app_nil_r. }
    destruct s as [| |e].
    + cbn [cell_value Z.eqb negb andb io_bind io_ret]. change (negb (0 =? 0) && _) with false. cbv iota. cbn [io_bind io_ret].
      destruct (IH (S i) ht sl) as (vs & ks & cs & sl' & -> & H); [done..|lia|by rewrite (Hskip SEmpty)|].
      exists vs, ks, cs, sl'. done.
    + change (negb (cell_value SDeleted =? 0) && negb (cell_value SDeleted =? ones)) with false. cbv iota. cbn [io_bind io_ret].
      destruct (IH (S i) ht sl) as (vs & ks & cs & sl' & -> & H); [done..|lia|by rewrite (Hskip SDeleted)|].
      exists vs, ks, cs, sl'. done.
    + pose proof (Forall_lookup_1 _ _ _ _ Hok Hs) as Hoke.
      cbn [cell_value]. destruct (encode_live (e_value e)) as [-> ->]. cbn [negb andb].
      rewrite decode_encode by apply Hoke.
      assert (length (entries (take i sl0)) < length (entries sl0))%nat as Hlt.
      { rewrite <- (take_drop_middle _ _ _ Hs) at 2. rewrite entries_app, entries_cons, !length_app. simpl. lia. }
      destruct (rehash_put ht sl i e Hcl Hc Hs Hoke) as (b & Hf & Hb & Hnew);
        [apply Hidx; lia|rewrite Hp; lia|done|].
      destruct Hcl as (Hrep & _).
      rewrite (rehash_key ht sl i e Hrep Hs Hoke). cbn [io_bind io_ret].
      rewrite (rehash_own_key ht sl e Hrep Hoke).
      rewrite Hf, io_bind_lift, (rehash_store ht sl i b e Hrep Hs Hb).
      cbn [io_bind].
      match goal with |- context [rehash_loop _ _ _ _ _ _ _ _ ?h] => set (ht1 := h) end.
      destruct (Hnew ht1) as [Hcl' Hp']; [|exact Hc|reflexivity|].
      { apply (rep_update ht ht1 sl b (SLive e) SEmpty Hrep Hb).
        - reflexivity.
        - intros Ek. simpl. by rewrite Ek.
        - intros Ec. simpl. by rewrite Ec.
        - done.
        - done.
        - simpl. pose proof (rep_width _ _ Hrep). lia.
        - exact Hoke. }
      destruct (IH (S i) ht1 _ Hcl') as (vs & ks & cs & sl' & E & Hcl'' & Hl & He).
      { exact Hc. } { exact Hidx. } { exact Hw. } { exact Hok. } { rewrite length_insert. done. } { lia. } { exact Hp'. }
      change (has_keys ht1) with (has_keys ht) in E. change (has_counts ht1) with (has_counts ht) in E.
      rewrite E. exists vs, ks, cs, sl'. rewrite length_insert in Hl. done.
Qed.

End Rehash.

(** ** Capacities *)

Definition capacity_of (i : Z) : Z := default 0 (rd __CFBasicHashTableCapacities i).

(** The bound on the number of entries the theorems assume; the next two sizes
    still exist then. *)
Definition max_entries : Z := 2 ^ 30.

Lemma rd_capacity i : 0 <= i <= max_idx -> rd __CFBasicHashTableCapacities i = Some (capacity_of i).
Proof.
  intros Hi. unfold capacity_of. destruct (rd_Some __CFBasicHashTableCapacities i) as [v E]; [|by rewrite E].
  change (Z.of_nat (length __CFBasicHashTableCapacities)) with 64. unfold max_idx in Hi. lia.
Qed.

Lemma capacity_le_size i : 0 <= i <= max_idx -> 0 <= capacity_of i <= size_of i.
Proof.
  intros Hi. pose proof (forall_below (fun i => (0 <=? capacity_of i) && (capacity_of i <=? size_of i)) 44 eq_refl i) as H.
  cbv beta in H. rewrite andb_true_iff, !Z.leb_le in H. apply H. unfold max_idx in Hi. lia.
Qed.

Lemma idx_for_capacity_spec rest i j cap :
  0 <= i <= j -> j < i + Z.of_nat rest -> j <= max_idx -> cap <= capacity_of j ->
  exists i', idx_for_capacity rest i cap = Some i' /\ i <= i' <= j /\ cap <= capacity_of i'.
Proof.
  revert i. induction rest as [|rest IH]; intros i Hi Hj Hm Hc; [lia|].
  simpl. unfold __CFBasicHashGetCapacityForNumBuckets. rewrite rd_capacity by lia. simpl.
  destruct (Z.leb_spec cap (capacity_of i)).
  - exists i. split_and!; [done|lia|lia|done].
  - assert (i <> j) by (intros ->; lia). destruct (IH (i + 1)) as (i' & E & Hi' & Hc'); [lia..|done|].
    exists i'. split_and!; [done|lia|lia|done].
Qed.

Lemma idx_for_small_capacity cap :
  cap <= max_entries ->
  exists i, __CFBasicHashGetNumBucketsIndexForCapacity cap = Some i /\ 0 <= i <= 42 /\ cap <= capacity_of i /\ (0 < cap -> 1 <= i).
Proof.
  intros Hc. destruct (idx_for_capacity_spec 64 0 42 cap) as (i & E & Hi & Hci);
    [lia|lia|unfold max_idx; lia|change (capacity_of 42) with 1238087439; unfold max_entries in Hc; lia|].
  exists i. split_and!; [done|lia|lia|done|]. intros Hpos. destruct (decide (i = 0)) as [->|]; [|lia].
  change (capacity_of 0) with 0 in Hci. lia.
Qed.

(** The sizes a rehash chooses. *)
Lemma rehash_idx_spec ht newItemCount :
  0 <= used_buckets ht -> used_buckets ht + newItemCount <= max_entries -> used_buckets ht <= max_entries ->
  0 <= num_buckets_idx ht <= max_idx -> used_buckets ht <= capacity_of (num_buckets_idx ht) ->
  exists i, rehash_idx ht newItemCount = Some i /\ 0 <= i <= max_idx /\
    used_buckets ht <= capacity_of i /\
    (0 < newItemCount -> used_buckets ht + newItemCount <= capacity_of i /\ 1 <= i).
Proof.
  intros Hu Hn Hm Hi Hcap. unfold rehash_idx. destruct (Z.eqb_spec 0 newItemCount) as [<-|Hne].
  - exists (num_buckets_idx ht). split_and!; [done|lia|lia|done|lia].
  - cbn [negb]. set (m := if newItemCount <? 0 then 0 else newItemCount).
    assert (m = Z.max 0 newItemCount) as Em by (unfold m; bool_case; lia).
    destruct (idx_for_small_capacity (used_buckets ht + m)) as (i & -> & Hir & Hci & Hpos); [lia|]. cbn [opt_bind].
    pose proof (capacity_le_size i ltac:(unfold max_idx; lia)).
    set (i' := if _ && _ then i + 1 else i).
    assert (i' = i \/ (i' = i + 1 /\ m = 1)) as Hi'.
    { unfold i'. destruct (Z.eqb_spec 1 m), (negb (fast_grow _ =? 0)); simpl; lia. }
    assert (capacity_of i <= capacity_of (i + 1)) as Hmono.
    { pose proof (forall_below (fun i => capacity_of i <=? capacity_of (i + 1)) 43 eq_refl i) as H'.
      cbv beta in H'. rewrite Z.leb_le in H'. apply H'. lia. }
    exists i'. unfold max_idx. split_and!; [done|lia|lia| |].
    + destruct Hi' as [->|[-> _]]; lia.
    + intros Hp. destruct Hi' as [->|[-> _]]; lia.
Qed.

(** Setting every array that the table has. *)
Lemma set_all_arrays ht a :
  (let ht := __CFBasicHashSetValues ht a in
   let ht := if has_keys ht then __CFBasicHashSetKeys ht a else ht in
   if has_counts ht then __CFBasicHashSetCounts ht a else ht) =
  set_arrays ht a (if has_keys ht then a else keys ht) (if has_counts ht then a else counts ht).
Proof.
  unfold __CFBasicHashSetKeys, __CFBasicHashSetCounts, __CFBasicHashSetValues, set_arrays, has_keys, has_counts.
  destruct ht; simpl. destruct (negb (keys_offset _ =? 0)); simpl; destruct (negb (counts_offset _ =? 0)); done.
Qed.

Lemma rep_fresh ht i :
  config_ok (config ht) -> 0 <= i <= max_idx -> 0 <= counts_width ht <= 3 ->
  rep (set_arrays (set_deleted (set_num_buckets_idx ht i) 0) (replicate (Z.to_nat (size_of i)) 0)
     (if has_keys ht then replicate (Z.to_nat (size_of i)) 0 else keys ht)
     (if has_counts ht then replicate (Z.to_nat (size_of i)) 0 else counts ht))
    (replicate (Z.to_nat (size_of i)) SEmpty).
Proof.
  intros Hc Hi Hw. pose proof (capacity_le_size i Hi). constructor; simpl.
  - by rewrite fmap_replicate.
  - intros Ek. change (has_keys ht = true) in Ek. by rewrite Ek, fmap_replicate.
  - intros Ek. change (has_counts ht = true) in Ek. by rewrite Ek, fmap_replicate.
  - by apply Forall_replicate.
  - done.
  - done.
  - rewrite length_replicate. lia.
  - done.
Qed.

Lemma entries_replicate n : entries (replicate n SEmpty) = [].
Proof. induction n as [|n IH]; [done|]. exact IH. Qed.

Lemma rehash_spec ht sl newItemCount i :
  rep ht sl -> unique_keys (config ht) sl -> KeyContract (config ht) ->
  rehash_idx ht newItemCount = Some i -> 0 <= i <= max_idx -> Z.of_nat (length (entries sl)) <= capacity_of i ->
  exists vs ks cs sl',
    __CFBasicHashRehash ptrs ch ci ht newItemCount =
      Some (set_arrays (set_deleted (set_num_buckets_idx ht i) 0) vs ks cs, []) /\
    clean (set_arrays (set_deleted (set_num_buckets_idx ht i) 0) vs ks cs) sl' /\
    Z.of_nat (length sl') = size_of i /\ entries sl' ≡ₚ entries sl.
Proof.
  intros Hrep Hu HK Ei Hi Hlen. unfold __CFBasicHashRehash. rewrite Ei, io_bind_lift.
  rewrite !rd_size by (try apply Hrep; lia). rewrite !io_bind_lift.
  pose proof (capacity_le_size i Hi) as Hcap.
  replace (if 0 <? size_of i then replicate (Z.to_nat (size_of i)) 0 else []) with (replicate (Z.to_nat (size_of i)) 0)
    by (destruct (Z.ltb_spec 0 (size_of i)); [done|]; replace (size_of i) with 0 by lia; done).
  rewrite uwrap_id by (unfold in_unsigned, max_idx in *; lia).
  set (fresh := replicate (Z.to_nat (size_of i)) 0).
  set (ht0 := set_deleted (set_num_buckets_idx ht i) 0).
  pose proof (rep_fresh ht i ltac:(apply Hrep) Hi ltac:(apply Hrep)) as Hfresh. fold ht0 fresh in Hfresh.
  set (ht1 := set_arrays ht0 fresh (if has_keys ht then fresh else keys ht) (if has_counts ht then fresh else counts ht)) in *.
  pose proof (set_all_arrays ht0 fresh) as Hset. cbv zeta in Hset |- *.
  unfold __CFBasicHashGetValues, __CFBasicHashGetKeys, __CFBasicHashGetCounts.
  replace (if has_keys ht0 then if has_keys ht0 then keys ht0 else values ht0 else [])
    with (if has_keys ht1 then cell_key <$> sl else [])
    by (change (has_keys ht1) with (has_keys ht); change (has_keys ht0) with (has_keys ht);
        destruct (has_keys ht) eqn:Ek; [by rewrite <- (rep_keys _ _ Hrep Ek)|done]).
  replace (if has_counts ht0 then if has_counts ht0 then counts ht0 else values ht0 else [])
    with (if has_counts ht1 then cell_count <$> sl else [])
    by (change (has_counts ht1) with (has_counts ht); change (has_counts ht0) with (has_counts ht);
        destruct (has_counts ht) eqn:Ek; [by rewrite <- (rep_counts _ _ Hrep Ek)|done]).
  change (values ht0) with (values ht). rewrite (rep_values _ _ Hrep).
  change (has_keys ht0) with (has_keys ht) in Hset. change (has_counts ht0) with (has_counts ht) in Hset. fold ht1 in Hset. rewrite Hset.
  rewrite (rep_size _ _ Hrep), Nat2Z.id.
  destruct (rehash_loop_spec (config ht) sl Hu (counts_width ht) (length sl) 0 ht1 (replicate (Z.to_nat (size_of i)) SEmpty))
    as (vs & ks & cs & sl' & E & Hcl & Hl & He).
  - split_and!; [done| | |].
    + intros b e Hb. apply lookup_replicate in Hb as [? _]. done.
    + intros b b' e e' Hb. apply lookup_replicate in Hb as [? _]. done.
    + intros Hin. apply list_elem_of_lookup in Hin as (b & Hb). apply lookup_replicate in Hb as [? _]. done.
  - done.
  - intros Hpos. change (num_buckets_idx ht1) with i. destruct (decide (i = 0)) as [->|]; [|lia].
    change (capacity_of 0) with 0 in Hlen. lia.
  - done.
  - eapply Forall_impl; [apply Hrep|]. intros s Hs. exact Hs.
  - rewrite length_replicate. lia.
  - lia.
  - simpl. by rewrite entries_replicate.
  - exists vs, ks, cs, sl'. split_and!; [exact E|exact Hcl|rewrite Hl, length_replicate; lia|done].
Qed.

(** ** Counts *)

Lemma widen_counts_id (old : list Z) : widen_counts old (Z.of_nat (length old)) = Some old.
Proof.
  unfold widen_counts. rewrite Nat2Z.id. apply mapM_Some. apply Forall2_same_length_lookup_2; [by rewrite length_seq|].
  intros i x y Hx Hy. apply lookup_seq in Hx as [-> _]. by rewrite rd_nat.
Qed.

Lemma max_slot_count_step w : 0 <= w -> max_slot_count w < max_slot_count (w + 1) /\ 127 <= max_slot_count w.
Proof.
  intros Hw. unfold max_slot_count, width_bits. rewrite Z.pow_add_r, Z.pow_1_r by lia.
  assert (1 <= 2 ^ w) by (change 1 with (2 ^ 0); apply Z.pow_le_mono_r; lia).
  assert (2 ^ (8 * 2 ^ w - 1) < 2 ^ (8 * (2 ^ w * 2) - 1)) by (apply Z.pow_lt_mono_r; lia).
  assert (2 ^ 7 <= 2 ^ (8 * 2 ^ w - 1)) by (apply Z.pow_le_mono_r; lia). lia.
Qed.

Lemma max_slot_count_3 : max_slot_count 3 = INT64_MAX.
Proof. reflexivity. Qed.

Lemma inc_slot_count_spec fuel ht (b : nat) v :
  has_counts ht = true -> 0 <= num_buckets_idx ht <= max_idx ->
  size_of (num_buckets_idx ht) = Z.of_nat (length (counts ht)) ->
  counts ht !! b = Some v -> 0 <= counts_width ht <= 3 -> 0 <= v <= max_slot_count (counts_width ht) -> v < INT64_MAX ->
  3 - counts_width ht < Z.of_nat fuel ->
  exists w, counts_width ht <= w <= 3 /\ v + 1 <= max_slot_count w /\
    inc_slot_count fuel ht (Z.of_nat b) =
      Some (set_arrays (set_counts_width ht w) (values ht) (keys ht) (<[b := v + 1]> (counts ht))).
Proof.
  revert ht. induction fuel as [|fuel IH]; intros ht Hc Hi Hn Hb Hw Hv Hlt Hf; [lia|].
  cbn [inc_slot_count]. unfold __CFBasicHashGetCounts at 1. rewrite Hc, rd_nat, Hb. cbn [opt_bind].
  fold (max_slot_count (counts_width ht)). destruct (Z.ltb_spec v (max_slot_count (counts_width ht))) as [Hs|Hs].
  - exists (counts_width ht). split_and!; [lia|lia|lia|].
    unfold __CFBasicHashGetCounts, __CFBasicHashSetCounts. rewrite Hc, wr_nat by (by eapply lookup_lt_Some).
    cbn [opt_bind]. by destruct ht.
  - assert (counts_width ht <> 3) by (intros E; rewrite E, max_slot_count_3 in Hs; lia).
    unfold __CFBasicHashBumpCounts. cbn [num_buckets_idx set_counts_width].
    rewrite (proj2 (Z.leb_le 0 _)), (proj2 (Z.ltb_lt _ 3)) by lia. cbn [andb].
    rewrite rd_size, Hn by lia. cbn [opt_bind]. unfold __CFBasicHashGetCounts at 1. rewrite Hc.
    rewrite widen_counts_id. cbn [opt_bind]. unfold __CFBasicHashSetCounts at 1.
    change (has_counts (set_counts_width ht _)) with (has_counts ht). rewrite Hc.
    pose proof (max_slot_count_step (counts_width ht) ltac:(lia)).
    set (ht' := mkHash _ _ _ _ _ _ _ _ _ _ _ _).
    destruct (IH ht') as (w & Hw' & Hm & E); [done|done|done|done|simpl; lia|simpl; lia|done|simpl; lia|].
    exists w. simpl in Hw'. split_and!; [lia|lia|done|exact E].
Qed.

Lemma inc_count ht sl (b : nat) e :
  rep ht sl -> has_counts ht = true -> sl !! b = Some (SLive e) -> e_count e < INT64_MAX ->
  exists w, counts_width ht <= w <= 3 /\ e_count e + 1 <= max_slot_count w /\
    __CFBasicHashIncSlotCount ht (Z.of_nat b) =
      Some (set_arrays (set_counts_width ht w) (values ht) (keys ht) (<[b := e_count e + 1]> (counts ht))).
Proof.
  intros Hrep Hc Hb Hlt. destruct (slot_ok_live ht sl Hrep b e Hb) as (_ & _ & Hcnt). rewrite Hc in Hcnt.
  apply inc_slot_count_spec; try apply Hrep; try done.
  - rewrite (rep_size _ _ Hrep), (rep_counts _ _ Hrep Hc). by rewrite length_fmap.
  - rewrite (rep_counts _ _ Hrep Hc), list_lookup_fmap, Hb. done.
  - lia.
  - pose proof (rep_width _ _ Hrep). lia.
Qed.

Lemma dec_count ht sl (b : nat) e :
  rep ht sl -> has_counts ht = true -> sl !! b = Some (SLive e) ->
  __CFBasicHashDecSlotCount ht (Z.of_nat b) =
    Some (set_arrays ht (values ht) (keys ht) (<[b := e_count e - 1]> (counts ht))).
Proof.
  intros Hrep Hc Hb. destruct (slot_ok_live ht sl Hrep b e Hb) as (_ & _ & Hcnt). rewrite Hc in Hcnt.
  unfold __CFBasicHashDecSlotCount. rewrite (rd_counts ht sl Hrep b _ Hc Hb). cbn [opt_bind cell_count].
  unfold __CFBasicHashGetCounts, __CFBasicHashSetCounts. rewrite Hc, wr_nat.
  2:{ rewrite (rep_counts _ _ Hrep Hc), length_fmap. by eapply lookup_lt_Some. }
  cbn [opt_bind]. rewrite uwrap_id; [done|]. unfold in_unsigned.
  pose proof (rep_width _ _ Hrep). unfold max_slot_count, width_bits in *.
  assert (1 <= 2 ^ counts_width ht) by (change 1 with (2 ^ 0); apply Z.pow_le_mono_r; lia).
  assert (2 ^ (8 * 2 ^ counts_width ht - 1) <= 2 ^ (8 * 2 ^ counts_width ht)) by (apply Z.pow_le_mono_r; lia). lia.
Qed.

(** ** Well-formed tables *)

Record wf (ht : __CFBasicHash) (sl : list slot) : Prop := mkWf {
  wf_rep : rep ht sl;
  wf_chained : chained (config ht) (num_buckets_idx ht) sl;
  wf_unique : unique_keys (config ht) sl;
  wf_used : used_buckets ht = Z.of_nat (length (entries sl));
  wf_capacity : used_buckets ht <= capacity_of (num_buckets_idx ht);
  wf_max : used_buckets ht <= max_entries;
  wf_deleted : deleted ht = Z.of_nat (num_deleted sl);
  wf_deleted_range : deleted ht < 2 ^ 16
}.

Lemma capacity_bound i : 0 <= i <= max_idx -> 0 <= capacity_of i < 2 ^ 32.
Proof.
  intros Hi. pose proof (capacity_le_size i Hi). destruct (decide (i = 0)) as [->|]; [done|].
  pose proof (size_of_pos i ltac:(lia)). lia.
Qed.

Lemma num_deleted_none sl : SDeleted ∉ sl -> num_deleted sl = 0%nat.
Proof.
  intros H. unfold num_deleted. rewrite filter_none; [done|]. apply list.Forall_forall. intros s Hs ->. done.
Qed.

(** A rehash of a table of entries with unique keys is well formed. *)
Lemma rehash_wf ht sl newItemCount i :
  rep ht sl -> unique_keys (config ht) sl -> KeyContract (config ht) ->
  used_buckets ht = Z.of_nat (length (entries sl)) ->
  rehash_idx ht newItemCount = Some i -> 0 <= i <= max_idx -> used_buckets ht <= capacity_of i ->
  used_buckets ht <= max_entries ->
  exists vs ks cs sl', let ht' := set_arrays (set_deleted (set_num_buckets_idx ht i) 0) vs ks cs in
    __CFBasicHashRehash ptrs ch ci ht newItemCount = Some (ht', []) /\ wf ht' sl' /\
    SDeleted ∉ sl' /\ Z.of_nat (length sl') = size_of i /\ entries sl' ≡ₚ entries sl.
Proof.
  intros Hrep Hu HK Hused Ei Hi Hcap Hmax.
  destruct (rehash_spec ht sl newItemCount i Hrep Hu HK Ei Hi) as (vs & ks & cs & sl' & E & (Hr & Hc & Hu' & Hd) & Hl & Hp); [lia|].
  exists vs, ks, cs, sl'. cbv zeta. split_and!; [done| |done|done|done].
  constructor; [done|done|done| |done|done| |done].
  - simpl. by rewrite Hused, Hp.
  - simpl. by rewrite num_deleted_none.
Qed.

(** Bits that no slot depends on. *)
Lemma wf_frame ht ht' sl :
  wf ht sl -> values ht' = values ht -> keys ht' = keys ht -> counts ht' = counts ht ->
  config ht' = config ht -> num_buckets_idx ht' = num_buckets_idx ht -> counts_width ht' = counts_width ht ->
  used_buckets ht' = used_buckets ht -> deleted ht' = deleted ht -> wf ht' sl.
Proof.
  intros Hwf Hv Hk Hcn Hc Hi Hw Hu Hd.
  constructor; rewrite ?Hc, ?Hi, ?Hu, ?Hd; try apply Hwf.
  by apply (rep_frame ht); [apply Hwf|..].
Qed.

(** ** Adding an entry *)

(** Operations leave these bits of a table alone. *)
Definition same_object (ht ht' : __CFBasicHash) : Prop :=
  info_bits ht' = info_bits ht /\ config ht' = config ht /\ null_rc ht' = null_rc ht /\ finalized ht' = finalized ht.

Lemma hash_same_object_trans ht1 ht2 ht3 : same_object ht1 ht2 -> same_object ht2 ht3 -> same_object ht1 ht3.
Proof. unfold same_object. intuition congruence. Qed.

Lemma absent_entries c sl k : absent c sl k <-> forall e, e ∈ entries sl -> key_eq c (e_key e) k = false.
Proof.
  split.
  - intros H e He. apply elem_of_entries in He as [b Hb]. by apply (H b).
  - intros H b e Hb. apply H, elem_of_entries. eauto.
Qed.

(** The entry a call stores for the pair of [k] and [v]. *)
Definition stored_entry (ht : __CFBasicHash) (k v cnt : Z) : entry :=
  mkEntry (if has_keys ht then stored_key ht k else own_key (config ht) (stored_value ht v)) (stored_value ht v) cnt.

Definition pair_retains (ht : __CFBasicHash) (k v : Z) : list event :=
  value_retains ht v ++ if has_keys ht then key_retains ht k else [].

Definition entry_releases (ht : __CFBasicHash) (e : entry) : list event :=
  value_releases ht (e_value e) ++ if has_keys ht then key_releases ht (e_key e) else [].

(** What the retain callbacks owe the table for a pair: a stored key that is
    equal to the key given, and nothing stored that is one of the substitutes. *)
Definition pair_ok (ht : __CFBasicHash) (k v : Z) : Prop :=
  plain k /\ plain v /\ plain (stored_value ht v) /\ (has_keys ht = true -> plain (stored_key ht k)) /\
  key_eq (config ht) (e_key (stored_entry ht k v 1)) k = true.

Lemma slot_ok_new ht k v :
  pair_ok ht k v -> (has_counts ht = true -> 1 <= max_slot_count (counts_width ht)) -> slot_ok ht (SLive (stored_entry ht k v 1)).
Proof.
  intros (_ & _ & Hv & Hk & _) Hc. unfold slot_ok, stored_entry. simpl. split_and!; [done| |].
  - destruct (has_keys ht); auto.
  - destruct (has_counts ht); [|done]. specialize (Hc eq_refl). lia.
Qed.

Lemma fresh_slot_wf ht ht' sl b s k e :
  KeyContract (config ht) ->
  rep ht' (<[b := SLive e]> sl) -> config ht' = config ht -> num_buckets_idx ht' = num_buckets_idx ht ->
  chained (config ht) (num_buckets_idx ht) sl -> unique_keys (config ht) sl -> absent (config ht) sl k ->
  sl !! b = Some s -> is_live s = false -> reachable (config ht) (num_buckets_idx ht) sl k b ->
  key_eq (config ht) (e_key e) k = true ->
  used_buckets ht' = Z.of_nat (length (entries sl)) + 1 -> used_buckets ht' <= capacity_of (num_buckets_idx ht) ->
  used_buckets ht' <= max_entries ->
  deleted ht' = Z.of_nat (num_deleted (<[b := SLive e]> sl)) -> deleted ht' < 2 ^ 16 ->
  wf ht' (<[b := SLive e]> sl).
Proof.
  intros HK Hrep Hc Hi Hch Hu Ha Hb Hs Hr Hk Hused Hcap Hmax Hd Hd16.
  constructor; rewrite ?Hc, ?Hi; try done.
  - apply chained_insert; [done|done|]. intros e' [= <-]. apply (reachable_eq (config ht) _ _ k); [by apply key_eq_sym|done].
  - apply (unique_insert_live (config ht)); [done|]. intros b' e' Hb' E. exfalso.
    pose proof (key_eq_trans _ _ _ E Hk) as Ek. by rewrite (Ha b' e' Hb') in Ek.
  - rewrite Hused, (entries_fill sl b s e) by done. simpl. lia.
Qed.

(** The second half of [__CFBasicHashAddValue]: the bucket is known. *)
Lemma add_tail ht sl (b : nat) s k v :
  KeyContract (config ht) -> rep ht sl -> chained (config ht) (num_buckets_idx ht) sl ->
  unique_keys (config ht) sl -> absent (config ht) sl k -> sl !! b = Some s -> is_live s = false ->
  reachable (config ht) (num_buckets_idx ht) sl k b -> pair_ok ht k v ->
  used_buckets ht = Z.of_nat (length (entries sl)) -> used_buckets ht + 1 <= capacity_of (num_buckets_idx ht) ->
  used_buckets ht < max_entries ->
  deleted ht = Z.of_nat (num_deleted (<[b := SLive (stored_entry ht k v 1)]> sl)) -> deleted ht < 2 ^ 16 ->
  exists ht',
    (do* stack_value := __CFBasicHashImportValue ptrs cr ht v in
     do* stack_key := if has_keys ht then __CFBasicHashImportKey ptrs cr ht k else io_ret k in
     do* ht := __CFBasicHashSetValue ptrs ht (Z.of_nat b) stack_value false false in
     do* ht := if has_keys ht then __CFBasicHashSetKey ptrs ht (Z.of_nat b) stack_key false false else io_ret ht in
     do* ht := if has_counts ht then io_lift (__CFBasicHashIncSlotCount ht (Z.of_nat b)) else io_ret ht in
     io_ret (set_used_buckets ht (uwrap 32 (used_buckets ht + 1)))) = Some (ht', pair_retains ht k v) /\
    wf ht' (<[b := SLive (stored_entry ht k v 1)]> sl) /\ same_object ht ht' /\ mutations ht' = mutations ht.
Proof.
  intros HK Hrep Hch Hu Ha Hb Hs Hr Hok Hused Hcap Hmax Hd Hd16.
  set (e := stored_entry ht k v 1). set (sk := if has_keys ht then stored_key ht k else k).
  assert ((if has_keys ht then __CFBasicHashImportKey ptrs cr ht k else io_ret k) =
    Some (sk, if has_keys ht then key_retains ht k else [])) as ->.
  { unfold sk. destruct (has_keys ht); [apply import_key|done]. }
  rewrite import_value. cbn [io_bind]. rewrite <- io_bind_assoc.
  rewrite (set_pair ht sl b sk (stored_value ht v) false s Hrep Hb). cbn [io_bind].
  set (ht1 := set_arrays ht _ _ _).
  assert (slot_value_releases ht s ++ (if has_keys ht then slot_key_releases ht s else []) = []) as Hev
    by (destruct s; [by destruct (has_keys ht)..|done]).
  assert (exists w cs, counts_width ht <= w <= 3 /\ (has_counts ht = true -> 1 <= max_slot_count w) /\
    (has_counts ht = true -> cs = <[b := 1]> (counts ht)) /\
    (if has_counts ht1 then io_lift (__CFBasicHashIncSlotCount ht1 (Z.of_nat b)) else io_ret ht1) =
      Some (set_arrays (set_counts_width ht1 w) (values ht1) (keys ht1) cs, [])) as (w & cs & Hw & Hmw & Hcs & ->).
  { change (has_counts ht1) with (has_counts ht). pose proof (rep_width _ _ Hrep). destruct (has_counts ht) eqn:Ec.
    - destruct (inc_slot_count_spec 5 ht1 b 0) as (w & Hw & Hm & E); try apply Hrep; try done.
      + simpl. rewrite (rep_size _ _ Hrep), (rep_counts _ _ Hrep Ec). by rewrite length_fmap.
      + simpl. rewrite (rep_counts _ _ Hrep Ec), list_lookup_fmap, Hb. by destruct s.
      + pose proof (max_slot_count_step (counts_width ht) ltac:(lia)). simpl. lia.
      + simpl. lia.
      + exists w, (<[b := 1]> (counts ht)). split_and!; [apply Hw|apply Hw|lia|done|].
        unfold __CFBasicHashIncSlotCount. rewrite E. done.
    - exists (counts_width ht), (counts ht). split_and!; [lia|lia|done|done|]. by destruct ht. }
  cbn [io_bind io_ret]. eexists. split; [|split].
  - rewrite Hev, !app_nil_r. reflexivity.
  - pose proof (capacity_bound (num_buckets_idx ht) ltac:(apply Hrep)).
    rewrite uwrap_id by (unfold in_unsigned; simpl; lia).
    apply (fresh_slot_wf ht _ sl b s k e); try done; try apply Hok; [|simpl; lia|simpl; lia].
    apply (rep_update ht _ sl b (SLive e) s Hrep Hb); try done.
    + intros Ek. simpl. unfold sk, stored_entry. by rewrite Ek.
    + match goal with |- slot_ok ?h _ => exact (slot_ok_new h k v Hok Hmw) end.
  - done.
Qed.

Lemma hash_add_value_spec ht sl bkt k v :
  KeyContract (config ht) -> wf ht sl -> used_buckets ht < max_entries -> pair_ok ht k v ->
  find_result (config ht) (num_buckets_idx ht) sl k bkt -> count bkt = 0 ->
  exists ht' sl', __CFBasicHashAddValue ptrs cr ch ci ht (idx bkt) k v = Some (ht', pair_retains ht k v) /\
    wf ht' sl' /\ entries sl' ≡ₚ stored_entry ht k v 1 :: entries sl /\ same_object ht ht' /\
    mutations ht' = uwrap 16 (mutations ht + 1).
Proof.
  intros HK Hwf Hmax Hok Hfind Hc0. pose proof (wf_rep _ _ Hwf) as Hrep. pose proof (rep_idx _ _ Hrep) as Hi.
  assert (absent (config ht) sl k) as Ha.
  { destruct Hfind as [b e Hb _| |]; [|done|done]. pose proof (entry_count_pos ht sl Hrep b e Hb). simpl in Hc0. lia. }
  unfold __CFBasicHashAddValue. set (ht0 := bump_mutations ht).
  unfold CFBasicHashGetCapacity, __CFBasicHashGetCapacityForNumBuckets. change (num_buckets_idx ht0) with (num_buckets_idx ht).
  rewrite rd_capacity, io_bind_lift by done. change (used_buckets ht0) with (used_buckets ht).
  pose proof (capacity_bound (num_buckets_idx ht) Hi). pose proof (wf_capacity _ _ Hwf). pose proof (wf_used _ _ Hwf) as Hused.
  rewrite uwrap_id by (unfold in_unsigned, max_entries in *; lia).
  assert (rep ht0 sl) as Hrep0 by (by apply (rep_frame ht)).
  destruct (Z.ltb_spec (capacity_of (num_buckets_idx ht)) (used_buckets ht + 1)) as [Hfull|Hroom].
  - destruct (rehash_idx_spec ht0 1) as (i & Ei & Hir & _ & Hcap); simpl; try lia.
    destruct (rehash_wf ht0 sl 1 i Hrep0 ltac:(apply Hwf) HK Hused Ei Hir) as (vs & ks & cs & sl1 & Er & Hwf1 & Hd1 & Hl1 & Hp1); [simpl in *; lia|simpl; lia|].
    rewrite Er. cbn [io_bind]. set (ht1 := set_arrays _ vs ks cs) in *.
    pose proof (capacity_le_size i Hir). pose proof (Permutation_length Hp1).
    destruct (find_free_spec ht1 sl1 k ltac:(apply Hwf1) ltac:(simpl in *; lia) Hd1) as (b & Ef & Hb & Hr); [simpl in *; lia|].
    rewrite Ef, io_bind_lift. cbn [io_bind io_ret].
    destruct (add_tail ht1 sl1 b SEmpty k v) as (ht' & -> & Hwf' & Hso & Hm); try done; try apply Hwf1.
    + apply absent_entries. intros e He. rewrite Hp1 in He. by apply (proj1 (absent_entries _ _ _) Ha).
    + simpl in *. lia.
    + pose proof (num_deleted_insert sl1 b SEmpty (SLive (stored_entry ht k v 1)) Hb) as Hnd.
      rewrite (wf_deleted _ _ Hwf1). repeat case_decide; try done. change (stored_entry ht1 k v 1) with (stored_entry ht k v 1). lia.
    + exists ht', (<[b := SLive (stored_entry ht k v 1)]> sl1). split_and!; [done|exact Hwf'| |exact Hso|exact Hm].
      by rewrite (entries_fill sl1 b SEmpty), Hp1.
  - destruct Hfind as [b e Hb _|b s wk wv _ Hb Hs Hr|wk wv _ Hall].
    { pose proof (entry_count_pos ht sl Hrep b e Hb). simpl in Hc0. lia. }
    2:{ pose proof (capacity_le_size _ Hi). pose proof (rep_size _ _ Hrep). lia. }
    cbn [idx]. unfold __CFBasicHashIsDeleted. rewrite (rd_values ht0 sl Hrep0 b s Hb). cbn [opt_bind]. rewrite io_bind_lift.
    cbn [io_bind io_ret]. pose proof (wf_deleted_range _ _ Hwf). pose proof (wf_deleted _ _ Hwf) as Hdel.
    set (ht1 := if ones =? cell_value s then _ else _).
    pose proof (num_deleted_insert sl b s (SLive (stored_entry ht k v 1)) Hb) as Hnd.
    assert (ht1 = set_deleted ht0 (Z.of_nat (num_deleted (<[b := SLive (stored_entry ht k v 1)]> sl)))) as ->.
    { unfold ht1. destruct s; [| |done].
      - simpl in Hnd. replace (num_deleted (<[b := _]> sl)) with (num_deleted sl) by (repeat case_decide; try done; lia).
        rewrite <- Hdel. done.
      - simpl. replace (num_deleted (<[b := _]> sl)) with (num_deleted sl - 1)%nat by (repeat case_decide; try done; lia).
        rewrite uwrap_id; [f_equal; repeat case_decide; try done; lia|].
        unfold in_unsigned. repeat case_decide; try done; lia. }
    destruct (add_tail (set_deleted ht0 (Z.of_nat (num_deleted (<[b := SLive (stored_entry ht k v 1)]> sl)))) sl b s k v)
      as (ht' & -> & Hwf' & Hso & Hm); try done; try apply Hwf.
    + by apply (rep_frame ht).
    + simpl. repeat case_decide; try done; lia.
    + exists ht', (<[b := SLive (stored_entry ht k v 1)]> sl). split_and!; [done|exact Hwf'| |exact Hso|exact Hm].
      by rewrite (entries_fill sl b s).
Qed.

(** ** Replacing, removing and draining *)

Lemma io_bind_assoc3 {A B C D} (m : io A) (f : A -> io B) (g : B -> io C) (h : C -> io D) :
  io_bind m (fun a => io_bind (f a) (fun b => io_bind (g b) h)) = io_bind (io_bind m (fun a => io_bind (f a) g)) h.
Proof.
  rewrite io_bind_assoc. destruct m as [[a t]|]; [|done]. cbn [io_bind]. by rewrite io_bind_assoc.
Qed.

Lemma update_slot_wf ht ht' sl b e e' :
  KeyContract (config ht) -> wf ht sl -> sl !! b = Some (SLive e) -> key_eq (config ht) (e_key e') (e_key e) = true ->
  rep ht' (<[b := SLive e']> sl) -> config ht' = config ht -> num_buckets_idx ht' = num_buckets_idx ht ->
  used_buckets ht' = used_buckets ht -> deleted ht' = deleted ht -> wf ht' (<[b := SLive e']> sl).
Proof.
  intros HK Hwf Hb Hk Hrep Hc Hi Hu Hd.
  constructor; rewrite ?Hc, ?Hi, ?Hu, ?Hd; try apply Hwf; try done.
  - apply chained_insert; [apply Hwf|done|]. intros e0 [= <-].
    apply (reachable_eq (config ht) _ _ (e_key e)); [by apply key_eq_sym|by apply (wf_chained _ _ Hwf)].
  - apply (unique_insert_live (config ht)); [apply Hwf|]. intros b' e0 Hb' E.
    apply (wf_unique _ _ Hwf b' b e0 e Hb' Hb). by apply (key_eq_trans _ (e_key e')).
  - destruct (entries_update sl b e e' Hb) as (rest & E & ->). rewrite (wf_used _ _ Hwf), E. done.
  - pose proof (num_deleted_insert sl b _ (SLive e') Hb). rewrite (wf_deleted _ _ Hwf). repeat case_decide; try done. lia.
Qed.

Lemma replace_value_spec ht sl (b : nat) e k v :
  KeyContract (config ht) -> wf ht sl -> sl !! b = Some (SLive e) -> key_eq (config ht) (e_key e) k = true -> pair_ok ht k v ->
  exists ht' sl', __CFBasicHashReplaceValue ptrs cr ht (Z.of_nat b) k v =
      Some (ht', pair_retains ht k v ++ entry_releases ht e) /\
    wf ht' sl' /\ same_object ht ht' /\ mutations ht' = uwrap 16 (mutations ht + 1) /\
    exists rest, entries sl ≡ₚ e :: rest /\ entries sl' ≡ₚ stored_entry ht k v (e_count e) :: rest.
Proof.
  intros HK Hwf Hb Hk Hok. unfold __CFBasicHashReplaceValue. set (ht0 := bump_mutations ht).
  pose proof (wf_rep _ _ Hwf) as Hrep. assert (rep ht0 sl) as Hrep0 by (by apply (rep_frame ht)).
  set (sk := if has_keys ht then stored_key ht k else k).
  assert ((if has_keys ht0 then __CFBasicHashImportKey ptrs cr ht0 k else io_ret k) =
    Some (sk, if has_keys ht then key_retains ht k else [])) as ->.
  { unfold sk. change (has_keys ht0) with (has_keys ht). destruct (has_keys ht); [exact (import_key ht0 k)|done]. }
  rewrite import_value. cbn [io_bind].
  rewrite (set_pair ht0 sl b sk (stored_value ht0 v) false (SLive e) Hrep0 Hb).
  set (e' := stored_entry ht k v (e_count e)).
  eexists _, (<[b := SLive e']> sl). split_and!.
  - by rewrite (assoc_L (++)).
  - apply (update_slot_wf ht _ sl b e e'); try done.
    + apply (key_eq_trans _ k); [apply Hok|by apply key_eq_sym].
    + apply (rep_update ht0 _ sl b (SLive e') (SLive e) Hrep0 Hb); try done.
      * intros Ek. change (has_keys ht = true) in Ek. simpl. change (has_keys ht0) with (has_keys ht). by rewrite Ek; unfold sk; rewrite Ek.
      * intros Ec. simpl. symmetry. apply list_insert_id. rewrite (rep_counts _ _ Hrep Ec), list_lookup_fmap, Hb. done.
      * simpl. pose proof (rep_width _ _ Hrep). lia.
      * pose proof (slot_ok_live ht sl Hrep b e Hb) as (_ & _ & Hc). destruct Hok as (_ & _ & Hv & Hkp & _).
        unfold e', slot_ok, stored_entry. simpl. split_and!; [done| |done].
        change (has_keys _) with (has_keys ht). destruct (has_keys ht) eqn:Ek; auto.
  - done.
  - done.
  - by apply entries_update.
Qed.

(** Taking the last occurrence of a bucket out. *)
Lemma delete_slot_wf ht ht' sl b e :
  wf ht sl -> sl !! b = Some (SLive e) -> KeyContract (config ht) ->
  rep ht' (<[b := SDeleted]> sl) -> config ht' = config ht -> num_buckets_idx ht' = num_buckets_idx ht ->
  used_buckets ht' = used_buckets ht - 1 -> deleted ht' = deleted ht + 1 -> deleted ht' < 2 ^ 16 ->
  wf ht' (<[b := SDeleted]> sl).
Proof.
  intros Hwf Hb HK Hrep Hc Hi Hu Hd Hd16. pose proof (Permutation_length (entries_delete sl b e Hb)) as Hl. simpl in Hl.
  pose proof (wf_used _ _ Hwf). pose proof (wf_capacity _ _ Hwf). pose proof (wf_max _ _ Hwf). pose proof (wf_deleted _ _ Hwf).
  constructor; rewrite ?Hc, ?Hi; try done; try lia.
  - apply chained_insert; [apply Hwf|done|done].
  - apply unique_insert_dead, Hwf.
  - pose proof (num_deleted_insert sl b _ SDeleted Hb). repeat case_decide; try done. lia.
Qed.

Lemma remove_slot ht sl (b : nat) e :
  rep ht sl -> sl !! b = Some (SLive e) -> e_count e = 1 ->
  exists vs ks cs,
    (do* ht := __CFBasicHashSetValue ptrs ht (Z.of_nat b) ones false true in
     do* ht := if has_keys ht then __CFBasicHashSetKey ptrs ht (Z.of_nat b) ones false true else io_ret ht in
     if has_counts ht then io_lift (__CFBasicHashDecSlotCount ht (Z.of_nat b)) else io_ret ht) =
      Some (set_arrays ht vs ks cs, entry_releases ht e) /\
    rep (set_arrays ht vs ks cs) (<[b := SDeleted]> sl).
Proof.
  intros Hrep Hb He. rewrite <- io_bind_assoc, (set_pair ht sl b ones ones true (SLive e) Hrep Hb). cbn [io_bind].
  set (ht1 := set_arrays ht _ _ _).
  assert ((if has_counts ht1 then io_lift (__CFBasicHashDecSlotCount ht1 (Z.of_nat b)) else io_ret ht1) =
    Some (set_arrays ht1 (values ht1) (keys ht1) (if has_counts ht then <[b := 0]> (counts ht) else counts ht), [])) as ->.
  { change (has_counts ht1) with (has_counts ht). destruct (has_counts ht) eqn:Ec; [|done].
    unfold __CFBasicHashDecSlotCount, __CFBasicHashGetCounts, __CFBasicHashSetCounts. change (has_counts ht1) with (has_counts ht).
    assert (counts ht !! b = Some 1) as Hcb by (rewrite (rep_counts _ _ Hrep Ec), list_lookup_fmap, Hb; simpl; by rewrite He).
    rewrite Ec, rd_nat. change (counts ht1) with (counts ht). rewrite Hcb. cbn [opt_bind].
    rewrite wr_nat by (by eapply lookup_lt_Some). rewrite uwrap_id; [done|]. unfold in_unsigned, width_bits.
    assert (0 < 2 ^ (8 * 2 ^ counts_width ht1)) by (apply Z.pow_pos_nonneg; pose proof (rep_width _ _ Hrep); simpl; lia). lia. }
  cbn [io_bind]. eexists _, _, _. split.
  - rewrite app_nil_r. reflexivity.
  - apply (rep_update ht _ sl b SDeleted (SLive e) Hrep Hb); try done.
    + intros Ek. simpl. by rewrite Ek.
    + intros Ec. simpl. by rewrite Ec.
    + simpl. pose proof (rep_width _ _ Hrep). lia.
Qed.

Lemma remove_value_spec ht sl (b : nat) e :
  KeyContract (config ht) -> wf ht sl -> sl !! b = Some (SLive e) -> e_count e = 1 ->
  exists ht' sl', __CFBasicHashRemoveValue ptrs ch ci ht (Z.of_nat b) = Some (ht', entry_releases ht e) /\
    wf ht' sl' /\ same_object ht ht' /\ mutations ht' = uwrap 16 (mutations ht + 1) /\ entries sl ≡ₚ e :: entries sl'.
Proof.
  intros HK Hwf Hb He. unfold __CFBasicHashRemoveValue. set (ht0 := bump_mutations ht).
  pose proof (wf_rep _ _ Hwf) as Hrep. assert (rep ht0 sl) as Hrep0 by (by apply (rep_frame ht)).
  rewrite io_bind_assoc3. destruct (remove_slot ht0 sl b e Hrep0 Hb He) as (vs & ks & cs & -> & Hrep1). cbn [io_bind].
  set (ht1 := set_arrays ht0 vs ks cs) in *.
  pose proof (Permutation_length (entries_delete sl b e Hb)) as Hlen. simpl in Hlen.
  pose proof (wf_used _ _ Hwf) as Hused. pose proof (wf_capacity _ _ Hwf). pose proof (wf_max _ _ Hwf) as Hmax.
  pose proof (rep_idx _ _ Hrep) as Hi. pose proof (capacity_bound _ Hi). pose proof (wf_deleted _ _ Hwf). pose proof (wf_deleted_range _ _ Hwf).
  change (used_buckets ht1) with (used_buckets ht). rewrite uwrap_id by (unfold in_unsigned; lia).
  set (ht2 := set_deleted (set_used_buckets ht1 (used_buckets ht - 1)) _).
  assert (rep ht2 (<[b := SDeleted]> sl)) as Hrep2 by (by apply (rep_frame ht1)).
  assert (unique_keys (config ht2) (<[b := SDeleted]> sl)) as Hu2 by (apply unique_insert_dead, Hwf).
  assert (forall n, n <= 0 -> exists ht' sl', __CFBasicHashRehash ptrs ch ci ht2 n = Some (ht', []) /\
    wf ht' sl' /\ same_object ht ht' /\ mutations ht' = uwrap 16 (mutations ht + 1) /\ entries sl ≡ₚ e :: entries sl') as Hre.
  { intros n Hn. destruct (rehash_idx_spec ht2 n) as (i & Ei & Hir & Hcap & _); simpl; try lia.
    destruct (rehash_wf ht2 (<[b := SDeleted]> sl) n i Hrep2 Hu2 HK) as (vs' & ks' & cs' & sl' & Er & Hwf' & _ & _ & Hp);
      [simpl; lia|done|done|done|simpl; lia|].
    exists (set_arrays (set_deleted (set_num_buckets_idx ht2 i) 0) vs' ks' cs'), sl'.
    split; [exact Er|]. split; [exact Hwf'|]. split; [done|]. split; [done|]. by rewrite Hp, <- entries_delete. }
  set (back := if negb _ then 5 else 2). assert (2 <= back) by (unfold back; by destruct (negb _)).
  assert (exists shrink : bool, (if back <? num_buckets_idx ht2 then
      do* c := io_lift (__CFBasicHashGetCapacityForNumBuckets (num_buckets_idx ht2 - back)) in io_ret (used_buckets ht2 <? c)
    else io_ret false) = io_ret shrink) as [shrink ->].
  { destruct (Z.ltb_spec back (num_buckets_idx ht2)); [|by exists false].
    unfold __CFBasicHashGetCapacityForNumBuckets. change (num_buckets_idx ht2) with (num_buckets_idx ht) in *.
    rewrite rd_capacity by lia. rewrite io_bind_lift. by eexists. }
  cbn [io_bind io_ret app]. destruct shrink.
  { destruct (Hre (-1)) as (ht' & sl' & -> & H'); [lia|]. exists ht', sl'. by rewrite app_nil_r. }
  change (num_buckets_idx ht2) with (num_buckets_idx ht). rewrite rd_size, io_bind_lift by done.
  destruct (_ || _) eqn:Eor.
  { destruct (Hre 0) as (ht' & sl' & -> & H'); [lia|]. exists ht', sl'. by rewrite app_nil_r. }
  apply orb_false_iff in Eor as [E0 _]. apply Z.eqb_neq in E0.
  assert (deleted ht2 = deleted ht + 1 /\ deleted ht2 < 2 ^ 16) as [Hd2 Hd16].
  { revert E0. unfold ht2, uwrap. simpl. intros E0. change (deleted ht1) with (deleted ht) in *.
    destruct (decide (deleted ht + 1 = 2 ^ 16)) as [E|]; [rewrite E in E0; done|]. rewrite Z.mod_small; lia. }
  exists ht2, (<[b := SDeleted]> sl). cbn [io_ret]. rewrite app_nil_r. split; [done|]. split; [|split; [done|split; [done|by apply entries_delete]]].
  by apply (delete_slot_wf ht _ sl b e).
Qed.

(** *** Draining *)

Lemma drain_loop_spec ht sl rest i :
  Forall (slot_ok ht) sl -> (i + rest = length sl)%nat ->
  drain_loop ptrs ht (cell_value <$> sl) (if has_keys ht then cell_key <$> sl else []) rest (Z.of_nat i) =
    Some (tt, concat (entry_releases ht <$> entries (drop i sl))).
Proof.
  revert i. induction rest as [|rest IH]; intros i Hok Hi.
  - rewrite drop_ge by lia. done.
  - assert (exists s, sl !! i = Some s) as [s Hs] by (apply lookup_lt_is_Some; lia).
    cbn [drain_loop]. rewrite rd_nat, list_lookup_fmap, Hs. cbn [fmap option_fmap option_map]. rewrite io_bind_lift.
    replace (Z.of_nat i + 1) with (Z.of_nat (S i)) by lia. rewrite (IH (S i)) by (done || lia).
    rewrite (drop_S _ _ _ Hs), entries_cons. destruct s as [| |e]; [done|done|].
    rewrite fmap_app, concat_app. cbn [cell_value slot_entry].
    replace (concat (entry_releases ht <$> option_list (Some e))) with (entry_releases ht e) by (simpl; by rewrite app_nil_r).
    destruct (encode_live (e_value e)) as [-> ->]. cbn [negb andb]. rewrite eject_value. cbn [io_bind].
    pose proof (Forall_lookup_1 _ _ _ _ Hok Hs) as (Hv & Hk & _). rewrite decode_encode by done.
    unfold entry_releases at 2. destruct (has_keys ht) eqn:Ek.
    + assert (nonnull (cell_key <$> sl) = true) as -> by (by destruct sl).
      rewrite rd_nat, list_lookup_fmap, Hs. cbn [fmap option_fmap option_map cell_key]. rewrite io_bind_lift.
      rewrite eject_key, decode_encode by done. cbn [io_bind]. done.
    + cbn [nonnull io_bind io_ret]. done.
Qed.

Lemma wf_empty ht :
  config_ok (config ht) -> 0 <= counts_width ht <= 3 -> values ht = [] -> keys ht = [] \/ has_keys ht = false ->
  counts ht = [] \/ has_counts ht = false -> num_buckets_idx ht = 0 -> used_buckets ht = 0 -> deleted ht = 0 -> wf ht [].
Proof.
  intros Hc Hw Hv Hk Hcn Hi Hu Hd. constructor; rewrite ?Hi, ?Hu, ?Hd; try done.
  constructor; rewrite ?Hi; try done.
  - destruct Hk as [->|Hk]; [done|]. by rewrite Hk.
  - destruct Hcn as [->|Hcn]; [done|]. by rewrite Hcn.
Qed.

Lemma hash_drain_spec ht sl fin :
  wf ht sl ->
  exists ht', __CFBasicHashDrain ptrs ht fin = Some (ht', concat (entry_releases ht <$> entries sl)) /\
    wf ht' [] /\ same_object ht ht' /\ mutations ht' = uwrap 16 (mutations ht + 1).
Proof.
  intros Hwf. pose proof (wf_rep _ _ Hwf) as Hrep. unfold __CFBasicHashDrain.
  rewrite rd_size, io_bind_lift by apply Hrep. pose proof (set_all_arrays ht []) as Hset. cbv zeta in Hset |- *. rewrite Hset.
  set (ht1 := set_deleted _ 0).
  unfold __CFBasicHashGetValues, __CFBasicHashGetKeys. rewrite (rep_values _ _ Hrep).
  replace (if has_keys ht then if has_keys ht then keys ht else cell_value <$> sl else []) with (if has_keys ht1 then cell_key <$> sl else [])
    by (change (has_keys ht1) with (has_keys ht); destruct (has_keys ht) eqn:Ek; [by rewrite (rep_keys _ _ Hrep Ek)|done]).
  rewrite (rep_size _ _ Hrep), Nat2Z.id.
  pose proof (drain_loop_spec ht1 sl (length sl) 0) as Hd. change (Z.of_nat 0) with 0 in Hd.
  rewrite Hd; [|eapply Forall_impl; [apply Hrep|done]|lia]. cbn [io_bind io_ret].
  rewrite app_nil_r. exists ht1. split; [done|]. split; [|done].
  apply wf_empty; try done; [apply Hrep|apply Hrep| |].
  - change (has_keys ht1) with (has_keys ht). simpl. destruct (has_keys ht); auto.
  - change (has_counts ht1) with (has_counts ht). simpl. destruct (has_counts ht); auto.
Qed.

(** ** The table as a map

    The calls that change a table, and what each one does to the bag of
    entries, its result and the callbacks it calls. *)

Inductive hash_call :=
| CallAdd (k v : Z) | CallReplace (k v : Z) | CallSet (k v : Z)
| CallRemove (k : Z) | CallRemoveAll | CallSetCapacity (n : Z).

Definition do_call (ht : __CFBasicHash) (c : hash_call) : io (__CFBasicHash * Z) :=
  match c with
  | CallAdd k v => do* (ht, r) := CFBasicHashAddValue ptrs cr ce ch ci ht k v in io_ret (ht, if (r : bool) then 1 else 0)
  | CallReplace k v => do* ht := CFBasicHashReplaceValue ptrs cr ce ch ci ht k v in io_ret (ht, 0)
  | CallSet k v => do* ht := CFBasicHashSetValue ptrs cr ce ch ci ht k v in io_ret (ht, 0)
  | CallRemove k => CFBasicHashRemoveValue ptrs ce ch ci ht k
  | CallRemoveAll => do* ht := CFBasicHashRemoveAllValues ptrs ht in io_ret (ht, 0)
  | CallSetCapacity n => do* ht := CFBasicHashSetCapacity ptrs ch ci ht n in io_ret (ht, 0)
  end.

Fixpoint do_calls (ht : __CFBasicHash) (cs : list hash_call) : io (__CFBasicHash * list Z) :=
  match cs with
  | [] => io_ret (ht, [])
  | c :: cs' =>
      do* (ht, r) := do_call ht c in
      do* (ht, rs) := do_calls ht cs' in
      io_ret (ht, r :: rs)
  end.

Section Map.
(** A table with the configuration at hand: which arrays it has and its
    callbacks. *)
Context (o : __CFBasicHash).

Definition with_count (e : entry) (n : Z) : entry := mkEntry (e_key e) (e_value e) n.

(** No entry of the bag has a key equal to [k]; the entry that has, and the rest. *)
Definition not_in (l : list entry) (k : Z) : Prop := forall e, e ∈ l -> key_eq (config o) (e_key e) k = false.
Definition picked (l : list entry) (k : Z) (e : entry) (rest : list entry) : Prop :=
  l ≡ₚ e :: rest /\ key_eq (config o) (e_key e) k = true.

(** One call: the bag before, the call, its result, the callbacks called, the
    bag after. *)
Inductive map_step (l : list entry) : hash_call -> Z -> list event -> list entry -> Prop :=
| step_add_new k v l' :
    not_in l k -> l' ≡ₚ stored_entry o k v 1 :: l -> map_step l (CallAdd k v) 1 (pair_retains o k v) l'
| step_add_again k v e rest l' :
    picked l k e rest -> has_counts o = true -> e_count e < INT64_MAX ->
    l' ≡ₚ with_count e (e_count e + 1) :: rest -> map_step l (CallAdd k v) 1 [] l'
| step_add_present k v e rest l' :
    picked l k e rest -> has_counts o = false \/ e_count e = INT64_MAX -> l' ≡ₚ l -> map_step l (CallAdd k v) 0 [] l'
| step_replace k v e rest l' :
    picked l k e rest -> l' ≡ₚ stored_entry o k v (e_count e) :: rest ->
    map_step l (CallReplace k v) 0 (pair_retains o k v ++ entry_releases o e) l'
| step_replace_absent k v l' : not_in l k -> l' ≡ₚ l -> map_step l (CallReplace k v) 0 [] l'
| step_set k v e rest l' :
    picked l k e rest -> l' ≡ₚ stored_entry o k v (e_count e) :: rest ->
    map_step l (CallSet k v) 0 (pair_retains o k v ++ entry_releases o e) l'
| step_set_new k v l' :
    not_in l k -> l' ≡ₚ stored_entry o k v 1 :: l -> map_step l (CallSet k v) 0 (pair_retains o k v) l'
| step_remove_last k e rest l' :
    picked l k e rest -> e_count e = 1 -> l' ≡ₚ rest -> map_step l (CallRemove k) 1 (entry_releases o e) l'
| step_remove_one k e rest l' :
    picked l k e rest -> 1 < e_count e < INT64_MAX -> l' ≡ₚ with_count e (e_count e - 1) :: rest ->
    map_step l (CallRemove k) (e_count e) [] l'
| step_remove_stuck k e rest l' :
    picked l k e rest -> e_count e = INT64_MAX -> l' ≡ₚ l -> map_step l (CallRemove k) (e_count e) [] l'
| step_remove_absent k l' : not_in l k \/ ~ plain k -> l' ≡ₚ l -> map_step l (CallRemove k) 0 [] l'
| step_remove_all l0 : l0 ≡ₚ l -> map_step l CallRemoveAll 0 (concat (entry_releases o <$> l0)) []
| step_set_capacity n l' : l' ≡ₚ l -> map_step l (CallSetCapacity n) 0 [] l'.

Inductive map_steps : list entry -> list hash_call -> list Z -> list event -> list entry -> Prop :=
| steps_nil l : map_steps l [] [] [] l
| steps_cons l c r t l1 cs rs t' l' :
    map_step l c r t l1 -> map_steps l1 cs rs t' l' -> map_steps l (c :: cs) (r :: rs) (t ++ t') l'.

(** What a call needs: pairs the retain callbacks treat well, capacities
    within the bound. *)
Definition call_ok (c : hash_call) : Prop :=
  match c with
  | CallAdd k v | CallReplace k v | CallSet k v => pair_ok o k v
  | CallSetCapacity n => n <= max_entries
  | _ => True
  end.

End Map.

(** *** Each operation *)

Section Calls.
Context (o : __CFBasicHash) `{!KeyContract (config o)}.

(** A well-formed mutable table with the configuration of [o]. *)
Definition table (ht : __CFBasicHash) (sl : list slot) : Prop :=
  wf ht sl /\ same_object o ht /\ CFBasicHashIsMutable o = true.

Lemma stored_entry_same ht k v n : same_object o ht -> stored_entry ht k v n = stored_entry o k v n.
Proof. intros (_ & Hc & Hn & _). unfold stored_entry, stored_key, stored_value, has_keys. by rewrite Hc, Hn. Qed.

Lemma pair_retains_same ht k v : same_object o ht -> pair_retains ht k v = pair_retains o k v.
Proof. intros (_ & Hc & Hn & _). unfold pair_retains, key_retains, value_retains, has_keys. by rewrite Hc, Hn. Qed.

Lemma entry_releases_same ht e : same_object o ht -> entry_releases ht e = entry_releases o e.
Proof. intros (_ & Hc & Hn & _). unfold entry_releases, key_releases, value_releases, has_keys. by rewrite Hc, Hn. Qed.

Lemma pair_ok_same ht k v : same_object o ht -> pair_ok o k v -> pair_ok ht k v.
Proof.
  intros Hs. unfold pair_ok. rewrite (stored_entry_same ht) by done. destruct Hs as (_ & Hc & Hn & _).
  unfold stored_value, stored_key, has_keys. by rewrite Hc, Hn.
Qed.

Lemma storable_ok ht k v : same_object o ht -> CFBasicHashIsMutable o = true -> pair_ok o k v -> storable ht k v = true.
Proof.
  intros (Hi & _) Hm ([Hk1 Hk2] & [Hv1 Hv2] & _). unfold storable.
  assert (CFBasicHashIsMutable ht = true) as -> by (unfold CFBasicHashIsMutable in *; by rewrite Hi).
  rewrite !(proj2 (Z.eqb_neq _ _)) by congruence. done.
Qed.

(** A search in terms of the bag. *)
Lemma find_bag ht sl k :
  table ht sl ->
  exists bkt, __CFBasicHashFindBucket ptrs ce ch ci ht k = Some bkt /\
    find_result (config ht) (num_buckets_idx ht) sl k bkt /\
    ((exists (b : nat) e rest, sl !! b = Some (SLive e) /\ picked o (entries sl) k e rest /\ 0 < e_count e /\
        bkt = mkBucket (Z.of_nat b) (Some (e_key e)) (Some (e_value e)) (e_count e)) \/
     (count bkt = 0 /\ not_in o (entries sl) k)).
Proof.
  intros (Hwf & (_ & Hc & _) & _). assert (KeyContract (config ht)) as HK by (by rewrite Hc).
  destruct (find_spec ht sl k ltac:(apply Hwf) HK ltac:(apply Hwf)) as (bkt & E & Hf). exists bkt. split_and!; [done|done|].
  destruct Hf as [b e Hb Hk|b s wk wv Ha _ _ _|wk wv Ha _].
  - left. destruct (entries_update sl b e e Hb) as (rest & Hp & _). exists b, e, rest.
    split_and!; [done|split; [done|by rewrite <- Hc]|by apply (entry_count_pos ht sl (wf_rep _ _ Hwf) b)|done].
  - right. split; [done|]. unfold not_in. rewrite <- Hc. by apply absent_entries.
  - right. split; [done|]. unfold not_in. rewrite <- Hc. by apply absent_entries.
Qed.

(** The count of one bucket changes. *)
Lemma recount_slot ht sl (b : nat) e n w :
  table ht sl -> has_counts ht = true -> sl !! b = Some (SLive e) -> counts_width ht <= w <= 3 -> 1 <= n <= max_slot_count w ->
  let ht' := set_arrays (set_counts_width (bump_mutations ht) w) (values ht) (keys ht) (<[b := n]> (counts ht)) in
  table ht' (<[b := SLive (with_count e n)]> sl) /\
  forall rest k, picked o (entries sl) k e rest ->
    Z.of_nat (length (entries (<[b := SLive (with_count e n)]> sl))) = Z.of_nat (length (entries sl)) /\
    entries (<[b := SLive (with_count e n)]> sl) ≡ₚ with_count e n :: rest.
Proof.
  intros (Hwf & Hs & Hm) Hc Hb Hw Hn ht'. pose proof (wf_rep _ _ Hwf) as Hrep.
  assert (KeyContract (config ht)) as HK by (by rewrite (proj1 (proj2 Hs))).
  destruct (slot_ok_live ht sl Hrep b e Hb) as (Hv & Hk & Hcnt). split.
  - split_and!; [|done|done].
    apply (update_slot_wf ht ht' sl b e (with_count e n)); try done; [apply key_eq_refl|].
    apply (rep_update ht ht' sl b (SLive (with_count e n)) (SLive e) Hrep Hb); try done.
    + simpl. symmetry. apply list_insert_id. by rewrite (rep_values _ _ Hrep), list_lookup_fmap, Hb.
    + intros Ek. simpl. symmetry. apply list_insert_id. by rewrite (rep_keys _ _ Hrep Ek), list_lookup_fmap, Hb.
    + split_and!; [done|done|]. change (has_counts ht') with (has_counts ht). by rewrite Hc.
  - intros rest k (Hp & _). destruct (entries_update sl b e (with_count e n) Hb) as (rest' & E & E').
    assert (rest ≡ₚ rest') as Hr by (apply (Permutation_cons_inv (a := e)); by rewrite <- Hp, <- E).
    rewrite E', E, Hr. done.
Qed.

(** A call on [ht] has a result, and it is a step of the map. *)
Definition refines (ht : __CFBasicHash) (sl : list slot) (c : hash_call) : Prop :=
  exists ht' sl' r t, do_call ht c = Some (ht', r, t) /\ table ht' sl' /\
    map_step o (entries sl) c r t (entries sl') /\ (length (entries sl') <= S (length (entries sl)))%nat.

Lemma contract_same ht : same_object o ht -> KeyContract (config ht).
Proof. intros (_ & -> & _). done. Qed.

Lemma mutable_same ht : same_object o ht -> CFBasicHashIsMutable o = true -> CFBasicHashIsMutable ht = true.
Proof. intros (Hi & _). unfold CFBasicHashIsMutable. by rewrite Hi. Qed.

(** Adding an absent pair, for the calls that may do so. *)
Lemma add_absent ht sl bkt k v :
  table ht sl -> Z.of_nat (length (entries sl)) < max_entries -> pair_ok o k v ->
  find_result (config ht) (num_buckets_idx ht) sl k bkt -> count bkt = 0 ->
  exists ht' sl', __CFBasicHashAddValue ptrs cr ch ci ht (idx bkt) k v = Some (ht', pair_retains o k v) /\
    table ht' sl' /\ entries sl' ≡ₚ stored_entry o k v 1 :: entries sl.
Proof.
  intros (Hwf & Hs & Hm) Hlt Hok Hf Hc. pose proof (wf_used _ _ Hwf).
  destruct (hash_add_value_spec ht sl bkt k v (contract_same ht Hs) Hwf) as (ht' & sl' & E & Hwf' & Hp & Hso & _);
    [lia|by apply pair_ok_same|done|done|].
  exists ht', sl'. rewrite <- (pair_retains_same ht), <- (stored_entry_same ht) by done. split_and!; [done| |done].
  split_and!; [done|by eapply hash_same_object_trans|done].
Qed.

Lemma replace_present ht sl (b : nat) e k v :
  table ht sl -> sl !! b = Some (SLive e) -> key_eq (config o) (e_key e) k = true -> pair_ok o k v ->
  exists ht' sl' rest, __CFBasicHashReplaceValue ptrs cr ht (Z.of_nat b) k v = Some (ht', pair_retains o k v ++ entry_releases o e) /\
    table ht' sl' /\ entries sl ≡ₚ e :: rest /\ entries sl' ≡ₚ stored_entry o k v (e_count e) :: rest.
Proof.
  intros (Hwf & Hs & Hm) Hb Hk Hok. pose proof Hs as (_ & Hc & _).
  destruct (replace_value_spec ht sl b e k v (contract_same ht Hs) Hwf Hb) as (ht' & sl' & E & Hwf' & Hso & _ & rest & H1 & H2);
    [by rewrite Hc|by apply pair_ok_same|].
  exists ht', sl', rest. rewrite <- (pair_retains_same ht), <- (stored_entry_same ht), <- (entry_releases_same ht) by done.
  split_and!; [done| |done|done]. split_and!; [done|by eapply hash_same_object_trans|done].
Qed.

Lemma table_bump ht sl : table ht sl -> table (bump_mutations ht) sl.
Proof. intros (Hwf & Hs & Hm). split_and!; [by apply (wf_frame ht)|done|done]. Qed.

Lemma refines_add ht sl k v :
  table ht sl -> pair_ok o k v -> Z.of_nat (length (entries sl)) < max_entries -> refines ht sl (CallAdd k v).
Proof.
  intros Ht Hok Hlt. pose proof Ht as (Hwf & Hs & Hm). unfold refines, do_call, CFBasicHashAddValue.
  rewrite (storable_ok ht) by done. cbn [negb].
  destruct (find_bag ht sl k Ht) as (bkt & -> & Hf & [(b & e & rest & Hb & Hp & Hpos & ->)|(Hc & Hn)]); rewrite io_bind_lift.
  - cbn [count idx]. rewrite (proj2 (Z.ltb_lt 0 _)) by done. change (has_counts (bump_mutations ht)) with (has_counts ht).
    pose proof Hs as (_ & Hc & _). assert (has_counts ht = has_counts o) as Hhc by (unfold has_counts; by rewrite Hc).
    destruct (slot_ok_live ht sl (wf_rep _ _ Hwf) b e Hb) as (_ & _ & Hcnt).
    destruct (has_counts ht) eqn:Ec; [|].
    + destruct (Z.ltb_spec (e_count e) INT64_MAX) as [Hl|Hl]; cbn [andb].
      * destruct (inc_count (bump_mutations ht) sl b e) as (w & Hw & Hmx & E);
          [apply (rep_frame ht); try done; apply Hwf|done|done|done|].
        rewrite E, io_bind_lift. cbn [io_bind io_ret].
        destruct (recount_slot ht sl b e (e_count e + 1) w Ht Ec Hb Hw) as [Ht' Hr]; [lia|].
        destruct (Hr rest k Hp) as [Hl' He'].
        eexists _, _, 1, []. split; [done|]. split; [exact Ht'|]. split; [|lia].
        by apply (step_add_again o _ _ _ e rest).
      * eexists _, sl, 0, []. split; [done|]. split; [by apply table_bump|]. split; [|lia].
        apply (step_add_present o _ _ _ e rest); [done| |done]. right.
        pose proof (rep_width _ _ (wf_rep _ _ Hwf)).
        assert (e_count e <= max_slot_count 3); [|rewrite max_slot_count_3 in *; lia].
        destruct (slot_ok_frame ht (set_counts_width ht 3) (SLive e)) as (_ & _ & Hcnt3);
          [done|simpl; lia|lia|by apply (slot_ok_live ht sl (wf_rep _ _ Hwf) b)|].
        change (has_counts (set_counts_width ht 3)) with (has_counts ht) in Hcnt3. rewrite Ec in Hcnt3. simpl in Hcnt3. lia.
    + cbn [andb io_bind io_ret]. eexists _, sl, 0, []. split; [done|]. split; [by apply table_bump|]. split; [|lia].
      apply (step_add_present o _ _ _ e rest); [done|by left|done].
  - rewrite Hc. cbn [Z.ltb]. change (0 <? 0) with false. cbv iota.
    destruct (add_absent ht sl bkt k v Ht Hlt Hok Hf Hc) as (ht' & sl' & -> & Ht' & Hp). cbn [io_bind io_ret].
    eexists ht', sl', 1, _. rewrite !app_nil_r. split; [done|]. split; [done|]. split; [|by rewrite Hp]. by apply step_add_new.
Qed.

Lemma refines_replace ht sl k v : table ht sl -> pair_ok o k v -> refines ht sl (CallReplace k v).
Proof.
  intros Ht Hok. pose proof Ht as (Hwf & Hs & Hm). unfold refines, do_call, CFBasicHashReplaceValue.
  rewrite (storable_ok ht) by done. cbn [negb].
  destruct (find_bag ht sl k Ht) as (bkt & -> & Hf & [(b & e & rest & Hb & Hp & Hpos & ->)|(Hc & Hn)]); rewrite io_bind_lift.
  - cbn [count idx]. rewrite (proj2 (Z.ltb_lt 0 _)) by done.
    destruct (replace_present ht sl b e k v Ht Hb (proj2 Hp) Hok) as (ht' & sl' & rest' & -> & Ht' & H1 & H2). cbn [io_bind io_ret].
    eexists ht', sl', 0, _. rewrite !app_nil_r. split; [done|]. split; [done|].
    split; [|pose proof (Permutation_length H1); pose proof (Permutation_length H2); simpl in *; lia].
    apply (step_replace o _ _ _ e rest'); [split; [done|apply Hp]|done].
  - rewrite Hc. change (0 <? 0) with false. cbn [io_bind io_ret]. eexists ht, sl, 0, []. split; [done|]. split; [done|]. split; [|lia].
    by apply step_replace_absent.
Qed.

Lemma refines_set ht sl k v :
  table ht sl -> pair_ok o k v -> Z.of_nat (length (entries sl)) < max_entries -> refines ht sl (CallSet k v).
Proof.
  intros Ht Hok Hlt. pose proof Ht as (Hwf & Hs & Hm). unfold refines, do_call, CFBasicHashSetValue.
  rewrite (storable_ok ht) by done. cbn [negb].
  destruct (find_bag ht sl k Ht) as (bkt & -> & Hf & [(b & e & rest & Hb & Hp & Hpos & ->)|(Hc & Hn)]); rewrite io_bind_lift.
  - cbn [count idx]. rewrite (proj2 (Z.ltb_lt 0 _)) by done.
    destruct (replace_present ht sl b e k v Ht Hb (proj2 Hp) Hok) as (ht' & sl' & rest' & -> & Ht' & H1 & H2). cbn [io_bind io_ret].
    eexists ht', sl', 0, _. rewrite !app_nil_r. split; [done|]. split; [done|].
    split; [|pose proof (Permutation_length H1); pose proof (Permutation_length H2); simpl in *; lia].
    apply (step_set o _ _ _ e rest'); [split; [done|apply Hp]|done].
  - rewrite Hc. change (0 <? 0) with false. cbv iota.
    destruct (add_absent ht sl bkt k v Ht Hlt Hok Hf Hc) as (ht' & sl' & -> & Ht' & Hp). cbn [io_bind io_ret].
    eexists ht', sl', 0, _. rewrite !app_nil_r. split; [done|]. split; [done|]. split; [|by rewrite Hp]. by apply step_set_new.
Qed.

(** Taking one occurrence out of a live bucket. *)
Lemma remove_bucket_spec ht sl (b : nat) e k rest :
  table ht sl -> sl !! b = Some (SLive e) -> picked o (entries sl) k e rest -> 0 < e_count e ->
  exists ht' sl' t,
    remove_bucket ptrs ch ci ht (mkBucket (Z.of_nat b) (Some (e_key e)) (Some (e_value e)) (e_count e)) = Some (ht', e_count e, t) /\
    table ht' sl' /\ map_step o (entries sl) (CallRemove k) (e_count e) t (entries sl') /\
    (length (entries sl') <= length (entries sl))%nat.
Proof.
  intros Ht Hb Hp Hpos. pose proof Ht as (Hwf & Hs & Hm). pose proof (wf_rep _ _ Hwf) as Hrep. unfold remove_bucket. cbn [count idx].
  destruct (slot_ok_live ht sl Hrep b e Hb) as (_ & _ & Hcnt). destruct (Z.ltb_spec 1 (e_count e)) as [H1|H1].
  - assert (has_counts ht = true) as Ec by (destruct (has_counts ht); [done|lia]). rewrite Ec in Hcnt.
    change (has_counts (bump_mutations ht)) with (has_counts ht). rewrite Ec. cbn [andb].
    destruct (Z.ltb_spec (e_count e) INT64_MAX) as [Hl|Hl].
    + rewrite (dec_count (bump_mutations ht) sl b e) by (try done; apply (rep_frame ht); done). rewrite io_bind_lift.
      cbn [io_bind io_ret]. pose proof (rep_width _ _ Hrep).
      destruct (recount_slot ht sl b e (e_count e - 1) (counts_width ht) Ht Ec Hb) as [Ht' Hr]; [lia|lia|].
      destruct (Hr rest k Hp) as [Hl' He']. eexists _, _, []. split; [done|]. split; [exact Ht'|]. split; [|lia].
      by apply (step_remove_one o _ _ e rest).
    + cbn [io_bind io_ret]. eexists _, sl, []. split; [done|]. split; [by apply table_bump|]. split; [|lia].
      apply (step_remove_stuck o _ _ e rest); [done| |done].
      pose proof (rep_width _ _ Hrep).
      destruct (slot_ok_frame ht (set_counts_width ht 3) (SLive e)) as (_ & _ & Hcnt3);
        [done|simpl; lia|lia|by apply (slot_ok_live ht sl Hrep b)|].
      change (has_counts (set_counts_width ht 3)) with (has_counts ht) in Hcnt3. rewrite Ec in Hcnt3.
      simpl counts_width in Hcnt3. rewrite max_slot_count_3 in Hcnt3. lia.
  - rewrite (proj2 (Z.ltb_lt 0 _)) by done. assert (e_count e = 1) as He1 by lia.
    destruct (remove_value_spec ht sl b e (contract_same ht Hs) Hwf Hb He1) as (ht' & sl' & -> & Hwf' & Hso & _ & Hperm).
    cbn [io_bind io_ret]. rewrite app_nil_r. eexists ht', sl', _. split; [done|].
    split; [split_and!; [done|by eapply hash_same_object_trans|done]|].
    split; [|pose proof (Permutation_length Hperm); simpl in *; lia].
    rewrite He1, (entry_releases_same ht) by done. apply (step_remove_last o _ _ e rest); [done|done|].
    apply (Permutation_cons_inv (a := e)). rewrite <- Hperm. apply Hp.
Qed.

Lemma refines_remove ht sl k : table ht sl -> refines ht sl (CallRemove k).
Proof.
  intros Ht. pose proof Ht as (Hwf & Hs & Hm). unfold refines, do_call, CFBasicHashRemoveValue.
  rewrite (mutable_same ht Hs Hm). cbn [negb]. destruct (_ || _) eqn:Es.
  { eexists ht, sl, 0, []. split; [done|]. split; [done|]. split; [|lia]. apply step_remove_absent; [|done]. right.
    intros [Hk1 Hk2]. apply orb_true_iff in Es as [E|E]; apply Z.eqb_eq in E; congruence. }
  destruct (find_bag ht sl k Ht) as (bkt & -> & Hf & [(b & e & rest & Hb & Hp & Hpos & ->)|(Hc & Hn)]); rewrite io_bind_lift.
  - destruct (remove_bucket_spec ht sl b e k rest Ht Hb Hp Hpos) as (ht' & sl' & t & -> & Ht' & Hstep & Hl).
    eexists ht', sl', _, t. split; [done|]. split; [done|]. split; [done|lia].
  - unfold remove_bucket. rewrite Hc. change (1 <? 0) with false. change (0 <? 0) with false. cbv iota.
    eexists ht, sl, 0, []. split; [done|]. split; [done|]. split; [|lia]. apply step_remove_absent; [by left|done].
Qed.

Lemma refines_remove_all ht sl : table ht sl -> refines ht sl CallRemoveAll.
Proof.
  intros Ht. pose proof Ht as (Hwf & Hs & Hm). unfold refines, do_call, CFBasicHashRemoveAllValues.
  rewrite (mutable_same ht Hs Hm). cbn [negb]. destruct (Z.eqb_spec 0 (num_buckets_idx ht)) as [E|E].
  - pose proof (rep_size _ _ (wf_rep _ _ Hwf)) as Hn. rewrite <- E in Hn. change (size_of 0) with 0 in Hn.
    destruct sl; [|done]. cbn [io_bind io_ret]. eexists ht, [], 0, []. split; [done|]. split; [done|]. split; [|simpl; lia].
    by apply (step_remove_all o [] []).
  - destruct (hash_drain_spec ht sl false Hwf) as (ht' & -> & Hwf' & Hso & _). cbn [io_bind io_ret]. rewrite app_nil_r.
    eexists ht', [], 0, _. split; [done|]. split; [split_and!; [done|by eapply hash_same_object_trans|done]|]. split; [|simpl; lia].
    replace (concat (entry_releases ht <$> entries sl)) with (concat (entry_releases o <$> entries sl)).
    + by apply step_remove_all.
    + f_equal. apply list_fmap_ext. intros _ e _. by rewrite (entry_releases_same ht).
Qed.

Lemma refines_set_capacity ht sl n : table ht sl -> n <= max_entries -> refines ht sl (CallSetCapacity n).
Proof.
  intros Ht Hn. pose proof Ht as (Hwf & Hs & Hm). unfold refines, do_call, CFBasicHashSetCapacity.
  rewrite (mutable_same ht Hs Hm). cbn [negb]. pose proof (wf_used _ _ Hwf). pose proof (wf_max _ _ Hwf).
  destruct (Z.ltb_spec (used_buckets ht) n) as [Hlt|Hlt].
  - assert (rep (bump_mutations ht) sl) as Hrep0 by (apply (rep_frame ht); try done; apply Hwf).
    destruct (rehash_idx_spec (bump_mutations ht) (n - used_buckets ht)) as (i & Ei & Hir & Hcap & _); simpl; try lia;
      [apply Hrep0|apply Hwf|].
    destruct (rehash_wf (bump_mutations ht) sl (n - used_buckets ht) i Hrep0 ltac:(apply Hwf) (contract_same ht Hs)) as (vs & ks & cs & sl' & Er & Hwf' & _ & _ & Hp);
      [simpl; lia|exact Ei|done|done|simpl; lia|].
    rewrite Er. cbn [io_bind io_ret]. eexists _, sl', 0, []. split; [done|].
    split; [split_and!; [exact Hwf'|exact Hs|done]|]. split; [by apply step_set_capacity|by rewrite Hp; lia].
  - cbn [io_bind io_ret]. eexists ht, sl, 0, []. split; [done|]. split; [done|]. split; [by apply step_set_capacity|lia].
Qed.

Lemma refines_call ht sl c :
  table ht sl -> call_ok o c -> Z.of_nat (length (entries sl)) < max_entries -> refines ht sl c.
Proof.
  intros Ht Hok Hlt. destruct c as [k v|k v|k v|k| |n]; simpl in Hok.
  - by apply refines_add.
  - by apply refines_replace.
  - by apply refines_set.
  - by apply refines_remove.
  - by apply refines_remove_all.
  - by apply refines_set_capacity.
Qed.

Lemma calls_refine_steps ht sl cs :
  table ht sl -> Forall (call_ok o) cs -> Z.of_nat (length (entries sl)) + Z.of_nat (length cs) <= max_entries ->
  exists ht' sl' rs t, do_calls ht cs = Some (ht', rs, t) /\ table ht' sl' /\
    map_steps o (entries sl) cs rs t (entries sl').
Proof.
  revert ht sl. induction cs as [|c cs IH]; intros ht sl Ht Hok Hlen.
  - exists ht, sl, [], []. split_and!; [done|done|constructor].
  - apply Forall_cons in Hok as [Hc Hok]. simpl in Hlen.
    destruct (refines_call ht sl c Ht Hc) as (ht1 & sl1 & r & t & E & Ht1 & Hstep & Hl1); [lia|].
    destruct (IH ht1 sl1 Ht1 Hok) as (ht' & sl' & rs & t' & E' & Ht' & Hsteps); [lia|].
    exists ht', sl', (r :: rs), (t ++ t'). cbn [do_calls]. rewrite E. cbn [io_bind]. rewrite E'. cbn [io_bind io_ret].
    rewrite app_nil_r. split_and!; [done|done|]. by econstructor.
Qed.

End Calls.
End Keys.

(** ** The refinement *)

(** C2: the hash table is a finite map.  For keys whose equality is an
    equivalence that the hash code respects, every sequence of calls (add,
    replace, set, remove, remove all, set capacity) on a well-formed mutable
    table returns, stays inside its arrays and never halts; the results, the
    callbacks called and the bag of entries afterwards are those of the map, and
    the table stays well formed.  The table may hold up to 2^30 entries, with any
    of the three probe styles, with or without an array of keys and of counts. *)
Theorem CFBasicHash_calls_refine_map (ptrs : list Z) (cr : Z -> Z -> Z) (ce : Z -> Z -> Z -> bool) (ch ci : Z -> Z -> Z)
    (ht : __CFBasicHash) (sl : list slot) (cs : list hash_call) :
  KeyContract ptrs ce ch (config ht) -> wf ptrs ce ch ci ht sl -> CFBasicHashIsMutable ht = true ->
  Forall (call_ok ptrs cr ce ci ht) cs -> Z.of_nat (length (entries sl)) + Z.of_nat (length cs) <= max_entries ->
  exists ht' sl' rs t, do_calls ptrs cr ce ch ci ht cs = Some (ht', rs, t) /\
    wf ptrs ce ch ci ht' sl' /\ same_object ht ht' /\
    map_steps ptrs cr ce ci ht (entries sl) cs rs t (entries sl').
Proof.
  intros HK Hwf Hm Hok Hlen.
  destruct (calls_refine_steps ptrs cr ce ch ci ht ht sl cs) as (ht' & sl' & rs & t & E & (Hwf' & Hs & _) & Hsteps); [by split_and!|done|done|].
  by exists ht', sl', rs, t.
Qed.

(** Keys compared by pointer, with the pointer as the hash code. *)
Lemma pointer_keys_contract ptrs ce ch c :
  cb_ptr ptrs (__kequ c) = 0 -> cb_ptr ptrs (__khas c) = 0 -> KeyContract ptrs ce ch c.
Proof.
  intros He Hh. assert (forall a b, key_eq ptrs ce c a b = true -> a = b) as Heq.
  { intros a b. unfold key_eq. rewrite He. simpl. rewrite orb_diag. apply Z.eqb_eq. }
  constructor.
  - intros a b H. apply Heq in H as ->. apply key_eq_refl.
  - intros a b d H H'. apply Heq in H as ->. done.
  - intros a b H. by apply Heq in H as ->.
Qed.

(** A dictionary that retains (103) and releases (102) its keys and values. *)
Definition example_table : __CFBasicHash :=
  mkHash 0 (mkConfig 1 1 0 0 0 0 0 0 0 0 0 0 3 3 2 2 0 0 0 0 0 0) 1 0 0 0 0 0 0 [] [] [].
Definition example_ptrs : list Z := CFBasicHashCallBackPtrs (initial_registry 101 102 103 104 105 106).
Definition example_calls : list hash_call := [CallAdd 0 5; CallAdd 3 ones; CallSet 0 7; CallRemove 3; CallAdd 0 9].

Lemma CFBasicHash_calls_refine_map_witness :
  exists ht' sl' rs t,
    do_calls example_ptrs (fun _ v => v) (fun _ => Z.eqb) (fun _ k => k) (fun _ k => k) example_table example_calls = Some (ht', rs, t) /\
    wf example_ptrs (fun _ => Z.eqb) (fun _ k => k) (fun _ k => k) ht' sl' /\ same_object example_table ht' /\
    map_steps example_ptrs (fun _ v => v) (fun _ => Z.eqb) (fun _ k => k) example_table (entries []) example_calls rs t (entries sl').
Proof.
  apply (CFBasicHash_calls_refine_map example_ptrs (fun _ v => v) (fun _ => Z.eqb) (fun _ k => k) (fun _ k => k) example_table [] example_calls).
  - by apply pointer_keys_contract.
  - apply wf_empty; try done; [|by left|by left]. split; [simpl; lia|by right].
  - reflexivity.
  - repeat (apply Forall_cons; split); try done; (split_and!; try done; intros _; done).
  - vm_compute. discriminate.
Defined.
