(* ===== verification/CFBasicHashQueries.v ===== *)
(** * CFBasicHashQueries: reading, comparing and enumerating a table

    What the queries of CFBasicHash.c return, in terms of the bag of entries of
    a well-formed table: counts, values, the visits of a block, the buffers
    [CFBasicHashGetElements] fills, fast enumeration in batches, and the
    comparison of two tables. *)

From S2P Require Import Prelude CFInternal CFBasicHash CFBasicHashProbe CFBasicHashTable.
From stdpp Require Import base list numbers option sets.
From Stdlib Require Import ZArith Lia.
Open Scope Z_scope.
Open Scope cf_scope.

(** Sum of a function over a list. *)
Definition sum_of {A} (f : A -> Z) (l : list A) : Z := foldr (fun x n => f x + n) 0 l.

Lemma sum_of_app {A} (f : A -> Z) l l' : sum_of f (l ++ l') = sum_of f l + sum_of f l'.
Proof. induction l as [|x l IH]; simpl; lia. Qed.

Lemma sum_of_Permutation {A} (f : A -> Z) l l' : l ≡ₚ l' -> sum_of f l = sum_of f l'.
Proof. induction 1; simpl; lia. Qed.

Lemma sum_of_nonneg {A} (f : A -> Z) l : (forall x, x ∈ l -> 0 <= f x) -> 0 <= sum_of f l.
Proof.
  induction l as [|x l IH]; intros H; simpl; [lia|].
  pose proof (H x ltac:(set_solver)). pose proof (IH ltac:(set_solver)). lia.
Qed.

(** The total number of occurrences of a bag. *)
Definition total (l : list entry) : Z := sum_of e_count l.

Section Queries.
Context (ptrs : list Z) (ce : Z -> Z -> Z -> bool) (ch ci : Z -> Z -> Z).

Notation wf := (wf ptrs ce ch ci).
Notation rep := (rep ptrs ci).
Notation key_eq := (key_eq ptrs ce).

(** How values are compared. *)
Definition value_eq (c : hash_config) (a b : Z) : bool :=
  (a =? b) || (if cb_ptr ptrs (__vequ c) =? 0 then a =? b else ce (cb_ptr ptrs (__vequ c)) a b).

(** ** Visiting the buckets *)

(** The live buckets from index [i] on. *)
Fixpoint live_buckets (i : nat) (sl : list slot) : list CFBasicHashBucket :=
  match sl with
  | [] => []
  | SLive e :: sl' => bucket_view i (SLive e) :: live_buckets (S i) sl'
  | _ :: sl' => live_buckets (S i) sl'
  end.

(** A block called on each of them until it says stop. *)
Fixpoint fold_block {S} (block : S -> CFBasicHashBucket -> option (S * bool)) (s : S) (l : list CFBasicHashBucket) : option S :=
  match l with
  | [] => Some s
  | bkt :: l' => let* (s, go_on) := block s bkt in if (go_on : bool) then fold_block block s l' else Some s
  end.

Lemma live_buckets_length i sl : length (live_buckets i sl) = length (entries sl).
Proof. revert i. induction sl as [|[| |e] sl IH]; intros i; [done|apply IH..|]. rewrite entries_cons. simpl. by rewrite IH. Qed.

Lemma hash_apply_loop_spec {S} (ht : __CFBasicHash) sl (block : S -> CFBasicHashBucket -> option (S * bool)) rest i used s :
  rep ht sl -> (i + rest = length sl)%nat -> used = Z.of_nat (length (entries (drop i sl))) ->
  apply_loop ptrs ci ht block rest (Z.of_nat i) used s = fold_block block s (live_buckets i (drop i sl)).
Proof.
  intros Hrep. revert i used s. induction rest as [|rest IH]; intros i used s Hi Hu.
  - rewrite drop_ge by lia. done.
  - assert (exists x, sl !! i = Some x) as [x Hx] by (apply lookup_lt_is_Some; lia).
    cbn [apply_loop]. rewrite (drop_S _ _ _ Hx) in Hu |- *. rewrite entries_cons in Hu.
    replace (Z.of_nat i + 1) with (Z.of_nat (Datatypes.S i)) by lia.
    destruct (Z.ltb_spec 0 used) as [Hpos|Hz].
    + rewrite (get_bucket ptrs ci ht sl Hrep i x Hx). cbn [opt_bind].
      destruct x as [| |e]; cbn [bucket_view count live_buckets]; simpl in Hu.
      * change (0 <? 0) with false. cbv iota. apply IH; [lia|done].
      * change (0 <? 0) with false. cbv iota. apply IH; [lia|done].
      * rewrite (proj2 (Z.ltb_lt 0 _)) by (by apply (entry_count_pos ptrs ci ht sl Hrep i)). cbn [fold_block].
        destruct (block s _) as [[s' [|]]|]; [|done|done]. cbn [opt_bind]. apply IH; [lia|lia].
    + destruct x as [| |e]; simpl in Hu |- *; [| |lia];
        (assert (length (live_buckets (Datatypes.S i) (drop (Datatypes.S i) sl)) = 0%nat) as E by (rewrite live_buckets_length; lia);
         by rewrite (nil_length_inv _ E)).
Qed.

Lemma apply_spec {S} ht sl (block : S -> CFBasicHashBucket -> option (S * bool)) s :
  wf ht sl -> CFBasicHashApply ptrs ci ht block s = fold_block block s (live_buckets 0 sl).
Proof.
  intros Hwf. pose proof (wf_rep _ _ _ _ _ _ Hwf) as Hrep. unfold CFBasicHashApply. rewrite rd_size by apply Hrep. cbn [opt_bind].
  rewrite (rep_size _ _ _ _ Hrep), Nat2Z.id.
  apply (hash_apply_loop_spec ht sl block (length sl) 0 _ s Hrep); [lia|apply Hwf].
Qed.

(** A block that never stops is a fold over the entries. *)
Lemma fold_block_entries {S} (block : S -> CFBasicHashBucket -> option (S * bool)) (f : S -> entry -> S) s i sl :
  (forall s j e, sl !! j = Some (SLive e) -> block s (bucket_view (i + j) (SLive e)) = Some (f s e, true)) ->
  fold_block block s (live_buckets i sl) = Some (foldl f s (entries sl)).
Proof.
  revert i s. induction sl as [|x sl IH]; intros i s H; [done|]. rewrite entries_cons.
  assert (forall s, fold_block block s (live_buckets (Datatypes.S i) sl) = Some (foldl f s (entries sl))) as IH'.
  { intros s'. apply IH. intros s0 j e Hj. specialize (H s0 (Datatypes.S j) e Hj).
    by replace (Datatypes.S i + j)%nat with (i + Datatypes.S j)%nat by lia. }
  destruct x as [| |e]; [apply IH'..|]. cbn [live_buckets fold_block].
  specialize (H s 0%nat e eq_refl). rewrite Nat.add_0_r in H. rewrite H. apply IH'.
Qed.

(** ** Counts *)

Lemma sum_counts_spec ht sl rest i t :
  rep ht sl -> has_counts ht = true -> (i + rest = length sl)%nat -> swrap 64 t = t ->
  sum_counts ht rest (Z.of_nat i) t = Some (swrap 64 (t + total (entries (drop i sl)))).
Proof.
  intros Hrep Hc. revert i t. induction rest as [|rest IH]; intros i t Hi Ht.
  - rewrite drop_ge by lia. simpl. unfold total. simpl. by rewrite Z.add_0_r, Ht.
  - assert (exists x, sl !! i = Some x) as [x Hx] by (apply lookup_lt_is_Some; lia).
    cbn [sum_counts]. unfold __CFBasicHashGetSlotCount. rewrite (rd_counts ptrs ci ht sl Hrep i x Hc Hx). cbn [opt_bind].
    replace (Z.of_nat i + 1) with (Z.of_nat (S i)) by lia. rewrite IH; [|lia|].
    + rewrite swrap_add_l by lia. rewrite (drop_S _ _ _ Hx), entries_cons. do 2 f_equal. unfold total. rewrite sum_of_app.
      destruct x; simpl; lia.
    + apply swrap_id; [lia|]. apply swrap_range. lia.
Qed.

Lemma entries_counts_one ht sl : rep ht sl -> has_counts ht = false -> total (entries sl) = Z.of_nat (length (entries sl)).
Proof.
  intros Hrep Hc. assert (forall e, e ∈ entries sl -> e_count e = 1) as H1.
  { intros e He. apply elem_of_entries in He as [b Hb]. destruct (slot_ok_live ptrs ci ht sl Hrep b e Hb) as (_ & _ & H).
    by rewrite Hc in H. }
  unfold total. induction (entries sl) as [|e l IH]; [done|]. simpl. rewrite IH by set_solver. rewrite H1 by set_solver. lia.
Qed.

Lemma hash_get_count_spec ht sl : wf ht sl -> CFBasicHashGetCount ht = Some (swrap 64 (total (entries sl))).
Proof.
  intros Hwf. pose proof (wf_rep _ _ _ _ _ _ Hwf) as Hrep. unfold CFBasicHashGetCount. destruct (has_counts ht) eqn:Ec.
  - rewrite rd_size by apply Hrep. cbn [opt_bind]. rewrite (rep_size _ _ _ _ Hrep), Nat2Z.id.
    by apply (sum_counts_spec ht sl (length sl) 0 0 Hrep Ec).
  - rewrite (entries_counts_one ht sl Hrep Ec). rewrite (wf_used _ _ _ _ _ _ Hwf). f_equal. symmetry. apply swrap_id; [lia|].
    pose proof (wf_max _ _ _ _ _ _ Hwf) as Hm. rewrite (wf_used _ _ _ _ _ _ Hwf) in Hm. unfold in_signed, max_entries in *. lia.
Qed.

(** The count of the key [k] in a bag. *)
Definition count_of_key (c : hash_config) (k : Z) (l : list entry) : Z :=
  sum_of (fun e => if key_eq c (e_key e) k then e_count e else 0) l.

Definition count_of_value (c : hash_config) (v : Z) (l : list entry) : Z :=
  sum_of (fun e => if (v =? e_value e) || value_eq c (e_value e) v then e_count e else 0) l.

Lemma sum_of_zero {A} (f : A -> Z) l : (forall x, x ∈ l -> f x = 0) -> sum_of f l = 0.
Proof. induction l as [|x l IH]; intros H; [done|]. simpl. rewrite H, IH by set_solver. done. Qed.

(** A search, with the count it returns. *)
Lemma find_count ht sl k :
  wf ht sl -> KeyContract ptrs ce ch (config ht) ->
  exists bkt, __CFBasicHashFindBucket ptrs ce ch ci ht k = Some bkt /\
    count bkt = count_of_key (config ht) k (entries sl) /\
    ((exists e, e ∈ entries sl /\ key_eq (config ht) (e_key e) k = true /\ weak_key bkt = Some (e_key e) /\
        weak_value bkt = Some (e_value e) /\ count bkt = e_count e /\ 0 < e_count e) \/
     (count bkt = 0 /\ forall e, e ∈ entries sl -> key_eq (config ht) (e_key e) k = false)).
Proof.
  intros Hwf HK. pose proof (wf_rep _ _ _ _ _ _ Hwf) as Hrep.
  destruct (find_spec ptrs ce ch ci ht sl k Hrep HK) as (bkt & E & Hf); [apply Hwf|]. exists bkt. split; [done|].
  assert (absent ptrs ce (config ht) sl k -> count_of_key (config ht) k (entries sl) = 0) as Habs.
  { intros Ha. apply sum_of_zero. intros e He. by rewrite (proj1 (absent_entries _ _ _ _ _) Ha e He). }
  destruct Hf as [b e Hb Hk|b s wk wv Ha _ _ _|wk wv Ha _]; cbn [count weak_key weak_value].
  - split.
    + unfold count_of_key. rewrite (sum_of_Permutation _ _ _ (entries_delete sl b e Hb)). cbn [sum_of foldr]. rewrite Hk.
      fold (sum_of (fun e => if key_eq (config ht) (e_key e) k then e_count e else 0) (entries (<[b := SDeleted]> sl))).
      rewrite sum_of_zero; [lia|]. intros e' He'. apply elem_of_entries in He' as [b' Hb'].
      apply list_lookup_insert_Some in Hb' as [(_ & ? & _)|[Hne Hb']]; [done|].
      destruct (key_eq (config ht) (e_key e') k) eqn:Ek; [|done]. exfalso. apply Hne. symmetry.
      apply (wf_unique _ _ _ _ _ _ Hwf b' b e' e Hb' Hb). apply (key_eq_trans _ _ _ _ k); [done|by apply (key_eq_sym ptrs ce ch)].
    + left. exists e. split_and!; [apply elem_of_entries; eauto|done|done|done|done|]. by apply (entry_count_pos ptrs ci ht sl Hrep b).
  - split; [by rewrite Habs|]. right. split; [done|]. by apply absent_entries.
  - split; [by rewrite Habs|]. right. split; [done|]. by apply absent_entries.
Qed.

Lemma entry_count_range ht sl e : rep ht sl -> e ∈ entries sl -> 1 <= e_count e <= INT64_MAX.
Proof.
  intros Hrep He. apply elem_of_entries in He as [b Hb]. pose proof (rep_width _ _ _ _ Hrep).
  destruct (slot_ok_frame ptrs ci ht (set_counts_width ht 3) (SLive e)) as (_ & _ & Hc);
    [done|simpl; lia|lia|by apply (slot_ok_live ptrs ci ht sl Hrep b)|].
  destruct (has_counts _); [by rewrite <- max_slot_count_3|]. rewrite Hc. done.
Qed.

Lemma count_of_key_range ht sl k :
  wf ht sl -> KeyContract ptrs ce ch (config ht) -> 0 <= count_of_key (config ht) k (entries sl) <= INT64_MAX.
Proof.
  intros Hwf HK. destruct (find_count ht sl k Hwf HK) as (bkt & _ & <- & [(e & He & _ & _ & _ & -> & _)|[-> _]]); [|done].
  pose proof (entry_count_range ht sl e (wf_rep _ _ _ _ _ _ Hwf) He). lia.
Qed.

Lemma get_count_of_key_spec ht sl k :
  wf ht sl -> KeyContract ptrs ce ch (config ht) -> plain k ->
  CFBasicHashGetCountOfKey ptrs ce ch ci ht k = Some (count_of_key (config ht) k (entries sl)).
Proof.
  intros Hwf HK [Hk1 Hk2]. unfold CFBasicHashGetCountOfKey. rewrite !(proj2 (Z.eqb_neq _ _)) by congruence. cbn [orb].
  destruct (Z.eqb_spec 0 (used_buckets ht)) as [E|E].
  - rewrite (wf_used _ _ _ _ _ _ Hwf) in E. by rewrite (nil_length_inv (entries sl)) by lia.
  - destruct (find_count ht sl k Hwf HK) as (bkt & -> & Hc & _). cbn [opt_bind]. rewrite Hc, swrap_id; [done|lia|].
    pose proof (count_of_key_range ht sl k Hwf HK). unfold in_signed, INT64_MAX in *. lia.
Qed.

(** C30: what a table answers.  The count of the table is the sum of the counts
    of its entries, as a signed 64-bit number; the count of a key is the count of
    the entry whose key is equal to it (0 without one); in a table with keys the
    count of a value is the sum over the entries with an equal value, in one
    without it is that of the value as a key; a search returns the stored key and
    value of that entry, or a count of 0; and none of them reads outside its
    arrays. *)
Theorem CFBasicHash_queries_answer (ht : __CFBasicHash) (sl : list slot) (k v : Z) :
  wf ht sl -> KeyContract ptrs ce ch (config ht) -> plain k -> plain v ->
  CFBasicHashGetCount ht = Some (swrap 64 (total (entries sl))) /\
  CFBasicHashGetCountOfKey ptrs ce ch ci ht k = Some (count_of_key (config ht) k (entries sl)) /\
  CFBasicHashGetCountOfValue ptrs ce ch ci ht v =
    Some (if has_keys ht then swrap 64 (count_of_value (config ht) v (entries sl))
          else count_of_key (config ht) v (entries sl)) /\
  exists bkt, CFBasicHashFindBucket ptrs ce ch ci ht k = Some bkt /\
    ((exists e, e ∈ entries sl /\ key_eq (config ht) (e_key e) k = true /\ weak_key bkt = Some (e_key e) /\
        weak_value bkt = Some (e_value e) /\ count bkt = e_count e /\ 0 < e_count e) \/
     (count bkt = 0 /\ forall e, e ∈ entries sl -> key_eq (config ht) (e_key e) k = false)).
Proof.
  intros Hwf HK [Hk1 Hk2] [Hv1 Hv2]. pose proof (wf_used _ _ _ _ _ _ Hwf) as Hu.
  assert (forall k, swrap 64 (count_of_key (config ht) k (entries sl)) = count_of_key (config ht) k (entries sl)) as Hsw.
  { intros k'. apply swrap_id; [lia|]. pose proof (count_of_key_range ht sl k' Hwf HK). unfold in_signed, INT64_MAX in *. lia. }
  assert (used_buckets ht = 0 -> entries sl = []) as Hnil.
  { intros E. apply nil_length_inv. lia. }
  split_and!; [by apply hash_get_count_spec| | |].
  - by apply get_count_of_key_spec.
  - unfold CFBasicHashGetCountOfValue. rewrite !(proj2 (Z.eqb_neq __CFBasicHashSubABZero _)) by congruence.
    destruct (Z.eqb_spec 0 (used_buckets ht)) as [E|E]; [rewrite Hnil by done; by destruct (has_keys ht)|].
    destruct (has_keys ht); cbn [negb].
    + rewrite (apply_spec ht sl) by done.
      rewrite (fold_block_entries _ (fun n e => if (v =? e_value e) || value_eq (config ht) (e_value e) v
        then swrap 64 (n + e_count e) else n)).
      * f_equal. unfold count_of_value. rewrite <- (Z.add_0_l (sum_of _ _)).
        assert (swrap 64 0 = 0) as H0 by done. revert H0. generalize 0 at 1 2 3 4 as n. clear.
        induction (entries sl) as [|e l IH]; intros n Hn; simpl; [by rewrite Z.add_0_r|].
        destruct (_ || _).
        -- rewrite IH; [|apply swrap_id; [lia|apply swrap_range; lia]]. rewrite swrap_add_l by lia. f_equal. unfold sum_of. lia.
        -- rewrite IH by done. f_equal.
      * intros n j e Hj. cbn [bucket_view weak_value opt_bind count].
        assert ((v =? e_value e) || __CFBasicHashTestEqualValue ptrs ce ht (e_value e) v =
          (v =? e_value e) || value_eq (config ht) (e_value e) v) as ->; [|done].
        unfold value_eq, __CFBasicHashTestEqualValue. rewrite (Z.eqb_sym (e_value e) v). by destruct (v =? e_value e).
    + destruct (find_count ht sl v Hwf HK) as (bkt & -> & Hc & _). cbn [opt_bind]. by rewrite Hc, Hsw.
  - unfold CFBasicHashFindBucket. rewrite !(proj2 (Z.eqb_neq _ _)) by congruence. cbn [orb].
    destruct (find_count ht sl k Hwf HK) as (bkt & E & _ & H). by exists bkt.
Qed.

(** ** Buffers *)

(** The entries, each as often as it occurs. *)
Definition occurrences (l : list entry) : list entry := concat ((fun e => replicate (Z.to_nat (e_count e)) e) <$> l).

(** [m] elements written at the start of a buffer that may be NULL. *)
Definition fill (buf : option (list Z)) (o : nat) (xs : list Z) : option (list Z) :=
  (fun b => take o b ++ xs ++ drop (o + length xs) b) <$> buf.

(** A buffer with room for [n] cells. *)
Definition room (buf : option (list Z)) (n : nat) : Prop := match buf with Some b => (n <= length b)%nat | None => True end.

Lemma fill_nil buf o : fill buf o [] = buf.
Proof. destruct buf as [b|]; [|done]. simpl. by rewrite Nat.add_0_r, take_drop. Qed.

Lemma room_fill buf o xs n : room buf n -> (o + length xs <= n)%nat -> room (fill buf o xs) n.
Proof. destruct buf as [b|]; [|done]. simpl. intros. rewrite !length_app, length_take, length_drop. lia. Qed.

Lemma put_fill buf o x n : room buf n -> (o < n)%nat -> put buf (Z.of_nat o) x = Some (fill buf o [x]).
Proof.
  destruct buf as [b|]; [|done]. simpl. intros Hn Ho. rewrite wr_nat by lia. simpl.
  rewrite insert_take_drop by lia. by rewrite Nat.add_1_r.
Qed.

Lemma fill_fill buf o xs ys n : room buf n -> (o + length xs + length ys <= n)%nat ->
  fill (fill buf o xs) (o + length xs) ys = fill buf o (xs ++ ys).
Proof.
  destruct buf as [b|]; [|done]. simpl. intros Hn Ho. f_equal.
  assert (length (take o b ++ xs) = (o + length xs)%nat) as Hl by (rewrite length_app, length_take; lia).
  assert (take o b ++ xs ++ drop (o + length xs) b = (take o b ++ xs) ++ drop (o + length xs) b) as -> by apply (assoc_L (++)).
  rewrite <- Hl at 1. rewrite take_app_length, drop_app_ge by lia. rewrite Hl, drop_drop, length_app, <- !(assoc_L (++)).
  do 4 f_equal. lia.
Qed.

Lemma fill_cons buf o x ys n :
  room buf n -> (o + S (length ys) <= n)%nat -> fill (fill buf o [x]) (S o) ys = fill buf o (x :: ys).
Proof.
  intros Hn Ho. change (x :: ys) with ([x] ++ ys). rewrite <- (fill_fill buf o [x] ys n Hn) by (simpl; lia).
  f_equal. simpl. lia.
Qed.

Lemma emit_element_spec i e bl cnt off wv wk n :
  room wv n -> room wk n -> bl = Z.of_nat n -> (off <= n)%nat ->
  emit_element (bucket_view i (SLive e)) bl cnt (Z.of_nat off) wv wk =
    Some (Z.of_nat (off + min cnt (n - off)), fill wv off (replicate (min cnt (n - off)) (e_value e)),
          fill wk off (replicate (min cnt (n - off)) (e_key e))).
Proof.
  intros Hwv Hwk ->. revert off wv wk Hwv Hwk. induction cnt as [|cnt IH]; intros off wv wk Hwv Hwk Ho.
  - simpl. by rewrite Nat.add_0_r, !fill_nil.
  - cbn [emit_element]. destruct (Z.ltb_spec (Z.of_nat off) (Z.of_nat n)) as [Hlt|Hge].
    + cbn [bucket_view weak_value weak_key opt_bind]. rewrite !(put_fill _ _ _ n) by (done || lia). cbn [opt_bind].
      replace (Z.of_nat off + 1) with (Z.of_nat (S off)) by lia.
      fold (bucket_view i (SLive e)). rewrite IH by (try (apply room_fill; simpl; [done|lia]); lia).
      replace (min (S cnt) (n - off)) with (S (min cnt (n - S off))) by lia.
      replace (off + S (min cnt (n - S off)))%nat with (S off + min cnt (n - S off))%nat by lia.
      rewrite !replicate_S, !(fill_cons _ _ _ _ n) by (try done; rewrite length_replicate; lia). done.
    + replace (min (S cnt) (n - off)) with 0%nat by lia. simpl. by rewrite Nat.add_0_r, !fill_nil.
Qed.

Lemma occurrences_cons e l : occurrences (e :: l) = replicate (Z.to_nat (e_count e)) e ++ occurrences l.
Proof. done. Qed.

Lemma get_elements_loop_spec ht sl rest i used off wv wk n :
  rep ht sl -> (i + rest = length sl)%nat -> used = Z.of_nat (length (entries (drop i sl))) ->
  room wv n -> room wk n -> (off <= n)%nat ->
  let occ := take (n - off) (occurrences (entries (drop i sl))) in
  get_elements_loop ptrs ci ht (Z.of_nat n) rest (Z.of_nat i) used (Z.of_nat off) wv wk =
    Some (fill wv off (e_value <$> occ), fill wk off (e_key <$> occ)).
Proof.
  intros Hrep. revert i used off wv wk. induction rest as [|rest IH]; intros i used off wv wk Hi Hu Hwv Hwk Ho occ.
  - unfold occ. rewrite drop_ge by lia. change (occurrences (entries [])) with (@nil entry).
    rewrite take_nil. cbn [fmap list_fmap]. by rewrite !fill_nil.
  - assert (exists x, sl !! i = Some x) as [x Hx] by (apply lookup_lt_is_Some; lia).
    assert (entries (drop i sl) = option_list (slot_entry x) ++ entries (drop (S i) sl)) as Hen by (by rewrite (drop_S _ _ _ Hx), entries_cons).
    cbn [get_elements_loop]. replace (Z.of_nat i + 1) with (Z.of_nat (S i)) by lia.
    destruct (Z.ltb_spec 0 used) as [Hpos|Hz].
    + destruct (Z.ltb_spec (Z.of_nat off) (Z.of_nat n)) as [Hlt|Hge]; cbn [andb].
      * rewrite (get_bucket ptrs ci ht sl Hrep i x Hx). cbn [opt_bind]. rewrite Hen in Hu. unfold occ. rewrite Hen.
        destruct x as [| |e]; simpl in Hu.
        -- cbn [bucket_view count]. change (0 <? 0) with false. cbv iota. rewrite IH by (done || lia). done.
        -- cbn [bucket_view count]. change (0 <? 0) with false. cbv iota. rewrite IH by (done || lia). done.
        -- change (count (bucket_view i (SLive e))) with (e_count e).
           pose proof (entry_count_pos ptrs ci ht sl Hrep i e Hx). rewrite (proj2 (Z.ltb_lt 0 _)) by done.
           rewrite (emit_element_spec i e (Z.of_nat n) _ off wv wk n) by done. cbn [opt_bind].
           set (m := min (Z.to_nat (e_count e)) (n - off)).
           rewrite IH; try lia; try (apply room_fill; [done|rewrite length_replicate; lia]).
           change (option_list (slot_entry (SLive e)) ++ entries (drop (S i) sl)) with (e :: entries (drop (S i) sl)).
           rewrite occurrences_cons, take_app, length_replicate, take_replicate, !fmap_app, !fmap_replicate.
           replace (min (n - off) (Z.to_nat (e_count e))) with m by lia.
           replace (n - (off + m))%nat with (n - off - Z.to_nat (e_count e))%nat by lia.
           rewrite <- !(fill_fill _ _ _ _ n); rewrite ?length_replicate; try done;
             rewrite length_fmap, length_take; lia.
      * unfold occ. replace (n - off)%nat with 0%nat by lia. simpl. by rewrite !fill_nil.
    + cbn [andb]. assert (entries (drop i sl) = []) as Hnil by (apply nil_length_inv; lia). unfold occ. rewrite Hnil.
      change (occurrences []) with (@nil entry). rewrite take_nil. cbn [fmap list_fmap]. by rewrite !fill_nil.
Qed.

(** The buffers of [CFBasicHashGetElements] receive the values and the keys
    of the entries, in the same order, each entry as often as its count says,
    up to the length asked for; the rest of the buffers is left as it was, a
    NULL buffer is skipped, and nothing is written beyond the length. *)
Lemma CFBasicHashGetElements_lists_entries (ht : __CFBasicHash) (sl : list slot) (n : nat) (wv wk : option (list Z)) :
  wf ht sl -> room wv n -> room wk n ->
  CFBasicHashGetElements ptrs ci ht (Z.of_nat n) wv wk =
    Some (fill wv 0 (e_value <$> take n (occurrences (entries sl))), fill wk 0 (e_key <$> take n (occurrences (entries sl)))).
Proof.
  intros Hwf Hwv Hwk. pose proof (wf_rep _ _ _ _ _ _ Hwf) as Hrep. unfold CFBasicHashGetElements. rewrite rd_size by apply Hrep.
  cbn [opt_bind]. rewrite (rep_size _ _ _ _ Hrep), Nat2Z.id.
  pose proof (get_elements_loop_spec ht sl (length sl) 0 (used_buckets ht) 0 wv wk n Hrep) as H.
  rewrite Nat.sub_0_r in H. change (Z.of_nat 0) with 0 in H. apply H; try done; [apply Hwf|lia].
Qed.

(** ** Fast enumeration *)

Lemma enumerate_loop_spec ht sl rest i used cntx n items st :
  rep ht sl -> (i <= length sl)%nat -> (length sl <= i + rest)%nat -> used >= Z.of_nat (length (entries (drop i sl))) ->
  (cntx <= n)%nat -> (n <= length items)%nat ->
  let m := min (n - cntx) (length (entries (drop i sl))) in
  exists i' : nat,
    enumerate_loop ptrs ci ht (Z.of_nat (length sl)) rest (Z.of_nat i) used (Z.of_nat cntx) (Z.of_nat n) st items =
      Some (Z.of_nat (cntx + m), st + Z.of_nat (i' - i),
            take cntx items ++ take m (e_key <$> entries (drop i sl)) ++ drop (cntx + m) items) /\
    (i <= i' <= length sl)%nat /\ entries (drop i' sl) = drop m (entries (drop i sl)).
Proof.
  intros Hrep. revert i used cntx items st. induction rest as [|rest IH]; intros i used cntx items st Hi Hr Hu Hc Hn m.
  - exists i. unfold m. rewrite !drop_ge by lia. change (length (entries [])) with 0%nat. rewrite Nat.min_0_r, !Nat.add_0_r, Nat.sub_diag, Z.add_0_r. simpl.
    by rewrite take_drop.
  - cbn [enumerate_loop]. replace (Z.of_nat i + 1) with (Z.of_nat (S i)) by lia.
    assert (forall m', m' = 0%nat -> m = m' -> exists i' : nat,
      Some (Z.of_nat cntx, st, items) = Some (Z.of_nat (cntx + m), st + Z.of_nat (i' - i),
            take cntx items ++ take m (e_key <$> entries (drop i sl)) ++ drop (cntx + m) items) /\
      (i <= i' <= length sl)%nat /\ entries (drop i' sl) = drop m (entries (drop i sl))) as Hstop.
    { intros m' -> ->. exists i. rewrite Nat.add_0_r, Nat.sub_diag, Z.add_0_r, take_0. simpl. by rewrite take_drop. }
    destruct (Z.ltb_spec 0 used) as [Hpos|Hz]; [|apply (Hstop 0%nat); [done|lia]].
    destruct (Z.ltb_spec (Z.of_nat i) (Z.of_nat (length sl))) as [Hlt|Hge]; cbn [andb].
    2:{ apply (Hstop 0%nat); [done|]. unfold m. rewrite drop_ge by lia. simpl. lia. }
    destruct (Z.ltb_spec (Z.of_nat cntx) (Z.of_nat n)) as [Hl|Hl]; [|apply (Hstop 0%nat); [done|lia]].
    assert (exists x, sl !! i = Some x) as [x Hx] by (apply lookup_lt_is_Some; lia).
    assert (entries (drop i sl) = option_list (slot_entry x) ++ entries (drop (S i) sl)) as Hen by (by rewrite (drop_S _ _ _ Hx), entries_cons).
    rewrite (get_bucket ptrs ci ht sl Hrep i x Hx). cbn [opt_bind]. unfold m in *. clear m Hstop. rewrite Hen in *.
    destruct x as [| |e]; simpl option_list in *; cbn [app] in *.
    + cbn [bucket_view count]. change (0 <? 0) with false. cbv iota.
      destruct (IH (S i) used cntx items (st + 1)) as (i' & -> & Hi' & He'); try lia. exists i'.
      split_and!; [do 3 f_equal; lia|lia|lia|done].
    + cbn [bucket_view count]. change (0 <? 0) with false. cbv iota.
      destruct (IH (S i) used cntx items (st + 1)) as (i' & -> & Hi' & He'); try lia. exists i'.
      split_and!; [do 3 f_equal; lia|lia|lia|done].
    + cbn [bucket_view count weak_key]. pose proof (entry_count_pos ptrs ci ht sl Hrep i e Hx). rewrite (proj2 (Z.ltb_lt 0 _)) by done.
      cbn [opt_bind]. rewrite wr_nat by lia. cbn [opt_bind]. replace (Z.of_nat cntx + 1) with (Z.of_nat (S cntx)) by lia.
      destruct (IH (S i) (used - 1) (S cntx) (<[cntx := e_key e]> items) (st + 1)) as (i' & -> & Hi' & He');
        [lia|lia|simpl in Hu; lia|lia|by rewrite length_insert|].
      exists i'. simpl length. set (m := min (n - S cntx) (length (entries (drop (S i) sl)))) in *.
      replace (min (n - cntx) (S (length (entries (drop (S i) sl))))) with (S m) by lia.
      split_and!; [|lia|lia|done]. rewrite fmap_cons. cbn [take].
      replace (cntx + S m)%nat with (S cntx + m)%nat by lia. f_equal. f_equal; [f_equal; lia|].
      rewrite drop_insert_lt by lia. rewrite insert_take_drop by lia.
      rewrite take_app_ge by (rewrite length_take; lia). rewrite length_take, Nat.min_l, Nat.sub_succ_l, Nat.sub_diag by lia.
      cbn [take]. rewrite take_0, <- (assoc_L (++)). done.
Qed.

Lemma fast_enumeration_batch ht sl (i n : nat) mp items0 items :
  wf ht sl -> (i <= length sl)%nat -> (n <= length items)%nat ->
  let m := min n (length (entries (drop i sl))) in
  exists i' mp' : nat,
    __CFBasicHashFastEnumeration ptrs ci ht (mkEnumeration (Z.of_nat i) mp items0) items (Z.of_nat n) =
      Some (Z.of_nat m, mkEnumeration (Z.of_nat i') (if 0 =? Z.of_nat i then true else mp)
        (take m (e_key <$> entries (drop i sl)) ++ drop m items)) /\
    (i <= i' <= length sl)%nat /\ entries (drop i' sl) = drop m (entries (drop i sl)).
Proof.
  intros Hwf Hi Hn m. pose proof (wf_rep _ _ _ _ _ _ Hwf) as Hrep. unfold __CFBasicHashFastEnumeration.
  rewrite rd_size by apply Hrep. cbn [opt_bind state mutationsPtr]. rewrite (rep_size _ _ _ _ Hrep), Nat2Z.id.
  destruct (enumerate_loop_spec ht sl (length sl) i (used_buckets ht) 0 n items (Z.of_nat i) Hrep) as (i' & E & Hi' & He);
    [done|lia| |lia|done|].
  { rewrite (wf_used _ _ _ _ _ _ Hwf). rewrite <- (take_drop i sl) at 1. rewrite entries_app, length_app. lia. }
  change (Z.of_nat 0) with 0 in E. rewrite E, Nat.sub_0_r. cbn [opt_bind]. rewrite take_0. cbn [app].
  exists i', 0%nat. rewrite Nat.sub_0_r in He. split_and!; [do 3 f_equal; lia|lia|lia|done].
Qed.

(** An enumeration as its client runs it: batches of at most [n] keys in a
    buffer, until one comes back empty. *)
Fixpoint enumerate_all (fuel : nat) (ht : __CFBasicHash) (s : fast_enumeration) (buffer : list Z) (n : Z) : option (list Z) :=
  match fuel with
  | O => None
  | S f =>
      let* (cnt, s) := __CFBasicHashFastEnumeration ptrs ci ht s buffer n in
      if cnt =? 0 then Some []
      else let* rest := enumerate_all f ht s (itemsPtr s) n in Some (take (Z.to_nat cnt) (itemsPtr s) ++ rest)
  end.

(** C32: fast enumeration of a table that is not changed ends, and visits the key
    of every entry exactly once, in bucket order, whatever the size of the
    batches: at most one call more than there are entries is needed. *)
Theorem CFBasicHash_fast_enumeration_complete (ht : __CFBasicHash) (sl : list slot) (buffer : list Z) (n : nat) :
  wf ht sl -> (1 <= n <= length buffer)%nat ->
  enumerate_all (S (length (entries sl))) ht (mkEnumeration 0 false []) buffer (Z.of_nat n) = Some (e_key <$> entries sl).
Proof.
  intros Hwf Hn.
  assert (forall fuel i mp items0 items, (i <= length sl)%nat -> (n <= length items)%nat ->
    (length (entries (drop i sl)) < fuel)%nat ->
    enumerate_all fuel ht (mkEnumeration (Z.of_nat i) mp items0) items (Z.of_nat n) = Some (e_key <$> entries (drop i sl))) as H.
  { induction fuel as [|fuel IH]; intros i mp items0 items Hi Hl Hf; [lia|]. cbn [enumerate_all].
    destruct (fast_enumeration_batch ht sl i n mp items0 items Hwf Hi Hl) as (i' & _ & -> & Hi' & He). cbn [opt_bind itemsPtr].
    set (m := min n (length (entries (drop i sl)))) in *. destruct (Z.eqb_spec (Z.of_nat m) 0) as [E|E].
    - assert (length (entries (drop i sl)) = 0%nat) as E0 by lia. by rewrite (nil_length_inv _ E0).
    - assert (length (take m (e_key <$> entries (drop i sl))) = m) as Hm by (rewrite length_take, length_fmap; lia).
      rewrite IH; [|lia|rewrite length_app, Hm, length_drop; lia|rewrite He, length_drop; lia].
      cbn [opt_bind]. rewrite Nat2Z.id, take_app_length' by done. rewrite He, fmap_drop, take_drop. done. }
  apply (H _ 0%nat); [lia|lia|]. rewrite drop_0. lia.
Qed.

(** ** Equality *)

(** An entry of one table that the other has too: an equal key, the same count
    and, in a table with keys, an equal value. *)
Definition matches (ht1 ht2 : __CFBasicHash) (e1 e2 : entry) : Prop :=
  key_eq (config ht2) (e_key e2) (e_key e1) = true /\ e_count e1 = e_count e2 /\
  (has_keys ht1 = true -> value_eq (config ht1) (e_value e1) (e_value e2) = true).

Lemma equal_block ht1 ht2 sl2 i e1 (b : bool) :
  wf ht2 sl2 -> KeyContract ptrs ce ch (config ht2) -> 0 < e_count e1 ->
  exists r : bool,
    (let* k1 := weak_key (bucket_view i (SLive e1)) in
     let* bkt2 := __CFBasicHashFindBucket ptrs ce ch ci ht2 k1 in
     if negb (count (bucket_view i (SLive e1)) =? count bkt2) then Some (false, false) else
     if has_keys ht1 then
       let* v1 := weak_value (bucket_view i (SLive e1)) in
       let* v2 := weak_value bkt2 in
       if negb (v1 =? v2) && negb (__CFBasicHashTestEqualValue ptrs ce ht1 v1 v2) then Some (false, false)
       else Some (b, true)
     else Some (b, true)) = Some (if r then b else false, r) /\
    (r = true <-> exists e2, e2 ∈ entries sl2 /\ matches ht1 ht2 e1 e2).
Proof.
  intros Hwf HK Hpos. cbn [bucket_view weak_key weak_value count opt_bind].
  destruct (find_count ht2 sl2 (e_key e1) Hwf HK) as (bkt & -> & _ & [(e2 & He2 & Hk & Ek & Ev & Ec & _)|[Ec Hn]]); cbn [opt_bind].
  - rewrite Ec, Ev. cbn [opt_bind]. 
    assert (forall e, e ∈ entries sl2 -> key_eq (config ht2) (e_key e) (e_key e1) = true -> e = e2) as Huniq.
    { intros e He Hke. apply elem_of_entries in He as [b1 Hb1]. apply elem_of_entries in He2 as [b2 Hb2].
      assert (b1 = b2) as ->; [|congruence]. apply (wf_unique _ _ _ _ _ _ Hwf b1 b2 e e2 Hb1 Hb2).
      apply (key_eq_trans ptrs ce ch _ (e_key e1)); [done|by apply (key_eq_sym ptrs ce ch)]. }
    destruct (Z.eqb_spec (e_count e1) (e_count e2)) as [E|E]; cbn [negb].
    + destruct (has_keys ht1) eqn:Ehk.
      * assert (negb (e_value e1 =? e_value e2) && negb (__CFBasicHashTestEqualValue ptrs ce ht1 (e_value e1) (e_value e2)) =
          negb (value_eq (config ht1) (e_value e1) (e_value e2))) as -> by (by rewrite <- negb_orb).
        exists (value_eq (config ht1) (e_value e1) (e_value e2)). split; [by destruct (value_eq _ _ _)|]. split.
        -- intros Hv. exists e2. by split_and!.
        -- intros (e & He & Hke & _ & Hv). rewrite (Huniq e He Hke) in Hv. by apply Hv.
      * exists true. split; [done|]. split; [|done]. intros _. exists e2. split_and!; try done. split_and!; try done. by rewrite Ehk.
    + exists false. split; [done|]. split; [done|]. intros (e & He & Hke & Hc & _). by rewrite (Huniq e He Hke) in Hc.
  - rewrite Ec. rewrite (proj2 (Z.eqb_neq (e_count e1) 0)) by lia. exists false. split; [done|]. split; [done|].
    intros (e & He & Hke & _). by rewrite (Hn e He) in Hke.
Qed.

Lemma equal_fold ht1 ht2 sl1 sl2 i :
  wf ht2 sl2 -> KeyContract ptrs ce ch (config ht2) -> (forall e, e ∈ entries sl1 -> 0 < e_count e) ->
  exists r : bool,
    fold_block (fun equal bkt1 =>
      let* k1 := weak_key bkt1 in
      let* bkt2 := __CFBasicHashFindBucket ptrs ce ch ci ht2 k1 in
      if negb (count bkt1 =? count bkt2) then Some (false, false) else
      if has_keys ht1 then
        let* v1 := weak_value bkt1 in
        let* v2 := weak_value bkt2 in
        if negb (v1 =? v2) && negb (__CFBasicHashTestEqualValue ptrs ce ht1 v1 v2) then Some (false, false)
        else Some (equal, true)
      else Some (equal, true)) true (live_buckets i sl1) = Some r /\
    (r = true <-> forall e1, e1 ∈ entries sl1 -> exists e2, e2 ∈ entries sl2 /\ matches ht1 ht2 e1 e2).
Proof.
  intros Hwf HK. revert i. induction sl1 as [|x sl1 IH]; intros i Hpos.
  - exists true. split; [done|]. split; [|done]. intros _ e He. by apply not_elem_of_nil in He.
  - rewrite entries_cons in Hpos |- *. destruct x as [| |e]; [by apply IH..|]. cbn [live_buckets fold_block].
    destruct (equal_block ht1 ht2 sl2 i e true Hwf HK) as (r & -> & Hr); [apply Hpos; set_solver|]. cbn [opt_bind].
    destruct r.
    + destruct (IH (S i)) as (r & -> & Hr'); [intros e' He'; apply Hpos; set_solver|]. exists r. split; [done|].
      rewrite Hr'. simpl. split.
      * intros H e' He'. apply elem_of_cons in He' as [->|He']; [by apply Hr|by apply H].
      * intros H e' He'. apply H. set_solver.
    + exists false. split; [done|]. split; [done|]. intros H. destruct Hr as [_ Hr]. apply Hr, H. simpl. set_solver.
Qed.

Lemma NoDup_entries c sl : unique_keys ptrs ce c sl -> NoDup (entries sl).
Proof.
  induction sl as [|x sl IH]; intros Hu; [constructor|]. rewrite entries_cons.
  assert (NoDup (entries sl)) as Hnd.
  { apply IH. intros b b' e e' Hb Hb' E. specialize (Hu (S b) (S b') e e' Hb Hb' E). lia. }
  destruct x as [| |e]; [done|done|]. simpl. constructor; [|done]. intros He. apply elem_of_entries in He as [b Hb].
  pose proof (Hu 0%nat (S b) e e eq_refl Hb (key_eq_refl _ _ _ _)). lia.
Qed.

(** Partners of the elements of one list in another. *)
Lemma partners {A} (R : A -> A -> Prop) (l1 l2 : list A) :
  NoDup l1 -> (forall x x' y, x ∈ l1 -> x' ∈ l1 -> y ∈ l2 -> R x y -> R x' y -> x = x') ->
  (forall x, x ∈ l1 -> exists y, y ∈ l2 /\ R x y) -> exists l2a rest, l2 ≡ₚ l2a ++ rest /\ Forall2 R l1 l2a.
Proof.
  revert l2. induction l1 as [|x l1 IH]; intros l2 Hnd Hinj Hex; [by exists [], l2|].
  apply NoDup_cons in Hnd as [Hx Hnd]. destruct (Hex x) as (y & Hy & Hxy); [set_solver|].
  apply list_elem_of_split in Hy as (la & lb & ->).
  destruct (IH (la ++ lb) Hnd) as (l2a & rest & Hp & Hf).
  - intros x1 x2 y' H1 H2 Hy' R1 R2. apply (Hinj x1 x2 y'); set_solver.
  - intros x' Hx'. destruct (Hex x') as (y' & Hy' & Hxy'); [set_solver|]. exists y'. split; [|done].
    apply elem_of_app in Hy' as [Hy'|Hy']; [set_solver|]. apply elem_of_cons in Hy' as [->|Hy']; [|set_solver].
    exfalso. apply Hx. by rewrite (Hinj x x' y) by set_solver.
  - exists (y :: l2a), rest. split; [|by constructor]. rewrite <- Permutation_middle, Hp. done.
Qed.

Lemma sum_of_pos_nil {A} (f : A -> Z) l : (forall x, x ∈ l -> 0 < f x) -> sum_of f l = 0 -> l = [].
Proof.
  destruct l as [|x l]; [done|]. intros H E. simpl in E. pose proof (H x ltac:(set_solver)).
  pose proof (sum_of_nonneg f l ltac:(intros y Hy; pose proof (H y ltac:(set_solver)); lia)) as Hn. unfold sum_of in *. lia.
Qed.

Lemma sum_of_Forall2 {A} (R : A -> A -> Prop) (f : A -> Z) l l' :
  (forall x y, R x y -> f x = f y) -> Forall2 R l l' -> sum_of f l = sum_of f l'.
Proof. intros H. unfold sum_of. induction 1 as [|x y l l' Hxy _ IH]; [done|]. simpl. by rewrite (H x y Hxy), IH. Qed.

(** C31: two tables are equal exactly when they hold the same map.  For tables
    that compare keys the same way, [CFBasicHashesAreEqual] returns true when
    every entry of either has its match in the other (an equal key, the same
    count and, with keys, an equal value), and false otherwise. *)
Theorem CFBasicHashesAreEqual_decides_map_equality (ht1 ht2 : __CFBasicHash) (sl1 sl2 : list slot) :
  wf ht1 sl1 -> wf ht2 sl2 -> KeyContract ptrs ce ch (config ht1) -> KeyContract ptrs ce ch (config ht2) ->
  (forall a b, key_eq (config ht1) a b = key_eq (config ht2) a b) ->
  total (entries sl1) <= INT64_MAX -> total (entries sl2) <= INT64_MAX ->
  exists r : bool, CFBasicHashesAreEqual ptrs ce ch ci ht1 ht2 = Some r /\
    (r = true <->
      (forall e1, e1 ∈ entries sl1 -> exists e2, e2 ∈ entries sl2 /\ matches ht1 ht2 e1 e2) /\
      (forall e2, e2 ∈ entries sl2 -> exists e1, e1 ∈ entries sl1 /\ matches ht1 ht2 e1 e2)).
Proof.
  intros Hwf1 Hwf2 HK1 HK2 Hkeys Ht1 Ht2. unfold CFBasicHashesAreEqual.
  rewrite (hash_get_count_spec ht1 sl1), (hash_get_count_spec ht2 sl2) by done. cbn [opt_bind].
  assert (forall ht sl, wf ht sl -> forall e, e ∈ entries sl -> 0 < e_count e) as Hpos.
  { intros ht sl Hwf e He. pose proof (entry_count_range ht sl e (wf_rep _ _ _ _ _ _ Hwf) He). lia. }
  assert (forall ht sl, wf ht sl -> 0 <= total (entries sl)) as Hnn.
  { intros ht sl Hwf. apply sum_of_nonneg. intros e He. pose proof (Hpos ht sl Hwf e He). lia. }
  pose proof (Hnn ht1 sl1 Hwf1). pose proof (Hnn ht2 sl2 Hwf2).
  rewrite !swrap_id by (unfold in_signed, INT64_MAX in *; lia).
  set (P1 := forall e1, e1 ∈ entries sl1 -> _). set (P2 := forall e2, e2 ∈ entries sl2 -> _).
  assert (P1 -> (total (entries sl1) = total (entries sl2) <-> P2)) as Hcount.
  { intros H1. destruct (partners (matches ht1 ht2) (entries sl1) (entries sl2)) as (l2a & rest & Hp & Hf);
      [by apply (NoDup_entries (config ht1)), Hwf1| |done|].
    { intros x x' y Hx Hx' _ (K1 & _) (K2 & _). apply elem_of_entries in Hx as [b Hb], Hx' as [b' Hb'].
      assert (b = b') as ->; [|congruence]. apply (wf_unique _ _ _ _ _ _ Hwf1 b b' x x' Hb Hb'). rewrite Hkeys.
      apply (key_eq_trans ptrs ce ch _ (e_key y)); [by apply (key_eq_sym ptrs ce ch)|done]. }
    assert (total (entries sl2) = total (entries sl1) + total rest) as Hsum.
    { unfold total. rewrite (sum_of_Permutation _ _ _ Hp), sum_of_app.
      rewrite (sum_of_Forall2 (matches ht1 ht2) e_count (entries sl1) l2a); [done| |done]. by intros x y (_ & -> & _). }
    split.
    - intros E. assert (rest = []) as ->.
      { apply (sum_of_pos_nil e_count); [|unfold total in *; lia]. intros x Hx. apply (Hpos ht2 sl2 Hwf2). rewrite Hp. set_solver. }
      rewrite app_nil_r in Hp. intros e2 He2. rewrite Hp in He2. apply list_elem_of_lookup in He2 as [i Hi].
      destruct (Forall2_lookup_r _ _ _ _ _ Hf Hi) as (e1 & He1 & Hm). exists e1. split; [by eapply list_elem_of_lookup_2|done].
    - intros H2. assert (rest = []) as ->; [|unfold total in *; simpl in *; lia].
      destruct rest as [|y rest]; [done|exfalso]. destruct (H2 y) as (e1 & He1 & Hm); [rewrite Hp; set_solver|].
      apply list_elem_of_lookup in He1 as [i Hi]. destruct (Forall2_lookup_l _ _ _ _ _ Hf Hi) as (y' & Hy' & Hm').
      pose proof (NoDup_entries _ _ (wf_unique _ _ _ _ _ _ Hwf2)) as Hnd. rewrite Hp in Hnd.
      assert (y = y') as ->.
      { assert (y ∈ entries sl2) as Hy by (rewrite Hp; set_solver).
        assert (y' ∈ entries sl2) as Hy2 by (rewrite Hp; apply elem_of_app; left; by eapply list_elem_of_lookup_2).
        apply elem_of_entries in Hy as [b Hb], Hy2 as [b' Hb'].
        assert (b = b') as ->; [|congruence]. apply (wf_unique _ _ _ _ _ _ Hwf2 b b' y y' Hb Hb').
        apply (key_eq_trans ptrs ce ch _ (e_key e1)); [apply Hm|apply (key_eq_sym ptrs ce ch); apply Hm']. }
      apply NoDup_app in Hnd as (_ & Hnd & _). apply (Hnd y'); [by eapply list_elem_of_lookup_2|set_solver]. }
  destruct (Z.eqb_spec (total (entries sl1)) (total (entries sl2))) as [E|E]; cbn [negb].
  2:{ exists false. split; [done|]. split; [done|]. intros [H1 H2]. by apply Hcount in H2. }
  destruct (Z.eqb_spec 0 (total (entries sl1))) as [E0|E0].
  - exists true. split; [done|]. split; [|done]. intros _.
    assert (entries sl1 = []) as Hn1 by (apply (sum_of_pos_nil e_count); [by apply (Hpos ht1)|unfold total in *; lia]).
    assert (P1) as H1 by (unfold P1; rewrite Hn1; intros e He; by apply not_elem_of_nil in He).
    split; [done|]. by apply (Hcount H1).
  - rewrite (apply_spec ht1 sl1) by done.
    destruct (equal_fold ht1 ht2 sl1 sl2 0 Hwf2 HK2 (Hpos ht1 sl1 Hwf1)) as (r & -> & Hr). exists r. split; [done|].
    rewrite Hr. split; [|by intros [H1 _]]. intros H1. split; [done|]. by apply (Hcount H1).
Qed.

End Queries.

(** ** Instances *)

(** A bag of two 5s and a 9 in a table of three buckets. *)
Definition example_slots : list slot := [SLive (mkEntry 9 9 1); SEmpty; SLive (mkEntry 5 5 2)].
Definition example_bag : __CFBasicHash :=
  mkHash 0 (mkConfig 1 0 1 0 0 0 0 0 0 0 0 0 0 0 0 0 0 0 0 0 0 0) 1 0 2 0 1 0 0 [9; 0; 5] [] [1; 0; 2].

Lemma example_bag_wf : wf example_ptrs (fun _ => Z.eqb) (fun _ k => k) (fun _ k => k) example_bag example_slots.
Proof.
  assert (forall b e, example_slots !! b = Some (SLive e) -> b = 0%nat /\ e = mkEntry 9 9 1 \/ b = 2%nat /\ e = mkEntry 5 5 2) as Hsl.
  { intros [|[|[|b]]] e; simpl; intros H; try done; injection H as <-; auto. }
  constructor; try done.
  - constructor; try done.
    + repeat (apply Forall_cons; split; [done || (split_and!; [done|done|done|vm_compute; done..])|]). constructor.
    + split; [simpl; lia|by left].
  - intros b e Hb. destruct (Hsl b e Hb) as [[-> ->]|[-> ->]]; exists 0%nat; split_and!; (simpl; lia) || done || (intros; lia).
  - intros b b' e e' Hb Hb'. destruct (Hsl b e Hb) as [[-> ->]|[-> ->]], (Hsl b' e' Hb') as [[-> ->]|[-> ->]]; done.
Qed.

Lemma example_bag_contract : KeyContract example_ptrs (fun _ => Z.eqb) (fun _ k => k) (config example_bag).
Proof. by apply pointer_keys_contract. Qed.

Lemma CFBasicHash_queries_answer_witness :
  plain 5 /\
  CFBasicHashGetCountOfKey example_ptrs (fun _ => Z.eqb) (fun _ k => k) (fun _ k => k) example_bag 5 =
    Some (count_of_key example_ptrs (fun _ => Z.eqb) (config example_bag) 5 (entries example_slots)).
Proof.
  split; [done|].
  apply (CFBasicHash_queries_answer example_ptrs (fun _ => Z.eqb) (fun _ k => k) (fun _ k => k) example_bag example_slots 5 5);
    [apply example_bag_wf|apply example_bag_contract|done|done].
Defined.

Lemma CFBasicHashGetElements_lists_entries_witness :
  CFBasicHashGetElements example_ptrs (fun _ k => k) example_bag (Z.of_nat 4) (Some [0; 0; 0; 7]) None =
    Some (fill (Some [0; 0; 0; 7]) 0 (e_value <$> take 4 (occurrences (entries example_slots))),
          fill None 0 (e_key <$> take 4 (occurrences (entries example_slots)))).
Proof.
  apply (CFBasicHashGetElements_lists_entries example_ptrs (fun _ => Z.eqb) (fun _ k => k) (fun _ k => k) example_bag example_slots 4);
    [apply example_bag_wf|simpl; lia|done].
Defined.

Lemma CFBasicHash_fast_enumeration_complete_witness :
  enumerate_all example_ptrs (fun _ k => k) (S (length (entries example_slots))) example_bag (mkEnumeration 0 false []) [0] (Z.of_nat 1) =
    Some (e_key <$> entries example_slots).
Proof.
  apply (CFBasicHash_fast_enumeration_complete example_ptrs (fun _ => Z.eqb) (fun _ k => k) (fun _ k => k) example_bag example_slots [0] 1);
    [apply example_bag_wf|simpl; lia].
Defined.

Lemma CFBasicHashesAreEqual_decides_map_equality_witness :
  exists r : bool,
    CFBasicHashesAreEqual example_ptrs (fun _ => Z.eqb) (fun _ k => k) (fun _ k => k) example_bag example_bag = Some r /\
    (r = true <->
      (forall e1, e1 ∈ entries example_slots -> exists e2, e2 ∈ entries example_slots /\
         matches example_ptrs (fun _ => Z.eqb) example_bag example_bag e1 e2) /\
      (forall e2, e2 ∈ entries example_slots -> exists e1, e1 ∈ entries example_slots /\
         matches example_ptrs (fun _ => Z.eqb) example_bag example_bag e1 e2)).
Proof.
  apply (CFBasicHashesAreEqual_decides_map_equality example_ptrs (fun _ => Z.eqb) (fun _ k => k) (fun _ k => k));
    [apply example_bag_wf|apply example_bag_wf|apply example_bag_contract|apply example_bag_contract|done|vm_compute; done|vm_compute; done].
Defined.
