(* ===== verification/CFBasicHashCreate.v ===== *)
(** * CFBasicHashCreate: new tables, copies and numbered tables

    The registry that shares the callbacks of all tables, the table a creation
    returns, the copy of a table, and the tables whose values number their keys
    (the two operations that renumber them). *)

From S2P Require Import Prelude CFInternal CFBasicHash CFBasicHashProbe CFBasicHashTable CFBasicHashQueries.
From stdpp Require Import base list numbers option sets.
From Stdlib Require Import ZArith Lia.
Open Scope Z_scope.
Open Scope cf_scope.

(** ** The registry *)

Definition registry_ok (reg : callback_registry) : Prop :=
  length (CFBasicHashCallBackPtrs reg) = 1024%nat /\ 0 <= CFBasicHashCallBackPtrsCount reg <= 1001.

(** Registrations add pointers and never move one. *)
Definition extends (reg reg' : callback_registry) : Prop :=
  registry_ok reg' /\ CFBasicHashCallBackPtrsCount reg <= CFBasicHashCallBackPtrsCount reg' /\
  forall i, 0 <= i < CFBasicHashCallBackPtrsCount reg ->
    rd (CFBasicHashCallBackPtrs reg') i = rd (CFBasicHashCallBackPtrs reg) i.

(** The index [i] stands for the pointer [p]. *)
Definition registered (reg : callback_registry) (i p : Z) : Prop :=
  0 <= i < CFBasicHashCallBackPtrsCount reg /\ rd (CFBasicHashCallBackPtrs reg) i = Some p.

Lemma extends_refl reg : registry_ok reg -> extends reg reg.
Proof. intros H. by split_and!. Qed.

Lemma extends_trans reg1 reg2 reg3 : extends reg1 reg2 -> extends reg2 reg3 -> extends reg1 reg3.
Proof.
  intros (_ & H1 & H2) (Hok & H3 & H4). split_and!; [done|lia|].
  intros i Hi. rewrite H4 by lia. by apply H2.
Qed.

Lemma registered_extends reg reg' i p : extends reg reg' -> registered reg i p -> registered reg' i p.
Proof. intros (_ & H1 & H2) (Hi & E). split; [lia|]. by rewrite H2. Qed.

Lemma registered_cb_ptr reg i p : registered reg i p -> cb_ptr (CFBasicHashCallBackPtrs reg) i = p.
Proof.
  intros (Hi & E). unfold cb_ptr. rewrite rd_lookup in E by lia. by apply nth_lookup_Some.
Qed.

Lemma find_ptr_spec ptrs p rest i :
  0 <= i -> i + Z.of_nat rest <= Z.of_nat (length ptrs) ->
  exists r, find_ptr ptrs p rest i = Some r /\
    forall j, r = Some j -> i <= j < i + Z.of_nat rest /\ rd ptrs j = Some p.
Proof.
  revert i. induction rest as [|rest IH]; intros i Hi Hl; simpl; [by exists None|].
  destruct (rd_Some ptrs i) as [q E]; [lia|]. rewrite E. simpl. destruct (Z.eqb_spec q p) as [->|].
  - exists (Some i). split; [done|]. intros j [= <-]. split; [lia|done].
  - destruct (IH (i + 1)) as (r & Er & Hr); [lia|lia|]. exists r. split; [done|]. intros j Hj. destruct (Hr j Hj). split; [lia|done].
Qed.

Lemma get_ptr_index reg p :
  registry_ok reg -> CFBasicHashCallBackPtrsCount reg <= 1000 ->
  exists reg' i, CFBasicHashGetPtrIndex reg p = Some (reg', i) /\ extends reg reg' /\ registered reg' i p /\
    CFBasicHashCallBackPtrsCount reg' <= CFBasicHashCallBackPtrsCount reg + 1.
Proof.
  intros [Hl Hc] Hmax. unfold CFBasicHashGetPtrIndex.
  destruct (find_ptr_spec (CFBasicHashCallBackPtrs reg) p (Z.to_nat (CFBasicHashCallBackPtrsCount reg)) 0) as (r & -> & Hr); [lia|lia|].
  cbn [opt_bind]. destruct r as [j|].
  - destruct (Hr j eq_refl) as [Hj E]. exists reg, j. split_and!; [done|by apply extends_refl|split; [lia|done]|lia].
  - rewrite (proj2 (Z.ltb_ge 1000 _)) by lia. rewrite Z.add_simpl_r.
    destruct (wr_rd (CFBasicHashCallBackPtrs reg) (CFBasicHashCallBackPtrsCount reg) p) as (ptrs' & -> & Hl' & Hrd); [lia|].
    cbn [opt_bind]. eexists _, _. split_and!; [done| |split; simpl; [lia|]|simpl; lia].
    + split_and!; simpl; [split; simpl; lia|lia|]. intros i Hi. rewrite Hrd by lia. by rewrite (proj2 (Z.eqb_neq i _)) by lia.
    + rewrite Hrd by lia. by rewrite Z.eqb_refl.
Qed.

(** ** Creation *)

(** The flags of a table: its style, whether it has keys and counts, whether
    keys are found through values, whether it grows fast. *)
Definition table_flags (style : Z) (with_keys with_counts indirect growth : bool) : Z :=
  Z.lor (Z.shiftl style 13)
    (Z.lor (if with_keys then kCFBasicHashHasKeys else 0)
      (Z.lor (if with_counts then kCFBasicHashHasCounts else 0)
        (Z.lor (if indirect then kCFBasicHashIndirectKeys else 0) (if growth then kCFBasicHashAggressiveGrowth else 0)))).

(** The callbacks of a table are the ones its creator gave. *)
Definition has_callbacks (ptrs : list Z) (c : hash_config) (cb : CFBasicHashCallbacks) : Prop :=
  cb_ptr ptrs (__kret c) = retainKey cb /\ cb_ptr ptrs (__vret c) = retainValue cb /\
  cb_ptr ptrs (__krel c) = releaseKey cb /\ cb_ptr ptrs (__vrel c) = releaseValue cb /\
  cb_ptr ptrs (__kequ c) = equateKeys cb /\ cb_ptr ptrs (__vequ c) = equateValues cb /\
  cb_ptr ptrs (__khas c) = hashKey cb /\ cb_ptr ptrs (__kget c) = getIndirectKey cb /\
  cb_ptr ptrs (__kdes c) = copyKeyDescription cb /\ cb_ptr ptrs (__vdes c) = copyValueDescription cb.

(** The parts of a creation. *)
Lemma hash_create_spec reg style wk wc ind growth cb :
  registry_ok reg -> CFBasicHashCallBackPtrsCount reg <= 990 -> 1 <= style <= 3 -> wk && ind = false ->
  exists reg' ht, CFBasicHashCreate reg (table_flags style wk wc ind growth) cb = Some (reg', ht) /\ extends reg reg' /\
    (forall reg'', extends reg' reg'' -> has_callbacks (CFBasicHashCallBackPtrs reg'') (config ht) cb) /\
    hash_style (config ht) = style /\ has_keys ht = wk /\ has_counts ht = wc /\ negb (indirect_keys (config ht) =? 0) = ind /\
    negb (fast_grow (config ht) =? 0) = growth /\ CFBasicHashIsMutable ht = true /\ null_rc ht = 0 /\ mutations ht = 1 /\
    CFBasicHashGetFlags ht = table_flags style wk wc false growth /\
    (forall ptrs ce ch ci, wf ptrs ce ch ci ht []).
Proof.
  intros Hreg Hc Hs Hki. unfold CFBasicHashCreate.
  assert (style = 1 \/ style = 2 \/ style = 3) as Hst by lia.
  match goal with |- context [if ?b then None else _] => assert (b = false) as -> by
    (destruct Hst as [->|[->| ->]]; destruct wk, wc, ind, growth; vm_compute; done) end. cbv zeta.
  destruct (get_ptr_index reg (retainKey cb) Hreg ltac:(lia)) as (r1 & i1 & -> & X1 & R1 & C1). cbn [opt_bind].
  destruct (get_ptr_index r1 (retainValue cb) (proj1 X1) ltac:(lia)) as (r2 & i2 & -> & X2 & R2 & C2). cbn [opt_bind].
  destruct (get_ptr_index r2 (releaseKey cb) (proj1 X2) ltac:(lia)) as (r3 & i3 & -> & X3 & R3 & C3). cbn [opt_bind].
  destruct (get_ptr_index r3 (releaseValue cb) (proj1 X3) ltac:(lia)) as (r4 & i4 & -> & X4 & R4 & C4). cbn [opt_bind].
  destruct (get_ptr_index r4 (copyKeyDescription cb) (proj1 X4) ltac:(lia)) as (r5 & i5 & -> & X5 & R5 & C5). cbn [opt_bind].
  destruct (get_ptr_index r5 (copyValueDescription cb) (proj1 X5) ltac:(lia)) as (r6 & i6 & -> & X6 & R6 & C6). cbn [opt_bind].
  destruct (get_ptr_index r6 (equateKeys cb) (proj1 X6) ltac:(lia)) as (r7 & i7 & -> & X7 & R7 & C7). cbn [opt_bind].
  destruct (get_ptr_index r7 (equateValues cb) (proj1 X7) ltac:(lia)) as (r8 & i8 & -> & X8 & R8 & C8). cbn [opt_bind].
  destruct (get_ptr_index r8 (hashKey cb) (proj1 X8) ltac:(lia)) as (r9 & i9 & -> & X9 & R9 & C9). cbn [opt_bind].
  destruct (get_ptr_index r9 (getIndirectKey cb) (proj1 X9) ltac:(lia)) as (r10 & i10 & -> & X10 & R10 & C10). cbn [opt_bind].
  eexists r10, _. split; [done|]. split; [by eauto 10 using extends_trans|].
  split; [intros reg'' X; split_and!; apply registered_cb_ptr; simpl; eauto 12 using registered_extends, extends_trans|].
  split_and!; try done; try (destruct Hst as [->|[->| ->]]; destruct wk, wc, ind, growth; vm_compute; done).
  intros ptrs ce ch ci. apply wf_empty; try done; [|by left|by left]. split.
  - destruct Hst as [->|[->| ->]]; destruct wk, wc, ind, growth; vm_compute; split; discriminate.
  - destruct Hst as [->|[->| ->]]; destruct wk, wc, ind, growth; try done; vm_compute; auto.
Qed.

(** ** Copies *)

Section Copy.
Context (ptrs : list Z) (cr : Z -> Z -> Z) (ce : Z -> Z -> Z -> bool) (ch ci : Z -> Z -> Z).

Notation wf := (wf ptrs ce ch ci).
Notation rep := (rep ptrs ci).

(** What the copy stores for an entry, and for a slot. *)
Definition copied (o : __CFBasicHash) (e : entry) : entry := stored_entry ptrs cr ci o (e_key e) (e_value e) (e_count e).
Definition copied_slot (o : __CFBasicHash) (s : slot) : slot := match s with SLive e => SLive (copied o e) | _ => s end.

(** What the retain callbacks owe the copy. *)
Definition copy_ok (o : __CFBasicHash) (e : entry) : Prop :=
  plain (stored_value ptrs cr o (e_value e)) /\ (has_keys o = true -> plain (stored_key ptrs cr o (e_key e))) /\
  key_eq ptrs ce (config o) (e_key (copied o e)) (e_key e) = true.

(** The calls that copying makes. *)
Definition entry_retains (o : __CFBasicHash) (e : entry) : list event := pair_retains ptrs o (e_key e) (e_value e).
Definition slot_retains (o : __CFBasicHash) (s : slot) : list event := match s with SLive e => entry_retains o e | _ => [] end.

Lemma entries_copied o sl : entries (copied_slot o <$> sl) = copied o <$> entries sl.
Proof. induction sl as [|[| |e] sl IH]; [done|exact IH..|]. rewrite fmap_cons, !entries_cons, IH. done. Qed.

Lemma set_value_fresh ht (i : nat) v lit :
  (i < length (values ht))%nat ->
  __CFBasicHashSetValue ptrs ht (Z.of_nat i) v true lit =
    Some (set_arrays ht (<[i := if lit then v else encode v]> (values ht)) (keys ht) (counts ht), []).
Proof.
  intros Hi. unfold __CFBasicHashSetValue, __CFBasicHashGetValues. rewrite io_bind_lift, wr_nat, io_bind_lift by done. done.
Qed.

Lemma set_key_fresh ht (i : nat) k lit :
  has_keys ht = true -> (i < length (keys ht))%nat ->
  __CFBasicHashSetKey ptrs ht (Z.of_nat i) k true lit =
    Some (set_arrays ht (values ht) (<[i := if lit then k else encode k]> (keys ht)) (counts ht), []).
Proof.
  intros Hk Hi. unfold __CFBasicHashSetKey, __CFBasicHashGetKeys, __CFBasicHashSetKeys. rewrite Hk. cbn [negb].
  rewrite io_bind_lift, wr_nat, io_bind_lift by done. done.
Qed.

(** One round of the loop: cell [i] of the new arrays is written. *)
Lemma copy_round o sl ht (i : nat) s :
  rep o sl -> sl !! i = Some s -> config ht = config o -> null_rc ht = null_rc o ->
  (i < length (values ht))%nat -> (has_keys o = true -> (i < length (keys ht))%nat) ->
  exists stack_value, rd (values o) (Z.of_nat i) = Some stack_value /\
  (if negb (stack_value =? 0) && negb (stack_value =? ones) then
     do* v := __CFBasicHashImportValue ptrs cr ht (decode stack_value) in
     do* ht := __CFBasicHashSetValue ptrs ht (Z.of_nat i) v true false in
     if nonnull (if has_keys o then __CFBasicHashGetKeys o else []) then
       do* old_key := io_lift (rd (if has_keys o then __CFBasicHashGetKeys o else []) (Z.of_nat i)) in
       do* k := __CFBasicHashImportKey ptrs cr ht (decode old_key) in
       __CFBasicHashSetKey ptrs ht (Z.of_nat i) k true false
     else io_ret ht
   else
     do* ht := __CFBasicHashSetValue ptrs ht (Z.of_nat i) stack_value true true in
     if nonnull (if has_keys o then __CFBasicHashGetKeys o else []) then __CFBasicHashSetKey ptrs ht (Z.of_nat i) stack_value true true else io_ret ht) =
  Some (set_arrays ht (<[i := cell_value (copied_slot o s)]> (values ht))
          (if has_keys o then <[i := cell_key (copied_slot o s)]> (keys ht) else keys ht) (counts ht),
        slot_retains o s).
Proof.
  intros Hrep Hs Hc Hn Hv Hk. exists (cell_value s).
  split; [exact (rd_values ptrs ci o sl Hrep i s Hs)|].
  assert (has_keys ht = has_keys o) as Ek by (unfold has_keys; by rewrite Hc).
  assert (has_keys o = true -> nonnull (__CFBasicHashGetKeys o) = true) as Hnn.
  { intros E. unfold __CFBasicHashGetKeys. rewrite E, (rep_keys _ _ _ _ Hrep E). by destruct sl. }
  destruct s as [| |e].
  - change (negb (cell_value SEmpty =? 0) && _) with false. cbv iota. rewrite set_value_fresh by done. cbn [io_bind].
    destruct (has_keys o) eqn:E; [|done]. rewrite Hnn, set_key_fresh by auto. done.
  - change (negb (cell_value SDeleted =? 0) && negb (cell_value SDeleted =? ones)) with false. cbv iota. rewrite set_value_fresh by done. cbn [io_bind].
    destruct (has_keys o) eqn:E; [|done]. rewrite Hnn, set_key_fresh by auto. done.
  - cbn [cell_value]. destruct (encode_live (e_value e)) as [-> ->]. cbn [negb andb].
    destruct (slot_ok_live ptrs ci o sl Hrep i e Hs) as (Hpv & Hpk & _). rewrite decode_encode, import_value by done. cbn [io_bind].
    rewrite set_value_fresh by done. cbn [io_bind].
    assert (stored_value ptrs cr ht (e_value e) = stored_value ptrs cr o (e_value e)) as -> by (unfold stored_value; by rewrite Hc, Hn).
    assert (value_retains ptrs ht (e_value e) = value_retains ptrs o (e_value e)) as -> by (unfold value_retains; by rewrite Hc, Hn).
    unfold slot_retains, entry_retains, pair_retains, copied_slot, copied, stored_entry.
    destruct (has_keys o) eqn:E.
    + rewrite Hnn by done. rewrite (rd_keys ptrs ci o sl Hrep i _ E Hs), io_bind_lift. cbn [cell_key].
      rewrite decode_encode, import_key by done. cbn [io_bind].
      rewrite set_key_fresh by (simpl; auto). cbn [io_bind]. rewrite app_nil_r. cbn [cell_key cell_value e_key e_value]. 
      assert (forall h, config h = config o -> null_rc h = null_rc o -> stored_key ptrs cr h (e_key e) = stored_key ptrs cr o (e_key e)) as Hsk
        by (intros h H1 H2; unfold stored_key; by rewrite H1, H2).
      assert (forall h, config h = config o -> null_rc h = null_rc o -> key_retains ptrs h (e_key e) = key_retains ptrs o (e_key e)) as Hkr
        by (intros h H1 H2; unfold key_retains; by rewrite H1, H2).
      rewrite Hsk, Hkr by done. done.
    + cbn [nonnull io_bind io_ret]. done.
Qed.

Lemma hash_copy_loop_spec o sl rest i ht :
  rep o sl -> config ht = config o -> null_rc ht = null_rc o -> (i + rest = length sl)%nat ->
  length (values ht) = length sl -> take i (values ht) = cell_value <$> (copied_slot o <$> take i sl) ->
  (has_keys o = true -> length (keys ht) = length sl /\ take i (keys ht) = cell_key <$> (copied_slot o <$> take i sl)) ->
  exists vs ks, copy_loop ptrs cr (values o) (if has_keys o then __CFBasicHashGetKeys o else []) rest (Z.of_nat i) ht =
      Some (set_arrays ht vs ks (counts ht), concat (entry_retains o <$> entries (drop i sl))) /\
    vs = cell_value <$> (copied_slot o <$> sl) /\ (has_keys o = true -> ks = cell_key <$> (copied_slot o <$> sl)).
Proof.
  intros Hrep. revert i ht. induction rest as [|rest IH]; intros i ht Hc Hn Hi Hlv Hv Hk.
  - exists (values ht), (keys ht). rewrite drop_ge by lia. split; [by destruct ht|].
    rewrite !take_ge in Hv by lia. split; [done|]. intros E. destruct (Hk E) as [Hl Ht]. by rewrite !take_ge in Ht by lia.
  - assert (exists s, sl !! i = Some s) as [s Hs] by (apply lookup_lt_is_Some; lia).
    destruct (copy_round o sl ht i s Hrep Hs Hc Hn) as (sv & Hsv & Hround); [lia|intros E; destruct (Hk E); lia|].
    cbn [copy_loop]. rewrite Hsv, io_bind_lift, Hround. cbn [io_bind]. replace (Z.of_nat i + 1) with (Z.of_nat (S i)) by lia.
    set (ht1 := set_arrays ht _ _ _).
    assert (forall {B} (f : slot -> B) (l : list B), length l = length sl -> take i l = f <$> (copied_slot o <$> take i sl) ->
      take (S i) (<[i := f (copied_slot o s)]> l) = f <$> (copied_slot o <$> take (S i) sl)) as Hstep.
    { intros B f l Hl Ht. rewrite (take_S_r (<[i := _]> l) i (f (copied_slot o s))) by (apply list_lookup_insert_eq; lia).
      rewrite take_insert_ge by lia. rewrite Ht, (take_S_r _ _ _ Hs), !fmap_app. done. }
    destruct (IH (S i) ht1) as (vs & ks & E & Hvs & Hks); try done; try lia.
    + simpl. by rewrite length_insert.
    + by apply Hstep.
    + intros E. destruct (Hk E) as [Hl Ht]. simpl. rewrite E, length_insert. split; [done|]. by apply Hstep.
    + exists vs, ks. rewrite E. cbn [io_bind]. split; [|done]. rewrite (drop_S _ _ _ Hs), entries_cons. destruct s; done.
Qed.

(** A copy of a table is a table of its own with the same map: the same keys
    (up to equality) and the values the retain callback returned, with the same
    counts; each value, and each key in a table with keys, is retained once.
    The copy is mutable and well formed whatever the fresh memory held. *)
Lemma CFBasicHashCreateCopy_copies_map (o : __CFBasicHash) (sl : list slot) (fv fk fc : list Z) :
  KeyContract ptrs ce ch (config o) -> wf o sl -> (forall e, e ∈ entries sl -> copy_ok o e) ->
  length fv = length sl -> length fk = length sl -> length fc = length sl ->
  exists ht, CFBasicHashCreateCopy ptrs cr o fv fk fc = Some (ht, concat (entry_retains o <$> entries sl)) /\
    wf ht (copied_slot o <$> sl) /\ entries (copied_slot o <$> sl) = copied o <$> entries sl /\
    CFBasicHashIsMutable ht = true /\ config ht = config o /\ mutations ht = 1.
Proof.
  intros HK Hwf Hok Hfv Hfk Hfc. pose proof (wf_rep _ _ _ _ _ _ Hwf) as Hrep. unfold CFBasicHashCreateCopy.
  rewrite rd_size, io_bind_lift by apply Hrep. rewrite (rep_size _ _ _ _ Hrep).
  destruct (Z.eqb_spec 0 (Z.of_nat (length sl))) as [E0|E0].
  { destruct sl; [|done]. eexists. split; [done|]. split_and!; try done.
    apply wf_empty; try done; try (apply Hrep); auto.
    - pose proof (rep_size _ _ _ _ Hrep) as Hz. simpl. destruct (decide (num_buckets_idx o = 0)) as [|Hne]; [done|].
      pose proof (size_of_pos (num_buckets_idx o) ltac:(pose proof (rep_idx _ _ _ _ Hrep); lia)). simpl in Hz. lia.
    - apply (wf_used _ _ _ _ _ _ Hwf).
    - apply (wf_deleted _ _ _ _ _ _ Hwf). }
  set (h0 := mkHash 0 _ _ _ _ _ _ _ _ _ _ _).
  assert (forall e, e ∈ entries sl -> slot_ok ptrs ci o (SLive (copied o e))) as Hslots.
  { intros e He. destruct (Hok e He) as (Hv & Hk & _). apply elem_of_entries in He as [b Hb].
    destruct (slot_ok_live ptrs ci o sl Hrep b e Hb) as (_ & _ & Hc). unfold slot_ok, copied, stored_entry. simpl.
    split_and!; [done|destruct (has_keys o); auto|done]. }
  assert (exists ht1, (let ht := __CFBasicHashSetValues h0 fv in
    let ht := if has_keys o then __CFBasicHashSetKeys ht fk else ht in
    if has_counts o then __CFBasicHashSetCounts ht fc else ht) = ht1 /\
    ht1 = set_arrays h0 fv (if has_keys o then fk else []) (if has_counts o then fc else [])) as (ht1 & Hset & Eht1).
  { eexists. split; [done|]. unfold __CFBasicHashSetKeys, __CFBasicHashSetCounts, __CFBasicHashSetValues, set_arrays, has_keys, has_counts.
    simpl. destruct (negb (keys_offset _ =? 0)); simpl; destruct (negb (counts_offset _ =? 0)); done. }
  cbv zeta in Hset |- *. rewrite Hset. rewrite Nat2Z.id.
  destruct (hash_copy_loop_spec o sl (length sl) 0 ht1 Hrep) as (vs & ks & E & Hvs & Hks); try (by rewrite Eht1); try lia.
  { rewrite Eht1. cbn [keys set_arrays]. intros Ek. by rewrite Ek. }
  change (Z.of_nat 0) with 0 in E. unfold __CFBasicHashGetValues. rewrite E. cbn [io_bind]. rewrite drop_0.
  set (ht2 := set_arrays ht1 vs ks (counts ht1)).
  assert (exists cs, (if has_counts o then
      do* cs := io_lift (memmove (__CFBasicHashGetCounts ht2) 0 (__CFBasicHashGetCounts o) 0 (Z.of_nat (length sl))) in
      io_ret (__CFBasicHashSetCounts ht2 cs)
    else io_ret ht2) = io_ret (set_arrays ht1 vs ks cs) /\ (has_counts o = true -> cs = cell_count <$> sl)) as (cs & -> & Hcs).
  { destruct (has_counts o) eqn:Ec; [|by exists (counts ht1)].
    assert (has_counts ht2 = true) as Ec2 by (unfold ht2; rewrite Eht1; exact Ec).
    unfold __CFBasicHashGetCounts, __CFBasicHashSetCounts. rewrite Ec, Ec2.
    assert (length (counts ht2) = length sl) as Hl2 by (unfold ht2; rewrite Eht1; cbn [counts set_arrays]; rewrite ?Ec; done).
    assert (length (counts o) = length sl) as Hlo by (by rewrite (rep_counts _ _ _ _ Hrep Ec), length_fmap).
    rewrite memmove_ok by lia. rewrite io_bind_lift. eexists. split; [reflexivity|]. intros _.
    rewrite drop_0, take_0, drop_ge, app_nil_r, take_ge by lia. apply (rep_counts _ _ _ _ Hrep Ec). }
  cbn [io_bind io_ret]. rewrite app_nil_r. exists (set_arrays ht1 vs ks cs). split; [done|].
  assert (forall x, config (set_arrays ht1 x ks cs) = config o) as Hcfg by (intros x; by rewrite Eht1).
  split; [|split; [apply entries_copied|by rewrite Eht1]].
  assert (length (copied_slot o <$> sl) = length sl) as Hlen by apply length_fmap.
  constructor; rewrite Eht1; simpl; try (rewrite entries_copied, length_fmap); try apply Hwf.
  - constructor; simpl; rewrite ?Hlen; try apply Hrep; try done.
    + intros Ec. rewrite (Hcs Ec), <- list_fmap_compose. apply list_fmap_ext. by intros _ [| |e] _.
    + apply Forall_fmap, Forall_lookup. intros i s Hs. destruct s as [| |e]; [done|done|]. simpl copied_slot.
      apply Hslots, elem_of_entries. eauto.
  - intros b e Hb. rewrite list_lookup_fmap in Hb. destruct (sl !! b) as [[| |e0]|] eqn:Hb0; try done. injection Hb as <-.
    destruct (Hok e0) as (_ & _ & Hk); [apply elem_of_entries; eauto|].
    destruct (wf_chained _ _ _ _ _ _ Hwf b e0 Hb0) as (t & Ht & Et & Hp).
    assert (forall t, bucket_of ptrs ch (config o) (num_buckets_idx o) (e_key (copied o e0)) t =
      bucket_of ptrs ch (config o) (num_buckets_idx o) (e_key e0) t) as Eb by (intros t'; by apply (bucket_of_eq ptrs ce ch)).
    exists t. rewrite Hlen, Eb. split_and!; [done|done|]. intros s' Hs'. rewrite Eb, list_lookup_fmap.
    intros Heq. apply fmap_Some in Heq as ([| |?] & Hx & Hy); try done. by apply (Hp s' Hs').
  - intros b b' e e' Hb Hb'. rewrite list_lookup_fmap in Hb, Hb'.
    destruct (sl !! b) as [[| |e0]|] eqn:Hb0; try done. destruct (sl !! b') as [[| |e0']|] eqn:Hb0'; try done.
    injection Hb as <-. injection Hb' as <-. intros Hk. apply (wf_unique _ _ _ _ _ _ Hwf b b' e0 e0' Hb0 Hb0').
    destruct (Hok e0) as (_ & _ & Hk0); [apply elem_of_entries; eauto|]. destruct (Hok e0') as (_ & _ & Hk0'); [apply elem_of_entries; eauto|].
    apply (key_eq_trans ptrs ce ch _ (e_key (copied o e0))); [by apply (key_eq_sym ptrs ce ch)|].
    by apply (key_eq_trans ptrs ce ch _ (e_key (copied o e0'))).
  - rewrite (wf_deleted _ _ _ _ _ _ Hwf). f_equal. unfold num_deleted. clear. induction sl as [|[| |e] sl IH]; [done| | |];
      rewrite fmap_cons, !filter_cons; simpl; rewrite ?IH; done.
Qed.

End Copy.

(** ** Numbered tables *)

Section Numbered.
Context (ptrs : list Z) (cr : Z -> Z -> Z) (ce : Z -> Z -> Z -> bool) (ch ci : Z -> Z -> Z).

Notation wf := (wf ptrs ce ch ci).
Notation rep := (rep ptrs ci).

(** Entries with other values. *)
Definition revalue (f : Z -> Z) (e : entry) : entry := mkEntry (e_key e) (f (e_value e)) (e_count e).
Definition revalue_slot (f : Z -> Z) (s : slot) : slot := match s with SLive e => SLive (revalue f e) | _ => s end.

(** What the two loops do to a value. *)
Definition moved_up (i v : Z) : Z := if i <=? v then v + 1 else v.
Definition moved_down (i v : Z) : Z := if i <? v then v - 1 else v.

Lemma entries_revalue f sl : entries (revalue_slot f <$> sl) = revalue f <$> entries sl.
Proof. induction sl as [|[| |e] sl IH]; [done|exact IH..|]. rewrite fmap_cons, !entries_cons, IH. done. Qed.

Lemma revalue_lookup f (sl : list slot) (b : nat) e :
  (revalue_slot f <$> sl) !! b = Some (SLive e) -> exists e0, sl !! b = Some (SLive e0) /\ e = revalue f e0.
Proof.
  rewrite list_lookup_fmap. intros H. apply fmap_Some in H as ([| |e0] & Hx & Hy); try done. injection Hy as ->. eauto.
Qed.

Lemma revalue_empty f (sl : list slot) (b : nat) : (revalue_slot f <$> sl) !! b = Some SEmpty -> sl !! b = Some SEmpty.
Proof. rewrite list_lookup_fmap. intros H. by apply fmap_Some in H as ([| |e0] & Hx & Hy). Qed.

Lemma reachable_revalue c i f sl k b :
  reachable ptrs ch c i sl k b -> reachable ptrs ch c i (revalue_slot f <$> sl) k b.
Proof.
  intros (t & Ht & E & Hp). exists t. rewrite length_fmap. split_and!; [done|done|]. intros s Hs He.
  apply (Hp s Hs). by eapply revalue_empty.
Qed.

Lemma absent_revalue c f sl k : absent ptrs ce c sl k -> absent ptrs ce c (revalue_slot f <$> sl) k.
Proof. intros Ha b e Hb. apply revalue_lookup in Hb as (e0 & Hb & ->). exact (Ha b e0 Hb). Qed.

Lemma num_deleted_revalue f sl : num_deleted (revalue_slot f <$> sl) = num_deleted sl.
Proof.
  unfold num_deleted. induction sl as [|[| |e] sl IH]; [done| | |]; rewrite fmap_cons, !filter_cons; simpl; rewrite ?IH; done.
Qed.

Lemma find_result_revalue c i f sl k bkt :
  find_result ptrs ce ch c i sl k bkt -> count bkt = 0 -> (forall b e, sl !! b = Some (SLive e) -> 0 < e_count e) ->
  find_result ptrs ce ch c i (revalue_slot f <$> sl) k bkt.
Proof.
  intros [b e Hb _|b s wk wv Ha Hb Hs Hr|wk wv Ha Hl] Hc Hpos.
  - specialize (Hpos b e Hb). simpl in Hc. lia.
  - apply (find_miss _ _ _ _ _ _ _ b s); [by apply absent_revalue| |done|by apply reachable_revalue].
    rewrite list_lookup_fmap, Hb. by destruct s.
  - apply find_full; [by apply absent_revalue|]. by rewrite entries_revalue, !length_fmap.
Qed.

Lemma wf_revalue ht ht' sl f :
  wf ht sl -> rep ht' (revalue_slot f <$> sl) -> config ht' = config ht -> num_buckets_idx ht' = num_buckets_idx ht ->
  used_buckets ht' = used_buckets ht -> deleted ht' = deleted ht -> wf ht' (revalue_slot f <$> sl).
Proof.
  intros Hwf Hrep Hc Hi Hu Hd.
  constructor; rewrite ?Hc, ?Hi, ?Hu, ?Hd, ?entries_revalue, ?length_fmap, ?num_deleted_revalue; try apply Hwf; [done|..].
  - intros b e Hb. apply revalue_lookup in Hb as (e0 & Hb & ->). apply reachable_revalue. exact (wf_chained _ _ _ _ _ _ Hwf b e0 Hb).
  - intros b b' e e' Hb Hb'. apply revalue_lookup in Hb as (e0 & Hb & ->), Hb' as (e0' & Hb' & ->).
    exact (wf_unique _ _ _ _ _ _ Hwf b b' e0 e0' Hb Hb').
Qed.

(** One value of a table with keys is overwritten. *)
Lemma write_value ht sl (b : nat) e w :
  rep ht sl -> has_keys ht = true -> sl !! b = Some (SLive e) -> plain w -> 0 <= w < 2 ^ 64 ->
  __CFBasicHashSetValue ptrs ht (Z.of_nat b) w true false =
    Some (set_arrays ht (<[b := encode w]> (values ht)) (keys ht) (counts ht), []) /\
  rep (set_arrays ht (<[b := encode w]> (values ht)) (keys ht) (counts ht)) (<[b := SLive (mkEntry (e_key e) w (e_count e))]> sl).
Proof.
  intros Hrep Hk Hb Hw _. split.
  - apply set_value_fresh. rewrite (rep_values _ _ _ _ Hrep), length_fmap. by eapply lookup_lt_Some.
  - destruct (slot_ok_live ptrs ci ht sl Hrep b e Hb) as (_ & Hpk & Hpc).
    apply (rep_update ptrs ci ht _ sl b _ (SLive e) Hrep Hb); try done.
    + intros _. simpl. symmetry. apply list_insert_id. by rewrite (rep_keys _ _ _ _ Hrep Hk), list_lookup_fmap, Hb.
    + intros Ec. simpl. symmetry. apply list_insert_id. by rewrite (rep_counts _ _ _ _ Hrep Ec), list_lookup_fmap, Hb.
    + simpl. pose proof (rep_width _ _ _ _ Hrep). lia.
    + split_and!; [done| |exact Hpc]. simpl. change (has_keys (set_arrays _ _ _ _)) with (has_keys ht). by rewrite Hk in Hpk |- *.
Qed.

(** A slot list whose first [i] slots have new values. *)
Definition partly (f : Z -> Z) (i : nat) (sl : list slot) : list slot := (revalue_slot f <$> take i sl) ++ drop i sl.

Lemma partly_lookup f i sl s : sl !! i = Some s -> partly f i sl !! i = Some s.
Proof.
  intros H. unfold partly. pose proof (lookup_lt_Some _ _ _ H).
  rewrite lookup_app_r by (rewrite length_fmap, length_take; lia). rewrite length_fmap, length_take, Nat.min_l by lia.
  rewrite lookup_drop, <- H. f_equal. lia.
Qed.

Lemma partly_step f i sl s : sl !! i = Some s -> partly f (S i) sl = <[i := revalue_slot f s]> (partly f i sl).
Proof.
  intros H. unfold partly. pose proof (lookup_lt_Some _ _ _ H).
  rewrite (take_S_r _ _ _ H), fmap_app, <- (assoc_L (++)). symmetry.
  rewrite insert_app_r_alt by (rewrite length_fmap, length_take; lia). rewrite length_fmap, length_take, Nat.min_l, Nat.sub_diag by lia.
  rewrite (drop_S _ _ _ H). done.
Qed.

Lemma inc_loop_spec (iv : Z) sl rest i ht :
  rep ht (partly (moved_up iv) i sl) -> has_keys ht = true -> (i + rest = length sl)%nat ->
  (forall e, e ∈ entries sl -> 0 <= e_value e < max_entries) ->
  exists m vs, inc_loop ptrs iv rest (Z.of_nat i) ht = Some (set_mutations (set_arrays ht vs (keys ht) (counts ht)) m, []) /\
    rep (set_mutations (set_arrays ht vs (keys ht) (counts ht)) m) (revalue_slot (moved_up iv) <$> sl).
Proof.
  revert i ht. induction rest as [|rest IH]; intros i ht Hrep Hk Hi Hv.
  - exists (mutations ht), (values ht). unfold partly in Hrep. rewrite take_ge, drop_ge, app_nil_r in Hrep by lia. by destruct ht.
  - assert (exists s, sl !! i = Some s) as [s Hs] by (apply lookup_lt_is_Some; lia).
    cbn [inc_loop]. rewrite (is_free ptrs ci ht _ Hrep i s (partly_lookup _ _ _ _ Hs)), io_bind_lift.
    replace (Z.of_nat i + 1) with (Z.of_nat (S i)) by lia. pose proof (partly_step (moved_up iv) i sl s Hs) as Hps.
    assert (revalue_slot (moved_up iv) s = s -> rep ht (partly (moved_up iv) (S i) sl)) as Hsame.
    { intros E. rewrite Hps, E, list_insert_id; [done|]. by apply partly_lookup. }
    destruct s as [| |e]; [cbn [is_live negb io_bind io_ret app]..|].
    + destruct (IH (S i) ht) as (m & vs & -> & Hr); [by apply Hsame|done|lia|done|]. by exists m, vs.
    + destruct (IH (S i) ht) as (m & vs & -> & Hr); [by apply Hsame|done|lia|done|]. by exists m, vs.
    + cbn [is_live negb]. rewrite (get_value ptrs ci ht _ Hrep i e (partly_lookup _ _ _ _ Hs)), io_bind_lift.
      pose proof (Hv e ltac:(apply elem_of_entries; eauto)) as Hev. unfold max_entries in Hev.
      destruct (Z.leb_spec iv (e_value e)) as [Hle|Hgt].
      * rewrite uwrap_id by (unfold in_unsigned; lia).
        destruct (write_value ht _ i e (e_value e + 1) Hrep Hk (partly_lookup _ _ _ _ Hs)) as [E Hr1];
          [unfold plain, __CFBasicHashSubABZero, __CFBasicHashSubABOne; lia|lia|].
        rewrite E. cbn [io_bind io_ret]. set (ht1 := bump_mutations _).
        destruct (IH (S i) ht1) as (m & vs & -> & Hr); [|done|lia|done|by exists m, vs].
        rewrite Hps. simpl revalue_slot. unfold revalue, moved_up. rewrite (proj2 (Z.leb_le _ _)) by lia.
        by apply (rep_frame ptrs ci (set_arrays ht (<[i := encode (e_value e + 1)]> (values ht)) (keys ht) (counts ht))).
      * cbn [io_bind io_ret]. destruct (IH (S i) ht) as (m & vs & -> & Hr); [|done|lia|done|by exists m, vs].
        apply Hsame. simpl. unfold revalue, moved_up. rewrite (proj2 (Z.leb_gt _ _)) by lia. by destruct e.
Qed.

Lemma dec_loop_spec (iv : Z) sl (b : option nat) rest i bkt ht :
  rep ht (partly (moved_down iv) i sl) -> has_keys ht = true -> (i + rest = length sl)%nat -> 0 <= iv ->
  (forall e, e ∈ entries sl -> 0 <= e_value e < max_entries) ->
  (forall j e, sl !! j = Some (SLive e) -> e_value e = iv <-> b = Some j) ->
  exists m vs, dec_loop ptrs iv rest (Z.of_nat i) bkt ht =
      Some (set_mutations (set_arrays ht vs (keys ht) (counts ht)) m,
            match b with Some j => if decide (i <= j < length sl)%nat then
              match sl !! j with Some (SLive _) => Z.of_nat j | _ => bkt end else bkt | None => bkt end, []) /\
    rep (set_mutations (set_arrays ht vs (keys ht) (counts ht)) m) (revalue_slot (moved_down iv) <$> sl).
Proof.
  intros Hrep Hk Hi Hiv Hv Hb. revert i bkt ht Hrep Hk Hi. induction rest as [|rest IH]; intros i bkt ht Hrep Hk Hi.
  - exists (mutations ht), (values ht). unfold partly in Hrep. rewrite take_ge, drop_ge, app_nil_r in Hrep by lia.
    split; [|by destruct ht]. cbn [dec_loop]. unfold io_ret. destruct b as [j|]; [rewrite decide_False by lia|]; by destruct ht.
  - assert (exists s, sl !! i = Some s) as [s Hs] by (apply lookup_lt_is_Some; lia).
    cbn [dec_loop]. rewrite (is_free ptrs ci ht _ Hrep i s (partly_lookup _ _ _ _ Hs)), io_bind_lift.
    replace (Z.of_nat i + 1) with (Z.of_nat (S i)) by lia. pose proof (partly_step (moved_down iv) i sl s Hs) as Hps.
    assert (revalue_slot (moved_down iv) s = s -> rep ht (partly (moved_down iv) (S i) sl)) as Hsame.
    { intros E. rewrite Hps, E, list_insert_id; [done|]. by apply partly_lookup. }
    assert (forall bkt', (s = SEmpty \/ s = SDeleted \/ b <> Some i) -> bkt' = bkt ->
      match b with Some j => if decide (S i <= j < length sl)%nat then
              match sl !! j with Some (SLive _) => Z.of_nat j | _ => bkt' end else bkt' | None => bkt' end =
      match b with Some j => if decide (i <= j < length sl)%nat then
              match sl !! j with Some (SLive _) => Z.of_nat j | _ => bkt end else bkt | None => bkt end) as Hskip.
    { intros bkt' Hd ->. destruct b as [j|]; [|done]. destruct (decide (j = i)) as [->|Hne].
      - rewrite Hs. rewrite decide_False by lia. rewrite decide_True by lia. destruct Hd as [->|[->|Hd]]; done.
      - repeat case_decide; try done; lia. }
    destruct s as [| |e].
    + cbn [is_live negb io_bind io_ret app].
      destruct (IH (S i) bkt ht) as (m & vs & -> & Hr); [by apply Hsame|done|lia|]. exists m, vs. rewrite Hskip by auto. done.
    + cbn [is_live negb io_bind io_ret app].
      destruct (IH (S i) bkt ht) as (m & vs & -> & Hr); [by apply Hsame|done|lia|]. exists m, vs. rewrite Hskip by auto. done.
    + cbn [is_live negb]. rewrite (get_value ptrs ci ht _ Hrep i e (partly_lookup _ _ _ _ Hs)), io_bind_lift.
      pose proof (Hv e ltac:(apply elem_of_entries; eauto)) as Hev. unfold max_entries in Hev. pose proof (Hb i e Hs) as Hbi.
      cbv zeta. destruct (Z.ltb_spec iv (e_value e)) as [Hlt|Hge].
      * rewrite (proj2 (Z.eqb_neq iv _)) by lia. rewrite uwrap_id by (unfold in_unsigned; lia).
        destruct (write_value ht _ i e (e_value e - 1) Hrep Hk (partly_lookup _ _ _ _ Hs)) as [E Hr1];
          [unfold plain, __CFBasicHashSubABZero, __CFBasicHashSubABOne; lia|lia|].
        rewrite E. cbn [io_bind io_ret]. set (ht1 := bump_mutations _).
        destruct (IH (S i) bkt ht1) as (m & vs & -> & Hr); [|done|lia|].
        -- rewrite Hps. simpl revalue_slot. unfold revalue, moved_down. rewrite (proj2 (Z.ltb_lt _ _)) by lia.
           by apply (rep_frame ptrs ci (set_arrays ht (<[i := encode (e_value e - 1)]> (values ht)) (keys ht) (counts ht))).
        -- exists m, vs. rewrite Hskip; [done| |done]. right. right. intros E'. apply Hbi in E'. lia.
      * cbn [io_bind io_ret].
        destruct (IH (S i) (if iv =? e_value e then Z.of_nat i else bkt) ht) as (m & vs & -> & Hr); [|done|lia|].
        -- apply Hsame. simpl. unfold revalue, moved_down. rewrite (proj2 (Z.ltb_ge _ _)) by lia. by destruct e.
        -- exists m, vs. split; [|done]. do 3 f_equal. destruct (Z.eqb_spec iv (e_value e)) as [E|E].
           ++ assert (b = Some i) as -> by (by apply Hbi). rewrite decide_False by lia. rewrite decide_True, Hs by lia. done.
           ++ apply Hskip; [|done]. right. right. intros E'. apply Hbi in E'. lia.
Qed.

(** The values of the entries are 0, 1, .., n-1. *)
Definition numbers (n : nat) : list Z := Z.of_nat <$> seq 0 n.
Definition numbered (l : list entry) : Prop := e_value <$> l ≡ₚ numbers (length l).

Lemma elem_of_numbers n x : x ∈ numbers n <-> 0 <= x < Z.of_nat n.
Proof.
  unfold numbers. rewrite list_elem_of_fmap. split.
  - intros (j & -> & Hj). apply elem_of_seq in Hj. lia.
  - intros H. exists (Z.to_nat x). split; [lia|]. apply elem_of_seq. lia.
Qed.

Lemma NoDup_numbers n : NoDup (numbers n).
Proof. apply NoDup_fmap_2; [intros x y; lia|apply NoDup_seq]. Qed.

Lemma numbers_insert n i : 0 <= i <= Z.of_nat n -> i :: (moved_up i <$> numbers n) ≡ₚ numbers (S n).
Proof.
  intros Hi. apply NoDup_Permutation; [|apply NoDup_numbers|].
  - constructor.
    + intros H. apply list_elem_of_fmap in H as (x & E & _). unfold moved_up in E. revert E. bool_case.
    + apply NoDup_fmap_2_strong; [|apply NoDup_numbers]. intros x y _ _. unfold moved_up. bool_case.
  - intros x. rewrite elem_of_cons, list_elem_of_fmap, elem_of_numbers. split.
    + intros [->|(y & -> & Hy)]; [lia|]. apply elem_of_numbers in Hy. unfold moved_up. bool_case.
    + intros Hx. destruct (decide (x = i)) as [|Hne]; [by left|]. right.
      exists (if x <? i then x else x - 1). rewrite elem_of_numbers. unfold moved_up. bool_case; split; lia.
Qed.

Lemma numbers_delete n i (l : list Z) : i :: l ≡ₚ numbers (S n) -> moved_down i <$> l ≡ₚ numbers n.
Proof.
  intros Hp. pose proof (NoDup_numbers (S n)) as Hnd. rewrite <- Hp in Hnd. apply NoDup_cons in Hnd as [Hi Hnd].
  assert (forall x, x ∈ l <-> 0 <= x < Z.of_nat (S n) /\ x <> i) as Hl.
  { intros x. rewrite <- elem_of_numbers, <- Hp, elem_of_cons. split; [|naive_solver]. intros Hx. split; [by right|]. by intros ->. }
  assert (0 <= i < Z.of_nat (S n)) as Hir by (apply elem_of_numbers; rewrite <- Hp; set_solver).
  apply NoDup_Permutation; [|apply NoDup_numbers|].
  - apply NoDup_fmap_2_strong; [|done]. intros x y Hx Hy. apply Hl in Hx, Hy. unfold moved_down. bool_case.
  - intros x. rewrite list_elem_of_fmap, elem_of_numbers. split.
    + intros (y & -> & Hy). apply Hl in Hy. unfold moved_down. bool_case.
    + intros Hx. exists (if x <? i then x else x + 1). rewrite Hl. unfold moved_down. bool_case; split; lia.
Qed.

Lemma numbered_range l e : numbered l -> Z.of_nat (length l) <= max_entries -> e ∈ l -> 0 <= e_value e < max_entries.
Proof.
  unfold numbered. intros Hn Hl He. assert (e_value e ∈ numbers (length l)) as H by (rewrite <- Hn; by apply list_elem_of_fmap_2).
  apply elem_of_numbers in H. lia.
Qed.

Lemma numbered_unique sl b b' e e' :
  numbered (entries sl) -> sl !! b = Some (SLive e) -> sl !! b' = Some (SLive e') -> e_value e = e_value e' -> b = b'.
Proof.
  unfold numbered. intros Hn Hb Hb' E. destruct (decide (b = b')) as [|Hne]; [done|exfalso].
  pose proof (NoDup_numbers (length (entries sl))) as Hnd. rewrite <- Hn, (entries_delete sl b e Hb), fmap_cons in Hnd.
  apply NoDup_cons in Hnd as [Hni _]. apply Hni. rewrite E. apply list_elem_of_fmap_2, elem_of_entries. exists b'.
  by rewrite list_lookup_insert_ne.
Qed.

Section Operations.
Context (ht : __CFBasicHash) (sl : list slot) `{!KeyContract ptrs ce ch (config ht)}.
Context (Hwf : wf ht sl) (Hmut : CFBasicHashIsMutable ht = true) (Hkeys : has_keys ht = true) (Hnocounts : has_counts ht = false).
Context (Hint : cb_ptr ptrs (__vret (config ht)) = 0) (Hnum : numbered (entries sl)).

Lemma stored_int v : stored_value ptrs cr ht v = v.
Proof. unfold stored_value. by rewrite Hint. Qed.

(** The bucket for a new pair, after the table has grown if it must. *)
Lemma int_bucket k bkt :
  find_result ptrs ce ch (config ht) (num_buckets_idx ht) sl k bkt -> count bkt = 0 -> used_buckets ht < max_entries ->
  exists ht1 sl1 bkt1,
    (if capacity_of (num_buckets_idx ht) <? used_buckets ht + 1 then
       do* ht := __CFBasicHashRehash ptrs ch ci ht 1 in
       do* i := io_lift (__CFBasicHashFindBucket_NoCollision ptrs ch ht k 0) in
       io_ret (ht, i)
     else io_ret (ht, idx bkt)) = io_ret (ht1, idx bkt1) /\
    wf ht1 sl1 /\ entries sl1 ≡ₚ entries sl /\ same_object ht ht1 /\
    find_result ptrs ce ch (config ht1) (num_buckets_idx ht1) sl1 k bkt1 /\ count bkt1 = 0.
Proof.
  intros Hf Hc0 Hmax. pose proof (wf_rep _ _ _ _ _ _ Hwf) as Hrep.
  destruct (Z.ltb_spec (capacity_of (num_buckets_idx ht)) (used_buckets ht + 1)) as [Hfull|Hroom].
  - pose proof (wf_used _ _ _ _ _ _ Hwf) as Hused.
    destruct (rehash_idx_spec ht 1) as (i & Ei & Hir & _ & Hcap); try lia; [apply Hrep|apply Hwf|].
    destruct (rehash_wf ptrs ce ch ci ht sl 1 i Hrep ltac:(apply Hwf) ltac:(done) Hused Ei Hir) as (vs & ks & cs & sl1 & Er & Hwf1 & Hd1 & Hl1 & Hp1);
      [lia|lia|].
    rewrite Er. cbn [io_bind]. set (ht1 := set_arrays _ vs ks cs) in *.
    pose proof (capacity_le_size i Hir). pose proof (Permutation_length Hp1).
    destruct (find_free_spec ptrs ch ci ht1 sl1 k ltac:(apply Hwf1) ltac:(simpl in *; lia) Hd1) as (b & Ef & Hb & Hr); [simpl in *; lia|].
    rewrite Ef, io_bind_lift. exists ht1, sl1, (mkBucket (Z.of_nat b) None None 0). split_and!; try done.
    apply (find_miss _ _ _ _ _ _ _ b SEmpty); try done.
    assert (absent ptrs ce (config ht) sl k) as Ha.
    { destruct Hf as [b0 e Hb0 _| |]; [|done|done]. pose proof (entry_count_pos ptrs ci ht sl Hrep b0 e Hb0). simpl in Hc0. lia. }
    apply absent_entries. intros e He. rewrite Hp1 in He. by apply (proj1 (absent_entries _ _ _ _ _) Ha).
  - exists ht, sl, bkt. split_and!; try done.
Qed.

Lemma add_int_present k i :
  (exists e, e ∈ entries sl /\ key_eq ptrs ce (config ht) (e_key e) k = true) -> pair_ok ptrs cr ce ci ht k i ->
  exists ht', CFBasicHashAddIntValueAndInc ptrs cr ce ch ci ht k i = Some (ht', false, []) /\ wf ht' sl.
Proof.
  intros (e & He & Hk) Hok. unfold CFBasicHashAddIntValueAndInc. rewrite (storable_ok ptrs cr ce ci ht ht) by done. cbn [negb].
  destruct (find_count ptrs ce ch ci ht sl k Hwf ltac:(done)) as (bkt & -> & _ & [(e' & _ & _ & _ & _ & Hc & Hpos)|[_ Hn]]).
  - rewrite io_bind_lift, Hc, (proj2 (Z.ltb_lt 0 _)) by done. eexists. split; [done|]. by apply (wf_frame ptrs ce ch ci ht).
  - by rewrite (Hn e He) in Hk.
Qed.

Lemma add_int_new k i :
  (forall e, e ∈ entries sl -> key_eq ptrs ce (config ht) (e_key e) k = false) -> pair_ok ptrs cr ce ci ht k i ->
  0 <= i <= Z.of_nat (length (entries sl)) -> Z.of_nat (length (entries sl)) < max_entries ->
  exists ht' sl', CFBasicHashAddIntValueAndInc ptrs cr ce ch ci ht k i = Some (ht', true, pair_retains ptrs ht k i) /\
    wf ht' sl' /\ numbered (entries sl') /\
    entries sl' ≡ₚ stored_entry ptrs cr ci ht k i 1 :: (revalue (moved_up i) <$> entries sl).
Proof.
  intros Hn Hok Hi Hmax. unfold CFBasicHashAddIntValueAndInc. rewrite (storable_ok ptrs cr ce ci ht ht) by done. cbn [negb].
  pose proof (wf_rep _ _ _ _ _ _ Hwf) as Hrep. pose proof (wf_used _ _ _ _ _ _ Hwf) as Hused.
  destruct (find_spec ptrs ce ch ci ht sl k Hrep ltac:(done)) as (bkt & -> & Hf); [apply Hwf|]. rewrite io_bind_lift.
  assert (count bkt = 0) as Hc0.
  { destruct Hf as [b e Hb Hk| |]; [|done|done]. by rewrite (Hn e ltac:(apply elem_of_entries; eauto)) in Hk. }
  rewrite Hc0. change (0 <? 0) with false. cbv iota.
  unfold CFBasicHashGetCapacity, __CFBasicHashGetCapacityForNumBuckets. rewrite rd_capacity, io_bind_lift by apply Hrep.
  rewrite uwrap_id by (unfold in_unsigned, max_entries in *; lia).
  destruct (int_bucket k bkt Hf Hc0) as (ht1 & sl1 & bkt1 & -> & Hwf1 & Hp1 & Hso1 & Hf1 & Hc1); [lia|]. cbn [io_bind io_ret].
  pose proof (wf_rep _ _ _ _ _ _ Hwf1) as Hrep1. pose proof (Permutation_length Hp1) as Hlen1.
  rewrite rd_size, io_bind_lift by apply Hrep1. rewrite (rep_size _ _ _ _ Hrep1), Nat2Z.id.
  assert (numbered (entries sl1)) as Hnum1 by (unfold numbered in *; by rewrite Hp1, Hnum).
  destruct (inc_loop_spec i sl1 (length sl1) 0 ht1) as (m & vs & E & Hrep2); [done| |lia| |].
  { unfold has_keys in *. by rewrite (proj1 (proj2 Hso1)). }
  { intros e He. apply (numbered_range (entries sl1)); [done|lia|done]. }
  change (Z.of_nat 0) with 0 in E. rewrite E. cbn [io_bind io_ret]. set (ht2 := set_mutations _ m) in *.
  assert (wf ht2 (revalue_slot (moved_up i) <$> sl1)) as Hwf2 by (by apply (wf_revalue ht1)).
  assert (same_object ht ht2) as Hso2 by exact Hso1.
  destruct (hash_add_value_spec ptrs cr ce ch ci ht2 (revalue_slot (moved_up i) <$> sl1) bkt1 k i) as (ht' & sl' & -> & Hwf' & Hp' & _ & _).
  - by rewrite (proj1 (proj2 Hso2)).
  - done.
  - rewrite (wf_used _ _ _ _ _ _ Hwf2), entries_revalue, length_fmap. lia.
  - by apply (pair_ok_same ptrs cr ce ci ht).
  - apply (find_result_revalue _ _ (moved_up i) sl1 k bkt1 Hf1 Hc1). apply (entry_count_pos ptrs ci ht1 sl1 Hrep1).
  - done.
  - cbn [io_bind io_ret]. rewrite app_nil_r. exists ht', sl'. rewrite (pair_retains_same ptrs ht ht2) by done.
    rewrite (stored_entry_same ptrs cr ci ht ht2) in Hp' by done. rewrite entries_revalue, Hp1 in Hp'.
    split_and!; [done|done| |done]. unfold numbered. rewrite Hp', fmap_cons. cbn [stored_entry e_value length].
    rewrite stored_int, length_fmap, <- (numbers_insert _ i) by lia. constructor. unfold numbered in Hnum. rewrite <- Hnum, <- !list_fmap_compose. done.
Qed.

Lemma remove_int i :
  0 <= i < Z.of_nat (length (entries sl)) -> Z.of_nat (length (entries sl)) <= max_entries ->
  exists ht' sl' e rest, entries sl ≡ₚ e :: rest /\ e_value e = i /\
    CFBasicHashRemoveIntValueAndDec ptrs ch ci ht i = Some (ht', entry_releases ptrs ht e) /\
    wf ht' sl' /\ numbered (entries sl') /\ entries sl' ≡ₚ revalue (moved_down i) <$> rest.
Proof.
  intros Hi Hmax. unfold CFBasicHashRemoveIntValueAndDec. rewrite Hmut. unfold max_entries in Hmax.
  rewrite !(proj2 (Z.eqb_neq _ i)) by (unfold __CFBasicHashSubABZero, __CFBasicHashSubABOne; lia). cbn [negb orb].
  pose proof (wf_rep _ _ _ _ _ _ Hwf) as Hrep. rewrite rd_size, io_bind_lift by apply Hrep. rewrite (rep_size _ _ _ _ Hrep), Nat2Z.id.
  assert (i ∈ e_value <$> entries sl) as Hin.
  { unfold numbered in Hnum. rewrite Hnum. apply elem_of_numbers. lia. }
  apply list_elem_of_fmap in Hin as (e & Ei & He). apply elem_of_entries in He as [b Hb].
  destruct (dec_loop_spec i sl (Some b) (length sl) 0 ones ht) as (m & vs & E & Hrep2); [done|done|lia|lia| | |].
  { intros e0 He0. apply (numbered_range (entries sl)); [done|unfold max_entries; lia|done]. }
  { intros j e0 Hj. split; [|intros [= <-]; congruence]. intros E0. f_equal.
    apply (numbered_unique sl b j e e0); [done|done|done|congruence]. }
  change (Z.of_nat 0) with 0 in E. rewrite E. cbn [io_bind io_ret].
  rewrite decide_True by (apply lookup_lt_Some in Hb; lia). rewrite Hb.
  set (ht2 := set_mutations _ m) in *.
  assert (wf ht2 (revalue_slot (moved_down i) <$> sl)) as Hwf2 by (by apply (wf_revalue ht)).
  assert (Z.of_nat b < 2 ^ 32).
  { pose proof (lookup_lt_Some _ _ _ Hb). pose proof (rep_idx _ _ _ _ Hrep). pose proof (rep_size _ _ _ _ Hrep) as Hsz.
    destruct (decide (num_buckets_idx ht = 0)) as [E0|]; [rewrite E0 in Hsz; change (size_of 0) with 0 in Hsz; lia|].
    pose proof (size_of_pos (num_buckets_idx ht)). lia. }
  rewrite swrap_id by (unfold in_signed; lia).
  assert ((revalue_slot (moved_down i) <$> sl) !! b = Some (SLive (revalue (moved_down i) e))) as Hb2 by (by rewrite list_lookup_fmap, Hb).
  assert (e_count e = 1) as He1.
  { destruct (slot_ok_live ptrs ci ht sl Hrep b e Hb) as (_ & _ & Hc). by rewrite Hnocounts in Hc. }
  destruct (remove_value_spec ptrs ce ch ci ht2 _ b _ ltac:(done) Hwf2 Hb2 He1) as (ht' & sl' & -> & Hwf' & _ & _ & Hp').
  rewrite entries_revalue in Hp'. cbn [app].
  assert (revalue (moved_down i) e = e) as Ee.
  { unfold revalue, moved_down. rewrite (proj2 (Z.ltb_ge _ _)) by lia. by destruct e. }
  rewrite Ee in Hp' |- *. exists ht', sl', e, (entries (<[b := SDeleted]> sl)).
  assert (entries sl' ≡ₚ revalue (moved_down i) <$> entries (<[b := SDeleted]> sl)) as Hp2.
  { apply (Permutation_cons_inv (a := e)). rewrite <- Hp', (entries_delete sl b e Hb), fmap_cons, Ee. done. }
  split_and!; [by apply entries_delete|done|done|done| |done].
  unfold numbered. rewrite Hp2, length_fmap, <- list_fmap_compose.
  assert (e_value <$> (revalue (moved_down i) <$> entries (<[b := SDeleted]> sl)) = moved_down i <$> (e_value <$> entries (<[b := SDeleted]> sl))) as Em
    by (rewrite <- !list_fmap_compose; done).
  rewrite list_fmap_compose, Em. apply numbers_delete. unfold numbered in Hnum. rewrite (entries_delete sl b e Hb) in Hnum.
  rewrite fmap_cons, <- Ei in Hnum. exact Hnum.
Qed.

(** A number that no entry has: the bucket index stays [~0], and the write goes
    outside the array. *)
Lemma remove_int_missing i :
  Z.of_nat (length (entries sl)) <= i < max_entries -> Z.of_nat (length (entries sl)) <= max_entries ->
  CFBasicHashRemoveIntValueAndDec ptrs ch ci ht i = None.
Proof.
  intros Hi Hmax. unfold CFBasicHashRemoveIntValueAndDec. rewrite Hmut. unfold max_entries in *.
  rewrite !(proj2 (Z.eqb_neq _ i)) by (unfold __CFBasicHashSubABZero, __CFBasicHashSubABOne; lia). cbn [negb orb].
  pose proof (wf_rep _ _ _ _ _ _ Hwf) as Hrep. rewrite rd_size, io_bind_lift by apply Hrep. rewrite (rep_size _ _ _ _ Hrep), Nat2Z.id.
  destruct (dec_loop_spec i sl None (length sl) 0 ones ht) as (m & vs & E & _); [done|done|lia|lia| | |].
  { intros e0 He0. apply (numbered_range (entries sl)); [done|unfold max_entries; lia|done]. }
  { intros j e0 Hj. split; [|done]. intros E0. exfalso.
    assert (e_value e0 ∈ numbers (length (entries sl))) as Hin.
    { unfold numbered in Hnum. rewrite <- Hnum. apply list_elem_of_fmap_2, elem_of_entries. eauto. }
    apply elem_of_numbers in Hin. lia. }
  change (Z.of_nat 0) with 0 in E. rewrite E. cbn [io_bind]. change (swrap 64 ones) with (-1).
  unfold __CFBasicHashRemoveValue, __CFBasicHashSetValue, rd. done.
Qed.

End Operations.

(** Numbering keys.  In a table with keys whose values are exactly 0, .., n-1
    (for n below 2^30, values not retained), adding a new key with number [i] moves the
    numbers from [i] on up by one and adds the key, and removing number [i] takes
    its entry out and moves the numbers above it down, so the values are 0, .., n
    or 0, .., n-2 afterwards; adding a key that is present changes nothing and
    returns false.  Removing a number that no entry has writes outside the
    array. *)
Lemma CFBasicHash_int_values_stay_numbered (ht : __CFBasicHash) (sl : list slot) (k i : Z) :
  KeyContract ptrs ce ch (config ht) -> wf ht sl -> CFBasicHashIsMutable ht = true -> has_keys ht = true -> has_counts ht = false ->
  cb_ptr ptrs (__vret (config ht)) = 0 -> numbered (entries sl) -> Z.of_nat (length (entries sl)) < max_entries ->
  pair_ok ptrs cr ce ci ht k i -> 0 <= i < max_entries ->
  (i <= Z.of_nat (length (entries sl)) ->
    (exists e, e ∈ entries sl /\ key_eq ptrs ce (config ht) (e_key e) k = true) /\
      (exists ht', CFBasicHashAddIntValueAndInc ptrs cr ce ch ci ht k i = Some (ht', false, []) /\ wf ht' sl) \/
    exists ht' sl', CFBasicHashAddIntValueAndInc ptrs cr ce ch ci ht k i = Some (ht', true, pair_retains ptrs ht k i) /\
      wf ht' sl' /\ numbered (entries sl') /\
      entries sl' ≡ₚ stored_entry ptrs cr ci ht k i 1 :: (revalue (moved_up i) <$> entries sl)) /\
  (if i <? Z.of_nat (length (entries sl)) then
     exists ht' sl' e rest, entries sl ≡ₚ e :: rest /\ e_value e = i /\
       CFBasicHashRemoveIntValueAndDec ptrs ch ci ht i = Some (ht', entry_releases ptrs ht e) /\
       wf ht' sl' /\ numbered (entries sl') /\ entries sl' ≡ₚ revalue (moved_down i) <$> rest
   else CFBasicHashRemoveIntValueAndDec ptrs ch ci ht i = None).
Proof.
  intros HK Hwf Hm Hk Hc Hv Hn Hl Hok Hi. split.
  - intros Hi'. destruct (decide (Exists (fun e => key_eq ptrs ce (config ht) (e_key e) k = true) (entries sl))) as [Hx|Hx].
    + left. apply list.Exists_exists in Hx. split; [done|]. by apply add_int_present.
    + right. apply add_int_new; try done; [|lia]. intros e He. destruct (key_eq ptrs ce (config ht) (e_key e) k) eqn:E; [|done].
      exfalso. apply Hx, list.Exists_exists. eauto.
  - destruct (Z.ltb_spec i (Z.of_nat (length (entries sl)))).
    + apply remove_int; try done; lia.
    + apply (remove_int_missing ht sl); try done; lia.
Qed.

End Numbered.

(** ** Instances *)

(** The bag of two 5s and a 9, copied into memory that holds anything. *)
Lemma CFBasicHashCreateCopy_copies_map_witness :
  exists ht, CFBasicHashCreateCopy example_ptrs (fun _ v => v) example_bag [1; 2; 3] [0; 0; 0] [7; 7; 7] =
      Some (ht, concat (entry_retains example_ptrs example_bag <$> entries example_slots)) /\
    wf example_ptrs (fun _ => Z.eqb) (fun _ k => k) (fun _ k => k) ht (copied_slot example_ptrs (fun _ v => v) (fun _ k => k) example_bag <$> example_slots) /\
    entries (copied_slot example_ptrs (fun _ v => v) (fun _ k => k) example_bag <$> example_slots) =
      copied example_ptrs (fun _ v => v) (fun _ k => k) example_bag <$> entries example_slots /\
    CFBasicHashIsMutable ht = true /\ config ht = config example_bag /\ mutations ht = 1.
Proof.
  apply (CFBasicHashCreateCopy_copies_map example_ptrs (fun _ v => v) (fun _ => Z.eqb) (fun _ k => k) (fun _ k => k));
    [apply example_bag_contract|apply example_bag_wf| |done|done|done].
  intros e He. apply elem_of_cons in He as [->|He]; [done|]. apply elem_of_cons in He as [->|He]; [done|]. by apply not_elem_of_nil in He.
Defined.

(** Key 7 with number 0 in a table that numbers nothing yet. *)
Definition numbered_table : __CFBasicHash :=
  mkHash 0 (mkConfig 1 1 0 0 0 0 0 0 0 0 0 0 0 0 0 0 0 0 0 0 0 0) 1 0 0 0 0 0 0 [] [] [].

Lemma numbered_table_wf : wf example_ptrs (fun _ => Z.eqb) (fun _ k => k) (fun _ k => k) numbered_table [].
Proof. apply wf_empty; try done; [|by left|by left]. split; [simpl; lia|by right]. Qed.

Lemma CFBasicHash_int_values_stay_numbered_witness :
  (0 <= 0 -> (exists e, e ∈ entries [] /\ key_eq example_ptrs (fun _ => Z.eqb) (config numbered_table) (e_key e) 7 = true) /\
      (exists ht', CFBasicHashAddIntValueAndInc example_ptrs (fun _ v => v) (fun _ => Z.eqb) (fun _ k => k) (fun _ k => k) numbered_table 7 0 =
         Some (ht', false, []) /\ wf example_ptrs (fun _ => Z.eqb) (fun _ k => k) (fun _ k => k) ht' []) \/
    exists ht' sl', CFBasicHashAddIntValueAndInc example_ptrs (fun _ v => v) (fun _ => Z.eqb) (fun _ k => k) (fun _ k => k) numbered_table 7 0 =
        Some (ht', true, pair_retains example_ptrs numbered_table 7 0) /\
      wf example_ptrs (fun _ => Z.eqb) (fun _ k => k) (fun _ k => k) ht' sl' /\ numbered (entries sl') /\
      entries sl' ≡ₚ stored_entry example_ptrs (fun _ v => v) (fun _ k => k) numbered_table 7 0 1 :: (revalue (moved_up 0) <$> entries [])) /\
  CFBasicHashRemoveIntValueAndDec example_ptrs (fun _ k => k) (fun _ k => k) numbered_table 0 = None.
Proof.
  refine (CFBasicHash_int_values_stay_numbered example_ptrs (fun _ v => v) (fun _ => Z.eqb) (fun _ k => k) (fun _ k => k)
    numbered_table [] 7 0 _ numbered_table_wf eq_refl eq_refl eq_refl eq_refl _ _ _ _).
  - by apply pointer_keys_contract.
  - unfold numbered. vm_compute. constructor.
  - vm_compute. done.
  - by split_and!.
  - split; vm_compute; done.
Defined.
