(* ===== verification/CFCollections.v ===== *)
(** * CFCollections: CFDictionary, CFSet and CFBag (CFDictionary.c, CFSet.c, CFBag.c)

    The three collections are one text (the sources are generated from a
    template) compiled with [CFDictionary], [CFSet] or [CFBag] set.  The module
    [Template] holds that text with the setting as a parameter; the modules
    [Dictionary], [Set_] and [Bag] hold the three instances under the names of
    the sources.  The collections are hash tables of CFBasicHash.v: a dictionary
    has an array of keys, a bag an array of counts, and a set and a bag store
    values that are their own keys. *)

From S2P Require Import Prelude CFInternal CFBasicHash CFBasicHashProbe CFBasicHashTable CFBasicHashQueries CFBasicHashCreate.
From stdpp Require Import base list numbers option sets.
From Stdlib Require Import ZArith Lia.
Open Scope Z_scope.
Open Scope cf_scope.

(** ** Data *)

(** Which of the three macros is set. *)
Inductive collection := KDictionary | KSet | KBag.

Definition is_dictionary (k : collection) : bool := match k with KDictionary => true | _ => false end.
Definition is_bag (k : collection) : bool := match k with KBag => true | _ => false end.

(** The callbacks of keys (of values, for a set or a bag) and of values. *)
Record CFHashKeyCallBacks := mkKeyCallBacks {
  key_retain : Z; key_release : Z; key_copyDescription : Z; key_equal : Z; key_hash_fn : Z
}.
Record CFHashValueCallBacks := mkValueCallBacks {
  value_retain : Z; value_release : Z; value_copyDescription : Z; value_equal : Z
}.

(** The functions of CFRuntime.c and CFString.c that the standard callbacks name. *)
Record standard_functions := mkStandard {
  CFCopyDescription : Z; __CFTypeCollectionRelease : Z; __CFTypeCollectionRetain : Z;
  CFEqual : Z; CFHash : Z; __CFStringCollectionCopy : Z
}.

Definition kCFTypeKeyCallBacks (std : standard_functions) : CFHashKeyCallBacks :=
  mkKeyCallBacks (__CFTypeCollectionRetain std) (__CFTypeCollectionRelease std) (CFCopyDescription std) (CFEqual std) (CFHash std).
Definition kCFCopyStringKeyCallBacks (std : standard_functions) : CFHashKeyCallBacks :=
  mkKeyCallBacks (__CFStringCollectionCopy std) (__CFTypeCollectionRelease std) (CFCopyDescription std) (CFEqual std) (CFHash std).
Definition kCFTypeValueCallBacks (std : standard_functions) : CFHashValueCallBacks :=
  mkValueCallBacks (__CFTypeCollectionRetain std) (__CFTypeCollectionRelease std) (CFCopyDescription std) (CFEqual std).

(** ** The template *)

Module Template.
Section Template.
Context (kind : collection).
Context (call_retain : Z -> Z -> Z) (call_equal : Z -> Z -> Z -> bool) (call_hash call_indirect : Z -> Z -> Z).

(** [cb ? cb->field : NULL] *)
Definition field {A} (cb : option A) (f : A -> Z) : Z := match cb with Some c => f c | None => 0 end.

Definition base_flags : Z :=
  Z.lor kCFBasicHashLinearHashing
    (Z.lor (if is_dictionary kind then kCFBasicHashHasKeys else 0) (if is_bag kind then kCFBasicHashHasCounts else 0)).

(** Without a garbage-collecting allocator the flags are the base flags. *)
Definition CreateGeneric (reg : callback_registry) (keyCallBacks : option CFHashKeyCallBacks)
    (valueCallBacks : option CFHashValueCallBacks) (useValueCB : bool) : option (callback_registry * __CFBasicHash) :=
  let retainKey := field keyCallBacks key_retain in
  let releaseKey := field keyCallBacks key_release in
  let equateKeys := field keyCallBacks key_equal in
  let hashKey := field keyCallBacks key_hash_fn in
  let copyKeyDescription := field keyCallBacks key_copyDescription in
  let retainValue := if useValueCB then field valueCallBacks value_retain else retainKey in
  let releaseValue := if useValueCB then field valueCallBacks value_release else releaseKey in
  let equateValues := if useValueCB then field valueCallBacks value_equal else equateKeys in
  let copyValueDescription := if useValueCB then field valueCallBacks value_copyDescription else copyKeyDescription in
  CFBasicHashCreate reg base_flags
    (mkHashCallbacks retainValue retainKey releaseValue releaseKey equateValues equateKeys hashKey 0
       copyValueDescription copyKeyDescription).

(** [for (idx = 0; idx < numValues; idx++) CFBasicHashAddValue(ht, klist[idx], vlist[idx]);] *)
Fixpoint add_pairs (ptrs klist vlist : list Z) (rest : nat) (i : Z) (ht : __CFBasicHash) : io __CFBasicHash :=
  match rest with
  | O => io_ret ht
  | S rest' =>
      do* k := io_lift (rd klist i) in
      do* v := io_lift (rd vlist i) in
      do* (ht, _) := CFBasicHashAddValue ptrs call_retain call_equal call_hash call_indirect ht k v in
      add_pairs ptrs klist vlist rest' (i + 1) ht
  end.

Definition fill_table (ptrs klist vlist : list Z) (numValues : Z) (ht : __CFBasicHash) : io __CFBasicHash :=
  do* ht := if 0 <? numValues then CFBasicHashSetCapacity ptrs call_hash call_indirect ht numValues else io_ret ht in
  add_pairs ptrs klist vlist (Z.to_nat numValues) 0 ht.

(** The references of the caller pass to the collection. *)
Definition CreateTransfer (std : standard_functions) (reg : callback_registry) (klist vlist : list Z) (numValues : Z)
    : io (callback_registry * __CFBasicHash) :=
  let kcb := kCFTypeKeyCallBacks std in
  let vcb := kCFTypeValueCallBacks std in
  do* (reg, ht) := io_lift (CFBasicHashCreate reg base_flags
    (mkHashCallbacks (if is_dictionary kind then value_retain vcb else key_retain kcb) (key_retain kcb)
       (if is_dictionary kind then value_release vcb else key_release kcb) (key_release kcb)
       (if is_dictionary kind then value_equal vcb else key_equal kcb) (key_equal kcb) (key_hash_fn kcb) 0
       (if is_dictionary kind then value_copyDescription vcb else key_copyDescription kcb) (key_copyDescription kcb))) in
  let ht := CFBasicHashSuppressRC ht in
  do* ht := fill_table (CFBasicHashCallBackPtrs reg) klist vlist numValues ht in
  let ht := CFBasicHashUnsuppressRC ht in
  io_ret (reg, CFBasicHashMakeImmutable ht).

Definition Create (reg : callback_registry) (klist vlist : list Z) (numValues : Z)
    (keyCallBacks : option CFHashKeyCallBacks) (valueCallBacks : option CFHashValueCallBacks)
    : io (callback_registry * __CFBasicHash) :=
  do* (reg, ht) := io_lift (CreateGeneric reg keyCallBacks valueCallBacks (is_dictionary kind)) in
  do* ht := fill_table (CFBasicHashCallBackPtrs reg) klist vlist numValues ht in
  io_ret (reg, CFBasicHashMakeImmutable ht).

Definition CreateMutable (reg : callback_registry) (capacity : Z)
    (keyCallBacks : option CFHashKeyCallBacks) (valueCallBacks : option CFHashValueCallBacks)
    : option (callback_registry * __CFBasicHash) :=
  CreateGeneric reg keyCallBacks valueCallBacks (is_dictionary kind).

Context (ptrs : list Z).

(** [fresh_values], [fresh_keys] and [fresh_counts]: what new memory holds. *)
Definition CreateCopy (other : __CFBasicHash) (fresh_values fresh_keys fresh_counts : list Z) : io __CFBasicHash :=
  do* ht := CFBasicHashCreateCopy ptrs call_retain other fresh_values fresh_keys fresh_counts in
  io_ret (CFBasicHashMakeImmutable ht).

Definition CreateMutableCopy (capacity : Z) (other : __CFBasicHash) (fresh_values fresh_keys fresh_counts : list Z)
    : io __CFBasicHash :=
  CFBasicHashCreateCopy ptrs call_retain other fresh_values fresh_keys fresh_counts.

Definition GetCount (hc : __CFBasicHash) : option Z := CFBasicHashGetCount hc.

Definition GetCountOfKey (hc : __CFBasicHash) (key : Z) : option Z :=
  CFBasicHashGetCountOfKey ptrs call_equal call_hash call_indirect hc key.

Definition ContainsKey (hc : __CFBasicHash) (key : Z) : option bool :=
  let* c := CFBasicHashGetCountOfKey ptrs call_equal call_hash call_indirect hc key in Some (0 <? c).

Definition GetValue (hc : __CFBasicHash) (key : Z) : option Z :=
  let* bkt := CFBasicHashFindBucket ptrs call_equal call_hash call_indirect hc key in
  if 0 <? count bkt then weak_value bkt else Some 0.

(** [value] is [Some] of the value stored at the out-parameter, if it is stored. *)
Definition GetValueIfPresent (hc : __CFBasicHash) (key : Z) (value : bool) : option (bool * option Z) :=
  let* bkt := CFBasicHashFindBucket ptrs call_equal call_hash call_indirect hc key in
  if 0 <? count bkt then
    if value then let* v := weak_value bkt in Some (true, Some v) else Some (true, None)
  else Some (false, None).

Definition GetCountOfValue (hc : __CFBasicHash) (value : Z) : option Z :=
  CFBasicHashGetCountOfValue ptrs call_equal call_hash call_indirect hc value.

Definition ContainsValue (hc : __CFBasicHash) (value : Z) : option bool :=
  let* c := CFBasicHashGetCountOfValue ptrs call_equal call_hash call_indirect hc value in Some (0 <? c).

Definition GetKeyIfPresent (hc : __CFBasicHash) (key : Z) (actualkey : bool) : option (bool * option Z) :=
  let* bkt := CFBasicHashFindBucket ptrs call_equal call_hash call_indirect hc key in
  if 0 <? count bkt then
    if actualkey then let* k := weak_key bkt in Some (true, Some k) else Some (true, None)
  else Some (false, None).

Definition GetKeysAndValues (hc : __CFBasicHash) (keybuf valuebuf : option (list Z))
    : option (option (list Z) * option (list Z)) :=
  let* n := GetCount hc in
  CFBasicHashGetElements ptrs call_indirect hc n valuebuf keybuf.

(** The applier is called with key and value (dictionary) or with the value,
    once per occurrence in a bag. *)
Definition ApplyFunction (hc : __CFBasicHash) (applier context : Z) : io unit :=
  let* t := CFBasicHashApply ptrs call_indirect hc (fun t bkt =>
    let* k := weak_key bkt in
    let* v := weak_value bkt in
    Some (t ++ match kind with
               | KDictionary => [EvApplyPair applier k v context]
               | KSet => [EvApply applier v context]
               | KBag => replicate (Z.to_nat (count bkt)) (EvApply applier v context)
               end, true)) [] in
  Some (tt, t).

Definition FastEnumeration (hc : __CFBasicHash) (s : fast_enumeration) (stackbuffer : list Z) (limit : Z)
    : option (Z * fast_enumeration) :=
  __CFBasicHashFastEnumeration ptrs call_indirect hc s stackbuffer limit.

Definition IsMutable (hc : __CFBasicHash) : bool := CFBasicHashIsMutable hc.

Definition SetCapacity (hc : __CFBasicHash) (cap : Z) : io __CFBasicHash :=
  CFBasicHashSetCapacity ptrs call_hash call_indirect hc cap.

Definition GetKVOBit (hc : __CFBasicHash) : Z := __CFBitfieldGetValue (info_bits hc) 0 0.

Definition SetKVOBit (hc : __CFBasicHash) (bit : Z) : __CFBasicHash :=
  set_info hc (__CFBitfieldSetValue (info_bits hc) 0 0 (Z.land (uwrap 64 bit) 0x1)).

(** An immutable collection is logged first; the table then halts. *)
Definition AddValue (hc : __CFBasicHash) (key value : Z) : io __CFBasicHash :=
  do* (hc, _) := CFBasicHashAddValue ptrs call_retain call_equal call_hash call_indirect hc key value in
  io_ret hc.

Definition ReplaceValue (hc : __CFBasicHash) (key value : Z) : io __CFBasicHash :=
  CFBasicHashReplaceValue ptrs call_retain call_equal call_hash call_indirect hc key value.

Definition SetValue (hc : __CFBasicHash) (key value : Z) : io __CFBasicHash :=
  CFBasicHashSetValue ptrs call_retain call_equal call_hash call_indirect hc key value.

Definition RemoveValue (hc : __CFBasicHash) (key : Z) : io __CFBasicHash :=
  do* (hc, _) := CFBasicHashRemoveValue ptrs call_equal call_hash call_indirect hc key in
  io_ret hc.

Definition RemoveAllValues (hc : __CFBasicHash) : io __CFBasicHash := CFBasicHashRemoveAllValues ptrs hc.

Definition Equal (cf1 cf2 : __CFBasicHash) : option bool := __CFBasicHashEqual ptrs call_equal call_hash call_indirect cf1 cf2.
Definition Hash (cf : __CFBasicHash) : option Z := __CFBasicHashHash cf.
Definition Deallocate (cf : __CFBasicHash) : io __CFBasicHash := __CFBasicHashDeallocate ptrs cf.

End Template.
End Template.

(** ** CFDictionary.c *)

Module Dictionary.
Section Dictionary.
Context (call_retain : Z -> Z -> Z) (call_equal : Z -> Z -> Z -> bool) (call_hash call_indirect : Z -> Z -> Z).

Definition kCFTypeDictionaryKeyCallBacks := kCFTypeKeyCallBacks.
Definition kCFCopyStringDictionaryKeyCallBacks := kCFCopyStringKeyCallBacks.
Definition kCFTypeDictionaryValueCallBacks := kCFTypeValueCallBacks.

Definition __CFDictionaryCreateTransfer := Template.CreateTransfer KDictionary call_retain call_equal call_hash call_indirect.
Definition CFDictionaryCreate := Template.Create KDictionary call_retain call_equal call_hash call_indirect.
Definition CFDictionaryCreateMutable := Template.CreateMutable KDictionary.

Context (ptrs : list Z).

Definition CFDictionaryCreateCopy := Template.CreateCopy call_retain ptrs.
Definition CFDictionaryCreateMutableCopy := Template.CreateMutableCopy call_retain ptrs.
Definition CFDictionaryGetCount := Template.GetCount.
Definition CFDictionaryGetCountOfKey := Template.GetCountOfKey call_equal call_hash call_indirect ptrs.
Definition CFDictionaryContainsKey := Template.ContainsKey call_equal call_hash call_indirect ptrs.
Definition CFDictionaryGetValue := Template.GetValue call_equal call_hash call_indirect ptrs.
Definition CFDictionaryGetValueIfPresent := Template.GetValueIfPresent call_equal call_hash call_indirect ptrs.
Definition CFDictionaryGetCountOfValue := Template.GetCountOfValue call_equal call_hash call_indirect ptrs.
Definition CFDictionaryContainsValue := Template.ContainsValue call_equal call_hash call_indirect ptrs.
Definition CFDictionaryGetKeyIfPresent := Template.GetKeyIfPresent call_equal call_hash call_indirect ptrs.
Definition CFDictionaryGetKeysAndValues := Template.GetKeysAndValues call_indirect ptrs.
Definition CFDictionaryApplyFunction := Template.ApplyFunction KDictionary call_indirect ptrs.
Definition _CFDictionaryFastEnumeration := Template.FastEnumeration call_indirect ptrs.
Definition _CFDictionaryIsMutable := Template.IsMutable.
Definition _CFDictionarySetCapacity := Template.SetCapacity call_hash call_indirect ptrs.
Definition _CFDictionaryGetKVOBit := Template.GetKVOBit.
Definition _CFDictionarySetKVOBit := Template.SetKVOBit.
Definition CFDictionaryAddValue := Template.AddValue call_retain call_equal call_hash call_indirect ptrs.
Definition CFDictionaryReplaceValue := Template.ReplaceValue call_retain call_equal call_hash call_indirect ptrs.
Definition CFDictionarySetValue := Template.SetValue call_retain call_equal call_hash call_indirect ptrs.
Definition CFDictionaryRemoveValue := Template.RemoveValue call_equal call_hash call_indirect ptrs.
Definition CFDictionaryRemoveAllValues := Template.RemoveAllValues ptrs.
Definition __CFDictionaryEqual := Template.Equal call_equal call_hash call_indirect ptrs.
Definition __CFDictionaryHash := Template.Hash.
Definition __CFDictionaryDeallocate := Template.Deallocate ptrs.

End Dictionary.
End Dictionary.

(** ** CFSet.c *)

Module Set_.
Section Set_.
Context (call_retain : Z -> Z -> Z) (call_equal : Z -> Z -> Z -> bool) (call_hash call_indirect : Z -> Z -> Z).

Definition kCFTypeSetCallBacks := kCFTypeKeyCallBacks.
Definition kCFCopyStringSetCallBacks := kCFCopyStringKeyCallBacks.

(** [vlist = klist] and no callbacks for values *)
Definition __CFSetCreateTransfer (std : standard_functions) (reg : callback_registry) (klist : list Z) (numValues : Z) :=
  Template.CreateTransfer KSet call_retain call_equal call_hash call_indirect std reg klist klist numValues.
Definition CFSetCreate (reg : callback_registry) (klist : list Z) (numValues : Z) (keyCallBacks : option CFHashKeyCallBacks) :=
  Template.Create KSet call_retain call_equal call_hash call_indirect reg klist klist numValues keyCallBacks None.
Definition CFSetCreateMutable (reg : callback_registry) (capacity : Z) (keyCallBacks : option CFHashKeyCallBacks) :=
  Template.CreateMutable KSet reg capacity keyCallBacks None.

Context (ptrs : list Z).

Definition CFSetCreateCopy := Template.CreateCopy call_retain ptrs.
Definition CFSetCreateMutableCopy := Template.CreateMutableCopy call_retain ptrs.
Definition CFSetGetCount := Template.GetCount.
Definition CFSetGetCountOfValue := Template.GetCountOfKey call_equal call_hash call_indirect ptrs.
Definition CFSetContainsValue := Template.ContainsKey call_equal call_hash call_indirect ptrs.
Definition CFSetGetValue := Template.GetValue call_equal call_hash call_indirect ptrs.
Definition CFSetGetValueIfPresent := Template.GetValueIfPresent call_equal call_hash call_indirect ptrs.
Definition CFSetGetValues (hc : __CFBasicHash) (keybuf : option (list Z)) :=
  Template.GetKeysAndValues call_indirect ptrs hc keybuf None.
Definition CFSetApplyFunction := Template.ApplyFunction KSet call_indirect ptrs.
Definition _CFSetFastEnumeration := Template.FastEnumeration call_indirect ptrs.
Definition _CFSetIsMutable := Template.IsMutable.
Definition _CFSetSetCapacity := Template.SetCapacity call_hash call_indirect ptrs.
Definition _CFSetGetKVOBit := Template.GetKVOBit.
Definition _CFSetSetKVOBit := Template.SetKVOBit.
Definition CFSetAddValue (hc : __CFBasicHash) (key : Z) := Template.AddValue call_retain call_equal call_hash call_indirect ptrs hc key key.
Definition CFSetReplaceValue (hc : __CFBasicHash) (key : Z) := Template.ReplaceValue call_retain call_equal call_hash call_indirect ptrs hc key key.
Definition CFSetSetValue (hc : __CFBasicHash) (key : Z) := Template.SetValue call_retain call_equal call_hash call_indirect ptrs hc key key.
Definition CFSetRemoveValue := Template.RemoveValue call_equal call_hash call_indirect ptrs.
Definition CFSetRemoveAllValues := Template.RemoveAllValues ptrs.
Definition __CFSetEqual := Template.Equal call_equal call_hash call_indirect ptrs.
Definition __CFSetHash := Template.Hash.
Definition __CFSetDeallocate := Template.Deallocate ptrs.

End Set_.
End Set_.

(** ** CFBag.c *)

Module Bag.
Section Bag.
Context (call_retain : Z -> Z -> Z) (call_equal : Z -> Z -> Z -> bool) (call_hash call_indirect : Z -> Z -> Z).

Definition kCFTypeBagCallBacks := kCFTypeKeyCallBacks.
Definition kCFCopyStringBagCallBacks := kCFCopyStringKeyCallBacks.

(** [vlist = klist] and no callbacks for values *)
Definition __CFBagCreateTransfer (std : standard_functions) (reg : callback_registry) (klist : list Z) (numValues : Z) :=
  Template.CreateTransfer KBag call_retain call_equal call_hash call_indirect std reg klist klist numValues.
Definition CFBagCreate (reg : callback_registry) (klist : list Z) (numValues : Z) (keyCallBacks : option CFHashKeyCallBacks) :=
  Template.Create KBag call_retain call_equal call_hash call_indirect reg klist klist numValues keyCallBacks None.
Definition CFBagCreateMutable (reg : callback_registry) (capacity : Z) (keyCallBacks : option CFHashKeyCallBacks) :=
  Template.CreateMutable KBag reg capacity keyCallBacks None.

Context (ptrs : list Z).

Definition CFBagCreateCopy := Template.CreateCopy call_retain ptrs.
Definition CFBagCreateMutableCopy := Template.CreateMutableCopy call_retain ptrs.
Definition CFBagGetCount := Template.GetCount.
Definition CFBagGetCountOfValue := Template.GetCountOfKey call_equal call_hash call_indirect ptrs.
Definition CFBagContainsValue := Template.ContainsKey call_equal call_hash call_indirect ptrs.
Definition CFBagGetValue := Template.GetValue call_equal call_hash call_indirect ptrs.
Definition CFBagGetValueIfPresent := Template.GetValueIfPresent call_equal call_hash call_indirect ptrs.
Definition CFBagGetValues (hc : __CFBasicHash) (keybuf : option (list Z)) :=
  Template.GetKeysAndValues call_indirect ptrs hc keybuf None.
Definition CFBagApplyFunction := Template.ApplyFunction KBag call_indirect ptrs.
Definition _CFBagFastEnumeration := Template.FastEnumeration call_indirect ptrs.
Definition _CFBagIsMutable := Template.IsMutable.
Definition _CFBagSetCapacity := Template.SetCapacity call_hash call_indirect ptrs.
Definition _CFBagGetKVOBit := Template.GetKVOBit.
Definition _CFBagSetKVOBit := Template.SetKVOBit.
Definition CFBagAddValue (hc : __CFBasicHash) (key : Z) := Template.AddValue call_retain call_equal call_hash call_indirect ptrs hc key key.
Definition CFBagReplaceValue (hc : __CFBasicHash) (key : Z) := Template.ReplaceValue call_retain call_equal call_hash call_indirect ptrs hc key key.
Definition CFBagSetValue (hc : __CFBasicHash) (key : Z) := Template.SetValue call_retain call_equal call_hash call_indirect ptrs hc key key.
Definition CFBagRemoveValue := Template.RemoveValue call_equal call_hash call_indirect ptrs.
Definition CFBagRemoveAllValues := Template.RemoveAllValues ptrs.
Definition __CFBagEqual := Template.Equal call_equal call_hash call_indirect ptrs.
Definition __CFBagHash := Template.Hash.
Definition __CFBagDeallocate := Template.Deallocate ptrs.

End Bag.
End Bag.

(** ** Bags of entries as functions of the key *)

Section Model.
Context (ptrs : list Z) (cr : Z -> Z -> Z) (ce : Z -> Z -> Z -> bool) (ch ci : Z -> Z -> Z).
Context (o : __CFBasicHash) `{HK : !KeyContract ptrs ce ch (config o)}.

Notation key_eq := (key_eq ptrs ce).
Notation E := (key_eq (config o)).

(** What is stored for a key: the value and the count. *)
Definition model := Z -> option (Z * Z).

(** [m] at the keys equal to [k] is [r]. *)
Definition upd {A} (e : Z -> Z -> bool) (m : Z -> A) (k : Z) (r : A) : Z -> A := fun x => if e k x then r else m x.

Definition model_step (m : model) (c : hash_call) : model :=
  match c with
  | CallAdd k v =>
      match m k with
      | Some (w, n) => if has_counts o then upd E m k (Some (w, n + 1)) else m
      | None => upd E m k (Some (stored_value ptrs cr o v, 1))
      end
  | CallReplace k v => match m k with Some (_, n) => upd E m k (Some (stored_value ptrs cr o v, n)) | None => m end
  | CallSet k v => upd E m k (Some (stored_value ptrs cr o v, match m k with Some (_, n) => n | None => 1 end))
  | CallRemove k => match m k with Some (w, n) => upd E m k (if n =? 1 then None else Some (w, n - 1)) | None => m end
  | CallRemoveAll => fun _ => None
  | CallSetCapacity _ => m
  end.

(** What a bag of entries stores for the key [x]. *)
Definition stores (l : list entry) (x : Z) (r : option (Z * Z)) : Prop :=
  match r with
  | Some (v, n) => exists e, e ∈ l /\ E (e_key e) x = true /\ e_value e = v /\ e_count e = n
  | None => not_in ptrs ce o l x
  end.

Definition represents (l : list entry) (m : model) : Prop := forall x, stores l x (m x).

(** No two entries have equal keys. *)
Definition distinct (l : list entry) : Prop :=
  forall e rest, l ≡ₚ e :: rest -> forall e', e' ∈ rest -> E (e_key e') (e_key e) = false.

Lemma wf_distinct ht sl : wf ptrs ce ch ci ht sl -> config ht = config o -> distinct (entries sl).
Proof.
  intros Hwf Hc e rest Hp e' He'. destruct (E (e_key e') (e_key e)) eqn:Hk; [|done]. exfalso.
  pose proof (wf_unique _ _ _ _ _ _ Hwf) as Hu. rewrite Hc in Hu.
  assert (e ∈ entries sl) as [b Hb]%elem_of_entries by (rewrite Hp; set_solver).
  assert (e' ∈ entries sl) as [b' Hb']%elem_of_entries by (rewrite Hp; set_solver).
  pose proof (Hu b' b e' e Hb' Hb Hk) as ->. rewrite Hb in Hb'. injection Hb' as <-.
  pose proof (NoDup_entries ptrs ce (config o) sl Hu) as Hn. rewrite Hp in Hn. by apply NoDup_cons in Hn as [? _].
Qed.

Lemma stores_Permutation l l' x r : l ≡ₚ l' -> stores l x r -> stores l' x r.
Proof.
  intros Hp. destruct r as [[v n]|]; simpl.
  - intros (e & He & H). exists e. by rewrite <- Hp.
  - intros H e He. apply H. by rewrite Hp.
Qed.

Lemma represents_Permutation l l' m : l ≡ₚ l' -> represents l m -> represents l' m.
Proof. intros Hp H x. by apply (stores_Permutation l). Qed.

(** Equal keys cannot be told apart. *)
Lemma key_eq_right a b x : E a b = true -> E x a = E x b.
Proof.
  intros H. pose proof (key_eq_sym ptrs ce ch a b H) as H'.
  destruct (E x a) eqn:Ha, (E x b) eqn:Hb; try done.
  - by rewrite (key_eq_trans ptrs ce ch x a b Ha H) in Hb.
  - by rewrite (key_eq_trans ptrs ce ch x b a Hb H') in Ha.
Qed.

Lemma key_eq_left a b x : E a b = true -> E a x = E b x.
Proof.
  intros H. pose proof (key_eq_sym ptrs ce ch a b H) as H'.
  destruct (E a x) eqn:Ha, (E b x) eqn:Hb; try done.
  - by rewrite (key_eq_trans ptrs ce ch b a x H' Ha) in Hb.
  - by rewrite (key_eq_trans ptrs ce ch a b x H Hb) in Ha.
Qed.

(** The entries with a key equal to [k] are exchanged for [new] (at most one
    entry) and the others stay. *)
Lemma represents_exchange l l' old new rest k m r :
  represents l m -> l ≡ₚ old ++ rest -> l' ≡ₚ new ++ rest -> not_in ptrs ce o rest k ->
  (forall e, e ∈ old -> E (e_key e) k = true) -> (forall e, e ∈ new -> E (e_key e) k = true) ->
  stores new k r -> represents l' (upd E m k r).
Proof.
  intros Hm Hl Hl' Hrest Hold Hnew Hr x. apply (stores_Permutation (new ++ rest)); [done|]. unfold upd.
  destruct (E k x) eqn:Hkx.
  - destruct r as [[v n]|]; simpl in Hr |- *.
    + destruct Hr as (e & He & Hk & H). exists e. split_and!; [set_solver|by rewrite <- (key_eq_right k x)|apply H..].
    + intros e [He|He]%elem_of_app; rewrite <- (key_eq_right k x) by done; auto.
  - specialize (Hm x). apply (stores_Permutation l (old ++ rest)) in Hm; [|done].
    destruct (m x) as [[v n]|]; simpl in Hm |- *.
    + destruct Hm as (e & [He|He]%elem_of_app & Hk & H); [|exists e; split; [set_solver|done]].
      rewrite (key_eq_left _ k) in Hk by auto. congruence.
    + intros e [He|He]%elem_of_app; [rewrite (key_eq_left _ k); auto|apply Hm; set_solver].
Qed.

(** The entry a search picks is what is stored. *)
Lemma stores_picked l k e rest r : distinct l -> stores l k r -> picked ptrs ce o l k e rest -> r = Some (e_value e, e_count e).
Proof.
  intros Hd Hs (Hp & Hk). apply (stores_Permutation l (e :: rest)) in Hs; [|done]. destruct r as [[v n]|]; simpl in Hs.
  - destruct Hs as (e' & [->|He']%elem_of_cons & Hk' & <- & <-); [done|].
    specialize (Hd e rest Hp e' He'). rewrite (key_eq_right (e_key e) k) in Hd by done. congruence.
  - rewrite Hs in Hk by set_solver. done.
Qed.

Lemma stores_not_in l k r : stores l k r -> not_in ptrs ce o l k -> r = None.
Proof. destruct r as [[v n]|]; [|done]. intros (e & He & Hk & _) H. rewrite H in Hk by done. done. Qed.

Lemma picked_rest l k e rest : distinct l -> picked ptrs ce o l k e rest -> not_in ptrs ce o rest k.
Proof. intros Hd (Hp & Hk) e' He'. rewrite <- (key_eq_right (e_key e) k) by done. by apply (Hd e rest). Qed.

Lemma represents_picked l l' k e rest new m r :
  distinct l -> represents l m -> picked ptrs ce o l k e rest -> l' ≡ₚ new ++ rest ->
  (forall e', e' ∈ new -> E (e_key e') k = true) -> stores new k r -> represents l' (upd E m k r).
Proof.
  intros Hd Hm Hpk Hl' Hnew Hr. apply (represents_exchange l l' [e] new rest k); try done; [apply Hpk|by apply (picked_rest l k e)|].
  intros e' ->%list_elem_of_singleton. apply Hpk.
Qed.

Lemma represents_replaced l l' k e rest e' m :
  distinct l -> represents l m -> picked ptrs ce o l k e rest -> l' ≡ₚ e' :: rest -> E (e_key e') k = true ->
  represents l' (upd E m k (Some (e_value e', e_count e'))).
Proof.
  intros Hd Hm Hpk Hl' Hk. apply (represents_picked l l' k e rest [e']); try done.
  - by intros ? ->%list_elem_of_singleton.
  - exists e'. split_and!; [by apply list_elem_of_singleton|done..].
Qed.

Lemma represents_added l l' k new m :
  represents l m -> not_in ptrs ce o l k -> l' ≡ₚ new :: l -> E (e_key new) k = true ->
  represents l' (upd E m k (Some (e_value new, e_count new))).
Proof.
  intros Hm Hn Hl' Hk. apply (represents_exchange l l' [] [new] l k); try done; [set_solver| |].
  - by intros e ->%list_elem_of_singleton.
  - exists new. split_and!; [set_solver|done..].
Qed.

Lemma stored_entry_key k v n : pair_ok ptrs cr ce ci o k v -> E (e_key (stored_entry ptrs cr ci o k v n)) k = true.
Proof. intros (_ & _ & _ & _ & H). exact H. Qed.

(** A step of the map is a step of the function it represents. *)
Lemma map_step_model l l' m c r t :
  distinct l -> represents l m -> (forall e, e ∈ l -> e_count e < INT64_MAX) ->
  call_ok ptrs cr ce ci o c -> (forall k, c = CallRemove k -> plain k) ->
  map_step ptrs cr ce ci o l c r t l' -> represents l' (model_step m c).
Proof.
  intros Hd Hm Hmax Hok Hrm Hstep. assert (forall k e rest, picked ptrs ce o l k e rest -> e ∈ l) as Hin.
  { intros k e rest (Hp & _). rewrite Hp. set_solver. }
  destruct Hstep as [k v l' Hn Hl'|k v e rest l' Hpk Hc _ Hl'|k v e rest l' Hpk Hc Hl'|k v e rest l' Hpk Hl'|k v l' Hn Hl'
    |k v e rest l' Hpk Hl'|k v l' Hn Hl'|k e rest l' Hpk Hone Hl'|k e rest l' Hpk Hone Hl'|k e rest l' Hpk Hone Hl'|k l' Hn Hl'
    |l0 Hl0|n l' Hl']; cbn [model_step];
    try (rewrite (stores_not_in l k _ (Hm k) Hn)); try (rewrite (stores_picked l k e rest _ Hd (Hm k) Hpk));
    try (by apply (represents_Permutation l)).
  - by apply (represents_added l l' k _ m Hm Hn Hl'), stored_entry_key.
  - rewrite Hc. apply (represents_replaced l l' k e rest (with_count e (e_count e + 1)) m); try done. apply Hpk.
  - pose proof (Hmax e (Hin _ _ _ Hpk)). destruct Hc as [->|]; [|lia]. by apply (represents_Permutation l).
  - by apply (represents_replaced l l' k e rest (stored_entry ptrs cr ci o k v (e_count e)) m), stored_entry_key.
  - by apply (represents_replaced l l' k e rest (stored_entry ptrs cr ci o k v (e_count e)) m), stored_entry_key.
  - by apply (represents_added l l' k _ m Hm Hn Hl'), stored_entry_key.
  - rewrite Hone. apply (represents_picked l l' k e rest []); try done; set_solver.
  - rewrite (proj2 (Z.eqb_neq _ _)) by lia. apply (represents_replaced l l' k e rest (with_count e (e_count e - 1)) m); try done. apply Hpk.
  - pose proof (Hmax e (Hin _ _ _ Hpk)). lia.
  - destruct Hn as [Hn|Hn]; [|by destruct (Hn (Hrm k eq_refl))].
    rewrite (stores_not_in l k _ (Hm k) Hn). by apply (represents_Permutation l).
  - intros x e He. set_solver.
Qed.

(** A call raises a count by at most one. *)
Lemma map_step_counts l l' c r t j :
  0 <= j -> (forall e, e ∈ l -> e_count e <= j) -> map_step ptrs cr ce ci o l c r t l' -> forall e, e ∈ l' -> e_count e <= j + 1.
Proof.
  intros Hj Hl Hstep e' He'.
  assert (forall k e rest, picked ptrs ce o l k e rest -> e_count e <= j /\ forall e0, e0 ∈ rest -> e_count e0 <= j) as Hpick.
  { intros k e rest (Hp & _). split; [|intros e0 H0]; apply Hl; rewrite Hp; set_solver. }
  assert (forall e0, e0 ∈ l -> e_count e0 <= j + 1) as Hl1 by (intros e0 H0; specialize (Hl e0 H0); lia).
  destruct Hstep as [k v l' Hn Hl'|k v e rest l' Hpk Hc _ Hl'|k v e rest l' Hpk Hc Hl'|k v e rest l' Hpk Hl'|k v l' Hn Hl'
    |k v e rest l' Hpk Hl'|k v l' Hn Hl'|k e rest l' Hpk Hone Hl'|k e rest l' Hpk Hone Hl'|k e rest l' Hpk Hone Hl'|k l' Hn Hl'
    |l0 Hl0|n l' Hl']; try rewrite Hl' in He'; try (by apply Hl1); try (destruct (Hpick _ _ _ Hpk) as [He Hrest]);
    repeat match goal with H : e' ∈ _ :: _ |- _ => apply elem_of_cons in H as [->|He'] end;
    cbn [e_count with_count stored_entry]; try lia; auto.
  - specialize (Hrest e' He'). lia.
  - specialize (Hrest e' He'). lia.
  - specialize (Hrest e' He'). lia.
  - specialize (Hrest e' He'). lia.
  - specialize (Hrest e' He'). lia.
  - by apply not_elem_of_nil in He'.
Qed.

(** *** Runs of calls *)

Fixpoint run {C} (f : __CFBasicHash -> C -> io __CFBasicHash) (ht : __CFBasicHash) (cs : list C) : io __CFBasicHash :=
  match cs with
  | [] => io_ret ht
  | c :: cs' => do* ht := f ht c in run f ht cs'
  end.

Definition drop_result (m : io (__CFBasicHash * Z)) : io __CFBasicHash := do* (ht, _) := m in io_ret ht.

(** What a call of a client needs; a key to remove is not a substitute either. *)
Definition client_ok (c : hash_call) : Prop :=
  match c with CallRemove k => plain k | _ => call_ok ptrs cr ce ci o c end.

Lemma run_spec {C} (f : __CFBasicHash -> C -> io __CFBasicHash) (g : C -> hash_call) ht sl m j cs :
  (forall ht c, f ht c = drop_result (do_call ptrs cr ce ch ci ht (g c))) ->
  table ptrs ce ch ci o ht sl -> represents (entries sl) m ->
  0 <= j -> (forall e, e ∈ entries sl -> e_count e <= j) -> Z.of_nat (length (entries sl)) <= j ->
  Forall (fun c => client_ok (g c)) cs -> j + Z.of_nat (length cs) <= max_entries ->
  exists ht' sl' t, run f ht cs = Some (ht', t) /\ table ptrs ce ch ci o ht' sl' /\
    represents (entries sl') (foldl model_step m (g <$> cs)) /\
    (forall e, e ∈ entries sl' -> e_count e <= j + Z.of_nat (length cs)) /\
    Z.of_nat (length (entries sl')) <= j + Z.of_nat (length cs).
Proof.
  intros Hf. revert ht sl m j. induction cs as [|c cs IH]; intros ht sl m j Ht Hm Hj Hcnt Hlen Hok Hmax.
  - exists ht, sl, []. simpl. split_and!; [done|done|done| |lia]. intros e He. specialize (Hcnt e He). lia.
  - apply Forall_cons in Hok as [Hc Hok]. cbn [length] in *.
    assert (call_ok ptrs cr ce ci o (g c) /\ forall k, g c = CallRemove k -> plain k) as [Hco Hrm].
    { destruct (g c); split; try done; by intros k0 [= <-]. }
    destruct (refines_call ptrs cr ce ch ci o ht sl (g c) Ht Hco) as (ht1 & sl1 & r & t & E1 & Ht1 & Hstep & Hl1); [lia|].
    assert (represents (entries sl1) (model_step m (g c))) as Hm1.
    { eapply map_step_model; try done; [by apply (wf_distinct ht sl); apply Ht|].
      intros e He. specialize (Hcnt e He). unfold max_entries, INT64_MAX in *. lia. }
    destruct (IH ht1 sl1 _ (j + 1) Ht1 Hm1) as (ht' & sl' & t' & E2 & Ht' & Hm' & Hcnt' & Hlen'); [lia| |lia|done|lia|].
    { by apply (map_step_counts _ _ _ _ _ _ Hj Hcnt Hstep). }
    exists ht', sl', (t ++ t'). cbn [run]. rewrite Hf, E1. unfold drop_result. cbn [io_bind io_ret]. rewrite E2. cbn [io_bind].
    rewrite app_nil_r. split_and!; [done|done|done| |lia]. intros e He. specialize (Hcnt' e He). lia.
Qed.
End Model.

(** *** Queries *)

Section ModelQueries.
Context (ptrs : list Z) (cr : Z -> Z -> Z) (ce : Z -> Z -> Z -> bool) (ch ci : Z -> Z -> Z).
Context (ht : __CFBasicHash) (sl : list slot) (m : model) `{HK : !KeyContract ptrs ce ch (config ht)}.
Context (Hwf : wf ptrs ce ch ci ht sl) (Hm : represents ptrs ce ht (entries sl) m).

(** A search finds what is stored. *)
Lemma find_model k :
  plain k -> exists bkt, CFBasicHashFindBucket ptrs ce ch ci ht k = Some bkt /\
    match m k with
    | Some (v, n) => 0 < n /\ count bkt = n /\ weak_value bkt = Some v
    | None => count bkt = 0
    end.
Proof.
  intros [Hk0 Hk1]. unfold CFBasicHashFindBucket. rewrite !(proj2 (Z.eqb_neq _ _)) by congruence. cbn [orb].
  destruct (find_count ptrs ce ch ci ht sl k Hwf HK) as (bkt & E & _ & Hf). exists bkt. split; [done|].
  pose proof (wf_distinct ptrs ce ch ci ht ht sl Hwf eq_refl) as Hd. specialize (Hm k).
  destruct Hf as [(e & He & Hk & _ & Hv & Hc & Hpos)|(Hc & Hn)].
  - apply elem_of_Permutation in He as [rest Hp].
    rewrite (stores_picked ptrs cr ce ch ci ht _ k e rest _ Hd Hm (conj Hp Hk)). by rewrite Hc.
  - by rewrite (stores_not_in ptrs ce ht _ k _ Hm Hn).
Qed.

Lemma get_value_model k : plain k -> Template.GetValue ce ch ci ptrs ht k = Some (default 0 (fst <$> m k)).
Proof.
  intros Hk. unfold Template.GetValue. destruct (find_model k Hk) as (bkt & -> & H). cbn [opt_bind].
  destruct (m k) as [[v n]|]; [destruct H as (Hn & -> & ->); by rewrite (proj2 (Z.ltb_lt 0 n))|by rewrite H].
Qed.

Lemma get_value_if_present_model k (b : bool) :
  plain k -> Template.GetValueIfPresent ce ch ci ptrs ht k b = Some (bool_decide (is_Some (m k)), if b then fst <$> m k else None).
Proof.
  intros Hk. unfold Template.GetValueIfPresent. destruct (find_model k Hk) as (bkt & -> & H). cbn [opt_bind].
  destruct (m k) as [[v n]|]; [destruct H as (Hn & -> & ->); rewrite (proj2 (Z.ltb_lt 0 n)) by done|rewrite H]; by destruct b.
Qed.

Lemma count_of_key_model k : count_of_key ptrs ce (config ht) k (entries sl) = match m k with Some (_, n) => n | None => 0 end.
Proof.
  destruct (find_count ptrs ce ch ci ht sl k Hwf HK) as (bkt & _ & <- & Hf).
  pose proof (wf_distinct ptrs ce ch ci ht ht sl Hwf eq_refl) as Hd. specialize (Hm k).
  destruct Hf as [(e & He & Hk & _ & _ & Hc & _)|(Hc & Hn)].
  - apply elem_of_Permutation in He as [rest Hp]. by rewrite (stores_picked ptrs cr ce ch ci ht _ k e rest _ Hd Hm (conj Hp Hk)).
  - by rewrite (stores_not_in ptrs ce ht _ k _ Hm Hn).
Qed.

Lemma get_count_of_key_model k :
  plain k -> Template.GetCountOfKey ce ch ci ptrs ht k = Some (match m k with Some (_, n) => n | None => 0 end).
Proof. intros Hk. unfold Template.GetCountOfKey. by rewrite (get_count_of_key_spec ptrs ce ch ci ht sl), count_of_key_model. Qed.

(** The count of an entry is that of its key. *)
Lemma entry_model e : e ∈ entries sl -> m (e_key e) = Some (e_value e, e_count e).
Proof.
  intros He. apply elem_of_Permutation in He as [rest Hp].
  apply (stores_picked ptrs cr ce ch ci ht (entries sl) (e_key e) e rest); [by apply (wf_distinct ptrs ce ch ci ht ht)|apply Hm|].
  split; [done|apply key_eq_refl].
Qed.

(** The keys of the entries list the keys of the model, each once. *)
Lemma keys_model :
  (forall x, is_Some (m x) <-> exists k, k ∈ e_key <$> entries sl /\ key_eq ptrs ce (config ht) k x = true) /\
  (forall i j a b, (e_key <$> entries sl) !! i = Some a -> (e_key <$> entries sl) !! j = Some b ->
     key_eq ptrs ce (config ht) a b = true -> i = j).
Proof.
  split.
  - intros x. specialize (Hm x). destruct (m x) as [[v n]|]; simpl in Hm; split; intros H.
    + destruct Hm as (e & He & Hk & _). exists (e_key e). split; [by apply list_elem_of_fmap_2|done].
    + by eexists.
    + by destruct H.
    + destruct H as (k & (e & -> & He)%list_elem_of_fmap & Hk). by rewrite Hm in Hk.
  - intros i j a b Hi Hj Hk. rewrite list_lookup_fmap in Hi, Hj.
    destruct (entries sl !! i) as [e|] eqn:Ei; [|done]. destruct (entries sl !! j) as [e'|] eqn:Ej; [|done].
    injection Hi as <-. injection Hj as <-. destruct (decide (i = j)) as [|Hne]; [done|exfalso].
    pose proof (wf_distinct ptrs ce ch ci ht ht sl Hwf eq_refl e' (delete j (entries sl)) (delete_Permutation _ _ _ Ej) e) as Hd.
    rewrite Hd in Hk; [done|]. apply list_elem_of_lookup.
    destruct (decide (i < j)%nat); [exists i; by rewrite list_lookup_delete_lt|exists (Nat.pred i)].
    rewrite list_lookup_delete_ge by lia. by rewrite Nat.succ_pred by lia.
Qed.

End ModelQueries.

(** ** What a client sees *)

(** A dictionary (or a set) as a partial function, and a bag as a function that
    counts, under an equality of keys and a way to retain values. *)
Section Specification.
Context (eq : Z -> Z -> bool) (ret : Z -> Z).

Definition dict_step (d : Z -> option Z) (c : hash_call) : Z -> option Z :=
  match c with
  | CallAdd k v => if d k then d else upd eq d k (Some (ret v))
  | CallReplace k v => if d k then upd eq d k (Some (ret v)) else d
  | CallSet k v => upd eq d k (Some (ret v))
  | CallRemove k => upd eq d k None
  | CallRemoveAll => fun _ => None
  | CallSetCapacity _ => d
  end.

Definition bag_step (b : Z -> Z) (c : hash_call) : Z -> Z :=
  match c with
  | CallAdd k _ => upd eq b k (b k + 1)
  | CallSet k _ => upd eq b k (Z.max 1 (b k))
  | CallRemove k => upd eq b k (Z.max 0 (b k - 1))
  | CallRemoveAll => fun _ => 0
  | CallReplace _ _ | CallSetCapacity _ => b
  end.

(** The pairs a collection is created with. *)
Definition add_calls (pairs : list (Z * Z)) : list hash_call := (fun p => CallAdd (fst p) (snd p)) <$> pairs.

(** The first pair with a key equal to [x] counts. *)
Definition first_pair (pairs : list (Z * Z)) (x : Z) : option Z :=
  (fun p => ret (snd p)) <$> head (filter (fun p => eq (fst p) x = true) pairs).

End Specification.

(** *** The specifications abstract the model *)

Section Abstraction.
Context (ptrs : list Z) (cr : Z -> Z -> Z) (ce : Z -> Z -> Z -> bool) (ch ci : Z -> Z -> Z).
Context (o : __CFBasicHash) `{HK : !KeyContract ptrs ce ch (config o)}.
Context (eq : Z -> Z -> bool) (ret : Z -> Z).
Context (Heq : forall a b, key_eq ptrs ce (config o) a b = eq a b) (Hret : forall v, stored_value ptrs cr o v = ret v).

Lemma upd_respects {A} (m : Z -> A) k r :
  (forall a b, eq a b = true -> m a = m b) -> forall a b, eq a b = true -> upd eq m k r a = upd eq m k r b.
Proof.
  intros Hm a b Hab. unfold upd. rewrite (Hm a b Hab), <- !Heq. rewrite <- Heq in Hab.
  by rewrite (key_eq_right ptrs ce ch o a b).
Qed.

Definition dict_view (d : Z -> option Z) (m : model) : Prop :=
  (forall x, d x = fst <$> m x /\ forall v n, m x = Some (v, n) -> n = 1) /\ (forall a b, eq a b = true -> d a = d b).

Lemma dict_view_step d m c : has_counts o = false -> dict_view d m -> dict_view (dict_step eq ret d c) (model_step ptrs cr ce o m c).
Proof.
  intros Hc [Hd He].
  assert (forall k, d k = None -> forall x, eq k x = true -> m x = None) as Hnone.
  { intros k Hk x Hx. rewrite (He k x Hx) in Hk. destruct (Hd x) as [Hx' _]. rewrite Hk in Hx'. by destruct (m x). }
  assert (forall k r q, (r = fst <$> q /\ forall v n, q = Some (v, n) -> n = 1) ->
    dict_view (upd eq d k r) (upd (key_eq ptrs ce (config o)) m k q)) as Hupd.
  { intros k r q Hrq. split; [|by apply upd_respects]. intros x. unfold upd. rewrite Heq. destruct (eq k x); [done|apply Hd]. }
  destruct c as [k v|k v|k v|k| |n]; cbn [dict_step model_step]; rewrite ?Hret, ?Hc.
  - destruct (Hd k) as [-> _]. destruct (m k) as [[w n]|]; [done|]. simpl. apply Hupd. by split; [|intros ? ? [= _ <-]].
  - destruct (Hd k) as [-> Hn]. destruct (m k) as [[w n]|]; [|done]. simpl. apply Hupd. split; [done|].
    intros ? ? [= _ <-]. by apply (Hn w).
  - destruct (Hd k) as [_ Hn]. apply Hupd. split; [done|]. intros ? n' [= _ <-]. destruct (m k) as [[w n]|]; [by apply (Hn w)|done].
  - pose proof (Hd k) as [Hdk Hn]. destruct (m k) as [[w n]|] eqn:Em.
    + rewrite (Hn w n eq_refl). simpl. by apply Hupd.
    + split; [|by apply upd_respects]. intros x. unfold upd. destruct (eq k x) eqn:Ex; [|apply Hd]. by rewrite (Hnone k Hdk x Ex).
  - by split; [intros x; split|].
  - done.
Qed.

Definition bag_view (b : Z -> Z) (m : model) : Prop :=
  (forall x, match m x with Some (_, n) => b x = n /\ 0 < n | None => b x = 0 end) /\ (forall a a', eq a a' = true -> b a = b a').

Lemma bag_view_step b m c : has_counts o = true -> bag_view b m -> bag_view (bag_step eq b c) (model_step ptrs cr ce o m c).
Proof.
  intros Hc [Hb He].
  assert (forall k r q, match q with Some (_, n) => r = n /\ 0 < n | None => r = 0 end ->
    bag_view (upd eq b k r) (upd (key_eq ptrs ce (config o)) m k q)) as Hupd.
  { intros k r q Hrq. split; [|by apply upd_respects]. intros x. unfold upd. rewrite Heq. destruct (eq k x); [done|apply Hb]. }
  assert (forall k r, r = b k -> forall m', bag_view b m' -> bag_view (upd eq b k r) m') as Hid.
  { intros k r -> m' [Hb' _]. split; [|by apply upd_respects]. intros x. specialize (Hb' x). unfold upd.
    destruct (eq k x) eqn:Ex; [|done]. by rewrite (He k x Ex). }
  assert (forall k w n, m k = Some (w, n) -> forall v, bag_view b (upd (key_eq ptrs ce (config o)) m k (Some (v, n)))) as Hsame.
  { intros k w n Em v. split; [|done]. intros x. unfold upd. rewrite Heq. destruct (eq k x) eqn:Ex; [|apply Hb].
    rewrite <- (He k x Ex). specialize (Hb k). by rewrite Em in Hb. }
  destruct c as [k v|k v|k v|k| |n]; cbn [bag_step model_step]; rewrite ?Hc.
  - specialize (Hb k). destruct (m k) as [[w n]|]; apply Hupd; [destruct Hb; lia|lia].
  - destruct (m k) as [[w n]|] eqn:Em; [by apply (Hsame k w)|done].
  - pose proof (Hb k) as Hk. destruct (m k) as [[w n]|] eqn:Em; [apply Hid; [lia|by apply (Hsame k w)]|apply Hupd; lia].
  - pose proof (Hb k) as Hk. destruct (m k) as [[w n]|] eqn:Em; [|by apply Hid; [lia|]].
    apply Hupd. destruct (Z.eqb_spec n 1); lia.
  - done.
  - done.
Qed.

Lemma foldl_view {A} (R : A -> model -> Prop) (step : A -> hash_call -> A) a m cs :
  (forall a m c, R a m -> R (step a c) (model_step ptrs cr ce o m c)) -> R a m ->
  R (foldl step a cs) (foldl (model_step ptrs cr ce o) m cs).
Proof. intros Hstep. revert a m. induction cs as [|c cs IH]; intros a m H; [done|]. simpl. apply IH. by apply Hstep. Qed.

(** Adding pairs keeps the first of each key. *)
Lemma dict_adds pairs d x :
  (forall a b, eq a b = true -> d a = d b) ->
  foldl (dict_step eq ret) d (add_calls pairs) x = match d x with Some w => Some w | None => first_pair eq ret pairs x end.
Proof.
  revert d. induction pairs as [|[k v] pairs IH]; intros d He; simpl.
  - by destruct (d x).
  - rewrite IH; [|destruct (d k); [done|by apply upd_respects]]. unfold first_pair. rewrite filter_cons. simpl.
    destruct (eq k x) eqn:Ex.
    + rewrite decide_True by done. rewrite (He k x Ex). unfold upd. destruct (d x) as [w|] eqn:Edx; simpl; by rewrite ?Ex, ?Edx.
    + rewrite decide_False by done. unfold upd. destruct (d k); by rewrite ?Ex.
Qed.

End Abstraction.

(** *** New collections *)

Section Clients.
Context (cr : Z -> Z -> Z) (ce : Z -> Z -> Z -> bool) (ch ci : Z -> Z -> Z).

(** Keys as the callbacks of a client compare, hash and retain them. *)
Definition client_eq (kcb : option CFHashKeyCallBacks) (a b : Z) : bool :=
  let f := Template.field kcb key_equal in (a =? b) || (if f =? 0 then a =? b else ce f a b).

Definition client_hash (kcb : option CFHashKeyCallBacks) (k : Z) : Z :=
  let f := Template.field kcb key_hash_fn in if f =? 0 then k else ch f k.

Definition retained (f v : Z) : Z := if f =? 0 then v else cr f v.

(** What the callbacks of keys owe a collection (CFDictionary.h, CFSet.h, CFBag.h). *)
Class ClientKeys (kcb : option CFHashKeyCallBacks) : Prop := {
  client_eq_sym : forall a b, client_eq kcb a b = true -> client_eq kcb b a = true;
  client_eq_trans : forall a b d, client_eq kcb a b = true -> client_eq kcb b d = true -> client_eq kcb a d = true;
  client_eq_hash : forall a b, client_eq kcb a b = true -> client_hash kcb a = client_hash kcb b
}.

Definition key_retainer (kcb : option CFHashKeyCallBacks) : Z := Template.field kcb key_retain.
Definition value_retainer (kind : collection) (kcb : option CFHashKeyCallBacks) (vcb : option CFHashValueCallBacks) : Z :=
  if is_dictionary kind then Template.field vcb value_retain else key_retainer kcb.

(** A new empty collection with these callbacks, given the registered pointers. *)
Record fresh (kind : collection) kcb vcb (ptrs : list Z) (ht : __CFBasicHash) : Prop := mkFresh {
  fresh_eq : forall a b, key_eq ptrs ce (config ht) a b = client_eq kcb a b;
  fresh_hash : forall k, key_hash ptrs ch (config ht) k = client_hash kcb k;
  fresh_value : forall v, stored_value ptrs cr ht v = retained (value_retainer kind kcb vcb) v;
  fresh_key : forall k, stored_key ptrs cr ht k = retained (key_retainer kcb) k;
  fresh_own : forall v, own_key ptrs ci (config ht) v = v;
  fresh_keys : has_keys ht = is_dictionary kind;
  fresh_counts : has_counts ht = is_bag kind;
  fresh_mutable : CFBasicHashIsMutable ht = true;
  fresh_wf : wf ptrs ce ch ci ht []
}.

Lemma create_generic_spec kind reg kcb vcb :
  registry_ok reg -> CFBasicHashCallBackPtrsCount reg <= 990 ->
  exists reg' ht, Template.CreateGeneric kind reg kcb vcb (is_dictionary kind) = Some (reg', ht) /\ extends reg reg' /\
    forall reg'', extends reg' reg'' -> fresh kind kcb vcb (CFBasicHashCallBackPtrs reg'') ht.
Proof.
  intros Hreg Hn. unfold Template.CreateGeneric.
  assert (Template.base_flags kind = table_flags 1 (is_dictionary kind) (is_bag kind) false false) as -> by (by destruct kind).
  match goal with |- context [CFBasicHashCreate reg _ ?cb] =>
    destruct (hash_create_spec reg 1 (is_dictionary kind) (is_bag kind) false false cb Hreg Hn) as
      (reg' & ht & -> & Hx & Hcb & Hs & Hk & Hc & Hi & Hg & Hm & Hrc & Hmu & _ & Hwf); [lia|by destruct (is_dictionary kind)|] end.
  exists reg', ht. split; [done|]. split; [done|]. intros reg'' Hx''.
  destruct (Hcb reg'' Hx'') as (Ekr & Evr & _ & _ & Eke & _ & Ekh & Ekg & _ & _).
  cbn [retainKey retainValue equateKeys hashKey getIndirectKey] in *.
  constructor; try done.
  - intros a b. unfold key_eq, client_eq. by rewrite Eke.
  - intros k. unfold key_hash, client_hash. rewrite Ekh. by destruct (Template.field kcb key_hash_fn =? 0).
  - intros v. unfold stored_value, retained, value_retainer, key_retainer. rewrite Evr, Hrc. cbn [negb Z.eqb]. by rewrite orb_false_r.
  - intros k. unfold stored_key, retained, key_retainer. rewrite Ekr, Hrc. cbn [negb Z.eqb]. by rewrite orb_false_r.
  - intros v. unfold own_key. by rewrite Hi.
Qed.

Lemma fresh_contract kind kcb vcb ptrs ht : ClientKeys kcb -> fresh kind kcb vcb ptrs ht -> KeyContract ptrs ce ch (config ht).
Proof.
  intros HC Hf. constructor; intros *; rewrite ?(fresh_eq _ _ _ _ _ Hf), ?(fresh_hash _ _ _ _ _ Hf).
  - apply client_eq_sym.
  - apply client_eq_trans.
  - apply client_eq_hash.
Qed.

(** What a call of a client needs: keys and values, as given and as retained,
    that are not the two substitutes, a retained key equal to the key, and
    capacities within the bound. *)
Definition call_fine (kind : collection) kcb vcb (c : hash_call) : Prop :=
  match c with
  | CallAdd k v | CallReplace k v | CallSet k v =>
      plain k /\ plain v /\ plain (retained (value_retainer kind kcb vcb) v) /\
      (is_dictionary kind = true -> plain (retained (key_retainer kcb) k)) /\
      client_eq kcb (if is_dictionary kind then retained (key_retainer kcb) k else retained (value_retainer kind kcb vcb) v) k = true
  | CallRemove k => plain k
  | CallSetCapacity n => n <= max_entries
  | CallRemoveAll => True
  end.

Lemma call_fine_ok kind kcb vcb ptrs ht c : fresh kind kcb vcb ptrs ht -> call_fine kind kcb vcb c -> client_ok ptrs cr ce ci ht c.
Proof.
  intros Hf. assert (forall k v, call_fine kind kcb vcb (CallAdd k v) -> pair_ok ptrs cr ce ci ht k v) as H.
  { intros k v (Hk & Hv & Hrv & Hrk & He). unfold pair_ok, stored_entry. cbn [e_key].
    rewrite (fresh_eq _ _ _ _ _ Hf), (fresh_value _ _ _ _ _ Hf), (fresh_key _ _ _ _ _ Hf), (fresh_own _ _ _ _ _ Hf), (fresh_keys _ _ _ _ _ Hf).
    by split_and!. }
  destruct c; simpl; auto; apply H.
Qed.

(** Calls on a new collection. *)
Lemma run_fresh kind kcb vcb ptrs ht {C} (f : __CFBasicHash -> C -> io __CFBasicHash) (g : C -> hash_call) cs :
  ClientKeys kcb -> fresh kind kcb vcb ptrs ht ->
  (forall ht c, f ht c = drop_result (do_call ptrs cr ce ch ci ht (g c))) ->
  Forall (fun c => call_fine kind kcb vcb (g c)) cs -> Z.of_nat (length cs) <= max_entries ->
  exists ht' sl' t, run f ht cs = Some (ht', t) /\ wf ptrs ce ch ci ht' sl' /\ config ht' = config ht /\ same_object ht ht' /\
    represents ptrs ce ht (entries sl') (foldl (model_step ptrs cr ce ht) (fun _ => None) (g <$> cs)) /\
    (forall e, e ∈ entries sl' -> e_count e <= Z.of_nat (length cs)) /\ Z.of_nat (length (entries sl')) <= Z.of_nat (length cs).
Proof.
  intros HC Hf Hfg Hok Hlen. pose proof (fresh_contract _ _ _ _ _ HC Hf) as HK.
  destruct (run_spec ptrs cr ce ch ci ht f g ht [] (fun _ => None) 0 cs Hfg) as (ht' & sl' & t & E & (Hwf & Hs & _) & Hm & Hcnt & Hl).
  - split_and!; [apply Hf|done..|apply Hf].
  - intros x e He. by apply not_elem_of_nil in He.
  - lia.
  - intros e He. by apply not_elem_of_nil in He.
  - done.
  - apply (Forall_impl _ _ _ Hok). intros c. by apply call_fine_ok.
  - done.
  - exists ht', sl', t. split_and!; try done; apply Hs.
Qed.

End Clients.

(** ** Dictionaries, sets and bags *)

Section Collections.
Context (cr : Z -> Z -> Z) (ce : Z -> Z -> Z -> bool) (ch ci : Z -> Z -> Z).

(** The keys of a collection, each once up to the client's equality. *)
Definition lists_keys (eq : Z -> Z -> bool) (holds : Z -> Prop) (ks : list Z) : Prop :=
  (forall x, holds x <-> exists k, k ∈ ks /\ eq k x = true) /\
  (forall i j a b, ks !! i = Some a -> ks !! j = Some b -> eq a b = true -> i = j).

Definition do_dictionary (ptrs : list Z) (hc : __CFBasicHash) (c : hash_call) : io __CFBasicHash :=
  match c with
  | CallAdd k v => Dictionary.CFDictionaryAddValue cr ce ch ci ptrs hc k v
  | CallReplace k v => Dictionary.CFDictionaryReplaceValue cr ce ch ci ptrs hc k v
  | CallSet k v => Dictionary.CFDictionarySetValue cr ce ch ci ptrs hc k v
  | CallRemove k => Dictionary.CFDictionaryRemoveValue ce ch ci ptrs hc k
  | CallRemoveAll => Dictionary.CFDictionaryRemoveAllValues ptrs hc
  | CallSetCapacity n => Dictionary._CFDictionarySetCapacity ch ci ptrs hc n
  end.

(** The calls of a set or a bag: the value is its own key. *)
Inductive member_call := AddMember (k : Z) | ReplaceMember (k : Z) | SetMember (k : Z) | RemoveMember (k : Z) | RemoveAllMembers.

Definition as_hash_call (c : member_call) : hash_call :=
  match c with
  | AddMember k => CallAdd k k | ReplaceMember k => CallReplace k k | SetMember k => CallSet k k
  | RemoveMember k => CallRemove k | RemoveAllMembers => CallRemoveAll
  end.

Definition do_set (ptrs : list Z) (hc : __CFBasicHash) (c : member_call) : io __CFBasicHash :=
  match c with
  | AddMember k => Set_.CFSetAddValue cr ce ch ci ptrs hc k
  | ReplaceMember k => Set_.CFSetReplaceValue cr ce ch ci ptrs hc k
  | SetMember k => Set_.CFSetSetValue cr ce ch ci ptrs hc k
  | RemoveMember k => Set_.CFSetRemoveValue ce ch ci ptrs hc k
  | RemoveAllMembers => Set_.CFSetRemoveAllValues ptrs hc
  end.

Definition do_bag (ptrs : list Z) (hc : __CFBasicHash) (c : member_call) : io __CFBasicHash :=
  match c with
  | AddMember k => Bag.CFBagAddValue cr ce ch ci ptrs hc k
  | ReplaceMember k => Bag.CFBagReplaceValue cr ce ch ci ptrs hc k
  | SetMember k => Bag.CFBagSetValue cr ce ch ci ptrs hc k
  | RemoveMember k => Bag.CFBagRemoveValue ce ch ci ptrs hc k
  | RemoveAllMembers => Bag.CFBagRemoveAllValues ptrs hc
  end.

Lemma drop_ret {A} (m : io __CFBasicHash) (r : A) :
  (do* (ht, _) := (do* ht := m in io_ret (ht, r)) in io_ret ht) = m.
Proof. destruct m as [[ht t]|]; [|done]. cbn [io_bind io_ret]. by rewrite !app_nil_r. Qed.

Lemma drop_bool (m : io (__CFBasicHash * bool)) :
  drop_result (do* (ht, r) := m in io_ret (ht, if (r : bool) then 1 else 0)) = do* (ht, _) := m in io_ret ht.
Proof. unfold drop_result. destruct m as [[[ht b] t]|]; [|done]. cbn [io_bind io_ret]. by rewrite !app_nil_r. Qed.

Lemma do_dictionary_call ptrs hc c : do_dictionary ptrs hc c = drop_result (do_call ptrs cr ce ch ci hc c).
Proof. destruct c; cbn [do_dictionary do_call]; rewrite ?drop_bool; try done; symmetry; apply drop_ret. Qed.

Lemma do_set_call ptrs hc c : do_set ptrs hc c = drop_result (do_call ptrs cr ce ch ci hc (as_hash_call c)).
Proof. destruct c; cbn [do_set do_call as_hash_call]; rewrite ?drop_bool; try done; symmetry; apply drop_ret. Qed.

Lemma do_bag_call ptrs hc c : do_bag ptrs hc c = drop_result (do_call ptrs cr ce ch ci hc (as_hash_call c)).
Proof. destruct c; cbn [do_bag do_call as_hash_call]; rewrite ?drop_bool; try done; symmetry; apply drop_ret. Qed.

Lemma represents_config ptrs o o' l m : config o = config o' -> represents ptrs ce o l m -> represents ptrs ce o' l m.
Proof. intros Hc H x. specialize (H x). unfold stores, not_in in *. by rewrite <- Hc. Qed.

(** What the queries of a collection without counts answer after some calls. *)
Lemma dict_answers kind kcb vcb ptrs ht0 ht sl cs :
  ClientKeys ce ch kcb -> fresh cr ce ch ci kind kcb vcb ptrs ht0 -> is_bag kind = false ->
  wf ptrs ce ch ci ht sl -> config ht = config ht0 ->
  represents ptrs ce ht0 (entries sl) (foldl (model_step ptrs cr ce ht0) (fun _ => None) cs) ->
  let eq := client_eq ce kcb in
  let d := foldl (dict_step eq (retained cr (value_retainer kind kcb vcb))) (fun _ => None) cs in
  (forall k, plain k ->
    Template.GetValue ce ch ci ptrs ht k = Some (default 0 (d k)) /\
    Template.GetValueIfPresent ce ch ci ptrs ht k true = Some (bool_decide (is_Some (d k)), d k) /\
    Template.ContainsKey ce ch ci ptrs ht k = Some (bool_decide (is_Some (d k)))) /\
  exists ks, lists_keys eq (fun x => is_Some (d x)) ks /\ Template.GetCount ht = Some (Z.of_nat (length ks)).
Proof.
  intros HC Hf Hb Hwf Hc Hm eq d. pose proof (fresh_contract _ _ _ _ _ _ _ _ _ HC Hf) as HK.
  set (m := foldl _ _ cs) in Hm. assert (has_counts ht0 = false) as Hnc by (by rewrite (fresh_counts _ _ _ _ _ _ _ _ _ Hf)).
  assert (dict_view eq d m) as [Hd _].
  { apply (foldl_view ptrs cr ce ht0 (dict_view eq)); [|by split; [intros x; split|]]. intros d' m' c.
    apply (dict_view_step ptrs cr ce ch); [exact HK|apply Hf|by intros v; rewrite (fresh_value _ _ _ _ _ _ _ _ _ Hf)|done]. }
  apply (represents_config ptrs ht0 ht) in Hm; [|done]. assert (KeyContract ptrs ce ch (config ht)) as HK' by (by rewrite Hc).
  assert (forall k, is_Some (d k) <-> is_Some (m k)) as His by (intros k; rewrite (proj1 (Hd k)); apply fmap_is_Some). split.
  - intros k Hk. rewrite (get_value_model ptrs cr ce ch ci ht sl m Hwf Hm k Hk), (get_value_if_present_model ptrs cr ce ch ci ht sl m Hwf Hm k true Hk).
    rewrite <- (proj1 (Hd k)). unfold Template.ContainsKey.
    rewrite (bool_decide_ext _ _ (His k)).
    pose proof (get_count_of_key_model ptrs cr ce ch ci ht sl m Hwf Hm k Hk) as E. unfold Template.GetCountOfKey in E. rewrite E. cbn [opt_bind].
    split_and!; [done|done|]. f_equal. destruct (m k) as [[v n]|] eqn:Em; [|done]. by rewrite (proj2 (Hd k) v n Em).
  - destruct (keys_model ptrs ce ch ci ht sl m Hwf Hm) as [Hks Hdis]. exists (e_key <$> entries sl). split; [split|].
    + intros x. rewrite His, Hks, Hc.
      by split; intros (k & Hk & E); exists k; [rewrite (fresh_eq _ _ _ _ _ _ _ _ _ Hf) in E|rewrite (fresh_eq _ _ _ _ _ _ _ _ _ Hf)].
    + intros i j a b. unfold eq. rewrite <- (fresh_eq _ _ _ _ _ _ _ _ _ Hf), <- Hc. apply Hdis.
    + unfold Template.GetCount. rewrite (hash_get_count_spec ptrs ce ch ci ht sl Hwf), length_fmap.
      rewrite (entries_counts_one ptrs ci ht sl) by (apply Hwf || (unfold has_counts in *; by rewrite Hc)). f_equal. apply swrap_id; [lia|].
      pose proof (wf_max _ _ _ _ _ _ Hwf) as Hmax. rewrite (wf_used _ _ _ _ _ _ Hwf) in Hmax. unfold in_signed, max_entries in *. lia.
Qed.

(** The occurrences of a bag with up to 2^30 of each of up to 2^30 values. *)
Lemma total_range ptrs ht sl n :
  wf ptrs ce ch ci ht sl -> (forall e, e ∈ entries sl -> e_count e <= n) -> n <= max_entries -> in_signed 64 (CFBasicHashQueries.total (entries sl)).
Proof.
  intros Hwf Hn Hmax. pose proof (wf_max _ _ _ _ _ _ Hwf) as Hu. rewrite (wf_used _ _ _ _ _ _ Hwf) in Hu.
  assert (0 <= CFBasicHashQueries.total (entries sl) <= Z.of_nat (length (entries sl)) * max_entries) as H.
  { assert (forall e, e ∈ entries sl -> 1 <= e_count e) as H1 by (intros e He; by apply (entry_count_range ptrs ci ht sl), He; apply Hwf).
    clear - Hn Hmax H1. unfold CFBasicHashQueries.total. induction (entries sl) as [|e l IH]; [done|]. simpl length. cbn [sum_of foldr].
    assert (1 <= e_count e <= n) by (split; [apply H1|apply Hn]; set_solver).
    assert (0 <= sum_of e_count l <= Z.of_nat (length l) * max_entries) by (apply IH; set_solver). unfold sum_of in *. lia. }
  unfold in_signed, max_entries in *. lia.
Qed.

(** What the queries of a bag answer after some calls. *)
Lemma bag_answers kcb ptrs ht0 ht sl cs :
  ClientKeys ce ch kcb -> fresh cr ce ch ci KBag kcb None ptrs ht0 ->
  wf ptrs ce ch ci ht sl -> config ht = config ht0 ->
  represents ptrs ce ht0 (entries sl) (foldl (model_step ptrs cr ce ht0) (fun _ => None) cs) ->
  (forall e, e ∈ entries sl -> e_count e <= Z.of_nat (length cs)) -> Z.of_nat (length cs) <= max_entries ->
  let eq := client_eq ce kcb in
  let b := foldl (bag_step eq) (fun _ => 0) cs in
  (forall k, plain k -> Template.GetCountOfKey ce ch ci ptrs ht k = Some (b k) /\ Template.ContainsKey ce ch ci ptrs ht k = Some (0 <? b k)) /\
  exists ks, lists_keys eq (fun x => b x <> 0) ks /\ Template.GetCount ht = Some (sum_of b ks).
Proof.
  intros HC Hf Hwf Hc Hm Hcnt Hlen eq b. pose proof (fresh_contract _ _ _ _ _ _ _ _ _ HC Hf) as HK.
  set (m := foldl _ _ cs) in Hm. assert (has_counts ht0 = true) as Hnc by (by rewrite (fresh_counts _ _ _ _ _ _ _ _ _ Hf)).
  assert (bag_view eq b m) as [Hb _].
  { apply (foldl_view ptrs cr ce ht0 (bag_view eq)); [|by split]. intros b' m' c.
    by apply (bag_view_step ptrs cr ce ch); [exact HK|apply Hf|]. }
  apply (represents_config ptrs ht0 ht) in Hm; [|done]. assert (KeyContract ptrs ce ch (config ht)) as HK' by (by rewrite Hc).
  assert (forall k, match m k with Some (_, n) => n | None => 0 end = b k) as Hmb
    by (intros k; specialize (Hb k); destruct (m k) as [[v n]|]; [symmetry; apply Hb|done]). split.
  - intros k Hk. pose proof (get_count_of_key_model ptrs cr ce ch ci ht sl m Hwf Hm k Hk) as E. rewrite Hmb in E.
    unfold Template.ContainsKey. split; [done|]. unfold Template.GetCountOfKey in E. by rewrite E.
  - destruct (keys_model ptrs ce ch ci ht sl m Hwf Hm) as [Hks Hdis]. exists (e_key <$> entries sl). split; [split|].
    + intros x. transitivity (is_Some (m x)).
      { specialize (Hb x). destruct (m x) as [[v n]|]; [split; [done|lia]|split; [done|by intros [? ?]]]. }
      rewrite Hks, Hc. by split; intros (k & Hk & E); exists k; [rewrite (fresh_eq _ _ _ _ _ _ _ _ _ Hf) in E|rewrite (fresh_eq _ _ _ _ _ _ _ _ _ Hf)].
    + intros i j a b'. unfold eq. rewrite <- (fresh_eq _ _ _ _ _ _ _ _ _ Hf), <- Hc. apply Hdis.
    + unfold Template.GetCount. rewrite (hash_get_count_spec ptrs ce ch ci ht sl Hwf).
      rewrite swrap_id by (lia || by apply (total_range ptrs ht sl (Z.of_nat (length cs)))). f_equal. unfold CFBasicHashQueries.total.
      assert (forall e, e ∈ entries sl -> b (e_key e) = e_count e) as He.
      { intros e He. by rewrite <- Hmb, (entry_model ptrs cr ce ch ci ht sl m Hwf Hm e He). }
      clear - He. induction (entries sl) as [|e l IH]; [done|]. simpl. rewrite He by set_solver. f_equal. apply IH. set_solver.
Qed.

End Collections.

(** *** Filling a new collection *)

Lemma run_app {C} (f : __CFBasicHash -> C -> io __CFBasicHash) ht cs cs' :
  run f ht (cs ++ cs') = do* ht := run f ht cs in run f ht cs'.
Proof.
  revert ht. induction cs as [|c cs IH]; intros ht; simpl.
  - destruct (run f ht cs') as [[]|]; done.
  - destruct (f ht c) as [[ht1 t]|]; [|done]. cbn [io_bind]. rewrite IH. destruct (run f ht1 cs) as [[ht2 t']|]; [|done].
    cbn [io_bind]. destruct (run f ht2 cs') as [[]|]; [|done]. cbn [io_bind]. by rewrite app_assoc.
Qed.

Section Filling.
Context (cr : Z -> Z -> Z) (ce : Z -> Z -> Z -> bool) (ch ci : Z -> Z -> Z).

Lemma add_pairs_run ptrs klist vlist rest i ht :
  (i + rest = length klist)%nat -> length vlist = length klist ->
  Template.add_pairs cr ce ch ci ptrs klist vlist rest (Z.of_nat i) ht =
  run (do_dictionary cr ce ch ci ptrs) ht (add_calls (drop i (zip klist vlist))).
Proof.
  revert i ht. induction rest as [|rest IH]; intros i ht Hi Hv.
  - rewrite drop_ge; [done|]. rewrite length_zip_with. lia.
  - assert (is_Some (klist !! i)) as [k Ek] by (apply lookup_lt_is_Some; lia).
    assert (is_Some (vlist !! i)) as [v Ev] by (apply lookup_lt_is_Some; lia).
    rewrite (drop_S _ (k, v) i); [|by rewrite lookup_zip_with, Ek, Ev]. cbn [Template.add_pairs add_calls fmap list_fmap fst snd run do_dictionary].
    rewrite !rd_nat, Ek, Ev, !io_bind_lift. unfold Dictionary.CFDictionaryAddValue, Template.AddValue. rewrite io_bind_assoc.
    destruct (CFBasicHashAddValue _ _ _ _ _ _ _ _) as [[[ht1 b] t]|]; [|done]. cbn [io_bind io_ret app].
    replace (Z.of_nat i + 1) with (Z.of_nat (S i)) by lia. rewrite IH by lia. unfold add_calls.
    by destruct (run _ ht1 _) as [[]|].
Qed.

Lemma fill_table_run ptrs klist vlist ht :
  length vlist = length klist ->
  Template.fill_table cr ce ch ci ptrs klist vlist (Z.of_nat (length klist)) ht =
  run (do_dictionary cr ce ch ci ptrs) ht
    ((if 0 <? Z.of_nat (length klist) then [CallSetCapacity (Z.of_nat (length klist))] else []) ++ add_calls (zip klist vlist)).
Proof.
  intros Hv. unfold Template.fill_table. rewrite run_app, Nat2Z.id.
  assert (forall m, io_bind m (fun ht => Template.add_pairs cr ce ch ci ptrs klist vlist (length klist) 0 ht) =
    io_bind m (fun ht => run (do_dictionary cr ce ch ci ptrs) ht (add_calls (zip klist vlist)))) as ->.
  { intros [[ht1 t]|]; [|done]. cbn [io_bind]. by rewrite <- (drop_0 (zip klist vlist)), <- (add_pairs_run ptrs klist vlist (length klist) 0). }
  destruct (_ <? _); [|done]. f_equal. cbn [run do_dictionary]. unfold Dictionary._CFDictionarySetCapacity, Template.SetCapacity.
  destruct (CFBasicHashSetCapacity _ _ _ _ _) as [[]|]; [|done]. cbn [io_bind io_ret]. by rewrite app_nil_r.
Qed.

End Filling.

(** ** The collections refine their specifications *)

(** C4: a dictionary is a partial function.  A dictionary created with any
    callbacks whose key equality is an equivalence that hashing respects, after
    any sequence of up to 2^30 calls (add, replace, set, remove, remove all, set
    capacity), answers like the partial function the calls build: adding keeps a
    value that is there, replacing needs one, setting and removing always take
    effect, values are stored as retained, and keys are up to the client's
    equality; the count is the number of keys.  No call halts or leaves its
    arrays, whatever other tables register in the meantime. *)
Theorem CFDictionary_calls_refine_partial_map (cr : Z -> Z -> Z) (ce : Z -> Z -> Z -> bool) (ch ci : Z -> Z -> Z)
    (reg : callback_registry) (capacity : Z) (kcb : option CFHashKeyCallBacks) (vcb : option CFHashValueCallBacks) (cs : list hash_call) :
  registry_ok reg -> CFBasicHashCallBackPtrsCount reg <= 990 -> ClientKeys ce ch kcb ->
  Forall (call_fine cr ce KDictionary kcb vcb) cs -> Z.of_nat (length cs) <= max_entries ->
  exists reg' ht0, Dictionary.CFDictionaryCreateMutable reg capacity kcb vcb = Some (reg', ht0) /\ extends reg reg' /\
  forall reg'', extends reg' reg'' -> let ptrs := CFBasicHashCallBackPtrs reg'' in
  exists ht t, run (do_dictionary cr ce ch ci ptrs) ht0 cs = Some (ht, t) /\
    let d := foldl (dict_step (client_eq ce kcb) (retained cr (Template.field vcb value_retain))) (fun _ => None) cs in
    (forall k, plain k ->
      Dictionary.CFDictionaryGetValue ce ch ci ptrs ht k = Some (default 0 (d k)) /\
      Dictionary.CFDictionaryGetValueIfPresent ce ch ci ptrs ht k true = Some (bool_decide (is_Some (d k)), d k) /\
      Dictionary.CFDictionaryContainsKey ce ch ci ptrs ht k = Some (bool_decide (is_Some (d k)))) /\
    exists ks, lists_keys (client_eq ce kcb) (fun x => is_Some (d x)) ks /\
      Dictionary.CFDictionaryGetCount ht = Some (Z.of_nat (length ks)).
Proof.
  intros Hreg Hn HC Hok Hlen. destruct (create_generic_spec cr ce ch ci KDictionary reg kcb vcb Hreg Hn) as (reg' & ht0 & E & Hx & Hf).
  exists reg', ht0. split; [done|]. split; [done|]. intros reg'' Hx'' ptrs. specialize (Hf reg'' Hx'').
  destruct (run_fresh cr ce ch ci KDictionary kcb vcb ptrs ht0 (do_dictionary cr ce ch ci ptrs) id cs HC Hf) as
    (ht & sl & t & Er & Hwf & Hc & _ & Hm & _); [apply do_dictionary_call|done|done|].
  exists ht, t. split; [done|]. rewrite list_fmap_id in Hm. by apply (dict_answers cr ce ch ci KDictionary kcb vcb ptrs ht0 ht sl cs).
Qed.

(** A set is a set of values up to the client's equality.  After any
    sequence of up to 2^30 calls on a new set, looking a value up gives the
    member equal to it (as it was retained when it was stored), and the count is
    the number of members. *)
Lemma CFSet_calls_refine_set (cr : Z -> Z -> Z) (ce : Z -> Z -> Z -> bool) (ch ci : Z -> Z -> Z)
    (reg : callback_registry) (capacity : Z) (kcb : option CFHashKeyCallBacks) (cs : list member_call) :
  registry_ok reg -> CFBasicHashCallBackPtrsCount reg <= 990 -> ClientKeys ce ch kcb ->
  Forall (fun c => call_fine cr ce KSet kcb None (as_hash_call c)) cs -> Z.of_nat (length cs) <= max_entries ->
  exists reg' ht0, Set_.CFSetCreateMutable reg capacity kcb = Some (reg', ht0) /\ extends reg reg' /\
  forall reg'', extends reg' reg'' -> let ptrs := CFBasicHashCallBackPtrs reg'' in
  exists ht t, run (do_set cr ce ch ci ptrs) ht0 cs = Some (ht, t) /\
    let s := foldl (dict_step (client_eq ce kcb) (retained cr (key_retainer kcb))) (fun _ => None) (as_hash_call <$> cs) in
    (forall k, plain k ->
      Set_.CFSetGetValue ce ch ci ptrs ht k = Some (default 0 (s k)) /\
      Set_.CFSetGetValueIfPresent ce ch ci ptrs ht k true = Some (bool_decide (is_Some (s k)), s k) /\
      Set_.CFSetContainsValue ce ch ci ptrs ht k = Some (bool_decide (is_Some (s k)))) /\
    exists ks, lists_keys (client_eq ce kcb) (fun x => is_Some (s x)) ks /\ Set_.CFSetGetCount ht = Some (Z.of_nat (length ks)).
Proof.
  intros Hreg Hn HC Hok Hlen. destruct (create_generic_spec cr ce ch ci KSet reg kcb None Hreg Hn) as (reg' & ht0 & E & Hx & Hf).
  exists reg', ht0. split; [done|]. split; [done|]. intros reg'' Hx'' ptrs. specialize (Hf reg'' Hx'').
  destruct (run_fresh cr ce ch ci KSet kcb None ptrs ht0 (do_set cr ce ch ci ptrs) as_hash_call cs HC Hf) as
    (ht & sl & t & Er & Hwf & Hc & _ & Hm & _); [apply do_set_call|done|done|].
  exists ht, t. split; [done|]. by apply (dict_answers cr ce ch ci KSet kcb None ptrs ht0 ht sl).
Qed.

(** C5: a bag counts.  After any sequence of up to 2^30 calls on a new bag, the
    count of a value is the number of times values equal to it were added less
    the times they were removed (never below zero; setting adds a missing value,
    replacing changes no count), and the count of the bag is the sum over its
    distinct values, through the growth of the count words. *)
Theorem CFBag_calls_count_occurrences (cr : Z -> Z -> Z) (ce : Z -> Z -> Z -> bool) (ch ci : Z -> Z -> Z)
    (reg : callback_registry) (capacity : Z) (kcb : option CFHashKeyCallBacks) (cs : list member_call) :
  registry_ok reg -> CFBasicHashCallBackPtrsCount reg <= 990 -> ClientKeys ce ch kcb ->
  Forall (fun c => call_fine cr ce KBag kcb None (as_hash_call c)) cs -> Z.of_nat (length cs) <= max_entries ->
  exists reg' ht0, Bag.CFBagCreateMutable reg capacity kcb = Some (reg', ht0) /\ extends reg reg' /\
  forall reg'', extends reg' reg'' -> let ptrs := CFBasicHashCallBackPtrs reg'' in
  exists ht t, run (do_bag cr ce ch ci ptrs) ht0 cs = Some (ht, t) /\
    let b := foldl (bag_step (client_eq ce kcb)) (fun _ => 0) (as_hash_call <$> cs) in
    (forall k, plain k ->
      Bag.CFBagGetCountOfValue ce ch ci ptrs ht k = Some (b k) /\ Bag.CFBagContainsValue ce ch ci ptrs ht k = Some (0 <? b k)) /\
    exists ks, lists_keys (client_eq ce kcb) (fun x => b x <> 0) ks /\ Bag.CFBagGetCount ht = Some (sum_of b ks).
Proof.
  intros Hreg Hn HC Hok Hlen. destruct (create_generic_spec cr ce ch ci KBag reg kcb None Hreg Hn) as (reg' & ht0 & E & Hx & Hf).
  exists reg', ht0. split; [done|]. split; [done|]. intros reg'' Hx'' ptrs. specialize (Hf reg'' Hx'').
  destruct (run_fresh cr ce ch ci KBag kcb None ptrs ht0 (do_bag cr ce ch ci ptrs) as_hash_call cs HC Hf) as
    (ht & sl & t & Er & Hwf & Hc & _ & Hm & Hcnt & _); [apply do_bag_call|done|done|].
  exists ht, t. split; [done|]. apply (bag_answers cr ce ch ci kcb ptrs ht0 ht sl); rewrite ?length_fmap; done.
Qed.

(** Making a table immutable changes no bucket. *)
Lemma make_immutable ht : CFBasicHashIsMutable (CFBasicHashMakeImmutable ht) = false.
Proof.
  unfold CFBasicHashIsMutable, CFBasicHashMakeImmutable. cbn [info_bits set_info].
  unfold __CFBitfieldGetValue, __CFBitfieldSetValue. rewrite Z.land_lor_distr_l, <- Z.land_assoc.
  change (Z.land (uwrap 32 (Z.lnot (__CFBitfieldMask 6 6))) (__CFBitfieldMask 6 6)) with 0. by rewrite Z.land_0_r, Z.lor_0_l.
Qed.

Lemma immutable_halts cr ce ch ci ptrs ht c : CFBasicHashIsMutable ht = false -> do_dictionary cr ce ch ci ptrs ht c = None.
Proof.
  intros Hi. destruct c; cbn [do_dictionary];
    unfold Dictionary.CFDictionaryAddValue, Dictionary.CFDictionaryReplaceValue, Dictionary.CFDictionarySetValue, Dictionary.CFDictionaryRemoveValue,
      Dictionary.CFDictionaryRemoveAllValues, Dictionary._CFDictionarySetCapacity, Template.AddValue, Template.ReplaceValue, Template.SetValue,
      Template.RemoveValue, Template.RemoveAllValues, Template.SetCapacity, CFBasicHashAddValue, CFBasicHashReplaceValue, CFBasicHashSetValue,
      CFBasicHashRemoveValue, CFBasicHashRemoveAllValues, CFBasicHashSetCapacity, storable; rewrite Hi; done.
Qed.

(** C34: an immutable dictionary holds the pairs it was created with: for keys
    that occur more than once, the first pair.  It answers every lookup
    accordingly, its count is the number of distinct keys, for up to 2^30 - 1 pairs,
    and every call that would change it halts. *)
Theorem CFDictionaryCreate_holds_first_pairs (cr : Z -> Z -> Z) (ce : Z -> Z -> Z -> bool) (ch ci : Z -> Z -> Z)
    (reg : callback_registry) (klist vlist : list Z) (kcb : option CFHashKeyCallBacks) (vcb : option CFHashValueCallBacks) :
  registry_ok reg -> CFBasicHashCallBackPtrsCount reg <= 990 -> ClientKeys ce ch kcb -> length vlist = length klist ->
  Forall (call_fine cr ce KDictionary kcb vcb) (add_calls (zip klist vlist)) -> Z.of_nat (length klist) < max_entries ->
  exists reg' ht t,
    Dictionary.CFDictionaryCreate cr ce ch ci reg klist vlist (Z.of_nat (length klist)) kcb vcb = Some (reg', ht, t) /\ extends reg reg' /\
    let ptrs := CFBasicHashCallBackPtrs reg' in
    let d := first_pair (client_eq ce kcb) (retained cr (Template.field vcb value_retain)) (zip klist vlist) in
    (forall k, plain k ->
      Dictionary.CFDictionaryGetValue ce ch ci ptrs ht k = Some (default 0 (d k)) /\
      Dictionary.CFDictionaryGetValueIfPresent ce ch ci ptrs ht k true = Some (bool_decide (is_Some (d k)), d k) /\
      Dictionary.CFDictionaryContainsKey ce ch ci ptrs ht k = Some (bool_decide (is_Some (d k)))) /\
    (exists ks, lists_keys (client_eq ce kcb) (fun x => is_Some (d x)) ks /\
      Dictionary.CFDictionaryGetCount ht = Some (Z.of_nat (length ks))) /\
    Dictionary._CFDictionaryIsMutable ht = false /\
    forall c, do_dictionary cr ce ch ci ptrs ht c = None.
Proof.
  intros Hreg Hn HC Hv Hok Hlen. destruct (create_generic_spec cr ce ch ci KDictionary reg kcb vcb Hreg Hn) as (reg' & ht0 & E & Hx & Hf).
  specialize (Hf reg' (extends_refl reg' (proj1 Hx))). set (ptrs := CFBasicHashCallBackPtrs reg') in *.
  set (cs := (if 0 <? Z.of_nat (length klist) then [CallSetCapacity (Z.of_nat (length klist))] else []) ++ add_calls (zip klist vlist)).
  destruct (run_fresh cr ce ch ci KDictionary kcb vcb ptrs ht0 (do_dictionary cr ce ch ci ptrs) id cs HC Hf) as
    (ht & sl & t & Er & Hwf & Hc & _ & Hm & _); [apply do_dictionary_call| | |].
  { apply Forall_app. split; [|done]. destruct (_ <? _); constructor; [simpl; lia|done]. }
  { unfold cs, add_calls. rewrite length_app, length_fmap, length_zip_with. destruct (_ <? _); simpl; lia. }
  exists reg', (CFBasicHashMakeImmutable ht), t. split; [|split; [done|]].
  { unfold Dictionary.CFDictionaryCreate, Template.Create. rewrite E, io_bind_lift. fold ptrs.
    rewrite fill_table_run by done. fold cs. rewrite Er. cbn [io_bind io_ret]. by rewrite app_nil_r. }
  rewrite list_fmap_id in Hm.
  destruct (dict_answers cr ce ch ci KDictionary kcb vcb ptrs ht0 (CFBasicHashMakeImmutable ht) sl cs HC Hf) as [Hq (ks & [Hks Hdis] & Hcount)];
    [done|by apply (wf_frame ptrs ce ch ci ht)|done|done|].
  clear Hm. set (d := foldl _ _ cs) in *. set (d' := first_pair _ _ _).
  assert (forall x, d x = d' x) as Hdd.
  { pose proof (fresh_contract _ _ _ _ _ _ _ _ _ HC Hf) as HK. intros x. unfold d, cs. rewrite foldl_app.
    rewrite (dict_adds ptrs ce ch ht0) by (apply Hf || by destruct (_ <? _)).
    by destruct (_ <? _). }
  split_and!; [intros k; rewrite <- Hdd; apply Hq|exists ks; split; [split; [|done]|done]|apply make_immutable|].
  - intros x. by rewrite <- Hdd.
  - intros c. apply immutable_halts, make_immutable.
Qed.

(** *** Examples: numbers that are equal when their last digits are *)

Definition digit_eq (_ a b : Z) : bool := a mod 10 =? b mod 10.
Definition digit_hash (_ k : Z) : Z := k mod 10.
Definition digit_keys : option CFHashKeyCallBacks := Some (mkKeyCallBacks 0 0 0 104 105).
Definition example_registry : callback_registry := initial_registry 101 102 103 104 105 106.

Lemma digit_client_keys : ClientKeys digit_eq digit_hash digit_keys.
Proof.
  assert (forall a b, client_eq digit_eq digit_keys a b = true -> a mod 10 = b mod 10) as H.
  { intros a b. unfold client_eq. simpl. unfold digit_eq. destruct (Z.eqb_spec a b) as [->|]; [done|]. apply Z.eqb_eq. }
  assert (forall a b, a mod 10 = b mod 10 -> client_eq digit_eq digit_keys a b = true) as H'.
  { intros a b E. unfold client_eq. simpl. unfold digit_eq. by rewrite E, Z.eqb_refl, orb_true_r. }
  constructor.
  - intros a b E. apply H'. symmetry. by apply H.
  - intros a b d E1 E2. apply H'. by rewrite (H a b E1), (H b d E2).
  - intros a b E. unfold client_hash. simpl. unfold digit_hash. by apply H.
Qed.

Lemma example_registry_ok : registry_ok example_registry.
Proof. by split. Qed.

Ltac solve_fine := repeat (apply Forall_cons; split); try done; repeat (split; try done).

Lemma CFDictionary_calls_refine_partial_map_witness :
  exists reg' ht0 ht t,
    Dictionary.CFDictionaryCreateMutable example_registry 0 digit_keys None = Some (reg', ht0) /\
    run (do_dictionary (fun _ v => v) digit_eq digit_hash (fun _ v => v) (CFBasicHashCallBackPtrs reg')) ht0
      [CallAdd 3 7; CallAdd 13 8; CallSet 4 9; CallRemove 14; CallReplace 23 5] = Some (ht, t) /\
    Dictionary.CFDictionaryGetValue digit_eq digit_hash (fun _ v => v) (CFBasicHashCallBackPtrs reg') ht 33 = Some 5.
Proof.
  destruct (CFDictionary_calls_refine_partial_map (fun _ v => v) digit_eq digit_hash (fun _ v => v) example_registry 0 digit_keys None
    [CallAdd 3 7; CallAdd 13 8; CallSet 4 9; CallRemove 14; CallReplace 23 5]) as (reg' & ht0 & E & Hx & H).
  - apply example_registry_ok.
  - vm_compute. discriminate.
  - apply digit_client_keys.
  - solve_fine.
  - vm_compute. discriminate.
  - destruct (H reg' (extends_refl reg' (proj1 Hx))) as (ht & t & Er & Hq & _). exists reg', ht0, ht, t.
    split; [done|]. split; [done|]. by apply (Hq 33).
Defined.

Lemma CFSet_calls_refine_set_witness :
  exists reg' ht0 ht t,
    Set_.CFSetCreateMutable example_registry 0 digit_keys = Some (reg', ht0) /\
    run (do_set (fun _ v => v) digit_eq digit_hash (fun _ v => v) (CFBasicHashCallBackPtrs reg')) ht0
      [AddMember 3; AddMember 13; SetMember 24; RemoveMember 5; ReplaceMember 43] = Some (ht, t) /\
    Set_.CFSetGetValue digit_eq digit_hash (fun _ v => v) (CFBasicHashCallBackPtrs reg') ht 33 = Some 43.
Proof.
  destruct (CFSet_calls_refine_set (fun _ v => v) digit_eq digit_hash (fun _ v => v) example_registry 0 digit_keys
    [AddMember 3; AddMember 13; SetMember 24; RemoveMember 5; ReplaceMember 43]) as (reg' & ht0 & E & Hx & H).
  - apply example_registry_ok.
  - vm_compute. discriminate.
  - apply digit_client_keys.
  - solve_fine.
  - vm_compute. discriminate.
  - destruct (H reg' (extends_refl reg' (proj1 Hx))) as (ht & t & Er & Hq & _). exists reg', ht0, ht, t.
    split; [done|]. split; [done|]. by apply (Hq 33).
Defined.

Lemma CFBag_calls_count_occurrences_witness :
  exists reg' ht0 ht t,
    Bag.CFBagCreateMutable example_registry 0 digit_keys = Some (reg', ht0) /\
    run (do_bag (fun _ v => v) digit_eq digit_hash (fun _ v => v) (CFBasicHashCallBackPtrs reg')) ht0
      [AddMember 3; AddMember 13; AddMember 23; RemoveMember 33; RemoveMember 5; AddMember 4] = Some (ht, t) /\
    Bag.CFBagGetCountOfValue digit_eq digit_hash (fun _ v => v) (CFBasicHashCallBackPtrs reg') ht 93 = Some 2.
Proof.
  destruct (CFBag_calls_count_occurrences (fun _ v => v) digit_eq digit_hash (fun _ v => v) example_registry 0 digit_keys
    [AddMember 3; AddMember 13; AddMember 23; RemoveMember 33; RemoveMember 5; AddMember 4]) as (reg' & ht0 & E & Hx & H).
  - apply example_registry_ok.
  - vm_compute. discriminate.
  - apply digit_client_keys.
  - solve_fine.
  - vm_compute. discriminate.
  - destruct (H reg' (extends_refl reg' (proj1 Hx))) as (ht & t & Er & Hq & _). exists reg', ht0, ht, t.
    split; [done|]. split; [done|]. by apply (Hq 93).
Defined.

Lemma CFDictionaryCreate_holds_first_pairs_witness :
  exists reg' ht t,
    Dictionary.CFDictionaryCreate (fun _ v => v) digit_eq digit_hash (fun _ v => v) example_registry [3; 13; 4] [7; 8; 9] 3 digit_keys None =
      Some (reg', ht, t) /\
    Dictionary.CFDictionaryGetValue digit_eq digit_hash (fun _ v => v) (CFBasicHashCallBackPtrs reg') ht 33 = Some 7 /\
    Dictionary._CFDictionaryIsMutable ht = false.
Proof.
  destruct (CFDictionaryCreate_holds_first_pairs (fun _ v => v) digit_eq digit_hash (fun _ v => v) example_registry [3; 13; 4] [7; 8; 9]
    digit_keys None) as (reg' & ht & t & E & _ & Hq & _ & Hi & _).
  - apply example_registry_ok.
  - vm_compute. discriminate.
  - apply digit_client_keys.
  - reflexivity.
  - solve_fine.
  - vm_compute. reflexivity.
  - exists reg', ht, t. split; [done|]. split; [by apply (Hq 33)|done].
Defined.
