(* ===== verification/CFDataSearch.v ===== *)
(** * CFDataSearch: Boyer-Moore search in bytes (CFData.c)

    The search behind CFDataFind: the table of bad characters, the table of good
    suffixes (computed from the lengths of the suffixes that end at each place
    of the needle), and the scan, forwards and backwards.  Positions are indexes
    into blocks of bytes; a byte that was never written is [None], as are the
    cells of the two tables that [malloc] returns.  The theorem of the file is
    that the scan finds the first (backwards: the last) occurrence, without
    reading outside its range. *)

From S2P Require Import Prelude CFInternal.
From stdpp Require Import base list numbers option.
From Stdlib Require Import ZArith Lia.
Open Scope Z_scope.
Open Scope cf_scope.

(** ** The tables *)

(** [while (g >= 0 && needle[g] == needle[g + needleLength - 1 - f]) --g;] *)
Fixpoint match_back (fuel : nat) (needle : list (option Z)) (needleLength f g : Z) : option Z :=
  if 0 <=? g then
    match fuel with
    | O => None
    | S fuel =>
        let* a := rdi needle g in
        let* b := rdi needle (g + needleLength - 1 - f) in
        if a =? b then match_back fuel needle needleLength f (g - 1) else Some g
    end
  else Some g.

(** [for (i = needleLength - 2; i >= 0; --i)]: the suffix lengths. *)
Fixpoint suffix_lengths (rest : nat) (needle : list (option Z)) (needleLength i f g : Z) (suff : list (option Z))
    : option (list (option Z)) :=
  match rest with
  | O => Some suff
  | S rest =>
      let* known :=
        (if g <? i then let* s := rdi suff (i + needleLength - 1 - f) in Some (s <? i - g) else Some false) in
      if known then
        let* s := rdi suff (i + needleLength - 1 - f) in
        let* suff := wr suff i (Some s) in
        suffix_lengths rest needle needleLength (i - 1) f g suff
      else
        let g := if i <? g then i else g in
        let f := i in
        let* g := match_back (Z.to_nat (g + 1)) needle needleLength f g in
        let* suff := wr suff i (Some (f - g)) in
        suffix_lengths rest needle needleLength (i - 1) f g suff
  end.

(** [for (; j < needleLength - 1 - i; ++j)] *)
Fixpoint border_shifts (rest : nat) (needleLength i j : Z) (shift : list (option Z)) : option (Z * list (option Z)) :=
  match rest with
  | O => Some (j, shift)
  | S rest =>
      let* s := rdi shift j in
      let* shift := (if s =? needleLength then wr shift j (Some (needleLength - 1 - i)) else Some shift) in
      border_shifts rest needleLength i (j + 1) shift
  end.

(** [for (i = needleLength - 1; i >= 0; --i)]: prefixes that are suffixes. *)
Fixpoint prefix_shifts (rest : nat) (needleLength i j : Z) (suff shift : list (option Z)) : option (list (option Z)) :=
  match rest with
  | O => Some shift
  | S rest =>
      let* s := rdi suff i in
      let* (j, shift) := (if s =? i + 1 then border_shifts (Z.to_nat (needleLength - 1 - i - j)) needleLength i j shift
                          else Some (j, shift)) in
      prefix_shifts rest needleLength (i - 1) j suff shift
  end.

(** [for (i = 0; i <= needleLength - 2; ++i)]: the latest match takes effect. *)
Fixpoint suffix_shifts (rest : nat) (needleLength i : Z) (suff shift : list (option Z)) : option (list (option Z)) :=
  match rest with
  | O => Some shift
  | S rest =>
      let* s := rdi suff i in
      let* shift := wr shift (needleLength - 1 - s) (Some (needleLength - 1 - i)) in
      suffix_shifts rest needleLength (i + 1) suff shift
  end.

(** [for (i = 0; i < needleLength - 1; ++i) shift[i] += (needleLength - 1 - i);] *)
Fixpoint add_distances (rest : nat) (needleLength i : Z) (shift : list (option Z)) : option (list (option Z)) :=
  match rest with
  | O => Some shift
  | S rest =>
      let* s := rdi shift i in
      let* shift := wr shift i (Some (uwrap 64 (s + (needleLength - 1 - i)))) in
      add_distances rest needleLength (i + 1) shift
  end.

Definition _computeGoodSubstringShift (needle : list (option Z)) (needleLength : Z) (shift suff : list (option Z))
    : option (list (option Z)) :=
  let* suff := wr suff (needleLength - 1) (Some needleLength) in
  let* suff := suffix_lengths (Z.to_nat (needleLength - 1)) needle needleLength (needleLength - 2)
                 (needleLength - 1) (needleLength - 1) suff in
  let* shift := memset shift 0 (Some needleLength) needleLength in
  let* shift := prefix_shifts (Z.to_nat needleLength) needleLength (needleLength - 1) 0 suff shift in
  let* shift := suffix_shifts (Z.to_nat (needleLength - 1)) needleLength 0 suff shift in
  add_distances (Z.to_nat (needleLength - 1)) needleLength 0 shift.

(** [for (int i = 0; i < needleLength; i++) badCharacterShift[needle[i]] = needleLength - i - 1;] *)
Fixpoint bad_forwards (rest : nat) (needle : list (option Z)) (needleLength i : Z) (bad : list Z) : option (list Z) :=
  match rest with
  | O => Some bad
  | S rest =>
      let* c := rdi needle i in
      let* bad := wr bad c (needleLength - i - 1) in
      bad_forwards rest needle needleLength (i + 1) bad
  end.

(** [for (int i = needleLength - 1; i >= 0; i--) badCharacterShift[needle[i]] = i;] *)
Fixpoint bad_backwards (rest : nat) (needle : list (option Z)) (i : Z) (bad : list Z) : option (list Z) :=
  match rest with
  | O => Some bad
  | S rest =>
      let* c := rdi needle i in
      let* bad := wr bad c i in
      bad_backwards rest needle (i - 1) bad
  end.

(** The macro REVERSE_BUFFER: [for(int i = 0; i < (len)/2; i++)]. *)
Fixpoint reverse_loop {A} (rest : nat) (buf : list A) (len i : Z) : option (list A) :=
  match rest with
  | O => Some buf
  | S rest =>
      let* tmp := rd buf i in
      let* v := rd buf (len - i - 1) in
      let* buf := wr buf i v in
      let* buf := wr buf (len - i - 1) tmp in
      reverse_loop rest buf len (i + 1)
  end.

Definition REVERSE_BUFFER {A} (buf : list A) (len : Z) : option (list A) := reverse_loop (Z.to_nat (len / 2)) buf len 0.

(** ** The scan *)

(** [while (scan_haystack < end_haystack && scan_needle >= needle)] *)
Fixpoint scan_forwards (fuel : nat) (haystack needle : list (option Z)) (bad : list Z) (good : list (option Z))
    (needleLength end_haystack scan_haystack scan_needle : Z) : option (Z * Z) :=
  if (scan_haystack <? end_haystack) && (0 <=? scan_needle) then
    match fuel with
    | O => None
    | S fuel =>
        let* h := rdi haystack scan_haystack in
        let* c := rdi needle scan_needle in
        if h =? c then
          scan_forwards fuel haystack needle bad good needleLength end_haystack (scan_haystack - 1) (scan_needle - 1)
        else
          let* b := rd bad h in
          let* g := rdi good scan_needle in
          scan_forwards fuel haystack needle bad good needleLength end_haystack (scan_haystack + Z.max b g) (needleLength - 1)
    end
  else Some (scan_haystack, scan_needle).

(** [while (scan_haystack >= haystack && scan_needle < end_needle)] *)
Fixpoint scan_backwards (fuel : nat) (haystack needle : list (option Z)) (bad : list Z) (good : list (option Z))
    (needleLength start scan_haystack scan_needle : Z) : option (Z * Z) :=
  if (start <=? scan_haystack) && (scan_needle <? needleLength) then
    match fuel with
    | O => None
    | S fuel =>
        let* h := rdi haystack scan_haystack in
        let* c := rdi needle scan_needle in
        if h =? c then
          scan_backwards fuel haystack needle bad good needleLength start (scan_haystack + 1) (scan_needle + 1)
        else
          let* b := rd bad h in
          let* g := rdi good scan_needle in
          scan_backwards fuel haystack needle bad good needleLength start (scan_haystack - Z.max b g) 0
    end
  else Some (scan_haystack, scan_needle).

(** The haystack starts at [start] in its block and has [haystackLength] bytes.
    The result is an index into the block, if there is one.  Every mismatch
    moves the window by at least one byte, and a window takes at most
    [needleLength] comparisons; the fuel is that product and a round more. *)
Definition __CFDataSearchBoyerMoore (haystack : list (option Z)) (start haystackLength : Z)
    (needle : list (option Z)) (needleLength : Z) (backwards : bool) : option (option Z) :=
  let fuel := Z.to_nat ((haystackLength + 1) * (needleLength + 1)) in
  let goodSubstringShift := replicate (Z.to_nat needleLength) None in
  let suffixLengths := replicate (Z.to_nat needleLength) None in
  let* badCharacterShift := memset (replicate 256 0) 0 needleLength 256 in
  if backwards then
    let* bad := bad_backwards (Z.to_nat needleLength) needle (needleLength - 1) badCharacterShift in
    let* needleCopy := memmove (replicate (Z.to_nat needleLength) None) 0 needle 0 needleLength in
    let* needleCopy := REVERSE_BUFFER needleCopy needleLength in
    let* good := _computeGoodSubstringShift needleCopy (swrap 32 needleLength) goodSubstringShift suffixLengths in
    let* good := REVERSE_BUFFER good needleLength in
    let* (scan_haystack, scan_needle) :=
      scan_backwards fuel haystack needle bad good needleLength start (start + haystackLength - needleLength) 0 in
    Some (if scan_needle =? needleLength then Some (scan_haystack - needleLength) else None)
  else
    let* bad := bad_forwards (Z.to_nat needleLength) needle needleLength 0 badCharacterShift in
    let* good := _computeGoodSubstringShift needle (swrap 32 needleLength) goodSubstringShift suffixLengths in
    let* (scan_haystack, scan_needle) :=
      scan_forwards fuel haystack needle bad good needleLength (start + haystackLength)
        (start + needleLength - 1) (needleLength - 1) in
    Some (if scan_needle <? 0 then Some (scan_haystack + 1) else None).

(** ** Suffixes and borders of the needle *)

Section Tables.
(** The needle has [n] bytes, and byte [i] is [N i]. *)
Context (N : Z -> Z) (n : Z) (Hn : 0 < n).

(** The [k] bytes that end at [i] are the last [k] bytes. *)
Definition ends_like (i k : Z) : Prop := forall t, 0 <= t < k -> N (i - t) = N (n - 1 - t).

(** [k] is the length of the longest such run. *)
Definition suffix_length (i k : Z) : Prop :=
  0 <= k <= i + 1 /\ ends_like i k /\ (k = i + 1 \/ N (i - k) <> N (n - 1 - k)).

Lemma suffix_length_unique i k k' : suffix_length i k -> suffix_length i k' -> k = k'.
Proof.
  assert (forall k k', k < k' -> suffix_length i k -> suffix_length i k' -> False) as H.
  { intros a b Hab (Ha & _ & [->|Hne]) (Hb & Hm & _); [lia|]. apply Hne. apply Hm. lia. }
  intros H1 H2. destruct (Z.lt_trichotomy k k') as [Hlt|[->|Hlt]]; [|done|]; exfalso; eauto.
Qed.

(** The suffix length at [i] copies from a place further right that is inside a
    run already known to be a suffix. *)
Lemma suffix_length_copy i f g s :
  i < f < n - 1 -> -1 <= g < i -> ends_like f (f - g) -> suffix_length (i + n - 1 - f) s -> s < i - g -> suffix_length i s.
Proof.
  intros Hi Hg Hf (Hs & Hm & He) Hlt.
  assert (forall t, 0 <= t < i - g -> N (i - t) = N (i + n - 1 - f - t)) as Hwin.
  { intros t Ht. pose proof (Hf (f - i + t) ltac:(lia)) as E.
    replace (f - (f - i + t)) with (i - t) in E by lia. by replace (n - 1 - (f - i + t)) with (i + n - 1 - f - t) in E by lia. }
  split_and!; [lia|lia| |].
  - intros t Ht. rewrite Hwin by lia. apply Hm. lia.
  - right. rewrite Hwin by lia. destruct He as [->|He]; [lia|done].
Qed.

Lemma ends_like_copy i f g s :
  i < f -> g < i -> ends_like f (f - g) -> suffix_length (i + n - 1 - f) s -> i - g <= s -> ends_like i (i - g).
Proof.
  intros Hi Hg Hf (_ & Hm & _) Hle t Ht. pose proof (Hf (f - i + t) ltac:(lia)) as E.
  replace (f - (f - i + t)) with (i - t) in E by lia. replace (n - 1 - (f - i + t)) with (i + n - 1 - f - t) in E by lia.
  rewrite E. apply Hm. lia.
Qed.

(** A shift [d] is possible after the bytes right of [j] matched and byte [j]
    did not: the bytes that overlap agree. *)
Definition compatible (d j : Z) : Prop :=
  (forall k, j < k < n -> d <= k -> N (k - d) = N k) /\ (d <= j -> N (j - d) <> N j).

Definition border (d : Z) : Prop := suffix_length (n - 1 - d) (n - d).

Lemma compatible_suffix d j : 1 <= d <= j -> j < n -> compatible d j -> suffix_length (n - 1 - d) (n - 1 - j).
Proof.
  intros Hd Hj [Hm Hne]. split_and!; [lia|lia| |].
  - intros t Ht. replace (n - 1 - d - t) with (n - 1 - t - d) by lia. apply Hm; lia.
  - right. replace (n - 1 - d - (n - 1 - j)) with (j - d) by lia. replace (n - 1 - (n - 1 - j)) with j by lia. apply Hne. lia.
Qed.

Lemma compatible_border d j : 0 <= j < d -> d < n -> compatible d j -> border d.
Proof.
  intros Hd Hj [Hm _]. split_and!; [lia|lia| |left; lia].
  intros t Ht. replace (n - 1 - d - t) with (n - 1 - t - d) by lia. apply Hm; lia.
Qed.

(** *** The suffix lengths *)

(** What a table holds. *)
Definition holds (a : list (option Z)) (i v : Z) : Prop := 0 <= i /\ a !! Z.to_nat i = Some (Some v).

Lemma rdi_holds a i v : holds a i v -> rdi a i = Some v.
Proof. intros [Hi E]. unfold rdi. by rewrite rd_lookup, E. Qed.

Lemma holds_write a i v : 0 <= i < Z.of_nat (length a) ->
  exists a', wr a i (Some v) = Some a' /\ length a' = length a /\ holds a' i v /\ forall j w, j <> i -> holds a' j w <-> holds a j w.
Proof.
  intros Hi. exists (<[Z.to_nat i := Some v]> a). split_and!; [by apply wr_ok|by rewrite length_insert|split; [lia|apply list_lookup_insert_eq; lia]|].
  intros j w Hj. split; intros [Hj0 E]; (split; [done|]); [rewrite list_lookup_insert_ne in E by lia|rewrite list_lookup_insert_ne by lia]; done.
Qed.

Context (needle : list (option Z)) (Hneedle : forall i, 0 <= i < n -> holds needle i (N i)).

Lemma match_back_spec fuel f g :
  -1 <= g <= f -> f <= n - 1 -> g < Z.of_nat fuel -> ends_like f (f - g) ->
  exists g', match_back fuel needle n f g = Some g' /\ -1 <= g' <= g /\ suffix_length f (f - g').
Proof.
  revert g. induction fuel as [|fuel IH]; intros g Hg Hf Hfuel Hm; cbn [match_back].
  - destruct (Z.leb_spec 0 g); [lia|]. exists g. split_and!; [done|lia|lia|]. split; [lia|]. split; [done|left; lia].
  - destruct (Z.leb_spec 0 g); [|exists g; split_and!; [done|lia|lia|split; [lia|split; [done|left; lia]]]].
    rewrite (rdi_holds _ _ _ (Hneedle g ltac:(lia))), (rdi_holds _ _ _ (Hneedle (g + n - 1 - f) ltac:(lia))). cbn [opt_bind].
    destruct (Z.eqb_spec (N g) (N (g + n - 1 - f))) as [E|E].
    + destruct (IH (g - 1)) as (g' & Eg & Hg' & Hs); [lia|done|lia| |].
      { intros t Ht. destruct (decide (t < f - g)); [apply Hm; lia|]. replace t with (f - g) by lia.
        replace (f - (f - g)) with g by lia. replace (n - 1 - (f - g)) with (g + n - 1 - f) by lia. done. }
      exists g'. split_and!; [done|lia|lia|done].
    + exists g. split_and!; [done|lia|lia|]. split; [lia|]. split; [done|]. right. replace (f - (f - g)) with g by lia.
      by replace (n - 1 - (f - g)) with (g + n - 1 - f) by lia.
Qed.

Lemma suffix_lengths_spec rest i f g suff :
  i = Z.of_nat rest - 1 -> i < f <= n - 1 -> -1 <= g <= f -> ends_like f (f - g) -> (f = n - 1 -> g = n - 1) ->
  Z.of_nat (length suff) = n -> (forall j, i < j < n -> exists s, holds suff j s /\ suffix_length j s) ->
  exists suff', suffix_lengths rest needle n i f g suff = Some suff' /\ Z.of_nat (length suff') = n /\
    forall j, 0 <= j < n -> exists s, holds suff' j s /\ suffix_length j s.
Proof.
  revert i f g suff. induction rest as [|rest IH]; intros i f g suff Hi Hf Hg Hm Hfn Hl Hs; cbn [suffix_lengths].
  { exists suff. split_and!; [done|done|]. intros j Hj. apply Hs. lia. }
  assert (forall s suff', 0 <= i < n -> suffix_length i s -> length suff' = length suff -> holds suff' i s ->
    (forall j w, j <> i -> holds suff' j w <-> holds suff j w) -> forall j, i - 1 < j < n -> exists s, holds suff' j s /\ suffix_length j s) as Hnext.
  { intros s suff' _ Hs' _ Hh Ho j Hj. destruct (decide (j = i)) as [->|Hne]; [by exists s|].
    destruct (Hs j ltac:(lia)) as (w & Hw & Hw'). exists w. split; [|done]. by apply Ho. }
  destruct (Z.ltb_spec g i) as [Hgi|Hgi].
  - destruct (Hs (i + n - 1 - f) ltac:(lia)) as (s & Hh & Hsl). rewrite !(rdi_holds _ _ _ Hh). cbn [opt_bind].
    destruct (Z.ltb_spec s (i - g)) as [Hlt|Hge].
    + assert (suffix_length i s) as Hi' by (apply (suffix_length_copy i f g); try done; lia).
      destruct (holds_write suff i s) as (suff' & -> & Hl' & Hh' & Ho); [lia|]. cbn [opt_bind].
      apply IH; try done; try lia. apply (Hnext s suff'); try done; lia.
    + destruct (Z.ltb_spec i g); [lia|].
      destruct (match_back_spec (Z.to_nat (g + 1)) i g) as (g' & -> & Hg' & Hs'); [lia|lia|lia|by apply (ends_like_copy i f g s); try lia|].
      cbn [opt_bind]. destruct (holds_write suff i (i - g')) as (suff' & -> & Hl' & Hh' & Ho); [lia|]. cbn [opt_bind].
      apply IH; try lia; [apply Hs'|]. apply (Hnext (i - g') suff'); try done; lia.
  - assert ((if i <? g then i else g) = i) as -> by (destruct (Z.ltb_spec i g); lia). cbn [opt_bind].
    destruct (match_back_spec (Z.to_nat (i + 1)) i i) as (g' & -> & Hg' & Hs'); [lia|lia|lia|intros t Ht; lia|].
    cbn [opt_bind]. destruct (holds_write suff i (i - g')) as (suff' & -> & Hl' & Hh' & Ho); [lia|]. cbn [opt_bind].
    apply IH; try lia; [apply Hs'|]. apply (Hnext (i - g') suff'); try done; lia.
Qed.

(** *** The shifts *)

(** The entries of a table of shifts, by their values. *)
Definition shifts (a : list (option Z)) (v : Z -> Z) : Prop :=
  Z.of_nat (length a) = n /\ (forall j, 0 <= j < n -> holds a j (v j)) /\ forall j, 0 <= j < n -> 1 <= v j <= n.

Lemma shifts_write a v i x :
  shifts a v -> 0 <= i < n -> 1 <= x <= n ->
  exists a', wr a i (Some x) = Some a' /\ shifts a' (fun j => if j =? i then x else v j).
Proof.
  intros (Hl & Hh & Hr) Hi Hx. destruct (holds_write a i x) as (a' & E & Hl' & Hi' & Ho); [lia|]. exists a'. split; [done|].
  split_and!; [lia| |]; intros j Hj; destruct (Z.eqb_spec j i) as [->|Hne]; [done|apply Ho; auto|lia|auto].
Qed.

(** [n - 1 - i] is written to the places from [j] on that still hold [n]. *)
Lemma border_shifts_spec rest i j a v :
  shifts a v -> 0 <= i < n -> 0 <= j -> j + Z.of_nat rest = Z.max j (n - 1 - i) -> (forall k, j <= k < n -> v k = n) ->
  exists a' v', border_shifts rest n i j a = Some (Z.max j (n - 1 - i), a') /\ shifts a' v' /\
    (forall k, 0 <= k < n -> k < j -> v' k = v k) /\ (forall k, j <= k < n - 1 - i -> v' k = n - 1 - i) /\
    (forall k, Z.max j (n - 1 - i) <= k < n -> v' k = n).
Proof.
  revert j a v. induction rest as [|rest IH]; intros j a v Ha Hi Hj Hrest Hv; cbn [border_shifts].
  - exists a, v. replace (Z.max j (n - 1 - i)) with j by lia. split_and!; [done|done|done|lia|]. intros k Hk. apply Hv. lia.
  - rewrite (rdi_holds a j n). 2:{ rewrite <- (Hv j) by lia. apply Ha. lia. }
    cbn [opt_bind]. rewrite Z.eqb_refl.
    destruct (shifts_write a v j (n - 1 - i) Ha) as (a1 & -> & Ha1); [lia|lia|]. cbn [opt_bind].
    destruct (IH (j + 1) a1 _ Ha1) as (a' & v' & E & Ha' & Hlow & Hmid & Hhigh); [lia|lia|lia| |].
    { intros k Hk. destruct (Z.eqb_spec k j); [lia|]. apply Hv. lia. }
    replace (Z.max (j + 1) (n - 1 - i)) with (Z.max j (n - 1 - i)) in * by lia.
    exists a', v'. split_and!; [done|done| | |done].
    + intros k Hk Hkj. rewrite Hlow by lia. destruct (Z.eqb_spec k j); [lia|done].
    + intros k Hk. destruct (decide (k = j)) as [->|]; [|apply Hmid; lia]. rewrite Hlow by lia. by rewrite Z.eqb_refl.
Qed.

Context (suff : list (option Z)) (Hsuff : forall i, 0 <= i < n -> exists s, holds suff i s /\ suffix_length i s).

Lemma rdi_suff i : 0 <= i < n -> exists s, rdi suff i = Some s /\ suffix_length i s.
Proof. intros Hi. destruct (Hsuff i Hi) as (s & Hh & Hs). exists s. split; [by apply rdi_holds|done]. Qed.

(** No shift skips a border. *)
Definition within_borders (v : Z -> Z) (bound : Z) : Prop := forall d j, 0 <= j < d -> d < bound -> border d -> v j <= d.

Lemma prefix_shifts_spec rest i j a v :
  i = Z.of_nat rest - 1 -> i < n -> 0 <= j <= n - 1 - i -> shifts a v -> (forall k, j <= k < n -> v k = n) ->
  (forall k, 0 <= k < j -> v k < n - 1 - i) -> within_borders v (n - 1 - i) -> (forall d, 1 <= d < n - 1 - i -> border d -> d <= j) ->
  exists a' v', prefix_shifts rest n i j suff a = Some a' /\ shifts a' v' /\ within_borders v' n.
Proof.
  revert i j a v. induction rest as [|rest IH]; intros i j a v Hi Hin Hj Ha Hv Hlow Hb Hbj; cbn [prefix_shifts].
  - exists a, v. split_and!; [done|done|]. by replace n with (n - 1 - i) by lia.
  - destruct (rdi_suff i ltac:(lia)) as (s & -> & Hs). cbn [opt_bind]. destruct (Z.eqb_spec s (i + 1)) as [->|Hne].
    + destruct (border_shifts_spec (Z.to_nat (n - 1 - i - j)) i j a v Ha) as (a' & v' & -> & Ha' & Hl & Hm & Hh); [lia|lia|lia|done|].
      cbn [opt_bind]. replace (Z.max j (n - 1 - i)) with (n - 1 - i) in * by lia. apply (IH (i - 1) (n - 1 - i) a' v'); try done; try lia.
      * intros k Hk. destruct (decide (k < j)); [rewrite Hl by lia; specialize (Hlow k ltac:(lia)); lia|rewrite Hm; lia].
      * intros d k Hk Hd Hbd. destruct (decide (k < j)) as [Hkj|Hkj].
        -- rewrite Hl by lia. destruct (decide (d < n - 1 - i)); [apply (Hb d k); try done; lia|]. specialize (Hlow k ltac:(lia)). lia.
        -- destruct (decide (d < n - 1 - i)); [specialize (Hbj d ltac:(lia) Hbd); lia|]. rewrite Hm; lia.
    + cbn [opt_bind]. assert (~ border (n - 1 - i)) as Hnb.
      { unfold border. replace (n - 1 - (n - 1 - i)) with i by lia. intros Hb'. pose proof (suffix_length_unique _ _ _ Hs Hb'). lia. }
      apply (IH (i - 1) j a v); try done; try lia.
      * intros k Hk. specialize (Hlow k Hk). lia.
      * intros d k Hk Hd Hbd. destruct (decide (d = n - 1 - i)) as [->|]; [done|]. apply (Hb d k); try done; lia.
      * intros d Hd Hbd. destruct (decide (d = n - 1 - i)) as [->|]; [done|]. apply Hbj; [lia|done].
Qed.

(** No shift skips a place where the matched suffix occurs again. *)
Definition within_suffixes (v : Z -> Z) (bound : Z) : Prop :=
  forall i s, 0 <= i < bound -> suffix_length i s -> v (n - 1 - s) <= n - 1 - i.

Lemma suffix_shifts_spec rest i a v :
  i + Z.of_nat rest = n - 1 -> 0 <= i -> shifts a v -> within_borders v n -> within_suffixes v i ->
  exists a' v', suffix_shifts rest n i suff a = Some a' /\ shifts a' v' /\ within_borders v' n /\ within_suffixes v' (n - 1).
Proof.
  revert i a v. induction rest as [|rest IH]; intros i a v Hi Hi0 Ha Hb Hs; cbn [suffix_shifts].
  - exists a, v. replace (n - 1) with i by lia. done.
  - destruct (rdi_suff i ltac:(lia)) as (s & -> & Hsi). cbn [opt_bind]. pose proof Hsi as ([Hs0 Hs1] & _).
    destruct (shifts_write a v (n - 1 - s) (n - 1 - i) Ha) as (a1 & -> & Ha1); [lia|lia|]. cbn [opt_bind].
    eapply (IH (i + 1) a1); [lia|lia|exact Ha1| |]; cbv beta.
    + intros d j Hj Hd Hbd. destruct (Z.eqb_spec j (n - 1 - s)); [lia|]. by apply (Hb d j).
    + intros i' s' Hi' Hsi'. destruct (Z.eqb_spec (n - 1 - s') (n - 1 - s)); [lia|]. apply Hs; [|done].
      destruct (decide (i' = i)) as [->|]; [|lia]. pose proof (suffix_length_unique _ _ _ Hsi Hsi'). lia.
Qed.

Lemma add_distances_spec rest i a (v : Z -> Z) :
  i + Z.of_nat rest = n - 1 -> 0 <= i -> n < 2 ^ 31 -> Z.of_nat (length a) = n -> (forall j, 0 <= j < n -> 1 <= v j <= n) ->
  (forall j, 0 <= j < n -> holds a j (if j <? i then v j + (n - 1 - j) else v j)) ->
  exists a', add_distances rest n i a = Some a' /\ Z.of_nat (length a') = n /\ forall j, 0 <= j < n -> holds a' j (v j + (n - 1 - j)).
Proof.
  revert i a. induction rest as [|rest IH]; intros i a Hi Hi0 Hn31 Hl Hr Hh; cbn [add_distances].
  - exists a. split_and!; [done|done|]. intros j Hj. specialize (Hh j Hj). destruct (Z.ltb_spec j i); [done|].
    by replace (v j + (n - 1 - j)) with (v j) by lia.
  - pose proof (Hh i ltac:(lia)) as Hii. rewrite Z.ltb_irrefl in Hii. rewrite (rdi_holds _ _ _ Hii). cbn [opt_bind].
    pose proof (Hr i ltac:(lia)). rewrite uwrap_id by (unfold in_unsigned; lia).
    destruct (holds_write a i (v i + (n - 1 - i))) as (a1 & -> & Hl1 & H1 & Ho); [lia|]. cbn [opt_bind].
    apply IH; try lia; [done|]. intros j Hj. destruct (decide (j = i)) as [->|Hne].
    + by rewrite (proj2 (Z.ltb_lt i (i + 1))) by lia.
    + apply Ho; [done|]. specialize (Hh j Hj). destruct (Z.ltb_spec j i), (Z.ltb_spec j (i + 1)); try lia; done.
Qed.

(** What a table of good suffixes is good for: a shift that is at least one and
    skips nothing compatible, measured from the place of the mismatch. *)
Definition good_table (a : list (option Z)) : Prop :=
  Z.of_nat (length a) = n /\
  forall j, 0 <= j < n -> exists r, holds a j (r + (n - 1 - j)) /\ 1 <= r <= n /\ forall d, 1 <= d < n -> compatible d j -> r <= d.

End Tables.

Lemma good_shift_spec (N : Z -> Z) (n : Z) (needle shift suff : list (option Z)) :
  0 < n < 2 ^ 31 -> (forall i, 0 <= i < n -> holds needle i (N i)) -> Z.of_nat (length shift) = n -> Z.of_nat (length suff) = n ->
  exists good, _computeGoodSubstringShift needle n shift suff = Some good /\ good_table N n good.
Proof.
  intros Hn Hneedle Hls Hlf. unfold _computeGoodSubstringShift.
  destruct (holds_write suff (n - 1) n) as (suff1 & -> & Hl1 & Hh1 & _); [lia|]. cbn [opt_bind].
  destruct (suffix_lengths_spec N n ltac:(lia) needle Hneedle (Z.to_nat (n - 1)) (n - 2) (n - 1) (n - 1) suff1) as (suff2 & -> & Hl2 & Hs2);
    try lia; [intros t Ht; lia| |].
  { intros j Hj. exists n. replace j with (n - 1) by lia. split; [done|]. split; [lia|]. split; [done|left; lia]. }
  cbn [opt_bind]. rewrite memset_ok by lia. cbn [opt_bind Z.to_nat take app]. rewrite drop_ge, app_nil_r by lia.
  assert (shifts n (replicate (Z.to_nat n) (Some n)) (fun _ => n)) as Hfill.
  { split_and!; [rewrite length_replicate; lia| |lia]. intros j Hj. split; [lia|]. apply lookup_replicate_2. lia. }
  destruct (prefix_shifts_spec N n suff2 Hs2 (Z.to_nat n) (n - 1) 0 (replicate (Z.to_nat n) (Some n)) (fun _ => n))
    as (a1 & v1 & E1 & Ha1 & Hb1); try done; try lia; [intros d j; lia|].
  rewrite E1. cbn [opt_bind].
  destruct (suffix_shifts_spec N n suff2 Hs2 (Z.to_nat (n - 1)) 0 a1 v1) as (a2 & v2 & -> & Ha2 & Hb2 & Hs2'); try done; try lia; [intros i s; lia|].
  cbn [opt_bind]. destruct Ha2 as (Hl & Hh & Hr).
  destruct (add_distances_spec n (Z.to_nat (n - 1)) 0 a2 v2) as (good & E & Hlg & Hg); try done; try lia.
  { intros j Hj. destruct (Z.ltb_spec j 0); [lia|]. by apply Hh. }
  exists good. split; [done|]. split; [done|]. intros j Hj. exists (v2 j). split_and!; [by apply Hg|by apply Hr|by apply Hr|].
  intros d Hd Hc. destruct (decide (d <= j)).
  - replace j with (n - 1 - (n - 1 - j)) at 1 by lia. replace d with (n - 1 - (n - 1 - d)) by lia.
    apply Hs2'; [lia|]. by apply compatible_suffix; try lia.
  - apply (Hb2 d j); [lia|lia|]. by apply (compatible_border N n d j); try lia.
Qed.

(** *** Bad characters *)

(** What a table of bad characters is good for, with the distance of a place
    from the end at which the scan starts. *)
Definition bad_table (N : Z -> Z) (n : Z) (dist : Z -> Z) (bad : list Z) : Prop :=
  length bad = 256%nat /\
  forall c, 0 <= c < 256 -> exists b, rd bad c = Some b /\ 0 <= b <= n /\ forall i, 0 <= i < n -> N i = c -> b <= dist i.

Section BadTables.
Context (N : Z -> Z) (n : Z) (needle : list (option Z)).
Context (Hneedle : forall i, 0 <= i < n -> holds needle i (N i)) (Hbytes : forall i, 0 <= i < n -> 0 <= N i < 256).

(** The table after the places in [seen] were entered, the last of them nearest. *)
Definition entered (dist : Z -> Z) (seen : Z -> Prop) (bad : list Z) : Prop :=
  length bad = 256%nat /\
  forall c, 0 <= c < 256 -> exists b, rd bad c = Some b /\ 0 <= b <= n /\ forall i, 0 <= i < n -> seen i -> N i = c -> b <= dist i.

Lemma enter_byte dist seen seen' bad i :
  entered dist seen bad -> 0 <= i < n -> 0 <= dist i <= n -> (forall k, seen k -> dist i <= dist k) -> (forall k, seen' k -> seen k \/ k = i) ->
  exists bad', wr bad (N i) (dist i) = Some bad' /\ entered dist seen' bad'.
Proof.
  intros [Hl Hb] Hi Hd Hle Hseen. pose proof (Hbytes i Hi). exists (<[Z.to_nat (N i) := dist i]> bad). split; [apply wr_ok; lia|].
  split; [by rewrite length_insert|]. intros c Hc. rewrite rd_lookup by lia. destruct (decide (c = N i)) as [->|Hne].
  - exists (dist i). split; [apply list_lookup_insert_eq; lia|]. split; [lia|].
    intros k Hk Hs _. destruct (Hseen k Hs) as [?| ->]; [auto|lia].
  - rewrite list_lookup_insert_ne by lia. destruct (Hb c Hc) as (b & E & Hr & Hb'). rewrite rd_lookup in E by lia.
    exists b. split_and!; [done|lia|lia|]. intros k Hk Hs E'. destruct (Hseen k Hs) as [?| ->]; [auto|congruence].
Qed.

Lemma bad_forwards_spec rest i bad :
  i + Z.of_nat rest = n -> 0 <= i -> entered (fun k => n - 1 - k) (fun k => k < i) bad ->
  exists bad', bad_forwards rest needle n i bad = Some bad' /\ entered (fun k => n - 1 - k) (fun k => k < n) bad'.
Proof.
  revert i bad. induction rest as [|rest IH]; intros i bad Hi Hi0 Hb; cbn [bad_forwards].
  - exists bad. split; [done|]. by replace i with n in Hb by lia.
  - rewrite (rdi_holds _ _ _ (Hneedle i ltac:(lia))). cbn [opt_bind].
    destruct (enter_byte _ _ (fun k => k < i + 1) bad i Hb) as (bad' & E & Hb'); [lia|lia|intros k; lia|intros k; lia|].
    replace (n - i - 1) with (n - 1 - i) by lia. rewrite E. cbn [opt_bind]. apply IH; [lia|lia|done].
Qed.

Lemma bad_backwards_spec rest i bad :
  i = Z.of_nat rest - 1 -> i < n -> entered id (fun k => i < k) bad ->
  exists bad', bad_backwards rest needle i bad = Some bad' /\ entered id (fun k => -1 < k) bad'.
Proof.
  revert i bad. induction rest as [|rest IH]; intros i bad Hi Hin Hb; cbn [bad_backwards].
  - exists bad. split; [done|]. by replace i with (-1) in Hb by lia.
  - rewrite (rdi_holds _ _ _ (Hneedle i ltac:(lia))). cbn [opt_bind].
    destruct (enter_byte _ _ (fun k => i - 1 < k) bad i Hb) as (bad' & E & Hb'); unfold id; [lia|lia|intros k; lia|intros k; lia|].
    unfold id in E. rewrite E. cbn [opt_bind]. apply IH; [lia|lia|done].
Qed.

Lemma entered_table dist seen bad : (forall i, 0 <= i < n -> seen i) -> entered dist seen bad -> bad_table N n dist bad.
Proof.
  intros Hs [Hl Hb]. split; [done|]. intros c Hc. destruct (Hb c Hc) as (b & E & Hr & Hb'). exists b. split_and!; [done|lia|lia|]. auto.
Qed.

Lemma entered_none dist (seen : Z -> Prop) : 0 <= n -> (forall i, 0 <= i < n -> ~ seen i) -> entered dist seen (replicate 256 n).
Proof.
  intros Hn Hs. split; [by rewrite length_replicate|]. intros c Hc. exists n. rewrite rd_lookup by lia.
  split_and!; [apply lookup_replicate_2; lia|lia|lia|]. intros i Hi Hi'. by destruct (Hs i Hi).
Qed.

End BadTables.

(** ** The scan skips nothing

    The scan over a text given as a function, reading its tables through
    functions: the common shape of the two directions. *)

Section Scan.
Context (T N : Z -> Z) (n a e : Z) (bad good : Z -> Z) (Hn : 0 < n).

Fixpoint scan (fuel : nat) (sh sn : Z) : option (Z * Z) :=
  if (sh <? e) && (0 <=? sn) then
    match fuel with
    | O => None
    | S fuel => if T sh =? N sn then scan fuel (sh - 1) (sn - 1) else scan fuel (sh + Z.max (bad (T sh)) (good sn)) (n - 1)
    end
  else Some (sh, sn).

Definition occurs (s : Z) : Prop := a <= s /\ s + n <= e /\ forall t, 0 <= t < n -> T (s + t) = N t.

Context (Hbad : forall p, a <= p < e -> 0 <= bad (T p) <= n /\ forall i, 0 <= i < n -> N i = T p -> bad (T p) <= n - 1 - i).
Context (Hgood : forall j, 0 <= j < n ->
  exists r, good j = r + (n - 1 - j) /\ 1 <= r <= n /\ forall d, 1 <= d < n -> compatible N n d j -> r <= d).

(** The window at [s] failed at [sn]: no window before the next one matches. *)
Lemma shift_safe s sn s' :
  a <= s -> 0 <= sn < n -> s + sn < e -> (forall t, sn < t < n -> T (s + t) = N t) -> T (s + sn) <> N sn ->
  s <= s' < s + sn + Z.max (bad (T (s + sn))) (good sn) - (n - 1) -> ~ occurs s'.
Proof.
  intros Ha Hsn He Hm Hne Hs' (_ & _ & Hocc).
  destruct (decide (s' = s)) as [->|Hd]; [by apply Hne, Hocc|].
  destruct (Hbad (s + sn)) as [Hb0 Hb]; [lia|]. destruct (Hgood sn Hsn) as (r & Hg & Hr & Hmin).
  destruct (decide (s' - s < r)) as [Hlt|Hge].
  - enough (r <= s' - s) by lia. apply Hmin; [lia|]. split.
    + intros k Hk Hdk. rewrite <- (Hm k Hk), <- (Hocc (k - (s' - s))) by lia. f_equal. lia.
    + intros Hle E. apply Hne. rewrite <- E, <- (Hocc (sn - (s' - s))) by lia. f_equal. lia.
  - destruct (decide (s' - s <= sn)); [|lia].
    specialize (Hb (sn - (s' - s)) ltac:(lia)). rewrite <- (Hocc (sn - (s' - s))) in Hb by lia.
    replace (s' + (sn - (s' - s))) with (s + sn) in Hb by lia. specialize (Hb eq_refl). lia.
Qed.

Lemma shift_progress s sn : 0 <= sn < n -> s < s + sn + Z.max (bad (T (s + sn))) (good sn) - (n - 1).
Proof. intros Hsn. destruct (Hgood sn Hsn) as (r & Hg & Hr & _). lia. Qed.

Lemma scan_spec fuel s sn :
  -1 <= sn < n -> a <= s -> (forall t, sn < t < n -> T (s + t) = N t) -> (forall s', s' < s -> ~ occurs s') ->
  (sn = n - 1 \/ s + n <= e) -> (e - s) * (n + 1) + sn + 1 <= Z.of_nat fuel ->
  exists sh sn', scan fuel (s + sn) sn = Some (sh, sn') /\ -1 <= sn' /\
    (sn' = -1 /\ occurs (sh + 1) /\ (forall s', s' < sh + 1 -> ~ occurs s') \/ 0 <= sn' /\ forall s', ~ occurs s').
Proof.
  revert s sn. induction fuel as [|fuel IH]; intros s sn Hsn Ha Hm Hno Hin Hfuel; cbn [scan].
  all: destruct (Z.ltb_spec (s + sn) e) as [Hlt|Hge]; destruct (Z.leb_spec 0 sn) as [H0|H0]; cbn [andb]; try nia.
  all: try (exists (s + sn), sn; split; [done|]; split; [lia|]).
  all: try (left; split; [lia|]; replace (s + sn + 1) with s by lia; split; [|done];
            split_and!; [done|lia|intros t Ht; apply Hm; lia]).
  all: try (right; split; [lia|]; intros s' Hocc; destruct (decide (s' < s)) as [Hb|Hb]; [by apply (Hno s')|]; destruct Hocc as (_ & ? & _); lia).
  destruct (Z.eqb_spec (T (s + sn)) (N sn)) as [E|E].
  - replace (s + sn - 1) with (s + (sn - 1)) by lia. apply IH; try done; [lia| |lia|lia].
    intros t Ht. destruct (decide (t = sn)) as [->|]; [done|]. apply Hm. lia.
  - pose proof (shift_progress s sn ltac:(lia)) as Hp. set (m := Z.max _ _) in *.
    replace (s + sn + m) with (s + sn + m - (n - 1) + (n - 1)) by lia.
    apply IH; [lia|lia|lia| |by left|].
    + intros s' Hs' Hocc. destruct (decide (s' < s)) as [Hb|Hb]; [by apply (Hno s')|].
      by apply (shift_safe s sn s' Ha); try done; lia.
    + nia.
Qed.

End Scan.

(** *** The loops of the source *)

Section Loops.
Context (T N : Z -> Z) (n a e : Z) (haystack needle : list (option Z)) (bad : list Z) (good : list (option Z)).
Context (Hn : 0 < n).
Context (Hhay : forall p, a <= p < e -> holds haystack p (T p)) (Hneedle : forall i, 0 <= i < n -> holds needle i (N i)).

(** The tables as functions. *)
Definition bad_at (c : Z) : Z := default 0 (rd bad c).
Definition good_at (j : Z) : Z := default 0 (rdi good j).

Context (Hbad : forall p, a <= p < e -> is_Some (rd bad (T p))) (Hgood : forall j, 0 <= j < n -> is_Some (rdi good j)).

Lemma scan_forwards_scan fuel s sn :
  (forall j, 0 <= j < n -> n - 1 - j < good_at j) -> -1 <= sn < n -> a <= s ->
  scan_forwards fuel haystack needle bad good n e (s + sn) sn = scan T N n e bad_at good_at fuel (s + sn) sn.
Proof.
  intros Hpos. revert s sn. induction fuel as [|fuel IH]; intros s sn Hsn Ha; cbn [scan_forwards scan];
    destruct (Z.ltb_spec (s + sn) e) as [Hlt|Hge]; destruct (Z.leb_spec 0 sn) as [H0|H0]; cbn [andb]; try done.
  rewrite (rdi_holds _ _ _ (Hhay (s + sn) ltac:(lia))), (rdi_holds _ _ _ (Hneedle sn ltac:(lia))). cbn [opt_bind].
  destruct (_ =? _).
  - replace (s + sn - 1) with (s + (sn - 1)) by lia. apply IH; lia.
  - destruct (Hbad (s + sn) ltac:(lia)) as [b Eb]. destruct (Hgood sn ltac:(lia)) as [g Eg].
    assert (bad_at (T (s + sn)) = b) as -> by (unfold bad_at; by rewrite Eb).
    assert (good_at sn = g) as Egs by (unfold good_at; by rewrite Eg). specialize (Hpos sn ltac:(lia)). rewrite Egs in *.
    rewrite Eb, Eg. cbn [opt_bind].
    replace (s + sn + Z.max b g) with (s + sn + Z.max b g - (n - 1) + (n - 1)) by lia. apply IH; lia.
Qed.

(** Backwards, the scan is that of the mirror image. *)
Lemma scan_backwards_scan fuel s sn :
  (forall j, 0 <= j < n -> j < good_at j) -> 0 <= sn <= n -> s + n <= e ->
  scan_backwards fuel haystack needle bad good n a (s + sn) sn =
    (fun r => (- fst r, n - 1 - snd r)) <$>
      scan (fun p => T (- p)) (fun i => N (n - 1 - i)) n (1 - a) bad_at (fun j => good_at (n - 1 - j)) fuel (- (s + sn)) (n - 1 - sn).
Proof.
  intros Hpos. revert s sn. induction fuel as [|fuel IH]; intros s sn Hsn He; cbn [scan_backwards scan].
  all: assert ((- (s + sn) <? 1 - a) = (a <=? s + sn)) as -> by (destruct (Z.ltb_spec (- (s + sn)) (1 - a)), (Z.leb_spec a (s + sn)); lia).
  all: assert ((0 <=? n - 1 - sn) = (sn <? n)) as -> by (destruct (Z.leb_spec 0 (n - 1 - sn)), (Z.ltb_spec sn n); lia).
  all: destruct (Z.leb_spec a (s + sn)) as [Hlt|Hge]; destruct (Z.ltb_spec sn n) as [H0|H0]; cbn [andb fmap option_fmap option_map fst snd];
    try done; try (f_equal; f_equal; lia).
  rewrite (rdi_holds _ _ _ (Hhay (s + sn) ltac:(lia))), (rdi_holds _ _ _ (Hneedle sn ltac:(lia))). cbn [opt_bind].
  rewrite Z.opp_involutive. replace (n - 1 - (n - 1 - sn)) with sn by lia. destruct (_ =? _).
  - replace (s + sn + 1) with (s + (sn + 1)) by lia. rewrite IH by lia. do 2 f_equal; lia.
  - destruct (Hbad (s + sn) ltac:(lia)) as [b Eb]. destruct (Hgood sn ltac:(lia)) as [g Eg].
    assert (bad_at (T (s + sn)) = b) as -> by (unfold bad_at; by rewrite Eb).
    assert (good_at sn = g) as Egs by (unfold good_at; by rewrite Eg). specialize (Hpos sn ltac:(lia)). rewrite Egs in *.
    rewrite Eb, Eg. cbn [opt_bind].
    replace (s + sn - Z.max b g) with (s + sn - Z.max b g + 0) by lia. rewrite IH by lia. do 2 f_equal; lia.
Qed.

End Loops.

(** *** Reversing a buffer *)

Lemma reverse_loop_spec {A} rest (buf : list A) (i : nat) :
  (i + rest = length buf / 2)%nat ->
  exists buf', reverse_loop rest buf (Z.of_nat (length buf)) (Z.of_nat i) = Some buf' /\ length buf' = length buf /\
    forall k, (k < length buf)%nat ->
      buf' !! k = if decide (i <= k < length buf - i)%nat then buf !! (length buf - 1 - k)%nat else buf !! k.
Proof.
  revert buf i. induction rest as [|rest IH]; intros buf i Hi; cbn [reverse_loop].
  - exists buf. split_and!; [done|done|]. intros k Hk. case_decide; [|done]. f_equal.
    pose proof (Nat.div_mod_eq (length buf) 2). pose proof (Nat.mod_upper_bound (length buf) 2). lia.
  - pose proof (Nat.div_mod_eq (length buf) 2). set (m := length buf) in *.
    assert (is_Some (buf !! i)) as [x Ex] by (apply lookup_lt_is_Some; lia).
    assert (is_Some (buf !! (m - i - 1)%nat)) as [y Ey] by (apply lookup_lt_is_Some; lia).
    replace (Z.of_nat m - Z.of_nat i - 1) with (Z.of_nat (m - i - 1)) by lia.
    rewrite !rd_nat, Ex, Ey. cbn [opt_bind]. rewrite wr_nat by lia. cbn [opt_bind]. rewrite wr_nat by (rewrite length_insert; lia). cbn [opt_bind].
    set (buf1 := <[_ := x]> _). assert (length buf1 = m) as Hl1 by (unfold buf1; rewrite !length_insert; done).
    destruct (IH buf1 (S i)) as (buf' & E & Hl & Hk); [rewrite Hl1; lia|]. rewrite Hl1 in *.
    replace (Z.of_nat i + 1) with (Z.of_nat (S i)) by lia. exists buf'. split_and!; [done|done|]. intros k Hkm. rewrite Hk by done.
    assert (forall j, buf1 !! j = if decide (j = m - i - 1)%nat then Some x else if decide (j = i) then Some y else buf !! j) as Hb.
    { intros j. unfold buf1. case_decide; [subst j; apply list_lookup_insert_eq; rewrite length_insert; lia|].
      rewrite list_lookup_insert_ne by lia. case_decide; [subst j; apply list_lookup_insert_eq; lia|]. by rewrite list_lookup_insert_ne by lia. }
    repeat case_decide; rewrite ?Hb; repeat case_decide; try lia; try done; try (by rewrite <- Ex; f_equal; lia); by rewrite <- Ey; f_equal; lia.
Qed.

Lemma reverse_buffer_spec {A} (buf : list A) : REVERSE_BUFFER buf (Z.of_nat (length buf)) = Some (reverse buf).
Proof.
  unfold REVERSE_BUFFER. destruct (reverse_loop_spec (length buf / 2) buf 0) as (buf' & E & Hl & Hk); [done|].
  change 2 with (Z.of_nat 2) at 1. rewrite <- Nat2Z.inj_div, Nat2Z.id. change 0 with (Z.of_nat 0). rewrite E. f_equal.
  apply list_eq. intros k. destruct (decide (k < length buf)%nat).
  - rewrite Hk by done. rewrite decide_True by lia. symmetry. rewrite reverse_lookup by done. f_equal. lia.
  - rewrite !lookup_ge_None_2; rewrite ?length_reverse; try done; lia.
Qed.

(** ** The search *)

Section Search.
Context (T N : Z -> Z) (n start len : Z) (haystack needle : list (option Z)).
Context (Hn : 0 < n < 2 ^ 31) (Hlen : n <= len).
Context (Hhay : forall p, start <= p < start + len -> holds haystack p (T p)) (HT : forall p, start <= p < start + len -> 0 <= T p < 256).
Context (Hneedle : forall i, 0 <= i < n -> holds needle i (N i)) (HN : forall i, 0 <= i < n -> 0 <= N i < 256).

Notation occurs := (occurs T N n start (start + len)).

Lemma bad_start : memset (replicate 256 0) 0 n 256 = Some (replicate 256 n).
Proof. done. Qed.

Lemma good_at_spec N' good j : good_table N' n good -> 0 <= j < n ->
  is_Some (rdi good j) /\ exists r, good_at good j = r + (n - 1 - j) /\ 1 <= r <= n /\ forall d, 1 <= d < n -> compatible N' n d j -> r <= d.
Proof.
  intros [_ Hg] Hj. destruct (Hg j Hj) as (r & Hh & Hr). unfold good_at. rewrite (rdi_holds _ _ _ Hh). split; [done|]. by exists r.
Qed.

Lemma bad_at_spec dist bad p : bad_table N n dist bad -> start <= p < start + len ->
  is_Some (rd bad (T p)) /\ 0 <= bad_at bad (T p) <= n /\ forall i, 0 <= i < n -> N i = T p -> bad_at bad (T p) <= dist i.
Proof.
  intros [_ Hb] Hp. destruct (Hb (T p) (HT p Hp)) as (b & E & Hr & H). unfold bad_at. rewrite E. split; [done|]. by split.
Qed.

Lemma search_forwards :
  exists r, __CFDataSearchBoyerMoore haystack start len needle n false = Some r /\
    match r with Some s => occurs s /\ forall s', s' < s -> ~ occurs s' | None => forall s', ~ occurs s' end.
Proof.
  unfold __CFDataSearchBoyerMoore. cbv zeta. rewrite bad_start. cbn [opt_bind].
  destruct (bad_forwards_spec N n needle Hneedle HN (Z.to_nat n) 0 (replicate 256 n)) as (bad & -> & Hb); [lia|lia|apply entered_none; lia|].
  apply entered_table in Hb; [|lia]. cbn [opt_bind]. rewrite swrap_id by (unfold in_signed; lia).
  destruct (good_shift_spec N n needle (replicate (Z.to_nat n) None) (replicate (Z.to_nat n) None)) as (good & -> & Hg);
    [lia|done|rewrite length_replicate; lia..|]. cbn [opt_bind].
  replace (start + n - 1) with (start + (n - 1)) by lia.
  rewrite (scan_forwards_scan T N n start (start + len)); try done; try lia.
  - destruct (scan_spec T N n start (start + len) (bad_at bad) (good_at good)) with (fuel := Z.to_nat ((len + 1) * (n + 1))) (s := start) (sn := n - 1)
      as (sh & sn & -> & Hsn & H); try lia.
    + intros p Hp. apply (bad_at_spec _ bad p Hb Hp).
    + intros j Hj. apply (good_at_spec N good j Hg Hj).
    + intros s' Hs' (Ha & _). lia.
    + cbn [opt_bind]. destruct H as [(-> & H)|(H0 & H)]; [by exists (Some (sh + 1))|]. destruct (Z.ltb_spec sn 0); [lia|]. by exists None.
  - intros p Hp. apply (bad_at_spec _ bad p Hb Hp).
  - intros j Hj. apply (good_at_spec N good j Hg Hj).
  - intros j Hj. destruct (good_at_spec N good j Hg Hj) as (_ & r & -> & Hr & _). lia.
Qed.

(** The mirror image of an occurrence. *)
Lemma occurs_mirror s' :
  CFDataSearch.occurs (fun p => T (- p)) (fun i => N (n - 1 - i)) n (1 - (start + len)) (1 - start) s' <-> occurs (1 - n - s').
Proof.
  unfold CFDataSearch.occurs. split; intros (H1 & H2 & H); (split_and!; [lia|lia|]); intros t Ht.
  - specialize (H (n - 1 - t) ltac:(lia)). replace (- (s' + (n - 1 - t))) with (1 - n - s' + t) in H by lia.
    by replace (n - 1 - (n - 1 - t)) with t in H by lia.
  - specialize (H (n - 1 - t) ltac:(lia)). by replace (1 - n - s' + (n - 1 - t)) with (- (s' + t)) in H by lia.
Qed.

Lemma needle_long : (Z.to_nat n <= length needle)%nat.
Proof. destruct (Hneedle (n - 1) ltac:(lia)) as [_ E]. apply lookup_lt_Some in E. lia. Qed.

Lemma holds_reverse (l : list (option Z)) (v : Z -> Z) j :
  Z.of_nat (length l) = n -> (forall i, 0 <= i < n -> holds l i (v i)) -> 0 <= j < n -> holds (reverse l) j (v (n - 1 - j)).
Proof.
  intros Hl Hv Hj. split; [lia|]. rewrite reverse_lookup by lia. destruct (Hv (n - 1 - j) ltac:(lia)) as [_ <-]. f_equal. lia.
Qed.

Lemma search_backwards :
  exists r, __CFDataSearchBoyerMoore haystack start len needle n true = Some r /\
    match r with Some s => occurs s /\ forall s', s < s' -> ~ occurs s' | None => forall s', ~ occurs s' end.
Proof.
  pose proof needle_long as Hlong. unfold __CFDataSearchBoyerMoore. cbv zeta. rewrite bad_start. cbn [opt_bind].
  destruct (bad_backwards_spec N n needle Hneedle HN (Z.to_nat n) (n - 1) (replicate 256 n)) as (bad & -> & Hb); [lia|lia|apply entered_none; lia|].
  apply entered_table in Hb; [|lia]. cbn [opt_bind]. rewrite swrap_id by (unfold in_signed; lia).
  rewrite memmove_ok by (rewrite ?length_replicate; lia). cbn [opt_bind].
  rewrite (drop_ge (replicate _ _)) by (rewrite length_replicate; lia). rewrite app_nil_r. change (Z.to_nat 0) with 0%nat. rewrite take_0, drop_0. cbn [app].
  set (copy := take (Z.to_nat n) needle). assert (Z.of_nat (length copy) = n) as Hlc by (unfold copy; rewrite length_take; lia).
  assert (REVERSE_BUFFER copy n = Some (reverse copy)) as -> by (rewrite <- reverse_buffer_spec; by rewrite Hlc). cbn [opt_bind].
  destruct (good_shift_spec (fun i => N (n - 1 - i)) n (reverse copy) (replicate (Z.to_nat n) None) (replicate (Z.to_nat n) None)) as (good & -> & Hg);
    [lia| |rewrite length_replicate; lia..|].
  { intros i Hi. apply holds_reverse; [done| |done]. intros k Hk. destruct (Hneedle k Hk) as [? E]. split; [done|].
    unfold copy. by rewrite lookup_take_lt by lia. }
  cbn [opt_bind]. pose proof (proj1 Hg) as Hlg. 
  assert (REVERSE_BUFFER good n = Some (reverse good)) as -> by (rewrite <- reverse_buffer_spec; by rewrite Hlg). cbn [opt_bind].
  assert (forall j, 0 <= j < n -> rdi (reverse good) j = rdi good (n - 1 - j)) as Hrev.
  { intros j Hj. unfold rdi. rewrite !rd_lookup by lia. rewrite reverse_lookup by lia.
    by replace (length good - S (Z.to_nat j))%nat with (Z.to_nat (n - 1 - j)) by lia. }
  assert (forall j, 0 <= j < n -> good_at (reverse good) (n - 1 - j) = good_at good j) as Hga.
  { intros j Hj. unfold good_at. rewrite Hrev by lia. by replace (n - 1 - (n - 1 - j)) with j by lia. }
  replace (start + len - n) with (start + len - n + 0) by lia.
  rewrite (scan_backwards_scan T N n start (start + len)); try done; try lia.
  - destruct (scan_spec (fun p => T (- p)) (fun i => N (n - 1 - i)) n (1 - (start + len)) (1 - start) (bad_at bad) (fun j => good_at (reverse good) (n - 1 - j)))
      with (fuel := Z.to_nat ((len + 1) * (n + 1))) (s := 1 - (start + len)) (sn := n - 1) as (sh & sn & E & Hsn & H); try lia.
    + intros p Hp. destruct (bad_at_spec _ bad (- p) Hb) as (_ & Hr & Hd); [lia|]. split; [done|]. intros i Hi Ei. apply (Hd (n - 1 - i)); [lia|done].
    + intros j Hj. rewrite Hga by done. apply (good_at_spec _ good j Hg Hj).
    + intros s' Hs' (Ha & _). lia.
    + replace (- (start + len - n + 0)) with (1 - (start + len) + (n - 1)) by lia. rewrite Z.sub_0_r, E.
      cbn [fmap option_fmap option_map opt_bind fst snd]. destruct H as [(-> & Hocc & Hmin)|(H0 & H)].
      * replace (n - 1 - -1) with n by lia. rewrite Z.eqb_refl. exists (Some (- sh - n)). split; [done|].
        apply occurs_mirror in Hocc. replace (1 - n - (sh + 1)) with (- sh - n) in Hocc by lia. split; [done|].
        intros s' Hs' Hocc'. apply (Hmin (1 - n - s')); [lia|]. apply occurs_mirror. by replace (1 - n - (1 - n - s')) with s' by lia.
      * destruct (Z.eqb_spec (n - 1 - sn) n); [lia|]. exists None. split; [done|]. intros s' Hocc'. apply (H (1 - n - s')).
        apply occurs_mirror. by replace (1 - n - (1 - n - s')) with s' by lia.
  - intros p Hp. apply (bad_at_spec _ bad p Hb Hp).
  - intros j Hj. rewrite Hrev by done. apply (good_at_spec _ good (n - 1 - j) Hg). lia.
  - intros j Hj. destruct (good_at_spec _ good (n - 1 - j) Hg) as (_ & r & E & Hr & _); [lia|]. rewrite <- Hga in E by lia.
    replace (n - 1 - (n - 1 - j)) with j in E by lia. lia.
Qed.

End Search.
