(* ===== verification/CFData.v ===== *)
(** * CFData: byte buffers (CFData.c)

    A data object keeps its bytes behind its header (inline) or in a block of
    their own; a growable one always has a block.  Fresh memory of [malloc] and
    [realloc] holds nothing until it is written ([None]); an object made by
    [_CFRuntimeCreateInstance] and memory of [calloc] hold zeros.  A flag of the
    header says whether the bytes beyond the length still have to be cleared
    when the length grows.  The argument that points to new bytes may point
    into the buffer itself.  Not modelled: the garbage-collected branches and the
    description. *)

From S2P Require Import Prelude CFInternal CFDataSearch.
From stdpp Require Import base list numbers option.
From Stdlib Require Import ZArith Lia.
Open Scope Z_scope.
Open Scope cf_scope.

(** ** Data *)

Definition CFDATA_MAX_SIZE : Z := 2 ^ 42 - 1.

Definition sizeof_CFData : Z := 48.

Record __CFData := mkData {
  info_bits : Z; _length : Z; _capacity : Z; _bytesDeallocator : Z;
  _bytes : option (list (option Z));      (* NULL or a block *)
  inline_bytes : list (option Z)          (* what follows the header *)
}.

Definition set_info d v := mkData v (_length d) (_capacity d) (_bytesDeallocator d) (_bytes d) (inline_bytes d).
Definition __CFDataSetNumBytesUsed d v := mkData (info_bits d) v (_capacity d) (_bytesDeallocator d) (_bytes d) (inline_bytes d).
Definition __CFDataSetNumBytes d v := mkData (info_bits d) (_length d) v (_bytesDeallocator d) (_bytes d) (inline_bytes d).
Definition set_bytes d v := mkData (info_bits d) (_length d) (_capacity d) (_bytesDeallocator d) v (inline_bytes d).
Definition set_inline_bytes d v := mkData (info_bits d) (_length d) (_capacity d) (_bytesDeallocator d) (_bytes d) v.

Definition __kCFMutable : Z := 0x01.
Definition __kCFGrowable : Z := 0x02.
Definition __kCFMutableVarietyMask : Z := 0x03.
Definition __kCFBytesInline : Z := 0x04.
Definition __kCFUseAllocator : Z := 0x08.
Definition kCFImmutable : Z := 0x0.
Definition kCFFixedMutable : Z := 0x1.
Definition kCFMutable : Z := 0x3.

Definition __CFDataSetInfoBits (data : __CFData) (v : Z) : __CFData := set_info data (__CFBitfieldSetValue (info_bits data) 5 0 v).
Definition __CFDataGetInfoBit (data : __CFData) (b : Z) : bool := negb (Z.land (info_bits data) b =? 0).
Definition __CFDataIsMutable (data : __CFData) : bool := __CFDataGetInfoBit data __kCFMutable.
Definition __CFDataIsGrowable (data : __CFData) : bool := __CFDataGetInfoBit data __kCFGrowable.
Definition __CFDataBytesInline (data : __CFData) : bool := __CFDataGetInfoBit data __kCFBytesInline.
Definition __CFDataUseAllocator (data : __CFData) : bool := __CFDataGetInfoBit data __kCFUseAllocator.
Definition __CFMutableVariety (data : __CFData) : Z := __CFBitfieldGetValue (info_bits data) 1 0.
Definition __CFSetMutableVariety (data : __CFData) (v : Z) : __CFData := set_info data (__CFBitfieldSetValue (info_bits data) 1 0 v).
Definition __CFMutableVarietyFromFlags (flags : Z) : Z := Z.land flags __kCFMutableVarietyMask.
Definition __CFDataSetInline (data : __CFData) (flag : bool) : __CFData :=
  set_info data (__CFBitfieldSetValue (info_bits data) 2 2 (if flag then 1 else 0)).
Definition __CFDataNeedsToZero (data : __CFData) : bool := negb (__CFBitfieldGetValue (info_bits data) 6 6 =? 0).
Definition __CFDataSetNeedsToZero (data : __CFData) (zero : bool) : __CFData :=
  set_info data (__CFBitfieldSetValue (info_bits data) 6 6 (if zero then 1 else 0)).

Definition CHUNK_SIZE : Z := 2 ^ 29.
Definition LOW_THRESHOLD : Z := 2 ^ 20.
Definition HIGH_THRESHOLD : Z := 2 ^ 32.

Definition __CFDataRoundUpCapacity (capacity : Z) : Z :=
  if capacity <? 16 then 16
  else if capacity <? LOW_THRESHOLD then
    let idx := flsl capacity in Z.shiftl 1 (idx + (if Z.rem idx 2 =? 0 then 0 else 1))
  else if capacity <? HIGH_THRESHOLD then Z.shiftl 1 (flsl capacity)
  else Z.min (uwrap 64 (CHUNK_SIZE * (1 + Z.shiftr capacity (flsl CHUNK_SIZE - 1)))) CFDATA_MAX_SIZE.

(** ** Access *)

(** [CFDataGetBytePtr] and [CFDataGetMutableBytePtr]: the block behind the
    pointer, and writing it back. *)
Definition CFDataGetBytePtr (data : __CFData) : option (list (option Z)) :=
  if __CFDataBytesInline data then Some (inline_bytes data) else _bytes data.

Definition put_bytes (data : __CFData) (b : list (option Z)) : __CFData :=
  if __CFDataBytesInline data then set_inline_bytes data b else set_bytes data (Some b).

(** [memmove] and [memset] through a pointer that may be NULL if nothing is
    moved. *)
Definition move_in (data : __CFData) (d : Z) (src : option (list (option Z))) (so n : Z) : option __CFData :=
  if n =? 0 then Some data else
  let* b := CFDataGetBytePtr data in
  let* s := src in
  let* b := memmove b d s so n in
  Some (put_bytes data b).

Definition clear_bytes (data : __CFData) (d n : Z) : option __CFData :=
  if n =? 0 then Some data else
  let* b := CFDataGetBytePtr data in
  let* b := memset b d (Some 0) n in
  Some (put_bytes data b).

(** [n] bytes from [loc] on, all of which must have been written. *)
Definition read_bytes (b : option (list (option Z))) (loc n : Z) : option (list Z) :=
  if n =? 0 then Some [] else
  let* b := b in
  if (0 <=? loc) && (0 <=? n) && (loc + n <=? Z.of_nat (length b))
  then mapM id (take (Z.to_nat n) (drop (Z.to_nat loc) b)) else None.

Definition CFDataGetLength (data : __CFData) : Z := _length data.

Definition CFDataGetBytes (data : __CFData) (range : CFRange) (buffer : list (option Z)) : option (list (option Z)) :=
  if range_length range =? 0 then Some buffer else
  let* b := CFDataGetBytePtr data in
  memmove buffer 0 b (location range) (range_length range).

(** [memcmp] of the bytes. *)
Definition __CFDataEqual (data1 data2 : __CFData) : option bool :=
  let length := _length data1 in
  if negb (length =? _length data2) then Some false else
  let* b1 := read_bytes (CFDataGetBytePtr data1) 0 length in
  let* b2 := read_bytes (CFDataGetBytePtr data2) 0 length in
  Some (bool_decide (b1 = b2)).

(** The macro ELF_STEP (CFUtilities.c). *)
Definition ELF_STEP (H B : Z) : Z :=
  let T1 := uwrap 32 (uwrap 32 (Z.shiftl H 4) + B) in
  let T2 := Z.land T1 0xF0000000 in
  let T1 := if negb (T2 =? 0) then Z.lxor T1 (Z.shiftr T2 24) else T1 in
  Z.land T1 (uwrap 32 (Z.lnot T2)).

(** [while (3 < rem)], four bytes a round, and the switch over the rest. *)
Fixpoint hash_rounds (fuel : nat) (bytes : list Z) (length rem H : Z) : option Z :=
  if 3 <? rem then
    match fuel with
    | O => None
    | S fuel =>
        let* b0 := rd bytes (length - rem) in
        let* b1 := rd bytes (length - rem + 1) in
        let* b2 := rd bytes (length - rem + 2) in
        let* b3 := rd bytes (length - rem + 3) in
        hash_rounds fuel bytes length (rem - 4) (ELF_STEP (ELF_STEP (ELF_STEP (ELF_STEP H b0) b1) b2) b3)
    end
  else
    let* H := (if rem =? 3 then let* b := rd bytes (length - 3) in Some (ELF_STEP H b) else Some H) in
    let* H := (if (rem =? 3) || (rem =? 2) then let* b := rd bytes (length - 2) in Some (ELF_STEP H b) else Some H) in
    if (rem =? 3) || (rem =? 2) || (rem =? 1) then let* b := rd bytes (length - 1) in Some (ELF_STEP H b) else Some H.

Definition CFHashBytes (bytes : list Z) (length : Z) : option Z := hash_rounds (Z.to_nat length) bytes length (swrap 32 length) 0.

Definition __CFDataHash (data : __CFData) : option Z :=
  let n := Z.min (_length data) 80 in
  let* b := read_bytes (CFDataGetBytePtr data) 0 n in
  CFHashBytes b n.

(** ** Operations *)

(** What a pointer to new bytes points to: nothing, a block of the client, or
    the buffer of the object itself, at an offset. *)
Inductive source := Null | External (b : list (option Z)) | Own (off : Z).

(** The allocators a data object distinguishes. *)
Inductive allocator := SystemDefault | Malloc | MallocZone | Custom (id : Z).

Section Operations.
(** The size of a page, whether an allocation of a size succeeds, and whether
    the program was linked on Snow Leopard or later. *)
Context (page_size : Z) (allocates : Z -> bool) (linked_after_snow_leopard : bool).

Definition INLINE_BYTES_THRESHOLD : Z := uwrap 64 (4 * page_size - sizeof_CFData - 15).

Definition __CFDataShouldAllocateCleared (data : __CFData) (size : Z) : bool :=
  if __CFDataUseAllocator data then false else 128 * 1024 <? size.

(** [None] is NULL. *)
Definition __CFDataAllocate (data : __CFData) (size : Z) (clear : bool) : option (list (option Z)) :=
  if negb (allocates size) then None else
  Some (replicate (Z.to_nat size) (if clear then Some 0 else None)).

Definition __CFDataDeallocate (data : __CFData) : __CFData :=
  if negb (__CFDataBytesInline data) then set_bytes data None else data.

(** [realloc] of a block that is not NULL *)
Definition reallocate (b : list (option Z)) (size : Z) : option (list (option Z)) :=
  if negb (allocates size) then None else Some (resize (Z.to_nat size) None b).

(** Running out of memory halts. *)
Definition __CFDataGrow (data : __CFData) (numNewValues : Z) (clear : bool) : option __CFData :=
  let oldLength := _length data in
  let newLength := swrap 64 (oldLength + numNewValues) in
  if (CFDATA_MAX_SIZE <? uwrap 64 newLength) || (newLength <? 0) then None else
  let capacity := __CFDataRoundUpCapacity newLength in
  let numBytes := capacity in
  let allocateCleared := clear && __CFDataShouldAllocateCleared data numBytes in
  let* oldBytes := _bytes data in
  let* fresh :=
    (if allocateCleared && negb (__CFDataUseAllocator data) && ((oldLength =? 0) || (4 <? Z.quot newLength oldLength)) then
       match __CFDataAllocate data numBytes true with
       | Some bytes => let* bytes := memmove bytes 0 oldBytes 0 oldLength in Some (Some bytes)
       | None => Some None
       end
     else Some None) in
  let data := match fresh with Some _ => __CFDataDeallocate data | None => data end in
  let allocateCleared := match fresh with Some _ => allocateCleared | None => false end in
  let* bytes := match fresh with Some bytes => Some bytes | None => reallocate oldBytes numBytes end in
  let data := __CFDataSetNumBytes data numBytes in
  let* bytes :=
    (if clear && negb allocateCleared && (oldLength <? newLength) then memset bytes oldLength (Some 0) (newLength - oldLength)
     else Some bytes) in
  let data := __CFDataSetNeedsToZero data (negb allocateCleared) in
  Some (set_bytes data (Some bytes)).

(** The moves of a replacement: the bytes after the range, then the new ones. *)
Definition replace_moves (data : __CFData) (range : CFRange) (len : Z) (srcBuf : source) (newLength : Z) : option __CFData :=
  let* data :=
    (if negb (newLength =? range_length range) && (location range + range_length range <? len) then
       move_in data (location range + newLength) (CFDataGetBytePtr data) (location range + range_length range)
         (len - location range - range_length range)
     else Some data) in
  if 0 <? newLength then
    match srcBuf with
    | Null => None
    | External b => move_in data (location range) (Some b) 0 newLength
    | Own off => move_in data (location range) (CFDataGetBytePtr data) off newLength
    end
  else Some data.

Definition CFDataReplaceBytes (data : __CFData) (range : CFRange) (newBytes : source) (newLength : Z) : option __CFData :=
  let len := _length data in
  if (len <? 0) || (range_length range <? 0) || (newLength <? 0) then None else
  let newCount := swrap 64 (len - range_length range + newLength) in
  if newCount <? 0 then None else
  let* (data, srcBuf) :=
    (if __CFMutableVariety data =? kCFMutable then
       if _capacity data <? newCount then
         let* srcBuf :=
           match newBytes with
           | Own off =>
               if (off <? _capacity data) && (0 <? off + newLength) then
                 if negb (allocates newLength) then None else
                 let* b := CFDataGetBytePtr data in
                 let* copy := memmove (replicate (Z.to_nat newLength) None) 0 b off newLength in
                 Some (External copy)
               else Some newBytes
           | _ => Some newBytes
           end in
         let* data := __CFDataGrow data (newLength - range_length range) false in
         Some (data, srcBuf)
       else Some (data, newBytes)
     else if __CFMutableVariety data =? kCFFixedMutable then
       if _capacity data <? newCount then None else Some (data, newBytes)
     else Some (data, newBytes)) in
  let* data := replace_moves data range len srcBuf newLength in
  Some (__CFDataSetNumBytesUsed data newCount).

Definition CFDataSetLength (data : __CFData) (newLength : Z) : option __CFData :=
  let oldLength := _length data in
  let capacity := _capacity data in
  let isGrowable := __CFDataIsGrowable data in
  let* data :=
    (if __CFDataIsMutable data then
       if newLength <? 0 then None
       else if capacity <? newLength then
         if isGrowable then __CFDataGrow data (newLength - oldLength) true else Some data
       else if (oldLength <? newLength) && __CFDataNeedsToZero data then clear_bytes data oldLength (newLength - oldLength)
       else if newLength <? oldLength then Some (__CFDataSetNeedsToZero data true)
       else Some data
     else Some data) in
  Some (__CFDataSetNumBytesUsed data newLength).

Definition CFDataIncreaseLength (data : __CFData) (extraLength : Z) : option __CFData :=
  if extraLength <? 0 then None else CFDataSetLength data (swrap 64 (_length data + extraLength)).

Definition CFDataAppendBytes (data : __CFData) (bytes : source) (length : Z) : option __CFData :=
  CFDataReplaceBytes data (CFRangeMake (_length data) 0) bytes length.

Definition CFDataDeleteBytes (data : __CFData) (range : CFRange) : option __CFData :=
  CFDataReplaceBytes data range Null 0.

(** The block behind a pointer of the client. *)
Definition block (bytes : source) : option (list (option Z)) := match bytes with External b => Some b | _ => None end.

(** A new object; [Some None] is NULL.  The byte of the header at the start is
    0x80 for the system default allocator.  The bytes are copied if
    [bytesDeallocator] is NULL, otherwise the object refers to them. *)
Definition __CFDataInit (alloc : allocator) (flags capacity : Z) (bytes : source) (length bytesDeallocator : Z) : option (option __CFData) :=
  let noCopy := negb (bytesDeallocator =? 0) in
  let isMutable := negb (Z.land flags __kCFMutable =? 0) in
  let isGrowable := negb (Z.land flags __kCFGrowable =? 0) in
  let allocateInline := negb isGrowable && negb noCopy && (uwrap 64 capacity <? INLINE_BYTES_THRESHOLD) in
  let useAllocator := match alloc with Custom _ => true | _ => false end in
  let size := sizeof_CFData - 16 + (if allocateInline then capacity + 15 else 0) in
  if negb (allocates size) then Some None else
  let memory := mkData (match alloc with SystemDefault => 0x80 | _ => 0 end) 0 0 0 None
                  (if allocateInline then replicate (Z.to_nat capacity) (Some 0) else []) in
  let memory := __CFDataSetInfoBits memory
    (Z.lor (if allocateInline then __kCFBytesInline else 0) (if useAllocator then __kCFUseAllocator else 0)) in
  let memory :=
    if isMutable && isGrowable then __CFSetMutableVariety (__CFDataSetNumBytes memory (__CFDataRoundUpCapacity 1)) kCFMutable
    else __CFSetMutableVariety (__CFDataSetNumBytes memory capacity) kCFFixedMutable in
  if noCopy then
    let memory := mkData (info_bits memory) length (_capacity memory) bytesDeallocator (block bytes) (inline_bytes memory) in
    Some (Some (__CFSetMutableVariety memory (__CFMutableVarietyFromFlags flags)))
  else
  let cleared := isMutable && negb isGrowable && negb linked_after_snow_leopard in
  let* r :=
    (if negb allocateInline then
       match __CFDataAllocate memory (_capacity memory) cleared with
       | None => Some None
       | Some b => Some (Some (set_bytes memory (Some b), cleared))
       end
     else
       Some (Some (if (length =? 0) && negb isMutable then __CFDataSetInline (set_bytes memory None) false else memory, true))) in
  match r with
  | None => Some None
  | Some (memory, cleared) =>
      let memory := __CFDataSetNeedsToZero memory (negb cleared) in
      let* memory := CFDataReplaceBytes memory (CFRangeMake 0 0) bytes length in
      Some (Some (__CFSetMutableVariety memory (__CFMutableVarietyFromFlags flags)))
  end.

Definition pointer_source (b : option (list (option Z))) : source := match b with Some b => External b | None => Null end.

Definition CFDataCreate (alloc : allocator) (bytes : source) (length : Z) : option (option __CFData) :=
  __CFDataInit alloc kCFImmutable length bytes length 0.

Definition CFDataCreateWithBytesNoCopy (default_allocator : Z) (alloc : allocator) (bytes : source) (length bytesDeallocator : Z)
    : option (option __CFData) :=
  let bytesDeallocator := if bytesDeallocator =? 0 then default_allocator else bytesDeallocator in
  __CFDataInit alloc kCFImmutable length bytes length bytesDeallocator.

Definition CFDataCreateCopy (alloc : allocator) (data : __CFData) : option (option __CFData) :=
  __CFDataInit alloc kCFImmutable (_length data) (pointer_source (CFDataGetBytePtr data)) (_length data) 0.

Definition CFDataCreateMutable (alloc : allocator) (capacity : Z) : option (option __CFData) :=
  __CFDataInit alloc (if 0 =? capacity then kCFMutable else kCFFixedMutable) capacity Null 0 0.

Definition CFDataCreateMutableCopy (alloc : allocator) (capacity : Z) (data : __CFData) : option (option __CFData) :=
  __CFDataInit alloc (if 0 =? capacity then kCFMutable else kCFFixedMutable) capacity
    (pointer_source (CFDataGetBytePtr data)) (_length data) 0.

(** *** Searching *)

Definition kCFDataSearchBackwards : Z := Z.shiftl 1 0.
Definition kCFDataSearchAnchored : Z := Z.shiftl 1 1.

Definition _CFDataFindBytes (data dataToFind : __CFData) (searchRange : CFRange) (compareOptions : Z) : option CFRange :=
  let fullHaystackLength := uwrap 64 (CFDataGetLength data) in
  let needleLength := uwrap 64 (CFDataGetLength dataToFind) in
  let backwards := negb (Z.land compareOptions kCFDataSearchBackwards =? 0) in
  let anchored := negb (Z.land compareOptions kCFDataSearchAnchored =? 0) in
  let searchRange :=
    if anchored && (needleLength <? uwrap 64 (range_length searchRange)) then
      CFRangeMake (if backwards then swrap 64 (location searchRange + (range_length searchRange - needleLength))
                   else location searchRange) (swrap 64 needleLength)
    else searchRange in
  let searchRange :=
    if uwrap 64 (fullHaystackLength - location searchRange) <? uwrap 64 (range_length searchRange)
    then CFRangeMake (location searchRange) (swrap 64 (fullHaystackLength - location searchRange)) else searchRange in
  if (uwrap 64 (range_length searchRange) <? needleLength) || (fullHaystackLength =? 0) || (needleLength =? 0)
  then Some (CFRangeMake kCFNotFound 0) else
  let* fullHaystack := CFDataGetBytePtr data in
  let* needle := CFDataGetBytePtr dataToFind in
  let* searchResult :=
    __CFDataSearchBoyerMoore fullHaystack (location searchRange) (uwrap 64 (range_length searchRange)) needle needleLength backwards in
  Some (match searchResult with
        | None => CFRangeMake kCFNotFound 0
        | Some p => CFRangeMake p needleLength
        end).

Definition CFDataFind (data dataToFind : __CFData) (searchRange : CFRange) (compareOptions : Z) : option CFRange :=
  _CFDataFindBytes data dataToFind searchRange compareOptions.

End Operations.

(** ** Header bits *)

(** Bits that a field does not overlap are kept. *)
Lemma bitfield_frame V N1 N2 X b :
  Z.land (uwrap 32 (Z.lnot (__CFBitfieldMask N1 N2))) b = b -> Z.land (__CFBitfieldMask N1 N2) b = 0 ->
  Z.land (__CFBitfieldSetValue V N1 N2 X) b = Z.land V b.
Proof.
  intros H1 H2. unfold __CFBitfieldSetValue.
  by rewrite Z.land_lor_distr_l, <- !Z.land_assoc, H1, H2, Z.land_0_r, Z.lor_0_r.
Qed.

Section HeaderBits.
Context (d : __CFData) (z : bool).

Lemma needs_to_zero_set : __CFDataNeedsToZero (__CFDataSetNeedsToZero d z) = z.
Proof.
  unfold __CFDataNeedsToZero, __CFDataSetNeedsToZero, __CFBitfieldGetValue, __CFBitfieldSetValue. cbn [info_bits set_info].
  rewrite Z.land_lor_distr_l, <- Z.land_assoc.
  change (Z.land (uwrap 32 (Z.lnot (__CFBitfieldMask 6 6))) (__CFBitfieldMask 6 6)) with 0. rewrite Z.land_0_r. by destruct z.
Qed.

Lemma needs_to_zero_bit b : b = 1 \/ b = 2 \/ b = 4 \/ b = 8 -> __CFDataGetInfoBit (__CFDataSetNeedsToZero d z) b = __CFDataGetInfoBit d b.
Proof.
  intros Hb. unfold __CFDataGetInfoBit, __CFDataSetNeedsToZero. cbn [info_bits set_info].
  rewrite bitfield_frame; [done|..]; by destruct Hb as [->|[->|[->| ->]]].
Qed.

Lemma needs_to_zero_variety : __CFMutableVariety (__CFDataSetNeedsToZero d z) = __CFMutableVariety d.
Proof.
  unfold __CFMutableVariety, __CFDataSetNeedsToZero, __CFBitfieldGetValue. cbn [info_bits set_info]. by rewrite bitfield_frame.
Qed.

Lemma variety_bits : __CFMutableVariety d = Z.land (info_bits d) 3.
Proof. unfold __CFMutableVariety, __CFBitfieldGetValue. by rewrite Z.shiftr_0_r. Qed.

Lemma variety_mutable : __CFMutableVariety d = kCFMutable -> __CFDataIsMutable d = true /\ __CFDataIsGrowable d = true.
Proof.
  rewrite variety_bits. intros E. unfold __CFDataIsMutable, __CFDataIsGrowable, __CFDataGetInfoBit, __kCFMutable, __kCFGrowable.
  change 1 with (Z.land 3 1). change 2 with (Z.land 3 2). by rewrite !Z.land_assoc, E.
Qed.

Lemma variety_fixed : __CFMutableVariety d = kCFFixedMutable -> __CFDataIsMutable d = true /\ __CFDataIsGrowable d = false.
Proof.
  rewrite variety_bits. intros E. unfold __CFDataIsMutable, __CFDataIsGrowable, __CFDataGetInfoBit, __kCFMutable, __kCFGrowable.
  change 1 with (Z.land 3 1) at 1. change 2 with (Z.land 3 2). by rewrite !Z.land_assoc, E.
Qed.

End HeaderBits.

(** ** Capacities *)

Lemma shiftl_log2 c k : 0 < c -> Z.log2 c + 1 <= k -> c < Z.shiftl 1 k.
Proof.
  intros Hc Hk. rewrite Z.shiftl_1_l. apply Z.lt_le_trans with (2 ^ (Z.log2 c + 1)); [apply Z.log2_spec; lia|].
  apply Z.pow_le_mono_r; lia.
Qed.

(** A rounded capacity is large enough and within the limit. *)
Lemma round_up_capacity_spec c : 0 <= c <= CFDATA_MAX_SIZE -> Z.max 16 c <= __CFDataRoundUpCapacity c <= CFDATA_MAX_SIZE.
Proof.
  intros Hc. unfold __CFDataRoundUpCapacity, CFDATA_MAX_SIZE, LOW_THRESHOLD, HIGH_THRESHOLD, CHUNK_SIZE in *.
  destruct (Z.ltb_spec c 16); [lia|]. pose proof (flsl_spec c ltac:(lia)) as Ef.
  destruct (Z.ltb_spec c (2 ^ 20)).
  { cbv zeta. rewrite Ef. set (k := Z.log2 c + 1 + _).
    assert (Z.log2 c + 1 <= k <= Z.log2 c + 2) by (unfold k; destruct (_ =? _); lia).
    pose proof (shiftl_log2 c k ltac:(lia) ltac:(lia)). rewrite Z.shiftl_1_l in *.
    pose proof (Z.log2_lt_pow2 c 20 ltac:(lia)). assert (2 ^ k <= 2 ^ 22) by (apply Z.pow_le_mono_r; lia). lia. }
  destruct (Z.ltb_spec c (2 ^ 32)).
  { rewrite Ef. pose proof (shiftl_log2 c (Z.log2 c + 1) ltac:(lia) ltac:(lia)). rewrite Z.shiftl_1_l in *.
    pose proof (Z.log2_lt_pow2 c 32 ltac:(lia)). assert (2 ^ (Z.log2 c + 1) <= 2 ^ 32) by (apply Z.pow_le_mono_r; lia). lia. }
  change (flsl (2 ^ 29) - 1) with 29. rewrite Z.shiftr_div_pow2 by lia.
  pose proof (Z.div_mod c (2 ^ 29) ltac:(lia)). pose proof (Z.mod_pos_bound c (2 ^ 29) ltac:(lia)).
  rewrite uwrap_id; unfold in_unsigned; lia.
Qed.
