(* ===== verification/CFDataEdits.v ===== *)
(** * CFData: what the calls do to the bytes

    The representation of a list of bytes by a data object, the effect of the
    operations of CFData.v on it, creation, and sequences of calls as a
    refinement of edits of the list. *)

From S2P Require Import Prelude CFInternal CFDataSearch CFData.
From stdpp Require Import base list numbers option.
From Stdlib Require Import ZArith Lia.
Open Scope Z_scope.
Open Scope cf_scope.

(** ** The contents of a buffer *)

Definition is_byte (x : Z) : Prop := 0 <= x < 256.

(** The block holds the bytes [l] and then the cells [r]. *)
Definition block_of (l : list Z) (r : list (option Z)) : list (option Z) := (Some <$> l) ++ r.

(** A mutable data object with contents [l]: unless bytes have to be cleared,
    all its cells have been written. *)
Record buffer (d : __CFData) (l : list Z) (r : list (option Z)) : Prop := mkBuffer {
  buf_ptr : CFDataGetBytePtr d = Some (block_of l r);
  buf_length : _length d = Z.of_nat (length l);
  buf_capacity : _capacity d = Z.of_nat (length l + length r);
  buf_max : _capacity d <= CFDATA_MAX_SIZE;
  buf_bytes : Forall is_byte l;
  buf_known : __CFDataNeedsToZero d = false -> Forall (fun c => exists x, c = Some x /\ is_byte x) r;
  buf_variety : __CFMutableVariety d = kCFFixedMutable \/ __CFMutableVariety d = kCFMutable /\ __CFDataBytesInline d = false
}.

(** Nothing but zeros is beyond the length, unless it has to be cleared. *)
Definition clean (d : __CFData) (r : list (option Z)) : Prop := __CFDataNeedsToZero d = false -> Forall (eq (Some 0)) r.

Lemma put_ptr d b : CFDataGetBytePtr (put_bytes d b) = Some b.
Proof.
  unfold put_bytes, CFDataGetBytePtr. destruct (__CFDataBytesInline d) eqn:E; by unfold __CFDataBytesInline, __CFDataGetInfoBit in *; simpl; rewrite E.
Qed.

Lemma put_put d b b' : put_bytes (put_bytes d b) b' = put_bytes d b'.
Proof. unfold put_bytes. destruct (__CFDataBytesInline d) eqn:E; unfold __CFDataBytesInline, __CFDataGetInfoBit in *; simpl; by rewrite E. Qed.

Lemma put_same d b : CFDataGetBytePtr d = Some b -> put_bytes d b = d.
Proof. unfold CFDataGetBytePtr, put_bytes. destruct d. simpl. destruct (__CFDataBytesInline _); [by intros [= ->]|by intros ->]. Qed.

Lemma put_fields d b :
  info_bits (put_bytes d b) = info_bits d /\ _length (put_bytes d b) = _length d /\ _capacity (put_bytes d b) = _capacity d.
Proof. unfold put_bytes. by destruct (__CFDataBytesInline d). Qed.

Lemma move_in_ok d b dst src so n b' :
  CFDataGetBytePtr d = Some b -> 0 < n -> memmove b dst src so n = Some b' -> move_in d dst (Some src) so n = Some (put_bytes d b').
Proof. intros Hp Hn E. unfold move_in. rewrite (proj2 (Z.eqb_neq n 0)) by lia. rewrite Hp. cbn [opt_bind]. by rewrite E. Qed.

Lemma length_block l r : length (block_of l r) = (length l + length r)%nat.
Proof. unfold block_of. by rewrite length_app, length_fmap. Qed.

Lemma drop_block l r k : drop (length l + k) (block_of l r) = drop k r.
Proof. unfold block_of. rewrite <- (length_fmap Some l). by rewrite drop_app_add. Qed.

Lemma take_block l r k : (k <= length l)%nat -> take k (block_of l r) = Some <$> take k l.
Proof. intros Hk. unfold block_of. rewrite take_app_le by (rewrite length_fmap; lia). by rewrite fmap_take. Qed.

Lemma take_drop_block l r i k : (i + k <= length l)%nat -> take k (drop i (block_of l r)) = Some <$> take k (drop i l).
Proof.
  intros Hk. unfold block_of. rewrite drop_app_le by (rewrite length_fmap; lia).
  rewrite take_app_le by (rewrite length_drop, length_fmap; lia). by rewrite fmap_take, fmap_drop.
Qed.

(** *** Growing *)

Section Growth.
Context (allocates : Z -> bool).

(** The object after a block of [cap] cells took the place of the old one. *)
Lemma grown_buffer d l r d1 cap z b' :
  buffer d l r -> __CFMutableVariety d = kCFMutable -> __CFDataBytesInline d = false ->
  info_bits d1 = info_bits d -> _length d1 = _length d -> Z.of_nat (length l + length b') = cap -> cap <= CFDATA_MAX_SIZE ->
  (z = false -> Forall (eq (Some 0)) b') ->
  let d' := set_bytes (__CFDataSetNeedsToZero (__CFDataSetNumBytes d1 cap) z) (Some (block_of l b')) in
  buffer d' l b' /\ __CFMutableVariety d' = kCFMutable /\ clean d' b'.
Proof.
  intros Hb Hvar Hinl Hi Hl Hc Hmax Hz d'. pose proof (buf_length _ _ _ Hb) as Hlen.
  assert (__CFMutableVariety d' = kCFMutable) as Hv'.
  { unfold d'. change (__CFMutableVariety _) with (__CFMutableVariety (__CFDataSetNeedsToZero (__CFDataSetNumBytes d1 cap) z)).
    rewrite needs_to_zero_variety. rewrite variety_bits in *. simpl. by rewrite Hi. }
  assert (__CFDataBytesInline d' = false) as Hi'.
  { unfold d', __CFDataBytesInline. change (__CFDataGetInfoBit _ _) with (__CFDataGetInfoBit (__CFDataSetNeedsToZero (__CFDataSetNumBytes d1 cap) z) __kCFBytesInline).
    rewrite needs_to_zero_bit by (by right; right; left). unfold __CFDataGetInfoBit. simpl. rewrite Hi. exact Hinl. }
  assert (__CFDataNeedsToZero d' = z) as Hz' by (apply (needs_to_zero_set (__CFDataSetNumBytes d1 cap) z)).
  split_and!; [|done|by intros E; apply Hz; rewrite <- Hz'].
  constructor; [by unfold CFDataGetBytePtr; rewrite Hi'|by simpl; rewrite Hl|by symmetry|done|apply Hb| |by right].
  intros E. rewrite Hz' in E. eapply list.Forall_impl; [exact (Hz E)|]. intros c <-. by exists 0.
Qed.

Lemma data_grow_spec d l r num (clear : bool) :
  buffer d l r -> __CFMutableVariety d = kCFMutable -> _capacity d < Z.of_nat (length l) + num <= CFDATA_MAX_SIZE ->
  allocates (__CFDataRoundUpCapacity (Z.of_nat (length l) + num)) = true ->
  exists d' r', __CFDataGrow allocates d num clear = Some d' /\ buffer d' l r' /\ __CFMutableVariety d' = kCFMutable /\
    Z.of_nat (length l) + num <= _capacity d' /\ clean d' r' /\
    (clear = true -> take (Z.to_nat num) r' = replicate (Z.to_nat num) (Some 0)).
Proof.
  intros Hb Hvar Hnew Halloc. pose proof (buf_length _ _ _ Hb) as Hlen. pose proof (buf_capacity _ _ _ Hb) as Hcap.
  destruct (buf_variety _ _ _ Hb) as [Hv|[_ Hinl]]; [rewrite Hv in Hvar; done|].
  pose proof (round_up_capacity_spec (Z.of_nat (length l) + num) ltac:(lia)) as Hround.
  assert (num > 0) by lia. pose proof (buf_ptr _ _ _ Hb) as Hp. unfold CFDataGetBytePtr in Hp. rewrite Hinl in Hp.
  unfold __CFDataGrow. rewrite Hlen. rewrite swrap_id by (unfold in_signed, CFDATA_MAX_SIZE in *; lia).
  rewrite uwrap_id by (unfold in_unsigned, CFDATA_MAX_SIZE in *; lia).
  rewrite (proj2 (Z.ltb_ge CFDATA_MAX_SIZE _)), (proj2 (Z.ltb_ge _ 0)) by lia. cbv zeta. cbn [orb]. rewrite Hp. cbn [opt_bind].
  set (cap := __CFDataRoundUpCapacity _) in *.
  assert (forall d1 z b', info_bits d1 = info_bits d -> _length d1 = _length d ->
    let d' := set_bytes (__CFDataSetNeedsToZero (__CFDataSetNumBytes d1 cap) z) (Some (block_of l b')) in
    Z.of_nat (length l + length b') = cap -> (z = false -> Forall (eq (Some 0)) b') ->
    buffer d' l b' /\ __CFMutableVariety d' = kCFMutable /\ clean d' b') as Hmk by (intros; by apply (grown_buffer d l r); try done; lia).
  match goal with |- context [if ?b then match __CFDataAllocate _ _ _ _ with _ => _ end else _] => destruct b eqn:Hcalloc end.
  - unfold __CFDataAllocate. rewrite Halloc. cbn [negb]. rewrite memmove_ok by (rewrite ?length_replicate, ?length_block; lia). cbn [opt_bind].
    apply andb_prop in Hcalloc as [[Hac _]%andb_prop _]. rewrite Hac, andb_false_r. cbn [opt_bind negb andb].
    change (Z.to_nat 0) with 0%nat. rewrite take_0, drop_0, drop_replicate, Nat2Z.id, Z.add_0_l, Nat2Z.id. cbn [app].
    rewrite take_block, (take_ge l) by lia. fold (block_of l (replicate (Z.to_nat cap - length l) (Some 0))).
    set (b' := replicate _ _). destruct (Hmk (__CFDataDeallocate d) false b') as (Hb' & Hv' & Hc'); try done.
    { unfold __CFDataDeallocate. by rewrite Hinl. } { unfold __CFDataDeallocate. by rewrite Hinl. }
    { unfold b'. rewrite length_replicate. lia. } { intros _. by apply Forall_replicate. }
    eexists _, b'. split; [done|]. split_and!; [done|done|simpl; lia|done|].
    intros _. unfold b'. rewrite take_replicate. f_equal. lia.
  - cbn [opt_bind]. unfold reallocate. rewrite Halloc. cbn [negb opt_bind]. rewrite resize_ge by (rewrite length_block; lia).
    rewrite andb_true_r, (proj2 (Z.ltb_lt (Z.of_nat (length l)) _)), andb_true_r by lia.
    set (r0 := r ++ replicate (Z.to_nat cap - length (block_of l r)) None). assert (length r0 = Z.to_nat cap - length l)%nat as Hr0
      by (unfold r0; rewrite length_app, length_replicate, length_block; lia).
    assert (block_of l r ++ replicate (Z.to_nat cap - length (block_of l r)) None = block_of l r0) as -> by (unfold block_of, r0; by rewrite app_assoc).
    replace (Z.of_nat (length l) + num - Z.of_nat (length l)) with num by lia. destruct clear.
    + unfold memset. rewrite (proj2 (Z.leb_le 0 (Z.of_nat (length l)))), (proj2 (Z.leb_le 0 num)), (proj2 (Z.leb_le _ (Z.of_nat (length (block_of l r0)))))
        by (rewrite ?length_block; lia). cbn [andb opt_bind]. rewrite Nat2Z.id, take_block, (take_ge l) by lia.
      replace (Z.to_nat (Z.of_nat (length l) + num)) with (length l + Z.to_nat num)%nat by lia. rewrite drop_block.
      set (b' := replicate (Z.to_nat num) (Some 0) ++ drop (Z.to_nat num) r0). fold (block_of l b').
      destruct (Hmk d true b') as (Hb' & Hv' & Hc'); try done.
      { unfold b'. rewrite length_app, length_replicate, length_drop. lia. }
      eexists _, b'. split; [done|]. split_and!; [done|done|simpl; lia|done|]. intros _. unfold b'.
      rewrite take_app_le by (rewrite length_replicate; lia). by rewrite take_replicate, Nat.min_id.
    + cbn [opt_bind]. destruct (Hmk d true r0) as (Hb' & Hv' & Hc'); try done; [lia|].
      eexists _, r0. split; [done|]. split_and!; [done|done|simpl; lia|done|done].
Qed.

End Growth.

(** *** Replacing bytes *)

(** The two moves of a replacement: the tail goes to its place, the new bytes
    to theirs. *)
Definition move_tail (b : list (option Z)) (loc rl nl len : Z) : option (list (option Z)) :=
  if negb (nl =? rl) && (loc + rl <? len) then memmove b (loc + nl) b (loc + rl) (len - loc - rl) else Some b.

Definition splice (b : list (option Z)) (loc rl len : nat) (new : list (option Z)) : list (option Z) :=
  take loc b ++ new ++ take (len - loc - rl) (drop (loc + rl) b) ++ drop (len - rl + length new) b.

Lemma data_length_splice b loc rl len new :
  (loc + rl <= len <= length b)%nat -> (len - rl + length new <= length b)%nat -> length (splice b loc rl len new) = length b.
Proof. intros. unfold splice. rewrite !length_app, !length_take, !length_drop. lia. Qed.

Lemma move_tail_spec (b : list (option Z)) (loc rl len : nat) (nl : nat) :
  (loc + rl <= len <= length b)%nat -> (len - rl + nl <= length b)%nat ->
  exists b1, move_tail b (Z.of_nat loc) (Z.of_nat rl) (Z.of_nat nl) (Z.of_nat len) = Some b1 /\ length b1 = length b /\
    take loc b1 = take loc b /\ drop (loc + nl) b1 = take (len - loc - rl) (drop (loc + rl) b) ++ drop (len - rl + nl) b.
Proof.
  intros Hl Hn. unfold move_tail.
  destruct (Z.eqb_spec (Z.of_nat nl) (Z.of_nat rl)) as [E|Hne]; cbn [negb andb].
  { exists b. split_and!; [done..|]. replace nl with rl by lia. replace (len - rl + rl)%nat with (loc + rl + (len - loc - rl))%nat by lia.
    rewrite <- (drop_drop b _ (loc + rl)). symmetry. apply take_drop. }
  destruct (Z.ltb_spec (Z.of_nat loc + Z.of_nat rl) (Z.of_nat len)) as [Hlt|Hge].
  2:{ exists b. split_and!; [done..|]. replace (len - loc - rl)%nat with 0%nat by lia. rewrite take_0. simpl. f_equal. lia. }
  rewrite memmove_ok by lia. eexists. split; [done|].
  replace (Z.to_nat (Z.of_nat loc + Z.of_nat nl)) with (loc + nl)%nat by lia.
  replace (Z.to_nat (Z.of_nat loc + Z.of_nat rl)) with (loc + rl)%nat by lia.
  replace (Z.to_nat (Z.of_nat len - Z.of_nat loc - Z.of_nat rl)) with (len - loc - rl)%nat by lia.
  replace (Z.to_nat (Z.of_nat loc + Z.of_nat nl + (Z.of_nat len - Z.of_nat loc - Z.of_nat rl))) with (len - rl + nl)%nat by lia.
  split_and!.
  - rewrite !length_app, !length_take, !length_drop. lia.
  - rewrite take_app_le by (rewrite length_take; lia). rewrite take_take. f_equal. lia.
  - rewrite drop_app_length'; [done|]. rewrite length_take. lia.
Qed.

(** New bytes that do not lie in the buffer. *)
Lemma splice_external (b sb : list (option Z)) (loc rl len nl : nat) :
  (loc + rl <= len <= length b)%nat -> (len - rl + nl <= length b)%nat -> (nl <= length sb)%nat ->
  exists b1, move_tail b (Z.of_nat loc) (Z.of_nat rl) (Z.of_nat nl) (Z.of_nat len) = Some b1 /\
    (if 0 <? Z.of_nat nl then memmove b1 (Z.of_nat loc) sb 0 (Z.of_nat nl) else Some b1) = Some (splice b loc rl len (take nl sb)).
Proof.
  intros Hl Hn Hs. destruct (move_tail_spec b loc rl len nl Hl Hn) as (b1 & E & Hl1 & Ht & Hd). exists b1. split; [done|].
  assert (length (take nl sb) = nl) as Hnl by (rewrite length_take; lia).
  destruct (Z.ltb_spec 0 (Z.of_nat nl)).
  - rewrite memmove_ok by lia. unfold splice. rewrite Hnl. f_equal.
    replace (Z.to_nat (Z.of_nat loc + Z.of_nat nl)) with (loc + nl)%nat by lia. change (Z.to_nat 0) with 0%nat.
    by rewrite drop_0, !Nat2Z.id, Ht, Hd.
  - assert (nl = 0%nat) as -> by lia. rewrite Nat.add_0_r in Hd. unfold splice. rewrite take_0. cbn [app length].
    by rewrite <- Ht, <- Hd, take_drop.
Qed.

Section Replacing.
Context (allocates : Z -> bool).

(** Room for [n] bytes: the capacity of a fixed buffer, the limit and an
    allocation for a growable one. *)
Definition fits (d : __CFData) (n : Z) : Prop :=
  if __CFMutableVariety d =? kCFMutable then
    n <= _capacity d \/ n <= CFDATA_MAX_SIZE /\ allocates (__CFDataRoundUpCapacity n) = true
  else n <= _capacity d.

(** Writing the block back and setting the length. *)
Lemma put_buffer d l r l' b' :
  buffer d l r -> length b' = length (block_of l r) -> b' = block_of l' (drop (length l') b') -> Forall is_byte l' ->
  (__CFDataNeedsToZero d = false -> Forall (fun c => exists x, c = Some x /\ is_byte x) (drop (length l') b')) ->
  let d' := __CFDataSetNumBytesUsed (put_bytes d b') (Z.of_nat (length l')) in
  buffer d' l' (drop (length l') b') /\ __CFMutableVariety d' = __CFMutableVariety d /\ __CFDataNeedsToZero d' = __CFDataNeedsToZero d /\
  _capacity d' = _capacity d.
Proof.
  intros Hb Hl Hb' Hbytes Hk d'. destruct (put_fields d b') as (Hi & _ & Hcap).
  assert (__CFMutableVariety d' = __CFMutableVariety d) as Hv by (rewrite !variety_bits; unfold d'; simpl; by rewrite Hi).
  assert (__CFDataNeedsToZero d' = __CFDataNeedsToZero d) as Hz by (unfold __CFDataNeedsToZero, d'; simpl; by rewrite Hi).
  assert (__CFDataBytesInline d' = __CFDataBytesInline d) as Hin by (unfold __CFDataBytesInline, __CFDataGetInfoBit, d'; simpl; by rewrite Hi).
  pose proof (f_equal length Hb') as Hlen. rewrite length_block in Hlen. rewrite length_block in Hl.
  split_and!; [|done|done|done]. constructor.
  - rewrite <- Hb'. unfold d'. rewrite <- (put_ptr d b'). unfold CFDataGetBytePtr, __CFDataBytesInline, __CFDataGetInfoBit. simpl. by rewrite Hi.
  - done.
  - unfold d'. simpl. rewrite Hcap, (buf_capacity _ _ _ Hb). lia.
  - unfold d'. simpl. rewrite Hcap. apply Hb.
  - done.
  - by rewrite Hz.
  - rewrite Hv, Hin. apply Hb.
Qed.

(** Moving through the pointer of the object is moving in its block. *)
Lemma replace_moves_external d l r new x (loc rl : nat) :
  buffer d l r -> (loc + rl <= length l)%nat -> (length l - rl + length new <= length l + length r)%nat ->
  replace_moves d (CFRangeMake (Z.of_nat loc) (Z.of_nat rl)) (Z.of_nat (length l)) (External (block_of new x)) (Z.of_nat (length new)) =
    Some (put_bytes d (splice (block_of l r) loc rl (length l) (Some <$> new))).
Proof.
  intros Hb Hr Hn. pose proof (buf_ptr _ _ _ Hb) as Hp.
  destruct (splice_external (block_of l r) (block_of new x) loc rl (length l) (length new)) as (b1 & E1 & E2); rewrite ?length_block; try lia.
  rewrite take_block, (take_ge new) in E2 by lia. unfold replace_moves. cbn [location range_length]. unfold move_tail in E1.
  match goal with |- context [opt_bind ?e _] => replace e with (Some (put_bytes d b1)) end.
  - cbn [opt_bind]. destruct (Z.ltb_spec 0 (Z.of_nat (length new))) as [H0|H0].
    + by rewrite (move_in_ok _ _ _ _ _ _ _ (put_ptr d b1) H0 E2), put_put.
    + by injection E2 as ->.
  - destruct (_ && _) eqn:Ec.
    + apply andb_prop in Ec as [_ Hlt%Z.ltb_lt]. rewrite Hp. symmetry. apply (move_in_ok _ _ _ _ _ _ _ Hp); [lia|done].
    + injection E1 as <-. by rewrite (put_same _ _ Hp).
Qed.

Lemma splice_block l r loc rl new :
  (loc + rl <= length l)%nat -> (length l - rl + length new <= length l + length r)%nat ->
  splice (block_of l r) loc rl (length l) (Some <$> new) =
    block_of (take loc l ++ new ++ drop (loc + rl) l) (drop (length l - rl + length new) (block_of l r)).
Proof.
  intros Hr Hn. unfold splice. rewrite take_block, take_drop_block, length_fmap by lia. unfold block_of at 2.
  rewrite !fmap_app, <- !app_assoc. do 2 f_equal. rewrite (take_ge (drop _ l)) by (rewrite length_drop; lia). done.
Qed.

Lemma length_edited (l new : list Z) loc rl :
  (loc + rl <= length l)%nat -> length (take loc l ++ new ++ drop (loc + rl) l) = (length l - rl + length new)%nat.
Proof. intros. rewrite !length_app, length_take, length_drop. lia. Qed.

Lemma Forall_edited (P : Z -> Prop) l new loc rl : Forall P l -> Forall P new -> Forall P (take loc l ++ new ++ drop (loc + rl) l).
Proof. intros. repeat apply Forall_app_2; [by apply Forall_take|done|by apply Forall_drop]. Qed.

(** The moves, when there is room. *)
Lemma replace_moves_spec d l r new x (loc rl : nat) :
  buffer d l r -> (loc + rl <= length l)%nat -> (length l - rl + length new <= length l + length r)%nat -> Forall is_byte new ->
  let l' := take loc l ++ new ++ drop (loc + rl) l in
  exists d1, replace_moves d (CFRangeMake (Z.of_nat loc) (Z.of_nat rl)) (Z.of_nat (length l)) (External (block_of new x)) (Z.of_nat (length new)) =
    Some d1 /\ let d' := __CFDataSetNumBytesUsed d1 (Z.of_nat (length l')) in let r' := drop (length l') (block_of l r) in
    buffer d' l' r' /\ __CFMutableVariety d' = __CFMutableVariety d /\ _capacity d' = _capacity d /\
    ((length l <= length l')%nat -> clean d r -> clean d' r') /\ __CFDataNeedsToZero d' = __CFDataNeedsToZero d.
Proof.
  intros Hb Hr Hn Hby l'. assert (length l' = length l - rl + length new)%nat as Hl' by by apply length_edited.
  eexists. split; [by apply replace_moves_external|]. rewrite splice_block, <- Hl' by done. fold l'.
  set (r' := drop (length l') _). assert (drop (length l') (block_of l' r') = r') as Hd
    by (rewrite <- (Nat.add_0_r (length l')), drop_block; apply drop_0).
  assert (length (block_of l' r') = length (block_of l r)) as Hlen by (unfold r'; rewrite length_block, length_drop, length_block; lia).
  destruct (put_buffer d l r l' (block_of l' r') Hb Hlen) as (Hb' & Hv & Hz & Hc).
  - by rewrite Hd.
  - apply Forall_edited; [apply Hb|done].
  - rewrite Hd. intros E. apply Forall_drop, Forall_app_2; [|by apply Hb].
    apply Forall_fmap. eapply list.Forall_impl; [apply Hb|]. intros y Hy. by exists y.
  - rewrite Hd in Hb'. split_and!; [done|done|done| |done]. intros Hle Hcl E. rewrite Hz in E. unfold r'.
    replace (length l') with (length l + (length l' - length l))%nat by lia. rewrite drop_block. by apply Forall_drop, Hcl.
Qed.

(** No new bytes at all: the pointer is not used. *)
Lemma replace_moves_null d range len src b : replace_moves d range len src 0 = replace_moves d range len (External b) 0.
Proof. done. Qed.

Definition edit (l : list Z) (loc rl : nat) (new : list Z) : list Z := take loc l ++ new ++ drop (loc + rl) l.

(** Where the new bytes come from: a block that starts with them, or any
    pointer if there are none. *)
Definition supplies (src : source) (new : list Z) : Prop := new = [] /\ (src = Null) \/ exists x, src = External (block_of new x).

Lemma supplies_moves d range len src new :
  supplies src new -> exists x, replace_moves d range len src (Z.of_nat (length new)) =
    replace_moves d range len (External (block_of new x)) (Z.of_nat (length new)).
Proof. intros [[-> ->]|[x ->]]; [by exists []|by exists x]. Qed.

(** When the block is large enough, a replacement is its moves. *)
Lemma replace_in_place d l r (loc rl nl : nat) src :
  buffer d l r -> (rl <= length l)%nat -> Z.of_nat (length l - rl + nl) <= _capacity d ->
  CFDataReplaceBytes allocates d (CFRangeMake (Z.of_nat loc) (Z.of_nat rl)) src (Z.of_nat nl) =
    let* data := replace_moves d (CFRangeMake (Z.of_nat loc) (Z.of_nat rl)) (Z.of_nat (length l)) src (Z.of_nat nl) in
    Some (__CFDataSetNumBytesUsed data (Z.of_nat (length l - rl + nl))).
Proof.
  intros Hb Hr Hfit. pose proof (buf_max _ _ _ Hb) as Hcm. unfold CFDataReplaceBytes. cbn [location range_length]. rewrite (buf_length _ _ _ Hb).
  rewrite !(proj2 (Z.ltb_ge _ 0)) by lia. cbn [orb].
  replace (swrap 64 (Z.of_nat (length l) - Z.of_nat rl + Z.of_nat nl)) with (Z.of_nat (length l - rl + nl))
    by (rewrite swrap_id; unfold in_signed, CFDATA_MAX_SIZE in *; lia).
  rewrite (proj2 (Z.ltb_ge _ 0)), (proj2 (Z.ltb_ge (_capacity d) _)) by lia.
  by destruct (__CFMutableVariety d =? kCFMutable), (__CFMutableVariety d =? kCFFixedMutable).
Qed.

(** When it is not, a growable object copies its own bytes first. *)
Lemma replace_growing d l r (loc rl nl : nat) src :
  buffer d l r -> __CFMutableVariety d = kCFMutable -> (rl <= length l)%nat ->
  _capacity d < Z.of_nat (length l - rl + nl) <= CFDATA_MAX_SIZE -> (forall off, src <> Own off) ->
  CFDataReplaceBytes allocates d (CFRangeMake (Z.of_nat loc) (Z.of_nat rl)) src (Z.of_nat nl) =
    let* d1 := __CFDataGrow allocates d (Z.of_nat nl - Z.of_nat rl) false in
    let* data := replace_moves d1 (CFRangeMake (Z.of_nat loc) (Z.of_nat rl)) (Z.of_nat (length l)) src (Z.of_nat nl) in
    Some (__CFDataSetNumBytesUsed data (Z.of_nat (length l - rl + nl))).
Proof.
  intros Hb Hv Hr Hfit Hs. unfold CFDataReplaceBytes. cbn [location range_length]. rewrite (buf_length _ _ _ Hb), Hv.
  rewrite !(proj2 (Z.ltb_ge _ 0)) by lia. cbn [orb].
  replace (swrap 64 (Z.of_nat (length l) - Z.of_nat rl + Z.of_nat nl)) with (Z.of_nat (length l - rl + nl))
    by (rewrite swrap_id; unfold in_signed, CFDATA_MAX_SIZE in *; lia).
  rewrite (proj2 (Z.ltb_ge _ 0)), (proj2 (Z.ltb_lt (_capacity d) _)) by lia. cbn [Z.eqb kCFMutable Pos.eqb].
  destruct src as [|b|off]; [..|by destruct (Hs off)]; cbn [opt_bind]; by destruct (__CFDataGrow _ _ _ _).
Qed.

(** A replacement edits the contents. *)
Lemma replace_spec d l r (loc rl : nat) src new :
  buffer d l r -> (loc + rl <= length l)%nat -> supplies src new -> Forall is_byte new ->
  Z.of_nat (length l - rl + length new) <= CFDATA_MAX_SIZE -> fits d (Z.of_nat (length l - rl + length new)) ->
  exists d' r', CFDataReplaceBytes allocates d (CFRangeMake (Z.of_nat loc) (Z.of_nat rl)) src (Z.of_nat (length new)) = Some d' /\
    buffer d' (edit l loc rl new) r' /\ __CFMutableVariety d' = __CFMutableVariety d /\
    (__CFMutableVariety d = kCFFixedMutable -> _capacity d' = _capacity d) /\
    ((length l <= length (edit l loc rl new))%nat -> clean d r -> clean d' r').
Proof.
  intros Hb Hr Hsrc Hby Hmax Hfit. assert (length (edit l loc rl new) = length l - rl + length new)%nat as Hl' by by apply length_edited.
  pose proof (buf_capacity _ _ _ Hb) as Hcap.
  assert (forall d1 r1, buffer d1 l r1 -> Z.of_nat (length l - rl + length new) <= _capacity d1 ->
    exists d2, replace_moves d1 (CFRangeMake (Z.of_nat loc) (Z.of_nat rl)) (Z.of_nat (length l)) src (Z.of_nat (length new)) = Some d2 /\
      exists r', let d' := __CFDataSetNumBytesUsed d2 (Z.of_nat (length l - rl + length new)) in
      buffer d' (edit l loc rl new) r' /\ __CFMutableVariety d' = __CFMutableVariety d1 /\ _capacity d' = _capacity d1 /\
      ((length l <= length (edit l loc rl new))%nat -> clean d1 r1 -> clean d' r') /\ __CFDataNeedsToZero d' = __CFDataNeedsToZero d1) as Hmoves.
  { intros d1 r1 Hb1 Hc1. pose proof (buf_capacity _ _ _ Hb1).
    destruct (supplies_moves d1 (CFRangeMake (Z.of_nat loc) (Z.of_nat rl)) (Z.of_nat (length l)) src new Hsrc) as [x ->].
    destruct (replace_moves_spec d1 l r1 new x loc rl Hb1 Hr ltac:(lia) Hby) as (d2 & E & H2). fold (edit l loc rl new) in H2. rewrite Hl' in H2.
    exists d2. split; [done|]. eexists. rewrite Hl'. exact H2. }
  destruct (Z.le_gt_cases (Z.of_nat (length l - rl + length new)) (_capacity d)) as [Hin|Hgrow].
  - rewrite (replace_in_place _ l r) by (done || lia). destruct (Hmoves d r Hb Hin) as (d2 & -> & r' & Hb' & Hv & Hc & Hcl & _).
    eexists _, r'. by split_and!.
  - unfold fits in Hfit. destruct (buf_variety _ _ _ Hb) as [Hv|[Hv _]]; rewrite Hv in Hfit; cbn in Hfit; [lia|]. destruct Hfit as [|[_ Ha]]; [lia|].
    rewrite (replace_growing _ l r) by (done || lia || (intros off ->; by destruct Hsrc as [[_ ?]|[x ?]])).
    destruct (data_grow_spec allocates d l r (Z.of_nat (length new) - Z.of_nat rl) false Hb Hv) as (d1 & r1 & -> & Hb1 & Hv1 & Hc1 & Hcl1 & _).
    { lia. } { rewrite <- Ha. do 2 f_equal. lia. }
    cbn [opt_bind]. destruct (Hmoves d1 r1 Hb1 ltac:(lia)) as (d2 & -> & r' & Hb' & Hv' & Hc & Hcl & _).
    eexists _, r'. split_and!; [done|done|congruence|by rewrite Hv|auto].
Qed.

(** *** Changing the length *)

(** The same block read at another length. *)
Lemma relength d l r l' r' :
  buffer d l r -> block_of l r = block_of l' r' -> Forall is_byte l' ->
  (__CFDataNeedsToZero d = false -> Forall (fun c => exists x, c = Some x /\ is_byte x) r') ->
  let d' := __CFDataSetNumBytesUsed d (Z.of_nat (length l')) in
  buffer d' l' r' /\ __CFMutableVariety d' = __CFMutableVariety d /\ __CFDataNeedsToZero d' = __CFDataNeedsToZero d /\ _capacity d' = _capacity d.
Proof.
  intros Hb E Hby Hk. assert (drop (length l') (block_of l' r') = r') as Hd
    by (rewrite <- (Nat.add_0_r (length l')), drop_block; apply drop_0).
  pose proof (put_buffer d l r l' (block_of l' r') Hb ltac:(by rewrite E)) as H. rewrite Hd, put_same in H by (rewrite <- E; apply Hb).
  by apply H.
Qed.

Lemma clear_bytes_ok d l r (k : nat) :
  buffer d l r -> (0 < k <= length r)%nat ->
  clear_bytes d (Z.of_nat (length l)) (Z.of_nat k) = Some (put_bytes d (block_of (l ++ replicate k 0) (drop k r))).
Proof.
  intros Hb Hk. unfold clear_bytes. rewrite (proj2 (Z.eqb_neq _ 0)), (buf_ptr _ _ _ Hb) by lia. cbn [opt_bind].
  unfold memset. rewrite (proj2 (Z.leb_le 0 (Z.of_nat (length l)))), (proj2 (Z.leb_le 0 (Z.of_nat k))), (proj2 (Z.leb_le _ (Z.of_nat (length (block_of l r)))))
    by (rewrite ?length_block; lia). cbn [andb opt_bind]. do 2 f_equal. rewrite Nat2Z.id, take_block, (take_ge l) by lia.
  replace (Z.to_nat (Z.of_nat (length l) + Z.of_nat k)) with (length l + k)%nat by lia. rewrite drop_block, Nat2Z.id.
  unfold block_of. by rewrite fmap_app, <- app_assoc, fmap_replicate.
Qed.

Lemma set_needs_buffer d l r : buffer d l r -> buffer (__CFDataSetNeedsToZero d true) l r.
Proof.
  intros [Hp Hl Hc Hm Hb Hk Hv]. unfold CFDataGetBytePtr in Hp. constructor; try done.
  - unfold CFDataGetBytePtr. unfold __CFDataBytesInline in *. by rewrite needs_to_zero_bit by (by right; right; left).
  - by rewrite needs_to_zero_set.
  - unfold __CFDataBytesInline. rewrite needs_to_zero_variety, needs_to_zero_bit by (by right; right; left). exact Hv.
Qed.

(** Written cells are bytes. *)
Lemma known_bytes (r : list (option Z)) :
  Forall (fun c => exists x, c = Some x /\ is_byte x) r -> exists x, r = Some <$> x /\ Forall is_byte x.
Proof.
  induction 1 as [|c r (y & -> & Hy) _ (x & -> & Hx)]; [by exists []|]. exists (y :: x). split; [done|by constructor].
Qed.

(** A growing length: what the new bytes are. *)
Lemma extend_spec d l r (k : nat) :
  buffer d l r -> (0 < k <= length r)%nat ->
  exists d1 x r', (if __CFDataNeedsToZero d then clear_bytes d (Z.of_nat (length l)) (Z.of_nat k) else Some d) = Some d1 /\
    let d' := __CFDataSetNumBytesUsed d1 (Z.of_nat (length l + k)) in
    length x = k /\ buffer d' (l ++ x) r' /\ __CFMutableVariety d' = __CFMutableVariety d /\ _capacity d' = _capacity d /\
    (clean d r -> x = replicate k 0 /\ clean d' r').
Proof.
  intros Hb Hk. destruct (__CFDataNeedsToZero d) eqn:Hz.
  - rewrite (clear_bytes_ok _ _ r) by done. set (l' := l ++ replicate k 0). assert (length l' = length l + k)%nat as Hl'
      by (unfold l'; by rewrite length_app, length_replicate).
    assert (drop (length l') (block_of l' (drop k r)) = drop k r) as Hd by (rewrite <- (Nat.add_0_r (length l')), drop_block; apply drop_0).
    destruct (put_buffer d l r l' (block_of l' (drop k r)) Hb) as (Hb' & Hv & Hn & Hc).
    { rewrite !length_block, length_drop. lia. } { by rewrite Hd. }
    { apply Forall_app_2; [apply Hb|]. by apply Forall_replicate. } { congruence. }
    eexists _, (replicate k 0), (drop k r). split; [done|]. rewrite Hd in Hb'. rewrite <- Hl'. split_and!; [apply length_replicate|done..|].
    intros _. split; [done|]. intros E. congruence.
  - pose proof (buf_known _ _ _ Hb Hz) as Hkn. rewrite <- (take_drop k r) in Hkn. apply Forall_app in Hkn as [Hk1 Hk2].
    destruct (known_bytes _ Hk1) as (x & Ex & Hx). assert (length x = k) as Hlx
      by (rewrite <- (length_fmap Some x), <- Ex, length_take; lia).
    destruct (relength d l r (l ++ x) (drop k r) Hb) as (Hb' & Hv & Hn & Hc).
    { unfold block_of. by rewrite fmap_app, <- app_assoc, <- Ex, take_drop. } { apply Forall_app_2; [apply Hb|done]. } { done. }
    rewrite length_app, Hlx in *. eexists _, x, (drop k r). split; [done|]. split_and!; [done..|].
    intros Hcl. specialize (Hcl Hz). split; [|intros _; by apply Forall_drop].
    symmetry. apply replicate_as_Forall. split; [done|]. apply (Forall_take _ k) in Hcl. rewrite Ex in Hcl. apply (Forall_fmap Some) in Hcl.
    eapply list.Forall_impl; [exact Hcl|]. by intros y [= <-].
Qed.

Lemma shrink_spec d l r (n : nat) :
  buffer d l r -> (n < length l)%nat ->
  let d' := __CFDataSetNumBytesUsed (__CFDataSetNeedsToZero d true) (Z.of_nat n) in
  exists r', buffer d' (take n l) r' /\ __CFMutableVariety d' = __CFMutableVariety d /\ _capacity d' = _capacity d /\ clean d' r'.
Proof.
  intros Hb Hn. destruct (relength _ l r (take n l) ((Some <$> drop n l) ++ r) (set_needs_buffer _ _ _ Hb)) as (Hb' & Hv & Hz & Hc).
  - unfold block_of. by rewrite app_assoc, <- fmap_app, take_drop.
  - apply Forall_take, Hb.
  - by rewrite needs_to_zero_set.
  - rewrite length_take, Nat.min_l in * by lia. eexists. split_and!; [exact Hb'|by rewrite Hv, needs_to_zero_variety|done|].
    intros E. rewrite Hz, needs_to_zero_set in E. done.
Qed.

(** Growing gives zeros whatever was beyond the length. *)
Lemma grow_length_spec d l r (n : nat) :
  buffer d l r -> __CFMutableVariety d = kCFMutable -> _capacity d < Z.of_nat n <= CFDATA_MAX_SIZE ->
  allocates (__CFDataRoundUpCapacity (Z.of_nat n)) = true ->
  exists d1 r', __CFDataGrow allocates d (Z.of_nat n - Z.of_nat (length l)) true = Some d1 /\
    let d' := __CFDataSetNumBytesUsed d1 (Z.of_nat n) in
    buffer d' (l ++ replicate (n - length l) 0) r' /\ __CFMutableVariety d' = kCFMutable /\ clean d' r'.
Proof.
  intros Hb Hv Hn Ha. pose proof (buf_capacity _ _ _ Hb) as Hcap.
  destruct (data_grow_spec allocates d l r (Z.of_nat n - Z.of_nat (length l)) true Hb Hv) as (d1 & r1 & E & Hb1 & Hv1 & Hc1 & Hcl1 & Hz1).
  { lia. } { rewrite <- Ha. do 2 f_equal. lia. }
  specialize (Hz1 eq_refl). replace (Z.to_nat (Z.of_nat n - Z.of_nat (length l))) with (n - length l)%nat in Hz1 by lia.
  destruct (relength d1 l r1 (l ++ replicate (n - length l) 0) (drop (n - length l) r1) Hb1) as (Hb' & Hv' & Hz & Hc).
  - unfold block_of. by rewrite fmap_app, fmap_replicate, <- app_assoc, <- Hz1, take_drop.
  - apply Forall_app_2; [apply Hb1|by apply Forall_replicate].
  - intros Ez. apply Forall_drop. by apply Hb1.
  - rewrite length_app, length_replicate in *. replace (length l + (n - length l))%nat with n in * by lia.
    eexists d1, _. split; [done|]. split_and!; [exact Hb'|by rewrite Hv'|]. intros Ez. rewrite Hz in Ez. by apply Forall_drop, Hcl1.
Qed.

(** What a new length makes of the contents: a prefix, or new bytes at the
    end, which are zeros if nothing else lies beyond the length. *)
Lemma set_length_spec d l r (n : nat) :
  buffer d l r -> Z.of_nat n <= CFDATA_MAX_SIZE -> fits d (Z.of_nat n) ->
  exists d' x r', CFDataSetLength allocates d (Z.of_nat n) = Some d' /\ length x = (n - length l)%nat /\ buffer d' (take n l ++ x) r' /\
    __CFMutableVariety d' = __CFMutableVariety d /\ (__CFMutableVariety d = kCFFixedMutable -> _capacity d' = _capacity d) /\
    (clean d r -> x = replicate (n - length l) 0 /\ clean d' r') /\ ((n < length l)%nat -> clean d' r').
Proof.
  intros Hb Hmax Hfit. pose proof (buf_length _ _ _ Hb) as Hlen. pose proof (buf_capacity _ _ _ Hb) as Hcap.
  assert (__CFDataIsMutable d = true) as Hm by (destruct (buf_variety _ _ _ Hb) as [Hv|[Hv _]]; [by apply variety_fixed|by apply variety_mutable]).
  unfold CFDataSetLength. rewrite Hm, Hlen, (proj2 (Z.ltb_ge (Z.of_nat n) 0)) by lia.
  destruct (Z.ltb_spec (_capacity d) (Z.of_nat n)) as [Hgt|Hle].
  { unfold fits in Hfit. destruct (buf_variety _ _ _ Hb) as [Hv|[Hv _]]; rewrite Hv in Hfit; cbn in Hfit; [lia|].
    rewrite (proj2 (variety_mutable d Hv)). destruct Hfit as [|[_ Ha]]; [lia|].
    destruct (grow_length_spec d l r n Hb Hv ltac:(lia) Ha) as (d1 & r' & -> & Hb' & Hv' & Hcl). cbn [opt_bind].
    eexists _, (replicate (n - length l) 0), r'. split; [done|]. rewrite (take_ge l) by lia.
    split_and!; [apply length_replicate|done|congruence|by rewrite Hv|done|done]. }
  destruct (Z.ltb_spec (Z.of_nat (length l)) (Z.of_nat n)) as [Hup|Hdown].
  - destruct (extend_spec d l r (n - length l) Hb ltac:(lia)) as (d1 & x & r' & E & Hx & Hb' & Hv & Hc & Hcl).
    replace (length l + (n - length l))%nat with n in * by lia. rewrite Nat2Z.inj_sub in E by lia. cbn [andb].
    rewrite (proj2 (Z.ltb_ge (Z.of_nat n) _)) by lia. rewrite E. cbn [opt_bind]. eexists _, x, r'. rewrite (take_ge l) by lia.
    split_and!; [done|done|done|done|done|done|lia].
  - cbn [andb]. destruct (Z.ltb_spec (Z.of_nat n) (Z.of_nat (length l))) as [Hlt|Hge]; cbn [opt_bind].
    + destruct (shrink_spec d l r n Hb ltac:(lia)) as (r' & Hb' & Hv & Hc & Hcl). eexists _, [], r'.
      replace (n - length l)%nat with 0%nat by lia. rewrite app_nil_r. by split_and!.
    + replace n with (length l) by lia. eexists _, [], r. rewrite Nat.sub_diag, app_nil_r, take_ge by lia.
      destruct (relength d l r l r Hb eq_refl ltac:(apply Hb) ltac:(apply Hb)) as (Hb' & Hv & Hz & Hc).
      split_and!; [done|done|done|done|done| |lia]. intros Hcl. split; [done|]. intros E. rewrite Hz in E. by apply Hcl.
Qed.

End Replacing.

(** *** New objects *)

Section Variety.
Context (d : __CFData) (v : Z) (Hv : v = 0 \/ v = 1 \/ v = 3).

Lemma set_variety_variety : __CFMutableVariety (__CFSetMutableVariety d v) = v.
Proof using Hv.
  rewrite variety_bits. unfold __CFSetMutableVariety, __CFBitfieldSetValue. cbn [info_bits set_info].
  rewrite Z.land_lor_distr_l, <- Z.land_assoc. change (Z.land (uwrap 32 (Z.lnot (__CFBitfieldMask 1 0))) 3) with 0.
  rewrite Z.land_0_r. by destruct Hv as [->|[->| ->]].
Qed.

Lemma set_variety_inline : __CFDataBytesInline (__CFSetMutableVariety d v) = __CFDataBytesInline d.
Proof. unfold __CFDataBytesInline, __CFDataGetInfoBit, __CFSetMutableVariety. cbn [info_bits set_info]. by rewrite bitfield_frame. Qed.

Lemma set_variety_needs : __CFDataNeedsToZero (__CFSetMutableVariety d v) = __CFDataNeedsToZero d.
Proof. unfold __CFDataNeedsToZero, __CFBitfieldGetValue, __CFSetMutableVariety. cbn [info_bits set_info]. by rewrite bitfield_frame. Qed.

Lemma set_variety_ptr : CFDataGetBytePtr (__CFSetMutableVariety d v) = CFDataGetBytePtr d.
Proof. unfold CFDataGetBytePtr. by rewrite set_variety_inline. Qed.

Lemma set_variety_buffer l r : __CFMutableVariety d = v -> buffer d l r -> buffer (__CFSetMutableVariety d v) l r.
Proof using Hv.
  intros E [Hp Hl Hc Hm Hb Hk Hva]. constructor; try done.
  - by rewrite set_variety_ptr.
  - by rewrite set_variety_needs.
  - by rewrite set_variety_variety, set_variety_inline, <- E.
Qed.

End Variety.

(** An object of which nothing has been used. *)
Lemma fresh_buffer m cell (cap : nat) :
  CFDataGetBytePtr m = Some (replicate cap cell) -> _length m = 0 -> _capacity m = Z.of_nat cap -> Z.of_nat cap <= CFDATA_MAX_SIZE ->
  (__CFDataNeedsToZero m = false -> cell = Some 0) ->
  __CFMutableVariety m = kCFFixedMutable \/ __CFMutableVariety m = kCFMutable /\ __CFDataBytesInline m = false ->
  buffer m [] (replicate cap cell) /\ clean m (replicate cap cell).
Proof.
  intros Hp Hl Hc Hm Hz Hv. assert (clean m (replicate cap cell)) as Hcl by (intros E; apply Forall_replicate; symmetry; by apply Hz).
  split; [|done]. constructor; try done.
  - by rewrite length_replicate.
  - by rewrite Hc.
  - intros E. eapply list.Forall_impl; [exact (Hcl E)|]. intros c <-. by exists 0.
Qed.

Section New.
Context (page_size : Z) (allocates : Z -> bool) (linked_after_snow_leopard : bool).

(** The object before its bytes are copied in. *)
Definition fresh (alloc : allocator) (inl cleared : bool) (v cap : Z) (b : list (option Z)) : __CFData :=
  let m := mkData (match alloc with SystemDefault => 0x80 | _ => 0 end) 0 0 0 None (if inl then b else []) in
  let m := __CFDataSetInfoBits m
    (Z.lor (if inl then __kCFBytesInline else 0) (if match alloc with Custom _ => true | _ => false end then __kCFUseAllocator else 0)) in
  let m := __CFSetMutableVariety (__CFDataSetNumBytes m cap) v in
  __CFDataSetNeedsToZero (if inl then m else set_bytes m (Some b)) (negb cleared).

Lemma fresh_ok alloc inl cleared v (cap : nat) cell :
  v = kCFFixedMutable \/ v = kCFMutable /\ inl = false -> (cleared = true -> cell = Some 0) -> Z.of_nat cap <= CFDATA_MAX_SIZE ->
  let m := fresh alloc inl cleared v (Z.of_nat cap) (replicate cap cell) in
  buffer m [] (replicate cap cell) /\ clean m (replicate cap cell) /\ __CFMutableVariety m = v.
Proof.
  intros Hv Hc Hm m. assert (__CFMutableVariety m = v) as Evar
    by (unfold m; destruct alloc, inl, cleared, Hv as [->|[-> ?]]; by vm_compute).
  cut (buffer m [] (replicate cap cell) /\ clean m (replicate cap cell)); [by intros [? ?]|]. apply fresh_buffer; [..|done| |].
  - unfold m. destruct alloc, inl, cleared, Hv as [->|[-> ?]]; done.
  - unfold m. by destruct inl.
  - unfold m. by destruct inl.
  - unfold m. destruct cleared; [intros _; by apply Hc|]. unfold fresh. by rewrite needs_to_zero_set.
  - rewrite Evar. destruct Hv as [->|[-> ->]]; [by left|right]. split; [done|]. unfold m. by destruct alloc, cleared.
Qed.

(** The contents of an object, mutable or not. *)
Definition contents (d : __CFData) (l : list Z) : Prop :=
  _length d = Z.of_nat (length l) /\ read_bytes (CFDataGetBytePtr d) 0 (_length d) = Some l.

Lemma mapM_Some_fmap (l : list Z) : mapM id (Some <$> l) = Some l.
Proof. apply mapM_Some. induction l; by constructor. Qed.

Lemma read_block l r (loc n : nat) :
  (loc + n <= length l)%nat -> read_bytes (Some (block_of l r)) (Z.of_nat loc) (Z.of_nat n) = Some (take n (drop loc l)).
Proof.
  intros Hn. unfold read_bytes. destruct (Z.eqb_spec (Z.of_nat n) 0); [by replace n with 0%nat by lia|]. cbn [opt_bind].
  rewrite (proj2 (Z.leb_le 0 (Z.of_nat loc))), (proj2 (Z.leb_le 0 (Z.of_nat n))), (proj2 (Z.leb_le _ (Z.of_nat (length (block_of l r)))))
    by (rewrite ?length_block; lia). cbn [andb]. by rewrite !Nat2Z.id, take_drop_block, mapM_Some_fmap by lia.
Qed.

Lemma buffer_contents d l r : buffer d l r -> contents d l.
Proof.
  intros Hb. split; [apply Hb|]. rewrite (buf_ptr _ _ _ Hb), (buf_length _ _ _ Hb). change 0 with (Z.of_nat 0).
  rewrite read_block by lia. by rewrite drop_0, take_ge.
Qed.

(** What is stored is [capacity] bytes, or [__CFDataRoundUpCapacity 1] for a
    growable object. *)
Definition first_capacity (flags capacity : Z) : Z := if flags =? kCFMutable then __CFDataRoundUpCapacity 1 else capacity.
Definition allocates_inline (flags capacity : Z) : bool :=
  negb (flags =? kCFMutable) && (uwrap 64 capacity <? INLINE_BYTES_THRESHOLD page_size).
Definition object_size (flags capacity : Z) : Z :=
  sizeof_CFData - 16 + (if allocates_inline flags capacity then capacity + 15 else 0).

Definition refused (flags capacity : Z) : bool :=
  negb (allocates (object_size flags capacity)) ||
  negb (allocates_inline flags capacity) && negb (allocates (first_capacity flags capacity)).

Definition starts_cleared (flags capacity : Z) : bool :=
  allocates_inline flags capacity || (flags =? kCFFixedMutable) && negb linked_after_snow_leopard.

Definition fresh_for (alloc : allocator) (flags capacity : Z) : __CFData :=
  fresh alloc (allocates_inline flags capacity) (starts_cleared flags capacity)
    (if flags =? kCFMutable then kCFMutable else kCFFixedMutable) (first_capacity flags capacity)
    (replicate (Z.to_nat (first_capacity flags capacity)) (if starts_cleared flags capacity then Some 0 else None)).

Definition is_flags (flags : Z) : Prop := flags = kCFImmutable \/ flags = kCFFixedMutable \/ flags = kCFMutable.

(** Creation is a replacement in a fresh object. *)
Lemma init_unfold alloc flags capacity src len :
  is_flags flags -> (flags =? kCFImmutable) && (len =? 0) = false ->
  __CFDataInit page_size allocates linked_after_snow_leopard alloc flags capacity src len 0 =
    if refused flags capacity then Some None else
    let* d := CFDataReplaceBytes allocates (fresh_for alloc flags capacity) (CFRangeMake 0 0) src len in
    Some (Some (__CFSetMutableVariety d flags)).
Proof.
  intros Hf Hne. unfold __CFDataInit, refused, fresh_for, starts_cleared, object_size.
  replace (negb (negb (Z.land flags __kCFGrowable =? 0)) && negb (negb (0 =? 0)) && (uwrap 64 capacity <? INLINE_BYTES_THRESHOLD page_size))
    with (allocates_inline flags capacity) by (unfold allocates_inline; by destruct Hf as [->|[->| ->]]).
  destruct (allocates (sizeof_CFData - 16 + _)); [|done]. cbn [negb orb].
  assert (__CFMutableVarietyFromFlags flags = flags) as -> by (by destruct Hf as [->|[->| ->]]).
  destruct (allocates_inline flags capacity) eqn:Ei; cbn [negb orb andb].
  - cbn [opt_bind]. replace ((len =? 0) && negb (negb (Z.land flags __kCFMutable =? 0))) with false
      by (destruct Hf as [->|[->| ->]]; cbn in Hne |- *; by rewrite ?andb_false_r, ?andb_true_r). cbn [negb].
    unfold fresh, first_capacity. unfold allocates_inline in Ei. destruct Hf as [->|[->| ->]]; done.
  - unfold __CFDataAllocate. unfold fresh, first_capacity.
    destruct Hf as [->|[->| ->]].
    + destruct (allocates capacity) eqn:Ea; simpl; by rewrite ?Ea.
    + destruct (allocates capacity) eqn:Ea; simpl; by rewrite ?Ea.
    + change (__CFDataRoundUpCapacity 1) with 16. simpl. destruct (allocates 16) eqn:Ea; by rewrite ?Ea.
Qed.

(** The initial bytes have to fit. *)
Definition admits (flags capacity : Z) (n : nat) : Prop :=
  Z.of_nat n <= CFDATA_MAX_SIZE /\
  if flags =? kCFMutable then Z.of_nat n <= 16 \/ allocates (__CFDataRoundUpCapacity (Z.of_nat n)) = true
  else Z.of_nat n <= capacity <= CFDATA_MAX_SIZE.

Lemma data_init_spec alloc flags capacity src new :
  is_flags flags -> (flags =? kCFImmutable) && (Z.of_nat (length new) =? 0) = false ->
  admits flags capacity (length new) -> supplies src new -> Forall is_byte new ->
  exists d r, __CFDataInit page_size allocates linked_after_snow_leopard alloc flags capacity src (Z.of_nat (length new)) 0 =
    (if refused flags capacity then Some None else Some (Some d)) /\
    contents d new /\ __CFMutableVariety d = flags /\
    (flags <> kCFImmutable -> buffer d new r /\ clean d r /\ (flags = kCFFixedMutable -> _capacity d = capacity)).
Proof.
  intros Hf Hne Had Hsrc Hby. rewrite init_unfold by done. unfold admits in Had. destruct Had as [Hmax Hfit].
  assert (0 <= first_capacity flags capacity <= CFDATA_MAX_SIZE) as Hcap.
  { unfold first_capacity. destruct (flags =? kCFMutable); [by vm_compute|lia]. }
  destruct (fresh_ok alloc (allocates_inline flags capacity) (starts_cleared flags capacity) (if flags =? kCFMutable then kCFMutable else kCFFixedMutable)
    (Z.to_nat (first_capacity flags capacity)) (if starts_cleared flags capacity then Some 0 else None)) as (Hb & Hcl & Hv).
  { unfold allocates_inline. destruct (flags =? kCFMutable); [by right|by left]. } { by intros ->. } { lia. }
  rewrite Z2Nat.id in Hb, Hcl, Hv by lia. fold (fresh_for alloc flags capacity) in Hb, Hcl, Hv.
  set (m := fresh_for alloc flags capacity) in *.
  assert (_capacity m = first_capacity flags capacity) as Hmc by (unfold m, fresh_for, fresh; by destruct (allocates_inline _ _)).
  destruct (replace_spec allocates m [] _ 0 0 src new Hb) as (d1 & r1 & E & Hb1 & Hv1 & Hc1 & Hcl1); simpl; try done.
  { unfold fits. rewrite Hv, Hmc. unfold first_capacity. destruct (flags =? kCFMutable); cbn -[__CFDataRoundUpCapacity CFDATA_MAX_SIZE]; [|lia].
    destruct Hfit; [by left|right; done]. }
  change (Z.of_nat 0) with 0 in E. replace (edit [] 0 0 new) with new in * by (unfold edit; simpl; by rewrite app_nil_r).
  exists (__CFSetMutableVariety d1 flags), r1. split; [by destruct (refused _ _); rewrite ?E|].
  pose proof (buffer_contents _ _ _ Hb1) as [Hl Hr]. split_and!.
  - split; [done|]. by rewrite set_variety_ptr.
  - apply set_variety_variety. unfold is_flags in Hf. tauto.
  - intros Hm. assert (__CFMutableVariety d1 = flags) as Hvf by (rewrite Hv1, Hv; destruct Hf as [->|[->| ->]]; done).
    split_and!; [apply set_variety_buffer; [tauto|done|done]| |].
    + intros Ez. rewrite set_variety_needs in Ez. apply Hcl1; [simpl; lia|done|done].
    + intros ->. simpl. rewrite (Hc1 Hv), Hmc. done.
Qed.

(** An immutable object without bytes. *)
Lemma init_empty alloc capacity src :
  capacity = 0 -> exists r, __CFDataInit page_size allocates linked_after_snow_leopard alloc kCFImmutable capacity src 0 0 = Some r /\
    match r with
    | None => refused kCFImmutable capacity = true
    | Some d => refused kCFImmutable capacity = false /\ contents d []
    end.
Proof.
  intros ->. unfold __CFDataInit, refused, object_size.
  change (negb (negb (Z.land kCFImmutable __kCFGrowable =? 0)) && negb (negb (0 =? 0)) && (uwrap 64 0 <? INLINE_BYTES_THRESHOLD page_size))
    with (allocates_inline kCFImmutable 0).
  destruct (allocates (sizeof_CFData - 16 + _)); [|by exists None]. cbn [negb orb].
  destruct (allocates_inline kCFImmutable 0) eqn:Ei; cbn [negb andb opt_bind Z.eqb].
  - destruct alloc; eexists (Some _); (split; [reflexivity|by split]).
  - unfold __CFDataAllocate. change (first_capacity kCFImmutable 0) with 0. simpl.
    destruct (allocates 0); simpl; [|by exists None]. destruct alloc; eexists (Some _); (split; [reflexivity|by split]).
Qed.

End New.

(** ** Sequences of calls *)

Inductive call :=
  | Append (new : list Z)
  | Replace (loc rl : nat) (new : list Z)
  | Delete (loc rl : nat)
  | SetLength (n : nat)
  | IncreaseLength (k : nat).

(** What a call does to the bytes.  The flag says that the object keeps zeros
    beyond its length: as long as it is set, a longer length shows zeros; a
    replacement that shortens the data gives it up, a shorter length restores
    it. *)
Inductive contents_step : call -> list Z * bool -> list Z * bool -> Prop :=
  | step_append l z new : contents_step (Append new) (l, z) (l ++ new, z)
  | step_replace l z loc rl new : contents_step (Replace loc rl new) (l, z) (edit l loc rl new, z && (rl <=? length new)%nat)
  | step_delete l z loc rl : contents_step (Delete loc rl) (l, z) (take loc l ++ drop (loc + rl) l, z && (rl =? 0)%nat)
  | step_shorten l z n : (n <= length l)%nat -> contents_step (SetLength n) (l, z) (take n l, z || (n <? length l)%nat)
  | step_lengthen l z n x : (length l <= n)%nat -> length x = (n - length l)%nat -> (z = true -> x = replicate (n - length l) 0) ->
      contents_step (SetLength n) (l, z) (l ++ x, z)
  | step_increase l z k x : length x = k -> (z = true -> x = replicate k 0) -> contents_step (IncreaseLength k) (l, z) (l ++ x, z).

Inductive contents_steps : list call -> list Z * bool -> list Z * bool -> Prop :=
  | steps_nil s : contents_steps [] s s
  | steps_cons c cs s s1 s2 : contents_step c s s1 -> contents_steps cs s1 s2 -> contents_steps (c :: cs) s s2.

Section Calls.
Context (allocates : Z -> bool).

Definition run_call (d : __CFData) (c : call) : option __CFData :=
  match c with
  | Append new => CFDataAppendBytes allocates d (External (Some <$> new)) (Z.of_nat (length new))
  | Replace loc rl new =>
      CFDataReplaceBytes allocates d (CFRangeMake (Z.of_nat loc) (Z.of_nat rl)) (External (Some <$> new)) (Z.of_nat (length new))
  | Delete loc rl => CFDataDeleteBytes allocates d (CFRangeMake (Z.of_nat loc) (Z.of_nat rl))
  | SetLength n => CFDataSetLength allocates d (Z.of_nat n)
  | IncreaseLength k => CFDataIncreaseLength allocates d (Z.of_nat k)
  end.

Fixpoint run_calls (d : __CFData) (cs : list call) : option __CFData :=
  match cs with
  | [] => Some d
  | c :: cs => let* d := run_call d c in run_calls d cs
  end.

(** The length after a call, and what the client has to respect: ranges
    within the data, bytes, and room. *)
Definition call_length (c : call) (len : nat) : nat :=
  match c with
  | Append new => len + length new
  | Replace _ rl new => len - rl + length new
  | Delete _ rl => len - rl
  | SetLength n => n
  | IncreaseLength k => len + k
  end.

Definition in_range (c : call) (len : nat) : bool :=
  match c with
  | Replace loc rl _ | Delete loc rl => (loc + rl <=? len)%nat
  | _ => true
  end.

Definition call_bytes (c : call) : list Z := match c with Append new | Replace _ _ new => new | _ => [] end.

Definition room (fixed : option Z) (n : nat) : bool :=
  (Z.of_nat n <=? CFDATA_MAX_SIZE) &&
  match fixed with
  | Some capacity => Z.of_nat n <=? capacity
  | None => allocates (__CFDataRoundUpCapacity (Z.of_nat n))
  end.

Fixpoint permitted (fixed : option Z) (len : nat) (cs : list call) : bool :=
  match cs with
  | [] => true
  | c :: cs =>
      in_range c len && forallb (fun x => (0 <=? x) && (x <? 256)) (call_bytes c) && room fixed (call_length c len) &&
      permitted fixed (call_length c len) cs
  end.

(** The representation of contents and flag by an object. *)
Definition represents (fixed : option Z) (d : __CFData) (s : list Z * bool) : Prop :=
  exists r, buffer d s.1 r /\ (s.2 = true -> clean d r) /\
    match fixed with
    | Some capacity => __CFMutableVariety d = kCFFixedMutable /\ _capacity d = capacity
    | None => __CFMutableVariety d = kCFMutable
    end.

Lemma room_fits fixed d s n : represents fixed d s -> room fixed n = true -> Z.of_nat n <= CFDATA_MAX_SIZE /\ fits allocates d (Z.of_nat n).
Proof.
  intros (r & _ & _ & Hf) [Hm%Z.leb_le Hr]%andb_prop. split; [done|]. unfold fits. destruct fixed as [c|].
  - destruct Hf as [-> ->]. cbn. by apply Z.leb_le.
  - rewrite Hf. by right.
Qed.

Lemma forallb_bytes l : forallb (fun x => (0 <=? x) && (x <? 256)) l = true -> Forall is_byte l.
Proof. intros H. rewrite forallb_forall in H. apply list.Forall_forall. intros x Hx. apply list_elem_of_In, H in Hx. unfold is_byte. lia. Qed.

(** A replacement in a representing object. *)
Lemma replace_represents fixed d l z loc rl src new :
  represents fixed d (l, z) -> (loc + rl <= length l)%nat -> supplies src new -> Forall is_byte new ->
  room fixed (length l - rl + length new) = true ->
  exists d', CFDataReplaceBytes allocates d (CFRangeMake (Z.of_nat loc) (Z.of_nat rl)) src (Z.of_nat (length new)) = Some d' /\
    represents fixed d' (edit l loc rl new, z && (rl <=? length new)%nat).
Proof.
  intros Hrep Hr Hs Hby Hroom. destruct (room_fits _ _ _ _ Hrep Hroom) as [Hm Hfit]. destruct Hrep as (r & Hb & Hcl & Hf).
  destruct (replace_spec allocates d l r loc rl src new Hb Hr Hs Hby Hm Hfit) as (d' & r' & E & Hb' & Hv & Hc & Hcl').
  exists d'. split; [done|]. exists r'. split_and!; [done| |destruct fixed; [destruct Hf; by rewrite Hv, Hc|by rewrite Hv]].
  simpl in *. intros [-> Hle%Nat.leb_le]%andb_prop. apply Hcl'; [|by apply Hcl]. unfold edit. rewrite length_edited by done. lia.
Qed.

Lemma set_length_represents fixed d l z n :
  represents fixed d (l, z) -> room fixed n = true ->
  exists d' s', CFDataSetLength allocates d (Z.of_nat n) = Some d' /\ contents_step (SetLength n) (l, z) s' /\ represents fixed d' s' /\
    length s'.1 = n.
Proof.
  intros Hrep Hroom. destruct (room_fits _ _ _ _ Hrep Hroom) as [Hm Hfit]. destruct Hrep as (r & Hb & Hcl & Hf).
  destruct (set_length_spec allocates d l r n Hb Hm Hfit) as (d' & x & r' & E & Hx & Hb' & Hv & Hc & Hcl' & Hsh).
  assert (match fixed with Some c => __CFMutableVariety d' = kCFFixedMutable /\ _capacity d' = c | None => __CFMutableVariety d' = kCFMutable end) as Hf'
    by (destruct fixed; [destruct Hf; by rewrite Hv, Hc|by rewrite Hv]).
  exists d'. destruct (decide (n <= length l)%nat).
  - assert (x = []) as -> by (apply length_zero_iff_nil; lia). rewrite app_nil_r in Hb'.
    exists (take n l, z || (n <? length l)%nat). split_and!; [done|by constructor| |simpl; rewrite length_take; lia].
    exists r'. split_and!; [done| |done]. simpl. intros [->|Hlt%Nat.ltb_lt]%orb_prop; [by apply Hcl', Hcl|by apply Hsh].
  - rewrite take_ge in Hb' by lia. exists (l ++ x, z). split_and!; [done| |by exists r'; split_and!; [done|intros Ez; by apply Hcl', Hcl|done]|].
    + constructor; [lia|done|]. intros ->. by apply Hcl', Hcl.
    + simpl. rewrite length_app. lia.
Qed.

Lemma supplies_external new : supplies (External (Some <$> new)) new.
Proof. right. exists []. unfold block_of. by rewrite app_nil_r. Qed.

(** Every permitted call returns and is a step of the specification. *)
Lemma run_call_step fixed d s c :
  represents fixed d s -> in_range c (length s.1) = true -> Forall is_byte (call_bytes c) -> room fixed (call_length c (length s.1)) = true ->
  exists d' s', run_call d c = Some d' /\ contents_step c s s' /\ represents fixed d' s' /\ length s'.1 = call_length c (length s.1).
Proof.
  destruct s as [l z]. cbn [fst]. intros Hrep Hir Hby Hroom. destruct c as [new|loc rl new|loc rl|n|k]; cbn [run_call in_range call_bytes call_length] in *.
  - unfold CFDataAppendBytes. assert (_length d = Z.of_nat (length l)) as -> by (destruct Hrep as (r & Hb & _); apply Hb).
    destruct (replace_represents fixed d l z (length l) 0 (External (Some <$> new)) new) as (d' & E & H'); [done|lia|apply supplies_external|done|by rewrite Nat.sub_0_r|].
    exists d', (l ++ new, z). split; [done|]. rewrite andb_true_r in H'. unfold edit in H'.
    rewrite firstn_all, Nat.add_0_r, drop_all, app_nil_r in H'. split_and!; [constructor|done|simpl; by rewrite length_app].
  - apply Nat.leb_le in Hir. destruct (replace_represents fixed d l z loc rl (External (Some <$> new)) new) as (d' & E & H'); try done; [apply supplies_external|].
    eexists d', _. split; [done|]. split_and!; [constructor|done|]. by apply length_edited.
  - apply Nat.leb_le in Hir. unfold CFDataDeleteBytes. change 0 with (Z.of_nat (length (@nil Z))).
    destruct (replace_represents fixed d l z loc rl Null []) as (d' & E & H'); try done; [by left|simpl; by rewrite Nat.add_0_r|].
    eexists d', _. split; [done|]. split_and!; [constructor| |simpl; rewrite length_app, length_take, length_drop; lia].
    simpl in H'. by destruct rl.
  - destruct (set_length_represents fixed d l z n Hrep Hroom) as (d' & s' & ? & ? & ? & ?). by exists d', s'.
  - unfold CFDataIncreaseLength. rewrite (proj2 (Z.ltb_ge (Z.of_nat k) 0)) by lia.
    assert (_length d = Z.of_nat (length l)) as -> by (destruct Hrep as (r & Hb & _); apply Hb).
    assert (Z.of_nat (length l + k) <= CFDATA_MAX_SIZE) by (apply (room_fits _ _ _ _ Hrep Hroom)).
    rewrite swrap_id by (unfold in_signed, CFDATA_MAX_SIZE in *; lia). rewrite <- Nat2Z.inj_add.
    destruct (set_length_represents fixed d l z (length l + k) Hrep Hroom) as (d' & s' & E & Hst & Hrep' & Hlen).
    exists d', s'. split_and!; [done| |done|done]. inversion Hst as [| | |l0 z0 n0 Hn|l0 z0 n0 x Hn Hx Hz|]; subst.
    + assert (k = 0%nat) as -> by lia. rewrite take_ge by lia. rewrite (proj2 (Nat.ltb_ge _ _)), orb_false_r by lia.
      rewrite <- (app_nil_r l) at 2. by constructor.
    + constructor; [lia|]. intros Hzt. rewrite (Hz Hzt). f_equal. lia.
Qed.

Lemma run_calls_steps fixed cs : forall d s,
  represents fixed d s -> permitted fixed (length s.1) cs = true ->
  exists d' s', run_calls d cs = Some d' /\ contents_steps cs s s' /\ represents fixed d' s'.
Proof.
  induction cs as [|c cs IH]; intros d s Hrep Hp; [by eexists d, s; split_and!; [done|constructor|]|]. cbn [permitted] in Hp.
  apply andb_prop in Hp as [[[Hir Hby%forallb_bytes]%andb_prop Hroom]%andb_prop Hp].
  destruct (run_call_step _ _ _ _ Hrep Hir Hby Hroom) as (d1 & s1 & E1 & Hst & Hrep1 & Hlen). rewrite <- Hlen in Hp.
  destruct (IH d1 s1 Hrep1 Hp) as (d' & s' & E & Hsts & Hrep'). exists d', s'. cbn [run_calls]. rewrite E1. by split_and!; [|econstructor|].
Qed.

End Calls.

Lemma create_mutable_represents page_size allocates linked alloc capacity d :
  0 <= capacity <= CFDATA_MAX_SIZE -> CFDataCreateMutable page_size allocates linked alloc capacity = Some (Some d) ->
  represents (if capacity =? 0 then None else Some capacity) d ([], true).
Proof.
  intros Hc E. unfold CFDataCreateMutable in E. set (flags := if 0 =? capacity then kCFMutable else kCFFixedMutable) in *.
  assert (is_flags flags /\ flags <> kCFImmutable) as [Hf Hne] by (unfold flags, is_flags; destruct (0 =? capacity); split; by auto).
  destruct (data_init_spec page_size allocates linked alloc flags capacity Null []) as (d' & r & E' & _ & Hv & Hm); [done| | |by left|done|].
  { unfold flags. by destruct (0 =? capacity). } { unfold admits, flags. destruct (0 =? capacity); simpl; unfold CFDATA_MAX_SIZE in *; lia. }
  change (Z.of_nat (length [])) with 0 in E'. rewrite E' in E. destruct (refused _ _ _ _); [done|]. injection E as ->. destruct (Hm Hne) as (Hb & Hcl & Hcap).
  exists r. split_and!; [done|done|]. unfold flags in *. rewrite (Z.eqb_sym 0) in *. destruct (capacity =? 0); [done|]. split; [done|by apply Hcap].
Qed.

(** ** Bytes left behind *)


Section LeftBehind.
Context (allocates : Z -> bool).

(** A length that grows within the block shows what the block holds when
    nothing has to be cleared. *)
Lemma increase_in_place d l x r :
  buffer d l ((Some <$> x) ++ r) -> __CFDataNeedsToZero d = false -> x <> [] ->
  exists d', CFDataIncreaseLength allocates d (Z.of_nat (length x)) = Some d' /\ buffer d' (l ++ x) r.
Proof.
  intros Hb Hz Hx. assert (0 < length x)%nat by (destruct x; [done|simpl; lia]).
  pose proof (buf_capacity _ _ _ Hb) as Hcap. pose proof (buf_max _ _ _ Hb) as Hmax. rewrite length_app, length_fmap in Hcap.
  assert (__CFDataIsMutable d = true) as Hm by (destruct (buf_variety _ _ _ Hb) as [Hv|[Hv _]]; [by apply variety_fixed|by apply variety_mutable]).
  pose proof (buf_known _ _ _ Hb Hz) as Hk. apply Forall_app in Hk as [Hk1 Hk2].
  destruct (relength d l ((Some <$> x) ++ r) (l ++ x) r Hb) as (Hb' & _).
  { unfold block_of. by rewrite fmap_app, app_assoc. }
  { apply Forall_app_2; [apply Hb|]. apply (Forall_fmap Some) in Hk1. eapply list.Forall_impl; [exact Hk1|]. by intros y (? & [= <-] & ?). }
  { done. }
  eexists. split; [|exact Hb']. unfold CFDataIncreaseLength, CFDataSetLength. rewrite (buf_length _ _ _ Hb), Hm, Hz.
  rewrite swrap_id by (unfold in_signed, CFDATA_MAX_SIZE in *; lia). rewrite !(proj2 (Z.ltb_ge _ 0)), (proj2 (Z.ltb_ge (_capacity d) _)) by lia.
  rewrite andb_false_r, (proj2 (Z.ltb_ge _ (Z.of_nat (length l)))) by lia. cbn [opt_bind]. do 2 f_equal. rewrite length_app. lia.
Qed.

(** Deleting in an object whose spare bytes count as cleared. *)
Lemma delete_in_place d l r (loc rl : nat) :
  buffer d l r -> (loc + rl <= length l)%nat ->
  exists d', CFDataDeleteBytes allocates d (CFRangeMake (Z.of_nat loc) (Z.of_nat rl)) = Some d' /\
    buffer d' (take loc l ++ drop (loc + rl) l) ((Some <$> drop (length l - rl) l) ++ r) /\ __CFDataNeedsToZero d' = __CFDataNeedsToZero d.
Proof.
  intros Hb Hr. pose proof (buf_capacity _ _ _ Hb). unfold CFDataDeleteBytes. change 0 with (Z.of_nat 0).
  rewrite (replace_in_place _ _ l r) by (done || lia). rewrite replace_moves_null with (b := block_of [] []).
  destruct (replace_moves_spec d l r [] [] loc rl Hb Hr ltac:(simpl; lia) ltac:(done)) as (d1 & E & Hb' & _ & _ & _ & Hz).
  change (Z.of_nat (length [])) with 0 in E. change (Z.of_nat 0) with 0. rewrite E. cbn [opt_bind]. cbn [app] in *.
  assert (length (take loc l ++ drop (loc + rl) l) = length l - rl)%nat as Hl by (rewrite length_app, length_take, length_drop; lia).
  rewrite Hl in *. replace (length l - rl + 0)%nat with (length l - rl)%nat by lia. eexists. split; [done|]. split; [|done].
  replace ((Some <$> drop (length l - rl) l) ++ r) with (drop (length l - rl) (block_of l r)); [done|].
  unfold block_of. by rewrite drop_app_le, fmap_drop by (rewrite length_fmap; lia).
Qed.

End LeftBehind.

(** ** New bytes from the buffer itself *)

Section OwnBytes.
Context (allocates : Z -> bool).

(** Without growth the tail has moved before the new bytes are read. *)
Lemma own_moves d l r (loc off nl : nat) :
  buffer d l r -> (0 < nl)%nat -> (loc + nl <= off)%nat -> (off + nl <= length l)%nat -> (length l + nl <= length l + length r)%nat ->
  replace_moves d (CFRangeMake (Z.of_nat loc) 0) (Z.of_nat (length l)) (Own (Z.of_nat off)) (Z.of_nat nl) =
  replace_moves d (CFRangeMake (Z.of_nat loc) 0) (Z.of_nat (length l)) (External (Some <$> take nl (drop (off - nl) l))) (Z.of_nat nl).
Proof.
  intros Hb Hnl Hlo Hhi Hfit. pose proof (buf_ptr _ _ _ Hb) as Hp. set (new := take nl (drop (off - nl) l)).
  assert (length new = nl) as Hnew by (unfold new; rewrite length_take, length_drop; lia).
  pose proof (replace_moves_external d l r new [] loc 0 Hb ltac:(lia) ltac:(lia)) as Hext. unfold block_of in Hext at 1.
  rewrite app_nil_r, Hnew in Hext. change (Z.of_nat 0) with 0 in Hext. rewrite Hext.
  destruct (move_tail_spec (block_of l r) loc 0 (length l) nl) as (b1 & E1 & Hl1 & Ht & Hd); rewrite ?length_block; try lia.
  unfold move_tail in E1. change (Z.of_nat 0) with 0 in E1. unfold replace_moves. cbn [location range_length].
  destruct (negb _ && _) eqn:Ec; [|rewrite (proj2 (Z.eqb_neq _ 0)), (proj2 (Z.ltb_lt _ _)) in Ec by lia; done].
  assert (0 < Z.of_nat (length l) - Z.of_nat loc - 0) as H0 by lia.
  rewrite Hp, (move_in_ok _ _ _ _ _ _ _ Hp H0 E1). cbn [opt_bind]. rewrite (proj2 (Z.ltb_lt 0 _)), put_ptr by lia.
  erewrite move_in_ok; [|apply put_ptr|lia|apply memmove_ok; rewrite ?Hl1, ?length_block; lia]. rewrite put_put. do 2 f_equal.
  replace (Z.to_nat (Z.of_nat loc + Z.of_nat nl)) with (loc + nl)%nat by lia. rewrite !Nat2Z.id, Ht, Hd.
  unfold splice. rewrite length_fmap, Hnew. f_equal. f_equal. replace off with (loc + nl + (off - loc - nl))%nat at 1 by lia.
  rewrite <- drop_drop, Hd, Nat.add_0_r. rewrite drop_app_le by (rewrite length_take, length_drop, length_block; lia).
  rewrite take_app_le by (rewrite length_drop, length_take, length_drop, length_block; lia).
  rewrite skipn_firstn_comm, take_take, drop_drop, Nat.min_l by lia.
  replace (loc + (off - loc - nl))%nat with (off - nl)%nat by lia. by rewrite take_drop_block by lia.
Qed.

(** With growth they are copied first. *)
Lemma own_growing d l r (loc off nl : nat) :
  buffer d l r -> __CFMutableVariety d = kCFMutable -> (0 < nl)%nat -> (off + nl <= length l)%nat ->
  _capacity d < Z.of_nat (length l + nl) <= CFDATA_MAX_SIZE -> allocates (Z.of_nat nl) = true ->
  CFDataReplaceBytes allocates d (CFRangeMake (Z.of_nat loc) 0) (Own (Z.of_nat off)) (Z.of_nat nl) =
  CFDataReplaceBytes allocates d (CFRangeMake (Z.of_nat loc) 0) (External (Some <$> take nl (drop off l))) (Z.of_nat nl).
Proof.
  intros Hb Hv Hnl Hhi Hfit Ha. pose proof (buf_capacity _ _ _ Hb) as Hcap. unfold CFDataReplaceBytes. cbn [location range_length].
  rewrite (buf_length _ _ _ Hb), Hv. rewrite !(proj2 (Z.ltb_ge _ 0)) by lia. cbn [orb Z.ltb Z.compare].
  rewrite swrap_id by (unfold in_signed, CFDATA_MAX_SIZE in *; lia). rewrite (proj2 (Z.ltb_ge _ 0)), !(proj2 (Z.ltb_lt (_capacity d) _)) by lia.
  cbn [Z.eqb kCFMutable Pos.eqb]. rewrite !(proj2 (Z.ltb_lt _ _)), Ha, (buf_ptr _ _ _ Hb) by lia. cbn [andb negb opt_bind].
  rewrite memmove_ok by (rewrite ?length_replicate, ?length_block; lia). cbn [opt_bind]. change (Z.to_nat 0) with 0%nat.
  rewrite take_0, (drop_ge (replicate _ _)) by (rewrite length_replicate; lia). cbn [app]. by rewrite app_nil_r, !Nat2Z.id, take_drop_block by lia.
Qed.

(** Inserting a part of the contents that comes from elsewhere. *)
Lemma replace_part d l r (loc off nl : nat) :
  buffer d l r -> (loc <= length l)%nat -> (off + nl <= length l)%nat -> Z.of_nat (length l + nl) <= CFDATA_MAX_SIZE ->
  fits allocates d (Z.of_nat (length l + nl)) ->
  exists d', CFDataReplaceBytes allocates d (CFRangeMake (Z.of_nat loc) 0) (External (Some <$> take nl (drop off l))) (Z.of_nat nl) = Some d' /\
    contents d' (edit l loc 0 (take nl (drop off l))).
Proof.
  intros Hb Hlo Hhi Hmax Hfit. assert (length (take nl (drop off l)) = nl) as Hn by (rewrite length_take, length_drop; lia).
  destruct (replace_spec allocates d l r loc 0 (External (Some <$> take nl (drop off l))) (take nl (drop off l))) as (d' & r' & E & Hb' & _);
    try done; rewrite ?Hn, ?Nat.sub_0_r; try done; [lia|apply supplies_external|apply Forall_take, Forall_drop, Hb|].
  rewrite Hn in E. exists d'. split; [done|]. by eapply buffer_contents.
Qed.

End OwnBytes.

(** ** Properties *)

(** C20: Any sequence of appends, replacements, deletions and length changes on a new mutable data object, with ranges inside the data and room for the result, runs to its end and does to the bytes what the edits say; a longer length shows zeros except after a replacement that shortened the data. *)
Theorem CFData_calls_refine_edits page_size allocates linked alloc capacity d cs :
  0 <= capacity <= CFDATA_MAX_SIZE ->
  CFDataCreateMutable page_size allocates linked alloc capacity = Some (Some d) ->
  permitted allocates (if capacity =? 0 then None else Some capacity) 0 cs = true ->
  exists d' l zeroed, run_calls allocates d cs = Some d' /\ contents_steps cs ([], true) (l, zeroed) /\ contents d' l.
Proof.
  intros Hc E Hp. apply create_mutable_represents in E; [|done].
  destruct (run_calls_steps allocates _ cs d ([], true) E Hp) as (d' & [l z] & Er & Hst & r & Hb & _).
  exists d', l, z. split_and!; [done|done|]. by apply buffer_contents in Hb.
Qed.

Definition sample_calls : list call :=
  [Append [1; 2; 3; 4]; Replace 1 2 [9; 8; 7]; SetLength 3; IncreaseLength 4; Delete 0 2; Append (replicate 20 5)].

Lemma CFData_calls_refine_edits_witness : exists d d' l zeroed,
  CFDataCreateMutable 4096 (fun _ => true) true SystemDefault 0 = Some (Some d) /\
  run_calls (fun _ => true) d sample_calls = Some d' /\ contents_steps sample_calls ([], true) (l, zeroed) /\ contents d' l.
Proof.
  eexists. destruct (CFData_calls_refine_edits 4096 (fun _ => true) true SystemDefault 0 _ sample_calls
    ltac:(split; vm_compute; discriminate) eq_refl ltac:(vm_compute; reflexivity)) as (d' & l & z & H).
  exists d', l, z. split; [reflexivity|exact H].
Defined.

(** Deleting bytes of an object whose header says that nothing has to be cleared, and then extending the data by as many bytes, shows the last bytes that were there before and not zeros: a replacement that shortens the data does not record that bytes were left behind. *)
Lemma CFDataDeleteBytes_leaves_bytes allocates d l r (loc rl : nat) :
  buffer d l r -> __CFDataNeedsToZero d = false -> (loc + rl <= length l)%nat -> (0 < rl)%nat ->
  exists d1 d2, CFDataDeleteBytes allocates d (CFRangeMake (Z.of_nat loc) (Z.of_nat rl)) = Some d1 /\
    CFDataIncreaseLength allocates d1 (Z.of_nat rl) = Some d2 /\
    contents d2 ((take loc l ++ drop (loc + rl) l) ++ drop (length l - rl) l).
Proof.
  intros Hb Hz Hr Hrl. destruct (delete_in_place allocates d l r loc rl Hb Hr) as (d1 & E1 & Hb1 & Hz1).
  assert (length (drop (length l - rl) l) = rl) as Hx by (rewrite length_drop; lia).
  destruct (increase_in_place allocates d1 _ _ _ Hb1) as (d2 & E2 & Hb2); [congruence|intros E; rewrite E in Hx; simpl in Hx; lia|].
  rewrite Hx in E2. exists d1, d2. split_and!; [done|done|]. by eapply buffer_contents.
Qed.

(** A fixed object of eight bytes that holds six. *)
Definition six_of_eight : __CFData := mkData 0x85 6 8 0 None (block_of [1; 2; 3; 4; 5; 6] [Some 0; Some 0]).

Lemma six_of_eight_buffer : buffer six_of_eight [1; 2; 3; 4; 5; 6] [Some 0; Some 0].
Proof.
  constructor; try reflexivity; try (vm_compute; discriminate).
  - repeat constructor; vm_compute; (reflexivity || discriminate).
  - intros _. repeat constructor; exists 0; (split; [reflexivity|split; vm_compute; (reflexivity || discriminate)]).
  - left. reflexivity.
Qed.

Lemma CFDataDeleteBytes_leaves_bytes_witness : exists d1 d2,
  CFDataDeleteBytes (fun _ => true) six_of_eight (CFRangeMake 0 2) = Some d1 /\
  CFDataIncreaseLength (fun _ => true) d1 2 = Some d2 /\ contents d2 [3; 4; 5; 6; 5; 6].
Proof.
  apply (CFDataDeleteBytes_leaves_bytes (fun _ => true) six_of_eight [1; 2; 3; 4; 5; 6] [Some 0; Some 0] 0 2);
    [exact six_of_eight_buffer|reflexivity|simpl; lia|lia].
Defined.

(** Inserting a part of the object's own bytes that lies behind the place of insertion gives that part if the buffer has to grow, for it is copied first; if the buffer is large enough, the tail moves before the part is read, and the bytes in front of the part are inserted instead. *)
Lemma CFDataReplaceBytes_own_bytes allocates d l r (loc off nl : nat) :
  buffer d l r -> (0 < nl)%nat -> (loc + nl <= off)%nat -> (off + nl <= length l)%nat ->
  (Z.of_nat (length l + nl) <= _capacity d ->
    exists d', CFDataReplaceBytes allocates d (CFRangeMake (Z.of_nat loc) 0) (Own (Z.of_nat off)) (Z.of_nat nl) = Some d' /\
      contents d' (edit l loc 0 (take nl (drop (off - nl) l)))) /\
  (__CFMutableVariety d = kCFMutable -> _capacity d < Z.of_nat (length l + nl) <= CFDATA_MAX_SIZE -> (forall n, allocates n = true) ->
    exists d', CFDataReplaceBytes allocates d (CFRangeMake (Z.of_nat loc) 0) (Own (Z.of_nat off)) (Z.of_nat nl) = Some d' /\
      contents d' (edit l loc 0 (take nl (drop off l)))).
Proof.
  intros Hb Hnl Hlo Hhi. pose proof (buf_capacity _ _ _ Hb) as Hcap. pose proof (buf_max _ _ _ Hb) as Hmax. split.
  - intros Hin. rewrite (replace_in_place allocates d l r loc 0 nl) by (done || lia).
    change (Z.of_nat 0) with 0. rewrite (own_moves d l r) by (done || lia). change 0 with (Z.of_nat 0).
    rewrite <- (replace_in_place allocates d l r loc 0 nl) by (done || lia).
    apply (replace_part _ d l r); [done|lia|lia|lia|]. unfold fits. destruct (_ =? _); [left|]; lia.
  - intros Hv Hgrow Ha. rewrite (own_growing allocates d l r) by (done || lia).
    apply (replace_part _ d l r); [done|lia|lia|lia|]. unfold fits. rewrite Hv. right. split; [lia|apply Ha].
Qed.

Lemma CFDataReplaceBytes_own_bytes_witness : exists d',
  CFDataReplaceBytes (fun _ => true) six_of_eight (CFRangeMake 0 0) (Own 3) 2 = Some d' /\ contents d' [2; 3; 1; 2; 3; 4; 5; 6].
Proof.
  apply (CFDataReplaceBytes_own_bytes (fun _ => true) six_of_eight [1; 2; 3; 4; 5; 6] [Some 0; Some 0] 0 3 2);
    [exact six_of_eight_buffer|lia|lia|simpl; lia|vm_compute; discriminate].
Defined.
