(* ===== verification/CFDataQueries.v ===== *)
(** * CFData: searching, comparing, hashing and copying

    [CFDataFind] against the first or last occurrence of the needle, equality
    and hash against the contents, and immutable objects and their copies. *)

From S2P Require Import Prelude CFInternal CFDataSearch CFData CFDataEdits.
From stdpp Require Import base list numbers option.
From Stdlib Require Import ZArith Lia.
Open Scope Z_scope.
Open Scope cf_scope.

(** ** Searching *)

Lemma contents_block d l : contents d l -> l <> [] -> exists r, CFDataGetBytePtr d = Some (block_of l r).
Proof.
  intros [Hl Hr] Hne. rewrite Hl in Hr. unfold read_bytes in Hr. destruct l as [|x0 l0]; [done|]. set (l := x0 :: l0) in *.
  rewrite (proj2 (Z.eqb_neq _ 0)) in Hr by (unfold l; simpl; lia). destruct (CFDataGetBytePtr d) as [b|]; [|done]. cbn [opt_bind] in Hr.
  destruct (_ && _); [|done]. change (Z.to_nat 0) with 0%nat in Hr. rewrite drop_0, Nat2Z.id in Hr.
  exists (drop (length l) b). f_equal. unfold block_of. rewrite <- (take_drop (length l) b) at 1. f_equal.
  apply mapM_Some in Hr. clear -Hr. induction Hr as [|c x ls ls' E _ IH]; [done|]. simpl. unfold id in E. rewrite E. by f_equal.
Qed.

Definition byte_at (l : list Z) (p : Z) : Z := nth (Z.to_nat p) l 0.

Lemma block_holds l r p : 0 <= p < Z.of_nat (length l) -> holds (block_of l r) p (byte_at l p).
Proof.
  intros Hp. split; [lia|]. unfold block_of. rewrite lookup_app_l by (rewrite length_fmap; lia). rewrite list_lookup_fmap.
  unfold byte_at. rewrite (nth_lookup l). destruct (lookup_lt_is_Some_2 l (Z.to_nat p) ltac:(lia)) as [x ->]. done.
Qed.

Lemma byte_at_byte l p : Forall is_byte l -> 0 <= p < Z.of_nat (length l) -> 0 <= byte_at l p < 256.
Proof.
  intros Hb Hp. unfold byte_at. rewrite nth_lookup. destruct (lookup_lt_is_Some_2 l (Z.to_nat p) ltac:(lia)) as [x E]. rewrite E.
  by apply (Forall_lookup_1 _ _ _ _ Hb E).
Qed.

(** The needle stands at [p] between two bounds. *)
Definition stands_at (l needle : list Z) (lo hi p : Z) : Prop :=
  lo <= p /\ p + Z.of_nat (length needle) <= hi /\ take (length needle) (drop (Z.to_nat p) l) = needle.

Lemma occurs_stands l needle lo hi p :
  0 <= lo -> hi <= Z.of_nat (length l) ->
  occurs (byte_at l) (byte_at needle) (Z.of_nat (length needle)) lo hi p <-> stands_at l needle lo hi p.
Proof.
  intros Hlo Hhi. unfold occurs, stands_at. split; intros (H1 & H2 & H3); split_and!; try done.
  - apply list_eq_same_length with (length needle); [done|rewrite length_take, length_drop; lia|].
    intros i x y Hi Hx Hy. rewrite lookup_take_lt, lookup_drop in Hx by lia. specialize (H3 (Z.of_nat i) ltac:(lia)).
    unfold byte_at in H3. rewrite !nth_lookup in H3. rewrite Nat2Z.id, Hy in H3.
    replace (Z.to_nat (p + Z.of_nat i)) with (Z.to_nat p + i)%nat in H3 by lia. rewrite Hx in H3. done.
  - intros t Ht. unfold byte_at. rewrite !nth_lookup. rewrite <- H3 at 1. rewrite lookup_take_lt, lookup_drop by lia. do 2 f_equal. lia.
Qed.

(** Where a search with its options may find the needle. *)
Definition found_at (l needle : list Z) (range : CFRange) (anchored backwards : bool) (p : Z) : Prop :=
  needle <> [] /\ stands_at l needle (location range) (location range + range_length range) p /\
  (anchored = true -> p = if backwards then location range + range_length range - Z.of_nat (length needle) else location range).

Definition search_result (l needle : list Z) (lo hi : Z) (backwards : bool) (r : option Z) : Prop :=
  match r with
  | Some p => stands_at l needle lo hi p /\ forall p', stands_at l needle lo hi p' -> if backwards then p' <= p else p <= p'
  | None => forall p', ~ stands_at l needle lo hi p'
  end.

Lemma boyer_moore_spec l needle r rn lo len (backwards : bool) :
  needle <> [] -> Z.of_nat (length needle) < 2 ^ 31 -> Z.of_nat (length needle) <= len -> 0 <= lo -> lo + len <= Z.of_nat (length l) ->
  Forall is_byte l -> Forall is_byte needle ->
  exists res, __CFDataSearchBoyerMoore (block_of l r) lo len (block_of needle rn) (Z.of_nat (length needle)) backwards = Some res /\
    search_result l needle lo (lo + len) backwards res.
Proof.
  intros Hne Hn Hlen Hlo Hhi Hl Hneed. assert (0 < Z.of_nat (length needle)) by (destruct needle; [done|simpl; lia]).
  pose proof (fun p => occurs_stands l needle lo (lo + len) p Hlo Hhi) as Hoc. destruct backwards.
  - destruct (search_backwards (byte_at l) (byte_at needle) (Z.of_nat (length needle)) lo len (block_of l r) (block_of needle rn)) as (res & E & H1);
      [lia|intros; apply block_holds; lia|intros; apply byte_at_byte; [done|lia]|intros; apply block_holds; lia|intros; apply byte_at_byte; [done|lia]|].
    exists res. split; [done|]. destruct res as [p|]; simpl; [|intros p' Hp'; by apply (H1 p'), Hoc].
    destruct H1 as [H1 H2]. split; [by apply Hoc|]. intros p' Hp'. destruct (Z.le_gt_cases p' p); [done|]. exfalso. apply (H2 p'); [lia|by apply Hoc].
  - destruct (search_forwards (byte_at l) (byte_at needle) (Z.of_nat (length needle)) lo len (block_of l r) (block_of needle rn)) as (res & E & H1);
      [lia|intros; apply block_holds; lia|intros; apply byte_at_byte; [done|lia]|intros; apply block_holds; lia|intros; apply byte_at_byte; [done|lia]|].
    exists res. split; [done|]. destruct res as [p|]; simpl; [|intros p' Hp'; by apply (H1 p'), Hoc].
    destruct H1 as [H1 H2]. split; [by apply Hoc|]. intros p' Hp'. destruct (Z.le_gt_cases p p'); [done|]. exfalso. apply (H2 p'); [lia|by apply Hoc].
Qed.

(** [CFDataFind] on a range of the data. *)
Lemma data_find_spec data dataToFind l needle range options :
  contents data l -> contents dataToFind needle -> Forall is_byte l -> Forall is_byte needle ->
  Z.of_nat (length l) <= CFDATA_MAX_SIZE -> Z.of_nat (length needle) < 2 ^ 31 ->
  0 <= location range -> 0 <= range_length range -> location range + range_length range <= Z.of_nat (length l) ->
  let anchored := negb (Z.land options kCFDataSearchAnchored =? 0) in
  let backwards := negb (Z.land options kCFDataSearchBackwards =? 0) in
  exists p, CFDataFind data dataToFind range options = Some (CFRangeMake p (if p =? kCFNotFound then 0 else Z.of_nat (length needle))) /\
    (p = kCFNotFound /\ (forall p', ~ found_at l needle range anchored backwards p') \/
     found_at l needle range anchored backwards p /\
     forall p', found_at l needle range anchored backwards p' -> if backwards then p' <= p else p <= p').
Proof.
  intros Hd Hf Hl Hn Hmax Hshort Hlo Hlen Hhi anchored backwards. destruct range as [lo len]. cbn [location range_length] in *.
  unfold CFDATA_MAX_SIZE in Hmax. unfold CFDataFind, _CFDataFindBytes, CFDataGetLength. cbn [location range_length].
  rewrite (proj1 Hd), (proj1 Hf). fold anchored backwards. cbv zeta. set (n := Z.of_nat (length needle)) in *.
  rewrite !(uwrap_id 64 n), !(uwrap_id 64 (Z.of_nat (length l))), (uwrap_id 64 len) by (unfold in_unsigned; lia).
  set (lo1 := if anchored && (n <? len) then if backwards then lo + (len - n) else lo else lo).
  set (len1 := if anchored && (n <? len) then n else len).
  replace (if anchored && (n <? len) then CFRangeMake (if backwards then swrap 64 (lo + (len - n)) else lo) (swrap 64 n) else CFRangeMake lo len)
    with (CFRangeMake lo1 len1)
    by (unfold lo1, len1; destruct anchored, (Z.ltb_spec n len); cbn [andb]; try done; rewrite !swrap_id by (unfold in_signed; lia); by destruct backwards).
  assert (lo <= lo1 /\ lo1 + len1 <= lo + len /\ 0 <= len1) as (Hlo1 & Hhi1 & Hlen1)
    by (unfold lo1, len1; destruct anchored, backwards, (Z.ltb_spec n len); cbn [andb]; lia).
  cbn [location range_length]. rewrite (uwrap_id 64 (Z.of_nat (length l) - lo1)), !(uwrap_id 64 len1) by (unfold in_unsigned; lia). rewrite (proj2 (Z.ltb_ge (Z.of_nat (length l) - lo1) len1)) by lia.
  cbn [location range_length]. rewrite (uwrap_id 64 len1) by (unfold in_unsigned; lia).
  assert (needle <> [] -> n <= len1 -> forall p, found_at l needle (CFRangeMake lo len) anchored backwards p <-> stands_at l needle lo1 (lo1 + len1) p) as Hwin.
  { intros Hne Hfit p. unfold found_at, stands_at. cbn [location range_length]. fold n. unfold lo1, len1 in *.
    destruct anchored, backwards, (Z.ltb_spec n len); cbn [andb] in *; split; intros; destruct_and!; split_and!; try done; try lia; intros; lia. }
  assert (forall p, found_at l needle (CFRangeMake lo len) anchored backwards p -> 0 < n <= len1) as Hmiss.
  { intros p (Hne & (H1 & H2 & _) & Ha). cbn [location range_length] in *. fold n in H2.
    assert (0 < n) by (unfold n; destruct needle; [done|simpl; lia]). split; [done|]. unfold len1. destruct (anchored && _); lia. }
  destruct ((len1 <? n) || _ || _) eqn:Enone.
  { exists kCFNotFound. split; [done|]. left. split; [done|]. intros p Hp. pose proof (Hmiss p Hp).
    rewrite (proj2 (Z.ltb_ge len1 n)), !(proj2 (Z.eqb_neq _ 0)) in Enone by lia. done. }
  apply orb_false_elim in Enone as [[Hfit%Z.ltb_ge Hl0%Z.eqb_neq]%orb_false_elim Hn0%Z.eqb_neq].
  assert (needle <> []) as Hne by (by intros ->). assert (l <> []) as Hlne by (by intros ->).
  destruct (contents_block _ _ Hd Hlne) as [r ->]. destruct (contents_block _ _ Hf Hne) as [rn ->]. cbn [opt_bind].
  destruct (boyer_moore_spec l needle r rn lo1 len1 backwards) as (res & E & Hres); try done; try lia. fold n in E. rewrite E. cbn [opt_bind]. destruct res as [p|]; simpl in Hres.
  - destruct Hres as [Hst Hbest]. exists p. assert (p <> kCFNotFound) by (unfold kCFNotFound; destruct Hst; lia).
    rewrite (proj2 (Z.eqb_neq p kCFNotFound)) by done. split; [done|]. right. split; [by apply Hwin|]. intros p' Hp'. by apply Hbest, Hwin.
  - exists kCFNotFound. split; [done|]. left. split; [done|]. intros p' Hp'. by apply (Hres p'), Hwin.
Qed.

(** ** Equality and hash *)

Lemma data_equal_spec d1 d2 l1 l2 : contents d1 l1 -> contents d2 l2 -> __CFDataEqual d1 d2 = Some (bool_decide (l1 = l2)).
Proof.
  intros [H1 E1] [H2 E2]. unfold __CFDataEqual. destruct (Z.eqb_spec (_length d1) (_length d2)) as [E|Hne]; cbn [negb].
  - rewrite E1. rewrite <- E in E2. by rewrite E2.
  - rewrite bool_decide_eq_false_2; [done|]. intros ->. lia.
Qed.

Lemma foldl_step (l : list Z) (i : nat) x H : l !! i = Some x -> foldl ELF_STEP H (drop i l) = foldl ELF_STEP (ELF_STEP H x) (drop (S i) l).
Proof. intros E. by rewrite (drop_S _ _ _ E). Qed.

Ltac read_byte l i :=
  let x := fresh "x" in let E := fresh "E" in
  destruct (lookup_lt_is_Some_2 l i ltac:(lia)) as [x E];
  match goal with |- context [rd l ?z] => replace z with (Z.of_nat i) by lia end; rewrite rd_nat, E, (foldl_step _ _ _ _ E); cbn [opt_bind].

#[local] Opaque ELF_STEP.

(** The rounds of four and the rest are one fold. *)
Lemma hash_rounds_spec fuel : forall (l : list Z) (i : nat) H,
  (i <= length l)%nat -> (length l - i <= fuel)%nat ->
  hash_rounds fuel l (Z.of_nat (length l)) (Z.of_nat (length l - i)) H = Some (foldl ELF_STEP H (drop i l)).
Proof.
  induction fuel as [|fuel IH]; intros l i H Hi Hf.
  { replace (length l - i)%nat with 0%nat by lia. simpl. by rewrite drop_ge by lia. }
  simpl. destruct (Z.ltb_spec 3 (Z.of_nat (length l - i))) as [Hlt|Hge].
  - read_byte l i. read_byte l (S i). read_byte l (S (S i)). read_byte l (S (S (S i))).
    replace (Z.of_nat (length l - i) - 4) with (Z.of_nat (length l - S (S (S (S i))))) by lia. by rewrite IH by lia.
  - assert (length l - i = 0 \/ length l - i = 1 \/ length l - i = 2 \/ length l - i = 3)%nat as [E|[E|[E|E]]] by lia; rewrite E; simpl.
    + by rewrite drop_ge by lia.
    + read_byte l i. by rewrite drop_ge by lia.
    + read_byte l i. read_byte l (S i). by rewrite drop_ge by lia.
    + read_byte l i. read_byte l (S i). read_byte l (S (S i)). by rewrite drop_ge by lia.
Qed.

Lemma data_hash_spec d l : contents d l -> __CFDataHash d = Some (foldl ELF_STEP 0 (take 80 l)).
Proof.
  intros Hc. pose proof Hc as [Hl Hr]. unfold __CFDataHash. rewrite Hl.
  replace (Z.min (Z.of_nat (length l)) 80) with (Z.of_nat (length (take 80 l))) by (rewrite length_take; lia).
  assert (read_bytes (CFDataGetBytePtr d) 0 (Z.of_nat (length (take 80 l))) = Some (take 80 l)) as ->.
  { destruct (decide (l = [])) as [->|Hne]; [done|]. destruct (contents_block _ _ Hc Hne) as [r ->]. change 0 with (Z.of_nat 0).
    rewrite read_block by (rewrite length_take; lia). rewrite drop_0. f_equal. rewrite length_take.
    destruct (Nat.le_gt_cases 80 (length l)); [by rewrite Nat.min_l by lia|by rewrite !take_ge by lia]. }
  cbn [opt_bind]. unfold CFHashBytes. 
  assert (length (take 80 l) <= 80)%nat as H80 by (rewrite length_take; lia). rewrite swrap_id by (unfold in_signed; lia).
  pose proof (hash_rounds_spec (length (take 80 l)) (take 80 l) 0 0 ltac:(lia) ltac:(lia)) as H.
  by rewrite Nat.sub_0_r, drop_0 in H; rewrite Nat2Z.id.
Qed.

(** Every range reads back as that part of the bytes. *)
Definition reads_back (d : __CFData) (l : list Z) : Prop :=
  forall (i k : nat) buf, (i + k <= length l)%nat -> (k <= length buf)%nat ->
  CFDataGetBytes d (CFRangeMake (Z.of_nat i) (Z.of_nat k)) buf = Some ((Some <$> take k (drop i l)) ++ drop k buf).

Lemma get_bytes_spec d l : contents d l -> reads_back d l.
Proof.
  intros Hc i k buf Hk Hb. unfold CFDataGetBytes. cbn [location range_length]. destruct (Z.eqb_spec (Z.of_nat k) 0) as [E|Hne].
  { by assert (k = 0%nat) as -> by lia. }
  destruct (decide (l = [])) as [->|Hl]; [simpl in *; lia|]. destruct (contents_block _ _ Hc Hl) as [r ->]. cbn [opt_bind].
  rewrite memmove_ok by (rewrite ?length_block; lia). rewrite !Nat2Z.id, take_drop_block by lia.
  replace (Z.to_nat (0 + Z.of_nat k)) with k by lia. done.
Qed.

(** ** Immutable objects *)

Section Immutable.
Context (page_size : Z) (allocates : Z -> bool) (linked : bool).

Lemma data_create_spec alloc l src :
  Forall is_byte l -> Z.of_nat (length l) <= CFDATA_MAX_SIZE -> supplies src l ->
  exists r, CFDataCreate page_size allocates linked alloc src (Z.of_nat (length l)) = Some r /\
  match r with
  | None => refused page_size allocates kCFImmutable (Z.of_nat (length l)) = true
  | Some d => refused page_size allocates kCFImmutable (Z.of_nat (length l)) = false /\ contents d l
  end.
Proof.
  intros Hby Hmax Hs. unfold CFDataCreate. destruct (decide (l = [])) as [->|Hne]; [by apply init_empty|].
  assert (0 < length l)%nat by (destruct l; [done|simpl; lia]).
  destruct (data_init_spec page_size allocates linked alloc kCFImmutable (Z.of_nat (length l)) src l) as (d & r & E & Hc & _); try done.
  - by left.
  - by rewrite (proj2 (Z.eqb_neq (Z.of_nat (length l)) 0)), andb_false_r by lia.
  - rewrite E. destruct (refused _ _ _ _); [by exists None|by exists (Some d)].
Qed.

Lemma contents_source d l : contents d l -> CFDataGetBytePtr d = None \/ l <> [] -> supplies (pointer_source (CFDataGetBytePtr d)) l.
Proof.
  intros Hc [E|Hne].
  - rewrite E. left. split; [|done]. destruct (decide (l = [])) as [|Hne]; [done|]. destruct (contents_block _ _ Hc Hne) as [r E']. congruence.
  - destruct (contents_block _ _ Hc Hne) as [r ->]. right. by exists r.
Qed.

Lemma data_create_copy_spec alloc d l :
  Forall is_byte l -> Z.of_nat (length l) <= CFDATA_MAX_SIZE -> contents d l ->
  refused page_size allocates kCFImmutable (Z.of_nat (length l)) = false ->
  exists copy, CFDataCreateCopy page_size allocates linked alloc d = Some (Some copy) /\ contents copy l.
Proof.
  intros Hby Hmax Hc Href. unfold CFDataCreateCopy. rewrite (proj1 Hc).
  assert (supplies (pointer_source (CFDataGetBytePtr d)) l) as Hs.
  { destruct (decide (l = [])) as [->|Hne]; [|apply contents_source; by auto].
    destruct (CFDataGetBytePtr d) as [b|]; [right; by exists b|by left]. }
  destruct (data_create_spec alloc l _ Hby Hmax Hs) as (r & E & Hr). unfold CFDataCreate in E. rewrite E.
  destruct r as [copy|]; [|congruence]. exists copy. by destruct Hr.
Qed.

(** An object that refers to the client's bytes. *)
Lemma create_no_copy_spec default_allocator alloc l rest dealloc :
  default_allocator <> 0 -> allocates (sizeof_CFData - 16) = true ->
  exists d, CFDataCreateWithBytesNoCopy page_size allocates linked default_allocator alloc (External (block_of l rest)) (Z.of_nat (length l)) dealloc =
    Some (Some d) /\ contents d l /\ _bytes d = Some (block_of l rest) /\ __CFMutableVariety d = kCFImmutable.
Proof.
  intros Hd Ha. unfold CFDataCreateWithBytesNoCopy. set (de := if dealloc =? 0 then _ else _).
  assert (de <> 0) as Hde by (unfold de; destruct (Z.eqb_spec dealloc 0); done).
  unfold __CFDataInit. rewrite (proj2 (Z.eqb_neq de 0)) by done. cbn [negb andb]. rewrite andb_false_r. cbn [andb].
  rewrite Z.add_0_r, Ha. cbn [negb]. eexists. split; [done|]. split_and!; [|done|by destruct alloc].
  split; [done|]. rewrite set_variety_ptr. change 0 with (Z.of_nat 0).
  replace (CFDataGetBytePtr _) with (Some (block_of l rest)) by (by destruct alloc). cbn [_length set_info __CFSetMutableVariety].
  rewrite read_block by lia. by rewrite drop_0, take_ge.
Qed.

End Immutable.

(** ** Properties *)

(** C24: [CFDataFind] returns the first place of the range at which the other object's bytes stand, the last one when it searches backwards, only the start or the end of the range when it is anchored, and kCFNotFound with length 0 exactly if there is no such place (never for an empty needle). *)
Theorem CFDataFind_first_or_last_match data dataToFind l needle range options :
  contents data l -> contents dataToFind needle -> Forall is_byte l -> Forall is_byte needle ->
  Z.of_nat (length l) <= CFDATA_MAX_SIZE -> Z.of_nat (length needle) < 2 ^ 31 ->
  0 <= location range -> 0 <= range_length range -> location range + range_length range <= Z.of_nat (length l) ->
  let anchored := negb (Z.land options kCFDataSearchAnchored =? 0) in
  let backwards := negb (Z.land options kCFDataSearchBackwards =? 0) in
  exists p, CFDataFind data dataToFind range options = Some (CFRangeMake p (if p =? kCFNotFound then 0 else Z.of_nat (length needle))) /\
    (p = kCFNotFound /\ (forall p', ~ found_at l needle range anchored backwards p') \/
     found_at l needle range anchored backwards p /\
     forall p', found_at l needle range anchored backwards p' -> if backwards then p' <= p else p <= p').
Proof. apply data_find_spec. Qed.

Definition sample_data (l : list Z) : __CFData := mkData 0 (Z.of_nat (length l)) (Z.of_nat (length l)) 0 (Some (Some <$> l)) [].

Lemma CFDataFind_first_or_last_match_witness : exists p,
  CFDataFind (sample_data [7; 1; 2; 1; 1; 2; 1; 9]) (sample_data [1; 2; 1]) (CFRangeMake 0 8) kCFDataSearchBackwards =
    Some (CFRangeMake p (if p =? kCFNotFound then 0 else 3)) /\
  (p = kCFNotFound /\ (forall p', ~ found_at [7; 1; 2; 1; 1; 2; 1; 9] [1; 2; 1] (CFRangeMake 0 8) false true p') \/
   found_at [7; 1; 2; 1; 1; 2; 1; 9] [1; 2; 1] (CFRangeMake 0 8) false true p /\
   forall p', found_at [7; 1; 2; 1; 1; 2; 1; 9] [1; 2; 1] (CFRangeMake 0 8) false true p' -> p' <= p).
Proof.
  apply (CFDataFind_first_or_last_match (sample_data [7; 1; 2; 1; 1; 2; 1; 9]) (sample_data [1; 2; 1]) [7; 1; 2; 1; 1; 2; 1; 9] [1; 2; 1]
    (CFRangeMake 0 8) kCFDataSearchBackwards);
    solve [split; reflexivity | repeat constructor; vm_compute; (reflexivity || discriminate) | vm_compute; (reflexivity || discriminate)].
Defined.

Lemma find_backwards_example :
  CFDataFind (sample_data [7; 1; 2; 1; 1; 2; 1; 9]) (sample_data [1; 2; 1]) (CFRangeMake 0 8) kCFDataSearchBackwards = Some (CFRangeMake 4 3).
Proof. reflexivity. Qed.

(** Creating a data object from bytes returns NULL if and only if its memory is refused; otherwise every range read back is the same part of the bytes, and a copy is equal to the object and has its hash. *)
Lemma CFDataCreate_roundtrip page_size allocates linked alloc l rest :
  Forall is_byte l -> Z.of_nat (length l) <= CFDATA_MAX_SIZE ->
  exists r, CFDataCreate page_size allocates linked alloc (External (block_of l rest)) (Z.of_nat (length l)) = Some r /\
  match r with
  | None => refused page_size allocates kCFImmutable (Z.of_nat (length l)) = true
  | Some d =>
      refused page_size allocates kCFImmutable (Z.of_nat (length l)) = false /\ CFDataGetLength d = Z.of_nat (length l) /\
      reads_back d l /\
      (forall alloc', exists copy, CFDataCreateCopy page_size allocates linked alloc' d = Some (Some copy) /\
        __CFDataEqual d copy = Some true /\ __CFDataHash copy = __CFDataHash d)
  end.
Proof.
  intros Hby Hmax.
  destruct (data_create_spec page_size allocates linked alloc l (External (block_of l rest)) Hby Hmax ltac:(right; by eexists)) as (r & E & Hr).
  exists r. split; [exact E|]. destruct r as [d|]; [|done]. destruct Hr as [Hr Hc]. split_and!; [done|apply Hc|by apply get_bytes_spec|].
  intros alloc'. destruct (data_create_copy_spec page_size allocates linked alloc' d l Hby Hmax Hc Hr) as (copy & E' & Hc'). exists copy. split; [done|].
  rewrite (data_equal_spec _ _ _ _ Hc Hc'), (data_hash_spec _ _ Hc), (data_hash_spec _ _ Hc'). by rewrite bool_decide_eq_true_2.
Qed.

Lemma CFDataCreate_roundtrip_witness : exists r,
  CFDataCreate 4096 (fun _ => true) true Malloc (External (block_of [1; 2; 3] [])) 3 = Some r /\
  match r with
  | None => refused 4096 (fun _ => true) kCFImmutable 3 = true
  | Some d =>
      refused 4096 (fun _ => true) kCFImmutable 3 = false /\ CFDataGetLength d = 3 /\
      reads_back d [1; 2; 3] /\
      (forall alloc', exists copy, CFDataCreateCopy 4096 (fun _ => true) true alloc' d = Some (Some copy) /\
        __CFDataEqual d copy = Some true /\ __CFDataHash copy = __CFDataHash d)
  end.
Proof.
  apply (CFDataCreate_roundtrip 4096 (fun _ => true) true Malloc [1; 2; 3] []); [|by vm_compute].
  repeat constructor; vm_compute; (reflexivity || discriminate).
Defined.

