(* ===== verification/CFStorage.v ===== *)
(** * CFStorage: a sequence of values in a 2-3 tree (CFStorage.c)

    The nodes of a tree live in a heap that several storages share; a node
    counts its references, and a node that is shared is marked as frozen and
    replaced by a copy before it is changed.  Leaves allocate their memory when
    it is first used; a cell of memory that was never written is [None].  The
    root node lies inside the storage object; it has an address like any other
    node and the reference count 0.  Pointers are numbers, and NULL is 0.
    The allocator does not run out of memory.  Not modelled: the lock of the
    lazy allocation, dispatching an enumeration to several threads, garbage
    collection, descriptions and the integrity checks, which are compiled out. *)

From S2P Require Import Prelude CFInternal.
From stdpp Require Import base list numbers option gmap.
From Stdlib Require Import ZArith Lia.
Open Scope Z_scope.
Open Scope cf_scope.

(** ** Data *)

Definition memory_block : Type := list (option Z).

Inductive node_info :=
  | Leaf (capacityInBytes : Z) (memory : option memory_block) (cachedRange : CFRange)
  | NotLeaf (child0 child1 child2 : Z).

Record CFStorageNode := mkNode { numBytes : Z; refCount : Z; isFrozen : bool; info : node_info }.

Definition with_numBytes (n : CFStorageNode) (v : Z) : CFStorageNode := mkNode v (refCount n) (isFrozen n) (info n).
Definition with_refCount (n : CFStorageNode) (v : Z) : CFStorageNode := mkNode (numBytes n) v (isFrozen n) (info n).
Definition with_isFrozen (n : CFStorageNode) (v : bool) : CFStorageNode := mkNode (numBytes n) (refCount n) v (info n).
Definition with_info (n : CFStorageNode) (v : node_info) : CFStorageNode := mkNode (numBytes n) (refCount n) (isFrozen n) v.

Definition isLeaf (n : CFStorageNode) : bool := match info n with Leaf _ _ _ => true | NotLeaf _ _ _ => false end.

Record CFStorageDoubleNodeReturn := CFStorageDoubleNodeReturnMake { child : Z; sibling : Z }.

Record __CFStorage := mkStorage {
  valueSize : Z; byteToValueShifter : Z; alwaysFrozen : bool; cacheNode : Z; maxLeafCapacity : Z; rootNode : Z
}.

Definition NO_SHIFTER : Z := uwrap 32 (-1).
Definition PAGE_SIZE : Z := 4096.
Definition PAGE_LIMIT : Z := PAGE_SIZE / 2.
Definition __CFStorageMaxLeafCapacity : Z := 4096 * 3.

(** The nodes of all storages, the next address, and the storage at hand. *)
Record world := mkWorld { nodes : gmap Z CFStorageNode; next : Z; storage : __CFStorage }.

Definition with_nodes (w : world) (v : gmap Z CFStorageNode) : world := mkWorld v (next w) (storage w).
Definition with_storage (w : world) (v : __CFStorage) : world := mkWorld (nodes w) (next w) v.

(** ** Effects: a state that may be undefined *)

Definition M (A : Type) : Type := world -> option (A * world).

Definition ret {A} (x : A) : M A := fun w => Some (x, w).

Definition bind {A B} (m : M A) (k : A -> M B) : M B :=
  fun w => match m w with Some (x, w') => k x w' | None => None end.

Definition fail {A} : M A := fun _ => None.

Notation "'let!' x := m 'in' k" := (bind m (fun x => k))
  (at level 10, x pattern, m at level 100, k at level 200) : cf_scope.

Definition get_node (p : Z) : M CFStorageNode := fun w => match nodes w !! p with Some n => Some (n, w) | None => None end.

Definition set_node (p : Z) (n : CFStorageNode) : M unit :=
  fun w => match nodes w !! p with Some _ => Some (tt, with_nodes w (<[p := n]> (nodes w))) | None => None end.

Definition new_node (n : CFStorageNode) : M Z :=
  fun w => Some (next w, mkWorld (<[next w := n]> (nodes w)) (next w + 1) (storage w)).

Definition free_node (p : Z) : M unit := fun w => Some (tt, with_nodes w (delete p (nodes w))).

Definition get_storage : M __CFStorage := fun w => Some (storage w, w).

Definition set_storage (s : __CFStorage) : M unit := fun w => Some (tt, with_storage w s).

(** Trees are no deeper than there are nodes. *)
Definition depth_fuel : M nat := fun w => Some (S (size (nodes w)), w).

Definition when (b : bool) (m : M unit) : M unit := if b then m else ret tt.

(** ** Sizes *)

Definition roundToPage (num : Z) : Z := Z.land (swrap 32 (swrap 32 num + PAGE_SIZE - 1)) (Z.lnot (PAGE_SIZE - 1)).

Definition intersectionRange (a b : CFRange) : CFRange :=
  let start := Z.max (location a) (location b) in
  let end_ := Z.min (location a + range_length a) (location b + range_length b) in
  if end_ <=? start then CFRangeMake 0 0 else CFRangeMake start (end_ - start).

Section Conversion.
Context (s : __CFStorage).

Definition __CFStorageConvertByteToValue (byte : Z) : Z :=
  if negb (byteToValueShifter s =? NO_SHIFTER) then Z.shiftr byte (byteToValueShifter s) else Z.quot byte (valueSize s).

Definition __CFStorageConvertBytesToValueRange (offset length : Z) : CFRange :=
  CFRangeMake (__CFStorageConvertByteToValue offset) (__CFStorageConvertByteToValue length).

Definition __CFStorageConvertValueToByte (value : Z) : Z :=
  if negb (byteToValueShifter s =? NO_SHIFTER) then swrap 64 (Z.shiftl value (byteToValueShifter s)) else swrap 64 (value * valueSize s).

Definition __CFStorageConvertValuesToByteRange (offset length : Z) : CFRange :=
  CFRangeMake (__CFStorageConvertValueToByte offset) (__CFStorageConvertValueToByte length).

End Conversion.

(** ** Memory of leaves *)

(** The allocator's reallocation: of NULL it allocates, to no bytes it frees. *)
Definition reallocate (b : option memory_block) (size : Z) : option memory_block :=
  if size =? 0 then None else Some (resize (Z.to_nat size) None (default [] b)).

Definition __CFStorageAllocLeafNodeMemory (p cap : Z) (compact : bool) : M unit :=
  let! s := get_storage in
  let! n := get_node p in
  match info n with
  | NotLeaf _ _ _ => fail
  | Leaf capacity memory cached =>
      let cap := if PAGE_LIMIT <? cap then Z.min (roundToPage cap) (maxLeafCapacity s) else Z.quot (cap + 63) 64 * 64 in
      when (if compact then negb (cap =? capacity) else capacity <? cap)
        (set_node p (with_info n (Leaf cap (reallocate memory cap) cached)))
  end.

(** The memory a leaf has, and [COPYMEM] from a block into the memory of a
    leaf. *)
Definition leaf_memory (n : CFStorageNode) : option memory_block := match info n with Leaf _ m _ => m | NotLeaf _ _ _ => None end.

Definition copy_in (src : option memory_block) (so : Z) (p d len : Z) : M unit :=
  if len =? 0 then ret tt else
  let! n := get_node p in
  match info n, src with
  | Leaf capacity (Some memory) cached, Some src =>
      match memmove memory d src so len with
      | Some memory => set_node p (with_info n (Leaf capacity (Some memory) cached))
      | None => fail
      end
  | _, _ => fail
  end.

Definition __CFLeafCopyRangeToOffset (srcLeaf : CFStorageNode) (srcRange : CFRange) (dstLeaf dstLocation : Z) : M unit :=
  when (0 <? range_length srcRange) (copy_in (leaf_memory srcLeaf) (location srcRange) dstLeaf dstLocation (range_length srcRange)).

(** ** References and freezing *)

Definition __CFStorageRetainNode (p : Z) : M unit :=
  let! n := get_node p in when (0 <? refCount n) (set_node p (with_refCount n (uwrap 32 (refCount n + 1)))).

Definition null_check (f : Z -> M unit) (p : Z) : M unit := when (negb (p =? 0)) (f p).

Definition __CFStorageDeallocateNode (release : Z -> M unit) (p : Z) : M unit :=
  let! n := get_node p in
  let! _ := match info n with
            | Leaf _ _ _ => ret tt
            | NotLeaf c0 c1 c2 =>
                let! _ := null_check release c0 in
                let! _ := null_check release c1 in
                null_check release c2
            end in
  free_node p.

Fixpoint release_node (fuel : nat) (p : Z) : M unit :=
  match fuel with
  | O => fail
  | S fuel =>
      let! n := get_node p in
      when (0 <? refCount n)
        (let newRefCount := uwrap 32 (refCount n - 1) in
         let! _ := set_node p (with_refCount n newRefCount) in
         when (newRefCount =? 0) (__CFStorageDeallocateNode (release_node fuel) p))
  end.

Definition __CFStorageReleaseNode (p : Z) : M unit := let! fuel := depth_fuel in release_node fuel p.

Definition __CFStorageFreezeNode (p : Z) : M unit := let! n := get_node p in set_node p (with_isFrozen n true).

Definition __CFStorageThawNodeDuringMutation (p : Z) : M bool :=
  let! n := get_node p in
  if refCount n =? 1 then let! _ := set_node p (with_isFrozen n false) in ret true else ret false.

Definition __CFStorageSetChild (parentNode childIndex newChild : Z) : M unit :=
  let! n := get_node parentNode in
  match info n with
  | Leaf _ _ _ => fail
  | NotLeaf c0 c1 c2 =>
      if childIndex =? 0 then set_node parentNode (with_info n (NotLeaf newChild c1 c2))
      else if childIndex =? 1 then set_node parentNode (with_info n (NotLeaf c0 newChild c2))
      else if childIndex =? 2 then set_node parentNode (with_info n (NotLeaf c0 c1 newChild))
      else fail
  end.

Definition children_of (n : CFStorageNode) : M (Z * Z * Z) :=
  match info n with Leaf _ _ _ => fail | NotLeaf c0 c1 c2 => ret (c0, c1, c2) end.

Definition get_child (shouldRetain shouldFreeze : bool) (p : Z) : M unit :=
  null_check (fun p =>
    let! _ := when shouldRetain (__CFStorageRetainNode p) in
    when shouldFreeze (__CFStorageFreezeNode p)) p.

Definition __CFStorageGetChildren (parent : Z) (shouldRetain shouldFreeze : bool) : M (Z * Z * Z) :=
  let! n := get_node parent in
  let! (c0, c1, c2) := children_of n in
  let! _ := get_child shouldRetain shouldFreeze c0 in
  let! _ := get_child shouldRetain shouldFreeze c1 in
  let! _ := get_child shouldRetain shouldFreeze c2 in
  ret (c0, c1, c2).

(** ** The cache *)

Definition __CFStorageSetCache (p locInBytes : Z) : M unit :=
  let! s := get_storage in
  let! _ := when (negb (p =? 0))
    (let! n := get_node p in
     match info n with
     | NotLeaf _ _ _ => fail
     | Leaf capacity memory _ =>
         set_node p (with_info n (Leaf capacity memory (__CFStorageConvertBytesToValueRange s locInBytes (numBytes n))))
     end) in
  let! s := get_storage in
  set_storage (mkStorage (valueSize s) (byteToValueShifter s) (alwaysFrozen s) p (maxLeafCapacity s) (rootNode s)).

(** A pointer into the memory of a leaf. *)
Record pointer := mkPointer { leaf_of : Z; offset_of : Z }.

Definition __CFStorageGetFromCache (loc : Z) (requireUnfrozenNode : bool) : M (option (pointer * CFRange)) :=
  let! s := get_storage in
  let cachedNode := cacheNode s in
  if cachedNode =? 0 then ret None else
  let! n := get_node cachedNode in
  if requireUnfrozenNode && isFrozen n then ret None else
  let! _ := match leaf_memory n with
            | None => __CFStorageAllocLeafNodeMemory cachedNode (numBytes n) false
            | Some _ => ret tt
            end in
  match info n with
  | NotLeaf _ _ _ => fail
  | Leaf _ _ cachedRange =>
      let nodeOffset := location cachedRange in
      let nodeLength := range_length cachedRange in
      if (loc <? nodeOffset) || (nodeOffset + nodeLength <=? loc) then ret None
      else ret (Some (mkPointer cachedNode (__CFStorageConvertValueToByte s (loc - nodeOffset)), cachedRange))
  end.

(** ** Finding *)

(** The child, its number and the place in it. *)
Definition __CFStorageFindChild (node byteNum : Z) (forInsertionOrDeletion : bool) : M (Z * Z * Z) :=
  let byteNum := if forInsertionOrDeletion then byteNum - 1 else byteNum in
  let! n := get_node node in
  let! (c0, c1, c2) := children_of n in
  let! n0 := get_node c0 in
  let! (result, childNum, byteNum) :=
    (if byteNum <? numBytes n0 then ret (c0, 0, byteNum) else
     let byteNum := byteNum - numBytes n0 in
     let! n1 := get_node c1 in
     if byteNum <? numBytes n1 then ret (c1, 1, byteNum) else
     ret (c2, 2, byteNum - numBytes n1)) in
  ret (result, childNum, if forInsertionOrDeletion then byteNum + 1 else byteNum).

Definition __CFStorageCreateNode (leaf : bool) (bytes : Z) : M Z :=
  let! s := get_storage in
  new_node (mkNode bytes 1 (alwaysFrozen s) (if leaf then Leaf 0 None (CFRangeMake 0 0) else NotLeaf 0 0 0)).

Definition __CFStorageCopyNode (node : Z) : M Z :=
  let! n := get_node node in
  let! result := __CFStorageCreateNode (isLeaf n) (numBytes n) in
  let! _ := match info n with
            | Leaf _ None _ => ret tt
            | Leaf _ (Some memory) _ =>
                let! _ := __CFStorageAllocLeafNodeMemory result (numBytes n) false in
                copy_in (Some memory) 0 result 0 (numBytes n)
            | NotLeaf c0 c1 c2 =>
                let! _ := __CFStorageRetainNode c0 in
                let! _ := __CFStorageSetChild result 0 c0 in
                let! _ := null_check (fun c => let! _ := __CFStorageRetainNode c in __CFStorageSetChild result 1 c) c1 in
                let! _ := null_check (fun c => let! _ := __CFStorageRetainNode c in __CFStorageSetChild result 2 c) c2 in
                when (isFrozen n)
                  (let! _ := __CFStorageFreezeNode c0 in
                   let! _ := null_check __CFStorageFreezeNode c1 in
                   null_check __CFStorageFreezeNode c2)
            end in
  ret result.

(** A child that may be changed: thawed or replaced by a copy. *)
Definition unfreeze_child (node childNum child : Z) : M Z :=
  let! n := get_node child in
  if isFrozen n then
    let! thawed := __CFStorageThawNodeDuringMutation child in
    if thawed : bool then ret child else
    let! unfrozenReplacement := __CFStorageCopyNode child in
    let! _ := __CFStorageSetChild node childNum unfrozenReplacement in
    let! _ := __CFStorageReleaseNode child in
    ret unfrozenReplacement
  else ret child.

Fixpoint find_byte (fuel : nat) (node byteNum absoluteByteOffsetOfNode : Z) (requireUnfreezing : bool) : M (pointer * Z * CFRange) :=
  match fuel with
  | O => fail
  | S fuel =>
      let! n := get_node node in
      if isLeaf n then
        let! _ := __CFStorageAllocLeafNodeMemory node (numBytes n) false in
        ret (mkPointer node byteNum, node, CFRangeMake absoluteByteOffsetOfNode (numBytes n))
      else
        let! (child, childNum, relativeByteNum) := __CFStorageFindChild node byteNum false in
        let! child := (if requireUnfreezing then unfreeze_child node childNum child else ret child) in
        find_byte fuel child relativeByteNum (absoluteByteOffsetOfNode + (byteNum - relativeByteNum)) requireUnfreezing
  end.

Definition __CFStorageFindByte (node byteNum absoluteByteOffsetOfNode : Z) (requireUnfreezing : bool) : M (pointer * Z * CFRange) :=
  let! fuel := depth_fuel in find_byte fuel node byteNum absoluteByteOffsetOfNode requireUnfreezing.

Definition __CFStorageGetValueAtIndex (idx : Z) (requireUnfreezing : bool) : M (pointer * CFRange) :=
  let! cached := __CFStorageGetFromCache idx requireUnfreezing in
  match cached with
  | Some result => ret result
  | None =>
      let! s := get_storage in
      let! (result, resultNode, rangeInBytes) := __CFStorageFindByte (rootNode s) (__CFStorageConvertValueToByte s idx) 0 requireUnfreezing in
      let! _ := __CFStorageSetCache resultNode (location rangeInBytes) in
      ret (result, __CFStorageConvertBytesToValueRange s (location rangeInBytes) (range_length rangeInBytes))
  end.

(** ** Deletion *)

Definition __CFStorageDeleteLeafFrozen (node : Z) (range : CFRange) : M Z :=
  let! n := get_node node in
  let rangeToDeleteEnd := location range + range_length range in
  let remainingBytes := numBytes n - range_length range in
  if remainingBytes =? 0 then ret 0 else
  let! newNode := __CFStorageCreateNode true remainingBytes in
  let! _ := match leaf_memory n with
            | None => ret tt
            | Some _ =>
                let nonDeletedPrefix := CFRangeMake 0 (location range) in
                let nonDeletedSuffix := CFRangeMake rangeToDeleteEnd (numBytes n - rangeToDeleteEnd) in
                let! _ := __CFStorageAllocLeafNodeMemory newNode remainingBytes false in
                let! _ := __CFLeafCopyRangeToOffset n nonDeletedPrefix newNode 0 in
                __CFLeafCopyRangeToOffset n nonDeletedSuffix newNode (range_length nonDeletedPrefix)
            end in
  ret newNode.

(** The loop over the children; the new children in order. *)
Fixpoint populate_children (del : Z -> CFRange -> M Z) (childrenAreDefinitelyFrozen : bool) (range : CFRange) (children : list Z)
    (childByteOffset : Z) (newChildren : list Z) : M (list Z) :=
  match children with
  | [] => ret newChildren
  | existingChild :: children =>
      if existingChild =? 0 then ret newChildren else
      let! n := get_node existingChild in
      let existingChildLength := numBytes n in
      let deletionRangeIntersectedByChild := intersectionRange range (CFRangeMake childByteOffset existingChildLength) in
      let! newChildren :=
        (if range_length deletionRangeIntersectedByChild =? 0 then
           let! _ := __CFStorageRetainNode existingChild in
           let! _ := when childrenAreDefinitelyFrozen (__CFStorageFreezeNode existingChild) in
           ret (newChildren ++ [existingChild])
         else
           let rangeOfChildToDelete :=
             CFRangeMake (location deletionRangeIntersectedByChild - childByteOffset) (range_length deletionRangeIntersectedByChild) in
           let! newChild := del existingChild rangeOfChildToDelete in
           ret (if negb (newChild =? 0) then newChildren ++ [newChild] else newChildren)) in
      populate_children del childrenAreDefinitelyFrozen range children (childByteOffset + existingChildLength) newChildren
  end.

Definition __CFStoragePopulateBranchChildrenAfterDeletion (del : Z -> CFRange -> M Z) (node : Z) (range : CFRange)
    (childrenAreDefinitelyFrozen : bool) : M (list Z) :=
  let! n := get_node node in
  let! (c0, c1, c2) := children_of n in
  populate_children del childrenAreDefinitelyFrozen range [c0; c1; c2] 0 [].

(** The entry of an array of pointers, NULL beyond the ones that were set. *)
Definition entry (l : list Z) (i : nat) : Z := default 0 (l !! i).

Definition __CFStorageDeleteBranchFrozen (deleteFrozen : Z -> CFRange -> M Z) (node : Z) (range : CFRange) : M Z :=
  let! n := get_node node in
  if range_length range =? numBytes n then ret 0 else
  let! newChildren := __CFStoragePopulateBranchChildrenAfterDeletion deleteFrozen node range true in
  if (length newChildren =? 1)%nat then ret (entry newChildren 0) else
  let! result := __CFStorageCreateNode false 0 in
  let! r := get_node result in
  let! n := get_node node in
  let! _ := set_node result (mkNode (numBytes n - range_length range) (refCount r) (isFrozen r)
              (NotLeaf (entry newChildren 0) (entry newChildren 1) (entry newChildren 2))) in
  ret result.

Fixpoint __CFStorageDeleteFrozen (fuel : nat) (node : Z) (range : CFRange) : M Z :=
  match fuel with
  | O => fail
  | S fuel =>
      let! n := get_node node in
      if isLeaf n then __CFStorageDeleteLeafFrozen node range
      else __CFStorageDeleteBranchFrozen (__CFStorageDeleteFrozen fuel) node range
  end.

Definition delete_in_leaf (node : Z) (range : CFRange) (compact : bool) : M unit :=
  let! n := get_node node in
  let n := with_numBytes n (numBytes n - range_length range) in
  let! _ := set_node node n in
  match leaf_memory n with
  | None => ret tt
  | Some memory =>
      let! _ := copy_in (Some memory) (location range + range_length range) node (location range) (numBytes n - location range) in
      when compact (__CFStorageAllocLeafNodeMemory node (numBytes n) true)
  end.

Definition delete_in_branch (del : Z -> CFRange -> M Z) (node : Z) (range : CFRange) : M Z :=
  let! newChildren := __CFStoragePopulateBranchChildrenAfterDeletion del node range false in
  let! n := get_node node in
  let! _ := set_node node (with_numBytes n (numBytes n - range_length range)) in
  let! n := get_node node in
  let! (c0, c1, c2) := children_of n in
  let! _ := __CFStorageReleaseNode c0 in
  let! _ := null_check __CFStorageReleaseNode c1 in
  let! _ := null_check __CFStorageReleaseNode c2 in
  let! n := get_node node in
  let! _ := set_node node (with_info n (NotLeaf 0 0 0)) in
  if (length newChildren =? 1)%nat then ret (entry newChildren 0) else
  let! n := get_node node in
  let! _ := set_node node (with_info n (NotLeaf (entry newChildren 0) (entry newChildren 1) (entry newChildren 2))) in
  let! _ := __CFStorageRetainNode node in
  ret node.

(** [__CFStorageDelete] dispatches on the state of a child. *)
Definition __CFStorageDelete (deleteFrozen deleteUnfrozen : Z -> CFRange -> M Z) (node : Z) (range : CFRange) : M Z :=
  let! n := get_node node in
  let! thawed := (if isFrozen n then __CFStorageThawNodeDuringMutation node else ret true) in
  if thawed : bool then deleteUnfrozen node range else deleteFrozen node range.

Fixpoint __CFStorageDeleteUnfrozen (fuel : nat) (compact : bool) (node : Z) (range : CFRange) : M Z :=
  match fuel with
  | O => fail
  | S fuel =>
      let! n := get_node node in
      if range_length range =? numBytes n then ret 0 else
      if isLeaf n then
        let! _ := delete_in_leaf node range compact in
        let! _ := __CFStorageRetainNode node in
        ret node
      else
        delete_in_branch (__CFStorageDelete (__CFStorageDeleteFrozen fuel) (__CFStorageDeleteUnfrozen fuel compact)) node range
  end.

(** ** Insertion *)

Definition __CFStorageInsertLeafFrozen (node byteNum size absoluteByteNum : Z) : M CFStorageDoubleNodeReturn :=
  let! s := get_storage in
  let! n := get_node node in
  let newTotalSize := size + numBytes n in
  if newTotalSize <=? maxLeafCapacity s then
    let! leftResult := __CFStorageCreateNode true newTotalSize in
    let! _ := match leaf_memory n with
              | None => ret tt
              | Some memory =>
                  let! _ := __CFStorageAllocLeafNodeMemory leftResult newTotalSize false in
                  let! _ := copy_in (Some memory) 0 leftResult 0 byteNum in
                  copy_in (Some memory) byteNum leftResult (byteNum + size) (numBytes n - byteNum)
              end in
    let! _ := __CFStorageSetCache leftResult (absoluteByteNum - byteNum) in
    ret (CFStorageDoubleNodeReturnMake leftResult 0)
  else if byteNum =? numBytes n then
    let! rightResult := __CFStorageCreateNode true size in
    let! _ := __CFStorageSetCache rightResult absoluteByteNum in
    ret (CFStorageDoubleNodeReturnMake node rightResult)
  else if byteNum =? 0 then
    let! _ := __CFStorageRetainNode node in
    let! leftResult := __CFStorageCreateNode true size in
    let! _ := __CFStorageSetCache leftResult absoluteByteNum in
    ret (CFStorageDoubleNodeReturnMake leftResult node)
  else
    let leftAmount := maxLeafCapacity s in
    let rightAmount := newTotalSize - maxLeafCapacity s in
    let! leftResult := __CFStorageCreateNode true leftAmount in
    let! rightResult := __CFStorageCreateNode true rightAmount in
    let! _ := __CFStorageAllocLeafNodeMemory leftResult leftAmount false in
    let! _ := __CFStorageAllocLeafNodeMemory rightResult rightAmount false in
    let! _ := copy_in (leaf_memory n) 0 leftResult 0 byteNum in
    let preservedData := CFRangeMake (byteNum + size) (numBytes n - byteNum) in
    let overlap := intersectionRange (CFRangeMake 0 leftAmount) preservedData in
    let! _ := when (0 <? range_length overlap)
                (copy_in (leaf_memory n) (location overlap - size) leftResult (location overlap) (range_length overlap)) in
    let overlap := intersectionRange (CFRangeMake leftAmount rightAmount) preservedData in
    let! _ := when (0 <? range_length overlap)
                (copy_in (leaf_memory n) (location overlap - size) rightResult (location overlap - leftAmount) (range_length overlap)) in
    let! _ := __CFStorageSetCache leftResult (absoluteByteNum - byteNum) in
    ret (CFStorageDoubleNodeReturnMake leftResult rightResult).

(** The four entries after a child was replaced and a sibling inserted behind
    it. *)
Definition insert_sibling (c0 c1 c2 childNum sibling : Z) : Z * Z * Z * Z :=
  if sibling =? 0 then (c0, c1, c2, 0) else
  let c3 := if childNum <? 2 then c2 else 0 in
  let c2 := if childNum <? 1 then c1 else c2 in
  if childNum =? 0 then (c0, sibling, c2, c3)
  else if childNum =? 1 then (c0, c1, sibling, c3)
  else (c0, c1, c2, sibling).

Definition __CFStorageInsertBranchFrozen (insertFrozen : Z -> Z -> Z -> Z -> M CFStorageDoubleNodeReturn)
    (node byteNum size absoluteByteNum : Z) : M CFStorageDoubleNodeReturn :=
  let! copyOfMe := __CFStorageCreateNode false 0 in
  let! (child_, childNum, relativeByteNum) := __CFStorageFindChild node byteNum true in
  let! childReturn := insertFrozen child_ relativeByteNum size absoluteByteNum in
  let! (c0, c1, c2) := __CFStorageGetChildren node true true in
  let old := if childNum =? 0 then c0 else if childNum =? 1 then c1 else c2 in
  let replaced := negb (old =? child childReturn) in
  let! _ := when replaced (__CFStorageReleaseNode old) in
  let c0 := if replaced && (childNum =? 0) then child childReturn else c0 in
  let c1 := if replaced && (childNum =? 1) then child childReturn else c1 in
  let c2 := if replaced && (childNum =? 2) then child childReturn else c2 in
  let '(c0, c1, c2, c3) := insert_sibling c0 c1 c2 childNum (sibling childReturn) in
  let! _ := __CFStorageSetChild copyOfMe 0 c0 in
  let! _ := __CFStorageSetChild copyOfMe 1 c1 in
  if c3 =? 0 then
    let! _ := __CFStorageSetChild copyOfMe 2 c2 in
    let! n := get_node node in
    let! m := get_node copyOfMe in
    let! _ := set_node copyOfMe (with_numBytes m (numBytes n + size)) in
    ret (CFStorageDoubleNodeReturnMake copyOfMe 0)
  else
    let! siblingOfMe := __CFStorageCreateNode false 0 in
    let! _ := __CFStorageSetChild siblingOfMe 0 c2 in
    let! _ := __CFStorageSetChild siblingOfMe 1 c3 in
    let! n0 := get_node c0 in let! n1 := get_node c1 in
    let! m := get_node copyOfMe in
    let! _ := set_node copyOfMe (with_numBytes m (numBytes n0 + numBytes n1)) in
    let! n2 := get_node c2 in let! n3 := get_node c3 in
    let! m := get_node siblingOfMe in
    let! _ := set_node siblingOfMe (with_numBytes m (numBytes n2 + numBytes n3)) in
    ret (CFStorageDoubleNodeReturnMake copyOfMe siblingOfMe).

Fixpoint __CFStorageInsertFrozen (fuel : nat) (node byteNum size absoluteByteNum : Z) : M CFStorageDoubleNodeReturn :=
  match fuel with
  | O => fail
  | S fuel =>
      let! n := get_node node in
      if isLeaf n then __CFStorageInsertLeafFrozen node byteNum size absoluteByteNum
      else __CFStorageInsertBranchFrozen (__CFStorageInsertFrozen fuel) node byteNum size absoluteByteNum
  end.

Definition __CFStorageInsertLeafUnfrozen (node byteNum size absoluteByteNum : Z) : M CFStorageDoubleNodeReturn :=
  let! s := get_storage in
  let! n := get_node node in
  if maxLeafCapacity s <? size + numBytes n then
    let! newNode :=
      (if byteNum =? numBytes n then
         let! newNode := __CFStorageCreateNode true size in
         let! _ := __CFStorageSetCache newNode absoluteByteNum in
         ret newNode
       else if byteNum =? 0 then
         let! newNode := __CFStorageCreateNode true 0 in
         let! m := get_node newNode in
         let! _ := match info n with
                   | NotLeaf _ _ _ => fail
                   | Leaf capacity memory cached =>
                       let! _ := set_node newNode (mkNode (numBytes n) (refCount m) (isFrozen m) (Leaf capacity memory (CFRangeMake 0 0))) in
                       set_node node (mkNode size (refCount n) (isFrozen n) (Leaf 0 None cached))
                   end in
         let! _ := __CFStorageSetCache node absoluteByteNum in
         ret newNode
       else if byteNum + size <=? maxLeafCapacity s then
         let! newNode := __CFStorageCreateNode true (numBytes n - byteNum) in
         let! _ := match leaf_memory n with
                   | None => ret tt
                   | Some memory =>
                       let! _ := __CFStorageAllocLeafNodeMemory newNode (numBytes n - byteNum) false in
                       let! _ := copy_in (Some memory) byteNum newNode 0 (numBytes n - byteNum) in
                       __CFStorageAllocLeafNodeMemory node (byteNum + size) false
                   end in
         let! n := get_node node in
         let! _ := set_node node (with_numBytes n (byteNum + size)) in
         let! _ := __CFStorageSetCache node (absoluteByteNum - byteNum) in
         ret newNode
       else
         let! newNode := __CFStorageCreateNode true (numBytes n + size - maxLeafCapacity s) in
         let! _ := match leaf_memory n with
                   | None => ret tt
                   | Some memory =>
                       let! _ := __CFStorageAllocLeafNodeMemory newNode (numBytes n + size - maxLeafCapacity s) false in
                       let! _ := copy_in (Some memory) byteNum newNode (byteNum + size - maxLeafCapacity s) (numBytes n - byteNum) in
                       __CFStorageAllocLeafNodeMemory node (maxLeafCapacity s) false
                   end in
         let! _ := __CFStorageSetCache node (absoluteByteNum - byteNum) in
         let! n := get_node node in
         let! _ := set_node node (with_numBytes n (maxLeafCapacity s)) in
         ret newNode) in
    ret (CFStorageDoubleNodeReturnMake node newNode)
  else
    let! _ := match leaf_memory n with
              | None => ret tt
              | Some _ =>
                  let! _ := __CFStorageAllocLeafNodeMemory node (numBytes n + size) false in
                  let! m := get_node node in
                  copy_in (leaf_memory m) byteNum node (byteNum + size) (numBytes n - byteNum)
              end in
    let! n := get_node node in
    let! _ := set_node node (with_numBytes n (numBytes n + size)) in
    let! _ := __CFStorageSetCache node (absoluteByteNum - byteNum) in
    ret (CFStorageDoubleNodeReturnMake node 0).

Definition __CFStorageInsertBranchUnfrozen (insert : Z -> Z -> Z -> Z -> M CFStorageDoubleNodeReturn)
    (node byteNum size absoluteByteNum : Z) : M CFStorageDoubleNodeReturn :=
  let! (childNode, childNum, relativeByteNum) := __CFStorageFindChild node byteNum true in
  let! newNodes := insert childNode relativeByteNum size absoluteByteNum in
  let! _ := when (negb (child newNodes =? childNode))
              (let! _ := __CFStorageReleaseNode childNode in
               __CFStorageSetChild node childNum (child newNodes)) in
  let! n := get_node node in
  if sibling newNodes =? 0 then
    let! _ := set_node node (with_numBytes n (numBytes n + size)) in
    ret (CFStorageDoubleNodeReturnMake node 0)
  else
    let newChild := sibling newNodes in
    let! (c0, c1, c2) := children_of n in
    if c2 =? 0 then
      let! _ := when (childNum =? 0) (__CFStorageSetChild node 2 c1) in
      let! _ := __CFStorageSetChild node (childNum + 1) newChild in
      let! n := get_node node in
      let! _ := set_node node (with_numBytes n (numBytes n + size)) in
      ret (CFStorageDoubleNodeReturnMake node 0)
    else
      let! anotherNode := __CFStorageCreateNode false 0 in
      let! _ :=
        (if childNum =? 0 then
           let! _ := __CFStorageSetChild anotherNode 0 c1 in
           let! _ := __CFStorageSetChild anotherNode 1 c2 in
           let! _ := __CFStorageSetChild node 1 newChild in
           __CFStorageSetChild node 2 0
         else if childNum =? 1 then
           let! _ := __CFStorageSetChild anotherNode 0 newChild in
           let! _ := __CFStorageSetChild anotherNode 1 c2 in
           __CFStorageSetChild node 2 0
         else
           let! _ := __CFStorageSetChild anotherNode 0 c2 in
           let! _ := __CFStorageSetChild anotherNode 1 newChild in
           __CFStorageSetChild node 2 0) in
      let! n := get_node node in
      let! (c0, c1, _) := children_of n in
      let! n0 := get_node c0 in let! n1 := get_node c1 in
      let! _ := set_node node (with_numBytes n (numBytes n0 + numBytes n1)) in
      let! m := get_node anotherNode in
      let! (d0, d1, _) := children_of m in
      let! m0 := get_node d0 in let! m1 := get_node d1 in
      let! _ := set_node anotherNode (with_numBytes m (numBytes m0 + numBytes m1)) in
      ret (CFStorageDoubleNodeReturnMake node anotherNode).

Definition __CFStorageInsert (insertFrozen insertUnfrozen : Z -> Z -> Z -> Z -> M CFStorageDoubleNodeReturn)
    (node byteNum size absoluteByteNum : Z) : M CFStorageDoubleNodeReturn :=
  let! n := get_node node in
  let! thawed := (if isFrozen n then __CFStorageThawNodeDuringMutation node else ret true) in
  if thawed : bool then insertUnfrozen node byteNum size absoluteByteNum else insertFrozen node byteNum size absoluteByteNum.

Fixpoint __CFStorageInsertUnfrozen (fuel : nat) (node byteNum size absoluteByteNum : Z) : M CFStorageDoubleNodeReturn :=
  match fuel with
  | O => fail
  | S fuel =>
      let! n := get_node node in
      if isLeaf n then __CFStorageInsertLeafUnfrozen node byteNum size absoluteByteNum
      else __CFStorageInsertBranchUnfrozen (__CFStorageInsert (__CFStorageInsertFrozen fuel) (__CFStorageInsertUnfrozen fuel))
             node byteNum size absoluteByteNum
  end.

(** ** Storages *)

Definition __CFStorageGetCount : M Z :=
  let! s := get_storage in
  let! n := get_node (rootNode s) in
  ret (__CFStorageConvertByteToValue s (numBytes n)).

Definition CFStorageGetCount : M Z := __CFStorageGetCount.

Definition __CFStorageHash : M Z := __CFStorageGetCount.

Fixpoint node_capacity (fuel : nat) (p : Z) : M Z :=
  match fuel with
  | O => fail
  | S fuel =>
      if p =? 0 then ret 0 else
      let! n := get_node p in
      match info n with
      | Leaf capacity _ _ => ret capacity
      | NotLeaf c0 c1 c2 =>
          let! a := node_capacity fuel c0 in
          let! b := node_capacity fuel c1 in
          let! c := node_capacity fuel c2 in
          ret (a + b + c)
      end
  end.

Definition __CFStorageGetCapacity : M Z :=
  let! fuel := depth_fuel in
  let! s := get_storage in
  let! bytes := node_capacity (S fuel) (rootNode s) in
  ret (__CFStorageConvertByteToValue s bytes).

Definition __CFStorageGetValueSize : M Z := let! s := get_storage in ret (valueSize s).

(** The shift of a power of two: [while (tempSize > 1)]. *)
Fixpoint shift_loop (fuel : nat) (tempSize shifter : Z) : Z :=
  match fuel with
  | O => shifter
  | S fuel => if 1 <? tempSize then shift_loop fuel (Z.shiftr tempSize 1) (shifter + 1) else shifter
  end.

(** A new storage becomes the storage at hand. *)
Definition CFStorageCreate (size : Z) : M unit :=
  let shifter :=
    if (0 <? size) && (Z.land size (size - 1) =? 0) then shift_loop 64 size 0 else NO_SHIFTER in
  let maxLeaf :=
    if negb (size =? 0) && negb (Z.rem __CFStorageMaxLeafCapacity size =? 0)
    then Z.quot __CFStorageMaxLeafCapacity size * size else __CFStorageMaxLeafCapacity in
  let! root := new_node (mkNode 0 0 false (Leaf 0 None (CFRangeMake 0 0))) in
  set_storage (mkStorage size shifter false 0 maxLeaf root).

Definition __CFStorageSetAlwaysFrozen (flag : bool) : M unit :=
  let! s := get_storage in
  set_storage (mkStorage (valueSize s) (byteToValueShifter s) flag (cacheNode s) (maxLeafCapacity s) (rootNode s)).

Definition __CFStorageClearRootNode : M unit :=
  let! s := get_storage in
  let root := rootNode s in
  let! n := get_node root in
  let! _ := match info n with
            | Leaf _ _ _ => ret tt
            | NotLeaf c0 c1 c2 =>
                let! _ := null_check __CFStorageReleaseNode c0 in
                let! _ := null_check __CFStorageReleaseNode c1 in
                null_check __CFStorageReleaseNode c2
            end in
  let! n := get_node root in
  set_node root (mkNode 0 (refCount n) (isFrozen n) (Leaf 0 None (match info n with Leaf _ _ r => r | _ => CFRangeMake 0 0 end))).

(** The root is part of the object that goes away. *)
Definition __CFStorageDeallocate : M unit :=
  let! _ := __CFStorageClearRootNode in
  let! s := get_storage in
  free_node (rootNode s).

(** A sibling of the root: the contents of the root move to a node of the
    heap. *)
Definition deepen_root (newNode : Z) : M unit :=
  let! s := get_storage in
  let root := rootNode s in
  let! r := get_node root in
  let! heapRoot := __CFStorageCreateNode (isLeaf r) (numBytes r) in
  let! h := get_node heapRoot in
  let! _ := set_node heapRoot (with_info h (info r)) in
  let! _ := when (isLeaf r) (__CFStorageSetCache 0 0) in
  let! h := get_node heapRoot in
  let! m := get_node newNode in
  let! r := get_node root in
  set_node root (mkNode (numBytes h + numBytes m) (refCount r) (isFrozen r) (NotLeaf heapRoot newNode 0)).

Fixpoint insert_loop (fuel : nat) (byteNum numBytesToInsert : Z) : M unit :=
  if 0 <? numBytesToInsert then
    match fuel with
    | O => fail
    | S fuel =>
        let! s := get_storage in
        let insertThisTime := Z.min numBytesToInsert (maxLeafCapacity s) in
        let! depth := depth_fuel in
        let! newNodes := __CFStorageInsertUnfrozen depth (rootNode s) byteNum insertThisTime byteNum in
        let! _ := when (negb (sibling newNodes =? 0)) (deepen_root (sibling newNodes)) in
        insert_loop fuel (byteNum + insertThisTime) (numBytesToInsert - insertThisTime)
    end
  else ret tt.

Definition CFStorageInsertValues (range : CFRange) : M unit :=
  let! s := get_storage in
  let numBytesToInsert := __CFStorageConvertValueToByte s (range_length range) in
  let byteNum := __CFStorageConvertValueToByte s (location range) in
  insert_loop (Z.to_nat numBytesToInsert) byteNum numBytesToInsert.

(** The root takes over another node. *)
Definition adopt_root (newRoot : Z) : M unit :=
  let! s := get_storage in
  let root := rootNode s in
  let! n := get_node newRoot in
  let! r := get_node root in
  match info n with
  | Leaf capacity memory cached =>
      let! _ := set_node root (mkNode (numBytes n) (refCount r) (isFrozen r) (Leaf 0 None (CFRangeMake 0 0))) in
      if negb (isFrozen n) then
        let! _ := set_node root (mkNode (numBytes n) (refCount r) (isFrozen r) (Leaf 0 memory (CFRangeMake 0 0))) in
        set_node newRoot (with_info n (Leaf 0 None (CFRangeMake 0 0)))
      else
        match memory with
        | None => ret tt
        | Some _ =>
            let! _ := __CFStorageAllocLeafNodeMemory root (numBytes n) false in
            copy_in memory 0 root 0 (numBytes n)
        end
  | NotLeaf c0 c1 c2 =>
      let! _ := __CFStorageRetainNode c0 in
      let! _ := __CFStorageRetainNode c1 in
      let! _ := null_check __CFStorageRetainNode c2 in
      set_node root (mkNode (numBytes n) (refCount r) (isFrozen r) (NotLeaf c0 c1 c2))
  end.

Definition CFStorageDeleteValues (range : CFRange) : M unit :=
  let! s := get_storage in
  let byteRange := __CFStorageConvertValuesToByteRange s (location range) (range_length range) in
  let! _ := __CFStorageSetCache 0 0 in
  let! depth := depth_fuel in
  let! newRoot := __CFStorageDeleteUnfrozen depth true (rootNode s) byteRange in
  let! _ := (if newRoot =? 0 then __CFStorageClearRootNode
             else if newRoot =? rootNode s then ret tt
             else adopt_root newRoot) in
  null_check __CFStorageReleaseNode newRoot.

(** *** Reading and writing *)

Definition CFStorageGetValueAtIndex (idx : Z) : M (pointer * CFRange) := __CFStorageGetValueAtIndex idx true.

Definition CFStorageGetConstValueAtIndex (idx : Z) : M (pointer * CFRange) := __CFStorageGetValueAtIndex idx false.

(** [len] bytes behind a pointer. *)
Definition read_pointer (p : pointer) (len : Z) : M memory_block :=
  let! n := get_node (leaf_of p) in
  match leaf_memory n with
  | Some memory =>
      match memmove (replicate (Z.to_nat len) None) 0 memory (offset_of p) len with
      | Some values => ret values
      | None => fail
      end
  | None => fail
  end.

Definition write_pointer (p : pointer) (values : memory_block) (from len : Z) : M unit :=
  copy_in (Some values) from (leaf_of p) (offset_of p) len.

(** The values, one leaf a round. *)
Fixpoint get_loop (fuel : nat) (loc len : Z) : M memory_block :=
  if 0 <? len then
    match fuel with
    | O => fail
    | S fuel =>
        let! (storagePtr, leafRange) := __CFStorageGetValueAtIndex loc false in
        let! s := get_storage in
        let cntThisTime := Z.min len (range_length leafRange - (loc - location leafRange)) in
        let byteCntThisTime := __CFStorageConvertValueToByte s cntThisTime in
        let! values := read_pointer storagePtr byteCntThisTime in
        let! rest := get_loop fuel (loc + cntThisTime) (len - cntThisTime) in
        ret (values ++ rest)
    end
  else ret [].

Definition CFStorageGetValues (range : CFRange) : M memory_block :=
  get_loop (Z.to_nat (range_length range)) (location range) (range_length range).

Fixpoint replace_loop (fuel : nat) (values : memory_block) (from loc len : Z) : M unit :=
  if 0 <? len then
    match fuel with
    | O => fail
    | S fuel =>
        let! (storagePtr, leafRange) := __CFStorageGetValueAtIndex loc true in
        let! s := get_storage in
        let cntThisTime := Z.min len (range_length leafRange - (loc - location leafRange)) in
        let byteCntThisTime := __CFStorageConvertValueToByte s cntThisTime in
        let! _ := write_pointer storagePtr values from byteCntThisTime in
        replace_loop fuel values (from + byteCntThisTime) (loc + cntThisTime) (len - cntThisTime)
    end
  else ret tt.

Definition CFStorageReplaceValues (range : CFRange) (values : memory_block) : M unit :=
  replace_loop (Z.to_nat (range_length range)) values 0 (location range) (range_length range).

(** The state of a fast enumeration: the position and the count, and the items
    of a round. *)
Definition _CFStorageFastEnumeration (state extra : Z) : M (option (pointer * CFRange) * Z * Z * Z) :=
  let! extra := (if state =? 0 then __CFStorageGetCount else ret extra) in
  if extra <=? state then ret (None, state, extra, 0) else
  let! (itemsPtr, leafRange) := CFStorageGetValueAtIndex state in
  ret (Some (itemsPtr, leafRange), state + range_length leafRange, extra, range_length leafRange).

(** *** Enumeration *)

(** Lengths and offsets of the children of a branch; a missing child has
    length 0. *)
Definition child_length (c : Z) : M Z := if c =? 0 then ret 0 else let! n := get_node c in ret (numBytes n).

Definition overlaps_of (n : CFStorageNode) (range : CFRange) : M (list (Z * Z * CFRange)) :=
  let! (c0, c1, c2) := children_of n in
  let! n0 := get_node c0 in
  let! l1 := child_length c1 in
  let! l2 := child_length c2 in
  let l0 := numBytes n0 in
  ret [(c0, 0, intersectionRange (CFRangeMake 0 l0) range);
       (c1, l0, intersectionRange (CFRangeMake l0 l1) range);
       (c2, l0 + l1, intersectionRange (CFRangeMake (l0 + l1) l2) range)].

(** The chunks that are passed to the block, up to the one at which it stops. *)
Fixpoint enumerate_children (visit : Z -> Z -> CFRange -> M (list (memory_block * CFRange) * bool)) (globalOffsetOfNode : Z)
    (children : list (Z * Z * CFRange)) : M (list (memory_block * CFRange) * bool) :=
  match children with
  | [] => ret ([], false)
  | (c, offset, overlap) :: children =>
      if 0 <? range_length overlap then
        let! (chunks, stop) := visit c (globalOffsetOfNode + offset) (CFRangeMake (location overlap - offset) (range_length overlap)) in
        if stop : bool then ret (chunks, true) else
        let! (rest, stop) := enumerate_children visit globalOffsetOfNode children in
        ret (chunks ++ rest, stop)
      else enumerate_children visit globalOffsetOfNode children
  end.

Fixpoint enumerate_nodes (applier : memory_block -> CFRange -> bool) (fuel : nat) (node globalOffsetOfNode : Z) (range : CFRange)
    : M (list (memory_block * CFRange) * bool) :=
  match fuel with
  | O => fail
  | S fuel =>
      let! s := get_storage in
      let! n := get_node node in
      if isLeaf n then
        let start := location range in
        let len := Z.min (range_length range) (numBytes n - start) in
        let! _ := match leaf_memory n with
                  | None => __CFStorageAllocLeafNodeMemory node (numBytes n) false
                  | Some _ => ret tt
                  end in
        let! values := read_pointer (mkPointer node start) len in
        let subrange := __CFStorageConvertBytesToValueRange s (globalOffsetOfNode + start) len in
        ret ([(values, subrange)], applier values subrange)
      else
        let! children := overlaps_of n range in
        enumerate_children (enumerate_nodes applier fuel) globalOffsetOfNode children
  end.

Definition __CFStorageEnumerateNodesInByteRangeWithBlock (applier : memory_block -> CFRange -> bool) (node globalOffsetOfNode : Z) (range : CFRange)
    : M (list (memory_block * CFRange) * bool) :=
  let! fuel := depth_fuel in enumerate_nodes applier fuel node globalOffsetOfNode range.

(** The chunks the block was called with. *)
Definition CFStorageApplyBlock (range : CFRange) (applier : memory_block -> CFRange -> bool) : M (list (memory_block * CFRange)) :=
  if range_length range =? 0 then ret [] else
  let! s := get_storage in
  let byteRange := __CFStorageConvertValuesToByteRange s (location range) (range_length range) in
  let! (chunks, _) := __CFStorageEnumerateNodesInByteRangeWithBlock applier (rootNode s) 0 byteRange in
  ret chunks.

(** [while (subrange.length--)]: the values of a chunk one by one. *)
Fixpoint chunk_values (count : nat) (size : Z) (storagePtr : memory_block) : list memory_block :=
  match count with
  | O => []
  | S count => take (Z.to_nat size) storagePtr :: chunk_values count size (drop (Z.to_nat size) storagePtr)
  end.

(** The values the function was called with. *)
Definition CFStorageApplyFunction (range : CFRange) : M (list memory_block) :=
  let! s := get_storage in
  let! chunks := CFStorageApplyBlock range (fun _ _ => false) in
  ret (concat (map (fun c => chunk_values (Z.to_nat (range_length c.2)) (valueSize s) c.1) chunks)).

(** *** A storage for a part of another *)

Fixpoint find_containing (fuel : nat) (node : Z) (nodeRange : CFRange) (globalOffsetOfNode : Z) : M (Z * CFRange) :=
  match fuel with
  | O => fail
  | S fuel =>
      let! n := get_node node in
      let this := (node, CFRangeMake globalOffsetOfNode (numBytes n)) in
      if isLeaf n then ret this else
      let! children := overlaps_of n nodeRange in
      match filter (fun c => negb (range_length c.2 =? 0)) children with
      | [(c, offset, _)] => find_containing fuel c (CFRangeMake (location nodeRange - offset) (range_length nodeRange)) (globalOffsetOfNode + offset)
      | _ => ret this
      end
  end.

Definition _CFStorageFindNodeContainingByteRange (node : Z) (nodeRange : CFRange) (globalOffsetOfNode : Z) : M (Z * CFRange) :=
  let! fuel := depth_fuel in find_containing fuel node nodeRange globalOffsetOfNode.

(** The children of the node found become children of the new root. *)
Fixpoint share_children (children : list Z) : M unit :=
  match children with
  | [] => ret tt
  | c :: children =>
      if c =? 0 then ret tt else
      let! _ := __CFStorageFreezeNode c in
      let! _ := __CFStorageRetainNode c in
      share_children children
  end.

(** The new storage is the storage at hand afterwards. *)
Definition CFStorageCreateWithSubrange (range : CFRange) : M unit :=
  let! s := get_storage in
  let! _ := CFStorageCreate (valueSize s) in
  if 0 <? range_length range then
    let! result := get_storage in
    let byteRange := __CFStorageConvertValuesToByteRange s (location range) (range_length range) in
    let! (found, byteRangeOfContainingNode) := _CFStorageFindNodeContainingByteRange (rootNode s) byteRange 0 in
    let! n := get_node found in
    match info n with
    | Leaf _ memory _ =>
        let! _ := CFStorageInsertValues (CFRangeMake 0 (range_length range)) in
        match memory with
        | None => ret tt
        | Some memory =>
            let offsetIntoNode := location byteRange - location byteRangeOfContainingNode in
            CFStorageReplaceValues (CFRangeMake 0 (range_length range)) (drop (Z.to_nat offsetIntoNode) memory)
        end
    | NotLeaf c0 c1 c2 =>
        let! r := get_node (rootNode result) in
        let! _ := set_node (rootNode result) (mkNode (range_length byteRangeOfContainingNode) (refCount r) (isFrozen r) (NotLeaf c0 c1 c2)) in
        let! _ := share_children [c0; c1; c2] in
        let rangeOfContainingNode := __CFStorageConvertBytesToValueRange result (location byteRangeOfContainingNode) (range_length byteRangeOfContainingNode) in
        let prefixToTrim := location range - location rangeOfContainingNode in
        let suffixToTrim := (location rangeOfContainingNode + range_length rangeOfContainingNode) - (location range + range_length range) in
        let! _ := when (0 <? suffixToTrim)
                    (CFStorageDeleteValues (CFRangeMake (range_length rangeOfContainingNode - suffixToTrim) suffixToTrim)) in
        when (0 <? prefixToTrim) (CFStorageDeleteValues (CFRangeMake 0 prefixToTrim))
    end
  else ret tt.

(** *** Equality *)

(** Run an operation on another storage; the storage at hand comes back with
    the other one. *)
Definition on_storage {A} (other : __CFStorage) (m : M A) : M (A * __CFStorage) :=
  fun w => match m (with_storage w other) with
           | Some (x, w') => Some ((x, storage w'), with_storage w' (storage w))
           | None => None
           end.

(** [memcmp() == 0] of bytes that have been written. *)
Definition written (b : memory_block) : bool := forallb (fun x => match x with Some _ => true | None => false end) b.

Definition same_bytes (a b : memory_block) : M bool := if written a && written b then ret (bool_decide (a = b)) else fail.

Definition range_end (r : CFRange) : Z := location r + range_length r.

Fixpoint equal_loop (fuel : nat) (storage2 : __CFStorage) (loc count size : Z) (ptr1 ptr2 : option pointer) (range1 range2 : CFRange)
    : M (bool * __CFStorage) :=
  if loc <? count then
    match fuel with
    | O => fail
    | S fuel =>
        let! (ptr1, range1) := (if range_end range1 <=? loc then
                                  let! (p, r) := CFStorageGetValueAtIndex loc in ret (Some p, r) else ret (ptr1, range1)) in
        let! (ptr2, range2, storage2) :=
          (if range_end range2 <=? loc then
             let! ((p, r), storage2) := on_storage storage2 (CFStorageGetValueAtIndex loc) in ret (Some p, r, storage2)
           else ret (ptr2, range2, storage2)) in
        let cntThisTime := Z.min (range_end range1) (range_end range2) - loc in
        match ptr1, ptr2 with
        | Some p1, Some p2 =>
            let! values1 := read_pointer p1 (size * cntThisTime) in
            let! values2 := read_pointer p2 (size * cntThisTime) in
            let! same := same_bytes values1 values2 in
            if same : bool then
              equal_loop fuel storage2 (loc + cntThisTime) count size
                (Some (mkPointer (leaf_of p1) (offset_of p1 + size * cntThisTime)))
                (Some (mkPointer (leaf_of p2) (offset_of p2 + size * cntThisTime))) range1 range2
            else ret (false, storage2)
        | _, _ => fail
        end
    end
  else ret (true, storage2).

(** The answer, and the other storage with its cache. *)
Definition __CFStorageEqual (storage2 : __CFStorage) : M (bool * __CFStorage) :=
  let! count := __CFStorageGetCount in
  let! (count2, _) := on_storage storage2 __CFStorageGetCount in
  if negb (count =? count2) then ret (false, storage2) else
  let! size := __CFStorageGetValueSize in
  if negb (size =? valueSize storage2) then ret (false, storage2) else
  equal_loop (Z.to_nat count) storage2 0 count size None None (CFRangeMake 0 0) (CFRangeMake 0 0).
