(* ===== verification/CFStorageTree.v ===== *)
(** * CFStorage: the tree behind the nodes

    The nodes of a storage that shares nothing with others represent a tree:
    every node but the root is referred to once and none is frozen.  The
    operations of CFStorage.v are described by what they do to this tree. *)

From S2P Require Import Prelude CFInternal CFStorage.
From stdpp Require Import base list numbers option gmap.
From Stdlib Require Import ZArith Lia.
Open Scope Z_scope.
Open Scope cf_scope.

(** ** Trees *)

Inductive tree := TLeaf (p : Z) (bs : memory_block) | TBranch (p : Z) (ks : list tree).

Section TreeInd.
Context (P : tree -> Prop) (HL : forall p bs, P (TLeaf p bs)) (HB : forall p ks, Forall P ks -> P (TBranch p ks)).

Fixpoint tree_nested_ind (t : tree) : P t :=
  match t with
  | TLeaf p bs => HL p bs
  | TBranch p ks => HB p ks ((fix all ks : Forall P ks := match ks with [] => List.Forall_nil _ | k :: ks => List.Forall_cons _ _ _ (tree_nested_ind k) (all ks) end) ks)
  end.

End TreeInd.

Definition root (t : tree) : Z := match t with TLeaf p _ => p | TBranch p _ => p end.

Fixpoint bytes (t : tree) : memory_block := match t with TLeaf _ bs => bs | TBranch _ ks => concat (map bytes ks) end.

Fixpoint ptrs (t : tree) : list Z := match t with TLeaf p _ => [p] | TBranch p ks => p :: concat (map ptrs ks) end.

Fixpoint height (t : tree) : nat := match t with TLeaf _ _ => 1 | TBranch _ ks => S (foldr Nat.max 0%nat (map height ks)) end.

Notation bytes_of ks := (concat (map bytes ks)).
Notation ptrs_of ks := (concat (map ptrs ks)).
Notation len l := (Z.of_nat (length l)).

(** The pointers of a branch to its children. *)
Definition slots (l : list Z) : node_info := NotLeaf (entry l 0) (entry l 1) (entry l 2).

(** The memory of a leaf holds its bytes; bytes of memory that has not been
    allocated are unknown. *)
Definition holds_bytes (capacity : Z) (memory : option memory_block) (bs : memory_block) : Prop :=
  match memory with
  | None => capacity = 0 /\ bs = replicate (length bs) None
  | Some m => take (length bs) m = bs /\ (capacity = 0 \/ capacity = len m)
  end.

Definition leaf_node (n : CFStorageNode) (rc : Z) (bs : memory_block) : Prop :=
  exists capacity memory cached, n = mkNode (len bs) rc false (Leaf capacity memory cached) /\ holds_bytes capacity memory bs.

(** The nodes represent a tree whose root has [rc] references. *)
Fixpoint rep (H : gmap Z CFStorageNode) (rc : Z) (t : tree) : Prop :=
  match t with
  | TLeaf p bs => exists n, H !! p = Some n /\ leaf_node n rc bs
  | TBranch p ks =>
      H !! p = Some (mkNode (len (bytes_of ks)) rc false (slots (map root ks))) /\
      (fix all ks := match ks with [] => True | k :: ks => rep H 1 k /\ all ks end) ks
  end.

Lemma rep_branch H rc p ks :
  rep H rc (TBranch p ks) <-> H !! p = Some (mkNode (len (bytes_of ks)) rc false (slots (map root ks))) /\ Forall (rep H 1) ks.
Proof.
  simpl. apply and_iff_compat_l. induction ks as [|k ks IH]; [by split|]. rewrite Forall_cons, IH. done.
Qed.

(** Two or three children, and leaves that are not empty, not too large and
    hold whole values. *)
Fixpoint shaped (cap vs : Z) (t : tree) : Prop :=
  match t with
  | TLeaf _ bs => 0 < len bs <= cap /\ (vs | len bs)
  | TBranch _ ks => (2 <= length ks <= 3)%nat /\ (fix all ks := match ks with [] => True | k :: ks => shaped cap vs k /\ all ks end) ks
  end.

Lemma shaped_branch cap vs p ks : shaped cap vs (TBranch p ks) <-> (2 <= length ks <= 3)%nat /\ Forall (shaped cap vs) ks.
Proof. simpl. apply and_iff_compat_l. induction ks as [|k ks IH]; [by split|]. rewrite Forall_cons, IH. done. Qed.

(** *** Lists of trees *)

Lemma bytes_of_app ks1 ks2 : bytes_of (ks1 ++ ks2) = bytes_of ks1 ++ bytes_of ks2.
Proof. by rewrite map_app, concat_app. Qed.

Lemma ptrs_of_app ks1 ks2 : ptrs_of (ks1 ++ ks2) = ptrs_of ks1 ++ ptrs_of ks2.
Proof. by rewrite map_app, concat_app. Qed.

Lemma root_in_ptrs t : root t ∈ ptrs t.
Proof. destruct t; simpl; left. Qed.

Lemma elem_of_ptrs_of q ks : q ∈ ptrs_of ks <-> exists k, k ∈ ks /\ q ∈ ptrs k.
Proof.
  induction ks as [|k ks IH]; simpl.
  - split; [by intros ?%elem_of_nil|]. by intros (k & ?%elem_of_nil & _).
  - rewrite elem_of_app, IH. split.
    + intros [H|(k' & H1 & H2)]; [exists k; by split; [left|]|exists k'; by split; [right|]].
    + intros (k' & [->|H1]%elem_of_cons & H2); [by left|right; by exists k'].
Qed.

Lemma shaped_pos cap vs t : shaped cap vs t -> 0 < len (bytes t).
Proof.
  induction t as [p bs|p ks IH] using tree_nested_ind; [by intros [[? ?] _]|]. rewrite shaped_branch. intros [Hl Hs].
  destruct ks as [|k ks]; [simpl in Hl; lia|]. inversion IH; inversion Hs; subst. cbn [bytes map concat]. rewrite length_app. specialize (H1 H5). lia.
Qed.

Lemma shaped_divide cap vs t : shaped cap vs t -> (vs | len (bytes t)).
Proof.
  induction t as [p bs|p ks IH] using tree_nested_ind; [by intros [_ ?]|]. rewrite shaped_branch. intros [_ Hs]. cbn [bytes].
  induction Hs as [|k ks Hk Hs IH2]; [by exists 0|]. inversion IH; subst. cbn [map concat]. rewrite length_app, Nat2Z.inj_add.
  apply Z.divide_add_r; auto.
Qed.

(** *** Frames *)

Lemma tree_rep_frame H H' rc t : (forall p, p ∈ ptrs t -> H' !! p = H !! p) -> rep H rc t -> rep H' rc t.
Proof.
  revert rc. induction t as [p bs|p ks IH] using tree_nested_ind; intros rc Hf.
  - intros (n & Hn & Hl). exists n. split; [|done]. rewrite Hf; [done|left].
  - rewrite !rep_branch. intros [Hp Hk]. split; [rewrite Hf; [done|left]|].
    assert (forall q, q ∈ ptrs_of ks -> H' !! q = H !! q) as Hf' by (intros; apply Hf; by right). clear Hf Hp.
    induction Hk as [|k ks Hk Hks IH2]; [constructor|]. inversion IH; subst. cbn [map concat] in Hf'. constructor.
    + apply H2; [|done]. intros q Hq. apply Hf'. rewrite elem_of_app. by left.
    + apply IH2; [done|]. intros q Hq. apply Hf'. rewrite elem_of_app. by right.
Qed.

Lemma trees_rep_frame H H' ks : (forall p, p ∈ ptrs_of ks -> H' !! p = H !! p) -> Forall (rep H 1) ks -> Forall (rep H' 1) ks.
Proof.
  intros Hf Hk. apply list.Forall_forall. intros k Hin. apply (tree_rep_frame H); [|by apply (list.Forall_forall (rep H 1) ks)].
  intros p Hp. apply Hf. apply elem_of_ptrs_of. by exists k.
Qed.

Lemma rep_lookup H rc t p : rep H rc t -> p ∈ ptrs t -> is_Some (H !! p).
Proof.
  revert rc. induction t as [q bs|q ks IH] using tree_nested_ind; intros rc.
  - intros (n & Hn & _) ->%list_elem_of_singleton. by eexists.
  - rewrite rep_branch. intros [Hq Hks] [->|Hin]%elem_of_cons; [by eexists|].
    apply elem_of_ptrs_of in Hin as (k & Hk & Hp). rewrite list.Forall_forall in IH, Hks. by apply (IH k Hk 1); [apply Hks|].
Qed.

Lemma rep_root H rc t : rep H rc t -> exists i, H !! root t = Some (mkNode (len (bytes t)) rc false i) /\
  isLeaf (mkNode 0 0 false i) = match t with TLeaf _ _ => true | TBranch _ _ => false end.
Proof.
  destruct t as [p bs|p ks].
  - intros (n & Hn & c & m & r & -> & _). eexists. by split.
  - rewrite rep_branch. intros [Hp _]. eexists. by split.
Qed.

(** ** Steps *)

Definition upd (w : world) (p : Z) (n : CFStorageNode) : world := with_nodes w (<[p := n]> (nodes w)).

(** The world after a node was created. *)
Definition created (w : world) (n : CFStorageNode) : world := mkWorld (<[next w := n]> (nodes w)) (next w + 1) (storage w).

Lemma bind_step {A B} (m : M A) (k : A -> M B) w x w' : m w = Some (x, w') -> bind m k w = k x w'.
Proof. unfold bind. by intros ->. Qed.

Lemma bind_assoc {A B C} (m : M A) (k : A -> M B) (h : B -> M C) w : bind (bind m k) h w = bind m (fun x => bind (k x) h) w.
Proof. unfold bind. by destruct (m w) as [[x w']|]. Qed.

Lemma bind_return {A B C} (m : M A) (f : A -> M B) (k : A -> M C) w x w' :
  (let! x := m in let! _ := f x in ret x) w = Some (x, w') -> (let! x := m in let! _ := f x in k x) w = k x w'.
Proof.
  unfold bind. destruct (m w) as [[y w1]|]; [|done]. destruct (f y w1) as [[z w2]|]; [|done]. by intros [= -> ->].
Qed.

Lemma get_node_ok p n w : nodes w !! p = Some n -> get_node p w = Some (n, w).
Proof. unfold get_node. by intros ->. Qed.

Lemma set_node_ok p n m w : nodes w !! p = Some m -> set_node p n w = Some (tt, upd w p n).
Proof. unfold set_node. by intros ->. Qed.

Lemma nodes_upd w p n : nodes (upd w p n) = <[p := n]> (nodes w).
Proof. done. Qed.

Lemma upd_id w p n : nodes w !! p = Some n -> upd w p n = w.
Proof. intros E. destruct w. unfold upd, with_nodes. simpl in *. by rewrite insert_id. Qed.

Lemma upd_upd w p n m : upd (upd w p n) p m = upd w p m.
Proof. unfold upd, with_nodes. simpl. by rewrite insert_insert_eq. Qed.

(** [find]: the node at an address in an updated heap. *)
Ltac find_node :=
  lazymatch goal with |- is_Some _ => eexists | _ => idtac end;
  unfold created, upd, with_nodes, with_storage; cbn [nodes storage next];
  repeat first [rewrite lookup_insert_eq | rewrite lookup_insert_ne by (assumption || lia)]; first [reflexivity | eassumption].

Ltac getn := erewrite (bind_step (get_node _)) by (apply get_node_ok; find_node); cbn [numBytes refCount isFrozen info].
Ltac setn := erewrite (bind_step (set_node _ _)) by (eapply set_node_ok; find_node).

(** *** Allocation of leaf memory *)

Lemma roundToPage_spec c : 0 <= c < 2 ^ 30 -> c <= roundToPage c.
Proof.
  intros Hc. unfold roundToPage, PAGE_SIZE. rewrite (swrap_id 32 c) by (unfold in_signed; lia).
  rewrite swrap_id by (unfold in_signed; lia). change (Z.lnot (4096 - 1)) with (-4096).
  replace (-4096) with (Z.lnot (Z.ones 12)) by reflexivity. rewrite <- Z.ldiff_land, Z.ldiff_ones_r by lia.
  rewrite Z.shiftr_div_pow2, Z.shiftl_mul_pow2 by lia. change (2 ^ 12) with 4096.
  pose proof (Z.div_mod (c + 4096 - 1) 4096). pose proof (Z.mod_pos_bound (c + 4096 - 1) 4096). lia.
Qed.

(** The size that is allocated for [c] bytes. *)
Definition rounded (max c : Z) : Z := if PAGE_LIMIT <? c then Z.min (roundToPage c) max else Z.quot (c + 63) 64 * 64.

Lemma rounded_spec max c : 0 < c <= max -> max < 2 ^ 30 -> c <= rounded max c.
Proof.
  intros Hc Hm. unfold rounded. destruct (Z.ltb_spec PAGE_LIMIT c).
  - pose proof (roundToPage_spec c). lia.
  - rewrite Z.quot_div_nonneg by lia. pose proof (Z.div_mod (c + 63) 64). pose proof (Z.mod_pos_bound (c + 63) 64). lia.
Qed.

Definition capacity_ok (capacity : Z) (memory : option memory_block) : Prop :=
  capacity = 0 \/ exists m, memory = Some m /\ capacity = len m.

Lemma holds_capacity capacity memory bs : holds_bytes capacity memory bs -> capacity_ok capacity memory.
Proof. unfold holds_bytes, capacity_ok. destruct memory as [m|]; [|by intros [-> _]; left]. intros [_ [->| ->]]; [by left|right; by exists m]. Qed.

Lemma take_resize {A} (x : A) c d (l : list A) : (c <= d)%nat -> take c (resize d x l) = resize c x l.
Proof. intros. apply take_resize_le. done. Qed.

(** [c] bytes can be used afterwards, and what was there is kept. *)
Lemma alloc_leaf_spec w p c compact nb rc fz capacity memory cr :
  nodes w !! p = Some (mkNode nb rc fz (Leaf capacity memory cr)) -> capacity_ok capacity memory ->
  0 < c <= maxLeafCapacity (storage w) -> maxLeafCapacity (storage w) < 2 ^ 30 ->
  exists capacity' m', __CFStorageAllocLeafNodeMemory p c compact w = Some (tt, upd w p (mkNode nb rc fz (Leaf capacity' (Some m') cr))) /\
    c <= len m' /\ (capacity' = 0 \/ capacity' = len m') /\ take (Z.to_nat c) m' = resize (Z.to_nat c) None (default [] memory).
Proof.
  intros Hp Hc Hr Hm. unfold __CFStorageAllocLeafNodeMemory. erewrite (bind_step get_storage) by reflexivity. getn.
  fold (rounded (maxLeafCapacity (storage w)) c). set (k := rounded _ c). assert (c <= k) as Hk by (by apply rounded_spec).
  assert (forall b : bool, b = true \/ b = false /\ capacity <> 0 /\ k <= capacity ->
    exists capacity' m', when b (set_node p (with_info (mkNode nb rc fz (Leaf capacity memory cr)) (Leaf k (reallocate memory k) cr))) w =
      Some (tt, upd w p (mkNode nb rc fz (Leaf capacity' (Some m') cr))) /\ c <= len m' /\ (capacity' = 0 \/ capacity' = len m') /\
      take (Z.to_nat c) m' = resize (Z.to_nat c) None (default [] memory)) as Hgo.
  { intros b [->|(-> & H0 & Hle)].
    - exists k, (resize (Z.to_nat k) None (default [] memory)). unfold when, reallocate. rewrite (proj2 (Z.eqb_neq k 0)) by lia.
      erewrite set_node_ok by exact Hp. split; [done|]. rewrite length_resize. split_and!; [lia|right; lia|apply take_resize_le; lia].
    - destruct Hc as [->|(m & -> & ->)]; [done|]. exists (len m), m. rewrite (upd_id w p) by done. simpl.
      split_and!; [done|lia|by right|]. by rewrite resize_le by lia. }
  apply Hgo. destruct compact.
  - destruct (Z.eqb_spec k capacity) as [<-|]; [right; split; [done|lia]|by left].
  - destruct (Z.ltb_spec capacity k); [by left|right; split; [done|lia]].
Qed.

Lemma resize_holds capacity memory bs m' c :
  holds_bytes capacity memory bs -> (length bs <= c)%nat -> take c m' = resize c None (default [] memory) -> take (length bs) m' = bs.
Proof.
  intros Hh Hc E. rewrite <- (Nat.min_l (length bs) c) by done. rewrite <- take_take, E, take_resize by done.
  unfold holds_bytes in Hh. destruct memory as [m|]; simpl.
  - destruct Hh as [Hh _]. rewrite resize_le; [done|]. rewrite <- Hh at 1. rewrite length_take. lia.
  - destruct Hh as [_ Hh]. by rewrite resize_nil, <- Hh.
Qed.

Lemma copy_in_ok w p d src so n nb rc fz capacity m cr :
  nodes w !! p = Some (mkNode nb rc fz (Leaf capacity (Some m) cr)) -> 0 <= d -> 0 <= so -> 0 <= n -> d + n <= len m -> so + n <= len src ->
  copy_in (Some src) so p d n w =
    Some (tt, upd w p (mkNode nb rc fz (Leaf capacity (Some (take (Z.to_nat d) m ++ take (Z.to_nat n) (drop (Z.to_nat so) src) ++ drop (Z.to_nat (d + n)) m)) cr))).
Proof.
  intros Hp Hd Hso Hn Hdn Hs. unfold copy_in. destruct (Z.eqb_spec n 0) as [->|Hne].
  - rewrite take_0, Z.add_0_r. simpl. rewrite take_drop, upd_id; done.
  - getn. rewrite memmove_ok by lia. by erewrite set_node_ok.
Qed.

Definition set_cacheNode (s : __CFStorage) (p : Z) : __CFStorage :=
  mkStorage (valueSize s) (byteToValueShifter s) (alwaysFrozen s) p (maxLeafCapacity s) (rootNode s).

Lemma set_cache_ok w p loc nb rc fz capacity memory cr :
  nodes w !! p = Some (mkNode nb rc fz (Leaf capacity memory cr)) -> p <> 0 ->
  __CFStorageSetCache p loc w =
    Some (tt, with_storage (upd w p (mkNode nb rc fz (Leaf capacity memory (__CFStorageConvertBytesToValueRange (storage w) loc nb))))
      (set_cacheNode (storage w) p)).
Proof.
  intros Hp Hne. unfold __CFStorageSetCache. erewrite (bind_step get_storage) by reflexivity.
  rewrite (proj2 (Z.eqb_neq p 0)) by done. cbn [negb when].
  erewrite bind_step; [|getn; eapply set_node_ok; exact Hp]. reflexivity.
Qed.

Lemma create_node_ok w leaf n :
  alwaysFrozen (storage w) = false ->
  __CFStorageCreateNode leaf n w = Some (next w, created w (mkNode n 1 false (if leaf then Leaf 0 None (CFRangeMake 0 0) else NotLeaf 0 0 0))).
Proof. intros Hf. unfold __CFStorageCreateNode. erewrite (bind_step get_storage) by reflexivity. by rewrite Hf. Qed.

(** ** Worlds *)

Definition winv (w : world) : Prop := 0 < next w /\ forall p n, nodes w !! p = Some n -> 0 < p < next w.

(** Leaves of a list of trees with their place. *)
Inductive leaf_at : tree -> Z -> Z -> memory_block -> Prop :=
  | at_leaf p bs : leaf_at (TLeaf p bs) p 0 bs
  | at_branch p ks1 k ks2 q off bs : leaf_at k q off bs -> leaf_at (TBranch p (ks1 ++ k :: ks2)) q (len (bytes_of ks1) + off) bs.

Definition leaf_in (ts : list tree) (q off : Z) (bs : memory_block) : Prop :=
  exists ks1 k ks2 o, ts = ks1 ++ k :: ks2 /\ leaf_at k q o bs /\ off = len (bytes_of ks1) + o.

(** The size of a value and the most bytes a leaf may have. *)
Class Layout := mkLayout { cap : Z; vs : Z; vs_pos : 0 < vs; cap_range : 0 < cap < 2 ^ 30; cap_divide : (vs | cap) }.

Section Storage.
Context {L : Layout}.
Let Hvs : 0 < vs := vs_pos.
Let Hcap : 0 < cap < 2 ^ 30 := cap_range.
Let Hdiv : (vs | cap) := cap_divide.

(** A storage with values of [vs] bytes and leaves of up to [cap] bytes. *)
Record settings (s : __CFStorage) : Prop := mkSettings {
  set_frozen : alwaysFrozen s = false;
  set_cap : maxLeafCapacity s = cap;
  set_valueSize : valueSize s = vs;
  set_to_value : forall b, 0 <= b < 2 ^ 62 -> __CFStorageConvertByteToValue s b = b / vs;
  set_to_byte : forall v, 0 <= v -> v * vs < 2 ^ 62 -> __CFStorageConvertValueToByte s v = v * vs
}.

Lemma settings_cache s p : settings s -> settings (set_cacheNode s p).
Proof. by intros []. Qed.

(** The nodes outside [P] are as before, and only the cache has changed. *)
Record framed (P : list Z) (w w' : world) : Prop := mkFramed {
  fr_inv : winv w';
  fr_next : next w <= next w';
  fr_nodes : forall p, p < next w -> p ∉ P -> nodes w' !! p = nodes w !! p;
  fr_storage : storage w' = set_cacheNode (storage w) (cacheNode (storage w'))
}.

Lemma framed_refl P w : winv w -> framed P w w.
Proof. intros Hw. constructor; [done|lia|done|]. by destruct w as [? ? []]. Qed.

Lemma framed_trans P w w1 w2 : framed P w w1 -> framed P w1 w2 -> framed P w w2.
Proof.
  intros [I1 N1 F1 S1] [I2 N2 F2 S2]. constructor; [done|lia| |].
  - intros p Hp HP. rewrite F2 by (done || lia). by apply F1.
  - rewrite S2, S1. done.
Qed.

Lemma framed_mono P Q w w' : P ⊆ Q -> framed P w w' -> framed Q w w'.
Proof. intros HPQ [I N F S]. constructor; try done. intros p Hp HQ. apply F; [done|]. intros Hin. by apply HQ, HPQ. Qed.

Lemma framed_upd P w p n : winv w -> is_Some (nodes w !! p) -> p ∈ P -> framed P w (upd w p n).
Proof.
  intros [Hn Hw] [m Hm] HP. constructor; [split; [done|]|simpl; lia| |by destruct w as [? ? []]].
  - intros q k. unfold upd. simpl. destruct (decide (p = q)) as [->|]; simplify_map_eq; [intros _; by apply (Hw q m)|apply Hw].
  - intros q Hq HQ. unfold upd. simpl. rewrite lookup_insert_ne by (by intros ->). done.
Qed.

Lemma framed_new P w n : winv w -> framed P w (created w n).
Proof.
  intros [Hn Hw]. constructor; [split; [simpl; lia|]|simpl; lia| |by destruct w as [? ? []]].
  - intros q k. simpl. destruct (decide (next w = q)) as [<-|]; simplify_map_eq; [lia|]. intros Hk%Hw. lia.
  - intros q Hq HQ. simpl. rewrite lookup_insert_ne by lia. done.
Qed.

Lemma framed_storage P w c : winv w -> framed P w (with_storage w (set_cacheNode (storage w) c)).
Proof. intros Hw. constructor; done || simpl; lia. Qed.

Lemma framed_settings P w w' : framed P w w' -> settings (storage w) -> settings (storage w').
Proof. intros [_ _ _ ->]. apply settings_cache. Qed.

(** A gap of [n] bytes at [p]. *)
Definition gap (l : memory_block) (p n : Z) (l' : memory_block) : Prop :=
  exists x, len x = n /\ l' = take (Z.to_nat p) l ++ x ++ drop (Z.to_nat p) l.

(** The cached leaf is one of the list of trees that begins at byte [base]. *)
Definition cached (w : world) (base : Z) (ts : list tree) : Prop :=
  exists off bs n capacity memory v,
    leaf_in ts (cacheNode (storage w)) off bs /\ nodes w !! cacheNode (storage w) = Some n /\
    info n = Leaf capacity memory (CFRangeMake ((base + off) / vs) v) /\ (vs | base + off) /\ 0 <= v /\ v * vs <= len bs.

(** What an insertion of [size] bytes at [byteNum] makes of a tree that begins
    at byte [base]: the tree has grown, or there is a new one behind it. *)
Definition inserted (w : world) (t : tree) (rc byteNum size base : Z) (r : CFStorageDoubleNodeReturn) (w' : world) : Prop :=
  exists t' ss, (length ss <= 1)%nat /\ root t' = root t /\ r = CFStorageDoubleNodeReturnMake (root t) (entry (map root ss) 0) /\
    rep (nodes w') rc t' /\ Forall (rep (nodes w') 1) ss /\ Forall (shaped cap vs) (t' :: ss) /\
    NoDup (ptrs_of (t' :: ss)) /\ (forall q, q ∈ ptrs_of (t' :: ss) -> q ∈ ptrs t \/ next w <= q) /\
    gap (bytes t) byteNum size (bytes_of (t' :: ss)) /\ framed (ptrs t) w w' /\ cached w' base (t' :: ss) /\
    (forall q, q ∈ ptrs t \/ next w <= q -> is_Some (nodes w' !! q) -> q ∈ ptrs_of (t' :: ss)).

Lemma convert_range s loc n :
  settings s -> 0 <= loc -> 0 <= n -> loc < 2 ^ 62 -> n < 2 ^ 62 -> __CFStorageConvertBytesToValueRange s loc n = CFRangeMake (loc / vs) (n / vs).
Proof. intros Hs ????. unfold __CFStorageConvertBytesToValueRange. by rewrite !(set_to_value _ Hs) by lia. Qed.

(** The cache on a leaf [q] of the result that begins at [base + off]. *)
Lemma cached_leaf w base ts q off bs n capacity memory k :
  leaf_in ts q off bs -> cacheNode (storage w) = q -> nodes w !! q = Some n ->
  info n = Leaf capacity memory (CFRangeMake ((base + off) / vs) (k / vs)) -> (vs | base + off) -> 0 <= k <= len bs -> cached w base ts.
Proof.
  intros Hl <- Hn Hi Hd Hk. exists off, bs, n, capacity, memory, (k / vs). split_and!; try done.
  - apply Z.div_pos; lia.
  - pose proof (Z.mul_div_le k vs). lia.
Qed.

Lemma leaf_in_1 q bs : leaf_in [TLeaf q bs] q 0 bs.
Proof. exists [], (TLeaf q bs), [], 0. split_and!; [done|constructor|done]. Qed.

Lemma leaf_in_2l q bs t : leaf_in [TLeaf q bs; t] q 0 bs.
Proof. exists [], (TLeaf q bs), [t], 0. split_and!; [done|constructor|done]. Qed.

Lemma leaf_in_2r q bs t : leaf_in [t; TLeaf q bs] q (len (bytes t)) bs.
Proof. exists [t], (TLeaf q bs), [], 0. split_and!; [done|constructor|]. simpl. rewrite app_nil_r. lia. Qed.

(** *** Chains of updates *)

Lemma framed_upd_step P w w1 q n : framed P w w1 -> is_Some (nodes w1 !! q) -> q ∈ P \/ next w <= q -> framed P w (upd w1 q n).
Proof.
  intros [I N F S] Hq HP. destruct (framed_upd [q] w1 q n I Hq ltac:(left)) as [I2 N2 F2 S2]. constructor; [done|lia| |].
  - intros k Hk HkP. rewrite F2; [by apply F|lia|]. intros ->%list_elem_of_singleton. destruct HP; [done|lia].
  - rewrite S2, S. done.
Qed.

Lemma framed_new_step P w w1 n : framed P w w1 -> framed P w (created w1 n).
Proof. intros Hf. apply (framed_trans _ _ w1); [done|]. apply framed_new, Hf. Qed.

Lemma framed_storage_step P w w1 s : framed P w w1 -> s = set_cacheNode (storage w1) (cacheNode s) -> framed P w (with_storage w1 s).
Proof. intros Hf ->. apply (framed_trans _ _ w1); [done|]. apply framed_storage, Hf. Qed.

Lemma winv_lt w p n : winv w -> nodes w !! p = Some n -> 0 < p < next w.
Proof. intros [_ Hw]. apply Hw. Qed.

(** ** Branches *)

Lemma slots_two a b ks : slots (map root (a :: b :: ks)) = NotLeaf (root a) (root b) (entry (map root ks) 0).
Proof. done. Qed.

Lemma find_child_spec w p n ks byteNum (ins : bool) :
  nodes w !! p = Some n -> info n = slots (map root ks) -> Forall (rep (nodes w) 1) ks ->
  Forall (fun k => 0 < len (bytes k)) ks -> (2 <= length ks <= 3)%nat -> 0 <= byteNum ->
  (if ins then byteNum <= len (bytes_of ks) else byteNum < len (bytes_of ks)) ->
  exists ks1 k ks2, ks = ks1 ++ k :: ks2 /\
    __CFStorageFindChild p byteNum ins w = Some ((root k, Z.of_nat (length ks1), byteNum - len (bytes_of ks1)), w) /\
    0 <= byteNum - len (bytes_of ks1) /\
    (if ins then byteNum - len (bytes_of ks1) <= len (bytes k) else byteNum - len (bytes_of ks1) < len (bytes k)).
Proof.
  intros Hp Hi Hr Hpos Hl H0 Hb. unfold __CFStorageFindChild. erewrite (bind_step (get_node p)) by (by apply get_node_ok).
  destruct ks as [|a [|b ks]]; [simpl in Hl; lia..|]. unfold children_of. rewrite Hi, slots_two. erewrite (bind_step (ret _)) by reflexivity.
  inversion Hr as [|? ? Ra Hr2]; inversion Hr2 as [|? ? Rb Hr3]; subst.
  inversion Hpos as [|? ? Pa Hpos2]; inversion Hpos2 as [|? ? Pb Hpos3]; subst. cbn [map concat] in Hb |- *.
  destruct (rep_root _ _ _ Ra) as (ia & Ea & _). destruct (rep_root _ _ _ Rb) as (ib & Eb & _).
  erewrite (bind_step (get_node (root a))) by (apply get_node_ok; exact Ea). cbn [numBytes]. rewrite !length_app in Hb.
  set (b0 := if ins then byteNum - 1 else byteNum) in *. assert (b0 < len (bytes a) + (len (bytes b) + len (bytes_of ks))) by (unfold b0; destruct ins; lia).
  destruct (Z.ltb_spec b0 (len (bytes a))).
  { exists [], a, (b :: ks). split; [done|]. erewrite (bind_step (ret _)) by reflexivity. simpl. rewrite Z.sub_0_r.
    split_and!; [by unfold b0; destruct ins; rewrite ?Z.sub_add|lia|unfold b0 in *; destruct ins; lia]. }
  rewrite bind_assoc. erewrite (bind_step (get_node (root b))) by (apply get_node_ok; exact Eb). cbn [numBytes].
  destruct (Z.ltb_spec (b0 - len (bytes a)) (len (bytes b))); erewrite (bind_step (ret _)) by reflexivity.
  - exists [a], b, ks. split; [done|]. cbn [map concat length]. rewrite app_nil_r.
    split_and!; [|unfold b0 in *; destruct ins; lia|unfold b0 in *; destruct ins; lia].
    unfold ret. do 3 f_equal. unfold b0. destruct ins; lia.
  - destruct ks as [|c ks]; [unfold b0 in *; simpl in *; destruct ins; lia|]. destruct ks; [|simpl in Hl; lia].
    exists [a; b], c, []. split; [done|]. cbn [map concat length]. rewrite app_nil_r, length_app in *. cbn [map concat] in *. rewrite app_nil_r in *.
    split_and!; [|unfold b0 in *; destruct ins; lia|unfold b0 in *; destruct ins; lia].
    unfold ret. do 3 f_equal. unfold b0. destruct ins; lia.
Qed.

(** *** Replacing a child by what an insertion left of it *)

Lemma gap_inside l1 l l2 p n l' : gap l p n l' -> 0 <= p <= len l -> gap (l1 ++ l ++ l2) (len l1 + p) n (l1 ++ l' ++ l2).
Proof.
  intros (x & Hx & ->) Hp. exists x. split; [done|]. replace (Z.to_nat (len l1 + p)) with (length l1 + Z.to_nat p)%nat by lia.
  rewrite take_app_add, drop_app_add. rewrite take_app_le, drop_app_le by lia. by rewrite <- !app_assoc.
Qed.

Lemma gap_length l p n l' : gap l p n l' -> 0 <= p <= len l -> len l' = len l + n.
Proof. intros (x & Hx & ->) Hp. rewrite !length_app, length_take, length_drop. lia. Qed.

Lemma leaf_in_middle ks1 ts ks2 q off bs : leaf_in ts q off bs -> leaf_in (ks1 ++ ts ++ ks2) q (len (bytes_of ks1) + off) bs.
Proof.
  intros (a & k & b & o & -> & Hl & ->). exists (ks1 ++ a), k, (b ++ ks2), o. split_and!; [by rewrite <- !app_assoc|done|].
  rewrite bytes_of_app, length_app. lia.
Qed.

Lemma leaf_in_branch p ks q off bs : leaf_in ks q off bs -> leaf_in [TBranch p ks] q off bs.
Proof.
  intros (a & k & b & o & -> & Hl & ->). exists [], (TBranch p (a ++ k :: b)), [], (len (bytes_of a) + o). split_and!; [done|by constructor|done].
Qed.

Lemma leaf_in_branches p r ks1 ks2 q off bs : leaf_in (ks1 ++ ks2) q off bs -> leaf_in [TBranch p ks1; TBranch r ks2] q off bs.
Proof.
  intros (a & k & b & o & E & Hl & ->). destruct (decide (length a < length ks1)%nat) as [Hlt|Hge].
  - assert (exists b1, ks1 = a ++ k :: b1) as [b1 ->].
    { apply app_eq_app in E as (d & [[-> E]|[-> E]]); [|rewrite length_app in Hlt; lia]. destruct d as [|k' d]; [rewrite app_nil_r in Hlt; lia|].
      injection E as -> E. by exists d. }
    exists [], (TBranch p (a ++ k :: b1)), [TBranch r ks2], (len (bytes_of a) + o). split_and!; [done|by constructor|done].
  - assert (exists a2, a = ks1 ++ a2 /\ ks2 = a2 ++ k :: b) as (a2 & -> & ->).
    { apply app_eq_app in E as (d & [[-> E]|[-> E]]); [|by exists d]. destruct d; [|rewrite length_app in Hge; simpl in Hge; lia].
      exists []. rewrite !app_nil_r. by split. }
    exists [TBranch p ks1], (TBranch r (a2 ++ k :: b)), [], (len (bytes_of a2) + o). split_and!; [done|by constructor|].
    rewrite bytes_of_app, length_app. simpl. rewrite app_nil_r. lia.
Qed.

Lemma leaf_at_ptr t q off bs : leaf_at t q off bs -> q ∈ ptrs t.
Proof.
  induction 1 as [|p ks1 k ks2 q off bs _ IH]; simpl; [left|]. right. rewrite ptrs_of_app. simpl. rewrite !elem_of_app. auto.
Qed.

Lemma leaf_in_ptr ts q off bs : leaf_in ts q off bs -> q ∈ ptrs_of ts.
Proof. intros (a & k & b & o & -> & Hl%leaf_at_ptr & _). rewrite ptrs_of_app. simpl. rewrite !elem_of_app. auto. Qed.

(** The cache survives changes of other nodes. *)
Lemma cached_move w w' base base' ts ts' :
  cached w base ts -> storage w' = storage w -> (forall q, q ∈ ptrs_of ts -> nodes w' !! q = nodes w !! q) ->
  (forall q off bs, leaf_in ts q off bs -> leaf_in ts' q (base - base' + off) bs) -> cached w' base' ts'.
Proof.
  intros (off & bs & n & c & m & v & Hl & Hn & Hi & Hd & Hv & Hvb) Hst Hf Hm. exists (base - base' + off), bs, n, c, m, v. rewrite Hst.
  replace (base' + (base - base' + off)) with (base + off) by lia. split_and!; try done; [by apply Hm|].
  rewrite Hf; [done|by apply leaf_in_ptr in Hl].
Qed.

(** *** Fuel *)

Lemma height_child k ks : k ∈ ks -> (height k <= foldr Nat.max 0 (map height ks))%nat.
Proof. induction 1 as [k ks|k a ks _ IH]; simpl; lia. Qed.

Lemma height_ptrs t : (height t <= length (ptrs t))%nat.
Proof.
  induction t as [p bs|p ks IH] using tree_nested_ind; simpl; [lia|]. apply le_n_S.
  induction IH as [|k ks Hk _ IH2]; simpl; [lia|]. rewrite length_app. lia.
Qed.

Lemma nodup_size (m : gmap Z CFStorageNode) (l : list Z) : NoDup l -> (forall p, p ∈ l -> is_Some (m !! p)) -> (length l <= size m)%nat.
Proof.
  intros Hl Hin. rewrite <- (size_dom (D := gset Z)), <- (size_list_to_set (C := gset Z) l Hl). apply subseteq_size.
  intros p Hp%elem_of_list_to_set. by apply elem_of_dom, Hin.
Qed.

(** The depth is enough for every tree in the heap. *)
Lemma depth_enough w rc t : rep (nodes w) rc t -> NoDup (ptrs t) -> (height t <= size (nodes w))%nat.
Proof. intros Hr Hn. pose proof (height_ptrs t). pose proof (nodup_size (nodes w) (ptrs t) Hn (fun p => rep_lookup _ _ _ p Hr)). lia. Qed.

Definition rshaped (t : tree) : Prop := shaped cap vs t \/ t = TLeaf (root t) [].

(** ** Storages *)

Definition cache_ok (w : world) (ts : list tree) : Prop := cacheNode (storage w) = 0 \/ cached w 0 ts.

(** The storage at hand shares nothing, and [t] is its tree. *)
Record storage_ok (w : world) (t : tree) : Prop := mkStorageOk {
  so_inv : winv w;
  so_settings : settings (storage w);
  so_root : root t = rootNode (storage w);
  so_rep : rep (nodes w) 0 t;
  so_nodup : NoDup (ptrs t);
  so_shaped : rshaped t;
  so_cache : cache_ok w [t]
}.

(** A step of the storage from one tree to another. *)
Record moved (w : world) (t : tree) (w' : world) (t' : tree) : Prop := mkMoved {
  mv_ok : storage_ok w' t';
  mv_framed : framed (ptrs t) w w';
  mv_ptrs : forall q, q ∈ ptrs t' -> q ∈ ptrs t \/ next w <= q;
  mv_exact : forall q, q ∈ ptrs t \/ next w <= q -> is_Some (nodes w' !! q) -> q ∈ ptrs t'
}.

Lemma moved_refl w t : storage_ok w t -> moved w t w t.
Proof.
  intros H. constructor; [done|apply framed_refl, H|by left|]. intros q [?|Hq] [n Hn]; [done|]. pose proof (winv_lt _ _ _ (so_inv _ _ H) Hn). lia.
Qed.

Lemma framed_cover P Q w w1 w2 : framed P w w1 -> framed Q w1 w2 -> (forall q, q ∈ Q -> q ∈ P \/ next w <= q) -> framed P w w2.
Proof.
  intros [I1 N1 F1 S1] [I2 N2 F2 S2] HQ. constructor; [done|lia| |rewrite S2, S1; done].
  intros q Hq HP. rewrite F2; [by apply F1|lia|]. intros Hin. destruct (HQ q Hin); [done|lia].
Qed.

Lemma moved_trans w t w1 t1 w2 t2 : moved w t w1 t1 -> moved w1 t1 w2 t2 -> moved w t w2 t2.
Proof.
  intros [O1 F1 P1 X1] [O2 F2 P2 X2]. pose proof (fr_next _ _ _ F1). constructor; [done|by eapply framed_cover| |].
  - intros q [Hq|Hq]%P2; [by apply P1|]. right. lia.
  - intros q Hq Hs. destruct (decide (next w1 <= q)) as [Hle|Hlt]; [by apply X2; [right|]|].
    destruct (decide (q ∈ ptrs t1)) as [Hin|Hni]; [by apply X2; [left|]|].
    rewrite (fr_nodes _ _ _ F2) in Hs by (done || lia). by destruct Hni; apply X1.
Qed.

(** The same tree with its root elsewhere. *)
Definition reroot (h : Z) (t : tree) : tree := match t with TLeaf _ bs => TLeaf h bs | TBranch _ ks => TBranch h ks end.

Lemma reroot_bytes h t : bytes (reroot h t) = bytes t.
Proof. by destruct t. Qed.

Lemma reroot_shaped h t : shaped cap vs t -> shaped cap vs (reroot h t).
Proof. by destruct t. Qed.

Lemma reroot_ptrs h t q : q ∈ ptrs (reroot h t) -> q = h \/ q ∈ ptrs t /\ (NoDup (ptrs t) -> q <> root t).
Proof.
  destruct t as [p bs|p ks]; simpl; [intros ->%list_elem_of_singleton; by left|].
  intros [->|Hq]%elem_of_cons; [by left|]. right. split; [by right|]. intros Hn ->. by apply NoDup_cons in Hn as [Hn _].
Qed.

Lemma ptrs_reroot h t q : q ∈ ptrs t -> q <> root t -> q ∈ ptrs (reroot h t).
Proof. destruct t as [p bs|p ks]; simpl; [by intros ->%list_elem_of_singleton|]. intros [->|Hq]%elem_of_cons; [done|]. by right. Qed.

Lemma reroot_nodup h t : NoDup (ptrs t) -> h ∉ ptrs t -> NoDup (ptrs (reroot h t)).
Proof.
  destruct t as [p bs|p ks]; simpl; [intros; apply NoDup_singleton|]. intros [_ Hn]%NoDup_cons Hh. apply NoDup_cons. split; [|done].
  intros Hin. apply Hh. by right.
Qed.

End Storage.
