(* ===== verification/CFStorageInsert.v ===== *)
(** * CFStorage: insertion

    An insertion into a tree opens a gap of the size asked for, wherever the
    place is: in a leaf with room, at either end of a full leaf, in its middle;
    branches take a new child or are split, and the root grows. *)

From S2P Require Import Prelude CFInternal CFStorage CFStorageTree.
From stdpp Require Import base list numbers option gmap.
From Stdlib Require Import ZArith Lia.
Open Scope Z_scope.
Open Scope cf_scope.

Section Storage.
Context {L : Layout}.
Let Hvs : 0 < vs := vs_pos.
Let Hcap : 0 < cap < 2 ^ 30 := cap_range.
Let Hdiv : (vs | cap) := cap_divide.
(** An insertion into a leaf that leaves one leaf or two. *)
Lemma inserted_one w w' p bs rc byteNum size base b1 n1 :
  framed [p] w w' -> next w' = next w -> nodes w' !! p = Some n1 -> leaf_node n1 rc b1 -> 0 < len b1 <= cap -> (vs | len b1) ->
  gap bs byteNum size b1 -> cached w' base [TLeaf p b1] ->
  inserted w (TLeaf p bs) rc byteNum size base (CFStorageDoubleNodeReturnMake p 0) w'.
Proof.
  intros Hf Hnx H1 L1 C1 D1 Hg Hc. exists (TLeaf p b1), []. simpl. rewrite app_nil_r.
  split_and!; try done; [lia|by exists n1|by constructor; [split|]|constructor; [by intros ?%elem_of_nil|constructor]| |].
  - intros q ->%list_elem_of_singleton. left. left.
  - intros q [?|Hq] [n Hn]; [done|]. pose proof (winv_lt _ _ _ (fr_inv _ _ _ Hf) Hn). lia.
Qed.

Lemma inserted_two w w' p bs rc byteNum size base q b1 b2 n1 n2 :
  framed [p] w w' -> next w' = next w + 1 -> p < next w -> q = next w -> nodes w' !! p = Some n1 -> leaf_node n1 rc b1 -> nodes w' !! q = Some n2 -> leaf_node n2 1 b2 ->
  0 < len b1 <= cap -> (vs | len b1) -> 0 < len b2 <= cap -> (vs | len b2) ->
  gap bs byteNum size (b1 ++ b2) -> cached w' base [TLeaf p b1; TLeaf q b2] ->
  inserted w (TLeaf p bs) rc byteNum size base (CFStorageDoubleNodeReturnMake p q) w'.
Proof.
  intros Hf Hnx Hp Hq H1 L1 H2 L2 C1 D1 C2 D2 Hg Hc. exists (TLeaf p b1), [TLeaf q b2]. simpl. rewrite app_nil_r.
  split_and!; try done.
  - by exists n1.
  - constructor; [by exists n2|constructor].
  - constructor; [by split|]. constructor; [by split|constructor].
  - apply NoDup_cons. split; [|apply NoDup_singleton]. intros ->%list_elem_of_singleton. lia.
  - intros k [->|[->|?%elem_of_nil]%elem_of_cons]%elem_of_cons; [left; left|right; lia|done].
  - intros k [->%list_elem_of_singleton|Hk] [n Hn]; [left|]. pose proof (winv_lt _ _ _ (fr_inv _ _ _ Hf) Hn). right. apply list_elem_of_singleton. lia.
Qed.

Section LeafInsertion.
Context (w : world) (p rc byteNum size base : Z) (bs : memory_block) (capacity : Z) (memory : option memory_block) (cr : CFRange).
Context (Hw : winv w) (Hs : settings (storage w)).
Context (Hp : nodes w !! p = Some (mkNode (len bs) rc false (Leaf capacity memory cr))) (Hh : holds_bytes capacity memory bs).
Context (Hbs : len bs <= cap) (Dbs : (vs | len bs)) (Hb : 0 <= byteNum <= len bs) (Db : (vs | byteNum)).
Context (Hsize : 0 < size <= cap) (Dsize : (vs | size)) (Hbase : 0 <= base) (Dbase : (vs | base)) (Hmax : base + len bs + size < 2 ^ 62).

(** Behind the bytes of a full leaf. *)
Lemma insert_leaf_end :
  cap < size + len bs -> byteNum = len bs ->
  exists w', (let! newNode := __CFStorageCreateNode true size in
              let! _ := __CFStorageSetCache newNode (base + byteNum) in ret newNode) w = Some (next w, w') /\
    inserted w (TLeaf p bs) rc byteNum size base (CFStorageDoubleNodeReturnMake p (next w)) w'.
Proof.
  intros Hfull ->. pose proof (winv_lt w p _ Hw Hp) as Hlt'. erewrite (bind_step (__CFStorageCreateNode _ _)) by (apply create_node_ok, Hs).
  erewrite bind_step by (eapply set_cache_ok; [find_node|lia]). eexists. split; [reflexivity|].
  rewrite (convert_range (storage w)) by (done || lia).
  eapply (inserted_two _ _ _ _ _ _ _ _ (next w) bs (replicate (Z.to_nat size) None)); try done; try lia.
  - apply framed_storage_step; [|done]. apply framed_upd_step; [by apply framed_new|find_node|right; lia].
  - simpl. rewrite lookup_insert_ne, lookup_insert_ne by lia. exact Hp.
  - by exists capacity, memory, cr.
  - find_node.
  - exists 0, None, (CFRangeMake ((base + len bs) / vs) (size / vs)). simpl. rewrite length_replicate, Z2Nat.id by lia. done.
  - rewrite length_replicate. lia.
  - rewrite length_replicate, Z2Nat.id by lia. done.
  - exists (replicate (Z.to_nat size) None). rewrite length_replicate. split; [lia|]. by rewrite take_ge, drop_ge, app_nil_r by lia.
  - eapply (cached_leaf _ _ _ (next w) (len bs)); [apply leaf_in_2r|done|find_node|done|by apply Z.divide_add_r|].
    rewrite length_replicate. lia.
Qed.

(** In front of the bytes of a full leaf: the new node takes them over. *)
Lemma insert_leaf_front :
  cap < size + len bs -> byteNum = 0 ->
  exists w', (let! newNode := __CFStorageCreateNode true 0 in
              let! m := get_node newNode in
              let! _ :=
                (let! _ := set_node newNode (mkNode (len bs) (refCount m) (isFrozen m) (Leaf capacity memory (CFRangeMake 0 0))) in
                 set_node p (mkNode size rc false (Leaf 0 None cr))) in
              let! _ := __CFStorageSetCache p (base + byteNum) in ret newNode) w = Some (next w, w') /\
    inserted w (TLeaf p bs) rc byteNum size base (CFStorageDoubleNodeReturnMake p (next w)) w'.
Proof.
  intros Hfull ->. pose proof (winv_lt w p _ Hw Hp) as Hlt. erewrite (bind_step (__CFStorageCreateNode _ _)) by (apply create_node_ok, Hs).
  getn. rewrite bind_assoc. setn. erewrite (bind_step (set_node p _)) by (eapply set_node_ok; simpl; rewrite !lookup_insert_ne by lia; exact Hp).
  erewrite bind_step by (eapply set_cache_ok; [find_node|lia]). eexists. split; [reflexivity|]. rewrite Z.add_0_r.
  simpl storage. rewrite (convert_range (storage w)) by (done || lia).
  eapply (inserted_two _ _ _ _ _ _ _ _ (next w) (replicate (Z.to_nat size) None) bs); try done; try lia.
  - apply framed_storage_step; [|done]. apply framed_upd_step; [apply framed_upd_step; [apply framed_upd_step; [by apply framed_new|find_node|right; lia]|..]|..].
    + simpl. rewrite !lookup_insert_ne by lia. by eexists.
    + left. left.
    + find_node.
    + left. left.
  - find_node.
  - exists 0, None, (CFRangeMake (base / vs) (size / vs)). simpl. rewrite length_replicate, Z2Nat.id by lia. done.
  - simpl. rewrite !(lookup_insert_ne _ p) by lia. find_node.
  - by exists capacity, memory, (CFRangeMake 0 0).
  - rewrite length_replicate. lia.
  - rewrite length_replicate, Z2Nat.id by lia. done.
  - exists (replicate (Z.to_nat size) None). rewrite length_replicate. split; [lia|]. done.
  - eapply (cached_leaf _ _ _ p 0); [apply leaf_in_2l|done|find_node|by rewrite Z.add_0_r|by rewrite Z.add_0_r|].
    rewrite length_replicate. lia.
Qed.

(** The bytes behind [byteNum] move to a new leaf of [k] bytes, at [d], and the
    leaf itself gets room for [c] bytes. *)
Lemma split_memory k d c :
  0 <= d -> d + (len bs - byteNum) = k -> 0 < k <= cap -> byteNum <= c <= cap -> 0 < c ->
  exists cap1 mem1 x1 cap2 mem2 x2,
    (let! newNode := __CFStorageCreateNode true k in
     let! _ := match memory with
               | None => ret tt
               | Some memory =>
                   let! _ := __CFStorageAllocLeafNodeMemory newNode k false in
                   let! _ := copy_in (Some memory) byteNum newNode d (len bs - byteNum) in
                   __CFStorageAllocLeafNodeMemory p c false
               end in ret newNode) w =
      Some (next w, upd (upd (created w (mkNode k 1 false (Leaf 0 None (CFRangeMake 0 0)))) (next w)
                           (mkNode k 1 false (Leaf cap2 mem2 (CFRangeMake 0 0)))) p (mkNode (len bs) rc false (Leaf cap1 mem1 cr))) /\
    len x1 = c - byteNum /\ holds_bytes cap1 mem1 (take (Z.to_nat byteNum) bs ++ x1) /\
    len x2 = d /\ holds_bytes cap2 mem2 (x2 ++ drop (Z.to_nat byteNum) bs).
Proof.
  intros Hd Hk Hkc Hc Hc0. pose proof (winv_lt w p _ Hw Hp) as Hlt. pose proof (set_cap _ Hs) as Hmc.
  erewrite (bind_step (__CFStorageCreateNode _ _)) by (apply create_node_ok, Hs).
  set (w0 := created w _).
  assert (nodes w0 !! next w = Some (mkNode k 1 false (Leaf 0 None (CFRangeMake 0 0)))) as Hq by (unfold w0, created; find_node).
  assert (nodes w0 !! p = Some (mkNode (len bs) rc false (Leaf capacity memory cr))) as Hp0
    by (unfold w0, created; simpl; rewrite lookup_insert_ne by lia; done).
  pose proof (holds_capacity _ _ _ Hh) as Hco. destruct memory as [m|].
  - destruct Hh as [Hm Hcm]. assert (length bs <= length m)%nat as Hlm by (rewrite <- Hm, length_take; lia).
    destruct (alloc_leaf_spec w0 (next w) k false _ _ _ _ _ _ Hq) as (cap2 & m2 & E & Hm2 & Hc2 & E2);
      [by left|simpl; rewrite Hmc; lia|simpl; rewrite Hmc; lia|].
    rewrite bind_assoc, (bind_step _ _ _ _ _ E). clear E. rewrite bind_assoc. erewrite bind_step
      by (eapply copy_in_ok; [find_node|lia..]). rewrite upd_upd.
    set (m2' := take (Z.to_nat d) m2 ++ _). set (w1 := upd w0 (next w) _).
    destruct (alloc_leaf_spec w1 p c false (len bs) rc false capacity (Some m) cr) as (cap1 & m1 & E & Hm1 & Hc1 & E1);
      [unfold w1, upd; simpl; rewrite lookup_insert_ne by lia; done|done|simpl; rewrite Hmc; lia|simpl; rewrite Hmc; lia|].
    rewrite (bind_step _ _ _ _ _ E). clear E.
    assert (length m2' = length m2) as Hlm2 by (unfold m2'; rewrite !length_app, !length_take, !length_drop; lia).
    exists cap1, (Some m1), (drop (Z.to_nat byteNum) (take (Z.to_nat c) m1)), cap2, (Some m2'), (take (Z.to_nat d) m2).
    split; [reflexivity|]. split_and!.
    + rewrite length_drop, length_take. lia.
    + split; [|done]. rewrite length_app, length_drop, !length_take.
      replace (take (Z.to_nat byteNum) bs) with (take (Z.to_nat byteNum) (take (Z.to_nat c) m1)).
      * rewrite take_drop. f_equal. lia.
      * rewrite E1, take_resize by lia. simpl. rewrite resize_le by lia. rewrite <- Hm, take_take. f_equal. lia.
    + rewrite length_take. lia.
    + split; [|by rewrite Hlm2]. rewrite length_app, length_take, length_drop. unfold m2'.
      rewrite app_assoc, take_app_le by (rewrite length_app, !length_take, length_drop; lia).
      rewrite take_ge by (rewrite length_app, !length_take, length_drop; lia). f_equal. rewrite <- Hm at 2. rewrite take_drop_commute.
      replace (Z.to_nat byteNum + Z.to_nat (len bs - byteNum))%nat with (length bs) by lia. done.
  - destruct Hh as [Hm Hcm]. exists capacity, None, (replicate (Z.to_nat (c - byteNum)) None), 0, None, (replicate (Z.to_nat d) None).
    rewrite (upd_id w0 (next w)), (upd_id w0 p) by done. split; [done|]. rewrite !length_replicate. split_and!; [lia| |lia|].
    + split; [done|]. rewrite Hcm, take_replicate, <- replicate_add, length_replicate. done.
    + split; [done|]. rewrite Hcm, drop_replicate, <- replicate_add, length_replicate. done.
Qed.

Let leaf : CFStorageNode := mkNode (len bs) rc false (Leaf capacity memory cr).

(** The new bytes end inside the leaf. *)
Lemma insert_leaf_middle :
  cap < size + len bs -> 0 < byteNum < len bs -> byteNum + size <= cap ->
  exists w', (let! newNode := __CFStorageCreateNode true (numBytes leaf - byteNum) in
              let! _ := match leaf_memory leaf with
                        | None => ret tt
                        | Some memory =>
                            let! _ := __CFStorageAllocLeafNodeMemory newNode (numBytes leaf - byteNum) false in
                            let! _ := copy_in (Some memory) byteNum newNode 0 (numBytes leaf - byteNum) in
                            __CFStorageAllocLeafNodeMemory p (byteNum + size) false
                        end in
              let! n := get_node p in
              let! _ := set_node p (with_numBytes n (byteNum + size)) in
              let! _ := __CFStorageSetCache p (base + byteNum - byteNum) in ret newNode) w = Some (next w, w') /\
    inserted w (TLeaf p bs) rc byteNum size base (CFStorageDoubleNodeReturnMake p (next w)) w'.
Proof.
  intros Hfull Hmid Hfit. pose proof (winv_lt w p _ Hw Hp) as Hlt.
  destruct (split_memory (len bs - byteNum) 0 (byteNum + size)) as (cap1 & mem1 & x1 & cap2 & mem2 & x2 & E & L1 & H1 & L2 & H2); [lia..|].
  cbn [numBytes leaf_memory info leaf]. rewrite (bind_return _ _ _ _ _ _ E). clear E. getn. setn. cbn [with_numBytes refCount isFrozen info].
  erewrite bind_step by (eapply set_cache_ok; [find_node|lia]). eexists. split; [reflexivity|].
  assert (x2 = []) as -> by (apply length_zero_iff_nil; lia). simpl storage. rewrite (convert_range (storage w)) by (done || lia).
  replace (base + byteNum - byteNum) with (base + 0) by lia.
  assert (len (take (Z.to_nat byteNum) bs ++ x1) = byteNum + size) as Hl1 by (rewrite length_app, length_take; lia).
  assert (len (drop (Z.to_nat byteNum) bs) = len bs - byteNum) as Hl2 by (rewrite length_drop; lia).
  eapply (inserted_two _ _ _ _ _ _ _ _ (next w) (take (Z.to_nat byteNum) bs ++ x1) (drop (Z.to_nat byteNum) bs)); try done; try lia.
  - apply framed_storage_step; [|done]. do 4 (apply framed_upd_step; [|find_node|first [left; left|right; lia]]). by apply framed_new.
  - find_node.
  - rewrite <- Hl1. by eexists _, _, _.
  - find_node.
  - rewrite <- Hl2. by eexists _, _, _.
  - rewrite Hl1. by apply Z.divide_add_r.
  - rewrite Hl2. by apply Z.divide_sub_r.
  - exists x1. split; [lia|]. by rewrite <- app_assoc.
  - eapply (cached_leaf _ _ _ p 0); [apply leaf_in_2l|done|find_node|done|by rewrite Z.add_0_r|lia].
Qed.

(** The new bytes end in the new leaf.  The cache is set before the leaf gets
    its new length. *)
Lemma insert_leaf_across :
  cap < size + len bs -> 0 < byteNum < len bs -> cap < byteNum + size ->
  exists w', (let! newNode := __CFStorageCreateNode true (numBytes leaf + size - maxLeafCapacity (storage w)) in
              let! _ := match leaf_memory leaf with
                        | None => ret tt
                        | Some memory =>
                            let! _ := __CFStorageAllocLeafNodeMemory newNode (numBytes leaf + size - maxLeafCapacity (storage w)) false in
                            let! _ := copy_in (Some memory) byteNum newNode (byteNum + size - maxLeafCapacity (storage w)) (numBytes leaf - byteNum) in
                            __CFStorageAllocLeafNodeMemory p (maxLeafCapacity (storage w)) false
                        end in
              let! _ := __CFStorageSetCache p (base + byteNum - byteNum) in
              let! n := get_node p in
              let! _ := set_node p (with_numBytes n (maxLeafCapacity (storage w))) in ret newNode) w = Some (next w, w') /\
    inserted w (TLeaf p bs) rc byteNum size base (CFStorageDoubleNodeReturnMake p (next w)) w'.
Proof.
  intros Hfull Hmid Hfit. pose proof (winv_lt w p _ Hw Hp) as Hlt. rewrite (set_cap _ Hs). cbn [numBytes leaf_memory info leaf].
  destruct (split_memory (len bs + size - cap) (byteNum + size - cap) cap) as (cap1 & mem1 & x1 & cap2 & mem2 & x2 & E & L1 & H1 & L2 & H2); [lia..|].
  rewrite (bind_return _ _ _ _ _ _ E). clear E. erewrite bind_step by (eapply set_cache_ok; [find_node|lia]).
  getn. setn. cbn [with_numBytes refCount isFrozen info]. eexists. split; [reflexivity|].
  simpl storage. rewrite (convert_range (storage w)) by (done || lia). replace (base + byteNum - byteNum) with (base + 0) by lia.
  assert (len (take (Z.to_nat byteNum) bs ++ x1) = cap) as Hl1 by (rewrite length_app, length_take; lia).
  assert (len (x2 ++ drop (Z.to_nat byteNum) bs) = len bs + size - cap) as Hl2 by (rewrite length_app, length_drop; lia).
  eapply (inserted_two _ _ _ _ _ _ _ _ (next w) (take (Z.to_nat byteNum) bs ++ x1) (x2 ++ drop (Z.to_nat byteNum) bs)); try done; try lia.
  - apply framed_upd_step; [|find_node|left; left]. apply framed_storage_step; [|done].
    do 3 (apply framed_upd_step; [|find_node|first [left; left|right; lia]]). by apply framed_new.
  - find_node.
  - rewrite <- Hl1. by eexists _, _, _.
  - find_node.
  - rewrite <- Hl2. by eexists _, _, _.
  - by rewrite Hl1.
  - rewrite Hl2. apply Z.divide_sub_r; [by apply Z.divide_add_r|done].
  - exists (x1 ++ x2). rewrite length_app. split; [lia|]. by rewrite <- !app_assoc.
  - eapply (cached_leaf _ _ _ p 0); [apply leaf_in_2l|done|find_node|done|by rewrite Z.add_0_r|lia].
Qed.

(** The leaf has room. *)
Lemma insert_leaf_room :
  size + len bs <= cap ->
  exists w', (let! _ := match leaf_memory leaf with
                        | None => ret tt
                        | Some _ =>
                            let! _ := __CFStorageAllocLeafNodeMemory p (numBytes leaf + size) false in
                            let! m := get_node p in
                            copy_in (leaf_memory m) byteNum p (byteNum + size) (numBytes leaf - byteNum)
                        end in
              let! n := get_node p in
              let! _ := set_node p (with_numBytes n (numBytes n + size)) in
              let! _ := __CFStorageSetCache p (base + byteNum - byteNum) in
              ret (CFStorageDoubleNodeReturnMake p 0)) w = Some (CFStorageDoubleNodeReturnMake p 0, w') /\
    inserted w (TLeaf p bs) rc byteNum size base (CFStorageDoubleNodeReturnMake p 0) w'.
Proof.
  intros Hroom. pose proof (winv_lt w p _ Hw Hp) as Hlt. cbn [numBytes leaf_memory info leaf].
  assert (exists cap1 mem1 x, (match memory with
      | None => ret tt
      | Some _ =>
          let! _ := __CFStorageAllocLeafNodeMemory p (len bs + size) false in
          let! m := get_node p in
          copy_in (leaf_memory m) byteNum p (byteNum + size) (len bs - byteNum)
      end) w = Some (tt, upd w p (mkNode (len bs) rc false (Leaf cap1 mem1 cr))) /\ len x = size /\
      holds_bytes cap1 mem1 (take (Z.to_nat byteNum) bs ++ x ++ drop (Z.to_nat byteNum) bs)) as (cap1 & mem1 & x & E & Lx & H1).
  { pose proof (holds_capacity _ _ _ Hh) as Hco. destruct memory as [m|].
    - destruct (alloc_leaf_spec w p (len bs + size) false _ _ _ _ _ _ Hp Hco) as (cap1 & m1 & E & Hm1 & Hc1 & E1);
        [rewrite (set_cap _ Hs); lia..|]. rewrite (bind_step _ _ _ _ _ E). clear E. getn. cbn [leaf_memory info].
      erewrite copy_in_ok by (find_node || lia). rewrite upd_upd. set (m2 := take _ m1 ++ _).
      exists cap1, (Some m2), (take (Z.to_nat size) (drop (Z.to_nat byteNum) m1)). split; [done|].
      rewrite length_take, length_drop. split; [lia|]. split; [|].
      + pose proof (resize_holds _ _ _ m1 (Z.to_nat (len bs + size)) Hh ltac:(lia) E1) as Hb1. unfold m2.
        rewrite !length_app, !length_take, !length_drop. rewrite app_assoc, take_app_le by (rewrite length_app, !length_take, length_drop; lia).
        rewrite take_ge by (rewrite length_app, !length_take, length_drop; lia). rewrite app_assoc. f_equal.
        * rewrite <- Hb1 at 1. rewrite take_take, Nat.min_l by lia. replace (Z.to_nat (byteNum + size)) with (Z.to_nat byteNum + Z.to_nat size)%nat by lia.
          symmetry. apply take_take_drop.
        * rewrite <- Hb1 at 2. rewrite take_drop_commute. f_equal. f_equal. lia.
      + destruct Hc1 as [->| ->]; [by left|right]. unfold m2. rewrite !length_app, !length_take, !length_drop. lia.
    - destruct Hh as [Hm Hcm]. exists capacity, None, (replicate (Z.to_nat size) None). rewrite (upd_id w p) by done. split; [done|].
      rewrite length_replicate. split; [lia|]. split; [done|].
      rewrite Hcm, take_replicate, drop_replicate, <- !replicate_add, length_replicate. done. }
  rewrite (bind_step _ _ _ _ _ E). clear E. getn. setn. cbn [with_numBytes refCount isFrozen info numBytes].
  erewrite bind_step by (eapply set_cache_ok; [find_node|lia]). eexists. split; [reflexivity|].
  simpl storage. rewrite (convert_range (storage w)) by (done || lia). replace (base + byteNum - byteNum) with (base + 0) by lia.
  set (b1 := take _ bs ++ x ++ drop _ bs) in *. assert (len b1 = len bs + size) as Hl1 by (unfold b1; rewrite !length_app, length_take, length_drop; lia).
  eapply (inserted_one _ _ _ _ _ _ _ _ b1); try done; try lia.
  - apply framed_storage_step; [|done]. do 3 (apply framed_upd_step; [|find_node|left; left]). by apply framed_refl.
  - find_node.
  - rewrite <- Hl1. by eexists _, _, _.
  - rewrite Hl1. by apply Z.divide_add_r.
  - by exists x.
  - eapply (cached_leaf _ _ _ p 0); [apply leaf_in_1|done|find_node|done|by rewrite Z.add_0_r|lia].
Qed.

(** All branches of an insertion into a leaf. *)
Lemma insert_leaf_spec :
  exists r w', __CFStorageInsertLeafUnfrozen p byteNum size (base + byteNum) w = Some (r, w') /\
    inserted w (TLeaf p bs) rc byteNum size base r w'.
Proof.
  unfold __CFStorageInsertLeafUnfrozen. erewrite (bind_step get_storage) by reflexivity.
  erewrite (bind_step (get_node p)) by (apply get_node_ok; exact Hp). fold leaf. rewrite (set_cap _ Hs).
  destruct (Z.ltb_spec cap (size + numBytes leaf)) as [Hfull|Hroom]; cbn [numBytes leaf] in *.
  2:{ destruct (insert_leaf_room Hroom) as (w' & E & Hi). eexists _, w'. by split. }
  destruct (Z.eqb_spec byteNum (len bs)) as [Ee|Hne].
  { destruct (insert_leaf_end Hfull Ee) as (w' & E & Hi). eexists _, w'. by rewrite (bind_step _ _ _ _ _ E). }
  destruct (Z.eqb_spec byteNum 0) as [E0|Hn0].
  { destruct (insert_leaf_front Hfull E0) as (w' & E & Hi). eexists _, w'. split; [|exact Hi].
    erewrite bind_step; [reflexivity|exact E]. }
  pose proof (set_cap _ Hs) as Hc. destruct (Z.leb_spec (byteNum + size) cap) as [Hin|Hout].
  - destruct (insert_leaf_middle Hfull ltac:(lia) Hin) as (w' & E & Hi). eexists _, w'. by rewrite (bind_step _ _ _ _ _ E).
  - destruct (insert_leaf_across Hfull ltac:(lia) Hout) as (w' & E & Hi). rewrite Hc in E. eexists _, w'. by rewrite (bind_step _ _ _ _ _ E).
Qed.

End LeafInsertion.
Section BranchInsertion.
Context (w : world) (p rc size base rel : Z) (ks1 : list tree) (k : tree) (ks2 : list tree) (w1 : world) (k' : tree) (ss : list tree).
Let ks := ks1 ++ k :: ks2.
Let new := ks1 ++ (k' :: ss) ++ ks2.
Let byteNum := len (bytes_of ks1) + rel.
Context (Hw : winv w) (Hp : nodes w !! p = Some (mkNode (len (bytes_of ks)) rc false (slots (map root ks)))).
Context (Hr : Forall (rep (nodes w) 1) ks) (Hnd : NoDup (p :: ptrs_of ks)) (Hsh : Forall (shaped cap vs) ks) (Hrel : 0 <= rel <= len (bytes k)).
Context (Rk : rep (nodes w1) 1 k') (Rs : Forall (rep (nodes w1) 1) ss) (Sk : Forall (shaped cap vs) (k' :: ss)).
Context (Nk : NoDup (ptrs_of (k' :: ss))) (Ik : forall q, q ∈ ptrs_of (k' :: ss) -> q ∈ ptrs k \/ next w <= q).
Context (Gk : gap (bytes k) rel size (bytes_of (k' :: ss))) (Fk : framed (ptrs k) w w1) (Ck : cached w1 (base + len (bytes_of ks1)) (k' :: ss)).
Context (Xk : forall q, q ∈ ptrs k \/ next w <= q -> is_Some (nodes w1 !! q) -> q ∈ ptrs_of (k' :: ss)).

Lemma old_ptrs q : q ∈ p :: ptrs_of ks -> q < next w.
Proof.
  intros [->|Hq]%elem_of_cons; [by apply (winv_lt _ _ _ Hw Hp)|]. apply elem_of_ptrs_of in Hq as (t & Ht & Hq).
  destruct (rep_lookup (nodes w) 1 t q) as [n Hn]; [by apply (list.Forall_forall (rep (nodes w) 1) ks)|done|]. by apply (winv_lt _ _ _ Hw Hn).
Qed.

Lemma ptrs_split : ptrs_of ks = ptrs_of ks1 ++ ptrs k ++ ptrs_of ks2.
Proof. unfold ks. by rewrite ptrs_of_app. Qed.

Lemma disjoint_k : p ∉ ptrs k /\ (forall q, q ∈ ptrs_of ks1 ++ ptrs_of ks2 -> q ∉ ptrs k /\ q <> p).
Proof.
  pose proof Hnd as H. rewrite ptrs_split in H. apply NoDup_cons in H as [H1 H2]. rewrite !elem_of_app in H1.
  apply NoDup_app in H2 as (_ & H3 & H4). apply NoDup_app in H4 as (_ & H5 & _). split; [tauto|].
  intros q [Hq|Hq]%elem_of_app; split.
  - intros Hk. apply (H3 q Hq). rewrite elem_of_app. by left.
  - intros ->. tauto.
  - intros Hk. by apply (H5 q Hk).
  - intros ->. tauto.
Qed.

Lemma new_ptr q : q ∈ ptrs_of new -> q <> p /\ (q ∈ ptrs_of ks \/ next w <= q) /\ q < next w1.
Proof.
  destruct disjoint_k as [Hpk Hd]. unfold new. rewrite !ptrs_of_app, !elem_of_app. intros Hq.
  assert (q ∈ ptrs_of ks1 ++ ptrs_of ks2 \/ q ∈ ptrs_of (k' :: ss)) as [H|H] by (rewrite elem_of_app; tauto).
  - split_and!; [by apply Hd|left; rewrite ptrs_split, !elem_of_app; rewrite elem_of_app in H; tauto|].
    pose proof (fr_next _ _ _ Fk). assert (q < next w); [|lia]. apply old_ptrs. right. rewrite ptrs_split, !elem_of_app.
    rewrite elem_of_app in H. tauto.
  - pose proof (Ik q H) as Hor. split_and!.
    + intros ->. destruct Hor; [done|]. pose proof (old_ptrs p ltac:(left)). lia.
    + rewrite ptrs_split, !elem_of_app. tauto.
    + apply elem_of_ptrs_of in H as (t & Ht & Hqt). assert (rep (nodes w1) 1 t) as Rt
        by (apply elem_of_cons in Ht as [->|Ht]; [done|by apply (list.Forall_forall (rep (nodes w1) 1) ss)]).
      destruct (rep_lookup _ _ _ q Rt Hqt) as [n Hn]. by apply (winv_lt w1 q n (fr_inv _ _ _ Fk)).
Qed.

Lemma new_nodup : NoDup (ptrs_of new).
Proof.
  destruct disjoint_k as [Hpk Hd]. pose proof Hnd as H. rewrite ptrs_split in H. apply NoDup_cons in H as [_ H].
  apply NoDup_app in H as (N1 & D1 & H). apply NoDup_app in H as (_ & _ & N2). unfold new. rewrite !ptrs_of_app.
  assert (forall q, q ∈ ptrs_of ks1 ++ ptrs_of ks2 -> q ∉ ptrs_of (k' :: ss)) as Hdis.
  { intros q Hq Hin. destruct (Ik q Hin) as [Hk|Hf]; [by destruct (Hd q Hq)|].
    assert (q < next w); [|lia]. apply old_ptrs. right. rewrite ptrs_split. rewrite !elem_of_app in *. tauto. }
  apply NoDup_app. split_and!; [done| |].
  - intros q Hq. rewrite elem_of_app. intros [Hin|Hin]; [apply (Hdis q); [rewrite elem_of_app; by left|done]|].
    apply (D1 q Hq). rewrite elem_of_app. by right.
  - apply NoDup_app. split_and!; [done| |done]. intros q Hq Hin. apply (Hdis q); [rewrite elem_of_app; by right|done].
Qed.

Lemma new_rep w' : (forall q, q ∈ ptrs_of new -> nodes w' !! q = nodes w1 !! q) -> Forall (rep (nodes w') 1) new.
Proof.
  intros Hf. apply (trees_rep_frame (nodes w1)); [done|]. destruct disjoint_k as [Hpk Hd]. unfold new.
  assert (forall l, (forall q, q ∈ ptrs_of l -> q ∈ ptrs_of ks1 ++ ptrs_of ks2) -> Forall (rep (nodes w) 1) l -> Forall (rep (nodes w1) 1) l) as Hk.
  { intros l Hl. apply trees_rep_frame. intros q Hq%Hl. apply (fr_nodes _ _ _ Fk); [|by apply Hd]. apply old_ptrs. right.
    rewrite ptrs_split. rewrite !elem_of_app in *. tauto. }
  apply Forall_app in Hr as [Hr1 Hr2]. inversion Hr2; subst. repeat apply Forall_app_2.
  - apply Hk; [|done]. intros q. rewrite elem_of_app. tauto.
  - by constructor.
  - apply Hk; [|done]. intros q. rewrite elem_of_app. tauto.
Qed.

(** The new children as the node sees them. *)
Lemma new_roots : Forall (fun t => exists i, nodes w1 !! root t = Some (mkNode (len (bytes t)) 1 false i) /\ root t <> p /\ root t <> 0) new.
Proof.
  apply list.Forall_forall. intros t Ht. pose proof (new_rep w1 ltac:(done)) as Hn. rewrite list.Forall_forall in Hn. specialize (Hn t Ht).
  destruct (rep_root _ _ _ Hn) as (i & Hi & _). exists i. split; [done|]. pose proof (winv_lt _ _ _ (fr_inv _ _ _ Fk) Hi). split; [|lia].
  apply (new_ptr (root t)). apply elem_of_ptrs_of. exists t. split; [done|apply root_in_ptrs].
Qed.

Lemma new_shaped : Forall (shaped cap vs) new.
Proof. apply Forall_app in Hsh as [H1 H2]. inversion H2; subst. unfold new. by repeat apply Forall_app_2. Qed.

Lemma new_gap : gap (bytes_of ks) byteNum size (bytes_of new).
Proof. unfold ks, new. rewrite !bytes_of_app. cbn [map concat]. by apply gap_inside. Qed.

Lemma new_framed w' : (forall q, q <> p -> q < next w1 -> nodes w' !! q = nodes w1 !! q) -> winv w' -> next w1 <= next w' ->
  storage w' = storage w1 -> framed (p :: ptrs_of ks) w w'.
Proof.
  intros Hf Hw' Hn Hst. destruct Fk as [I N F S]. constructor; [done|lia| |by rewrite Hst].
  intros q Hq HP. rewrite Hf; [apply F; [done|]|by intros ->; apply HP; left|lia].
  intros Hin. apply HP. right. rewrite ptrs_split, !elem_of_app. tauto.
Qed.

Lemma new_cached : cached w1 base new.
Proof.
  apply (cached_move w1 w1 (base + len (bytes_of ks1)) base (k' :: ss)); try done.
  intros q off bs Hl. replace (base + len (bytes_of ks1) - base + off) with (len (bytes_of ks1) + off) by lia. unfold new. by apply leaf_in_middle.
Qed.

Lemma new_exact q : q ∈ ptrs_of ks \/ next w <= q -> is_Some (nodes w1 !! q) -> q ∈ ptrs_of new.
Proof.
  unfold new. rewrite ptrs_split, !ptrs_of_app, !elem_of_app. intros Hq Hs.
  assert ((q ∈ ptrs_of ks1 \/ q ∈ ptrs_of ks2) \/ (q ∈ ptrs k \/ next w <= q)) as [?|H] by tauto; [tauto|]. right. left. by apply Xk.
Qed.

(** The children still fit into the node. *)
Lemma branch_grown w' :
  nodes w' !! p = Some (mkNode (len (bytes_of new)) rc false (slots (map root new))) ->
  (forall q, q <> p -> nodes w' !! q = nodes w1 !! q) -> next w' = next w1 -> storage w' = storage w1 -> (2 <= length new <= 3)%nat ->
  inserted w (TBranch p ks) rc byteNum size base (CFStorageDoubleNodeReturnMake p 0) w'.
Proof.
  intros Hp' Hf Hnx Hst Hlen. assert (forall q, q ∈ ptrs_of new -> nodes w' !! q = nodes w1 !! q) as Hf' by (intros q Hq; apply Hf, (new_ptr q Hq)).
  exists (TBranch p new), []. cbn [root map concat ptrs bytes]. rewrite !app_nil_r. split_and!; [simpl; lia|done|done| |constructor| | | | | | |].
  - apply rep_branch. split; [done|]. by apply new_rep.
  - constructor; [|constructor]. apply shaped_branch. split; [done|apply new_shaped].
  - apply NoDup_cons. split; [intros Hin; by apply new_ptr in Hin as []|apply new_nodup].
  - intros q [->|Hq]%elem_of_cons; [left; left|]. destruct (new_ptr q Hq) as (_ & [H|H] & _); [left; by right|by right].
  - apply new_gap.
  - apply new_framed; [by auto| |lia|done]. split; [rewrite Hnx; apply Fk|]. intros q n Hn. rewrite Hnx.
    destruct (decide (q = p)) as [->|Hne]; [|rewrite Hf in Hn by done; by apply (winv_lt w1 q n (fr_inv _ _ _ Fk))].
    pose proof (winv_lt _ _ _ Hw Hp). pose proof (fr_next _ _ _ Fk). lia.
  - apply (cached_move w1 w' base base new); [apply new_cached|done|done|]. intros q off bs Hl. rewrite Z.sub_diag. by apply leaf_in_branch.
  - intros q Hq Hs. destruct (decide (q = p)) as [->|Hne]; [left|]. right. rewrite elem_of_cons in Hq. apply new_exact; [tauto|]. by rewrite <- Hf.
Qed.

(** Four children: two stay, two go to a new node. *)
Lemma branch_split w' r A B :
  new = A ++ B -> length A = 2%nat -> length B = 2%nat -> r = next w1 ->
  nodes w' !! p = Some (mkNode (len (bytes_of A)) rc false (slots (map root A))) ->
  nodes w' !! r = Some (mkNode (len (bytes_of B)) 1 false (slots (map root B))) ->
  (forall q, q <> p -> q <> r -> nodes w' !! q = nodes w1 !! q) -> next w' = next w1 + 1 -> storage w' = storage w1 ->
  inserted w (TBranch p ks) rc byteNum size base (CFStorageDoubleNodeReturnMake p r) w'.
Proof.
  intros EAB HA HB -> Hp' Hr' Hf Hnx Hst.
  assert (forall q, q ∈ ptrs_of new -> q <> p /\ q <> next w1 /\ nodes w' !! q = nodes w1 !! q) as Hf'.
  { intros q Hq. pose proof (new_ptr q Hq) as (? & _ & ?). split_and!; [done|lia|]. apply Hf; [done|lia]. }
  pose proof (new_rep w' ltac:(intros q Hq; by apply Hf')) as Hrep. pose proof new_shaped as Hshn. pose proof new_nodup as Hndn.
  rewrite EAB in Hrep, Hshn, Hndn. apply Forall_app in Hrep as [RA RB]. apply Forall_app in Hshn as [SA SB]. rewrite ptrs_of_app in Hndn.
  pose proof (winv_lt _ _ _ Hw Hp). pose proof (fr_next _ _ _ Fk).
  exists (TBranch p A), [TBranch (next w1) B]. cbn [root map concat ptrs bytes]. rewrite !app_nil_r. split_and!; [simpl; lia|done|done|..].
  - by apply rep_branch.
  - constructor; [|constructor]. by apply rep_branch.
  - constructor; [apply shaped_branch; split; [lia|done]|]. constructor; [apply shaped_branch; split; [lia|done]|constructor].
  - apply NoDup_app in Hndn as (NA & DAB & NB).
    assert (forall q, q ∈ ptrs_of A ++ ptrs_of B -> q <> p /\ q <> next w1) as Hne
      by (intros q Hq; rewrite <- ptrs_of_app, <- EAB in Hq; by destruct (Hf' q Hq) as (? & ? & _)).
    simpl. apply NoDup_cons. split.
    { intros Hin. rewrite elem_of_app, elem_of_cons in Hin. destruct Hin as [Hin|[Hin|Hin]]; [|lia|].
      - destruct (Hne p) as [? _]; [rewrite elem_of_app; by left|done].
      - destruct (Hne p) as [? _]; [rewrite elem_of_app; by right|done]. }
    apply NoDup_app. split_and!; [done| |].
    + intros q Hq [->|Hin]%elem_of_cons; [|by apply (DAB q)]. destruct (Hne (next w1)) as [_ ?]; [rewrite elem_of_app; by left|done].
    + apply NoDup_cons. split; [|done]. intros Hin. destruct (Hne (next w1)) as [_ ?]; [rewrite elem_of_app; by right|done].
  - intros q Hq. assert (q = p \/ q = next w1 \/ q ∈ ptrs_of new) as [->|[->|Hin]].
    { rewrite EAB, ptrs_of_app. simpl in Hq. rewrite elem_of_cons, !elem_of_app, elem_of_cons in Hq. rewrite elem_of_app. tauto. }
    + left. left.
    + right. lia.
    + destruct (new_ptr q Hin) as (_ & [Hk|Hk] & _); [left; by right|by right].
  - rewrite <- bytes_of_app, <- EAB. apply new_gap.
  - apply new_framed; [intros q Hq Hlt; apply Hf; [done|lia]| |lia|done]. split; [pose proof (fr_inv _ _ _ Fk) as [? _]; lia|].
    intros q n Hn. rewrite Hnx. destruct (decide (q = p)) as [->|Hne]; [lia|]. destruct (decide (q = next w1)) as [->|Hne2].
    + pose proof (fr_inv _ _ _ Fk) as [? _]. lia.
    + rewrite Hf in Hn by done. pose proof (winv_lt w1 q n (fr_inv _ _ _ Fk) Hn). lia.
  - apply (cached_move w1 w' base base new); [apply new_cached|done|intros q Hq; by apply Hf'|].
    intros q off bs Hl. rewrite Z.sub_diag. rewrite EAB in Hl. by apply leaf_in_branches.
  - intros q Hq Hs. destruct (decide (q = p)) as [->|Hne]; [left|]. destruct (decide (q = next w1)) as [->|Hne2].
    + right. rewrite elem_of_app, elem_of_cons. tauto.
    + rewrite Hf in Hs by done. rewrite elem_of_cons in Hq. assert (q ∈ ptrs_of new) as Hin by (apply new_exact; tauto).
      rewrite EAB, ptrs_of_app, elem_of_app in Hin. right. rewrite elem_of_app, elem_of_cons. tauto.
Qed.

End BranchInsertion.

(** *** Running an insertion into a branch *)

Definition put_child (i : Z) (c c0 c1 c2 : Z) : node_info :=
  if i =? 0 then NotLeaf c c1 c2 else if i =? 1 then NotLeaf c0 c c2 else NotLeaf c0 c1 c.

Lemma set_child_ok w p i c nb rc fz c0 c1 c2 :
  nodes w !! p = Some (mkNode nb rc fz (NotLeaf c0 c1 c2)) -> 0 <= i <= 2 ->
  __CFStorageSetChild p i c w = Some (tt, upd w p (mkNode nb rc fz (put_child i c c0 c1 c2))).
Proof.
  intros Hp Hi. unfold __CFStorageSetChild, put_child. erewrite (bind_step (get_node p)) by (by apply get_node_ok). cbn [info].
  assert (i = 0 \/ i = 1 \/ i = 2) as [->|[->| ->]] by lia; cbn [Z.eqb Pos.eqb]; by erewrite set_node_ok.
Qed.

Ltac kids := erewrite (bind_step (children_of _)) by reflexivity; cbv beta iota.

Ltac setc := erewrite (bind_step (__CFStorageSetChild _ _ _)) by (eapply set_child_ok; [find_node|lia]); cbn [put_child Z.eqb Pos.eqb].

(** A sibling for a node with two children. *)
Lemma sibling_room w1 p nb rc size a b x childNum :
  nodes w1 !! p = Some (mkNode nb rc false (NotLeaf a b 0)) -> childNum = 0 \/ childNum = 1 ->
  exists w', (let! _ := when (childNum =? 0) (__CFStorageSetChild p 2 b) in
              let! _ := __CFStorageSetChild p (childNum + 1) x in
              let! n := get_node p in
              let! _ := set_node p (with_numBytes n (numBytes n + size)) in
              ret (CFStorageDoubleNodeReturnMake p 0)) w1 = Some (CFStorageDoubleNodeReturnMake p 0, w') /\
    nodes w' !! p = Some (mkNode (nb + size) rc false (if childNum =? 0 then NotLeaf a x b else NotLeaf a b x)) /\
    (forall q, q <> p -> nodes w' !! q = nodes w1 !! q) /\ next w' = next w1 /\ storage w' = storage w1.
Proof.
  intros Hp [->| ->]; cbn [Z.eqb Z.add Pos.eqb when].
  - setc. setc. getn. setn. eexists. split; [reflexivity|]. rewrite !upd_upd. split_and!; [find_node| |done|done].
    intros q Hq. by rewrite nodes_upd, lookup_insert_ne by done.
  - erewrite (bind_step (ret tt)) by reflexivity. setc. getn. setn. eexists. split; [reflexivity|]. rewrite !upd_upd. split_and!; [find_node| |done|done].
    intros q Hq. by rewrite nodes_upd, lookup_insert_ne by done.
Qed.

(** A sibling for a node with three children: four of them in order. *)
Definition four (childNum a b c x : Z) : Z * Z * Z * Z :=
  if childNum =? 0 then (a, x, b, c) else if childNum =? 1 then (a, b, x, c) else (a, b, c, x).

Lemma sibling_split_trees w1 p nb rc a b c x childNum y0 y1 z0 z1 :
  winv w1 -> alwaysFrozen (storage w1) = false ->
  nodes w1 !! p = Some (mkNode nb rc false (NotLeaf a b c)) -> childNum = 0 \/ childNum = 1 \/ childNum = 2 ->
  four childNum a b c x = (root y0, root y1, root z0, root z1) ->
  Forall (fun t => exists i, nodes w1 !! root t = Some (mkNode (len (bytes t)) 1 false i) /\ root t <> p /\ root t <> 0) [y0; y1; z0; z1] ->
  exists w', (let! anotherNode := __CFStorageCreateNode false 0 in
      let! _ :=
        (if childNum =? 0 then
           let! _ := __CFStorageSetChild anotherNode 0 b in
           let! _ := __CFStorageSetChild anotherNode 1 c in
           let! _ := __CFStorageSetChild p 1 x in
           __CFStorageSetChild p 2 0
         else if childNum =? 1 then
           let! _ := __CFStorageSetChild anotherNode 0 x in
           let! _ := __CFStorageSetChild anotherNode 1 c in
           __CFStorageSetChild p 2 0
         else
           let! _ := __CFStorageSetChild anotherNode 0 c in
           let! _ := __CFStorageSetChild anotherNode 1 x in
           __CFStorageSetChild p 2 0) in
      let! n := get_node p in
      let! (c0, c1, _) := children_of n in
      let! n0 := get_node c0 in let! n1 := get_node c1 in
      let! _ := set_node p (with_numBytes n (numBytes n0 + numBytes n1)) in
      let! m := get_node anotherNode in
      let! (d0, d1, _) := children_of m in
      let! m0 := get_node d0 in let! m1 := get_node d1 in
      let! _ := set_node anotherNode (with_numBytes m (numBytes m0 + numBytes m1)) in
      ret (CFStorageDoubleNodeReturnMake p anotherNode)) w1 = Some (CFStorageDoubleNodeReturnMake p (next w1), w') /\
    nodes w' !! p = Some (mkNode (len (bytes_of [y0; y1])) rc false (slots (map root [y0; y1]))) /\
    nodes w' !! next w1 = Some (mkNode (len (bytes_of [z0; z1])) 1 false (slots (map root [z0; z1]))) /\
    (forall q, q <> p -> q <> next w1 -> nodes w' !! q = nodes w1 !! q) /\ next w' = next w1 + 1 /\ storage w' = storage w1.
Proof.
  intros Hw Hfz Hp Hc E4 Hall.
  apply Forall_cons in Hall as [(i0 & E0 & Hy0 & _) Hall]. apply Forall_cons in Hall as [(i1 & E1 & Hy1 & _) Hall].
  apply Forall_cons in Hall as [(i2 & F0 & Hz0 & _) Hall]. apply Forall_cons in Hall as [(i3 & F1 & Hz1 & _) _].
  pose proof (winv_lt _ _ _ Hw Hp). pose proof (winv_lt _ _ _ Hw E0). pose proof (winv_lt _ _ _ Hw E1).
  pose proof (winv_lt _ _ _ Hw F0). pose proof (winv_lt _ _ _ Hw F1).
  erewrite (bind_step (__CFStorageCreateNode _ _)) by (by apply create_node_ok). cbn [map concat]. rewrite !app_nil_r, !length_app, !Nat2Z.inj_add.
  destruct Hc as [->|[->| ->]]; cbn [four Z.eqb Pos.eqb] in E4 |- *; injection E4 as -> -> -> ->;
    repeat (rewrite bind_assoc; setc); setc; getn; kids; getn; getn; setn; getn; kids; getn; getn; setn;
    (eexists; split; [reflexivity|]); cbn [with_numBytes numBytes refCount isFrozen info];
    (split_and!; [find_node|find_node| |done|done]); intros q Hq1 Hq2; unfold upd, created, with_nodes; cbn [nodes]; by rewrite !lookup_insert_ne by done.
Qed.

Lemma entry_zero w ss : winv w -> Forall (rep (nodes w) 1) ss -> (length ss <= 1)%nat -> entry (map root ss) 0 = 0 <-> ss = [].
Proof.
  intros Hw Hr Hl. destruct ss as [|s ss]; [done|]. split; [|done]. inversion Hr; subst. intros E.
  destruct (rep_root _ _ _ H1) as (i & Hi & _). pose proof (winv_lt _ _ _ Hw Hi). simpl in E. cbn in E. lia.
Qed.

Lemma two_or_three (ks1 : list tree) k ks2 : (2 <= length (ks1 ++ k :: ks2) <= 3)%nat ->
  (ks1 = [] /\ exists c, ks2 = [c]) \/ (exists a, ks1 = [a] /\ ks2 = []) \/ (ks1 = [] /\ exists c d, ks2 = [c; d]) \/
  (exists a c, ks1 = [a] /\ ks2 = [c]) \/ (exists a b, ks1 = [a; b] /\ ks2 = []).
Proof.
  rewrite length_app. destruct ks1 as [|a [|b [|? ks1]]], ks2 as [|c [|d [|? ks2]]]; simpl; intros; try lia; eauto 10.
Qed.

(** The new tree is read off the nodes. *)
Ltac room_case H len_new w p rc size base rel ks1 k ks2 w1 k' s :=
  let w' := fresh "w'" in let E := fresh "E" in let H1 := fresh "H" in
  destruct H as (w' & E & H1 & ? & ? & ?); eexists _, w'; split; [exact E|];
  eapply (branch_grown w p rc size base rel ks1 k ks2 w1 k' [s]); try done;
  [rewrite H1, len_new; cbn [app map]; unfold slots, entry; simpl; congruence | simpl; lia].

Ltac split_case H frozen w p rc size base rel ks1 k ks2 w1 k' s X Y :=
  let w' := fresh "w'" in let E := fresh "E" in
  destruct H as (w' & E & ? & ? & ? & ? & ?); [done|apply frozen|done|lia|unfold four; simpl; congruence|done|];
  eexists _, w'; split; [|by eapply (branch_split w p rc size base rel ks1 k ks2 w1 k' [s]) with (A := X) (B := Y)];
  rewrite (proj2 (Z.eqb_neq (entry _ 2) 0)); [exact E|];
  repeat match goal with Hf : Forall _ (_ :: _) |- _ => apply Forall_cons in Hf as [(? & _ & _ & ?) Hf] end; unfold entry; simpl; congruence.

Lemma insert_branch_spec (ins : Z -> Z -> Z -> Z -> M CFStorageDoubleNodeReturn) w p rc ks byteNum size base :
  winv w -> settings (storage w) -> rep (nodes w) rc (TBranch p ks) -> NoDup (ptrs (TBranch p ks)) -> shaped cap vs (TBranch p ks) ->
  0 <= byteNum <= len (bytes_of ks) -> (vs | byteNum) -> 0 <= base -> (vs | base) -> base + len (bytes_of ks) + size < 2 ^ 62 -> 0 <= size ->
  (forall k rel base', k ∈ ks -> 0 <= rel <= len (bytes k) -> (vs | rel) -> 0 <= base' -> (vs | base') -> base' + len (bytes k) + size < 2 ^ 62 ->
    exists r w1, ins (root k) rel size (base' + rel) w = Some (r, w1) /\ inserted w k 1 rel size base' r w1) ->
  exists r w', __CFStorageInsertBranchUnfrozen ins p byteNum size (base + byteNum) w = Some (r, w') /\
    inserted w (TBranch p ks) rc byteNum size base r w'.
Proof.
  intros Hw Hs Hrep Hnd Hsh Hb Db Hbase Dbase Hmax Hsize IH. apply rep_branch in Hrep as [Hp Hr]. apply shaped_branch in Hsh as [Hlen Hsh].
  destruct (find_child_spec w p _ ks byteNum true Hp eq_refl Hr) as (ks1 & k & ks2 & -> & Efc & Hrel); [|done|lia|lia|].
  { eapply list.Forall_impl; [exact Hsh|]. apply shaped_pos. }
  set (rel := byteNum - len (bytes_of ks1)) in *. assert (byteNum = len (bytes_of ks1) + rel) as Eb by (unfold rel; lia).
  assert ((vs | len (bytes_of ks1))) as D1.
  { apply Forall_app in Hsh as [H1 _]. clear -H1. induction H1 as [|t l Ht _ IH]; [by exists 0|]. cbn [map concat]. rewrite length_app, Nat2Z.inj_add.
    apply Z.divide_add_r; [by apply (shaped_divide cap)|done]. }
  destruct (IH k rel (base + len (bytes_of ks1))) as (r & w1 & Ei & Hins).
  { rewrite elem_of_app. right. left. } { lia. } { by apply Z.divide_sub_r. } { lia. } { by apply Z.divide_add_r. }
  { rewrite bytes_of_app, length_app in Hmax. cbn [map concat] in Hmax. rewrite length_app in Hmax. lia. }
  destruct Hins as (k' & ss & Hss & Hroot & -> & Rk & Rs & Sk & Nk & Ik & Gk & Fk & Ck & Xk).
  unfold __CFStorageInsertBranchUnfrozen. rewrite (bind_step _ _ _ _ _ Efc).
  replace (base + byteNum) with (base + len (bytes_of ks1) + rel) by lia. rewrite (bind_step _ _ _ _ _ Ei). cbn [child sibling].
  rewrite Z.eqb_refl. cbn [negb when]. erewrite (bind_step (ret tt)) by reflexivity.
  assert (p ∉ ptrs k /\ p < next w) as [Hpk Hplt].
  { split; [|by apply (winv_lt _ _ _ Hw Hp)]. cbn [ptrs] in Hnd. apply NoDup_cons in Hnd as [Hnd _]. rewrite ptrs_of_app in Hnd. cbn [map concat] in Hnd.
    rewrite !elem_of_app in Hnd. tauto. }
  pose proof (fr_nodes _ _ _ Fk p Hplt Hpk) as Hp1. rewrite Hp in Hp1. erewrite (bind_step (get_node p)) by (apply get_node_ok; exact Hp1). cbn [numBytes].
  pose proof (entry_zero w1 ss (fr_inv _ _ _ Fk) Rs Hss) as Hez. pose proof (gap_length _ _ _ _ Gk ltac:(lia)) as Hgl.
  assert (len (bytes_of (ks1 ++ (k' :: ss) ++ ks2)) = len (bytes_of (ks1 ++ k :: ks2)) + size) as Hnl.
  { rewrite !bytes_of_app, !length_app. cbn [map concat] in Hgl |- *. rewrite !length_app in *. lia. }
  rewrite Eb. destruct ss as [|s ss].
  - rewrite (proj2 Hez eq_refl). cbn [Z.eqb]. setn. eexists _, _. split; [reflexivity|].
    eapply (branch_grown w p rc size base rel ks1 k ks2 w1 k' []); try done.
    + rewrite Hnl. rewrite nodes_upd, lookup_insert_eq. cbn [with_numBytes refCount isFrozen info]. do 3 f_equal. rewrite !map_app. simpl. by rewrite Hroot.
    + intros q Hq. by rewrite nodes_upd, lookup_insert_ne by done.
    + rewrite !length_app in *. simpl in *. lia.
  - destruct ss; [|simpl in Hss; lia]. rewrite (proj2 (Z.eqb_neq (entry _ 0) 0)) by (by intros ?%Hez). change (entry (map root [s]) 0) with (root s).
    cbv zeta. assert (winv w1) as Hw1 by apply Fk. pose proof (framed_settings _ _ _ Fk Hs) as Hs1.
    assert (Forall (fun t => exists i, nodes w1 !! root t = Some (mkNode (len (bytes t)) 1 false i) /\ root t <> p /\ root t <> 0) (ks1 ++ [k'; s] ++ ks2)) as Hall
      by (eapply (new_roots w p); done).
    kids. clear IH Ei Efc. revert Hall. destruct (two_or_three ks1 k ks2 Hlen) as [(-> & c & ->)|[(a & -> & ->)|[(-> & c & d & ->)|[(a & c & -> & ->)|(a & b & -> & ->)]]]];
      cbn [app]; intros Hall.
    + room_case (sibling_room w1 p _ rc size (root k) (root c) (root s) 0 Hp1 ltac:(lia)) Hnl w p rc size base rel (@nil tree) k [c] w1 k' s.
    + room_case (sibling_room w1 p _ rc size (root a) (root k) (root s) 1 Hp1 ltac:(lia)) Hnl w p rc size base rel [a] k (@nil tree) w1 k' s.
    + split_case (sibling_split_trees w1 p (len (bytes_of ([] ++ k :: [c; d]))) rc (root k) (root c) (root d) (root s) 0 k' s c d) Hs1 w p rc size base rel (@nil tree) k [c; d] w1 k' s [k'; s] [c; d].
    + split_case (sibling_split_trees w1 p (len (bytes_of ([a] ++ k :: [c]))) rc (root a) (root k) (root c) (root s) 1 a k' s c) Hs1 w p rc size base rel [a] k [c] w1 k' s [a; k'] [s; c].
    + split_case (sibling_split_trees w1 p (len (bytes_of ([a; b] ++ k :: []))) rc (root a) (root b) (root k) (root s) 2 a b k' s) Hs1 w p rc size base rel [a; b] k (@nil tree) w1 k' s [a; b] [k'; s].
Qed.

(** *** Insertion into a tree *)

Lemma insert_unfrozen_spec t : forall fuel w rc byteNum size base,
  (height t <= fuel)%nat -> winv w -> settings (storage w) -> rep (nodes w) rc t -> NoDup (ptrs t) -> rshaped t ->
  0 <= byteNum <= len (bytes t) -> (vs | byteNum) -> 0 < size <= cap -> (vs | size) -> 0 <= base -> (vs | base) ->
  base + len (bytes t) + size < 2 ^ 62 ->
  exists r w', __CFStorageInsertUnfrozen fuel (root t) byteNum size (base + byteNum) w = Some (r, w') /\
    inserted w t rc byteNum size base r w'.
Proof.
  induction t as [p bs|p ks IH] using tree_nested_ind; intros fuel w rc byteNum size base Hf Hw Hs Hr Hnd Hsh Hb Db Hsize Dsize Hbase Dbase Hmax;
    (destruct fuel as [|fuel]; [simpl in Hf; lia|]); cbn [__CFStorageInsertUnfrozen root].
  - destruct Hr as (n & Hn & c & m & cr & -> & Hh). erewrite (bind_step (get_node p)) by (by apply get_node_ok). cbn [isLeaf info].
    apply (insert_leaf_spec _ _ _ _ _ _ _ c m cr); try done; simpl in *.
    + destruct Hsh as [[? _]|[= ->]]; [lia|simpl; lia].
    + destruct Hsh as [[_ ?]|[= ->]]; [done|by exists 0].
  - destruct Hsh as [Hsh|]; [|done]. pose proof (proj1 (rep_branch _ _ _ _) Hr) as [Hp Hks]. pose proof (proj1 (shaped_branch _ _ _ _) Hsh) as [_ Hshk].
    erewrite (bind_step (get_node p)) by (apply get_node_ok; exact Hp). cbn [isLeaf info slots].
    apply insert_branch_spec; try done; [lia|]. intros k rel base' Hk Hrel Drel Hb' Db' Hmax'.
    rewrite list.Forall_forall in IH, Hks, Hshk. pose proof (Hks k Hk) as Rk. destruct (rep_root _ _ _ Rk) as (i & Hi & _).
    unfold __CFStorageInsert. erewrite (bind_step (get_node _)) by (apply get_node_ok; exact Hi). cbn [isFrozen].
    erewrite (bind_step (ret true)) by reflexivity. apply (IH k Hk); try done.
    + simpl in Hf. pose proof (height_child k ks Hk). lia.
    + cbn [ptrs] in Hnd. apply NoDup_cons in Hnd as [_ Hnd]. apply list_elem_of_split in Hk as (l1 & l2 & ->). rewrite ptrs_of_app in Hnd.
      cbn [map concat] in Hnd. by apply NoDup_app in Hnd as (_ & _ & (? & _ & _)%NoDup_app).
    + left. by apply Hshk.
Qed.

(** *** A root with a sibling *)

(** The contents of the root are moved to a new node. *)
Lemma reroot_rep H H' rc t h nb i :
  rep H rc t -> H !! root t = Some (mkNode nb rc false i) -> H' !! h = Some (mkNode nb 1 false i) -> NoDup (ptrs t) ->
  (forall q, q ∈ ptrs t -> q <> root t -> H' !! q = H !! q) -> rep H' 1 (reroot h t).
Proof.
  destruct t as [p bs|p ks]; simpl root; cbn [reroot].
  - intros (n & Hn & c & m & cr & -> & Hh) Hr Hh' _ _. rewrite Hn in Hr. injection Hr as <- <-. eexists. split; [exact Hh'|]. by exists c, m, cr.
  - rewrite !rep_branch. intros [Hp Hks] Hr Hh' Hn Hf. rewrite Hp in Hr. injection Hr as <- <-. split; [done|].
    cbn [ptrs] in Hn. apply NoDup_cons in Hn as [Hn _].
    apply (trees_rep_frame H); [|done]. intros q Hq. apply Hf; [by right|]. by intros ->.
Qed.

Lemma leaf_in_pair r h t s q off bs : leaf_in [t; s] q off bs -> (match t with TLeaf _ _ => False | _ => True end) ->
  leaf_in [TBranch r [reroot h t; s]] q off bs.
Proof.
  intros Hl Ht. apply leaf_in_branch. destruct t as [|p ks]; [done|]. simpl. destruct Hl as (a & k & b & o & E & Hk & ->).
  destruct a as [|a1 a]; injection E as <- E; subst.
  - exists [], (TBranch h ks), [s], o. split_and!; [done| |done]. inversion Hk; subst. by constructor.
  - destruct a as [|a2 a]; injection E as <- E; [subst b|by destruct a].
    exists [TBranch h ks], s, [], o. split_and!; done.
Qed.

Lemma set_cache_null w : __CFStorageSetCache 0 0 w = Some (tt, with_storage w (set_cacheNode (storage w) 0)).
Proof. done. Qed.

Lemma deepen_root_spec w t s :
  winv w -> settings (storage w) -> root t = rootNode (storage w) -> rep (nodes w) 0 t -> rep (nodes w) 1 s -> shaped cap vs t -> shaped cap vs s ->
  NoDup (ptrs t ++ ptrs s) -> cache_ok w [t; s] ->
  exists w' t', deepen_root (root s) w = Some (tt, w') /\ storage_ok w' t' /\ bytes t' = bytes t ++ bytes s /\
    framed (ptrs t) w w' /\ (forall q, q ∈ ptrs t' -> q ∈ ptrs t ++ ptrs s \/ next w <= q) /\
    (forall q, q ∈ ptrs t ++ ptrs s \/ next w <= q -> is_Some (nodes w' !! q) -> q ∈ ptrs t').
Proof.
  intros Hw Hs Hroot Ht Hr Sht Shs Hnd Hc. unfold deepen_root. erewrite (bind_step get_storage) by reflexivity. cbv zeta. rewrite <- Hroot.
  destruct (rep_root _ _ _ Ht) as (i & Hi & Hleaf). destruct (rep_root _ _ _ Hr) as (j & Hj & _).
  pose proof (winv_lt _ _ _ Hw Hi). pose proof (winv_lt _ _ _ Hw Hj).
  assert (forall q, q ∈ ptrs t ++ ptrs s -> q < next w) as Hold.
  { intros q Hq. rewrite elem_of_app in Hq.
    destruct Hq as [Hq|Hq]; [destruct (rep_lookup _ _ _ q Ht Hq) as [n Hn]|destruct (rep_lookup _ _ _ q Hr Hq) as [n Hn]]; by apply (winv_lt _ _ _ Hw Hn). }
  apply NoDup_app in Hnd as (Nt & Dts & Ns). assert (root t <> root s) as Hne.
  { intros E. apply (Dts (root t)); [apply root_in_ptrs|rewrite E; apply root_in_ptrs]. }
  getn. erewrite (bind_step (__CFStorageCreateNode _ _)) by (apply create_node_ok, Hs). getn. setn.
  cbn [with_info numBytes refCount isFrozen info]. unfold isLeaf at 1. cbn [info].
  set (w1 := upd (created w _) _ _). set (c := match t with TLeaf _ _ => 0 | TBranch _ _ => cacheNode (storage w) end).
  erewrite (bind_step (when _ _) _ w1 tt (with_storage w1 (set_cacheNode (storage w1) c))).
  2:{ unfold isLeaf in Hleaf. cbn [info] in Hleaf. rewrite Hleaf. unfold c. destruct t; [done|]. cbn [when ret]. unfold ret. do 2 f_equal. by destruct w as [? ? []]. }
  erewrite (bind_step (get_node (next w))) by (apply get_node_ok; unfold w1; find_node).
  erewrite (bind_step (get_node (root s))) by (apply get_node_ok; unfold w1; find_node).
  erewrite (bind_step (get_node (root t))) by (apply get_node_ok; unfold w1; find_node). cbn [numBytes refCount isFrozen].
  erewrite set_node_ok by (unfold w1; find_node). set (h := next w). set (w2 := upd _ (root t) _).
  exists w2, (TBranch (root t) [reroot h t; s]). split; [reflexivity|].
  assert (nodes w2 !! root t = Some (mkNode (len (bytes t) + len (bytes s)) 0 false (NotLeaf h (root s) 0))) as E1 by (unfold w2, w1, h; find_node).
  assert (nodes w2 !! h = Some (mkNode (len (bytes t)) 1 false i)) as E2 by (unfold w2, w1, h; find_node).
  assert (forall q, q ∈ ptrs t ++ ptrs s -> q <> root t -> nodes w2 !! q = nodes w !! q) as E3.
  { intros q Hq Hq'. pose proof (Hold q Hq). unfold w2, w1, upd, with_nodes, with_storage, created. cbn [nodes]. by rewrite !lookup_insert_ne by lia. }
  assert (h ∉ ptrs t ++ ptrs s) as Hh by (intros ?%Hold; unfold h in *; lia).
  assert (framed (ptrs t) w w2) as Hf.
  { unfold w2. apply framed_upd_step; [|unfold w1; find_node|left; apply root_in_ptrs]. apply framed_storage_step; [|done].
    unfold w1. apply framed_upd_step; [by apply framed_new|find_node|right; lia]. }
  split; [constructor|split_and!].
  - apply Hf.
  - by apply (framed_settings _ _ _ Hf).
  - rewrite (fr_storage _ _ _ Hf). done.
  - apply rep_branch. split; [|constructor; [|constructor; [|constructor]]].
    + rewrite E1. cbn [map concat]. rewrite app_nil_r, length_app, reroot_bytes. unfold slots. cbn. rewrite Nat2Z.inj_add. by destruct t.
    + eapply (reroot_rep (nodes w) _ 0); try done. intros q Hq. apply E3. rewrite elem_of_app. by left.
    + apply (tree_rep_frame (nodes w)); [|done]. intros q Hq. apply E3; [rewrite elem_of_app; by right|]. intros ->. by apply (Dts (root t)); [apply root_in_ptrs|].
  - cbn [ptrs map concat]. rewrite app_nil_r. apply NoDup_cons. split.
    + rewrite elem_of_app. intros [Hq|Hq]; [|by apply (Dts (root t)); [apply root_in_ptrs|]].
      apply reroot_ptrs in Hq as [Hq|[_ Hq]]; [unfold h in *; lia|by apply Hq].
    + apply NoDup_app. split_and!; [apply reroot_nodup; [done|]| |done].
      * intros Hin. apply Hh. rewrite elem_of_app. by left.
      * intros q [->|[Hq _]]%reroot_ptrs Hin; [|by apply (Dts q)]. apply Hh. rewrite elem_of_app. by right.
  - left. apply shaped_branch. split; [simpl; lia|]. constructor; [by apply reroot_shaped|by constructor].
  - destruct Hc as [Hc|Hc].
    { left. unfold w2, w1. simpl. unfold c. destruct t; done. }
    destruct t as [p bs|p ks] eqn:Et; [left; done|]. right.
    assert (storage w2 = storage w) as Est by (unfold w2, w1, c; simpl; by destruct (storage w)).
    destruct Hc as (off & bs & n & ca & m & v & Hl & Hn & Hci & Hd & Hv & Hvb). exists off, bs, n, ca, m, v. rewrite Est.
    split_and!; try done; [by apply leaf_in_pair|]. rewrite E3; [done| |].
    + apply leaf_in_ptr in Hl. cbn [map concat] in Hl. by rewrite app_nil_r in Hl.
    + intros E. rewrite E in Hn. change (root (TBranch p ks)) with p in *. rewrite Hi in Hn. injection Hn as <-. cbn [info] in Hci. subst i. unfold isLeaf in Hleaf. by cbn in Hleaf.
  - cbn [bytes map concat]. by rewrite app_nil_r, reroot_bytes.
  - done.
  - intros q. cbn [ptrs map concat]. rewrite app_nil_r, elem_of_cons, !elem_of_app. intros [->|[Hq|Hq]]; [left; left; apply root_in_ptrs| |by left; right].
    apply reroot_ptrs in Hq as [->|[Hq _]]; [right; unfold h; lia|by left; left].
  - intros q Hq [n Hn]. pose proof (winv_lt _ _ _ (fr_inv _ _ _ Hf) Hn) as Hlt. assert (next w2 = h + 1) as En by done.
    cbn [ptrs map concat]. rewrite app_nil_r, elem_of_cons, !elem_of_app. destruct Hq as [Hq|Hq].
    + rewrite elem_of_app in Hq. destruct Hq as [Hq|Hq]; [|tauto]. destruct (decide (q = root t)); [tauto|]. right. left. by apply ptrs_reroot.
    + right. left. replace q with h by (unfold h in *; lia). destruct t; left.
Qed.

(** *** Insertion of values *)

Lemma gap_trans l p a l1 b l2 : gap l p a l1 -> gap l1 (p + a) b l2 -> 0 <= p <= len l -> 0 <= a -> 0 <= b -> gap l p (a + b) l2.
Proof.
  intros (x & Hx & ->) (y & Hy & ->) Hp Ha Hb. exists (x ++ y). split; [rewrite length_app; lia|].
  assert (length (take (Z.to_nat p) l ++ x) = Z.to_nat (p + a)) as E by (rewrite length_app, length_take; lia).
  rewrite !(app_assoc (take (Z.to_nat p) l) x). rewrite take_app_length', drop_app_length' by done. by rewrite <- !app_assoc.
Qed.

Lemma gap_zero l p : 0 <= p -> gap l p 0 l.
Proof. intros Hp. exists []. split; [done|]. by rewrite app_nil_l, take_drop. Qed.

(** What an insertion into the root leaves is a storage again. *)
Lemma insert_round w t byteNum size :
  storage_ok w t -> 0 <= byteNum <= len (bytes t) -> (vs | byteNum) -> 0 < size <= cap -> (vs | size) -> len (bytes t) + size < 2 ^ 62 ->
  exists w' t', (let! depth := depth_fuel in
                 let! newNodes := __CFStorageInsertUnfrozen depth (rootNode (storage w)) byteNum size byteNum in
                 when (negb (sibling newNodes =? 0)) (deepen_root (sibling newNodes))) w = Some (tt, w') /\
    moved w t w' t' /\ gap (bytes t) byteNum size (bytes t').
Proof.
  intros [Hw Hs Hroot Hr Hnd Hsh Hc] Hb Db Hsize Ds Hmax. erewrite (bind_step depth_fuel) by reflexivity. rewrite <- Hroot.
  destruct (insert_unfrozen_spec t (S (base.size (nodes w))) w 0 byteNum size 0) as (r & w1 & E & Hins); try done; [|by exists 0|].
  { pose proof (depth_enough w 0 t Hr Hnd). lia. }
  rewrite Z.add_0_l in E. rewrite (bind_step _ _ _ _ _ E).
  destruct Hins as (t' & ss & Hss & Hrt & -> & Rt & Rs & Sh & Nd & Ip & G & F & C & X). cbn [sibling].
  pose proof (entry_zero w1 ss (fr_inv _ _ _ F) Rs Hss) as Hez. apply Forall_cons in Sh as [Sh Ss].
  destruct ss as [|s [|? ?]]; [| |simpl in Hss; lia].
  - exists w1, t'. split; [done|]. cbn [map concat] in *. rewrite !app_nil_r in *. split; [constructor; [constructor|done|done|done]|done].
    + apply F.
    + by apply (framed_settings _ _ _ F).
    + by rewrite Hrt, Hroot, (fr_storage _ _ _ F).
    + done.
    + done.
    + by left.
    + by right.
  - rewrite (proj2 (Z.eqb_neq _ 0)) by (by intros ?%Hez). cbn [negb when]. change (entry (map root [s]) 0) with (root s).
    cbn [map concat] in *. rewrite !app_nil_r in *. apply Forall_cons in Rs as [Rs _]. apply Forall_cons in Ss as [Ss _].
    destruct (deepen_root_spec w1 t' s) as (w2 & t2 & E2 & Hok & Hby & F2 & I2 & X2); try done; [apply F|by apply (framed_settings _ _ _ F)| |by right|].
    { by rewrite Hrt, Hroot, (fr_storage _ _ _ F). }
    exists w2, t2. split; [done|]. rewrite Hby. split; [constructor; [done| | |]|done].
    + eapply framed_cover; [exact F|exact F2|]. intros q Hq. apply Ip. rewrite elem_of_app. by left.
    + intros q [Hq|Hq]%I2; [by apply Ip|]. right. pose proof (fr_next _ _ _ F). lia.
    + intros q Hq Hso. pose proof (fr_next _ _ _ F2). destruct (decide (next w1 <= q)); [by apply X2; [right|]|]. apply X2; [|done].
      destruct (decide (q ∈ ptrs t')) as [Hin|Hni]; [left; rewrite elem_of_app; by left|].
      rewrite (fr_nodes _ _ _ F2) in Hso by (done || lia). left. by apply X.
Qed.

Lemma insert_loop_spec fuel : forall w t byteNum n,
  (Z.to_nat n <= fuel)%nat -> storage_ok w t -> 0 <= byteNum <= len (bytes t) -> (vs | byteNum) -> 0 <= n -> (vs | n) -> len (bytes t) + n < 2 ^ 62 ->
  exists w' t', insert_loop fuel byteNum n w = Some (tt, w') /\ moved w t w' t' /\ gap (bytes t) byteNum n (bytes t').
Proof.
  induction fuel as [|fuel IH]; intros w t byteNum n Hf Hok Hb Db Hn Dn Hmax; cbn [insert_loop]; destruct (Z.ltb_spec 0 n) as [Hp|Hp]; try lia.
  1,3: assert (n = 0) as -> by lia; exists w, t; split_and!; [done|by apply moved_refl|apply gap_zero; lia].
  erewrite (bind_step get_storage) by reflexivity. cbv zeta. rewrite (set_cap _ (so_settings _ _ Hok)). set (k := Z.min n cap).
  assert (0 < k <= cap /\ (vs | k)) as [Hk Dk] by (unfold k; destruct (Z.min_spec n cap) as [[? ->]|[? ->]]; split; done || lia).
  destruct (insert_round w t byteNum k Hok Hb Db Hk Dk) as (w1 & t1 & E & Hm & G); [unfold k in *; lia|].
  assert ((let! depth := depth_fuel in let! newNodes := __CFStorageInsertUnfrozen depth (rootNode (storage w)) byteNum k byteNum in
           let! _ := when (negb (sibling newNodes =? 0)) (deepen_root (sibling newNodes)) in insert_loop fuel (byteNum + k) (n - k)) w =
          insert_loop fuel (byteNum + k) (n - k) w1) as ->.
  { revert E. unfold bind. destruct (depth_fuel w) as [[d u]|]; [|done]. destruct (__CFStorageInsertUnfrozen d _ _ _ _ u) as [[r u1]|]; [|done]. by intros ->. }
  pose proof (gap_length _ _ _ _ G Hb) as Hl. destruct (IH w1 t1 (byteNum + k) (n - k)) as (w2 & t2 & E2 & Hm2 & G2).
  { unfold k in *. lia. } { apply Hm. } { lia. } { by apply Z.divide_add_r. } { unfold k in *; lia. } { by apply Z.divide_sub_r. } { unfold k in *; lia. }
  exists w2, t2. split_and!; [done|by eapply moved_trans|]. replace n with (k + (n - k)) by lia. eapply gap_trans; try done; unfold k in *; lia.
Qed.

(** Values are whole numbers of bytes. *)
Lemma InsertValues_spec w t loc n :
  storage_ok w t -> 0 <= loc -> loc * vs <= len (bytes t) -> 0 <= n -> len (bytes t) + n * vs < 2 ^ 62 ->
  exists w' t', CFStorageInsertValues (CFRangeMake loc n) w = Some (tt, w') /\ moved w t w' t' /\ gap (bytes t) (loc * vs) (n * vs) (bytes t').
Proof.
  intros Hok Hloc Hle Hn Hmax. unfold CFStorageInsertValues. erewrite (bind_step get_storage) by reflexivity. cbv zeta. cbn [location range_length].
  rewrite !(set_to_byte _ (so_settings _ _ Hok)) by nia. apply insert_loop_spec; try done; try nia.
  - by exists loc.
  - by exists n.
Qed.

End Storage.
