(* ===== verification/CFStorageDelete.v ===== *)
(** * CFStorage: deletion

    A deletion takes the bytes of its range out of the tree.  Branches hand
    the children they keep to their parent with one reference more, let go of
    all their children and disappear when one child is left; the root clears
    its contents or takes over those of the child that is left.  No node that
    is no longer part of the tree stays behind. *)

From S2P Require Import Prelude CFInternal CFStorage CFStorageTree.
From stdpp Require Import base list numbers option gmap.
From Stdlib Require Import ZArith Lia.
Open Scope Z_scope.
Open Scope cf_scope.

(** ** Lists without a range *)

(** What is left without the entries from [a] to [b]. *)
Definition cut {A} (l : list A) (a b : Z) : list A := take (Z.to_nat a) l ++ drop (Z.to_nat b) l.

Lemma cut_app {A} (l1 l2 : list A) a b : a <= b -> cut (l1 ++ l2) a b = cut l1 a b ++ cut l2 (a - len l1) (b - len l1).
Proof.
  intros Hab. unfold cut. rewrite take_app, drop_app.
  replace (Z.to_nat a - length l1)%nat with (Z.to_nat (a - len l1)) by lia. replace (Z.to_nat b - length l1)%nat with (Z.to_nat (b - len l1)) by lia.
  destruct (decide (Z.to_nat b <= length l1)%nat) as [Hle|Hgt].
  - replace (Z.to_nat (a - len l1)) with 0%nat by lia. replace (Z.to_nat (b - len l1)) with 0%nat by lia. by rewrite take_0, drop_0, app_nil_r, app_nil_l, <- app_assoc.
  - rewrite (drop_ge l1) by lia. by rewrite app_nil_r, app_nil_l, <- app_assoc.
Qed.

Lemma cut_none {A} (l : list A) a b : a <= b -> b <= 0 \/ len l <= a \/ a = b -> cut l a b = l.
Proof.
  intros Hab [H|[H| ->]]; unfold cut; [| |by apply take_drop].
  - replace (Z.to_nat a) with 0%nat by lia. replace (Z.to_nat b) with 0%nat by lia. by rewrite take_0, drop_0.
  - rewrite take_ge, drop_ge by lia. by rewrite app_nil_r.
Qed.

Lemma cut_clamp {A} (l : list A) a b : cut l (Z.max a 0) (Z.min b (len l)) = cut l a b.
Proof.
  unfold cut. replace (Z.to_nat (Z.max a 0)) with (Z.to_nat a) by lia. f_equal.
  destruct (Z.min_spec b (len l)) as [[? ->]|[? ->]]; [done|]. rewrite !drop_ge by lia. done.
Qed.

Lemma length_cut {A} (l : list A) a b : 0 <= a <= b -> b <= len l -> len (cut l a b) = len l - (b - a).
Proof. intros. unfold cut. rewrite length_app, length_take, length_drop. lia. Qed.

Lemma cut_all {A} (l : list A) a b : 0 <= a <= b -> b <= len l -> b - a = len l -> cut l a b = [].
Proof. intros H1 H2 H3. apply length_zero_iff_nil. pose proof (length_cut l a b H1 H2). lia. Qed.

(** ** Changes of some nodes *)

(** Only the nodes [P] are changed, and none is created. *)
Record local (P : list Z) (w w' : world) : Prop := mkLocal {
  lo_next : next w' = next w;
  lo_storage : storage w' = storage w;
  lo_nodes : forall q, q ∉ P -> nodes w' !! q = nodes w !! q;
  lo_dom : forall q, is_Some (nodes w' !! q) -> is_Some (nodes w !! q)
}.

Lemma local_refl P w : local P w w.
Proof. by constructor. Qed.

Lemma local_trans P w w1 w2 : local P w w1 -> local P w1 w2 -> local P w w2.
Proof. intros [N1 S1 F1 D1] [N2 S2 F2 D2]. constructor; [congruence|congruence| |auto]. intros q Hq. rewrite F2, F1; done. Qed.

Lemma local_mono P Q w w' : P ⊆ Q -> local P w w' -> local Q w w'.
Proof. intros HPQ [N S F D]. constructor; try done. intros q Hq. apply F. intros Hin. by apply Hq, HPQ. Qed.

Lemma local_upd P w p n : is_Some (nodes w !! p) -> p ∈ P -> local P w (upd w p n).
Proof.
  intros Hp HP. constructor; [done|done| |].
  - intros q Hq. rewrite nodes_upd, lookup_insert_ne; [done|]. by intros ->.
  - intros q. rewrite nodes_upd. destruct (decide (p = q)) as [<-|]; [done|]. by rewrite lookup_insert_ne.
Qed.

Lemma local_upd_step P w w1 p n : local P w w1 -> is_Some (nodes w1 !! p) -> p ∈ P -> local P w (upd w1 p n).
Proof. intros H1 H2 H3. eapply local_trans; [exact H1|by apply local_upd]. Qed.

Lemma local_inv P w w' : local P w w' -> winv w -> winv w'.
Proof. intros [N S F D] [H0 H]. split; [by rewrite N|]. intros p n Hp. destruct (D p) as [m Hm]; [by eexists|]. rewrite N. by apply (H p m). Qed.

Lemma local_framed P w w' : local P w w' -> winv w -> framed P w w'.
Proof.
  intros Hl Hw. constructor; [by eapply local_inv|rewrite (lo_next _ _ _ Hl); lia|intros q _ Hq; by apply (lo_nodes _ _ _ Hl)|].
  rewrite (lo_storage _ _ _ Hl). by destruct (storage w).
Qed.

(** ** References *)

Definition retained (rc : Z) : Z := if 0 <? rc then rc + 1 else rc.

Lemma retain_ok w p nb rc fz i :
  nodes w !! p = Some (mkNode nb rc fz i) -> 0 <= rc < 2 ^ 31 ->
  __CFStorageRetainNode p w = Some (tt, upd w p (mkNode nb (retained rc) fz i)).
Proof.
  intros Hp Hrc. unfold __CFStorageRetainNode, retained. getn. destruct (Z.ltb_spec 0 rc); cbn [when].
  - rewrite uwrap_id by (unfold in_unsigned; lia). by erewrite set_node_ok.
  - unfold ret. by rewrite upd_id.
Qed.

(** The world without the nodes [l]. *)
Definition without (l : list Z) (w : world) : world := with_nodes w (foldr delete (nodes w) l).

Lemma without_lookup l w q : nodes (without l w) !! q = if bool_decide (q ∈ l) then None else nodes w !! q.
Proof.
  unfold without. cbn [with_nodes nodes]. case_bool_decide as H.
  - induction l as [|p l IH]; [by apply elem_of_nil in H|]. simpl. destruct (decide (p = q)) as [->|Hne]; [apply lookup_delete_eq|].
    rewrite lookup_delete_ne by done. apply IH. by apply elem_of_cons in H as [->|].
  - induction l as [|p l IH]; [done|]. simpl. rewrite elem_of_cons in H. rewrite lookup_delete_ne by (intros ->; tauto). apply IH. tauto.
Qed.

Lemma without_out l w q : q ∉ l -> nodes (without l w) !! q = nodes w !! q.
Proof. intros H. rewrite without_lookup. by rewrite bool_decide_eq_false_2. Qed.

Lemma without_in l w q : q ∈ l -> nodes (without l w) !! q = None.
Proof. intros H. rewrite without_lookup. by rewrite bool_decide_eq_true_2. Qed.

Lemma local_without P l w : l ⊆ P -> local P w (without l w).
Proof.
  intros HP. constructor; [done|done| |].
  - intros q Hq. apply without_out. intros Hin. by apply Hq, HP.
  - intros q. rewrite without_lookup. case_bool_decide; [by intros []|done].
Qed.

Lemma world_ext w w' : next w = next w' -> storage w = storage w' -> (forall q, nodes w !! q = nodes w' !! q) -> w = w'.
Proof. destruct w, w'. simpl. intros -> -> H. f_equal. by apply map_eq. Qed.

Fixpoint release_list (f : Z -> M unit) (l : list Z) : M unit :=
  match l with [] => ret tt | p :: l => let! _ := f p in release_list f l end.

Lemma bind_tt (m : M unit) w : (let! _ := m in ret tt) w = m w.
Proof. unfold bind. by destruct (m w) as [[[] ?]|]. Qed.

(** The pointers of a branch one after the other. *)
Lemma release_three f l w :
  (1 <= length l <= 3)%nat -> Forall (fun p => p <> 0) l ->
  (let! _ := null_check f (entry l 0) in let! _ := null_check f (entry l 1) in null_check f (entry l 2)) w = release_list f l w.
Proof.
  intros Hl Hn. unfold null_check. rewrite list.Forall_forall in Hn.
  assert (forall p, p ∈ l -> (p =? 0) = false) as H by (intros p Hp; by apply Z.eqb_neq, Hn).
  destruct l as [|a [|b [|c [|? ?]]]]; simpl in Hl; try lia; unfold entry; cbn [lookup list_lookup default from_option]; cbv [id];
    rewrite ?H by set_solver; cbn [Z.eqb negb when release_list]; unfold bind; destruct (f a w) as [[[] w1]|]; try done;
    destruct (f b w1) as [[[] w2]|]; try done; by destruct (f c w2) as [[[] w3]|].
Qed.

Lemma release_first {A} f l (k : M A) w w' :
  (1 <= length l <= 3)%nat -> Forall (fun p => p <> 0) l -> release_list f l w = Some (tt, w') ->
  (let! _ := f (entry l 0) in let! _ := null_check f (entry l 1) in let! _ := null_check f (entry l 2) in k) w = k w'.
Proof.
  intros Hl Hn E. rewrite <- release_three in E by done. revert E. unfold null_check at 1.
  assert (entry l 0 <> 0) as H0 by (destruct l; [simpl in Hl; lia|]; by apply Forall_cons in Hn as [? _]). rewrite (proj2 (Z.eqb_neq _ 0) H0). cbn [negb when].
  unfold bind. destruct (f (entry l 0) w) as [[[] w1]|]; [|done]. destruct (null_check f (entry l 1) w1) as [[[] w2]|]; [|done]. by intros ->.
Qed.

Lemma retain_first {A} f l (k : M A) w w' :
  (2 <= length l <= 3)%nat -> Forall (fun p => p <> 0) l -> release_list f l w = Some (tt, w') ->
  (let! _ := f (entry l 0) in let! _ := f (entry l 1) in let! _ := null_check f (entry l 2) in k) w = k w'.
Proof.
  intros Hl Hn E. rewrite <- (release_first f l k w w') by (done || lia). unfold null_check at 2.
  assert (entry l 1 <> 0) as H1 by (destruct l as [|? [|? ?]]; [simpl in Hl; lia..|]; by apply Forall_cons in Hn as [_ [? _]%Forall_cons]).
  by rewrite (proj2 (Z.eqb_neq _ 0) H1).
Qed.

Lemma without_without l1 l2 w : without l2 (without l1 w) = without (l1 ++ l2) w.
Proof.
  apply world_ext; [done|done|]. intros q. rewrite !without_lookup. repeat case_bool_decide; try done; rewrite elem_of_app in *; tauto.
Qed.

Lemma release_children f ks : forall w,
  winv w -> (forall k w, k ∈ ks -> winv w -> rep (nodes w) 1 k -> f (root k) w = Some (tt, without (ptrs k) w)) -> Forall (rep (nodes w) 1) ks -> NoDup (ptrs_of ks) ->
  release_list f (map root ks) w = Some (tt, without (ptrs_of ks) w).
Proof.
  induction ks as [|k ks IH]; intros w Hw Hf Hr Hn; [by destruct w|]. simpl. apply Forall_cons in Hr as [Hk Hr]. cbn [map concat] in Hn. apply NoDup_app in Hn as (N1 & D & N2).
  rewrite (bind_step _ _ _ _ _ (Hf k w ltac:(left) Hw Hk)). rewrite IH; [by rewrite without_without| | | |done].
  - by apply (local_inv _ _ _ (local_without (ptrs k) (ptrs k) w ltac:(done))).
  - intros k' w' Hk'. apply Hf. by right.
  - apply (trees_rep_frame (nodes w)); [|done]. intros q Hq. apply without_out. intros Hin. by apply (D q).
Qed.

Lemma rep_roots w ks : winv w -> Forall (rep (nodes w) 1) ks -> Forall (fun p => p <> 0) (map root ks).
Proof.
  intros Hw Hr. apply list.Forall_forall. intros p Hp. apply list_elem_of_fmap in Hp as (k & -> & Hk). rewrite list.Forall_forall in Hr.
  destruct (rep_root _ _ _ (Hr k Hk)) as (i & Hi & _). pose proof (winv_lt _ _ _ Hw Hi). lia.
Qed.

Lemma nodup_child k ks : k ∈ ks -> NoDup (ptrs_of ks) -> NoDup (ptrs k).
Proof.
  intros Hk Hn. apply list_elem_of_split in Hk as (l1 & l2 & ->). rewrite ptrs_of_app in Hn.
  cbn [map concat] in Hn. by apply NoDup_app in Hn as (_ & _ & (? & _ & _)%NoDup_app).
Qed.

(** The last reference to a tree: all its nodes are freed. *)
Lemma release_tree c v t : forall fuel w,
  (height t <= fuel)%nat -> winv w -> rep (nodes w) 1 t -> NoDup (ptrs t) -> shaped c v t ->
  release_node fuel (root t) w = Some (tt, without (ptrs t) w).
Proof.
  induction t as [p bs|p ks IH] using tree_nested_ind; intros fuel w Hf Hw Hr Hn Hs; (destruct fuel as [|fuel]; [simpl in Hf; lia|]); cbn [release_node root].
  - destruct Hr as (n & Hp & c' & m & cr & -> & _). getn. cbn [Z.ltb Z.compare when]. setn. change (uwrap 32 (1 - 1) =? 0) with true. cbn [when].
    unfold __CFStorageDeallocateNode. getn. cbn [with_refCount info]. erewrite (bind_step (ret tt)) by reflexivity. unfold free_node. do 2 f_equal.
    apply world_ext; [done|done|]. intros q. rewrite without_lookup. cbn [with_nodes nodes upd ptrs]. case_bool_decide as H.
    + apply list_elem_of_singleton in H as ->. apply lookup_delete_eq.
    + rewrite list_elem_of_singleton in H. by rewrite lookup_delete_ne, lookup_insert_ne by done.
  - apply rep_branch in Hr as [Hp Hr]. apply shaped_branch in Hs as [Hl Hs]. cbn [ptrs] in Hn. apply NoDup_cons in Hn as [Hpn Hn].
    getn. cbn [Z.ltb Z.compare when]. setn. change (uwrap 32 (1 - 1) =? 0) with true. cbn [when].
    unfold __CFStorageDeallocateNode. getn. cbn [with_refCount info slots]. set (w1 := upd w p _).
    assert (forall q, q ∈ ptrs_of ks -> nodes w1 !! q = nodes w !! q) as Hfr
      by (intros q Hq; unfold w1; rewrite nodes_upd, lookup_insert_ne; [done|by intros ->]).
    assert (winv w1) as Hw1 by (eapply local_inv; [|exact Hw]; apply (local_upd [p]); [by eexists|left]).
    apply (trees_rep_frame _ (nodes w1)) in Hr; [|done].
    erewrite bind_step; [|rewrite release_three; [|rewrite length_map; lia|by apply (rep_roots w1)]; apply release_children; [done| |done|done]].
    + unfold free_node. do 2 f_equal. apply world_ext; [done|done|]. intros q. rewrite without_lookup. cbn [with_nodes nodes ptrs].
      destruct (decide (p = q)) as [<-|Hne]; [rewrite lookup_delete_eq, bool_decide_eq_true_2; [done|left]|].
      rewrite lookup_delete_ne, without_lookup by done. unfold w1. rewrite nodes_upd, lookup_insert_ne by done.
      repeat case_bool_decide; try done; rewrite elem_of_cons in *; naive_solver.
    + intros k w' Hk Hw' Rk. rewrite list.Forall_forall in IH, Hs.
      apply IH; try done; [pose proof (height_child k ks Hk); simpl in Hf; lia|by apply (nodup_child k ks)|by apply Hs].
Qed.

Section Storage.
Context {L : Layout}.
Let Hvs : 0 < vs := vs_pos.
Let Hcap : 0 < cap < 2 ^ 30 := cap_range.
Let Hdiv : (vs | cap) := cap_divide.

(** ** What becomes of a child *)

Definition olist (o : option tree) : list tree := match o with Some t => [t] | None => [] end.
Notation olists os := (concat (map olist os)).

(** After a deletion, and before the parent lets go of the child: the child is
    as it was and is to be freed; or it has changed and has one more reference;
    or one of its descendants takes its place and the child is an empty shell. *)
Definition pending (H : gmap Z CFStorageNode) (rc : Z) (t : tree) (o : option tree) : Prop :=
  match o with
  | None => rep H rc t
  | Some t' =>
      (root t' = root t /\ rep H (retained rc) t' \/
       root t' <> root t /\ rep H 1 t' /\ root t ∉ ptrs t' /\ exists nb, H !! root t = Some (mkNode nb rc false (NotLeaf 0 0 0))) /\
      ptrs t' ⊆ ptrs t /\ NoDup (ptrs t') /\ shaped cap vs t' /\
      (forall q, q ∈ ptrs t -> is_Some (H !! q) -> q ∈ ptrs t' \/ q = root t)
  end.

Lemma pending_frame H H' rc t o : (forall q, q ∈ ptrs t -> H' !! q = H !! q) -> pending H rc t o -> pending H' rc t o.
Proof.
  intros Hf. destruct o as [t'|]; simpl; [|by apply tree_rep_frame]. intros (Hor & Hsub & Hn & Hs & Hx).
  split_and!; [|done|done|done|intros q Hq; rewrite Hf by done; by apply Hx].
  destruct Hor as [[Hr Ht]|(Hr & Ht & Hni & nb & Hnb)]; [left|right]; split_and!; try done.
  - apply (tree_rep_frame H); [|done]. intros q Hq%Hsub. by apply Hf.
  - apply (tree_rep_frame H); [|done]. intros q Hq%Hsub. by apply Hf.
  - exists nb. rewrite Hf; [done|apply root_in_ptrs].
Qed.

Lemma rep_recount H rc rc' t nb i :
  rep H rc t -> NoDup (ptrs t) -> H !! root t = Some (mkNode nb rc false i) -> rep (<[root t := mkNode nb rc' false i]> H) rc' t.
Proof.
  destruct t as [p bs|p ks]; cbn [root].
  - intros (n & Hn & c & m & cr & -> & Hh) _ Hi. rewrite Hn in Hi. injection Hi as <- <-. eexists. split; [apply lookup_insert_eq|]. by exists c, m, cr.
  - rewrite !rep_branch. intros [Hp Hks] Hn Hi. rewrite Hp in Hi. injection Hi as <- <-. split; [apply lookup_insert_eq|].
    cbn [ptrs] in Hn. apply NoDup_cons in Hn as [Hn _]. apply (trees_rep_frame H); [|done]. intros q Hq. apply lookup_insert_ne. by intros ->.
Qed.

Lemma release_pending fuel w t o :
  (o = None -> (height t <= fuel)%nat) -> (0 < fuel)%nat -> winv w -> NoDup (ptrs t) -> shaped cap vs t -> pending (nodes w) 1 t o ->
  exists w', release_node fuel (root t) w = Some (tt, w') /\ local (ptrs t) w w' /\ Forall (rep (nodes w') 1) (olist o) /\
    (forall q, q ∈ ptrs t -> is_Some (nodes w' !! q) -> q ∈ ptrs_of (olist o)).
Proof.
  intros Hf H0 Hw Hn Hs Hp. destruct o as [t'|]; simpl in Hp |- *.
  2:{ exists (without (ptrs t) w). split_and!; [by apply (release_tree cap vs); [apply Hf|..]|by apply local_without|constructor|].
      intros q Hq. rewrite without_in by done. by intros []. }
  destruct fuel as [|fuel]; [lia|]. cbn [release_node]. rewrite app_nil_r.
  destruct Hp as ([[Hr Ht]|(Hr & Ht & Hni & nb & Hnb)] & Hsub & Hn' & Hs' & Hx).
  - destruct (rep_root _ _ _ Ht) as (i & Hi & _). pose proof (rep_recount _ _ 1 _ _ _ Ht Hn' Hi) as Hrr. rewrite Hr in Hi, Hrr. getn.
    change (0 <? retained 1) with true. cbn [when]. setn. change (uwrap 32 (retained 1 - 1) =? 0) with false. cbn [when].
    eexists. split; [reflexivity|]. split_and!; [apply local_upd; [by eexists|apply root_in_ptrs]|constructor; [exact Hrr|constructor]|].
    intros q Hq Hsome. destruct (decide (q = root t)) as [->|Hne]; [rewrite <- Hr; apply root_in_ptrs|].
    rewrite nodes_upd, lookup_insert_ne in Hsome by done. by destruct (Hx q Hq Hsome).
  - getn. change (0 <? 1) with true. cbn [when]. setn. change (uwrap 32 (1 - 1) =? 0) with true. cbn [when].
    unfold __CFStorageDeallocateNode. getn. cbn [with_refCount info]. unfold null_check. cbn [Z.eqb negb when].
    erewrite (bind_step _ _ _ tt) by reflexivity. unfold free_node. eexists. split; [reflexivity|]. split_and!.
    + constructor; [done|done| |].
      * intros q Hq. cbn [with_nodes nodes upd]. assert (root t <> q) by (intros <-; apply Hq, root_in_ptrs). by rewrite lookup_delete_ne, lookup_insert_ne.
      * intros q. cbn [with_nodes nodes upd]. destruct (decide (root t = q)) as [<-|]; [rewrite lookup_delete_eq; by intros []|].
        by rewrite lookup_delete_ne, lookup_insert_ne.
    + constructor; [|constructor]. apply (tree_rep_frame (nodes w)); [|done]. intros q Hq. cbn [with_nodes nodes upd].
      assert (root t <> q) by (by intros <-). by rewrite lookup_delete_ne, lookup_insert_ne.
    + intros q Hq. cbn [with_nodes nodes upd]. destruct (decide (root t = q)) as [<-|]; [rewrite lookup_delete_eq; by intros []|].
      rewrite lookup_delete_ne, lookup_insert_ne by done. intros Hsome. by destruct (Hx q Hq Hsome).
Qed.

Lemma pending_ptrs H rc t o q : pending H rc t o -> q ∈ ptrs_of (olist o) -> q ∈ ptrs t.
Proof. destruct o as [t'|]; simpl; [|by intros _ ?%elem_of_nil]. rewrite app_nil_r. intros (_ & Hsub & _). apply Hsub. Qed.

Lemma pendings_ptrs H rc ks os q : Forall2 (pending H rc) ks os -> q ∈ ptrs_of (olists os) -> q ∈ ptrs_of ks.
Proof.
  induction 1 as [|k o ks os Hp _ IH]; [done|]. cbn [map concat]. rewrite ptrs_of_app, !elem_of_app. intros [Hq|Hq]; [|by right; apply IH].
  left. by apply (pending_ptrs H rc k o).
Qed.

Lemma Forall2_pending_frame H H' rc ks os : (forall q, q ∈ ptrs_of ks -> H' !! q = H !! q) -> Forall2 (pending H rc) ks os -> Forall2 (pending H' rc) ks os.
Proof.
  intros Hf. induction 1 as [|k o ks os Hp _ IH]; constructor; cbn [map concat] in Hf.
  - apply (pending_frame H); [|done]. intros q Hq. apply Hf. rewrite elem_of_app. by left.
  - apply IH. intros q Hq. apply Hf. rewrite elem_of_app. by right.
Qed.

(** Letting go of a child. *)
Definition releases (f : Z -> M unit) (k : tree) (o : option tree) : Prop :=
  forall w, winv w -> NoDup (ptrs k) -> shaped cap vs k -> pending (nodes w) 1 k o ->
    exists w', f (root k) w = Some (tt, w') /\ local (ptrs k) w w' /\ Forall (rep (nodes w') 1) (olist o) /\
      (forall q, q ∈ ptrs k -> is_Some (nodes w' !! q) -> q ∈ ptrs_of (olist o)).

Lemma release_node_releases fuel k o : (0 < fuel)%nat -> (o = None -> height k <= fuel)%nat -> releases (release_node fuel) k o.
Proof. intros H0 Hf w Hw Hn Hs Hp. by apply release_pending. Qed.

Lemma ReleaseNode_releases k o : releases __CFStorageReleaseNode k o.
Proof.
  intros w Hw Hn Hs Hp. apply release_pending; try done; [|lia]. intros ->. pose proof (depth_enough w 1 k Hp Hn). lia.
Qed.

(** The parent lets go of its children. *)
Lemma release_pendings f ks os : forall w,
  Forall2 (releases f) ks os -> winv w -> NoDup (ptrs_of ks) -> Forall (shaped cap vs) ks -> Forall2 (pending (nodes w) 1) ks os ->
  exists w', release_list f (map root ks) w = Some (tt, w') /\ local (ptrs_of ks) w w' /\
    Forall (rep (nodes w') 1) (olists os) /\ (forall q, q ∈ ptrs_of ks -> is_Some (nodes w' !! q) -> q ∈ ptrs_of (olists os)).
Proof.
  revert os. induction ks as [|k ks IH]; intros os w Hf Hw Hn Hs Hp; inversion Hp as [|? o ? os' Hk Hks]; subst.
  { exists w. split_and!; [done|apply local_refl|constructor|]. by intros q ?%elem_of_nil. }
  inversion Hf as [|? ? ? ? Hf1 Hf2]; subst. cbn [map concat] in Hn. apply NoDup_app in Hn as (N1 & D & N2). apply Forall_cons in Hs as [S1 S2].
  destruct (Hf1 w Hw N1 S1 Hk) as (w1 & E1 & L1 & R1 & X1).
  destruct (IH os' w1) as (w2 & E2 & L2 & R2 & X2); [done|by eapply local_inv|done|done| |].
  { apply (Forall2_pending_frame (nodes w)); [|done]. intros q Hq. apply (lo_nodes _ _ _ L1). intros Hin. by apply (D q). }
  exists w2. cbn [map release_list concat]. rewrite (bind_step _ _ w tt w1) by done. split_and!; [done| | |].
  - eapply local_trans; [eapply local_mono; [|exact L1]|eapply local_mono; [|exact L2]]; intros q Hq; rewrite elem_of_app; tauto.
  - apply Forall_app. split; [|done]. apply (trees_rep_frame (nodes w1)); [|done]. intros q Hq. apply (lo_nodes _ _ _ L2).
    intros Hin. apply (D q); [|done]. by apply (pending_ptrs (nodes w) 1 k o).
  - intros q. rewrite ptrs_of_app, !elem_of_app. intros [Hq|Hq] Hsome; [|by right; apply X2]. left. apply X1; [done|].
    rewrite <- (lo_nodes _ _ _ L2); [done|]. intros Hin. by apply (D q).
Qed.

(** ** Deletion in a tree *)

Definition outcome (w : world) (t : tree) (rc a n r : Z) (w' : world) : Prop :=
  exists o, r = default 0 (root <$> o) /\ pending (nodes w') rc t o /\ bytes_of (olist o) = cut (bytes t) a (a + n) /\ local (ptrs t) w w'.

Lemma outcome_gone w t rc a n : rep (nodes w) rc t -> 0 <= a -> a + n <= len (bytes t) -> n = len (bytes t) -> outcome w t rc a n 0 w.
Proof. intros Hr Ha Hb Hn. exists None. split_and!; [done|done| |apply local_refl]. simpl. by rewrite cut_all by lia. Qed.

Lemma shaped_cut (bs : memory_block) a n : 0 <= a -> 0 <= n < len bs -> a + n <= len bs <= cap -> (vs | len bs) -> (vs | n) ->
  len (cut bs a (a + n)) = len bs - n /\ 0 < len (cut bs a (a + n)) <= cap /\ (vs | len (cut bs a (a + n))).
Proof. intros. rewrite length_cut by lia. replace (len bs - (a + n - a)) with (len bs - n) by lia. split_and!; [done|lia|lia|by apply Z.divide_sub_r]. Qed.

(** Leaves that hold no memory have nothing to move. *)
Lemma cut_replicate (bs : memory_block) a b : bs = replicate (length bs) None -> cut bs a b = replicate (length (cut bs a b)) None.
Proof.
  intros E. unfold cut. rewrite length_app, replicate_add, length_take, length_drop. f_equal; rewrite E at 1.
  - by rewrite take_replicate, Nat.min_comm.
  - by rewrite drop_replicate.
Qed.

(** The bytes behind the range move to the front. *)
Lemma cut_moved (m bs : memory_block) a n :
  take (length bs) m = bs -> 0 <= a -> 0 <= n -> a + n <= len bs -> len bs <= len m ->
  take (length bs - Z.to_nat n) (take (Z.to_nat a) m ++ take (Z.to_nat (len bs - n - a)) (drop (Z.to_nat (a + n)) m) ++ drop (Z.to_nat (a + (len bs - n - a))) m) =
    cut bs a (a + n).
Proof.
  intros E Ha Hn Han Hm. unfold cut. rewrite app_assoc, take_app_length' by (rewrite length_app, !length_take, length_drop; lia).
  rewrite <- E at 2 3. rewrite take_take, Nat.min_l by lia. f_equal. rewrite take_drop_commute. do 2 f_equal. lia.
Qed.

Lemma retained_small rc : 0 <= rc -> 0 <= retained rc.
Proof. unfold retained. destruct (Z.ltb_spec 0 rc); lia. Qed.

Lemma delete_leaf_spec w p bs rc compact a n :
  settings (storage w) -> rep (nodes w) rc (TLeaf p bs) -> 0 <= rc < 2 ^ 31 -> 0 <= a -> 0 <= n < len bs -> a + n <= len bs <= cap -> (vs | len bs) -> (vs | n) ->
  exists w', (let! _ := delete_in_leaf p (CFRangeMake a n) compact in let! _ := __CFStorageRetainNode p in ret p) w = Some (p, w') /\
    outcome w (TLeaf p bs) rc a n p w'.
Proof.
  intros Hs (nd & Hp & c & m & cr & -> & Hh) Hrc Ha Hn Han Dl Dn. destruct (shaped_cut bs a n) as (El & Hr & Hd); try done.
  assert (exists c' m', delete_in_leaf p (CFRangeMake a n) compact w = Some (tt, upd w p (mkNode (len bs - n) rc false (Leaf c' m' cr))) /\
    holds_bytes c' m' (cut bs a (a + n))) as (c' & m' & E & Hh').
  { unfold delete_in_leaf. getn. setn. cbn [range_length location with_numBytes leaf_memory info numBytes refCount isFrozen].
    destruct m as [m|]; [|exists c, None; split; [done|]; destruct Hh as [-> Hh]; split; [done|by apply cut_replicate]].
    destruct Hh as [Hh Hc]. assert (len bs <= len m) as Hlm by (apply (f_equal length) in Hh; rewrite length_take in Hh; lia).
    erewrite (bind_step (copy_in _ _ _ _ _)) by (eapply copy_in_ok; [find_node|lia..]). rewrite upd_upd.
    pose proof (cut_moved m bs a n Hh Ha ltac:(lia) ltac:(lia) Hlm) as Hcut. set (m2 := take _ m ++ _) in *.
    assert (len m2 = len m) as Hl2 by (unfold m2; rewrite !length_app, !length_take, !length_drop; lia).
    destruct compact; cbn [when].
    - edestruct (alloc_leaf_spec (upd w p (mkNode (len bs - n) rc false (Leaf c (Some m2) cr))) p (len bs - n) true) as (c' & m' & E & Hl & Hc' & Ht);
        [find_node| | | |].
      + destruct Hc as [->| ->]; [by left|right; by exists m2].
      + cbn [storage upd with_nodes]. rewrite (set_cap _ Hs). lia.
      + cbn [storage upd with_nodes]. rewrite (set_cap _ Hs). lia.
      + exists c', (Some m'). cbn [refCount isFrozen]. rewrite E, upd_upd. split; [done|]. split; [|done]. rewrite <- (Nat2Z.id (length (cut _ _ _))), El, Ht. cbn [default from_option id].
        rewrite resize_le by lia. rewrite <- Hcut. f_equal. lia.
    - exists c, (Some m2). split; [done|]. split; [|destruct Hc as [->| ->]; [by left|right; lia]].
      rewrite <- Hcut at 2. f_equal. lia. }
  rewrite (bind_step _ _ _ _ _ E). erewrite (bind_step (__CFStorageRetainNode _)) by (eapply retain_ok; [find_node|done]). rewrite upd_upd.
  eexists. split; [reflexivity|]. exists (Some (TLeaf p (cut bs a (a + n)))). split_and!; [done| | |].
  - split_and!; [|done|apply NoDup_singleton|by split|by left]. left. split; [done|]. eexists. split; [find_node|]. rewrite <- El. by exists c', m', cr.
  - simpl. apply app_nil_r.
  - apply local_upd; [by eexists|left].
Qed.

(** *** The children of a branch *)

Lemma divide_max a b : (vs | a) -> (vs | b) -> (vs | Z.max a b).
Proof. intros. by destruct (Z.max_spec a b) as [[_ ->]|[_ ->]]. Qed.

Lemma divide_min a b : (vs | a) -> (vs | b) -> (vs | Z.min a b).
Proof. intros. by destruct (Z.min_spec a b) as [[_ ->]|[_ ->]]. Qed.

(** A deletion of some bytes of a child. *)
Definition deletes (del : Z -> CFRange -> M Z) (k : tree) : Prop :=
  forall w a n, winv w -> settings (storage w) -> rep (nodes w) 1 k -> NoDup (ptrs k) -> shaped cap vs k ->
    0 <= a -> 0 < n -> a + n <= len (bytes k) -> (vs | a) -> (vs | n) ->
    exists r w', del (root k) (CFRangeMake a n) w = Some (r, w') /\ outcome w k 1 a n r w'.

Lemma retain_outcome w k a b :
  rep (nodes w) 1 k -> NoDup (ptrs k) -> shaped cap vs k -> cut (bytes k) a b = bytes k ->
  exists w', __CFStorageRetainNode (root k) w = Some (tt, w') /\ pending (nodes w') 1 k (Some k) /\ bytes_of (olist (Some k)) = cut (bytes k) a b /\ local (ptrs k) w w'.
Proof.
  intros Hr Hn Hs Hc. destruct (rep_root _ _ _ Hr) as (i & Hi & _). erewrite retain_ok by (done || lia). eexists. split; [reflexivity|].
  split_and!; [|rewrite Hc; apply app_nil_r|apply local_upd; [by eexists|apply root_in_ptrs]].
  unfold pending. split_and!; [left|done|done|done|by left].
  split; [done|]. by apply (rep_recount _ 1).
Qed.

(** One child: it is kept, or the part of the range that is in it is deleted. *)
Lemma populate_child del w k A N off acc :
  deletes del k -> winv w -> settings (storage w) -> rep (nodes w) 1 k -> NoDup (ptrs k) -> shaped cap vs k -> 0 <= N -> (vs | A) -> (vs | N) -> (vs | off) ->
  let overlap := intersectionRange (CFRangeMake A N) (CFRangeMake off (len (bytes k))) in
  exists o w', (if range_length overlap =? 0 then
           let! _ := __CFStorageRetainNode (root k) in
           let! _ := when false (__CFStorageFreezeNode (root k)) in
           ret (acc ++ [root k])
         else
           let rangeOfChildToDelete := CFRangeMake (location overlap - off) (range_length overlap) in
           let! newChild := del (root k) rangeOfChildToDelete in
           ret (if negb (newChild =? 0) then acc ++ [newChild] else acc)) w = Some (acc ++ map root (olist o), w') /\
    pending (nodes w') 1 k o /\ bytes_of (olist o) = cut (bytes k) (A - off) (A + N - off) /\ local (ptrs k) w w'.
Proof.
  intros Hdel Hw Hs Hr Hn Hsh HN DA DN Doff overlap. unfold intersectionRange in overlap. cbn [location range_length] in overlap.
  set (start := Z.max A off) in *. set (end_ := Z.min (A + N) (off + len (bytes k))) in *. unfold overlap. clear overlap.
  pose proof (shaped_divide _ _ _ Hsh) as Dk. pose proof (shaped_pos _ _ _ Hsh) as Pk. destruct (Z.leb_spec end_ start) as [Hle|Hlt]; cbn [range_length location].
  - cbn [Z.eqb when]. destruct (retain_outcome w k (A - off) (A + N - off) Hr Hn Hsh) as (w' & E & Hp & Hb & Hl); [apply cut_none; unfold start, end_ in *; lia|].
    exists (Some k), w'. rewrite (bind_step _ _ _ _ _ E). split_and!; done.
  - rewrite (proj2 (Z.eqb_neq _ 0)) by lia. cbv zeta.
    destruct (Hdel w (start - off) (end_ - start)) as (r & w' & E & o & -> & Hp & Hb & Hl); try done; unfold start, end_ in *; try lia.
    { apply Z.divide_sub_r; [by apply divide_max|done]. }
    { apply Z.divide_sub_r; [apply divide_min; by apply Z.divide_add_r|by apply divide_max]. }
    exists o, w'. rewrite (bind_step _ _ _ _ _ E). split_and!; [|done| |done].
    + unfold ret. destruct o as [t'|]; simpl; [|by rewrite app_nil_r]. destruct Hp as (Hor & _).
      assert (exists i, nodes w' !! root t' = Some i) as [i Hi] by (destruct Hor as [[_ Ht]|(_ & Ht & _)]; destruct (rep_root _ _ _ Ht) as (j & Hj & _); by eexists).
      pose proof (winv_lt _ _ _ (local_inv _ _ _ Hl Hw) Hi). by rewrite (proj2 (Z.eqb_neq _ 0)) by lia.
    + rewrite Hb. rewrite <- (cut_clamp _ (A - off) (A + N - off)). f_equal; lia.
Qed.

Lemma populate_spec del ks : forall w A N off acc tail,
  (tail = [] \/ exists l, tail = 0 :: l) -> Forall (deletes del) ks -> winv w -> settings (storage w) -> Forall (rep (nodes w) 1) ks -> NoDup (ptrs_of ks) ->
  Forall (shaped cap vs) ks -> 0 <= N -> (vs | A) -> (vs | N) -> (vs | off) ->
  exists os w', populate_children del false (CFRangeMake A N) (map root ks ++ tail) off acc w = Some (acc ++ map root (olists os), w') /\
    Forall2 (pending (nodes w') 1) ks os /\ bytes_of (olists os) = cut (bytes_of ks) (A - off) (A + N - off) /\ local (ptrs_of ks) w w'.
Proof.
  induction ks as [|k ks IH]; intros w A N off acc tail Ht Hdel Hw Hs Hr Hn Hsh HN DA DN Doff.
  { exists [], w. split_and!; [|constructor| |apply local_refl].
    - simpl. rewrite app_nil_r. by destruct Ht as [->|[l ->]].
    - unfold cut. simpl. by rewrite take_nil, drop_nil. }
  apply Forall_cons in Hdel as [D1 D2]. apply Forall_cons in Hr as [R1 R2]. apply Forall_cons in Hsh as [S1 S2].
  cbn [map concat] in Hn. apply NoDup_app in Hn as (N1 & Dis & N2). cbn [map app populate_children].
  destruct (rep_root _ _ _ R1) as (i & Hi & _). pose proof (winv_lt _ _ _ Hw Hi). rewrite (proj2 (Z.eqb_neq (root k) 0)) by lia. getn.
  destruct (populate_child del w k A N off acc D1 Hw Hs R1 N1 S1 HN DA DN Doff) as (o & w1 & E1 & P1 & B1 & L1). cbv zeta in E1 |- *.
  rewrite (bind_step _ _ _ _ _ E1).
  destruct (IH w1 A N (off + len (bytes k)) (acc ++ map root (olist o)) tail) as (os & w2 & E2 & P2 & B2 & L2); try done.
  - by eapply local_inv.
  - by rewrite (lo_storage _ _ _ L1).
  - apply (trees_rep_frame (nodes w)); [|done]. intros q Hq. apply (lo_nodes _ _ _ L1). intros Hin. by apply (Dis q).
  - apply Z.divide_add_r; [done|]. by apply (shaped_divide cap).
  - exists (o :: os), w2. cbn [map concat]. rewrite map_app, app_assoc. split_and!; [exact E2| | |].
    + constructor; [|done]. apply (pending_frame (nodes w1)); [|done]. intros q Hq. apply (lo_nodes _ _ _ L2). intros Hin. by apply (Dis q).
    + rewrite bytes_of_app, B1, B2, cut_app by lia. do 2 f_equal; lia.
    + eapply local_trans; [eapply local_mono; [|exact L1]|eapply local_mono; [|exact L2]]; intros q Hq; rewrite elem_of_app; tauto.
Qed.

Lemma pendings_kept H rc ks os :
  Forall2 (pending H rc) ks os -> NoDup (ptrs_of ks) -> NoDup (ptrs_of (olists os)) /\ Forall (shaped cap vs) (olists os) /\ (length (olists os) <= length ks)%nat.
Proof.
  induction 1 as [|k o ks os Hp Hps IH]; [by intros _; split_and!; [constructor|constructor|]|]. cbn [map concat]. intros (N1 & D & N2)%NoDup_app.
  destruct (IH N2) as (I1 & I2 & I3). rewrite ptrs_of_app, length_app. split_and!.
  - apply NoDup_app. split_and!; [destruct o; simpl; [rewrite app_nil_r; apply Hp|constructor]| |done].
    intros q Hq Hin. apply (D q); [by apply (pending_ptrs H rc k o)|by apply (pendings_ptrs H rc ks os)].
  - apply Forall_app. split; [|done]. destruct o; simpl; [|constructor]. constructor; [apply Hp|constructor].
  - destruct o; simpl; lia.
Qed.

Lemma slots_list l : (2 <= length l <= 3)%nat -> exists tail, [entry l 0; entry l 1; entry l 2] = l ++ tail /\ (tail = [] \/ exists r, tail = 0 :: r).
Proof.
  destruct l as [|a [|b [|c [|? ?]]]]; simpl; intros; try lia; [exists [0]; split; [done|right; by exists []]|exists []; split; [done|by left]].
Qed.

(** The children a branch keeps become its children again, or the only one is
    handed up. *)
Lemma delete_branch_finish w p ks new rc a n nb :
  winv w -> nodes w !! p = Some (mkNode nb rc false (NotLeaf 0 0 0)) -> 0 <= rc < 2 ^ 31 ->
  p ∉ ptrs_of new -> ptrs_of new ⊆ ptrs_of ks -> NoDup (ptrs_of new) -> Forall (shaped cap vs) new -> Forall (rep (nodes w) 1) new ->
  (forall q, q ∈ ptrs_of ks -> is_Some (nodes w !! q) -> q ∈ ptrs_of new) -> bytes_of new = cut (bytes_of ks) a (a + n) -> nb = len (bytes_of new) ->
  (1 <= length new <= 3)%nat ->
  exists r w', (if (length (map root new) =? 1)%nat then ret (entry (map root new) 0) else
    let! n := get_node p in
    let! _ := set_node p (with_info n (NotLeaf (entry (map root new) 0) (entry (map root new) 1) (entry (map root new) 2))) in
    let! _ := __CFStorageRetainNode p in
    ret p) w = Some (r, w') /\
    exists o, r = default 0 (root <$> o) /\ pending (nodes w') rc (TBranch p ks) o /\ bytes_of (olist o) = cut (bytes_of ks) a (a + n) /\ local [p] w w'.
Proof.
  intros Hw Hp Hrc Hpn Hsub Hn Hs Hr Hx Hb -> Hlen. rewrite length_map. destruct (Nat.eqb_spec (length new) 1) as [H1|H1].
  - destruct new as [|k [|? ?]]; [simpl in *; lia| |simpl in *; lia]. cbn [map concat] in *. rewrite app_nil_r in *.
    exists (root k), w. split; [done|]. exists (Some k). split_and!; [done| |simpl; by rewrite app_nil_r|apply local_refl].
    apply Forall_cons in Hs as [Hs _]. apply Forall_cons in Hr as [Hr _]. unfold pending. cbn [root ptrs]. split_and!; [right| |done|done|].
    + split_and!; [intros E; apply Hpn; rewrite <- E; apply root_in_ptrs|done|done|by eexists].
    + intros q Hq. right. by apply Hsub.
    + intros q [->|Hq]%elem_of_cons Hsome; [by right|left; by apply Hx].
  - getn. setn. erewrite (bind_step (__CFStorageRetainNode _)) by (eapply retain_ok; [find_node|done]). rewrite upd_upd. cbn [with_info numBytes].
    eexists _, _. split; [reflexivity|]. exists (Some (TBranch p new)). split_and!; [done| |by simpl; rewrite app_nil_r|apply local_upd; [by eexists|left]].
    unfold pending. cbn [root ptrs]. split_and!; [left; split; [done|]| | | |].
    + apply rep_branch. split; [find_node|]. apply (trees_rep_frame (nodes w)); [|done]. intros q Hq. rewrite nodes_upd, lookup_insert_ne; [done|by intros ->].
    + intros q. rewrite !elem_of_cons. intros [?|Hq]; [by left|right; by apply Hsub].
    + by apply NoDup_cons.
    + apply shaped_branch. split; [lia|done].
    + intros q [->|Hq]%elem_of_cons Hsome; [by right|]. left. right. apply Hx; [done|]. rewrite nodes_upd in Hsome.
      destruct (decide (p = q)) as [<-|Hne]; [|by rewrite lookup_insert_ne in Hsome]. by eexists.
Qed.

Lemma delete_branch_spec del w p ks rc a n :
  winv w -> settings (storage w) -> rep (nodes w) rc (TBranch p ks) -> NoDup (ptrs (TBranch p ks)) -> shaped cap vs (TBranch p ks) -> 0 <= rc < 2 ^ 31 ->
  0 <= a -> 0 <= n < len (bytes_of ks) -> a + n <= len (bytes_of ks) -> (vs | a) -> (vs | n) -> Forall (deletes del) ks ->
  exists r w', delete_in_branch del p (CFRangeMake a n) w = Some (r, w') /\ outcome w (TBranch p ks) rc a n r w'.
Proof.
  intros Hw Hs [Hp Hr]%rep_branch Hn [Hlen Hsh]%shaped_branch Hrc Ha Hnn Han Da Dn Hdel. cbn [ptrs] in Hn. apply NoDup_cons in Hn as [Hpn Hn].
  unfold delete_in_branch, __CFStoragePopulateBranchChildrenAfterDeletion. rewrite bind_assoc. getn. rewrite bind_assoc.
  erewrite (bind_step (children_of _)) by reflexivity. destruct (slots_list (map root ks)) as (tail & -> & Ht); [by rewrite length_map|].
  destruct (populate_spec del ks w a n 0 [] tail) as (os & w1 & E1 & P1 & B1 & L1); try done; [lia|by exists 0|].
  rewrite (bind_step _ _ _ _ _ E1). rewrite app_nil_l, !Z.sub_0_r in *. clear E1 Ht tail.
  pose proof (lo_nodes _ _ _ L1 p Hpn) as Hp1. rewrite Hp in Hp1. getn. setn. getn. cbn [with_numBytes numBytes refCount isFrozen info].
  erewrite (bind_step (children_of _)) by reflexivity. set (w2 := upd w1 p _).
  assert (forall q, q ∈ ptrs_of ks -> nodes w2 !! q = nodes w1 !! q) as F2 by (intros q Hq; unfold w2; rewrite nodes_upd, lookup_insert_ne; [done|by intros ->]).
  assert (local (p :: ptrs_of ks) w w2) as L2.
  { eapply local_trans; [eapply local_mono; [|exact L1]|apply local_upd; [by eexists|left]]. intros q Hq. by right. }
  pose proof (local_inv _ _ _ L2 Hw) as Hw2. destruct (pendings_kept _ _ _ _ P1 Hn) as (Nn & Ns & Nl).
  destruct (release_pendings __CFStorageReleaseNode ks os w2) as (w3 & E3 & L3 & R3 & X3); try done;
    [eapply Forall2_impl; [exact P1|intros; apply ReleaseNode_releases]|by apply (Forall2_pending_frame (nodes w1))|].
  assert (ptrs_of (olists os) ⊆ ptrs_of ks) as Hsub by (intros q; apply (pendings_ptrs (nodes w1) 1 ks os q P1)).
  erewrite release_first; [|rewrite length_map; lia|eapply rep_roots; [exact Hw|exact Hr]|exact E3].
  assert (nodes w3 !! p = Some (mkNode (len (bytes_of ks) - n) rc false (slots (map root ks)))) as Hp3
    by (rewrite (lo_nodes _ _ _ L3) by done; unfold w2; find_node).
  getn. setn. cbn [with_info numBytes refCount isFrozen]. set (w4 := upd w3 p _).
  assert (len (bytes_of (olists os)) = len (bytes_of ks) - n) as Hl by (rewrite B1, length_cut; lia).
  assert (forall q, q ∈ ptrs_of ks -> nodes w4 !! q = nodes w3 !! q) as F4 by (intros q Hq; unfold w4; rewrite nodes_upd, lookup_insert_ne; [done|by intros ->]).
  assert (local (p :: ptrs_of ks) w w4) as L4.
  { eapply local_trans; [exact L2|]. eapply local_trans; [eapply local_mono; [|exact L3]|apply local_upd; [by eexists|left]]. intros q Hq. by right. }
  destruct (delete_branch_finish w4 p ks (olists os) rc a n (len (bytes_of ks) - n)) as (r & w5 & E5 & o & Ho & Hpo & Hbo & Ll); try done.
  - by eapply local_inv.
  - unfold w4. find_node.
  - intros Hin. by apply Hpn, Hsub.
  - apply (trees_rep_frame (nodes w3)); [|done]. intros q Hq%Hsub. by apply F4.
  - intros q Hq Hsome. apply X3; [done|]. by rewrite <- F4.
  - split; [|lia]. destruct (olists os); simpl in *; lia.
  - exists r, w5. split; [exact E5|]. exists o. split_and!; [done|done|done|]. eapply local_trans; [exact L4|]. eapply local_mono; [|exact Ll].
    intros q ->%list_elem_of_singleton. left.
Qed.

(** *** A tree *)

Lemma delete_unfrozen_spec t : forall fuel compact w rc a n,
  (height t <= fuel)%nat -> winv w -> settings (storage w) -> rep (nodes w) rc t -> NoDup (ptrs t) -> rshaped t -> 0 <= rc < 2 ^ 31 ->
  0 <= a -> 0 <= n -> a + n <= len (bytes t) -> (vs | a) -> (vs | n) ->
  exists r w', __CFStorageDeleteUnfrozen fuel compact (root t) (CFRangeMake a n) w = Some (r, w') /\ outcome w t rc a n r w'.
Proof.
  induction t as [p bs|p ks IH] using tree_nested_ind; intros fuel compact w rc a n Hf Hw Hs Hr Hn Hsh Hrc Ha Hnn Han Da Dn;
    (destruct fuel as [|fuel]; [simpl in Hf; lia|]); cbn [__CFStorageDeleteUnfrozen root];
    destruct (rep_root _ _ _ Hr) as (i & Hi & Hleaf); cbn [root] in Hi; erewrite (bind_step (get_node p)) by (apply get_node_ok; exact Hi);
    cbn [numBytes range_length]; (match goal with |- context [n =? len ?l] => destruct (Z.eqb_spec n (len l)) as [E|Hne] end;
      [eexists _, _; split; [reflexivity|]; by apply outcome_gone; [|lia..]|]).
  - unfold isLeaf in *. cbn [info] in *. rewrite Hleaf. simpl in Han, Hne.
    destruct Hsh as [[Hc Dl]|[= ->]]; [|simpl in *; lia]. eexists. by apply delete_leaf_spec; try lia.
  - unfold isLeaf in *. cbn [info] in *. rewrite Hleaf. destruct Hsh as [Hsh|]; [|done]. cbn [bytes] in Han, Hne.
    pose proof (proj1 (shaped_branch _ _ _ _) Hsh) as [_ Hshk]. apply delete_branch_spec; try done; [lia|].
    apply list.Forall_forall. intros k Hk w' a' n' Hw' Hs' Rk Nk Sk Ha' Hn' Han' Da' Dn'. destruct (rep_root _ _ _ Rk) as (j & Hj & _).
    unfold __CFStorageDelete. erewrite (bind_step (get_node _)) by (apply get_node_ok; exact Hj). cbn [isFrozen].
    erewrite (bind_step (ret true)) by reflexivity. rewrite list.Forall_forall in IH. apply IH; try done; [|by left|lia].
    simpl in Hf. pose proof (height_child k ks Hk). lia.
Qed.

(** *** The root *)

Lemma ReleaseNode_tree w t : winv w -> rep (nodes w) 1 t -> NoDup (ptrs t) -> shaped cap vs t -> __CFStorageReleaseNode (root t) w = Some (tt, without (ptrs t) w).
Proof.
  intros Hw Hr Hn Hs. unfold __CFStorageReleaseNode. erewrite (bind_step depth_fuel) by reflexivity. apply (release_tree cap vs); try done.
  pose proof (depth_enough w 1 t Hr Hn). lia.
Qed.

(** The nodes below the root. *)
Definition below (t : tree) : list Z := match t with TLeaf _ _ => [] | TBranch _ ks => ptrs_of ks end.

Lemma ptrs_below t : ptrs t = root t :: below t.
Proof. by destruct t. Qed.

Lemma clear_root_spec w t :
  winv w -> root t = rootNode (storage w) -> rep (nodes w) 0 t -> NoDup (ptrs t) -> rshaped t ->
  exists cr, __CFStorageClearRootNode w = Some (tt, upd (without (below t) w) (root t) (mkNode 0 0 false (Leaf 0 None cr))).
Proof.
  intros Hw Hroot Hr Hn Hsh. unfold __CFStorageClearRootNode. erewrite (bind_step get_storage) by reflexivity. cbv zeta. rewrite <- Hroot.
  destruct t as [p bs|p ks]; cbn [root below].
  - destruct Hr as (nd & Hp & c & m & cr & -> & _). getn. erewrite (bind_step (ret tt)) by reflexivity. getn. cbn [refCount isFrozen info].
    exists cr. erewrite set_node_ok by exact Hp. by destruct w.
  - apply rep_branch in Hr as [Hp Hr]. destruct Hsh as [Hsh|]; [|done]. apply shaped_branch in Hsh as [Hl Hsh].
    cbn [ptrs] in Hn. apply NoDup_cons in Hn as [Hpn Hn]. getn. cbn [slots].
    erewrite bind_step; [|rewrite release_three; [|rewrite length_map; lia|by apply (rep_roots w)]; apply release_children; [done| |done|done]].
    + assert (nodes (without (ptrs_of ks) w) !! p = Some (mkNode (len (bytes_of ks)) 0 false (slots (map root ks)))) as Hp' by (by rewrite without_out).
      getn. eexists. erewrite set_node_ok by exact Hp'. reflexivity.
    + intros k w' Hk Hw' Rk. rewrite list.Forall_forall in Hsh. apply ReleaseNode_tree; try done; [by apply (nodup_child k ks)|by apply Hsh].
Qed.

(** The children get a reference of their new parent. *)
Lemma retain_children ks : forall w,
  Forall (rep (nodes w) 1) ks -> NoDup (ptrs_of ks) -> Forall (shaped cap vs) ks ->
  exists w', release_list __CFStorageRetainNode (map root ks) w = Some (tt, w') /\ Forall2 (pending (nodes w') 1) ks (map Some ks) /\ local (ptrs_of ks) w w'.
Proof.
  induction ks as [|k ks IH]; intros w Hr Hn Hs; [exists w; split_and!; [done|constructor|apply local_refl]|].
  cbn [map concat] in Hn. apply NoDup_app in Hn as (N1 & D & N2). apply Forall_cons in Hr as [R1 R2]. apply Forall_cons in Hs as [S1 S2].
  destruct (retain_outcome w k 0 0 R1 N1 S1) as (w1 & E1 & P1 & _ & L1); [by apply cut_none; [|left]|].
  destruct (IH w1) as (w2 & E2 & P2 & L2); [|done|done|].
  { apply (trees_rep_frame (nodes w)); [|done]. intros q Hq. apply (lo_nodes _ _ _ L1). intros Hin. by apply (D q). }
  exists w2. cbn [map release_list concat]. rewrite (bind_step _ _ _ _ _ E1). split_and!; [done| |].
  - constructor; [|done]. apply (pending_frame (nodes w1)); [|done]. intros q Hq. apply (lo_nodes _ _ _ L2). intros Hin. by apply (D q).
  - eapply local_trans; [eapply local_mono; [|exact L1]|eapply local_mono; [|exact L2]]; intros q Hq; rewrite elem_of_app; tauto.
Qed.

Lemma olists_some ks : olists (map Some ks) = ks.
Proof. induction ks as [|k ks IH]; [done|]. simpl. by rewrite IH. Qed.

(** A node with one reference and children that have another parent. *)
Lemma release_shell w p nb ks :
  winv w -> nodes w !! p = Some (mkNode nb 1 false (slots (map root ks))) -> p ∉ ptrs_of ks -> NoDup (ptrs_of ks) -> Forall (shaped cap vs) ks ->
  (2 <= length ks <= 3)%nat -> Forall2 (pending (nodes w) 1) ks (map Some ks) ->
  exists w', __CFStorageReleaseNode p w = Some (tt, w') /\ Forall (rep (nodes w') 1) ks /\ local (p :: ptrs_of ks) w w' /\ nodes w' !! p = None.
Proof.
  intros Hw Hp Hpn Hn Hs Hl Hps. unfold __CFStorageReleaseNode. erewrite (bind_step depth_fuel) by reflexivity. cbn [release_node]. getn.
  change (0 <? 1) with true. cbn [when]. setn. change (uwrap 32 (1 - 1) =? 0) with true. cbn [when].
  unfold __CFStorageDeallocateNode. getn. cbn [with_refCount info slots]. set (w1 := upd w p _).
  assert (local (p :: ptrs_of ks) w w1) as L1 by (apply local_upd; [by eexists|left]).
  assert (0 < size (nodes w))%nat as Hsz. { pose proof (nodup_size (nodes w) [p] (NoDup_singleton p)) as H. simpl in H. apply H. intros q ->%list_elem_of_singleton. by eexists. }
  destruct (release_pendings (release_node (size (nodes w))) ks (map Some ks) w1) as (w2 & E2 & L2 & R2 & _); try done.
  - clear -Hsz. induction ks as [|k ks IH]; constructor; [by apply release_node_releases|done].
  - by eapply local_inv.
  - apply (Forall2_pending_frame (nodes w)); [|done]. intros q Hq. unfold w1. rewrite nodes_upd, lookup_insert_ne; [done|by intros ->].
  - assert (Forall (fun q => q <> 0) (map root ks)) as Hnz.
    { clear -Hps Hw. apply list.Forall_forall. intros q Hq. apply list_elem_of_fmap in Hq as (k & -> & Hk). apply list_elem_of_lookup in Hk as [j Hj].
      destruct (Forall2_lookup_l _ _ _ _ _ Hps Hj) as (o & Ho & Hp). rewrite list_lookup_fmap, Hj in Ho. injection Ho as <-.
      destruct Hp as ([[_ Hr]|(? & _)] & _); [|done]. destruct (rep_root _ _ _ Hr) as (i & Hi & _). pose proof (winv_lt _ _ _ Hw Hi). lia. }
    erewrite bind_step; [|rewrite release_three; [exact E2|rewrite length_map; lia|done]]. unfold free_node. eexists. split; [reflexivity|].
    rewrite olists_some in R2. split_and!; [|constructor; cbn [next storage with_nodes nodes]|cbn [with_nodes nodes]; apply lookup_delete_eq].
    + apply (trees_rep_frame (nodes w2)); [|done]. intros q Hq. cbn [with_nodes nodes]. rewrite lookup_delete_ne; [done|by intros ->].
    + rewrite (lo_next _ _ _ L2). done.
    + rewrite (lo_storage _ _ _ L2). done.
    + intros q Hq. rewrite elem_of_cons in Hq. rewrite lookup_delete_ne, (lo_nodes _ _ _ L2) by (intros ?; subst; tauto).
      apply (lo_nodes _ _ _ L1). rewrite elem_of_cons. done.
    + intros q. destruct (decide (p = q)) as [<-|]; [rewrite lookup_delete_eq; by intros []|]. rewrite lookup_delete_ne by done. intros ?%(lo_dom _ _ _ L2).
      by apply (lo_dom _ _ _ L1).
Qed.

(** The root takes over the contents of the node that is left. *)
Lemma adopt_leaf w p q bs c m cr :
  winv w -> is_Some (nodes w !! p) -> p <> q -> nodes w !! q = Some (mkNode (len bs) 1 false (Leaf c m cr)) -> holds_bytes c m bs -> shaped cap vs (TLeaf q bs) ->
  let w1 := upd (upd w p (mkNode (len bs) 0 false (Leaf 0 m (CFRangeMake 0 0)))) q (mkNode (len bs) 1 false (Leaf 0 None (CFRangeMake 0 0))) in
  exists w', __CFStorageReleaseNode q w1 = Some (tt, w') /\ rep (nodes w') 0 (TLeaf p bs) /\ local [p; q] w w' /\ nodes w' !! q = None.
Proof.
  intros Hw Hp Hne Hq Hh [Hl Hd] w1. set (none := replicate (length bs) None : memory_block).
  assert (local [p; q] w w1) as L1.
  { unfold w1. apply local_upd_step; [apply local_upd; [done|left]| |right; left]. rewrite nodes_upd, lookup_insert_ne by done. by eexists. }
  exists (without [q] w1). change q with (root (TLeaf q none)) at 1. rewrite (ReleaseNode_tree w1 (TLeaf q none)).
  - split_and!; [done| |eapply local_trans; [exact L1|apply local_without]|apply without_in; left].
    + eexists. split; [rewrite without_out; [unfold w1; find_node|by intros ->%list_elem_of_singleton]|]. exists 0, m, (CFRangeMake 0 0). split; [done|].
      unfold holds_bytes in *. destruct m as [m|]; [split; [by destruct Hh|by left]|by destruct Hh].
    + intros x. rewrite list_elem_of_singleton. intros ->. right. left.
  - by eapply local_inv.
  - eexists. split; [unfold w1; find_node|]. exists 0, None, (CFRangeMake 0 0). unfold none, holds_bytes. by rewrite !length_replicate.
  - apply NoDup_singleton.
  - unfold none. simpl. rewrite length_replicate. done.
Qed.

Lemma adopt_spec w p k nb :
  winv w -> p = rootNode (storage w) -> nodes w !! p = Some (mkNode nb 0 false (NotLeaf 0 0 0)) -> p ∉ ptrs k -> rep (nodes w) 1 k -> NoDup (ptrs k) -> shaped cap vs k ->
  exists w', (let! _ := adopt_root (root k) in null_check __CFStorageReleaseNode (root k)) w = Some (tt, w') /\
    rep (nodes w') 0 (reroot p k) /\ local (p :: ptrs k) w w' /\ nodes w' !! root k = None.
Proof.
  intros Hw Hroot Hp Hpk Hr Hn Hs. destruct (rep_root _ _ _ Hr) as (i & Hi & _). pose proof (winv_lt _ _ _ Hw Hi) as Hlt.
  assert (p <> root k) as Hne by (intros ->; apply Hpk, root_in_ptrs).
  unfold adopt_root, null_check. rewrite (proj2 (Z.eqb_neq (root k) 0)) by lia. cbn [negb when].
  rewrite bind_assoc. erewrite (bind_step get_storage) by reflexivity. cbv zeta. rewrite <- Hroot, bind_assoc.
  destruct k as [q bs|q ks]; cbn [root reroot] in *.
  - destruct Hr as (nd & Hq & c & m & cr & -> & Hh). clear i Hi. getn. rewrite bind_assoc. getn. cbn [isFrozen negb].
    rewrite bind_assoc. setn. rewrite bind_assoc. setn. setn. cbn [with_info numBytes refCount isFrozen]. rewrite upd_upd.
    by apply (adopt_leaf w p q bs c m cr); [|eexists|..].
  - apply rep_branch in Hr as [Hq Hr]. apply shaped_branch in Hs as [Hl Hs]. cbn [ptrs] in *. apply NoDup_cons in Hn as [Hqn Hn]. rewrite elem_of_cons in Hpk.
    clear i Hi. getn. rewrite bind_assoc. getn. cbn [slots].
    destruct (retain_children ks w Hr Hn Hs) as (w1 & E1 & P1 & L1).
    pose proof (lo_nodes _ _ _ L1 p ltac:(tauto)) as Hp1. rewrite Hp in Hp1. pose proof (lo_nodes _ _ _ L1 q Hqn) as Hq1. rewrite Hq in Hq1.
    erewrite (bind_step _ _ _ tt); [|erewrite retain_first; [|rewrite length_map; done|by apply (rep_roots w)|exact E1]; eapply set_node_ok; exact Hp1].
    cbn [numBytes refCount isFrozen]. set (w2 := upd w1 p _).
    assert (local (p :: q :: ptrs_of ks) w w2) as L2.
    { unfold w2. apply local_upd_step; [eapply local_mono; [|exact L1]|by eexists|left]. intros x Hx. by do 2 right. }
    destruct (release_shell w2 q (len (bytes_of ks)) ks) as (w3 & E3 & R3 & L3 & N3); try done.
    + by eapply local_inv.
    + unfold w2. find_node.
    + apply (Forall2_pending_frame (nodes w1)); [|done]. intros x Hx. unfold w2. rewrite nodes_upd, lookup_insert_ne; [done|intros ->; tauto].
    + exists w3. rewrite E3. split_and!; [done| |eapply local_trans; [exact L2|eapply local_mono; [|exact L3]]; intros x Hx; by right|done].
      apply rep_branch. split; [|done]. rewrite (lo_nodes _ _ _ L3) by (rewrite elem_of_cons; tauto). unfold w2. find_node.
Qed.

(** A change of the nodes of a storage that leaves another tree. *)
Lemma moved_local w t w' t' :
  let w0 := with_storage w (set_cacheNode (storage w) 0) in
  storage_ok w t -> local (ptrs t) w0 w' -> root t' = root t -> rep (nodes w') 0 t' -> NoDup (ptrs t') -> rshaped t' -> ptrs t' ⊆ ptrs t ->
  (forall q, q ∈ ptrs t -> is_Some (nodes w' !! q) -> q ∈ ptrs t') -> moved w t w' t'.
Proof.
  intros w0 [Hw Hs Hroot Hr Hn Hsh Hc] Hl Hrt Ht Hn' Hs' Hsub Hx. assert (winv w0) as Hw0 by done. pose proof (local_inv _ _ _ Hl Hw0) as Hw'.
  assert (framed (ptrs t) w w') as F.
  { eapply framed_trans; [apply (framed_storage _ w 0 Hw)|]. by apply local_framed. }
  constructor; [constructor|done| |]; try done.
  - by apply (framed_settings _ _ _ F).
  - rewrite (lo_storage _ _ _ Hl), Hrt, Hroot. done.
  - left. by rewrite (lo_storage _ _ _ Hl).
  - intros q Hq. left. by apply Hsub.
  - intros q [Hq|Hq] Hsome; [by apply Hx|]. destruct Hsome as [nd Hnd]. pose proof (winv_lt _ _ _ Hw' Hnd) as Hlt. rewrite (lo_next _ _ _ Hl) in Hlt.
    change (next w0) with (next w) in Hlt. lia.
Qed.

(** The storage keeps what the deletion leaves of its tree. *)
Lemma finish_delete w t o w1 :
  let w0 := with_storage w (set_cacheNode (storage w) 0) in
  storage_ok w t -> local (ptrs t) w0 w1 -> pending (nodes w1) 0 t o ->
  exists w' t', (let newRoot := default 0 (root <$> o) in
                 let! _ := (if newRoot =? 0 then __CFStorageClearRootNode
                            else if newRoot =? rootNode (storage w) then ret tt
                            else adopt_root newRoot) in
                 null_check __CFStorageReleaseNode newRoot) w1 = Some (tt, w') /\ moved w t w' t' /\ bytes t' = bytes_of (olist o).
Proof.
  intros w0 Hok Hl Hp. pose proof Hok as [Hw Hs Hroot Hr Hn Hsh Hc]. pose proof (local_inv _ _ _ Hl Hw) as Hw1. cbv zeta.
  assert (root t = rootNode (storage w1)) as Hroot1 by (by rewrite (lo_storage _ _ _ Hl)).
  destruct o as [k|]; cbn [fmap option_fmap option_map default from_option id].
  - assert (exists j, nodes w1 !! root k = Some j) as [j Hj] by (destruct Hp as ([[_ Hk]|(_ & Hk & _)] & _); destruct (rep_root _ _ _ Hk) as (j & Hj & _); by eexists).
    pose proof (winv_lt _ _ _ Hw1 Hj). rewrite (proj2 (Z.eqb_neq (root k) 0)) by lia. cbn [olist map concat]. rewrite app_nil_r, <- Hroot.
    destruct Hp as ([[Hrk Hk]|(Hrk & Hk & Hni & nb & Hnb)] & Hsub & Hnk & Hsk & Hx).
    + rewrite Hrk, Z.eqb_refl. erewrite (bind_step (ret tt)) by reflexivity. unfold null_check. rewrite <- Hrk. rewrite (proj2 (Z.eqb_neq (root k) 0)) by lia. cbn [negb when].
      destruct (rep_root _ _ _ Hk) as (i & Hi & _). exists w1, k. split_and!; [|apply (moved_local w t w1 k Hok); try done; [by left|]|done].
      * unfold __CFStorageReleaseNode. erewrite (bind_step depth_fuel) by reflexivity. cbn [release_node]. getn. done.
      * intros q Hq Hsome. destruct (Hx q Hq Hsome) as [?| ->]; [done|rewrite <- Hrk; apply root_in_ptrs].
    + rewrite (proj2 (Z.eqb_neq (root k) (root t)) Hrk).
      destruct (adopt_spec w1 (root t) k nb Hw1 Hroot1 Hnb Hni Hk Hnk Hsk) as (w2 & E2 & R2 & L2 & N2). exists w2, (reroot (root t) k).
      split_and!; [exact E2|apply (moved_local w t w2 _ Hok)|apply reroot_bytes].
      * eapply local_trans; [exact Hl|]. eapply local_mono; [|exact L2]. intros q [->|Hq]%elem_of_cons; [apply root_in_ptrs|by apply Hsub].
      * by destruct k.
      * done.
      * by apply reroot_nodup.
      * left. by apply reroot_shaped.
      * intros q [->|[Hq _]]%reroot_ptrs; [apply root_in_ptrs|by apply Hsub].
      * intros q Hq Hsome. destruct (Hx q Hq) as [Hqk| ->]; [| |destruct k; left].
        { destruct (decide (q ∈ root t :: ptrs k)) as [Hin|Hout]; [|by rewrite (lo_nodes _ _ _ L2) in Hsome]. by apply (lo_dom _ _ _ L2). }
        apply ptrs_reroot; [done|]. intros ->. rewrite N2 in Hsome. by destruct Hsome.
  - destruct (clear_root_spec w1 t Hw1 Hroot1 Hp Hn Hsh) as [cr E]. change (0 =? 0) with true. cbv iota. rewrite (bind_step _ _ _ _ _ E).
    eexists _, (TLeaf (root t) []). split_and!; [reflexivity| |done]. rewrite ptrs_below in Hn. apply NoDup_cons in Hn as [Hni Hn].
    assert (is_Some (nodes (without (below t) w1) !! root t)) as Hsm.
    { rewrite without_out by done. destruct (rep_root _ _ _ Hp) as (i & Hi & _). by eexists. }
    apply (moved_local w t _ _ Hok).
    + apply local_upd_step; [eapply local_trans; [exact Hl|apply local_without]|done|apply root_in_ptrs]. intros q Hq. rewrite ptrs_below. by right.
    + done.
    + eexists. split; [find_node|]. by exists 0, None, cr.
    + apply NoDup_singleton.
    + by right.
    + intros q ->%list_elem_of_singleton. apply root_in_ptrs.
    + intros q Hq. destruct (decide (q = root t)) as [->|Hne]; [left|]. rewrite nodes_upd, lookup_insert_ne by done.
      rewrite ptrs_below, elem_of_cons in Hq. rewrite without_in by tauto. by intros [].
Qed.

Lemma DeleteValues_spec w t loc n :
  storage_ok w t -> 0 <= loc -> 0 <= n -> (loc + n) * vs <= len (bytes t) < 2 ^ 62 ->
  exists w' t', CFStorageDeleteValues (CFRangeMake loc n) w = Some (tt, w') /\ moved w t w' t' /\ bytes t' = cut (bytes t) (loc * vs) (loc * vs + n * vs).
Proof.
  intros Hok Hloc Hn Hle. unfold CFStorageDeleteValues. erewrite (bind_step get_storage) by reflexivity. cbv zeta. cbn [location range_length].
  unfold __CFStorageConvertValuesToByteRange. rewrite !(set_to_byte _ (so_settings _ _ Hok)) by nia.
  erewrite (bind_step (__CFStorageSetCache 0 0)) by reflexivity. set (w0 := with_storage w _). erewrite (bind_step depth_fuel) by reflexivity.
  pose proof Hok as [Hw Hs Hroot Hr Hnd Hsh Hc]. rewrite <- Hroot.
  assert ((vs | loc * vs) /\ (vs | n * vs)) as [D1 D2] by (split; [by exists loc|by exists n]).
  assert (height t <= S (size (nodes w0)))%nat as Hh by (pose proof (depth_enough w 0 t Hr Hnd); change (nodes w0) with (nodes w); lia).
  destruct (delete_unfrozen_spec t (S (size (nodes w0))) true w0 0 (loc * vs) (n * vs)) as (r & w1 & E & o & -> & Hp & Hb & Hl); try done; try nia; [by apply settings_cache|].
  rewrite (bind_step _ _ _ _ _ E). destruct (finish_delete w t o w1 Hok Hl Hp) as (w' & t' & E' & Hm & Hb'). exists w', t'. rewrite Hb', Hb, Hroot. by split_and!.
Qed.

(** A storage that goes away takes all its nodes along. *)
Lemma Deallocate_spec w t : storage_ok w t -> exists w', __CFStorageDeallocate w = Some (tt, w') /\ local (ptrs t) w w' /\ forall q, q ∈ ptrs t -> nodes w' !! q = None.
Proof.
  intros [Hw Hs Hroot Hr Hn Hsh Hc]. unfold __CFStorageDeallocate. destruct (clear_root_spec w t Hw Hroot Hr Hn Hsh) as [cr E].
  rewrite (bind_step _ _ _ _ _ E). erewrite (bind_step get_storage) by reflexivity. unfold free_node. eexists. split; [reflexivity|].
  cbn [storage upd with_nodes without]. rewrite <- Hroot. split; [constructor; [done|done| |]|]; cbn [nodes with_nodes upd].
  - intros q Hq. rewrite ptrs_below, elem_of_cons in Hq. rewrite lookup_delete_ne, lookup_insert_ne by (intros ?; subst; tauto). apply without_out. tauto.
  - intros q. destruct (decide (root t = q)) as [<-|Hne]; [rewrite lookup_delete_eq; by intros []|]. rewrite lookup_delete_ne, lookup_insert_ne by done.
    rewrite without_lookup. case_bool_decide; [by intros []|done].
  - intros q. rewrite ptrs_below. intros [->|Hq]%elem_of_cons; [apply lookup_delete_eq|].
    destruct (decide (root t = q)) as [<-|Hne]; [apply lookup_delete_eq|]. rewrite lookup_delete_ne, lookup_insert_ne by done. by apply without_in.
Qed.

End Storage.
