(* ===== verification/CFStorageAccess.v ===== *)
(** * CFStorage: reading and writing values

    The value at an index is found in the cached leaf or by way down the tree;
    the leaf gets its memory when it is first looked at.  Ranges of values are
    read and written leaf by leaf. *)

From S2P Require Import Prelude CFInternal CFStorage CFStorageTree CFStorageInsert CFStorageDelete.
From stdpp Require Import base list numbers option gmap.
From Stdlib Require Import ZArith Lia.
Open Scope Z_scope.
Open Scope cf_scope.

Section Storage.
Context {L : Layout}.
Let Hvs : 0 < vs := vs_pos.
Let Hcap : 0 < cap < 2 ^ 30 := cap_range.
Let Hdiv : (vs | cap) := cap_divide.

(** ** Leaves of a tree *)

Lemma leaf_at_bytes t q off bs : leaf_at t q off bs ->
  0 <= off /\ off + len bs <= len (bytes t) /\ take (length bs) (drop (Z.to_nat off) (bytes t)) = bs.
Proof.
  induction 1 as [p bs|p ks1 k ks2 q off bs _ (H0 & H1 & H2)].
  - simpl. rewrite drop_0, take_ge by lia. split_and!; [lia|lia|done].
  - cbn [bytes]. rewrite bytes_of_app. cbn [map concat]. rewrite !length_app. split_and!; [lia|lia|].
    replace (Z.to_nat (len (bytes_of ks1) + off)) with (length (bytes_of ks1) + Z.to_nat off)%nat by lia.
    rewrite drop_app_add, drop_app_le by lia. rewrite take_app_le; [done|]. rewrite length_drop. lia.
Qed.

(** The bytes with another block at [off]. *)
Definition patch {A} (l : list A) (off : Z) (b : list A) : list A := take (Z.to_nat off) l ++ b ++ drop (Z.to_nat off + length b) l.

Lemma length_patch {A} (l b : list A) off : 0 <= off -> off + len b <= len l -> length (patch l off b) = length l.
Proof. intros. unfold patch. rewrite !length_app, length_take, length_drop. lia. Qed.

Lemma patch_inside {A} (l1 l l2 b : list A) off : 0 <= off -> off + len b <= len l -> patch (l1 ++ l ++ l2) (len l1 + off) b = l1 ++ patch l off b ++ l2.
Proof.
  intros H0 H1. unfold patch. replace (Z.to_nat (len l1 + off)) with (length l1 + Z.to_nat off)%nat by lia.
  rewrite <- Nat.add_assoc, take_app_add, drop_app_add, take_app_le, drop_app_le by lia. by rewrite <- !app_assoc.
Qed.

Lemma patch_id {A} (l b : list A) off : take (length b) (drop (Z.to_nat off) l) = b -> patch l off b = l.
Proof. intros E. unfold patch. rewrite <- E at 1. rewrite <- drop_drop, take_drop. apply take_drop. Qed.

(** The node of a leaf can get other contents of the same size. *)
Lemma leaf_replace H rc t q off bs :
  leaf_at t q off bs -> rep H rc t -> NoDup (ptrs t) ->
  exists rc' c m cr, H !! q = Some (mkNode (len bs) rc' false (Leaf c m cr)) /\ holds_bytes c m bs /\
    forall bs' c' m' cr', length bs' = length bs -> holds_bytes c' m' bs' ->
      exists t', rep (<[q := mkNode (len bs) rc' false (Leaf c' m' cr')]> H) rc t' /\ root t' = root t /\ ptrs t' = ptrs t /\
        bytes t' = patch (bytes t) off bs' /\ leaf_at t' q off bs' /\ (rshaped t -> rshaped t') /\ (shaped cap vs t -> shaped cap vs t').
Proof.
  intros Hl. revert rc. induction Hl as [q bs|p ks1 k ks2 q off bs Hl IH]; intros rc Hr Hn.
  - destruct Hr as (n & Hq & c & m & cr & -> & Hh). exists rc, c, m, cr. split_and!; [done|done|]. intros bs' c' m' cr' El Hh'.
    exists (TLeaf q bs'). split_and!; try done.
    + eexists. split; [apply lookup_insert_eq|]. exists c', m', cr'. by rewrite El.
    + simpl. unfold patch. by rewrite drop_ge, app_nil_r by lia.
    + constructor.
    + intros [[H1 H2]|[= ->]]; [left; split; by rewrite El|right]. destruct bs'; done.
    + intros [H1 H2]. split; by rewrite El.
  - apply rep_branch in Hr as [Hp Hr]. cbn [ptrs] in Hn. apply NoDup_cons in Hn as [Hpn Hn]. apply Forall_app in Hr as [R1 R2]. apply Forall_cons in R2 as [Rk R2].
    rewrite ptrs_of_app in Hpn, Hn. cbn [map concat] in Hpn, Hn. rewrite !elem_of_app in Hpn. apply NoDup_app in Hn as (N1 & D1 & Hn). apply NoDup_app in Hn as (Nk & D2 & N2).
    destruct (IH 1 Rk Nk) as (rc' & c & m & cr & Hq & Hh & Hgo). exists rc', c, m, cr. split_and!; [done|done|]. intros bs' c' m' cr' El Hh'.
    destruct (Hgo bs' c' m' cr' El Hh') as (k' & Rk' & Hroot & Hptrs & Hbytes & Hl' & _ & Hsh). pose proof (leaf_at_ptr _ _ _ _ Hl) as Hqk.
    pose proof (leaf_at_bytes _ _ _ _ Hl) as (Ho & Hob & _). pose proof (length_patch (bytes k) bs' off Ho ltac:(lia)) as Elp. rewrite <- Hbytes in Elp.
    assert (shaped cap vs (TBranch p (ks1 ++ k :: ks2)) -> shaped cap vs (TBranch p (ks1 ++ k' :: ks2))) as Hs.
    { rewrite !shaped_branch, !length_app. cbn [length]. intros [H1 H2]. split; [done|]. apply Forall_app in H2 as [? H2]. apply Forall_cons in H2 as [? ?].
      apply Forall_app. split; [done|]. constructor; [by apply Hsh|done]. }
    exists (TBranch p (ks1 ++ k' :: ks2)). split_and!; [| | | | | |done].
    + apply rep_branch. split.
      * rewrite lookup_insert_ne by (intros ->; tauto). rewrite Hp. rewrite !bytes_of_app, !map_app. cbn [map concat]. rewrite !length_app, Elp, Hroot. done.
      * apply Forall_app. split; [|constructor; [done|]]; (apply (trees_rep_frame H); [|done]); intros x Hx; apply lookup_insert_ne; intros <-.
        { apply (D1 q Hx). rewrite elem_of_app. by left. } { by apply (D2 q). }
    + done.
    + cbn [ptrs]. rewrite !ptrs_of_app. cbn [map concat]. by rewrite Hptrs.
    + cbn [bytes]. rewrite !bytes_of_app. cbn [map concat]. rewrite patch_inside by lia. by rewrite Hbytes.
    + by constructor.
    + intros [?|?]; [left; by apply Hs|done].
Qed.

Lemma leaf_at_divide t q off bs : leaf_at t q off bs -> shaped cap vs t -> (vs | off) /\ shaped cap vs (TLeaf q bs).
Proof.
  induction 1 as [p bs|p ks1 k ks2 q off bs _ IH]; [intros Hs; split; [by exists 0|done]|]. rewrite shaped_branch. intros [_ Hs].
  apply Forall_app in Hs as [H1 H2]. apply Forall_cons in H2 as [H2 _]. destruct (IH H2) as [D Hq]. split; [|done]. apply Z.divide_add_r; [|done].
  clear -H1. induction H1 as [|t l Ht _ IH]; [by exists 0|]. cbn [map concat]. rewrite length_app, Nat2Z.inj_add.
  apply Z.divide_add_r; [by apply (shaped_divide cap)|done].
Qed.

(** The memory of a leaf is there when it is used. *)
Lemma alloc_leaf w p bs rc c m cr :
  settings (storage w) -> nodes w !! p = Some (mkNode (len bs) rc false (Leaf c m cr)) -> holds_bytes c m bs -> 0 < len bs <= cap ->
  exists c' m', __CFStorageAllocLeafNodeMemory p (len bs) false w = Some (tt, upd w p (mkNode (len bs) rc false (Leaf c' (Some m') cr))) /\
    holds_bytes c' (Some m') bs.
Proof.
  intros Hs Hp Hh Hl. destruct (alloc_leaf_spec w p (len bs) false (len bs) rc false c m cr Hp (holds_capacity _ _ _ Hh)) as (c' & m' & E & Hlm & Hc & Ht);
    rewrite ?(set_cap _ Hs); try lia.
  exists c', m'. split; [done|]. split; [|done]. rewrite Nat2Z.id in Ht. by apply (resize_holds c m bs m' (length bs) Hh).
Qed.

(** *** Finding a byte *)

Lemma find_byte_spec t : forall fuel w rc byteNum base b,
  (height t <= fuel)%nat -> settings (storage w) -> rep (nodes w) rc t -> shaped cap vs t -> 0 <= byteNum < len (bytes t) ->
  exists q off bs rc' c m cr c' m', leaf_at t q off bs /\ 0 <= byteNum - off < len bs /\
    nodes w !! q = Some (mkNode (len bs) rc' false (Leaf c m cr)) /\ holds_bytes c' (Some m') bs /\
    find_byte fuel (root t) byteNum base b w =
      Some ((mkPointer q (byteNum - off), q, CFRangeMake (base + off) (len bs)), upd w q (mkNode (len bs) rc' false (Leaf c' (Some m') cr))).
Proof.
  induction t as [p bs|p ks IH] using tree_nested_ind; intros fuel w rc byteNum base b Hf Hs Hr Hsh Hb;
    (destruct fuel as [|fuel]; [simpl in Hf; lia|]); cbn [find_byte root].
  - destruct Hr as (n & Hp & c & m & cr & -> & Hh). destruct Hsh as [Hc Hd]. simpl in Hb. getn. cbn [isLeaf info].
    destruct (alloc_leaf w p bs rc c m cr Hs Hp Hh Hc) as (c' & m' & E & Hh'). rewrite (bind_step _ _ _ _ _ E).
    exists p, 0, bs, rc, c, m, cr, c', m'. rewrite Z.sub_0_r, Z.add_0_r. split_and!; try done; try lia. constructor.
  - apply rep_branch in Hr as [Hp Hr]. apply shaped_branch in Hsh as [Hl Hsh]. getn. cbn [isLeaf info slots].
    destruct (find_child_spec w p _ ks byteNum false Hp eq_refl Hr) as (ks1 & k & ks2 & -> & Efc & H0 & H1); [|done|lia|cbn [bytes] in Hb; lia|].
    { eapply list.Forall_impl; [exact Hsh|]. apply shaped_pos. }
    rewrite (bind_step _ _ _ _ _ Efc). apply Forall_app in Hr as [_ Hr]. apply Forall_cons in Hr as [Rk _].
    apply Forall_app in Hsh as [_ Hsh]. apply Forall_cons in Hsh as [Sk _]. apply Forall_app in IH as [_ IH]. apply Forall_cons in IH as [IHk _].
    erewrite (bind_step _ _ w (root k) w).
    2:{ destruct b; [|done]. destruct (rep_root _ _ _ Rk) as (i & Hi & _). unfold unfreeze_child. erewrite (bind_step (get_node _)) by (apply get_node_ok; exact Hi). done. }
    set (rel := byteNum - len (bytes_of ks1)) in *.
    destruct (IHk fuel w 1 rel (base + (byteNum - rel)) b) as (q & off & bs & rc' & c & m & cr & c' & m' & Hq & Ho & Hn & Hh & E); try done.
    { simpl in Hf. pose proof (height_child k (ks1 ++ k :: ks2) ltac:(rewrite elem_of_app; right; left)). lia. }
    exists q, (len (bytes_of ks1) + off), bs, rc', c, m, cr, c', m'. split_and!; [by constructor|unfold rel in *; lia|unfold rel in *; lia|done|done|].
    rewrite E. do 3 f_equal; [f_equal|]; try f_equal; unfold rel; lia.
Qed.

(** ** A value *)

(** The cache is on a leaf of the tree that has memory. *)
Definition pointed (w : world) (t : tree) (q off : Z) (bs : memory_block) (v : Z) : Prop :=
  cacheNode (storage w) = q /\ leaf_at t q off bs /\ (vs | off) /\ 0 <= v /\ v * vs <= len bs /\
  exists rc c m, nodes w !! q = Some (mkNode (len bs) rc false (Leaf c (Some m) (CFRangeMake (off / vs) v))) /\ holds_bytes c (Some m) bs.

Lemma leaf_at_in t q off bs : leaf_at t q off bs -> leaf_in [t] q off bs.
Proof. intros H. by exists [], t, [], off. Qed.

Lemma leaf_in_at t q off bs : leaf_in [t] q off bs -> leaf_at t q off bs.
Proof. intros (a & k & b & o & E & H & ->). destruct a as [|? [|? ?]]; [|by destruct b..]. injection E as <- <-. done. Qed.

(** The leaf in the cache gets memory with other contents. *)
Lemma update_leaf w t q off bs :
  storage_ok w t -> leaf_at t q off bs ->
  exists rc c m cr, nodes w !! q = Some (mkNode (len bs) rc false (Leaf c m cr)) /\ holds_bytes c m bs /\
    forall w' bs' c' m' v, length bs' = length bs -> holds_bytes c' (Some m') bs' -> (vs | off) -> 0 <= v -> v * vs <= len bs ->
      nodes w' = <[q := mkNode (len bs) rc false (Leaf c' (Some m') (CFRangeMake (off / vs) v))]> (nodes w) -> next w' = next w ->
      storage w' = set_cacheNode (storage w) q ->
      exists t', moved w t w' t' /\ bytes t' = patch (bytes t) off bs' /\ pointed w' t' q off bs' v.
Proof.
  intros Hok Hl. pose proof Hok as [Hw Hs Hroot Hr Hn Hsh Hc]. destruct (leaf_replace _ _ _ _ _ _ Hl Hr Hn) as (rc & c & m & cr & Hq & Hh & Hgo).
  exists rc, c, m, cr. split_and!; [done|done|]. intros w' bs' c' m' v El Hh' Hd Hv Hvb En Enx Est.
  destruct (Hgo bs' c' (Some m') (CFRangeMake (off / vs) v) El Hh') as (t' & Rt & Hrt & Hpt & Hbt & Hlt & Hst & _). rewrite <- En in Rt.
  assert (nodes w' !! q = Some (mkNode (len bs) rc false (Leaf c' (Some m') (CFRangeMake (off / vs) v)))) as Hq' by (rewrite En; apply lookup_insert_eq).
  assert (framed (ptrs t) w w') as F.
  { constructor; [split; [rewrite Enx; apply Hw|]|lia| |by rewrite Est].
    - intros p n Hp. rewrite Enx. rewrite En in Hp. destruct (decide (q = p)) as [<-|Hne]; [by apply (winv_lt _ _ _ Hw Hq)|].
      rewrite lookup_insert_ne in Hp by done. by apply (winv_lt _ _ _ Hw Hp).
    - intros p _ Hp. rewrite En, lookup_insert_ne; [done|]. intros <-. by apply Hp, (leaf_at_ptr _ _ _ _ Hl). }
  exists t'. split_and!; [constructor; [constructor|done|rewrite Hpt; by left|]|done|].
  - apply F.
  - by apply (framed_settings _ _ _ F).
  - by rewrite Hrt, Est.
  - done.
  - by rewrite Hpt.
  - by apply Hst.
  - right. exists off, bs', (mkNode (len bs) rc false (Leaf c' (Some m') (CFRangeMake (off / vs) v))), c', (Some m'), v. rewrite Est. cbn [cacheNode set_cacheNode info].
    rewrite Z.add_0_l. split_and!; try done; [by apply leaf_at_in|rewrite El; done].
  - intros x [Hx|Hx] [n Hxn]; [by rewrite Hpt|]. pose proof (winv_lt _ _ _ (fr_inv _ _ _ F) Hxn). lia.
  - unfold pointed. rewrite Est, El. split_and!; try done. by exists rc, c', m'.
Qed.

(** The answer to a request for the value at [idx]. *)
Definition answered (w : world) (t : tree) (idx : Z) (p : pointer) (r : CFRange) (w' : world) : Prop :=
  exists t' off bs v, moved w t w' t' /\ bytes t' = bytes t /\ pointed w' t' (leaf_of p) off bs v /\ r = CFRangeMake (off / vs) v /\
    offset_of p = idx * vs - off /\ 0 <= idx * vs - off /\ idx < off / vs + v.

Lemma storage_shaped w t : storage_ok w t -> 0 < len (bytes t) -> shaped cap vs t.
Proof. intros Hok Hl. destruct (so_shaped _ _ Hok) as [?|E]; [done|]. rewrite E in Hl. simpl in Hl. lia. Qed.

(** The answer from the cache, or a leaf that may have got memory. *)
Lemma from_cache_spec w t idx b :
  storage_ok w t -> 0 <= idx -> idx * vs < len (bytes t) < 2 ^ 62 ->
  (exists p r w', __CFStorageGetFromCache idx b w = Some (Some (p, r), w') /\ answered w t idx p r w') \/
  (exists w' t', __CFStorageGetFromCache idx b w = Some (None, w') /\ moved w t w' t' /\ bytes t' = bytes t).
Proof.
  intros Hok Hi Hle. pose proof Hok as [Hw Hs Hroot Hr Hn Hsh Hc]. pose proof (storage_shaped w t Hok ltac:(nia)) as Hst.
  unfold __CFStorageGetFromCache. erewrite (bind_step get_storage) by reflexivity. cbv zeta.
  destruct (Z.eqb_spec (cacheNode (storage w)) 0) as [E0|Hne]; [right; exists w, t; split_and!; [done|by apply moved_refl|done]|].
  destruct Hc as [?|(off & bs & n & c0 & m0 & v & Hl & Hq & Hinf & Hd & Hv & Hvb)]; [done|]. rewrite Z.add_0_l in *. apply leaf_in_at in Hl.
  destruct (leaf_at_divide _ _ _ _ Hl Hst) as [_ [Hbs _]]. destruct (update_leaf w t _ off bs Hok Hl) as (rc & c & m & cr & Hq' & Hh & Hgo).
  rewrite Hq in Hq'. injection Hq' as ->. cbn [info] in Hinf. injection Hinf as -> -> ->. set (q := cacheNode (storage w)) in *.
  getn. rewrite andb_false_r. cbn [leaf_memory info].
  assert (exists c' m', match m0 with None => __CFStorageAllocLeafNodeMemory q (len bs) false | Some _ => ret tt end w =
            Some (tt, upd w q (mkNode (len bs) rc false (Leaf c' (Some m') (CFRangeMake (off / vs) v)))) /\ holds_bytes c' (Some m') bs) as (c' & m' & E & Hh').
  { destruct m0 as [m0|]; [exists c0, m0; unfold ret; by rewrite upd_id|]. by apply (alloc_leaf w q bs rc c0 None). }
  rewrite (bind_step _ _ _ _ _ E). cbn [location range_length]. set (w1 := upd w q _) in *.
  destruct (Hgo w1 bs c' m' v eq_refl Hh' Hd Hv Hvb eq_refl eq_refl) as (t' & Hm & Hb & Hpt); [by destruct w as [? ? []]|].
  rewrite patch_id in Hb by (by apply (leaf_at_bytes _ _ _ _ Hl)).
  destruct (Z.ltb_spec idx (off / vs)); [right; exists w1, t'; by split_and!|]. cbn [orb].
  destruct (Z.leb_spec (off / vs + v) idx); [right; exists w1, t'; by split_and!|]. left.
  destruct Hd as [z ->]. rewrite Z.div_mul in * by lia.
  rewrite (set_to_byte _ Hs) by nia. eexists _, _, w1. split; [reflexivity|]. exists t', (z * vs), bs, v. rewrite Z.div_mul by lia.
  split_and!; try done; cbn [offset_of]; nia.
Qed.

Lemma GetValueAtIndex_spec w t idx b :
  storage_ok w t -> 0 <= idx -> idx * vs < len (bytes t) < 2 ^ 62 ->
  exists p r w', __CFStorageGetValueAtIndex idx b w = Some ((p, r), w') /\ answered w t idx p r w'.
Proof.
  intros Hok Hi Hle. unfold __CFStorageGetValueAtIndex.
  destruct (from_cache_spec w t idx b Hok Hi Hle) as [(p & r & w' & E & Ha)|(w1 & t1 & E & Hm & Hb)]; rewrite (bind_step _ _ _ _ _ E).
  { by exists p, r, w'. }
  erewrite (bind_step get_storage) by reflexivity. pose proof (mv_ok _ _ _ _ Hm) as Hok1. pose proof Hok1 as [Hw Hs Hroot Hr Hn Hsh Hc]. rewrite <- Hroot.
  rewrite <- Hb in Hle. pose proof (storage_shaped w1 t1 Hok1 ltac:(nia)) as Hst. rewrite (set_to_byte _ Hs) by nia.
  unfold __CFStorageFindByte. rewrite bind_assoc. erewrite (bind_step depth_fuel) by reflexivity.
  destruct (find_byte_spec t1 (S (size (nodes w1))) w1 0 (idx * vs) 0 b) as (q & off & bs & rc' & c & m & cr & c' & m' & Hl & Ho & Hq & Hh & Ef); try done;
    [pose proof (depth_enough w1 0 t1 Hr Hn); lia|nia|].
  rewrite (bind_step _ _ _ _ _ Ef). cbn [location range_length]. rewrite Z.add_0_l. destruct (leaf_at_divide _ _ _ _ Hl Hst) as [Hd [Hbs Hdb]].
  pose proof (winv_lt _ _ _ Hw Hq) as Hlt. pose proof (leaf_at_bytes _ _ _ _ Hl) as (Hoff & Hob & Htk).
  erewrite (bind_step (__CFStorageSetCache _ _)) by (eapply set_cache_ok; [find_node|lia]). rewrite upd_upd. cbn [storage upd with_nodes].
  rewrite !(convert_range (storage w1)) by (done || lia). set (w2 := with_storage _ _). eexists _, _, w2. split; [reflexivity|].
  destruct (update_leaf w1 t1 q off bs Hok1 Hl) as (rc & c1 & m1 & cr1 & Hq1 & Hh1 & Hgo). rewrite Hq in Hq1. injection Hq1 as <- <- <- <-.
  assert (len bs / vs * vs = len bs) as Hdm by (destruct Hdb as [z ->]; by rewrite Z.div_mul by lia).
  destruct (Hgo w2 bs c' m' (len bs / vs) eq_refl Hh Hd) as (t2 & Hm2 & Hb2 & Hp2); try done; [apply Z.div_pos; lia|lia|].
  rewrite patch_id in Hb2 by done. exists t2, off, bs, (len bs / vs). cbn [leaf_of offset_of].
  split_and!; [by eapply moved_trans|congruence|done|done|done|lia|]. destruct Hd as [z ->]. rewrite Z.div_mul by lia. nia.
Qed.

(** ** Ranges of values *)

Lemma slice_prefix {A} (m : list A) c o k : (o + k <= c)%nat -> take k (drop o (take c m)) = take k (drop o m).
Proof. intros H. rewrite !take_drop_commute, take_take. by rewrite Nat.min_l by lia. Qed.

(** The bytes of a range that lies in the leaf. *)
Lemma pointed_slice w t q off bs v m k o :
  pointed w t q off bs v -> take (length bs) m = bs -> 0 <= o -> 0 <= k -> o + k <= len bs ->
  take (Z.to_nat k) (drop (Z.to_nat o) m) = take (Z.to_nat k) (drop (Z.to_nat (off + o)) (bytes t)).
Proof.
  intros (_ & Hl & _) Hm Ho Hk Hok. pose proof (leaf_at_bytes _ _ _ _ Hl) as (Hoff & Hob & Hb).
  rewrite <- (slice_prefix m (length bs)) by lia. rewrite Hm, <- Hb at 1. rewrite slice_prefix by lia. rewrite drop_drop. do 2 f_equal. lia.
Qed.

Lemma read_pointer_ok w p nb rc fz c m cr k :
  nodes w !! leaf_of p = Some (mkNode nb rc fz (Leaf c (Some m) cr)) -> 0 <= offset_of p -> 0 <= k -> offset_of p + k <= len m ->
  read_pointer p k w = Some (take (Z.to_nat k) (drop (Z.to_nat (offset_of p)) m), w).
Proof.
  intros Hp Ho Hk Hm. unfold read_pointer. getn. cbn [leaf_memory info]. rewrite memmove_ok by (rewrite ?length_replicate; lia).
  rewrite take_0, (drop_ge (replicate _ _)) by (rewrite length_replicate; lia). by rewrite app_nil_l, app_nil_r.
Qed.

(** What a round can do: the values from [idx] to the end of the leaf. *)
Lemma round_count w t idx p r w' n :
  answered w t idx p r w' -> 0 < n -> let k := Z.min n (range_length r - (idx - location r)) in 0 < k <= n.
Proof. intros (t' & off & bs & v & _ & _ & _ & -> & _ & _ & H) Hn. cbn [range_length location]. lia. Qed.

Lemma answered_room w t idx p r w' k :
  answered w t idx p r w' -> 0 < k <= range_length r - (idx - location r) ->
  exists t' off bs v rc c m, moved w t w' t' /\ bytes t' = bytes t /\ pointed w' t' (leaf_of p) off bs v /\ idx * vs = off + offset_of p /\ 0 <= offset_of p /\
    offset_of p + k * vs <= len bs /\ nodes w' !! leaf_of p = Some (mkNode (len bs) rc false (Leaf c (Some m) (CFRangeMake (off / vs) v))) /\
    holds_bytes c (Some m) bs /\ len bs <= len m.
Proof.
  intros (t' & off & bs & v & Hm & Hb & Hp & -> & Ho & Ho0 & Hlt) Hk. cbn [range_length location] in Hk.
  pose proof Hp as (_ & Hl & Hd & Hv & Hvb & rc & c & m & Hq & Hh). exists t', off, bs, v, rc, c, m. split_and!; try done; try lia.
  - rewrite Ho. destruct Hd as [z ->]. rewrite Z.div_mul in Hk by lia. nia.
  - destruct Hh as [Hh _]. apply (f_equal length) in Hh. rewrite length_take in Hh. lia.
Qed.

Lemma get_loop_spec fuel : forall w t loc n,
  (Z.to_nat n <= fuel)%nat -> storage_ok w t -> 0 <= loc -> 0 <= n -> (loc + n) * vs <= len (bytes t) < 2 ^ 62 ->
  exists w' t', get_loop fuel loc n w = Some (take (Z.to_nat (n * vs)) (drop (Z.to_nat (loc * vs)) (bytes t)), w') /\ moved w t w' t' /\ bytes t' = bytes t.
Proof.
  induction fuel as [|fuel IH]; intros w t loc n Hf Hok Hloc Hn Hle; cbn [get_loop]; destruct (Z.ltb_spec 0 n) as [Hp|Hp]; try lia.
  1,3: assert (n = 0) as -> by lia; exists w, t; split_and!; [done|by apply moved_refl|done].
  destruct (GetValueAtIndex_spec w t loc false Hok Hloc ltac:(nia)) as (p & r & w1 & E1 & Ha). rewrite (bind_step _ _ _ _ _ E1).
  pose proof (round_count _ _ _ _ _ _ n Ha Hp) as Hk. cbv zeta in Hk. erewrite (bind_step get_storage) by reflexivity. cbv zeta. set (k := Z.min n _) in *.
  destruct (answered_room _ _ _ _ _ _ k Ha ltac:(unfold k; lia)) as (t1 & off & bs & v & rc & c & m & Hm & Hb & Hpt & Hidx & Ho & Hok1 & Hq & Hh & Hlm).
  rewrite (set_to_byte _ (so_settings _ _ (mv_ok _ _ _ _ Hm))) by nia.
  erewrite (bind_step (read_pointer _ _)) by (eapply read_pointer_ok; [exact Hq|done|nia|nia]).
  destruct (IH w1 t1 (loc + k) (n - k)) as (w2 & t2 & E2 & Hm2 & Hb2); [lia|apply Hm|lia|lia|rewrite Hb; nia|].
  rewrite (bind_step _ _ _ _ _ E2). exists w2, t2. split_and!; [|by eapply moved_trans|congruence]. unfold ret. do 2 f_equal.
  rewrite (pointed_slice w1 t1 (leaf_of p) off bs v m (k * vs) (offset_of p)) by (done || nia || apply Hh). rewrite <- Hidx, Hb.
  replace (Z.to_nat (n * vs)) with (Z.to_nat (k * vs) + Z.to_nat ((n - k) * vs))%nat by nia. rewrite <- take_take_drop, drop_drop. do 3 f_equal. nia.
Qed.

Lemma patch_take {A} (m x : list A) c o : 0 <= o -> o + len x <= Z.of_nat c -> (c <= length m)%nat -> take c (patch m o x) = patch (take c m) o x.
Proof.
  intros Ho Hc Hm. unfold patch. rewrite take_take, Nat.min_l by lia. rewrite take_app_ge by (rewrite length_take; lia). f_equal.
  rewrite take_app_ge by (rewrite length_take; lia). f_equal. rewrite length_take, Nat.min_l by lia. rewrite skipn_firstn_comm. f_equal. lia.
Qed.

Lemma patch_patch {A} (l bs x : list A) off o :
  0 <= off -> off + len bs <= len l -> take (length bs) (drop (Z.to_nat off) l) = bs -> 0 <= o -> o + len x <= len bs ->
  patch l off (patch bs o x) = patch l (off + o) x.
Proof.
  intros H0 H1 Hb Ho Hx. assert (l = take (Z.to_nat off) l ++ bs ++ drop (Z.to_nat off + length bs) l) as El.
  { rewrite <- Hb at 1. rewrite <- drop_drop, take_drop. by rewrite take_drop. }
  unfold patch at 1. rewrite length_patch by lia. set (l1 := take (Z.to_nat off) l) in *. set (l2 := drop (Z.to_nat off + length bs) l) in *.
  assert (off = len l1) as Eo by (unfold l1; rewrite length_take; lia). clearbody l1 l2. rewrite El, Eo. by rewrite patch_inside by lia.
Qed.

Lemma patch_app {A} (l x y : list A) a : 0 <= a -> a + len x + len y <= len l -> patch (patch l a x) (a + len x) y = patch l a (x ++ y).
Proof.
  intros Ha Hl. unfold patch. replace (Z.to_nat (a + len x)) with (Z.to_nat a + length x)%nat by lia.
  rewrite (app_assoc (take _ l) x). rewrite take_app_length' by (rewrite length_app, length_take; lia).
  rewrite <- drop_drop, drop_app_length' by (rewrite length_app, length_take; lia). rewrite drop_drop, length_app, <- !app_assoc. do 4 f_equal. lia.
Qed.

(** Writing into the leaf that was found. *)
Lemma write_answer w t idx p r w1 values from k :
  answered w t idx p r w1 -> 0 < k <= range_length r - (idx - location r) -> 0 <= from -> from + k * vs <= len values ->
  exists w2 t2, write_pointer p values from (k * vs) w1 = Some (tt, w2) /\ moved w t w2 t2 /\
    bytes t2 = patch (bytes t) (idx * vs) (take (Z.to_nat (k * vs)) (drop (Z.to_nat from) values)).
Proof.
  intros Ha Hk Hf Hv. destruct (answered_room _ _ _ _ _ _ k Ha Hk) as (t1 & off & bs & v & rc & c & m & Hm & Hb & Hpt & Hidx & Ho & Hor & Hq & Hh & Hlm).
  unfold write_pointer. erewrite copy_in_ok by (done || nia). set (x := take _ (drop _ values)).
  assert (len x = k * vs) as Hlx by (unfold x; rewrite length_take, length_drop; nia).
  pose proof Hpt as (Hcn & Hl & Hd & Hv0 & Hvb & _). pose proof (leaf_at_bytes _ _ _ _ Hl) as (Hoff & Hob & Htk).
  destruct (update_leaf w1 t1 (leaf_of p) off bs (mv_ok _ _ _ _ Hm) Hl) as (rc' & c' & m' & cr' & Hq' & _ & Hgo). rewrite Hq in Hq'. injection Hq' as <- <- <- <-.
  assert (take (Z.to_nat (offset_of p)) m ++ x ++ drop (Z.to_nat (offset_of p + k * vs)) m = patch m (offset_of p) x) as ->
    by (unfold patch; do 3 f_equal; lia).
  set (w2 := upd w1 _ _). destruct Hh as [Hh Hc]. pose proof (length_patch bs x (offset_of p) Ho ltac:(lia)) as Hlp.
  destruct (Hgo w2 (patch bs (offset_of p) x) c (patch m (offset_of p) x) v) as (t2 & Hm2 & Hb2 & _); try done.
  - split; [rewrite Hlp, patch_take by lia; by rewrite Hh|]. rewrite length_patch by lia. done.
  - unfold w2. cbn [storage upd with_nodes]. rewrite <- Hcn. by destruct (storage w1).
  - exists w2, t2. split_and!; [done|by eapply moved_trans|]. rewrite Hb2, patch_patch by (done || lia). by rewrite Hb, <- Hidx.
Qed.

Lemma replace_loop_spec fuel : forall w t values from loc n,
  (Z.to_nat n <= fuel)%nat -> storage_ok w t -> 0 <= loc -> 0 <= n -> (loc + n) * vs <= len (bytes t) < 2 ^ 62 -> 0 <= from -> from + n * vs <= len values ->
  exists w' t', replace_loop fuel values from loc n w = Some (tt, w') /\ moved w t w' t' /\
    bytes t' = patch (bytes t) (loc * vs) (take (Z.to_nat (n * vs)) (drop (Z.to_nat from) values)).
Proof.
  induction fuel as [|fuel IH]; intros w t values from loc n Hf Hok Hloc Hn Hle Hfr Hv; cbn [replace_loop]; destruct (Z.ltb_spec 0 n) as [Hp|Hp]; try lia.
  1,3: assert (n = 0) as -> by lia; exists w, t; split_and!; [done|by apply moved_refl|]; rewrite take_0; by rewrite patch_id.
  destruct (GetValueAtIndex_spec w t loc true Hok Hloc ltac:(nia)) as (p & r & w1 & E1 & Ha). rewrite (bind_step _ _ _ _ _ E1).
  pose proof (round_count _ _ _ _ _ _ n Ha Hp) as Hk. cbv zeta in Hk. erewrite (bind_step get_storage) by reflexivity. cbv zeta. set (k := Z.min n _) in *.
  assert (settings (storage w1)) as Hs1 by (destruct Ha as (t' & ? & ? & ? & Hm & _); apply Hm).
  rewrite (set_to_byte _ Hs1) by nia.
  destruct (write_answer _ _ _ _ _ _ values from k Ha ltac:(unfold k; lia) Hfr ltac:(nia)) as (w2 & t2 & E2 & Hm2 & Hb2). rewrite (bind_step _ _ _ _ _ E2).
  set (x := take _ _) in Hb2. assert (len x = k * vs) as Hlx by (unfold x; rewrite length_take, length_drop; nia).
  assert (length (bytes t2) = length (bytes t)) as Hl2 by (rewrite Hb2; apply length_patch; nia).
  destruct (IH w2 t2 values (from + k * vs) (loc + k) (n - k)) as (w3 & t3 & E3 & Hm3 & Hb3); [lia|apply Hm2|lia|lia|rewrite Hl2; nia|nia|nia|].
  exists w3, t3. split_and!; [done|by eapply moved_trans|]. rewrite Hb3, Hb2. replace ((loc + k) * vs) with (loc * vs + len x) by lia.
  rewrite patch_app; [|nia|rewrite length_take, length_drop; nia]. f_equal.
  replace (Z.to_nat (n * vs)) with (Z.to_nat (k * vs) + Z.to_nat ((n - k) * vs))%nat by nia. rewrite <- take_take_drop, drop_drop. unfold x. do 3 f_equal. nia.
Qed.

Lemma GetCount_spec w t : storage_ok w t -> len (bytes t) < 2 ^ 62 -> CFStorageGetCount w = Some (len (bytes t) / vs, w).
Proof.
  intros [Hw Hs Hroot Hr Hn Hsh Hc] Hl. unfold CFStorageGetCount, __CFStorageGetCount. erewrite (bind_step get_storage) by reflexivity. rewrite <- Hroot.
  destruct (rep_root _ _ _ Hr) as (i & Hi & _). getn. unfold ret. by rewrite (set_to_value _ Hs) by lia.
Qed.

End Storage.
