(* ===== verification/CFStorageApply.v ===== *)
(** * CFStorage: enumeration

    The block of an enumeration is called with the memory of one leaf after the
    other, as far as the leaves lie in the range, until it asks to stop; leaves
    that had no memory get it on the way. *)

From S2P Require Import Prelude CFInternal CFStorage CFStorageTree CFStorageInsert CFStorageDelete CFStorageAccess.
From stdpp Require Import base list numbers option gmap.
From Stdlib Require Import ZArith Lia.
Open Scope Z_scope.
Open Scope cf_scope.

(** ** Leaves that get memory *)

Definition upgraded (n n' : CFStorageNode) : Prop :=
  exists nb rc c m cr c' m', n = mkNode nb rc false (Leaf c m cr) /\ n' = mkNode nb rc false (Leaf c' (Some m') cr) /\
    forall bs, len bs = nb -> holds_bytes c m bs -> holds_bytes c' (Some m') bs.

Record grown (w w' : world) : Prop := mkGrown {
  gr_next : next w' = next w;
  gr_storage : storage w' = storage w;
  gr_nodes : forall p, nodes w' !! p = nodes w !! p \/ exists n n', nodes w !! p = Some n /\ nodes w' !! p = Some n' /\ upgraded n n'
}.

Lemma grown_refl w : grown w w.
Proof. constructor; [done|done|]. by left. Qed.

Lemma upgraded_trans n n1 n2 : upgraded n n1 -> upgraded n1 n2 -> upgraded n n2.
Proof.
  intros (nb & rc & c & m & cr & c' & m' & -> & -> & H1) (nb2 & rc2 & c2 & m2 & cr2 & c2' & m2' & E & -> & H2). injection E as <- <- <- <- <-.
  exists nb, rc, c, m, cr, c2', m2'. split_and!; [done|done|]. auto.
Qed.

Lemma grown_trans w w1 w2 : grown w w1 -> grown w1 w2 -> grown w w2.
Proof.
  intros [N1 S1 H1] [N2 S2 H2]. constructor; [congruence|congruence|]. intros p.
  destruct (H2 p) as [->|(n & n' & E & E' & U)]; [by apply H1|]. right.
  destruct (H1 p) as [E1|(n1 & n1' & E1 & E1' & U1)]; [exists n, n'; by rewrite <- E1|]. rewrite E1' in E. injection E as ->.
  exists n1, n'. split_and!; [done|done|by eapply upgraded_trans].
Qed.

Lemma grown_dom w w' p : grown w w' -> is_Some (nodes w' !! p) <-> is_Some (nodes w !! p).
Proof. intros G. destruct (gr_nodes _ _ G p) as [->|(n & n' & -> & -> & _)]; [done|]. by split; eexists. Qed.

Lemma rep_grown w w' rc t : grown w w' -> rep (nodes w) rc t -> rep (nodes w') rc t.
Proof.
  intros G. revert rc. induction t as [p bs|p ks IH] using tree_nested_ind; intros rc.
  - intros (n & Hn & c & m & cr & -> & Hh). destruct (gr_nodes _ _ G p) as [E|(n1 & n' & E & E' & U)].
    + eexists. rewrite E. split; [exact Hn|]. by exists c, m, cr.
    + rewrite Hn in E. injection E as <-. destruct U as (nb & rc1 & c1 & m1 & cr1 & c' & m' & E1 & -> & U). injection E1 as <- <- <- <- <-.
      eexists. split; [exact E'|]. exists c', (Some m'), cr. split; [done|by apply U].
  - rewrite !rep_branch. intros [Hp Hks]. split.
    + destruct (gr_nodes _ _ G p) as [->|(n1 & n' & E & _ & U)]; [done|]. rewrite Hp in E. injection E as <-. by destruct U as (? & ? & ? & ? & ? & ? & ? & ? & _).
    + clear Hp. induction Hks as [|k ks Hk Hks IH2]; [constructor|]. apply Forall_cons in IH as [I1 I2]. constructor; [by apply I1|by apply IH2].
Qed.

Section Storage.
Context {L : Layout}.
Let Hvs : 0 < vs := vs_pos.
Let Hcap : 0 < cap < 2 ^ 30 := cap_range.

Lemma grown_moved w w' t : storage_ok w t -> grown w w' -> (forall p, p ∉ ptrs t -> nodes w' !! p = nodes w !! p) -> moved w t w' t.
Proof.
  intros Hok G Hf. pose proof Hok as [Hw Hs Hroot Hr Hn Hsh Hc].
  assert (winv w') as Hw'.
  { split; [rewrite (gr_next _ _ G); apply Hw|]. intros p n Hp. destruct (proj1 (grown_dom _ _ p G)) as [m Hm]; [by eexists|].
    rewrite (gr_next _ _ G). by apply (winv_lt _ _ _ Hw Hm). }
  constructor; [constructor| |by left|]; rewrite ?(gr_storage _ _ G); try done.
  - by apply (rep_grown w).
  - destruct Hc as [Hc|(off & bs & n & c & m & v & Hl & Hq & Hi & Hd & Hv & Hvb)]; [left; by rewrite (gr_storage _ _ G)|]. right.
    destruct (gr_nodes _ _ G (cacheNode (storage w))) as [E|(n1 & n' & E & E' & U)].
    + exists off, bs, n, c, m, v. rewrite (gr_storage _ _ G), E. by split_and!.
    + rewrite Hq in E. injection E as <-. destruct U as (nb & rc1 & c1 & m1 & cr1 & c' & m' & -> & -> & _). cbn [info] in Hi. injection Hi as -> -> ->.
      eexists off, bs, _, c', (Some m'), v. rewrite (gr_storage _ _ G), E'. by split_and!.
  - constructor; [done|rewrite (gr_next _ _ G); lia|by auto|]. rewrite (gr_storage _ _ G). by destruct (storage w).
  - intros q [?|Hq] [n Hqn]; [done|]. pose proof (winv_lt _ _ _ Hw' Hqn). rewrite (gr_next _ _ G) in *. lia.
Qed.

(** ** Chunks *)

Definition chunk : Type := memory_block * CFRange.

(** The calls of the block up to the one at which it stops. *)
Fixpoint stopped (f : memory_block -> CFRange -> bool) (cs : list chunk) : list chunk * bool :=
  match cs with
  | [] => ([], false)
  | c :: cs => if f c.1 c.2 then ([c], true) else let '(r, stop) := stopped f cs in (c :: r, stop)
  end.

Lemma stopped_app f cs1 cs2 :
  stopped f (cs1 ++ cs2) = let '(r1, stop1) := stopped f cs1 in if stop1 then (r1, true) else let '(r2, stop2) := stopped f cs2 in (r1 ++ r2, stop2).
Proof.
  induction cs1 as [|c cs1 IH]; simpl; [by destruct (stopped f cs2)|]. destruct (f c.1 c.2); [done|]. rewrite IH.
  destruct (stopped f cs1) as [r1 [|]]; [done|]. by destruct (stopped f cs2).
Qed.

Lemma stopped_never cs : stopped (fun _ _ => false) cs = (cs, false).
Proof. induction cs as [|c cs IH]; [done|]. simpl. by rewrite IH. Qed.

(** The part of a leaf at byte [o] that lies between [a] and [b]. *)
Definition leaf_chunk (a b o : Z) (bs : memory_block) : list chunk :=
  let lo := Z.max a o in let hi := Z.min b (o + len bs) in
  if lo <? hi then [(take (Z.to_nat (hi - lo)) (drop (Z.to_nat (lo - o)) bs), CFRangeMake (lo / vs) ((hi - lo) / vs))] else [].

Fixpoint leaf_chunks (a b o : Z) (t : tree) {struct t} : list chunk :=
  match t with
  | TLeaf _ bs => leaf_chunk a b o bs
  | TBranch _ ks => (fix kids o ks := match ks with [] => [] | k :: ks => leaf_chunks a b o k ++ kids (o + len (bytes k)) ks end) o ks
  end.

Fixpoint kids_chunks (a b o : Z) (ks : list tree) : list chunk :=
  match ks with [] => [] | k :: ks => leaf_chunks a b o k ++ kids_chunks a b (o + len (bytes k)) ks end.

Lemma leaf_chunks_branch a b o p ks : leaf_chunks a b o (TBranch p ks) = kids_chunks a b o ks.
Proof. simpl. revert o. induction ks as [|k ks IH]; intros o; [done|]. simpl. by rewrite IH. Qed.

Lemma leaf_chunks_nil a b o t : Z.min b (o + len (bytes t)) <= Z.max a o -> leaf_chunks a b o t = [].
Proof.
  revert o. induction t as [p bs|p ks IH] using tree_nested_ind; intros o H.
  - simpl in *. unfold leaf_chunk. destruct (Z.ltb_spec (Z.max a o) (Z.min b (o + len bs))); [lia|done].
  - rewrite leaf_chunks_branch. cbn [bytes] in H. revert o H. induction IH as [|k ks Hk _ IH]; intros o H; [done|].
    cbn [map concat kids_chunks] in *. rewrite length_app in H. rewrite Hk, IH by lia. done.
Qed.

(** *** Their bytes *)

Definition slice {A} (l : list A) (a b : Z) : list A := drop (Z.to_nat a) (take (Z.to_nat b) l).

Lemma slice_app {A} (l1 l2 : list A) a b : a <= b -> slice (l1 ++ l2) a b = slice l1 a b ++ slice l2 (a - len l1) (b - len l1).
Proof.
  intros Hab. unfold slice. rewrite take_app, drop_app, length_take.
  replace (Z.to_nat b - length l1)%nat with (Z.to_nat (b - len l1)) by lia. f_equal.
  destruct (decide (Z.to_nat b <= length l1)%nat) as [Hle|Hgt].
  - replace (Z.to_nat (b - len l1)) with 0%nat by lia. by rewrite take_0, !drop_nil.
  - rewrite Nat.min_r by lia. f_equal. lia.
Qed.

Lemma leaf_chunks_bytes a b t : forall o, a <= b -> concat (map fst (leaf_chunks a b o t)) = slice (bytes t) (a - o) (b - o).
Proof.
  induction t as [p bs|p ks IH] using tree_nested_ind; intros o Hab.
  - cbn [leaf_chunks bytes]. unfold leaf_chunk, slice. destruct (Z.ltb_spec (Z.max a o) (Z.min b (o + len bs))) as [Hlt|Hge].
    + simpl. rewrite app_nil_r. rewrite take_drop_commute.
      replace (Z.to_nat (Z.max a o - o)) with (Z.to_nat (a - o)) by lia. f_equal.
      destruct (decide (b - o <= len bs)); [f_equal; lia|]. rewrite !take_ge by lia. done.
    + simpl. symmetry. apply drop_ge. rewrite length_take. lia.
  - rewrite leaf_chunks_branch. cbn [bytes]. revert o. induction IH as [|k ks Hk _ IH]; intros o; cbn [map concat kids_chunks].
    + unfold slice. by rewrite take_nil, drop_nil.
    + rewrite map_app, concat_app, Hk, IH, slice_app by lia. do 2 f_equal; lia.
Qed.

(** *** Their places *)

Fixpoint runs (lo : Z) (cs : list chunk) (hi : Z) : Prop :=
  match cs with [] => lo = hi | c :: cs => location c.2 = lo /\ runs (lo + range_length c.2) cs hi end.

Lemma runs_app lo cs1 mid cs2 hi : runs lo cs1 mid -> runs mid cs2 hi -> runs lo (cs1 ++ cs2) hi.
Proof. revert lo. induction cs1 as [|c cs1 IH]; intros lo; simpl; [by intros ->|]. intros [? ?] ?. split; [done|]. by apply IH. Qed.

(** Where the enumeration is when it passes byte [x]. *)
Definition passed (a b x : Z) : Z := Z.max a (Z.min b x).

Definition chunk_ok (c : chunk) : Prop := len c.1 = range_length c.2 * vs.

Lemma divide_clip a b : (vs | a) -> (vs | b) -> (vs | Z.max a b) /\ (vs | Z.min a b).
Proof. intros. split; [by destruct (Z.max_spec a b) as [[_ ->]|[_ ->]]|by destruct (Z.min_spec a b) as [[_ ->]|[_ ->]]]. Qed.

Lemma leaf_chunks_runs a b t : forall o, a <= b -> (vs | a) -> (vs | b) -> (vs | o) -> shaped cap vs t ->
  runs (passed a b o / vs) (leaf_chunks a b o t) (passed a b (o + len (bytes t)) / vs) /\ Forall chunk_ok (leaf_chunks a b o t).
Proof.
  induction t as [p bs|p ks IH] using tree_nested_ind; intros o Hab Da Db Do Hs.
  - destruct Hs as [Hl Dl]. cbn [leaf_chunks bytes]. unfold leaf_chunk, passed.
    destruct (Z.ltb_spec (Z.max a o) (Z.min b (o + len bs))) as [Hlt|Hge]; [|cbn [runs]; split; [f_equal; lia|constructor]].
    destruct (divide_clip a o Da Do) as [[x Ex] _]. destruct (divide_clip b (o + len bs) Db (Z.divide_add_r _ _ _ Do Dl)) as [_ [y Ey]].
    replace (Z.max a (Z.min b o)) with (Z.max a o) by lia. replace (Z.max a (Z.min b (o + len bs))) with (Z.min b (o + len bs)) by lia.
    replace ((Z.min b (o + len bs) - Z.max a o) / vs) with (y - x) by (rewrite Ex, Ey, <- Z.mul_sub_distr_r; by rewrite Z.div_mul by lia).
    cbn [runs location range_length snd]. rewrite Ex, Ey, !Z.div_mul by lia. split; [split; [done|lia]|]. constructor; [|constructor].
    unfold chunk_ok. cbn [fst snd range_length]. rewrite length_take, length_drop. lia.
  - rewrite leaf_chunks_branch. apply shaped_branch in Hs as [_ Hs]. cbn [bytes]. revert o Do. induction IH as [|k ks Hk _ IH]; intros o Do; cbn [map concat kids_chunks].
    + simpl. rewrite Z.add_0_r. split; [done|constructor].
    + apply Forall_cons in Hs as [S1 S2]. destruct (Hk o Hab Da Db Do S1) as [R1 C1].
      destruct (IH S2 (o + len (bytes k))) as [R2 C2]; [apply Z.divide_add_r; [done|by apply (shaped_divide cap)]|].
      rewrite length_app, Nat2Z.inj_add, Z.add_assoc. split; [by eapply runs_app|by apply Forall_app].
Qed.

(** ** The enumeration *)

(** The children of a branch with their places and their part of the range. *)
Fixpoint placed (o : Z) (range : CFRange) (ks : list tree) : list (Z * Z * CFRange) :=
  match ks with
  | [] => []
  | k :: ks => (root k, o, intersectionRange (CFRangeMake o (len (bytes k))) range) :: placed (o + len (bytes k)) range ks
  end.

Lemma intersection_empty o range : range_length (intersectionRange (CFRangeMake o 0) range) = 0.
Proof. unfold intersectionRange. cbn [location range_length]. destruct (Z.leb_spec (Z.min (o + 0) (location range + range_length range)) (Z.max o (location range))); [done|lia]. Qed.

Lemma overlaps_ok w ks n range :
  winv w -> info n = slots (map root ks) -> Forall (rep (nodes w) 1) ks -> (2 <= length ks <= 3)%nat ->
  exists tail, overlaps_of n range w = Some (placed 0 range ks ++ tail, w) /\ Forall (fun c => range_length c.2 = 0) tail.
Proof.
  intros Hw Hn Hr Hl. unfold overlaps_of, children_of, child_length. rewrite Hn. pose proof (rep_roots w ks Hw Hr) as Hnz.
  destruct ks as [|k0 [|k1 ks]]; [simpl in Hl; lia..|]. inversion Hr as [|? ? R0 Hr1]; inversion Hr1 as [|? ? R1 Hr2]; subst.
  destruct (rep_root _ _ _ R0) as (i0 & E0 & _). destruct (rep_root _ _ _ R1) as (i1 & E1 & _). rewrite slots_two.
  erewrite (bind_step (ret _)) by reflexivity. cbv beta iota. erewrite (bind_step (get_node (root k0))) by (apply get_node_ok; exact E0).
  pose proof (winv_lt _ _ _ Hw E1). rewrite (proj2 (Z.eqb_neq (root k1) 0)) by lia. rewrite bind_assoc.
  erewrite (bind_step (get_node (root k1))) by (apply get_node_ok; exact E1). erewrite (bind_step (ret _)) by reflexivity. cbn [numBytes].
  destruct ks as [|k2 [|? ?]]; [| |simpl in Hl; lia].
  - change (entry (map root []) 0) with 0. cbn [Z.eqb]. erewrite (bind_step (ret _)) by reflexivity.
    eexists [_]. split; [reflexivity|]. constructor; [apply intersection_empty|constructor].
  - inversion Hr2 as [|? ? R2 _]; subst. destruct (rep_root _ _ _ R2) as (i2 & E2 & _). change (entry (map root [k2]) 0) with (root k2).
    pose proof (winv_lt _ _ _ Hw E2). rewrite (proj2 (Z.eqb_neq (root k2) 0)) by lia. rewrite bind_assoc.
    erewrite (bind_step (get_node (root k2))) by (apply get_node_ok; exact E2). erewrite (bind_step (ret _)) by reflexivity. cbn [numBytes].
    exists []. split; [reflexivity|constructor].
Qed.

(** What visiting a node at byte [g] does for every range of it. *)
Definition visits (f : memory_block -> CFRange -> bool) (visit : Z -> Z -> CFRange -> M (list chunk * bool)) (k : tree) : Prop :=
  forall w g c n a b, winv w -> settings (storage w) -> rep (nodes w) 1 k -> shaped cap vs k -> 0 <= g -> g + len (bytes k) < 2 ^ 62 -> 0 < n ->
    g + c = Z.max a g -> g + c + n = Z.min b (g + len (bytes k)) ->
    exists w', visit (root k) g (CFRangeMake c n) w = Some (stopped f (leaf_chunks a b g k), w') /\ grown w w' /\
      (forall p, p ∉ ptrs k -> nodes w' !! p = nodes w !! p).

Lemma winv_grown w w' : grown w w' -> winv w -> winv w'.
Proof.
  intros G Hw. split; [rewrite (gr_next _ _ G); apply Hw|]. intros p n Hp. destruct (proj1 (grown_dom _ _ p G)) as [m Hm]; [by eexists|].
  rewrite (gr_next _ _ G). by apply (winv_lt _ _ _ Hw Hm).
Qed.

Lemma enumerate_none f visit g tail w : Forall (fun c => range_length c.2 = 0) tail -> enumerate_children visit g tail w = Some (stopped f [], w).
Proof. induction 1 as [|[[c o] r] tail Hc _ IH]; [done|]. simpl in *. by rewrite Hc. Qed.

Lemma enumerate_children_spec f visit ks : forall w g o c n a b tail,
  Forall (fun x => range_length x.2 = 0) tail -> Forall (visits f visit) ks -> winv w -> settings (storage w) -> Forall (rep (nodes w) 1) ks -> Forall (shaped cap vs) ks ->
  0 <= g -> 0 <= o -> g + o + len (bytes_of ks) < 2 ^ 62 ->
  (forall x y, o <= x -> y <= o + len (bytes_of ks) -> Z.max (g + x) (g + c) = Z.max a (g + x) /\ Z.min (g + y) (g + c + n) = Z.min b (g + y)) ->
  exists w', enumerate_children visit g (placed o (CFRangeMake c n) ks ++ tail) w = Some (stopped f (kids_chunks a b (g + o) ks), w') /\ grown w w' /\
    (forall p, p ∉ ptrs_of ks -> nodes w' !! p = nodes w !! p).
Proof.
  induction ks as [|k ks IH]; intros w g o c n a b tail Ht Hv Hw Hs Hr Hsh Hg Ho Hmax Hclip.
  { exists w. split_and!; [by apply (enumerate_none f)|apply grown_refl|done]. }
  apply Forall_cons in Hv as [V1 V2]. apply Forall_cons in Hr as [R1 R2]. apply Forall_cons in Hsh as [S1 S2]. cbn [map concat] in Hmax, Hclip. rewrite length_app in Hmax, Hclip.
  pose proof (shaped_pos _ _ _ S1) as Pk. cbn [placed app enumerate_children kids_chunks]. unfold intersectionRange. cbn [location range_length].
  destruct (Hclip o (o + len (bytes k)) ltac:(lia) ltac:(lia)) as [Hlo Hhi].
  assert (forall w, winv w -> settings (storage w) -> Forall (rep (nodes w) 1) ks -> exists w',
    enumerate_children visit g (placed (o + len (bytes k)) (CFRangeMake c n) ks ++ tail) w = Some (stopped f (kids_chunks a b (g + o + len (bytes k)) ks), w') /\
    grown w w' /\ (forall p, p ∉ ptrs_of ks -> nodes w' !! p = nodes w !! p)) as Hrest.
  { intros w1 Hw1 Hs1 Hr1. rewrite <- Z.add_assoc. apply IH; try done; try lia. intros x y Hx Hy. apply Hclip; lia. }
  destruct (Z.leb_spec (Z.min (o + len (bytes k)) (c + n)) (Z.max o c)) as [Hle|Hlt]; cbn [range_length location].
  - rewrite (leaf_chunks_nil a b (g + o) k) by lia. change (0 <? 0) with false. cbv iota. destruct (Hrest w Hw Hs R2) as (w' & E & G & F).
    exists w'. split_and!; [done|done|]. intros p Hp. apply F. cbn [map concat] in Hp. rewrite elem_of_app in Hp. tauto.
  - rewrite (proj2 (Z.ltb_lt 0 _)) by lia.
    destruct (V1 w (g + o) (Z.max o c - o) (Z.min (o + len (bytes k)) (c + n) - Z.max o c) a b) as (w1 & E1 & G1 & F1); try done; try lia.
    rewrite (bind_step _ _ _ _ _ E1). rewrite stopped_app. destruct (stopped f (leaf_chunks a b (g + o) k)) as [r1 [|]].
    + exists w1. split_and!; [done|done|]. intros p Hp. apply F1. cbn [map concat] in Hp. rewrite elem_of_app in Hp. tauto.
    + destruct (Hrest w1) as (w2 & E2 & G2 & F2); [by eapply winv_grown|by rewrite (gr_storage _ _ G1)| |].
      { eapply list.Forall_impl; [exact R2|]. intros k' Hk'. by apply (rep_grown w). }
      rewrite (bind_step _ _ _ _ _ E2). destruct (stopped f (kids_chunks a b (g + o + len (bytes k)) ks)) as [r2 s2].
      exists w2. split_and!; [done|by eapply grown_trans|]. intros p Hp. cbn [map concat] in Hp. rewrite elem_of_app in Hp. rewrite F2, F1 by tauto. done.
Qed.

(** A leaf gets memory if it has none. *)
Lemma leaf_grown w p bs rc c m cr :
  settings (storage w) -> nodes w !! p = Some (mkNode (len bs) rc false (Leaf c m cr)) -> holds_bytes c m bs -> 0 < len bs <= cap ->
  exists c' m' w', match m with None => __CFStorageAllocLeafNodeMemory p (len bs) false | Some _ => ret tt end w = Some (tt, w') /\
    nodes w' !! p = Some (mkNode (len bs) rc false (Leaf c' (Some m') cr)) /\ take (length bs) m' = bs /\ grown w w' /\
    (forall q, q <> p -> nodes w' !! q = nodes w !! q).
Proof.
  intros Hs Hp Hh Hl. destruct m as [m|].
  { exists c, m, w. split_and!; [done|done|apply Hh|apply grown_refl|done]. }
  destruct (alloc_leaf_spec w p (len bs) false (len bs) rc false c None cr Hp (holds_capacity _ _ _ Hh)) as (c' & m' & E & Hlm & Hc & Ht);
    rewrite ?(set_cap _ Hs); try lia.
  rewrite Nat2Z.id in Ht. assert (forall bs', len bs' = len bs -> holds_bytes c None bs' -> holds_bytes c' (Some m') bs') as Hup.
  { intros bs' El Hh'. split; [|done]. apply (resize_holds c None bs' m' (length bs)); done || lia. }
  exists c', m', (upd w p (mkNode (len bs) rc false (Leaf c' (Some m') cr))). split_and!; [done|find_node|by apply (Hup bs)| |].
  - constructor; [done|done|]. intros q. rewrite nodes_upd. destruct (decide (p = q)) as [<-|Hne]; [|left; by rewrite lookup_insert_ne].
    right. eexists _, _. rewrite lookup_insert_eq. split_and!; [exact Hp|reflexivity|]. by exists (len bs), rc, c, None, cr, c', m'.
  - intros q Hq. by rewrite nodes_upd, lookup_insert_ne.
Qed.

Lemma enumerate_leaf f w p bs rc g c n a b :
  settings (storage w) -> rep (nodes w) rc (TLeaf p bs) -> shaped cap vs (TLeaf p bs) -> 0 <= g -> g + len bs < 2 ^ 62 -> 0 < n ->
  g + c = Z.max a g -> g + c + n = Z.min b (g + len bs) ->
  exists w', (let! n0 := get_node p in
              let len0 := Z.min n (numBytes n0 - c) in
              let! _ := match leaf_memory n0 with None => __CFStorageAllocLeafNodeMemory p (numBytes n0) false | Some _ => ret tt end in
              let! values := read_pointer (mkPointer p c) len0 in
              let subrange := __CFStorageConvertBytesToValueRange (storage w) (g + c) len0 in
              ret ([(values, subrange)], f values subrange)) w = Some (stopped f (leaf_chunks a b g (TLeaf p bs)), w') /\ grown w w' /\
    (forall q, q ∉ [p] -> nodes w' !! q = nodes w !! q).
Proof.
  intros Hs (nd & Hp & cp & m & cr & -> & Hh) [Hl Hd] Hg Hmax Hn Ha Hb. getn. cbn [leaf_memory info]. cbv zeta. replace (Z.min n (len bs - c)) with n by lia.
  destruct (leaf_grown w p bs rc cp m cr Hs Hp Hh Hl) as (c' & m' & w1 & E & Hp1 & Ht & G & F). rewrite (bind_step _ _ _ _ _ E).
  assert (len bs <= len m') as Hlm by (apply (f_equal length) in Ht; rewrite length_take in Ht; lia).
  erewrite (bind_step (read_pointer _ _)) by (eapply read_pointer_ok; cbn [leaf_of offset_of]; [exact Hp1|lia..]). cbn [offset_of].
  rewrite (convert_range (storage w)) by (done || lia). exists w1. split_and!; [|done|intros q Hq; apply F; by intros ->; apply Hq; left].
  cbn [leaf_chunks]. unfold leaf_chunk. rewrite <- Ha, <- Hb. rewrite (proj2 (Z.ltb_lt _ _)) by lia.
  replace (g + c + n - (g + c)) with n by lia. replace (g + c - g) with c by lia. rewrite <- Ht, slice_prefix by lia. cbn [stopped fst snd].
  unfold ret. by destruct (f _ _).
Qed.

Lemma enumerate_spec f t : forall fuel w rc g c n a b,
  (height t <= fuel)%nat -> winv w -> settings (storage w) -> rep (nodes w) rc t -> shaped cap vs t -> 0 <= g -> g + len (bytes t) < 2 ^ 62 -> 0 < n ->
  g + c = Z.max a g -> g + c + n = Z.min b (g + len (bytes t)) ->
  exists w', enumerate_nodes f fuel (root t) g (CFRangeMake c n) w = Some (stopped f (leaf_chunks a b g t), w') /\ grown w w' /\
    (forall p, p ∉ ptrs t -> nodes w' !! p = nodes w !! p).
Proof.
  induction t as [p bs|p ks IH] using tree_nested_ind; intros fuel w rc g c n a b Hf Hw Hs Hr Hsh Hg Hmax Hn Ha Hb;
    (destruct fuel as [|fuel]; [simpl in Hf; lia|]); cbn [enumerate_nodes root]; erewrite (bind_step get_storage) by reflexivity;
    destruct (rep_root _ _ _ Hr) as (i & Hi & Hleaf); cbn [root] in Hi; unfold isLeaf in Hleaf; cbn [info] in Hleaf.
  - destruct (enumerate_leaf f w p bs rc g c n a b Hs Hr Hsh Hg Hmax Hn Ha Hb) as (w' & E & G & F). exists w'. split_and!; [|done|done].
    revert E. erewrite !(bind_step (get_node p)) by (apply get_node_ok; exact Hi). unfold isLeaf. cbn [info numBytes location range_length]. by rewrite Hleaf.
  - apply rep_branch in Hr as [Hp Hr]. pose proof (proj1 (shaped_branch _ _ _ _) Hsh) as [Hl Hshk]. clear i Hi Hleaf. getn. change (isLeaf _) with false. cbv iota.
    destruct (overlaps_ok w ks (mkNode (len (bytes_of ks)) rc false (slots (map root ks))) (CFRangeMake c n) Hw eq_refl Hr Hl) as (tail & Eo & Ht).
    rewrite (bind_step _ _ _ _ _ Eo), leaf_chunks_branch. cbn [bytes] in *.
    destruct (enumerate_children_spec f (enumerate_nodes f fuel) ks w g 0 c n a b tail) as (w' & E & G & F); try done; try lia.
    + apply list.Forall_forall. intros k Hk w1 g1 c1 n1 a1 b1 Hw1 Hs1 R1 S1 Hg1 Hm1 Hn1 Ha1 Hb1. rewrite list.Forall_forall in IH.
      apply (IH k Hk fuel w1 1); try done. simpl in Hf. pose proof (height_child k ks Hk). lia.
    + rewrite Z.add_0_r in E. exists w'. split_and!; [done|done|]. intros q Hq. apply F. cbn [ptrs] in Hq. rewrite elem_of_cons in Hq. tauto.
Qed.

(** *** A range of values *)

(** The block is called with the same chunks whenever it does not stop. *)
Lemma ApplyBlock_spec w t loc n f :
  storage_ok w t -> 0 <= loc -> 0 < n -> (loc + n) * vs <= len (bytes t) < 2 ^ 62 ->
  exists w', CFStorageApplyBlock (CFRangeMake loc n) f w = Some (fst (stopped f (leaf_chunks (loc * vs) ((loc + n) * vs) 0 t)), w') /\ moved w t w' t.
Proof.
  intros Hok Hloc Hn Hle. pose proof Hok as [Hw Hs Hroot Hr Hnd Hsh Hc]. pose proof (storage_shaped w t Hok ltac:(nia)) as Hst.
  unfold CFStorageApplyBlock. cbn [range_length location]. rewrite (proj2 (Z.eqb_neq n 0)) by lia. erewrite (bind_step get_storage) by reflexivity.
  unfold __CFStorageConvertValuesToByteRange. rewrite !(set_to_byte _ Hs) by nia. cbv zeta. rewrite <- Hroot.
  unfold __CFStorageEnumerateNodesInByteRangeWithBlock. rewrite bind_assoc. erewrite (bind_step depth_fuel) by reflexivity.
  destruct (enumerate_spec f t (S (size (nodes w))) w 0 0 (loc * vs) (n * vs) (loc * vs) ((loc + n) * vs)) as (w' & E & G & F); try done; try nia.
  { pose proof (depth_enough w 0 t Hr Hnd). lia. }
  rewrite (bind_step _ _ _ _ _ E). exists w'. split; [by destruct (stopped f _)|]. by apply grown_moved.
Qed.

Lemma chunks_whole t loc n :
  shaped cap vs t -> 0 <= loc -> 0 < n -> (loc + n) * vs <= len (bytes t) ->
  let cs := leaf_chunks (loc * vs) ((loc + n) * vs) 0 t in
  concat (map fst cs) = take (Z.to_nat (n * vs)) (drop (Z.to_nat (loc * vs)) (bytes t)) /\ runs loc cs (loc + n) /\ Forall chunk_ok cs.
Proof.
  intros Hs Hloc Hn Hle cs. destruct (leaf_chunks_runs (loc * vs) ((loc + n) * vs) t 0) as [Hr Hc]; try done; [nia|by exists loc|by exists (loc + n)|by exists 0|].
  split_and!; [| |done].
  - unfold cs. rewrite leaf_chunks_bytes by nia. unfold slice. rewrite !Z.sub_0_r, take_drop_commute. do 2 f_equal. nia.
  - fold cs in Hr. unfold passed in Hr. replace (Z.max (loc * vs) (Z.min ((loc + n) * vs) 0)) with (loc * vs) in Hr by nia.
    replace (Z.max (loc * vs) (Z.min ((loc + n) * vs) (0 + len (bytes t)))) with ((loc + n) * vs) in Hr by nia. by rewrite !Z.div_mul in Hr by lia.
Qed.

End Storage.
