(* ===== verification/CFStorageEqual.v ===== *)
(** * CFStorage: two storages

    Storages that have no node in common do not notice each other; comparing
    two of them walks through both leaf by leaf. *)

From S2P Require Import Prelude CFInternal CFStorage CFStorageTree CFStorageInsert CFStorageDelete CFStorageAccess.
From stdpp Require Import base list numbers option gmap.
From Stdlib Require Import ZArith Lia.
Open Scope Z_scope.
Open Scope cf_scope.

Section Storage.
Context {L : Layout}.
Let Hvs : 0 < vs := vs_pos.

(** ** Disjoint storages *)

Lemma storage_ok_frame w w' t :
  storage_ok w t -> (forall q, q ∈ ptrs t -> nodes w' !! q = nodes w !! q) -> winv w' -> storage w' = storage w -> storage_ok w' t.
Proof.
  intros [Hw Hs Hroot Hr Hn Hsh Hc] Hf Hw' Est. constructor; rewrite ?Est; try done; [by apply (tree_rep_frame (nodes w))|].
  destruct Hc as [Hc|(off & bs & n & c & m & v & Hl & Hq & Hrest)]; [left; by rewrite Est|]. right. exists off, bs, n, c, m, v. rewrite Est.
  split_and!; [done| |apply Hrest..]. rewrite Hf; [done|]. apply leaf_in_ptr in Hl. cbn [map concat] in Hl. by rewrite app_nil_r in Hl.
Qed.

Record pair_ok (w : world) (t1 : tree) (s2 : __CFStorage) (t2 : tree) : Prop := mkPairOk {
  po_left : storage_ok w t1;
  po_right : storage_ok (with_storage w s2) t2;
  po_disjoint : forall q, q ∈ ptrs t1 -> q ∉ ptrs t2
}.

(** The other storage is at hand. *)
Lemma pair_swap w t1 s2 t2 : pair_ok w t1 s2 t2 -> pair_ok (with_storage w s2) t2 (storage w) t1.
Proof. intros [H1 H2 Hd]. constructor; [done|by destruct w|]. intros q Hq Hq'. by apply (Hd q). Qed.

Lemma storage_ptr w t q : storage_ok w t -> q ∈ ptrs t -> q < next w.
Proof. intros Hok Hq. destruct (rep_lookup _ _ _ q (so_rep _ _ Hok) Hq) as [n Hn]. by apply (winv_lt _ _ _ (so_inv _ _ Hok) Hn). Qed.

(** What one storage does leaves the other alone. *)
Lemma pair_moved w t1 s2 t2 w' t1' : pair_ok w t1 s2 t2 -> moved w t1 w' t1' -> pair_ok w' t1' s2 t2 /\ (forall q, q ∈ ptrs t2 -> nodes w' !! q = nodes w !! q).
Proof.
  intros [H1 H2 Hd] [Hok F P X].
  assert (forall q, q ∈ ptrs t2 -> nodes w' !! q = nodes w !! q) as Hf.
  { intros q Hq. apply (fr_nodes _ _ _ F); [by apply (storage_ptr (with_storage w s2) t2)|]. intros Hin. by apply (Hd q). }
  split; [|done]. constructor; [done| |].
  - apply (storage_ok_frame (with_storage w s2)); try done. apply Hok.
  - intros q Hq Hin. destruct (P q Hq) as [Hq'|Hq']; [by apply (Hd q)|]. pose proof (storage_ptr _ _ q H2 Hin) as Hlt. change (next (with_storage w s2)) with (next w) in Hlt. lia.
Qed.

Lemma on_storage_ok {A} (m : M A) w s2 x w' : m (with_storage w s2) = Some (x, w') -> on_storage s2 m w = Some ((x, storage w'), with_storage w' (storage w)).
Proof. intros E. unfold on_storage. by rewrite E. Qed.

Lemma pair_moved_right w t1 s2 t2 w' t2' :
  pair_ok w t1 s2 t2 -> moved (with_storage w s2) t2 w' t2' -> pair_ok (with_storage w' (storage w)) t1 (storage w') t2' /\ (forall q, q ∈ ptrs t1 -> nodes w' !! q = nodes w !! q).
Proof.
  intros Hp Hm. destruct (pair_moved _ _ _ _ _ _ (pair_swap _ _ _ _ Hp) Hm) as [Hp' Hf]. split; [|exact Hf]. apply pair_swap in Hp'.
  exact Hp'.
Qed.

(** ** Pointers into leaves *)

(** A pointer at byte [x] of a tree, in a leaf that reaches to byte [e]. *)
Definition at_byte (w : world) (t : tree) (x : Z) (p : pointer) (e : Z) : Prop :=
  exists off bs rc c m cr, leaf_at t (leaf_of p) off bs /\ offset_of p = x - off /\ 0 <= x - off /\ e <= off + len bs /\
    nodes w !! leaf_of p = Some (mkNode (len bs) rc false (Leaf c (Some m) cr)) /\ take (length bs) m = bs.

Lemma at_byte_read w t x p e k : at_byte w t x p e -> 0 <= k -> x + k <= e -> read_pointer p k w = Some (take (Z.to_nat k) (drop (Z.to_nat x) (bytes t)), w).
Proof.
  intros (off & bs & rc & c & m & cr & Hl & Ho & H0 & He & Hq & Ht) Hk Hxe. assert (len bs <= len m) as Hlm by (apply (f_equal length) in Ht; rewrite length_take in Ht; lia).
  erewrite read_pointer_ok by (exact Hq || lia). do 2 f_equal. rewrite Ho. pose proof (leaf_at_bytes _ _ _ _ Hl) as (Hoff & Hob & Hb).
  rewrite <- (slice_prefix m (length bs)) by lia. rewrite Ht, <- Hb at 1. rewrite slice_prefix by lia. rewrite drop_drop. do 2 f_equal. lia.
Qed.

Lemma at_byte_advance w t x p e k : at_byte w t x p e -> 0 <= k -> at_byte w t (x + k) (mkPointer (leaf_of p) (offset_of p + k)) e.
Proof. intros (off & bs & rc & c & m & cr & Hl & Ho & H0 & He & Hq & Ht) Hk. exists off, bs, rc, c, m, cr. cbn [leaf_of offset_of]. split_and!; try done; lia. Qed.

Lemma at_byte_frame w w' t x p e : at_byte w t x p e -> (forall q, q ∈ ptrs t -> nodes w' !! q = nodes w !! q) -> at_byte w' t x p e.
Proof.
  intros (off & bs & rc & c & m & cr & Hl & Ho & H0 & He & Hq & Ht) Hf. exists off, bs, rc, c, m, cr. split_and!; try done. rewrite Hf; [done|]. by apply (leaf_at_ptr _ _ _ _ Hl).
Qed.

Lemma answered_at w t idx p r w' : answered w t idx p r w' ->
  exists t', moved w t w' t' /\ bytes t' = bytes t /\ at_byte w' t' (idx * vs) p (range_end r * vs) /\ idx < range_end r.
Proof.
  intros (t' & off & bs & v & Hm & Hb & (_ & Hl & Hd & Hv & Hvb & rc & c & m & Hq & Hh) & -> & Ho & H0 & Hlt). exists t'. unfold range_end. cbn [location range_length].
  split_and!; [done|done| |done]. exists off, bs, rc, c, m, (CFRangeMake (off / vs) v). split_and!; try done; [|apply Hh]. destruct Hd as [z ->]. rewrite Z.div_mul by lia. nia.
Qed.

(** ** Comparing *)

(** A pointer is at hand, or the next value has to be looked up. *)
Definition ready (w : world) (t : tree) (loc : Z) (ptr : option pointer) (r : CFRange) : Prop :=
  loc < range_end r -> exists p, ptr = Some p /\ at_byte w t (loc * vs) p (range_end r * vs).

Lemma ready_frame w w' t loc ptr r : ready w t loc ptr r -> (forall q, q ∈ ptrs t -> nodes w' !! q = nodes w !! q) -> ready w' t loc ptr r.
Proof. intros Hr Hf H. destruct (Hr H) as (p & -> & Ha). exists p. split; [done|]. by apply (at_byte_frame w). Qed.

Lemma refresh_left w t loc ptr r :
  storage_ok w t -> ready w t loc ptr r -> 0 <= loc -> loc * vs < len (bytes t) < 2 ^ 62 ->
  exists p r' w' t', (if range_end r <=? loc then let! (p, r) := CFStorageGetValueAtIndex loc in ret (Some p, r) else ret (ptr, r)) w = Some ((Some p, r'), w') /\
    moved w t w' t' /\ bytes t' = bytes t /\ at_byte w' t' (loc * vs) p (range_end r' * vs) /\ loc < range_end r'.
Proof.
  intros Hok Hr Hloc Hle. destruct (Z.leb_spec (range_end r) loc) as [Hend|Hin].
  - destruct (GetValueAtIndex_spec w t loc true Hok Hloc Hle) as (p & r' & w' & E & Ha). unfold CFStorageGetValueAtIndex. rewrite (bind_step _ _ _ _ _ E).
    destruct (answered_at _ _ _ _ _ _ Ha) as (t' & Hm & Hb & Hat & Hlt). by exists p, r', w', t'.
  - destruct (Hr Hin) as (p & -> & Hat). exists p, r, w, t. split_and!; try done. by apply moved_refl.
Qed.

Lemma refresh_right w t1 s2 t2 loc ptr r :
  pair_ok w t1 s2 t2 -> ready w t2 loc ptr r -> 0 <= loc -> loc * vs < len (bytes t2) < 2 ^ 62 ->
  exists p r' s2' w' t2',
    (if range_end r <=? loc then let! ((p, r), storage2) := on_storage s2 (CFStorageGetValueAtIndex loc) in ret (Some p, r, storage2) else ret (ptr, r, s2)) w =
      Some ((Some p, r', s2'), w') /\ pair_ok w' t1 s2' t2' /\ bytes t2' = bytes t2 /\ at_byte w' t2' (loc * vs) p (range_end r' * vs) /\ loc < range_end r' /\
    (forall q, q ∈ ptrs t1 -> nodes w' !! q = nodes w !! q).
Proof.
  intros Hp Hr Hloc Hle. destruct (Z.leb_spec (range_end r) loc) as [Hend|Hin].
  - destruct (GetValueAtIndex_spec (with_storage w s2) t2 loc true (po_right _ _ _ _ Hp) Hloc Hle) as (p & r' & w' & E & Ha).
    destruct (answered_at _ _ _ _ _ _ Ha) as (t' & Hm & Hb & Hat & Hlt). destruct (pair_moved_right _ _ _ _ _ _ Hp Hm) as [Hp' Hf].
    unfold CFStorageGetValueAtIndex. rewrite (bind_step _ _ _ _ _ (on_storage_ok _ _ _ _ _ E)). by exists p, r', (storage w'), (with_storage w' (storage w)), t'.
  - destruct (Hr Hin) as (p & -> & Hat). by exists p, r, s2, w, t2.
Qed.

Lemma written_slice l a b : written l = true -> written (take a (drop b l)) = true.
Proof.
  unfold written. rewrite !forallb_forall. intros H x Hx. apply H. apply list_elem_of_In in Hx. apply list_elem_of_In.
  apply elem_of_take in Hx as (i & Hi & _). rewrite lookup_drop in Hi. by eapply list_elem_of_lookup_2.
Qed.

Lemma drop_eq_split {A} (l1 l2 : list A) x k :
  length l1 = length l2 -> drop x l1 = drop x l2 <-> take k (drop x l1) = take k (drop x l2) /\ drop (x + k) l1 = drop (x + k) l2.
Proof.
  intros Hl. rewrite <- !drop_drop. split; [by intros ->|]. intros [H1 H2]. rewrite <- (take_drop k (drop x l1)), <- (take_drop k (drop x l2)). congruence.
Qed.

Lemma storage_equal_loop_spec fuel : forall w t1 s2 t2 loc count ptr1 ptr2 r1 r2,
  (Z.to_nat (count - loc) <= fuel)%nat -> pair_ok w t1 s2 t2 -> len (bytes t1) = count * vs -> len (bytes t2) = count * vs -> count * vs < 2 ^ 62 ->
  written (bytes t1) = true -> written (bytes t2) = true -> 0 <= loc -> ready w t1 loc ptr1 r1 -> ready w t2 loc ptr2 r2 ->
  exists s2' w' t1' t2', equal_loop fuel s2 loc count vs ptr1 ptr2 r1 r2 w =
      Some ((bool_decide (drop (Z.to_nat (loc * vs)) (bytes t1) = drop (Z.to_nat (loc * vs)) (bytes t2)), s2'), w') /\
    pair_ok w' t1' s2' t2' /\ bytes t1' = bytes t1 /\ bytes t2' = bytes t2.
Proof.
  induction fuel as [|fuel IH]; intros w t1 s2 t2 loc count ptr1 ptr2 r1 r2 Hf Hp L1 L2 Hmax W1 W2 Hloc Hr1 Hr2; cbn [equal_loop];
    destruct (Z.ltb_spec loc count) as [Hlt|Hge]; try lia.
  1,3: exists s2, w, t1, t2; rewrite bool_decide_eq_true_2 by (rewrite !drop_ge by nia; done); by split_and!.
  destruct (refresh_left w t1 loc ptr1 r1 (po_left _ _ _ _ Hp) Hr1 Hloc ltac:(nia)) as (p1 & r1' & w1 & t1' & E1 & M1 & B1 & A1 & X1). rewrite (bind_step _ _ _ _ _ E1).
  destruct (pair_moved _ _ _ _ _ _ Hp M1) as [Hp1 F1].
  destruct (refresh_right w1 t1' s2 t2 loc ptr2 r2 Hp1 (ready_frame w w1 _ _ _ _ Hr2 F1) Hloc ltac:(nia)) as (p2 & r2' & s2' & w2 & t2' & E2 & Hp2 & B2 & A2 & X2 & F2).
  rewrite (bind_step _ _ _ _ _ E2). set (k := Z.min (range_end r1') (range_end r2') - loc). assert (0 < k /\ loc + k <= range_end r1' /\ loc + k <= range_end r2') as (Hk & Hk1 & Hk2) by (unfold k; lia). clearbody k.
  assert (0 <= k * vs /\ loc * vs + k * vs <= range_end r1' * vs /\ loc * vs + k * vs <= range_end r2' * vs) as (K0 & K1 & K2) by nia.
  pose proof (at_byte_frame _ w2 _ _ _ _ A1 F2) as A1'. clear E1 E2. replace (vs * k) with (k * vs) by lia.
  rewrite (bind_step _ _ _ _ _ (at_byte_read _ _ _ _ _ (k * vs) A1' K0 K1)).
  rewrite (bind_step _ _ _ _ _ (at_byte_read _ _ _ _ _ (k * vs) A2 K0 K2)).
  rewrite B1, B2. unfold same_bytes. rewrite !written_slice by done. cbn [andb]. erewrite (bind_step (ret _)) by reflexivity.
  assert (length (bytes t1) = length (bytes t2)) as Hll by lia. pose proof (drop_eq_split (bytes t1) (bytes t2) (Z.to_nat (loc * vs)) (Z.to_nat (k * vs)) Hll) as Hsplit.
  case_bool_decide as Hsame.
  - destruct (IH w2 t1' s2' t2' (loc + k) count (Some (mkPointer (leaf_of p1) (offset_of p1 + k * vs))) (Some (mkPointer (leaf_of p2) (offset_of p2 + k * vs))) r1' r2')
      as (s3 & w3 & t3 & t4 & E3 & Hp3 & B3 & B4); try (rewrite ?B1, ?B2; done || lia).
    + intros _. eexists. split; [done|]. rewrite Z.mul_add_distr_r. apply at_byte_advance; [done|nia].
    + intros _. eexists. split; [done|]. rewrite Z.mul_add_distr_r. apply at_byte_advance; [done|nia].
    + exists s3, w3, t3, t4. rewrite E3, B1, B2. split_and!; [|done|congruence|congruence]. do 3 f_equal. apply bool_decide_ext. rewrite Hsplit.
      replace (Z.to_nat ((loc + k) * vs)) with (Z.to_nat (loc * vs) + Z.to_nat (k * vs))%nat by nia. tauto.
  - exists s2', w2, t1', t2'. split_and!; [|done|done|done]. unfold ret. rewrite bool_decide_eq_false_2; [done|]. rewrite Hsplit. tauto.
Qed.

Lemma Equal_spec w t1 s2 t2 :
  pair_ok w t1 s2 t2 -> len (bytes t1) < 2 ^ 62 -> len (bytes t2) < 2 ^ 62 -> (vs | len (bytes t1)) -> (vs | len (bytes t2)) ->
  written (bytes t1) = true -> written (bytes t2) = true ->
  exists s2' w' t1' t2', __CFStorageEqual s2 w = Some ((bool_decide (bytes t1 = bytes t2), s2'), w') /\ pair_ok w' t1' s2' t2' /\ bytes t1' = bytes t1 /\ bytes t2' = bytes t2.
Proof.
  intros Hp L1 L2 D1 D2 W1 W2. unfold __CFStorageEqual. pose proof (GetCount_spec w t1 (po_left _ _ _ _ Hp) L1) as E1. unfold CFStorageGetCount in E1.
  pose proof (GetCount_spec (with_storage w s2) t2 (po_right _ _ _ _ Hp) L2) as E2. unfold CFStorageGetCount in E2.
  rewrite (bind_step _ _ _ _ _ E1), (bind_step _ _ _ _ _ (on_storage_ok _ _ _ _ _ E2)).
  assert (with_storage (with_storage w s2) (storage w) = w) as -> by (by destruct w). destruct D1 as [c1 D1], D2 as [c2 D2]. rewrite D1, D2, !Z.div_mul by lia.
  destruct (Z.eqb_spec c1 c2) as [<-|Hne]; cbn [negb].
  2:{ exists s2, w, t1, t2. split_and!; [|done|done|done]. unfold ret. rewrite bool_decide_eq_false_2; [done|]. intros E. rewrite E in D1. nia. }
  unfold __CFStorageGetValueSize. rewrite bind_assoc. erewrite (bind_step get_storage) by reflexivity. erewrite (bind_step (ret _)) by reflexivity.
  pose proof (set_valueSize _ (so_settings _ _ (po_left _ _ _ _ Hp))) as V1. pose proof (set_valueSize _ (so_settings _ _ (po_right _ _ _ _ Hp))) as V2.
  change (valueSize s2 = vs) in V2. rewrite V1, V2, Z.eqb_refl. cbn [negb].
  destruct (storage_equal_loop_spec (Z.to_nat c1) w t1 s2 t2 0 c1 None None (CFRangeMake 0 0) (CFRangeMake 0 0)) as (s3 & w3 & t3 & t4 & E3 & Hp3); try done; try lia.
  exists s3, w3, t3, t4. rewrite E3. split; [|done]. done.
Qed.

End Storage.
