(* ===== verification/CFStorageValues.v ===== *)
(** * CFStorage: sequences of values

    What the calls of a storage promise: a sequence of values of a fixed size
    into which values can be inserted, from which values can be taken, and of
    which ranges can be read and replaced.  Storages that share no nodes keep
    this promise whatever calls are made, do not touch each other's nodes and
    leave none behind; storages created with [CFStorageCreateWithSubrange]
    share nodes, and three programs show how their writes and reads get mixed
    up. *)

From S2P Require Import Prelude CFInternal CFStorage CFStorageTree CFStorageInsert CFStorageDelete CFStorageAccess CFStorageApply CFStorageEqual.
From stdpp Require Import base list numbers option gmap.
From Stdlib Require Import ZArith Lia.
Open Scope Z_scope.
Open Scope cf_scope.

(** ** The promise *)

Inductive call :=
  | InsertCall (loc n : Z)
  | DeleteCall (loc n : Z)
  | ReplaceCall (loc : Z) (values : list memory_block)
  | GetCall (loc n : Z)
  | CountCall.

Inductive result := Done | Values (b : memory_block) | Count (n : Z).

Definition run_call (c : call) : M result :=
  match c with
  | InsertCall loc n => let! _ := CFStorageInsertValues (CFRangeMake loc n) in ret Done
  | DeleteCall loc n => let! _ := CFStorageDeleteValues (CFRangeMake loc n) in ret Done
  | ReplaceCall loc values => let! _ := CFStorageReplaceValues (CFRangeMake loc (len values)) (concat values) in ret Done
  | GetCall loc n => let! b := CFStorageGetValues (CFRangeMake loc n) in ret (Values b)
  | CountCall => let! n := CFStorageGetCount in ret (Count n)
  end.

Fixpoint run_calls (cs : list call) : M (list result) :=
  match cs with
  | [] => ret []
  | c :: cs => let! r := run_call c in let! rs := run_calls cs in ret (r :: rs)
  end.

(** Values of [size] bytes. *)
Definition sized (size : Z) (l : list memory_block) : Prop := Forall (fun v => len v = size) l.

(** What a call does to the sequence [l] and what it answers; what values have
    that were inserted and not yet written is left open. *)
Definition promised (c : call) (l : list memory_block) (r : result) (l' : list memory_block) : Prop :=
  match c with
  | InsertCall loc n => r = Done /\ exists new, len new = n /\ l' = take (Z.to_nat loc) l ++ new ++ drop (Z.to_nat loc) l
  | DeleteCall loc n => r = Done /\ l' = take (Z.to_nat loc) l ++ drop (Z.to_nat (loc + n)) l
  | ReplaceCall loc values => r = Done /\ l' = take (Z.to_nat loc) l ++ values ++ drop (Z.to_nat loc + length values) l
  | GetCall loc n => r = Values (concat (take (Z.to_nat n) (drop (Z.to_nat loc) l))) /\ l' = l
  | CountCall => r = Count (len l) /\ l' = l
  end.

Inductive all_promised (size : Z) : list call -> list memory_block -> list result -> list memory_block -> Prop :=
  | promised_nil l : all_promised size [] l [] l
  | promised_cons c cs l r l1 rs l2 :
      promised c l r l1 -> sized size l1 -> all_promised size cs l1 rs l2 -> all_promised size (c :: cs) l (r :: rs) l2.

(** A call in range on a storage of [count] values, and the count after it. *)
Definition valid_call (size count : Z) (c : call) : bool :=
  match c with
  | InsertCall loc n => (0 <=? loc) && (loc <=? count) && (0 <=? n) && ((count + n) * size <? 2 ^ 62)
  | DeleteCall loc n => (0 <=? loc) && (0 <=? n) && (loc + n <=? count)
  | ReplaceCall loc values => (0 <=? loc) && (loc + len values <=? count) && forallb (fun v : memory_block => len v =? size) values
  | GetCall loc n => (0 <=? loc) && (0 <=? n) && (loc + n <=? count)
  | CountCall => true
  end.

Definition count_after (count : Z) (c : call) : Z :=
  match c with InsertCall _ n => count + n | DeleteCall _ n => count - n | _ => count end.

Fixpoint valid_calls (size count : Z) (cs : list call) : bool :=
  match cs with [] => true | c :: cs => valid_call size count c && valid_calls size (count_after count c) cs end.

(** The number of values after some calls. *)
Fixpoint count_of (count : Z) (cs : list call) : Z := match cs with [] => count | c :: cs => count_of (count_after count c) cs end.

(** ** Values and bytes *)

Section Sized.
Context (size : Z) (Hsize : 0 < size).

Lemma length_concat (l : list memory_block) : sized size l -> len (concat l) = len l * size.
Proof. induction 1 as [|v l Hv _ IH]; [done|]. simpl. rewrite length_app. lia. Qed.

Lemma sized_take n l : sized size l -> sized size (take n l).
Proof. apply Forall_take. Qed.

Lemma sized_drop n l : sized size l -> sized size (drop n l).
Proof. apply Forall_drop. Qed.

Lemma concat_split n l : sized size l -> 0 <= n <= len l ->
  take (Z.to_nat (n * size)) (concat l) = concat (take (Z.to_nat n) l) /\ drop (Z.to_nat (n * size)) (concat l) = concat (drop (Z.to_nat n) l).
Proof.
  intros Hl Hn. rewrite <- (take_drop (Z.to_nat n) l) at 1 3. rewrite concat_app.
  assert (length (concat (take (Z.to_nat n) l)) = Z.to_nat (n * size)) as E.
  { pose proof (length_concat _ (sized_take (Z.to_nat n) l Hl)) as H. rewrite length_take, Nat.min_l, Z2Nat.id in H by lia. lia. }
  by rewrite take_app_length', drop_app_length'.
Qed.

(** Every block of whole values is a list of values. *)
Lemma split_values n (x : memory_block) : len x = Z.of_nat n * size -> exists l : list memory_block, length l = n /\ sized size l /\ concat l = x.
Proof.
  revert x. induction n as [|n IH]; intros x Hx; [exists []; destruct x; [split_and!; [done|constructor|done]|simpl in Hx; lia]|].
  destruct (IH (drop (Z.to_nat size) x)) as (l & Hl & Hs & E); [rewrite length_drop; lia|].
  exists (take (Z.to_nat size) x :: l). split_and!; [simpl; lia|constructor; [rewrite length_take; lia|done]|simpl; by rewrite E, take_drop].
Qed.

End Sized.

(** ** Calls *)

Section Calls.
Context {L : Layout}.

Lemma run_call_spec w t c (l : list memory_block) :
  storage_ok w t -> bytes t = concat l -> sized vs l -> len l * vs < 2 ^ 62 -> valid_call vs (len l) c = true ->
  exists r w' t' (l' : list memory_block), run_call c w = Some (r, w') /\ moved w t w' t' /\ bytes t' = concat l' /\ sized vs l' /\ promised c l r l' /\
    len l' = count_after (len l) c /\ len l' * vs < 2 ^ 62.
Proof.
  intros Hok Hb Hs Hmax Hv. pose proof vs_pos as Hvs. pose proof (length_concat vs l Hs) as Hlb. rewrite <- Hb in Hlb.
  destruct c as [loc n|loc n|loc values|loc n|]; cbn [valid_call] in Hv; rewrite ?andb_true_iff, ?Z.leb_le, ?Z.ltb_lt in Hv; cbn [run_call promised count_after].
  - destruct Hv as [[[H0 H1] H2] H3]. destruct (InsertValues_spec w t loc n Hok) as (w' & t' & E & Hm & x & Hx & Hb'); try (rewrite ?Hlb; nia).
    rewrite (bind_step _ _ _ _ _ E). destruct (concat_split vs Hvs loc l Hs) as [Et Ed]; [lia|]. rewrite Hb, Et, Ed in Hb'.
    destruct (split_values vs Hvs (Z.to_nat n) x) as (new & Hn & Hsn & <-); [lia|].
    exists Done, w', t', (take (Z.to_nat loc) l ++ new ++ drop (Z.to_nat loc) l). rewrite !concat_app.
    assert (len (take (Z.to_nat loc) l ++ new ++ drop (Z.to_nat loc) l) = len l + n) as El by (rewrite !length_app, length_take, length_drop; lia).
    split_and!; try done; [|exists new; split; [lia|done]|nia]. apply Forall_app. split; [by apply sized_take|]. apply Forall_app. split; [done|by apply sized_drop].
  - destruct Hv as [[H0 H1] H2]. destruct (DeleteValues_spec w t loc n Hok) as (w' & t' & E & Hm & Hb'); try (rewrite ?Hlb; nia).
    rewrite (bind_step _ _ _ _ _ E). destruct (concat_split vs Hvs loc l Hs) as [Et _]; [lia|]. destruct (concat_split vs Hvs (loc + n) l Hs) as [_ Ed]; [lia|].
    unfold cut in Hb'. rewrite <- Z.mul_add_distr_r, Hb, Et, Ed in Hb'. exists Done, w', t', (take (Z.to_nat loc) l ++ drop (Z.to_nat (loc + n)) l). rewrite concat_app.
    assert (len (take (Z.to_nat loc) l ++ drop (Z.to_nat (loc + n)) l) = len l - n) as El by (rewrite !length_app, length_take, length_drop; lia).
    split_and!; try done; [|nia]. apply Forall_app. split; [by apply sized_take|by apply sized_drop].
  - destruct Hv as [[H0 H1] H2]. assert (sized vs values) as Hsv by (apply list.Forall_forall; intros v Hin; rewrite forallb_forall in H2; apply Z.eqb_eq, H2; by apply list_elem_of_In).
    pose proof (length_concat vs values Hsv) as Hlv. unfold CFStorageReplaceValues. cbn [location range_length].
    destruct (replace_loop_spec (Z.to_nat (len values)) w t (concat values) 0 loc (len values)) as (w' & t' & E & Hm & Hb'); try done; try (rewrite ?Hlb; nia).
    rewrite (bind_step _ _ _ _ _ E). change (drop (Z.to_nat 0) (concat values)) with (concat values) in Hb'. rewrite take_ge in Hb' by lia.
    destruct (concat_split vs Hvs loc l Hs) as [Et _]; [lia|]. destruct (concat_split vs Hvs (loc + len values) l Hs) as [_ Ed]; [lia|].
    unfold patch in Hb'. replace (Z.to_nat (loc * vs) + length (concat values))%nat with (Z.to_nat ((loc + len values) * vs)) in Hb' by nia. rewrite Hb, Et, Ed in Hb'.
    replace (Z.to_nat (loc + len values)) with (Z.to_nat loc + length values)%nat in Hb' by lia.
    exists Done, w', t', (take (Z.to_nat loc) l ++ values ++ drop (Z.to_nat loc + length values) l). rewrite !concat_app.
    assert (len (take (Z.to_nat loc) l ++ values ++ drop (Z.to_nat loc + length values) l) = len l) as El by (rewrite !length_app, length_take, length_drop; lia).
    split_and!; try done; [|nia]. apply Forall_app. split; [by apply sized_take|]. apply Forall_app. split; [done|by apply sized_drop].
  - destruct Hv as [[H0 H1] H2]. unfold CFStorageGetValues. cbn [location range_length].
    destruct (get_loop_spec (Z.to_nat n) w t loc n) as (w' & t' & E & Hm & Hb'); try done; try (rewrite ?Hlb; nia).
    rewrite (bind_step _ _ _ _ _ E). destruct (concat_split vs Hvs loc l Hs) as [_ Ed]; [lia|].
    destruct (concat_split vs Hvs n (drop (Z.to_nat loc) l) (sized_drop vs _ _ Hs)) as [Et _]; [rewrite length_drop; lia|]. rewrite Hb, Ed, Et.
    eexists _, w', t', l. split_and!; try done. congruence.
  - rewrite (bind_step _ _ _ _ _ (GetCount_spec w t Hok ltac:(nia))). eexists _, w, t, l. split_and!; try done; [by apply moved_refl|].
    do 2 f_equal. rewrite Hlb. apply Z.div_mul. lia.
Qed.

Lemma run_calls_spec cs : forall w t (l : list memory_block),
  storage_ok w t -> bytes t = concat l -> sized vs l -> len l * vs < 2 ^ 62 -> valid_calls vs (len l) cs = true ->
  exists rs w' t' (l' : list memory_block), run_calls cs w = Some (rs, w') /\ moved w t w' t' /\ bytes t' = concat l' /\ all_promised vs cs l rs l' /\
    sized vs l' /\ len l' = count_of (len l) cs /\ len l' * vs < 2 ^ 62.
Proof.
  induction cs as [|c cs IH]; intros w t l Hok Hb Hs Hmax Hv; cbn [run_calls valid_calls count_of] in *.
  - exists [], w, t, l. split_and!; [done|by apply moved_refl|done|constructor|done|done|done].
  - apply andb_true_iff in Hv as [Hv1 Hv2]. destruct (run_call_spec w t c l Hok Hb Hs Hmax Hv1) as (r & w1 & t1 & l1 & E1 & M1 & B1 & S1 & P1 & N1 & X1).
    rewrite <- N1 in Hv2 |- *. destruct (IH w1 t1 l1 (mv_ok _ _ _ _ M1) B1 S1 X1 Hv2) as (rs & w2 & t2 & l2 & E2 & M2 & B2 & P2 & Hrest).
    exists (r :: rs), w2, t2, l2. rewrite (bind_step _ _ _ _ _ E1), (bind_step _ _ _ _ _ E2). split_and!; [done|by eapply moved_trans|done|by econstructor|apply Hrest..].
Qed.

End Calls.

(** ** New storages *)

(** Sizes for which a leaf holds a value. *)
Definition fitting (size : Z) : Prop := 0 < size <= __CFStorageMaxLeafCapacity.

Definition leaf_capacity (size : Z) : Z := __CFStorageMaxLeafCapacity / size * size.

Lemma fitting_capacity size : fitting size -> 0 < leaf_capacity size < 2 ^ 30.
Proof.
  unfold fitting, leaf_capacity. change __CFStorageMaxLeafCapacity with 12288. intros H. pose proof (Z.div_str_pos 12288 size). pose proof (Z.mul_div_le 12288 size). nia.
Qed.

Definition layout_of (size : Z) (H : fitting size) : Layout :=
  mkLayout (leaf_capacity size) size (proj1 H) (fitting_capacity size H) (Z.divide_factor_r size (__CFStorageMaxLeafCapacity / size)).

(** The shift of every power of two among the sizes. *)
Lemma shift_exact : forallb (fun s => negb (Z.land s (s - 1) =? 0) || ((2 ^ shift_loop 64 s 0 =? s) && (0 <=? shift_loop 64 s 0) && (shift_loop 64 s 0 <? 14)))
  (seqZ 1 12288) = true.
Proof. vm_compute. reflexivity. Qed.

Lemma shift_loop_power size : fitting size -> Z.land size (size - 1) = 0 -> 2 ^ shift_loop 64 size 0 = size /\ 0 <= shift_loop 64 size 0 < 14.
Proof.
  unfold fitting. change __CFStorageMaxLeafCapacity with 12288. intros H E. pose proof shift_exact as Hall. rewrite forallb_forall in Hall.
  specialize (Hall size). rewrite E in Hall. cbn [Z.eqb negb orb] in Hall. rewrite !andb_true_iff, Z.eqb_eq, Z.leb_le, Z.ltb_lt in Hall.
  destruct Hall as [[? ?] ?]; [|done]. apply list_elem_of_In, elem_of_seqZ. lia.
Qed.

Definition storage_of (size root : Z) : __CFStorage :=
  mkStorage size (if Z.land size (size - 1) =? 0 then shift_loop 64 size 0 else NO_SHIFTER) false 0 (leaf_capacity size) root.

Lemma settings_of size root (H : fitting size) : @settings (layout_of size H) (storage_of size root).
Proof.
  pose proof (shift_loop_power size H) as Hp. pose proof H as [H0 _]. unfold storage_of.
  constructor; [done|done|done| |]; [intros b Hb; unfold __CFStorageConvertByteToValue|intros v Hv Hm; unfold __CFStorageConvertValueToByte];
    cbn [byteToValueShifter valueSize]; change (@vs (layout_of size H)) with size in *;
    (destruct (Z.eqb_spec (Z.land size (size - 1)) 0) as [E|E]; [destruct (Hp E) as [E2 Hr]|]).
  1,3: rewrite (proj2 (Z.eqb_neq _ NO_SHIFTER)) by (change NO_SHIFTER with 4294967295; lia); cbn [negb].
  - rewrite Z.shiftr_div_pow2 by lia. by rewrite E2.
  - rewrite Z.shiftl_mul_pow2, E2 by lia. apply swrap_id; unfold in_signed; nia.
  - rewrite Z.eqb_refl. cbn [negb]. apply Z.quot_div_nonneg; lia.
  - rewrite Z.eqb_refl. cbn [negb]. apply swrap_id; unfold in_signed; nia.
Qed.

Definition empty_root : CFStorageNode := mkNode 0 0 false (Leaf 0 None (CFRangeMake 0 0)).

Lemma CFStorageCreate_ok size w : fitting size ->
  CFStorageCreate size w = Some (tt, mkWorld (<[next w := empty_root]> (nodes w)) (next w + 1) (storage_of size (next w))).
Proof.
  intros H. unfold CFStorageCreate, storage_of. pose proof H as [H0 H1]. rewrite (proj2 (Z.ltb_lt 0 size) H0). cbn [andb].
  rewrite (proj2 (Z.eqb_neq size 0)) by lia. cbn [negb andb]. unfold bind, new_node, set_storage, with_storage. cbn [nodes next storage]. do 4 f_equal.
  unfold leaf_capacity. rewrite Z.rem_mod_nonneg, Z.quot_div_nonneg by (unfold __CFStorageMaxLeafCapacity in *; lia).
  destruct (Z.eqb_spec (__CFStorageMaxLeafCapacity mod size) 0) as [E|E]; [|done]. cbn [negb].
  pose proof (Z.div_mod __CFStorageMaxLeafCapacity size). lia.
Qed.

Lemma Create_spec size w (H : fitting size) :
  winv w -> exists w', CFStorageCreate size w = Some (tt, w') /\ @storage_ok (layout_of size H) w' (TLeaf (next w) []) /\
    next w' = next w + 1 /\ nodes w' = <[next w := empty_root]> (nodes w).
Proof.
  intros Hw. rewrite (CFStorageCreate_ok size w H). eexists. split; [reflexivity|]. split; [constructor|done]; cbn [storage nodes].
  - split; cbn [next nodes]; [destruct Hw; lia|]. intros p n Hp. destruct (decide (next w = p)) as [<-|Hne]; [destruct Hw; lia|].
    rewrite lookup_insert_ne in Hp by done. pose proof (winv_lt _ _ _ Hw Hp). lia.
  - apply settings_of.
  - done.
  - eexists. split; [apply lookup_insert_eq|]. by exists 0, None, (CFRangeMake 0 0).
  - apply NoDup_singleton.
  - by right.
  - by left.
Qed.

(** ** A storage and its calls *)

Definition create_and_run (size : Z) (cs : list call) : M (list result) := let! _ := CFStorageCreate size in run_calls cs.

(** The storage that was made, its tree and its values. *)
Record made (size : Z) (H : fitting size) (w : world) (cs : list call) (rs : list result) (w' : world) (t : tree) (l : list memory_block) : Prop := mkMade {
  ma_ok : @storage_ok (layout_of size H) w' t;
  ma_bytes : bytes t = concat l;
  ma_sized : sized size l;
  ma_count : len l = count_of 0 cs;
  ma_small : len l * size < 2 ^ 62;
  ma_promised : all_promised size cs [] rs l;
  ma_next : next w <= next w';
  ma_nodes : forall p, p < next w -> nodes w' !! p = nodes w !! p;
  ma_ptrs : forall p, p ∈ ptrs t -> next w <= p;
  ma_exact : forall p, next w <= p -> is_Some (nodes w' !! p) -> p ∈ ptrs t
}.

Lemma create_and_run_spec size (H : fitting size) w cs :
  winv w -> valid_calls size 0 cs = true -> exists rs w' t l, create_and_run size cs w = Some (rs, w') /\ made size H w cs rs w' t l.
Proof.
  intros Hw Hv. destruct (Create_spec size w H Hw) as (w1 & E1 & Hok & Hnx & Hnodes). unfold create_and_run. rewrite (bind_step _ _ _ _ _ E1).
  destruct (run_calls_spec (L := layout_of size H) cs w1 (TLeaf (next w) []) [] Hok eq_refl ltac:(constructor) ltac:(done) Hv)
    as (rs & w2 & t & l & E2 & Hm & Hb & Hp & Hs & Hc & Hmx). exists rs, w2, t, l. split; [done|]. constructor; try done.
  - apply Hm.
  - pose proof (fr_next _ _ _ (mv_framed _ _ _ _ Hm)). lia.
  - intros p Hlt. rewrite (fr_nodes _ _ _ (mv_framed _ _ _ _ Hm)); [rewrite Hnodes; apply lookup_insert_ne; lia|lia|].
    intros ->%list_elem_of_singleton. lia.
  - intros p Hp'. destruct (mv_ptrs _ _ _ _ Hm p Hp') as [->%list_elem_of_singleton|?]; lia.
  - intros p Hp' Hsome. apply (mv_exact _ _ _ _ Hm); [|done]. destruct (decide (p = next w)) as [->|]; [left; left|right; lia].
Qed.

(** Lists of values of one size are the same when their bytes are. *)
Lemma concat_inj size (l1 l2 : list memory_block) : 0 < size -> sized size l1 -> sized size l2 -> concat l1 = concat l2 -> l1 = l2.
Proof.
  intros H0 Hs. revert l2. induction Hs as [|v l1 Hv Hs IH]; intros l2 Hs2 E; destruct Hs2 as [|v2 l2 Hv2 Hs2]; try done; simpl in E.
  - apply (f_equal length) in E. rewrite length_app in E. simpl in E. lia.
  - apply (f_equal length) in E. rewrite length_app in E. simpl in E. lia.
  - apply app_inj_1 in E as [-> E]; [|lia]. f_equal. by apply IH.
Qed.

Lemma bytes_range size (l : list memory_block) loc n :
  0 < size -> sized size l -> 0 <= loc -> 0 <= n -> loc + n <= len l ->
  take (Z.to_nat (n * size)) (drop (Z.to_nat (loc * size)) (concat l)) = concat (take (Z.to_nat n) (drop (Z.to_nat loc) l)).
Proof.
  intros H0 Hs Hloc Hn Hle. destruct (concat_split size H0 loc l Hs) as [_ ->]; [lia|].
  destruct (concat_split size H0 n (drop (Z.to_nat loc) l) (sized_drop size _ _ Hs)) as [-> _]; [rewrite length_drop; lia|done].
Qed.

(** The values of chunks, one after the other. *)
Lemma chunk_values_sized size (b : memory_block) k : 0 < size -> len b = Z.of_nat k * size -> sized size (chunk_values k size b) /\ concat (chunk_values k size b) = b.
Proof.
  intros H0. revert b. induction k as [|k IH]; intros b Hb; [by destruct b; [split; [constructor|]|simpl in Hb; lia]|]. cbn [chunk_values].
  destruct (IH (drop (Z.to_nat size) b)) as [Hs Hc]; [rewrite length_drop; lia|]. split; [constructor; [rewrite length_take; lia|done]|]. simpl. by rewrite Hc, take_drop.
Qed.

Lemma chunks_values size (cs : list chunk) : 0 < size -> Forall (fun c : chunk => len c.1 = range_length c.2 * size) cs ->
  let l := concat (map (fun c : chunk => chunk_values (Z.to_nat (range_length c.2)) size c.1) cs) in sized size l /\ concat l = concat (map fst cs).
Proof.
  intros H0 Hc. induction Hc as [|[b r] cs Hb _ [I1 I2]]; simpl; [split; [constructor|done]|]. cbn [fst snd] in Hb.
  destruct (chunk_values_sized size b (Z.to_nat (range_length r)) H0) as [S1 C1]; [nia|]. split; [by apply Forall_app|]. by rewrite concat_app, C1, I2.
Qed.

(** Every branch has two children at least, so that there are fewer branches
    than leaves. *)
Lemma node_count {L : Layout} t : shaped cap vs t -> (Z.of_nat (length (ptrs t)) + 1) * vs <= 2 * len (bytes t).
Proof.
  pose proof vs_pos as Hvs. induction t as [p bs|p ks IH] using tree_nested_ind; intros Hs.
  - destruct Hs as [[Hl _] [z Hz]]. cbn [ptrs bytes length]. rewrite Hz in Hl |- *. assert (0 < z) by nia. nia.
  - apply shaped_branch in Hs as [Hl Hs]. cbn [ptrs bytes].
    assert ((Z.of_nat (length (ptrs_of ks)) + Z.of_nat (length ks)) * vs <= 2 * len (bytes_of ks)) as H; [|simpl; nia].
    clear Hl. induction IH as [|k ks Hk _ IH]; [simpl; lia|]. apply Forall_cons in Hs as [S1 S2]. cbn [map concat]. rewrite !length_app. cbn [length].
    specialize (Hk S1). specialize (IH S2). nia.
Qed.

(** ** Theorems *)

(** C7: Create a storage for values of a size that fits into a leaf and make
    any calls on it whose ranges are within the values there are: every call
    returns, and its answer and its effect are those of a sequence of values -
    insertions make room for values at their place and nothing else changes,
    deletions take out the range, replacements store their values, reads give
    the values of the range and the count is the length.  The nodes of other
    storages stay as they are. *)
Theorem CFStorage_calls_refine_sequence size w cs :
  fitting size -> winv w -> valid_calls size 0 cs = true ->
  exists rs w' l, create_and_run size cs w = Some (rs, w') /\ all_promised size cs [] rs l /\ (forall p, p < next w -> nodes w' !! p = nodes w !! p).
Proof.
  intros H Hw Hv. destruct (create_and_run_spec size H w cs Hw Hv) as (rs & w' & t & l & E & Hm). exists rs, w', l. split_and!; [done|apply Hm|apply Hm].
Qed.

(** C38: After any such calls the nodes of the storage are a tree in which every
    branch has two or three children, its byte count is that of its children,
    every leaf holds at least one value, as many bytes as its count says and no
    more than the largest leaf, no node is marked as frozen or has more than one
    reference, and the cache, if set, is on a leaf with its place; there are
    fewer than twice as many nodes as values, and the heap holds no others that
    are new. *)
Theorem CFStorage_calls_keep_tree size (H : fitting size) w cs :
  winv w -> valid_calls size 0 cs = true ->
  exists rs w' t, create_and_run size cs w = Some (rs, w') /\ @storage_ok (layout_of size H) w' t /\
    Z.of_nat (length (ptrs t)) <= Z.max 1 (2 * count_of 0 cs - 1) /\ (forall p, next w <= p -> is_Some (nodes w' !! p) <-> p ∈ ptrs t).
Proof.
  intros Hw Hv. destruct (create_and_run_spec size H w cs Hw Hv) as (rs & w' & t & l & E & Hm). exists rs, w', t. pose proof Hm as [Hok Hb Hs Hc _ _ _ _ _ Hx].
  pose proof H as [H0 _]. pose proof (length_concat size l Hs) as Hlc. rewrite <- Hb in Hlc. split_and!; [done|done| |].
  - rewrite <- Hc. destruct (so_shaped _ _ Hok) as [Hsh|Et]; [|rewrite Et; simpl; lia].
    pose proof (node_count (L := layout_of size H) t Hsh) as Hn. change (@vs (layout_of size H)) with size in Hn. nia.
  - intros p Hp. split; [by apply Hx|]. apply (rep_lookup _ 0). apply Hok.
Qed.

(** C8: When the storage goes away after any such calls, the heap is what it
    was before: every node the calls made and no other is freed. *)
Theorem CFStorage_leaves_no_nodes size w cs :
  fitting size -> winv w -> valid_calls size 0 cs = true ->
  exists rs w', (let! rs := create_and_run size cs in let! _ := __CFStorageDeallocate in ret rs) w = Some (rs, w') /\ nodes w' = nodes w.
Proof.
  intros H Hw Hv. destruct (create_and_run_spec size H w cs Hw Hv) as (rs & w1 & t & l & E & Hm). rewrite (bind_step _ _ _ _ _ E).
  destruct (Deallocate_spec (L := layout_of size H) w1 t (ma_ok _ _ _ _ _ _ _ _ Hm)) as (w2 & E2 & Hl & Hg). rewrite (bind_step _ _ _ _ _ E2).
  exists rs, w2. split; [done|]. apply map_eq. intros p. destruct (decide (p < next w)) as [Hlt|Hge].
  - rewrite (lo_nodes _ _ _ Hl); [by apply Hm|]. intros Hin%(ma_ptrs _ _ _ _ _ _ _ _ Hm). lia.
  - rewrite (proj2 (eq_None_not_Some (nodes w !! p))) by (intros [n Hn]; pose proof (winv_lt _ _ _ Hw Hn); lia).
    destruct (decide (p ∈ ptrs t)) as [Hin|Hni]; [by apply Hg|]. rewrite (lo_nodes _ _ _ Hl) by done. apply eq_None_not_Some.
    intros Hsome. apply Hni, (ma_exact _ _ _ _ _ _ _ _ Hm); [lia|done].
Qed.

(** The block of an enumeration is called with pieces of memory that lie
    side by side, begin at the first value of the range, end behind its last
    and hold its values; it is called with all of them, or with those up to the
    one at which it asked to stop. *)
Lemma CFStorageApplyBlock_visits_range size w cs loc n f :
  fitting size -> winv w -> valid_calls size 0 cs = true -> 0 <= loc -> 0 < n -> loc + n <= count_of 0 cs ->
  exists rs w1 l chunks w2, create_and_run size cs w = Some (rs, w1) /\ all_promised size cs [] rs l /\
    CFStorageApplyBlock (CFRangeMake loc n) f w1 = Some (fst (stopped f chunks), w2) /\
    runs loc chunks (loc + n) /\ concat (map fst chunks) = concat (take (Z.to_nat n) (drop (Z.to_nat loc) l)).
Proof.
  intros H Hw Hv Hloc Hn Hle. destruct (create_and_run_spec size H w cs Hw Hv) as (rs & w1 & t & l & E & Hm). pose proof Hm as [Hok Hb Hs Hc Hx Hp _ _ _ _].
  pose proof (length_concat size l Hs) as Hlc. rewrite <- Hb in Hlc. pose proof H as [H0 _].
  destruct (ApplyBlock_spec (L := layout_of size H) w1 t loc n f Hok Hloc Hn) as (w2 & E2 & _); [change (@vs (layout_of size H)) with size; nia|].
  destruct (chunks_whole (L := layout_of size H) t loc n) as (C1 & C2 & _); try done; change (@vs (layout_of size H)) with size in *; [|nia|].
  { apply (storage_shaped w1 t Hok). nia. }
  eexists rs, w1, l, _, w2. split_and!; [done|done|exact E2|exact C2|]. rewrite C1, Hb. apply bytes_range; done || lia.
Qed.

(** A function applied to a range is called with each value of the range,
    in their order. *)
Lemma CFStorageApplyFunction_visits_values size w cs loc n :
  fitting size -> winv w -> valid_calls size 0 cs = true -> 0 <= loc -> 0 < n -> loc + n <= count_of 0 cs ->
  exists rs w1 l w2, create_and_run size cs w = Some (rs, w1) /\ all_promised size cs [] rs l /\
    CFStorageApplyFunction (CFRangeMake loc n) w1 = Some (take (Z.to_nat n) (drop (Z.to_nat loc) l), w2).
Proof.
  intros H Hw Hv Hloc Hn Hle. destruct (create_and_run_spec size H w cs Hw Hv) as (rs & w1 & t & l & E & Hm). pose proof Hm as [Hok Hb Hs Hc Hx Hp _ _ _ _].
  pose proof (length_concat size l Hs) as Hlc. rewrite <- Hb in Hlc. pose proof H as [H0 _].
  destruct (ApplyBlock_spec (L := layout_of size H) w1 t loc n (fun _ _ => false) Hok Hloc Hn) as (w2 & E2 & _); [change (@vs (layout_of size H)) with size; nia|].
  destruct (chunks_whole (L := layout_of size H) t loc n) as (C1 & _ & C3); try done; change (@vs (layout_of size H)) with size in *; [|nia|].
  { apply (storage_shaped w1 t Hok). nia. }
  exists rs, w1, l, w2. split_and!; [done|done|]. unfold CFStorageApplyFunction. erewrite (bind_step get_storage) by reflexivity.
  rewrite stopped_never in E2. rewrite (bind_step _ _ _ _ _ E2). unfold ret. do 2 f_equal.
  pose proof (set_valueSize _ (so_settings _ _ Hok)) as Ev. rewrite Ev. change (@vs (layout_of size H)) with size.
  destruct (chunks_values size _ H0 C3) as [V1 V2]. apply (concat_inj size); [done|exact V1|by apply sized_take, sized_drop|].
  rewrite <- (bytes_range size), <- Hb, <- C1 by (done || lia). exact V2.
Qed.

(** Two storages made one after the other, with values that have all been
    written, compare equal exactly if they hold the same values. *)
Lemma CFStorageEqual_compares_values size w cs1 cs2 :
  fitting size -> winv w -> valid_calls size 0 cs1 = true -> valid_calls size 0 cs2 = true ->
  exists rs1 w1 l1 rs2 w2 l2, create_and_run size cs1 w = Some (rs1, w1) /\ all_promised size cs1 [] rs1 l1 /\
    create_and_run size cs2 w1 = Some (rs2, w2) /\ all_promised size cs2 [] rs2 l2 /\
    (written (concat l1) = true -> written (concat l2) = true ->
     exists s w3, __CFStorageEqual (storage w1) w2 = Some ((bool_decide (l2 = l1), s), w3)).
Proof.
  intros H Hw Hv1 Hv2. destruct (create_and_run_spec size H w cs1 Hw Hv1) as (rs1 & w1 & t1 & l1 & E1 & M1).
  destruct (create_and_run_spec size H w1 cs2 (so_inv _ _ (ma_ok _ _ _ _ _ _ _ _ M1)) Hv2) as (rs2 & w2 & t2 & l2 & E2 & M2).
  exists rs1, w1, l1, rs2, w2, l2. split_and!; [done|apply M1|done|apply M2|]. intros W1 W2.
  pose proof M1 as [Ok1 B1 S1 _ X1 _ _ _ _ _]. pose proof M2 as [Ok2 B2 S2 _ X2 _ Nx Nf Pt _]. pose proof H as [H0 _].
  pose proof (length_concat size l1 S1) as L1. pose proof (length_concat size l2 S2) as L2. rewrite <- B1 in L1. rewrite <- B2 in L2.
  destruct (Equal_spec (L := layout_of size H) w2 t2 (storage w1) t1) as (s & w3 & _ & _ & E3 & _); try (rewrite ?B1, ?B2; done); try lia.
  - constructor; [done| |].
    + apply (storage_ok_frame w1); [done| |apply (so_inv _ _ Ok2)|done]. intros q Hq. apply Nf. by apply (storage_ptr (L := layout_of size H) w1 t1).
    + intros q Hq Hq1. pose proof (Pt q Hq). pose proof (storage_ptr w1 t1 q Ok1 Hq1). lia.
  - rewrite L2. by exists (len l2).
  - rewrite L1. by exists (len l1).
  - exists s, w3. rewrite E3. do 3 f_equal. apply bool_decide_ext. rewrite B1, B2. split; [by apply (concat_inj size)|by intros ->].
Qed.

(** *** On an empty heap *)

Definition empty_world : world := mkWorld ∅ 1 (mkStorage 0 0 false 0 0 0).

Lemma winv_empty : winv empty_world.
Proof. split; [done|]. intros p n Hp. simpl in Hp. by rewrite lookup_empty in Hp. Defined.

Definition pair_values : list memory_block := [[Some 1; Some 2]; [Some 3; Some 4]].

Definition some_calls : list call := [InsertCall 0 3; ReplaceCall 1 pair_values; DeleteCall 0 1; GetCall 0 2; CountCall].

Lemma fitting_two : fitting 2.
Proof. split; [done|]. discriminate. Defined.

Lemma CFStorage_calls_refine_sequence_witness :
  exists rs w' l, create_and_run 2 some_calls empty_world = Some (rs, w') /\ all_promised 2 some_calls [] rs l /\
    (forall p, p < next empty_world -> nodes w' !! p = nodes empty_world !! p).
Proof. apply (CFStorage_calls_refine_sequence 2 empty_world some_calls fitting_two winv_empty). vm_compute. reflexivity. Defined.

Lemma CFStorage_calls_keep_tree_witness :
  exists rs w' t, create_and_run 2 some_calls empty_world = Some (rs, w') /\ @storage_ok (layout_of 2 fitting_two) w' t /\
    Z.of_nat (length (ptrs t)) <= Z.max 1 (2 * count_of 0 some_calls - 1) /\ (forall p, next empty_world <= p -> is_Some (nodes w' !! p) <-> p ∈ ptrs t).
Proof. apply (CFStorage_calls_keep_tree 2 fitting_two empty_world some_calls winv_empty). vm_compute. reflexivity. Defined.

Lemma CFStorage_leaves_no_nodes_witness :
  exists rs w', (let! rs := create_and_run 2 some_calls in let! _ := __CFStorageDeallocate in ret rs) empty_world = Some (rs, w') /\ nodes w' = nodes empty_world.
Proof. apply (CFStorage_leaves_no_nodes 2 empty_world some_calls fitting_two winv_empty). vm_compute. reflexivity. Defined.

Lemma CFStorageApplyBlock_visits_range_witness :
  exists rs w1 l chunks w2, create_and_run 2 some_calls empty_world = Some (rs, w1) /\ all_promised 2 some_calls [] rs l /\
    CFStorageApplyBlock (CFRangeMake 0 2) (fun _ _ => false) w1 = Some (fst (stopped (fun _ _ => false) chunks), w2) /\
    runs 0 chunks (0 + 2) /\ concat (map fst chunks) = concat (take (Z.to_nat 2) (drop (Z.to_nat 0) l)).
Proof.
  apply (CFStorageApplyBlock_visits_range 2 empty_world some_calls 0 2 (fun _ _ => false) fitting_two winv_empty); [vm_compute; reflexivity|lia|lia|discriminate].
Defined.

Lemma CFStorageEqual_compares_values_witness :
  exists rs1 w1 l1 rs2 w2 l2, create_and_run 2 some_calls empty_world = Some (rs1, w1) /\ all_promised 2 some_calls [] rs1 l1 /\
    create_and_run 2 some_calls w1 = Some (rs2, w2) /\ all_promised 2 some_calls [] rs2 l2 /\
    (written (concat l1) = true -> written (concat l2) = true ->
     exists s w3, __CFStorageEqual (storage w1) w2 = Some ((bool_decide (l2 = l1), s), w3)).
Proof.
  apply (CFStorageEqual_compares_values 2 empty_world some_calls some_calls fitting_two winv_empty); vm_compute; reflexivity.
Defined.

(** The answers of the calls. *)
Example some_calls_answers : fst <$> create_and_run 2 some_calls empty_world = Some [Done; Done; Done; Values [Some 1; Some 2; Some 3; Some 4]; Count 2].
Proof. vm_compute. reflexivity. Qed.

(** ** Storages that share nodes *)

(** Fifteen values of a page each, and the first byte of each value. *)
Definition page (v : Z) : memory_block := Some v :: replicate 4095 (Some 0).
Definition pages (l : list Z) : memory_block := concat (map page l).

Definition first_bytes (b : memory_block) : list (option Z) := map (fun k => default None (b !! Z.to_nat (k * 4096))) (seqZ 0 (len b / 4096)).

Definition fifteen : M unit :=
  let! _ := CFStorageCreate 4096 in
  let! _ := CFStorageInsertValues (CFRangeMake 0 15) in
  CFStorageReplaceValues (CFRangeMake 0 15) (pages (seqZ 0 15)).

(** A storage is made for all values of another one, and the first value of
    the other one is replaced: its leaf is in the cache and not marked as
    frozen itself, since only the node above it was. *)
Definition write_through_cache : M (list (option Z)) :=
  let! _ := fifteen in
  let! _ := CFStorageGetConstValueAtIndex 0 in
  let! original := get_storage in
  let! _ := CFStorageCreateWithSubrange (CFRangeMake 0 15) in
  let! _ := on_storage original (CFStorageReplaceValues (CFRangeMake 0 1) (page 99)) in
  let! values := CFStorageGetValues (CFRangeMake 0 15) in
  ret (first_bytes values).

(** The new storage deletes values until its root takes over the children of
    a node it shares, which are not marked as frozen; then it replaces its
    first value. *)
Definition write_after_collapse : M (list (option Z)) :=
  let! _ := fifteen in
  let! original := get_storage in
  let! _ := CFStorageCreateWithSubrange (CFRangeMake 0 15) in
  let! _ := CFStorageDeleteValues (CFRangeMake 6 9) in
  let! _ := CFStorageReplaceValues (CFRangeMake 0 1) (page 99) in
  let! (values, _) := on_storage original (CFStorageGetValues (CFRangeMake 0 15)) in
  ret (first_bytes values).

(** The new storage begins at the fourth value and reads its first value,
    which stores the place of the leaf in the leaf; the other storage has the
    leaf in its cache and reads its own first value. *)
Definition read_through_cache : M (list (option Z)) :=
  let! _ := fifteen in
  let! _ := CFStorageGetValues (CFRangeMake 3 1) in
  let! original := get_storage in
  let! _ := CFStorageCreateWithSubrange (CFRangeMake 3 12) in
  let! _ := CFStorageGetValues (CFRangeMake 0 1) in
  let! (values, _) := on_storage original (CFStorageGetValues (CFRangeMake 0 1)) in
  ret (first_bytes values).

(** The storage that [CFStorageCreateWithSubrange] makes is not a copy:
    replacing a value in the original through its cache changes the new
    storage, replacing a value in the new storage after deletions changes the
    original, and reading a value of the new storage makes the original read
    the wrong value. *)
Lemma CFStorageCreateWithSubrange_is_no_copy :
  fst <$> write_through_cache empty_world = Some (Some 99 :: map Some (seqZ 1 14)) /\
  fst <$> write_after_collapse empty_world = Some (Some 99 :: map Some (seqZ 1 14)) /\
  fst <$> read_through_cache empty_world = Some [Some 3].
Proof. vm_compute. split_and!; reflexivity. Qed.
