(* ===== verification/CFUniChar.v ===== *)
(** * CFUniChar: Unicode characters, character sets and buffers (CFUniChar.c, CFUniChar.h)

    Surrogate pairs, bitmaps with one bit per character of a plane, the sets of
    characters that are kept as bitmaps, combining classes, and the routine that
    stores characters in a buffer in one of three encodings.

    A character is a [Z], truncated where the code passes it as a [UTF16Char].  A
    pointer to bytes is the list of the bytes from there on, NULL is [None].
    The sets and the classes come from data files that the library maps into
    memory on first use and never writes: what the loaders leave in the global
    tables is the record [unichar_tables], an argument here. *)

From S2P Require Import Prelude CFInternal.
From stdpp Require Import base list numbers option.
From Stdlib Require Import ZArith Lia.
Open Scope Z_scope.
Open Scope cf_scope.

(** ** Surrogate pairs (CFUniChar.h) *)

Definition CFUniCharIsSurrogateHighCharacter (character : Z) : bool :=
  (0xD800 <=? character) && (character <=? 0xDBFF).

Definition CFUniCharIsSurrogateLowCharacter (character : Z) : bool :=
  (0xDC00 <=? character) && (character <=? 0xDFFF).

Definition CFUniCharGetLongCharacterForSurrogatePair (surrogateHigh surrogateLow : Z) : Z :=
  Z.shiftl (surrogateHigh - 0xD800) 10 + (surrogateLow - 0xDC00) + 0x10000.

(** ** Bitmaps of a plane (CFUniChar.h)

    The character is a [UTF16Char]: the plane is the caller's business. *)

Definition CFUniCharIsMemberOfBitmap (theChar : Z) (bitmap : option (list Z)) : option bool :=
  match bitmap with
  | None => Some false
  | Some bytes =>
      let theChar := uwrap 16 theChar in
      let* b := rd bytes (Z.shiftr theChar 3) in
      Some (negb (Z.land b (Z.shiftl 1 (Z.land theChar 7)) =? 0))
  end.

Definition CFUniCharAddCharacterToBitmap (theChar : Z) (bitmap : list Z) : option (list Z) :=
  let theChar := uwrap 16 theChar in
  let* b := rd bitmap (Z.shiftr theChar 3) in
  wr bitmap (Z.shiftr theChar 3) (Z.lor b (Z.shiftl 1 (Z.land theChar 7))).

Definition CFUniCharRemoveCharacterFromBitmap (theChar : Z) (bitmap : list Z) : option (list Z) :=
  let theChar := uwrap 16 theChar in
  let* b := rd bitmap (Z.shiftr theChar 3) in
  wr bitmap (Z.shiftr theChar 3) (uwrap 8 (Z.land b (Z.lnot (Z.shiftl 1 (Z.land theChar 7))))).

(** ** Character sets *)

Definition kCFUniCharControlCharacterSet : Z := 1.
Definition kCFUniCharWhitespaceCharacterSet : Z := 2.
Definition kCFUniCharWhitespaceAndNewlineCharacterSet : Z := 3.
Definition kCFUniCharDecimalDigitCharacterSet : Z := 4.
Definition kCFUniCharNonBaseCharacterSet : Z := 8.
Definition kCFUniCharCanonicalDecomposableCharacterSet : Z := 9.
Definition kCFUniCharIllegalCharacterSet : Z := 12.
Definition kCFUniCharNewlineCharacterSet : Z := 15.
Definition kCFUniCharCompatibilityDecomposableCharacterSet : Z := 100.
Definition kCFUniCharHFSPlusDecomposableCharacterSet : Z := 101.
Definition kCFUniCharControlAndFormatterCharacterSet : Z := 108.

Definition kCFUniCharLastExternalSet : Z := kCFUniCharNewlineCharacterSet.
Definition kCFUniCharFirstInternalSet : Z := kCFUniCharCompatibilityDecomposableCharacterSet.
Definition kCFUniCharFirstBitmapSet : Z := kCFUniCharDecimalDigitCharacterSet.

Definition __CFUniCharMapExternalSetToInternalIndex (cset : Z) : Z :=
  uwrap 32 ((if kCFUniCharFirstInternalSet <=? cset
             then (cset - kCFUniCharFirstInternalSet) + kCFUniCharLastExternalSet
             else cset) - kCFUniCharFirstBitmapSet).

Definition __CFUniCharMapCompatibilitySetID (cset : Z) : Z :=
  if cset =? kCFUniCharControlCharacterSet then kCFUniCharControlAndFormatterCharacterSet
  else if (kCFUniCharLastExternalSet <? cset) && (cset <? kCFUniCharFirstInternalSet)
  then (cset - kCFUniCharLastExternalSet) + kCFUniCharFirstInternalSet
  else cset.

Record __CFUniCharBitmapData : Type := {
  _numPlanes : Z;
  _planes : list (option (list Z))
}.

(** [__CFUniCharBitmapDataArray] with [__CFUniCharNumberOfBitmaps] entries (none
    before or after a failed load), and [__CFUniCharUnicodePropertyTable]. *)
Record unichar_tables : Type := {
  __CFUniCharBitmapDataArray : list __CFUniCharBitmapData;
  __CFUniCharUnicodePropertyTable : option (list __CFUniCharBitmapData)
}.

Definition isWhitespace (theChar : Z) : bool :=
  (theChar =? 0x0020) || (theChar =? 0x0009) || (theChar =? 0x00A0) || (theChar =? 0x1680) ||
  ((0x2000 <=? theChar) && (theChar <=? 0x200B)) ||
  (theChar =? 0x202F) || (theChar =? 0x205F) || (theChar =? 0x3000).

Definition isNewline (theChar : Z) : bool :=
  ((0x000A <=? theChar) && (theChar <=? 0x000D)) ||
  (theChar =? 0x0085) || (theChar =? 0x2028) || (theChar =? 0x2029).

Definition isWhitespaceAndNewline (theChar : Z) : bool :=
  isWhitespace theChar || isNewline theChar.

Section Sets.
Context (T : unichar_tables).

Definition __CFUniCharNumberOfBitmaps : Z := Z.of_nat (length (__CFUniCharBitmapDataArray T)).

(** [planeNo < data->_numPlanes && data->_planes[planeNo] ? .. : other] *)
Definition plane_member (data : __CFUniCharBitmapData) (planeNo theChar : Z) (other : bool)
    (f : bool -> bool) : option bool :=
  if planeNo <? _numPlanes data then
    let* p := rd (_planes data) planeNo in
    match p with
    | Some bytes => let* m := CFUniCharIsMemberOfBitmap theChar (Some bytes) in Some (f m)
    | None => Some other
    end
  else Some other.

Definition CFUniCharIsMemberOf (theChar charset : Z) : option bool :=
  let charset := __CFUniCharMapCompatibilitySetID charset in
  if charset =? kCFUniCharWhitespaceCharacterSet then Some (isWhitespace theChar)
  else if charset =? kCFUniCharWhitespaceAndNewlineCharacterSet then Some (isWhitespaceAndNewline theChar)
  else if charset =? kCFUniCharNewlineCharacterSet then Some (isNewline theChar)
  else
    let tableIndex := __CFUniCharMapExternalSetToInternalIndex charset in
    if tableIndex <? __CFUniCharNumberOfBitmaps then
      let* data := rd (__CFUniCharBitmapDataArray T) tableIndex in
      let planeNo := Z.land (Z.shiftr theChar 16) 0xFF in
      if charset =? kCFUniCharIllegalCharacterSet then
        if planeNo =? 0x0E then
          let theChar := Z.land theChar 0xFF in
          Some (if (theChar =? 0x01) || ((0x1F <? theChar) && (theChar <? 0x80)) then false else true)
        else if (planeNo =? 0x0F) || (planeNo =? 0x10) then
          Some (0xFFFD <? Z.land theChar 0xFF)
        else plane_member data planeNo theChar true negb
      else if charset =? kCFUniCharControlAndFormatterCharacterSet then
        if planeNo =? 0x0E then
          let theChar := Z.land theChar 0xFF in
          Some ((theChar =? 0x01) || ((0x1F <? theChar) && (theChar <? 0x80)))
        else plane_member data planeNo theChar false (fun b => b)
      else plane_member data planeNo theChar false (fun b => b)
    else Some false.

Definition CFUniCharGetBitmapPtrForPlane (charset plane : Z) : option (option (list Z)) :=
  let charset := __CFUniCharMapCompatibilitySetID charset in
  if (kCFUniCharWhitespaceAndNewlineCharacterSet <? charset) &&
     negb (charset =? kCFUniCharIllegalCharacterSet) && negb (charset =? kCFUniCharNewlineCharacterSet)
  then
    let tableIndex := __CFUniCharMapExternalSetToInternalIndex charset in
    if tableIndex <? __CFUniCharNumberOfBitmaps then
      let* data := rd (__CFUniCharBitmapDataArray T) tableIndex in
      if plane <? _numPlanes data then rd (_planes data) plane else Some None
    else Some None
  else Some None.

(** ** A set as a bitmap

    The result codes, and the loops that fill the 8192 bytes of a plane. *)

Definition kCFUniCharBitmapFilled : Z := 0.
Definition kCFUniCharBitmapEmpty : Z := 0xFF.
Definition kCFUniCharBitmapAll : Z := 1.

(** [while (numBytes-- > 0) *(bitmap++) = f( *(src++));] *)
Fixpoint copy_bytes (numBytes : nat) (f : Z -> Z) (src bitmap : list Z) (at_ : Z) : option (list Z) :=
  match numBytes with
  | O => Some bitmap
  | S numBytes =>
      let* b := rd src at_ in
      let* bitmap := wr bitmap at_ (f b) in
      copy_bytes numBytes f src bitmap (at_ + 1)
  end.

(** The loops that store a value that depends on the place only. *)
Fixpoint fill_bytes (numBytes : nat) (f : Z -> Z) (bitmap : list Z) (at_ : Z) : option (list Z) :=
  match numBytes with
  | O => Some bitmap
  | S numBytes =>
      let* bitmap := wr bitmap at_ (f at_) in
      fill_bytes numBytes f bitmap (at_ + 1)
  end.

(** [CFUniCharRemoveCharacterFromBitmap] or [CFUniCharAddCharacterToBitmap] for
    a run of characters. *)
Fixpoint mark_characters (isInverted : bool) (chars : list Z) (bitmap : list Z) : option (list Z) :=
  match chars with
  | [] => Some bitmap
  | c :: chars =>
      let* bitmap := (if isInverted then CFUniCharRemoveCharacterFromBitmap c bitmap
                      else CFUniCharAddCharacterToBitmap c bitmap) in
      mark_characters isInverted chars bitmap
  end.

Definition newlines : list Z := [0x000A; 0x000B; 0x000C; 0x000D; 0x0085; 0x2028; 0x2029].
Definition spaces : list Z := [0x0009; 0x0020; 0x00A0; 0x1680; 0x202F; 0x205F; 0x3000].
Definition general_punctuation_spaces : list Z := (fun k => 0x2000 + Z.of_nat k) <$> seq 0 12.

Definition not8 (b : Z) : Z := uwrap 8 (Z.lnot b).

Definition CFUniCharGetBitmapForPlane (charset plane : Z) (bitmap : list Z) (isInverted : bool)
    : option (Z * list Z) :=
  let* src := CFUniCharGetBitmapPtrForPlane charset plane in
  let numBytes := Z.to_nat (8 * 1024) in
  match src with
  | Some src =>
      let* bitmap := copy_bytes numBytes (if isInverted then not8 else (fun b : Z => b)) src bitmap 0 in
      Some (kCFUniCharBitmapFilled, bitmap)
  | None =>
      if charset =? kCFUniCharIllegalCharacterSet then
        let* data := rd (__CFUniCharBitmapDataArray T)
            (__CFUniCharMapExternalSetToInternalIndex (__CFUniCharMapCompatibilitySetID charset)) in
        let* src := (if plane <? _numPlanes data then rd (_planes data) plane else Some None) in
        match src with
        | Some src =>
            let* bitmap := copy_bytes numBytes (if isInverted then (fun b => b) else not8) src bitmap 0 in
            Some (kCFUniCharBitmapFilled, bitmap)
        | None =>
            if plane =? 0x0E then
              let asciiRange := if isInverted then 0xFF else 0 in
              let otherRange := if isInverted then 0 else 0xFF in
              let* bitmap := wr bitmap 0 0x02 in
              let* bitmap :=
                fill_bytes (numBytes - 1)
                  (fun idx => if (0x20 / 8 <=? idx) && (idx <? 0x80 / 8) then asciiRange else otherRange)
                  bitmap 1 in
              Some (kCFUniCharBitmapFilled, bitmap)
            else if (plane =? 0x0F) || (plane =? 0x10) then
              let value := if isInverted then 0xFF else 0 in
              let* bitmap := fill_bytes numBytes (fun _ => value) bitmap 0 in
              let* bitmap := wr bitmap (8 * 1024 - 5) (if isInverted then 0x3F else 0xC0) in
              Some (kCFUniCharBitmapFilled, bitmap)
            else Some (if isInverted then kCFUniCharBitmapEmpty else kCFUniCharBitmapAll, bitmap)
        end
      else if (charset <? kCFUniCharDecimalDigitCharacterSet) || (charset =? kCFUniCharNewlineCharacterSet) then
        if negb (plane =? 0) then
          Some (if isInverted then kCFUniCharBitmapAll else kCFUniCharBitmapEmpty, bitmap)
        else
          let nonFillValue := if isInverted then 0xFF else 0 in
          let* bitmap := fill_bytes numBytes (fun _ => nonFillValue) bitmap 0 in
          let* bitmap :=
            (if (charset =? kCFUniCharWhitespaceAndNewlineCharacterSet) || (charset =? kCFUniCharNewlineCharacterSet)
             then mark_characters isInverted newlines bitmap else Some bitmap) in
          if charset =? kCFUniCharNewlineCharacterSet then Some (kCFUniCharBitmapFilled, bitmap)
          else
            let* bitmap := mark_characters isInverted spaces bitmap in
            let* bitmap := mark_characters isInverted general_punctuation_spaces bitmap in
            Some (kCFUniCharBitmapFilled, bitmap)
      else Some (if isInverted then kCFUniCharBitmapAll else kCFUniCharBitmapEmpty, bitmap)
  end.

Definition CFUniCharGetNumberOfPlanes (charset : Z) : option Z :=
  if (charset =? kCFUniCharControlCharacterSet) || (charset =? kCFUniCharControlAndFormatterCharacterSet)
  then Some 15
  else if charset <? kCFUniCharDecimalDigitCharacterSet then Some 1
  else if charset =? kCFUniCharIllegalCharacterSet then Some 17
  else
    let* data := rd (__CFUniCharBitmapDataArray T)
        (__CFUniCharMapExternalSetToInternalIndex (__CFUniCharMapCompatibilitySetID charset)) in
    Some (_numPlanes data).

(** ** Properties of characters *)

Definition kCFUniCharCombiningProperty : Z := 0.
Definition kCFUniCharBidiProperty : Z := 1.
Definition kCFUniCharBiDiPropertyL : Z := 1.
Definition kCFUniCharBiDiPropertyPDF : Z := 18.

(** The character is a [UTF16Char]; the bitmap is a page table: a byte per
    block of 256 characters, then the blocks. *)
Definition CFUniCharGetBidiPropertyForCharacter (character : Z) (bitmap : option (list Z)) : option Z :=
  let character := uwrap 16 character in
  match bitmap with
  | Some bytes =>
      let* value := rd bytes (Z.shiftr character 8) in
      if kCFUniCharBiDiPropertyPDF <? value
      then rd bytes (256 + (value - kCFUniCharBiDiPropertyPDF - 1) * 256 + character mod 256)
      else Some value
  | None => Some kCFUniCharBiDiPropertyL
  end.

Definition CFUniCharGetCombiningPropertyForCharacter (character : Z) (bitmap : option (list Z)) : option Z :=
  let character := uwrap 16 character in
  match bitmap with
  | Some bytes =>
      let* value := rd bytes (Z.shiftr character 8) in
      if negb (value =? 0) then rd bytes (256 + (value - 1) * 256 + character mod 256) else Some 0
  | None => Some 0
  end.

Definition CFUniCharGetUnicodePropertyDataForPlane (propertyType plane : Z) : option (option (list Z)) :=
  match __CFUniCharUnicodePropertyTable T with
  | None => Some None
  | Some table =>
      let* data := rd table propertyType in
      if plane <? _numPlanes data then rd (_planes data) plane else Some None
  end.

Definition CFUniCharGetNumberOfPlanesForUnicodePropertyData (propertyType : Z) : option Z :=
  let* table := __CFUniCharUnicodePropertyTable T in
  let* data := rd table propertyType in
  Some (_numPlanes data).

Definition CFUniCharGetUnicodeProperty (character propertyType : Z) : option Z :=
  if propertyType =? kCFUniCharCombiningProperty then
    let* data := CFUniCharGetUnicodePropertyDataForPlane propertyType (Z.land (Z.shiftr character 16) 0xFF) in
    CFUniCharGetCombiningPropertyForCharacter character data
  else if propertyType =? kCFUniCharBidiProperty then
    let* data := CFUniCharGetUnicodePropertyDataForPlane propertyType (Z.land (Z.shiftr character 16) 0xFF) in
    CFUniCharGetBidiPropertyForCharacter character data
  else Some 0.

End Sets.

(** ** Storing characters

    A destination is a block of cells of the width of its format and a position
    in it ([void **dst]).  The block keeps what was stored before a failure;
    the position and [*filledLength] are those of the call then. *)

Definition kCFUniCharUTF16Format : Z := 0.
Definition kCFUniCharUTF8Format : Z := 2.
Definition kCFUniCharUTF32Format : Z := 3.

Definition firstByteMark : list Z := [0x00; 0x00; 0xC0; 0xE0; 0xF0; 0xF8; 0xFC].

(** The cases of the switch on the number of bytes, which fall through: the
    [n] bytes after the first from the last to the second, six bits each. *)
Fixpoint store_trailing (n : nat) (ch : Z) (bytes : list Z) (at_ : Z) : option (Z * list Z) :=
  match n with
  | O => Some (ch, bytes)
  | S n' =>
      let* bytes := wr bytes (at_ + Z.of_nat n) (Z.land (Z.lor ch 0x80) 0xBF) in
      store_trailing n' (Z.shiftr ch 6) bytes at_
  end.

Definition store_utf8 (bytesToWrite : Z) (ch : Z) (bytes : list Z) (at_ : Z) : option (list Z) :=
  let* (ch, bytes) := store_trailing (Z.to_nat (bytesToWrite - 1)) ch bytes at_ in
  let* mark := rd firstByteMark bytesToWrite in
  wr bytes at_ (uwrap 8 (Z.lor ch mark)).

Definition UNI_REPLACEMENT_CHAR : Z := 0x0000FFFD.

(** One character: how many cells it takes, and the stores. *)
Definition fill_units (dstFormat currentChar : Z) : Z * Z :=
  if dstFormat =? kCFUniCharUTF16Format then
    (currentChar, if 0xFFFF <? currentChar then 2 else 1)
  else if dstFormat =? kCFUniCharUTF8Format then
    if currentChar <? 0x80 then (currentChar, 1)
    else if currentChar <? 0x800 then (currentChar, 2)
    else if currentChar <? 0x10000 then (currentChar, 3)
    else if currentChar <? 0x200000 then (currentChar, 4)
    else (UNI_REPLACEMENT_CHAR, 2)
  else (currentChar, 1).

Definition fill_store (dstFormat currentChar units : Z) (dstBuffer : list Z) (at_ : Z) : option (list Z) :=
  if dstFormat =? kCFUniCharUTF16Format then
    if 0xFFFF <? currentChar then
      let currentChar := currentChar - 0x10000 in
      let* dstBuffer := wr dstBuffer at_ (uwrap 16 (Z.shiftr currentChar 10 + 0xD800)) in
      wr dstBuffer (at_ + 1) (uwrap 16 (Z.land currentChar 0x3FF + 0xDC00))
    else wr dstBuffer at_ (uwrap 16 currentChar)
  else if dstFormat =? kCFUniCharUTF8Format then store_utf8 units currentChar dstBuffer at_
  else wr dstBuffer at_ currentChar.

(** [while (srcLength-- > 0)]; [s] is where [src] points. *)
Fixpoint fill_loop (srcLength : nat) (src : list Z) (s : Z) (dstBuffer : list Z) (at_ dstLength usedLength : Z)
    (dstFormat : Z) : option (bool * list Z * Z * Z) :=
  match srcLength with
  | O => Some (true, dstBuffer, at_, usedLength)
  | S srcLength =>
      let* currentChar := rd src s in
      let '(currentChar, units) := fill_units dstFormat currentChar in
      let usedLength := usedLength + units in
      if negb (dstLength =? 0) then
        if dstLength <? usedLength then Some (false, dstBuffer, at_, usedLength)
        else
          let* dstBuffer := fill_store dstFormat currentChar units dstBuffer at_ in
          fill_loop srcLength src (s + 1) dstBuffer (at_ + units) dstLength usedLength dstFormat
      else fill_loop srcLength src (s + 1) dstBuffer at_ dstLength usedLength dstFormat
  end.

Definition CFUniCharFillDestinationBuffer (src : list Z) (srcLength : Z) (dst : list Z) (at_ : Z) (dstLength : Z)
    (filledLength dstFormat : Z) : option (bool * list Z * Z * Z) :=
  let* (ok, dst, at', usedLength) := fill_loop (Z.to_nat srcLength) src 0 dst at_ dstLength filledLength dstFormat in
  if (ok : bool) then Some (true, dst, at', usedLength) else Some (false, dst, at_, filledLength).

(** ** UTF-32 (CFUniChar.h)

    [CFSwapInt32HostToBig] and [CFSwapInt32BigToHost] exchange the bytes, the
    host being little-endian; the other two are the identity. *)

Definition CFSwapInt32 (arg : Z) : Z :=
  uwrap 32 (Z.lor (Z.lor (Z.shiftl (Z.land arg 0xFF) 24) (Z.shiftl (Z.land arg 0xFF00) 8))
                  (Z.lor (Z.land (Z.shiftr arg 8) 0xFF00) (Z.land (Z.shiftr arg 24) 0xFF))).

Definition swap_to (isBigEndien : bool) (character : Z) : Z :=
  if isBigEndien then CFSwapInt32 character else character.

(** [while (src < limit)] in both functions: [s] and [d] are the two pointers. *)
Fixpoint to_utf32_loop (fuel : nat) (src : list Z) (s limit : Z) (dst : list Z) (d : Z)
    (allowLossy isBigEndien : bool) : option (bool * list Z) :=
  if s <? limit then
    match fuel with
    | O => None
    | S fuel =>
        let* character := rd src s in
        let s := s + 1 in
        let* lead :=
          (if CFUniCharIsSurrogateHighCharacter character then
             let* low := (if s <? limit then let* c := rd src s in Some (CFUniCharIsSurrogateLowCharacter c)
                          else Some false) in
             if (low : bool) then
               let* c := rd src s in
               Some (Some (CFUniCharGetLongCharacterForSurrogatePair character c, s + 1))
             else if negb allowLossy then Some None else Some (Some (0xFFFD, s))
           else if CFUniCharIsSurrogateLowCharacter character then
             if negb allowLossy then Some None else Some (Some (0xFFFD, s))
           else Some (Some (character, s))) in
        match lead with
        | None => Some (false, dst)
        | Some (character, s) =>
            let* dst := wr dst d (swap_to isBigEndien character) in
            to_utf32_loop fuel src s limit dst (d + 1) allowLossy isBigEndien
        end
    end
  else Some (true, dst).

Definition CFUniCharToUTF32 (src : list Z) (length : Z) (dst : list Z) (allowLossy isBigEndien : bool)
    : option (bool * list Z) :=
  to_utf32_loop (Z.to_nat length) src 0 length dst 0 allowLossy isBigEndien.

Fixpoint from_utf32_loop (fuel : nat) (src : list Z) (s limit : Z) (dst : list Z) (d : Z)
    (allowLossy isBigEndien : bool) : option (bool * list Z) :=
  if s <? limit then
    match fuel with
    | O => None
    | S fuel =>
        let* c := rd src s in
        let character := swap_to isBigEndien c in
        let s := s + 1 in
        let* step :=
          (if character <? 0x10000 then
             if allowLossy then
               if CFUniCharIsSurrogateHighCharacter character then
                 if s <? limit then
                   let* c := rd src s in
                   let otherCharacter := swap_to isBigEndien c in
                   if (otherCharacter <? 0x10000) && CFUniCharIsSurrogateLowCharacter otherCharacter then
                     let* dst := wr dst d character in
                     Some (Some (otherCharacter, s + 1, dst, d + 1))
                   else Some (Some (0xFFFD, s, dst, d))
                 else Some (Some (0xFFFD, s, dst, d))
               else if CFUniCharIsSurrogateLowCharacter character then Some (Some (0xFFFD, s, dst, d))
               else Some (Some (character, s, dst, d))
             else if CFUniCharIsSurrogateHighCharacter character || CFUniCharIsSurrogateLowCharacter character
             then Some None
             else Some (Some (character, s, dst, d))
           else if character <? 0x110000 then
             let character := character - 0x10000 in
             let* dst := wr dst d (uwrap 16 (Z.shiftr character 10 + 0xD800)) in
             Some (Some (uwrap 16 (Z.land character 0x3FF + 0xDC00), s, dst, d + 1))
           else if negb allowLossy then Some None
           else Some (Some (0xFFFD, s, dst, d))) in
        match step with
        | None => Some (false, dst)
        | Some (character, s, dst, d) =>
            let* dst := wr dst d (uwrap 16 character) in
            from_utf32_loop fuel src s limit dst (d + 1) allowLossy isBigEndien
        end
    end
  else Some (true, dst).

Definition CFUniCharFromUTF32 (src : list Z) (length : Z) (dst : list Z) (allowLossy isBigEndien : bool)
    : option (bool * list Z) :=
  from_utf32_loop (Z.to_nat length) src 0 length dst 0 allowLossy isBigEndien.

(** ** The encoding forms

    What the routines above implement: scalar values, and their encoding forms as
    the Unicode standard defines them (arithmetic on the code point). *)

Definition scalar (c : Z) : Prop := 0 <= c < 0xD800 \/ 0xE000 <= c < 0x110000.

#[global] Instance scalar_dec c : Decision (scalar c).
Proof. unfold scalar. apply _. Defined.

(** What a [UTF32Char] may hold when it comes from UTF-16: lone surrogates too. *)
Definition code_point (c : Z) : Prop := 0 <= c < 0x110000.

Definition utf16 (c : Z) : list Z :=
  if c <? 0x10000 then [c]
  else [0xD800 + (c - 0x10000) / 0x400; 0xDC00 + (c - 0x10000) mod 0x400].

Definition utf8 (c : Z) : list Z :=
  if c <? 0x80 then [c]
  else if c <? 0x800 then [0xC0 + c / 64; 0x80 + c mod 64]
  else if c <? 0x10000 then [0xE0 + c / 4096; 0x80 + c / 64 mod 64; 0x80 + c mod 64]
  else [0xF0 + c / 262144; 0x80 + c / 4096 mod 64; 0x80 + c / 64 mod 64; 0x80 + c mod 64].

Definition encoding_form (dstFormat c : Z) : list Z :=
  if dstFormat =? kCFUniCharUTF16Format then utf16 c
  else if dstFormat =? kCFUniCharUTF8Format then utf8 c
  else [c].

Lemma scalar_code_point c : scalar c -> code_point c.
Proof. unfold scalar, code_point. lia. Qed.

#[export] Hint Resolve scalar_code_point : core.

Lemma length_utf16 c : Z.of_nat (length (utf16 c)) = if c <? 0x10000 then 1 else 2.
Proof. unfold utf16. by destruct (c <? _). Qed.

Lemma length_utf8 c :
  Z.of_nat (length (utf8 c)) =
    if c <? 0x80 then 1 else if c <? 0x800 then 2 else if c <? 0x10000 then 3 else 4.
Proof. unfold utf8. by repeat destruct (c <? _). Qed.

Lemma utf16_app_nonempty c : utf16 c <> [].
Proof. unfold utf16. by destruct (c <? _). Qed.

Lemma utf8_nonempty c : utf8 c <> [].
Proof. unfold utf8. by repeat destruct (c <? _). Qed.

(** *** Cells next to each other *)

Lemma rd_app_here {A} (pre : list A) x rest n : n = Z.of_nat (length pre) -> rd (pre ++ x :: rest) n = Some x.
Proof. intros ->. rewrite rd_nat. by rewrite lookup_app_r, Nat.sub_diag. Qed.

Lemma wr_app_here {A} (pre : list A) x v rest n :
  n = Z.of_nat (length pre) -> wr (pre ++ x :: rest) n v = Some (pre ++ v :: rest).
Proof.
  intros ->. rewrite wr_nat by cf_lia. f_equal. rewrite insert_app_r_alt by done. by rewrite Nat.sub_diag.
Qed.

Lemma wr_app_there {A} (pre : list A) x y v rest n :
  n = Z.of_nat (length pre) + 1 -> wr (pre ++ x :: y :: rest) n v = Some (pre ++ x :: v :: rest).
Proof.
  intros ->. change (x :: y :: rest) with ([x] ++ y :: rest). rewrite (assoc_L (++)).
  rewrite wr_app_here by cf_lia. by rewrite <- (assoc_L (++)).
Qed.

(** *** Bits and digits *)

Lemma trailing_byte ch : 0 <= ch -> Z.land (Z.lor ch 0x80) 0xBF = 0x80 + ch mod 64.
Proof.
  intros Hch. rewrite Z.land_lor_distr_l.
  replace (Z.land ch 0xBF) with (Z.land (ch mod 256) 0xBF).
  - pose proof (forall_below (fun x => Z.lor (Z.land x 0xBF) (Z.land 0x80 0xBF) =? 0x80 + x mod 64) 256
      ltac:(vm_compute; reflexivity) (ch mod 256) ltac:(pose proof (Z.mod_pos_bound ch 256); lia)) as E.
    apply Z.eqb_eq in E. rewrite E. Z.div_mod_to_equations. lia.
  - change 256 with (2 ^ 8). rewrite <- Z.land_ones, <- Z.land_assoc by lia. done.
Qed.

Lemma lead_byte n mark ch :
  rd firstByteMark n = Some mark -> 1 <= n <= 4 -> 0 <= ch < (if n =? 1 then 128 else 2 ^ (7 - n)) ->
  uwrap 8 (Z.lor ch mark) = mark + ch.
Proof.
  intros Hm Hn Hch. unfold uwrap.
  assert (n = 1 \/ n = 2 \/ n = 3 \/ n = 4) as [->|[->|[->| ->]]] by lia; injection Hm as <-; simpl in Hch.
  - pose proof (forall_below (fun x => (Z.lor x 0) mod 2 ^ 8 =? x) 128 ltac:(vm_compute; reflexivity) ch ltac:(lia)) as E.
    apply Z.eqb_eq in E. lia.
  - pose proof (forall_below (fun x => (Z.lor x 0xC0) mod 2 ^ 8 =? 0xC0 + x) 32 ltac:(vm_compute; reflexivity) ch ltac:(lia)) as E.
    by apply Z.eqb_eq in E.
  - pose proof (forall_below (fun x => (Z.lor x 0xE0) mod 2 ^ 8 =? 0xE0 + x) 16 ltac:(vm_compute; reflexivity) ch ltac:(lia)) as E.
    by apply Z.eqb_eq in E.
  - pose proof (forall_below (fun x => (Z.lor x 0xF0) mod 2 ^ 8 =? 0xF0 + x) 8 ltac:(vm_compute; reflexivity) ch ltac:(lia)) as E.
    by apply Z.eqb_eq in E.
Qed.

(** [shift_lia]: shifts to the right as divisions, then arithmetic. *)
Ltac shift_lia :=
  rewrite ?Z.shiftr_shiftr, ?Z.shiftr_div_pow2 by lia; cbn; Z.to_euclidean_division_equations; lia.

(** The stores of a character write its UTF-8 form. *)
Lemma store_utf8_form c pre room :
  code_point c -> (length (utf8 c) <= length room)%nat ->
  store_utf8 (Z.of_nat (length (utf8 c))) c (pre ++ room) (Z.of_nat (length pre)) =
    Some (pre ++ utf8 c ++ drop (length (utf8 c)) room).
Proof.
  unfold code_point, utf8. intros Hc Hroom.
  destruct (Z.ltb_spec c 0x80); [|destruct (Z.ltb_spec c 0x800); [|destruct (Z.ltb_spec c 0x10000)]];
    unfold store_utf8; simpl length in *.
  - change (Z.to_nat (Z.of_nat 1 - 1)) with 0%nat. change (Z.of_nat 1) with 1.
    destruct room as [|x room]; [simpl in Hroom; lia|]. cbn [store_trailing opt_bind].
    change (rd firstByteMark 1) with (Some 0). cbn [opt_bind].
    rewrite (lead_byte 1 _ c eq_refl) by (simpl; lia). by rewrite wr_app_here.
  - change (Z.to_nat (Z.of_nat 2 - 1)) with 1%nat. change (Z.of_nat 2) with 2.
    destruct room as [|x [|y room]]; [simpl in Hroom; lia..|]. cbn [store_trailing opt_bind].
    rewrite wr_app_there by lia. cbn [opt_bind].
    change (rd firstByteMark 2) with (Some 0xC0). cbn [opt_bind].
    rewrite (lead_byte 2 _ _ eq_refl), trailing_byte by shift_lia.
    rewrite wr_app_here by done. rewrite Z.shiftr_div_pow2 by lia. done.
  - change (Z.to_nat (Z.of_nat 3 - 1)) with 2%nat. change (Z.of_nat 3) with 3.
    destruct room as [|x [|y [|z room]]]; [simpl in Hroom; lia..|]. cbn [store_trailing opt_bind].
    change (x :: y :: z :: room) with ([x] ++ y :: z :: room). rewrite (assoc_L (++)).
    rewrite wr_app_there by cf_lia. cbn [opt_bind].
    rewrite wr_app_here by cf_lia. cbn [opt_bind]. rewrite <- (assoc_L (++)). cbn [app].
    change (rd firstByteMark 3) with (Some 0xE0). cbn [opt_bind].
    rewrite (lead_byte 3 _ _ eq_refl) by shift_lia.
    rewrite !trailing_byte by shift_lia.
    rewrite wr_app_here by done. rewrite !Z.shiftr_shiftr, !Z.shiftr_div_pow2 by lia. done.
  - change (Z.to_nat (Z.of_nat 4 - 1)) with 3%nat. change (Z.of_nat 4) with 4.
    destruct room as [|x [|y [|z [|w room]]]]; [simpl in Hroom; lia..|]. cbn [store_trailing opt_bind].
    change (x :: y :: z :: w :: room) with ([x; y] ++ z :: w :: room). rewrite (assoc_L (++)).
    rewrite wr_app_there by cf_lia. cbn [opt_bind].
    rewrite wr_app_here by cf_lia. cbn [opt_bind]. rewrite <- (assoc_L (++)). cbn [app].
    rewrite wr_app_there by cf_lia. cbn [opt_bind].
    change (rd firstByteMark 4) with (Some 0xF0). cbn [opt_bind].
    rewrite (lead_byte 4 _ _ eq_refl) by shift_lia.
    rewrite !trailing_byte by shift_lia.
    rewrite wr_app_here by done. rewrite !Z.shiftr_shiftr, !Z.shiftr_div_pow2 by lia. done.
Qed.

(** *** A run of characters in a destination *)

Lemma utf16_units c :
  code_point c -> 0x10000 <= c ->
  uwrap 16 (Z.shiftr (c - 0x10000) 10 + 0xD800) = 0xD800 + (c - 0x10000) / 0x400 /\
  uwrap 16 (Z.land (c - 0x10000) 0x3FF + 0xDC00) = 0xDC00 + (c - 0x10000) mod 0x400.
Proof.
  unfold code_point, uwrap. intros Hc Hb. change 0x3FF with (Z.ones 10).
  rewrite Z.land_ones, Z.shiftr_div_pow2 by lia. change (2 ^ 10) with 0x400. change (2 ^ 16) with 0x10000.
  rewrite (Z.mod_small (_ / _ + _)), (Z.mod_small (_ mod _ + _)) by (Z.to_euclidean_division_equations; lia). lia.
Qed.

Lemma fill_units_form F c :
  code_point c -> fill_units F c = (c, Z.of_nat (length (encoding_form F c))).
Proof.
  unfold code_point, fill_units, encoding_form, utf16, utf8. intros.
  destruct (F =? _); [|destruct (F =? _)]; bool_case; done.
Qed.

Lemma fill_store_form F c pre room :
  code_point c -> (length (encoding_form F c) <= length room)%nat ->
  fill_store F c (Z.of_nat (length (encoding_form F c))) (pre ++ room) (Z.of_nat (length pre)) =
    Some (pre ++ encoding_form F c ++ drop (length (encoding_form F c)) room).
Proof.
  intros Hc. unfold fill_store, encoding_form. destruct (F =? kCFUniCharUTF16Format); [|destruct (F =? kCFUniCharUTF8Format)].
  - unfold utf16. destruct (Z.ltb_spec c 0x10000); intros Hroom.
    + destruct (Z.ltb_spec 0xFFFF c); [lia|]. destruct room as [|x room]; [simpl in Hroom; lia|].
      rewrite wr_app_here by done. unfold uwrap. rewrite Z.mod_small by (unfold code_point in Hc; lia). done.
    + destruct (Z.ltb_spec 0xFFFF c); [|lia]. destruct room as [|x [|y room]]; [simpl in Hroom; lia..|].
      cbv zeta. destruct (utf16_units c Hc) as [-> ->]; [lia|].
      rewrite wr_app_here by done. cbn [opt_bind]. by rewrite wr_app_there.
  - by apply store_utf8_form.
  - intros Hroom. destruct room as [|x room]; [simpl in Hroom; lia|]. by rewrite wr_app_here.
Qed.

Definition encode (F : Z) (cs : list Z) : list Z := flat_map (encoding_form F) cs.

Lemma encode_app F l k : encode F (l ++ k) = encode F l ++ encode F k.
Proof. apply flat_map_app. Qed.

Lemma encode_cons F c l : encode F (c :: l) = encoding_form F c ++ encode F l.
Proof. done. Qed.

Lemma encoding_form_pos F c : (0 < length (encoding_form F c))%nat.
Proof.
  unfold encoding_form, utf16, utf8. repeat match goal with |- context [if ?b then _ else _] => destruct b end; simpl; lia.
Qed.

(** With room for all of them, the loop stores the encoding of the characters;
    with no buffer it only counts. *)
Lemma fill_loop_fits F cs spre srest pre room dstLength used :
  Forall code_point cs -> dstLength <> 0 ->
  used + Z.of_nat (length (encode F cs)) <= dstLength -> (length (encode F cs) <= length room)%nat ->
  fill_loop (length cs) (spre ++ cs ++ srest) (Z.of_nat (length spre)) (pre ++ room) (Z.of_nat (length pre))
    dstLength used F =
  Some (true, pre ++ encode F cs ++ drop (length (encode F cs)) room,
        Z.of_nat (length pre) + Z.of_nat (length (encode F cs)), used + Z.of_nat (length (encode F cs))).
Proof.
  intros Hcs Hd. revert spre pre room used.
  induction Hcs as [|c cs Hc Hcs IH]; intros spre pre room used Hu Hr.
  { simpl. rewrite drop_0. repeat f_equal; lia. }
  rewrite encode_cons, length_app in *. simpl length. cbn [fill_loop]. cbn [app].
  rewrite rd_app_here by done. cbn [opt_bind]. rewrite fill_units_form by done.
  destruct (Z.eqb_spec dstLength 0); [done|]. cbn [negb]. destruct (Z.ltb_spec dstLength (used + Z.of_nat (length (encoding_form F c)))); [lia|].
  rewrite fill_store_form by (done || lia). cbn [opt_bind].
  rewrite (cons_middle c spre), !(assoc_L (++)), <- (assoc_L (++) _ cs srest).
  replace (Z.of_nat (length spre) + 1) with (Z.of_nat (length (spre ++ [c]))) by cf_lia.
  replace (Z.of_nat (length pre) + Z.of_nat (length (encoding_form F c)))
    with (Z.of_nat (length (pre ++ encoding_form F c))) by cf_lia.
  rewrite IH by (rewrite ?length_drop; lia). rewrite drop_drop, <- !(assoc_L (++)), !length_app, !Nat2Z.inj_add, !Z.add_assoc. done.
Qed.

Lemma fill_loop_counts F cs spre srest dst at_ used :
  Forall code_point cs ->
  fill_loop (length cs) (spre ++ cs ++ srest) (Z.of_nat (length spre)) dst at_ 0 used F =
  Some (true, dst, at_, used + Z.of_nat (length (encode F cs))).
Proof.
  intros Hcs. revert spre used. induction Hcs as [|c cs Hc Hcs IH]; intros spre used; [simpl; repeat f_equal; lia|].
  rewrite encode_cons, length_app. simpl length. cbn [fill_loop app]. rewrite rd_app_here by done. cbn [opt_bind].
  rewrite fill_units_form by done. simpl (negb _). cbn iota.
  rewrite (cons_middle c spre), (assoc_L (++)).
  replace (Z.of_nat (length spre) + 1) with (Z.of_nat (length (spre ++ [c]))) by cf_lia.
  rewrite IH, Nat2Z.inj_add, Z.add_assoc. done.
Qed.

(** Without room for all, it stores some of them and fails. *)
Lemma fill_loop_fails F cs spre srest pre room dstLength used :
  Forall code_point cs -> dstLength <> 0 ->
  dstLength < used + Z.of_nat (length (encode F cs)) -> dstLength <= used + Z.of_nat (length room) ->
  used <= dstLength ->
  exists room' at' used', length room' = length room /\
  fill_loop (length cs) (spre ++ cs ++ srest) (Z.of_nat (length spre)) (pre ++ room) (Z.of_nat (length pre))
    dstLength used F = Some (false, pre ++ room', at', used').
Proof.
  intros Hcs Hd. revert spre pre room used.
  induction Hcs as [|c cs Hc Hcs IH]; intros spre pre room used Hu Hr Hle; [simpl in Hu; lia|].
  rewrite encode_cons, length_app in *. simpl length. cbn [fill_loop app].
  rewrite rd_app_here by done. cbn [opt_bind]. rewrite fill_units_form by done.
  destruct (Z.eqb_spec dstLength 0); [done|]. cbn [negb].
  destruct (Z.ltb_spec dstLength (used + Z.of_nat (length (encoding_form F c)))).
  { by eexists room, _, _. }
  rewrite fill_store_form by (done || lia). cbn [opt_bind].
  rewrite (cons_middle c spre), (assoc_L (++) spre).
  replace (Z.of_nat (length spre) + 1) with (Z.of_nat (length (spre ++ [c]))) by cf_lia.
  replace (Z.of_nat (length pre) + Z.of_nat (length (encoding_form F c)))
    with (Z.of_nat (length (pre ++ encoding_form F c))) by cf_lia.
  rewrite (assoc_L (++) pre).
  destruct (IH (spre ++ [c]) (pre ++ encoding_form F c) (drop (length (encoding_form F c)) room)
              (used + Z.of_nat (length (encoding_form F c)))) as (room' & at' & used' & Hl & ->); [try rewrite length_drop; lia..|].
  exists (encoding_form F c ++ room'), at', used'. split; [cf_lia|]. by rewrite (assoc_L (++)).
Qed.

(** A call: the three outcomes. *)
Lemma FillDestinationBuffer_fits F cs srest pre room dstLength filled :
  Forall code_point cs -> dstLength <> 0 ->
  filled + Z.of_nat (length (encode F cs)) <= dstLength -> (length (encode F cs) <= length room)%nat ->
  CFUniCharFillDestinationBuffer (cs ++ srest) (Z.of_nat (length cs)) (pre ++ room) (Z.of_nat (length pre))
    dstLength filled F =
  Some (true, pre ++ encode F cs ++ drop (length (encode F cs)) room,
        Z.of_nat (length pre) + Z.of_nat (length (encode F cs)), filled + Z.of_nat (length (encode F cs))).
Proof.
  intros. unfold CFUniCharFillDestinationBuffer. rewrite Nat2Z.id.
  pose proof (fill_loop_fits F cs [] srest pre room dstLength filled) as E. cbn [app length] in E. change (Z.of_nat 0) with 0 in E. by rewrite E.
Qed.

Lemma FillDestinationBuffer_counts F cs srest dst at_ filled :
  Forall code_point cs ->
  CFUniCharFillDestinationBuffer (cs ++ srest) (Z.of_nat (length cs)) dst at_ 0 filled F =
  Some (true, dst, at_, filled + Z.of_nat (length (encode F cs))).
Proof.
  intros. unfold CFUniCharFillDestinationBuffer. rewrite Nat2Z.id. 
  pose proof (fill_loop_counts F cs [] srest dst at_ filled) as E. cbn [app length] in E. change (Z.of_nat 0) with 0 in E. by rewrite E.
Qed.

Lemma FillDestinationBuffer_fails F cs srest pre room dstLength filled :
  Forall code_point cs -> dstLength <> 0 ->
  dstLength < filled + Z.of_nat (length (encode F cs)) -> dstLength <= filled + Z.of_nat (length room) ->
  filled <= dstLength ->
  exists room', length room' = length room /\
  CFUniCharFillDestinationBuffer (cs ++ srest) (Z.of_nat (length cs)) (pre ++ room) (Z.of_nat (length pre))
    dstLength filled F = Some (false, pre ++ room', Z.of_nat (length pre), filled).
Proof.
  intros. unfold CFUniCharFillDestinationBuffer. rewrite Nat2Z.id.
  destruct (fill_loop_fails F cs [] srest pre room dstLength filled) as (room' & at' & used' & Hl & E); [done..|].
  cbn [app length] in E. change (Z.of_nat 0) with 0 in E. rewrite E. exists room'. done.
Qed.

(** *** UTF-32 *)

Lemma lor_disjoint_add n a b : 0 <= n -> 0 <= b < 2 ^ n -> Z.lor (Z.shiftl a n) b = a * 2 ^ n + b.
Proof.
  intros Hn Hb. rewrite <- Z.shiftl_mul_pow2 by done.
  assert (Z.land (Z.shiftl a n) b = 0) as Hand.
  { apply Z.bits_inj'. intros k Hk. rewrite Z.land_spec, Z.bits_0, Z.shiftl_spec by done.
    destruct (Z.lt_ge_cases k n); [by rewrite Z.testbit_neg_r by lia|].
    rewrite <- (Z.mod_small b (2 ^ n)), Z.mod_pow2_bits_high by lia. apply andb_false_r. }
  by rewrite <- Z.lxor_lor, Z.add_nocarry_lxor.
Qed.

Lemma land_ff00 x : 0 <= x -> Z.land x 0xFF00 = x / 256 mod 256 * 256.
Proof.
  intros Hx. change 256 with (2 ^ 8). rewrite <- Z.shiftr_div_pow2, <- Z.land_ones, <- Z.shiftl_mul_pow2 by lia.
  change 0xFF00 with (Z.shiftl (Z.ones 8) 8). apply Z.bits_inj'. intros k Hk.
  rewrite Z.land_spec, !Z.shiftl_spec, Z.land_spec by done.
  destruct (Z.lt_ge_cases k 8); [rewrite !(Z.testbit_neg_r _ (k - 8)) by lia; apply andb_false_r|].
  rewrite Z.shiftr_spec by lia. by replace (k - 8 + 8) with k by lia.
Qed.

Lemma CFSwapInt32_bytes x :
  0 <= x < 2 ^ 32 ->
  CFSwapInt32 x = x mod 256 * 2 ^ 24 + (x / 256 mod 256 * 2 ^ 16 + (x / 2 ^ 16 mod 256 * 2 ^ 8 + x / 2 ^ 24 mod 256)).
Proof.
  intros Hx. unfold CFSwapInt32, uwrap. rewrite !land_ff00, !Z.shiftr_div_pow2 by (try apply Z.shiftr_nonneg; lia).
  change 0xFF with (Z.ones 8). rewrite !Z.land_ones by lia.
  replace (x / 256 mod 256 * 256) with (Z.shiftl (x / 256 mod 256) 8) by (rewrite Z.shiftl_mul_pow2 by lia; done).
  replace (x / 2 ^ 8 / 256 mod 256 * 256) with (Z.shiftl (x / 2 ^ 16 mod 256) 8)
    by (rewrite Z.div_div, Z.shiftl_mul_pow2 by lia; done).
  rewrite Z.shiftl_shiftl by lia. change (8 + 8) with 16. change (2 ^ 8) with 256.
  rewrite <- Z.lor_assoc.
  rewrite (lor_disjoint_add 8 (x / 2 ^ 16 mod 256)) by (try apply Z.mod_pos_bound; lia).
  rewrite (lor_disjoint_add 16) by (Z.to_euclidean_division_equations; lia).
  rewrite (lor_disjoint_add 24) by (Z.to_euclidean_division_equations; lia).
  rewrite Z.mod_small by (Z.to_euclidean_division_equations; lia). done.
Qed.

Lemma CFSwapInt32_digits a b c d :
  0 <= a < 256 -> 0 <= b < 256 -> 0 <= c < 256 -> 0 <= d < 256 ->
  CFSwapInt32 (a * 2 ^ 24 + (b * 2 ^ 16 + (c * 2 ^ 8 + d))) = d * 2 ^ 24 + (c * 2 ^ 16 + (b * 2 ^ 8 + a)).
Proof.
  intros. rewrite CFSwapInt32_bytes by lia. set (x := a * 2 ^ 24 + (b * 2 ^ 16 + (c * 2 ^ 8 + d))).
  assert (x mod 256 = d) as -> by (symmetry; apply Z.mod_unique with (a * 2 ^ 16 + b * 2 ^ 8 + c); unfold x; lia).
  assert (x / 256 = a * 2 ^ 16 + b * 2 ^ 8 + c) as -> by (symmetry; apply Z.div_unique with d; unfold x; lia).
  assert (x / 2 ^ 16 = a * 2 ^ 8 + b) as -> by (symmetry; apply Z.div_unique with (c * 2 ^ 8 + d); unfold x; lia).
  assert (x / 2 ^ 24 = a) as -> by (symmetry; apply Z.div_unique with (b * 2 ^ 16 + c * 2 ^ 8 + d); unfold x; lia).
  rewrite (Z.mod_small a), <- (Z.mod_unique (a * 2 ^ 8 + b) 256 a b),
    <- (Z.mod_unique (a * 2 ^ 16 + b * 2 ^ 8 + c) 256 (a * 2 ^ 8 + b) c) by lia. done.
Qed.

Lemma swap_to_involutive be x : 0 <= x < 2 ^ 32 -> swap_to be (swap_to be x) = x.
Proof.
  intros Hx. destruct be; simpl in *; [|done].
  rewrite (CFSwapInt32_bytes x), CFSwapInt32_digits by (done || apply Z.mod_pos_bound; lia).
  rewrite (Z.mod_small (x / 2 ^ 24)) by (split; [apply Z.div_pos; lia|apply Z.div_lt_upper_bound; lia]).
  pose proof (Z.div_mod x 256 ltac:(lia)). pose proof (Z.div_mod (x / 256) 256 ltac:(lia)) as E1.
  pose proof (Z.div_mod (x / 2 ^ 16) 256 ltac:(lia)) as E2. rewrite Z.div_div in E1, E2 by lia.
  change (256 * 256) with (2 ^ 16) in E1. change (2 ^ 16 * 256) with (2 ^ 24) in E2. lia.
Qed.

Lemma scalar_bmp_no_surrogate c :
  scalar c -> c < 0x10000 ->
  CFUniCharIsSurrogateHighCharacter c = false /\ CFUniCharIsSurrogateLowCharacter c = false.
Proof.
  unfold scalar, CFUniCharIsSurrogateHighCharacter, CFUniCharIsSurrogateLowCharacter. intros. split; bool_case; done.
Qed.

Lemma surrogate_pair c :
  code_point c -> 0x10000 <= c ->
  CFUniCharIsSurrogateHighCharacter (0xD800 + (c - 0x10000) / 0x400) = true /\
  CFUniCharIsSurrogateLowCharacter (0xDC00 + (c - 0x10000) mod 0x400) = true /\
  CFUniCharGetLongCharacterForSurrogatePair (0xD800 + (c - 0x10000) / 0x400) (0xDC00 + (c - 0x10000) mod 0x400) = c.
Proof.
  unfold code_point, CFUniCharIsSurrogateHighCharacter, CFUniCharIsSurrogateLowCharacter,
    CFUniCharGetLongCharacterForSurrogatePair. intros Hc Hb.
  rewrite Z.shiftl_mul_pow2 by lia. change (2 ^ 10) with 0x400.
  split_and!; [apply andb_true_iff; rewrite !Z.leb_le..|]; Z.to_euclidean_division_equations; lia.
Qed.

(** A character of UTF-16 at the front of what is left, as the loops read it. *)
Lemma utf16_cases c :
  scalar c ->
  (c < 0x10000 /\ utf16 c = [c] /\ CFUniCharIsSurrogateHighCharacter c = false /\
   CFUniCharIsSurrogateLowCharacter c = false) \/
  (exists h l, 0x10000 <= c /\ utf16 c = [h; l] /\ CFUniCharIsSurrogateHighCharacter h = true /\
   CFUniCharIsSurrogateLowCharacter l = true /\ CFUniCharGetLongCharacterForSurrogatePair h l = c /\
   uwrap 16 (Z.shiftr (c - 0x10000) 10 + 0xD800) = h /\ uwrap 16 (Z.land (c - 0x10000) 0x3FF + 0xDC00) = l).
Proof.
  intros Hc. unfold utf16. destruct (Z.ltb_spec c 0x10000).
  - left. destruct (scalar_bmp_no_surrogate c Hc H). done.
  - right. do 2 eexists. destruct (surrogate_pair c) as (? & ? & ?); [auto..|].
    destruct (utf16_units c) as [-> ->]; [auto..|]. done.
Qed.

Notation encode16 := (encode kCFUniCharUTF16Format).

Lemma encode16_cons c l : encode16 (c :: l) = utf16 c ++ encode16 l.
Proof. done. Qed.

Lemma length_encode16_le cs : (length cs <= length (encode16 cs))%nat.
Proof.
  induction cs as [|c cs IH]; [done|]. rewrite encode16_cons, length_app. pose proof (encoding_form_pos kCFUniCharUTF16Format c).
  change (encoding_form kCFUniCharUTF16Format c) with (utf16 c) in *. simpl. lia.
Qed.

Lemma to_utf32_loop_ok cs fuel spre srest dpre room lossy be :
  Forall scalar cs -> (length (encode16 cs) <= fuel)%nat -> (length cs <= length room)%nat ->
  to_utf32_loop fuel (spre ++ encode16 cs ++ srest) (Z.of_nat (length spre))
    (Z.of_nat (length spre) + Z.of_nat (length (encode16 cs)))
    (dpre ++ room) (Z.of_nat (length dpre)) lossy be =
  Some (true, dpre ++ (swap_to be <$> cs) ++ drop (length cs) room).
Proof.
  intros Hcs. revert fuel spre dpre room. induction Hcs as [|c cs Hc Hcs IH]; intros fuel spre dpre room Hf Hr.
  { simpl length. rewrite Z.add_0_r. destruct fuel; simpl; rewrite Z.ltb_irrefl, drop_0; done. }
  destruct room as [|x room]; [simpl in Hr; lia|]. rewrite encode16_cons, length_app in *.
  destruct (utf16_cases c Hc) as [(Hb & Eu & Eh & El)|(h & l & Hb & Eu & Eh & El & Ec & _ & _)];
    rewrite Eu in *; simpl length in *; (destruct fuel as [|fuel]; [lia|]); cbn [to_utf32_loop app];
    (match goal with |- context [?a <? ?b] => destruct (Z.ltb_spec a b); [|lia] end);
    rewrite rd_app_here by done; cbn [opt_bind]; rewrite Eh; cbn [opt_bind].
  - rewrite El. cbn [opt_bind]. rewrite wr_app_here by done. cbn [opt_bind].
    rewrite (cons_middle c spre), (cons_middle _ dpre), !(assoc_L (++) _ [_]).
    specialize (IH fuel (spre ++ [c]) (dpre ++ [swap_to be c]) room). rewrite !length_app in IH. simpl length in IH.
    replace (Z.of_nat (length spre) + 1) with (Z.of_nat (length spre + 1)) by lia.
    replace (Z.of_nat (length dpre) + 1) with (Z.of_nat (length dpre + 1)) by lia.
    replace (Z.of_nat (length spre) + Z.of_nat (1 + length (encode16 cs)))
      with (Z.of_nat (length spre + 1) + Z.of_nat (length (encode16 cs))) by lia.
    rewrite IH by (simpl in Hr; lia). by rewrite <- (assoc_L (++)).
  - match goal with |- context [?a <? ?b] => destruct (Z.ltb_spec a b); [|lia] end.
    assert (rd (spre ++ h :: l :: encode16 cs ++ srest) (Z.of_nat (length spre) + 1) = Some l) as ->.
    { rewrite (cons_middle h spre), (assoc_L (++)). apply rd_app_here. cf_lia. }
    cbn [opt_bind]. rewrite El, Ec. cbn [opt_bind]. rewrite wr_app_here by done. cbn [opt_bind].
    rewrite (cons_middle _ dpre), (assoc_L (++) dpre).
    change (h :: l :: encode16 cs ++ srest) with ([h; l] ++ (encode16 cs ++ srest)). rewrite (assoc_L (++) spre).
    specialize (IH fuel (spre ++ [h; l]) (dpre ++ [swap_to be c]) room). rewrite !length_app in IH. simpl length in IH.
    replace (Z.of_nat (length spre) + 1 + 1) with (Z.of_nat (length spre + 2)) by lia.
    replace (Z.of_nat (length dpre) + 1) with (Z.of_nat (length dpre + 1)) by lia.
    replace (Z.of_nat (length spre) + Z.of_nat (2 + length (encode16 cs)))
      with (Z.of_nat (length spre + 2) + Z.of_nat (length (encode16 cs))) by lia.
    rewrite IH by (simpl in Hr; lia). by rewrite <- (assoc_L (++)).
Qed.

Lemma from_utf32_loop_ok cs fuel spre srest dpre room lossy be :
  Forall scalar cs -> (length cs <= fuel)%nat -> (length (encode16 cs) <= length room)%nat ->
  from_utf32_loop fuel (spre ++ (swap_to be <$> cs) ++ srest) (Z.of_nat (length spre))
    (Z.of_nat (length spre) + Z.of_nat (length cs))
    (dpre ++ room) (Z.of_nat (length dpre)) lossy be =
  Some (true, dpre ++ encode16 cs ++ drop (length (encode16 cs)) room).
Proof.
  intros Hcs. revert fuel spre dpre room. induction Hcs as [|c cs Hc Hcs IH]; intros fuel spre dpre room Hf Hr.
  { simpl length. rewrite Z.add_0_r. destruct fuel; simpl; rewrite Z.ltb_irrefl, drop_0; done. }
  destruct fuel as [|fuel]; [simpl in Hf; lia|]. rewrite encode16_cons, length_app in *. cbn [from_utf32_loop fmap list_fmap app].
  destruct (Z.ltb_spec (Z.of_nat (length spre)) (Z.of_nat (length spre) + Z.of_nat (length (c :: cs)))); [|simpl length in *; lia].
  rewrite rd_app_here by done. cbn [opt_bind].
  rewrite swap_to_involutive by (apply scalar_code_point in Hc; unfold code_point in Hc; lia).
  specialize (IH fuel (spre ++ [swap_to be c])). rewrite length_app in IH. simpl length in *.
  rewrite (cons_middle _ spre), (assoc_L (++) spre).
  replace (Z.of_nat (length spre) + 1) with (Z.of_nat (length spre + 1)) by lia.
  replace (Z.of_nat (length spre) + Z.of_nat (S (length cs)))
    with (Z.of_nat (length spre + 1) + Z.of_nat (length cs)) by lia.
  destruct (utf16_cases c Hc) as [(Hb & Eu & Eh & El)|(h & l & Hb & Eu & Eh & El & Ec & Eu1 & Eu2)]; rewrite Eu in *.
  - destruct (Z.ltb_spec c 0x10000); [|lia]. rewrite Eh, El. cbn [orb].
    destruct room as [|x room]; [simpl in Hr; lia|].
    assert (uwrap 16 c = c) as Ew by (apply uwrap_id; unfold in_unsigned, scalar in *; lia).
    destruct lossy; cbn [opt_bind]; rewrite Ew, wr_app_here by done; cbn [opt_bind];
      rewrite (cons_middle _ dpre), (assoc_L (++) dpre); specialize (IH (dpre ++ [c]) room); rewrite length_app in IH;
      simpl length in IH; replace (Z.of_nat (length dpre) + 1) with (Z.of_nat (length dpre + 1)) by lia;
      rewrite IH by (simpl in Hr; lia); by rewrite <- (assoc_L (++)).
  - destruct (Z.ltb_spec c 0x10000); [lia|]. destruct (Z.ltb_spec c 0x110000); [|unfold scalar in Hc; lia].
    destruct room as [|x [|y room]]; [simpl in Hr; lia..|]. cbv zeta. rewrite Eu1, Eu2.
    rewrite wr_app_here by done. cbn [opt_bind].
    assert (uwrap 16 l = l) as ->.
    { apply uwrap_id. unfold CFUniCharIsSurrogateLowCharacter in El. apply andb_true_iff in El. unfold in_unsigned. lia. }
    rewrite wr_app_there by done. cbn [opt_bind].
    change (h :: l :: room) with ([h; l] ++ room). rewrite (assoc_L (++) dpre).
    specialize (IH (dpre ++ [h; l]) room). rewrite length_app in IH. simpl length in IH.
    replace (Z.of_nat (length dpre) + 1 + 1) with (Z.of_nat (length dpre + 2)) by lia.
    rewrite IH by (simpl in Hr; lia). by rewrite <- (assoc_L (++)).
Qed.

(** ** Bitmaps as sets

    [holds bm P]: the first 8192 bytes of [bm] are the bitmap of the characters
    [x] of a plane with [P x]. *)

Definition holds (bm : list Z) (P : Z -> bool) : Prop :=
  8192 <= Z.of_nat (length bm) /\
  forall x, 0 <= x < 0x10000 -> CFUniCharIsMemberOfBitmap x (Some bm) = Some (P x).

Lemma test_one_bit b k : 0 <= k -> negb (Z.land b (Z.shiftl 1 k) =? 0) = Z.testbit b k.
Proof.
  intros Hk. rewrite Z.shiftl_1_l. destruct (Z.testbit b k) eqn:E.
  - destruct (Z.eqb_spec (Z.land b (2 ^ k)) 0) as [H|]; [|done].
    assert (Z.testbit (Z.land b (2 ^ k)) k = false) as F by (rewrite H; apply Z.bits_0).
    rewrite Z.land_spec, Z.pow2_bits_true, E in F by done. done.
  - destruct (Z.eqb_spec (Z.land b (2 ^ k)) 0) as [|H]; [done|]. contradict H. apply Z.bits_inj'. intros j Hj.
    rewrite Z.land_spec, Z.bits_0, Z.pow2_bits_eqb by done. destruct (Z.eqb_spec k j) as [->|]; [by rewrite E|].
    apply andb_false_r.
Qed.

(** The byte of a character, its bit, and the character they are of. *)
Lemma member_spec x bm :
  0 <= x < 0x10000 ->
  CFUniCharIsMemberOfBitmap x (Some bm) = (let* b := rd bm (x / 8) in Some (Z.testbit b (x mod 8))).
Proof.
  intros Hx. unfold CFUniCharIsMemberOfBitmap. rewrite uwrap_id by (unfold in_unsigned; lia).
  rewrite Z.shiftr_div_pow2 by lia. change 7 with (Z.ones 3). rewrite Z.land_ones by lia.
  change (2 ^ 3) with 8. destruct (rd bm (x / 8)); simpl; [|done].
  rewrite test_one_bit; [done|]. pose proof (Z.mod_pos_bound x 8). lia.
Qed.

Lemma holds_intro bm P :
  8192 <= Z.of_nat (length bm) ->
  (forall i b k, 0 <= i < 8192 -> rd bm i = Some b -> 0 <= k < 8 -> Z.testbit b k = P (8 * i + k)) -> holds bm P.
Proof.
  intros Hl H. split; [done|]. intros x Hx. rewrite member_spec by done.
  assert (0 <= x / 8 < 8192 /\ 0 <= x mod 8 < 8) as [Hi Hk] by (Z.to_euclidean_division_equations; lia).
  destruct (rd_Some bm (x / 8)) as [b Hb]; [lia|]. rewrite Hb. simpl. f_equal.
  rewrite (H _ _ _ Hi Hb Hk). f_equal. Z.to_euclidean_division_equations; lia.
Qed.

Lemma holds_elim bm P i b k :
  holds bm P -> 0 <= i < 8192 -> rd bm i = Some b -> 0 <= k < 8 -> Z.testbit b k = P (8 * i + k).
Proof.
  intros [Hl H] Hi Hb Hk. specialize (H (8 * i + k) ltac:(lia)). rewrite member_spec in H by lia.
  assert ((8 * i + k) / 8 = i /\ (8 * i + k) mod 8 = k) as [E1 E2] by (Z.to_euclidean_division_equations; lia).
  rewrite E1, E2, Hb in H. simpl in H. congruence.
Qed.

Lemma holds_ext bm P Q : holds bm P -> (forall x, 0 <= x < 0x10000 -> P x = Q x) -> holds bm Q.
Proof. intros [Hl H] E. split; [done|]. intros x Hx. rewrite H by done. by rewrite E. Qed.

(** Storing a byte in the place of character [c]'s byte. *)
Lemma holds_store bm P c f :
  holds bm P -> 0 <= c < 0x10000 ->
  exists b bm', rd bm (c / 8) = Some b /\ wr bm (c / 8) (f b) = Some bm' /\ length bm' = length bm /\
  forall i k b', 0 <= i < 8192 -> 0 <= k < 8 -> rd bm' i = Some b' ->
    Z.testbit b' k = if i =? c / 8 then Z.testbit (f b) k else P (8 * i + k).
Proof.
  intros H Hc. assert (0 <= c / 8 < 8192) as Hi by (Z.to_euclidean_division_equations; lia).
  destruct (rd_Some bm (c / 8)) as [b Hb]; [destruct H; lia|].
  destruct (wr_rd bm (c / 8) (f b)) as (bm' & Hw & Hl & Hr); [destruct H; lia|].
  exists b, bm'. split_and!; [done..|]. intros i k b' Hi' Hk E. rewrite Hr in E by lia.
  destruct (Z.eqb_spec i (c / 8)); [by injection E as <-|]. by apply (holds_elim bm P).
Qed.

Lemma mark_holds inv cs bm P :
  holds bm P -> Forall (fun c => 0 <= c < 0x10000) cs ->
  exists bm', mark_characters inv cs bm = Some bm' /\ length bm' = length bm /\
  holds bm' (fun x => if inv then P x && negb (existsb (Z.eqb x) cs) else P x || existsb (Z.eqb x) cs).
Proof.
  intros H Hcs. revert bm P H. induction Hcs as [|c cs Hc Hcs IH]; intros bm P H.
  { exists bm. split_and!; [done..|]. apply (holds_ext _ _ _ H). intros. destruct inv; simpl.
    - by rewrite andb_true_r. - by rewrite orb_false_r. }
  set (f := fun b => if inv then uwrap 8 (Z.land b (Z.lnot (Z.shiftl 1 (c mod 8)))) else Z.lor b (Z.shiftl 1 (c mod 8))).
  assert (0 <= c mod 8 < 8) as Hm by (apply Z.mod_pos_bound; lia).
  assert (forall b k, 0 <= k < 8 -> Z.testbit (f b) k =
    if inv then Z.testbit b k && negb (k =? c mod 8) else Z.testbit b k || (k =? c mod 8)) as Hf.
  { intros b k Hk. unfold f, uwrap. rewrite Z.shiftl_1_l. destruct inv.
    - rewrite Z.mod_pow2_bits_low, Z.land_spec, Z.lnot_spec, Z.pow2_bits_eqb by lia. by rewrite Z.eqb_sym.
    - rewrite Z.lor_spec, Z.pow2_bits_eqb by lia. by rewrite Z.eqb_sym. }
  destruct (holds_store bm P c f H Hc) as (b & bm1 & Hb & Hw & Hl1 & Hbits).
  assert ((if inv then CFUniCharRemoveCharacterFromBitmap c bm else CFUniCharAddCharacterToBitmap c bm) = Some bm1) as E.
  { unfold CFUniCharRemoveCharacterFromBitmap, CFUniCharAddCharacterToBitmap. rewrite uwrap_id by (unfold in_unsigned; lia).
    rewrite Z.shiftr_div_pow2 by lia. change 7 with (Z.ones 3). rewrite Z.land_ones by lia. change (2 ^ 3) with 8.
    destruct inv; rewrite Hb; exact Hw. }
  destruct (IH bm1 (fun x => if inv then P x && negb (x =? c) else P x || (x =? c))) as (bm2 & E2 & Hl2 & H2).
  { apply holds_intro; [destruct H; lia|]. intros i b' k Hi Hr Hk. rewrite (Hbits i k b' Hi Hk Hr).
    destruct (Z.eqb_spec i (c / 8)) as [->|Hne].
    - rewrite Hf by done. rewrite (holds_elim bm P (c / 8) b k H) by done.
      assert ((k =? c mod 8) = (8 * (c / 8) + k =? c)) as -> by (apply eq_bool_prop_intro; rewrite !Is_true_true, !Z.eqb_eq; Z.to_euclidean_division_equations; lia).
      done.
    - assert ((8 * i + k =? c) = false) as -> by (apply Z.eqb_neq; Z.to_euclidean_division_equations; lia).
      simpl. by rewrite andb_true_r, orb_false_r; destruct inv. }
  exists bm2. cbn [mark_characters]. rewrite E. cbn [opt_bind]. split_and!; [done|lia|].
  apply (holds_ext _ _ _ H2). intros x Hx. cbn [existsb]. destruct inv.
  - rewrite negb_orb. by rewrite andb_assoc.
  - by rewrite orb_assoc.
Qed.

Lemma copy_bytes_rd n f src bm at_ :
  0 <= at_ -> at_ + Z.of_nat n <= Z.of_nat (length src) -> at_ + Z.of_nat n <= Z.of_nat (length bm) ->
  exists bm', copy_bytes n f src bm at_ = Some bm' /\ length bm' = length bm /\
  forall i, 0 <= i -> rd bm' i =
    if (at_ <=? i) && (i <? at_ + Z.of_nat n) then f <$> rd src i else rd bm i.
Proof.
  revert bm at_. induction n as [|n IH]; intros bm at_ Ha Hs Hb.
  { exists bm. split_and!; [done..|]. intros i Hi. bool_case; done. }
  destruct (rd_Some src at_) as [b Eb]; [lia|]. destruct (wr_rd bm at_ (f b)) as (bm1 & Ew & Hl1 & Hr1); [lia|].
  destruct (IH bm1 (at_ + 1)) as (bm2 & E2 & Hl2 & Hr2); [lia..|].
  exists bm2. cbn [copy_bytes]. rewrite Eb. cbn [opt_bind]. rewrite Ew. cbn [opt_bind]. split_and!; [done|lia|].
  intros i Hi. rewrite Hr2, Hr1 by done. destruct (Z.eqb_spec i at_) as [->|Hne].
  - rewrite Eb. bool_case; done.
  - bool_case; done.
Qed.

Lemma fill_bytes_rd n f bm at_ :
  0 <= at_ -> at_ + Z.of_nat n <= Z.of_nat (length bm) ->
  exists bm', fill_bytes n f bm at_ = Some bm' /\ length bm' = length bm /\
  forall i, 0 <= i -> rd bm' i = if (at_ <=? i) && (i <? at_ + Z.of_nat n) then Some (f i) else rd bm i.
Proof.
  revert bm at_. induction n as [|n IH]; intros bm at_ Ha Hb.
  { exists bm. split_and!; [done..|]. intros i Hi. bool_case; done. }
  destruct (wr_rd bm at_ (f at_)) as (bm1 & Ew & Hl1 & Hr1); [lia|].
  destruct (IH bm1 (at_ + 1)) as (bm2 & E2 & Hl2 & Hr2); [lia..|].
  exists bm2. cbn [fill_bytes]. rewrite Ew. cbn [opt_bind]. split_and!; [done|lia|].
  intros i Hi. rewrite Hr2, Hr1 by done. destruct (Z.eqb_spec i at_) as [->|Hne]; bool_case; done.
Qed.

Definition plane_bytes : nat := Z.to_nat (8 * 1024).

Lemma plane_bytes_Z : Z.of_nat plane_bytes = 8192.
Proof. done. Qed.

Lemma copy_holds (inv : bool) (src bm : list Z) P :
  holds src P -> 8192 <= Z.of_nat (length bm) ->
  exists bm', copy_bytes plane_bytes (if inv then not8 else (fun b : Z => b)) src bm 0 = Some bm' /\
    length bm' = length bm /\ holds bm' (fun x => xorb inv (P x)).
Proof.
  intros H Hb. destruct (copy_bytes_rd plane_bytes (if inv then not8 else (fun b : Z => b)) src bm 0) as (bm' & E & Hl & Hr);
    [rewrite ?plane_bytes_Z; destruct H; lia..|].
  exists bm'. split_and!; [done..|]. apply holds_intro; [lia|]. intros i b k Hi E' Hk. rewrite Hr, plane_bytes_Z in E' by lia.
  destruct (Z.leb_spec 0 i), (Z.ltb_spec i (0 + 8192)); try lia. cbn [andb] in E'.
  apply fmap_Some in E' as (b0 & E0 & ->). rewrite <- (holds_elim src P i b0 k) by done. destruct inv; [|by destruct (Z.testbit b0 k)].
  unfold not8, uwrap. rewrite Z.mod_pow2_bits_low, Z.lnot_spec by lia. by destruct (Z.testbit b0 k).
Qed.

Lemma fill_holds (v : bool) bm :
  8192 <= Z.of_nat (length bm) ->
  exists bm', fill_bytes plane_bytes (fun _ => if v then 0xFF else 0) bm 0 = Some bm' /\
    length bm' = length bm /\ holds bm' (fun _ => v).
Proof.
  intros Hb. destruct (fill_bytes_rd plane_bytes (fun _ => if v then 0xFF else 0) bm 0) as (bm' & E & Hl & Hr);
    [rewrite ?plane_bytes_Z; lia..|].
  exists bm'. split_and!; [done..|]. apply holds_intro; [lia|]. intros i b k Hi E' Hk. rewrite Hr, plane_bytes_Z in E' by lia.
  destruct (Z.leb_spec 0 i), (Z.ltb_spec i (0 + 8192)); try lia. injection E' as <-. destruct v; [|apply Z.bits_0].
  change 0xFF with (Z.ones 8). by rewrite Z.ones_spec_low.
Qed.

(** The tables as the loader leaves them. *)
Definition bitmap_data_ok (data : __CFUniCharBitmapData) : Prop :=
  _numPlanes data = Z.of_nat (length (_planes data)) /\
  Forall (fun p => match p with Some bytes => 8192 <= Z.of_nat (length bytes) | None => True end) (_planes data).

Definition tables_ok (T : unichar_tables) : Prop := Forall bitmap_data_ok (__CFUniCharBitmapDataArray T).

(** The set a plane of a table stands for: no bitmap, no character. *)
Lemma bytes_hold bytes :
  8192 <= Z.of_nat (length bytes) ->
  holds bytes (fun x => default false (CFUniCharIsMemberOfBitmap x (Some bytes))).
Proof.
  intros Hl. split; [done|]. intros x Hx. rewrite member_spec by done.
  destruct (rd_Some bytes (x / 8)) as [b Hb]; [Z.to_euclidean_division_equations; lia|]. by rewrite Hb.
Qed.

Lemma member_low x y bm : y mod 0x10000 = x -> CFUniCharIsMemberOfBitmap y bm = CFUniCharIsMemberOfBitmap x bm.
Proof.
  intros <-. unfold CFUniCharIsMemberOfBitmap. destruct bm; [|done]. unfold uwrap. change (2 ^ 16) with 0x10000.
  by rewrite Z.mod_mod.
Qed.

(** Reading a plane of a well-formed entry. *)
Lemma plane_lookup data plane :
  bitmap_data_ok data -> 0 <= plane ->
  (exists bytes, (if plane <? _numPlanes data then rd (_planes data) plane else Some None) = Some (Some bytes) /\
     8192 <= Z.of_nat (length bytes)) \/
  (if plane <? _numPlanes data then rd (_planes data) plane else Some None) = Some None.
Proof.
  intros [Hn Hp] H0. destruct (Z.ltb_spec plane (_numPlanes data)); [|by right].
  destruct (rd_Some (_planes data) plane) as [[bytes|] E]; [lia| |by right].
  left. exists bytes. split; [done|]. apply rd_inv in E as [_ E]. by apply (Forall_lookup_1 _ _ _ _ Hp E).
Qed.

Lemma plane_member_spec data plane theChar other f :
  bitmap_data_ok data -> 0 <= plane ->
  plane_member data plane theChar other f =
    match (if plane <? _numPlanes data then rd (_planes data) plane else Some None) with
    | Some (Some bytes) => let* m := CFUniCharIsMemberOfBitmap theChar (Some bytes) in Some (f m)
    | _ => Some other
    end.
Proof.
  intros Hd Hp. unfold plane_member. destruct (Z.ltb_spec plane (_numPlanes data)); [|done].
  destruct (rd_Some (_planes data) plane) as [p E]; [destruct Hd; lia|]. rewrite E. by destruct p.
Qed.

(** What a caller of [CFUniCharGetBitmapForPlane] takes the answer to be. *)
Definition bitmap_answer (code : Z) (bitmap : list Z) (x : Z) : option bool :=
  if code =? kCFUniCharBitmapFilled then CFUniCharIsMemberOfBitmap x (Some bitmap)
  else Some (code =? kCFUniCharBitmapAll).

Lemma answer_filled bm P x : holds bm P -> 0 <= x < 0x10000 -> bitmap_answer kCFUniCharBitmapFilled bm x = Some (P x).
Proof. intros [_ H] Hx. apply (H x Hx). Qed.

Lemma answer_constant (inv : bool) bm x :
  bitmap_answer (if inv then kCFUniCharBitmapAll else kCFUniCharBitmapEmpty) bm x = Some (xorb inv false).
Proof. by destruct inv. Qed.

Lemma spaces_members x :
  isWhitespace x = existsb (Z.eqb x) spaces || existsb (Z.eqb x) general_punctuation_spaces.
Proof.
  apply eq_true_iff_eq. unfold isWhitespace, spaces.
  let l := eval vm_compute in general_punctuation_spaces in change general_punctuation_spaces with l.
  cbn [existsb]. rewrite !orb_true_iff, !andb_true_iff, !Z.eqb_eq, !Z.leb_le. lia.
Qed.

Lemma newlines_members x : isNewline x = existsb (Z.eqb x) newlines.
Proof.
  apply eq_true_iff_eq. unfold isNewline, newlines. cbn [existsb].
  rewrite !orb_true_iff, !andb_true_iff, !Z.eqb_eq, !Z.leb_le. lia.
Qed.

Lemma beyond_bmp_not_space c : 0x10000 <= c -> isWhitespace c = false /\ isNewline c = false.
Proof.
  intros. split; apply not_true_iff_false; unfold isWhitespace, isNewline;
    rewrite !orb_true_iff, !andb_true_iff, !Z.eqb_eq, !Z.leb_le; lia.
Qed.

Lemma marked (inv : bool) cs bm (P : Z -> bool) :
  holds bm (fun x => xorb inv (P x)) -> Forall (fun c => 0 <= c < 0x10000) cs ->
  exists bm', mark_characters inv cs bm = Some bm' /\ length bm' = length bm /\
  holds bm' (fun x => xorb inv (P x || existsb (Z.eqb x) cs)).
Proof.
  intros H Hcs. destruct (mark_holds inv cs bm _ H Hcs) as (bm' & E & Hl & H'). exists bm'. split_and!; [done..|].
  apply (holds_ext _ _ _ H'). intros x Hx. cbn beta. by destruct inv, (P x), (existsb (Z.eqb x) cs).
Qed.

Ltac bmp_list :=
  let l' := match goal with |- Forall _ ?l => eval vm_compute in l end in
  match goal with |- Forall _ ?l => change l with l' end;
  repeat (apply Forall_cons_2; [lia|]); apply Forall_nil_2.

Section Agreement.
Context (T : unichar_tables) (HT : tables_ok T).

(** The three sets that are written out in the code. *)
Lemma built_in_bitmap charset plane bm (inv : bool) :
  charset = kCFUniCharWhitespaceCharacterSet \/ charset = kCFUniCharWhitespaceAndNewlineCharacterSet \/
  charset = kCFUniCharNewlineCharacterSet ->
  0 <= plane -> 8192 <= Z.of_nat (length bm) ->
  exists code bm', CFUniCharGetBitmapForPlane T charset plane bm inv = Some (code, bm') /\ length bm' = length bm /\
  forall x, 0 <= x < 0x10000 -> exists m,
    CFUniCharIsMemberOf T (plane * 0x10000 + x) charset = Some m /\ bitmap_answer code bm' x = Some (xorb inv m).
Proof.
  intros Hset Hp Hb.
  set (P := fun c => if charset =? kCFUniCharNewlineCharacterSet then isNewline c
                     else isWhitespace c || ((charset =? kCFUniCharWhitespaceAndNewlineCharacterSet) && isNewline c)).
  assert (forall c, CFUniCharIsMemberOf T c charset = Some (P c)) as Hm.
  { intros c. unfold P. destruct Hset as [->|[->| ->]]; simpl; [by rewrite orb_false_r|done|done]. }
  unfold CFUniCharGetBitmapForPlane. fold plane_bytes.
  assert (CFUniCharGetBitmapPtrForPlane T charset plane = Some None) as -> by (by destruct Hset as [->|[->| ->]]).
  cbn [opt_bind]. assert (charset =? kCFUniCharIllegalCharacterSet = false) as -> by (by destruct Hset as [->|[->| ->]]).
  assert ((charset <? kCFUniCharDecimalDigitCharacterSet) || (charset =? kCFUniCharNewlineCharacterSet) = true) as ->
    by (by destruct Hset as [->|[->| ->]]).
  destruct (Z.eqb_spec plane 0) as [->|Hne]; cbn [negb].
  2: { do 2 eexists. split_and!; [done..|]. intros x Hx. exists false. rewrite Hm. split; [|apply answer_constant].
       f_equal. unfold P. destruct (beyond_bmp_not_space (plane * 0x10000 + x)) as [-> ->]; [nia|].
       rewrite andb_false_r. by destruct (_ =? _). }
  destruct (fill_holds inv bm Hb) as (bm0 & -> & Hl0 & H0). cbn [opt_bind].
  destruct (marked inv (if (charset =? kCFUniCharWhitespaceAndNewlineCharacterSet) || (charset =? kCFUniCharNewlineCharacterSet)
      then newlines else []) bm0 (fun _ => false)) as (bm1 & E1 & Hl1 & H1).
  { apply (holds_ext _ _ _ H0). by destruct inv. }
  { destruct (_ || _); bmp_list. }
  assert ((if (charset =? kCFUniCharWhitespaceAndNewlineCharacterSet) || (charset =? kCFUniCharNewlineCharacterSet)
    then mark_characters inv newlines bm0 else Some bm0) = Some bm1) as -> by (by destruct (_ || _)).
  cbn [opt_bind]. destruct (charset =? kCFUniCharNewlineCharacterSet) eqn:En.
  { do 2 eexists. split_and!; [done|lia|]. intros x Hx. exists (P x). rewrite Hm. split; [f_equal; f_equal; lia|].
    rewrite (answer_filled _ _ _ H1 Hx). unfold P. by rewrite orb_true_r, newlines_members. }
  destruct (marked inv spaces bm1 _ H1) as (bm2 & -> & Hl2 & H2); [bmp_list|]. cbn [opt_bind].
  destruct (marked inv general_punctuation_spaces bm2 _ H2) as (bm3 & -> & Hl3 & H3); [bmp_list|]. cbn [opt_bind].
  do 2 eexists. split_and!; [done|lia|]. intros x Hx. exists (P x). rewrite Hm. split; [f_equal; f_equal; lia|].
  rewrite (answer_filled _ _ _ H3 Hx). unfold P. rewrite orb_false_r, spaces_members, newlines_members.
  f_equal. f_equal. destruct (charset =? kCFUniCharWhitespaceAndNewlineCharacterSet); cbn [orb andb existsb];
    destruct (existsb (Z.eqb x) newlines), (existsb (Z.eqb x) spaces), (existsb (Z.eqb x) general_punctuation_spaces); done.
Qed.

(** The sets that are kept as bitmaps. *)
Lemma table_bitmap charset plane bm (inv : bool) :
  2 <= charset < 2 ^ 32 -> charset <> kCFUniCharWhitespaceCharacterSet ->
  charset <> kCFUniCharWhitespaceAndNewlineCharacterSet -> charset <> kCFUniCharNewlineCharacterSet ->
  charset <> kCFUniCharIllegalCharacterSet ->
  (__CFUniCharMapCompatibilitySetID charset = kCFUniCharControlAndFormatterCharacterSet -> plane <> 0x0E) ->
  0 <= plane < 256 -> 8192 <= Z.of_nat (length bm) ->
  exists code bm', CFUniCharGetBitmapForPlane T charset plane bm inv = Some (code, bm') /\ length bm' = length bm /\
  forall x, 0 <= x < 0x10000 -> exists m,
    CFUniCharIsMemberOf T (plane * 0x10000 + x) charset = Some m /\ bitmap_answer code bm' x = Some (xorb inv m).
Proof.
  intros Hc H2 H3 H15 H12 H14 Hp Hb.
  unfold CFUniCharGetBitmapForPlane, CFUniCharGetBitmapPtrForPlane, CFUniCharIsMemberOf. fold plane_bytes.
  set (cset := __CFUniCharMapCompatibilitySetID charset) in *.
  assert (cset = charset \/ 100 < cset) as Hcs.
  { unfold cset, __CFUniCharMapCompatibilitySetID, kCFUniCharControlCharacterSet, kCFUniCharLastExternalSet,
      kCFUniCharFirstInternalSet, kCFUniCharNewlineCharacterSet, kCFUniCharCompatibilityDecomposableCharacterSet in *.
    destruct (Z.eqb_spec charset 1); [lia|]. destruct (Z.ltb_spec 15 charset), (Z.ltb_spec charset 100); cbn [andb]; lia. }
  unfold kCFUniCharWhitespaceCharacterSet, kCFUniCharWhitespaceAndNewlineCharacterSet, kCFUniCharNewlineCharacterSet,
    kCFUniCharIllegalCharacterSet, kCFUniCharDecimalDigitCharacterSet in *.
  assert (cset =? 2 = false) as -> by lia. assert (cset =? 3 = false) as -> by lia.
  assert (cset =? 15 = false) as -> by lia. assert (cset =? 12 = false) as -> by lia.
  assert (3 <? cset = true) as -> by lia. assert (charset =? 12 = false) as -> by lia.
  assert ((charset <? 4) || (charset =? 15) = false) as -> by lia. cbn [negb andb opt_bind].
  assert (forall x, 0 <= x < 0x10000 -> Z.land (Z.shiftr (plane * 0x10000 + x) 16) 0xFF = plane) as Hplane.
  { intros x Hx. rewrite Z.shiftr_div_pow2 by lia. change 0xFF with (Z.ones 8). rewrite Z.land_ones by lia.
    change (2 ^ 16) with 0x10000. rewrite Z.div_add_l, Z.div_small, Z.add_0_r, Z.mod_small by lia. done. }
  destruct (Z.ltb_spec (__CFUniCharMapExternalSetToInternalIndex cset) (__CFUniCharNumberOfBitmaps T)) as [Hi|Hi].
  2: { cbn [opt_bind]. do 2 eexists. split_and!; [done..|]. intros x Hx. exists false. split; [done|apply answer_constant]. }
  destruct (rd_Some (__CFUniCharBitmapDataArray T) (__CFUniCharMapExternalSetToInternalIndex cset)) as [data E].
  { split; [|exact Hi]. apply uwrap_range. lia. }
  rewrite E. cbn [opt_bind].
  assert (bitmap_data_ok data) as Hd by (apply rd_inv in E as [_ E]; apply (Forall_lookup_1 _ _ _ _ HT E)).
  assert (forall x, 0 <= x < 0x10000 ->
    (if cset =? kCFUniCharControlAndFormatterCharacterSet then
        if Z.land (Z.shiftr (plane * 0x10000 + x) 16) 0xFF =? 0x0E
        then Some ((Z.land (plane * 0x10000 + x) 0xFF =? 1) ||
                   ((0x1F <? Z.land (plane * 0x10000 + x) 0xFF) && (Z.land (plane * 0x10000 + x) 0xFF <? 0x80)))
        else plane_member data (Z.land (Z.shiftr (plane * 0x10000 + x) 16) 0xFF) (plane * 0x10000 + x) false (fun b => b)
      else plane_member data (Z.land (Z.shiftr (plane * 0x10000 + x) 16) 0xFF) (plane * 0x10000 + x) false (fun b => b)) =
    plane_member data plane (plane * 0x10000 + x) false (fun b => b)) as Hm.
  { intros x Hx. rewrite Hplane by done. destruct (Z.eqb_spec cset kCFUniCharControlAndFormatterCharacterSet) as [He|]; [|done].
    specialize (H14 He). destruct (Z.eqb_spec plane 0x0E); [done|done]. }
  destruct (plane_lookup data plane Hd) as [(bytes & El & Hl)|El]; [lia| |]; rewrite El; cbn [opt_bind].
  - destruct (copy_holds inv bytes bm _ (bytes_hold bytes Hl) Hb) as (bm' & -> & Hl' & H'). cbn [opt_bind].
    do 2 eexists. split_and!; [done|done|]. intros x Hx. rewrite (answer_filled _ _ _ H' Hx), Hm by done.
    rewrite plane_member_spec, El by (done || lia).
    rewrite (member_low x (plane * 0x10000 + x)) by (rewrite Z.add_comm, Z.mod_add, Z.mod_small; lia).
    destruct (bytes_hold bytes Hl) as [_ Hb']. rewrite (Hb' x Hx). eexists. split; done.
  - do 2 eexists. split_and!; [done..|]. intros x Hx. exists false. rewrite Hm by done.
    rewrite plane_member_spec, El by (done || lia). split; [done|apply answer_constant].
Qed.

(** A character set as a bitmap is the character set: for every set (other
    than the illegal characters, whose bitmap is wrong, and the control
    characters, in plane 14), plane, polarity and
    buffer of a plane's size, CFUniCharGetBitmapForPlane succeeds inside its
    buffer, and its answer (a filled bitmap, or the codes for no and for every
    character) says of each character of the plane what CFUniCharIsMemberOf
    says, negated when the inverted set is asked for. *)
Lemma CFUniCharGetBitmapForPlane_is_membership charset plane bm (inv : bool) :
  2 <= charset < 2 ^ 32 -> charset <> kCFUniCharIllegalCharacterSet ->
  (__CFUniCharMapCompatibilitySetID charset = kCFUniCharControlAndFormatterCharacterSet -> plane <> 0x0E) ->
  0 <= plane < 256 -> 8192 <= Z.of_nat (length bm) ->
  exists code bm', CFUniCharGetBitmapForPlane T charset plane bm inv = Some (code, bm') /\ length bm' = length bm /\
  forall x, 0 <= x < 0x10000 -> exists m,
    CFUniCharIsMemberOf T (plane * 0x10000 + x) charset = Some m /\ bitmap_answer code bm' x = Some (xorb inv m).
Proof.
  intros. destruct (decide (charset = kCFUniCharWhitespaceCharacterSet)) as [?|N2]; [apply built_in_bitmap; auto; lia|].
  destruct (decide (charset = kCFUniCharWhitespaceAndNewlineCharacterSet)) as [?|N3]; [apply built_in_bitmap; auto; lia|].
  destruct (decide (charset = kCFUniCharNewlineCharacterSet)) as [?|N15]; [apply built_in_bitmap; auto; lia|].
  by apply table_bitmap.
Qed.

End Agreement.

(** Tables with a bitmap for the decimal digits in plane 0 and none elsewhere. *)
Definition digit_tables : unichar_tables := {|
  __CFUniCharBitmapDataArray :=
    [ {| _numPlanes := 2; _planes := [Some ([0; 0; 0; 0; 0; 0; 0xFF; 0x03] ++ replicate (plane_bytes - 8) 0); None] |} ];
  __CFUniCharUnicodePropertyTable := None |}.

Lemma digit_tables_ok : tables_ok digit_tables.
Proof.
  apply Forall_singleton. split; [done|]. repeat (apply Forall_cons_2; [done|]). apply Forall_nil_2.
Qed.

Lemma CFUniCharGetBitmapForPlane_is_membership_witness :
  exists code bm',
    CFUniCharGetBitmapForPlane digit_tables kCFUniCharDecimalDigitCharacterSet 0 (replicate plane_bytes 7) true =
      Some (code, bm') /\ length bm' = plane_bytes /\
  forall x, 0 <= x < 0x10000 -> exists m,
    CFUniCharIsMemberOf digit_tables (0 * 0x10000 + x) kCFUniCharDecimalDigitCharacterSet = Some m /\
    bitmap_answer code bm' x = Some (xorb true m).
Proof.
  rewrite <- (length_replicate plane_bytes 7). apply (CFUniCharGetBitmapForPlane_is_membership digit_tables digit_tables_ok).
  - unfold kCFUniCharDecimalDigitCharacterSet. lia.
  - done.
  - done.
  - lia.
  - rewrite length_replicate. done.
Defined.

(** The bitmap of the illegal characters is not their set.  With tables that
    keep, as the comment in CFUniCharIsMemberOf says, the legal characters of
    the planes below 14: in plane 14 the bitmap has U+E0001, which is legal, and
    not U+E0000, which is illegal; in plane 16 it has U+10FFDE
    where the comment names U+10FFFE and U+10FFFF. *)
Lemma illegal_bitmap_is_not_membership T data bm :
  rd (__CFUniCharBitmapDataArray T) 8 = Some data -> _numPlanes data <= 14 -> 8192 <= Z.of_nat (length bm) ->
  (exists bm14, CFUniCharGetBitmapForPlane T kCFUniCharIllegalCharacterSet 14 bm false = Some (kCFUniCharBitmapFilled, bm14) /\
     CFUniCharIsMemberOfBitmap 0x0001 (Some bm14) = Some true /\
     CFUniCharIsMemberOf T 0xE0001 kCFUniCharIllegalCharacterSet = Some false /\
     CFUniCharIsMemberOfBitmap 0x0000 (Some bm14) = Some false /\
     CFUniCharIsMemberOf T 0xE0000 kCFUniCharIllegalCharacterSet = Some true) /\
  (exists bm16, CFUniCharGetBitmapForPlane T kCFUniCharIllegalCharacterSet 16 bm false = Some (kCFUniCharBitmapFilled, bm16) /\
     CFUniCharIsMemberOfBitmap 0xFFDE (Some bm16) = Some true /\
     CFUniCharIsMemberOfBitmap 0xFFFE (Some bm16) = Some false).
Proof.
  intros E Hn Hb.
  assert (8 <? __CFUniCharNumberOfBitmaps T = true) as Hi by (apply rd_inv in E; unfold __CFUniCharNumberOfBitmaps; lia).
  split.
  - unfold CFUniCharGetBitmapForPlane, CFUniCharIsMemberOf.
    change (CFUniCharGetBitmapPtrForPlane T kCFUniCharIllegalCharacterSet 14) with (Some (@None (list Z))). cbn [opt_bind].
    change (__CFUniCharMapCompatibilitySetID kCFUniCharIllegalCharacterSet) with 12.
    change (__CFUniCharMapExternalSetToInternalIndex 12) with 8. rewrite E, Hi. cbn [opt_bind]. rewrite Z.eqb_refl.
    destruct (Z.ltb_spec 14 (_numPlanes data)); [lia|]. cbn [opt_bind].
    change (14 =? 0x0E) with true. cbn iota.
    destruct (wr_rd bm 0 2) as (bm1 & -> & Hl1 & Hr1); [lia|]. cbn [opt_bind].
    destruct (fill_bytes_rd (plane_bytes - 1) (fun idx => if (0x20 / 8 <=? idx) && (idx <? 0x80 / 8) then 0 else 0xFF) bm1 1)
      as (bm2 & E2 & Hl2 & Hr2); [lia| |].
    { assert (Z.of_nat (plane_bytes - 1) = 8191) as -> by done. lia. }
    unfold plane_bytes in E2. rewrite E2. cbn [opt_bind]. exists bm2.
    rewrite !member_spec by lia. change (1 / 8) with 0. change (0 / 8) with 0. rewrite !Hr2, Hr1 by lia. done.
  - unfold CFUniCharGetBitmapForPlane.
    change (CFUniCharGetBitmapPtrForPlane T kCFUniCharIllegalCharacterSet 16) with (Some (@None (list Z))). cbn [opt_bind].
    change (__CFUniCharMapCompatibilitySetID kCFUniCharIllegalCharacterSet) with 12.
    change (__CFUniCharMapExternalSetToInternalIndex 12) with 8. rewrite E. cbn [opt_bind]. rewrite Z.eqb_refl.
    destruct (Z.ltb_spec 16 (_numPlanes data)); [lia|]. cbn [opt_bind].
    change (16 =? 0x0E) with false. change ((16 =? 0x0F) || (16 =? 0x10)) with true. cbn iota.
    destruct (fill_holds false bm Hb) as (bm1 & E1 & Hl1 & Hf). unfold plane_bytes in E1. cbv zeta. rewrite E1. cbn [opt_bind].
    destruct (wr_rd bm1 (8 * 1024 - 5) 0xC0) as (bm2 & -> & Hl2 & Hr2); [lia|]. cbn [opt_bind]. exists bm2.
    split; [done|]. rewrite !member_spec by lia. rewrite !Hr2 by (Z.to_euclidean_division_equations; lia).
    change (0xFFDE / 8 =? 8 * 1024 - 5) with true. change (0xFFFE / 8 =? 8 * 1024 - 5) with false. split; [done|].
    destruct Hf as [_ Hf]. specialize (Hf 0xFFFE ltac:(lia)). by rewrite member_spec in Hf by lia.
Qed.

(** UTF-16 to UTF-32 and back: of well-formed text the first direction
    stores the scalar values in the byte order asked for, the second
    restores the text, lossy or not, and neither leaves its buffer. *)
Lemma CFUniCharUTF32_round_trip cs srest dst32 dst16 (lossy lossy' be : bool) :
  Forall scalar cs -> (length cs <= length dst32)%nat -> (length (encode16 cs) <= length dst16)%nat ->
  CFUniCharToUTF32 (encode16 cs ++ srest) (Z.of_nat (length (encode16 cs))) dst32 lossy be =
    Some (true, (swap_to be <$> cs) ++ drop (length cs) dst32) /\
  CFUniCharFromUTF32 ((swap_to be <$> cs) ++ drop (length cs) dst32) (Z.of_nat (length cs)) dst16 lossy' be =
    Some (true, encode16 cs ++ drop (length (encode16 cs)) dst16).
Proof.
  intros Hcs H32 H16. split.
  - unfold CFUniCharToUTF32. rewrite Nat2Z.id.
    apply (to_utf32_loop_ok cs (length (encode16 cs)) [] srest [] dst32 lossy be); done.
  - unfold CFUniCharFromUTF32. rewrite Nat2Z.id.
    apply (from_utf32_loop_ok cs (length cs) [] _ [] dst16 lossy' be); done.
Qed.

Lemma CFUniCharUTF32_round_trip_witness :
  CFUniCharToUTF32 [0x41; 0xD83D; 0xDE00] 3 [0; 0; 0] false true =
    Some (true, [0x41000000; 0x00F60100; 0]) /\
  CFUniCharFromUTF32 [0x41000000; 0x00F60100; 0] 2 [0; 0; 0] false true = Some (true, [0x41; 0xD83D; 0xDE00]).
Proof.
  apply (CFUniCharUTF32_round_trip [0x41; 0x1F600] [] [0; 0; 0] [0; 0; 0] false false true).
  - repeat constructor; unfold scalar; lia.
  - simpl. lia.
  - vm_compute. lia.
Defined.
