(* ===== verification/CFUnicodeDecomposition.v ===== *)
(** * CFUnicodeDecomposition: canonical decomposition (CFUnicodeDecomposition.c)

    The tables of the canonical decompositions, the sort of combining characters by
    their class, the recursive decomposition of a character with the
    arithmetic of Hangul syllables, and CFUniCharDecompose, which decomposes
    UTF-16 text into any of the three encoding forms.

    The globals of the file are the record [decomposition_tables]; the loader
    sets them from the words of the mapping file.  A table of pairs
    is the list of its pairs.  [buffer] arguments are blocks of cells, with NULL
    never dereferenced. *)

From S2P Require Import Prelude CFInternal CFUniChar.
From stdpp Require Import base list numbers option.
From Stdlib Require Import ZArith Lia Sorting.Permutation Sorting.Sorted.
Open Scope Z_scope.
Open Scope cf_scope.

Definition kCFUniCharRecursiveDecompositionFlag : Z := Z.shiftl 1 30.
Definition CFUniCharConvertFlagToCount (flag : Z) : Z := Z.land (Z.shiftr flag 24) 0x1F.

Record __CFUniCharDecomposeMappings : Type := { _key : Z; _value : Z }.

Record decomposition_tables : Type := {
  __CFUniCharDecompositionTable : list __CFUniCharDecomposeMappings;
  __CFUniCharMultipleDecompositionTable : list Z;
  __CFUniCharDecomposableBitmapForBMP : option (list Z);
  __CFUniCharHFSPlusDecomposableBitmapForBMP : option (list Z);
  __CFUniCharCombiningPriorityTable : list (option (list Z))
}.

(** ** Loading the tables *)

(** The words of a table of pairs; the last word of an odd count stays out. *)
Fixpoint mapping_pairs (numElem : nat) (words : list Z) : option (list __CFUniCharDecomposeMappings) :=
  match numElem with
  | O => Some []
  | S numElem =>
      match words with
      | k :: v :: words =>
          let* rest := mapping_pairs numElem words in
          Some ({| _key := k; _value := v |} :: rest)
      | _ => None
      end
  end.

Section Loading.
Context (T : unichar_tables).

(** [for (idx = 0; idx < numPlane; idx++) table[idx] = CFUniCharGetUnicodePropertyDataForPlane(..)] *)
Fixpoint combining_planes (count : nat) (idx : Z) : option (list (option (list Z))) :=
  match count with
  | O => Some []
  | S count =>
      let* p := CFUniCharGetUnicodePropertyDataForPlane T kCFUniCharCombiningProperty idx in
      let* rest := combining_planes count (idx + 1) in
      Some (p :: rest)
  end.

(** [bytes]: the words of the mapping, in host order; [None] when there is none,
    and then the globals stay NULL. *)
Definition __CFUniCharLoadDecompositionTable (bytes : option (list Z)) : option (option decomposition_tables) :=
  match bytes with
  | None => Some None
  | Some bytes =>
      let* __CFUniCharDecompositionTableLength := rd bytes 0 in
      let bytes := drop 1 bytes in
      let numElem := __CFUniCharDecompositionTableLength / (4 * 2) in
      let* table := mapping_pairs (Z.to_nat numElem) bytes in
      let* bmp := CFUniCharGetBitmapPtrForPlane T kCFUniCharCanonicalDecomposableCharacterSet 0 in
      let* hfs := CFUniCharGetBitmapPtrForPlane T kCFUniCharHFSPlusDecomposableCharacterSet 0 in
      let* numPlane := CFUniCharGetNumberOfPlanesForUnicodePropertyData T kCFUniCharCombiningProperty in
      let* planes := combining_planes (Z.to_nat (uwrap 8 numPlane)) 0 in
      Some (Some {|
        __CFUniCharDecompositionTable := table;
        __CFUniCharMultipleDecompositionTable := drop (Z.to_nat (__CFUniCharDecompositionTableLength / 4)) bytes;
        __CFUniCharDecomposableBitmapForBMP := bmp;
        __CFUniCharHFSPlusDecomposableBitmapForBMP := hfs;
        __CFUniCharCombiningPriorityTable := planes |})
  end.

End Loading.

(** ** Lookup *)

(** [while (p <= q)]: [p] and [q] are indexes into the table. *)
Fixpoint mapped_loop (fuel : nat) (theTable : list __CFUniCharDecomposeMappings) (p q character : Z) : option Z :=
  if p <=? q then
    match fuel with
    | O => None
    | S fuel =>
        let divider := p + Z.shiftr (q - p) 1 in
        let* d := rd theTable divider in
        if character <? _key d then mapped_loop fuel theTable p (divider - 1) character
        else if _key d <? character then mapped_loop fuel theTable (divider + 1) q character
        else Some (_value d)
    end
  else Some 0.

Definition __CFUniCharGetMappedValue (theTable : list __CFUniCharDecomposeMappings) (numElem character : Z) : option Z :=
  let* first := rd theTable 0 in
  let* out := (if character <? _key first then Some true
               else let* last := rd theTable (numElem - 1) in Some (_key last <? character)) in
  if (out : bool) then Some 0
  else mapped_loop (length theTable) theTable 0 (numElem - 1) character.

Section Decomposition.
Context (T : unichar_tables) (D : decomposition_tables).

Definition __CFUniCharDecompositionTableLength : Z := Z.of_nat (length (__CFUniCharDecompositionTable D)).

Definition __CFUniCharCombiningPriorityTableNumPlane : Z := Z.of_nat (length (__CFUniCharCombiningPriorityTable D)).

Definition __CFUniCharIsDecomposableCharacterWithFlag (character : Z) (isHFSPlus : bool) : option bool :=
  let* bitmap :=
    (if character <? 0x10000 then
       Some (if isHFSPlus then __CFUniCharHFSPlusDecomposableBitmapForBMP D else __CFUniCharDecomposableBitmapForBMP D)
     else CFUniCharGetBitmapPtrForPlane T kCFUniCharCanonicalDecomposableCharacterSet
            (Z.land (Z.shiftr character 16) 0xFF)) in
  CFUniCharIsMemberOfBitmap character bitmap.

Definition __CFUniCharGetCombiningPropertyForCharacter (character : Z) : option Z :=
  let* bitmap :=
    (if Z.shiftr character 16 <? __CFUniCharCombiningPriorityTableNumPlane
     then rd (__CFUniCharCombiningPriorityTable D) (Z.shiftr character 16) else Some None) in
  CFUniCharGetCombiningPropertyForCharacter character bitmap.

Definition __CFUniCharIsNonBaseCharacter (character : Z) : option bool :=
  let* p := __CFUniCharGetCombiningPropertyForCharacter character in
  Some (if 0 =? p then false else true).

(** ** Canonical ordering *)

(** [while ((characters < end) && (0 == ..( *characters))) ++characters;] *)
Fixpoint skip_starters (fuel : nat) (characters : list Z) (at_ end_ : Z) : option Z :=
  if at_ <? end_ then
    match fuel with
    | O => None
    | S fuel =>
        let* c := rd characters at_ in
        let* p := __CFUniCharGetCombiningPropertyForCharacter c in
        if 0 =? p then skip_starters fuel characters (at_ + 1) end_ else Some at_
    end
  else Some at_.

(** [while (ch2 < end)]: one pass; [p2] is the class read last. *)
Fixpoint sort_pass (fuel : nat) (characters : list Z) (ch1 ch2 end_ p2 : Z) (changes : bool) : option (list Z * bool) :=
  if ch2 <? end_ then
    match fuel with
    | O => None
    | S fuel =>
        let p1 := p2 in
        let* c2 := rd characters ch2 in
        let* p2 := __CFUniCharGetCombiningPropertyForCharacter c2 in
        if p2 <? p1 then
          let* tmp := rd characters ch1 in
          let* characters := wr characters ch1 c2 in
          let* characters := wr characters ch2 tmp in
          sort_pass fuel characters (ch1 + 1) (ch2 + 1) end_ p2 true
        else sort_pass fuel characters (ch1 + 1) (ch2 + 1) end_ p2 changes
    end
  else Some (characters, changes).

(** [do { .. } while (changes);] *)
Fixpoint sort_passes (fuel : nat) (characters : list Z) (start end_ : Z) : option (list Z) :=
  match fuel with
  | O => None
  | S fuel =>
      let* c := rd characters start in
      let* p2 := __CFUniCharGetCombiningPropertyForCharacter c in
      let* (characters, changes) := sort_pass (Z.to_nat (end_ - start)) characters start (start + 1) end_ p2 false in
      if (changes : bool) then sort_passes fuel characters start end_ else Some characters
  end.

(** A pass that changes something removes an inversion, of which there are fewer
    than [length * length]. *)
Definition __CFUniCharPrioritySort (characters : list Z) (length : Z) : option (list Z) :=
  let* start := skip_starters (Z.to_nat length) characters 0 length in
  if 1 <? length - start
  then sort_passes (S (Z.to_nat (length * length))) characters start length
  else Some characters.

Definition CFUniCharPrioritySort := __CFUniCharPrioritySort.

(** ** Decomposing a character *)

(** [while (length--) *(convertedChars++) = *(mappings++);] *)
Fixpoint copy_chars (length : nat) (mappings : list Z) (m : Z) (convertedChars : list Z) (at_ : Z) : option (list Z) :=
  match length with
  | O => Some convertedChars
  | S length =>
      let* c := rd mappings m in
      let* convertedChars := wr convertedChars at_ c in
      copy_chars length mappings (m + 1) convertedChars (at_ + 1)
  end.

(** [convertedChars] is a block and a position in it; the recursion is on the
    first character of a mapping that has the flag. *)
Fixpoint __CFUniCharRecursivelyDecomposeCharacter (fuel : nat) (character : Z) (convertedChars : list Z) (at_ : Z)
    (maxBufferLength : Z) : option (Z * list Z) :=
  match fuel with
  | O => None
  | S fuel =>
      let* value := __CFUniCharGetMappedValue (__CFUniCharDecompositionTable D) __CFUniCharDecompositionTableLength character in
      let length := CFUniCharConvertFlagToCount value in
      let firstChar := Z.land value 0xFFFFFF in
      let mappings := if 1 <? length then drop (Z.to_nat firstChar) (__CFUniCharMultipleDecompositionTable D)
                      else [firstChar] in
      if maxBufferLength <? length then Some (0, convertedChars)
      else if negb (Z.land value kCFUniCharRecursiveDecompositionFlag =? 0) then
        let* first := rd mappings 0 in
        let* (usedLength, convertedChars) :=
          __CFUniCharRecursivelyDecomposeCharacter fuel first convertedChars at_ (maxBufferLength - length) in
        let length := length - 1 in
        if (usedLength =? 0) || (maxBufferLength <? usedLength + length) then Some (0, convertedChars)
        else
          let* convertedChars := copy_chars (Z.to_nat length) mappings 1 convertedChars (at_ + usedLength) in
          Some (usedLength + length, convertedChars)
      else
        let* convertedChars := copy_chars (Z.to_nat length) mappings 0 convertedChars at_ in
        Some (length, convertedChars)
  end.

Definition HANGUL_SBASE : Z := 0xAC00.
Definition HANGUL_LBASE : Z := 0x1100.
Definition HANGUL_VBASE : Z := 0x1161.
Definition HANGUL_TBASE : Z := 0x11A7.
Definition HANGUL_SCOUNT : Z := 11172.
Definition HANGUL_LCOUNT : Z := 19.
Definition HANGUL_VCOUNT : Z := 21.
Definition HANGUL_TCOUNT : Z := 28.
Definition HANGUL_NCOUNT : Z := HANGUL_VCOUNT * HANGUL_TCOUNT.

(** The recursion goes at most once through the table. *)
Definition CFUniCharDecomposeCharacter (character : Z) (convertedChars : list Z) (at_ : Z) (maxBufferLength : Z)
    : option (Z * list Z) :=
  if (HANGUL_SBASE <=? character) && (character <=? HANGUL_SBASE + HANGUL_SCOUNT) then
    let character := character - HANGUL_SBASE in
    let length := if negb (character mod HANGUL_TCOUNT =? 0) then 3 else 2 in
    if maxBufferLength <? length then Some (0, convertedChars)
    else
      let* convertedChars := wr convertedChars at_ (character / HANGUL_NCOUNT + HANGUL_LBASE) in
      let* convertedChars :=
        wr convertedChars (at_ + 1) ((character mod HANGUL_NCOUNT) / HANGUL_TCOUNT + HANGUL_VBASE) in
      let* convertedChars :=
        (if 2 <? length then wr convertedChars (at_ + 2) (character mod HANGUL_TCOUNT + HANGUL_TBASE)
         else Some convertedChars) in
      Some (length, convertedChars)
  else
    __CFUniCharRecursivelyDecomposeCharacter (S (length (__CFUniCharDecompositionTable D)))
      character convertedChars at_ maxBufferLength.

(** ** Decomposing text *)

Definition __CFProcessReorderBuffer (buffer : list Z) (length : Z) (dst : list Z) (at_ : Z) (dstLength filledLength : Z)
    (dstFormat : Z) : option (bool * list Z * (list Z * Z * Z)) :=
  let* buffer := (if 1 <? length then __CFUniCharPrioritySort buffer length else Some buffer) in
  let* (ok, dst, at_, filledLength) :=
    CFUniCharFillDestinationBuffer buffer length dst at_ dstLength filledLength dstFormat in
  Some (ok, buffer, (dst, at_, filledLength)).

Definition MAX_BUFFER_LENGTH : Z := 32.

(** The locals of CFUniCharDecompose: [src] (an index), [length],
    [segmentLength], [decompBuffer] with [decompBufferSize] and
    [decompBufferLen], [dst] (a block and a position in it) and [usedLength]. *)
Record decompose_locals : Type := {
  l_src : Z;
  l_length : Z;
  l_segment : Z;
  l_buffer : list Z;
  l_size : Z;
  l_len : Z;
  l_dst : list Z;
  l_at : Z;
  l_used : Z
}.

Section Text.
Context (text : list Z) (maxLength : Z) (needToReorder : bool) (dstFormat : Z) (isHFSPlus : bool).
(** what the cells of a fresh buffer hold *)
Context (junk : Z).

(** [if (decompBufferLen > 0) { if (!__CFProcessReorderBuffer(..)) break;
    length -= segmentLength; segmentLength = 0; .. }]; [false] is the [break]. *)
Definition flush_segment (l : decompose_locals) : option (bool * decompose_locals) :=
  if 0 <? l_len l then
    let* (ok, buffer, (dst, at_, used)) :=
      __CFProcessReorderBuffer (l_buffer l) (l_len l) (l_dst l) (l_at l) maxLength (l_used l) dstFormat in
    Some (ok, {| l_src := l_src l;
                 l_length := if (ok : bool) then l_length l - l_segment l else l_length l;
                 l_segment := if ok then 0 else l_segment l;
                 l_buffer := buffer; l_size := l_size l;
                 l_len := if ok then 0 else l_len l;
                 l_dst := dst; l_at := at_; l_used := used |})
  else Some (true, l).

(** The branch [currentChar < 0x80]. *)
Definition decompose_ascii (currentChar : Z) (l : decompose_locals) : option (bool * decompose_locals) :=
  let* (ok, l) := flush_segment l in
  if negb ok then Some (false, l)
  else
    let* stored :=
      (if 0 <? maxLength then
         if maxLength <=? l_used l then Some None
         else let* dst := wr (l_dst l) (l_at l) currentChar in Some (Some (dst, l_at l + 1))
       else Some (Some (l_dst l, l_at l))) in
    match stored with
    | None => Some (false, l)
    | Some (dst, at_) =>
        Some (true, {| l_src := l_src l; l_length := l_length l - 1; l_segment := l_segment l;
                       l_buffer := l_buffer l; l_size := l_size l; l_len := l_len l;
                       l_dst := dst; l_at := at_; l_used := l_used l + 1 |})
    end.

(** The character at the front of the text and where the next one is; [None]
    inside is the [break] at a stray surrogate. *)
Definition decompose_surrogates (currentChar : Z) (l : decompose_locals) : option (option (Z * Z)) :=
  if CFUniCharIsSurrogateLowCharacter currentChar then
    Some (if negb (dstFormat =? kCFUniCharUTF16Format) then None else Some (currentChar, l_src l))
  else if CFUniCharIsSurrogateHighCharacter currentChar then
    let* paired := (if 1 <? l_length l - l_segment l
                  then let* c := rd text (l_src l) in Some (CFUniCharIsSurrogateLowCharacter c)
                  else Some false) in
    if (paired : bool) then
      let* c := rd text (l_src l) in
      Some (Some (CFUniCharGetLongCharacterForSurrogatePair currentChar c, l_src l + 1))
    else Some (if negb (dstFormat =? kCFUniCharUTF16Format) then None else Some (currentChar, l_src l))
  else Some (Some (currentChar, l_src l)).

(** [(currentChar > 0xFFFF) ? 2 : 1] *)
Definition units_of (currentChar : Z) : Z := if 0xFFFF <? currentChar then 2 else 1.

(** The branch of a combining character: it joins the buffer, which grows first
    when it is nearly full. *)
Definition decompose_combining (currentChar : Z) (l : decompose_locals) : option (bool * decompose_locals) :=
  let* (buffer, size) :=
    (if l_size l <=? l_len l + 1 then
       let size := l_size l + MAX_BUFFER_LENGTH in
       let newBuffer := replicate (Z.to_nat size) junk in
       let* newBuffer := memmove newBuffer 0 (l_buffer l) 0 (size - MAX_BUFFER_LENGTH) in
       Some (newBuffer, size)
     else Some (l_buffer l, l_size l)) in
  let* decomposable := __CFUniCharIsDecomposableCharacterWithFlag currentChar isHFSPlus in
  let* (len, buffer) :=
    (if (decomposable : bool) then
       let* (n, buffer) := CFUniCharDecomposeCharacter currentChar buffer (l_len l) (size - l_len l) in
       Some (l_len l + n, buffer)
     else let* buffer := wr buffer (l_len l) currentChar in Some (l_len l + 1, buffer)) in
  Some (true, {| l_src := l_src l; l_length := l_length l; l_segment := l_segment l + units_of currentChar;
                 l_buffer := buffer; l_size := size; l_len := len;
                 l_dst := l_dst l; l_at := l_at l; l_used := l_used l |}).

(** The branch of every other character: what is in the buffer goes out, and so
    does a character that stays alone. *)
Definition decompose_base (currentChar : Z) (l : decompose_locals) : option (bool * decompose_locals) :=
  let* (ok, l) := flush_segment l in
  if negb ok then Some (false, l)
  else
    let* decomposable := __CFUniCharIsDecomposableCharacterWithFlag currentChar isHFSPlus in
    let* (len, buffer) :=
      (if (decomposable : bool) then CFUniCharDecomposeCharacter currentChar (l_buffer l) 0 MAX_BUFFER_LENGTH
       else let* buffer := wr (l_buffer l) 0 currentChar in Some (1, buffer)) in
    if negb needToReorder || (len =? 1) then
      let* (ok, dst, at_, used) :=
        CFUniCharFillDestinationBuffer buffer len (l_dst l) (l_at l) maxLength (l_used l) dstFormat in
      Some (ok, {| l_src := l_src l;
                   l_length := if (ok : bool) then l_length l - units_of currentChar else l_length l;
                   l_segment := l_segment l; l_buffer := buffer; l_size := l_size l;
                   l_len := if ok then 0 else len;
                   l_dst := dst; l_at := at_; l_used := used |})
    else
      Some (true, {| l_src := l_src l; l_length := l_length l; l_segment := l_segment l + units_of currentChar;
                     l_buffer := buffer; l_size := l_size l; l_len := len;
                     l_dst := l_dst l; l_at := l_at l; l_used := l_used l |}).

Definition set_src (s : Z) (l : decompose_locals) : decompose_locals :=
  {| l_src := s; l_length := l_length l; l_segment := l_segment l; l_buffer := l_buffer l; l_size := l_size l;
     l_len := l_len l; l_dst := l_dst l; l_at := l_at l; l_used := l_used l |}.

Definition decompose_step (l : decompose_locals) : option (bool * decompose_locals) :=
  let* currentChar := rd text (l_src l) in
  let l := set_src (l_src l + 1) l in
  if currentChar <? 0x80 then decompose_ascii currentChar l
  else
    let* read := decompose_surrogates currentChar l in
    match read with
    | None => Some (false, l)
    | Some (currentChar, s) =>
        let l := set_src s l in
        let* nonBase := (if needToReorder then __CFUniCharIsNonBaseCharacter currentChar else Some false) in
        if (nonBase : bool) then decompose_combining currentChar l else decompose_base currentChar l
    end.

(** [while ((length - segmentLength) > 0)] *)
Fixpoint decompose_loop (fuel : nat) (l : decompose_locals) : option decompose_locals :=
  if 0 <? l_length l - l_segment l then
    match fuel with
    | O => None
    | S fuel =>
        let* (continue, l) := decompose_step l in
        if (continue : bool) then decompose_loop fuel l else Some l
    end
  else Some l.

(** The result, [*consumedLength], what [dst] points at and [*filledLength]. *)
Definition CFUniCharDecompose (length : Z) (dst : list Z) : option (bool * Z * list Z * Z) :=
  let* l := decompose_loop (Z.to_nat length)
      {| l_src := 0; l_length := length; l_segment := 0;
         l_buffer := replicate (Z.to_nat MAX_BUFFER_LENGTH) junk; l_size := MAX_BUFFER_LENGTH; l_len := 0;
         l_dst := dst; l_at := 0; l_used := 0 |} in
  let* (_, l) := flush_segment l in
  Some (if 0 <? l_length l then false else true, length - l_length l, l_dst l, l_used l).

End Text.

End Decomposition.

(** ** The sort by combining class

    The class of a character as the tables give it; [isort] is the stable sort
    by class that the passes of exchanges compute. *)

Definition ccc (D : decomposition_tables) (c : Z) : Z := default 0 (__CFUniCharGetCombiningPropertyForCharacter D c).

#[global] Opaque ccc.

Definition class_known (D : decomposition_tables) (c : Z) : Prop :=
  __CFUniCharGetCombiningPropertyForCharacter D c = Some (ccc D c).

Section Sorting.
Context (D : decomposition_tables).
Notation ccc := (ccc D).
Notation class_known := (class_known D).

Fixpoint ins (x : Z) (l : list Z) : list Z :=
  match l with
  | [] => [x]
  | y :: l' => if ccc x <=? ccc y then x :: l else y :: ins x l'
  end.

Definition isort (l : list Z) : list Z := foldr ins [] l.

(** One pass as a function on the characters from [x] on: [p] is the class the
    code holds for [x], which after an exchange is too small. *)
Fixpoint pass (p x : Z) (l : list Z) : list Z * bool :=
  match l with
  | [] => ([x], false)
  | y :: l' =>
      if ccc y <? p then (y :: fst (pass (ccc y) x l'), true)
      else (x :: fst (pass (ccc y) y l'), snd (pass (ccc y) y l'))
  end.

Definition smaller (x : Z) (l : list Z) : nat := length (filter (fun y => ccc y < ccc x) l).

Fixpoint inversions (l : list Z) : nat :=
  match l with [] => O | x :: l' => smaller x l' + inversions l' end.

Lemma ins_exchange x y l : ccc y < ccc x -> ins x (ins y l) = ins y (ins x l).
Proof.
  intros H. induction l as [|z l IH]; simpl.
  - bool_case; done.
  - destruct (Z.leb_spec (ccc y) (ccc z)), (Z.leb_spec (ccc x) (ccc z)); simpl; bool_case; try done.
    by rewrite IH.
Qed.

Lemma ins_perm x l : ins x l ≡ₚ x :: l.
Proof. induction l as [|y l IH]; simpl; [done|]. destruct (_ <=? _); [done|]. rewrite IH. apply Permutation_swap. Qed.

Lemma isort_perm l : isort l ≡ₚ l.
Proof. induction l as [|x l IH]; simpl; [done|]. by rewrite ins_perm, IH. Qed.

Lemma pass_perm p x l : fst (pass p x l) ≡ₚ x :: l.
Proof.
  revert p x. induction l as [|y l IH]; intros p x; simpl; [done|].
  destruct (_ <? _); simpl; rewrite IH; [apply Permutation_swap|done].
Qed.

Lemma pass_isort p x l : p <= ccc x -> isort (fst (pass p x l)) = isort (x :: l).
Proof.
  revert p x. induction l as [|y l IH]; intros p x Hp; simpl; [done|].
  destruct (Z.ltb_spec (ccc y) p); simpl; fold (isort l).
  - rewrite (IH (ccc y) x) by lia. simpl. apply eq_sym, ins_exchange. lia.
  - by rewrite (IH (ccc y) y) by lia.
Qed.

Lemma smaller_perm x l k : l ≡ₚ k -> smaller x l = smaller x k.
Proof. intros H. unfold smaller. by rewrite H. Qed.

Lemma smaller_cons x y l : smaller x (y :: l) = ((if (ccc y <? ccc x)%Z then 1 else 0) + smaller x l)%nat.
Proof. unfold smaller. rewrite filter_cons. destruct (Z.ltb_spec (ccc y) (ccc x)); case_decide; simpl; lia. Qed.

Lemma smaller_le x l : (smaller x l <= length l)%nat.
Proof. apply length_filter. Qed.

Lemma inversions_le l : (inversions l <= length l * length l)%nat.
Proof. induction l as [|x l IH]; simpl; [lia|]. pose proof (smaller_le x l). nia. Qed.

Lemma pass_inversions p x l :
  p <= ccc x ->
  (inversions (fst (pass p x l)) + (if snd (pass p x l) then 1 else 0) <= inversions (x :: l))%nat.
Proof.
  revert p x. induction l as [|y l IH]; intros p x Hp; [simpl; lia|]. cbn [pass].
  destruct (Z.ltb_spec (ccc y) p); cbn [fst snd inversions].
  - pose proof (IH (ccc y) x ltac:(lia)) as I. rewrite (smaller_perm y _ _ (pass_perm (ccc y) x l)), !smaller_cons.
    cbn [inversions] in I. bool_case; lia.
  - pose proof (IH (ccc y) y ltac:(lia)) as I. rewrite (smaller_perm x _ _ (pass_perm (ccc y) y l)).
    cbn [inversions] in I. lia.
Qed.

(** A pass without an exchange found the characters in order. *)
Lemma ins_head x l : match l with [] => True | y :: _ => ccc x <= ccc y end -> ins x l = x :: l.
Proof. destruct l as [|y l]; [done|]. simpl. intros. destruct (Z.leb_spec (ccc x) (ccc y)); [done|lia]. Qed.

Lemma pass_unchanged x l :
  snd (pass (ccc x) x l) = false -> fst (pass (ccc x) x l) = x :: l /\ isort (x :: l) = x :: l.
Proof.
  revert x. induction l as [|y l IH]; intros x; simpl; [done|].
  destruct (Z.ltb_spec (ccc y) (ccc x)); simpl; [done|]. intros Hs. destruct (IH y Hs) as [-> I].
  split; [done|]. simpl in I. rewrite I. apply ins_head. lia.
Qed.

(** The code computes the pass, inside the buffer. *)
Lemma sort_pass_eq l fuel pre x post p b :
  Forall class_known l -> (length l <= fuel)%nat ->
  sort_pass D fuel (pre ++ x :: l ++ post) (Z.of_nat (length pre)) (Z.of_nat (length pre) + 1)
    (Z.of_nat (length pre) + 1 + Z.of_nat (length l)) p b =
  Some (pre ++ fst (pass p x l) ++ post, b || snd (pass p x l)).
Proof.
  intros Hl. revert fuel pre x p b. induction Hl as [|y l Hy Hl IH]; intros fuel pre x p b Hf.
  { simpl length. rewrite Z.add_0_r. destruct fuel; simpl; rewrite Z.ltb_irrefl, orb_false_r; done. }
  destruct fuel as [|fuel]; [simpl in Hf; lia|]. simpl length in *. cbn [sort_pass].
  destruct (Z.ltb_spec (Z.of_nat (length pre) + 1) (Z.of_nat (length pre) + 1 + Z.of_nat (S (length l)))); [|lia].
  assert (rd (pre ++ x :: (y :: l) ++ post) (Z.of_nat (length pre) + 1) = Some y) as ->.
  { rewrite (cons_middle x pre), (assoc_L (++)). apply rd_app_here. cf_lia. }
  cbn [opt_bind]. rewrite Hy. cbn [opt_bind pass].
  assert (forall z w b', sort_pass D fuel (pre ++ z :: w :: l ++ post) (Z.of_nat (length pre) + 1) (Z.of_nat (length pre) + 1 + 1)
    (Z.of_nat (length pre) + 1 + Z.of_nat (S (length l))) (ccc y) b' =
    Some (pre ++ (z :: fst (pass (ccc y) w l)) ++ post, b' || snd (pass (ccc y) w l))) as Hnext.
  { intros z w b'. specialize (IH fuel (pre ++ [z]) w (ccc y) b'). rewrite length_app in IH. simpl length in IH.
    replace (Z.of_nat (length pre) + 1) with (Z.of_nat (length pre + 1)) by lia.
    replace (Z.of_nat (length pre + 1) + Z.of_nat (S (length l))) with (Z.of_nat (length pre + 1) + 1 + Z.of_nat (length l)) by lia.
    rewrite <- !(assoc_L (++)) in IH. apply IH. lia. }
  destruct (Z.ltb_spec (ccc y) p); cbn [fst snd app].
  - rewrite rd_app_here by done. cbn [opt_bind]. rewrite wr_app_here by done. cbn [opt_bind].
    rewrite wr_app_there by done. cbn [opt_bind]. rewrite Hnext. by destruct b.
  - rewrite Hnext. done.
Qed.

Lemma sort_passes_eq fuel pre x l post :
  Forall class_known (x :: l) -> (inversions (x :: l) < fuel)%nat ->
  sort_passes D fuel (pre ++ x :: l ++ post) (Z.of_nat (length pre)) (Z.of_nat (length pre) + 1 + Z.of_nat (length l)) =
  Some (pre ++ isort (x :: l) ++ post).
Proof.
  revert x l. induction fuel as [|fuel IH]; intros x l Hk Hi; [lia|]. cbn [sort_passes].
  rewrite rd_app_here by done. cbn [opt_bind]. pose proof (Forall_cons_1 _ _ _ Hk) as [Hx Hl]. rewrite Hx. cbn [opt_bind].
  rewrite sort_pass_eq by (done || lia). cbn [opt_bind orb].
  pose proof (pass_inversions (ccc x) x l ltac:(lia)) as Hd. pose proof (pass_isort (ccc x) x l ltac:(lia)) as He.
  pose proof (pass_perm (ccc x) x l) as Hp.
  destruct (snd (pass (ccc x) x l)) eqn:Es.
  - destruct (fst (pass (ccc x) x l)) as [|x' l'] eqn:Ef; [by apply Permutation_nil_cons in Hp|].
    rewrite <- He. pose proof (Permutation_length Hp) as Hlen. simpl in Hlen.
    replace (length l) with (length l') by lia. apply IH; [by rewrite Hp|lia].
  - destruct (pass_unchanged x l Es) as [-> ->]. done.
Qed.

(** The characters before the first one with a class, and the others. *)
Fixpoint leading_starters (l : list Z) : list Z :=
  match l with [] => [] | x :: l' => if ccc x =? 0 then x :: leading_starters l' else [] end.

Fixpoint after_starters (l : list Z) : list Z :=
  match l with [] => [] | x :: l' => if ccc x =? 0 then after_starters l' else l end.

Lemma starters_app l : leading_starters l ++ after_starters l = l.
Proof. induction l as [|x l IH]; simpl; [done|]. destruct (_ =? _); simpl; by rewrite ?IH. Qed.

Lemma skip_starters_eq l fuel pre post :
  Forall class_known l -> (length l <= fuel)%nat ->
  skip_starters D fuel (pre ++ l ++ post) (Z.of_nat (length pre)) (Z.of_nat (length pre) + Z.of_nat (length l)) =
  Some (Z.of_nat (length pre) + Z.of_nat (length (leading_starters l))).
Proof.
  intros Hl. revert fuel pre. induction Hl as [|x l Hx Hl IH]; intros fuel pre Hf.
  { simpl length. rewrite Z.add_0_r. destruct fuel; simpl; rewrite Z.ltb_irrefl; done. }
  destruct fuel as [|fuel]; [simpl in Hf; lia|]. simpl length in *. cbn [skip_starters leading_starters app].
  destruct (Z.ltb_spec (Z.of_nat (length pre)) (Z.of_nat (length pre) + Z.of_nat (S (length l)))); [|lia].
  rewrite rd_app_here by done. cbn [opt_bind]. rewrite Hx. cbn [opt_bind]. rewrite Z.eqb_sym.
  destruct (Z.eqb_spec (ccc x) 0); [|simpl; f_equal; lia].
  rewrite (cons_middle x pre), (assoc_L (++)). specialize (IH fuel (pre ++ [x])). rewrite length_app in IH. simpl length in *.
  replace (Z.of_nat (length pre) + 1) with (Z.of_nat (length pre + 1)) by lia.
  replace (Z.of_nat (length pre) + Z.of_nat (S (length l))) with (Z.of_nat (length pre + 1) + Z.of_nat (length l)) by lia.
  rewrite IH by lia. f_equal. lia.
Qed.

Lemma PrioritySort_eq cs rest :
  Forall class_known cs ->
  __CFUniCharPrioritySort D (cs ++ rest) (Z.of_nat (length cs)) =
    Some (leading_starters cs ++ isort (after_starters cs) ++ rest).
Proof.
  intros Hk. unfold __CFUniCharPrioritySort. rewrite Nat2Z.id.
  pose proof (skip_starters_eq cs (length cs) [] rest Hk ltac:(lia)) as E. cbn [app length] in E.
  change (Z.of_nat 0) with 0 in E. rewrite !Z.add_0_l in E. rewrite E. cbn [opt_bind].
  pose proof (starters_app cs) as Ha. pose proof (f_equal length Ha) as Hlen. rewrite length_app in Hlen.
  destruct (after_starters cs) as [|x l] eqn:Er.
  { destruct (Z.ltb_spec 1 (Z.of_nat (length cs) - Z.of_nat (length (leading_starters cs)))); [simpl in Hlen; lia|].
    rewrite app_nil_r in Ha. simpl. by rewrite Ha. }
  assert (Forall class_known (x :: l)) as Hkx by (rewrite <- Ha in Hk; by apply Forall_app in Hk as [_ Hk]).
  simpl length in Hlen. assert (cs ++ rest = leading_starters cs ++ x :: l ++ rest) as Hsplit by (rewrite <- Ha at 1; by rewrite <- (assoc_L (++))).
  destruct (Z.ltb_spec 1 (Z.of_nat (length cs) - Z.of_nat (length (leading_starters cs)))).
  - rewrite Hsplit.
    replace (Z.of_nat (length cs)) with (Z.of_nat (length (leading_starters cs)) + 1 + Z.of_nat (length l)) by lia.
    apply sort_passes_eq; [done|]. pose proof (inversions_le (x :: l)) as Hi. simpl length in Hi. nia.
  - destruct l; [|simpl in Hlen; lia]. by rewrite Hsplit.
Qed.

(** The sort of combining characters terminates, touches only the given
    characters, leaves the starters at the front where they are, and sorts the
    characters behind them by class, keeping those of equal class in order. *)
Lemma CFUniCharPrioritySort_is_stable_sort cs rest :
  Forall class_known cs ->
  exists starters marks marks',
    cs = starters ++ marks /\ Forall (fun c => ccc c = 0) starters /\
    match marks with c :: _ => ccc c <> 0 | [] => True end /\
    CFUniCharPrioritySort D (cs ++ rest) (Z.of_nat (length cs)) = Some (starters ++ marks' ++ rest) /\
    marks' ≡ₚ marks /\ StronglySorted (fun x y => ccc x <= ccc y) marks' /\
    forall k, filter (fun c => ccc c = k) marks' = filter (fun c => ccc c = k) marks.
Proof.
  intros Hk. exists (leading_starters cs), (after_starters cs), (isort (after_starters cs)).
  split_and!.
  - by rewrite starters_app.
  - clear Hk. induction cs as [|x l IH]; simpl; [done|]. destruct (Z.eqb_spec (ccc x) 0); [by constructor|done].
  - clear Hk. induction cs as [|x l IH]; simpl; [done|]. by destruct (Z.eqb_spec (ccc x) 0).
  - by apply PrioritySort_eq.
  - apply isort_perm.
  - generalize (after_starters cs) as l. induction l as [|x l IH]; simpl; [constructor|]. fold (isort l).
    induction IH as [|y k Hs IHs Hy]; simpl; [repeat constructor|].
    destruct (Z.leb_spec (ccc x) (ccc y)).
    + constructor; [by constructor|]. constructor; [done|]. eapply list.Forall_impl; [exact Hy|]. simpl. lia.
    + constructor; [done|]. rewrite ins_perm. constructor; [lia|done].
  - intros k. generalize (after_starters cs) as l. induction l as [|x l IH]; simpl; [done|]. fold (isort l).
    assert (forall m, filter (fun c => ccc c = k) (ins x m) = filter (fun c => ccc c = k) (x :: m)) as Hins.
    { induction m as [|y m IHm]; simpl; [done|]. destruct (Z.leb_spec (ccc x) (ccc y)); [done|].
      rewrite filter_cons, IHm, !filter_cons. repeat case_decide; try done. lia. }
    rewrite Hins, !filter_cons, IH. done.
Qed.

End Sorting.

(** A table for the accents of U+0300: classes 230 and, for U+0323, 220. *)
Definition accent_classes : decomposition_tables := {|
  __CFUniCharDecompositionTable := []; __CFUniCharMultipleDecompositionTable := [];
  __CFUniCharDecomposableBitmapForBMP := None; __CFUniCharHFSPlusDecomposableBitmapForBMP := None;
  __CFUniCharCombiningPriorityTable :=
    [Some ([0; 0; 0; 1] ++ replicate 252 0 ++ replicate 35 230 ++ [220] ++ replicate 220 230)] |}.

Lemma CFUniCharPrioritySort_is_stable_sort_witness :
  exists starters marks marks',
    [0x45; 0x301; 0x323; 0x300] = starters ++ marks /\ Forall (fun c => ccc accent_classes c = 0) starters /\
    match marks with c :: _ => ccc accent_classes c <> 0 | [] => True end /\
    CFUniCharPrioritySort accent_classes [0x45; 0x301; 0x323; 0x300] 4 = Some (starters ++ marks' ++ []) /\
    marks' ≡ₚ marks /\ StronglySorted (fun x y => ccc accent_classes x <= ccc accent_classes y) marks' /\
    forall k, filter (fun c => ccc accent_classes c = k) marks' = filter (fun c => ccc accent_classes c = k) marks.
Proof.
  apply (CFUniCharPrioritySort_is_stable_sort accent_classes [0x45; 0x301; 0x323; 0x300] []).
  repeat constructor; eexists; vm_compute; reflexivity.
Defined.
