(* ===== verification/CFUnicodeDecomposeText.v ===== *)
(** * CFUnicodeDecomposeText: decomposing text is canonical decomposition

    The theory of CFUniCharDecompose: canonical ordering, what the routine needs
    of its tables (the class [Decomposer]), and the theorem that it stores the
    canonical decomposition of the longest part of the text that it can, cut
    where the canonical order allows. *)

From S2P Require Import Prelude CFInternal CFUniChar CFUnicodeDecomposition.
From stdpp Require Import base list numbers option.
From Stdlib Require Import ZArith Lia Sorting.Permutation Sorting.Sorted.
Open Scope Z_scope.
Open Scope cf_scope.

(** ** Canonical ordering

    The order the Unicode standard prescribes: between one starter and the next
    the combining characters are sorted by class, stably. *)

Section Ordering.
Context (D : decomposition_tables).
Notation ccc := (ccc D).

Fixpoint rins (x : Z) (l : list Z) : list Z :=
  match l with
  | [] => [x]
  | y :: l' => if (ccc y =? 0) || (ccc x <=? ccc y) then x :: l else y :: rins x l'
  end.

Fixpoint reorder (l : list Z) : list Z :=
  match l with
  | [] => []
  | x :: l' => if ccc x =? 0 then x :: reorder l' else rins x (reorder l')
  end.

Lemma rins_app_starter x l b r : ccc b = 0 -> rins x (l ++ b :: r) = rins x l ++ b :: r.
Proof.
  intros Hb. induction l as [|y l IH]; simpl; [by rewrite Hb|]. destruct (_ || _); [done|]. simpl. by rewrite IH.
Qed.

(** A starter is where the order can be cut. *)
Lemma reorder_app_starter l b r : ccc b = 0 -> reorder (l ++ b :: r) = reorder l ++ reorder (b :: r).
Proof.
  intros Hb. induction l as [|x l IH]; [done|]. cbn [app reorder]. rewrite IH. cbn [reorder]. rewrite Hb, Z.eqb_refl.
  destruct (ccc x =? 0); [done|]. by apply rins_app_starter.
Qed.

Lemma reorder_starter b r : ccc b = 0 -> reorder (b :: r) = b :: reorder r.
Proof. intros Hb. cbn [reorder]. by rewrite Hb. Qed.

Lemma rins_ins x l : Forall (fun c => ccc c <> 0) l -> rins x l = ins D x l.
Proof.
  induction 1 as [|y l Hy Hl IH]; [done|]. cbn [rins ins]. destruct (Z.eqb_spec (ccc y) 0); [done|]. cbn [orb]. by rewrite IH.
Qed.

Lemma reorder_marks l : Forall (fun c => ccc c <> 0) l -> reorder l = isort D l.
Proof.
  induction 1 as [|x l Hx Hl IH]; [done|]. cbn [reorder isort foldr]. fold (isort D l).
  destruct (Z.eqb_spec (ccc x) 0); [done|]. rewrite IH. apply rins_ins. by rewrite isort_perm.
Qed.

(** A segment: starters, then combining characters only. *)
Definition segment (l : list Z) : Prop := Forall (fun c => ccc c <> 0) (after_starters D l).

Lemma segment_reorder l : segment l -> reorder l = leading_starters D l ++ isort D (after_starters D l).
Proof.
  intros Hs. rewrite <- (starters_app D l) at 1. revert Hs. unfold segment.
  assert (Forall (fun c => ccc c = 0) (leading_starters D l)) as H0.
  { induction l as [|x l IH]; simpl; [done|]. destruct (Z.eqb_spec (ccc x) 0); [by constructor|done]. }
  generalize (after_starters D l) as m. intros m Hm. induction H0 as [|x k Hx Hk IH]; cbn [app].
  - by apply reorder_marks.
  - rewrite reorder_starter by done. by rewrite IH.
Qed.

Lemma segment_app l m : segment l -> Forall (fun c => ccc c <> 0) m -> segment (l ++ m).
Proof.
  unfold segment. intros Hl Hm. induction l as [|x l IH]; cbn [app].
  - destruct Hm as [|y m Hy Hm]; cbn [after_starters]; [done|]. destruct (Z.eqb_spec (ccc y) 0); [done|]. by constructor.
  - cbn [after_starters] in *. destruct (ccc x =? 0); [by apply IH|]. change (x :: l ++ m) with ((x :: l) ++ m).
    by apply Forall_app.
Qed.

Lemma reorder_perm l : reorder l ≡ₚ l.
Proof.
  assert (forall x k, rins x k ≡ₚ x :: k) as Hr.
  { intros x. induction k as [|y k IH]; cbn [rins]; [done|]. destruct (_ || _); [done|]. rewrite IH. apply Permutation_swap. }
  induction l as [|x l IH]; [done|]. cbn [reorder]. destruct (_ =? _); [by rewrite IH|]. by rewrite Hr, IH.
Qed.

End Ordering.

(** ** What decomposing text needs of the tables

    An instance gives the scalar values it covers and, for each of them, whether
    it has a decomposition and its full decomposition, and ties these to what the
    code reads from the tables. *)

Class Decomposer (T : unichar_tables) (D : decomposition_tables) (isHFSPlus : bool) := {
  covered : Z -> Prop;
  decomposable : Z -> bool;
  full : Z -> list Z;
  covered_scalar c : covered c -> scalar c;
  decomposable_law c : covered c -> __CFUniCharIsDecomposableCharacterWithFlag T D c isHFSPlus = Some (decomposable c);
  class_law c : covered c -> class_known D c /\ Forall (class_known D) (full c);
  code_point_law c : covered c -> Forall code_point (full c);
  ascii_law c : 0 <= c < 0x80 -> ccc D c = 0 /\ decomposable c = false;
  alone_law c : covered c -> decomposable c = false -> full c = [c];
  length_law c : covered c -> (0 < length (full c) <= (if Z.eqb (ccc D c) 0 then 32 else 2))%nat;
  decompose_law c pre room max : covered c -> decomposable c = true ->
    (if ccc D c =? 0 then 32 else 2) <= max -> max <= Z.of_nat (length room) ->
    CFUniCharDecomposeCharacter D c (pre ++ room) (Z.of_nat (length pre)) max =
      Some (Z.of_nat (length (full c)), pre ++ full c ++ drop (length (full c)) room);
  base_law c : covered c -> ccc D c = 0 -> segment D (full c) /\ exists b l, full c = b :: l /\ ccc D b = 0;
  mark_law c : covered c -> ccc D c <> 0 -> Forall (fun b => ccc D b <> 0) (full c)
}.

(** The specification: all characters decomposed, in canonical order when the
    caller asks for it. *)
Definition decomposition {T D isHFSPlus} `{!Decomposer T D isHFSPlus} (needToReorder : bool) (cs : list Z) : list Z :=
  if needToReorder then reorder D (flat_map full cs) else flat_map full cs.

Section Decompose.
Context {T : unichar_tables} {D : decomposition_tables} {isHFSPlus : bool} `{!Decomposer T D isHFSPlus}.
Context (text : list Z) (maxLength : Z) (needToReorder : bool) (F : Z) (junk : Z).
Context (dst0 : list Z) (Hmax : 0 <= maxLength <= Z.of_nat (length dst0)).
Notation flat := (flat_map full).
Notation norm := (decomposition (T := T) (D := D) (isHFSPlus := isHFSPlus) needToReorder).

(** The destination holds [out]: nothing when there is no buffer. *)
Definition written (dst : list Z) (at_ used : Z) (out : list Z) : Prop :=
  used = Z.of_nat (length out) /\ length dst = length dst0 /\
  (maxLength = 0 -> dst = dst0 /\ at_ = 0) /\
  (maxLength <> 0 -> at_ = used /\ used <= maxLength /\ exists room, dst = out ++ room).

Lemma fill_written B rest dst at_ used out :
  Forall code_point B -> written dst at_ used out ->
  (exists dst' at' used',
    CFUniCharFillDestinationBuffer (B ++ rest) (Z.of_nat (length B)) dst at_ maxLength used F = Some (true, dst', at', used') /\
    written dst' at' used' (out ++ encode F B)) \/
  (exists dst',
    CFUniCharFillDestinationBuffer (B ++ rest) (Z.of_nat (length B)) dst at_ maxLength used F = Some (false, dst', at_, used) /\
    written dst' at_ used out /\ maxLength <> 0 /\ maxLength < used + Z.of_nat (length (encode F B))).
Proof.
  intros HB (Hu & Hl & H0 & H1). destruct (decide (maxLength = 0)) as [E|E].
  - destruct (H0 E) as [-> ->]. left. rewrite E, FillDestinationBuffer_counts by done. do 3 eexists. split; [done|].
    unfold written. rewrite length_app. split_and!; [lia|done|done|done].
  - destruct (H1 E) as (-> & Hle & room & ->). rewrite Hu in *. rewrite length_app in Hl.
    destruct (Z.le_gt_cases (Z.of_nat (length out) + Z.of_nat (length (encode F B))) maxLength) as [Hf|Hf].
    + left. rewrite FillDestinationBuffer_fits by (done || lia). do 3 eexists. split; [done|].
      unfold written. rewrite !length_app, length_drop. split_and!; [lia|lia|done|]. intros _.
      split_and!; [lia|lia|]. eexists. by rewrite (assoc_L (++)).
    + right. destruct (FillDestinationBuffer_fails F B rest out room maxLength (Z.of_nat (length out))) as (room' & Hr & ->); [done|done|lia..|].
      eexists. split; [done|]. unfold written. rewrite length_app. split_and!; [done|lia|done| |done|done].
      intros _. split_and!; [done|lia|by eexists].
Qed.

Lemma encode_perm (l k : list Z) : l ≡ₚ k -> length (encode F l) = length (encode F k).
Proof.
  induction 1 as [|x l k H IH|x y l|l k m H1 IH1 H2 IH2]; [done|..].
  - rewrite !encode_cons, !length_app. by rewrite IH.
  - rewrite !encode_cons, !length_app. lia.
  - lia.
Qed.

(** The buffer out: sorted when it is a segment, and a permutation in any case. *)
Lemma process_written B rest dst at_ used out :
  Forall code_point B -> Forall (class_known D) B -> written dst at_ used out ->
  (exists B' dst' at' used',
    __CFProcessReorderBuffer D (B ++ rest) (Z.of_nat (length B)) dst at_ maxLength used F =
      Some (true, B' ++ rest, (dst', at', used')) /\
    written dst' at' used' (out ++ encode F B') /\ (segment D B -> B' = reorder D B) /\ B' ≡ₚ B) \/
  (exists B' dst',
    __CFProcessReorderBuffer D (B ++ rest) (Z.of_nat (length B)) dst at_ maxLength used F =
      Some (false, B' ++ rest, (dst', at_, used)) /\ B' ≡ₚ B /\
    written dst' at_ used out /\ maxLength <> 0 /\ maxLength < used + Z.of_nat (length (encode F B))).
Proof.
  intros HB Hk Hw. unfold __CFProcessReorderBuffer.
  assert (exists B', (if 1 <? Z.of_nat (length B) then __CFUniCharPrioritySort D (B ++ rest) (Z.of_nat (length B))
    else Some (B ++ rest)) = Some (B' ++ rest) /\ (segment D B -> B' = reorder D B) /\ B' ≡ₚ B) as (B' & -> & Hs & Hp).
  { destruct (Z.ltb_spec 1 (Z.of_nat (length B))).
    - rewrite PrioritySort_eq by done. eexists. rewrite (assoc_L (++)). split_and!; [done|intros; by rewrite segment_reorder|].
      rewrite isort_perm, starters_app. done.
    - exists B. split_and!; [done| |done]. intros _. destruct B as [|x [|]]; [done| |simpl in *; lia]. simpl.
      by destruct (_ =? _). }
  cbn [opt_bind]. rewrite <- (Permutation_length Hp).
  destruct (fill_written B' rest dst at_ used out) as [(dst' & at' & used' & -> & Hw')|(dst' & -> & Hw' & Hm & Ho)]; [by rewrite Hp|done|..].
  - left. exists B', dst', at', used'. done.
  - right. exists B', dst'. split_and!; try done. by rewrite (encode_perm _ _ Hp) in Ho.
Qed.

(** *** The state of the loop

    The text is [cs0 ++ cs1 ++ cs2]: written, waiting in the buffer, and still to
    be read. *)

Record pending (l : decompose_locals) (cs0 cs1 cs2 : list Z) : Prop := {
  p_length : l_length l = Z.of_nat (length (encode16 (cs1 ++ cs2)));
  p_segment : l_segment l = Z.of_nat (length (encode16 cs1));
  p_size : l_size l = Z.of_nat (length (l_buffer l)) /\ 32 <= l_size l;
  p_len : l_len l = Z.of_nat (length (flat cs1));
  p_buffer : exists rest, l_buffer l = flat cs1 ++ rest;
  p_shape : segment D (flat cs1) /\ (cs1 = [] \/ needToReorder = true);
  p_written : written (l_dst l) (l_at l) (l_used l) (encode F (norm cs0));
  p_cut : needToReorder = true -> forall X, reorder D (flat cs0 ++ flat cs1 ++ X) = reorder D (flat cs0) ++ reorder D (flat cs1 ++ X)
}.

(** A stop before the end: [cs0] is written, the rest does not fit. *)
Record stopped (l : decompose_locals) (cs0 cs2 : list Z) : Prop := {
  s_length : l_length l = Z.of_nat (length (encode16 cs2));
  s_rest : cs2 <> [];
  s_written : written (l_dst l) (l_at l) (l_used l) (encode F (norm cs0));
  s_cut : norm (cs0 ++ cs2) = norm cs0 ++ norm cs2;
  s_full : maxLength <> 0 /\ maxLength < Z.of_nat (length (encode F (norm (cs0 ++ cs2))));
  s_buffer : l_len l = 0 \/ exists B rest, l_buffer l = B ++ rest /\ l_len l = Z.of_nat (length B) /\
    Forall code_point B /\ Forall (class_known D) B /\ maxLength < l_used l + Z.of_nat (length (encode F B))
}.

Lemma flat_app l k : flat (l ++ k) = flat l ++ flat k.
Proof. apply flat_map_app. Qed.

Lemma flat_ok cs : Forall covered cs -> Forall code_point (flat cs) /\ Forall (class_known D) (flat cs).
Proof.
  induction 1 as [|c cs Hc Hcs [IH1 IH2]]; [done|]. cbn [flat_map].
  split; apply Forall_app; split; [by apply code_point_law|done|by apply class_law|done].
Qed.

Lemma flat_nonempty c cs : covered c -> (0 < length (flat (c :: cs)))%nat.
Proof. intros Hc. cbn [flat_map]. rewrite length_app. pose proof (length_law c Hc). lia. Qed.

Lemma norm_flat_length cs : length (encode F (norm cs)) = length (encode F (flat cs)).
Proof. unfold decomposition. destruct needToReorder; [|done]. apply encode_perm, reorder_perm. Qed.

Lemma norm_app_le cs0 cs1 :
  (length (encode F (norm (cs0 ++ cs1))) = length (encode F (norm cs0)) + length (encode F (norm cs1)))%nat.
Proof. by rewrite !norm_flat_length, flat_app, encode_app, length_app. Qed.

(** Cutting the text where the order of the decompositions is cut. *)
Lemma norm_cut cs0 cs1 :
  (needToReorder = true -> reorder D (flat cs0 ++ flat cs1) = reorder D (flat cs0) ++ reorder D (flat cs1)) ->
  norm (cs0 ++ cs1) = norm cs0 ++ norm cs1.
Proof. intros H. unfold decomposition. rewrite flat_app. destruct needToReorder; auto. Qed.

(** The buffer went out. *)
Record flushed (l l' : decompose_locals) (cs0 cs2 : list Z) : Prop := {
  f_src : l_src l' = l_src l;
  f_length : l_length l' = Z.of_nat (length (encode16 cs2));
  f_segment : l_segment l' = 0;
  f_size : l_size l' = Z.of_nat (length (l_buffer l')) /\ 32 <= l_size l';
  f_len : l_len l' = 0;
  f_written : written (l_dst l') (l_at l') (l_used l') (encode F (norm cs0))
}.

Lemma encode16_app l k : encode16 (l ++ k) = encode16 l ++ encode16 k.
Proof. apply encode_app. Qed.

Lemma norm_pending l cs0 cs1 cs2 X : pending l cs0 cs1 cs2 -> norm (cs0 ++ cs1 ++ X) = norm cs0 ++ norm (cs1 ++ X).
Proof.
  intros Hp. apply norm_cut. intros H. rewrite flat_app. by apply (p_cut _ _ _ _ Hp).
Qed.

Lemma flush_pending l cs0 cs1 cs2 :
  pending l cs0 cs1 cs2 -> Forall covered cs1 ->
  (exists l', flush_segment D maxLength F l = Some (true, l') /\ flushed l l' (cs0 ++ cs1) cs2) \/
  (exists l', flush_segment D maxLength F l = Some (false, l') /\ stopped l' cs0 (cs1 ++ cs2)).
Proof.
  intros Hp Hsc. pose proof Hp as []. unfold flush_segment. destruct cs1 as [|c cs1].
  { left. exists l. rewrite p_len0. simpl. split; [done|]. rewrite app_nil_r. split; try done. }
  pose proof (flat_nonempty c cs1 ltac:(by apply Forall_cons_1 in Hsc as [? _])) as Hne.
  destruct p_shape0 as [Hseg [?| Hr]]; [done|]. destruct p_size0 as [Hsz H32].
  destruct (Z.ltb_spec 0 (l_len l)); [|lia]. destruct p_buffer0 as [rest Hb]. destruct (flat_ok _ Hsc) as [Hcp Hck].
  pose proof (norm_pending l cs0 (c :: cs1) cs2 [] Hp) as Hn. rewrite app_nil_r in Hn.
  assert (norm (c :: cs1) = reorder D (flat (c :: cs1))) as Hn1 by (unfold decomposition; by rewrite Hr).
  rewrite Hb, p_len0.
  destruct (process_written (flat (c :: cs1)) rest (l_dst l) (l_at l) (l_used l) (encode F (norm cs0)) Hcp Hck p_written0)
    as [(B & dst' & at' & used' & -> & Hw & HB & Hperm)|(B & dst' & -> & Hperm & Hw & Hm & Ho)]; cbn [opt_bind].
  - left. eexists. split; [done|]. split; cbn -[written]; try done.
    + rewrite p_length0, p_segment0, encode16_app, length_app. lia.
    + rewrite length_app, (Permutation_length Hperm), <- length_app, <- Hb. done.
    + by rewrite Hn, encode_app, Hn1, <- (HB Hseg).
  - right. eexists. split; [done|]. split; cbn -[written]; try done.
    + exact (norm_pending l cs0 (c :: cs1) cs2 cs2 Hp).
    + split; [done|]. destruct p_written0 as [Hu _]. rewrite Hu, <- norm_flat_length in Ho.
      rewrite norm_app_le. change (c :: cs1 ++ cs2) with ((c :: cs1) ++ cs2). rewrite norm_app_le. lia.
    + right. exists B, rest. rewrite (Permutation_length Hperm), (encode_perm _ _ Hperm).
      split_and!; [done|done|by rewrite Hperm|by rewrite Hperm|done].
Qed.

(** A starter that stays alone ends what is written: a new segment begins. *)
Lemma alone_pending l cs0 c b cs2 :
  l_length l = Z.of_nat (length (encode16 cs2)) -> l_segment l = 0 ->
  l_size l = Z.of_nat (length (l_buffer l)) /\ 32 <= l_size l -> l_len l = 0 ->
  written (l_dst l) (l_at l) (l_used l) (encode F (norm (cs0 ++ [c]))) ->
  (needToReorder = true -> full c = [b] /\ ccc D b = 0) ->
  pending l (cs0 ++ [c]) [] cs2.
Proof.
  intros Hl Hs Hz Hn Hw Hb. split; try done.
  - by exists (l_buffer l).
  - split; [constructor|by left].
  - intros Hr X. destruct (Hb Hr) as [Hf H0]. rewrite flat_app. cbn [flat_map app]. rewrite Hf, app_nil_r.
    rewrite <- (assoc_L (++)). cbn [app]. rewrite !reorder_app_starter, !reorder_starter by done.
    cbn [reorder app]. by rewrite <- (assoc_L (++)).
Qed.

(** The order is cut before a character of class 0. *)
Lemma base_cut c cs0 X :
  covered c -> ccc D c = 0 -> needToReorder = true ->
  reorder D (flat cs0 ++ full c ++ X) = reorder D (flat cs0) ++ reorder D (full c ++ X).
Proof.
  intros Hc H0 _. destruct (base_law c Hc H0) as [_ (b & k & -> & Hb)]. cbn [app]. by apply reorder_app_starter.
Qed.

Lemma norm_base c cs0 X :
  covered c -> (needToReorder = true -> ccc D c = 0) -> norm (cs0 ++ c :: X) = norm cs0 ++ norm (c :: X).
Proof. intros Hc H0. apply norm_cut. intros Hr. cbn [flat_map]. apply base_cut; auto. Qed.

Lemma units_of_utf16 c : units_of c = Z.of_nat (length (utf16 c)).
Proof. rewrite length_utf16. unfold units_of. bool_case; done. Qed.

Lemma encode_form_length c : (0 < length (encode F (full c)))%nat \/ full c = [].
Proof.
  destruct (full c) as [|b k]; [by right|left]. rewrite encode_cons, length_app. pose proof (encoding_form_pos F b). lia.
Qed.

(** *** The branches *)

Lemma ascii_step c l cs0 cs1 cs2 :
  pending l cs0 cs1 (c :: cs2) -> Forall covered cs1 -> covered c -> 0 <= c < 0x80 ->
  exists ok l', decompose_ascii D maxLength F c l = Some (ok, l') /\
  (if (ok : bool) then l_src l' = l_src l /\ pending l' (cs0 ++ cs1 ++ [c]) [] cs2
   else stopped l' cs0 (cs1 ++ c :: cs2) \/ stopped l' (cs0 ++ cs1) (c :: cs2)).
Proof.
  intros Hp Hsc Hs Hc. unfold decompose_ascii. destruct (ascii_law c Hc) as [H0 Hd].
  pose proof (alone_law c Hs Hd) as Hf.
  destruct (flush_pending _ _ _ _ Hp Hsc) as [(l' & -> & Hfl)|(l' & -> & Hst)]; cbn [opt_bind negb].
  2: { exists false, l'. auto. }
  destruct Hfl as [Hsrc Hlen Hseg Hsz Hln Hw]. pose proof Hw as (Hu & Hdl & HA & HB).
  assert (norm [c] = [c]) as Hn1.
  { unfold decomposition. cbn [flat_map]. rewrite Hf. cbn [app]. destruct needToReorder; [|done]. cbn. by destruct (_ =? _). }
  assert (encode F [c] = [c]) as He.
  { unfold encode, encoding_form, utf16, utf8. cbn. by repeat destruct (_ =? _); bool_case. }
  pose proof (norm_base c (cs0 ++ cs1) [] Hs ltac:(done)) as Hcut1. rewrite Hn1 in Hcut1.
  assert (encode F (norm ((cs0 ++ cs1) ++ [c])) = encode F (norm (cs0 ++ cs1)) ++ [c]) as Hout by (by rewrite Hcut1, encode_app, He).
  assert (Z.of_nat (length (encode16 (c :: cs2))) = 1 + Z.of_nat (length (encode16 cs2))) as H16.
  { rewrite encode16_cons, length_app, Nat2Z.inj_add, length_utf16. bool_case; done. }
  destruct (Z.ltb_spec 0 maxLength) as [Hm|Hm].
  - destruct HB as (Hat & Hle & room & Hroom); [lia|].
    destruct (Z.leb_spec maxLength (l_used l')) as [Hov|Hov]; cbn [opt_bind].
    + exists false, l'. split; [done|]. right. split; try done.
      * by apply norm_base.
      * split; [lia|]. change (c :: cs2) with ([c] ++ cs2). rewrite (assoc_L (++)), norm_app_le, Hout, length_app. simpl length. lia.
      * by left.
    + rewrite Hroom. destruct room as [|x room]; [rewrite Hroom, app_nil_r in Hdl; lia|].
      rewrite wr_app_here by lia. cbn [opt_bind]. do 2 eexists. split; [done|]. cbn -[app]. split; [done|].
      rewrite (assoc_L (++) cs0). apply (alone_pending _ _ _ c); cbn; try done; [lia|].
      rewrite Hout. unfold written. rewrite Hroom in Hdl. rewrite !length_app in *. simpl length in *.
      split_and!; [lia|done|lia|]. intros _. split_and!; [lia|lia|]. exists room. by rewrite <- (assoc_L (++)).
  - cbn [opt_bind]. do 2 eexists. split; [done|]. cbn -[app]. split; [done|].
    rewrite (assoc_L (++) cs0). apply (alone_pending _ _ _ c); cbn; try done; [lia|].
    rewrite Hout. unfold written. rewrite length_app. simpl length. split_and!; [lia|done|done|lia].
Qed.

(** A decomposed character behind what the buffer holds. *)
Lemma decomposed_in_buffer c pre room max :
  covered c -> (if ccc D c =? 0 then 32 else 2) <= max -> max <= Z.of_nat (length room) ->
  (if decomposable c then
     let* (n, buffer) := CFUniCharDecomposeCharacter D c (pre ++ room) (Z.of_nat (length pre)) max in
     Some (Z.of_nat (length pre) + n, buffer)
   else let* buffer := wr (pre ++ room) (Z.of_nat (length pre)) c in Some (Z.of_nat (length pre) + 1, buffer)) =
  Some (Z.of_nat (length (pre ++ full c)), (pre ++ full c) ++ drop (length (full c)) room).
Proof.
  intros Hc Hm Hroom. destruct (decomposable c) eqn:Hd.
  - rewrite decompose_law by done. cbn [opt_bind]. rewrite length_app, Nat2Z.inj_add, <- (assoc_L (++)). done.
  - rewrite (alone_law c Hc Hd). destruct room as [|x room]; [destruct (_ =? _); simpl in *; lia|].
    rewrite wr_app_here by done. cbn [opt_bind]. rewrite length_app, <- (assoc_L (++)). simpl length.
    rewrite Nat2Z.inj_add. done.
Qed.

Lemma combining_step c l cs0 cs1 cs2 :
  pending l cs0 cs1 (c :: cs2) -> covered c -> ccc D c <> 0 -> needToReorder = true ->
  exists l', decompose_combining T D isHFSPlus junk c l = Some (true, l') /\ l_src l' = l_src l /\
    pending l' cs0 (cs1 ++ [c]) cs2.
Proof.
  intros [Hl Hs [Hz H32] Hn [rest Hb] [Hsh _] Hw Hcut] Hc H0 Hr. unfold decompose_combining.
  assert (exists rest' size, (if l_size l <=? l_len l + 1 then
       let* newBuffer := memmove (replicate (Z.to_nat (l_size l + MAX_BUFFER_LENGTH)) junk) 0 (l_buffer l) 0
                           (l_size l + MAX_BUFFER_LENGTH - MAX_BUFFER_LENGTH) in
       Some (newBuffer, l_size l + MAX_BUFFER_LENGTH)
     else Some (l_buffer l, l_size l)) = Some (flat cs1 ++ rest', size) /\
     size = Z.of_nat (length (flat cs1 ++ rest')) /\ 32 <= size /\ l_len l + 2 <= size) as (rest' & size & -> & Hsz & H32' & Hfree).
  { rewrite Hb, length_app in Hz. unfold MAX_BUFFER_LENGTH. destruct (Z.leb_spec (l_size l) (l_len l + 1)).
    - rewrite memmove_ok by (rewrite ?length_replicate, ?Hb, ?length_app; lia). cbn [opt_bind].
      rewrite Hb. replace (l_size l + 32 - 32) with (l_size l) by lia. rewrite Hz. change (Z.to_nat 0) with 0%nat.
      rewrite Nat2Z.id. cbn [take app]. rewrite drop_0, (firstn_all2 (flat cs1 ++ rest)) by (rewrite ?length_app; lia).
      rewrite take_0. cbn [app].
      rewrite <- (assoc_L (++)). eexists _, _. split; [done|]. rewrite !length_app, length_drop, length_replicate. lia.
    - exists rest, (l_size l). rewrite Hb, length_app. split_and!; [done|lia|lia|lia]. }
  cbn [opt_bind]. rewrite decomposable_law by done. cbn [opt_bind].
  rewrite length_app in Hsz. rewrite Hn, (decomposed_in_buffer c (flat cs1) rest') by (destruct (Z.eqb_spec (ccc D c) 0); done || lia).
  cbn [opt_bind]. eexists. split; [done|]. split; [done|].
  split; cbn -[written]; rewrite ?flat_app; cbn [flat_map]; rewrite ?app_nil_r; try done.
  - by rewrite <- (assoc_L (++)).
  - rewrite encode16_app, length_app, units_of_utf16, Hs, Nat2Z.inj_add. unfold encode at 3. cbn [flat_map]. rewrite app_nil_r. done.
  - split; [|lia]. rewrite !length_app, length_drop. pose proof (length_law c Hc). destruct (Z.eqb_spec (ccc D c) 0); [done|lia].
  - by eexists.
  - split; [|by right]. apply segment_app; [done|by apply mark_law].
  - intros _ X. specialize (Hcut Hr (full c ++ X)). by rewrite <- (assoc_L (++)).
Qed.

Lemma base_step c l cs0 cs1 cs2 :
  pending l cs0 cs1 (c :: cs2) -> Forall covered cs1 -> covered c -> (needToReorder = true -> ccc D c = 0) ->
  exists ok l', decompose_base T D maxLength needToReorder F isHFSPlus c l = Some (ok, l') /\
  (if (ok : bool) then l_src l' = l_src l /\
     (pending l' (cs0 ++ cs1 ++ [c]) [] cs2 \/ pending l' (cs0 ++ cs1) [c] cs2)
   else stopped l' cs0 (cs1 ++ c :: cs2) \/ stopped l' (cs0 ++ cs1) (c :: cs2)).
Proof.
  intros Hp Hsc Hc H0. unfold decompose_base.
  destruct (flush_pending _ _ _ _ Hp Hsc) as [(l' & -> & Hfl)|(l' & -> & Hst)]; cbn [opt_bind negb].
  2: { exists false, l'. auto. }
  destruct Hfl as [Hsrc Hlen Hseg [Hsz H32] Hln Hw]. rewrite decomposable_law by done. cbn [opt_bind].
  assert (Z.of_nat (length (full c)) <= 32) as Hfl.
  { pose proof (length_law c Hc). destruct (ccc D c =? 0); lia. }
  assert ((if decomposable c then CFUniCharDecomposeCharacter D c (l_buffer l') 0 MAX_BUFFER_LENGTH
      else let* buffer := wr (l_buffer l') 0 c in Some (1, buffer)) =
    Some (Z.of_nat (length (full c)), full c ++ drop (length (full c)) (l_buffer l'))) as ->.
  { destruct (decomposable c) eqn:Hd.
    - apply (decompose_law c [] (l_buffer l') MAX_BUFFER_LENGTH Hc Hd); unfold MAX_BUFFER_LENGTH; [destruct (_ =? _)|]; lia.
    - rewrite (alone_law c Hc Hd). destruct (l_buffer l') as [|x b]; [simpl in *; lia|]. done. }
  cbn [opt_bind].
  assert (Z.of_nat (length (encode16 (c :: cs2))) = units_of c + Z.of_nat (length (encode16 cs2))) as H16.
  { rewrite encode16_cons, length_app, units_of_utf16. lia. }
  pose proof (norm_base c (cs0 ++ cs1) [] Hc H0) as Hcut1.
  destruct (flat_ok [c] ltac:(by constructor)) as [Hcp Hck]. cbn [flat_map] in Hcp, Hck. rewrite app_nil_r in Hcp, Hck.
  destruct (negb needToReorder || (Z.of_nat (length (full c)) =? 1)) eqn:Hone.
  - assert (norm [c] = full c) as Hn1.
    { unfold decomposition. cbn [flat_map]. rewrite app_nil_r. destruct needToReorder; [|done]. cbn [negb orb] in Hone.
      apply Z.eqb_eq in Hone. destruct (full c) as [|b [|]]; [done| |simpl in Hone; lia]. cbn. by destruct (_ =? _). }
    rewrite Hn1 in Hcut1.
    destruct (fill_written (full c) (drop (length (full c)) (l_buffer l')) _ _ _ _ Hcp Hw)
      as [(dst' & at' & used' & -> & Hw')|(dst' & -> & Hw' & Hm & Ho)]; cbn [opt_bind].
    + do 2 eexists. split; [done|]. cbn -[app]. split; [done|]. left. rewrite (assoc_L (++) cs0).
      apply (alone_pending _ _ _ (hd 0 (full c))); cbn -[written]; try done; [lia| |by rewrite Hcut1, encode_app|].
      * rewrite length_app, length_drop. lia.
      * intros Hr. rewrite Hr in Hone. cbn [negb orb] in Hone. apply Z.eqb_eq in Hone.
        destruct (base_law c Hc (H0 Hr)) as [_ (b & k & E & Hb)]. rewrite E in Hone |- *.
        destruct k; [done|simpl in Hone; lia].
    + do 2 eexists. split; [done|]. cbn -[app]. right. split; cbn -[written]; try done.
      * by apply norm_base.
      * split; [done|]. destruct Hw as [Hu _]. change (c :: cs2) with ([c] ++ cs2).
        rewrite (assoc_L (++)), norm_app_le, Hcut1, encode_app, length_app. lia.
      * right. do 2 eexists. split_and!; done.
  - apply orb_false_iff in Hone as [Hr Hone]. apply negb_false_iff in Hr.
    do 2 eexists. split; [done|]. cbn -[app]. split; [done|]. right.
    split; cbn -[written]; try done.
    + rewrite Hseg, units_of_utf16. unfold encode. cbn [flat_map]. by rewrite app_nil_r.
    + split; [|done]. rewrite length_app, length_drop. lia.
    + by rewrite app_nil_r.
    + exists (drop (length (full c)) (l_buffer l')). by rewrite app_nil_r.
    + rewrite app_nil_r. split; [|by right]. apply base_law; auto.
    + intros _ X. rewrite app_nil_r. apply base_cut; auto.
Qed.

(** *** Reading and the loop *)

Lemma decompose_step_reads c l spre cs2 srest :
  text = spre ++ encode16 (c :: cs2) ++ srest -> l_src l = Z.of_nat (length spre) -> covered c ->
  Z.of_nat (length (encode16 (c :: cs2))) <= l_length l - l_segment l ->
  decompose_step T D text maxLength needToReorder F isHFSPlus junk l =
    if c <? 0x80 then decompose_ascii D maxLength F c (set_src (l_src l + 1) l)
    else if needToReorder && negb (ccc D c =? 0)
         then decompose_combining T D isHFSPlus junk c (set_src (l_src l + units_of c) l)
         else decompose_base T D maxLength needToReorder F isHFSPlus c (set_src (l_src l + units_of c) l).
Proof.
  intros Ht Hs Hc Hlen. unfold decompose_step. rewrite Ht, Hs, encode16_cons, <- !(assoc_L (++)).
  rewrite encode16_cons, length_app in Hlen. unfold decompose_surrogates, units_of.
  assert (forall l', (let* nonBase := (if needToReorder then __CFUniCharIsNonBaseCharacter D c else Some false) in
      if (nonBase : bool) then decompose_combining T D isHFSPlus junk c l'
      else decompose_base T D maxLength needToReorder F isHFSPlus c l') =
    if needToReorder && negb (ccc D c =? 0) then decompose_combining T D isHFSPlus junk c l'
    else decompose_base T D maxLength needToReorder F isHFSPlus c l') as Hbr.
  { intros l'. destruct needToReorder; [|done]. unfold __CFUniCharIsNonBaseCharacter.
    destruct (class_law c Hc) as [Hk _]. rewrite Hk. cbn [opt_bind]. rewrite Z.eqb_sym. by destruct (_ =? _). }
  destruct (utf16_cases c (covered_scalar c Hc)) as [(Hb & Eu & Eh & El)|(h & w & Hb & Eu & Eh & El & Ec & _ & _)]; rewrite Eu in *; cbn [app].
  - rewrite rd_app_here by done. cbn [opt_bind]. destruct (c <? 0x80); [done|]. rewrite El, Eh. cbn [opt_bind].
    rewrite Hbr. destruct (Z.ltb_spec 0xFFFF c); [lia|]. done.
  - rewrite rd_app_here by done. cbn [opt_bind]. apply andb_true_iff in Eh as Eh'. destruct Eh' as [E1 E2].
    destruct (Z.ltb_spec h 0x80); [lia|]. destruct (Z.ltb_spec c 0x80); [lia|]. destruct (Z.ltb_spec 0xFFFF c); [|lia].
    assert (CFUniCharIsSurrogateLowCharacter h = false) as -> by (unfold CFUniCharIsSurrogateLowCharacter; bool_case; done).
    rewrite Eh. cbn [l_length l_segment l_src set_src]. simpl length in Hlen.
    destruct (Z.ltb_spec 1 (l_length l - l_segment l)); [|lia].
    assert (rd (spre ++ h :: w :: encode16 cs2 ++ srest) (Z.of_nat (length spre) + 1) = Some w) as ->.
    { rewrite (cons_middle h spre), (assoc_L (++)). apply rd_app_here. cf_lia. }
    cbn [opt_bind]. rewrite El, Ec. cbn [opt_bind]. rewrite Hbr.
    replace (Z.of_nat (length spre) + 1 + 1) with (Z.of_nat (length spre) + 2) by lia. done.
Qed.

Lemma decompose_loop_ok fuel l spre cs0 cs1 cs2 srest :
  text = spre ++ encode16 cs2 ++ srest -> l_src l = Z.of_nat (length spre) ->
  pending l cs0 cs1 cs2 -> Forall covered cs1 -> Forall covered cs2 -> (length cs2 <= fuel)%nat ->
  exists l', decompose_loop T D text maxLength needToReorder F isHFSPlus junk fuel l = Some l' /\
  ((exists cs3 cs4, cs0 ++ cs1 ++ cs2 = cs3 ++ cs4 /\ pending l' cs3 cs4 [] /\ Forall covered cs4) \/
   (exists cs3 cs4, cs0 ++ cs1 ++ cs2 = cs3 ++ cs4 /\ stopped l' cs3 cs4)).
Proof.
  intros Ht Hs Hp H1 H2. revert fuel l spre cs0 cs1 Ht Hs Hp H1.
  induction H2 as [|c cs2 Hc H2 IH]; intros fuel l spre cs0 cs1 Ht Hs Hp H1 Hf.
  { exists l. split; [|left; exists cs0, cs1; by rewrite app_nil_r].
    destruct Hp. rewrite app_nil_r in p_length0. destruct fuel; cbn [decompose_loop];
      (destruct (Z.ltb_spec 0 (l_length l - l_segment l)); [lia|done]). }
  destruct fuel as [|fuel]; [simpl in Hf; lia|]. cbn [decompose_loop].
  assert (Z.of_nat (length (encode16 (c :: cs2))) = l_length l - l_segment l) as Hlen.
  { destruct Hp. rewrite p_length0, p_segment0, encode16_app, length_app. lia. }
  assert (0 < Z.of_nat (length (encode16 (c :: cs2)))) as Hpos.
  { rewrite encode16_cons, length_app, Nat2Z.inj_add, length_utf16. destruct (_ <? _); lia. }
  destruct (Z.ltb_spec 0 (l_length l - l_segment l)); [|lia].
  rewrite (decompose_step_reads c l spre cs2 srest Ht Hs Hc) by lia.
  assert (forall l' cs0' cs1', l_src l' = l_src l + units_of c -> pending l' cs0' cs1' cs2 -> Forall covered cs1' ->
    cs0' ++ cs1' = cs0 ++ cs1 ++ [c] ->
    exists l'', decompose_loop T D text maxLength needToReorder F isHFSPlus junk fuel l' = Some l'' /\
    ((exists cs3 cs4, cs0 ++ cs1 ++ c :: cs2 = cs3 ++ cs4 /\ pending l'' cs3 cs4 [] /\ Forall covered cs4) \/
     (exists cs3 cs4, cs0 ++ cs1 ++ c :: cs2 = cs3 ++ cs4 /\ stopped l'' cs3 cs4))) as Hnext.
  { intros l' cs0' cs1' Hs' Hp' H1' Hcs. replace (cs0 ++ cs1 ++ c :: cs2) with (cs0' ++ cs1' ++ cs2).
    2: { rewrite (assoc_L (++)), Hcs, <- !(assoc_L (++)). done. }
    apply (IH fuel l' (spre ++ utf16 c)); [by rewrite Ht, encode16_cons, <- !(assoc_L (++))| |done|done|simpl in Hf; lia].
    rewrite Hs', Hs, units_of_utf16, length_app. lia. }
  assert (forall s, pending (set_src s l) cs0 cs1 (c :: cs2)) as Hset by (intros s; by destruct Hp; split).
  assert (forall l', stopped l' cs0 (cs1 ++ c :: cs2) \/ stopped l' (cs0 ++ cs1) (c :: cs2) ->
    exists l'', Some l' = Some l'' /\
    ((exists cs3 cs4, cs0 ++ cs1 ++ c :: cs2 = cs3 ++ cs4 /\ pending l'' cs3 cs4 [] /\ Forall covered cs4) \/
     (exists cs3 cs4, cs0 ++ cs1 ++ c :: cs2 = cs3 ++ cs4 /\ stopped l'' cs3 cs4))) as Hstop.
  { intros l' Hst. exists l'. split; [done|]. right. destruct Hst as [Hst|Hst].
    - by exists cs0, (cs1 ++ c :: cs2).
    - exists (cs0 ++ cs1), (c :: cs2). by rewrite <- (assoc_L (++)). }
  destruct (Z.ltb_spec c 0x80) as [Ha|Ha].
  - destruct (ascii_step c (set_src (l_src l + 1) l) cs0 cs1 cs2 (Hset _) H1 Hc) as ([|] & l' & -> & Hr);
      [pose proof (covered_scalar c Hc) as Hsc; unfold scalar in Hsc; lia| |]; cbn [opt_bind]; [|by apply Hstop].
    destruct Hr as [Hsrc Hp']. apply (Hnext l' (cs0 ++ cs1 ++ [c]) []); [|done|done|by rewrite app_nil_r].
    rewrite Hsrc. unfold units_of. destruct (Z.ltb_spec 0xFFFF c); [lia|done].
  - destruct (needToReorder && negb (ccc D c =? 0)) eqn:Hb.
    + apply andb_true_iff in Hb as [Hr H0]. apply negb_true_iff, Z.eqb_neq in H0.
      destruct (combining_step c (set_src (l_src l + units_of c) l) cs0 cs1 cs2 (Hset _) Hc H0 Hr) as (l' & -> & Hsrc & Hp').
      cbn [opt_bind]. apply (Hnext l' cs0 (cs1 ++ [c])); [done|done| |by rewrite (assoc_L (++))].
      apply Forall_app. split; [done|by constructor].
    + destruct (base_step c (set_src (l_src l + units_of c) l) cs0 cs1 cs2 (Hset _) H1 Hc) as ([|] & l' & -> & Hr);
        [| |]; cbn [opt_bind]; [|..|by apply Hstop].
      { intros Hr. rewrite Hr in Hb. cbn [andb] in Hb. by apply negb_false_iff, Z.eqb_eq in Hb. }
      destruct Hr as [Hsrc [Hp'|Hp']].
      * apply (Hnext l' (cs0 ++ cs1 ++ [c]) []); [done..|by rewrite app_nil_r].
      * apply (Hnext l' (cs0 ++ cs1) [c]); [done|done|by constructor|by rewrite <- (assoc_L (++))].
Qed.

Lemma flush_stopped l cs0 cs2 :
  stopped l cs0 cs2 ->
  exists ok l', flush_segment D maxLength F l = Some (ok, l') /\ l_length l' = l_length l /\
    written (l_dst l') (l_at l') (l_used l') (encode F (norm cs0)).
Proof.
  intros [Hl Hne Hw Hcut [Hm Hfull] Hb]. unfold flush_segment. destruct Hb as [H0|(B & rest & Hb & Hlen & Hcp & Hck & Ho)].
  { rewrite H0. simpl. by exists true, l. }
  destruct (Z.ltb_spec 0 (l_len l)); [|by exists true, l]. rewrite Hb, Hlen.
  destruct (process_written B rest _ _ _ _ Hcp Hck Hw)
    as [(B' & dst' & at' & used' & -> & Hw' & _ & Hperm)|(B' & dst' & -> & _ & Hw' & _)]; cbn [opt_bind].
  - exfalso. destruct Hw' as (Hu' & _ & _ & H1). destruct (H1 Hm) as (_ & Hle & _). destruct Hw as [Hu _].
    rewrite length_app in Hu'. rewrite (encode_perm _ _ Hperm) in Hu'. lia.
  - do 2 eexists. split; [done|]. done.
Qed.

Lemma decompose_ok cs srest :
  Forall covered cs -> text = encode16 cs ++ srest ->
  exists cs1 cs2 dst',
    cs = cs1 ++ cs2 /\ norm cs = norm cs1 ++ norm cs2 /\
    CFUniCharDecompose T D text maxLength needToReorder F isHFSPlus junk (Z.of_nat (length (encode16 cs))) dst0 =
      Some (bool_decide (cs2 = []), Z.of_nat (length (encode16 cs1)), dst', Z.of_nat (length (encode F (norm cs1)))) /\
    length dst' = length dst0 /\
    (maxLength = 0 -> dst' = dst0 /\ cs2 = []) /\
    (maxLength <> 0 -> Z.of_nat (length (encode F (norm cs1))) <= maxLength /\
                       take (length (encode F (norm cs1))) dst' = encode F (norm cs1)) /\
    (cs2 <> [] -> maxLength < Z.of_nat (length (encode F (norm cs)))).
Proof.
  intros Hcs Ht. unfold CFUniCharDecompose. rewrite Nat2Z.id.
  set (l0 := {| l_src := 0 |}).
  assert (norm [] = []) as Hnil by (unfold decomposition; by destruct needToReorder).
  assert (pending l0 [] [] cs) as Hp0.
  { split; cbn -[written]; try done.
    - by eexists.
    - split; [constructor|by left].
    - rewrite Hnil. unfold written. cbn. split_and!; try done. intros _. split_and!; [done|lia|by exists dst0]. }
  destruct (decompose_loop_ok (length (encode16 cs)) l0 [] [] [] cs srest) as (l & -> & Hend); [done|done|done|done|done|apply length_encode16_le|].
  cbn [opt_bind]. cbn [app] in Hend.
  assert (forall cs1 cs2 ok l', cs = cs1 ++ cs2 -> norm cs = norm cs1 ++ norm cs2 ->
    flush_segment D maxLength F l = Some (ok, l') -> l_length l' = Z.of_nat (length (encode16 cs2)) ->
    written (l_dst l') (l_at l') (l_used l') (encode F (norm cs1)) ->
    (cs2 <> [] -> maxLength <> 0 /\ maxLength < Z.of_nat (length (encode F (norm cs)))) ->
    exists cs1 cs2 dst',
    cs = cs1 ++ cs2 /\ norm cs = norm cs1 ++ norm cs2 /\
    (let* (_, l'0) := flush_segment D maxLength F l in
     Some (if 0 <? l_length l'0 then false else true, Z.of_nat (length (encode16 cs)) - l_length l'0, l_dst l'0, l_used l'0)) =
      Some (bool_decide (cs2 = []), Z.of_nat (length (encode16 cs1)), dst', Z.of_nat (length (encode F (norm cs1)))) /\
    length dst' = length dst0 /\
    (maxLength = 0 -> dst' = dst0 /\ cs2 = []) /\
    (maxLength <> 0 -> Z.of_nat (length (encode F (norm cs1))) <= maxLength /\
                       take (length (encode F (norm cs1))) dst' = encode F (norm cs1)) /\
    (cs2 <> [] -> maxLength < Z.of_nat (length (encode F (norm cs))))) as Hfin.
  { intros cs1 cs2 ok l' E Hn Hfl Hl (Hu & Hd & H0 & H1) Hfull. exists cs1, cs2, (l_dst l'). split_and!; [done|done| |done|..].
    - rewrite Hfl. cbn [opt_bind]. rewrite Hl, Hu. rewrite E at 1. rewrite encode16_app, length_app, Nat2Z.inj_add, Z.add_simpl_r.
      repeat f_equal. destruct cs2 as [|c cs2]; [done|].
      rewrite bool_decide_eq_false_2 by done. pose proof (length_encode16_le (c :: cs2)) as Hle. cbn [length] in Hle.
      destruct (Z.ltb_spec 0 (Z.of_nat (length (encode16 (c :: cs2))))); [done|lia].
    - intros Hm. split; [by apply H0|]. destruct cs2; [done|]. destruct Hfull; done.
    - intros Hm. destruct (H1 Hm) as (_ & Hle & room & ->). split; [lia|]. by rewrite take_app_length.
    - intros Hne. by apply Hfull. }
  destruct Hend as [(cs3 & cs4 & E & Hp & H4)|(cs3 & cs4 & E & Hst)].
  - pose proof (norm_pending _ _ _ _ [] Hp) as Hn. rewrite app_nil_r in Hn.
    destruct (flush_pending _ _ _ _ Hp H4) as [(l' & Hfl & [_ Hl _ _ _ Hw])|(l' & Hfl & Hst)].
    + rewrite <- E in Hw. apply (Hfin cs [] true l'); [by rewrite app_nil_r|by rewrite Hnil, app_nil_r|done|done|done|done].
    + rewrite app_nil_r in Hst. destruct Hst. rewrite E in *. by apply (Hfin cs3 cs4 false l').
  - destruct (flush_stopped _ _ _ Hst) as (ok & l' & Hfl & Hl & Hw). destruct Hst. rewrite E in *.
    apply (Hfin cs3 cs4 ok l'); try done. by rewrite Hl.
Qed.

End Decompose.
