(* ===== verification/CFUnicodeData.v ===== *)
(** * CFUnicodeData: the tables CoreFoundation ships

    The data files next to the sources (CFUnicodeData-L.mapping,
    CFUniCharPropertyDatabase.data and CFCharacterSetBitmaps.bitmap), as far as
    canonical decomposition reads them, and the proof that they have the laws
    decomposing text needs: the conditions are boolean, and evaluated. *)

From S2P Require Import Prelude CFInternal CFUniChar CFUnicodeDecomposition CFUnicodeDecomposeText.
From stdpp Require Import base list numbers option.
From Stdlib Require Import ZArith Lia.
Open Scope Z_scope.
Open Scope cf_scope.

(** ** Expanding a character

    The full decomposition of a character of the table, and the buffer the
    recursion asks for, which is more than it fills. *)

Section Expand.
Context (D : decomposition_tables).

(** [n] cells of a table from place [i] on, if it has them. *)
Definition slice (l : list Z) (i n : nat) : option (list Z) :=
  if decide (i + n <= length l)%nat then Some (take n (drop i l)) else None.

(** The mapping [value], with [rec] for the first character. *)
Definition expand_value (rec : Z -> option (list Z * Z)) (value : Z) : option (list Z * Z) :=
  let n := CFUniCharConvertFlagToCount value in
  let first := Z.land value 0xFFFFFF in
  let mappings := if 1 <? n then drop (Z.to_nat first) (__CFUniCharMultipleDecompositionTable D) else [first] in
  if negb (Z.land value kCFUniCharRecursiveDecompositionFlag =? 0) then
    let* first := rd mappings 0 in
    let* (l, need) := rec first in
    let* tail := slice mappings 1 (Z.to_nat (n - 1)) in
    if (0 <? n) && (0 <? Z.of_nat (length l)) then Some (l ++ tail, n + need) else None
  else
    let* l := slice mappings 0 (Z.to_nat n) in Some (l, n).

Fixpoint expand (fuel : nat) (c : Z) : option (list Z * Z) :=
  match fuel with
  | O => None
  | S fuel =>
      let* value := __CFUniCharGetMappedValue (__CFUniCharDecompositionTable D) (__CFUniCharDecompositionTableLength D) c in
      expand_value (expand fuel) value
  end.

Lemma slice_spec l i n k : slice l i n = Some k -> (i + n <= length l)%nat /\ k = take n (drop i l) /\ length k = n.
Proof.
  unfold slice. destruct (decide _); [|done]. intros [= <-]. split_and!; [done|done|]. rewrite length_take, length_drop. lia.
Qed.

Lemma copy_chars_eq n src m pre room :
  (m + n <= length src)%nat -> (n <= length room)%nat ->
  copy_chars n src (Z.of_nat m) (pre ++ room) (Z.of_nat (length pre)) =
    Some (pre ++ take n (drop m src) ++ drop n room).
Proof.
  revert m pre room. induction n as [|n IH]; intros m pre room Hm Hr; [by rewrite drop_0|].
  destruct room as [|x room]; [simpl in Hr; lia|]. cbn [copy_chars]. rewrite rd_nat.
  destruct (lookup_lt_is_Some_2 src m) as [c Hc]; [lia|]. rewrite Hc. cbn [opt_bind]. rewrite wr_app_here by done. cbn [opt_bind].
  rewrite (cons_middle c pre), (assoc_L (++)).
  replace (Z.of_nat m + 1) with (Z.of_nat (S m)) by lia.
  replace (Z.of_nat (length pre) + 1) with (Z.of_nat (length (pre ++ [c]))) by cf_lia.
  rewrite IH by (simpl in Hr; lia). rewrite (drop_S src c m Hc). by rewrite <- (assoc_L (++)).
Qed.

Lemma flag_count_nonneg v : 0 <= CFUniCharConvertFlagToCount v.
Proof. unfold CFUniCharConvertFlagToCount. rewrite Z.land_nonneg. by right. Qed.

Lemma expand_decomposes fuel c l need :
  expand fuel c = Some (l, need) ->
  Z.of_nat (length l) <= need /\
  forall pre room max, need <= max -> (length l <= length room)%nat ->
    __CFUniCharRecursivelyDecomposeCharacter D fuel c (pre ++ room) (Z.of_nat (length pre)) max =
      Some (Z.of_nat (length l), pre ++ l ++ drop (length l) room).
Proof.
  revert c l need. induction fuel as [|fuel IH]; intros c l need; cbn [expand __CFUniCharRecursivelyDecomposeCharacter]; [done|].
  destruct (__CFUniCharGetMappedValue _ _ c) as [value|]; cbn [opt_bind]; [|done]. unfold expand_value.
  pose proof (flag_count_nonneg value) as Hn. set (n := CFUniCharConvertFlagToCount value) in *.
  set (mappings := if 1 <? n then drop (Z.to_nat (Z.land value 0xFFFFFF)) (__CFUniCharMultipleDecompositionTable D)
                   else [Z.land value 0xFFFFFF]).
  destruct (negb (Z.land value kCFUniCharRecursiveDecompositionFlag =? 0)).
  - destruct (rd mappings 0) as [first|]; cbn [opt_bind]; [|done].
    destruct (expand fuel first) as [[l1 need1]|] eqn:E1; cbn [opt_bind]; [|done].
    destruct (slice mappings 1 (Z.to_nat (n - 1))) as [tail|] eqn:Et; cbn [opt_bind]; [|done].
    destruct ((0 <? n) && (0 <? Z.of_nat (length l1))) eqn:Eg; [|done]. intros [= <- <-].
    apply andb_true_iff in Eg as [Hn0 Hl0]. apply Z.ltb_lt in Hn0, Hl0.
    destruct (IH _ _ _ E1) as [Hle Hrun]. apply slice_spec in Et as (Hsl & -> & Htl).
    rewrite length_app, Htl. split; [lia|]. intros pre room max Hm Hroom.
    destruct (Z.ltb_spec max n); [lia|]. rewrite Hrun by lia. cbn [opt_bind].
    assert ((Z.of_nat (length l1) =? 0) || (max <? Z.of_nat (length l1) + (n - 1)) = false) as -> by (bool_case; done).
    rewrite (assoc_L (++)). replace (Z.of_nat (length pre) + Z.of_nat (length l1)) with (Z.of_nat (length (pre ++ l1))) by (rewrite length_app; lia).
    change 1 with (Z.of_nat 1) at 2. rewrite copy_chars_eq by (rewrite ?length_drop; lia). cbn [opt_bind].
    rewrite drop_drop, <- !(assoc_L (++)). repeat f_equal. lia.
  - destruct (slice mappings 0 (Z.to_nat n)) as [l'|] eqn:Et; cbn [opt_bind]; [|done]. intros [= <- <-].
    apply slice_spec in Et as (Hsl & -> & Htl). rewrite Htl. split; [lia|]. intros pre room max Hm Hroom.
    destruct (Z.ltb_spec max n); [lia|]. change 0 with (Z.of_nat 0) at 1. rewrite copy_chars_eq by lia. cbn [opt_bind].
    repeat f_equal. lia.
Qed.

End Expand.

(** ** The laws by evaluation *)

(** The characters of a bitmap, from [base] on. *)
Fixpoint bits_from (base : Z) (bytes : list Z) : list Z :=
  match bytes with
  | [] => []
  | b :: bytes =>
      (if b =? 0 then [] else List.filter (fun x => Z.testbit b (x - base)) ((fun k => base + Z.of_nat k) <$> seq 0 8)) ++
      bits_from (base + 8) bytes
  end.

Lemma bits_from_complete base bytes i b k :
  bytes !! i = Some b -> 0 <= k < 8 -> Z.testbit b k = true -> In (base + 8 * Z.of_nat i + k) (bits_from base bytes).
Proof.
  revert base i. induction bytes as [|x bytes IH]; intros base i Hi Hk Hb; [done|]. cbn [bits_from]. apply in_app_iff.
  destruct i as [|i].
  - injection Hi as ->. left. destruct (Z.eqb_spec b 0) as [->|]; [by rewrite Z.bits_0 in Hb|].
    apply filter_In. split.
    + apply list_elem_of_In, list_elem_of_fmap. exists (Z.to_nat k). split; [lia|]. apply elem_of_seq. lia.
    + replace (base + 8 * Z.of_nat 0 + k - base) with k by lia. done.
  - right. simpl in Hi. specialize (IH (base + 8) i Hi Hk Hb).
    replace (base + 8 * Z.of_nat (S i) + k) with (base + 8 + 8 * Z.of_nat i + k) by lia. done.
Qed.

Definition is_hangul (c : Z) : bool := (HANGUL_SBASE <=? c) && (c <=? HANGUL_SBASE + HANGUL_SCOUNT).

Definition hangul_jamo (c : Z) : list Z :=
  let c := c - HANGUL_SBASE in
  [c / HANGUL_NCOUNT + HANGUL_LBASE; c mod HANGUL_NCOUNT / HANGUL_TCOUNT + HANGUL_VBASE] ++
  (if c mod HANGUL_TCOUNT =? 0 then [] else [c mod HANGUL_TCOUNT + HANGUL_TBASE]).

Lemma hangul_decomposes D c pre room max :
  is_hangul c = true -> 3 <= max -> max <= Z.of_nat (length room) ->
  CFUniCharDecomposeCharacter D c (pre ++ room) (Z.of_nat (length pre)) max =
    Some (Z.of_nat (length (hangul_jamo c)), pre ++ hangul_jamo c ++ drop (length (hangul_jamo c)) room).
Proof.
  intros Hh Hm Hr. unfold CFUniCharDecomposeCharacter. fold (is_hangul c). rewrite Hh. unfold hangul_jamo.
  destruct room as [|x [|y [|z room]]]; [simpl in Hr; lia..|].
  destruct ((c - HANGUL_SBASE) mod HANGUL_TCOUNT =? 0); cbn [negb].
  - destruct (Z.ltb_spec max 2); [lia|]. rewrite wr_app_here by done. cbn [opt_bind].
    rewrite wr_app_there by done. done.
  - destruct (Z.ltb_spec max 3); [lia|]. rewrite wr_app_here by done. cbn [opt_bind].
    rewrite wr_app_there by done. cbn [opt_bind]. change (2 <? 3) with true. cbn iota.
    match goal with |- context [wr (pre ++ ?a :: ?b :: z :: room)] =>
      change (pre ++ a :: b :: z :: room) with (pre ++ [a; b] ++ z :: room) end.
    rewrite (assoc_L (++)), wr_app_here by (rewrite length_app; simpl; lia). cbn [opt_bind]. by rewrite <- (assoc_L (++)).
Qed.

(** [included k l]: [l] is a subsequence of [k]. *)
Fixpoint included (k l : list Z) : bool :=
  match l with
  | [] => true
  | x :: l' => match k with [] => false | y :: k' => if x =? y then included k' l' else included k' l end
  end.

Lemma included_In k l x : included k l = true -> In x l -> In x k.
Proof.
  revert l. induction k as [|y k IH]; intros [|z l]; simpl; try done.
  destruct (Z.eqb_spec z y) as [->|]; intros H Hin.
  - destruct Hin as [->|Hin]; [by left|right; by apply (IH l)].
  - right. by apply (IH (z :: l)).
Qed.

(** *** The search of the table *)

Fixpoint keys_increase (l : list __CFUniCharDecomposeMappings) : bool :=
  match l with
  | e :: (e' :: _) as l' => (_key e <? _key e') && keys_increase l'
  | _ => true
  end.

Lemma keys_increase_lookup l i j e e' :
  keys_increase l = true -> l !! i = Some e -> l !! j = Some e' -> (i < j)%nat -> _key e < _key e'.
Proof.
  revert i j e. induction l as [|x [|y l] IH]; intros i j e Hs Hi Hj Hij; [done| |].
  { destruct j; [lia|done]. }
  cbn [keys_increase] in Hs. apply andb_true_iff in Hs as [Hxy Hs]. apply Z.ltb_lt in Hxy.
  destruct j as [|j]; [lia|]. destruct i as [|i]; [|by apply (IH i j); auto with lia].
  injection Hi as ->. destruct j as [|j]; [by injection Hj as ->|].
  assert (_key y < _key e') by (apply (IH 0%nat (S j)); auto with lia). lia.
Qed.

Lemma mapped_loop_finds fuel l p q i e :
  keys_increase l = true -> l !! i = Some e -> 0 <= p <= Z.of_nat i -> Z.of_nat i <= q < Z.of_nat (length l) ->
  q - p < Z.of_nat fuel -> mapped_loop fuel l p q (_key e) = Some (_value e).
Proof.
  intros Hs Hi. revert p q. induction fuel as [|fuel IH]; intros p q Hp Hq Hf; [lia|]. cbn [mapped_loop].
  destruct (Z.leb_spec p q); [|lia]. rewrite Z.shiftr_div_pow2 by lia. change (2 ^ 1) with 2.
  assert (p <= p + (q - p) / 2 <= q) as Hd by (Z.to_euclidean_division_equations; lia).
  destruct (rd_Some l (p + (q - p) / 2)) as [d Ed]; [lia|]. rewrite Ed. cbn [opt_bind]. apply rd_inv in Ed as [_ Ed].
  set (m := p + (q - p) / 2) in *.
  destruct (Z.ltb_spec (_key e) (_key d)) as [Hlt|Hge].
  { apply IH; [lia| |lia]. destruct (decide (Z.to_nat m <= i)%nat); [|lia]. exfalso.
    destruct (decide (Z.to_nat m = i)) as [<-|]; [rewrite Hi in Ed; injection Ed as ->; lia|].
    pose proof (keys_increase_lookup l (Z.to_nat m) i d e Hs Ed Hi). lia. }
  destruct (Z.ltb_spec (_key d) (_key e)) as [Hlt|Hge'].
  { apply IH; [|lia|lia]. destruct (decide (i <= Z.to_nat m)%nat); [|lia]. exfalso.
    destruct (decide (Z.to_nat m = i)) as [<-|]; [rewrite Hi in Ed; injection Ed as ->; lia|].
    pose proof (keys_increase_lookup l i (Z.to_nat m) e d Hs Hi Ed). lia. }
  destruct (decide (Z.to_nat m = i)) as [<-|]; [congruence|].
  destruct (decide (i < Z.to_nat m)%nat).
  - pose proof (keys_increase_lookup l i (Z.to_nat m) e d Hs Hi Ed). lia.
  - pose proof (keys_increase_lookup l (Z.to_nat m) i d e Hs Ed Hi). lia.
Qed.

(** In a table with increasing keys the search finds every key. *)
Lemma GetMappedValue_finds l e :
  keys_increase l = true -> In e l -> __CFUniCharGetMappedValue l (Z.of_nat (length l)) (_key e) = Some (_value e).
Proof.
  intros Hs Hin. apply list_elem_of_In, list_elem_of_lookup in Hin as [i Hi]. pose proof (lookup_lt_Some _ _ _ Hi) as Hlt.
  unfold __CFUniCharGetMappedValue. destruct (rd_Some l 0) as [a Ea]; [lia|]. rewrite Ea. cbn [opt_bind].
  destruct (rd_Some l (Z.of_nat (length l) - 1)) as [z Ez]; [lia|]. apply rd_inv in Ea as [_ Ea].
  assert (_key a <= _key e) as Hae.
  { destruct i as [|i]; [change (Z.to_nat 0) with 0%nat in Ea; rewrite Hi in Ea; injection Ea as ->; lia|].
    pose proof (keys_increase_lookup l 0 (S i) a e Hs Ea Hi). lia. }
  assert (_key e <= _key z) as Hez.
  { apply rd_inv in Ez as [_ Ez]. destruct (decide (i = Z.to_nat (Z.of_nat (length l) - 1))) as [->|].
    - rewrite Hi in Ez. injection Ez as ->. lia.
    - pose proof (keys_increase_lookup l i _ e z Hs Hi Ez). lia. }
  destruct (Z.ltb_spec (_key e) (_key a)); [lia|]. rewrite Ez. cbn [opt_bind].
  destruct (Z.ltb_spec (_key z) (_key e)); [lia|]. apply (mapped_loop_finds _ _ _ _ i); try done; lia.
Qed.

Section Check.
Context (T : unichar_tables) (D : decomposition_tables) (isHFSPlus : bool).
(** characters whose decomposition begins with a combining character although
    they are not one *)
Context (exceptional : Z -> bool).

Definition combining_ok : bool :=
  forallb (fun p => match p with
    | None => true
    | Some bytes =>
        (256 <=? Z.of_nat (length bytes)) &&
        forallb (fun v => (0 <=? v) && (256 + v * 256 <=? Z.of_nat (length bytes))) (take 256 bytes)
    end) (__CFUniCharCombiningPriorityTable D).

Definition plane_bitmap (plane : Z) : option (option (list Z)) :=
  if plane =? 0 then
    Some (if isHFSPlus then __CFUniCharHFSPlusDecomposableBitmapForBMP D else __CFUniCharDecomposableBitmapForBMP D)
  else CFUniCharGetBitmapPtrForPlane T kCFUniCharCanonicalDecomposableCharacterSet plane.

Definition expansion (c : Z) : option (list Z * Z) := expand D (S (length (__CFUniCharDecompositionTable D))) c.

(** The check of an entry of the table, which needs no search. *)
Definition segment_check (l : list Z) : bool :=
  forallb (fun b => negb (ccc D b =? 0)) (after_starters D l) &&
  match l with b :: _ => ccc D b =? 0 | [] => false end.

Definition expansion_ok (c : Z) (x : option (list Z * Z)) : bool :=
  match x with
  | Some (l, need) =>
      (0 <? Z.of_nat (length l)) && (need <=? (if ccc D c =? 0 then 32 else 2)) &&
      forallb (fun b => (0 <=? b) && (b <? 0x110000)) l &&
      (if ccc D c =? 0 then exceptional c || segment_check l else forallb (fun b => negb (ccc D b =? 0)) l)
  | None => false
  end.

(** Syllables and the letters they are made of are starters. *)
Fixpoint starters_from (base : Z) (n : nat) : bool :=
  match n with O => true | S n => (ccc D base =? 0) && starters_from (base + 1) n end.

Definition hangul_ok : bool :=
  starters_from HANGUL_SBASE (S (Z.to_nat HANGUL_SCOUNT)) && starters_from HANGUL_LBASE 20 &&
  starters_from HANGUL_VBASE 21 && starters_from HANGUL_TBASE 28.

Definition char_ok (c : Z) : bool := if is_hangul c then true else expansion_ok c (expansion c).

Definition entry_ok (e : __CFUniCharDecomposeMappings) : bool :=
  expansion_ok (_key e) (expand_value D (expand D (length (__CFUniCharDecompositionTable D))) (_value e)).

Definition entries_ok : bool :=
  keys_increase (__CFUniCharDecompositionTable D) && forallb entry_ok (__CFUniCharDecompositionTable D).

Definition planes_ok : bool :=
  forallb (fun p => match plane_bitmap p with
    | Some (Some bytes) =>
        let chars := bits_from (p * 0x10000) (take plane_bytes bytes) in
        (8192 <=? Z.of_nat (length bytes)) &&
        included (_key <$> __CFUniCharDecompositionTable D) (List.filter (fun c => negb (is_hangul c)) chars)
    | Some None => true
    | None => false
    end) (Z.of_nat <$> seq 0 17).

Definition is_decomposable (c : Z) : bool := default false (__CFUniCharIsDecomposableCharacterWithFlag T D c isHFSPlus).

Definition ascii_ok : bool := forallb (fun c => (ccc D c =? 0) && negb (is_decomposable c)) (Z.of_nat <$> seq 0 128).

Definition full_decomposition (c : Z) : list Z :=
  if is_decomposable c then
    if is_hangul c then hangul_jamo c
    else match expansion c with Some (l, _) => l | None => [] end
  else [c].

Context (Hcomb : combining_ok = true) (Hhangul : hangul_ok = true) (Hentries : entries_ok = true) (Hplanes : planes_ok = true) (Hascii : ascii_ok = true).

Lemma starters_from_spec base n c : starters_from base n = true -> base <= c < base + Z.of_nat n -> ccc D c = 0.
Proof.
  revert base. induction n as [|n IH]; intros base H Hc; [lia|]. cbn [starters_from] in H.
  apply andb_true_iff in H as [H0 H]. destruct (decide (c = base)) as [->|]; [by apply Z.eqb_eq|]. apply (IH (base + 1)); [done|lia].
Qed.

Lemma hangul_starters c :
  is_hangul c = true -> ccc D c = 0 /\ Forall (fun b => ccc D b = 0) (hangul_jamo c).
Proof.
  unfold is_hangul. rewrite andb_true_iff, !Z.leb_le. intros Hc.
  unfold hangul_ok in Hhangul. rewrite !andb_true_iff in Hhangul. destruct Hhangul as [[[HS HL] HV] HT].
  split; [apply (starters_from_spec _ _ _ HS); unfold HANGUL_SCOUNT in *; lia|].
  unfold hangul_jamo, HANGUL_SBASE, HANGUL_SCOUNT, HANGUL_NCOUNT, HANGUL_VCOUNT, HANGUL_TCOUNT in *. change (21 * 28) with 588.
  assert (0 <= c - 0xAC00 <= 11172) as Hr by lia. generalize dependent (c - 0xAC00). intros s Hr.
  repeat constructor.
  - apply (starters_from_spec _ _ _ HL). Z.to_euclidean_division_equations. lia.
  - apply (starters_from_spec _ _ _ HV). Z.to_euclidean_division_equations. lia.
  - destruct (_ =? 0); repeat constructor. apply (starters_from_spec _ _ _ HT). Z.to_euclidean_division_equations. lia.
Qed.

Lemma entry_char_ok e : In e (__CFUniCharDecompositionTable D) -> is_hangul (_key e) = false -> char_ok (_key e) = true.
Proof.
  intros Hin Hh. unfold char_ok. rewrite Hh. unfold expansion. cbn [expand]. unfold __CFUniCharDecompositionTableLength.
  unfold entries_ok in Hentries. apply andb_true_iff in Hentries as [Hs Hall]. rewrite forallb_forall in Hall.
  rewrite GetMappedValue_finds by done. cbn [opt_bind]. by apply Hall.
Qed.

Lemma class_known_all c : 0 <= c -> class_known D c.
Proof.
  intros Hc. unfold class_known. Transparent ccc. unfold ccc. Opaque ccc.
  assert (is_Some (__CFUniCharGetCombiningPropertyForCharacter D c)) as [v ->]; [|done].
  unfold __CFUniCharGetCombiningPropertyForCharacter, __CFUniCharCombiningPriorityTableNumPlane.
  destruct (Z.ltb_spec (Z.shiftr c 16) (Z.of_nat (length (__CFUniCharCombiningPriorityTable D)))) as [Hp|]; [|by eexists].
  destruct (rd_Some (__CFUniCharCombiningPriorityTable D) (Z.shiftr c 16)) as [p Ep]; [split; [by apply Z.shiftr_nonneg|lia]|].
  rewrite Ep. cbn [opt_bind]. destruct p as [bytes|]; [|by eexists]. unfold CFUniCharGetCombiningPropertyForCharacter.
  apply rd_inv in Ep as [_ Ep]. unfold combining_ok in Hcomb. rewrite forallb_forall in Hcomb.
  specialize (Hcomb (Some bytes)). apply list_elem_of_lookup_2, list_elem_of_In, Hcomb in Ep.
  apply andb_true_iff in Ep as [Hl Hpages]. apply Z.leb_le in Hl. rewrite forallb_forall in Hpages.
  assert (0 <= Z.shiftr (uwrap 16 c) 8 < 256) as Hi.
  { pose proof (uwrap_range 16 c ltac:(lia)). rewrite Z.shiftr_div_pow2 by lia.
    change (2 ^ 16) with 65536 in *. change (2 ^ 8) with 256. Z.to_euclidean_division_equations. lia. }
  destruct (rd_Some bytes (Z.shiftr (uwrap 16 c) 8)) as [v Ev]; [lia|]. rewrite Ev. cbn [opt_bind].
  apply rd_inv in Ev as [_ Ev]. specialize (Hpages v).
  assert (In v (take 256 bytes)) as Hin.
  { apply list_elem_of_In, list_elem_of_lookup. exists (Z.to_nat (Z.shiftr (uwrap 16 c) 8)). rewrite lookup_take_lt by lia. done. }
  apply Hpages, andb_true_iff in Hin as [H0 H1]. apply Z.leb_le in H0, H1.
  destruct (Z.eqb_spec v 0); cbn [negb]; [by eexists|].
  pose proof (Z.mod_pos_bound (uwrap 16 c) 256 ltac:(lia)). destruct (rd_Some bytes (256 + (v - 1) * 256 + uwrap 16 c mod 256)) as [w ->]; [lia|].
  by eexists.
Qed.

(** What the check of the planes says of a character. *)
Lemma plane_check c :
  code_point c ->
  exists b, __CFUniCharIsDecomposableCharacterWithFlag T D c isHFSPlus = Some b /\ (b = true -> char_ok c = true).
Proof.
  intros Hc. unfold code_point in Hc. unfold __CFUniCharIsDecomposableCharacterWithFlag.
  assert (0 <= Z.shiftr c 16 < 17 /\ Z.land (Z.shiftr c 16) 0xFF = Z.shiftr c 16 /\
    (c <? 0x10000) = (Z.shiftr c 16 =? 0) /\ c = Z.shiftr c 16 * 0x10000 + c mod 0x10000) as (Hp & Hland & Hb & Hcp).
  { change 0xFF with (Z.ones 8). rewrite Z.land_ones by lia. rewrite Z.shiftr_div_pow2 by lia. change (2 ^ 16) with 0x10000.
    change (2 ^ 8) with 256. split_and!; try (Z.to_euclidean_division_equations; lia). }
  rewrite Hb, Hland. change (if Z.shiftr c 16 =? 0 then Some (if isHFSPlus then __CFUniCharHFSPlusDecomposableBitmapForBMP D
    else __CFUniCharDecomposableBitmapForBMP D) else CFUniCharGetBitmapPtrForPlane T kCFUniCharCanonicalDecomposableCharacterSet
    (Z.shiftr c 16)) with (plane_bitmap (Z.shiftr c 16)).
  unfold planes_ok in Hplanes. pose proof (forall_below _ 17 Hplanes (Z.shiftr c 16) Hp) as Hck. cbn beta in Hck.
  destruct (plane_bitmap (Z.shiftr c 16)) as [[bytes|]|]; [|by exists false|done]. cbn [opt_bind].
  apply andb_true_iff in Hck as [Hl Hinc]. apply Z.leb_le in Hl.
  pose proof (Z.mod_pos_bound c 0x10000 ltac:(lia)) as Hm. rewrite (member_low (c mod 0x10000) c) by done.
  rewrite member_spec by done.
  assert (0 <= c mod 0x10000 / 8 < 8192 /\ 0 <= (c mod 0x10000) mod 8 < 8) as [Hi Hk] by (Z.to_euclidean_division_equations; lia).
  destruct (rd_Some bytes (c mod 0x10000 / 8)) as [b Eb]; [lia|]. rewrite Eb. eexists. split; [done|]. intros Hbit.
  apply rd_inv in Eb as [_ Eb].
  pose proof (bits_from_complete (Z.shiftr c 16 * 0x10000) (take plane_bytes bytes) (Z.to_nat (c mod 0x10000 / 8)) b _
    ltac:(rewrite lookup_take_lt; [exact Eb|pose proof plane_bytes_Z; lia]) Hk Hbit) as Hin.
  assert (Z.shiftr c 16 * 0x10000 + 8 * Z.of_nat (Z.to_nat (c mod 0x10000 / 8)) + c mod 0x10000 mod 8 = c) as E.
  { rewrite Z2Nat.id by lia. pose proof (Z.div_mod (c mod 0x10000) 8 ltac:(lia)). lia. }
  rewrite E in Hin. destruct (is_hangul c) eqn:Hh.
  - unfold char_ok. by rewrite Hh.
  - apply (included_In _ _ c) in Hinc; [|apply filter_In; by rewrite Hh].
    apply list_elem_of_In, list_elem_of_fmap in Hinc as (e & -> & He). by apply entry_char_ok; [apply list_elem_of_In|].
Qed.

Definition covered_char (c : Z) : Prop := scalar c /\ exceptional c = false.

Lemma is_decomposable_law c :
  covered_char c -> __CFUniCharIsDecomposableCharacterWithFlag T D c isHFSPlus = Some (is_decomposable c).
Proof. intros [Hc _]. unfold is_decomposable. destruct (plane_check c) as (b & -> & _); auto. Qed.

(** The three kinds of character. *)
Lemma full_cases c :
  covered_char c ->
  (is_decomposable c = false /\ full_decomposition c = [c]) \/
  (is_decomposable c = true /\ is_hangul c = true /\ full_decomposition c = hangul_jamo c /\
   ccc D c = 0 /\ Forall (fun b => ccc D b = 0) (hangul_jamo c)) \/
  (is_decomposable c = true /\ is_hangul c = false /\ exists l need, expansion c = Some (l, need) /\ full_decomposition c = l /\
   (0 < length l)%nat /\ need <= (if ccc D c =? 0 then 32 else 2) /\ Forall code_point l /\
   (if ccc D c =? 0 then segment D l /\ (exists b k, l = b :: k /\ ccc D b = 0) else Forall (fun b => ccc D b <> 0) l)).
Proof.
  intros [Hc Hex]. unfold full_decomposition, is_decomposable.
  destruct (plane_check c) as (b & -> & Hok); [by auto|]. cbn [default from_option id]. destruct b; [right|by left].
  specialize (Hok eq_refl). unfold char_ok, expansion_ok in Hok. destruct (is_hangul c) eqn:Hh.
  - left. destruct (hangul_starters c Hh). done.
  - right. destruct (expansion c) as [[l need]|]; [|done]. rewrite !andb_true_iff in Hok. destruct Hok as [[[Hl Hn] Hcp] Hcl].
    split_and!; try done. exists l, need. split_and!; try done.
    + apply Z.ltb_lt in Hl. lia.
    + by apply Z.leb_le.
    + apply list.Forall_forall. intros x Hx. rewrite forallb_forall in Hcp. apply list_elem_of_In, Hcp in Hx. unfold code_point. lia.
    + assert (forall k, forallb (fun b => negb (ccc D b =? 0)) k = true -> Forall (fun b => ccc D b <> 0) k) as Hall.
      { intros k Hk. apply list.Forall_forall. intros x Hx. rewrite forallb_forall in Hk. apply list_elem_of_In, Hk in Hx.
        by apply negb_true_iff, Z.eqb_neq in Hx. }
      destruct (ccc D c =? 0); [|by apply Hall]. rewrite Hex in Hcl. cbn [orb] in Hcl. unfold segment_check in Hcl.
      apply andb_true_iff in Hcl as [Hs Hb]. split; [by apply Hall|]. destruct l as [|x k]; [done|]. exists x, k. split; [done|by apply Z.eqb_eq].
Qed.

Lemma hangul_jamo_code_points c : is_hangul c = true -> Forall code_point (hangul_jamo c).
Proof.
  unfold is_hangul, hangul_jamo, code_point, HANGUL_SBASE, HANGUL_SCOUNT, HANGUL_NCOUNT, HANGUL_VCOUNT, HANGUL_TCOUNT, HANGUL_LBASE,
    HANGUL_VBASE, HANGUL_TBASE. rewrite andb_true_iff, !Z.leb_le. intros Hc. change (21 * 28) with 588.
  destruct (_ =? 0); cbn [app]; repeat (apply Forall_cons_2; [Z.to_euclidean_division_equations; lia|]); apply Forall_nil_2.
Qed.

Lemma full_code_points c : covered_char c -> Forall code_point (full_decomposition c).
Proof.
  intros Hc. destruct (full_cases c Hc) as [[_ ->]|[(_ & Hh & -> & _)|(_ & _ & l & need & _ & -> & _ & _ & Hl & _)]]; [|by apply hangul_jamo_code_points|done].
  destruct Hc. constructor; auto.
Qed.

Lemma full_class_law c : covered_char c -> class_known D c /\ Forall (class_known D) (full_decomposition c).
Proof.
  intros Hc. split; [apply class_known_all; destruct Hc as [[]]; lia|].
  eapply list.Forall_impl; [by apply full_code_points|]. intros x Hx. apply class_known_all. destruct Hx. lia.
Qed.

Lemma full_alone_law c : covered_char c -> is_decomposable c = false -> full_decomposition c = [c].
Proof. intros _ H. unfold full_decomposition. by rewrite H. Qed.

Lemma full_ascii_law c : 0 <= c < 0x80 -> ccc D c = 0 /\ is_decomposable c = false.
Proof.
  intros Hc. pose proof (forall_below _ 128 Hascii c Hc) as H. cbn beta in H. apply andb_true_iff in H as [H1 H2].
  split; [by apply Z.eqb_eq|by apply negb_true_iff].
Qed.

Lemma hangul_jamo_length c : (2 <= length (hangul_jamo c) <= 3)%nat.
Proof. unfold hangul_jamo. destruct (_ =? 0); simpl; lia. Qed.

Lemma full_length_law c :
  covered_char c -> (0 < length (full_decomposition c) <= (if Z.eqb (ccc D c) 0 then 32 else 2))%nat.
Proof.
  intros Hc. destruct (full_cases c Hc) as [[_ ->]|[(_ & Hh & -> & -> & _)|(_ & _ & l & need & He & -> & Hl & Hn & _)]].
  - simpl. destruct (_ =? _); lia.
  - pose proof (hangul_jamo_length c). rewrite Z.eqb_refl. lia.
  - apply expand_decomposes in He as [Hle _]. destruct (_ =? _); lia.
Qed.

Lemma full_decompose_law c pre room max :
  covered_char c -> is_decomposable c = true -> (if ccc D c =? 0 then 32 else 2) <= max -> max <= Z.of_nat (length room) ->
  CFUniCharDecomposeCharacter D c (pre ++ room) (Z.of_nat (length pre)) max =
    Some (Z.of_nat (length (full_decomposition c)), pre ++ full_decomposition c ++ drop (length (full_decomposition c)) room).
Proof.
  intros Hc Hd Hm Hr. destruct (full_cases c Hc) as [[E _]|[(_ & Hh & -> & H0 & _)|(_ & Hh & l & need & He & -> & Hl & Hn & _)]].
  - congruence.
  - rewrite H0 in Hm. simpl in Hm. apply hangul_decomposes; [done|lia|done].
  - unfold CFUniCharDecomposeCharacter. fold (is_hangul c). rewrite Hh. apply expand_decomposes in He as [Hle Hrun].
    apply Hrun; lia.
Qed.

Lemma full_base_law c :
  covered_char c -> ccc D c = 0 ->
  segment D (full_decomposition c) /\ exists b l, full_decomposition c = b :: l /\ ccc D b = 0.
Proof.
  intros Hc H0. destruct (full_cases c Hc) as [[_ ->]|[(_ & Hh & -> & _ & Hj)|(_ & Hh & l & need & He & -> & Hl & Hn & _ & Hs)]].
  - split; [|by exists c, []]. unfold segment. cbn [after_starters]. by rewrite H0.
  - split.
    + unfold segment. induction Hj as [|x k Hx Hj IH]; [done|]. cbn [after_starters]. by rewrite Hx.
    + unfold hangul_jamo in *. cbn [app] in *. apply Forall_cons_1 in Hj as [Hj _]. by do 2 eexists.
  - by rewrite H0 in Hs.
Qed.

Lemma full_mark_law c : covered_char c -> ccc D c <> 0 -> Forall (fun b => ccc D b <> 0) (full_decomposition c).
Proof.
  intros Hc H0. destruct (full_cases c Hc) as [[_ ->]|[(_ & Hh & -> & ? & Hj)|(_ & Hh & l & need & He & -> & Hl & Hn & _ & Hs)]].
  - by constructor.
  - done.
  - destruct (Z.eqb_spec (ccc D c) 0); done.
Qed.

Definition checked_decomposer : Decomposer T D isHFSPlus := {|
  covered := covered_char;
  decomposable := is_decomposable;
  full := full_decomposition;
  covered_scalar c H := proj1 H;
  decomposable_law := is_decomposable_law;
  class_law := full_class_law;
  code_point_law := full_code_points;
  ascii_law := full_ascii_law;
  alone_law := full_alone_law;
  length_law := full_length_law;
  decompose_law := full_decompose_law;
  base_law := full_base_law;
  mark_law := full_mark_law |}.

End Check.

(** ** The data

    CFUnicodeData-L.mapping, the table of canonical decompositions, word by word
    (Unicode 7.0.0): its size in bytes, the pairs of key and value, and the
    table of the mappings to two characters. *)
Definition canonical_decomp_mapping : list Z :=
  [0x4060; 0xc0; 0x2000000; 0xc1; 0x2000002; 0xc2; 0x2000004; 0xc3; 0x2000006; 0xc4; 0x2000008; 0xc5; 0x200000a;
   0xc7; 0x200000c; 0xc8; 0x200000e; 0xc9; 0x2000010; 0xca; 0x2000012; 0xcb; 0x2000014; 0xcc; 0x2000016; 0xcd;
   0x2000018; 0xce; 0x200001a; 0xcf; 0x200001c; 0xd1; 0x200001e; 0xd2; 0x2000020; 0xd3; 0x2000022; 0xd4;
   0x2000024; 0xd5; 0x2000026; 0xd6; 0x2000028; 0xd9; 0x200002a; 0xda; 0x200002c; 0xdb; 0x200002e; 0xdc;
   0x2000030; 0xdd; 0x2000032; 0xe0; 0x2000034; 0xe1; 0x2000036; 0xe2; 0x2000038; 0xe3; 0x200003a; 0xe4;
   0x200003c; 0xe5; 0x200003e; 0xe7; 0x2000040; 0xe8; 0x2000042; 0xe9; 0x2000044; 0xea; 0x2000046; 0xeb;
   0x2000048; 0xec; 0x200004a; 0xed; 0x200004c; 0xee; 0x200004e; 0xef; 0x2000050; 0xf1; 0x2000052; 0xf2;
   0x2000054; 0xf3; 0x2000056; 0xf4; 0x2000058; 0xf5; 0x200005a; 0xf6; 0x200005c; 0xf9; 0x200005e; 0xfa;
   0x2000060; 0xfb; 0x2000062; 0xfc; 0x2000064; 0xfd; 0x2000066; 0xff; 0x2000068; 0x100; 0x200006a; 0x101;
   0x200006c; 0x102; 0x200006e; 0x103; 0x2000070; 0x104; 0x2000072; 0x105; 0x2000074; 0x106; 0x2000076; 0x107;
   0x2000078; 0x108; 0x200007a; 0x109; 0x200007c; 0x10a; 0x200007e; 0x10b; 0x2000080; 0x10c; 0x2000082; 0x10d;
   0x2000084; 0x10e; 0x2000086; 0x10f; 0x2000088; 0x112; 0x200008a; 0x113; 0x200008c; 0x114; 0x200008e; 0x115;
   0x2000090; 0x116; 0x2000092; 0x117; 0x2000094; 0x118; 0x2000096; 0x119; 0x2000098; 0x11a; 0x200009a; 0x11b;
   0x200009c; 0x11c; 0x200009e; 0x11d; 0x20000a0; 0x11e; 0x20000a2; 0x11f; 0x20000a4; 0x120; 0x20000a6; 0x121;
   0x20000a8; 0x122; 0x20000aa; 0x123; 0x20000ac; 0x124; 0x20000ae; 0x125; 0x20000b0; 0x128; 0x20000b2; 0x129;
   0x20000b4; 0x12a; 0x20000b6; 0x12b; 0x20000b8; 0x12c; 0x20000ba; 0x12d; 0x20000bc; 0x12e; 0x20000be; 0x12f;
   0x20000c0; 0x130; 0x20000c2; 0x134; 0x20000c4; 0x135; 0x20000c6; 0x136; 0x20000c8; 0x137; 0x20000ca; 0x139;
   0x20000cc; 0x13a; 0x20000ce; 0x13b; 0x20000d0; 0x13c; 0x20000d2; 0x13d; 0x20000d4; 0x13e; 0x20000d6; 0x143;
   0x20000d8; 0x144; 0x20000da; 0x145; 0x20000dc; 0x146; 0x20000de; 0x147; 0x20000e0; 0x148; 0x20000e2; 0x14c;
   0x20000e4; 0x14d; 0x20000e6; 0x14e; 0x20000e8; 0x14f; 0x20000ea; 0x150; 0x20000ec; 0x151; 0x20000ee; 0x154;
   0x20000f0; 0x155; 0x20000f2; 0x156; 0x20000f4; 0x157; 0x20000f6; 0x158; 0x20000f8; 0x159; 0x20000fa; 0x15a;
   0x20000fc; 0x15b; 0x20000fe; 0x15c; 0x2000100; 0x15d; 0x2000102; 0x15e; 0x2000104; 0x15f; 0x2000106; 0x160;
   0x2000108; 0x161; 0x200010a; 0x162; 0x200010c; 0x163; 0x200010e; 0x164; 0x2000110; 0x165; 0x2000112; 0x168;
   0x2000114; 0x169; 0x2000116; 0x16a; 0x2000118; 0x16b; 0x200011a; 0x16c; 0x200011c; 0x16d; 0x200011e; 0x16e;
   0x2000120; 0x16f; 0x2000122; 0x170; 0x2000124; 0x171; 0x2000126; 0x172; 0x2000128; 0x173; 0x200012a; 0x174;
   0x200012c; 0x175; 0x200012e; 0x176; 0x2000130; 0x177; 0x2000132; 0x178; 0x2000134; 0x179; 0x2000136; 0x17a;
   0x2000138; 0x17b; 0x200013a; 0x17c; 0x200013c; 0x17d; 0x200013e; 0x17e; 0x2000140; 0x1a0; 0x2000142; 0x1a1;
   0x2000144; 0x1af; 0x2000146; 0x1b0; 0x2000148; 0x1cd; 0x200014a; 0x1ce; 0x200014c; 0x1cf; 0x200014e; 0x1d0;
   0x2000150; 0x1d1; 0x2000152; 0x1d2; 0x2000154; 0x1d3; 0x2000156; 0x1d4; 0x2000158; 0x1d5; 0x4200015a; 0x1d6;
   0x4200015c; 0x1d7; 0x4200015e; 0x1d8; 0x42000160; 0x1d9; 0x42000162; 0x1da; 0x42000164; 0x1db; 0x42000166;
   0x1dc; 0x42000168; 0x1de; 0x4200016a; 0x1df; 0x4200016c; 0x1e0; 0x4200016e; 0x1e1; 0x42000170; 0x1e2;
   0x2000172; 0x1e3; 0x2000174; 0x1e6; 0x2000176; 0x1e7; 0x2000178; 0x1e8; 0x200017a; 0x1e9; 0x200017c; 0x1ea;
   0x200017e; 0x1eb; 0x2000180; 0x1ec; 0x42000182; 0x1ed; 0x42000184; 0x1ee; 0x2000186; 0x1ef; 0x2000188; 0x1f0;
   0x200018a; 0x1f4; 0x200018c; 0x1f5; 0x200018e; 0x1f8; 0x2000190; 0x1f9; 0x2000192; 0x1fa; 0x42000194; 0x1fb;
   0x42000196; 0x1fc; 0x2000198; 0x1fd; 0x200019a; 0x1fe; 0x200019c; 0x1ff; 0x200019e; 0x200; 0x20001a0; 0x201;
   0x20001a2; 0x202; 0x20001a4; 0x203; 0x20001a6; 0x204; 0x20001a8; 0x205; 0x20001aa; 0x206; 0x20001ac; 0x207;
   0x20001ae; 0x208; 0x20001b0; 0x209; 0x20001b2; 0x20a; 0x20001b4; 0x20b; 0x20001b6; 0x20c; 0x20001b8; 0x20d;
   0x20001ba; 0x20e; 0x20001bc; 0x20f; 0x20001be; 0x210; 0x20001c0; 0x211; 0x20001c2; 0x212; 0x20001c4; 0x213;
   0x20001c6; 0x214; 0x20001c8; 0x215; 0x20001ca; 0x216; 0x20001cc; 0x217; 0x20001ce; 0x218; 0x20001d0; 0x219;
   0x20001d2; 0x21a; 0x20001d4; 0x21b; 0x20001d6; 0x21e; 0x20001d8; 0x21f; 0x20001da; 0x226; 0x20001dc; 0x227;
   0x20001de; 0x228; 0x20001e0; 0x229; 0x20001e2; 0x22a; 0x420001e4; 0x22b; 0x420001e6; 0x22c; 0x420001e8;
   0x22d; 0x420001ea; 0x22e; 0x20001ec; 0x22f; 0x20001ee; 0x230; 0x420001f0; 0x231; 0x420001f2; 0x232;
   0x20001f4; 0x233; 0x20001f6; 0x340; 0x1000300; 0x341; 0x1000301; 0x343; 0x1000313; 0x344; 0x20001f8; 0x374;
   0x10002b9; 0x37e; 0x100003b; 0x385; 0x20001fa; 0x386; 0x20001fc; 0x387; 0x10000b7; 0x388; 0x20001fe; 0x389;
   0x2000200; 0x38a; 0x2000202; 0x38c; 0x2000204; 0x38e; 0x2000206; 0x38f; 0x2000208; 0x390; 0x4200020a; 0x3aa;
   0x200020c; 0x3ab; 0x200020e; 0x3ac; 0x2000210; 0x3ad; 0x2000212; 0x3ae; 0x2000214; 0x3af; 0x2000216; 0x3b0;
   0x42000218; 0x3ca; 0x200021a; 0x3cb; 0x200021c; 0x3cc; 0x200021e; 0x3cd; 0x2000220; 0x3ce; 0x2000222; 0x3d3;
   0x2000224; 0x3d4; 0x2000226; 0x400; 0x2000228; 0x401; 0x200022a; 0x403; 0x200022c; 0x407; 0x200022e; 0x40c;
   0x2000230; 0x40d; 0x2000232; 0x40e; 0x2000234; 0x419; 0x2000236; 0x439; 0x2000238; 0x450; 0x200023a; 0x451;
   0x200023c; 0x453; 0x200023e; 0x457; 0x2000240; 0x45c; 0x2000242; 0x45d; 0x2000244; 0x45e; 0x2000246; 0x476;
   0x2000248; 0x477; 0x200024a; 0x4c1; 0x200024c; 0x4c2; 0x200024e; 0x4d0; 0x2000250; 0x4d1; 0x2000252; 0x4d2;
   0x2000254; 0x4d3; 0x2000256; 0x4d6; 0x2000258; 0x4d7; 0x200025a; 0x4da; 0x200025c; 0x4db; 0x200025e; 0x4dc;
   0x2000260; 0x4dd; 0x2000262; 0x4de; 0x2000264; 0x4df; 0x2000266; 0x4e2; 0x2000268; 0x4e3; 0x200026a; 0x4e4;
   0x200026c; 0x4e5; 0x200026e; 0x4e6; 0x2000270; 0x4e7; 0x2000272; 0x4ea; 0x2000274; 0x4eb; 0x2000276; 0x4ec;
   0x2000278; 0x4ed; 0x200027a; 0x4ee; 0x200027c; 0x4ef; 0x200027e; 0x4f0; 0x2000280; 0x4f1; 0x2000282; 0x4f2;
   0x2000284; 0x4f3; 0x2000286; 0x4f4; 0x2000288; 0x4f5; 0x200028a; 0x4f8; 0x200028c; 0x4f9; 0x200028e; 0x622;
   0x2000290; 0x623; 0x2000292; 0x624; 0x2000294; 0x625; 0x2000296; 0x626; 0x2000298; 0x6c0; 0x200029a; 0x6c2;
   0x200029c; 0x6d3; 0x200029e; 0x929; 0x20002a0; 0x931; 0x20002a2; 0x934; 0x20002a4; 0x958; 0x20002a6; 0x959;
   0x20002a8; 0x95a; 0x20002aa; 0x95b; 0x20002ac; 0x95c; 0x20002ae; 0x95d; 0x20002b0; 0x95e; 0x20002b2; 0x95f;
   0x20002b4; 0x9cb; 0x20002b6; 0x9cc; 0x20002b8; 0x9dc; 0x20002ba; 0x9dd; 0x20002bc; 0x9df; 0x20002be; 0xa33;
   0x20002c0; 0xa36; 0x20002c2; 0xa59; 0x20002c4; 0xa5a; 0x20002c6; 0xa5b; 0x20002c8; 0xa5e; 0x20002ca; 0xb48;
   0x20002cc; 0xb4b; 0x20002ce; 0xb4c; 0x20002d0; 0xb5c; 0x20002d2; 0xb5d; 0x20002d4; 0xb94; 0x20002d6; 0xbca;
   0x20002d8; 0xbcb; 0x20002da; 0xbcc; 0x20002dc; 0xc48; 0x20002de; 0xcc0; 0x20002e0; 0xcc7; 0x20002e2; 0xcc8;
   0x20002e4; 0xcca; 0x20002e6; 0xccb; 0x420002e8; 0xd4a; 0x20002ea; 0xd4b; 0x20002ec; 0xd4c; 0x20002ee; 0xdda;
   0x20002f0; 0xddc; 0x20002f2; 0xddd; 0x420002f4; 0xdde; 0x20002f6; 0xf43; 0x20002f8; 0xf4d; 0x20002fa; 0xf52;
   0x20002fc; 0xf57; 0x20002fe; 0xf5c; 0x2000300; 0xf69; 0x2000302; 0xf73; 0x2000304; 0xf75; 0x2000306; 0xf76;
   0x2000308; 0xf78; 0x200030a; 0xf81; 0x200030c; 0xf93; 0x200030e; 0xf9d; 0x2000310; 0xfa2; 0x2000312; 0xfa7;
   0x2000314; 0xfac; 0x2000316; 0xfb9; 0x2000318; 0x1026; 0x200031a; 0x1b06; 0x200031c; 0x1b08; 0x200031e;
   0x1b0a; 0x2000320; 0x1b0c; 0x2000322; 0x1b0e; 0x2000324; 0x1b12; 0x2000326; 0x1b3b; 0x2000328; 0x1b3d;
   0x200032a; 0x1b40; 0x200032c; 0x1b41; 0x200032e; 0x1b43; 0x2000330; 0x1e00; 0x2000332; 0x1e01; 0x2000334;
   0x1e02; 0x2000336; 0x1e03; 0x2000338; 0x1e04; 0x200033a; 0x1e05; 0x200033c; 0x1e06; 0x200033e; 0x1e07;
   0x2000340; 0x1e08; 0x42000342; 0x1e09; 0x42000344; 0x1e0a; 0x2000346; 0x1e0b; 0x2000348; 0x1e0c; 0x200034a;
   0x1e0d; 0x200034c; 0x1e0e; 0x200034e; 0x1e0f; 0x2000350; 0x1e10; 0x2000352; 0x1e11; 0x2000354; 0x1e12;
   0x2000356; 0x1e13; 0x2000358; 0x1e14; 0x4200035a; 0x1e15; 0x4200035c; 0x1e16; 0x4200035e; 0x1e17; 0x42000360;
   0x1e18; 0x2000362; 0x1e19; 0x2000364; 0x1e1a; 0x2000366; 0x1e1b; 0x2000368; 0x1e1c; 0x4200036a; 0x1e1d;
   0x4200036c; 0x1e1e; 0x200036e; 0x1e1f; 0x2000370; 0x1e20; 0x2000372; 0x1e21; 0x2000374; 0x1e22; 0x2000376;
   0x1e23; 0x2000378; 0x1e24; 0x200037a; 0x1e25; 0x200037c; 0x1e26; 0x200037e; 0x1e27; 0x2000380; 0x1e28;
   0x2000382; 0x1e29; 0x2000384; 0x1e2a; 0x2000386; 0x1e2b; 0x2000388; 0x1e2c; 0x200038a; 0x1e2d; 0x200038c;
   0x1e2e; 0x4200038e; 0x1e2f; 0x42000390; 0x1e30; 0x2000392; 0x1e31; 0x2000394; 0x1e32; 0x2000396; 0x1e33;
   0x2000398; 0x1e34; 0x200039a; 0x1e35; 0x200039c; 0x1e36; 0x200039e; 0x1e37; 0x20003a0; 0x1e38; 0x420003a2;
   0x1e39; 0x420003a4; 0x1e3a; 0x20003a6; 0x1e3b; 0x20003a8; 0x1e3c; 0x20003aa; 0x1e3d; 0x20003ac; 0x1e3e;
   0x20003ae; 0x1e3f; 0x20003b0; 0x1e40; 0x20003b2; 0x1e41; 0x20003b4; 0x1e42; 0x20003b6; 0x1e43; 0x20003b8;
   0x1e44; 0x20003ba; 0x1e45; 0x20003bc; 0x1e46; 0x20003be; 0x1e47; 0x20003c0; 0x1e48; 0x20003c2; 0x1e49;
   0x20003c4; 0x1e4a; 0x20003c6; 0x1e4b; 0x20003c8; 0x1e4c; 0x420003ca; 0x1e4d; 0x420003cc; 0x1e4e; 0x420003ce;
   0x1e4f; 0x420003d0; 0x1e50; 0x420003d2; 0x1e51; 0x420003d4; 0x1e52; 0x420003d6; 0x1e53; 0x420003d8; 0x1e54;
   0x20003da; 0x1e55; 0x20003dc; 0x1e56; 0x20003de; 0x1e57; 0x20003e0; 0x1e58; 0x20003e2; 0x1e59; 0x20003e4;
   0x1e5a; 0x20003e6; 0x1e5b; 0x20003e8; 0x1e5c; 0x420003ea; 0x1e5d; 0x420003ec; 0x1e5e; 0x20003ee; 0x1e5f;
   0x20003f0; 0x1e60; 0x20003f2; 0x1e61; 0x20003f4; 0x1e62; 0x20003f6; 0x1e63; 0x20003f8; 0x1e64; 0x420003fa;
   0x1e65; 0x420003fc; 0x1e66; 0x420003fe; 0x1e67; 0x42000400; 0x1e68; 0x42000402; 0x1e69; 0x42000404; 0x1e6a;
   0x2000406; 0x1e6b; 0x2000408; 0x1e6c; 0x200040a; 0x1e6d; 0x200040c; 0x1e6e; 0x200040e; 0x1e6f; 0x2000410;
   0x1e70; 0x2000412; 0x1e71; 0x2000414; 0x1e72; 0x2000416; 0x1e73; 0x2000418; 0x1e74; 0x200041a; 0x1e75;
   0x200041c; 0x1e76; 0x200041e; 0x1e77; 0x2000420; 0x1e78; 0x42000422; 0x1e79; 0x42000424; 0x1e7a; 0x42000426;
   0x1e7b; 0x42000428; 0x1e7c; 0x200042a; 0x1e7d; 0x200042c; 0x1e7e; 0x200042e; 0x1e7f; 0x2000430; 0x1e80;
   0x2000432; 0x1e81; 0x2000434; 0x1e82; 0x2000436; 0x1e83; 0x2000438; 0x1e84; 0x200043a; 0x1e85; 0x200043c;
   0x1e86; 0x200043e; 0x1e87; 0x2000440; 0x1e88; 0x2000442; 0x1e89; 0x2000444; 0x1e8a; 0x2000446; 0x1e8b;
   0x2000448; 0x1e8c; 0x200044a; 0x1e8d; 0x200044c; 0x1e8e; 0x200044e; 0x1e8f; 0x2000450; 0x1e90; 0x2000452;
   0x1e91; 0x2000454; 0x1e92; 0x2000456; 0x1e93; 0x2000458; 0x1e94; 0x200045a; 0x1e95; 0x200045c; 0x1e96;
   0x200045e; 0x1e97; 0x2000460; 0x1e98; 0x2000462; 0x1e99; 0x2000464; 0x1e9b; 0x2000466; 0x1ea0; 0x2000468;
   0x1ea1; 0x200046a; 0x1ea2; 0x200046c; 0x1ea3; 0x200046e; 0x1ea4; 0x42000470; 0x1ea5; 0x42000472; 0x1ea6;
   0x42000474; 0x1ea7; 0x42000476; 0x1ea8; 0x42000478; 0x1ea9; 0x4200047a; 0x1eaa; 0x4200047c; 0x1eab;
   0x4200047e; 0x1eac; 0x42000480; 0x1ead; 0x42000482; 0x1eae; 0x42000484; 0x1eaf; 0x42000486; 0x1eb0;
   0x42000488; 0x1eb1; 0x4200048a; 0x1eb2; 0x4200048c; 0x1eb3; 0x4200048e; 0x1eb4; 0x42000490; 0x1eb5;
   0x42000492; 0x1eb6; 0x42000494; 0x1eb7; 0x42000496; 0x1eb8; 0x2000498; 0x1eb9; 0x200049a; 0x1eba; 0x200049c;
   0x1ebb; 0x200049e; 0x1ebc; 0x20004a0; 0x1ebd; 0x20004a2; 0x1ebe; 0x420004a4; 0x1ebf; 0x420004a6; 0x1ec0;
   0x420004a8; 0x1ec1; 0x420004aa; 0x1ec2; 0x420004ac; 0x1ec3; 0x420004ae; 0x1ec4; 0x420004b0; 0x1ec5;
   0x420004b2; 0x1ec6; 0x420004b4; 0x1ec7; 0x420004b6; 0x1ec8; 0x20004b8; 0x1ec9; 0x20004ba; 0x1eca; 0x20004bc;
   0x1ecb; 0x20004be; 0x1ecc; 0x20004c0; 0x1ecd; 0x20004c2; 0x1ece; 0x20004c4; 0x1ecf; 0x20004c6; 0x1ed0;
   0x420004c8; 0x1ed1; 0x420004ca; 0x1ed2; 0x420004cc; 0x1ed3; 0x420004ce; 0x1ed4; 0x420004d0; 0x1ed5;
   0x420004d2; 0x1ed6; 0x420004d4; 0x1ed7; 0x420004d6; 0x1ed8; 0x420004d8; 0x1ed9; 0x420004da; 0x1eda;
   0x420004dc; 0x1edb; 0x420004de; 0x1edc; 0x420004e0; 0x1edd; 0x420004e2; 0x1ede; 0x420004e4; 0x1edf;
   0x420004e6; 0x1ee0; 0x420004e8; 0x1ee1; 0x420004ea; 0x1ee2; 0x420004ec; 0x1ee3; 0x420004ee; 0x1ee4;
   0x20004f0; 0x1ee5; 0x20004f2; 0x1ee6; 0x20004f4; 0x1ee7; 0x20004f6; 0x1ee8; 0x420004f8; 0x1ee9; 0x420004fa;
   0x1eea; 0x420004fc; 0x1eeb; 0x420004fe; 0x1eec; 0x42000500; 0x1eed; 0x42000502; 0x1eee; 0x42000504; 0x1eef;
   0x42000506; 0x1ef0; 0x42000508; 0x1ef1; 0x4200050a; 0x1ef2; 0x200050c; 0x1ef3; 0x200050e; 0x1ef4; 0x2000510;
   0x1ef5; 0x2000512; 0x1ef6; 0x2000514; 0x1ef7; 0x2000516; 0x1ef8; 0x2000518; 0x1ef9; 0x200051a; 0x1f00;
   0x200051c; 0x1f01; 0x200051e; 0x1f02; 0x42000520; 0x1f03; 0x42000522; 0x1f04; 0x42000524; 0x1f05; 0x42000526;
   0x1f06; 0x42000528; 0x1f07; 0x4200052a; 0x1f08; 0x200052c; 0x1f09; 0x200052e; 0x1f0a; 0x42000530; 0x1f0b;
   0x42000532; 0x1f0c; 0x42000534; 0x1f0d; 0x42000536; 0x1f0e; 0x42000538; 0x1f0f; 0x4200053a; 0x1f10;
   0x200053c; 0x1f11; 0x200053e; 0x1f12; 0x42000540; 0x1f13; 0x42000542; 0x1f14; 0x42000544; 0x1f15; 0x42000546;
   0x1f18; 0x2000548; 0x1f19; 0x200054a; 0x1f1a; 0x4200054c; 0x1f1b; 0x4200054e; 0x1f1c; 0x42000550; 0x1f1d;
   0x42000552; 0x1f20; 0x2000554; 0x1f21; 0x2000556; 0x1f22; 0x42000558; 0x1f23; 0x4200055a; 0x1f24; 0x4200055c;
   0x1f25; 0x4200055e; 0x1f26; 0x42000560; 0x1f27; 0x42000562; 0x1f28; 0x2000564; 0x1f29; 0x2000566; 0x1f2a;
   0x42000568; 0x1f2b; 0x4200056a; 0x1f2c; 0x4200056c; 0x1f2d; 0x4200056e; 0x1f2e; 0x42000570; 0x1f2f;
   0x42000572; 0x1f30; 0x2000574; 0x1f31; 0x2000576; 0x1f32; 0x42000578; 0x1f33; 0x4200057a; 0x1f34; 0x4200057c;
   0x1f35; 0x4200057e; 0x1f36; 0x42000580; 0x1f37; 0x42000582; 0x1f38; 0x2000584; 0x1f39; 0x2000586; 0x1f3a;
   0x42000588; 0x1f3b; 0x4200058a; 0x1f3c; 0x4200058c; 0x1f3d; 0x4200058e; 0x1f3e; 0x42000590; 0x1f3f;
   0x42000592; 0x1f40; 0x2000594; 0x1f41; 0x2000596; 0x1f42; 0x42000598; 0x1f43; 0x4200059a; 0x1f44; 0x4200059c;
   0x1f45; 0x4200059e; 0x1f48; 0x20005a0; 0x1f49; 0x20005a2; 0x1f4a; 0x420005a4; 0x1f4b; 0x420005a6; 0x1f4c;
   0x420005a8; 0x1f4d; 0x420005aa; 0x1f50; 0x20005ac; 0x1f51; 0x20005ae; 0x1f52; 0x420005b0; 0x1f53; 0x420005b2;
   0x1f54; 0x420005b4; 0x1f55; 0x420005b6; 0x1f56; 0x420005b8; 0x1f57; 0x420005ba; 0x1f59; 0x20005bc; 0x1f5b;
   0x420005be; 0x1f5d; 0x420005c0; 0x1f5f; 0x420005c2; 0x1f60; 0x20005c4; 0x1f61; 0x20005c6; 0x1f62; 0x420005c8;
   0x1f63; 0x420005ca; 0x1f64; 0x420005cc; 0x1f65; 0x420005ce; 0x1f66; 0x420005d0; 0x1f67; 0x420005d2; 0x1f68;
   0x20005d4; 0x1f69; 0x20005d6; 0x1f6a; 0x420005d8; 0x1f6b; 0x420005da; 0x1f6c; 0x420005dc; 0x1f6d; 0x420005de;
   0x1f6e; 0x420005e0; 0x1f6f; 0x420005e2; 0x1f70; 0x20005e4; 0x1f71; 0x410003ac; 0x1f72; 0x20005e6; 0x1f73;
   0x410003ad; 0x1f74; 0x20005e8; 0x1f75; 0x410003ae; 0x1f76; 0x20005ea; 0x1f77; 0x410003af; 0x1f78; 0x20005ec;
   0x1f79; 0x410003cc; 0x1f7a; 0x20005ee; 0x1f7b; 0x410003cd; 0x1f7c; 0x20005f0; 0x1f7d; 0x410003ce; 0x1f80;
   0x420005f2; 0x1f81; 0x420005f4; 0x1f82; 0x420005f6; 0x1f83; 0x420005f8; 0x1f84; 0x420005fa; 0x1f85;
   0x420005fc; 0x1f86; 0x420005fe; 0x1f87; 0x42000600; 0x1f88; 0x42000602; 0x1f89; 0x42000604; 0x1f8a;
   0x42000606; 0x1f8b; 0x42000608; 0x1f8c; 0x4200060a; 0x1f8d; 0x4200060c; 0x1f8e; 0x4200060e; 0x1f8f;
   0x42000610; 0x1f90; 0x42000612; 0x1f91; 0x42000614; 0x1f92; 0x42000616; 0x1f93; 0x42000618; 0x1f94;
   0x4200061a; 0x1f95; 0x4200061c; 0x1f96; 0x4200061e; 0x1f97; 0x42000620; 0x1f98; 0x42000622; 0x1f99;
   0x42000624; 0x1f9a; 0x42000626; 0x1f9b; 0x42000628; 0x1f9c; 0x4200062a; 0x1f9d; 0x4200062c; 0x1f9e;
   0x4200062e; 0x1f9f; 0x42000630; 0x1fa0; 0x42000632; 0x1fa1; 0x42000634; 0x1fa2; 0x42000636; 0x1fa3;
   0x42000638; 0x1fa4; 0x4200063a; 0x1fa5; 0x4200063c; 0x1fa6; 0x4200063e; 0x1fa7; 0x42000640; 0x1fa8;
   0x42000642; 0x1fa9; 0x42000644; 0x1faa; 0x42000646; 0x1fab; 0x42000648; 0x1fac; 0x4200064a; 0x1fad;
   0x4200064c; 0x1fae; 0x4200064e; 0x1faf; 0x42000650; 0x1fb0; 0x2000652; 0x1fb1; 0x2000654; 0x1fb2; 0x42000656;
   0x1fb3; 0x2000658; 0x1fb4; 0x4200065a; 0x1fb6; 0x200065c; 0x1fb7; 0x4200065e; 0x1fb8; 0x2000660; 0x1fb9;
   0x2000662; 0x1fba; 0x2000664; 0x1fbb; 0x41000386; 0x1fbc; 0x2000666; 0x1fbe; 0x10003b9; 0x1fc1; 0x2000668;
   0x1fc2; 0x4200066a; 0x1fc3; 0x200066c; 0x1fc4; 0x4200066e; 0x1fc6; 0x2000670; 0x1fc7; 0x42000672; 0x1fc8;
   0x2000674; 0x1fc9; 0x41000388; 0x1fca; 0x2000676; 0x1fcb; 0x41000389; 0x1fcc; 0x2000678; 0x1fcd; 0x200067a;
   0x1fce; 0x200067c; 0x1fcf; 0x200067e; 0x1fd0; 0x2000680; 0x1fd1; 0x2000682; 0x1fd2; 0x42000684; 0x1fd3;
   0x41000390; 0x1fd6; 0x2000686; 0x1fd7; 0x42000688; 0x1fd8; 0x200068a; 0x1fd9; 0x200068c; 0x1fda; 0x200068e;
   0x1fdb; 0x4100038a; 0x1fdd; 0x2000690; 0x1fde; 0x2000692; 0x1fdf; 0x2000694; 0x1fe0; 0x2000696; 0x1fe1;
   0x2000698; 0x1fe2; 0x4200069a; 0x1fe3; 0x410003b0; 0x1fe4; 0x200069c; 0x1fe5; 0x200069e; 0x1fe6; 0x20006a0;
   0x1fe7; 0x420006a2; 0x1fe8; 0x20006a4; 0x1fe9; 0x20006a6; 0x1fea; 0x20006a8; 0x1feb; 0x4100038e; 0x1fec;
   0x20006aa; 0x1fed; 0x20006ac; 0x1fee; 0x41000385; 0x1fef; 0x1000060; 0x1ff2; 0x420006ae; 0x1ff3; 0x20006b0;
   0x1ff4; 0x420006b2; 0x1ff6; 0x20006b4; 0x1ff7; 0x420006b6; 0x1ff8; 0x20006b8; 0x1ff9; 0x4100038c; 0x1ffa;
   0x20006ba; 0x1ffb; 0x4100038f; 0x1ffc; 0x20006bc; 0x1ffd; 0x10000b4; 0x2000; 0x1002002; 0x2001; 0x1002003;
   0x2126; 0x10003a9; 0x212a; 0x100004b; 0x212b; 0x410000c5; 0x219a; 0x20006be; 0x219b; 0x20006c0; 0x21ae;
   0x20006c2; 0x21cd; 0x20006c4; 0x21ce; 0x20006c6; 0x21cf; 0x20006c8; 0x2204; 0x20006ca; 0x2209; 0x20006cc;
   0x220c; 0x20006ce; 0x2224; 0x20006d0; 0x2226; 0x20006d2; 0x2241; 0x20006d4; 0x2244; 0x20006d6; 0x2247;
   0x20006d8; 0x2249; 0x20006da; 0x2260; 0x20006dc; 0x2262; 0x20006de; 0x226d; 0x20006e0; 0x226e; 0x20006e2;
   0x226f; 0x20006e4; 0x2270; 0x20006e6; 0x2271; 0x20006e8; 0x2274; 0x20006ea; 0x2275; 0x20006ec; 0x2278;
   0x20006ee; 0x2279; 0x20006f0; 0x2280; 0x20006f2; 0x2281; 0x20006f4; 0x2284; 0x20006f6; 0x2285; 0x20006f8;
   0x2288; 0x20006fa; 0x2289; 0x20006fc; 0x22ac; 0x20006fe; 0x22ad; 0x2000700; 0x22ae; 0x2000702; 0x22af;
   0x2000704; 0x22e0; 0x2000706; 0x22e1; 0x2000708; 0x22e2; 0x200070a; 0x22e3; 0x200070c; 0x22ea; 0x200070e;
   0x22eb; 0x2000710; 0x22ec; 0x2000712; 0x22ed; 0x2000714; 0x2329; 0x1003008; 0x232a; 0x1003009; 0x2adc;
   0x2000716; 0x304c; 0x2000718; 0x304e; 0x200071a; 0x3050; 0x200071c; 0x3052; 0x200071e; 0x3054; 0x2000720;
   0x3056; 0x2000722; 0x3058; 0x2000724; 0x305a; 0x2000726; 0x305c; 0x2000728; 0x305e; 0x200072a; 0x3060;
   0x200072c; 0x3062; 0x200072e; 0x3065; 0x2000730; 0x3067; 0x2000732; 0x3069; 0x2000734; 0x3070; 0x2000736;
   0x3071; 0x2000738; 0x3073; 0x200073a; 0x3074; 0x200073c; 0x3076; 0x200073e; 0x3077; 0x2000740; 0x3079;
   0x2000742; 0x307a; 0x2000744; 0x307c; 0x2000746; 0x307d; 0x2000748; 0x3094; 0x200074a; 0x309e; 0x200074c;
   0x30ac; 0x200074e; 0x30ae; 0x2000750; 0x30b0; 0x2000752; 0x30b2; 0x2000754; 0x30b4; 0x2000756; 0x30b6;
   0x2000758; 0x30b8; 0x200075a; 0x30ba; 0x200075c; 0x30bc; 0x200075e; 0x30be; 0x2000760; 0x30c0; 0x2000762;
   0x30c2; 0x2000764; 0x30c5; 0x2000766; 0x30c7; 0x2000768; 0x30c9; 0x200076a; 0x30d0; 0x200076c; 0x30d1;
   0x200076e; 0x30d3; 0x2000770; 0x30d4; 0x2000772; 0x30d6; 0x2000774; 0x30d7; 0x2000776; 0x30d9; 0x2000778;
   0x30da; 0x200077a; 0x30dc; 0x200077c; 0x30dd; 0x200077e; 0x30f4; 0x2000780; 0x30f7; 0x2000782; 0x30f8;
   0x2000784; 0x30f9; 0x2000786; 0x30fa; 0x2000788; 0x30fe; 0x200078a; 0xf900; 0x1008c48; 0xf901; 0x10066f4;
   0xf902; 0x1008eca; 0xf903; 0x1008cc8; 0xf904; 0x1006ed1; 0xf905; 0x1004e32; 0xf906; 0x10053e5; 0xf907;
   0x1009f9c; 0xf908; 0x1009f9c; 0xf909; 0x1005951; 0xf90a; 0x10091d1; 0xf90b; 0x1005587; 0xf90c; 0x1005948;
   0xf90d; 0x10061f6; 0xf90e; 0x1007669; 0xf90f; 0x1007f85; 0xf910; 0x100863f; 0xf911; 0x10087ba; 0xf912;
   0x10088f8; 0xf913; 0x100908f; 0xf914; 0x1006a02; 0xf915; 0x1006d1b; 0xf916; 0x10070d9; 0xf917; 0x10073de;
   0xf918; 0x100843d; 0xf919; 0x100916a; 0xf91a; 0x10099f1; 0xf91b; 0x1004e82; 0xf91c; 0x1005375; 0xf91d;
   0x1006b04; 0xf91e; 0x100721b; 0xf91f; 0x100862d; 0xf920; 0x1009e1e; 0xf921; 0x1005d50; 0xf922; 0x1006feb;
   0xf923; 0x10085cd; 0xf924; 0x1008964; 0xf925; 0x10062c9; 0xf926; 0x10081d8; 0xf927; 0x100881f; 0xf928;
   0x1005eca; 0xf929; 0x1006717; 0xf92a; 0x1006d6a; 0xf92b; 0x10072fc; 0xf92c; 0x10090ce; 0xf92d; 0x1004f86;
   0xf92e; 0x10051b7; 0xf92f; 0x10052de; 0xf930; 0x10064c4; 0xf931; 0x1006ad3; 0xf932; 0x1007210; 0xf933;
   0x10076e7; 0xf934; 0x1008001; 0xf935; 0x1008606; 0xf936; 0x100865c; 0xf937; 0x1008def; 0xf938; 0x1009732;
   0xf939; 0x1009b6f; 0xf93a; 0x1009dfa; 0xf93b; 0x100788c; 0xf93c; 0x100797f; 0xf93d; 0x1007da0; 0xf93e;
   0x10083c9; 0xf93f; 0x1009304; 0xf940; 0x1009e7f; 0xf941; 0x1008ad6; 0xf942; 0x10058df; 0xf943; 0x1005f04;
   0xf944; 0x1007c60; 0xf945; 0x100807e; 0xf946; 0x1007262; 0xf947; 0x10078ca; 0xf948; 0x1008cc2; 0xf949;
   0x10096f7; 0xf94a; 0x10058d8; 0xf94b; 0x1005c62; 0xf94c; 0x1006a13; 0xf94d; 0x1006dda; 0xf94e; 0x1006f0f;
   0xf94f; 0x1007d2f; 0xf950; 0x1007e37; 0xf951; 0x100964b; 0xf952; 0x10052d2; 0xf953; 0x100808b; 0xf954;
   0x10051dc; 0xf955; 0x10051cc; 0xf956; 0x1007a1c; 0xf957; 0x1007dbe; 0xf958; 0x10083f1; 0xf959; 0x1009675;
   0xf95a; 0x1008b80; 0xf95b; 0x10062cf; 0xf95c; 0x1006a02; 0xf95d; 0x1008afe; 0xf95e; 0x1004e39; 0xf95f;
   0x1005be7; 0xf960; 0x1006012; 0xf961; 0x1007387; 0xf962; 0x1007570; 0xf963; 0x1005317; 0xf964; 0x10078fb;
   0xf965; 0x1004fbf; 0xf966; 0x1005fa9; 0xf967; 0x1004e0d; 0xf968; 0x1006ccc; 0xf969; 0x1006578; 0xf96a;
   0x1007d22; 0xf96b; 0x10053c3; 0xf96c; 0x100585e; 0xf96d; 0x1007701; 0xf96e; 0x1008449; 0xf96f; 0x1008aaa;
   0xf970; 0x1006bba; 0xf971; 0x1008fb0; 0xf972; 0x1006c88; 0xf973; 0x10062fe; 0xf974; 0x10082e5; 0xf975;
   0x10063a0; 0xf976; 0x1007565; 0xf977; 0x1004eae; 0xf978; 0x1005169; 0xf979; 0x10051c9; 0xf97a; 0x1006881;
   0xf97b; 0x1007ce7; 0xf97c; 0x100826f; 0xf97d; 0x1008ad2; 0xf97e; 0x10091cf; 0xf97f; 0x10052f5; 0xf980;
   0x1005442; 0xf981; 0x1005973; 0xf982; 0x1005eec; 0xf983; 0x10065c5; 0xf984; 0x1006ffe; 0xf985; 0x100792a;
   0xf986; 0x10095ad; 0xf987; 0x1009a6a; 0xf988; 0x1009e97; 0xf989; 0x1009ece; 0xf98a; 0x100529b; 0xf98b;
   0x10066c6; 0xf98c; 0x1006b77; 0xf98d; 0x1008f62; 0xf98e; 0x1005e74; 0xf98f; 0x1006190; 0xf990; 0x1006200;
   0xf991; 0x100649a; 0xf992; 0x1006f23; 0xf993; 0x1007149; 0xf994; 0x1007489; 0xf995; 0x10079ca; 0xf996;
   0x1007df4; 0xf997; 0x100806f; 0xf998; 0x1008f26; 0xf999; 0x10084ee; 0xf99a; 0x1009023; 0xf99b; 0x100934a;
   0xf99c; 0x1005217; 0xf99d; 0x10052a3; 0xf99e; 0x10054bd; 0xf99f; 0x10070c8; 0xf9a0; 0x10088c2; 0xf9a1;
   0x1008aaa; 0xf9a2; 0x1005ec9; 0xf9a3; 0x1005ff5; 0xf9a4; 0x100637b; 0xf9a5; 0x1006bae; 0xf9a6; 0x1007c3e;
   0xf9a7; 0x1007375; 0xf9a8; 0x1004ee4; 0xf9a9; 0x10056f9; 0xf9aa; 0x1005be7; 0xf9ab; 0x1005dba; 0xf9ac;
   0x100601c; 0xf9ad; 0x10073b2; 0xf9ae; 0x1007469; 0xf9af; 0x1007f9a; 0xf9b0; 0x1008046; 0xf9b1; 0x1009234;
   0xf9b2; 0x10096f6; 0xf9b3; 0x1009748; 0xf9b4; 0x1009818; 0xf9b5; 0x1004f8b; 0xf9b6; 0x10079ae; 0xf9b7;
   0x10091b4; 0xf9b8; 0x10096b8; 0xf9b9; 0x10060e1; 0xf9ba; 0x1004e86; 0xf9bb; 0x10050da; 0xf9bc; 0x1005bee;
   0xf9bd; 0x1005c3f; 0xf9be; 0x1006599; 0xf9bf; 0x1006a02; 0xf9c0; 0x10071ce; 0xf9c1; 0x1007642; 0xf9c2;
   0x10084fc; 0xf9c3; 0x100907c; 0xf9c4; 0x1009f8d; 0xf9c5; 0x1006688; 0xf9c6; 0x100962e; 0xf9c7; 0x1005289;
   0xf9c8; 0x100677b; 0xf9c9; 0x10067f3; 0xf9ca; 0x1006d41; 0xf9cb; 0x1006e9c; 0xf9cc; 0x1007409; 0xf9cd;
   0x1007559; 0xf9ce; 0x100786b; 0xf9cf; 0x1007d10; 0xf9d0; 0x100985e; 0xf9d1; 0x100516d; 0xf9d2; 0x100622e;
   0xf9d3; 0x1009678; 0xf9d4; 0x100502b; 0xf9d5; 0x1005d19; 0xf9d6; 0x1006dea; 0xf9d7; 0x1008f2a; 0xf9d8;
   0x1005f8b; 0xf9d9; 0x1006144; 0xf9da; 0x1006817; 0xf9db; 0x1007387; 0xf9dc; 0x1009686; 0xf9dd; 0x1005229;
   0xf9de; 0x100540f; 0xf9df; 0x1005c65; 0xf9e0; 0x1006613; 0xf9e1; 0x100674e; 0xf9e2; 0x10068a8; 0xf9e3;
   0x1006ce5; 0xf9e4; 0x1007406; 0xf9e5; 0x10075e2; 0xf9e6; 0x1007f79; 0xf9e7; 0x10088cf; 0xf9e8; 0x10088e1;
   0xf9e9; 0x10091cc; 0xf9ea; 0x10096e2; 0xf9eb; 0x100533f; 0xf9ec; 0x1006eba; 0xf9ed; 0x100541d; 0xf9ee;
   0x10071d0; 0xf9ef; 0x1007498; 0xf9f0; 0x10085fa; 0xf9f1; 0x10096a3; 0xf9f2; 0x1009c57; 0xf9f3; 0x1009e9f;
   0xf9f4; 0x1006797; 0xf9f5; 0x1006dcb; 0xf9f6; 0x10081e8; 0xf9f7; 0x1007acb; 0xf9f8; 0x1007b20; 0xf9f9;
   0x1007c92; 0xf9fa; 0x10072c0; 0xf9fb; 0x1007099; 0xf9fc; 0x1008b58; 0xf9fd; 0x1004ec0; 0xf9fe; 0x1008336;
   0xf9ff; 0x100523a; 0xfa00; 0x1005207; 0xfa01; 0x1005ea6; 0xfa02; 0x10062d3; 0xfa03; 0x1007cd6; 0xfa04;
   0x1005b85; 0xfa05; 0x1006d1e; 0xfa06; 0x10066b4; 0xfa07; 0x1008f3b; 0xfa08; 0x100884c; 0xfa09; 0x100964d;
   0xfa0a; 0x100898b; 0xfa0b; 0x1005ed3; 0xfa0c; 0x1005140; 0xfa0d; 0x10055c0; 0xfa10; 0x100585a; 0xfa12;
   0x1006674; 0xfa15; 0x10051de; 0xfa16; 0x100732a; 0xfa17; 0x10076ca; 0xfa18; 0x100793c; 0xfa19; 0x100795e;
   0xfa1a; 0x1007965; 0xfa1b; 0x100798f; 0xfa1c; 0x1009756; 0xfa1d; 0x1007cbe; 0xfa1e; 0x1007fbd; 0xfa20;
   0x1008612; 0xfa22; 0x1008af8; 0xfa25; 0x1009038; 0xfa26; 0x10090fd; 0xfa2a; 0x10098ef; 0xfa2b; 0x10098fc;
   0xfa2c; 0x1009928; 0xfa2d; 0x1009db4; 0xfa2e; 0x10090de; 0xfa2f; 0x10096b7; 0xfa30; 0x1004fae; 0xfa31;
   0x10050e7; 0xfa32; 0x100514d; 0xfa33; 0x10052c9; 0xfa34; 0x10052e4; 0xfa35; 0x1005351; 0xfa36; 0x100559d;
   0xfa37; 0x1005606; 0xfa38; 0x1005668; 0xfa39; 0x1005840; 0xfa3a; 0x10058a8; 0xfa3b; 0x1005c64; 0xfa3c;
   0x1005c6e; 0xfa3d; 0x1006094; 0xfa3e; 0x1006168; 0xfa3f; 0x100618e; 0xfa40; 0x10061f2; 0xfa41; 0x100654f;
   0xfa42; 0x10065e2; 0xfa43; 0x1006691; 0xfa44; 0x1006885; 0xfa45; 0x1006d77; 0xfa46; 0x1006e1a; 0xfa47;
   0x1006f22; 0xfa48; 0x100716e; 0xfa49; 0x100722b; 0xfa4a; 0x1007422; 0xfa4b; 0x1007891; 0xfa4c; 0x100793e;
   0xfa4d; 0x1007949; 0xfa4e; 0x1007948; 0xfa4f; 0x1007950; 0xfa50; 0x1007956; 0xfa51; 0x100795d; 0xfa52;
   0x100798d; 0xfa53; 0x100798e; 0xfa54; 0x1007a40; 0xfa55; 0x1007a81; 0xfa56; 0x1007bc0; 0xfa57; 0x1007df4;
   0xfa58; 0x1007e09; 0xfa59; 0x1007e41; 0xfa5a; 0x1007f72; 0xfa5b; 0x1008005; 0xfa5c; 0x10081ed; 0xfa5d;
   0x1008279; 0xfa5e; 0x1008279; 0xfa5f; 0x1008457; 0xfa60; 0x1008910; 0xfa61; 0x1008996; 0xfa62; 0x1008b01;
   0xfa63; 0x1008b39; 0xfa64; 0x1008cd3; 0xfa65; 0x1008d08; 0xfa66; 0x1008fb6; 0xfa67; 0x1009038; 0xfa68;
   0x10096e3; 0xfa69; 0x10097ff; 0xfa6a; 0x100983b; 0xfa6b; 0x1006075; 0xfa6c; 0x810242ee; 0xfa6d; 0x1008218;
   0xfa70; 0x1004e26; 0xfa71; 0x10051b5; 0xfa72; 0x1005168; 0xfa73; 0x1004f80; 0xfa74; 0x1005145; 0xfa75;
   0x1005180; 0xfa76; 0x10052c7; 0xfa77; 0x10052fa; 0xfa78; 0x100559d; 0xfa79; 0x1005555; 0xfa7a; 0x1005599;
   0xfa7b; 0x10055e2; 0xfa7c; 0x100585a; 0xfa7d; 0x10058b3; 0xfa7e; 0x1005944; 0xfa7f; 0x1005954; 0xfa80;
   0x1005a62; 0xfa81; 0x1005b28; 0xfa82; 0x1005ed2; 0xfa83; 0x1005ed9; 0xfa84; 0x1005f69; 0xfa85; 0x1005fad;
   0xfa86; 0x10060d8; 0xfa87; 0x100614e; 0xfa88; 0x1006108; 0xfa89; 0x100618e; 0xfa8a; 0x1006160; 0xfa8b;
   0x10061f2; 0xfa8c; 0x1006234; 0xfa8d; 0x10063c4; 0xfa8e; 0x100641c; 0xfa8f; 0x1006452; 0xfa90; 0x1006556;
   0xfa91; 0x1006674; 0xfa92; 0x1006717; 0xfa93; 0x100671b; 0xfa94; 0x1006756; 0xfa95; 0x1006b79; 0xfa96;
   0x1006bba; 0xfa97; 0x1006d41; 0xfa98; 0x1006edb; 0xfa99; 0x1006ecb; 0xfa9a; 0x1006f22; 0xfa9b; 0x100701e;
   0xfa9c; 0x100716e; 0xfa9d; 0x10077a7; 0xfa9e; 0x1007235; 0xfa9f; 0x10072af; 0xfaa0; 0x100732a; 0xfaa1;
   0x1007471; 0xfaa2; 0x1007506; 0xfaa3; 0x100753b; 0xfaa4; 0x100761d; 0xfaa5; 0x100761f; 0xfaa6; 0x10076ca;
   0xfaa7; 0x10076db; 0xfaa8; 0x10076f4; 0xfaa9; 0x100774a; 0xfaaa; 0x1007740; 0xfaab; 0x10078cc; 0xfaac;
   0x1007ab1; 0xfaad; 0x1007bc0; 0xfaae; 0x1007c7b; 0xfaaf; 0x1007d5b; 0xfab0; 0x1007df4; 0xfab1; 0x1007f3e;
   0xfab2; 0x1008005; 0xfab3; 0x1008352; 0xfab4; 0x10083ef; 0xfab5; 0x1008779; 0xfab6; 0x1008941; 0xfab7;
   0x1008986; 0xfab8; 0x1008996; 0xfab9; 0x1008abf; 0xfaba; 0x1008af8; 0xfabb; 0x1008acb; 0xfabc; 0x1008b01;
   0xfabd; 0x1008afe; 0xfabe; 0x1008aed; 0xfabf; 0x1008b39; 0xfac0; 0x1008b8a; 0xfac1; 0x1008d08; 0xfac2;
   0x1008f38; 0xfac3; 0x1009072; 0xfac4; 0x1009199; 0xfac5; 0x1009276; 0xfac6; 0x100967c; 0xfac7; 0x10096e3;
   0xfac8; 0x1009756; 0xfac9; 0x10097db; 0xfaca; 0x10097ff; 0xfacb; 0x100980b; 0xfacc; 0x100983b; 0xfacd;
   0x1009b12; 0xface; 0x1009f9c; 0xfacf; 0x8102284a; 0xfad0; 0x81022844; 0xfad1; 0x810233d5; 0xfad2; 0x1003b9d;
   0xfad3; 0x1004018; 0xfad4; 0x1004039; 0xfad5; 0x81025249; 0xfad6; 0x81025cd0; 0xfad7; 0x81027ed3; 0xfad8;
   0x1009f43; 0xfad9; 0x1009f8e; 0xfb1d; 0x200078c; 0xfb1f; 0x200078e; 0xfb2a; 0x2000790; 0xfb2b; 0x2000792;
   0xfb2c; 0x42000794; 0xfb2d; 0x42000796; 0xfb2e; 0x2000798; 0xfb2f; 0x200079a; 0xfb30; 0x200079c; 0xfb31;
   0x200079e; 0xfb32; 0x20007a0; 0xfb33; 0x20007a2; 0xfb34; 0x20007a4; 0xfb35; 0x20007a6; 0xfb36; 0x20007a8;
   0xfb38; 0x20007aa; 0xfb39; 0x20007ac; 0xfb3a; 0x20007ae; 0xfb3b; 0x20007b0; 0xfb3c; 0x20007b2; 0xfb3e;
   0x20007b4; 0xfb40; 0x20007b6; 0xfb41; 0x20007b8; 0xfb43; 0x20007ba; 0xfb44; 0x20007bc; 0xfb46; 0x20007be;
   0xfb47; 0x20007c0; 0xfb48; 0x20007c2; 0xfb49; 0x20007c4; 0xfb4a; 0x20007c6; 0xfb4b; 0x20007c8; 0xfb4c;
   0x20007ca; 0xfb4d; 0x20007cc; 0xfb4e; 0x20007ce; 0x1109a; 0x820007d0; 0x1109c; 0x820007d2; 0x110ab;
   0x820007d4; 0x1112e; 0x820007d6; 0x1112f; 0x820007d8; 0x1134b; 0x820007da; 0x1134c; 0x820007dc; 0x114bb;
   0x820007de; 0x114bc; 0x820007e0; 0x114be; 0x820007e2; 0x115ba; 0x820007e4; 0x115bb; 0x820007e6; 0x1d15e;
   0x820007e8; 0x1d15f; 0x820007ea; 0x1d160; 0xc20007ec; 0x1d161; 0xc20007ee; 0x1d162; 0xc20007f0; 0x1d163;
   0xc20007f2; 0x1d164; 0xc20007f4; 0x1d1bb; 0x820007f6; 0x1d1bc; 0x820007f8; 0x1d1bd; 0xc20007fa; 0x1d1be;
   0xc20007fc; 0x1d1bf; 0xc20007fe; 0x1d1c0; 0xc2000800; 0x2f800; 0x1004e3d; 0x2f801; 0x1004e38; 0x2f802;
   0x1004e41; 0x2f803; 0x81020122; 0x2f804; 0x1004f60; 0x2f805; 0x1004fae; 0x2f806; 0x1004fbb; 0x2f807;
   0x1005002; 0x2f808; 0x100507a; 0x2f809; 0x1005099; 0x2f80a; 0x10050e7; 0x2f80b; 0x10050cf; 0x2f80c;
   0x100349e; 0x2f80d; 0x8102063a; 0x2f80e; 0x100514d; 0x2f80f; 0x1005154; 0x2f810; 0x1005164; 0x2f811;
   0x1005177; 0x2f812; 0x8102051c; 0x2f813; 0x10034b9; 0x2f814; 0x1005167; 0x2f815; 0x100518d; 0x2f816;
   0x8102054b; 0x2f817; 0x1005197; 0x2f818; 0x10051a4; 0x2f819; 0x1004ecc; 0x2f81a; 0x10051ac; 0x2f81b;
   0x10051b5; 0x2f81c; 0x810291df; 0x2f81d; 0x10051f5; 0x2f81e; 0x1005203; 0x2f81f; 0x10034df; 0x2f820;
   0x100523b; 0x2f821; 0x1005246; 0x2f822; 0x1005272; 0x2f823; 0x1005277; 0x2f824; 0x1003515; 0x2f825;
   0x10052c7; 0x2f826; 0x10052c9; 0x2f827; 0x10052e4; 0x2f828; 0x10052fa; 0x2f829; 0x1005305; 0x2f82a;
   0x1005306; 0x2f82b; 0x1005317; 0x2f82c; 0x1005349; 0x2f82d; 0x1005351; 0x2f82e; 0x100535a; 0x2f82f;
   0x1005373; 0x2f830; 0x100537d; 0x2f831; 0x100537f; 0x2f832; 0x100537f; 0x2f833; 0x100537f; 0x2f834;
   0x81020a2c; 0x2f835; 0x1007070; 0x2f836; 0x10053ca; 0x2f837; 0x10053df; 0x2f838; 0x81020b63; 0x2f839;
   0x10053eb; 0x2f83a; 0x10053f1; 0x2f83b; 0x1005406; 0x2f83c; 0x100549e; 0x2f83d; 0x1005438; 0x2f83e;
   0x1005448; 0x2f83f; 0x1005468; 0x2f840; 0x10054a2; 0x2f841; 0x10054f6; 0x2f842; 0x1005510; 0x2f843;
   0x1005553; 0x2f844; 0x1005563; 0x2f845; 0x1005584; 0x2f846; 0x1005584; 0x2f847; 0x1005599; 0x2f848;
   0x10055ab; 0x2f849; 0x10055b3; 0x2f84a; 0x10055c2; 0x2f84b; 0x1005716; 0x2f84c; 0x1005606; 0x2f84d;
   0x1005717; 0x2f84e; 0x1005651; 0x2f84f; 0x1005674; 0x2f850; 0x1005207; 0x2f851; 0x10058ee; 0x2f852;
   0x10057ce; 0x2f853; 0x10057f4; 0x2f854; 0x100580d; 0x2f855; 0x100578b; 0x2f856; 0x1005832; 0x2f857;
   0x1005831; 0x2f858; 0x10058ac; 0x2f859; 0x810214e4; 0x2f85a; 0x10058f2; 0x2f85b; 0x10058f7; 0x2f85c;
   0x1005906; 0x2f85d; 0x100591a; 0x2f85e; 0x1005922; 0x2f85f; 0x1005962; 0x2f860; 0x810216a8; 0x2f861;
   0x810216ea; 0x2f862; 0x10059ec; 0x2f863; 0x1005a1b; 0x2f864; 0x1005a27; 0x2f865; 0x10059d8; 0x2f866;
   0x1005a66; 0x2f867; 0x10036ee; 0x2f868; 0x10036fc; 0x2f869; 0x1005b08; 0x2f86a; 0x1005b3e; 0x2f86b;
   0x1005b3e; 0x2f86c; 0x810219c8; 0x2f86d; 0x1005bc3; 0x2f86e; 0x1005bd8; 0x2f86f; 0x1005be7; 0x2f870;
   0x1005bf3; 0x2f871; 0x81021b18; 0x2f872; 0x1005bff; 0x2f873; 0x1005c06; 0x2f874; 0x1005f53; 0x2f875;
   0x1005c22; 0x2f876; 0x1003781; 0x2f877; 0x1005c60; 0x2f878; 0x1005c6e; 0x2f879; 0x1005cc0; 0x2f87a;
   0x1005c8d; 0x2f87b; 0x81021de4; 0x2f87c; 0x1005d43; 0x2f87d; 0x81021de6; 0x2f87e; 0x1005d6e; 0x2f87f;
   0x1005d6b; 0x2f880; 0x1005d7c; 0x2f881; 0x1005de1; 0x2f882; 0x1005de2; 0x2f883; 0x100382f; 0x2f884;
   0x1005dfd; 0x2f885; 0x1005e28; 0x2f886; 0x1005e3d; 0x2f887; 0x1005e69; 0x2f888; 0x1003862; 0x2f889;
   0x81022183; 0x2f88a; 0x100387c; 0x2f88b; 0x1005eb0; 0x2f88c; 0x1005eb3; 0x2f88d; 0x1005eb6; 0x2f88e;
   0x1005eca; 0x2f88f; 0x8102a392; 0x2f890; 0x1005efe; 0x2f891; 0x81022331; 0x2f892; 0x81022331; 0x2f893;
   0x1008201; 0x2f894; 0x1005f22; 0x2f895; 0x1005f22; 0x2f896; 0x10038c7; 0x2f897; 0x810232b8; 0x2f898;
   0x810261da; 0x2f899; 0x1005f62; 0x2f89a; 0x1005f6b; 0x2f89b; 0x10038e3; 0x2f89c; 0x1005f9a; 0x2f89d;
   0x1005fcd; 0x2f89e; 0x1005fd7; 0x2f89f; 0x1005ff9; 0x2f8a0; 0x1006081; 0x2f8a1; 0x100393a; 0x2f8a2;
   0x100391c; 0x2f8a3; 0x1006094; 0x2f8a4; 0x810226d4; 0x2f8a5; 0x10060c7; 0x2f8a6; 0x1006148; 0x2f8a7;
   0x100614c; 0x2f8a8; 0x100614e; 0x2f8a9; 0x100614c; 0x2f8aa; 0x100617a; 0x2f8ab; 0x100618e; 0x2f8ac;
   0x10061b2; 0x2f8ad; 0x10061a4; 0x2f8ae; 0x10061af; 0x2f8af; 0x10061de; 0x2f8b0; 0x10061f2; 0x2f8b1;
   0x10061f6; 0x2f8b2; 0x1006210; 0x2f8b3; 0x100621b; 0x2f8b4; 0x100625d; 0x2f8b5; 0x10062b1; 0x2f8b6;
   0x10062d4; 0x2f8b7; 0x1006350; 0x2f8b8; 0x81022b0c; 0x2f8b9; 0x100633d; 0x2f8ba; 0x10062fc; 0x2f8bb;
   0x1006368; 0x2f8bc; 0x1006383; 0x2f8bd; 0x10063e4; 0x2f8be; 0x81022bf1; 0x2f8bf; 0x1006422; 0x2f8c0;
   0x10063c5; 0x2f8c1; 0x10063a9; 0x2f8c2; 0x1003a2e; 0x2f8c3; 0x1006469; 0x2f8c4; 0x100647e; 0x2f8c5;
   0x100649d; 0x2f8c6; 0x1006477; 0x2f8c7; 0x1003a6c; 0x2f8c8; 0x100654f; 0x2f8c9; 0x100656c; 0x2f8ca;
   0x8102300a; 0x2f8cb; 0x10065e3; 0x2f8cc; 0x10066f8; 0x2f8cd; 0x1006649; 0x2f8ce; 0x1003b19; 0x2f8cf;
   0x1006691; 0x2f8d0; 0x1003b08; 0x2f8d1; 0x1003ae4; 0x2f8d2; 0x1005192; 0x2f8d3; 0x1005195; 0x2f8d4;
   0x1006700; 0x2f8d5; 0x100669c; 0x2f8d6; 0x10080ad; 0x2f8d7; 0x10043d9; 0x2f8d8; 0x1006717; 0x2f8d9;
   0x100671b; 0x2f8da; 0x1006721; 0x2f8db; 0x100675e; 0x2f8dc; 0x1006753; 0x2f8dd; 0x810233c3; 0x2f8de;
   0x1003b49; 0x2f8df; 0x10067fa; 0x2f8e0; 0x1006785; 0x2f8e1; 0x1006852; 0x2f8e2; 0x1006885; 0x2f8e3;
   0x8102346d; 0x2f8e4; 0x100688e; 0x2f8e5; 0x100681f; 0x2f8e6; 0x1006914; 0x2f8e7; 0x1003b9d; 0x2f8e8;
   0x1006942; 0x2f8e9; 0x10069a3; 0x2f8ea; 0x10069ea; 0x2f8eb; 0x1006aa8; 0x2f8ec; 0x810236a3; 0x2f8ed;
   0x1006adb; 0x2f8ee; 0x1003c18; 0x2f8ef; 0x1006b21; 0x2f8f0; 0x810238a7; 0x2f8f1; 0x1006b54; 0x2f8f2;
   0x1003c4e; 0x2f8f3; 0x1006b72; 0x2f8f4; 0x1006b9f; 0x2f8f5; 0x1006bba; 0x2f8f6; 0x1006bbb; 0x2f8f7;
   0x81023a8d; 0x2f8f8; 0x81021d0b; 0x2f8f9; 0x81023afa; 0x2f8fa; 0x1006c4e; 0x2f8fb; 0x81023cbc; 0x2f8fc;
   0x1006cbf; 0x2f8fd; 0x1006ccd; 0x2f8fe; 0x1006c67; 0x2f8ff; 0x1006d16; 0x2f900; 0x1006d3e; 0x2f901;
   0x1006d77; 0x2f902; 0x1006d41; 0x2f903; 0x1006d69; 0x2f904; 0x1006d78; 0x2f905; 0x1006d85; 0x2f906;
   0x81023d1e; 0x2f907; 0x1006d34; 0x2f908; 0x1006e2f; 0x2f909; 0x1006e6e; 0x2f90a; 0x1003d33; 0x2f90b;
   0x1006ecb; 0x2f90c; 0x1006ec7; 0x2f90d; 0x81023ed1; 0x2f90e; 0x1006df9; 0x2f90f; 0x1006f6e; 0x2f910;
   0x81023f5e; 0x2f911; 0x81023f8e; 0x2f912; 0x1006fc6; 0x2f913; 0x1007039; 0x2f914; 0x100701e; 0x2f915;
   0x100701b; 0x2f916; 0x1003d96; 0x2f917; 0x100704a; 0x2f918; 0x100707d; 0x2f919; 0x1007077; 0x2f91a;
   0x10070ad; 0x2f91b; 0x81020525; 0x2f91c; 0x1007145; 0x2f91d; 0x81024263; 0x2f91e; 0x100719c; 0x2f91f;
   0x810243ab; 0x2f920; 0x1007228; 0x2f921; 0x1007235; 0x2f922; 0x1007250; 0x2f923; 0x81024608; 0x2f924;
   0x1007280; 0x2f925; 0x1007295; 0x2f926; 0x81024735; 0x2f927; 0x81024814; 0x2f928; 0x100737a; 0x2f929;
   0x100738b; 0x2f92a; 0x1003eac; 0x2f92b; 0x10073a5; 0x2f92c; 0x1003eb8; 0x2f92d; 0x1003eb8; 0x2f92e;
   0x1007447; 0x2f92f; 0x100745c; 0x2f930; 0x1007471; 0x2f931; 0x1007485; 0x2f932; 0x10074ca; 0x2f933;
   0x1003f1b; 0x2f934; 0x1007524; 0x2f935; 0x81024c36; 0x2f936; 0x100753e; 0x2f937; 0x81024c92; 0x2f938;
   0x1007570; 0x2f939; 0x8102219f; 0x2f93a; 0x1007610; 0x2f93b; 0x81024fa1; 0x2f93c; 0x81024fb8; 0x2f93d;
   0x81025044; 0x2f93e; 0x1003ffc; 0x2f93f; 0x1004008; 0x2f940; 0x10076f4; 0x2f941; 0x810250f3; 0x2f942;
   0x810250f2; 0x2f943; 0x81025119; 0x2f944; 0x81025133; 0x2f945; 0x100771e; 0x2f946; 0x100771f; 0x2f947;
   0x100771f; 0x2f948; 0x100774a; 0x2f949; 0x1004039; 0x2f94a; 0x100778b; 0x2f94b; 0x1004046; 0x2f94c;
   0x1004096; 0x2f94d; 0x8102541d; 0x2f94e; 0x100784e; 0x2f94f; 0x100788c; 0x2f950; 0x10078cc; 0x2f951;
   0x10040e3; 0x2f952; 0x81025626; 0x2f953; 0x1007956; 0x2f954; 0x8102569a; 0x2f955; 0x810256c5; 0x2f956;
   0x100798f; 0x2f957; 0x10079eb; 0x2f958; 0x100412f; 0x2f959; 0x1007a40; 0x2f95a; 0x1007a4a; 0x2f95b;
   0x1007a4f; 0x2f95c; 0x8102597c; 0x2f95d; 0x81025aa7; 0x2f95e; 0x81025aa7; 0x2f95f; 0x1007aee; 0x2f960;
   0x1004202; 0x2f961; 0x81025bab; 0x2f962; 0x1007bc6; 0x2f963; 0x1007bc9; 0x2f964; 0x1004227; 0x2f965;
   0x81025c80; 0x2f966; 0x1007cd2; 0x2f967; 0x10042a0; 0x2f968; 0x1007ce8; 0x2f969; 0x1007ce3; 0x2f96a;
   0x1007d00; 0x2f96b; 0x81025f86; 0x2f96c; 0x1007d63; 0x2f96d; 0x1004301; 0x2f96e; 0x1007dc7; 0x2f96f;
   0x1007e02; 0x2f970; 0x1007e45; 0x2f971; 0x1004334; 0x2f972; 0x81026228; 0x2f973; 0x81026247; 0x2f974;
   0x1004359; 0x2f975; 0x810262d9; 0x2f976; 0x1007f7a; 0x2f977; 0x8102633e; 0x2f978; 0x1007f95; 0x2f979;
   0x1007ffa; 0x2f97a; 0x1008005; 0x2f97b; 0x810264da; 0x2f97c; 0x81026523; 0x2f97d; 0x1008060; 0x2f97e;
   0x810265a8; 0x2f97f; 0x1008070; 0x2f980; 0x8102335f; 0x2f981; 0x10043d5; 0x2f982; 0x10080b2; 0x2f983;
   0x1008103; 0x2f984; 0x100440b; 0x2f985; 0x100813e; 0x2f986; 0x1005ab5; 0x2f987; 0x810267a7; 0x2f988;
   0x810267b5; 0x2f989; 0x81023393; 0x2f98a; 0x8102339c; 0x2f98b; 0x1008201; 0x2f98c; 0x1008204; 0x2f98d;
   0x1008f9e; 0x2f98e; 0x100446b; 0x2f98f; 0x1008291; 0x2f990; 0x100828b; 0x2f991; 0x100829d; 0x2f992;
   0x10052b3; 0x2f993; 0x10082b1; 0x2f994; 0x10082b3; 0x2f995; 0x10082bd; 0x2f996; 0x10082e6; 0x2f997;
   0x81026b3c; 0x2f998; 0x10082e5; 0x2f999; 0x100831d; 0x2f99a; 0x1008363; 0x2f99b; 0x10083ad; 0x2f99c;
   0x1008323; 0x2f99d; 0x10083bd; 0x2f99e; 0x10083e7; 0x2f99f; 0x1008457; 0x2f9a0; 0x1008353; 0x2f9a1;
   0x10083ca; 0x2f9a2; 0x10083cc; 0x2f9a3; 0x10083dc; 0x2f9a4; 0x81026c36; 0x2f9a5; 0x81026d6b; 0x2f9a6;
   0x81026cd5; 0x2f9a7; 0x100452b; 0x2f9a8; 0x10084f1; 0x2f9a9; 0x10084f3; 0x2f9aa; 0x1008516; 0x2f9ab;
   0x810273ca; 0x2f9ac; 0x1008564; 0x2f9ad; 0x81026f2c; 0x2f9ae; 0x100455d; 0x2f9af; 0x1004561; 0x2f9b0;
   0x81026fb1; 0x2f9b1; 0x810270d2; 0x2f9b2; 0x100456b; 0x2f9b3; 0x1008650; 0x2f9b4; 0x100865c; 0x2f9b5;
   0x1008667; 0x2f9b6; 0x1008669; 0x2f9b7; 0x10086a9; 0x2f9b8; 0x1008688; 0x2f9b9; 0x100870e; 0x2f9ba;
   0x10086e2; 0x2f9bb; 0x1008779; 0x2f9bc; 0x1008728; 0x2f9bd; 0x100876b; 0x2f9be; 0x1008786; 0x2f9bf;
   0x10045d7; 0x2f9c0; 0x10087e1; 0x2f9c1; 0x1008801; 0x2f9c2; 0x10045f9; 0x2f9c3; 0x1008860; 0x2f9c4;
   0x1008863; 0x2f9c5; 0x81027667; 0x2f9c6; 0x10088d7; 0x2f9c7; 0x10088de; 0x2f9c8; 0x1004635; 0x2f9c9;
   0x10088fa; 0x2f9ca; 0x10034bb; 0x2f9cb; 0x810278ae; 0x2f9cc; 0x81027966; 0x2f9cd; 0x10046be; 0x2f9ce;
   0x10046c7; 0x2f9cf; 0x1008aa0; 0x2f9d0; 0x1008aed; 0x2f9d1; 0x1008b8a; 0x2f9d2; 0x1008c55; 0x2f9d3;
   0x81027ca8; 0x2f9d4; 0x1008cab; 0x2f9d5; 0x1008cc1; 0x2f9d6; 0x1008d1b; 0x2f9d7; 0x1008d77; 0x2f9d8;
   0x81027f2f; 0x2f9d9; 0x81020804; 0x2f9da; 0x1008dcb; 0x2f9db; 0x1008dbc; 0x2f9dc; 0x1008df0; 0x2f9dd;
   0x810208de; 0x2f9de; 0x1008ed4; 0x2f9df; 0x1008f38; 0x2f9e0; 0x810285d2; 0x2f9e1; 0x810285ed; 0x2f9e2;
   0x1009094; 0x2f9e3; 0x10090f1; 0x2f9e4; 0x1009111; 0x2f9e5; 0x8102872e; 0x2f9e6; 0x100911b; 0x2f9e7;
   0x1009238; 0x2f9e8; 0x10092d7; 0x2f9e9; 0x10092d8; 0x2f9ea; 0x100927c; 0x2f9eb; 0x10093f9; 0x2f9ec;
   0x1009415; 0x2f9ed; 0x81028bfa; 0x2f9ee; 0x100958b; 0x2f9ef; 0x1004995; 0x2f9f0; 0x10095b7; 0x2f9f1;
   0x81028d77; 0x2f9f2; 0x10049e6; 0x2f9f3; 0x10096c3; 0x2f9f4; 0x1005db2; 0x2f9f5; 0x1009723; 0x2f9f6;
   0x81029145; 0x2f9f7; 0x8102921a; 0x2f9f8; 0x1004a6e; 0x2f9f9; 0x1004a76; 0x2f9fa; 0x10097e0; 0x2f9fb;
   0x8102940a; 0x2f9fc; 0x1004ab2; 0x2f9fd; 0x81029496; 0x2f9fe; 0x100980b; 0x2f9ff; 0x100980b; 0x2fa00;
   0x1009829; 0x2fa01; 0x810295b6; 0x2fa02; 0x10098e2; 0x2fa03; 0x1004b33; 0x2fa04; 0x1009929; 0x2fa05;
   0x10099a7; 0x2fa06; 0x10099c2; 0x2fa07; 0x10099fe; 0x2fa08; 0x1004bce; 0x2fa09; 0x81029b30; 0x2fa0a;
   0x1009b12; 0x2fa0b; 0x1009c40; 0x2fa0c; 0x1009cfd; 0x2fa0d; 0x1004cce; 0x2fa0e; 0x1004ced; 0x2fa0f;
   0x1009d67; 0x2fa10; 0x8102a0ce; 0x2fa11; 0x1004cf8; 0x2fa12; 0x8102a105; 0x2fa13; 0x8102a20e; 0x2fa14;
   0x8102a291; 0x2fa15; 0x1009ebb; 0x2fa16; 0x1004d56; 0x2fa17; 0x1009ef9; 0x2fa18; 0x1009efe; 0x2fa19;
   0x1009f05; 0x2fa1a; 0x1009f0f; 0x2fa1b; 0x1009f16; 0x2fa1c; 0x1009f3b; 0x2fa1d; 0x8102a600; 0x41; 0x300;
   0x41; 0x301; 0x41; 0x302; 0x41; 0x303; 0x41; 0x308; 0x41; 0x30a; 0x43; 0x327; 0x45; 0x300; 0x45; 0x301; 0x45;
   0x302; 0x45; 0x308; 0x49; 0x300; 0x49; 0x301; 0x49; 0x302; 0x49; 0x308; 0x4e; 0x303; 0x4f; 0x300; 0x4f;
   0x301; 0x4f; 0x302; 0x4f; 0x303; 0x4f; 0x308; 0x55; 0x300; 0x55; 0x301; 0x55; 0x302; 0x55; 0x308; 0x59;
   0x301; 0x61; 0x300; 0x61; 0x301; 0x61; 0x302; 0x61; 0x303; 0x61; 0x308; 0x61; 0x30a; 0x63; 0x327; 0x65;
   0x300; 0x65; 0x301; 0x65; 0x302; 0x65; 0x308; 0x69; 0x300; 0x69; 0x301; 0x69; 0x302; 0x69; 0x308; 0x6e;
   0x303; 0x6f; 0x300; 0x6f; 0x301; 0x6f; 0x302; 0x6f; 0x303; 0x6f; 0x308; 0x75; 0x300; 0x75; 0x301; 0x75;
   0x302; 0x75; 0x308; 0x79; 0x301; 0x79; 0x308; 0x41; 0x304; 0x61; 0x304; 0x41; 0x306; 0x61; 0x306; 0x41;
   0x328; 0x61; 0x328; 0x43; 0x301; 0x63; 0x301; 0x43; 0x302; 0x63; 0x302; 0x43; 0x307; 0x63; 0x307; 0x43;
   0x30c; 0x63; 0x30c; 0x44; 0x30c; 0x64; 0x30c; 0x45; 0x304; 0x65; 0x304; 0x45; 0x306; 0x65; 0x306; 0x45;
   0x307; 0x65; 0x307; 0x45; 0x328; 0x65; 0x328; 0x45; 0x30c; 0x65; 0x30c; 0x47; 0x302; 0x67; 0x302; 0x47;
   0x306; 0x67; 0x306; 0x47; 0x307; 0x67; 0x307; 0x47; 0x327; 0x67; 0x327; 0x48; 0x302; 0x68; 0x302; 0x49;
   0x303; 0x69; 0x303; 0x49; 0x304; 0x69; 0x304; 0x49; 0x306; 0x69; 0x306; 0x49; 0x328; 0x69; 0x328; 0x49;
   0x307; 0x4a; 0x302; 0x6a; 0x302; 0x4b; 0x327; 0x6b; 0x327; 0x4c; 0x301; 0x6c; 0x301; 0x4c; 0x327; 0x6c;
   0x327; 0x4c; 0x30c; 0x6c; 0x30c; 0x4e; 0x301; 0x6e; 0x301; 0x4e; 0x327; 0x6e; 0x327; 0x4e; 0x30c; 0x6e;
   0x30c; 0x4f; 0x304; 0x6f; 0x304; 0x4f; 0x306; 0x6f; 0x306; 0x4f; 0x30b; 0x6f; 0x30b; 0x52; 0x301; 0x72;
   0x301; 0x52; 0x327; 0x72; 0x327; 0x52; 0x30c; 0x72; 0x30c; 0x53; 0x301; 0x73; 0x301; 0x53; 0x302; 0x73;
   0x302; 0x53; 0x327; 0x73; 0x327; 0x53; 0x30c; 0x73; 0x30c; 0x54; 0x327; 0x74; 0x327; 0x54; 0x30c; 0x74;
   0x30c; 0x55; 0x303; 0x75; 0x303; 0x55; 0x304; 0x75; 0x304; 0x55; 0x306; 0x75; 0x306; 0x55; 0x30a; 0x75;
   0x30a; 0x55; 0x30b; 0x75; 0x30b; 0x55; 0x328; 0x75; 0x328; 0x57; 0x302; 0x77; 0x302; 0x59; 0x302; 0x79;
   0x302; 0x59; 0x308; 0x5a; 0x301; 0x7a; 0x301; 0x5a; 0x307; 0x7a; 0x307; 0x5a; 0x30c; 0x7a; 0x30c; 0x4f;
   0x31b; 0x6f; 0x31b; 0x55; 0x31b; 0x75; 0x31b; 0x41; 0x30c; 0x61; 0x30c; 0x49; 0x30c; 0x69; 0x30c; 0x4f;
   0x30c; 0x6f; 0x30c; 0x55; 0x30c; 0x75; 0x30c; 0xdc; 0x304; 0xfc; 0x304; 0xdc; 0x301; 0xfc; 0x301; 0xdc;
   0x30c; 0xfc; 0x30c; 0xdc; 0x300; 0xfc; 0x300; 0xc4; 0x304; 0xe4; 0x304; 0x226; 0x304; 0x227; 0x304; 0xc6;
   0x304; 0xe6; 0x304; 0x47; 0x30c; 0x67; 0x30c; 0x4b; 0x30c; 0x6b; 0x30c; 0x4f; 0x328; 0x6f; 0x328; 0x1ea;
   0x304; 0x1eb; 0x304; 0x1b7; 0x30c; 0x292; 0x30c; 0x6a; 0x30c; 0x47; 0x301; 0x67; 0x301; 0x4e; 0x300; 0x6e;
   0x300; 0xc5; 0x301; 0xe5; 0x301; 0xc6; 0x301; 0xe6; 0x301; 0xd8; 0x301; 0xf8; 0x301; 0x41; 0x30f; 0x61;
   0x30f; 0x41; 0x311; 0x61; 0x311; 0x45; 0x30f; 0x65; 0x30f; 0x45; 0x311; 0x65; 0x311; 0x49; 0x30f; 0x69;
   0x30f; 0x49; 0x311; 0x69; 0x311; 0x4f; 0x30f; 0x6f; 0x30f; 0x4f; 0x311; 0x6f; 0x311; 0x52; 0x30f; 0x72;
   0x30f; 0x52; 0x311; 0x72; 0x311; 0x55; 0x30f; 0x75; 0x30f; 0x55; 0x311; 0x75; 0x311; 0x53; 0x326; 0x73;
   0x326; 0x54; 0x326; 0x74; 0x326; 0x48; 0x30c; 0x68; 0x30c; 0x41; 0x307; 0x61; 0x307; 0x45; 0x327; 0x65;
   0x327; 0xd6; 0x304; 0xf6; 0x304; 0xd5; 0x304; 0xf5; 0x304; 0x4f; 0x307; 0x6f; 0x307; 0x22e; 0x304; 0x22f;
   0x304; 0x59; 0x304; 0x79; 0x304; 0x308; 0x301; 0xa8; 0x301; 0x391; 0x301; 0x395; 0x301; 0x397; 0x301; 0x399;
   0x301; 0x39f; 0x301; 0x3a5; 0x301; 0x3a9; 0x301; 0x3ca; 0x301; 0x399; 0x308; 0x3a5; 0x308; 0x3b1; 0x301;
   0x3b5; 0x301; 0x3b7; 0x301; 0x3b9; 0x301; 0x3cb; 0x301; 0x3b9; 0x308; 0x3c5; 0x308; 0x3bf; 0x301; 0x3c5;
   0x301; 0x3c9; 0x301; 0x3d2; 0x301; 0x3d2; 0x308; 0x415; 0x300; 0x415; 0x308; 0x413; 0x301; 0x406; 0x308;
   0x41a; 0x301; 0x418; 0x300; 0x423; 0x306; 0x418; 0x306; 0x438; 0x306; 0x435; 0x300; 0x435; 0x308; 0x433;
   0x301; 0x456; 0x308; 0x43a; 0x301; 0x438; 0x300; 0x443; 0x306; 0x474; 0x30f; 0x475; 0x30f; 0x416; 0x306;
   0x436; 0x306; 0x410; 0x306; 0x430; 0x306; 0x410; 0x308; 0x430; 0x308; 0x415; 0x306; 0x435; 0x306; 0x4d8;
   0x308; 0x4d9; 0x308; 0x416; 0x308; 0x436; 0x308; 0x417; 0x308; 0x437; 0x308; 0x418; 0x304; 0x438; 0x304;
   0x418; 0x308; 0x438; 0x308; 0x41e; 0x308; 0x43e; 0x308; 0x4e8; 0x308; 0x4e9; 0x308; 0x42d; 0x308; 0x44d;
   0x308; 0x423; 0x304; 0x443; 0x304; 0x423; 0x308; 0x443; 0x308; 0x423; 0x30b; 0x443; 0x30b; 0x427; 0x308;
   0x447; 0x308; 0x42b; 0x308; 0x44b; 0x308; 0x627; 0x653; 0x627; 0x654; 0x648; 0x654; 0x627; 0x655; 0x64a;
   0x654; 0x6d5; 0x654; 0x6c1; 0x654; 0x6d2; 0x654; 0x928; 0x93c; 0x930; 0x93c; 0x933; 0x93c; 0x915; 0x93c;
   0x916; 0x93c; 0x917; 0x93c; 0x91c; 0x93c; 0x921; 0x93c; 0x922; 0x93c; 0x92b; 0x93c; 0x92f; 0x93c; 0x9c7;
   0x9be; 0x9c7; 0x9d7; 0x9a1; 0x9bc; 0x9a2; 0x9bc; 0x9af; 0x9bc; 0xa32; 0xa3c; 0xa38; 0xa3c; 0xa16; 0xa3c;
   0xa17; 0xa3c; 0xa1c; 0xa3c; 0xa2b; 0xa3c; 0xb47; 0xb56; 0xb47; 0xb3e; 0xb47; 0xb57; 0xb21; 0xb3c; 0xb22;
   0xb3c; 0xb92; 0xbd7; 0xbc6; 0xbbe; 0xbc7; 0xbbe; 0xbc6; 0xbd7; 0xc46; 0xc56; 0xcbf; 0xcd5; 0xcc6; 0xcd5;
   0xcc6; 0xcd6; 0xcc6; 0xcc2; 0xcca; 0xcd5; 0xd46; 0xd3e; 0xd47; 0xd3e; 0xd46; 0xd57; 0xdd9; 0xdca; 0xdd9;
   0xdcf; 0xddc; 0xdca; 0xdd9; 0xddf; 0xf42; 0xfb7; 0xf4c; 0xfb7; 0xf51; 0xfb7; 0xf56; 0xfb7; 0xf5b; 0xfb7;
   0xf40; 0xfb5; 0xf71; 0xf72; 0xf71; 0xf74; 0xfb2; 0xf80; 0xfb3; 0xf80; 0xf71; 0xf80; 0xf92; 0xfb7; 0xf9c;
   0xfb7; 0xfa1; 0xfb7; 0xfa6; 0xfb7; 0xfab; 0xfb7; 0xf90; 0xfb5; 0x1025; 0x102e; 0x1b05; 0x1b35; 0x1b07;
   0x1b35; 0x1b09; 0x1b35; 0x1b0b; 0x1b35; 0x1b0d; 0x1b35; 0x1b11; 0x1b35; 0x1b3a; 0x1b35; 0x1b3c; 0x1b35;
   0x1b3e; 0x1b35; 0x1b3f; 0x1b35; 0x1b42; 0x1b35; 0x41; 0x325; 0x61; 0x325; 0x42; 0x307; 0x62; 0x307; 0x42;
   0x323; 0x62; 0x323; 0x42; 0x331; 0x62; 0x331; 0xc7; 0x301; 0xe7; 0x301; 0x44; 0x307; 0x64; 0x307; 0x44;
   0x323; 0x64; 0x323; 0x44; 0x331; 0x64; 0x331; 0x44; 0x327; 0x64; 0x327; 0x44; 0x32d; 0x64; 0x32d; 0x112;
   0x300; 0x113; 0x300; 0x112; 0x301; 0x113; 0x301; 0x45; 0x32d; 0x65; 0x32d; 0x45; 0x330; 0x65; 0x330; 0x228;
   0x306; 0x229; 0x306; 0x46; 0x307; 0x66; 0x307; 0x47; 0x304; 0x67; 0x304; 0x48; 0x307; 0x68; 0x307; 0x48;
   0x323; 0x68; 0x323; 0x48; 0x308; 0x68; 0x308; 0x48; 0x327; 0x68; 0x327; 0x48; 0x32e; 0x68; 0x32e; 0x49;
   0x330; 0x69; 0x330; 0xcf; 0x301; 0xef; 0x301; 0x4b; 0x301; 0x6b; 0x301; 0x4b; 0x323; 0x6b; 0x323; 0x4b;
   0x331; 0x6b; 0x331; 0x4c; 0x323; 0x6c; 0x323; 0x1e36; 0x304; 0x1e37; 0x304; 0x4c; 0x331; 0x6c; 0x331; 0x4c;
   0x32d; 0x6c; 0x32d; 0x4d; 0x301; 0x6d; 0x301; 0x4d; 0x307; 0x6d; 0x307; 0x4d; 0x323; 0x6d; 0x323; 0x4e;
   0x307; 0x6e; 0x307; 0x4e; 0x323; 0x6e; 0x323; 0x4e; 0x331; 0x6e; 0x331; 0x4e; 0x32d; 0x6e; 0x32d; 0xd5;
   0x301; 0xf5; 0x301; 0xd5; 0x308; 0xf5; 0x308; 0x14c; 0x300; 0x14d; 0x300; 0x14c; 0x301; 0x14d; 0x301; 0x50;
   0x301; 0x70; 0x301; 0x50; 0x307; 0x70; 0x307; 0x52; 0x307; 0x72; 0x307; 0x52; 0x323; 0x72; 0x323; 0x1e5a;
   0x304; 0x1e5b; 0x304; 0x52; 0x331; 0x72; 0x331; 0x53; 0x307; 0x73; 0x307; 0x53; 0x323; 0x73; 0x323; 0x15a;
   0x307; 0x15b; 0x307; 0x160; 0x307; 0x161; 0x307; 0x1e62; 0x307; 0x1e63; 0x307; 0x54; 0x307; 0x74; 0x307;
   0x54; 0x323; 0x74; 0x323; 0x54; 0x331; 0x74; 0x331; 0x54; 0x32d; 0x74; 0x32d; 0x55; 0x324; 0x75; 0x324; 0x55;
   0x330; 0x75; 0x330; 0x55; 0x32d; 0x75; 0x32d; 0x168; 0x301; 0x169; 0x301; 0x16a; 0x308; 0x16b; 0x308; 0x56;
   0x303; 0x76; 0x303; 0x56; 0x323; 0x76; 0x323; 0x57; 0x300; 0x77; 0x300; 0x57; 0x301; 0x77; 0x301; 0x57;
   0x308; 0x77; 0x308; 0x57; 0x307; 0x77; 0x307; 0x57; 0x323; 0x77; 0x323; 0x58; 0x307; 0x78; 0x307; 0x58;
   0x308; 0x78; 0x308; 0x59; 0x307; 0x79; 0x307; 0x5a; 0x302; 0x7a; 0x302; 0x5a; 0x323; 0x7a; 0x323; 0x5a;
   0x331; 0x7a; 0x331; 0x68; 0x331; 0x74; 0x308; 0x77; 0x30a; 0x79; 0x30a; 0x17f; 0x307; 0x41; 0x323; 0x61;
   0x323; 0x41; 0x309; 0x61; 0x309; 0xc2; 0x301; 0xe2; 0x301; 0xc2; 0x300; 0xe2; 0x300; 0xc2; 0x309; 0xe2;
   0x309; 0xc2; 0x303; 0xe2; 0x303; 0x1ea0; 0x302; 0x1ea1; 0x302; 0x102; 0x301; 0x103; 0x301; 0x102; 0x300;
   0x103; 0x300; 0x102; 0x309; 0x103; 0x309; 0x102; 0x303; 0x103; 0x303; 0x1ea0; 0x306; 0x1ea1; 0x306; 0x45;
   0x323; 0x65; 0x323; 0x45; 0x309; 0x65; 0x309; 0x45; 0x303; 0x65; 0x303; 0xca; 0x301; 0xea; 0x301; 0xca;
   0x300; 0xea; 0x300; 0xca; 0x309; 0xea; 0x309; 0xca; 0x303; 0xea; 0x303; 0x1eb8; 0x302; 0x1eb9; 0x302; 0x49;
   0x309; 0x69; 0x309; 0x49; 0x323; 0x69; 0x323; 0x4f; 0x323; 0x6f; 0x323; 0x4f; 0x309; 0x6f; 0x309; 0xd4;
   0x301; 0xf4; 0x301; 0xd4; 0x300; 0xf4; 0x300; 0xd4; 0x309; 0xf4; 0x309; 0xd4; 0x303; 0xf4; 0x303; 0x1ecc;
   0x302; 0x1ecd; 0x302; 0x1a0; 0x301; 0x1a1; 0x301; 0x1a0; 0x300; 0x1a1; 0x300; 0x1a0; 0x309; 0x1a1; 0x309;
   0x1a0; 0x303; 0x1a1; 0x303; 0x1a0; 0x323; 0x1a1; 0x323; 0x55; 0x323; 0x75; 0x323; 0x55; 0x309; 0x75; 0x309;
   0x1af; 0x301; 0x1b0; 0x301; 0x1af; 0x300; 0x1b0; 0x300; 0x1af; 0x309; 0x1b0; 0x309; 0x1af; 0x303; 0x1b0;
   0x303; 0x1af; 0x323; 0x1b0; 0x323; 0x59; 0x300; 0x79; 0x300; 0x59; 0x323; 0x79; 0x323; 0x59; 0x309; 0x79;
   0x309; 0x59; 0x303; 0x79; 0x303; 0x3b1; 0x313; 0x3b1; 0x314; 0x1f00; 0x300; 0x1f01; 0x300; 0x1f00; 0x301;
   0x1f01; 0x301; 0x1f00; 0x342; 0x1f01; 0x342; 0x391; 0x313; 0x391; 0x314; 0x1f08; 0x300; 0x1f09; 0x300;
   0x1f08; 0x301; 0x1f09; 0x301; 0x1f08; 0x342; 0x1f09; 0x342; 0x3b5; 0x313; 0x3b5; 0x314; 0x1f10; 0x300;
   0x1f11; 0x300; 0x1f10; 0x301; 0x1f11; 0x301; 0x395; 0x313; 0x395; 0x314; 0x1f18; 0x300; 0x1f19; 0x300;
   0x1f18; 0x301; 0x1f19; 0x301; 0x3b7; 0x313; 0x3b7; 0x314; 0x1f20; 0x300; 0x1f21; 0x300; 0x1f20; 0x301;
   0x1f21; 0x301; 0x1f20; 0x342; 0x1f21; 0x342; 0x397; 0x313; 0x397; 0x314; 0x1f28; 0x300; 0x1f29; 0x300;
   0x1f28; 0x301; 0x1f29; 0x301; 0x1f28; 0x342; 0x1f29; 0x342; 0x3b9; 0x313; 0x3b9; 0x314; 0x1f30; 0x300;
   0x1f31; 0x300; 0x1f30; 0x301; 0x1f31; 0x301; 0x1f30; 0x342; 0x1f31; 0x342; 0x399; 0x313; 0x399; 0x314;
   0x1f38; 0x300; 0x1f39; 0x300; 0x1f38; 0x301; 0x1f39; 0x301; 0x1f38; 0x342; 0x1f39; 0x342; 0x3bf; 0x313;
   0x3bf; 0x314; 0x1f40; 0x300; 0x1f41; 0x300; 0x1f40; 0x301; 0x1f41; 0x301; 0x39f; 0x313; 0x39f; 0x314; 0x1f48;
   0x300; 0x1f49; 0x300; 0x1f48; 0x301; 0x1f49; 0x301; 0x3c5; 0x313; 0x3c5; 0x314; 0x1f50; 0x300; 0x1f51; 0x300;
   0x1f50; 0x301; 0x1f51; 0x301; 0x1f50; 0x342; 0x1f51; 0x342; 0x3a5; 0x314; 0x1f59; 0x300; 0x1f59; 0x301;
   0x1f59; 0x342; 0x3c9; 0x313; 0x3c9; 0x314; 0x1f60; 0x300; 0x1f61; 0x300; 0x1f60; 0x301; 0x1f61; 0x301;
   0x1f60; 0x342; 0x1f61; 0x342; 0x3a9; 0x313; 0x3a9; 0x314; 0x1f68; 0x300; 0x1f69; 0x300; 0x1f68; 0x301;
   0x1f69; 0x301; 0x1f68; 0x342; 0x1f69; 0x342; 0x3b1; 0x300; 0x3b5; 0x300; 0x3b7; 0x300; 0x3b9; 0x300; 0x3bf;
   0x300; 0x3c5; 0x300; 0x3c9; 0x300; 0x1f00; 0x345; 0x1f01; 0x345; 0x1f02; 0x345; 0x1f03; 0x345; 0x1f04; 0x345;
   0x1f05; 0x345; 0x1f06; 0x345; 0x1f07; 0x345; 0x1f08; 0x345; 0x1f09; 0x345; 0x1f0a; 0x345; 0x1f0b; 0x345;
   0x1f0c; 0x345; 0x1f0d; 0x345; 0x1f0e; 0x345; 0x1f0f; 0x345; 0x1f20; 0x345; 0x1f21; 0x345; 0x1f22; 0x345;
   0x1f23; 0x345; 0x1f24; 0x345; 0x1f25; 0x345; 0x1f26; 0x345; 0x1f27; 0x345; 0x1f28; 0x345; 0x1f29; 0x345;
   0x1f2a; 0x345; 0x1f2b; 0x345; 0x1f2c; 0x345; 0x1f2d; 0x345; 0x1f2e; 0x345; 0x1f2f; 0x345; 0x1f60; 0x345;
   0x1f61; 0x345; 0x1f62; 0x345; 0x1f63; 0x345; 0x1f64; 0x345; 0x1f65; 0x345; 0x1f66; 0x345; 0x1f67; 0x345;
   0x1f68; 0x345; 0x1f69; 0x345; 0x1f6a; 0x345; 0x1f6b; 0x345; 0x1f6c; 0x345; 0x1f6d; 0x345; 0x1f6e; 0x345;
   0x1f6f; 0x345; 0x3b1; 0x306; 0x3b1; 0x304; 0x1f70; 0x345; 0x3b1; 0x345; 0x3ac; 0x345; 0x3b1; 0x342; 0x1fb6;
   0x345; 0x391; 0x306; 0x391; 0x304; 0x391; 0x300; 0x391; 0x345; 0xa8; 0x342; 0x1f74; 0x345; 0x3b7; 0x345;
   0x3ae; 0x345; 0x3b7; 0x342; 0x1fc6; 0x345; 0x395; 0x300; 0x397; 0x300; 0x397; 0x345; 0x1fbf; 0x300; 0x1fbf;
   0x301; 0x1fbf; 0x342; 0x3b9; 0x306; 0x3b9; 0x304; 0x3ca; 0x300; 0x3b9; 0x342; 0x3ca; 0x342; 0x399; 0x306;
   0x399; 0x304; 0x399; 0x300; 0x1ffe; 0x300; 0x1ffe; 0x301; 0x1ffe; 0x342; 0x3c5; 0x306; 0x3c5; 0x304; 0x3cb;
   0x300; 0x3c1; 0x313; 0x3c1; 0x314; 0x3c5; 0x342; 0x3cb; 0x342; 0x3a5; 0x306; 0x3a5; 0x304; 0x3a5; 0x300;
   0x3a1; 0x314; 0xa8; 0x300; 0x1f7c; 0x345; 0x3c9; 0x345; 0x3ce; 0x345; 0x3c9; 0x342; 0x1ff6; 0x345; 0x39f;
   0x300; 0x3a9; 0x300; 0x3a9; 0x345; 0x2190; 0x338; 0x2192; 0x338; 0x2194; 0x338; 0x21d0; 0x338; 0x21d4; 0x338;
   0x21d2; 0x338; 0x2203; 0x338; 0x2208; 0x338; 0x220b; 0x338; 0x2223; 0x338; 0x2225; 0x338; 0x223c; 0x338;
   0x2243; 0x338; 0x2245; 0x338; 0x2248; 0x338; 0x3d; 0x338; 0x2261; 0x338; 0x224d; 0x338; 0x3c; 0x338; 0x3e;
   0x338; 0x2264; 0x338; 0x2265; 0x338; 0x2272; 0x338; 0x2273; 0x338; 0x2276; 0x338; 0x2277; 0x338; 0x227a;
   0x338; 0x227b; 0x338; 0x2282; 0x338; 0x2283; 0x338; 0x2286; 0x338; 0x2287; 0x338; 0x22a2; 0x338; 0x22a8;
   0x338; 0x22a9; 0x338; 0x22ab; 0x338; 0x227c; 0x338; 0x227d; 0x338; 0x2291; 0x338; 0x2292; 0x338; 0x22b2;
   0x338; 0x22b3; 0x338; 0x22b4; 0x338; 0x22b5; 0x338; 0x2add; 0x338; 0x304b; 0x3099; 0x304d; 0x3099; 0x304f;
   0x3099; 0x3051; 0x3099; 0x3053; 0x3099; 0x3055; 0x3099; 0x3057; 0x3099; 0x3059; 0x3099; 0x305b; 0x3099;
   0x305d; 0x3099; 0x305f; 0x3099; 0x3061; 0x3099; 0x3064; 0x3099; 0x3066; 0x3099; 0x3068; 0x3099; 0x306f;
   0x3099; 0x306f; 0x309a; 0x3072; 0x3099; 0x3072; 0x309a; 0x3075; 0x3099; 0x3075; 0x309a; 0x3078; 0x3099;
   0x3078; 0x309a; 0x307b; 0x3099; 0x307b; 0x309a; 0x3046; 0x3099; 0x309d; 0x3099; 0x30ab; 0x3099; 0x30ad;
   0x3099; 0x30af; 0x3099; 0x30b1; 0x3099; 0x30b3; 0x3099; 0x30b5; 0x3099; 0x30b7; 0x3099; 0x30b9; 0x3099;
   0x30bb; 0x3099; 0x30bd; 0x3099; 0x30bf; 0x3099; 0x30c1; 0x3099; 0x30c4; 0x3099; 0x30c6; 0x3099; 0x30c8;
   0x3099; 0x30cf; 0x3099; 0x30cf; 0x309a; 0x30d2; 0x3099; 0x30d2; 0x309a; 0x30d5; 0x3099; 0x30d5; 0x309a;
   0x30d8; 0x3099; 0x30d8; 0x309a; 0x30db; 0x3099; 0x30db; 0x309a; 0x30a6; 0x3099; 0x30ef; 0x3099; 0x30f0;
   0x3099; 0x30f1; 0x3099; 0x30f2; 0x3099; 0x30fd; 0x3099; 0x5d9; 0x5b4; 0x5f2; 0x5b7; 0x5e9; 0x5c1; 0x5e9;
   0x5c2; 0xfb49; 0x5c1; 0xfb49; 0x5c2; 0x5d0; 0x5b7; 0x5d0; 0x5b8; 0x5d0; 0x5bc; 0x5d1; 0x5bc; 0x5d2; 0x5bc;
   0x5d3; 0x5bc; 0x5d4; 0x5bc; 0x5d5; 0x5bc; 0x5d6; 0x5bc; 0x5d8; 0x5bc; 0x5d9; 0x5bc; 0x5da; 0x5bc; 0x5db;
   0x5bc; 0x5dc; 0x5bc; 0x5de; 0x5bc; 0x5e0; 0x5bc; 0x5e1; 0x5bc; 0x5e3; 0x5bc; 0x5e4; 0x5bc; 0x5e6; 0x5bc;
   0x5e7; 0x5bc; 0x5e8; 0x5bc; 0x5e9; 0x5bc; 0x5ea; 0x5bc; 0x5d5; 0x5b9; 0x5d1; 0x5bf; 0x5db; 0x5bf; 0x5e4;
   0x5bf; 0x11099; 0x110ba; 0x1109b; 0x110ba; 0x110a5; 0x110ba; 0x11131; 0x11127; 0x11132; 0x11127; 0x11347;
   0x1133e; 0x11347; 0x11357; 0x114b9; 0x114ba; 0x114b9; 0x114b0; 0x114b9; 0x114bd; 0x115b8; 0x115af; 0x115b9;
   0x115af; 0x1d157; 0x1d165; 0x1d158; 0x1d165; 0x1d15f; 0x1d16e; 0x1d15f; 0x1d16f; 0x1d15f; 0x1d170; 0x1d15f;
   0x1d171; 0x1d15f; 0x1d172; 0x1d1b9; 0x1d165; 0x1d1ba; 0x1d165; 0x1d1bb; 0x1d16e; 0x1d1bc; 0x1d16e; 0x1d1bb;
   0x1d16f; 0x1d1bc; 0x1d16f].

(** Bytes in runs: how often, and which. *)
Definition runs (l : list (Z * Z)) : list Z := flat_map (fun r => replicate (Z.to_nat (fst r)) (snd r)) l.

(** CFUniCharPropertyDatabase.data: the combining classes of plane 0. *)
Definition combining_plane_0 : list Z := runs
  [(3, 0x0); (1, 0x1); (1, 0x2); (1, 0x3); (1, 0x4); (1, 0x5); (1, 0x6); (1, 0x7); (1, 0x8); (1, 0x9); (1, 0xa);
   (1, 0xb); (1, 0xc); (1, 0xd); (1, 0xe); (2, 0x0); (1, 0xf); (3, 0x0); (1, 0x10); (1, 0x11); (1, 0x12);
   (1, 0x13); (1, 0x14); (1, 0x15); (1, 0x16); (2, 0x0); (1, 0x17); (11, 0x0); (1, 0x18); (1, 0x19); (2, 0x0);
   (1, 0x1a); (117, 0x0); (1, 0x1b); (1, 0x0); (1, 0x1c); (1, 0x1d); (1, 0x1e); (1, 0x1f); (79, 0x0); (1, 0x20);
   (2, 0x0); (1, 0x21); (1, 0x0); (21, 0xe6); (1, 0xe8); (4, 0xdc); (1, 0xe8); (1, 0xd8); (5, 0xdc); (2, 0xca);
   (4, 0xdc); (2, 0xca); (11, 0xdc); (5, 0x1); (4, 0xdc); (8, 0xe6); (1, 0xf0); (1, 0xe6); (3, 0xdc); (3, 0xe6);
   (2, 0xdc); (1, 0x0); (3, 0xe6); (4, 0xdc); (1, 0xe6); (1, 0xe8); (2, 0xdc); (1, 0xe6); (1, 0xe9); (2, 0xea);
   (1, 0xe9); (2, 0xea); (1, 0xe9); (13, 0xe6); (275, 0x0); (5, 0xe6); (265, 0x0); (1, 0xdc); (4, 0xe6);
   (1, 0xdc); (3, 0xe6); (1, 0xde); (1, 0xdc); (6, 0xe6); (6, 0xdc); (2, 0xe6); (1, 0xdc); (2, 0xe6); (1, 0xde);
   (1, 0xe4); (1, 0xe6); (1, 0xa); (1, 0xb); (1, 0xc); (1, 0xd); (1, 0xe); (1, 0xf); (1, 0x10); (1, 0x11);
   (1, 0x12); (2, 0x13); (1, 0x14); (1, 0x15); (1, 0x16); (1, 0x0); (1, 0x17); (1, 0x0); (1, 0x18); (1, 0x19);
   (1, 0x0); (1, 0xe6); (1, 0xdc); (1, 0x0); (1, 0x12); (72, 0x0); (8, 0xe6); (1, 0x1e); (1, 0x1f); (1, 0x20);
   (48, 0x0); (1, 0x1b); (1, 0x1c); (1, 0x1d); (1, 0x1e); (1, 0x1f); (1, 0x20); (1, 0x21); (1, 0x22); (2, 0xe6);
   (2, 0xdc); (5, 0xe6); (1, 0xdc); (2, 0xe6); (1, 0xdc); (16, 0x0); (1, 0x23); (101, 0x0); (7, 0xe6); (2, 0x0);
   (4, 0xe6); (1, 0xdc); (1, 0xe6); (2, 0x0); (2, 0xe6); (1, 0x0); (1, 0xdc); (2, 0xe6); (1, 0xdc); (35, 0x0);
   (1, 0x24); (30, 0x0); (1, 0xe6); (1, 0xdc); (2, 0xe6); (1, 0xdc); (2, 0xe6); (3, 0xdc); (1, 0xe6); (2, 0xdc);
   (1, 0xe6); (1, 0xdc); (3, 0xe6); (1, 0xdc); (1, 0xe6); (1, 0xdc); (1, 0xe6); (1, 0xdc); (1, 0xe6); (1, 0xdc);
   (2, 0xe6); (160, 0x0); (7, 0xe6); (1, 0xdc); (1, 0xe6); (34, 0x0); (4, 0xe6); (1, 0x0); (9, 0xe6); (1, 0x0);
   (3, 0xe6); (1, 0x0); (5, 0xe6); (43, 0x0); (3, 0xdc); (136, 0x0); (2, 0xe6); (1, 0xdc); (2, 0xe6); (1, 0xdc);
   (3, 0xe6); (3, 0xdc); (1, 0x1b); (1, 0x1c); (1, 0x1d); (3, 0xe6); (1, 0xdc); (2, 0xe6); (2, 0xdc); (5, 0xe6);
   (60, 0x0); (1, 0x7); (16, 0x0); (1, 0x9); (3, 0x0); (1, 0xe6); (1, 0xdc); (2, 0xe6); (103, 0x0); (1, 0x7);
   (16, 0x0); (1, 0x9); (110, 0x0); (1, 0x7); (16, 0x0); (1, 0x9); (110, 0x0); (1, 0x7); (16, 0x0); (1, 0x9);
   (110, 0x0); (1, 0x7); (16, 0x0); (1, 0x9); (127, 0x0); (1, 0x9); (127, 0x0); (1, 0x9); (7, 0x0); (1, 0x54);
   (1, 0x5b); (101, 0x0); (1, 0x7); (16, 0x0); (1, 0x9); (127, 0x0); (1, 0x9); (124, 0x0); (1, 0x9); (109, 0x0);
   (2, 0x67); (1, 0x9); (13, 0x0); (4, 0x6b); (108, 0x0); (2, 0x76); (14, 0x0); (4, 0x7a); (76, 0x0); (2, 0xdc);
   (27, 0x0); (1, 0xdc); (1, 0x0); (1, 0xdc); (1, 0x0); (1, 0xd8); (55, 0x0); (1, 0x81); (1, 0x82); (1, 0x0);
   (1, 0x84); (5, 0x0); (4, 0x82); (2, 0x0); (1, 0x82); (1, 0x0); (2, 0xe6); (1, 0x9); (1, 0x0); (2, 0xe6);
   (62, 0x0); (1, 0xdc); (112, 0x0); (1, 0x7); (1, 0x0); (2, 0x9); (82, 0x0); (1, 0xdc); (207, 0x0); (3, 0xe6);
   (180, 0x0); (1, 0x9); (31, 0x0); (1, 0x9); (157, 0x0); (1, 0x9); (10, 0x0); (1, 0xe6); (203, 0x0); (1, 0xe4);
   (143, 0x0); (1, 0xde); (1, 0xe6); (1, 0xdc); (219, 0x0); (1, 0xe6); (1, 0xdc); (71, 0x0); (1, 0x9);
   (20, 0x0); (8, 0xe6); (2, 0x0); (1, 0xdc); (48, 0x0); (5, 0xe6); (6, 0xdc); (2, 0xe6); (1, 0xdc); (118, 0x0);
   (1, 0x7); (15, 0x0); (1, 0x9); (38, 0x0); (1, 0xe6); (1, 0xdc); (7, 0xe6); (54, 0x0); (2, 0x9); (58, 0x0);
   (1, 0x7); (11, 0x0); (2, 0x9); (67, 0x0); (1, 0x7); (152, 0x0); (3, 0xe6); (1, 0x0); (1, 0x1); (5, 0xdc);
   (2, 0xe6); (4, 0xdc); (1, 0xe6); (1, 0x0); (7, 0x1); (4, 0x0); (1, 0xdc); (6, 0x0); (1, 0xe6); (3, 0x0);
   (2, 0xe6); (198, 0x0); (2, 0xe6); (1, 0xdc); (7, 0xe6); (1, 0xdc); (2, 0xe6); (1, 0xea); (1, 0xd6);
   (1, 0xdc); (1, 0xca); (37, 0xe6); (6, 0x0); (1, 0xe9); (1, 0xdc); (1, 0xe6); (1, 0xdc); (208, 0x0);
   (2, 0xe6); (2, 0x1); (4, 0xe6); (3, 0x1); (2, 0xe6); (4, 0x0); (1, 0xe6); (3, 0x0); (2, 0x1); (1, 0xe6);
   (1, 0xdc); (1, 0xe6); (2, 0x1); (4, 0xdc); (1, 0xe6); (254, 0x0); (3, 0xe6); (141, 0x0); (1, 0x9); (96, 0x0);
   (32, 0xe6); (42, 0x0); (1, 0xda); (1, 0xe4); (1, 0xe8); (1, 0xde); (2, 0xe0); (105, 0x0); (2, 0x8);
   (212, 0x0); (1, 0xe6); (4, 0x0); (10, 0xe6); (33, 0x0); (1, 0xe6); (80, 0x0); (2, 0xe6); (20, 0x0); (1, 0x9);
   (189, 0x0); (1, 0x9); (27, 0x0); (18, 0xe6); (57, 0x0); (3, 0xdc); (37, 0x0); (1, 0x9); (95, 0x0); (1, 0x7);
   (12, 0x0); (1, 0x9); (239, 0x0); (1, 0xe6); (1, 0x0); (2, 0xe6); (1, 0xdc); (2, 0x0); (2, 0xe6); (5, 0x0);
   (2, 0xe6); (1, 0x0); (1, 0xe6); (52, 0x0); (1, 0x9); (246, 0x0); (1, 0x9); (48, 0x0); (1, 0x1a); (257, 0x0);
   (7, 0xe6); (7, 0xdc); (210, 0x0)].

(** The combining classes of plane 1. *)
Definition combining_plane_1 : list Z := runs
  [(1, 0x0); (1, 0x1); (1, 0x2); (1, 0x3); (6, 0x0); (1, 0x4); (5, 0x0); (1, 0x5); (1, 0x6); (1, 0x7); (1, 0x8);
   (1, 0x9); (1, 0xa); (1, 0xb); (83, 0x0); (1, 0xc); (1, 0xd); (80, 0x0); (1, 0xe); (20, 0x0); (1, 0xf);
   (1, 0x10); (21, 0x0); (1, 0x11); (276, 0x0); (1, 0xdc); (226, 0x0); (1, 0xdc); (149, 0x0); (5, 0xe6);
   (146, 0x0); (1, 0xdc); (1, 0x0); (1, 0xe6); (40, 0x0); (1, 0xe6); (1, 0x1); (1, 0xdc); (4, 0x0); (1, 0x9);
   (165, 0x0); (1, 0xe6); (1, 0xdc); (95, 0x0); (1, 0x9); (56, 0x0); (1, 0x9); (57, 0x0); (1, 0x9); (1, 0x7);
   (69, 0x0); (3, 0xe6); (48, 0x0); (2, 0x9); (62, 0x0); (1, 0x7); (76, 0x0); (1, 0x9); (116, 0x0); (1, 0x9);
   (1, 0x7); (178, 0x0); (1, 0x7); (1, 0x9); (81, 0x0); (1, 0x7); (16, 0x0); (1, 0x9); (24, 0x0); (7, 0xe6);
   (3, 0x0); (5, 0xe6); (333, 0x0); (1, 0x9); (1, 0x7); (251, 0x0); (1, 0x9); (1, 0x7); (126, 0x0); (1, 0x9);
   (118, 0x0); (1, 0x9); (1, 0x7); (312, 0x0); (5, 0x1); (59, 0x0); (7, 0xe6); (359, 0x0); (1, 0x1); (198, 0x0);
   (2, 0xd8); (3, 0x1); (3, 0x0); (1, 0xe2); (5, 0xd8); (8, 0x0); (8, 0xdc); (2, 0x0); (5, 0xe6); (2, 0xdc);
   (30, 0x0); (4, 0xe6); (148, 0x0); (3, 0xe6); (395, 0x0); (7, 0xdc); (41, 0x0)].

(** CFCharacterSetBitmaps.bitmap: the characters of plane 0 with a canonical decomposition. *)
Definition decomposable_plane_0 : list Z := runs
  [(24, 0x0); (1, 0xbf); (1, 0xff); (1, 0x7e); (1, 0x3e); (1, 0xbf); (1, 0xff); (1, 0x7e); (1, 0xbe); (2, 0xff);
   (1, 0xfc); (1, 0xff); (1, 0x3f); (1, 0xff); (1, 0xf1); (1, 0x7e); (1, 0xf8); (1, 0xf1); (1, 0xf3); (1, 0xff);
   (1, 0x3f); (2, 0xff); (1, 0x7f); (4, 0x0); (1, 0x3); (1, 0x80); (1, 0x1); (2, 0x0); (1, 0xe0); (1, 0xff);
   (1, 0xdf); (1, 0xcf); (1, 0xff); (1, 0x31); (4, 0xff); (1, 0xcf); (1, 0xc0); (1, 0xff); (1, 0xf); (33, 0x0);
   (1, 0x1b); (5, 0x0); (1, 0x10); (1, 0x40); (1, 0xe0); (1, 0xd7); (1, 0x1); (2, 0x0); (1, 0xfc); (1, 0x1);
   (2, 0x0); (1, 0x7c); (1, 0x18); (5, 0x0); (1, 0x8b); (1, 0x70); (1, 0x0); (1, 0x2); (3, 0x0); (1, 0x2);
   (2, 0x0); (1, 0x8b); (1, 0x70); (2, 0x0); (1, 0xc0); (9, 0x0); (1, 0x6); (1, 0x0); (1, 0xcf); (3, 0xfc);
   (1, 0x3f); (1, 0x3); (36, 0x0); (1, 0x7c); (19, 0x0); (1, 0x5); (1, 0x0); (1, 0x8); (74, 0x0); (1, 0x2);
   (1, 0x12); (4, 0x0); (1, 0xff); (13, 0x0); (1, 0x18); (1, 0x0); (1, 0xb0); (10, 0x0); (1, 0x48); (4, 0x0);
   (1, 0x4e); (29, 0x0); (1, 0x19); (1, 0x0); (1, 0x30); (6, 0x0); (1, 0x10); (6, 0x0); (1, 0x1c); (15, 0x0);
   (1, 0x1); (14, 0x0); (1, 0x81); (1, 0xd); (15, 0x0); (1, 0x1c); (17, 0x0); (1, 0x74); (44, 0x0); (1, 0x8);
   (1, 0x20); (1, 0x84); (1, 0x10); (1, 0x0); (1, 0x2); (1, 0x68); (1, 0x1); (1, 0x2); (1, 0x0); (1, 0x8);
   (1, 0x20); (1, 0x84); (1, 0x10); (1, 0x0); (1, 0x2); (12, 0x0); (1, 0x40); (347, 0x0); (1, 0x40); (1, 0x55);
   (1, 0x4); (4, 0x0); (1, 0x28); (1, 0xb); (87, 0x0); (19, 0xff); (1, 0xb); (11, 0xff); (1, 0x3); (2, 0xff);
   (2, 0x3f); (4, 0xff); (2, 0x3f); (1, 0xff); (1, 0xaa); (3, 0xff); (1, 0x3f); (6, 0xff); (1, 0xdf); (1, 0x5f);
   (1, 0xde); (1, 0xff); (1, 0xcf); (1, 0xef); (2, 0xff); (1, 0xdc); (1, 0x3f); (1, 0x3); (35, 0x0); (1, 0x40);
   (1, 0xc); (13, 0x0); (1, 0xc); (1, 0x0); (1, 0x40); (3, 0x0); (1, 0xe0); (6, 0x0); (1, 0x10); (1, 0x12);
   (2, 0x0); (1, 0x50); (3, 0x0); (1, 0x92); (1, 0x2); (2, 0x0); (1, 0x5); (1, 0xe0); (1, 0x33); (1, 0x3);
   (1, 0x33); (1, 0x3); (3, 0x0); (1, 0xf0); (6, 0x0); (1, 0xf); (1, 0x3c); (7, 0x0); (1, 0x6); (245, 0x0);
   (1, 0x10); (173, 0x0); (1, 0x50); (2, 0x55); (1, 0xa5); (1, 0x2); (1, 0xdb); (1, 0x36); (2, 0x0); (1, 0x10);
   (1, 0x40); (1, 0x0); (1, 0x50); (2, 0x55); (1, 0xa5); (1, 0x2); (1, 0xdb); (1, 0x36); (2, 0x0); (1, 0x90);
   (1, 0x47); (3936, 0x0); (1396, 0xff); (1, 0xf); (1067, 0x0); (33, 0xff); (1, 0x3f); (1, 0xe5); (1, 0x7f);
   (1, 0x65); (1, 0xfc); (7, 0xff); (1, 0x3f); (13, 0xff); (1, 0x3); (7, 0x0); (1, 0xa0); (1, 0x0); (1, 0xfc);
   (1, 0x7f); (1, 0x5f); (1, 0xdb); (1, 0x7f); (150, 0x0)].

(** CFCharacterSetBitmaps.bitmap: the characters of plane 1 with a canonical decomposition. *)
Definition decomposable_plane_1 : list Z := runs
  [(531, 0x0); (1, 0x14); (1, 0x0); (1, 0x8); (15, 0x0); (1, 0xc0); (67, 0x0); (1, 0x18); (45, 0x0); (1, 0x58);
   (31, 0x0); (1, 0xc); (6003, 0x0); (1, 0xc0); (1, 0x1f); (10, 0x0); (1, 0xf8); (1, 0x1); (1479, 0x0)].

(** CFCharacterSetBitmaps.bitmap: the characters of plane 2 with a canonical decomposition. *)
Definition decomposable_plane_2 : list Z := runs
  [(7936, 0x0); (67, 0xff); (1, 0x3f); (188, 0x0)].

(** The characters of plane 0 that file names of HFS+ decompose. *)
Definition hfs_decomposable_plane_0 : list Z := runs
  [(24, 0x0); (1, 0xbf); (1, 0xff); (1, 0x7e); (1, 0x3e); (1, 0xbf); (1, 0xff); (1, 0x7e); (1, 0xbe); (2, 0xff);
   (1, 0xfc); (1, 0xff); (1, 0x3f); (1, 0xff); (1, 0xf1); (1, 0x7e); (1, 0xf8); (1, 0xf1); (1, 0xf3); (1, 0xff);
   (1, 0x3f); (2, 0xff); (1, 0x7f); (4, 0x0); (1, 0x3); (1, 0x80); (1, 0x1); (2, 0x0); (1, 0xe0); (1, 0xff);
   (1, 0xdf); (1, 0xcf); (1, 0xff); (1, 0x31); (4, 0xff); (1, 0xcf); (1, 0xc0); (1, 0xff); (1, 0xf); (33, 0x0);
   (1, 0x1b); (5, 0x0); (1, 0x10); (1, 0x40); (1, 0xe0); (1, 0xd7); (1, 0x1); (2, 0x0); (1, 0xfc); (1, 0x1);
   (2, 0x0); (1, 0x7c); (1, 0x18); (5, 0x0); (1, 0x8b); (1, 0x70); (1, 0x0); (1, 0x2); (3, 0x0); (1, 0x2);
   (2, 0x0); (1, 0x8b); (1, 0x70); (2, 0x0); (1, 0xc0); (9, 0x0); (1, 0x6); (1, 0x0); (1, 0xcf); (3, 0xfc);
   (1, 0x3f); (1, 0x3); (36, 0x0); (1, 0x7c); (19, 0x0); (1, 0x5); (1, 0x0); (1, 0x8); (74, 0x0); (1, 0x2);
   (1, 0x12); (4, 0x0); (1, 0xff); (13, 0x0); (1, 0x18); (1, 0x0); (1, 0xb0); (10, 0x0); (1, 0x48); (4, 0x0);
   (1, 0x4e); (29, 0x0); (1, 0x19); (1, 0x0); (1, 0x30); (6, 0x0); (1, 0x10); (6, 0x0); (1, 0x1c); (15, 0x0);
   (1, 0x1); (14, 0x0); (1, 0x81); (1, 0xd); (15, 0x0); (1, 0x1c); (17, 0x0); (1, 0x74); (44, 0x0); (1, 0x8);
   (1, 0x20); (1, 0x84); (1, 0x10); (1, 0x0); (1, 0x2); (1, 0x68); (1, 0x1); (1, 0x2); (1, 0x0); (1, 0x8);
   (1, 0x20); (1, 0x84); (1, 0x10); (1, 0x0); (1, 0x2); (12, 0x0); (1, 0x40); (347, 0x0); (1, 0x40); (1, 0x55);
   (1, 0x4); (4, 0x0); (1, 0x28); (1, 0xb); (87, 0x0); (19, 0xff); (1, 0xb); (11, 0xff); (1, 0x3); (2, 0xff);
   (2, 0x3f); (4, 0xff); (2, 0x3f); (1, 0xff); (1, 0xaa); (3, 0xff); (1, 0x3f); (6, 0xff); (1, 0xdf); (1, 0x5f);
   (1, 0xde); (1, 0xff); (1, 0xcf); (1, 0xef); (2, 0xff); (1, 0xdc); (1, 0x3f); (521, 0x0); (1, 0x50);
   (2, 0x55); (1, 0xa5); (1, 0x2); (1, 0xdb); (1, 0x36); (2, 0x0); (1, 0x10); (1, 0x40); (1, 0x0); (1, 0x50);
   (2, 0x55); (1, 0xa5); (1, 0x2); (1, 0xdb); (1, 0x36); (2, 0x0); (1, 0x90); (1, 0x47); (3936, 0x0);
   (1396, 0xff); (1, 0xf); (1134, 0x0); (1, 0xa0); (1, 0x0); (1, 0xfc); (1, 0x7f); (1, 0x5f); (1, 0xdb);
   (1, 0x7f); (150, 0x0)].

(** The characters of plane 1 that file names of HFS+ decompose. *)
Definition hfs_decomposable_plane_1 : list Z := runs
  [(531, 0x0); (1, 0x14); (1, 0x0); (1, 0x8); (15, 0x0); (1, 0xc0); (67, 0x0); (1, 0x18); (45, 0x0); (1, 0x58);
   (31, 0x0); (1, 0xc); (6003, 0x0); (1, 0xc0); (1, 0x1f); (10, 0x0); (1, 0xf8); (1, 0x1); (1479, 0x0)].

(** The combining characters of plane 0. *)
Definition non_base_plane_0 : list Z := runs
  [(96, 0x0); (14, 0xff); (34, 0x0); (1, 0xf8); (1, 0x3); (32, 0x0); (1, 0xfe); (4, 0xff); (1, 0xbf); (1, 0xb6);
   (9, 0x0); (1, 0xff); (1, 0x7); (5, 0x0); (1, 0xf8); (2, 0xff); (2, 0x0); (1, 0x1); (11, 0x0); (1, 0xc0);
   (2, 0x9f); (1, 0x3d); (4, 0x0); (1, 0x2); (3, 0x0); (3, 0xff); (1, 0x7); (10, 0x0); (1, 0xc0); (1, 0xff);
   (1, 0x1); (6, 0x0); (1, 0xf8); (1, 0xf); (3, 0x0); (1, 0xc0); (1, 0xfb); (1, 0xef); (1, 0x3e); (5, 0x0);
   (1, 0xe); (16, 0x0); (1, 0xf0); (3, 0xff); (1, 0xf); (6, 0x0); (1, 0xdc); (2, 0xff); (1, 0xfe); (1, 0x0);
   (1, 0xc); (3, 0x0); (1, 0xe); (6, 0x0); (1, 0xd0); (1, 0x9f); (1, 0x39); (1, 0x80); (1, 0x0); (1, 0xc);
   (3, 0x0); (1, 0xe); (6, 0x0); (1, 0xd0); (1, 0x87); (1, 0x39); (1, 0x2); (3, 0x0); (1, 0x23); (1, 0x0);
   (1, 0xe); (6, 0x0); (1, 0xd0); (1, 0xbf); (1, 0x3b); (2, 0x0); (1, 0xc); (3, 0x0); (1, 0xe); (6, 0x0);
   (1, 0xd0); (1, 0x9f); (1, 0x39); (1, 0xc0); (1, 0x0); (1, 0xc); (3, 0x0); (1, 0x4); (6, 0x0); (1, 0xc0);
   (1, 0xc7); (1, 0x3d); (1, 0x80); (5, 0x0); (1, 0xf); (6, 0x0); (1, 0xc0); (1, 0xdf); (1, 0x3d); (1, 0x60);
   (1, 0x0); (1, 0xc); (3, 0x0); (1, 0xe); (6, 0x0); (1, 0xd0); (1, 0xdf); (1, 0x3d); (1, 0x60); (1, 0x0);
   (1, 0xc); (3, 0x0); (1, 0xe); (6, 0x0); (1, 0xc0); (1, 0xdf); (1, 0x3d); (1, 0x80); (1, 0x0); (1, 0xc);
   (3, 0x0); (1, 0xc); (8, 0x0); (1, 0x84); (1, 0x5f); (1, 0xff); (2, 0x0); (1, 0xc); (7, 0x0); (1, 0xf2);
   (1, 0x7); (1, 0x80); (1, 0x7f); (12, 0x0); (1, 0xf2); (1, 0x1b); (1, 0x0); (1, 0x3f); (9, 0x0); (1, 0x3);
   (2, 0x0); (1, 0xa0); (1, 0xc2); (6, 0x0); (1, 0xfe); (1, 0xff); (1, 0xdf); (1, 0xe0); (1, 0xff); (1, 0xfe);
   (3, 0xff); (1, 0x1f); (1, 0x40); (12, 0x0); (1, 0xf8); (1, 0xff); (1, 0x7f); (2, 0x0); (1, 0xc0); (1, 0xc3);
   (1, 0x9d); (1, 0x3f); (1, 0x1e); (1, 0x0); (1, 0xfc); (1, 0xbf); (1, 0x0); (1, 0x3c); (87, 0x0); (1, 0xe0);
   (118, 0x0); (1, 0x1c); (3, 0x0); (1, 0x1c); (3, 0x0); (1, 0xc); (3, 0x0); (1, 0xc); (7, 0x0); (1, 0xf0);
   (3, 0xff); (1, 0xf); (1, 0x20); (5, 0x0); (1, 0x38); (19, 0x0); (1, 0x2); (14, 0x0); (1, 0xff); (1, 0xf);
   (1, 0xff); (1, 0xf); (14, 0x0); (2, 0xff); (1, 0x1); (1, 0x3); (8, 0x0); (1, 0x80); (1, 0xf); (6, 0x0);
   (1, 0xe0); (1, 0x7f); (3, 0xff); (1, 0x9f); (6, 0x0); (1, 0xff); (1, 0x7f); (8, 0x0); (1, 0x1f); (5, 0x0);
   (1, 0xf0); (1, 0xff); (1, 0x1f); (4, 0x0); (1, 0xf8); (1, 0xf); (1, 0x0); (1, 0x7); (3, 0x0); (1, 0xfe);
   (1, 0x3f); (6, 0x0); (1, 0xc0); (1, 0xff); (1, 0xf); (5, 0x0); (1, 0xf0); (2, 0xff); (19, 0x0); (1, 0xf7);
   (2, 0xff); (1, 0x21); (1, 0x1c); (1, 0x3); (24, 0x0); (6, 0xff); (1, 0x3f); (1, 0xf0); (90, 0x0); (4, 0xff);
   (1, 0x1); (382, 0x0); (1, 0x80); (1, 0x3); (16, 0x0); (1, 0x80); (12, 0x0); (4, 0xff); (69, 0x0); (1, 0xfc);
   (13, 0x0); (1, 0x6); (3769, 0x0); (1, 0x80); (1, 0xf7); (1, 0x3f); (3, 0x0); (1, 0x80); (10, 0x0); (1, 0x3);
   (33, 0x0); (1, 0x44); (1, 0x8); (2, 0x0); (1, 0xf8); (11, 0x0); (1, 0x3); (5, 0x0); (1, 0xf0); (1, 0xff);
   (1, 0x1f); (3, 0x0); (2, 0xff); (1, 0x3); (5, 0x0); (1, 0xc0); (1, 0x3f); (2, 0x0); (1, 0x80); (1, 0xff);
   (1, 0xf); (5, 0x0); (1, 0xf); (5, 0x0); (1, 0xf8); (1, 0xff); (1, 0x1); (3, 0x0); (1, 0x20); (8, 0x0);
   (1, 0xfe); (1, 0x7f); (1, 0x0); (1, 0x8); (1, 0x30); (5, 0x0); (1, 0x38); (6, 0x0); (1, 0x9d); (1, 0xc1);
   (1, 0x2); (4, 0x0); (1, 0xf8); (1, 0x60); (29, 0x0); (1, 0xf8); (1, 0x37); (2533, 0x0); (1, 0x40); (92, 0x0);
   (2, 0xff); (2, 0x0); (1, 0xff); (1, 0x3f); (58, 0x0)].

(** The combining characters of plane 1. *)
Definition non_base_plane_1 : list Z := runs
  [(63, 0x0); (1, 0x20); (28, 0x0); (1, 0x1); (17, 0x0); (1, 0xc0); (1, 0x7); (208, 0x0); (1, 0x6e); (1, 0xf0);
   (5, 0x0); (1, 0x87); (20, 0x0); (1, 0x60); (163, 0x0); (1, 0x7); (6, 0x0); (1, 0xff); (1, 0x7f); (6, 0x0);
   (1, 0x80); (1, 0x7); (5, 0x0); (1, 0xff); (1, 0x7); (8, 0x0); (1, 0x7); (3, 0x0); (1, 0x80); (1, 0xff);
   (1, 0x1f); (7, 0x0); (1, 0x8); (1, 0x0); (1, 0x7); (5, 0x0); (1, 0xf8); (1, 0xff); (1, 0x1); (12, 0x0);
   (1, 0xf0); (1, 0xff); (20, 0x0); (1, 0x80); (1, 0xff); (1, 0x7); (2, 0x0); (1, 0xe); (6, 0x0); (1, 0xd0);
   (1, 0x9f); (1, 0x39); (1, 0x80); (1, 0x0); (1, 0xcc); (2, 0x1f); (39, 0x0); (2, 0xff); (1, 0xf); (28, 0x0);
   (1, 0x80); (1, 0x3f); (1, 0xff); (1, 0x1); (13, 0x0); (2, 0xff); (1, 0x1); (12, 0x0); (1, 0xf8); (1, 0xff);
   (2695, 0x0); (1, 0x1f); (7, 0x0); (1, 0x7f); (131, 0x0); (1, 0xfe); (4, 0xff); (1, 0x7f); (1, 0x0);
   (1, 0x80); (1, 0x7); (2464, 0x0); (1, 0x60); (664, 0x0); (1, 0xe0); (1, 0xe3); (1, 0x7); (1, 0xf8);
   (1, 0xe7); (1, 0xf); (3, 0x0); (1, 0x3c); (18, 0x0); (1, 0x1c); (721, 0x0); (1, 0x7f); (741, 0x0)].

(** The combining characters of plane 14. *)
Definition non_base_plane_14 : list Z := runs
  [(32, 0x0); (30, 0xff); (8130, 0x0)].

(** The entries of the other sets, which normalization does not read, are left
    empty. *)
Definition no_bitmap : __CFUniCharBitmapData := {| _numPlanes := 0; _planes := [] |}.

Definition shipped_tables : unichar_tables := {|
  __CFUniCharBitmapDataArray :=
    replicate 4 no_bitmap ++
    [ {| _numPlanes := 15; _planes := [Some non_base_plane_0; Some non_base_plane_1] ++ replicate 12 None ++ [Some non_base_plane_14] |} ] ++
    [ {| _numPlanes := 3; _planes := [Some decomposable_plane_0; Some decomposable_plane_1; Some decomposable_plane_2] |} ] ++
    replicate 6 no_bitmap ++
    [ {| _numPlanes := 2; _planes := [Some hfs_decomposable_plane_0; Some hfs_decomposable_plane_1] |} ] ++
    replicate 9 no_bitmap;
  __CFUniCharUnicodePropertyTable :=
    Some [ {| _numPlanes := 2; _planes := [Some combining_plane_0; Some combining_plane_1] |}; no_bitmap ] |}.

Definition shipped_decompositions : decomposition_tables := {|
  __CFUniCharDecompositionTable := default [] (mapping_pairs 2060 (drop 1 canonical_decomp_mapping));
  __CFUniCharMultipleDecompositionTable := drop 4121 canonical_decomp_mapping;
  __CFUniCharDecomposableBitmapForBMP := Some decomposable_plane_0;
  __CFUniCharHFSPlusDecomposableBitmapForBMP := Some hfs_decomposable_plane_0;
  __CFUniCharCombiningPriorityTable := [Some combining_plane_0; Some combining_plane_1] |}.

(** The loader reads exactly these tables from the file. *)
Lemma shipped_decompositions_loaded :
  __CFUniCharLoadDecompositionTable shipped_tables (Some canonical_decomp_mapping) = Some (Some shipped_decompositions).
Proof. vm_compute. reflexivity. Qed.

(** Tibetan vowel signs that are starters and decompose into two combining
    characters. *)
Definition tibetan_vowel (c : Z) : bool := (c =? 0x0F73) || (c =? 0x0F75) || (c =? 0x0F81).

Lemma shipped_combining_ok : combining_ok shipped_decompositions = true.
Proof. vm_compute. reflexivity. Qed.

Lemma shipped_hangul_ok : hangul_ok shipped_decompositions = true.
Proof. vm_compute. reflexivity. Qed.

Lemma shipped_entries_ok : entries_ok shipped_decompositions tibetan_vowel = true.
Proof. vm_compute. reflexivity. Qed.

Lemma shipped_planes_ok hfs : planes_ok shipped_tables shipped_decompositions hfs = true.
Proof. destruct hfs; vm_compute; reflexivity. Qed.

Lemma shipped_ascii_ok hfs : ascii_ok shipped_tables shipped_decompositions hfs = true.
Proof. destruct hfs; vm_compute; reflexivity. Qed.

#[global] Instance shipped_decomposer hfs : Decomposer shipped_tables shipped_decompositions hfs :=
  checked_decomposer shipped_tables shipped_decompositions hfs tibetan_vowel shipped_combining_ok
    shipped_hangul_ok shipped_entries_ok (shipped_planes_ok hfs) (shipped_ascii_ok hfs).

(** ** Theorems *)

(** What the laws cover with the shipped tables. *)
Lemma shipped_covers hfs c : covered (Decomposer := shipped_decomposer hfs) c <-> scalar c /\ c <> 0x0F73 /\ c <> 0x0F75 /\ c <> 0x0F81.
Proof.
  change (covered (Decomposer := shipped_decomposer hfs) c) with (scalar c /\ tibetan_vowel c = false). unfold tibetan_vowel.
  rewrite !orb_false_iff, !Z.eqb_neq. tauto.
Qed.

(** C9: CFUniCharDecompose on well-formed text of characters that the tables cover,
    with the shipped tables all characters but the Tibetan vowels U+0F73, U+0F75 and
    U+0F81; for any tables with the laws of [Decomposer], any destination and any of the three formats: it returns
    without leaving its buffers; the text splits into a consumed part and a rest
    where canonical ordering may be cut; [consumedLength], [filledLength]
    and the destination are those of the canonical decomposition (reordered when
    asked for) of the consumed part; with no buffer ([maxLength] 0) or with room
    for everything the whole text is consumed and the result is true. *)
Theorem CFUniCharDecompose_is_canonical T D (isHFSPlus : bool) `{!Decomposer T D isHFSPlus}
    maxLength (needToReorder : bool) F junk dst cs srest :
  F = kCFUniCharUTF16Format \/ F = kCFUniCharUTF8Format \/ F = kCFUniCharUTF32Format ->
  0 <= maxLength <= Z.of_nat (length dst) -> Forall covered cs ->
  exists cs1 cs2 dst',
    cs = cs1 ++ cs2 /\
    decomposition needToReorder cs = decomposition needToReorder cs1 ++ decomposition needToReorder cs2 /\
    CFUniCharDecompose T D (encode16 cs ++ srest) maxLength needToReorder F isHFSPlus junk
        (Z.of_nat (length (encode16 cs))) dst =
      Some (bool_decide (cs2 = []), Z.of_nat (length (encode16 cs1)), dst',
            Z.of_nat (length (encode F (decomposition needToReorder cs1)))) /\
    length dst' = length dst /\
    (maxLength = 0 -> dst' = dst /\ cs2 = []) /\
    (maxLength <> 0 ->
       Z.of_nat (length (encode F (decomposition needToReorder cs1))) <= maxLength /\
       take (length (encode F (decomposition needToReorder cs1))) dst' = encode F (decomposition needToReorder cs1)) /\
    (cs2 <> [] -> maxLength < Z.of_nat (length (encode F (decomposition needToReorder cs)))).
Proof. intros _ Hm Hcs. by apply (decompose_ok _ _ _ _ _ _ Hm cs srest). Qed.

(** E with acute and a dot below, and a Hangul syllable, in UTF-16. *)
Lemma CFUniCharDecompose_is_canonical_witness :
  exists cs1 cs2 dst',
    [0xC9; 0x323; 0xAC01] = cs1 ++ cs2 /\
    decomposition (Decomposer0 := shipped_decomposer false) true [0xC9; 0x323; 0xAC01] =
      decomposition (Decomposer0 := shipped_decomposer false) true cs1 ++ decomposition (Decomposer0 := shipped_decomposer false) true cs2 /\
    CFUniCharDecompose shipped_tables shipped_decompositions [0xC9; 0x323; 0xAC01] 6 true kCFUniCharUTF16Format false 0 3 [0; 0; 0; 0; 0; 0] =
      Some (bool_decide (cs2 = []), Z.of_nat (length (encode16 cs1)), dst',
            Z.of_nat (length (encode16 (decomposition (Decomposer0 := shipped_decomposer false) true cs1)))) /\
    CFUniCharDecompose shipped_tables shipped_decompositions [0xC9; 0x323; 0xAC01] 6 true kCFUniCharUTF16Format false 0 3 [0; 0; 0; 0; 0; 0] =
      Some (true, 3, [0x45; 0x323; 0x301; 0x1100; 0x1161; 0x11A8], 6).
Proof.
  destruct (CFUniCharDecompose_is_canonical shipped_tables shipped_decompositions false 6 true kCFUniCharUTF16Format 0
    [0; 0; 0; 0; 0; 0] [0xC9; 0x323; 0xAC01] []) as (cs1 & cs2 & dst' & E1 & E2 & E3 & _).
  - by left.
  - simpl. lia.
  - repeat constructor; unfold scalar; lia.
  - exists cs1, cs2, dst'. split; [exact E1|]. split; [exact E2|]. split; [exact E3|]. vm_compute. reflexivity.
Defined.

(** The Tibetan vowels are not covered: the decomposition of <0F40, 0F74, 0F73> is
    not in canonical order (the classes are 0, 132, 129, 130). *)
Lemma tibetan_vowel_not_ordered :
  CFUniCharDecompose shipped_tables shipped_decompositions [0x0F40; 0x0F74; 0x0F73] 6 true kCFUniCharUTF16Format false 0 3 [0; 0; 0; 0; 0; 0] =
    Some (true, 3, [0x0F40; 0x0F74; 0x0F71; 0x0F72; 0; 0], 4) /\
  map (ccc shipped_decompositions) [0x0F40; 0x0F74; 0x0F71; 0x0F72] = [0; 132; 129; 130].
Proof. split; vm_compute; reflexivity. Qed.

(** The code point behind the last Hangul syllable is decomposed like one. *)
Lemma hangul_off_by_one :
  CFUniCharDecomposeCharacter shipped_decompositions 0xD7A4 [0; 0; 0] 0 3 = Some (2, [0x1113; 0x1161; 0]).
Proof. vm_compute. reflexivity. Qed.
