(* ===== verification/CFUTF8.v ===== *)
(** * CFUTF8: conversion between UTF-16 and UTF-8 (CFBuiltinConverters.c)

    The converter for UTF-8: both directions, with and without a destination
    ([maxByteLen] or [maxCharLen] 0 only counts), strict, lossy, lenient and
    decomposing, and the two functions that predict lengths.  Pointers are
    indexes into their blocks; a function that returns through
    [usedByteLen] or [usedCharLen] returns a tuple: the units it consumed, the
    destination, the units it stored. *)

From S2P Require Import Prelude CFInternal CFUniChar CFUnicodeDecomposition.
From stdpp Require Import base list numbers option.
From Stdlib Require Import ZArith Lia.
Open Scope Z_scope.
Open Scope cf_scope.

(** ** Flags and constants *)

Definition kCFStringEncodingAllowLossyConversion : Z := Z.shiftl 1 0.
Definition kCFStringEncodingUseCanonical : Z := Z.shiftl 1 6.
Definition kCFStringEncodingUseHFSPlusCanonical : Z := Z.shiftl 1 7.
Definition kCFStringEncodingLenientUTF8Conversion : Z := Z.shiftl 1 11.

(** [flags & flag] as a condition. *)
Definition has_flag (flags flag : Z) : bool := negb (Z.land flags flag =? 0).

Definition MAX_DECOMPOSED_LENGTH : Z := 10.

Definition kReplacementCharacter : Z := 0x0000FFFD.
Definition kMaximumUCS2 : Z := 0x0000FFFF.
Definition kMaximumUTF16 : Z := 0x0010FFFF.
Definition kMaximumUCS4 : Z := 0x7FFFFFFF.
Definition halfShift : Z := 10.
Definition halfBase : Z := 0x0010000.
Definition halfMask : Z := 0x3FF.
Definition kSurrogateHighStart : Z := 0xD800.
Definition kSurrogateHighEnd : Z := 0xDBFF.
Definition kSurrogateLowStart : Z := 0xDC00.
Definition kSurrogateLowEnd : Z := 0xDFFF.

Definition trailingBytesForUTF8 : list Z :=
  replicate 192 0 ++ replicate 32 1 ++ replicate 16 2 ++ replicate 8 3 ++ replicate 4 4 ++ replicate 4 5.

Definition offsetsFromUTF8 : list Z := [0x00000000; 0x00003080; 0x000E2080; 0x03C82080; 0xFA082080; 0x82082080].

(** ** To UTF-8 *)

Definition __CFUTF8BytesToWriteForCharacter (ch : Z) : Z :=
  if ch <? 0x80 then 1
  else if ch <? 0x800 then 2
  else if ch <? 0x10000 then 3
  else if ch <? 0x200000 then 4
  else if ch <? 0x4000000 then 5
  else if ch <=? kMaximumUCS4 then 6
  else 0.

(** [maxByteLen] is a [uint32_t]: what the caller passes is truncated.  The
    stores are those of CFUniChar.c, from the last byte to the first. *)
Definition __CFToUTF8Core (ch : Z) (bytes : list Z) (at_ : Z) (maxByteLen : Z) : option (Z * list Z) :=
  let maxByteLen := uwrap 32 maxByteLen in
  let bytesToWrite := __CFUTF8BytesToWriteForCharacter ch in
  let '(bytesToWrite, ch) := if bytesToWrite =? 0 then (2, kReplacementCharacter) else (bytesToWrite, ch) in
  if maxByteLen <? bytesToWrite then Some (0, bytes)
  else let* bytes := store_utf8 bytesToWrite ch bytes at_ in Some (bytesToWrite, bytes).

(** The character at [c] (already read: [ch]) with the surrogate behind it;
    [None] inside is the [break] of strict conversion. *)
Definition read_utf16 (characters : list Z) (c endCharacter : Z) (isStrict : bool) (ch : Z) : option (option (Z * Z)) :=
  if kSurrogateHighStart <=? ch then
    if ch <=? kSurrogateHighEnd then
      let* low :=
        (if c <? endCharacter then
           let* u := rd characters c in
           Some (if (kSurrogateLowStart <=? u) && (u <=? kSurrogateLowEnd) then Some u else None)
         else Some None) in
      match low with
      | Some u => Some (Some (Z.shiftl (ch - kSurrogateHighStart) halfShift + (u - kSurrogateLowStart) + halfBase, c + 1))
      | None => if isStrict then Some None else Some (Some (ch, c))
      end
    else if isStrict && (ch <=? kSurrogateLowEnd) then Some None
    else Some (Some (ch, c))
  else Some (Some (ch, c)).

(** [while ((characters < endCharacter) && (!maxByteLen || (bytes < endBytes)))]:
    [c] and [b] are the two pointers. *)
Fixpoint to_utf8_loop (fuel : nat) (characters : list Z) (c endCharacter : Z) (bytes : list Z) (b maxByteLen : Z)
    (isStrict : bool) : option (Z * list Z * Z) :=
  if (c <? endCharacter) && ((maxByteLen =? 0) || (b <? maxByteLen)) then
    match fuel with
    | O => None
    | S fuel =>
        let* ch := rd characters c in
        if ch <? 0x80 then
          let* bytes := (if negb (maxByteLen =? 0) then wr bytes b ch else Some bytes) in
          to_utf8_loop fuel characters (c + 1) endCharacter bytes (b + 1) maxByteLen isStrict
        else
          let* read := read_utf16 characters (c + 1) endCharacter isStrict ch in
          match read with
          | None => Some (c, bytes, b)
          | Some (ch, c') =>
              let* (bytesWritten, bytes) :=
                (if negb (maxByteLen =? 0) then __CFToUTF8Core ch bytes b (maxByteLen - b)
                 else Some (__CFUTF8BytesToWriteForCharacter ch, bytes)) in
              if bytesWritten =? 0 then Some (c' - (if ch <? 0x10000 then 1 else 2), bytes, b)
              else to_utf8_loop fuel characters c' endCharacter bytes (b + bytesWritten) maxByteLen isStrict
          end
    end
  else Some (c, bytes, b).

Definition __CFToUTF8 (flags : Z) (characters : list Z) (numChars : Z) (bytes : list Z) (maxByteLen : Z)
    : option (Z * list Z * Z) :=
  let isStrict := negb (has_flag flags kCFStringEncodingUseHFSPlusCanonical) in
  to_utf8_loop (Z.to_nat numChars) characters 0 numChars bytes 0 maxByteLen isStrict.

(** [while (numChars)]; [bytesToWrite] is a [uint32_t]. *)
Fixpoint to_utf8_len_loop (fuel : nat) (characters : list Z) (c numChars bytesToWrite : Z) : option Z :=
  if negb (numChars =? 0) then
    match fuel with
    | O => None
    | S fuel =>
        let* ch := rd characters c in
        let c := c + 1 in
        let numChars := numChars - 1 in
        let* low :=
          (if (kSurrogateHighStart <=? ch) && (ch <=? kSurrogateHighEnd) && negb (numChars =? 0) then
             let* u := rd characters c in
             Some (if (kSurrogateLowStart <=? u) && (u <=? kSurrogateLowEnd) then Some u else None)
           else Some None) in
        match low with
        | Some u =>
            let ch := Z.shiftl (ch - kSurrogateHighStart) halfShift + (u - kSurrogateLowStart) + halfBase in
            to_utf8_len_loop fuel characters (c + 1) (numChars - 1)
              (uwrap 32 (bytesToWrite + __CFUTF8BytesToWriteForCharacter ch))
        | None =>
            to_utf8_len_loop fuel characters c numChars (uwrap 32 (bytesToWrite + __CFUTF8BytesToWriteForCharacter ch))
        end
    end
  else Some bytesToWrite.

Definition __CFToUTF8Len (flags : Z) (characters : list Z) (numChars : Z) : option Z :=
  to_utf8_len_loop (Z.to_nat numChars) characters 0 numChars 0.

(** ** From UTF-8 *)

(** [while (--srcptr > source) if (( *srcptr & 0xC0) != 0x80) return false;] *)
Fixpoint trail_bytes (n : nat) (source : list Z) (s : Z) : option bool :=
  match n with
  | O => Some true
  | S n' =>
      let* b := rd source (s + Z.of_nat n) in
      if negb (Z.land b 0xC0 =? 0x80) then Some false else trail_bytes n' source s
  end.

(** [(head == h) && bad( *(source + 1))], which reads only if the head is [h]. *)
Definition second_byte (head h : Z) (source : list Z) (s : Z) (bad : Z -> bool) : option bool :=
  if head =? h then let* b := rd source (s + 1) in Some (bad b) else Some false.

Definition __CFIsLegalUTF8 (source : list Z) (s length : Z) : option bool :=
  if 4 <? length then Some false
  else
    let* head := rd source s in
    let* trail := trail_bytes (Z.to_nat (length - 1)) source s in
    if negb trail then Some false
    else if ((0x80 <=? head) && (head <? 0xC2)) || (0xF4 <? head) then Some false
    else
      let* e0 := second_byte head 0xE0 source s (fun b => b <? 0xA0) in
      let* ed := second_byte head 0xED source s (fun b => 0x9F <? b) in
      let* f0 := second_byte head 0xF0 source s (fun b => b <? 0x90) in
      let* f4 := second_byte head 0xF4 source s (fun b => 0x8F <? b) in
      Some (negb (e0 || ed || f0 || f4)).

(** The switch on [extraBytesToRead], which falls through. *)
Fixpoint gather (extraBytesToRead : nat) (source : list Z) (s ch : Z) : option (Z * Z) :=
  let* b := rd source s in
  match extraBytesToRead with
  | O => Some (uwrap 32 (ch + b), s + 1)
  | S extra => gather extra source (s + 1) (uwrap 32 (Z.shiftl (uwrap 32 (ch + b)) 6))
  end.

Section Decoding.
Context (T : unichar_tables) (D : decomposition_tables).
(** what the cells of [decomposed] hold at first *)
Context (junk : Z).

(** CFUnicodeDecomposition.h *)
Definition CFUniCharIsDecomposableCharacter (character : Z) (isHFSPlusCanonical : bool) : option bool :=
  if isHFSPlusCanonical && negb isHFSPlusCanonical then Some false
  else if character <? 0x80 then Some false
  else CFUniCharIsMemberOf T character kCFUniCharHFSPlusDecomposableCharacterSet.

(** [while (--decompLength >= 0) theUsedCharLen += (decomposed[decompLength] < 0x10000 ? 1 : 2);] *)
Fixpoint count_units (decompLength : nat) (decomposed : list Z) (theUsedCharLen : Z) : option Z :=
  match decompLength with
  | O => Some theUsedCharLen
  | S n =>
      let* c := rd decomposed (Z.of_nat n) in
      count_units n decomposed (theUsedCharLen + (if c <? 0x10000 then 1 else 2))
  end.

(** [needsToDecompose && CFUniCharIsDecomposableCharacter(ch, isHFSPlus)] *)
Definition decomposes (needsToDecompose isHFSPlus : bool) (ch : Z) : option bool :=
  if needsToDecompose then CFUniCharIsDecomposableCharacter ch isHFSPlus else Some false.

(** A decoded character goes to the destination: [bmp] tells the branch of
    [ch <= kMaximumUCS2].  [None] inside is the [break]. *)
Definition store_decoded (bmp needsToDecompose isHFSPlus : bool) (ch : Z) (characters : list Z) (p maxCharLen used : Z)
    : option (option (list Z * Z * Z) * list Z) :=
  let* dec := decomposes needsToDecompose isHFSPlus ch in
  if (dec : bool) then
    let* (decompLength, decomposed) :=
      CFUniCharDecomposeCharacter D ch (replicate (Z.to_nat MAX_DECOMPOSED_LENGTH) junk) 0 MAX_DECOMPOSED_LENGTH in
    if negb (maxCharLen =? 0) then
      let* (ok, characters, p, used) :=
        CFUniCharFillDestinationBuffer decomposed decompLength characters p maxCharLen used kCFUniCharUTF16Format in
      Some (if (ok : bool) then Some (characters, p, used) else None, characters)
    else
      let* used := (if bmp then Some (used + decompLength) else count_units (Z.to_nat decompLength) decomposed used) in
      Some (Some (characters, p, used), characters)
  else if bmp then
    if negb (maxCharLen =? 0) then
      let* characters := wr characters p (uwrap 16 ch) in Some (Some (characters, p + 1, used + 1), characters)
    else Some (Some (characters, p, used + 1), characters)
  else
    if negb (maxCharLen =? 0) then
      if maxCharLen <? used + 2 then Some (None, characters)
      else
        let ch := ch - halfBase in
        let* characters := wr characters p (uwrap 16 (Z.shiftr ch halfShift + kSurrogateHighStart)) in
        let* characters := wr characters (p + 1) (uwrap 16 (Z.land ch halfMask + kSurrogateLowStart)) in
        Some (Some (characters, p + 2, used + 2), characters)
    else Some (Some (characters, p, used + 2), characters).

(** [while (numBytes && (!maxCharLen || (theUsedCharLen < maxCharLen)))] *)
Fixpoint from_utf8_loop (fuel : nat) (flags : Z) (source : list Z) (s numBytes : Z) (characters : list Z)
    (p maxCharLen used : Z) : option (Z * list Z * Z) :=
  let isHFSPlus := has_flag flags kCFStringEncodingUseHFSPlusCanonical in
  let needsToDecompose := has_flag flags kCFStringEncodingUseCanonical || isHFSPlus in
  let strictUTF8 := negb (has_flag flags kCFStringEncodingLenientUTF8Conversion) in
  let isStrict := negb isHFSPlus in
  if negb (numBytes =? 0) && ((maxCharLen =? 0) || (used <? maxCharLen)) then
    match fuel with
    | O => None
    | S fuel =>
        let* head := rd source s in
        let* extraBytesToRead := rd trailingBytesForUTF8 head in
        let numBytes := numBytes - 1 in
        if numBytes <? extraBytesToRead then Some (s, characters, used)
        else
          let numBytes := numBytes - extraBytesToRead in
          let* illegal :=
            (if 3 <? extraBytesToRead then Some true
             else if strictUTF8 then let* l := __CFIsLegalUTF8 source s (extraBytesToRead + 1) in Some (negb l)
             else Some false) in
          if (illegal : bool) then
            if (head =? 0xA9) || has_flag flags kCFStringEncodingAllowLossyConversion then
              let numBytes := numBytes + extraBytesToRead in
              let* (characters, p) :=
                (if negb (maxCharLen =? 0)
                 then let* characters := wr characters p (uwrap 16 kReplacementCharacter) in Some (characters, p + 1)
                 else Some (characters, p)) in
              from_utf8_loop fuel flags source (s + 1) numBytes characters p maxCharLen (used + 1)
            else Some (s, characters, used)
          else
            let* (ch, s') := gather (Z.to_nat extraBytesToRead) source s 0 in
            let* offset := rd offsetsFromUTF8 extraBytesToRead in
            let ch := uwrap 32 (ch - offset) in
            if ch <=? kMaximumUCS2 then
              if isStrict && ((kSurrogateHighStart <=? ch) && (ch <=? kSurrogateLowEnd)) then
                Some (s' - (extraBytesToRead + 1), characters, used)
              else
                let* (stored, characters) := store_decoded true needsToDecompose isHFSPlus ch characters p maxCharLen used in
                match stored with
                | None => Some (s', characters, used)
                | Some (characters, p, used) => from_utf8_loop fuel flags source s' numBytes characters p maxCharLen used
                end
            else if kMaximumUTF16 <? ch then
              if isStrict then Some (s' - (extraBytesToRead + 1), characters, used)
              else
                let* (characters, p) :=
                  (if negb (maxCharLen =? 0)
                   then let* characters := wr characters p (uwrap 16 kReplacementCharacter) in Some (characters, p + 1)
                   else Some (characters, p)) in
                from_utf8_loop fuel flags source s' numBytes characters p maxCharLen (used + 1)
            else
              let* (stored, characters) := store_decoded false needsToDecompose isHFSPlus ch characters p maxCharLen used in
              match stored with
              | None => Some (s', characters, used)
              | Some (characters, p, used) => from_utf8_loop fuel flags source s' numBytes characters p maxCharLen used
              end
    end
  else Some (s, characters, used).

Definition __CFFromUTF8 (flags : Z) (bytes : list Z) (numBytes : Z) (characters : list Z) (maxCharLen : Z)
    : option (Z * list Z * Z) :=
  from_utf8_loop (Z.to_nat numBytes) flags bytes 0 numBytes characters 0 maxCharLen 0.

(** [while (numBytes)] *)
Fixpoint from_utf8_len_loop (fuel : nat) (flags : Z) (source : list Z) (s numBytes used : Z) : option Z :=
  let isHFSPlus := has_flag flags kCFStringEncodingUseHFSPlusCanonical in
  let needsToDecompose := has_flag flags kCFStringEncodingUseCanonical || isHFSPlus in
  let strictUTF8 := negb (has_flag flags kCFStringEncodingLenientUTF8Conversion) in
  let isStrict := negb isHFSPlus in
  if negb (numBytes =? 0) then
    match fuel with
    | O => None
    | S fuel =>
        let* head := rd source s in
        let* extraBytesToRead := rd trailingBytesForUTF8 head in
        let numBytes := numBytes - 1 in
        if numBytes <? extraBytesToRead then Some used
        else
          let numBytes := numBytes - extraBytesToRead in
          let* illegal :=
            (if 3 <? extraBytesToRead then Some true
             else if strictUTF8 then let* l := __CFIsLegalUTF8 source s (extraBytesToRead + 1) in Some (negb l)
             else Some false) in
          if (illegal : bool) then
            if (head =? 0xA9) || has_flag flags kCFStringEncodingAllowLossyConversion
            then from_utf8_len_loop fuel flags source (s + 1) (numBytes + extraBytesToRead) (used + 1)
            else Some used
          else
            let* (ch, s') := gather (Z.to_nat extraBytesToRead) source s 0 in
            let* offset := rd offsetsFromUTF8 extraBytesToRead in
            let ch := uwrap 32 (ch - offset) in
            if ch <=? kMaximumUCS2 then
              if isStrict && ((kSurrogateHighStart <=? ch) && (ch <=? kSurrogateLowEnd)) then Some used
              else
                let* dec := decomposes needsToDecompose isHFSPlus ch in
                let* used :=
                  (if (dec : bool) then
                     let* (decompLength, _) :=
                       CFUniCharDecomposeCharacter D ch (replicate (Z.to_nat MAX_DECOMPOSED_LENGTH) junk) 0 MAX_DECOMPOSED_LENGTH in
                     Some (used + decompLength)
                   else Some (used + 1)) in
                from_utf8_len_loop fuel flags source s' numBytes used
            else if kMaximumUTF16 <? ch then from_utf8_len_loop fuel flags source s' numBytes (used + 1)
            else
              let* dec := decomposes needsToDecompose isHFSPlus ch in
              let* used :=
                (if (dec : bool) then
                   let* (decompLength, decomposed) :=
                     CFUniCharDecomposeCharacter D ch (replicate (Z.to_nat MAX_DECOMPOSED_LENGTH) junk) 0 MAX_DECOMPOSED_LENGTH in
                   count_units (Z.to_nat decompLength) decomposed used
                 else Some (used + 2)) in
              from_utf8_len_loop fuel flags source s' numBytes used
    end
  else Some used.

Definition __CFFromUTF8Len (flags : Z) (source : list Z) (numBytes : Z) : option Z :=
  from_utf8_len_loop (Z.to_nat numBytes) flags source 0 numBytes 0.

End Decoding.

(** ** Text and its UTF-8 form *)

Notation encode8 := (encode kCFUniCharUTF8Format).

Lemma encode8_cons c l : encode8 (c :: l) = utf8 c ++ encode8 l.
Proof. done. Qed.

(** The text goes on with a surrogate that has no partner. *)
Definition ill_formed16 (tail : list Z) : Prop :=
  match tail with
  | [] => False
  | u :: r => CFUniCharIsSurrogateLowCharacter u = true \/
              (CFUniCharIsSurrogateHighCharacter u = true /\
               match r with [] => True | l :: _ => CFUniCharIsSurrogateLowCharacter l = false end)
  end.

(** Any text is a well-formed part and, if it is not well-formed, a rest that
    begins with such a surrogate. *)
Lemma utf16_split (text : list Z) :
  Forall (fun u => 0 <= u < 0x10000) text ->
  exists cs tail, text = encode16 cs ++ tail /\ Forall scalar cs /\ (tail = [] \/ ill_formed16 tail).
Proof.
  remember (length text) as n. revert text Heqn. induction (lt_wf n) as [n _ IH]. intros text Hn Hu.
  destruct text as [|u r]; [by exists [], []; auto|]. apply Forall_cons_1 in Hu as [Hu Hr].
  destruct (CFUniCharIsSurrogateLowCharacter u) eqn:El.
  { exists [], (u :: r). split_and!; [done|done|]. right. simpl. auto. }
  destruct (CFUniCharIsSurrogateHighCharacter u) eqn:Eh.
  - destruct r as [|l r]; [exists [], [u]; split_and!; [done|done|right; simpl; auto]|].
    destruct (CFUniCharIsSurrogateLowCharacter l) eqn:El'.
    2: { exists [], (u :: l :: r). split_and!; [done|done|right; simpl; auto]. }
    apply Forall_cons_1 in Hr as [Hl Hr]. destruct (IH (length r) ltac:(subst n; simpl; lia) r eq_refl Hr) as (cs & tail & -> & Hcs & Ht).
    apply andb_true_iff in El', Eh. rewrite !Z.leb_le in El', Eh.
    exists (0x10000 + (u - 0xD800) * 0x400 + (l - 0xDC00) :: cs), tail. rewrite encode16_cons.
    split_and!; [|constructor; [unfold scalar; lia|done]|done]. unfold utf16.
    destruct (Z.ltb_spec (0x10000 + (u - 0xD800) * 0x400 + (l - 0xDC00)) 0x10000); [lia|]. cbn [app].
    f_equal; [|f_equal]; Z.to_euclidean_division_equations; lia.
  - destruct (IH (length r) ltac:(subst n; simpl; lia) r eq_refl Hr) as (cs & tail & -> & Hcs & Ht).
    exists (u :: cs), tail. rewrite encode16_cons. unfold CFUniCharIsSurrogateLowCharacter, CFUniCharIsSurrogateHighCharacter in *.
    split_and!; [|constructor; [unfold scalar; apply andb_false_iff in El, Eh; lia|done]|done]. unfold utf16.
    by destruct (Z.ltb_spec u 0x10000); [|lia].
Qed.

Lemma BytesToWrite_utf8 c : code_point c -> __CFUTF8BytesToWriteForCharacter c = Z.of_nat (length (utf8 c)).
Proof. unfold code_point. intros. rewrite length_utf8. unfold __CFUTF8BytesToWriteForCharacter. bool_case; done. Qed.

Lemma utf8_length_bounds c : 1 <= Z.of_nat (length (utf8 c)) <= 4.
Proof. rewrite length_utf8. by repeat destruct (_ <? _). Qed.

Lemma ToUTF8Core_ok c pre room max :
  code_point c -> 0 <= max < 2 ^ 32 -> max <= Z.of_nat (length room) ->
  __CFToUTF8Core c (pre ++ room) (Z.of_nat (length pre)) max =
    if max <? Z.of_nat (length (utf8 c)) then Some (0, pre ++ room)
    else Some (Z.of_nat (length (utf8 c)), pre ++ utf8 c ++ drop (length (utf8 c)) room).
Proof.
  intros Hc Hm Hr. unfold __CFToUTF8Core. rewrite uwrap_id, BytesToWrite_utf8 by (done || unfold in_unsigned; lia).
  pose proof (utf8_length_bounds c). destruct (Z.eqb_spec (Z.of_nat (length (utf8 c))) 0); [lia|].
  destruct (Z.ltb_spec max (Z.of_nat (length (utf8 c)))); [done|]. rewrite store_utf8_form by (done || lia). done.
Qed.

(** What [read_utf16] makes of a character above ASCII. *)
Lemma read_utf16_scalar c spre rest endCharacter strict :
  scalar c -> 0x80 <= c -> Z.of_nat (length spre) + Z.of_nat (length (utf16 c)) <= endCharacter ->
  exists u, rd (spre ++ utf16 c ++ rest) (Z.of_nat (length spre)) = Some u /\ 0x80 <= u /\
    read_utf16 (spre ++ utf16 c ++ rest) (Z.of_nat (length spre) + 1) endCharacter strict u =
      Some (Some (c, Z.of_nat (length spre) + Z.of_nat (length (utf16 c)))).
Proof.
  intros Hc H80 Hend. unfold read_utf16, kSurrogateHighStart, kSurrogateHighEnd, kSurrogateLowStart, kSurrogateLowEnd, halfShift, halfBase.
  destruct (utf16_cases c Hc) as [(Hb & Eu & Eh & El)|(h & l & Hb & Eu & Eh & El & Ec & _)]; rewrite Eu in *; cbn [app length] in *.
  - exists c. rewrite rd_app_here by done. split_and!; [done..|].
    unfold CFUniCharIsSurrogateHighCharacter, CFUniCharIsSurrogateLowCharacter in *.
    replace (Z.of_nat (length spre) + Z.of_nat 1) with (Z.of_nat (length spre) + 1) by lia.
    destruct (Z.leb_spec 0xD800 c); [|done]. cbn [andb] in Eh. rewrite Eh.
    destruct (Z.leb_spec 0xDC00 c); [|lia]. cbn [andb] in El. rewrite El. by rewrite andb_false_r.
  - exists h. rewrite rd_app_here by done. unfold CFUniCharIsSurrogateHighCharacter in Eh. apply andb_true_iff in Eh as [E1 E2].
    split_and!; [done|lia|]. rewrite E1, E2.
    destruct (Z.ltb_spec (Z.of_nat (length spre) + 1) endCharacter); [|lia].
    assert (rd (spre ++ h :: l :: rest) (Z.of_nat (length spre) + 1) = Some l) as ->.
    { rewrite (cons_middle h spre), (assoc_L (++)). apply rd_app_here. rewrite length_app. simpl. lia. }
    cbn [opt_bind]. unfold CFUniCharIsSurrogateLowCharacter in El. rewrite El.
    unfold CFUniCharGetLongCharacterForSurrogatePair in Ec. rewrite Ec. do 3 f_equal. lia.
Qed.

Lemma read_utf16_ill_formed u r spre :
  ill_formed16 (u :: r) ->
  0x80 <= u /\
  read_utf16 (spre ++ u :: r) (Z.of_nat (length spre) + 1) (Z.of_nat (length (spre ++ u :: r))) true u = Some None.
Proof.
  unfold read_utf16, ill_formed16, CFUniCharIsSurrogateLowCharacter, CFUniCharIsSurrogateHighCharacter,
    kSurrogateHighStart, kSurrogateHighEnd, kSurrogateLowStart, kSurrogateLowEnd. rewrite !andb_true_iff, !Z.leb_le. intros H.
  split; [destruct H; lia|]. destruct (Z.leb_spec 0xD800 u); [|destruct H; lia].
  destruct (Z.leb_spec u 0xDBFF).
  - destruct H as [H|[_ H]]; [lia|]. rewrite length_app. cbn [length]. destruct r as [|l r].
    + match goal with |- context [?a <? ?b] => destruct (Z.ltb_spec a b); [cbn [length] in *; lia|] end. done.
    + match goal with |- context [?a <? ?b] => destruct (Z.ltb_spec a b); [|cbn [length] in *; lia] end.
      assert (rd (spre ++ u :: l :: r) (Z.of_nat (length spre) + 1) = Some l) as ->.
      { rewrite (cons_middle u spre), (assoc_L (++)). apply rd_app_here. rewrite length_app. simpl. lia. }
      cbn [opt_bind]. by rewrite H.
  - destruct H as [H|[H _]]; [|lia]. destruct (Z.leb_spec u 0xDFFF); [done|lia].
Qed.

(** *** The loop to UTF-8 *)

Definition stored8 (max : Z) (bytes out : list Z) : Prop :=
  max <> 0 -> Z.of_nat (length out) <= max /\ max <= Z.of_nat (length bytes) /\ exists room, bytes = out ++ room.

Lemma to_utf8_loop_ok cs tail fuel spre bytes out max :
  Forall scalar cs -> tail = [] \/ ill_formed16 tail -> 0 <= max < 2 ^ 32 -> stored8 max bytes out ->
  (length (encode16 cs ++ tail) <= fuel)%nat ->
  exists cs1 cs2 bytes', cs = cs1 ++ cs2 /\
    to_utf8_loop fuel (spre ++ encode16 cs ++ tail) (Z.of_nat (length spre))
      (Z.of_nat (length (spre ++ encode16 cs ++ tail))) bytes (Z.of_nat (length out)) max true =
    Some (Z.of_nat (length spre) + Z.of_nat (length (encode16 cs1)), bytes',
          Z.of_nat (length out) + Z.of_nat (length (encode8 cs1))) /\
    length bytes' = length bytes /\ (max = 0 -> bytes' = bytes /\ cs2 = []) /\
    stored8 max bytes' (out ++ encode8 cs1) /\
    (forall c r, cs2 = c :: r -> max < Z.of_nat (length out) + Z.of_nat (length (encode8 cs1)) + Z.of_nat (length (utf8 c))).
Proof.
  intros Hcs Ht Hm. revert fuel spre bytes out. induction Hcs as [|c cs Hc Hcs IH]; intros fuel spre bytes out Hst Hf.
  { exists [], [], bytes. cbn [encode flat_map length app] in *. change (Z.of_nat 0) with 0. rewrite !Z.add_0_r, app_nil_r.
    split_and!; try done. destruct tail as [|u r].
    - rewrite app_nil_r. destruct fuel; cbn [to_utf8_loop]; by rewrite Z.ltb_irrefl.
    - destruct Ht as [?|Ht]; [done|]. destruct fuel as [|fuel]; [simpl in Hf; lia|]. cbn [to_utf8_loop].
      destruct (_ && _); [|done]. rewrite rd_app_here by done. cbn [opt_bind].
      destruct (read_utf16_ill_formed u r spre Ht) as [H80 ->]. destruct (Z.ltb_spec u 0x80); [lia|]. done. }
  assert (1 <= Z.of_nat (length (utf16 c)) <= 2) as Hu16 by (rewrite length_utf16; destruct (_ <? _); lia).
  pose proof (utf8_length_bounds c) as Hu8.
  rewrite encode16_cons, <- !(assoc_L (++)) in *. set (whole := Z.of_nat (length (spre ++ utf16 c ++ encode16 cs ++ tail))).
  assert (Z.of_nat (length spre) + Z.of_nat (length (utf16 c)) <= whole) as Hend by (unfold whole; rewrite !length_app; lia).
  destruct fuel as [|fuel]; [rewrite length_app in Hf; lia|]. cbn [to_utf8_loop].
  destruct (Z.ltb_spec (Z.of_nat (length spre)) whole); [|lia]. cbn [andb].
  (* the next round, once the character is stored *)
  assert (forall bytes1, length bytes1 = length bytes -> (max = 0 -> bytes1 = bytes) -> stored8 max bytes1 (out ++ utf8 c) ->
    exists cs1 cs2 bytes', c :: cs = cs1 ++ cs2 /\
    to_utf8_loop fuel (spre ++ utf16 c ++ encode16 cs ++ tail) (Z.of_nat (length spre) + Z.of_nat (length (utf16 c))) whole
      bytes1 (Z.of_nat (length out) + Z.of_nat (length (utf8 c))) max true =
    Some (Z.of_nat (length spre) + Z.of_nat (length (encode16 cs1)), bytes',
          Z.of_nat (length out) + Z.of_nat (length (encode8 cs1))) /\
    length bytes' = length bytes /\ (max = 0 -> bytes' = bytes /\ cs2 = []) /\
    stored8 max bytes' (out ++ encode8 cs1) /\
    (forall c r, cs2 = c :: r -> max < Z.of_nat (length out) + Z.of_nat (length (encode8 cs1)) + Z.of_nat (length (utf8 c)))) as Hnext.
  { intros bytes1 Hl1 H01 Hst1. destruct (IH fuel (spre ++ utf16 c) bytes1 (out ++ utf8 c) Hst1) as (cs1 & cs2 & bytes' & -> & E & Hl & H0 & Hs' & Hfull).
    { rewrite length_app in Hf. lia. }
    exists (c :: cs1), cs2, bytes'. rewrite <- (assoc_L (++) spre), <- (assoc_L (++) out) in *. fold whole in E.
    rewrite (length_app spre), (length_app out (utf8 c)), !Nat2Z.inj_add in E. rewrite encode8_cons, encode16_cons, !length_app, !Nat2Z.inj_add.
    rewrite E. split_and!; [done|do 2 f_equal; [f_equal|]; lia|lia| |done|intros c' r Ec; specialize (Hfull c' r Ec); rewrite ?length_app in Hfull; lia].
    intros H'. destruct (H0 H') as [-> ->]. auto. }
  destruct (Z.eqb_spec max 0) as [E0|E0]; cbn [orb negb].
  - assert (stored8 max bytes (out ++ utf8 c)) as Hst1 by done.
    destruct (Z.lt_ge_cases c 0x80) as [H80|H80].
    + assert (utf16 c = [c] /\ utf8 c = [c]) as [E16 E8] by (unfold utf16, utf8; bool_case; done).
      specialize (Hnext bytes eq_refl ltac:(done) Hst1). rewrite E16, E8 in *. cbn [app length] in *. rewrite rd_app_here by done. cbn [opt_bind].
      destruct (Z.ltb_spec c 0x80); [|lia]. exact Hnext.
    + destruct (read_utf16_scalar c spre (encode16 cs ++ tail) whole true Hc H80 Hend) as (u & -> & Hu & Er). cbn [opt_bind].
      destruct (Z.ltb_spec u 0x80); [lia|]. rewrite Er. cbn [opt_bind]. rewrite BytesToWrite_utf8 by auto.
      destruct (Z.eqb_spec (Z.of_nat (length (utf8 c))) 0); [lia|]. by apply Hnext.
  - destruct (Hst E0) as (Hle & Hlen & room & ->). rewrite length_app in Hlen.
    assert (forall k, k <= max - Z.of_nat (length out) -> k <= Z.of_nat (length room)) as Hroom by lia.
    assert (Z.of_nat (length (utf8 c)) <= max - Z.of_nat (length out) ->
      stored8 max (out ++ utf8 c ++ drop (length (utf8 c)) room) (out ++ utf8 c)) as Hst1.
    { intros Hk _. rewrite !length_app, length_drop. split_and!; [lia|lia|]. eexists. by rewrite <- (assoc_L (++)). }
    assert (max < Z.of_nat (length out) + Z.of_nat (length (utf8 c)) ->
      exists cs1 cs2 bytes', c :: cs = cs1 ++ cs2 /\
      Some (Z.of_nat (length spre), out ++ room, Z.of_nat (length out)) =
      Some (Z.of_nat (length spre) + Z.of_nat (length (encode16 cs1)), bytes',
            Z.of_nat (length out) + Z.of_nat (length (encode8 cs1))) /\
      length bytes' = length (out ++ room) /\ (max = 0 -> bytes' = out ++ room /\ cs2 = []) /\
      stored8 max bytes' (out ++ encode8 cs1) /\
      (forall c r, cs2 = c :: r -> max < Z.of_nat (length out) + Z.of_nat (length (encode8 cs1)) + Z.of_nat (length (utf8 c)))) as Hstop.
    { intros Hov. exists [], (c :: cs), (out ++ room). cbn [encode flat_map length]. change (Z.of_nat 0) with 0. rewrite !Z.add_0_r, app_nil_r.
      split_and!; try done. by intros c' r [= <- _]. }
    destruct (Z.ltb_spec (Z.of_nat (length out)) max); [|apply Hstop; lia].
    destruct (Z.lt_ge_cases c 0x80) as [H80|H80].
    + assert (utf16 c = [c] /\ utf8 c = [c]) as [E16 E8] by (unfold utf16, utf8; bool_case; done).
      specialize (Hnext (out ++ utf8 c ++ drop (length (utf8 c)) room)). rewrite E16, E8 in *. cbn [app length drop] in *.
      rewrite rd_app_here by done. cbn [opt_bind]. destruct (Z.ltb_spec c 0x80); [|lia].
      destruct room as [|x room]; [simpl in Hlen; lia|]. rewrite wr_app_here by done. cbn [opt_bind]. cbn [skipn] in *.
      apply Hnext; [by rewrite !length_app|done|apply Hst1; lia].
    + destruct (read_utf16_scalar c spre (encode16 cs ++ tail) whole true Hc H80 Hend) as (u & -> & Hu & Er). cbn [opt_bind].
      destruct (Z.ltb_spec u 0x80); [lia|]. rewrite Er. cbn [opt_bind].
      rewrite ToUTF8Core_ok by (auto; lia).
      destruct (Z.ltb_spec (max - Z.of_nat (length out)) (Z.of_nat (length (utf8 c)))); cbn [opt_bind].
      * rewrite Z.eqb_refl. rewrite length_utf16. replace (Z.of_nat (length spre) + (if c <? 65536 then 1 else 2) - (if c <? 65536 then 1 else 2))
          with (Z.of_nat (length spre)) by lia. apply Hstop. lia.
      * destruct (Z.eqb_spec (Z.of_nat (length (utf8 c))) 0); [lia|]. apply Hnext; [|done|apply Hst1; lia].
        rewrite !length_app, length_drop. lia.
Qed.

(** *** The predicted length *)

Lemma to_utf8_len_loop_ok cs fuel spre acc :
  Forall scalar cs -> (length (encode16 cs) <= fuel)%nat ->
  to_utf8_len_loop fuel (spre ++ encode16 cs) (Z.of_nat (length spre)) (Z.of_nat (length (encode16 cs))) (uwrap 32 acc) =
    Some (uwrap 32 (acc + Z.of_nat (length (encode8 cs)))).
Proof.
  intros Hcs. revert fuel spre acc. induction Hcs as [|c cs Hc Hcs IH]; intros fuel spre acc Hf.
  { cbn [encode flat_map length]. rewrite Z.add_0_r. by destruct fuel. }
  rewrite encode16_cons, encode8_cons, !length_app in *.
  assert (forall k, uwrap 32 (uwrap 32 acc + k) = uwrap 32 (acc + k)) as Hw by (intros; unfold uwrap; by rewrite Zplus_mod_idemp_l).
  pose proof (BytesToWrite_utf8 c (scalar_code_point c Hc)) as Hbw.
  destruct (utf16_cases c Hc) as [(Hb & Eu & Eh & El)|(h & l & Hb & Eu & Eh & El & Ec & _)]; rewrite Eu in *; cbn [length] in *;
    (destruct fuel as [|fuel]; [lia|]); cbn [to_utf8_len_loop app];
    (match goal with |- context [?a =? 0] => destruct (Z.eqb_spec a 0); [lia|] end); cbn [negb];
    rewrite rd_app_here by done; cbn [opt_bind].
  - unfold CFUniCharIsSurrogateHighCharacter in Eh. unfold kSurrogateHighStart, kSurrogateHighEnd. rewrite Eh. cbn [andb opt_bind].
    rewrite Hw, Hbw, (cons_middle c spre), (assoc_L (++)). specialize (IH fuel (spre ++ [c]) (acc + Z.of_nat (length (utf8 c))) ltac:(lia)).
    rewrite length_app in IH. cbn [length] in IH.
    replace (Z.of_nat (length spre) + 1) with (Z.of_nat (length spre + 1)) by lia.
    replace (Z.of_nat (1 + length (encode16 cs)) - 1) with (Z.of_nat (length (encode16 cs))) by lia. rewrite IH. do 2 f_equal. lia.
  - unfold CFUniCharIsSurrogateHighCharacter in Eh. unfold kSurrogateHighStart, kSurrogateHighEnd. rewrite Eh. cbn [andb].
    match goal with |- context [?a =? 0] => destruct (Z.eqb_spec a 0); [lia|] end. cbn [negb].
    assert (rd (spre ++ h :: l :: encode16 cs) (Z.of_nat (length spre) + 1) = Some l) as ->.
    { rewrite (cons_middle h spre), (assoc_L (++)). apply rd_app_here. rewrite length_app. simpl. lia. }
    cbn [opt_bind]. unfold CFUniCharIsSurrogateLowCharacter in El. unfold kSurrogateLowStart, kSurrogateLowEnd. rewrite El. cbn [opt_bind].
    unfold CFUniCharGetLongCharacterForSurrogatePair in Ec. unfold halfShift, halfBase. rewrite Ec, Hw, Hbw.
    change (h :: l :: encode16 cs) with ([h; l] ++ encode16 cs). rewrite (assoc_L (++)).
    specialize (IH fuel (spre ++ [h; l]) (acc + Z.of_nat (length (utf8 c))) ltac:(lia)).
    rewrite length_app in IH. cbn [length] in IH.
    replace (Z.of_nat (length spre) + 1 + 1) with (Z.of_nat (length spre + 2)) by lia.
    replace (Z.of_nat (2 + length (encode16 cs)) - 1 - 1) with (Z.of_nat (length (encode16 cs))) by lia. rewrite IH. do 2 f_equal. lia.
Qed.

(** ** Well-formed sequences *)

Definition trailing_count (head : Z) : Z :=
  if head <? 0xC0 then 0 else if head <? 0xE0 then 1 else if head <? 0xF0 then 2
  else if head <? 0xF8 then 3 else if head <? 0xFC then 4 else 5.

Lemma trailingBytes_eq head : 0 <= head < 256 -> rd trailingBytesForUTF8 head = Some (trailing_count head).
Proof.
  intros H. pose proof (forall_below (fun h => match rd trailingBytesForUTF8 h with Some n => n =? trailing_count h | None => false end)
    256 ltac:(vm_compute; reflexivity) head H) as E. cbn beta in E. destruct (rd trailingBytesForUTF8 head); [|done].
  apply Z.eqb_eq in E. by rewrite E.
Qed.

Definition continuation (b : Z) : bool := (0x80 <=? b) && (b <? 0xC0).

Lemma continuation_mask b : 0 <= b < 256 -> (Z.land b 0xC0 =? 0x80) = continuation b.
Proof.
  intros H. pose proof (forall_below (fun b => Bool.eqb (Z.land b 0xC0 =? 0x80) (continuation b)) 256 ltac:(vm_compute; reflexivity) b H) as E.
  by apply Bool.eqb_prop in E.
Qed.

Definition is_byte (b : Z) : Prop := 0 <= b < 256.

(** The check of a sequence whose length fits its first byte. *)
Definition legal_sequence (bs : list Z) : bool :=
  match bs with
  | [h] => h <? 0x80
  | [h; a] => (0xC2 <=? h) && continuation a
  | [h; a; b] => continuation a && continuation b && negb (((h =? 0xE0) && (a <? 0xA0)) || ((h =? 0xED) && (0x9F <? a)))
  | [h; a; b; c] => continuation a && continuation b && continuation c && (h <=? 0xF4) &&
                    negb (((h =? 0xF0) && (a <? 0x90)) || ((h =? 0xF4) && (0x8F <? a)))
  | _ => false
  end.

Lemma rd_app_at {A} (pre bs rest : list A) k x :
  bs !! Z.to_nat k = Some x -> 0 <= k -> rd (pre ++ bs ++ rest) (Z.of_nat (length pre) + k) = Some x.
Proof.
  intros Hx Hk. rewrite rd_lookup by lia. rewrite lookup_app_r by lia.
  replace (Z.to_nat (Z.of_nat (length pre) + k) - length pre)%nat with (Z.to_nat k) by lia.
  rewrite lookup_app_l; [done|]. by apply lookup_lt_Some in Hx.
Qed.

Lemma IsLegal_sequence pre bs rest head tl :
  bs = head :: tl -> Forall is_byte bs -> trailing_count head <= 3 -> Z.of_nat (length bs) = trailing_count head + 1 ->
  __CFIsLegalUTF8 (pre ++ bs ++ rest) (Z.of_nat (length pre)) (Z.of_nat (length bs)) = Some (legal_sequence bs).
Proof.
  intros E Hb H3 Hn. unfold __CFIsLegalUTF8.
  assert (forall k x, bs !! Z.to_nat k = Some x -> 0 <= k -> rd (pre ++ bs ++ rest) (Z.of_nat (length pre) + k) = Some x) as Hrd
    by (intros; by apply rd_app_at).
  assert (rd (pre ++ bs ++ rest) (Z.of_nat (length pre)) = Some head) as ->.
  { rewrite <- (Hrd 0 head); [by rewrite Z.add_0_r|by subst|lia]. }
  destruct (Z.ltb_spec 4 (Z.of_nat (length bs))); [lia|]. cbn [opt_bind].
  unfold trailing_count in *. unfold second_byte.
  destruct (Z.ltb_spec head 0xC0); [|destruct (Z.ltb_spec head 0xE0); [|destruct (Z.ltb_spec head 0xF0); [|destruct (Z.ltb_spec head 0xF8);
    [|destruct (head <? 0xFC); lia]]]].
  - destruct tl; [|subst bs; simpl in Hn; lia]. subst bs. cbn [length legal_sequence].
    change (Z.to_nat (Z.of_nat 1 - 1)) with 0%nat. cbn [trail_bytes opt_bind negb].
    apply Forall_cons_1 in Hb as [Hh _]. unfold is_byte in Hh.
    destruct (Z.ltb_spec head 0x80).
    + assert (((0x80 <=? head) && (head <? 0xC2)) || (0xF4 <? head) = false) as -> by (bool_case; done).
      do 4 (match goal with |- context [head =? ?k] => destruct (Z.eqb_spec head k); [lia|] end; cbn [opt_bind]). done.
    + assert (((0x80 <=? head) && (head <? 0xC2)) || (0xF4 <? head) = true) as -> by (bool_case; done). done.
  - destruct tl as [|a [|]]; [subst bs; simpl in Hn; lia| |subst bs; simpl in Hn; lia]. subst bs. cbn [length legal_sequence] in *.
    change (Z.to_nat (Z.of_nat 2 - 1)) with 1%nat. cbn [trail_bytes opt_bind].
    do 2 (apply Forall_cons_1 in Hb as [?Hh Hb]). change (Z.of_nat 1) with 1. rewrite (Hrd 1 a) by (done || lia). cbn [opt_bind].
    rewrite continuation_mask by done. destruct (continuation a); cbn [negb opt_bind]; [|by rewrite andb_false_r]. rewrite andb_true_r.
    destruct (Z.leb_spec 0xC2 head).
    + assert (((0x80 <=? head) && (head <? 0xC2)) || (0xF4 <? head) = false) as -> by (bool_case; done).
      do 4 (match goal with |- context [head =? ?k] => destruct (Z.eqb_spec head k); [lia|] end; cbn [opt_bind]). done.
    + assert (((0x80 <=? head) && (head <? 0xC2)) || (0xF4 <? head) = true) as -> by (bool_case; done). done.
  - destruct tl as [|a [|b [|]]]; try (subst bs; simpl in Hn; lia). subst bs. cbn [length legal_sequence] in *.
    change (Z.to_nat (Z.of_nat 3 - 1)) with 2%nat. cbn [trail_bytes opt_bind].
    do 3 (apply Forall_cons_1 in Hb as [?Hh Hb]). change (Z.of_nat 2) with 2. change (Z.of_nat 1) with 1.
    rewrite (Hrd 2 b), (Hrd 1 a) by (done || lia). cbn [opt_bind].
    rewrite !continuation_mask by done. destruct (continuation b); cbn [negb opt_bind]; [|by rewrite andb_false_r]. rewrite andb_true_r.
    destruct (continuation a); cbn [negb opt_bind andb]; [|done].
    assert (((0x80 <=? head) && (head <? 0xC2)) || (0xF4 <? head) = false) as -> by (bool_case; done).
    destruct (Z.eqb_spec head 0xF0); [lia|]. destruct (Z.eqb_spec head 0xF4); [lia|].
    destruct (Z.eqb_spec head 0xE0), (Z.eqb_spec head 0xED); cbn [opt_bind andb orb negb]; rewrite ?orb_false_r; done.
  - destruct tl as [|a [|b [|c [|]]]]; try (subst bs; simpl in Hn; lia). subst bs. cbn [length legal_sequence] in *.
    change (Z.to_nat (Z.of_nat 4 - 1)) with 3%nat. cbn [trail_bytes opt_bind].
    do 4 (apply Forall_cons_1 in Hb as [?Hh Hb]). change (Z.of_nat 3) with 3. change (Z.of_nat 2) with 2. change (Z.of_nat 1) with 1.
    rewrite (Hrd 3 c), (Hrd 2 b), (Hrd 1 a) by (done || lia). cbn [opt_bind].
    rewrite !continuation_mask by done.
    destruct (continuation c); cbn [negb opt_bind]; [|by rewrite andb_false_r]. rewrite andb_true_r.
    destruct (continuation b); cbn [negb opt_bind]; [|by rewrite andb_false_r]. rewrite andb_true_r.
    destruct (continuation a); cbn [negb opt_bind andb]; [|done].
    destruct (Z.leb_spec head 0xF4).
    + assert (((0x80 <=? head) && (head <? 0xC2)) || (0xF4 <? head) = false) as -> by (bool_case; done).
      destruct (Z.eqb_spec head 0xE0); [lia|]. destruct (Z.eqb_spec head 0xED); [lia|].
      destruct (Z.eqb_spec head 0xF0), (Z.eqb_spec head 0xF4); cbn [opt_bind andb orb negb]; rewrite ?orb_false_r; done.
    + assert (((0x80 <=? head) && (head <? 0xC2)) || (0xF4 <? head) = true) as -> by (bool_case; done). done.
Qed.

(** A legal sequence is the UTF-8 form of one scalar value, and conversely. *)

Lemma utf8_cons c : exists h tl, utf8 c = h :: tl.
Proof. unfold utf8. repeat destruct (_ <? _); eauto. Qed.

Lemma utf8_legal c h tl :
  scalar c -> utf8 c = h :: tl ->
  Forall is_byte (utf8 c) /\ legal_sequence (utf8 c) = true /\ trailing_count h = Z.of_nat (length tl) /\ trailing_count h <= 3.
Proof.
  unfold scalar, utf8, is_byte, trailing_count. intros Hc.
  destruct (Z.ltb_spec c 0x80); [|destruct (Z.ltb_spec c 0x800); [|destruct (Z.ltb_spec c 0x10000)]]; intros [= <- <-];
    unfold legal_sequence, continuation; cbn [length]; Z.to_euclidean_division_equations;
    (split_and!; [repeat constructor; lia|bool_case; done|bool_case; done|bool_case; done]).
Qed.

(** The scalar value a sequence stands for. *)
Definition sequence_value (bs : list Z) : Z :=
  match bs with
  | [h] => h
  | [h; a] => (h - 0xC0) * 64 + (a - 0x80)
  | [h; a; b] => (h - 0xE0) * 4096 + (a - 0x80) * 64 + (b - 0x80)
  | [h; a; b; c] => (h - 0xF0) * 262144 + (a - 0x80) * 4096 + (b - 0x80) * 64 + (c - 0x80)
  | _ => 0
  end.

Lemma sequence_value_utf8 c : sequence_value (utf8 c) = c.
Proof.
  unfold utf8. repeat destruct (_ <? _); unfold sequence_value; Z.to_euclidean_division_equations; lia.
Qed.

Lemma trailing_count_1 h : trailing_count h = 1 -> 0xC0 <= h < 0xE0.
Proof. unfold trailing_count. bool_case; lia. Qed.
Lemma trailing_count_2 h : trailing_count h = 2 -> 0xE0 <= h < 0xF0.
Proof. unfold trailing_count. bool_case; lia. Qed.
Lemma trailing_count_3 h : trailing_count h = 3 -> 0xF0 <= h < 0xF8.
Proof. unfold trailing_count. bool_case; lia. Qed.

Lemma legal_utf8 h tl :
  is_byte h -> Z.of_nat (length tl) = trailing_count h -> legal_sequence (h :: tl) = true ->
  scalar (sequence_value (h :: tl)) /\ utf8 (sequence_value (h :: tl)) = h :: tl.
Proof.
  unfold is_byte, legal_sequence, continuation, scalar. intros Hb Hn Hl. symmetry in Hn.
  destruct tl as [|x [|y [|z [|]]]]; [| | | |done]; cbn [length sequence_value] in *.
  - split; [lia|]. unfold utf8. by destruct (Z.ltb_spec h 0x80); [|lia].
  - apply trailing_count_1 in Hn. split; [lia|]. unfold utf8.
    destruct (Z.ltb_spec ((h - 192) * 64 + (x - 128)) 0x80); [lia|]. destruct (Z.ltb_spec ((h - 192) * 64 + (x - 128)) 0x800); [|lia].
    f_equal; [|f_equal]; Z.to_euclidean_division_equations; lia.
  - apply trailing_count_2 in Hn. apply andb_true_iff in Hl as [Hc Hl]. apply negb_true_iff, orb_false_iff in Hl as [H1 H2].
    set (v := _ + _). assert (0x800 <= v < 0x10000 /\ (v < 0xD800 \/ 0xE000 <= v)) by (unfold v; lia). split; [lia|]. unfold utf8.
    destruct (Z.ltb_spec v 0x80); [lia|]. destruct (Z.ltb_spec v 0x800); [lia|]. destruct (Z.ltb_spec v 0x10000); [|lia].
    unfold v. f_equal; [|f_equal; [|f_equal]]; Z.to_euclidean_division_equations; lia.
  - apply trailing_count_3 in Hn. apply andb_true_iff in Hl as [Hc Hl]. apply negb_true_iff, orb_false_iff in Hl as [H1 H2].
    set (v := _ + _). assert (0x10000 <= v < 0x110000) by (unfold v; lia). split; [lia|]. unfold utf8.
    destruct (Z.ltb_spec v 0x80); [lia|]. destruct (Z.ltb_spec v 0x800); [lia|]. destruct (Z.ltb_spec v 0x10000); [lia|].
    unfold v. f_equal; [|f_equal; [|f_equal; [|f_equal]]]; Z.to_euclidean_division_equations; lia.
Qed.

(** The forms are prefix-free. *)
Lemma utf8_prefix_free c d x y : scalar c -> scalar d -> utf8 c ++ x = utf8 d ++ y -> c = d /\ x = y.
Proof.
  intros Hc Hd E. destruct (utf8_cons c) as (h & tl & Ec), (utf8_cons d) as (h' & tl' & Ed).
  destruct (utf8_legal c h tl Hc Ec) as (_ & _ & Hn & _), (utf8_legal d h' tl' Hd Ed) as (_ & _ & Hn' & _).
  rewrite Ec, Ed in E. pose proof E as E'. injection E' as <- _.
  apply app_inj_1 in E as [E ->]; [|cbn [length]; lia]. split; [|done].
  by rewrite <- (sequence_value_utf8 c), <- (sequence_value_utf8 d), Ec, Ed, E.
Qed.

(** The switch and the offset compute the value. *)
Lemma gather_value pre bs rest head tl :
  bs = head :: tl -> Forall is_byte bs -> (length tl <= 3)%nat ->
  exists ch offset, gather (length tl) (pre ++ bs ++ rest) (Z.of_nat (length pre)) 0 =
      Some (ch, Z.of_nat (length pre) + Z.of_nat (length bs)) /\
    rd offsetsFromUTF8 (Z.of_nat (length tl)) = Some offset /\
    uwrap 32 (ch - offset) = uwrap 32 (sequence_value bs).
Proof.
  intros E Hb H3.
  assert (forall k x, bs !! Z.to_nat k = Some x -> 0 <= k -> rd (pre ++ bs ++ rest) (Z.of_nat (length pre) + k) = Some x) as Hrd
    by (intros; by apply rd_app_at).
  assert (rd (pre ++ bs ++ rest) (Z.of_nat (length pre)) = Some head) as H0.
  { rewrite <- (Hrd 0 head); [by rewrite Z.add_0_r|by subst|lia]. }
  unfold is_byte in Hb. set (at_ := Z.of_nat (length pre)) in *. set (src := pre ++ bs ++ rest) in *.
  destruct tl as [|a [|b [|c [|]]]]; [| | | |simpl in H3; lia]; subst bs; cbn [length gather]; rewrite H0; cbn [opt_bind];
    try rewrite (Hrd 1 a) by (done || lia); cbn [opt_bind];
    try (replace (at_ + 1 + 1) with (at_ + 2) by lia; rewrite (Hrd 2 b) by (done || lia); cbn [opt_bind]);
    try (replace (at_ + 2 + 1) with (at_ + 3) by lia; rewrite (Hrd 3 c) by (done || lia); cbn [opt_bind]);
    rewrite ?Z.shiftl_mul_pow2 by lia; (eexists _, _; split; [do 2 f_equal; lia|split; [reflexivity|]]);
    cbn [sequence_value]; unfold uwrap; repeat (apply Forall_cons_1 in Hb as [?Hx Hb]); f_equal;
    Z.to_euclidean_division_equations; lia.
Qed.

(** ** Decoding *)

Definition truncated (bs : list Z) : Prop :=
  match bs with [] => False | h :: tl => Z.of_nat (length tl) < trailing_count h end.

(** The bytes do not begin with the form of a character, though there are as
    many as the first of them asks for. *)
Definition ill_formed8 (bs : list Z) : Prop :=
  bs <> [] /\ ~ truncated bs /\ forall c rest, scalar c -> bs <> utf8 c ++ rest.

Definition replaced (lossy : bool) (b : Z) : bool := (b =? 0xA9) || lossy.

(** [decoded lossy bytes cs rest]: the bytes before [rest] are the forms of
    the characters [cs], or ill-formed bytes that give U+FFFD. *)
Inductive decoded (lossy : bool) : list Z -> list Z -> list Z -> Prop :=
| decoded_end bytes : decoded lossy bytes [] bytes
| decoded_char c bytes cs rest :
    scalar c -> decoded lossy bytes cs rest -> decoded lossy (utf8 c ++ bytes) (c :: cs) rest
| decoded_replaced b bytes cs rest :
    ill_formed8 (b :: bytes) -> replaced lossy b = true -> decoded lossy bytes cs rest ->
    decoded lossy (b :: bytes) (kReplacementCharacter :: cs) rest.

(** No further character can be read. *)
Definition stuck (lossy : bool) (bs : list Z) : Prop :=
  bs = [] \/ truncated bs \/ (ill_formed8 bs /\ match bs with [] => True | b :: _ => replaced lossy b = false end).

(** Every byte string goes on in one of these ways. *)
Inductive next_sequence : list Z -> Prop :=
| next_truncated h tl : Z.of_nat (length tl) < trailing_count h -> next_sequence (h :: tl)
| next_long h tl : 3 < trailing_count h -> trailing_count h <= Z.of_nat (length tl) -> next_sequence (h :: tl)
| next_illegal h tl bs rest : trailing_count h <= 3 -> Z.of_nat (length bs) = trailing_count h ->
    tl = bs ++ rest -> legal_sequence (h :: bs) = false -> next_sequence (h :: tl)
| next_legal c rest : scalar c -> next_sequence (utf8 c ++ rest).

Lemma next_sequence_total h tl : is_byte h -> next_sequence (h :: tl).
Proof.
  intros Hh. destruct (Z.lt_ge_cases (Z.of_nat (length tl)) (trailing_count h)) as [Ht|Ht]; [by constructor|].
  destruct (Z.lt_ge_cases 3 (trailing_count h)); [by apply next_long|].
  assert (0 <= trailing_count h) as H0 by (unfold trailing_count; bool_case; lia).
  set (n := Z.to_nat (trailing_count h)).
  assert (Z.of_nat (length (take n tl)) = trailing_count h) as Hl by (rewrite length_take; lia).
  destruct (legal_sequence (h :: take n tl)) eqn:E.
  - destruct (legal_utf8 h (take n tl) Hh Hl E) as [Hs Hu].
    replace (h :: tl) with ((h :: take n tl) ++ drop n tl) by (cbn [app]; by rewrite take_drop). rewrite <- Hu. by constructor.
  - apply (next_illegal h tl (take n tl) (drop n tl)); [done|done|by rewrite take_drop|done].
Qed.

Lemma not_utf8 h tl bs rest c r :
  scalar c -> Z.of_nat (length bs) = trailing_count h -> tl = bs ++ rest -> legal_sequence (h :: bs) = false -> h :: tl <> utf8 c ++ r.
Proof.
  intros Hc Hn -> Hl E. destruct (utf8_cons c) as (h' & tl' & Ec). destruct (utf8_legal c h' tl' Hc Ec) as (_ & Hl' & Hn' & _).
  rewrite Ec in E. pose proof E as E'. injection E' as <- _. change (h :: bs ++ rest) with ((h :: bs) ++ rest) in E.
  apply app_inj_1 in E as [E _]; [|cbn [length]; lia]. congruence.
Qed.

Lemma illegal_ill_formed h tl bs rest :
  Z.of_nat (length bs) = trailing_count h -> tl = bs ++ rest -> legal_sequence (h :: bs) = false -> ill_formed8 (h :: tl).
Proof.
  intros Hn E Hl. split_and!; [done| |intros; by eapply not_utf8]. simpl. subst. rewrite length_app. lia.
Qed.

Lemma long_ill_formed h tl : 3 < trailing_count h -> trailing_count h <= Z.of_nat (length tl) -> ill_formed8 (h :: tl).
Proof.
  intros H3 Hn. split_and!; [done|simpl; lia|]. intros c r Hc E. destruct (utf8_cons c) as (h' & tl' & Ec).
  destruct (utf8_legal c h' tl' Hc Ec) as (_ & _ & _ & H3'). rewrite Ec in E. injection E as <- _. lia.
Qed.

Lemma utf8_not_stuck lossy c bs : scalar c -> ~ stuck lossy (utf8 c ++ bs).
Proof.
  intros Hc [E|[Ht|[(_ & _ & Hi) _]]]; [by destruct (utf8_cons c) as (? & ? & Ec); rewrite Ec in E| |by eapply Hi].
  destruct (utf8_cons c) as (h & tl & Ec). destruct (utf8_legal c h tl Hc Ec) as (_ & _ & Hn & _).
  rewrite Ec in Ht. cbn [app truncated] in Ht. rewrite length_app in Ht. lia.
Qed.

(** A byte string has one complete decoding. *)
Lemma decoded_stuck_unique lossy bytes cs1 rest1 cs2 rest2 :
  decoded lossy bytes cs1 rest1 -> stuck lossy rest1 -> decoded lossy bytes cs2 rest2 -> stuck lossy rest2 ->
  cs1 = cs2 /\ rest1 = rest2.
Proof.
  pose proof (utf8_not_stuck lossy) as Hchar.
  assert (forall b bs, ill_formed8 (b :: bs) -> replaced lossy b = true -> ~ stuck lossy (b :: bs)) as Hrep.
  { intros b bs (_ & Hn & _) Hr [E|[Ht|[_ Hf]]]; [done|done|congruence]. }
  intros H1 Hs1. revert cs2 rest2. induction H1 as [bytes|c bytes cs rest Hc H IH|b bytes cs rest Hb Hr H IH]; intros cs2 rest2 H2 Hs2.
  - inversion H2; subst; [done|by edestruct Hchar|by edestruct Hrep].
  - inversion H2 as [|d bytes2 cs2' ? Hd H2'|b bytes2 cs2' ? (_ & _ & Hn) ? H2']; subst; [by edestruct Hchar| |].
    + apply utf8_prefix_free in H0 as [-> ->]; [|done..]. by destruct (IH Hs1 _ _ H2' Hs2) as [-> ->].
    + by edestruct (Hn c bytes).
  - inversion H2 as [|d bytes2 cs2' ? Hd H2'|b2 bytes2 cs2' ? ? ? H2']; subst; [by edestruct Hrep| |].
    + destruct Hb as (_ & _ & Hn). by edestruct (Hn d bytes2).
    + by destruct (IH Hs1 _ _ H2' Hs2) as [-> ->].
Qed.

Lemma decoded_encode8 lossy cs : Forall scalar cs -> decoded lossy (encode8 cs) cs [].
Proof. induction 1 as [|c cs Hc Hcs IH]; [constructor|]. rewrite encode8_cons. by constructor. Qed.

(** *** The loop from UTF-8 *)

(** The flags ask neither for decomposition nor for leniency. *)
Definition plain_flags (flags : Z) : Prop :=
  has_flag flags kCFStringEncodingUseHFSPlusCanonical = false /\ has_flag flags kCFStringEncodingUseCanonical = false /\
  has_flag flags kCFStringEncodingLenientUTF8Conversion = false.

(** What a conversion that stores after [out] ends with: [cs] are read,
    [lost] is consumed too, [rest] is left. *)
Definition conversion_end (lossy : bool) (max : Z) (used : Z) (lost rest : list Z) : Prop :=
  (lost = [] /\ (stuck lossy rest \/ (max <> 0 /\ used = max))) \/
  (exists c, 0x10000 <= c /\ scalar c /\ lost = utf8 c /\ max <> 0 /\ used = max - 1).

Definition conversion (lossy : bool) (max s : Z) (bytes characters out : list Z) (r : option (Z * list Z * Z)) : Prop :=
  exists cs lost rest characters', decoded lossy bytes cs (lost ++ rest) /\
    r = Some (s + Z.of_nat (length bytes) - Z.of_nat (length rest), characters', Z.of_nat (length (out ++ encode16 cs))) /\
    length characters' = length characters /\ (max = 0 -> characters' = characters) /\
    stored8 max characters' (out ++ encode16 cs) /\
    conversion_end lossy max (Z.of_nat (length (out ++ encode16 cs))) lost rest.

Lemma conversion_stop lossy max s bytes characters out used :
  stored8 max characters out -> used = Z.of_nat (length out) -> stuck lossy bytes \/ (max <> 0 /\ used = max) ->
  conversion lossy max s bytes characters out (Some (s, characters, used)).
Proof.
  intros Hs -> He. exists [], [], bytes, characters. cbn [encode flat_map]. rewrite app_nil_r. cbn [app].
  split_and!; [constructor|do 3 f_equal; lia|done|done|done|by left].
Qed.

Lemma conversion_char lossy max s c bytes characters1 characters out r :
  scalar c -> length characters1 = length characters -> (max = 0 -> characters1 = characters) ->
  conversion lossy max (s + Z.of_nat (length (utf8 c))) bytes characters1 (out ++ utf16 c) r ->
  conversion lossy max s (utf8 c ++ bytes) characters out r.
Proof.
  intros Hc Hl H0 (cs & lost & rest & ch' & Hd & -> & Hl' & H0' & Hs & He).
  exists (c :: cs), lost, rest, ch'. rewrite encode16_cons, (assoc_L (++)).
  split_and!; [by constructor|do 3 f_equal; rewrite length_app; lia|congruence|intros; rewrite H0'; auto|done|done].
Qed.

Lemma conversion_replaced lossy max s b bytes characters1 characters out r :
  ill_formed8 (b :: bytes) -> replaced lossy b = true ->
  length characters1 = length characters -> (max = 0 -> characters1 = characters) ->
  conversion lossy max (s + 1) bytes characters1 (out ++ [kReplacementCharacter]) r ->
  conversion lossy max s (b :: bytes) characters out r.
Proof.
  intros Hi Hr Hl H0 (cs & lost & rest & ch' & Hd & -> & Hl' & H0' & Hs & He).
  exists (kReplacementCharacter :: cs), lost, rest, ch'. rewrite encode16_cons, (assoc_L (++)).
  change (utf16 kReplacementCharacter) with [kReplacementCharacter].
  split_and!; [by constructor|do 3 f_equal; cbn [length]; lia|congruence|intros; rewrite H0'; auto|done|done].
Qed.

(** One unit is stored, if there is a destination. *)
Lemma store_unit max characters out p u :
  stored8 max characters out -> (max <> 0 -> p = Z.of_nat (length out) /\ Z.of_nat (length out) < max) ->
  exists characters1 p1,
    (if negb (max =? 0) then let* characters := wr characters p u in Some (characters, p + 1) else Some (characters, p)) =
      Some (characters1, p1) /\
    length characters1 = length characters /\ (max = 0 -> characters1 = characters) /\
    stored8 max characters1 (out ++ [u]) /\ (max <> 0 -> p1 = Z.of_nat (length (out ++ [u]))).
Proof.
  intros Hs Hp. destruct (Z.eqb_spec max 0) as [E|E]; cbn [negb].
  - exists characters, p. split_and!; try done.
  - destruct (Hp E) as [-> Hlt], (Hs E) as (_ & Hm & room & ->). rewrite length_app in Hm.
    destruct room as [|x room]; [simpl in Hm; lia|]. rewrite wr_app_here by done. cbn [opt_bind].
    eexists _, _. split; [done|]. rewrite !length_app. cbn [length] in *. split_and!; [done|done| |lia].
    intros _. rewrite !length_app. cbn [length]. split_and!; [lia|lia|]. exists room. by rewrite <- (assoc_L (++)).
Qed.

Section PlainDecoding.
Context (T : unichar_tables) (D : decomposition_tables) (junk : Z).

Lemma store_decoded_plain c characters out p max :
  scalar c -> stored8 max characters out -> (max <> 0 -> p = Z.of_nat (length out) /\ Z.of_nat (length out) < max) ->
  (exists characters1 p1 x,
     store_decoded T D junk (c <=? kMaximumUCS2) false false c characters p max (Z.of_nat (length out)) =
       Some (Some (characters1, p1, Z.of_nat (length (out ++ utf16 c))), x) /\
     length characters1 = length characters /\ (max = 0 -> characters1 = characters) /\
     stored8 max characters1 (out ++ utf16 c) /\ (max <> 0 -> p1 = Z.of_nat (length (out ++ utf16 c)))) \/
  (0x10000 <= c /\ max <> 0 /\ Z.of_nat (length out) = max - 1 /\
   store_decoded T D junk (c <=? kMaximumUCS2) false false c characters p max (Z.of_nat (length out)) = Some (None, characters)).
Proof.
  intros Hc Hs Hp. unfold store_decoded, decomposes, kMaximumUCS2. cbn [opt_bind].
  destruct (Z.leb_spec c 65535) as [Hb|Hb].
  - left. assert (utf16 c = [c]) as -> by (unfold utf16; destruct (Z.ltb_spec c 65536); [done|lia]).
    rewrite uwrap_id by (unfold in_unsigned, scalar in *; lia).
    destruct (store_unit max characters out p c Hs Hp) as (ch1 & p1 & E & H1 & H2 & H3 & H4). exists ch1, p1.
    destruct (negb (max =? 0)); [destruct (wr characters p c); [cbn [opt_bind] in E|done]|]; injection E as -> ->;
      (eexists; rewrite length_app, Nat2Z.inj_add in *; split; [reflexivity|done]).
  - destruct (Z.eqb_spec max 0) as [E|E]; cbn [negb].
    + left. exists characters, p. eexists. rewrite length_app, Nat2Z.inj_add, length_utf16. destruct (Z.ltb_spec c 65536); [lia|]. done.
    + destruct (Hp E) as [-> Hlt], (Hs E) as (_ & Hm & room & ->). rewrite length_app in Hm.
      destruct (Z.ltb_spec max (Z.of_nat (length out) + 2)).
      { right. split_and!; try done; lia. }
      left. destruct room as [|x [|y room]]; [simpl in Hm; lia..|]. rewrite wr_app_here by done. cbn [opt_bind].
      rewrite wr_app_there by done. cbn [opt_bind]. unfold halfBase, halfShift, halfMask, kSurrogateHighStart, kSurrogateLowStart.
      destruct (utf16_units c (scalar_code_point c Hc) ltac:(lia)) as [-> ->].
      assert (utf16 c = [0xD800 + (c - 0x10000) / 0x400; 0xDC00 + (c - 0x10000) mod 0x400]) as Eu
        by (unfold utf16; destruct (Z.ltb_spec c 65536); [lia|done]).
      rewrite Eu, !length_app. cbn [length] in *. eexists _, _, _. split; [repeat (lia || f_equal)|].
      rewrite !length_app. cbn [length]. split_and!; [done|done| |lia].
      intros _. rewrite !length_app. cbn [length]. split_and!; [lia|lia|]. exists room. by rewrite <- (assoc_L (++)).
Qed.

(** The check of the bytes at [source] and what it finds. *)
Lemma legal_at spre c rest :
  scalar c -> Forall is_byte (utf8 c) /\
  exists h tl, utf8 c = h :: tl /\ is_byte h /\ trailing_count h = Z.of_nat (length tl) /\ trailing_count h <= 3 /\
    __CFIsLegalUTF8 (spre ++ utf8 c ++ rest) (Z.of_nat (length spre)) (trailing_count h + 1) = Some true.
Proof.
  intros Hc. destruct (utf8_cons c) as (h & tl & Ec). destruct (utf8_legal c h tl Hc Ec) as (Hb & Hl & Hn & H3).
  split; [done|]. exists h, tl. split_and!; [done|rewrite Ec in Hb; by apply Forall_cons_1 in Hb as [? _]|done|done|].
  rewrite <- Hl. replace (trailing_count h + 1) with (Z.of_nat (length (utf8 c))) by (rewrite Ec; cbn [length]; lia).
  apply (IsLegal_sequence spre (utf8 c) rest h tl); [done|done|done|rewrite Ec; cbn [length]; lia].
Qed.

Lemma illegal_at spre h bs rest :
  is_byte h -> Forall is_byte bs -> trailing_count h <= 3 -> Z.of_nat (length bs) = trailing_count h -> legal_sequence (h :: bs) = false ->
  __CFIsLegalUTF8 (spre ++ h :: bs ++ rest) (Z.of_nat (length spre)) (trailing_count h + 1) = Some false.
Proof.
  intros Hh Hb H3 Hn Hl. rewrite <- Hl. replace (trailing_count h + 1) with (Z.of_nat (length (h :: bs))) by (cbn [length]; lia).
  change (h :: bs ++ rest) with ((h :: bs) ++ rest). apply (IsLegal_sequence spre (h :: bs) rest h bs); [done|by constructor|done|cbn [length]; lia].
Qed.

Lemma from_utf8_loop_plain flags fuel spre bytes characters out p max :
  plain_flags flags -> Forall is_byte bytes -> (length bytes <= fuel)%nat ->
  stored8 max characters out -> (max <> 0 -> p = Z.of_nat (length out)) ->
  conversion (has_flag flags kCFStringEncodingAllowLossyConversion) max (Z.of_nat (length spre)) bytes characters out
    (from_utf8_loop T D junk fuel flags (spre ++ bytes) (Z.of_nat (length spre)) (Z.of_nat (length bytes)) characters p max
       (Z.of_nat (length out))).
Proof.
  intros Hfl. pose proof Hfl as (F1 & F2 & F3). set (lossy := has_flag flags kCFStringEncodingAllowLossyConversion).
  revert spre bytes characters out p. induction fuel as [|fuel IH]; intros spre bytes characters out p Hb Hf Hs Hp.
  { destruct bytes; [|simpl in Hf; lia]. cbn. apply conversion_stop; [done|done|left; by left]. }
  cbn [from_utf8_loop]. rewrite F1, F2, F3. cbn [orb negb].
  destruct bytes as [|h tl]; [cbn; apply conversion_stop; [done|done|left; by left]|].
  destruct (Z.eqb_spec (Z.of_nat (length (h :: tl))) 0); [simpl in *; lia|]. cbn [negb andb].
  destruct ((max =? 0) || (Z.of_nat (length out) <? max)) eqn:Eroom.
  2: { apply orb_false_iff in Eroom as [E1 E2]. apply conversion_stop; [done|done|right].
       destruct (Hs ltac:(lia)) as (? & _). lia. }
  assert (max <> 0 -> p = Z.of_nat (length out) /\ Z.of_nat (length out) < max) as Hp' by (intros; split; [auto|lia]).
  pose proof Hb as Hb0. apply Forall_cons_1 in Hb0 as [Hh Htl]. rewrite rd_app_here by done. cbn [opt_bind].
  rewrite (trailingBytes_eq h) by done. cbn [opt_bind length] in *.
  replace (Z.of_nat (S (length tl)) - 1) with (Z.of_nat (length tl)) by lia.
  assert (ill_formed8 (h :: tl) -> conversion lossy max (Z.of_nat (length spre)) (h :: tl) characters out
    (if (h =? 0xA9) || lossy then
       let* (characters, p) :=
         (if negb (max =? 0) then let* characters := wr characters p (uwrap 16 kReplacementCharacter) in Some (characters, p + 1)
          else Some (characters, p)) in
       from_utf8_loop T D junk fuel flags (spre ++ h :: tl) (Z.of_nat (length spre) + 1)
         (Z.of_nat (length tl) - trailing_count h + trailing_count h) characters p max (Z.of_nat (length out) + 1)
     else Some (Z.of_nat (length spre), characters, Z.of_nat (length out)))) as Hill.
  { intros Hi. destruct ((h =? 0xA9) || lossy) eqn:Er.
    - destruct (store_unit max characters out p (uwrap 16 kReplacementCharacter) Hs Hp') as (ch1 & p1 & -> & H1 & H2 & H3 & H4).
      cbn [opt_bind]. eapply conversion_replaced; [done|done|exact H1|exact H2|].
      specialize (IH (spre ++ [h]) tl ch1 (out ++ [kReplacementCharacter]) p1 Htl ltac:(lia) H3 H4).
      rewrite <- (assoc_L (++)), !length_app, !Nat2Z.inj_add in IH. cbn [length app] in IH. change (Z.of_nat 1) with 1 in IH.
      by replace (Z.of_nat (length tl) - trailing_count h + trailing_count h) with (Z.of_nat (length tl)) by lia.
    - apply conversion_stop; [done|done|left; right; right; done]. }
  pose proof (next_sequence_total h tl Hh) as Hnext.
  inversion Hnext as [h' tl' Ht|h' tl' H3 Hn|h' tl' bs rest H3 Hn Etl Hl|c rest Hc E]; subst; clear Hnext.
  - destruct (Z.ltb_spec (Z.of_nat (length tl)) (trailing_count h)); [|lia]. apply conversion_stop; [done|done|left; right; by left].
  - destruct (Z.ltb_spec (Z.of_nat (length tl)) (trailing_count h)); [lia|].
    destruct (Z.ltb_spec 3 (trailing_count h)); [|lia]. cbn [opt_bind]. apply Hill. by apply long_ill_formed.
  - destruct (Z.ltb_spec (Z.of_nat (length (bs ++ rest))) (trailing_count h)); [rewrite length_app in *; lia|].
    destruct (Z.ltb_spec 3 (trailing_count h)); [lia|]. apply Forall_app in Htl as [Hbs _].
    rewrite (illegal_at spre h bs rest) by done. cbn [opt_bind negb]. apply Hill. by eapply illegal_ill_formed.
  - clear Hill. destruct (legal_at spre c rest Hc) as (Hbc & h' & tl' & Ec & _ & Hn & H3 & Hlegal).
    rewrite <- E in *. rewrite Ec in E. injection E as <- <-.
    destruct (Z.ltb_spec (Z.of_nat (length (tl' ++ rest))) (trailing_count h')); [rewrite length_app in *; lia|].
    destruct (Z.ltb_spec 3 (trailing_count h')); [lia|]. rewrite Hlegal. cbn [opt_bind negb].
    destruct (gather_value spre (utf8 c) rest h' tl' Ec Hbc ltac:(lia)) as (ch & off & Eg & Eo & Ech).
    rewrite Hn, Nat2Z.id, Eg. cbn [opt_bind]. rewrite Eo. cbn [opt_bind].
    rewrite Ech, sequence_value_utf8, uwrap_id by (unfold in_unsigned, scalar in *; lia).
    replace (Z.of_nat (length (tl' ++ rest)) - Z.of_nat (length tl')) with (Z.of_nat (length rest)) by (rewrite length_app; lia).
    assert (length spre + length (utf8 c) = length (spre ++ utf8 c))%nat as Elen by (by rewrite length_app).
    assert (Forall is_byte rest) as Hrest by (by apply Forall_app in Htl as [_ ?]).
    assert (length rest <= fuel)%nat as Hfr by (rewrite length_app in Hf; lia).
    assert (forall b, b = (c <=? kMaximumUCS2) ->
      conversion lossy max (Z.of_nat (length spre)) (utf8 c ++ rest) characters out
       (let* (stored, characters) := store_decoded T D junk b false false c characters p max (Z.of_nat (length out)) in
        match stored with
        | None => Some (Z.of_nat (length spre) + Z.of_nat (length (utf8 c)), characters, Z.of_nat (length out))
        | Some (characters, p, used) =>
            from_utf8_loop T D junk fuel flags (spre ++ utf8 c ++ rest) (Z.of_nat (length spre) + Z.of_nat (length (utf8 c)))
              (Z.of_nat (length rest)) characters p max used
        end)) as Hstore.
    { intros b ->. destruct (store_decoded_plain c characters out p max Hc Hs Hp') as [(ch1 & p1 & x & -> & H1 & H2 & H3' & H4)|(Hc' & Hm & Hu & ->)];
        cbn [opt_bind].
      - eapply conversion_char; [done|exact H1|exact H2|]. rewrite <- Nat2Z.inj_add, Elen, (assoc_L (++) spre).
        by apply IH.
      - exists [], (utf8 c), rest, characters. cbn [encode flat_map]. rewrite app_nil_r.
        split_and!; [constructor|do 3 f_equal; rewrite length_app; lia|done|done|done|]. right. exists c. done. }
    specialize (Hstore _ eq_refl). unfold kMaximumUCS2, kMaximumUTF16, kSurrogateHighStart, kSurrogateLowEnd in *.
    destruct (Z.leb_spec c 65535); cbn [andb].
    + assert ((0xD800 <=? c) && (c <=? 0xDFFF) = false) as -> by (unfold scalar in Hc; bool_case; done). exact Hstore.
    + destruct (Z.ltb_spec 0x10FFFF c); [unfold scalar in Hc; lia|]. exact Hstore.
Qed.

(** [__CFFromUTF8Len] counts what [__CFFromUTF8] counts without a
    destination, except that a lenient conversion that is not for HFS+ stops
    at a character above U+10FFFF and the count goes on. *)
Lemma from_utf8_len_loop_eq flags fuel spre bytes used characters p :
  Forall is_byte bytes ->
  has_flag flags kCFStringEncodingLenientUTF8Conversion = false \/ has_flag flags kCFStringEncodingUseHFSPlusCanonical = true ->
  from_utf8_len_loop T D junk fuel flags (spre ++ bytes) (Z.of_nat (length spre)) (Z.of_nat (length bytes)) used =
    (let* (_, _, used) := from_utf8_loop T D junk fuel flags (spre ++ bytes) (Z.of_nat (length spre)) (Z.of_nat (length bytes))
                            characters p 0 used in Some used).
Proof.
  intros Hb Hfl. revert spre bytes used p Hb. induction fuel as [|fuel IH]; intros spre bytes used p Hb.
  { cbn. by destruct (negb _). }
  cbn [from_utf8_len_loop from_utf8_loop]. change (0 =? 0) with true. cbn [orb negb]. rewrite andb_true_r.
  destruct bytes as [|h tl]; [done|]. destruct (Z.eqb_spec (Z.of_nat (length (h :: tl))) 0) as [?|_]; [simpl in *; lia|]. cbn [negb].
  pose proof Hb as Hb0. apply Forall_cons_1 in Hb0 as [Hh Htl]. rewrite rd_app_here by done. cbn [opt_bind].
  rewrite (trailingBytes_eq h) by done. cbn [opt_bind length] in *.
  replace (Z.of_nat (S (length tl)) - 1) with (Z.of_nat (length tl)) by lia.
  destruct (Z.ltb_spec (Z.of_nat (length tl)) (trailing_count h)) as [Ht|Ht]; [done|].
  assert (0 <= trailing_count h) as H0 by (unfold trailing_count; bool_case; lia).
  set (n := Z.to_nat (trailing_count h)). assert (Z.of_nat (length (take n tl)) = trailing_count h) as Hl by (rewrite length_take; lia).
  assert (spre ++ h :: tl = (spre ++ [h]) ++ tl) as E1 by (by rewrite <- (assoc_L (++))).
  assert (spre ++ h :: tl = spre ++ (h :: take n tl) ++ drop n tl) as E2 by (cbn [app]; by rewrite take_drop).
  assert (forall b : bool, (if b then
     from_utf8_len_loop T D junk fuel flags (spre ++ h :: tl) (Z.of_nat (length spre) + 1) (Z.of_nat (length tl) - trailing_count h + trailing_count h) (used + 1)
     else Some used) =
    (let* (_, _, used) := (if b then from_utf8_loop T D junk fuel flags (spre ++ h :: tl) (Z.of_nat (length spre) + 1) (Z.of_nat (length tl) - trailing_count h + trailing_count h) characters p 0 (used + 1)
      else Some (Z.of_nat (length spre), characters, used)) in Some used)) as Hill.
  { intros []; [|done]. replace (Z.of_nat (length tl) - trailing_count h + trailing_count h) with (Z.of_nat (length tl)) by lia.
    rewrite E1. replace (Z.of_nat (length spre) + 1) with (Z.of_nat (length (spre ++ [h]))) by (rewrite length_app; simpl; lia). by apply IH. }
  destruct (Z.ltb_spec 3 (trailing_count h)) as [H3|H3]; cbn [opt_bind]; [apply Hill|].
  destruct (gather_value spre (h :: take n tl) (drop n tl) h (take n tl) eq_refl) as (ch & off & Eg & Eo & Ech).
  { constructor; [done|]. by apply Forall_take. } { lia. }
  rewrite <- E2 in Eg. rewrite Hl in Eo. replace (length (take n tl)) with n in Eg by lia.
  (* the rest of the round, once the bytes are taken for a character *)
  set (isHFSPlus := has_flag flags kCFStringEncodingUseHFSPlusCanonical) in *.
  assert (forall used p, from_utf8_len_loop T D junk fuel flags (spre ++ h :: tl)
      (Z.of_nat (length spre) + Z.of_nat (length (h :: take n tl))) (Z.of_nat (length tl) - trailing_count h) used =
    (let* (_, _, used) := from_utf8_loop T D junk fuel flags (spre ++ h :: tl)
       (Z.of_nat (length spre) + Z.of_nat (length (h :: take n tl))) (Z.of_nat (length tl) - trailing_count h) characters p 0 used in Some used)) as Hnext.
  { intros used' p'. rewrite E2, (assoc_L (++) spre), <- Nat2Z.inj_add, <- length_app.
    replace (Z.of_nat (length tl) - trailing_count h) with (Z.of_nat (length (drop n tl))) by (rewrite length_drop; lia).
    apply IH. by apply Forall_drop. }
  assert (exists illegal,
    (if negb (has_flag flags kCFStringEncodingLenientUTF8Conversion)
     then let* l := __CFIsLegalUTF8 (spre ++ h :: tl) (Z.of_nat (length spre)) (trailing_count h + 1) in Some (negb l)
     else Some false) = Some illegal /\
    (illegal = false -> isHFSPlus = true \/ uwrap 32 (ch - off) <= kMaximumUTF16)) as (illegal & -> & Hmax).
  { destruct (negb (has_flag flags kCFStringEncodingLenientUTF8Conversion)) eqn:Elen.
    - rewrite E2. replace (trailing_count h + 1) with (Z.of_nat (length (h :: take n tl))) by (cbn [length]; lia).
      rewrite (IsLegal_sequence spre (h :: take n tl) (drop n tl) h (take n tl));
        [|done|constructor; [done|by apply Forall_take]|done|cbn [length]; lia].
      eexists. split; [done|]. intros Eleg%negb_false_iff. right.
      destruct (legal_utf8 h (take n tl) Hh Hl Eleg) as [Hsc _]. rewrite Ech.
      rewrite uwrap_id by (unfold in_unsigned, scalar in *; lia). unfold kMaximumUTF16, scalar in *. lia.
    - exists false. split; [done|]. intros _. left. apply negb_false_iff in Elen. destruct Hfl; [congruence|done]. }
  cbn [opt_bind]. destruct illegal; [apply Hill|]. specialize (Hmax eq_refl).
  fold n. rewrite Eg. cbn [opt_bind]. rewrite Eo. cbn [opt_bind].
  set (c := uwrap 32 (ch - off)) in *. destruct (c <=? kMaximumUCS2); [|destruct (Z.ltb_spec kMaximumUTF16 c)].
  - destruct (negb isHFSPlus && _); [done|]. unfold store_decoded. destruct (decomposes _ _ _ c) as [dec|]; [|done]. cbn [opt_bind].
    destruct dec; [|apply Hnext]. destruct (CFUniCharDecomposeCharacter _ _ _ _ _) as [[len dcp]|]; [|done]. cbn [opt_bind]. apply Hnext.
  - destruct Hmax as [E|E]; [rewrite E; cbn [negb opt_bind]; apply Hnext|lia].
  - unfold store_decoded. destruct (decomposes _ _ _ c) as [dec|]; [|done]. cbn [opt_bind].
    destruct dec; [|apply Hnext]. destruct (CFUniCharDecomposeCharacter _ _ _ _ _) as [[len dcp]|]; [|done]. cbn [opt_bind].
    destruct (count_units _ _ _); [|done]. cbn [opt_bind]. apply Hnext.
Qed.
End PlainDecoding.

(** ** Theorems *)

Lemma decoded_encode8_inv lossy cs1 cs rest :
  Forall scalar cs1 -> decoded lossy (encode8 cs1) cs rest -> exists cs', cs1 = cs ++ cs' /\ rest = encode8 cs'.
Proof.
  intros H1 Hd. remember (encode8 cs1) as bytes eqn:E. revert cs1 H1 E.
  induction Hd as [bytes|c bytes cs rest Hc Hd IH|b bytes cs rest (_ & _ & Hi) Hr Hd IH]; intros cs1 H1 E.
  - by exists cs1.
  - destruct cs1 as [|d cs1]; [destruct (utf8_cons c) as (? & ? & Ec); by rewrite Ec in E|]. rewrite encode8_cons in E.
    apply Forall_cons_1 in H1 as [H1 H2]. apply utf8_prefix_free in E as [-> ->]; [|done..].
    destruct (IH cs1 H2 eq_refl) as (cs' & -> & ->). by exists cs'.
  - destruct cs1 as [|d cs1]; [done|]. apply Forall_cons_1 in H1 as [H1 _]. by edestruct Hi.
Qed.

(** UTF-8 with room for every unit is decoded completely. *)
Lemma conversion_encode8 lossy max cs characters r :
  Forall scalar cs -> max = 0 \/ Z.of_nat (length (encode16 cs)) <= max ->
  conversion lossy max 0 (encode8 cs) characters [] r ->
  exists characters', r = Some (Z.of_nat (length (encode8 cs)), characters', Z.of_nat (length (encode16 cs))) /\
    length characters' = length characters /\ (max = 0 -> characters' = characters) /\
    (max <> 0 -> take (length (encode16 cs)) characters' = encode16 cs).
Proof.
  intros Hcs Hm (cs1 & lost & rest & ch' & Hd & -> & Hl & H0 & Hs & He). cbn [app] in *.
  destruct (decoded_encode8_inv _ _ _ _ Hcs Hd) as (cs2 & -> & E). apply Forall_app in Hcs as [Hcs1 Hcs2].
  assert (cs2 = []) as ->.
  { destruct cs2 as [|c cs2]; [done|exfalso]. apply Forall_cons_1 in Hcs2 as [Hc _].
    rewrite encode_app, encode16_cons, !length_app in Hm. pose proof (length_utf16 c) as H2.
    destruct He as [(-> & [Hst|[? ?]])|(d & Hd0 & Hds & -> & ? & ?)].
    - cbn [app] in E. subst rest. by apply (utf8_not_stuck lossy c (encode8 cs2)).
    - destruct (c <? 65536); lia.
    - rewrite encode8_cons in E. apply utf8_prefix_free in E as [-> _]; [|done..]. destruct (Z.ltb_spec c 65536); lia. }
  rewrite app_nil_r in *. apply app_eq_nil in E as [-> ->]. exists ch'.
  split_and!; [do 3 f_equal; cbn [length]; lia|done|done|].
  intros Hne. destruct (Hs Hne) as (_ & _ & room & ->). by rewrite take_app_length.
Qed.

Lemma stored8_empty max characters : 0 <= max <= Z.of_nat (length characters) -> stored8 max characters [].
Proof. intros Hm _. cbn [length]. split_and!; [lia|lia|by exists characters]. Qed.

(** C12: [__CFFromUTF8] and [__CFFromUTF8Len] on any bytes, with flags that ask for
    neither decomposition nor lenient conversion, with or without loss: the bytes consumed are the UTF-8 forms of the characters
    stored, an ill-formed byte giving U+FFFD when loss is allowed or the byte is
    0xA9; the conversion stops at the end, at a truncated or at another
    ill-formed sequence, when the destination is full - or in the middle of a
    surrogate pair, and then the bytes of that character are consumed but its
    units are not stored.  The predicted length is that of the complete
    decoding. *)
Theorem __CFFromUTF8_decodes T D junk flags bytes characters maxCharLen :
  plain_flags flags -> Forall is_byte bytes -> 0 <= maxCharLen <= Z.of_nat (length characters) ->
  let lossy := has_flag flags kCFStringEncodingAllowLossyConversion in
  (exists cs lost rest characters',
     decoded lossy bytes cs (lost ++ rest) /\
     __CFFromUTF8 T D junk flags bytes (Z.of_nat (length bytes)) characters maxCharLen =
       Some (Z.of_nat (length bytes) - Z.of_nat (length rest), characters', Z.of_nat (length (encode16 cs))) /\
     length characters' = length characters /\ (maxCharLen = 0 -> characters' = characters) /\
     (maxCharLen <> 0 -> Z.of_nat (length (encode16 cs)) <= maxCharLen /\ take (length (encode16 cs)) characters' = encode16 cs) /\
     ((lost = [] /\ (stuck lossy rest \/ (maxCharLen <> 0 /\ Z.of_nat (length (encode16 cs)) = maxCharLen))) \/
      (exists c, 0x10000 <= c /\ scalar c /\ lost = utf8 c /\ Z.of_nat (length (encode16 cs)) = maxCharLen - 1))) /\
  (exists cs rest, decoded lossy bytes cs rest /\ stuck lossy rest /\
     __CFFromUTF8Len T D junk flags bytes (Z.of_nat (length bytes)) = Some (Z.of_nat (length (encode16 cs)))).
Proof.
  intros Hfl Hb Hm lossy.
  assert (forall max, 0 <= max <= Z.of_nat (length characters) ->
    conversion lossy max 0 bytes characters [] (__CFFromUTF8 T D junk flags bytes (Z.of_nat (length bytes)) characters max)) as Hconv.
  { intros max Hmax. unfold __CFFromUTF8. rewrite Nat2Z.id.
    apply (from_utf8_loop_plain T D junk flags (length bytes) [] bytes characters [] 0 max); [done|done|done|by apply stored8_empty|done]. }
  split.
  - destruct (Hconv maxCharLen Hm) as (cs & lost & rest & ch' & Hd & E & Hl & H0 & Hs & He). cbn [app] in *.
    exists cs, lost, rest, ch'. split_and!; [done|by rewrite E|done|done| |].
    + intros Hne. destruct (Hs Hne) as (? & _ & room & ->). split; [done|]. by rewrite take_app_length.
    + destruct He as [He|(c & ? & ? & ? & _ & ?)]; [by left|right; by exists c].
  - destruct (Hconv 0 ltac:(lia)) as (cs & lost & rest & ch' & Hd & E & Hl & H0 & Hs & He). cbn [app] in *.
    destruct He as [[-> [Hst|[? _]]]|(c & _ & _ & _ & ? & _)]; [|done|done]. exists cs, rest. split_and!; [done|done|].
    unfold __CFFromUTF8, __CFFromUTF8Len in *. rewrite Nat2Z.id in *.
    pose proof (from_utf8_len_loop_eq T D junk flags (length bytes) [] bytes 0 characters 0 Hb ltac:(left; apply Hfl)) as El.
    cbn [app length] in El. change (Z.of_nat 0) with 0 in El. rewrite E in El. exact El.
Qed.

(** Tables for a converter that never decomposes. *)
Definition no_tables : unichar_tables := {| __CFUniCharBitmapDataArray := []; __CFUniCharUnicodePropertyTable := None |}.
Definition no_decompositions : decomposition_tables := {|
  __CFUniCharDecompositionTable := []; __CFUniCharMultipleDecompositionTable := [];
  __CFUniCharDecomposableBitmapForBMP := None; __CFUniCharHFSPlusDecomposableBitmapForBMP := None;
  __CFUniCharCombiningPriorityTable := [] |}.

(** [A], a stray byte, [é] and U+1F600 into four units: the pair does not fit. *)
Lemma __CFFromUTF8_decodes_witness :
  __CFFromUTF8 no_tables no_decompositions 0 1 [0x41; 0x80; 0xC3; 0xA9; 0xF0; 0x9F; 0x98; 0x80] 8 [0; 0; 0; 0] 4 =
    Some (8, [0x41; 0xFFFD; 0xE9; 0], 3) /\
  exists cs rest, decoded true [0x41; 0x80; 0xC3; 0xA9; 0xF0; 0x9F; 0x98; 0x80] cs rest /\ stuck true rest /\
    __CFFromUTF8Len no_tables no_decompositions 0 1 [0x41; 0x80; 0xC3; 0xA9; 0xF0; 0x9F; 0x98; 0x80] 8 =
      Some (Z.of_nat (length (encode16 cs))).
Proof.
  split; [vm_compute; reflexivity|].
  apply (__CFFromUTF8_decodes no_tables no_decompositions 0 1 [0x41; 0x80; 0xC3; 0xA9; 0xF0; 0x9F; 0x98; 0x80] [0; 0; 0; 0] 4).
  - vm_compute. done.
  - repeat constructor; unfold is_byte; lia.
  - simpl. lia.
Defined.

(** A character whose surrogate pair does not fit is lost: its bytes count as
    consumed. *)
Lemma __CFFromUTF8_loses_pair T D junk u :
  __CFFromUTF8 T D junk 0 [0xF0; 0x9F; 0x98; 0x80] 4 [u] 1 = Some (4, [u], 0).
Proof. reflexivity. Qed.

(** In a lenient conversion the predicted length counts a character above
    U+10FFFF, at which the conversion stops. *)
Lemma __CFFromUTF8Len_lenient T D junk :
  __CFFromUTF8Len T D junk kCFStringEncodingLenientUTF8Conversion [0xF4; 0x90; 0x80; 0x80; 0x41] 5 = Some 2 /\
  __CFFromUTF8 T D junk kCFStringEncodingLenientUTF8Conversion [0xF4; 0x90; 0x80; 0x80; 0x41] 5 [] 0 = Some (0, [], 0).
Proof. split; reflexivity. Qed.

(** C11: UTF-16 to UTF-8 and back.  On any text [__CFToUTF8] stores the UTF-8 form
    of the longest part that is well-formed and fits, and consumes just that
    part; it stops early only at a character that does not fit or at a surrogate
    without its partner.  [__CFFromUTF8] of what is stored gives the
    consumed text back, whatever flags but those for decomposition and leniency.
    On well-formed text [__CFToUTF8Len] is the length of the UTF-8 form, modulo
    2^32. *)
Theorem UTF8_round_trip T D junk flags flags' text bytes characters maxByteLen :
  has_flag flags kCFStringEncodingUseHFSPlusCanonical = false -> plain_flags flags' ->
  Forall (fun u => 0 <= u < 0x10000) text ->
  0 < maxByteLen < 2 ^ 32 -> maxByteLen <= Z.of_nat (length bytes) -> (0 < length text <= length characters)%nat ->
  exists cs1 cs2 tail bytes' characters',
    text = encode16 cs1 ++ encode16 cs2 ++ tail /\ (tail = [] \/ ill_formed16 tail) /\
    __CFToUTF8 flags text (Z.of_nat (length text)) bytes maxByteLen =
      Some (Z.of_nat (length (encode16 cs1)), bytes', Z.of_nat (length (encode8 cs1))) /\
    length bytes' = length bytes /\ take (length (encode8 cs1)) bytes' = encode8 cs1 /\
    match cs2 with [] => True | c :: _ => maxByteLen < Z.of_nat (length (encode8 cs1)) + Z.of_nat (length (utf8 c)) end /\
    (tail = [] -> __CFToUTF8Len flags text (Z.of_nat (length text)) = Some (uwrap 32 (Z.of_nat (length (encode8 (cs1 ++ cs2)))))) /\
    __CFFromUTF8 T D junk flags' (encode8 cs1) (Z.of_nat (length (encode8 cs1))) characters (Z.of_nat (length characters)) =
      Some (Z.of_nat (length (encode8 cs1)), characters', Z.of_nat (length (encode16 cs1))) /\
    take (length (encode16 cs1)) characters' = encode16 cs1.
Proof.
  intros Hhfs Hpl Hu Hm Hmb Hch. destruct (utf16_split text Hu) as (cs & tail & -> & Hcs & Ht).
  destruct (to_utf8_loop_ok cs tail (length (encode16 cs ++ tail)) [] bytes [] maxByteLen Hcs Ht ltac:(lia)
    (stored8_empty maxByteLen bytes ltac:(lia)) ltac:(lia)) as (cs1 & cs2 & bytes' & -> & E & Hl & _ & Hs & Hfull).
  cbn [app length] in *. change (Z.of_nat 0) with 0 in *. rewrite !Z.add_0_l in *.
  apply Forall_app in Hcs as [Hcs1 Hcs2]. rewrite encode_app, <- (assoc_L (++)) in *. rewrite !length_app in Hch.
  assert (Forall is_byte (encode8 cs1)) as Hb.
  { clear - Hcs1. induction Hcs1 as [|c l Hc Hl IH]; [constructor|]. rewrite encode8_cons. apply Forall_app. split; [|done].
    destruct (utf8_cons c) as (h & tl & Ec). by destruct (utf8_legal c h tl Hc Ec). }
  pose proof (from_utf8_loop_plain T D junk flags' (length (encode8 cs1)) [] (encode8 cs1) characters [] 0
    (Z.of_nat (length characters)) Hpl Hb ltac:(lia) (stored8_empty (Z.of_nat (length characters)) characters ltac:(lia)) ltac:(done)) as Hconv.
  cbn [app length] in Hconv. change (Z.of_nat 0) with 0 in Hconv.
  destruct (conversion_encode8 _ (Z.of_nat (length characters)) cs1 _ _ Hcs1 ltac:(right; lia) Hconv) as (ch' & E' & _ & _ & Htake).
  exists cs1, cs2, tail, bytes', ch'. split_and!; [done|done| |done| | | | |].
  - unfold __CFToUTF8. rewrite Hhfs, Nat2Z.id. exact E.
  - destruct (Hs ltac:(lia)) as (_ & _ & room & ->). by rewrite take_app_length.
  - destruct cs2 as [|c cs2]; [done|]. specialize (Hfull c cs2 eq_refl). lia.
  - intros ->. rewrite app_nil_r, <- encode_app. unfold __CFToUTF8Len. rewrite Nat2Z.id.
    apply (to_utf8_len_loop_ok (cs1 ++ cs2) _ [] 0); [by apply Forall_app|lia].
  - unfold __CFFromUTF8. rewrite Nat2Z.id. exact E'.
  - apply Htake. lia.
Qed.

Lemma UTF8_round_trip_witness :
  exists cs1 cs2 tail bytes' characters',
    [0x41; 0xE9; 0xD83D; 0xDE00; 0xD83D] = encode16 cs1 ++ encode16 cs2 ++ tail /\ (tail = [] \/ ill_formed16 tail) /\
    __CFToUTF8 0 [0x41; 0xE9; 0xD83D; 0xDE00; 0xD83D] 5 [0; 0; 0; 0; 0; 0; 0; 0] 8 =
      Some (Z.of_nat (length (encode16 cs1)), bytes', Z.of_nat (length (encode8 cs1))) /\
    length bytes' = 8%nat /\ take (length (encode8 cs1)) bytes' = encode8 cs1 /\
    match cs2 with [] => True | c :: _ => 8 < Z.of_nat (length (encode8 cs1)) + Z.of_nat (length (utf8 c)) end /\
    (tail = [] -> __CFToUTF8Len 0 [0x41; 0xE9; 0xD83D; 0xDE00; 0xD83D] 5 = Some (uwrap 32 (Z.of_nat (length (encode8 (cs1 ++ cs2)))))) /\
    __CFFromUTF8 no_tables no_decompositions 0 0 (encode8 cs1) (Z.of_nat (length (encode8 cs1))) [0; 0; 0; 0; 0] 5 =
      Some (Z.of_nat (length (encode8 cs1)), characters', Z.of_nat (length (encode16 cs1))) /\
    take (length (encode16 cs1)) characters' = encode16 cs1.
Proof.
  apply (UTF8_round_trip no_tables no_decompositions 0 0 0 [0x41; 0xE9; 0xD83D; 0xDE00; 0xD83D] [0; 0; 0; 0; 0; 0; 0; 0] [0; 0; 0; 0; 0] 8).
  - reflexivity.
  - vm_compute. done.
  - repeat constructor; lia.
  - lia.
  - simpl. lia.
  - simpl. lia.
Defined.
