(* ===== verification/CFUnicodePrecomposition.v ===== *)
(** * CFUnicodePrecomposition: composing characters

    CFUnicodePrecomposition.c: the tables of canonical compositions, the
    composition of two characters and of a text, over the tables CoreFoundation
    ships, and the proof that what composes decomposes to the same characters.
    Places in [precomposed] are indexes into its block. *)

From S2P Require Import Prelude CFInternal CFUniChar CFUnicodeDecomposition CFUnicodeDecomposeText CFUnicodeData.
From stdpp Require Import base list numbers option.
From Stdlib Require Import ZArith Lia.
Open Scope Z_scope.
Open Scope cf_scope.

Definition kCFUniCharNonBmpFlag : Z := Z.shiftl 1 31.

(** ** The tables *)

(** An entry of the table of combining characters, or of bases. *)
Record __CFUniCharPrecomposeMappings : Type := { p_key : Z; p_value : Z }.

(** [__CFUniCharPrecompSourceTable], [__CFUniCharBMPPrecompDestinationTable] as an
    array of [__CFUniCharPrecomposeBMPMappings] (two 16-bit halves of a word),
    [__CFUniCharNonBMPPrecompDestinationTable] as words, and the bitmap and the
    classes of plane 0. *)
Record precomposition_tables : Type := {
  __CFUniCharPrecompSourceTable : list __CFUniCharPrecomposeMappings;
  __CFUniCharBMPPrecompDestinationTable : list __CFUniCharPrecomposeMappings;
  __CFUniCharNonBMPPrecompDestinationTable : list Z;
  __CFUniCharNonBaseBitmapForBMP_P : option (list Z);
  __CFUniCharCombiningClassForBMP : option (list Z)
}.

(** Pairs of words, and words as pairs of halves (the first in the low one). *)
Fixpoint word_pairs (words : list Z) : list __CFUniCharPrecomposeMappings :=
  match words with
  | k :: v :: r => {| p_key := k; p_value := v |} :: word_pairs r
  | _ => []
  end.

Definition halves (w : Z) : __CFUniCharPrecomposeMappings :=
  {| p_key := Z.land w 0xFFFF; p_value := Z.shiftr w 16 |}.

(** [None] inside: the data is not there, and the tables stay NULL. *)
Definition __CFUniCharLoadPrecompositionTable (T : unichar_tables) (mapping : option (list Z))
    : option (option precomposition_tables) :=
  match mapping with
  | None => Some None
  | Some bytes =>
      let* tableLength := rd bytes 0 in
      let* bmpMappingLength := rd bytes 1 in
      let words := drop 2 bytes in
      let n := Z.to_nat (tableLength * 2) in
      let bmp := Z.to_nat (bmpMappingLength / 4) in
      let* nonBase := CFUniCharGetBitmapPtrForPlane T kCFUniCharNonBaseCharacterSet 0 in
      let* classes := CFUniCharGetUnicodePropertyDataForPlane T kCFUniCharCombiningProperty 0 in
      if (length words <? n + bmp)%nat then None
      else
        Some (Some {|
          __CFUniCharPrecompSourceTable := word_pairs (take n words);
          __CFUniCharBMPPrecompDestinationTable := map halves (take bmp (drop n words));
          __CFUniCharNonBMPPrecompDestinationTable := drop (n + bmp) words;
          __CFUniCharNonBaseBitmapForBMP_P := nonBase;
          __CFUniCharCombiningClassForBMP := classes |})
  end.

(** ** Searching *)

(** [while (p <= q)] of a binary search in a table [theTable] of entries with the
    key [key]; the result is the entry, if there is one. *)
Fixpoint search_loop {A} (key : A -> Z) (fuel : nat) (theTable : list A) (p q character : Z) : option (option A) :=
  if p <=? q then
    match fuel with
    | O => None
    | S fuel =>
        let divider := p + Z.shiftr (q - p) 1 in
        let* d := rd theTable divider in
        if character <? key d then search_loop key fuel theTable p (divider - 1) character
        else if key d <? character then search_loop key fuel theTable (divider + 1) q character
        else Some (Some d)
    end
  else Some None.

Definition search_table {A} (key : A -> Z) (theTable : list A) (numElem character : Z) : option (option A) :=
  let* first := rd theTable 0 in
  let* out := (if character <? key first then Some true
               else let* last := rd theTable (numElem - 1) in Some (key last <? character)) in
  if (out : bool) then Some None
  else search_loop key (length theTable) theTable 0 (numElem - 1) character.

(** The value of the entry, 0 without one; the character is a [UTF16Char]. *)
Definition __CFUniCharGetMappedBMPValue (theTable : list __CFUniCharPrecomposeMappings) (numElem character : Z) : option Z :=
  let* found := search_table p_key theTable numElem (uwrap 16 character) in
  Some (from_option p_value 0 found).

Definition __CFUniCharGetMappedValue_P (theTable : list __CFUniCharPrecomposeMappings) (numElem character : Z) : option Z :=
  let* found := search_table p_key theTable numElem character in
  Some (from_option p_value 0 found).

Section Precomposition.
Context (T : unichar_tables) (P : precomposition_tables).

Definition __CFUniCharIsNonBaseCharacter_P (character : Z) : option bool :=
  let* bitmap :=
    (if character <? 0x10000 then Some (__CFUniCharNonBaseBitmapForBMP_P P)
     else CFUniCharGetBitmapPtrForPlane T kCFUniCharNonBaseCharacterSet (Z.land (Z.shiftr character 16) 0xFF)) in
  CFUniCharIsMemberOfBitmap character bitmap.

Definition CFUniCharPrecomposeCharacter (base combining : Z) : option Z :=
  let table := __CFUniCharPrecompSourceTable P in
  let* value := __CFUniCharGetMappedValue_P table (Z.of_nat (length table)) combining in
  if value =? 0 then Some 0xFFFD
  else
    let first := Z.to_nat (Z.land value 0xFFFF) in
    let* value :=
      (if negb (Z.land value kCFUniCharNonBmpFlag =? 0) then
         __CFUniCharGetMappedValue_P (word_pairs (drop first (__CFUniCharNonBMPPrecompDestinationTable P)))
           (Z.land (Z.shiftr value 16) 0x7FFF) base
       else
         __CFUniCharGetMappedBMPValue (drop first (__CFUniCharBMPPrecompDestinationTable P)) (Z.shiftr value 16) base) in
    Some (if negb (value =? 0) then value else 0xFFFD).

(** ** Composing text *)

(** The locals of CFUniCharPrecompose: the place in [characters] and the
    [length] left, [lastChar], [lastClass], [precomposedChar], [usedLength], the
    places [currentBase] and [precomposed] in the destination, and
    [currentBaseIsBMP]. *)
Record precompose_locals : Type := {
  c_src : Z;
  c_length : Z;
  c_current : Z;
  c_last : Z;
  c_class : Z;
  c_composed : Z;
  c_used : Z;
  c_base : Z;
  c_bmp : bool;
  c_dst : list Z;
  c_at : Z
}.

Section ComposeText.
Context (text : list Z) (maxLength : Z).

(** [currentChar] goes to [precomposed]; [false] is the [break]. *)
Definition append_char (currentChar : Z) (l : precompose_locals) : option (bool * precompose_locals) :=
  let units := if 0xFFFF <? currentChar then 2 else 1 in
  let used := c_used l + units in
  let set dst at_ :=
    {| c_src := c_src l; c_length := c_length l; c_current := currentChar; c_last := c_last l; c_class := c_class l;
       c_composed := c_composed l; c_used := used; c_base := c_base l; c_bmp := c_bmp l; c_dst := dst; c_at := at_ |} in
  if maxLength <? used then Some (false, set (c_dst l) (c_at l))
  else if 0xFFFF <? currentChar then
    let c := currentChar - 0x10000 in
    let* dst := wr (c_dst l) (c_at l) (uwrap 16 (Z.shiftr c 10 + 0xD800)) in
    let* dst := wr dst (c_at l + 1) (uwrap 16 (Z.land c 0x3FF + 0xDC00)) in
    Some (true, {| c_src := c_src l; c_length := c_length l; c_current := c; c_last := c_last l; c_class := c_class l;
       c_composed := c_composed l; c_used := used; c_base := c_base l; c_bmp := c_bmp l; c_dst := dst; c_at := c_at l + 2 |})
  else let* dst := wr (c_dst l) (c_at l) (uwrap 16 currentChar) in Some (true, set dst (c_at l + 1)).

(** The branch of a character that may combine with the last base. *)
Definition compose_combining (currentChar : Z) (l : precompose_locals) : option (bool * precompose_locals) :=
  let isPrecomposed := negb (c_composed l =? 0xFFFD) in
  let lastChar := if isPrecomposed then c_composed l else c_last l in
  let* currentClass :=
    (if 0xFFFF <? currentChar then CFUniCharGetUnicodeProperty T currentChar kCFUniCharCombiningProperty
     else CFUniCharGetCombiningPropertyForCharacter currentChar (__CFUniCharCombiningClassForBMP P)) in
  let set lastClass composed :=
    {| c_src := c_src l; c_length := c_length l; c_current := currentChar; c_last := lastChar; c_class := lastClass;
       c_composed := composed; c_used := c_used l; c_base := c_base l; c_bmp := c_bmp l; c_dst := c_dst l; c_at := c_at l |} in
  if (c_class l =? 0) || (c_class l <? currentClass) then
    let* composed := CFUniCharPrecomposeCharacter lastChar currentChar in
    if composed =? 0xFFFD then
      append_char currentChar (set currentClass (if isPrecomposed then lastChar else composed))
    else Some (true, set (c_class l) composed)
  else append_char currentChar (set (c_class l) (c_composed l)).

(** A Hangul syllable from its letters: the character, where the next one is and
    how many are left. *)
Definition compose_hangul (currentChar src length : Z) : option (Z * Z * Z) :=
  if (HANGUL_LBASE <=? currentChar) && (currentChar <? HANGUL_LBASE + 0xFF) then
    let lIndex := swrap 8 (currentChar - HANGUL_LBASE) in
    if (0 <? length) && (0 <=? lIndex) && (lIndex <=? HANGUL_LCOUNT) then
      let* v := rd text src in
      let vIndex := swrap 16 (v - HANGUL_VBASE) in
      if (0 <=? vIndex) && (vIndex <=? HANGUL_VCOUNT) then
        let src := src + 1 in
        let length := length - 1 in
        let* (tIndex, src, length) :=
          (if 0 <? length then
             let* t := rd text src in
             let tIndex := swrap 16 (t - HANGUL_TBASE) in
             if (tIndex <? 0) || (HANGUL_TCOUNT <? tIndex) then Some (0, src, length) else Some (tIndex, src + 1, length - 1)
           else Some (0, src, length)) in
        Some ((lIndex * HANGUL_VCOUNT + vIndex) * HANGUL_TCOUNT + tIndex + HANGUL_SBASE, src, length)
      else Some (currentChar, src, length)
    else Some (currentChar, src, length)
  else Some (currentChar, src, length).

(** [while (convertedChars > limit) *(--dstP) = *(--convertedChars);] *)
Fixpoint __CFUniCharMoveBufferFromEnd0 (dst : list Z) (at_ : Z) (length : nat) (delta : Z) : option (list Z) :=
  match length with
  | O => Some dst
  | S n =>
      let* c := rd dst (at_ + Z.of_nat n) in
      let* dst := wr dst (at_ + Z.of_nat n + delta) c in
      __CFUniCharMoveBufferFromEnd0 dst at_ n delta
  end.

(** The composed character takes the place of its base: [bmp] tells whether it is
    stored in one unit.  Nothing inside is the overflow. *)
Definition store_composed (bmp : bool) (l : precompose_locals) : option (option (list Z) * Z) :=
  let base := c_base l in
  if bmp then
    let* (dst, used) :=
      (if 0xFFFF <? c_last l then
         let* dst := memmove (c_dst l) (base + 1) (c_dst l) (base + 2) (c_at l - (base + 2)) in Some (dst, c_used l - 1)
       else Some (c_dst l, c_used l)) in
    let* dst := wr dst base (uwrap 16 (c_composed l)) in
    Some (Some dst, used)
  else
    let used := if c_last l <? 0x10000 then c_used l + 1 else c_used l in
    if (c_last l <? 0x10000) && (maxLength <? used) then Some (None, used)
    else
      let* dst := (if c_last l <? 0x10000
                   then __CFUniCharMoveBufferFromEnd0 (c_dst l) (base + 1) (Z.to_nat (c_at l - (base + 1))) 1
                   else Some (c_dst l)) in
      let c := c_composed l - 0x10000 in
      let* dst := wr dst base (uwrap 16 (Z.shiftr c 10 + 0xD800)) in
      let* dst := wr dst (base + 1) (uwrap 16 (Z.land c 0x3FF + 0xDC00)) in
      Some (Some dst, used).

(** The branch of every other character. *)
Definition compose_base (currentChar : Z) (l : precompose_locals) : option (bool * precompose_locals) :=
  let* (currentChar, src, length) := compose_hangul currentChar (c_src l) (c_length l) in
  let* (stored, used) :=
    (if negb (c_composed l =? 0xFFFD) then store_composed (c_bmp l) l else Some (Some (c_dst l), c_used l)) in
  match stored with
  | None =>
      Some (false, {| c_src := src; c_length := length; c_current := currentChar; c_last := c_last l; c_class := c_class l;
                      c_composed := c_composed l; c_used := used; c_base := c_base l; c_bmp := c_bmp l;
                      c_dst := c_dst l; c_at := c_at l |})
  | Some dst =>
      let* (ok, l') :=
        append_char currentChar
          {| c_src := src; c_length := length; c_current := currentChar; c_last := currentChar; c_class := 0;
             c_composed := 0xFFFD; c_used := used; c_base := c_at l; c_bmp := c_bmp l; c_dst := dst; c_at := c_at l |} in
      Some (ok, {| c_src := c_src l'; c_length := c_length l'; c_current := c_current l'; c_last := c_last l';
                   c_class := c_class l'; c_composed := c_composed l'; c_used := c_used l'; c_base := c_base l';
                   c_bmp := if (ok : bool) then negb (0xFFFF <? currentChar) else c_bmp l'; c_dst := c_dst l'; c_at := c_at l' |})
  end.

Definition precompose_step (l : precompose_locals) : option (bool * precompose_locals) :=
  let* unit := rd text (c_src l) in
  let src := c_src l + 1 in
  let length := c_length l - 1 in
  let* (currentChar, src, length) :=
    (if CFUniCharIsSurrogateHighCharacter unit && (0 <? length) then
       let* low := rd text src in
       Some (if CFUniCharIsSurrogateLowCharacter low
             then (CFUniCharGetLongCharacterForSurrogatePair unit low, src + 1, length - 1) else (unit, src, length))
     else Some (unit, src, length)) in
  let l := {| c_src := src; c_length := length; c_current := currentChar; c_last := c_last l; c_class := c_class l;
              c_composed := c_composed l; c_used := c_used l; c_base := c_base l; c_bmp := c_bmp l;
              c_dst := c_dst l; c_at := c_at l |} in
  let* combines := (if negb (c_last l =? 0) then __CFUniCharIsNonBaseCharacter_P currentChar else Some false) in
  if (combines : bool) then compose_combining currentChar l else compose_base currentChar l.

(** [while (length > 0)] *)
Fixpoint precompose_loop (fuel : nat) (l : precompose_locals) : option precompose_locals :=
  if 0 <? c_length l then
    match fuel with
    | O => None
    | S fuel =>
        let* (continue, l) := precompose_step l in
        if (continue : bool) then precompose_loop fuel l else Some l
    end
  else Some l.

(** The result, [*consumedLength], what [precomposed] points at and
    [*filledLength]; the last composed character is stored as the size of
    [currentChar] tells. *)
Definition CFUniCharPrecompose (length : Z) (precomposed : list Z) : option (bool * Z * list Z * Z) :=
  let* l := precompose_loop (Z.to_nat length)
      {| c_src := 0; c_length := length; c_current := 0; c_last := 0; c_class := 0; c_composed := 0xFFFD; c_used := 0;
         c_base := 0; c_bmp := true; c_dst := precomposed; c_at := 0 |} in
  if negb (c_composed l =? 0xFFFD) then
    let* (stored, used) := store_composed (negb (0xFFFF <? c_current l)) l in
    Some (if stored then true else false, length - c_length l, default (c_dst l) stored, used)
  else Some (true, length - c_length l, c_dst l, c_used l).

End ComposeText.
End Precomposition.

(** ** The data

    CFUnicodeData-L.mapping, the table of canonical compositions, word by word:
    the number of combining characters, the size of the table for plane 0 in
    bytes, the combining characters with the bases they combine with, the
    bases and results of plane 0 (two to a word) and of the other planes. *)
Definition canonical_precomp_mapping : list Z :=
  [0x3e; 0xe80; 0x300; 0x540000; 0x301; 0x750054; 0x302; 0x2000c9; 0x303; 0x1c00e9; 0x304; 0x2c0105; 0x306;
   0x200131; 0x307; 0x2e0151; 0x308; 0x36017f; 0x309; 0x1801b5; 0x30a; 0x601cd; 0x30b; 0x601d3; 0x30c; 0x2501d9;
   0x30f; 0xe01fe; 0x311; 0xc020c; 0x313; 0xe0218; 0x314; 0x100226; 0x31b; 0x40236; 0x323; 0x2a023a; 0x324;
   0x20264; 0x325; 0x20266; 0x326; 0x40268; 0x327; 0x16026c; 0x328; 0xa0282; 0x32d; 0xc028c; 0x32e; 0x20298;
   0x330; 0x6029a; 0x331; 0x1102a0; 0x338; 0x2c02b1; 0x342; 0x1d02dd; 0x345; 0x3f02fa; 0x653; 0x10339; 0x654;
   0x6033a; 0x655; 0x10340; 0x93c; 0x30341; 0x9be; 0x10344; 0x9d7; 0x10345; 0xb3e; 0x10346; 0xb56; 0x10347;
   0xb57; 0x10348; 0xbbe; 0x20349; 0xbd7; 0x2034b; 0xc56; 0x1034d; 0xcc2; 0x1034e; 0xcd5; 0x3034f; 0xcd6;
   0x10352; 0xd3e; 0x20353; 0xd57; 0x10355; 0xdca; 0x20356; 0xdcf; 0x10358; 0xddf; 0x10359; 0x102e; 0x1035a;
   0x1b35; 0xb035b; 0x3099; 0x300366; 0x309a; 0xa0396; 0x110ba; 0x80030000; 0x11127; 0x80020006; 0x1133e;
   0x8001000a; 0x11357; 0x8001000c; 0x114b0; 0x8001000e; 0x114ba; 0x80010010; 0x114bd; 0x80010012; 0x115af;
   0x80020014; 0xc00041; 0xc80045; 0xcc0049; 0x1f8004e; 0xd2004f; 0xd90055; 0x1e800057; 0x1ef20059; 0xe00061;
   0xe80065; 0xec0069; 0x1f9006e; 0xf2006f; 0xf90075; 0x1e810077; 0x1ef30079; 0x1fed00a8; 0x1ea600c2;
   0x1ec000ca; 0x1ed200d4; 0x1db00dc; 0x1ea700e2; 0x1ec100ea; 0x1ed300f4; 0x1dc00fc; 0x1eb00102; 0x1eb10103;
   0x1e140112; 0x1e150113; 0x1e50014c; 0x1e51014d; 0x1edc01a0; 0x1edd01a1; 0x1eea01af; 0x1eeb01b0; 0x1fba0391;
   0x1fc80395; 0x1fca0397; 0x1fda0399; 0x1ff8039f; 0x1fea03a5; 0x1ffa03a9; 0x1f7003b1; 0x1f7203b5; 0x1f7403b7;
   0x1f7603b9; 0x1f7803bf; 0x1f7a03c5; 0x1f7c03c9; 0x1fd203ca; 0x1fe203cb; 0x4000415; 0x40d0418; 0x4500435;
   0x45d0438; 0x1f021f00; 0x1f031f01; 0x1f0a1f08; 0x1f0b1f09; 0x1f121f10; 0x1f131f11; 0x1f1a1f18; 0x1f1b1f19;
   0x1f221f20; 0x1f231f21; 0x1f2a1f28; 0x1f2b1f29; 0x1f321f30; 0x1f331f31; 0x1f3a1f38; 0x1f3b1f39; 0x1f421f40;
   0x1f431f41; 0x1f4a1f48; 0x1f4b1f49; 0x1f521f50; 0x1f531f51; 0x1f5b1f59; 0x1f621f60; 0x1f631f61; 0x1f6a1f68;
   0x1f6b1f69; 0x1fcd1fbf; 0x1fdd1ffe; 0xc10041; 0x1060043; 0xc90045; 0x1f40047; 0xcd0049; 0x1e30004b;
   0x139004c; 0x1e3e004d; 0x143004e; 0xd3004f; 0x1e540050; 0x1540052; 0x15a0053; 0xda0055; 0x1e820057; 0xdd0059;
   0x179005a; 0xe10061; 0x1070063; 0xe90065; 0x1f50067; 0xed0069; 0x1e31006b; 0x13a006c; 0x1e3f006d; 0x144006e;
   0xf3006f; 0x1e550070; 0x1550072; 0x15b0073; 0xfa0075; 0x1e830077; 0xfd0079; 0x17a007a; 0x38500a8; 0x1ea400c2;
   0x1fa00c5; 0x1fc00c6; 0x1e0800c7; 0x1ebe00ca; 0x1e2e00cf; 0x1ed000d4; 0x1e4c00d5; 0x1fe00d8; 0x1d700dc;
   0x1ea500e2; 0x1fb00e5; 0x1fd00e6; 0x1e0900e7; 0x1ebf00ea; 0x1e2f00ef; 0x1ed100f4; 0x1e4d00f5; 0x1ff00f8;
   0x1d800fc; 0x1eae0102; 0x1eaf0103; 0x1e160112; 0x1e170113; 0x1e52014c; 0x1e53014d; 0x1e780168; 0x1e790169;
   0x1eda01a0; 0x1edb01a1; 0x1ee801af; 0x1ee901b0; 0x3860391; 0x3880395; 0x3890397; 0x38a0399; 0x38c039f;
   0x38e03a5; 0x38f03a9; 0x3ac03b1; 0x3ad03b5; 0x3ae03b7; 0x3af03b9; 0x3cc03bf; 0x3cd03c5; 0x3ce03c9; 0x39003ca;
   0x3b003cb; 0x3d303d2; 0x4030413; 0x40c041a; 0x4530433; 0x45c043a; 0x1f041f00; 0x1f051f01; 0x1f0c1f08;
   0x1f0d1f09; 0x1f141f10; 0x1f151f11; 0x1f1c1f18; 0x1f1d1f19; 0x1f241f20; 0x1f251f21; 0x1f2c1f28; 0x1f2d1f29;
   0x1f341f30; 0x1f351f31; 0x1f3c1f38; 0x1f3d1f39; 0x1f441f40; 0x1f451f41; 0x1f4c1f48; 0x1f4d1f49; 0x1f541f50;
   0x1f551f51; 0x1f5d1f59; 0x1f641f60; 0x1f651f61; 0x1f6c1f68; 0x1f6d1f69; 0x1fce1fbf; 0x1fde1ffe; 0xc20041;
   0x1080043; 0xca0045; 0x11c0047; 0x1240048; 0xce0049; 0x134004a; 0xd4004f; 0x15c0053; 0xdb0055; 0x1740057;
   0x1760059; 0x1e90005a; 0xe20061; 0x1090063; 0xea0065; 0x11d0067; 0x1250068; 0xee0069; 0x135006a; 0xf4006f;
   0x15d0073; 0xfb0075; 0x1750077; 0x1770079; 0x1e91007a; 0x1eac1ea0; 0x1ead1ea1; 0x1ec61eb8; 0x1ec71eb9;
   0x1ed81ecc; 0x1ed91ecd; 0xc30041; 0x1ebc0045; 0x1280049; 0xd1004e; 0xd5004f; 0x1680055; 0x1e7c0056;
   0x1ef80059; 0xe30061; 0x1ebd0065; 0x1290069; 0xf1006e; 0xf5006f; 0x1690075; 0x1e7d0076; 0x1ef90079;
   0x1eaa00c2; 0x1ec400ca; 0x1ed600d4; 0x1eab00e2; 0x1ec500ea; 0x1ed700f4; 0x1eb40102; 0x1eb50103; 0x1ee001a0;
   0x1ee101a1; 0x1eee01af; 0x1eef01b0; 0x1000041; 0x1120045; 0x1e200047; 0x12a0049; 0x14c004f; 0x16a0055;
   0x2320059; 0x1010061; 0x1130065; 0x1e210067; 0x12b0069; 0x14d006f; 0x16b0075; 0x2330079; 0x1de00c4;
   0x1e200c6; 0x22c00d5; 0x22a00d6; 0x1d500dc; 0x1df00e4; 0x1e300e6; 0x22d00f5; 0x22b00f6; 0x1d600fc; 0x1ec01ea;
   0x1ed01eb; 0x1e00226; 0x1e10227; 0x230022e; 0x231022f; 0x1fb90391; 0x1fd90399; 0x1fe903a5; 0x1fb103b1;
   0x1fd103b9; 0x1fe103c5; 0x4e20418; 0x4ee0423; 0x4e30438; 0x4ef0443; 0x1e381e36; 0x1e391e37; 0x1e5c1e5a;
   0x1e5d1e5b; 0x1020041; 0x1140045; 0x11e0047; 0x12c0049; 0x14e004f; 0x16c0055; 0x1030061; 0x1150065;
   0x11f0067; 0x12d0069; 0x14f006f; 0x16d0075; 0x1e1c0228; 0x1e1d0229; 0x1fb80391; 0x1fd80399; 0x1fe803a5;
   0x1fb003b1; 0x1fd003b9; 0x1fe003c5; 0x4d00410; 0x4d60415; 0x4c10416; 0x4190418; 0x40e0423; 0x4d10430;
   0x4d70435; 0x4c20436; 0x4390438; 0x45e0443; 0x1eb61ea0; 0x1eb71ea1; 0x2260041; 0x1e020042; 0x10a0043;
   0x1e0a0044; 0x1160045; 0x1e1e0046; 0x1200047; 0x1e220048; 0x1300049; 0x1e40004d; 0x1e44004e; 0x22e004f;
   0x1e560050; 0x1e580052; 0x1e600053; 0x1e6a0054; 0x1e860057; 0x1e8a0058; 0x1e8e0059; 0x17b005a; 0x2270061;
   0x1e030062; 0x10b0063; 0x1e0b0064; 0x1170065; 0x1e1f0066; 0x1210067; 0x1e230068; 0x1e41006d; 0x1e45006e;
   0x22f006f; 0x1e570070; 0x1e590072; 0x1e610073; 0x1e6b0074; 0x1e870077; 0x1e8b0078; 0x1e8f0079; 0x17c007a;
   0x1e64015a; 0x1e65015b; 0x1e660160; 0x1e670161; 0x1e9b017f; 0x1e681e62; 0x1e691e63; 0xc40041; 0xcb0045;
   0x1e260048; 0xcf0049; 0xd6004f; 0xdc0055; 0x1e840057; 0x1e8c0058; 0x1780059; 0xe40061; 0xeb0065; 0x1e270068;
   0xef0069; 0xf6006f; 0x1e970074; 0xfc0075; 0x1e850077; 0x1e8d0078; 0xff0079; 0x1e4e00d5; 0x1e4f00f5;
   0x1e7a016a; 0x1e7b016b; 0x3aa0399; 0x3ab03a5; 0x3ca03b9; 0x3cb03c5; 0x3d403d2; 0x4070406; 0x4d20410;
   0x4010415; 0x4dc0416; 0x4de0417; 0x4e40418; 0x4e6041e; 0x4f00423; 0x4f40427; 0x4f8042b; 0x4ec042d; 0x4d30430;
   0x4510435; 0x4dd0436; 0x4df0437; 0x4e50438; 0x4e7043e; 0x4f10443; 0x4f50447; 0x4f9044b; 0x4ed044d; 0x4570456;
   0x4da04d8; 0x4db04d9; 0x4ea04e8; 0x4eb04e9; 0x1ea20041; 0x1eba0045; 0x1ec80049; 0x1ece004f; 0x1ee60055;
   0x1ef60059; 0x1ea30061; 0x1ebb0065; 0x1ec90069; 0x1ecf006f; 0x1ee70075; 0x1ef70079; 0x1ea800c2; 0x1ec200ca;
   0x1ed400d4; 0x1ea900e2; 0x1ec300ea; 0x1ed500f4; 0x1eb20102; 0x1eb30103; 0x1ede01a0; 0x1edf01a1; 0x1eec01af;
   0x1eed01b0; 0xc50041; 0x16e0055; 0xe50061; 0x16f0075; 0x1e980077; 0x1e990079; 0x150004f; 0x1700055;
   0x151006f; 0x1710075; 0x4f20423; 0x4f30443; 0x1cd0041; 0x10c0043; 0x10e0044; 0x11a0045; 0x1e60047; 0x21e0048;
   0x1cf0049; 0x1e8004b; 0x13d004c; 0x147004e; 0x1d1004f; 0x1580052; 0x1600053; 0x1640054; 0x1d30055; 0x17d005a;
   0x1ce0061; 0x10d0063; 0x10f0064; 0x11b0065; 0x1e70067; 0x21f0068; 0x1d00069; 0x1f0006a; 0x1e9006b; 0x13e006c;
   0x148006e; 0x1d2006f; 0x1590072; 0x1610073; 0x1650074; 0x1d40075; 0x17e007a; 0x1d900dc; 0x1da00fc; 0x1ee01b7;
   0x1ef0292; 0x2000041; 0x2040045; 0x2080049; 0x20c004f; 0x2100052; 0x2140055; 0x2010061; 0x2050065; 0x2090069;
   0x20d006f; 0x2110072; 0x2150075; 0x4760474; 0x4770475; 0x2020041; 0x2060045; 0x20a0049; 0x20e004f; 0x2120052;
   0x2160055; 0x2030061; 0x2070065; 0x20b0069; 0x20f006f; 0x2130072; 0x2170075; 0x1f080391; 0x1f180395;
   0x1f280397; 0x1f380399; 0x1f48039f; 0x1f6803a9; 0x1f0003b1; 0x1f1003b5; 0x1f2003b7; 0x1f3003b9; 0x1f4003bf;
   0x1fe403c1; 0x1f5003c5; 0x1f6003c9; 0x1f090391; 0x1f190395; 0x1f290397; 0x1f390399; 0x1f49039f; 0x1fec03a1;
   0x1f5903a5; 0x1f6903a9; 0x1f0103b1; 0x1f1103b5; 0x1f2103b7; 0x1f3103b9; 0x1f4103bf; 0x1fe503c1; 0x1f5103c5;
   0x1f6103c9; 0x1a0004f; 0x1af0055; 0x1a1006f; 0x1b00075; 0x1ea00041; 0x1e040042; 0x1e0c0044; 0x1eb80045;
   0x1e240048; 0x1eca0049; 0x1e32004b; 0x1e36004c; 0x1e42004d; 0x1e46004e; 0x1ecc004f; 0x1e5a0052; 0x1e620053;
   0x1e6c0054; 0x1ee40055; 0x1e7e0056; 0x1e880057; 0x1ef40059; 0x1e92005a; 0x1ea10061; 0x1e050062; 0x1e0d0064;
   0x1eb90065; 0x1e250068; 0x1ecb0069; 0x1e33006b; 0x1e37006c; 0x1e43006d; 0x1e47006e; 0x1ecd006f; 0x1e5b0072;
   0x1e630073; 0x1e6d0074; 0x1ee50075; 0x1e7f0076; 0x1e890077; 0x1ef50079; 0x1e93007a; 0x1ee201a0; 0x1ee301a1;
   0x1ef001af; 0x1ef101b0; 0x1e720055; 0x1e730075; 0x1e000041; 0x1e010061; 0x2180053; 0x21a0054; 0x2190073;
   0x21b0074; 0xc70043; 0x1e100044; 0x2280045; 0x1220047; 0x1e280048; 0x136004b; 0x13b004c; 0x145004e;
   0x1560052; 0x15e0053; 0x1620054; 0xe70063; 0x1e110064; 0x2290065; 0x1230067; 0x1e290068; 0x137006b;
   0x13c006c; 0x146006e; 0x1570072; 0x15f0073; 0x1630074; 0x1040041; 0x1180045; 0x12e0049; 0x1ea004f; 0x1720055;
   0x1050061; 0x1190065; 0x12f0069; 0x1eb006f; 0x1730075; 0x1e120044; 0x1e180045; 0x1e3c004c; 0x1e4a004e;
   0x1e700054; 0x1e760055; 0x1e130064; 0x1e190065; 0x1e3d006c; 0x1e4b006e; 0x1e710074; 0x1e770075; 0x1e2a0048;
   0x1e2b0068; 0x1e1a0045; 0x1e2c0049; 0x1e740055; 0x1e1b0065; 0x1e2d0069; 0x1e750075; 0x1e060042; 0x1e0e0044;
   0x1e34004b; 0x1e3a004c; 0x1e48004e; 0x1e5e0052; 0x1e6e0054; 0x1e94005a; 0x1e070062; 0x1e0f0064; 0x1e960068;
   0x1e35006b; 0x1e3b006c; 0x1e49006e; 0x1e5f0072; 0x1e6f0074; 0x1e95007a; 0x226e003c; 0x2260003d; 0x226f003e;
   0x219a2190; 0x219b2192; 0x21ae2194; 0x21cd21d0; 0x21cf21d2; 0x21ce21d4; 0x22042203; 0x22092208; 0x220c220b;
   0x22242223; 0x22262225; 0x2241223c; 0x22442243; 0x22472245; 0x22492248; 0x226d224d; 0x22622261; 0x22702264;
   0x22712265; 0x22742272; 0x22752273; 0x22782276; 0x22792277; 0x2280227a; 0x2281227b; 0x22e0227c; 0x22e1227d;
   0x22842282; 0x22852283; 0x22882286; 0x22892287; 0x22e22291; 0x22e32292; 0x22ac22a2; 0x22ad22a8; 0x22ae22a9;
   0x22af22ab; 0x22ea22b2; 0x22eb22b3; 0x22ec22b4; 0x22ed22b5; 0x1fc100a8; 0x1fb603b1; 0x1fc603b7; 0x1fd603b9;
   0x1fe603c5; 0x1ff603c9; 0x1fd703ca; 0x1fe703cb; 0x1f061f00; 0x1f071f01; 0x1f0e1f08; 0x1f0f1f09; 0x1f261f20;
   0x1f271f21; 0x1f2e1f28; 0x1f2f1f29; 0x1f361f30; 0x1f371f31; 0x1f3e1f38; 0x1f3f1f39; 0x1f561f50; 0x1f571f51;
   0x1f5f1f59; 0x1f661f60; 0x1f671f61; 0x1f6e1f68; 0x1f6f1f69; 0x1fcf1fbf; 0x1fdf1ffe; 0x1fbc0391; 0x1fcc0397;
   0x1ffc03a9; 0x1fb403ac; 0x1fc403ae; 0x1fb303b1; 0x1fc303b7; 0x1ff303c9; 0x1ff403ce; 0x1f801f00; 0x1f811f01;
   0x1f821f02; 0x1f831f03; 0x1f841f04; 0x1f851f05; 0x1f861f06; 0x1f871f07; 0x1f881f08; 0x1f891f09; 0x1f8a1f0a;
   0x1f8b1f0b; 0x1f8c1f0c; 0x1f8d1f0d; 0x1f8e1f0e; 0x1f8f1f0f; 0x1f901f20; 0x1f911f21; 0x1f921f22; 0x1f931f23;
   0x1f941f24; 0x1f951f25; 0x1f961f26; 0x1f971f27; 0x1f981f28; 0x1f991f29; 0x1f9a1f2a; 0x1f9b1f2b; 0x1f9c1f2c;
   0x1f9d1f2d; 0x1f9e1f2e; 0x1f9f1f2f; 0x1fa01f60; 0x1fa11f61; 0x1fa21f62; 0x1fa31f63; 0x1fa41f64; 0x1fa51f65;
   0x1fa61f66; 0x1fa71f67; 0x1fa81f68; 0x1fa91f69; 0x1faa1f6a; 0x1fab1f6b; 0x1fac1f6c; 0x1fad1f6d; 0x1fae1f6e;
   0x1faf1f6f; 0x1fb21f70; 0x1fc21f74; 0x1ff21f7c; 0x1fb71fb6; 0x1fc71fc6; 0x1ff71ff6; 0x6220627; 0x6230627;
   0x6240648; 0x626064a; 0x6c206c1; 0x6d306d2; 0x6c006d5; 0x6250627; 0x9290928; 0x9310930; 0x9340933; 0x9cb09c7;
   0x9cc09c7; 0xb4b0b47; 0xb480b47; 0xb4c0b47; 0xbca0bc6; 0xbcb0bc7; 0xb940b92; 0xbcc0bc6; 0xc480c46; 0xcca0cc6;
   0xcc00cbf; 0xcc70cc6; 0xccb0cca; 0xcc80cc6; 0xd4a0d46; 0xd4b0d47; 0xd4c0d46; 0xdda0dd9; 0xddd0ddc; 0xddc0dd9;
   0xdde0dd9; 0x10261025; 0x1b061b05; 0x1b081b07; 0x1b0a1b09; 0x1b0c1b0b; 0x1b0e1b0d; 0x1b121b11; 0x1b3b1b3a;
   0x1b3d1b3c; 0x1b401b3e; 0x1b411b3f; 0x1b431b42; 0x30943046; 0x304c304b; 0x304e304d; 0x3050304f; 0x30523051;
   0x30543053; 0x30563055; 0x30583057; 0x305a3059; 0x305c305b; 0x305e305d; 0x3060305f; 0x30623061; 0x30653064;
   0x30673066; 0x30693068; 0x3070306f; 0x30733072; 0x30763075; 0x30793078; 0x307c307b; 0x309e309d; 0x30f430a6;
   0x30ac30ab; 0x30ae30ad; 0x30b030af; 0x30b230b1; 0x30b430b3; 0x30b630b5; 0x30b830b7; 0x30ba30b9; 0x30bc30bb;
   0x30be30bd; 0x30c030bf; 0x30c230c1; 0x30c530c4; 0x30c730c6; 0x30c930c8; 0x30d030cf; 0x30d330d2; 0x30d630d5;
   0x30d930d8; 0x30dc30db; 0x30f730ef; 0x30f830f0; 0x30f930f1; 0x30fa30f2; 0x30fe30fd; 0x3071306f; 0x30743072;
   0x30773075; 0x307a3078; 0x307d307b; 0x30d130cf; 0x30d430d2; 0x30d730d5; 0x30da30d8; 0x30dd30db; 0x11099;
   0x1109a; 0x1109b; 0x1109c; 0x110a5; 0x110ab; 0x11131; 0x1112e; 0x11132; 0x1112f; 0x11347; 0x1134b; 0x11347;
   0x1134c; 0x114b9; 0x114bc; 0x114b9; 0x114bb; 0x114b9; 0x114be; 0x115b8; 0x115ba; 0x115b9; 0x115bb].

Definition shipped_precompositions : precomposition_tables := {|
  __CFUniCharPrecompSourceTable := word_pairs (take 124 (drop 2 canonical_precomp_mapping));
  __CFUniCharBMPPrecompDestinationTable := map halves (take 928 (drop 126 canonical_precomp_mapping));
  __CFUniCharNonBMPPrecompDestinationTable := drop 1054 canonical_precomp_mapping;
  __CFUniCharNonBaseBitmapForBMP_P := Some non_base_plane_0;
  __CFUniCharCombiningClassForBMP := Some combining_plane_0 |}.

(** The loader reads exactly these tables from the file. *)
Lemma shipped_precompositions_loaded :
  __CFUniCharLoadPrecompositionTable shipped_tables (Some canonical_precomp_mapping) = Some (Some shipped_precompositions).
Proof. vm_compute. reflexivity. Qed.

(** ** What the tables say *)

(** The bases a combining character combines with, and the results. *)
Definition bases (P : precomposition_tables) (value : Z) : list __CFUniCharPrecomposeMappings :=
  let first := Z.to_nat (Z.land value 0xFFFF) in
  if negb (Z.land value kCFUniCharNonBmpFlag =? 0) then
    take (Z.to_nat (Z.land (Z.shiftr value 16) 0x7FFF)) (word_pairs (drop first (__CFUniCharNonBMPPrecompDestinationTable P)))
  else take (Z.to_nat (Z.shiftr value 16)) (drop first (__CFUniCharBMPPrecompDestinationTable P)).

(** All compositions: base, combining character, result. *)
Definition compositions (P : precomposition_tables) : list (Z * Z * Z) :=
  flat_map (fun e => map (fun b => (p_key b, p_key e, p_value b)) (bases P (p_value e))) (__CFUniCharPrecompSourceTable P).

Definition canonical : Z -> list Z := full_decomposition shipped_tables shipped_decompositions false.

Definition composition_sound (t : Z * Z * Z) : bool :=
  let '(b, m, c) := t in bool_decide (canonical c = canonical b ++ [m]).

(** *** The binary search *)

Fixpoint increasing {A} (key : A -> Z) (l : list A) : bool :=
  match l with
  | e :: (e' :: _) as l' => (key e <? key e') && increasing key l'
  | _ => true
  end.

Lemma increasing_lookup {A} (key : A -> Z) l i j e e' :
  increasing key l = true -> l !! i = Some e -> l !! j = Some e' -> (i < j)%nat -> key e < key e'.
Proof.
  revert i j e. induction l as [|x [|y l] IH]; intros i j e Hs Hi Hj Hij; [done| |].
  { destruct j; [lia|done]. }
  cbn [increasing] in Hs. apply andb_true_iff in Hs as [Hxy Hs]. apply Z.ltb_lt in Hxy.
  destruct j as [|j]; [lia|]. destruct i as [|i]; [|by apply (IH i j); auto with lia].
  injection Hi as ->. destruct j as [|j]; [by injection Hj as ->|].
  assert (key y < key e') by (apply (IH 0%nat (S j)); auto with lia). lia.
Qed.

(** Whether an entry has the key: the answer of a search in [l]. *)
Definition answers {A} (key : A -> Z) (l : list A) (c : Z) (r : option A) : Prop :=
  match r with
  | Some d => In d l /\ key d = c
  | None => forall d, In d l -> key d <> c
  end.

Lemma search_loop_answers {A} (key : A -> Z) l rest fuel p q c :
  increasing key l = true -> 0 <= p -> q < Z.of_nat (length l) -> q - p + 1 <= Z.of_nat fuel ->
  (forall i d, l !! i = Some d -> key d = c -> p <= Z.of_nat i <= q) ->
  exists r, search_loop key fuel (l ++ rest) p q c = Some r /\ answers key l c r.
Proof.
  intros Hs. revert p q. induction fuel as [|fuel IH]; intros p q Hp Hq Hf Hin; cbn [search_loop]; destruct (Z.leb_spec p q); [lia| | |].
  1, 3: (exists None; split; [done|]; intros d Hd Hk; apply list_elem_of_In, list_elem_of_lookup in Hd as [i Hi];
    specialize (Hin i d Hi Hk); lia).
  rewrite Z.shiftr_div_pow2 by lia. change (2 ^ 1) with 2.
  assert (p <= p + (q - p) / 2 <= q) as Hd by (Z.to_euclidean_division_equations; lia).
  set (m := p + (q - p) / 2) in *. destruct (lookup_lt_is_Some_2 l (Z.to_nat m)) as [d Ed]; [lia|].
  rewrite rd_lookup by lia. rewrite lookup_app_l, Ed by lia. cbn [opt_bind].
  destruct (Z.ltb_spec c (key d)); [|destruct (Z.ltb_spec (key d) c)].
  - apply IH; [lia|lia|lia|]. intros i d' Hi Hk. pose proof (Hin i d' Hi Hk).
    destruct (decide (Z.to_nat m < i)%nat) as [Hlt|]; [pose proof (increasing_lookup key l _ _ _ _ Hs Ed Hi Hlt); lia|].
    destruct (decide (Z.to_nat m = i)) as [<-|]; [rewrite Hi in Ed; injection Ed as ->; lia|lia].
  - apply IH; [lia|lia|lia|]. intros i d' Hi Hk. pose proof (Hin i d' Hi Hk).
    destruct (decide (i < Z.to_nat m)%nat) as [Hlt|]; [pose proof (increasing_lookup key l _ _ _ _ Hs Hi Ed Hlt); lia|].
    destruct (decide (Z.to_nat m = i)) as [<-|]; [rewrite Hi in Ed; injection Ed as ->; lia|lia].
  - exists (Some d). split; [done|]. split; [|lia]. apply list_elem_of_In, list_elem_of_lookup. eauto.
Qed.

(** In a table whose keys increase the search answers. *)
Lemma search_table_answers {A} (key : A -> Z) l rest c :
  increasing key l = true -> l <> [] ->
  exists r, search_table key (l ++ rest) (Z.of_nat (length l)) c = Some r /\ answers key l c r.
Proof.
  intros Hs Hne. unfold search_table.
  assert (0 < length l)%nat as Hl by (destruct l; [done|simpl; lia]).
  destruct (lookup_lt_is_Some_2 l 0) as [a Ea]; [lia|].
  destruct (lookup_lt_is_Some_2 l (length l - 1)) as [z Ez]; [lia|].
  assert (rd (l ++ rest) 0 = Some a) as -> by (rewrite rd_lookup by lia; by rewrite lookup_app_l).
  assert (rd (l ++ rest) (Z.of_nat (length l) - 1) = Some z) as ->.
  { rewrite rd_lookup by lia. replace (Z.to_nat (Z.of_nat (length l) - 1)) with (length l - 1)%nat by lia. rewrite lookup_app_l by lia. done. }
  cbn [opt_bind].
  assert (forall d, In d l -> key a <= key d <= key z) as Hb.
  { intros d Hd. apply list_elem_of_In, list_elem_of_lookup in Hd as [i Hi]. pose proof (lookup_lt_Some _ _ _ Hi). split.
    - destruct i as [|i]; [rewrite Hi in Ea; injection Ea as ->; lia|]. pose proof (increasing_lookup key l 0 (S i) a d Hs Ea Hi). lia.
    - destruct (decide (i = length l - 1)%nat) as [->|]; [rewrite Hi in Ez; injection Ez as ->; lia|].
      pose proof (increasing_lookup key l i _ d z Hs Hi Ez). lia. }
  destruct (Z.ltb_spec c (key a)); cbn [opt_bind].
  { exists None. split; [done|]. intros d Hd <-. specialize (Hb d Hd). lia. }
  destruct (Z.ltb_spec (key z) c).
  { exists None. split; [done|]. intros d Hd <-. specialize (Hb d Hd). lia. }
  apply search_loop_answers; [done|lia|lia|rewrite length_app; lia|].
  intros i d Hi _. apply lookup_lt_Some in Hi. lia.
Qed.

(** *** The composition of two characters *)

Definition source_ok (P : precomposition_tables) (e : __CFUniCharPrecomposeMappings) : bool :=
  let value := p_value e in
  let count := if negb (Z.land value kCFUniCharNonBmpFlag =? 0) then Z.land (Z.shiftr value 16) 0x7FFF else Z.shiftr value 16 in
  Bool.eqb (p_key e <? 0x10000) (Z.land value kCFUniCharNonBmpFlag =? 0) && (0 <? count) &&
  (Z.of_nat (length (bases P value)) =? count) && increasing p_key (bases P value) &&
  forallb (fun b => negb (p_value b =? 0) && negb (p_value b =? 0xFFFD)) (bases P value).

Definition precompositions_ok (P : precomposition_tables) : bool :=
  increasing p_key (__CFUniCharPrecompSourceTable P) && forallb (source_ok P) (__CFUniCharPrecompSourceTable P).

Lemma shipped_precompositions_ok : precompositions_ok shipped_precompositions = true.
Proof. vm_compute. reflexivity. Qed.

Lemma compositions_sound : forallb composition_sound (compositions shipped_precompositions) = true.
Proof. vm_compute. reflexivity. Qed.

Lemma in_compositions P b m c :
  In (b, m, c) (compositions P) <->
  exists e d, In e (__CFUniCharPrecompSourceTable P) /\ p_key e = m /\ In d (bases P (p_value e)) /\ p_key d = b /\ p_value d = c.
Proof.
  unfold compositions. rewrite in_flat_map. split.
  - intros (e & He & Hm). apply in_map_iff in Hm as (d & [= <- <- <-] & Hd). eauto 8.
  - intros (e & d & He & <- & Hd & <- & <-). exists e. split; [done|]. apply in_map_iff. eauto.
Qed.

Lemma increasing_key_inj {A} (key : A -> Z) l d e : increasing key l = true -> In d l -> In e l -> key d = key e -> d = e.
Proof.
  intros Hs Hd He Hk. apply list_elem_of_In, list_elem_of_lookup in Hd as [i Hi]. apply list_elem_of_In, list_elem_of_lookup in He as [j Hj].
  destruct (lt_eq_lt_dec i j) as [[Hlt| ->]|Hlt]; [|congruence|].
  - pose proof (increasing_lookup key l i j d e Hs Hi Hj Hlt). lia.
  - pose proof (increasing_lookup key l j i e d Hs Hj Hi Hlt). lia.
Qed.

(** The search for the base among those of an entry. *)
Lemma base_search P e base :
  source_ok P e = true -> (p_key e < 0x10000 -> 0 <= base < 0x10000) ->
  let value := p_value e in let first := Z.to_nat (Z.land value 0xFFFF) in
  exists r,
    (if negb (Z.land value kCFUniCharNonBmpFlag =? 0) then
       __CFUniCharGetMappedValue_P (word_pairs (drop first (__CFUniCharNonBMPPrecompDestinationTable P)))
         (Z.land (Z.shiftr value 16) 0x7FFF) base
     else __CFUniCharGetMappedBMPValue (drop first (__CFUniCharBMPPrecompDestinationTable P)) (Z.shiftr value 16) base) =
      Some (from_option p_value 0 r) /\ answers p_key (bases P value) base r.
Proof.
  unfold source_ok. intros Hok Hb. repeat (apply andb_true_iff in Hok as [Hok ?H]). cbv zeta.
  apply Bool.eqb_prop in Hok. apply Z.ltb_lt in H2. apply Z.eqb_eq in H1.
  unfold bases, __CFUniCharGetMappedValue_P, __CFUniCharGetMappedBMPValue in *.
  destruct (negb (Z.land (p_value e) kCFUniCharNonBmpFlag =? 0)) eqn:E.
  - set (l := word_pairs _) in *. set (n := Z.land (Z.shiftr (p_value e) 16) 0x7FFF) in *.
    destruct (search_table_answers p_key (take (Z.to_nat n) l) (drop (Z.to_nat n) l) base) as (r & Er & Ha);
      [done|intros Hn; rewrite Hn in H1; simpl in H1; lia|].
    rewrite take_drop, H1 in Er. rewrite Er. eexists. split; [done|exact Ha].
  - apply negb_false_iff in E. rewrite E in Hok. apply Z.ltb_lt in Hok. rewrite uwrap_id by (unfold in_unsigned; specialize (Hb Hok); lia).
    set (l := drop _ _) in *. set (n := Z.shiftr (p_value e) 16) in *.
    destruct (search_table_answers p_key (take (Z.to_nat n) l) (drop (Z.to_nat n) l) base) as (r & Er & Ha);
      [done|intros Hn; rewrite Hn in H1; simpl in H1; lia|].
    rewrite take_drop, H1 in Er. rewrite Er. eexists. split; [done|exact Ha].
Qed.

(** The search finds the composition of the table, or U+FFFD without one. *)
Lemma PrecomposeCharacter_answers P base combining :
  precompositions_ok P = true -> __CFUniCharPrecompSourceTable P <> [] ->
  (combining < 0x10000 -> 0 <= base < 0x10000) ->
  exists r, CFUniCharPrecomposeCharacter P base combining = Some r /\
    (In (base, combining, r) (compositions P) \/ (r = 0xFFFD /\ forall c, ~ In (base, combining, c) (compositions P))).
Proof.
  intros Hok Hne Hb. apply andb_true_iff in Hok as [Hinc Hall]. rewrite forallb_forall in Hall.
  unfold CFUniCharPrecomposeCharacter, __CFUniCharGetMappedValue_P at 1.
  destruct (search_table_answers p_key (__CFUniCharPrecompSourceTable P) [] combining Hinc Hne) as (r & Er & Ha).
  rewrite app_nil_r in Er. rewrite Er. cbn [opt_bind].
  assert (r = None -> exists r, Some 0xFFFD = Some r /\
    (In (base, combining, r) (compositions P) \/ (r = 0xFFFD /\ forall c, ~ In (base, combining, c) (compositions P)))) as Hnone.
  { intros ->. exists 0xFFFD. split; [done|]. right. split; [done|]. intros c Hin.
    apply in_compositions in Hin as (e & d & He & Hk & _). by apply (Ha e). }
  destruct r as [e|]; cbn [from_option]; [clear Hnone|by apply Hnone]. destruct Ha as [He Hk].
  pose proof (Hall e He) as Hse. rewrite <- Hk in Hb. destruct (base_search P e base Hse Hb) as (r & -> & Ha). cbn [opt_bind].
  unfold source_ok in Hse. repeat (apply andb_true_iff in Hse as [Hse ?H]). rewrite forallb_forall in H.
  destruct (Z.eqb_spec (p_value e) 0) as [E0|_].
  { rewrite E0 in H2. done. }
  destruct r as [d|]; cbn [from_option answers] in *.
  - destruct Ha as [Hd Hkd]. pose proof (H d Hd) as Hv. apply andb_true_iff in Hv as [Hv _]. rewrite Hv. exists (p_value d). split; [done|].
    left. apply in_compositions. by exists e, d.
  - exists 0xFFFD. split; [done|]. right. split; [done|]. intros c Hin. apply in_compositions in Hin as (e' & d & He' & Hk' & Hd & Hkd & _).
    assert (e' = e) as -> by (apply (increasing_key_inj p_key (__CFUniCharPrecompSourceTable P)); auto; congruence). by apply (Ha d).
Qed.

(** C10: composing two characters, with the tables CoreFoundation ships: the search
    returns; a result other than U+FFFD is one that the tables list for the base and
    the combining character, and its canonical decomposition is theirs; U+FFFD means
    that the tables list no composition of the two.  A combining character of plane
    0 comes with a base of plane 0, since the base is then taken modulo 2^16. *)
Theorem CFUniCharPrecomposeCharacter_inverts_decomposition base combining :
  (combining < 0x10000 -> 0 <= base < 0x10000) ->
  exists r, CFUniCharPrecomposeCharacter shipped_precompositions base combining = Some r /\
    (r <> 0xFFFD -> In (base, combining, r) (compositions shipped_precompositions) /\ canonical r = canonical base ++ [combining]) /\
    (r = 0xFFFD -> forall c, ~ In (base, combining, c) (compositions shipped_precompositions)).
Proof.
  intros Hb. destruct (PrecomposeCharacter_answers shipped_precompositions base combining shipped_precompositions_ok ltac:(done) Hb)
    as (r & -> & Hr). exists r. split; [done|]. pose proof compositions_sound as Hs. rewrite forallb_forall in Hs.
  destruct Hr as [Hin|[-> Hno]]; [|by split].
  split; [intros _; split; [done|]; specialize (Hs _ Hin); by apply bool_decide_eq_true in Hs|].
  intros ->. exfalso. apply in_compositions in Hin as (e & d & He & _ & Hd & _ & Hv).
  pose proof shipped_precompositions_ok as Hok. apply andb_true_iff in Hok as [_ Hall]. rewrite forallb_forall in Hall. specialize (Hall e He).
  unfold source_ok in Hall. apply andb_true_iff in Hall as [_ Hall]. rewrite forallb_forall in Hall. specialize (Hall d Hd). rewrite Hv in Hall. done.
Qed.

Lemma CFUniCharPrecomposeCharacter_inverts_decomposition_witness :
  exists r, CFUniCharPrecomposeCharacter shipped_precompositions 0xE2 0x301 = Some r /\
    (r <> 0xFFFD -> In (0xE2, 0x301, r) (compositions shipped_precompositions) /\ canonical r = canonical 0xE2 ++ [0x301]) /\
    (r = 0xFFFD -> forall c, ~ In (0xE2, 0x301, c) (compositions shipped_precompositions)).
Proof. apply (CFUniCharPrecomposeCharacter_inverts_decomposition 0xE2 0x301). lia. Defined.

(** *** Hangul syllables *)

Definition syllable (s : Z) : Prop := HANGUL_SBASE <= s < HANGUL_SBASE + HANGUL_SCOUNT.

(** The letters of a syllable: which they are, and how they give it back. *)
Lemma jamo_cases s : syllable s ->
  exists l v t, 0 <= l < HANGUL_LCOUNT /\ 0 <= v < HANGUL_VCOUNT /\ 0 <= t < HANGUL_TCOUNT /\
    (l * HANGUL_VCOUNT + v) * HANGUL_TCOUNT + t + HANGUL_SBASE = s /\
    hangul_jamo s = [HANGUL_LBASE + l; HANGUL_VBASE + v] ++ (if t =? 0 then [] else [HANGUL_TBASE + t]).
Proof.
  unfold syllable, hangul_jamo, HANGUL_NCOUNT, HANGUL_SBASE, HANGUL_SCOUNT, HANGUL_LCOUNT, HANGUL_VCOUNT, HANGUL_TCOUNT. intros Hs.
  exists ((s - 44032) / 588), ((s - 44032) mod 588 / 28), ((s - 44032) mod 28).
  split_and!; try (Z.to_euclidean_division_equations; lia). f_equal.
  - rewrite (Z.add_comm _ HANGUL_LBASE), (Z.add_comm _ HANGUL_VBASE). done.
  - destruct (_ =? 0); [done|]. f_equal. lia.
Qed.

(** A leading letter. *)
Definition leading (c : Z) : bool := (HANGUL_LBASE <=? c) && (c <? HANGUL_LBASE + HANGUL_LCOUNT).

Lemma leading_is_base c : leading c = true -> __CFUniCharIsNonBaseCharacter_P shipped_tables shipped_precompositions c = Some false.
Proof.
  unfold leading. intros H. apply andb_true_iff in H as [H1 H2].
  pose proof (forall_below (fun k => match __CFUniCharIsNonBaseCharacter_P shipped_tables shipped_precompositions (HANGUL_LBASE + k) with
    | Some b => negb b | None => false end) 19 ltac:(vm_compute; reflexivity) (c - HANGUL_LBASE)) as E.
  cbn beta in E. replace (HANGUL_LBASE + (c - HANGUL_LBASE)) with c in E by lia.
  unfold HANGUL_LCOUNT in *. specialize (E ltac:(lia)). destruct (__CFUniCharIsNonBaseCharacter_P _ _ c) as [[]|]; done.
Qed.

Lemma compose_hangul_syllable s pre rest n l v tl :
  syllable s -> hangul_jamo s = l :: v :: tl -> match rest with [] => True | c :: _ => leading c = true end ->
  n = Z.of_nat (length (v :: tl ++ rest)) ->
  compose_hangul (pre ++ v :: tl ++ rest) l (Z.of_nat (length pre)) n =
    Some (s, Z.of_nat (length pre) + Z.of_nat (length (v :: tl)), Z.of_nat (length rest)).
Proof.
  intros Hs Ej Hr ->. destruct (jamo_cases s Hs) as (li & vi & ti & Hl & Hv & Ht & Es & Ej'). rewrite Ej in Ej'. injection Ej' as -> -> ->.
  unfold compose_hangul, HANGUL_LBASE, HANGUL_LCOUNT, HANGUL_VBASE, HANGUL_VCOUNT, HANGUL_TBASE, HANGUL_TCOUNT, HANGUL_SBASE in *.
  assert ((4352 <=? 4352 + li) && (4352 + li <? 4352 + 255) = true) as -> by (bool_case; done).
  replace (4352 + li - 4352) with li by lia. rewrite (swrap_id 8) by (unfold in_signed; lia).
  assert (forall k, 0 < k -> (0 <? k) && (0 <=? li) && (li <=? 19) = true) as Hg by (intros; bool_case; done).
  rewrite Hg by (cbn [length]; lia). rewrite rd_app_here by done. cbn [opt_bind].
  replace (4449 + vi - 4449) with vi by lia. rewrite (swrap_id 16) by (unfold in_signed; lia).
  assert ((0 <=? vi) && (vi <=? 21) = true) as -> by (bool_case; done).
  assert (forall A (x : A) k, rd ((pre ++ [4449 + vi]) ++ k) (Z.of_nat (length pre) + 1) = rd k 0) as Hrd.
  { intros A x k. rewrite rd_lookup by lia. rewrite lookup_app_r by (rewrite length_app; simpl; lia).
    rewrite length_app. cbn [length]. replace (Z.to_nat (Z.of_nat (length pre) + 1) - (length pre + 1))%nat with 0%nat by lia. by rewrite rd_lookup. }
  replace (pre ++ 4449 + vi :: (if ti =? 0 then [] else [4519 + ti]) ++ rest) with ((pre ++ [4449 + vi]) ++ ((if ti =? 0 then [] else [4519 + ti]) ++ rest))
    by (by rewrite <- (assoc_L (++))).
  rewrite (Hrd Z 0). destruct (Z.eqb_spec ti 0) as [E|E]; cbn [app length].
  - destruct rest as [|c rest]; cbn [length].
    + destruct (Z.ltb_spec 0 (Z.of_nat 1 - 1)); [lia|]. cbn [opt_bind]. do 3 f_equal; lia.
    + destruct (Z.ltb_spec 0 (Z.of_nat (S (S (length rest))) - 1)); [|lia]. change (rd (c :: rest) 0) with (Some c). cbn [opt_bind].
      unfold leading, HANGUL_LBASE, HANGUL_LCOUNT in Hr. apply andb_true_iff in Hr as [H1 H2].
      rewrite (swrap_id 16) by (unfold in_signed; lia).
      assert ((c - 4519 <? 0) || (28 <? c - 4519) = true) as -> by (bool_case; done). cbn [opt_bind]. do 3 f_equal; lia.
  - destruct (Z.ltb_spec 0 (Z.of_nat (S (S (length rest))) - 1)); [|lia]. change (rd (4519 + ti :: rest) 0) with (Some (4519 + ti)). cbn [opt_bind].
    replace (4519 + ti - 4519) with ti by lia. rewrite (swrap_id 16) by (unfold in_signed; lia).
    assert ((ti <? 0) || (28 <? ti) = false) as -> by (bool_case; done). cbn [opt_bind]. do 3 f_equal; lia.
Qed.

Lemma precompose_syllables ss fuel pre max out room last cur bmp base :
  Forall syllable ss -> let text := flat_map hangul_jamo ss in
  (length text <= fuel)%nat -> Z.of_nat (length out) + Z.of_nat (length ss) <= max -> (length ss <= length room)%nat ->
  exists l, precompose_loop shipped_tables shipped_precompositions (pre ++ text) max fuel
    {| c_src := Z.of_nat (length pre); c_length := Z.of_nat (length text); c_current := cur; c_last := last; c_class := 0;
       c_composed := 0xFFFD; c_used := Z.of_nat (length out); c_base := base; c_bmp := bmp; c_dst := out ++ room;
       c_at := Z.of_nat (length out) |} = Some l /\
    c_length l = 0 /\ c_composed l = 0xFFFD /\ c_used l = Z.of_nat (length (out ++ ss)) /\ c_dst l = out ++ ss ++ drop (length ss) room.
Proof.
  intros Hss. revert fuel pre out room last cur bmp base. induction Hss as [|s ss Hs Hss IH]; intros fuel pre out room last cur bmp base text Hf Hm Hr.
  { eexists. subst text. cbn [flat_map length]. split; [by destruct fuel|]. cbn. rewrite app_nil_r. done. }
  subst text. cbn [flat_map] in *. destruct (jamo_cases s Hs) as (li & vi & ti & Hl & Hv & Ht & Es & Ej).
  set (tl := if ti =? 0 then [] else [HANGUL_TBASE + ti]) in *. rewrite Ej in *. cbn [app] in *. rewrite length_cons in *.
  destruct fuel as [|fuel]; [lia|]. cbn [precompose_loop c_length].
  match goal with |- context [0 <? ?k] => destruct (Z.ltb_spec 0 k); [|lia] end.
  unfold precompose_step at 1. cbn [c_src c_length c_last c_composed c_class c_used c_base c_bmp c_dst c_at]. rewrite rd_app_here by done. cbn [opt_bind].
  assert (leading (HANGUL_LBASE + li) = true) as Hlead by (unfold leading; bool_case; done).
  assert (CFUniCharIsSurrogateHighCharacter (HANGUL_LBASE + li) = false) as ->
    by (unfold CFUniCharIsSurrogateHighCharacter, HANGUL_LBASE, HANGUL_LCOUNT in *; bool_case; done).
  cbn [andb opt_bind c_last].
  assert ((if negb (last =? 0) then __CFUniCharIsNonBaseCharacter_P shipped_tables shipped_precompositions (HANGUL_LBASE + li) else Some false) = Some false) as ->
    by (destruct (negb _); [by apply leading_is_base|done]).
  cbn [opt_bind]. unfold compose_base at 1. cbn [c_src c_length c_last c_composed c_class c_used c_base c_bmp c_dst c_at].
  replace (pre ++ HANGUL_LBASE + li :: HANGUL_VBASE + vi :: tl ++ flat_map hangul_jamo ss)
    with ((pre ++ [HANGUL_LBASE + li]) ++ (HANGUL_VBASE + vi) :: tl ++ flat_map hangul_jamo ss) in * by (by rewrite <- (assoc_L (++))).
  replace (Z.of_nat (length pre) + 1) with (Z.of_nat (length (pre ++ [HANGUL_LBASE + li]))) by (rewrite length_app; simpl; lia).
  rewrite (compose_hangul_syllable s _ (flat_map hangul_jamo ss) _ (HANGUL_LBASE + li) (HANGUL_VBASE + vi) tl); [|done|done| |cbn [length]; lia].
  2: { destruct Hss as [|s' ss' Hs' _]; [done|]. cbn [flat_map]. destruct (jamo_cases s' Hs') as (l' & ? & ? & ? & ? & ? & ? & ->). cbn [app].
       unfold leading. bool_case; done. }
  cbn [opt_bind]. change (negb (65533 =? 65533)) with false. cbn [opt_bind]. unfold append_char at 1.
  cbn [c_src c_length c_last c_composed c_class c_used c_base c_bmp c_dst c_at].
  unfold syllable, HANGUL_SBASE, HANGUL_SCOUNT in Hs. destruct (Z.ltb_spec 0xFFFF s); [lia|].
  cbn [length] in *. destruct (Z.ltb_spec max (Z.of_nat (length out) + 1)); [lia|].
  destruct room as [|x room]; [simpl in Hr; lia|]. rewrite wr_app_here by done. rewrite uwrap_id by (unfold in_unsigned; lia).
  cbn [opt_bind c_src c_length c_current c_last c_composed c_class c_used c_base c_bmp c_dst c_at].
  specialize (IH fuel ((pre ++ [HANGUL_LBASE + li]) ++ (HANGUL_VBASE + vi) :: tl) (out ++ [s]) room s s true (Z.of_nat (length out))).
  rewrite <- !(assoc_L (++)) in IH. cbn [app] in IH. cbv zeta in IH.
  destruct IH as (l & El & Hz1 & Hz2 & Hz3 & Hz4); [rewrite !length_app in Hf; lia|rewrite length_app; simpl; lia|simpl in Hr; lia|].
  exists l. rewrite <- !(assoc_L (++)). cbn [app]. rewrite <- El. split_and!; [|done|done|done|done].
  f_equal. rewrite !length_app. cbn [length negb]. f_equal; lia.
Qed.

(** The bitmap has every syllable. *)
Lemma syllable_bytes i : 5504 <= i <= 6900 -> exists b, rd decomposable_plane_0 i = Some b /\ (b = 255 \/ (i = 6900 /\ b = 15)).
Proof.
  intros Hi. destruct (decide (i = 6900)) as [->|Hne].
  { exists 15. split; [vm_compute; reflexivity|by right]. }
  assert (forallb (Z.eqb 255) (take 1396 (drop (Z.to_nat 5504) decomposable_plane_0)) = true) as H by (vm_compute; reflexivity).
  rewrite forallb_forall in H. rewrite rd_lookup by lia.
  assert (length (take 1396 (drop (Z.to_nat 5504) decomposable_plane_0)) = 1396%nat) as Hl by (vm_compute; reflexivity).
  destruct (lookup_lt_is_Some_2 (take 1396 (drop (Z.to_nat 5504) decomposable_plane_0)) (Z.to_nat (i - 5504))) as [b Hb]; [rewrite Hl; lia|].
  exists b. pose proof (list_elem_of_lookup_2 _ _ _ Hb) as Hin. apply list_elem_of_In, H in Hin. apply Z.eqb_eq in Hin. split; [|by left].
  rewrite lookup_take_lt in Hb by lia. rewrite lookup_drop in Hb. rewrite <- Hb. f_equal. lia.
Qed.

Lemma syllable_decomposable s : syllable s -> is_decomposable shipped_tables shipped_decompositions false s = true.
Proof.
  unfold syllable, HANGUL_SBASE, HANGUL_SCOUNT. intros Hs. unfold is_decomposable, __CFUniCharIsDecomposableCharacterWithFlag.
  destruct (Z.ltb_spec s 0x10000); [|lia]. cbn [opt_bind]. cbn [shipped_decompositions __CFUniCharDecomposableBitmapForBMP].
  rewrite member_spec by lia. destruct (syllable_bytes (s / 8)) as (b & -> & Hb); [Z.to_euclidean_division_equations; lia|].
  cbn [default]. assert (0 <= s mod 8 < 8) as Hm by (Z.to_euclidean_division_equations; lia).
  destruct Hb as [->|[Hi ->]].
  - by apply (forall_below (Z.testbit 255) 8 ltac:(vm_compute; reflexivity)).
  - apply (forall_below (Z.testbit 15) 4 ltac:(vm_compute; reflexivity)). Z.to_euclidean_division_equations. lia.
Qed.

Lemma syllable_full s : syllable s -> full_decomposition shipped_tables shipped_decompositions false s = hangul_jamo s.
Proof.
  intros Hs. unfold full_decomposition. rewrite syllable_decomposable by done. unfold is_hangul, syllable in *.
  by assert ((HANGUL_SBASE <=? s) && (s <=? HANGUL_SBASE + HANGUL_SCOUNT) = true) as -> by (bool_case; done).
Qed.

Lemma syllables_decomposition ss :
  Forall syllable ss -> decomposition (Decomposer0 := shipped_decomposer false) true ss = flat_map hangul_jamo ss.
Proof.
  intros Hss. unfold decomposition. cbn [full shipped_decomposer checked_decomposer].
  assert (flat_map (full_decomposition shipped_tables shipped_decompositions false) ss = flat_map hangul_jamo ss) as ->.
  { induction Hss as [|s ss Hs Hss IH]; [done|]. cbn [flat_map]. by rewrite IH, syllable_full. }
  assert (Forall (fun c => ccc shipped_decompositions c = 0) (flat_map hangul_jamo ss)) as H0.
  { induction Hss as [|s ss Hs Hss IH]; [done|]. cbn [flat_map]. apply Forall_app. split; [|done].
    apply (hangul_starters shipped_decompositions shipped_hangul_ok). unfold is_hangul, syllable in *. bool_case; done. }
  induction H0 as [|x l Hx Hl IH]; [done|]. rewrite reorder_starter by done. by rewrite IH.
Qed.

(** A text of Hangul syllables, decomposed by CFUniCharDecompose and composed
    again by CFUniCharPrecompose, is the same text, with the shipped tables
    and room for the result. *)
Lemma Hangul_round_trip ss jamo text :
  Forall syllable ss -> (length (flat_map hangul_jamo ss) <= length jamo)%nat -> (length ss <= length text)%nat ->
  exists jamo' text',
    CFUniCharDecompose shipped_tables shipped_decompositions ss (Z.of_nat (length jamo)) true kCFUniCharUTF16Format false 0
        (Z.of_nat (length ss)) jamo = Some (true, Z.of_nat (length ss), jamo', Z.of_nat (length (flat_map hangul_jamo ss))) /\
    CFUniCharPrecompose shipped_tables shipped_precompositions (take (length (flat_map hangul_jamo ss)) jamo')
        (Z.of_nat (length text)) (Z.of_nat (length (flat_map hangul_jamo ss))) text =
      Some (true, Z.of_nat (length (flat_map hangul_jamo ss)), text', Z.of_nat (length ss)) /\
    take (length ss) text' = ss.
Proof.
  intros Hss Hj Ht. set (n := length (flat_map hangul_jamo ss)) in *.
  assert (Forall (fun s => 0 <= s < 0x10000) ss /\ encode16 ss = ss) as [Hb E16].
  { clear - Hss. induction Hss as [|s ss Hs Hss [IH1 IH2]]; [done|]. unfold syllable, HANGUL_SBASE, HANGUL_SCOUNT in Hs.
    split; [constructor; [lia|done]|]. rewrite encode16_cons, IH2. unfold utf16. by destruct (Z.ltb_spec s 0x10000); [|lia]. }
  assert (encode16 (flat_map hangul_jamo ss) = flat_map hangul_jamo ss) as J16.
  { clear - Hss. induction Hss as [|s ss Hs Hss IH]; [done|]. cbn [flat_map]. rewrite encode_app, IH. f_equal.
    destruct (jamo_cases s Hs) as (l & v & t & ? & ? & ? & _ & ->). unfold HANGUL_LCOUNT, HANGUL_VCOUNT, HANGUL_TCOUNT in *.
    rewrite encode_app, !encode16_cons. unfold utf16, HANGUL_LBASE, HANGUL_VBASE, HANGUL_TBASE.
    destruct (Z.ltb_spec (4352 + l) 0x10000), (Z.ltb_spec (4449 + v) 0x10000); try lia. cbn [app]. destruct (t =? 0); [done|].
    rewrite encode16_cons. unfold utf16. by destruct (Z.ltb_spec (4519 + t) 0x10000); [|lia]. }
  destruct (@decompose_ok shipped_tables shipped_decompositions false (shipped_decomposer false) ss (Z.of_nat (length jamo)) true
    kCFUniCharUTF16Format 0 jamo ltac:(lia) ss []) as (cs1 & cs2 & jamo' & E1 & _ & E2 & _ & H0 & H1 & Hfull).
  { eapply list.Forall_impl; [exact Hss|]. unfold syllable, HANGUL_SBASE, HANGUL_SCOUNT. intros s Hs.
    split; [unfold scalar; lia|]. unfold tibetan_vowel. bool_case; done. }
  { by rewrite app_nil_r. }
  rewrite syllables_decomposition in Hfull by done. rewrite J16 in Hfull.
  assert (cs2 = []) as ->. { destruct cs2; [done|]. specialize (Hfull ltac:(done)). fold n in Hfull. lia. }
  rewrite app_nil_r in E1. subst cs1. rewrite syllables_decomposition, J16, E16 in * by done. fold n in E2, H1.
  assert (take n jamo' = flat_map hangul_jamo ss) as Etake.
  { destruct (decide (length jamo = 0%nat)) as [E|]; [|by apply H1; lia]. replace n with 0%nat by lia.
    symmetry. apply length_zero_iff_nil. fold n. lia. }
  destruct (precompose_syllables ss n [] (Z.of_nat (length text)) [] text 0 0 true 0 Hss) as (l & El & Hlen & Hc & Hu & Hd);
    [unfold n; lia|simpl; lia|lia|].
  exists jamo', (c_dst l). split; [exact E2|]. rewrite Etake. unfold CFUniCharPrecompose. rewrite Nat2Z.id. fold n.
  cbn [app length] in *. change (Z.of_nat 0) with 0 in *. fold n in El. rewrite El. cbn [opt_bind]. rewrite Hc, Hlen, Hu, Hd.
  rewrite Z.sub_0_r. split; [done|]. by rewrite take_app_length.
Qed.

Lemma Hangul_round_trip_witness :
  exists jamo' text',
    CFUniCharDecompose shipped_tables shipped_decompositions [0xD55C; 0xAE00; 0xC774] 9 true kCFUniCharUTF16Format false 0 3
      (replicate 9 0) = Some (true, 3, jamo', 8) /\
    CFUniCharPrecompose shipped_tables shipped_precompositions (take 8 jamo') 3 8 [0; 0; 0] = Some (true, 8, text', 3) /\
    take 3 text' = [0xD55C; 0xAE00; 0xC774].
Proof.
  apply (Hangul_round_trip [0xD55C; 0xAE00; 0xC774] (replicate 9 0) [0; 0; 0]).
  - repeat constructor; unfold syllable, HANGUL_SBASE, HANGUL_SCOUNT; lia.
  - vm_compute. lia.
  - simpl. lia.
Defined.

(** *** What goes wrong *)

(** A base outside plane 0 is taken modulo 2^16: U+10061 with an acute becomes
    U+00E1. *)
Lemma composed_base_truncated :
  CFUniCharPrecompose shipped_tables shipped_precompositions [0xD800; 0xDC61; 0x301] 3 3 [0; 0; 0] = Some (true, 3, [0xE1; 0xDC61; 0], 1).
Proof. vm_compute. reflexivity. Qed.

(** A combining character of class 0 does not keep those behind it from the
    base. *)
Lemma composed_over_blocked :
  CFUniCharPrecompose shipped_tables shipped_precompositions [0x61; 0x488; 0x301] 3 3 [0; 0; 0] = Some (true, 3, [0xE1; 0x488; 0], 2).
Proof. vm_compute. reflexivity. Qed.

(** Letters one behind the last that compose are composed, and U+11A7, which is no
    trailing letter, vanishes. *)
Lemma composed_no_syllables :
  CFUniCharPrecompose shipped_tables shipped_precompositions [0x1113; 0x1161] 2 2 [0; 0] = Some (true, 2, [0xD7A4; 0], 1) /\
  CFUniCharPrecompose shipped_tables shipped_precompositions [0x1100; 0x1161; 0x11A7] 3 3 [0; 0; 0] = Some (true, 3, [0xAC00; 0; 0], 1).
Proof. split; vm_compute; reflexivity. Qed.

(** Without room the result is still true, with more units than there is room
    for. *)
Lemma composed_without_room :
  CFUniCharPrecompose shipped_tables shipped_precompositions [0x41; 0x42] 1 2 [0] = Some (true, 2, [0x41], 2).
Proof. vm_compute. reflexivity. Qed.
