(* ===== verification/CFEightBit.v ===== *)
(** * CFEightBit: the converters for encodings with one byte a character

    The part of CFBuiltinConverters.c for ASCII, ISO Latin 1, Mac Roman, Windows
    Latin 1 and NEXTSTEP, and the search of CFStringEncodingConverterExt.h.
    A function that returns whether it stored a byte or a character returns
    what it stored. *)

From S2P Require Import Prelude CFInternal CFUniChar CFUnicodeDecomposition CFUnicodeDecomposeText CFUnicodeData CFUTF8.
From S2P Require Import CFUnicodePrecomposition.
From stdpp Require Import base list numbers option.
From Stdlib Require Import ZArith Lia.
Open Scope Z_scope.
Open Scope cf_scope.

(** ** Searching a table of characters *)

(** A character and its byte. *)
Record CFStringEncodingUnicodeTo8BitCharMap : Type := { _u : Z; _c : Z }.

(** The byte, if the character is in the table; [None] outside is a read beyond
    the table. *)
Definition CFStringEncodingUnicodeTo8BitEncoding (theTable : list CFStringEncodingUnicodeTo8BitCharMap) (numElem character : Z)
    : option (option Z) :=
  let* found := search_table _u theTable numElem character in
  Some (_c <$> found).

Local Notation "'row' u c" := {| _u := u; _c := c |} (at level 10, u at level 9, c at level 9, only parsing).

(** ** Paragraph separators

    [__CFMapsParagraphSeparator] is set to [(1 ? false : true)] at the first
    call. *)
Definition ParagraphSeparator : Z := 0x2029.
Definition ASCIINewLine : Z := 0x0a.
Definition __CFMapsParagraphSeparator : Z := if negb (1 =? 0) then 0 else 1.

Definition __CFIsParagraphSeparator (character : Z) : bool :=
  negb (__CFMapsParagraphSeparator =? 0) && (ParagraphSeparator =? character).

(** ** ASCII *)

Definition __CFToASCII (flags character : Z) : option (option Z) :=
  if character <? 0x80 then Some (Some (uwrap 8 character))
  else if __CFIsParagraphSeparator character then Some (Some ASCIINewLine)
  else Some None.

Definition __CFFromASCII (flags byte : Z) : option (option Z) :=
  if byte <? 0x80 then Some (Some byte) else Some None.

(** ** ISO Latin 1 *)

Definition __CFToISOLatin1 (flags character : Z) : option (option Z) :=
  if character <=? 0xFF then Some (Some (uwrap 8 character))
  else if __CFIsParagraphSeparator character then Some (Some ASCIINewLine)
  else Some None.

Definition __CFFromISOLatin1 (flags byte : Z) : option (option Z) := Some (Some byte).

(** ** Mac Roman *)

Definition NUM_MACROMAN_FROM_UNI : Z := 129.

Definition macRoman_from_uni : list CFStringEncodingUnicodeTo8BitCharMap :=
  [row 0x00A0 0xCA; row 0x00A1 0xC1; row 0x00A2 0xA2; row 0x00A3 0xA3; row 0x00A5 0xB4; row 0x00A7 0xA4;
   row 0x00A8 0xAC; row 0x00A9 0xA9; row 0x00AA 0xBB; row 0x00AB 0xC7; row 0x00AC 0xC2; row 0x00AE 0xA8;
   row 0x00AF 0xF8; row 0x00B0 0xA1; row 0x00B1 0xB1; row 0x00B4 0xAB; row 0x00B5 0xB5; row 0x00B6 0xA6;
   row 0x00B7 0xE1; row 0x00B8 0xFC; row 0x00BA 0xBC; row 0x00BB 0xC8; row 0x00BF 0xC0; row 0x00C0 0xCB;
   row 0x00C1 0xE7; row 0x00C2 0xE5; row 0x00C3 0xCC; row 0x00C4 0x80; row 0x00C5 0x81; row 0x00C6 0xAE;
   row 0x00C7 0x82; row 0x00C8 0xE9; row 0x00C9 0x83; row 0x00CA 0xE6; row 0x00CB 0xE8; row 0x00CC 0xED;
   row 0x00CD 0xEA; row 0x00CE 0xEB; row 0x00CF 0xEC; row 0x00D1 0x84; row 0x00D2 0xF1; row 0x00D3 0xEE;
   row 0x00D4 0xEF; row 0x00D5 0xCD; row 0x00D6 0x85; row 0x00D8 0xAF; row 0x00D9 0xF4; row 0x00DA 0xF2;
   row 0x00DB 0xF3; row 0x00DC 0x86; row 0x00DF 0xA7; row 0x00E0 0x88; row 0x00E1 0x87; row 0x00E2 0x89;
   row 0x00E3 0x8B; row 0x00E4 0x8A; row 0x00E5 0x8C; row 0x00E6 0xBE; row 0x00E7 0x8D; row 0x00E8 0x8F;
   row 0x00E9 0x8E; row 0x00EA 0x90; row 0x00EB 0x91; row 0x00EC 0x93; row 0x00ED 0x92; row 0x00EE 0x94;
   row 0x00EF 0x95; row 0x00F1 0x96; row 0x00F2 0x98; row 0x00F3 0x97; row 0x00F4 0x99; row 0x00F5 0x9B;
   row 0x00F6 0x9A; row 0x00F7 0xD6; row 0x00F8 0xBF; row 0x00F9 0x9D; row 0x00FA 0x9C; row 0x00FB 0x9E;
   row 0x00FC 0x9F; row 0x00FF 0xD8; row 0x0131 0xF5; row 0x0152 0xCE; row 0x0153 0xCF; row 0x0178 0xD9;
   row 0x0192 0xC4; row 0x02C6 0xF6; row 0x02C7 0xFF; row 0x02D8 0xF9; row 0x02D9 0xFA; row 0x02DA 0xFB;
   row 0x02DB 0xFE; row 0x02DC 0xF7; row 0x02DD 0xFD; row 0x03A9 0xBD; row 0x03C0 0xB9; row 0x2013 0xD0;
   row 0x2014 0xD1; row 0x2018 0xD4; row 0x2019 0xD5; row 0x201A 0xE2; row 0x201C 0xD2; row 0x201D 0xD3;
   row 0x201E 0xE3; row 0x2020 0xA0; row 0x2021 0xE0; row 0x2022 0xA5; row 0x2026 0xC9; row 0x2030 0xE4;
   row 0x2039 0xDC; row 0x203A 0xDD; row 0x2044 0xDA; row 0x20AC 0xDB; row 0x2122 0xAA; row 0x2126 0xBD;
   row 0x2202 0xB6; row 0x2206 0xC6; row 0x220F 0xB8; row 0x2211 0xB7; row 0x221A 0xC3; row 0x221E 0xB0;
   row 0x222B 0xBA; row 0x2248 0xC5; row 0x2260 0xAD; row 0x2264 0xB2; row 0x2265 0xB3; row 0x25CA 0xD7;
   row 0xF8FF 0xF0; row 0xFB01 0xDE; row 0xFB02 0xDF].

Definition __CFToMacRoman (flags character : Z) : option (option Z) :=
  if character <? 0x80 then Some (Some (uwrap 8 character))
  else CFStringEncodingUnicodeTo8BitEncoding macRoman_from_uni NUM_MACROMAN_FROM_UNI character.

Definition macRoman_to_uni : list Z :=
  [0x00C4; 0x00C5; 0x00C7; 0x00C9; 0x00D1; 0x00D6; 0x00DC; 0x00E1; 0x00E0; 0x00E2; 0x00E4; 0x00E3; 0x00E5; 0x00E7;
   0x00E9; 0x00E8; 0x00EA; 0x00EB; 0x00ED; 0x00EC; 0x00EE; 0x00EF; 0x00F1; 0x00F3; 0x00F2; 0x00F4; 0x00F6; 0x00F5;
   0x00FA; 0x00F9; 0x00FB; 0x00FC; 0x2020; 0x00B0; 0x00A2; 0x00A3; 0x00A7; 0x2022; 0x00B6; 0x00DF; 0x00AE; 0x00A9;
   0x2122; 0x00B4; 0x00A8; 0x2260; 0x00C6; 0x00D8; 0x221E; 0x00B1; 0x2264; 0x2265; 0x00A5; 0x00B5; 0x2202; 0x2211;
   0x220F; 0x03C0; 0x222B; 0x00AA; 0x00BA; 0x03A9; 0x00E6; 0x00F8; 0x00BF; 0x00A1; 0x00AC; 0x221A; 0x0192; 0x2248;
   0x2206; 0x00AB; 0x00BB; 0x2026; 0x00A0; 0x00C0; 0x00C3; 0x00D5; 0x0152; 0x0153; 0x2013; 0x2014; 0x201C; 0x201D;
   0x2018; 0x2019; 0x00F7; 0x25CA; 0x00FF; 0x0178; 0x2044; 0x20AC; 0x2039; 0x203A; 0xFB01; 0xFB02; 0x2021; 0x00B7;
   0x201A; 0x201E; 0x2030; 0x00C2; 0x00CA; 0x00C1; 0x00CB; 0x00C8; 0x00CD; 0x00CE; 0x00CF; 0x00CC; 0x00D3; 0x00D4;
   0xF8FF; 0x00D2; 0x00DA; 0x00DB; 0x00D9; 0x0131; 0x02C6; 0x02DC; 0x00AF; 0x02D8; 0x02D9; 0x02DA; 0x00B8; 0x02DD;
   0x02DB; 0x02C7].

Definition __CFFromMacRoman (flags byte : Z) : option (option Z) :=
  if byte <? 0x80 then Some (Some byte) else let* c := rd macRoman_to_uni (byte - 0x80) in Some (Some c).

(** ** Windows Latin 1 *)

Definition NUM_1252_FROM_UNI : Z := 27.

Definition cp1252_from_uni : list CFStringEncodingUnicodeTo8BitCharMap :=
  [row 0x0152 0x8C; row 0x0153 0x9C; row 0x0160 0x8A; row 0x0161 0x9A; row 0x0178 0x9F; row 0x017D 0x8E;
   row 0x017E 0x9E; row 0x0192 0x83; row 0x02C6 0x88; row 0x02DC 0x98; row 0x2013 0x96; row 0x2014 0x97;
   row 0x2018 0x91; row 0x2019 0x92; row 0x201A 0x82; row 0x201C 0x93; row 0x201D 0x94; row 0x201E 0x84;
   row 0x2020 0x86; row 0x2021 0x87; row 0x2022 0x95; row 0x2026 0x85; row 0x2030 0x89; row 0x2039 0x8B;
   row 0x203A 0x9B; row 0x20AC 0x80; row 0x2122 0x99].

Definition __CFToWinLatin1 (flags character : Z) : option (option Z) :=
  if (character <? 0x80) || ((0x9F <? character) && (character <=? 0x00FF)) then Some (Some (uwrap 8 character))
  else CFStringEncodingUnicodeTo8BitEncoding cp1252_from_uni NUM_1252_FROM_UNI character.

Definition cp1252_to_uni : list Z :=
  [0x20AC; 0xFFFD; 0x201A; 0x0192; 0x201E; 0x2026; 0x2020; 0x2021; 0x02C6; 0x2030; 0x0160; 0x2039; 0x0152; 0xFFFD;
   0x017D; 0xFFFD; 0xFFFD; 0x2018; 0x2019; 0x201C; 0x201D; 0x2022; 0x2013; 0x2014; 0x02DC; 0x2122; 0x0161; 0x203A;
   0x0153; 0xFFFD; 0x017E; 0x0178].

Definition __CFFromWinLatin1 (flags byte : Z) : option (option Z) :=
  let* character := (if (byte <? 0x80) || (0x9F <? byte) then Some byte else rd cp1252_to_uni (byte - 0x80)) in
  Some (if negb (character =? 0xFFFD) then Some character else None).

(** ** NEXTSTEP *)

Definition NUM_NEXTSTEP_FROM_UNI : Z := 127.

Definition nextstep_from_tab : list CFStringEncodingUnicodeTo8BitCharMap :=
  [row 0x00A0 0x80; row 0x00A1 0xA1; row 0x00A2 0xA2; row 0x00A3 0xA3; row 0x00A4 0xA8; row 0x00A5 0xA5;
   row 0x00A6 0xB5; row 0x00A7 0xA7; row 0x00A8 0xC8; row 0x00A9 0xA0; row 0x00AA 0xE3; row 0x00AB 0xAB;
   row 0x00AC 0xBE; row 0x00AE 0xB0; row 0x00AF 0xC5; row 0x00B1 0xD1; row 0x00B2 0xC9; row 0x00B3 0xCC;
   row 0x00B4 0xC2; row 0x00B5 0x9D; row 0x00B6 0xB6; row 0x00B7 0xB4; row 0x00B8 0xCB; row 0x00B9 0xC0;
   row 0x00BA 0xEB; row 0x00BB 0xBB; row 0x00BC 0xD2; row 0x00BD 0xD3; row 0x00BE 0xD4; row 0x00BF 0xBF;
   row 0x00C0 0x81; row 0x00C1 0x82; row 0x00C2 0x83; row 0x00C3 0x84; row 0x00C4 0x85; row 0x00C5 0x86;
   row 0x00C6 0xE1; row 0x00C7 0x87; row 0x00C8 0x88; row 0x00C9 0x89; row 0x00CA 0x8A; row 0x00CB 0x8B;
   row 0x00CC 0x8C; row 0x00CD 0x8D; row 0x00CE 0x8E; row 0x00CF 0x8F; row 0x00D0 0x90; row 0x00D1 0x91;
   row 0x00D2 0x92; row 0x00D3 0x93; row 0x00D4 0x94; row 0x00D5 0x95; row 0x00D6 0x96; row 0x00D7 0x9E;
   row 0x00D8 0xE9; row 0x00D9 0x97; row 0x00DA 0x98; row 0x00DB 0x99; row 0x00DC 0x9A; row 0x00DD 0x9B;
   row 0x00DE 0x9C; row 0x00DF 0xFB; row 0x00E0 0xD5; row 0x00E1 0xD6; row 0x00E2 0xD7; row 0x00E3 0xD8;
   row 0x00E4 0xD9; row 0x00E5 0xDA; row 0x00E6 0xF1; row 0x00E7 0xDB; row 0x00E8 0xDC; row 0x00E9 0xDD;
   row 0x00EA 0xDE; row 0x00EB 0xDF; row 0x00EC 0xE0; row 0x00ED 0xE2; row 0x00EE 0xE4; row 0x00EF 0xE5;
   row 0x00F0 0xE6; row 0x00F1 0xE7; row 0x00F2 0xEC; row 0x00F3 0xED; row 0x00F4 0xEE; row 0x00F5 0xEF;
   row 0x00F6 0xF0; row 0x00F7 0x9F; row 0x00F8 0xF9; row 0x00F9 0xF2; row 0x00FA 0xF3; row 0x00FB 0xF4;
   row 0x00FC 0xF6; row 0x00FD 0xF7; row 0x00FE 0xFC; row 0x00FF 0xFD; row 0x0131 0xF5; row 0x0141 0xE8;
   row 0x0142 0xF8; row 0x0152 0xEA; row 0x0153 0xFA; row 0x0192 0xA6; row 0x02C6 0xC3; row 0x02C7 0xCF;
   row 0x02CB 0xC1; row 0x02D8 0xC6; row 0x02D9 0xC7; row 0x02DA 0xCA; row 0x02DB 0xCE; row 0x02DC 0xC4;
   row 0x02DD 0xCD; row 0x2013 0xB1; row 0x2014 0xD0; row 0x2019 0xA9; row 0x201A 0xB8; row 0x201C 0xAA;
   row 0x201D 0xBA; row 0x201E 0xB9; row 0x2020 0xB2; row 0x2021 0xB3; row 0x2022 0xB7; row 0x2026 0xBC;
   row 0x2030 0xBD; row 0x2039 0xAC; row 0x203A 0xAD; row 0x2044 0xA4; row 0xFB01 0xAE; row 0xFB02 0xAF;
   row 0xFFFD 0xFF].

Definition __CFToNextStepLatin (flags character : Z) : option (option Z) :=
  if character <? 0x80 then Some (Some (uwrap 8 character))
  else if __CFIsParagraphSeparator character then Some (Some ASCIINewLine)
  else CFStringEncodingUnicodeTo8BitEncoding nextstep_from_tab NUM_NEXTSTEP_FROM_UNI character.

Definition NSToPrecompUnicodeTable : list Z :=
  [0x00A0; 0x00C0; 0x00C1; 0x00C2; 0x00C3; 0x00C4; 0x00C5; 0x00C7; 0x00C8; 0x00C9; 0x00CA; 0x00CB; 0x00CC; 0x00CD;
   0x00CE; 0x00CF; 0x00D0; 0x00D1; 0x00D2; 0x00D3; 0x00D4; 0x00D5; 0x00D6; 0x00D9; 0x00DA; 0x00DB; 0x00DC; 0x00DD;
   0x00DE; 0x00B5; 0x00D7; 0x00F7; 0x00A9; 0x00A1; 0x00A2; 0x00A3; 0x2044; 0x00A5; 0x0192; 0x00A7; 0x00A4; 0x2019;
   0x201C; 0x00AB; 0x2039; 0x203A; 0xFB01; 0xFB02; 0x00AE; 0x2013; 0x2020; 0x2021; 0x00B7; 0x00A6; 0x00B6; 0x2022;
   0x201A; 0x201E; 0x201D; 0x00BB; 0x2026; 0x2030; 0x00AC; 0x00BF; 0x00B9; 0x02CB; 0x00B4; 0x02C6; 0x02DC; 0x00AF;
   0x02D8; 0x02D9; 0x00A8; 0x00B2; 0x02DA; 0x00B8; 0x00B3; 0x02DD; 0x02DB; 0x02C7; 0x2014; 0x00B1; 0x00BC; 0x00BD;
   0x00BE; 0x00E0; 0x00E1; 0x00E2; 0x00E3; 0x00E4; 0x00E5; 0x00E7; 0x00E8; 0x00E9; 0x00EA; 0x00EB; 0x00EC; 0x00C6;
   0x00ED; 0x00AA; 0x00EE; 0x00EF; 0x00F0; 0x00F1; 0x0141; 0x00D8; 0x0152; 0x00BA; 0x00F2; 0x00F3; 0x00F4; 0x00F5;
   0x00F6; 0x00E6; 0x00F9; 0x00FA; 0x00FB; 0x0131; 0x00FC; 0x00FD; 0x0142; 0x00F8; 0x0153; 0x00DF; 0x00FE; 0x00FF;
   0xFFFD; 0xFFFD].

Definition __CFFromNextStepLatin (flags byte : Z) : option (option Z) :=
  let* character := (if byte <? 0x80 then Some byte else rd NSToPrecompUnicodeTable (byte - 0x80)) in
  Some (if negb (character =? 0xFFFD) then Some character else None).

(** ** Composing for a converter *)

Definition __CFLatin1CombiningCharBitmap : list Z := [0xFBB94010; 0x01800000; 0x0000000].

(** [__CFLatin1CombiningCharBitmap[..] & (1 << (31 - ..))] *)
Definition CFStringEncodingIsValidCombiningCharacterForLatin1 (character : Z) : option bool :=
  if (0x300 <=? character) && (character <? 0x360) then
    let* w := rd __CFLatin1CombiningCharBitmap ((character - 0x300) / 32) in
    Some (negb (Z.land w (Z.shiftl 1 (31 - (character - 0x300) mod 32)) =? 0))
  else Some false.

Section Composing.
Context (T : unichar_tables) (P : precomposition_tables).

(** [while (usedCharLen < numChars)]: the character composed so far and
    [usedCharLen]. *)
Fixpoint precompose_latin_loop (fuel : nat) (character : list Z) (at_ numChars ch usedCharLen : Z) : option (Z * Z) :=
  if usedCharLen <? numChars then
    match fuel with
    | O => None
    | S fuel =>
        let* nextCh := rd character at_ in
        if CFUniCharIsSurrogateHighCharacter nextCh || CFUniCharIsSurrogateLowCharacter nextCh then Some (ch, usedCharLen)
        else
          let* nonBase := CFUniCharIsMemberOf T nextCh kCFUniCharNonBaseCharacterSet in
          if (nonBase : bool) then
            let* composedChar := CFUniCharPrecomposeCharacter P ch nextCh in
            if composedChar =? 0xFFFD then Some (ch, usedCharLen)
            else if 0xFFFF <? composedChar then Some (ch, usedCharLen)
            else precompose_latin_loop fuel character (at_ + 1) numChars composedChar (usedCharLen + 1)
          else Some (ch, usedCharLen)
    end
  else Some (ch, usedCharLen).

(** The character and [*usedChars], which is not set without characters. *)
Definition CFStringEncodingPrecomposeLatinCharacter (character : list Z) (at_ numChars : Z) : option (Z * option Z) :=
  if 0 <? numChars then
    let* ch := rd character at_ in
    if CFUniCharIsSurrogateHighCharacter ch || CFUniCharIsSurrogateLowCharacter ch then Some (ch, Some 1)
    else
      let* (ch, usedCharLen) := precompose_latin_loop (Z.to_nat numChars) character (at_ + 1) numChars ch 1 in
      Some (if 1 <? usedCharLen then ch else 0xFFFD, Some usedCharLen)
  else Some (0xFFFD, None).

(** The four functions that follow differ in the converter [to] only.  The
    characters used, the bytes and [*usedByteLen], which is not set when no
    character is used. *)
Definition to_precompose (to : Z -> Z -> option (option Z)) (flags : Z) (character : list Z) (at_ numChars : Z)
    (bytes : list Z) (b maxByteLen : Z) : option (Z * list Z * option Z) :=
  let* (ch, usedChars) := CFStringEncodingPrecomposeLatinCharacter character at_ numChars in
  let* byte := to flags (uwrap 16 ch) in
  match byte with
  | None => Some (0, bytes, None)
  | Some byte =>
      if byte =? 0 then Some (0, bytes, None)
      else
        let* usedCharLen := usedChars in
        if 1 <? usedCharLen then
          let* bytes := (if negb (maxByteLen =? 0) then wr bytes b byte else Some bytes) in
          Some (usedCharLen, bytes, Some 1)
        else Some (0, bytes, None)
  end.

Definition __CFToISOLatin1Precompose := to_precompose __CFToISOLatin1.
Definition __CFToMacRomanPrecompose := to_precompose __CFToMacRoman.
Definition __CFToWinLatin1Precompose := to_precompose __CFToWinLatin1.
Definition __CFToNextStepLatinPrecompose := to_precompose __CFToNextStepLatin.

End Composing.

(** ** What a converter promises

    Characters are 16-bit units.  [lost] are those that are converted to the byte
    of another character, or to a byte without one. *)

Class EightBit (to from : Z -> Z -> option (option Z)) (lost : Z -> bool) := {
  to_flags flags c : to flags c = to 0 c;
  from_flags flags b : from flags b = from 0 b;
  to_byte flags c : 0 <= c < 0x10000 ->
    exists r, to flags c = Some r /\ forall b, r = Some b -> is_byte b /\ (lost c = false -> from flags b = Some (Some c));
  from_byte flags b : is_byte b ->
    exists r, from flags b = Some r /\ forall c, r = Some c ->
      0 <= c < 0x10000 /\ ~ (0x300 <= c < 0x360) /\ lost c = false /\ to flags c = Some (Some b)
}.

Definition nothing_lost (c : Z) : bool := false.

Lemma paragraph_separator_unmapped c : __CFIsParagraphSeparator c = false.
Proof. done. Qed.

#[export] Instance ascii_converter : EightBit __CFToASCII __CFFromASCII nothing_lost.
Proof.
  unfold __CFToASCII, __CFFromASCII. split; [done|done|..]; intros flags c Hc; unfold is_byte in *.
  - destruct (Z.ltb_spec c 0x80); [|rewrite paragraph_separator_unmapped; by exists None]. exists (Some (uwrap 8 c)).
    split; [done|]. intros b [= <-]. rewrite uwrap_id by (unfold in_unsigned; lia). split; [unfold is_byte; lia|]. by destruct (Z.ltb_spec c 0x80); [|lia].
  - destruct (Z.ltb_spec c 0x80); [|by exists None]. exists (Some c). split; [done|]. intros d [= <-].
    destruct (Z.ltb_spec c 0x80); [|lia]. rewrite uwrap_id by (unfold in_unsigned; lia). split_and!; try lia; done.
Qed.

#[export] Instance latin1_converter : EightBit __CFToISOLatin1 __CFFromISOLatin1 nothing_lost.
Proof.
  unfold __CFToISOLatin1, __CFFromISOLatin1. split; [done|done|..]; intros flags c Hc; unfold is_byte in *.
  - destruct (Z.leb_spec c 0xFF); [|rewrite paragraph_separator_unmapped; by exists None]. exists (Some (uwrap 8 c)).
    split; [done|]. intros b [= <-]. rewrite uwrap_id by (unfold in_unsigned; lia). split; [unfold is_byte; lia|done].
  - exists (Some c). split; [done|]. intros d [= <-].
    destruct (Z.leb_spec c 0xFF); [|lia]. rewrite uwrap_id by (unfold in_unsigned; lia). split_and!; try lia; done.
Qed.

(** *** Converters with tables *)

(** The bytes that give a character, which gives them back. *)
Definition bytes_ok (to from : Z -> Z -> option (option Z)) (lost : Z -> bool) : bool :=
  forallb (fun b => match from 0 b with
    | Some (Some c) => (0 <=? c) && (c <? 0x10000) && negb ((0x300 <=? c) && (c <? 0x360)) && negb (lost c) &&
                       match to 0 c with Some (Some b') => b' =? b | _ => false end
    | Some None => true
    | None => false
    end) (Z.of_nat <$> seq 0 256).

(** The rows of the table give the character back. *)
Definition rows_ok (from : Z -> Z -> option (option Z)) (lost : Z -> bool) (table : list CFStringEncodingUnicodeTo8BitCharMap) : bool :=
  increasing _u table &&
  forallb (fun r => (0 <=? _c r) && (_c r <? 256) &&
    (lost (_u r) || match from 0 (_c r) with Some (Some c) => c =? _u r | _ => false end)) table.

Section Table.
Context (to from : Z -> Z -> option (option Z)) (lost : Z -> bool) (table : list CFStringEncodingUnicodeTo8BitCharMap).
Context (Hto : forall flags c, to flags c = to 0 c) (Hfrom : forall flags b, from flags b = from 0 b).
Context (Hne : table <> []) (Hbytes : bytes_ok to from lost = true) (Hrows : rows_ok from lost table = true).
(** The characters that are their own bytes, and the others. *)
Context (Hcase : forall c, 0 <= c < 0x10000 ->
  (to 0 c = Some (Some (uwrap 8 c)) /\ c < 0x100 /\ from 0 c = Some (Some c)) \/
  to 0 c = CFStringEncodingUnicodeTo8BitEncoding table (Z.of_nat (length table)) c).

Lemma table_converter : EightBit to from lost.
Proof.
  split; [done|done|..].
  - intros flags c Hc. rewrite Hto. destruct (Hcase c Hc) as [(E & Hlt & Ef)|E].
    { eexists. split; [exact E|]. intros b [= <-]. rewrite uwrap_id by (unfold in_unsigned; lia). unfold is_byte. split; [lia|].
      by rewrite Hfrom. }
    rewrite E. unfold CFStringEncodingUnicodeTo8BitEncoding. apply andb_true_iff in Hrows as [Hinc Hall].
    destruct (search_table_answers _u table [] c Hinc Hne) as (r & Er & Ha). rewrite app_nil_r in Er. rewrite Er. cbn [opt_bind].
    eexists. split; [done|]. intros b Eb. destruct r as [d|]; [|done]. injection Eb as <-. destruct Ha as [Hin <-].
    rewrite forallb_forall in Hall. specialize (Hall d Hin). apply andb_true_iff in Hall as [Hb Hl]. unfold is_byte. split; [lia|].
    intros Hlost. rewrite Hlost in Hl. cbn [orb] in Hl. rewrite Hfrom. destruct (from 0 (_c d)) as [[c|]|]; [|done..].
    apply Z.eqb_eq in Hl. by rewrite Hl.
  - intros flags b Hb. rewrite Hfrom. pose proof (forall_below _ 256 Hbytes b Hb) as Hck. cbn beta in Hck.
    destruct (from 0 b) as [[c|]|] eqn:E; [|by exists None|done]. exists (Some c). split; [done|]. intros d [= <-]. rewrite Hto.
    repeat (apply andb_true_iff in Hck as [Hck ?H]). destruct (to 0 c) as [[b'|]|]; [|done..]. apply Z.eqb_eq in H.
    apply negb_true_iff in H0. split_and!; try lia; [done|by rewrite H].
Qed.
End Table.

(** U+2126 OHM SIGN is converted to the byte of U+03A9. *)
#[export] Instance mac_roman_converter : EightBit __CFToMacRoman __CFFromMacRoman (Z.eqb 0x2126).
Proof.
  apply (table_converter _ _ _ macRoman_from_uni); try (by intros); [vm_compute; reflexivity..|].
  intros c Hc. unfold __CFToMacRoman, __CFFromMacRoman. destruct (Z.ltb_spec c 0x80); [left; split_and!; [done|lia|done]|by right].
Qed.

#[export] Instance win_latin1_converter : EightBit __CFToWinLatin1 __CFFromWinLatin1 nothing_lost.
Proof.
  apply (table_converter _ _ _ cp1252_from_uni); try (by intros); [vm_compute; reflexivity..|].
  intros c Hc. unfold __CFToWinLatin1, __CFFromWinLatin1.
  destruct ((c <? 0x80) || ((0x9F <? c) && (c <=? 0xFF))) eqn:E; [left|by right]. split_and!; [done|lia|].
  assert ((c <? 0x80) || (0x9F <? c) = true) as -> by lia. cbn [opt_bind].
  by destruct (Z.eqb_spec c 0xFFFD); [lia|].
Qed.

(** U+FFFD is converted to a byte that stands for no character. *)
#[export] Instance nextstep_converter : EightBit __CFToNextStepLatin __CFFromNextStepLatin (Z.eqb 0xFFFD).
Proof.
  apply (table_converter _ _ _ nextstep_from_tab); try (by intros); [vm_compute; reflexivity..|].
  intros c Hc. unfold __CFToNextStepLatin, __CFFromNextStepLatin. rewrite paragraph_separator_unmapped.
  destruct (Z.ltb_spec c 0x80); [left; split_and!; [done|lia|]|by right]. cbn [opt_bind]. by destruct (Z.eqb_spec c 0xFFFD); [lia|].
Qed.
