(* ===== verification/CFStringEncodingConverter.v ===== *)
(** * CFStringEncodingConverter: conversion between encodings

    CFStringEncodingConverter.c: the wrappers that turn a converter for single
    characters into one for strings, the substitutes for characters that
    cannot be converted, the registry of converters, and the conversions of
    CFStringEncodingUnicodeToBytes and CFStringEncodingBytesToUnicode with
    their predictions of lengths.  A pointer into a string is the string with an
    index; a function that returns through [usedByteLen] or [usedCharLen]
    returns the units it consumed, the destination and the units it stored.

    Not modelled: the wrappers for the classes StandardEightBit and
    CheapMultiByte, which no converter of the sources has. *)

From S2P Require Import Prelude CFInternal CFSortFunctions CFUniChar CFUnicodeDecomposition CFUnicodeDecomposeText.
From S2P Require Import CFUnicodeData CFUTF8 CFUnicodePrecomposition CFEightBit.
From stdpp Require Import base list numbers option.
From Stdlib Require Import ZArith Lia.
Open Scope Z_scope.
Open Scope cf_scope.

(** ** Flags, results and encodings *)

Definition kCFStringEncodingSubstituteCombinings : Z := Z.shiftl 1 3.
Definition kCFStringEncodingComposeCombinings : Z := Z.shiftl 1 4.
Definition kCFStringEncodingIgnoreCombinings : Z := Z.shiftl 1 5.

(** [((uint8_t)(flags >> 24))] *)
Definition CFStringEncodingMaskToLossyByte (flags : Z) : Z := uwrap 8 (Z.shiftr flags 24).

Definition kCFStringEncodingConversionSuccess : Z := 0.
Definition kCFStringEncodingInvalidInputStream : Z := 1.
Definition kCFStringEncodingInsufficientOutputBufferLength : Z := 2.
Definition kCFStringEncodingConverterUnavailable : Z := 3.

Definition kCFStringEncodingInvalidId : Z := 0xffffffff.
Definition kCFStringEncodingMacRoman : Z := 0.
Definition kCFStringEncodingWindowsLatin1 : Z := 0x0500.
Definition kCFStringEncodingISOLatin1 : Z := 0x0201.
Definition kCFStringEncodingNextStepLatin : Z := 0x0B01.
Definition kCFStringEncodingASCII : Z := 0x0600.
Definition kCFStringEncodingUTF8 : Z := 0x08000100.
Definition kCFStringEncodingNonLossyASCII : Z := 0x0BFF.
Definition kCFStringEncodingUTF16 : Z := 0x0100.
Definition kCFStringEncodingUTF16BE : Z := 0x10000100.
Definition kCFStringEncodingUTF16LE : Z := 0x14000100.
Definition kCFStringEncodingUTF32 : Z := 0x0c000100.
Definition kCFStringEncodingUTF32BE : Z := 0x18000100.
Definition kCFStringEncodingUTF32LE : Z := 0x1c000100.

(** ** Converters *)

(** From [characters] at an index, so many of them, to [bytes] at an index with
    so much room: what is consumed, the bytes, and what is stored. *)
Definition to_bytes_proc : Type := list Z -> Z -> Z -> list Z -> Z -> Z -> option (Z * list Z * Z).
Definition CFStringEncodingToBytesProc : Type := Z -> to_bytes_proc.
Definition CFStringEncodingToUnicodeProc : Type := Z -> to_bytes_proc.

(** A proc of one character, with [*byte] or [*character] if it returns true. *)
Definition CheapEightBitProc : Type := Z -> Z -> option (option Z).

(** [encodingClass] with the procs of the class. *)
Inductive converter_class : Type :=
| kCFStringEncodingConverterStandard (toBytes : CFStringEncodingToBytesProc) (toUnicode : CFStringEncodingToUnicodeProc)
| kCFStringEncodingConverterCheapEightBit (toBytes toUnicode : CheapEightBitProc)
| kCFStringEncodingConverterPlatformSpecific
| kCFStringEncodingConverterICU.

Record CFStringEncodingConverter : Type := {
  encodingClass : converter_class;
  maxBytesPerChar : Z;
  maxDecomposedCharLen : Z;
  toBytesLen : option (Z -> list Z -> Z -> option Z);
  toUnicodeLen : option (Z -> list Z -> Z -> option Z);
  definition_toBytesFallback : option to_bytes_proc;
  definition_toUnicodeFallback : option to_bytes_proc;
  toBytesPrecompose : option (Z -> list Z -> Z -> Z -> list Z -> Z -> Z -> option (Z * list Z * option Z));
  isValidCombiningChar : option (Z -> option bool)
}.

(** The fields [toBytes], [toUnicode] and [toCanonicalUnicode] follow from the
    class (TO_BYTE and TO_UNICODE below); a fallback may be NULL. *)
Record _CFEncodingConverter : Type := {
  definition : CFStringEncodingConverter;
  toBytesFallback : option to_bytes_proc;
  toUnicodeFallback : option to_bytes_proc
}.

(** ** Wrappers for single characters *)

(** [while (processedCharLen < length)], in both directions. *)
Fixpoint cheap_loop (proc : CheapEightBitProc) (flags : Z) (n : nat) (src : list Z) (s : Z) (dst : list Z) (d max processed : Z)
    : option (list Z * Z) :=
  match n with
  | O => Some (dst, processed)
  | S n =>
      let* c := rd src (s + processed) in
      let* r := proc flags c in
      match r with
      | None => Some (dst, processed)
      | Some b =>
          let* dst := (if negb (max =? 0) then wr dst (d + processed) b else Some dst) in
          cheap_loop proc flags n src s dst d max (processed + 1)
      end
  end.

Definition __CFToBytesCheapEightBitWrapper (proc : CheapEightBitProc) (flags : Z) (characters : list Z) (c numChars : Z)
    (bytes : list Z) (b maxByteLen : Z) : option (Z * list Z * Z) :=
  let length := if negb (maxByteLen =? 0) && (maxByteLen <? numChars) then maxByteLen else numChars in
  let* (bytes, processedCharLen) := cheap_loop proc flags (Z.to_nat length) characters c bytes b maxByteLen 0 in
  Some (processedCharLen, bytes, processedCharLen).

Definition __CFToUnicodeCheapEightBitWrapper (proc : CheapEightBitProc) (flags : Z) (bytes : list Z) (b numBytes : Z)
    (characters : list Z) (c maxCharLen : Z) : option (Z * list Z * Z) :=
  let length := if negb (maxCharLen =? 0) && (maxCharLen <? numBytes) then maxCharLen else numBytes in
  let* (characters, processedByteLen) := cheap_loop proc flags (Z.to_nat length) bytes b characters c maxCharLen 0 in
  Some (processedByteLen, characters, processedByteLen).

(** ** Substitutes *)

(** Characters 0xA0 to 0xFF in ASCII, up to four bytes each. *)
Definition _toLossyASCIITable : list (list Z) :=
  [[0x20; 0; 0; 0]; [0x21; 0; 0; 0]; [0x63; 0; 0; 0]; [0x4C; 0; 0; 0]; [0x24; 0; 0; 0]; [0x59; 0; 0; 0];
   [0x7C; 0; 0; 0]; [0; 0; 0; 0]; [0; 0; 0; 0]; [0x28; 0x43; 0x29; 0]; [0x61; 0; 0; 0]; [0x3C; 0x3C; 0; 0];
   [0; 0; 0; 0]; [0x2D; 0; 0; 0]; [0x28; 0x52; 0x29; 0]; [0; 0; 0; 0]; [0; 0; 0; 0]; [0x2B; 0x2D; 0; 0];
   [0x32; 0; 0; 0]; [0x33; 0; 0; 0]; [0; 0; 0; 0]; [0; 0; 0; 0]; [0; 0; 0; 0]; [0; 0; 0; 0]; [0; 0; 0; 0];
   [0x31; 0; 0; 0]; [0x6F; 0; 0; 0]; [0x3E; 0x3E; 0; 0]; [0x31; 0x2F; 0x34; 0]; [0x31; 0x2F; 0x32; 0];
   [0x33; 0x2F; 0x34; 0]; [0x3F; 0; 0; 0]; [0x41; 0; 0; 0]; [0x41; 0; 0; 0]; [0x41; 0; 0; 0]; [0x41; 0; 0; 0];
   [0x41; 0; 0; 0]; [0x41; 0; 0; 0]; [0x41; 0x45; 0; 0]; [0x43; 0; 0; 0]; [0x45; 0; 0; 0]; [0x45; 0; 0; 0];
   [0x45; 0; 0; 0]; [0x45; 0; 0; 0]; [0x49; 0; 0; 0]; [0x49; 0; 0; 0]; [0x49; 0; 0; 0]; [0x49; 0; 0; 0];
   [0x54; 0x48; 0; 0]; [0x4E; 0; 0; 0]; [0x4F; 0; 0; 0]; [0x4F; 0; 0; 0]; [0x4F; 0; 0; 0]; [0x4F; 0; 0; 0];
   [0x4F; 0; 0; 0]; [0x58; 0; 0; 0]; [0x4F; 0; 0; 0]; [0x55; 0; 0; 0]; [0x55; 0; 0; 0]; [0x55; 0; 0; 0];
   [0x55; 0; 0; 0]; [0x59; 0; 0; 0]; [0x74; 0x68; 0; 0]; [0x73; 0; 0; 0]; [0x61; 0; 0; 0]; [0x61; 0; 0; 0];
   [0x61; 0; 0; 0]; [0x61; 0; 0; 0]; [0x61; 0; 0; 0]; [0x61; 0; 0; 0]; [0x61; 0x65; 0; 0]; [0x63; 0; 0; 0];
   [0x65; 0; 0; 0]; [0x65; 0; 0; 0]; [0x65; 0; 0; 0]; [0x65; 0; 0; 0]; [0x69; 0; 0; 0]; [0x69; 0; 0; 0];
   [0x69; 0; 0; 0]; [0x69; 0; 0; 0]; [0x54; 0x48; 0; 0]; [0x6E; 0; 0; 0]; [0x6F; 0; 0; 0]; [0x6F; 0; 0; 0];
   [0x6F; 0; 0; 0]; [0x6F; 0; 0; 0]; [0x6F; 0; 0; 0]; [0x2F; 0; 0; 0]; [0x6F; 0; 0; 0]; [0x75; 0; 0; 0];
   [0x75; 0; 0; 0]; [0x75; 0; 0; 0]; [0x75; 0; 0; 0]; [0x79; 0; 0; 0]; [0x74; 0x68; 0; 0]; [0x79; 0; 0; 0]].

(** [for (idx = 0;idx < max;idx++)]; [used] is [numBytes]. *)
Fixpoint latin1_fallback_loop (n : nat) (losChars : list Z) (bytes : list Z) (b maxByteLen idx : Z) : option (list Z * Z) :=
  match n with
  | O => Some (bytes, idx)
  | S n =>
      let* c := rd losChars idx in
      if negb (c =? 0) then
        let* bytes := (if negb (maxByteLen =? 0) then wr bytes (b + idx) c else Some bytes) in
        latin1_fallback_loop n losChars bytes b maxByteLen (idx + 1)
      else Some (bytes, idx)
  end.

Definition __CFToASCIILatin1Fallback (character : Z) (bytes : list Z) (b maxByteLen : Z) : option (list Z * Z) :=
  let* losChars := rd _toLossyASCIITable (character - 0xA0) in
  let max := if negb (maxByteLen =? 0) && (maxByteLen <? 4) then maxByteLen else 4 in
  latin1_fallback_loop (Z.to_nat max) losChars bytes b maxByteLen 0.

Section Tables.
Context (T : unichar_tables) (D : decomposition_tables) (P : precomposition_tables).
(** what the cells of a fresh buffer hold *)
Context (junk : Z).

(** The function calls itself for the first character of a decomposition; when
    decompositions are complete that is once. *)
Fixpoint default_to_bytes (fuel : nat) (characters : list Z) (c numChars : Z) (bytes : list Z) (b maxByteLen : Z)
    : option (Z * list Z * Z) :=
  match fuel with
  | O => None
  | S fuel =>
      let* ch := rd characters c in
      let finish byte processCharLen filledBytesLen :=
        let* bytes := (if negb (maxByteLen =? 0) then wr bytes b byte else Some bytes) in
        Some (processCharLen, bytes, filledBytesLen) in
      if ch <? 0xA0 then finish (uwrap 8 (ch - 0x80)) 1 1
      else if ch <? 0x100 then
        let* (bytes, used) := __CFToASCIILatin1Fallback ch bytes b maxByteLen in Some (1, bytes, used)
      else if (0xD800 <=? ch) && (ch <=? 0xDFFF) then
        let* paired :=
          (if (1 <? numChars) && (ch <=? 0xDC00) then
             let* low := rd characters (c + 1) in Some ((0xDC00 <=? low) && (low <=? 0xDFFF))
           else Some false) in
        finish 0x3F (if (paired : bool) then 2 else 1) 1
      else
        let* space := CFUniCharIsMemberOf T ch kCFUniCharWhitespaceCharacterSet in
        if (space : bool) then finish 0x20 1 1
        else
          let* newline := CFUniCharIsMemberOf T ch kCFUniCharWhitespaceAndNewlineCharacterSet in
          if (newline : bool) then finish ASCIINewLine 1 1
          else if ch =? 0x2026 then
            if maxByteLen =? 0 then finish 0x3F 1 3
            else if 2 <? maxByteLen then let* bytes := memset bytes b 0x2E 3 in Some (1, bytes, 3)
            else finish 0x3F 1 1
          else
            let* decomposable := CFUniCharIsMemberOf T ch kCFUniCharCanonicalDecomposableCharacterSet in
            if (decomposable : bool) then
              let* (_, decomposed) :=
                CFUniCharDecomposeCharacter D ch (replicate (Z.to_nat MAX_DECOMPOSED_LENGTH) junk) 0 MAX_DECOMPOSED_LENGTH in
              let* first := rd decomposed 0 in
              if first <? 0x80 then finish (uwrap 8 first) 1 1
              else default_to_bytes fuel [uwrap 16 first] 0 1 bytes b maxByteLen
            else finish 0x3F 1 1
  end.

Definition __CFDefaultToBytesFallbackProc : to_bytes_proc := default_to_bytes 3.

Definition __CFDefaultToUnicodeFallbackProc : to_bytes_proc :=
  fun bytes b numBytes characters c maxCharLen =>
    let* characters := (if negb (maxCharLen =? 0) then wr characters c 0x3F else Some characters) in
    Some (1, characters, 1).

(** ** Canonical characters for a converter of single bytes *)

(** [for (idx = 0;idx < usedLen;idx++)]: [false] is the [return]. *)
Fixpoint store_canonical (n : nat) (charBuffer : list Z) (idx : Z) (characters : list Z) (c maxCharLen used : Z)
    : option (bool * list Z * Z * Z) :=
  match n with
  | O => Some (true, characters, c, used)
  | S n =>
      let* ch := rd charBuffer idx in
      if 0xFFFF <? ch then
        if maxCharLen <? used + 2 then Some (false, characters, c, used)
        else
          let* (characters, c) :=
            (if negb (maxCharLen =? 0) then
               let ch := ch - 0x10000 in
               let* characters := wr characters c (uwrap 16 (uwrap 16 (Z.shiftr ch 10) + 0xD800)) in
               let* characters := wr characters (c + 1) (uwrap 16 (uwrap 16 (Z.land ch 0x3FF) + 0xDC00)) in
               Some (characters, c + 2)
             else Some (characters, c)) in
          store_canonical n charBuffer (idx + 1) characters c maxCharLen (used + 2)
      else if maxCharLen <? used + 1 then Some (false, characters, c, used)
      else
        let* characters := wr characters c (uwrap 16 ch) in
        store_canonical n charBuffer (idx + 1) characters (c + 1) maxCharLen (used + 1)
  end.

(** [while ((processedByteLen < numBytes) && (!maxCharLen || (theUsedCharLen < maxCharLen)))] *)
Fixpoint canonical_loop (fuel : nat) (proc : CheapEightBitProc) (flags : Z) (bytes : list Z) (b numBytes : Z)
    (characters : list Z) (c maxCharLen processed used : Z) : option (Z * list Z * Z) :=
  let isHFSPlus := has_flag flags kCFStringEncodingUseHFSPlusCanonical in
  if (processed <? numBytes) && ((maxCharLen =? 0) || (used <? maxCharLen)) then
    match fuel with
    | O => None
    | S fuel =>
        let* byte := rd bytes (b + processed) in
        let* r := proc flags byte in
        match r with
        | None => Some (processed, characters, used)
        | Some character =>
            let* decomposable := CFUniCharIsDecomposableCharacter T character isHFSPlus in
            if (decomposable : bool) then
              let* (usedLen, charBuffer) :=
                CFUniCharDecomposeCharacter D character (replicate (Z.to_nat MAX_DECOMPOSED_LENGTH) junk) 0 MAX_DECOMPOSED_LENGTH in
              let* (ok, characters, c, used') := store_canonical (Z.to_nat usedLen) charBuffer 0 characters c maxCharLen used in
              if (ok : bool) then canonical_loop fuel proc flags bytes b numBytes characters c maxCharLen (processed + 1) used'
              else Some (processed, characters, used)
            else
              let* (characters, c) :=
                (if negb (maxCharLen =? 0) then let* characters := wr characters c character in Some (characters, c + 1)
                 else Some (characters, c)) in
              canonical_loop fuel proc flags bytes b numBytes characters c maxCharLen (processed + 1) (used + 1)
        end
    end
  else Some (processed, characters, used).

Definition __CFToCanonicalUnicodeCheapEightBitWrapper (proc : CheapEightBitProc) (flags : Z) (bytes : list Z) (b numBytes : Z)
    (characters : list Z) (c maxCharLen : Z) : option (Z * list Z * Z) :=
  canonical_loop (Z.to_nat numBytes) proc flags bytes b numBytes characters c maxCharLen 0 0.

(** ** The built-in converters *)

Definition eight_bit (to from : CheapEightBitProc)
    (precompose : option (Z -> list Z -> Z -> Z -> list Z -> Z -> Z -> option (Z * list Z * option Z)))
    (combining : option (Z -> option bool)) : CFStringEncodingConverter := {|
  encodingClass := kCFStringEncodingConverterCheapEightBit to from;
  maxBytesPerChar := 1; maxDecomposedCharLen := 1;
  toBytesLen := None; toUnicodeLen := None;
  definition_toBytesFallback := None; definition_toUnicodeFallback := None;
  toBytesPrecompose := precompose; isValidCombiningChar := combining |}.

Definition __CFConverterASCII := eight_bit __CFToASCII __CFFromASCII None None.
Definition __CFConverterISOLatin1 :=
  eight_bit __CFToISOLatin1 __CFFromISOLatin1 (Some (__CFToISOLatin1Precompose T P))
    (Some CFStringEncodingIsValidCombiningCharacterForLatin1).
Definition __CFConverterMacRoman :=
  eight_bit __CFToMacRoman __CFFromMacRoman (Some (__CFToMacRomanPrecompose T P))
    (Some CFStringEncodingIsValidCombiningCharacterForLatin1).
Definition __CFConverterWinLatin1 :=
  eight_bit __CFToWinLatin1 __CFFromWinLatin1 (Some (__CFToWinLatin1Precompose T P))
    (Some CFStringEncodingIsValidCombiningCharacterForLatin1).
Definition __CFConverterNextStepLatin :=
  eight_bit __CFToNextStepLatin __CFFromNextStepLatin (Some (__CFToNextStepLatinPrecompose T P))
    (Some CFStringEncodingIsValidCombiningCharacterForLatin1).

(** [proc] is called with pointers into the two strings. *)
Definition at_pointers (proc : list Z -> Z -> list Z -> Z -> option (Z * list Z * Z)) : to_bytes_proc :=
  fun src s n dst d max =>
    let* (consumed, dst', stored) := proc (drop (Z.to_nat s) src) n (drop (Z.to_nat d) dst) max in
    Some (consumed, take (Z.to_nat d) dst ++ dst', stored).

Definition __CFConverterUTF8 : CFStringEncodingConverter := {|
  encodingClass := kCFStringEncodingConverterStandard
    (fun flags => at_pointers (__CFToUTF8 flags)) (fun flags => at_pointers (__CFFromUTF8 T D junk flags));
  maxBytesPerChar := 3; maxDecomposedCharLen := 2;
  toBytesLen := Some __CFToUTF8Len; toUnicodeLen := Some (__CFFromUTF8Len T D junk);
  definition_toBytesFallback := None; definition_toUnicodeFallback := None;
  toBytesPrecompose := None; isValidCombiningChar := None |}.

(** ** The registry

    [__CFStringEncodingGetICUName] tells which encodings ICU has; they get
    [__CFICUBootstrap]. *)
Context (ICUName : Z -> bool).

Definition __CFICUBootstrap : CFStringEncodingConverter := {|
  encodingClass := kCFStringEncodingConverterICU; maxBytesPerChar := 6; maxDecomposedCharLen := 4;
  toBytesLen := None; toUnicodeLen := None; definition_toBytesFallback := None; definition_toUnicodeFallback := None;
  toBytesPrecompose := None; isValidCombiningChar := None |}.

Definition __CFPlatformBootstrap : CFStringEncodingConverter := {|
  encodingClass := kCFStringEncodingConverterPlatformSpecific; maxBytesPerChar := 6; maxDecomposedCharLen := 4;
  toBytesLen := None; toUnicodeLen := None; definition_toBytesFallback := None; definition_toUnicodeFallback := None;
  toBytesPrecompose := None; isValidCombiningChar := None |}.

Definition __CFIsPlatformConverterAvailable (encoding : Z) : bool := false.

Definition __CFStringEncodingGetExternalConverter (encoding : Z) : option CFStringEncodingConverter :=
  if __CFIsPlatformConverterAvailable encoding then Some __CFPlatformBootstrap
  else if ICUName encoding then Some __CFICUBootstrap else None.

Definition __CFStringEncodingConverterGetDefinition (encoding : Z) : option CFStringEncodingConverter :=
  if encoding =? kCFStringEncodingUTF8 then Some __CFConverterUTF8
  else if encoding =? kCFStringEncodingMacRoman then Some __CFConverterMacRoman
  else if encoding =? kCFStringEncodingWindowsLatin1 then Some __CFConverterWinLatin1
  else if encoding =? kCFStringEncodingASCII then Some __CFConverterASCII
  else if encoding =? kCFStringEncodingISOLatin1 then Some __CFConverterISOLatin1
  else if encoding =? kCFStringEncodingNextStepLatin then Some __CFConverterNextStepLatin
  else __CFStringEncodingGetExternalConverter encoding.

Definition __CFEncodingConverterFromDefinition (d : CFStringEncodingConverter) : _CFEncodingConverter := {|
  definition := d;
  toBytesFallback := match definition_toBytesFallback d with Some f => Some f | None => Some __CFDefaultToBytesFallbackProc end;
  toUnicodeFallback := match definition_toUnicodeFallback d with Some f => Some f | None => Some __CFDefaultToUnicodeFallbackProc end |}.

(** [commonConverters] (UTF-8, Mac Roman, the system encoding) and
    [mappingTable]. *)
Record converters : Type := {
  commonConverters : option _CFEncodingConverter * option _CFEncodingConverter * option _CFEncodingConverter;
  mappingTable : list (Z * _CFEncodingConverter)
}.

Definition no_converters : converters := {| commonConverters := (None, None, None); mappingTable := [] |}.

(** CFStringGetSystemEncoding() *)
Context (systemEncoding : Z).

(** Where the converter of an encoding is kept. *)
Definition commonConverterSlot (encoding : Z) : option nat :=
  if encoding =? kCFStringEncodingUTF8 then Some 0%nat
  else if encoding =? kCFStringEncodingMacRoman then Some 1%nat
  else if systemEncoding =? encoding then Some 2%nat else None.

Fixpoint mapping_lookup (table : list (Z * _CFEncodingConverter)) (encoding : Z) : option _CFEncodingConverter :=
  match table with
  | [] => None
  | (e, conv) :: table => if e =? encoding then Some conv else mapping_lookup table encoding
  end.

Definition kept_converter (cs : converters) (encoding : Z) : option _CFEncodingConverter :=
  let '(utf8, mac, sys) := commonConverters cs in
  match commonConverterSlot encoding with
  | Some 0%nat => utf8
  | Some 1%nat => mac
  | Some _ => sys
  | None => mapping_lookup (mappingTable cs) encoding
  end.

Definition keep_converter (cs : converters) (encoding : Z) (conv : _CFEncodingConverter) : converters :=
  let '(utf8, mac, sys) := commonConverters cs in
  match commonConverterSlot encoding with
  | Some 0%nat => {| commonConverters := (Some conv, mac, sys); mappingTable := mappingTable cs |}
  | Some 1%nat => {| commonConverters := (utf8, Some conv, sys); mappingTable := mappingTable cs |}
  | Some _ => {| commonConverters := (utf8, mac, Some conv); mappingTable := mappingTable cs |}
  | None => {| commonConverters := (utf8, mac, sys); mappingTable := (encoding, conv) :: mappingTable cs |}
  end.

Definition __CFGetConverter (cs : converters) (encoding : Z) : option _CFEncodingConverter * converters :=
  match kept_converter cs encoding with
  | Some conv => (Some conv, cs)
  | None =>
      match __CFStringEncodingConverterGetDefinition encoding with
      | None => (None, cs)
      | Some d => let conv := __CFEncodingConverterFromDefinition d in (Some conv, keep_converter cs encoding conv)
      end
  end.

Definition CFStringEncodingGetConverter (cs : converters) (encoding : Z) : option CFStringEncodingConverter * converters :=
  let '(conv, cs) := __CFGetConverter cs encoding in (definition <$> conv, cs).

Definition CFStringEncodingIsValidEncoding (cs : converters) (encoding : Z) : bool * converters :=
  let '(conv, cs) := CFStringEncodingGetConverter cs encoding in (if conv then true else false, cs).

(** A proc of NULL registers that of the definition, which may be NULL. *)
Definition CFStringEncodingRegisterFallbackProcedures (cs : converters) (encoding : Z) (toBytes toUnicode : option to_bytes_proc)
    : converters :=
  let '(conv, cs) := __CFGetConverter cs encoding in
  match conv with
  | None => cs
  | Some conv =>
      let '(body, cs) := CFStringEncodingGetConverter cs encoding in
      keep_converter cs encoding {|
        definition := definition conv;
        toBytesFallback := match toBytes with
          | Some f => Some f
          | None => match body with None => Some __CFDefaultToBytesFallbackProc | Some d => definition_toBytesFallback d end
          end;
        toUnicodeFallback := match toUnicode with
          | Some f => Some f
          | None => match body with None => Some __CFDefaultToUnicodeFallbackProc | Some d => definition_toUnicodeFallback d end
          end |}
  end.

(** ** Conversion *)

Definition TO_BYTE (conv : _CFEncodingConverter) (flags : Z) : to_bytes_proc :=
  match encodingClass (definition conv) with
  | kCFStringEncodingConverterStandard toBytes _ => toBytes flags
  | kCFStringEncodingConverterCheapEightBit toBytes _ => __CFToBytesCheapEightBitWrapper toBytes flags
  | _ => fun _ _ _ _ _ _ => None
  end.

Definition TO_UNICODE (conv : _CFEncodingConverter) (flags : Z) : to_bytes_proc :=
  match encodingClass (definition conv) with
  | kCFStringEncodingConverterStandard _ toUnicode => toUnicode flags
  | kCFStringEncodingConverterCheapEightBit _ toUnicode =>
      if has_flag flags (Z.lor kCFStringEncodingUseCanonical kCFStringEncodingUseHFSPlusCanonical)
      then __CFToCanonicalUnicodeCheapEightBitWrapper toUnicode flags
      else __CFToUnicodeCheapEightBitWrapper toUnicode flags
  | _ => fun _ _ _ _ _ _ => None
  end.

(** A call of a fallback; a NULL pointer has no effect that can be told. *)
Definition call_fallback (f : option to_bytes_proc) : to_bytes_proc :=
  fun src s n dst d max => match f with Some f => f src s n dst d max | None => None end.

(** What a conversion returns: a code and what it has used and stored.  Without a
    converter only the code is set. *)
Inductive converted : Type :=
| Unavailable
| Converted (result usedLen : Z) (dst : list Z) (usedDst : Z).

(** Conversions by ICU and by the platform. *)
Context (icu_to_bytes icu_to_unicode : Z -> Z -> list Z -> Z -> list Z -> Z -> option converted).
Context (platform_to_bytes platform_to_unicode : Z -> Z -> list Z -> Z -> list Z -> Z -> option converted).

(** [while (isValidCombiningChar(characters[--usedLen]));] *)
Fixpoint back_over (fuel : nat) (valid : Z -> option bool) (characters : list Z) (usedLen : Z) : option Z :=
  match fuel with
  | O => None
  | S fuel =>
      let usedLen := usedLen - 1 in
      let* c := rd characters usedLen in
      let* v := valid c in
      if (v : bool) then back_over fuel valid characters usedLen else Some usedLen
  end.

(** [while (isValidCombiningChar(characters[++usedLen]));] *)
Fixpoint forth_over (fuel : nat) (valid : Z -> option bool) (characters : list Z) (usedLen : Z) : option Z :=
  match fuel with
  | O => None
  | S fuel =>
      let usedLen := usedLen + 1 in
      let* c := rd characters usedLen in
      let* v := valid c in
      if (v : bool) then forth_over fuel valid characters usedLen else Some usedLen
  end.

(** [while ((++usedLen < numChars) && isValidCombiningChar(characters[usedLen]));] *)
Fixpoint ignore_over (fuel : nat) (valid : Z -> option bool) (characters : list Z) (numChars usedLen : Z) : option Z :=
  match fuel with
  | O => None
  | S fuel =>
      let usedLen := usedLen + 1 in
      if usedLen <? numChars then
        let* c := rd characters usedLen in
        let* v := valid c in
        if (v : bool) then ignore_over fuel valid characters numChars usedLen else Some usedLen
      else Some usedLen
  end.

(** A round of the loop: what it goes on with, or the [break]. *)
Inductive to_bytes_round : Type :=
| Continue (usedLen theUsedByteLen : Z) (bytes : list Z)
| Break (theResult usedLen theUsedByteLen : Z) (bytes : list Z).

Section ToBytes.
Context (converter : _CFEncodingConverter) (flags : Z) (characters : list Z) (numChars maxByteLen : Z).
Context (combining : option (Z -> option bool))
        (precompose : option (Z -> list Z -> Z -> Z -> list Z -> Z -> Z -> option (Z * list Z * option Z))).

Definition room (used : Z) : Z := if negb (maxByteLen =? 0) then maxByteLen - used else 0.

Definition lossy_flag : bool := has_flag flags kCFStringEncodingAllowLossyConversion.

(** [if (maxByteLen) *(bytes + theUsedByteLen) = lossyByte;] *)
Definition store_lossy (bytes : list Z) (used : Z) : option (list Z) :=
  if negb (maxByteLen =? 0) then wr bytes used (CFStringEncodingMaskToLossyByte flags) else Some bytes.

(** TO_BYTE_FALLBACK at [usedLen], and the end of the round. *)
Definition substitute (usedLen used : Z) (bytes : list Z) : option to_bytes_round :=
  let* (n, bytes, localUsed) :=
    call_fallback (toBytesFallback converter) characters usedLen (numChars - usedLen) bytes used (room used) in
  Some (Continue (usedLen + n) (used + localUsed) bytes).

(** [TO_BYTE(converter, flags, characters + usedLen, .., NULL, 0, &dummy)] *)
Definition converts_next (usedLen n : Z) : option (Z * Z) :=
  let* (consumed, _, stored) := TO_BYTE converter flags characters usedLen n [] 0 0 in Some (consumed, stored).

(** [maxByteLen && ((maxByteLen == theUsedByteLen + localUsedByteLen) || TO_BYTE(..))] *)
Definition filled_up (usedLen used localUsed : Z) : option bool :=
  if negb (maxByteLen =? 0) then
    if maxByteLen =? used + localUsed then Some true
    else let* (consumed, _) := converts_next usedLen (numChars - usedLen) in Some (negb (consumed =? 0))
  else Some false.

(** The combining character at [usedLen] and the base before it. *)
Definition compose_round (valid : Z -> option bool)
    (proc : Z -> list Z -> Z -> Z -> list Z -> Z -> Z -> option (Z * list Z * option Z))
    (usedLen used localUsed : Z) (bytes : list Z) : option to_bytes_round :=
  let localUsedLen := usedLen in
  let* usedLen := back_over (S (Z.to_nat usedLen)) valid characters usedLen in
  let used := used + localUsed in
  let* used :=
    (if 1 <? maxBytesPerChar (definition converter) then
       let* (_, stored) := converts_next usedLen (localUsedLen - usedLen) in Some (used - stored)
     else Some (used - 1)) in
  let* (n, bytes, localUsed) := proc flags characters usedLen (numChars - usedLen) bytes used (room used) in
  if 0 <? n then
    let usedLen := usedLen + n in
    let* localUsed := localUsed in
    let* remaining := (if usedLen <? numChars then let* c := rd characters usedLen in valid c else Some false) in
    if (remaining : bool) then Some (Break kCFStringEncodingInvalidInputStream usedLen (used + localUsed) bytes)
    else Some (Continue usedLen (used + localUsed) bytes)
  else if lossy_flag then
    if negb (CFStringEncodingMaskToLossyByte flags =? 0) then
      let* usedLen := forth_over (S (length characters)) valid characters usedLen in
      let* bytes := store_lossy bytes used in
      Some (Continue usedLen (used + 1) bytes)
    else substitute (usedLen + 1) used bytes
  else Some (Break kCFStringEncodingInvalidInputStream usedLen used bytes).

(** A combining character that is not composed. *)
Definition combining_round (valid : Z -> option bool) (usedLen used localUsed : Z) (bytes : list Z) : option to_bytes_round :=
  let* filled := filled_up usedLen used localUsed in
  if (filled : bool) then Some (Break kCFStringEncodingInsufficientOutputBufferLength usedLen (used + localUsed) bytes)
  else if has_flag flags kCFStringEncodingIgnoreCombinings then
    let* usedLen := ignore_over (S (Z.to_nat numChars)) valid characters numChars usedLen in
    Some (Continue usedLen (used + localUsed) bytes)
  else
    let used := used + localUsed in
    if negb (CFStringEncodingMaskToLossyByte flags =? 0) then
      let* bytes := store_lossy bytes used in
      Some (Continue (usedLen + 1) (used + 1) bytes)
    else substitute usedLen used bytes.

(** [while ((usedLen < numChars) && !localUsedByteLen && (localUsedLen = TO_BYTE_FALLBACK(.., NULL, 0, ..)))]:
    characters whose substitute is empty. *)
Fixpoint skip_empty (fuel : nat) (usedLen localUsed : Z) : option Z :=
  if (usedLen <? numChars) && (localUsed =? 0) then
    match fuel with
    | O => None
    | S fuel =>
        let* (n, _, localUsed) := call_fallback (toBytesFallback converter) characters usedLen (numChars - usedLen) [] 0 0 in
        if n =? 0 then Some usedLen
        else if localUsed =? 0 then skip_empty fuel (usedLen + n) localUsed
        else skip_empty fuel usedLen localUsed
    end
  else Some usedLen.

(** The end of the destination: the rest may still have empty substitutes. *)
Definition full_result (usedLen : Z) : option (Z * Z) :=
  let* usedLen :=
    (if lossy_flag && (CFStringEncodingMaskToLossyByte flags =? 0) then skip_empty (S (Z.to_nat numChars)) usedLen 0 else Some usedLen) in
  Some (if usedLen <? numChars then kCFStringEncodingInsufficientOutputBufferLength else kCFStringEncodingConversionSuccess, usedLen).

(** A character that cannot be converted, or that has no room. *)
Definition plain_round (usedLen used localUsed : Z) (bytes : list Z) : option to_bytes_round :=
  let* filled := filled_up usedLen used localUsed in
  if (filled : bool) then
    let* (theResult, usedLen) := full_result usedLen in Some (Break theResult usedLen (used + localUsed) bytes)
  else if lossy_flag then
    let used := used + localUsed in
    if negb (CFStringEncodingMaskToLossyByte flags =? 0) then
      let* bytes := store_lossy bytes used in Some (Continue (usedLen + 1) (used + 1) bytes)
    else substitute usedLen used bytes
  else Some (Break kCFStringEncodingInvalidInputStream usedLen (used + localUsed) bytes).

(** The body of the loop. *)
Definition to_bytes_body (usedLen used : Z) (bytes : list Z) : option to_bytes_round :=
  let* (n, bytes, localUsed) := TO_BYTE converter flags characters usedLen (numChars - usedLen) bytes used (room used) in
  let usedLen := usedLen + n in
  if usedLen <? numChars then
    match combining with
    | Some valid =>
        let* combines := (if 0 <? usedLen then let* c := rd characters usedLen in valid c else Some false) in
        if (combines : bool) then
          match precompose with
          | Some proc => compose_round valid proc usedLen used localUsed bytes
          | None => combining_round valid usedLen used localUsed bytes
          end
        else plain_round usedLen used localUsed bytes
    | None => plain_round usedLen used localUsed bytes
    end
  else Some (Continue usedLen (used + localUsed) bytes).

(** [while ((usedLen < numChars) && (!maxByteLen || (theUsedByteLen < maxByteLen)))],
    and [theResult]. *)
Fixpoint to_bytes_loop (fuel : nat) (usedLen used : Z) (bytes : list Z) : option (Z * Z * Z * list Z) :=
  if (usedLen <? numChars) && ((maxByteLen =? 0) || (used <? maxByteLen)) then
    match fuel with
    | O => None
    | S fuel =>
        let* round := to_bytes_body usedLen used bytes in
        match round with
        | Continue usedLen used bytes => to_bytes_loop fuel usedLen used bytes
        | Break theResult usedLen used bytes => Some (theResult, usedLen, used, bytes)
        end
    end
  else Some (kCFStringEncodingConversionSuccess, usedLen, used, bytes).

End ToBytes.

(** The test of the unit at which the conversion to UTF-8 has stopped. *)
Definition stray_surrogate (characters : list Z) (numChars convertedCharLen : Z) : option bool :=
  let* character := rd characters convertedCharLen in
  if (0xDC00 <=? character) && (character <=? 0xDFFF) then Some true
  else if (0xD800 <=? character) && (character <=? 0xDBFF) then
    if 1 =? numChars - convertedCharLen then Some true
    else let* next := rd characters (convertedCharLen + 1) in Some ((next <? 0xDC00) || (0xDFFF <? next))
  else Some false.

(** The conversion to UTF-8. *)
Definition unicode_to_utf8 (flags : Z) (characters : list Z) (numChars : Z) (bytes : list Z) (maxByteLen : Z) : option converted :=
  let* (convertedCharLen, bytes, usedLen) :=
    (if has_flag flags kCFStringEncodingUseCanonical || has_flag flags kCFStringEncodingUseHFSPlusCanonical then
       let* (_, consumed, bytes, filled) :=
         CFUniCharDecompose T D characters maxByteLen true kCFUniCharUTF8Format (has_flag flags kCFStringEncodingUseHFSPlusCanonical)
           junk numChars bytes in
       Some (consumed, bytes, filled)
     else __CFToUTF8 0 characters numChars bytes maxByteLen) in
  let* result :=
    (if convertedCharLen =? numChars then Some kCFStringEncodingConversionSuccess
     else if (0 <? maxByteLen) && (maxByteLen - usedLen <? 10) then
       let* stray := stray_surrogate characters numChars convertedCharLen in
       Some (if (stray : bool) then kCFStringEncodingInvalidInputStream else kCFStringEncodingInsufficientOutputBufferLength)
     else Some kCFStringEncodingInvalidInputStream) in
  Some (Converted result convertedCharLen bytes usedLen).

(** The conversion and the registry it leaves.  [fuel] bounds the loop, which may
    not end. *)
Definition CFStringEncodingUnicodeToBytes (fuel : nat) (cs : converters) (encoding flags : Z) (characters : list Z) (numChars : Z)
    (bytes : list Z) (maxByteLen : Z) : option (converted * converters) :=
  if encoding =? kCFStringEncodingUTF8 then
    let* r := unicode_to_utf8 flags characters numChars bytes maxByteLen in
    Some (r, if has_flag flags kCFStringEncodingUseCanonical || has_flag flags kCFStringEncodingUseHFSPlusCanonical then cs
             else snd (CFStringEncodingGetConverter cs kCFStringEncodingUTF8))
  else
    let '(conv, cs) := __CFGetConverter cs encoding in
    match conv with
    | None => Some (Unavailable, cs)
    | Some converter =>
        let d := definition converter in
        let '(combining, precompose, flags) :=
          (if has_flag flags kCFStringEncodingSubstituteCombinings then
             (if negb (has_flag flags kCFStringEncodingAllowLossyConversion) then isValidCombiningChar d else None, None, flags)
           else if negb (has_flag flags kCFStringEncodingIgnoreCombinings) then
             (isValidCombiningChar d, toBytesPrecompose d, Z.lor flags kCFStringEncodingComposeCombinings)
           else (isValidCombiningChar d, None, flags)) in
        let* r :=
          match encodingClass d with
          | kCFStringEncodingConverterICU => icu_to_bytes encoding flags characters numChars bytes maxByteLen
          | kCFStringEncodingConverterPlatformSpecific => platform_to_bytes encoding flags characters numChars bytes maxByteLen
          | _ =>
              let* (theResult, usedLen, used, bytes) :=
                to_bytes_loop converter flags characters numChars maxByteLen combining precompose fuel 0 0 bytes in
              let* (theResult, usedLen) :=
                (if (usedLen <? numChars) && negb (maxByteLen =? 0) && (theResult =? kCFStringEncodingConversionSuccess)
                 then full_result converter flags characters numChars usedLen else Some (theResult, usedLen)) in
              Some (Converted theResult usedLen bytes used)
          end in
        Some (r, cs)
    end.

Section ToUnicode.
Context (converter : _CFEncodingConverter) (flags : Z) (bytes : list Z) (numBytes maxCharLen : Z).

Definition canonical_flag : bool := has_flag flags (Z.lor kCFStringEncodingUseCanonical kCFStringEncodingUseHFSPlusCanonical).

(** Whether the destination is full, or has one unit left and the next character
    needs two. *)
Definition characters_filled_up (usedLen used localUsed : Z) : option bool :=
  if negb (maxCharLen =? 0) then
    if maxCharLen =? used + localUsed then Some true
    else if canonical_flag || (maxCharLen =? used + localUsed + 1) then
      let* (n, _, _) := TO_UNICODE converter flags bytes usedLen (numBytes - usedLen) [] 0 0 in Some (negb (n =? 0))
    else Some false
  else Some false.

(** [while ((usedLen < numBytes) && (!maxCharLen || (theUsedCharLen < maxCharLen)))] *)
Fixpoint to_unicode_loop (fuel : nat) (usedLen used : Z) (characters : list Z) : option (Z * Z * Z * list Z) :=
  if (usedLen <? numBytes) && ((maxCharLen =? 0) || (used <? maxCharLen)) then
    match fuel with
    | O => None
    | S fuel =>
        let* (n, characters, localUsed) :=
          TO_UNICODE converter flags bytes usedLen (numBytes - usedLen) characters used (room maxCharLen used) in
        let usedLen := usedLen + n in
        let used' := used + localUsed in
        if usedLen <? numBytes then
          let* filled := characters_filled_up usedLen used localUsed in
          if (filled : bool) then Some (kCFStringEncodingInsufficientOutputBufferLength, usedLen, used', characters)
          else if has_flag flags kCFStringEncodingAllowLossyConversion then
            let* (n, characters, localUsed) :=
              call_fallback (toUnicodeFallback converter) bytes usedLen (numBytes - usedLen) characters used' (room maxCharLen used') in
            to_unicode_loop fuel (usedLen + n) (used' + localUsed) characters
          else Some (kCFStringEncodingInvalidInputStream, usedLen, used', characters)
        else to_unicode_loop fuel usedLen used' characters
    end
  else Some (kCFStringEncodingConversionSuccess, usedLen, used, characters).

End ToUnicode.

Definition CFStringEncodingBytesToUnicode (fuel : nat) (cs : converters) (encoding flags : Z) (bytes : list Z) (numBytes : Z)
    (characters : list Z) (maxCharLen : Z) : option (converted * converters) :=
  let '(conv, cs) := __CFGetConverter cs encoding in
  match conv with
  | None => Some (Unavailable, cs)
  | Some converter =>
      let* r :=
        match encodingClass (definition converter) with
        | kCFStringEncodingConverterICU => icu_to_unicode encoding flags bytes numBytes characters maxCharLen
        | kCFStringEncodingConverterPlatformSpecific => platform_to_unicode encoding flags bytes numBytes characters maxCharLen
        | _ =>
            let* (theResult, usedLen, used, characters) :=
              to_unicode_loop converter flags bytes numBytes maxCharLen fuel 0 0 characters in
            let theResult :=
              if (usedLen <? numBytes) && negb (maxCharLen =? 0) && (theResult =? kCFStringEncodingConversionSuccess)
              then kCFStringEncodingInsufficientOutputBufferLength else theResult in
            Some (Converted theResult usedLen characters used)
        end in
      Some (r, cs)
  end.

(** ** Predicted lengths *)

Context (icu_char_length icu_byte_length platform_char_length platform_byte_length : Z -> Z -> list Z -> Z -> option Z).

(** [while (numBytes > 0)] *)
Fixpoint char_length_loop (fuel : nat) (converter : _CFEncodingConverter) (flags : Z) (bytes : list Z) (b numBytes totalLength : Z)
    : option Z :=
  if 0 <? numBytes then
    match fuel with
    | O => None
    | S fuel =>
        let* (n, _, used) := TO_UNICODE converter flags bytes b numBytes [] 0 0 in
        let b := b + n in
        let numBytes := numBytes - n in
        let totalLength := totalLength + used in
        if 0 <? numBytes then
          if negb (has_flag flags kCFStringEncodingAllowLossyConversion) then Some 0
          else
            let* (n, _, used) := call_fallback (toUnicodeFallback converter) bytes b numBytes [] 0 0 in
            char_length_loop fuel converter flags bytes (b + n) (numBytes - n) (totalLength + used)
        else char_length_loop fuel converter flags bytes b numBytes totalLength
    end
  else Some totalLength.

Definition CFStringEncodingCharLengthForBytes (fuel : nat) (cs : converters) (encoding flags : Z) (bytes : list Z) (numBytes : Z)
    : option (Z * converters) :=
  let '(conv, cs) := __CFGetConverter cs encoding in
  match conv with
  | None => Some (0, cs)
  | Some converter =>
      let d := definition converter in
      let* n :=
        match encodingClass d with
        | kCFStringEncodingConverterICU => icu_char_length encoding flags bytes numBytes
        | kCFStringEncodingConverterPlatformSpecific => platform_char_length encoding flags bytes numBytes
        | _ =>
            if 1 =? maxBytesPerChar d then Some numBytes
            else match toUnicodeLen d with
                 | None => char_length_loop fuel converter flags bytes 0 numBytes 0
                 | Some proc => proc flags bytes numBytes
                 end
        end in
      Some (n, cs)
  end.

Definition CFStringEncodingByteLengthForCharacters (fuel : nat) (cs : converters) (encoding flags : Z) (characters : list Z)
    (numChars : Z) : option (Z * converters) :=
  let '(conv, cs) := __CFGetConverter cs encoding in
  match conv with
  | None => Some (0, cs)
  | Some converter =>
      let d := definition converter in
      match encodingClass d with
      | kCFStringEncodingConverterICU => let* n := icu_byte_length encoding flags characters numChars in Some (n, cs)
      | kCFStringEncodingConverterPlatformSpecific => let* n := platform_byte_length encoding flags characters numChars in Some (n, cs)
      | _ =>
          if 1 =? maxBytesPerChar d then Some (numChars, cs)
          else match toBytesLen d with
               | None =>
                   let* (r, cs) := CFStringEncodingUnicodeToBytes fuel cs encoding flags characters numChars [] 0 in
                   Some (match r with
                         | Converted result _ _ used => if kCFStringEncodingConversionSuccess =? result then used else 0
                         | Unavailable => 0
                         end, cs)
               | Some proc => let* n := proc flags characters numChars in Some (n, cs)
               end
      end
  end.

End Tables.

(** ** The list of encodings *)

Definition __CFBuiltinEncodings : list Z :=
  [kCFStringEncodingMacRoman; kCFStringEncodingWindowsLatin1; kCFStringEncodingISOLatin1; kCFStringEncodingNextStepLatin;
   kCFStringEncodingASCII; kCFStringEncodingUTF8; kCFStringEncodingNonLossyASCII;
   kCFStringEncodingUTF16; kCFStringEncodingUTF16BE; kCFStringEncodingUTF16LE;
   kCFStringEncodingUTF32; kCFStringEncodingUTF32BE; kCFStringEncodingUTF32LE; kCFStringEncodingInvalidId].

(** CFComparisonResult is a CFIndex. *)
Definition __CFStringEncodingComparator (v1 v2 : Z) : Z :=
  let val1 := Z.land v1 0xFFFF in
  let val2 := Z.land v2 0xFFFF in
  if val1 =? val2 then v1 - v2 else val1 - val2.

(** [while (encodings < limitEncodings)]: [e] and [limit] are the two pointers. *)
Fixpoint filter_loop (fuel : nat) (encodings : list Z) (e limit last : Z) : option (list Z) :=
  if e <? limit then
    match fuel with
    | O => None
    | S fuel =>
        let* x := rd encodings e in
        if last =? x then
          let* encodings := (if e + 1 <? limit then memmove encodings e encodings (e + 1) (limit - e - 1) else Some encodings) in
          filter_loop fuel encodings e (limit - 1) last
        else filter_loop fuel encodings (e + 1) limit x
    end
  else Some encodings.

Definition __CFStringEncodingFliterDupes (encodings : list Z) (numSlots : Z) : option (list Z) :=
  filter_loop (Z.to_nat numSlots) encodings 0 numSlots kCFStringEncodingInvalidId.

(** The list made at the first call; the two arguments are the lists of ICU and
    of the platform, if there are any. *)
Definition CFStringEncodingListOfAvailableEncodings (icuConverters platformConverters : option (list Z)) : option (list Z) :=
  match icuConverters, platformConverters with
  | None, None => Some __CFBuiltinEncodings
  | _, _ =>
      let encodings := __CFBuiltinEncodings ++ default [] icuConverters ++ default [] platformConverters in
      let numSlots := Z.of_nat (length encodings) in
      let* encodings := CFQSortArray __CFStringEncodingComparator encodings numSlots 4 in
      __CFStringEncodingFliterDupes encodings numSlots
  end.
