(* ===== verification/CFStringConversions.v ===== *)
(** * CFStringConversions: what the conversions between encodings do

    Theorems about CFStringEncodingConverter.v: conversions with a converter for
    single bytes, to UTF-8, the list of encodings, and the inputs on which the
    conversion loops, leaves its buffers or loses characters.  The converters
    are used through the laws of [EightBit] and the lemmas of CFUTF8.v. *)

From S2P Require Import Prelude CFInternal CFSortFunctions CFUniChar CFUnicodeDecomposition CFUnicodeDecomposeText.
From S2P Require Import CFUnicodeData CFUTF8 CFUnicodePrecomposition CFEightBit CFStringEncodingConverter.
From Stdlib Require Import Sorting.Sorted.
From stdpp Require Import base list numbers option.
From Stdlib Require Import ZArith Lia.
Open Scope Z_scope.
Open Scope cf_scope.

(** ** Wrappers *)

(** A 16-bit unit. *)
Definition is_unit (c : Z) : Prop := 0 <= c < 0x10000.

(** [stored max dst out dst']: with a destination ([max] is not 0) [dst'] is [dst]
    with its cells from [d] on replaced by [out]; without one it is [dst]. *)
Definition stored_at (max d : Z) (dst out dst' : list Z) : Prop :=
  if max =? 0 then dst' = dst else dst' = take (Z.to_nat d) dst ++ out ++ drop (Z.to_nat d + length out) dst.

Lemma stored_at_nil max d dst : stored_at max d dst [] dst.
Proof. unfold stored_at. destruct (_ =? _); [done|]. cbn [app length]. by rewrite Nat.add_0_r, take_drop. Qed.

Lemma stored_at_app max d dst out1 dst1 out2 dst2 :
  0 <= d -> (max <> 0 -> d + Z.of_nat (length out1) + Z.of_nat (length out2) <= Z.of_nat (length dst)) ->
  stored_at max d dst out1 dst1 -> stored_at max (d + Z.of_nat (length out1)) dst1 out2 dst2 ->
  stored_at max d dst (out1 ++ out2) dst2.
Proof.
  unfold stored_at. intros Hd Hl. destruct (Z.eqb_spec max 0); [by intros -> ->|]. specialize (Hl n). intros -> ->.
  replace (Z.to_nat (d + Z.of_nat (length out1))) with (Z.to_nat d + length out1)%nat by lia.
  rewrite length_app. set (k := Z.to_nat d) in *.
  assert (length (take k dst) = k) as Hk by (rewrite length_take; lia).
  assert (take (k + length out1) (take k dst ++ out1 ++ drop (k + length out1) dst) = take k dst ++ out1) as ->.
  { rewrite (assoc_L (++)). rewrite take_app_le by (rewrite length_app; lia). apply take_ge. rewrite length_app. lia. }
  assert (drop (k + length out1 + length out2) (take k dst ++ out1 ++ drop (k + length out1) dst) = drop (k + (length out1 + length out2)) dst) as ->.
  { rewrite (assoc_L (++)), drop_app_ge by (rewrite length_app; lia). rewrite drop_drop. f_equal. rewrite length_app. lia. }
  by rewrite <- !(assoc_L (++)).
Qed.

Lemma stored_at_length max d dst out dst' :
  0 <= d -> (max <> 0 -> d + Z.of_nat (length out) <= Z.of_nat (length dst)) -> stored_at max d dst out dst' -> length dst' = length dst.
Proof.
  unfold stored_at. intros Hd Hl. destruct (Z.eqb_spec max 0); [by intros ->|]. specialize (Hl n). intros ->.
  rewrite !length_app, length_take, length_drop. lia.
Qed.

Lemma stored_at_cell max d dst b :
  0 <= d -> (max <> 0 -> d < Z.of_nat (length dst)) ->
  exists dst', (if negb (max =? 0) then wr dst d b else Some dst) = Some dst' /\ stored_at max d dst [b] dst'.
Proof.
  unfold stored_at. intros Hd Hl. destruct (Z.eqb_spec max 0); cbn [negb]; [by eexists|]. specialize (Hl n).
  assert (wr dst d b = wr (take (Z.to_nat d) dst ++ drop (Z.to_nat d) dst) d b) as -> by (by rewrite take_drop).
  destruct (drop (Z.to_nat d) dst) as [|x r] eqn:E.
  { apply (f_equal length) in E. rewrite length_drop in E. simpl in E. lia. }
  rewrite wr_app_here by (rewrite length_take; lia). eexists. split; [done|]. cbn [app length]. do 2 f_equal.
  rewrite <- drop_drop, E. done.
Qed.

(** The characters [cs] that [proc] converts, one to one. *)
Lemma cheap_loop_converts proc flags (Q : Z -> Prop) (Hproc : forall c, Q c -> exists r, proc flags c = Some r)
    spre cs srest dst d max processed s :
  Forall Q cs -> s + processed = Z.of_nat (length spre) -> 0 <= processed -> 0 <= d ->
  (max <> 0 -> d + processed + Z.of_nat (length cs) <= Z.of_nat (length dst)) ->
  exists c1 c2 bs dst', cs = c1 ++ c2 /\ Forall2 (fun c b => proc flags c = Some (Some b)) c1 bs /\
    cheap_loop proc flags (length cs) (spre ++ cs ++ srest) s dst d max processed = Some (dst', processed + Z.of_nat (length c1)) /\
    stored_at max (d + processed) dst bs dst' /\
    match c2 with [] => True | c :: _ => proc flags c = Some None end.
Proof.
  intros Hcs. revert spre dst processed. induction Hcs as [|c cs Hc Hcs IH]; intros spre dst processed Hs Hp Hd Hm.
  { exists [], [], [], dst. split_and!; [done|constructor|cbn; by rewrite Z.add_0_r|apply stored_at_nil|done]. }
  cbn [length cheap_loop app]. rewrite Hs, rd_app_here by done. cbn [opt_bind].
  destruct (Hproc c Hc) as [[b|] Er]; rewrite Er; cbn [opt_bind].
  2: { exists [], (c :: cs), [], dst. split_and!; [done|constructor|cbn; by rewrite Z.add_0_r|apply stored_at_nil|done]. }
  destruct (stored_at_cell max (d + processed) dst b) as (dst1 & -> & Hst); [lia|intros Hne; specialize (Hm Hne); simpl in Hm; lia|].
  cbn [opt_bind].
  assert (length dst1 = length dst) as Hl1.
  { apply (stored_at_length max (d + processed) dst [b] dst1); [lia|intros Hne; specialize (Hm Hne); simpl in Hm |- *; lia|done]. }
  destruct (IH (spre ++ [c]) dst1 (processed + 1)) as (c1 & c2 & bs & dst' & -> & Hf & E & Hst' & Hnext);
    [rewrite length_app; simpl; lia|lia|done|intros Hne; specialize (Hm Hne); simpl in Hm; lia|].
  exists (c :: c1), c2, (b :: bs), dst'. rewrite <- (assoc_L (++)) in E. cbn [app] in E. rewrite E. split_and!; [done|by constructor| | |done].
  - do 2 f_equal. cbn [length]. lia.
  - change (b :: bs) with ([b] ++ bs). eapply stored_at_app; [lia| |exact Hst|].
    + intros Hne. specialize (Hm Hne). apply Forall2_length in Hf. simpl in Hm |- *. rewrite length_app in Hm. lia.
    + cbn [length]. change (Z.of_nat 1) with 1. by replace (d + processed + 1) with (d + (processed + 1)) by lia.
Qed.

(** What both wrappers do: convert as many characters as they can, within the
    room. *)
Definition cheap_wrapper (proc : CheapEightBitProc) (flags : Z) : to_bytes_proc :=
  fun src s n dst d max =>
    let length := if negb (max =? 0) && (max <? n) then max else n in
    let* (dst, processed) := cheap_loop proc flags (Z.to_nat length) src s dst d max 0 in
    Some (processed, dst, processed).

Lemma cheap_wrapper_converts proc flags (Q : Z -> Prop) (Hproc : forall c, Q c -> exists r, proc flags c = Some r) t0 t dst d room :
  Forall Q t -> 0 <= d -> 0 <= room -> (room <> 0 -> d + room <= Z.of_nat (length dst)) ->
  exists c1 c2 bs dst', t = c1 ++ c2 /\ Forall2 (fun c b => proc flags c = Some (Some b)) c1 bs /\
    cheap_wrapper proc flags (t0 ++ t) (Z.of_nat (length t0)) (Z.of_nat (length t)) dst d room =
      Some (Z.of_nat (length c1), dst', Z.of_nat (length c1)) /\
    stored_at room d dst bs dst' /\ (room <> 0 -> Z.of_nat (length c1) <= room) /\
    (match c2 with [] => True | c :: _ => (room <> 0 /\ Z.of_nat (length c1) = room) \/ proc flags c = Some None end).
Proof.
  intros Hu Hd Hr Hl. unfold cheap_wrapper.
  set (n := if negb (room =? 0) && (room <? Z.of_nat (length t)) then room else Z.of_nat (length t)).
  assert (0 <= n <= Z.of_nat (length t) /\ (room <> 0 -> n <= room) /\ (n < Z.of_nat (length t) -> room <> 0 /\ n = room)) as (Hn & Hnr & Hnl).
  { unfold n. destruct (Z.eqb_spec room 0); cbn [negb andb]; [lia|]. destruct (Z.ltb_spec room (Z.of_nat (length t))); lia. }
  destruct (cheap_loop_converts proc flags Q Hproc t0 (take (Z.to_nat n) t) (drop (Z.to_nat n) t) dst d room 0 (Z.of_nat (length t0)))
    as (c1 & c2 & bs & dst' & Et & Hf & E & Hst & Hnext);
    [by apply Forall_take|lia|lia|done|intros Hne; rewrite length_take; specialize (Hl Hne); specialize (Hnr Hne); lia|].
  rewrite take_drop in E. rewrite length_take in E. replace (Z.to_nat n `min` length t)%nat with (Z.to_nat n) in E by lia.
  rewrite E. cbn [opt_bind]. rewrite Z.add_0_l in *. rewrite Z.add_0_r in Hst.
  assert (length c1 + length c2 = Z.to_nat n)%nat as Hc12.
  { apply (f_equal length) in Et. rewrite length_take, length_app in Et. lia. }
  exists c1, (c2 ++ drop (Z.to_nat n) t), bs, dst'. split_and!; [|done|done|done|intros Hne; specialize (Hnr Hne); lia|].
  - by rewrite (assoc_L (++)), <- Et, take_drop.
  - destruct c2 as [|c c2]; cbn [app]; [|by right].
    destruct (drop (Z.to_nat n) t) as [|c r] eqn:Edrop; [done|]. left.
    assert (n < Z.of_nat (length t)) as Hlt. { apply (f_equal length) in Edrop. rewrite length_drop in Edrop. simpl in Edrop. lia. }
    destruct (Hnl Hlt). simpl in Hc12. lia.
Qed.

(** ** One unit for another

    [converts enc max t0 t dst r]: a loop that has stored a unit for each of [t0]
    and has [t] before it ends with [r]: it stores the units [enc] gives for
    the first characters of [t], and stops at the end, when the destination is
    full, or at a character without a unit. *)

Definition conversion_stops (enc : Z -> option Z) (max u : Z) (t2 : list Z) (code : Z) : Prop :=
  (t2 = [] /\ code = kCFStringEncodingConversionSuccess) \/
  (t2 <> [] /\ max <> 0 /\ u = max /\
   (code = kCFStringEncodingConversionSuccess \/ code = kCFStringEncodingInsufficientOutputBufferLength)) \/
  (exists c r, t2 = c :: r /\ enc c = None /\ code = kCFStringEncodingInvalidInputStream /\ (max <> 0 -> u < max)).

Definition converts (enc : Z -> option Z) (max : Z) (t0 t dst : list Z) (r : option (Z * Z * Z * list Z)) : Prop :=
  exists t1 t2 bs dst' code, t = t1 ++ t2 /\ Forall2 (fun c b => enc c = Some b) t1 bs /\
    r = Some (code, Z.of_nat (length t0) + Z.of_nat (length t1), Z.of_nat (length t0) + Z.of_nat (length t1), dst') /\
    stored_at max (Z.of_nat (length t0)) dst bs dst' /\ (max <> 0 -> Z.of_nat (length t0) + Z.of_nat (length t1) <= max) /\
    conversion_stops enc max (Z.of_nat (length t0) + Z.of_nat (length t1)) t2 code.

(** A loop that stops at [t2], after [t1]. *)
Lemma converts_stop enc max t0 t1 t2 bs dst dst' code u :
  Forall2 (fun c b => enc c = Some b) t1 bs -> stored_at max (Z.of_nat (length t0)) dst bs dst' ->
  u = Z.of_nat (length t0) + Z.of_nat (length t1) -> (max <> 0 -> u <= max) -> conversion_stops enc max u t2 code ->
  converts enc max t0 (t1 ++ t2) dst (Some (code, u, u, dst')).
Proof. intros Hf Hst -> Hle Hend. by exists t1, t2, bs, dst', code. Qed.

(** A loop that goes on after [x]. *)
Lemma converts_more enc max t0 x r bx dst dst1 res :
  Forall2 (fun c b => enc c = Some b) x bx -> stored_at max (Z.of_nat (length t0)) dst bx dst1 ->
  (max <> 0 -> Z.of_nat (length t0) + Z.of_nat (length x) <= max <= Z.of_nat (length dst)) ->
  converts enc max (t0 ++ x) r dst1 res -> converts enc max t0 (x ++ r) dst res.
Proof.
  intros Hf Hst Hfit (t1 & t2 & bs & dst' & code & -> & Hf1 & -> & Hst1 & Hle & Hend).
  pose proof (Forall2_length Hf) as Hl. pose proof (Forall2_length Hf1) as Hl1.
  rewrite !length_app, !Nat2Z.inj_add, <- !Z.add_assoc, <- Nat2Z.inj_add, <- length_app in *.
  exists (x ++ t1), t2, (bx ++ bs), dst', code. split_and!; [by rewrite <- (assoc_L (++))|by apply Forall2_app|done| |done|done].
  eapply stored_at_app; [lia| |exact Hst|].
  - intros Hne. specialize (Hfit Hne). specialize (Hle Hne). rewrite length_app in Hle. lia.
  - by rewrite <- Hl, <- Nat2Z.inj_add, <- length_app.
Qed.

(** A loop that ends before [t]. *)
Lemma converts_end enc max t0 t dst :
  (t <> [] -> max <> 0 /\ max <= Z.of_nat (length t0)) -> (max <> 0 -> Z.of_nat (length t0) <= max) ->
  converts enc max t0 t dst (Some (kCFStringEncodingConversionSuccess, Z.of_nat (length t0), Z.of_nat (length t0), dst)).
Proof.
  intros Hroom Hm. apply (converts_stop enc max t0 [] t [] dst dst); [constructor|apply stored_at_nil|simpl; lia|done|].
  destruct t as [|c t]; [by left|]. destruct Hroom as [Hne Hle]; [done|]. specialize (Hm Hne). right. left. split_and!; [done|done|lia|by left].
Qed.

(** A wrapper called with the room that is left. *)
Lemma wrapper_in_room proc flags (Q : Z -> Prop) (Hproc : forall c, Q c -> exists r, proc flags c = Some r) max t0 t dst :
  Forall Q t -> 0 <= max -> (max <> 0 -> Z.of_nat (length t0) < max <= Z.of_nat (length dst)) ->
  exists c1 c2 bs dst', t = c1 ++ c2 /\ Forall2 (fun c b => proc flags c = Some (Some b)) c1 bs /\
    cheap_wrapper proc flags (t0 ++ t) (Z.of_nat (length t0)) (Z.of_nat (length t)) dst (Z.of_nat (length t0)) (room max (Z.of_nat (length t0))) =
      Some (Z.of_nat (length c1), dst', Z.of_nat (length c1)) /\
    stored_at max (Z.of_nat (length t0)) dst bs dst' /\
    (max <> 0 -> Z.of_nat (length t0) + Z.of_nat (length c1) <= max <= Z.of_nat (length dst)) /\ length dst' = length dst /\
    (match c2 with [] => True | c :: _ => (max <> 0 /\ Z.of_nat (length (t0 ++ c1)) = max) \/ proc flags c = Some None end).
Proof.
  intros Hu Hmax Hm.
  assert (0 <= room max (Z.of_nat (length t0)) /\ (max = 0 <-> room max (Z.of_nat (length t0)) = 0) /\
    (max <> 0 -> room max (Z.of_nat (length t0)) = max - Z.of_nat (length t0))) as (Hr0 & Hrz & Hrm).
  { unfold room. destruct (Z.eqb_spec max 0) as [|Hne]; cbn [negb]; [lia|]. specialize (Hm Hne). lia. }
  destruct (cheap_wrapper_converts proc flags Q Hproc t0 t dst (Z.of_nat (length t0)) (room max (Z.of_nat (length t0))) Hu)
    as (c1 & c2 & bs & dst' & -> & Hf2 & E & Hst & Hle & Hnext); [lia|lia|intros; lia|].
  pose proof (Forall2_length Hf2) as Hlen.
  assert (max <> 0 -> Z.of_nat (length t0) + Z.of_nat (length c1) <= max <= Z.of_nat (length dst)) as Hfit
    by (intros Hne; specialize (Hm Hne); specialize (Hrm Hne); specialize (Hle ltac:(tauto)); lia).
  assert (stored_at max (Z.of_nat (length t0)) dst bs dst') as Hst'.
  { unfold stored_at in *. destruct (Z.eqb_spec max 0), (Z.eqb_spec (room max (Z.of_nat (length t0))) 0); try done; lia. }
  exists c1, c2, bs, dst'. split_and!; [done|done|done|done|done| |].
  - apply (stored_at_length max (Z.of_nat (length t0)) dst bs dst'); [lia|intros Hne; specialize (Hfit Hne); lia|done].
  - destruct c2 as [|c c2]; [done|]. destruct Hnext as [[Hne Hfull]|?]; [left|by right]. rewrite length_app. split; [tauto|].
    specialize (Hrm ltac:(tauto)). lia.
Qed.

(** ** To an encoding of single bytes *)

Section EightBitToBytes.
Context (conv : _CFEncodingConverter) (flags : Z) (to from : CheapEightBitProc) (lost : Z -> bool) `{!EightBit to from lost}.
Context (Hclass : encodingClass (definition conv) = kCFStringEncodingConverterCheapEightBit to from).
Context (combining : option (Z -> option bool))
        (precompose : option (Z -> list Z -> Z -> Z -> list Z -> Z -> Z -> option (Z * list Z * option Z))).
Context (Hflags : lossy_flag flags = false \/ CFStringEncodingMaskToLossyByte flags <> 0).
Context (text : list Z) (max : Z).
Context (Htext : Forall is_unit text) (Hmax : 0 <= max).
Context (Hcomb : match combining with Some valid => Forall (fun c => valid c = Some false) text | None => True end).

(** The byte of a character: its own, or the one that stands for any other. *)
Definition byte_of (c : Z) : option Z :=
  match to 0 c with
  | Some (Some b) => Some b
  | _ => if lossy_flag flags then Some (CFStringEncodingMaskToLossyByte flags) else None
  end.

Lemma to_unit c : is_unit c -> exists r, to flags c = Some r.
Proof. intros Hc. destruct (to_byte flags c Hc) as (r & Hr & _). by exists r. Qed.

Lemma byte_of_converted c1 bs : Forall2 (fun c b => to flags c = Some (Some b)) c1 bs -> Forall2 (fun c b => byte_of c = Some b) c1 bs.
Proof.
  intros Hf. eapply list.Forall2_impl; [exact Hf|]. intros c b E. cbn beta in E. unfold byte_of. rewrite (to_flags flags c) in E. by rewrite E.
Qed.

Lemma TO_BYTE_wrapper : TO_BYTE conv flags = cheap_wrapper to flags.
Proof. unfold TO_BYTE. by rewrite Hclass. Qed.

Lemma full_result_plain u : full_result conv flags text (Z.of_nat (length text)) u =
  Some (if u <? Z.of_nat (length text) then kCFStringEncodingInsufficientOutputBufferLength else kCFStringEncodingConversionSuccess, u).
Proof.
  unfold full_result. destruct Hflags as [->|Hb]; [done|]. destruct (Z.eqb_spec (CFStringEncodingMaskToLossyByte flags) 0); [done|]. by rewrite andb_false_r.
Qed.

(** A character that cannot be converted is not taken for a full destination. *)
Lemma converts_no_next t0 c t : text = t0 ++ c :: t -> to 0 c = Some None ->
  converts_next conv flags text (Z.of_nat (length t0)) (Z.of_nat (length text) - Z.of_nat (length t0)) = Some (0, 0).
Proof.
  intros Ht Hto. unfold converts_next. rewrite TO_BYTE_wrapper.
  pose proof Htext as Hu. rewrite Ht in Hu. apply Forall_app in Hu as [_ Hu].
  destruct (cheap_wrapper_converts to flags is_unit to_unit t0 (c :: t) [] 0 0 Hu) as (c1 & c2 & bs & dst' & Et & Hf & E & _ & _ & _); [lia|lia|done|].
  rewrite <- Ht in E. replace (Z.of_nat (length text) - Z.of_nat (length t0)) with (Z.of_nat (length (c :: t))) by (rewrite Ht, length_app; lia).
  rewrite E. cbn [opt_bind]. destruct c1 as [|x c1]; [done|]. injection Et as -> _.
  apply Forall2_cons_inv_l in Hf as (b & bs' & Eb & _). rewrite (to_flags flags x), Hto in Eb. done.
Qed.

(** The body at a character that the wrapper has stopped at. *)
Lemma plain_round_converts t0 c1 c t bytes1 (loop : Z -> Z -> list Z -> option (Z * Z * Z * list Z)) :
  let u := Z.of_nat (length (t0 ++ c1)) in
  text = (t0 ++ c1) ++ c :: t -> (max <> 0 -> u <= max <= Z.of_nat (length bytes1)) -> (max <> 0 /\ u = max) \/ to 0 c = Some None ->
  (forall bytes2, length bytes2 = length bytes1 -> (max <> 0 -> u + 1 <= max) ->
    converts byte_of max ((t0 ++ c1) ++ [c]) t bytes2 (loop (u + 1) (u + 1) bytes2)) ->
  converts byte_of max (t0 ++ c1) (c :: t) bytes1
    (let* round := plain_round conv flags text (Z.of_nat (length text)) max u (Z.of_nat (length t0)) (Z.of_nat (length c1)) bytes1 in
     match round with
     | Continue usedLen used bytes => loop usedLen used bytes
     | Break theResult usedLen used bytes => Some (theResult, usedLen, used, bytes)
     end).
Proof.
  intros u Ht Hm Hno Hloop. assert (Z.of_nat (length t0) + Z.of_nat (length c1) = u) as Hu by (unfold u; rewrite length_app; lia).
  assert (filled_up conv flags text (Z.of_nat (length text)) max u (Z.of_nat (length t0)) (Z.of_nat (length c1)) =
    Some (negb (max =? 0) && (max =? u))) as Efill.
  { unfold filled_up. rewrite Hu. destruct (Z.eqb_spec max 0); [done|]. cbn [negb andb]. destruct (Z.eqb_spec max u); [done|].
    unfold u. rewrite (converts_no_next (t0 ++ c1) c t Ht); [done|]. destruct Hno as [[_ ?]|?]; [lia|done]. }
  assert (forall code, conversion_stops byte_of max u (c :: t) code -> converts byte_of max (t0 ++ c1) (c :: t) bytes1 (Some (code, u, u, bytes1))) as Hstop.
  { intros code Hc. apply (converts_stop byte_of max (t0 ++ c1) [] (c :: t) [] bytes1 bytes1); [constructor|apply stored_at_nil|simpl; lia|tauto|done]. }
  unfold plain_round. rewrite Efill, Hu. cbn [opt_bind].
  destruct (negb (max =? 0) && (max =? u)) eqn:Ef.
  { rewrite full_result_plain. cbn [opt_bind]. destruct (Z.ltb_spec u (Z.of_nat (length text)));
      [|unfold u in *; rewrite Ht, (length_app (t0 ++ c1)) in *; simpl in *; lia].
    apply Hstop. right. left. split_and!; [done|lia|lia|by right]. }
  assert (to 0 c = Some None) as Hto by (destruct Hno as [[? ?]|?]; [lia|done]).
  assert (max <> 0 -> u + 1 <= max) as Hfit by (intros Hne; specialize (Hm Hne); lia).
  destruct (lossy_flag flags) eqn:El.
  - destruct Hflags as [|Hb]; [done|]. destruct (Z.eqb_spec (CFStringEncodingMaskToLossyByte flags) 0); [done|]. cbn [negb].
    unfold store_lossy. destruct (stored_at_cell max u bytes1 (CFStringEncodingMaskToLossyByte flags)) as (bytes2 & -> & Hst2);
      [lia|intros Hne; specialize (Hfit Hne); specialize (Hm Hne); lia|]. cbn [opt_bind].
    apply (converts_more byte_of max (t0 ++ c1) [c] t [CFStringEncodingMaskToLossyByte flags] bytes1 bytes2).
    + constructor; [|constructor]. unfold byte_of. by rewrite Hto, El.
    + exact Hst2.
    + intros Hne. specialize (Hfit Hne). specialize (Hm Hne). fold u. simpl. lia.
    + apply Hloop; [|done]. apply (stored_at_length max u bytes1 [CFStringEncodingMaskToLossyByte flags] bytes2); [lia| |done].
      intros Hne. specialize (Hfit Hne). specialize (Hm Hne). simpl. lia.
  - cbn [opt_bind]. apply Hstop. right. right. exists c, t. split_and!; [done| |done|lia]. unfold byte_of. by rewrite Hto, El.
Qed.

Lemma to_bytes_loop_eight_bit fuel t0 t bytes :
  text = t0 ++ t -> (length t <= fuel)%nat -> (max <> 0 -> Z.of_nat (length t0) <= max <= Z.of_nat (length bytes)) ->
  converts byte_of max t0 t bytes
    (to_bytes_loop conv flags text (Z.of_nat (length text)) max combining precompose fuel (Z.of_nat (length t0)) (Z.of_nat (length t0)) bytes).
Proof.
  revert t0 t bytes. induction fuel as [|fuel IH]; intros t0 t bytes Ht Hf Hm; cbn [to_bytes_loop];
    (assert (Z.of_nat (length text) = Z.of_nat (length t0) + Z.of_nat (length t)) as Hn by (rewrite Ht, length_app; lia));
    destruct ((Z.of_nat (length t0) <? Z.of_nat (length text)) && ((max =? 0) || (Z.of_nat (length t0) <? max))) eqn:Econd.
  1: lia.
  1, 3: (apply converts_end; [destruct t; [done|simpl in *; lia]|tauto]).
  apply andb_true_iff in Econd as [Hlt Hroom]. apply Z.ltb_lt in Hlt.
  unfold to_bytes_body. replace (Z.of_nat (length text) - Z.of_nat (length t0)) with (Z.of_nat (length t)) by lia.
  pose proof Htext as Hu. rewrite Ht in Hu. apply Forall_app in Hu as [_ Hu]. rewrite TO_BYTE_wrapper.
  destruct (wrapper_in_room to flags is_unit to_unit max t0 t bytes Hu) as (c1 & c2 & bs & bytes1 & -> & Hf2 & E & Hst & Hfit & Hl1 & Hnext);
    [done|intros Hne; specialize (Hm Hne); lia|].
  rewrite <- Ht in E. rewrite E. cbn [opt_bind]. apply byte_of_converted in Hf2. rewrite length_app in *.
  apply (converts_more byte_of max t0 c1 c2 bs bytes bytes1 _ Hf2 Hst Hfit).
  replace (Z.of_nat (length t0) + Z.of_nat (length c1)) with (Z.of_nat (length (t0 ++ c1))) in * by (rewrite length_app; lia).
  destruct c2 as [|c c2]; cbn [length] in *.
  - destruct (Z.ltb_spec (Z.of_nat (length (t0 ++ c1))) (Z.of_nat (length text))); [rewrite length_app in *; lia|]. cbn [opt_bind].
    apply IH; [by rewrite Ht, !app_nil_r|simpl; lia|]. intros Hne. rewrite Hl1. auto.
  - destruct (Z.ltb_spec (Z.of_nat (length (t0 ++ c1))) (Z.of_nat (length text))); [|rewrite length_app in *; lia].
    assert (text = (t0 ++ c1) ++ c :: c2) as Htc by (by rewrite Ht, <- (assoc_L (++))).
    assert (converts byte_of max (t0 ++ c1) (c :: c2) bytes1
      (let* round := plain_round conv flags text (Z.of_nat (length text)) max (Z.of_nat (length (t0 ++ c1))) (Z.of_nat (length t0)) (Z.of_nat (length c1)) bytes1 in
       match round with
       | Continue usedLen used bytes => to_bytes_loop conv flags text (Z.of_nat (length text)) max combining precompose fuel usedLen used bytes
       | Break theResult usedLen used bytes => Some (theResult, usedLen, used, bytes)
       end)) as Hplain.
    { apply (plain_round_converts t0 c1 c c2 bytes1); [done|rewrite Hl1; auto| |].
      - destruct Hnext as [?|Hnext]; [left; rewrite length_app in *; lia|]. right. by rewrite (to_flags flags c) in Hnext.
      - intros bytes2 Hl2 Hfit2. replace (Z.of_nat (length (t0 ++ c1)) + 1) with (Z.of_nat (length ((t0 ++ c1) ++ [c]))) in * by (rewrite (length_app (t0 ++ c1)); simpl; lia).
        apply IH; [rewrite Htc at 1; by rewrite <- (assoc_L (++) (t0 ++ c1) [c])|lia|]. intros Hne. specialize (Hfit2 Hne). specialize (Hfit Hne). rewrite Hl2, Hl1. lia. }
    destruct combining as [valid|]; [|exact Hplain].
    assert ((if 0 <? Z.of_nat (length (t0 ++ c1)) then let* c := rd text (Z.of_nat (length (t0 ++ c1))) in valid c else Some false) = Some false) as ->;
      [|exact Hplain].
    destruct (0 <? _); [|done]. rewrite Htc, rd_app_here by done. cbn [opt_bind]. rewrite Htc in Hcomb. apply Forall_app in Hcomb as [_ Hcomb].
    by apply Forall_cons_1 in Hcomb as [-> _].
Qed.
End EightBitToBytes.

(** ** To Unicode from an encoding of single bytes *)

Section EightBitToUnicode.
Context (conv : _CFEncodingConverter) (T : unichar_tables) (D : decomposition_tables) (junk flags : Z).
Context (to from : CheapEightBitProc) (lost : Z -> bool) `{!EightBit to from lost}.
Context (Hclass : encodingClass (definition conv) = kCFStringEncodingConverterCheapEightBit to from).
Context (Hplain : canonical_flag flags = false).
Context (Hfallback : has_flag flags kCFStringEncodingAllowLossyConversion = true -> toUnicodeFallback conv = Some __CFDefaultToUnicodeFallbackProc).
Context (text : list Z) (max : Z).
Context (Htext : Forall is_byte text) (Hmax : 0 <= max).

(** The character of a byte, or a question mark. *)
Definition character_of (b : Z) : option Z :=
  match from 0 b with
  | Some (Some c) => Some c
  | _ => if has_flag flags kCFStringEncodingAllowLossyConversion then Some 0x3F else None
  end.

Lemma from_unit b : is_byte b -> exists r, from flags b = Some r.
Proof. intros Hb. destruct (from_byte flags b Hb) as (r & Hr & _). by exists r. Qed.

Lemma character_of_converted c1 cs : Forall2 (fun b c => from flags b = Some (Some c)) c1 cs -> Forall2 (fun b c => character_of b = Some c) c1 cs.
Proof.
  intros Hf. eapply list.Forall2_impl; [exact Hf|]. intros b c E. cbn beta in E. unfold character_of. rewrite (from_flags flags b) in E. by rewrite E.
Qed.

Lemma TO_UNICODE_wrapper : TO_UNICODE T D junk conv flags = cheap_wrapper from flags.
Proof. unfold TO_UNICODE. rewrite Hclass. unfold canonical_flag in Hplain. by rewrite Hplain. Qed.

(** A byte that cannot be converted is not taken for a full destination. *)
Lemma characters_not_filled t0 t n : text = t0 ++ t -> 
  (max <> 0 -> Z.of_nat (length t0) < max) -> match t with [] => False | b :: _ => from 0 b = Some None end ->
  characters_filled_up T D junk conv flags text (Z.of_nat (length text)) max (Z.of_nat (length t0)) (Z.of_nat (length t0) - n) n = Some false.
Proof.
  intros Ht Hroom Hno. unfold characters_filled_up. rewrite Z.sub_add. destruct (Z.eqb_spec max 0) as [|Hne]; cbn [negb]; [done|].
  specialize (Hroom Hne). destruct (Z.eqb_spec max (Z.of_nat (length t0))); [lia|]. destruct (canonical_flag flags || _); [|done].
  rewrite TO_UNICODE_wrapper. pose proof Htext as Hu. rewrite Ht in Hu. apply Forall_app in Hu as [_ Hu].
  destruct (cheap_wrapper_converts from flags is_byte from_unit t0 t [] 0 0 Hu) as (c1 & c2 & bs & dst' & Et & Hf & E & _ & _ & _); [lia|lia|done|].
  rewrite <- Ht in E. replace (Z.of_nat (length text) - Z.of_nat (length t0)) with (Z.of_nat (length t)) by (rewrite Ht, length_app; lia).
  rewrite E. cbn [opt_bind]. destruct c1 as [|x c1]; [done|]. subst t. simpl in Hno.
  apply Forall2_cons_inv_l in Hf as (b & bs' & Eb & _). rewrite (from_flags flags x), Hno in Eb. done.
Qed.

Lemma to_unicode_loop_eight_bit fuel t0 t chars :
  text = t0 ++ t -> (length t <= fuel)%nat -> (max <> 0 -> Z.of_nat (length t0) <= max <= Z.of_nat (length chars)) ->
  converts character_of max t0 t chars
    (to_unicode_loop T D junk conv flags text (Z.of_nat (length text)) max fuel (Z.of_nat (length t0)) (Z.of_nat (length t0)) chars).
Proof.
  revert t0 t chars. induction fuel as [|fuel IH]; intros t0 t chars Ht Hf Hm; cbn [to_unicode_loop];
    (assert (Z.of_nat (length text) = Z.of_nat (length t0) + Z.of_nat (length t)) as Hn by (rewrite Ht, length_app; lia));
    destruct ((Z.of_nat (length t0) <? Z.of_nat (length text)) && ((max =? 0) || (Z.of_nat (length t0) <? max))) eqn:Econd.
  1: lia.
  1, 3: (apply converts_end; [destruct t; [done|simpl in *; lia]|tauto]).
  apply andb_true_iff in Econd as [Hlt Hroom]. apply Z.ltb_lt in Hlt.
  replace (Z.of_nat (length text) - Z.of_nat (length t0)) with (Z.of_nat (length t)) by lia.
  pose proof Htext as Hu. rewrite Ht in Hu. apply Forall_app in Hu as [_ Hu]. rewrite TO_UNICODE_wrapper.
  destruct (wrapper_in_room from flags is_byte from_unit max t0 t chars Hu) as (c1 & c2 & bs & chars1 & -> & Hf2 & E & Hst & Hfit & Hl1 & Hnext);
    [done|intros Hne; specialize (Hm Hne); lia|].
  rewrite <- Ht in E. rewrite E. cbn [opt_bind]. apply character_of_converted in Hf2. rewrite length_app in *.
  apply (converts_more character_of max t0 c1 c2 bs chars chars1 _ Hf2 Hst Hfit).
  replace (Z.of_nat (length t0) + Z.of_nat (length c1)) with (Z.of_nat (length (t0 ++ c1))) in * by (rewrite length_app; lia).
  assert (text = (t0 ++ c1) ++ c2) as Htc by (by rewrite Ht, <- (assoc_L (++))).
  destruct c2 as [|c c2]; cbn [length] in *.
  - destruct (Z.ltb_spec (Z.of_nat (length (t0 ++ c1))) (Z.of_nat (length text))); [rewrite length_app in *; lia|]. cbn [opt_bind].
    apply IH; [done|simpl; lia|]. intros Hne. rewrite Hl1. auto.
  - destruct (Z.ltb_spec (Z.of_nat (length (t0 ++ c1))) (Z.of_nat (length text))); [|rewrite length_app in *; lia].
    destruct (decide (max <> 0 /\ Z.of_nat (length (t0 ++ c1)) = max)) as [[Hne Hfull]|Hno].
    { assert (characters_filled_up T D junk conv flags text (Z.of_nat (length text)) max (Z.of_nat (length (t0 ++ c1))) (Z.of_nat (length t0))
        (Z.of_nat (length c1)) = Some true) as ->.
      { unfold characters_filled_up. destruct (Z.eqb_spec max 0); [done|]. cbn [negb]. rewrite length_app in Hfull.
        by destruct (Z.eqb_spec max (Z.of_nat (length t0) + Z.of_nat (length c1))); [|lia]. }
      cbn [opt_bind]. apply (converts_stop character_of max (t0 ++ c1) [] (c :: c2) [] chars1 chars1); [constructor|apply stored_at_nil|simpl; lia|tauto|].
      right. left. split_and!; [done|done|done|by right]. }
    assert (from 0 c = Some None) as Hto by (destruct Hnext as [?|Hnext]; [rewrite length_app in *; lia|by rewrite (from_flags flags c) in Hnext]).
    assert (max <> 0 -> Z.of_nat (length (t0 ++ c1)) < max) as Hfit2 by (intros Hne; specialize (Hfit Hne); lia).
    replace (Z.of_nat (length t0)) with (Z.of_nat (length (t0 ++ c1)) - Z.of_nat (length c1)) by (rewrite length_app; lia).
    rewrite (characters_not_filled (t0 ++ c1) (c :: c2) (Z.of_nat (length c1)) Htc Hfit2 Hto). cbn [opt_bind].
    destruct (has_flag flags kCFStringEncodingAllowLossyConversion) eqn:El.
    + rewrite Hfallback by done. cbn [call_fallback]. unfold __CFDefaultToUnicodeFallbackProc, room.
      destruct (stored_at_cell max (Z.of_nat (length (t0 ++ c1))) chars1 0x3F) as (chars2 & E2 & Hst2);
        [lia|intros Hne; specialize (Hfit2 Hne); specialize (Hfit Hne); lia|].
      assert ((if negb (max =? 0) then max - Z.of_nat (length (t0 ++ c1)) else 0) =? 0 = (max =? 0)) as Ez
        by (destruct (Z.eqb_spec max 0); cbn [negb]; lia).
      rewrite Ez, E2. cbn [opt_bind].
      apply (converts_more character_of max (t0 ++ c1) [c] c2 [0x3F] chars1 chars2); [|exact Hst2|intros Hne; specialize (Hfit2 Hne); specialize (Hfit Hne); simpl; lia|].
      { constructor; [|constructor]. unfold character_of. by rewrite Hto, El. }
      assert (length chars2 = length chars1) as Hl2.
      { apply (stored_at_length max (Z.of_nat (length (t0 ++ c1))) chars1 [0x3F] chars2); [lia|intros Hne; specialize (Hfit2 Hne); specialize (Hfit Hne); simpl; lia|exact Hst2]. }
      replace (Z.of_nat (length (t0 ++ c1)) + 1) with (Z.of_nat (length ((t0 ++ c1) ++ [c]))) by (rewrite (length_app (t0 ++ c1)); simpl; lia).
      apply IH; [rewrite Htc at 1; by rewrite <- (assoc_L (++) (t0 ++ c1) [c])|lia|].
      intros Hne. specialize (Hfit2 Hne). specialize (Hfit Hne). rewrite (length_app (t0 ++ c1)). simpl. lia.
    + apply (converts_stop character_of max (t0 ++ c1) [] (c :: c2) [] chars1 chars1); [constructor|apply stored_at_nil|simpl; lia|intros Hne; specialize (Hfit Hne); lia|].
      right. right. exists c, c2. split_and!; [done| |done|done]. unfold character_of. by rewrite Hto, El.
Qed.
End EightBitToUnicode.

(** ** The conversions as a whole *)

(** Where and with which code a conversion ends that has stored [u] units and has
    [t2] left. *)
Definition conversion_result (enc : Z -> option Z) (max u : Z) (t2 : list Z) (code : Z) : Prop :=
  (t2 = [] /\ code = kCFStringEncodingConversionSuccess) \/
  (t2 <> [] /\ max <> 0 /\ u = max /\ code = kCFStringEncodingInsufficientOutputBufferLength) \/
  (exists c r, t2 = c :: r /\ enc c = None /\ code = kCFStringEncodingInvalidInputStream /\ (max <> 0 -> u < max)).

(** The code of the loop with that of a destination that is full in its place. *)
Definition final_code (max u numChars code : Z) : Z :=
  if (u <? numChars) && negb (max =? 0) && (code =? kCFStringEncodingConversionSuccess)
  then kCFStringEncodingInsufficientOutputBufferLength else code.

Lemma final_code_result enc max t1 t2 code u :
  u = Z.of_nat (length t1) -> (max <> 0 -> u <= max) -> conversion_stops enc max u t2 code ->
  conversion_result enc max u t2 (final_code max u (Z.of_nat (length (t1 ++ t2))) code).
Proof.
  intros Hu Hle Hs. unfold final_code. rewrite length_app. destruct Hs as [[-> ->]|[(Ht2 & Hne & -> & Hc)|(c & r & -> & He & -> & Hlt)]].
  - left. split; [done|]. simpl. by destruct (Z.ltb_spec u (Z.of_nat (length t1 + 0))); [lia|].
  - right. left. destruct t2 as [|x t2]; [done|]. split_and!; try done.
    destruct (Z.ltb_spec max (Z.of_nat (length t1 + length (x :: t2)))); [|simpl in *; lia].
    destruct (Z.eqb_spec max 0); [done|]. by destruct Hc as [-> | ->].
  - right. right. exists c, r. split_and!; try done. by rewrite andb_false_r.
Qed.

Lemma compose_flags flags :
  lossy_flag (Z.lor flags kCFStringEncodingComposeCombinings) = lossy_flag flags /\
  CFStringEncodingMaskToLossyByte (Z.lor flags kCFStringEncodingComposeCombinings) = CFStringEncodingMaskToLossyByte flags.
Proof.
  unfold lossy_flag, has_flag, CFStringEncodingMaskToLossyByte. rewrite Z.land_lor_distr_l, Z.shiftr_lor.
  change (Z.land kCFStringEncodingComposeCombinings kCFStringEncodingAllowLossyConversion) with 0.
  change (Z.shiftr kCFStringEncodingComposeCombinings 24) with 0. by rewrite !Z.lor_0_r.
Qed.

Lemma byte_of_compose flags to c : byte_of (Z.lor flags kCFStringEncodingComposeCombinings) to c = byte_of flags to c.
Proof. unfold byte_of. by destruct (compose_flags flags) as [-> ->]. Qed.

Lemma converts_ext enc enc' max t0 t dst r : (forall c, enc c = enc' c) -> converts enc max t0 t dst r -> converts enc' max t0 t dst r.
Proof.
  intros He (t1 & t2 & bs & dst' & code & -> & Hf & -> & Hst & Hle & Hend). exists t1, t2, bs, dst', code. split_and!; try done.
  - eapply list.Forall2_impl; [exact Hf|]. intros c b E. by rewrite <- He.
  - destruct Hend as [?|[?|(c & r & E & En & ? & ?)]]; [by left|by right; left|]. right. right. exists c, r. by rewrite <- He.
Qed.

Section Conversions.
Context (T : unichar_tables) (D : decomposition_tables) (P : precomposition_tables) (junk : Z) (ICUName : Z -> bool) (systemEncoding : Z).
Context (icu platform : Z -> Z -> list Z -> Z -> list Z -> Z -> option converted).
Context (to from : CheapEightBitProc) (lost : Z -> bool) `{!EightBit to from lost}.

(** The loop as CFStringEncodingUnicodeToBytes calls it. *)
Lemma unicode_to_bytes_loop fuel cs encoding flags text bytes max conv cs' :
  encoding <> kCFStringEncodingUTF8 ->
  __CFGetConverter T D P junk ICUName systemEncoding cs encoding = (Some conv, cs') ->
  encodingClass (definition conv) = kCFStringEncodingConverterCheapEightBit to from ->
  lossy_flag flags = false \/ CFStringEncodingMaskToLossyByte flags <> 0 ->
  Forall is_unit text -> 0 <= max <= Z.of_nat (length bytes) ->
  match isValidCombiningChar (definition conv) with Some valid => Forall (fun c => valid c = Some false) text | None => True end ->
  (length text <= fuel)%nat ->
  exists code u dst,
    CFStringEncodingUnicodeToBytes T D P junk ICUName systemEncoding icu platform fuel cs encoding flags text (Z.of_nat (length text)) bytes max =
      Some (Converted (final_code max u (Z.of_nat (length text)) code) u dst u, cs') /\
    converts (byte_of flags to) max [] text bytes (Some (code, u, u, dst)).
Proof.
  intros Henc Hconv Hclass Hflags Hu Hmax Hcomb Hfuel. unfold CFStringEncodingUnicodeToBytes.
  destruct (Z.eqb_spec encoding kCFStringEncodingUTF8); [done|]. rewrite Hconv, Hclass.
  set (opts := if has_flag flags _ then _ else _).
  assert (exists combining precompose flags', opts = (combining, precompose, flags') /\
    match combining with Some valid => Forall (fun c => valid c = Some false) text | None => True end /\
    (flags' = flags \/ flags' = Z.lor flags kCFStringEncodingComposeCombinings)) as (combining & precompose & flags' & -> & Hcomb' & Hf').
  { unfold opts. destruct (has_flag flags kCFStringEncodingSubstituteCombinings); [|destruct (negb _)]; do 3 eexists; (split; [done|]); split; eauto.
    by destruct (negb _). }
  assert (lossy_flag flags' = lossy_flag flags /\ CFStringEncodingMaskToLossyByte flags' = CFStringEncodingMaskToLossyByte flags /\
    forall c, byte_of flags' to c = byte_of flags to c) as (El & Eb & Ee).
  { destruct Hf' as [-> | ->]; [done|]. destruct (compose_flags flags). split_and!; [done|done|apply byte_of_compose]. }
  assert (lossy_flag flags' = false \/ CFStringEncodingMaskToLossyByte flags' <> 0) as Hflags' by (by rewrite El, Eb).
  pose proof (to_bytes_loop_eight_bit conv flags' to from lost Hclass combining precompose Hflags' text max Hu (proj1 Hmax) Hcomb' fuel [] text bytes
    eq_refl Hfuel) as Hloop. cbn [length] in Hloop. change (Z.of_nat 0) with 0 in Hloop. specialize (Hloop ltac:(lia)).
  apply (converts_ext _ _ _ _ _ _ _ Ee) in Hloop. destruct Hloop as (t1 & t2 & bs & dst & code & Ht & Hf & E & Hst & Hle & Hend).
  rewrite E. cbn [opt_bind length]. exists code, (Z.of_nat (length t1)), dst. cbn [length] in *. change (Z.of_nat 0) with 0 in *. rewrite !Z.add_0_l in *. split.
  - unfold final_code. destruct (_ && _ && _) eqn:Ec; [|done]. apply andb_true_iff in Ec as [[Hlt _]%andb_true_iff _].
    rewrite (full_result_plain conv flags' Hflags' text (Z.of_nat (length t1))). cbn [opt_bind]. by rewrite Hlt.
  - exists t1, t2, bs, dst, code. by cbn [length]; change (Z.of_nat 0) with 0; rewrite !Z.add_0_l.
Qed.

(** The loop as CFStringEncodingBytesToUnicode calls it. *)
Lemma bytes_to_unicode_loop fuel cs encoding flags text chars max conv cs' :
  __CFGetConverter T D P junk ICUName systemEncoding cs encoding = (Some conv, cs') ->
  encodingClass (definition conv) = kCFStringEncodingConverterCheapEightBit to from ->
  canonical_flag flags = false ->
  (has_flag flags kCFStringEncodingAllowLossyConversion = true -> toUnicodeFallback conv = Some __CFDefaultToUnicodeFallbackProc) ->
  Forall is_byte text -> 0 <= max <= Z.of_nat (length chars) -> (length text <= fuel)%nat ->
  exists code u dst,
    CFStringEncodingBytesToUnicode T D P junk ICUName systemEncoding icu platform fuel cs encoding flags text (Z.of_nat (length text)) chars max =
      Some (Converted (final_code max u (Z.of_nat (length text)) code) u dst u, cs') /\
    converts (character_of flags from) max [] text chars (Some (code, u, u, dst)).
Proof.
  intros Hconv Hclass Hflags Hfb Hu Hmax Hfuel. unfold CFStringEncodingBytesToUnicode. rewrite Hconv, Hclass.
  pose proof (to_unicode_loop_eight_bit conv T D junk flags to from lost Hclass Hflags Hfb text max Hu (proj1 Hmax) fuel [] text chars
    eq_refl Hfuel) as Hloop. cbn [length] in Hloop. change (Z.of_nat 0) with 0 in Hloop. specialize (Hloop ltac:(lia)).
  pose proof Hloop as (t1 & t2 & bs & dst & code & Ht & Hf & E & Hst & Hle & Hend). rewrite E in *. cbn [opt_bind].
  by exists code, (Z.of_nat (length (@nil Z)) + Z.of_nat (length t1)), dst.
Qed.

End Conversions.

(** ** The registry of converters

    A converter that is kept is made from the definition of its encoding: only its
    fallbacks may differ. *)

Section Registry.
Context (T : unichar_tables) (D : decomposition_tables) (P : precomposition_tables) (junk : Z) (ICUName : Z -> bool) (systemEncoding : Z).

Definition registry_ok (cs : converters) : Prop :=
  forall encoding conv, kept_converter systemEncoding cs encoding = Some conv ->
    __CFStringEncodingConverterGetDefinition T D P junk ICUName encoding = Some (definition conv).

Lemma commonConverterSlot_inj e e' n :
  commonConverterSlot systemEncoding e = Some n -> commonConverterSlot systemEncoding e' = Some n -> e = e'.
Proof. unfold commonConverterSlot. repeat case_match; intros; simplify_eq; lia. Qed.

Lemma commonConverterSlot_range e n : commonConverterSlot systemEncoding e = Some n -> (n <= 2)%nat.
Proof. unfold commonConverterSlot. repeat case_match; intros; simplify_eq; lia. Qed.

Lemma kept_keep cs e conv e' :
  kept_converter systemEncoding (keep_converter systemEncoding cs e conv) e' =
    if decide (e = e') then Some conv else kept_converter systemEncoding cs e'.
Proof.
  unfold kept_converter, keep_converter. destruct (commonConverters cs) as [[utf8 mac] sys].
  destruct (commonConverterSlot systemEncoding e) as [n|] eqn:E, (commonConverterSlot systemEncoding e') as [n'|] eqn:E';
    case_decide as He; subst; simplify_eq; cbn [commonConverters mappingTable].
  1: by destruct n as [|[|]].
  2: by destruct n as [|[|]].
  2: by destruct n' as [|[|]].
  2: cbn [mapping_lookup]; by rewrite Z.eqb_refl.
  2: cbn [mapping_lookup]; by destruct (Z.eqb_spec e e').
  assert (n <> n') by (intros ->; eauto using commonConverterSlot_inj).
  apply commonConverterSlot_range in E, E'. destruct n as [|[|[|]]], n' as [|[|[|]]]; try done; lia.
Qed.

Lemma no_converters_ok : registry_ok no_converters.
Proof. intros encoding conv. unfold kept_converter. cbn. destruct (commonConverterSlot systemEncoding encoding) as [[|[|]]|]; done. Qed.

Lemma __CFGetConverter_kept cs encoding : registry_ok cs ->
  let '(conv, cs') := __CFGetConverter T D P junk ICUName systemEncoding cs encoding in
  registry_ok cs' /\ kept_converter systemEncoding cs' encoding = conv /\
  definition <$> conv = __CFStringEncodingConverterGetDefinition T D P junk ICUName encoding /\
  (forall e, kept_converter systemEncoding cs e <> None -> kept_converter systemEncoding cs' e = kept_converter systemEncoding cs e).
Proof.
  intros Hok. unfold __CFGetConverter. destruct (kept_converter systemEncoding cs encoding) as [conv|] eqn:E.
  { split_and!; [done|done|by rewrite (Hok encoding conv E)|done]. }
  destruct (__CFStringEncodingConverterGetDefinition T D P junk ICUName encoding) as [d|] eqn:Ed; [|done]. split_and!.
  - intros e conv. rewrite kept_keep. case_decide; [intros; by simplify_eq|apply Hok].
  - rewrite kept_keep. by case_decide.
  - done.
  - intros e He. rewrite kept_keep. case_decide; [by subst|done].
Qed.

Lemma RegisterFallbackProcedures_ok cs encoding f g : registry_ok cs ->
  registry_ok (CFStringEncodingRegisterFallbackProcedures T D P junk ICUName systemEncoding cs encoding f g).
Proof.
  intros Hok. unfold CFStringEncodingRegisterFallbackProcedures.
  pose proof (__CFGetConverter_kept cs encoding Hok) as Hget. destruct (__CFGetConverter _ _ _ _ _ _ cs encoding) as [[conv|] cs1]; [|tauto].
  destruct Hget as (Hok1 & _ & Hdef & _). unfold CFStringEncodingGetConverter.
  pose proof (__CFGetConverter_kept cs1 encoding Hok1) as Hget. destruct (__CFGetConverter _ _ _ _ _ _ cs1 encoding) as [body cs2].
  destruct Hget as (Hok2 & _). intros e c. rewrite kept_keep. case_decide; [intros [= <-]; by subst|apply Hok2].
Qed.





(** The converter of an encoding whose definition is known. *)
Lemma registered cs encoding d : registry_ok cs -> __CFStringEncodingConverterGetDefinition T D P junk ICUName encoding = Some d ->
  exists conv cs', __CFGetConverter T D P junk ICUName systemEncoding cs encoding = (Some conv, cs') /\ definition conv = d /\ registry_ok cs'.
Proof.
  intros Hok Hd. pose proof (__CFGetConverter_kept cs encoding Hok) as Hget.
  destruct (__CFGetConverter T D P junk ICUName systemEncoding cs encoding) as [conv cs']. destruct Hget as (? & _ & Hdef & _).
  rewrite Hd in Hdef. destruct conv as [conv|]; [|done]. injection Hdef as Hdef. by exists conv, cs'.
Qed.

(** *** The encodings of single bytes *)

(** Each with its converter, and the characters that its bytes do not give back. *)
Inductive single_bytes : Z -> CheapEightBitProc -> CheapEightBitProc -> (Z -> bool) -> Prop :=
| ascii_bytes : single_bytes kCFStringEncodingASCII __CFToASCII __CFFromASCII nothing_lost
| latin1_bytes : single_bytes kCFStringEncodingISOLatin1 __CFToISOLatin1 __CFFromISOLatin1 nothing_lost
| mac_roman_bytes : single_bytes kCFStringEncodingMacRoman __CFToMacRoman __CFFromMacRoman (Z.eqb 0x2126)
| win_latin1_bytes : single_bytes kCFStringEncodingWindowsLatin1 __CFToWinLatin1 __CFFromWinLatin1 nothing_lost
| nextstep_bytes : single_bytes kCFStringEncodingNextStepLatin __CFToNextStepLatin __CFFromNextStepLatin (Z.eqb 0xFFFD).

Lemma single_bytes_converter encoding to from lost : single_bytes encoding to from lost -> EightBit to from lost.
Proof. destruct 1; apply _. Qed.

Lemma single_bytes_definition encoding to from lost : single_bytes encoding to from lost ->
  exists precompose combining,
    __CFStringEncodingConverterGetDefinition T D P junk ICUName encoding = Some (eight_bit to from precompose combining) /\
    (combining = None \/ combining = Some CFStringEncodingIsValidCombiningCharacterForLatin1) /\ encoding <> kCFStringEncodingUTF8.
Proof. destruct 1; do 2 eexists; (split; [reflexivity|]); (split; [tauto|done]). Qed.

Lemma never_combining c : ~ (0x300 <= c < 0x360) -> CFStringEncodingIsValidCombiningCharacterForLatin1 c = Some false.
Proof.
  intros Hc. unfold CFStringEncodingIsValidCombiningCharacterForLatin1. by destruct (Z.leb_spec 0x300 c), (Z.ltb_spec c 0x360); [lia|..].
Qed.

End Registry.

(** ** Theorems: single bytes *)

(** A conversion with room for characters that all have units. *)
Lemma converts_all enc max text out dst code u dst' :
  converts enc max [] text dst (Some (code, u, u, dst')) -> Forall2 (fun c b => enc c = Some b) text out -> Z.of_nat (length text) <= max ->
  u = Z.of_nat (length text) /\ final_code max u (Z.of_nat (length text)) code = kCFStringEncodingConversionSuccess /\
  dst' = out ++ drop (length out) dst.
Proof.
  intros (t1 & t2 & bs & dst1 & code1 & -> & Hf1 & Er & Hst & Hle & Hend) Hf Hroom. injection Er as -> Hu _ ->.
  cbn [length] in *. change (Z.of_nat 0) with 0 in *. rewrite Z.add_0_l in *. subst u.
  apply Forall2_app_inv_l in Hf as (b1 & b2 & Hb1 & Hb2 & ->). rewrite length_app in *.
  assert (b1 = bs) as ->.
  { clear -Hb1 Hf1. revert bs Hf1. induction Hb1 as [|c b t1 b1 E _ IH]; intros bs Hf1; [by inversion Hf1|].
    apply Forall2_cons_inv_l in Hf1 as (b' & bs' & E' & Hf1 & ->). f_equal; [congruence|auto]. }
  assert (t2 = [] /\ code1 = kCFStringEncodingConversionSuccess) as [-> ->].
  { destruct Hend as [?|[(Hne & _ & Hu & _)|(c & r & -> & En & _)]]; [done|destruct t2; [done|simpl in *; lia]|].
    apply Forall2_cons_inv_l in Hb2 as (b & bs' & E & _). congruence. }
  apply Forall2_nil_inv_l in Hb2 as ->. rewrite app_nil_r. split_and!; [simpl; lia| |].
  - unfold final_code. simpl. by destruct (Z.ltb_spec (Z.of_nat (length t1)) (Z.of_nat (length t1 + 0))); [lia|].
  - unfold stored_at in Hst. destruct (Z.eqb_spec max 0); [|done]. subst max dst1. destruct t1; [|simpl in Hroom; lia].
    apply Forall2_nil_inv_l in Hf1 as ->. done.
Qed.

Section Units.
Context (to from : CheapEightBitProc) (lost : Z -> bool) `{!EightBit to from lost}.

Lemma from_any_flags flags data text :
  Forall2 (fun b c => from 0 b = Some (Some c)) data text -> Forall2 (fun b c => from flags b = Some (Some c)) data text.
Proof. intros Hf. eapply list.Forall2_impl; [exact Hf|]. intros b c E. by rewrite (from_flags flags b). Qed.

Lemma to_any_flags flags data text :
  Forall2 (fun c b => to 0 c = Some (Some b)) text data -> Forall2 (fun c b => to flags c = Some (Some b)) text data.
Proof. intros Hf. eapply list.Forall2_impl; [exact Hf|]. intros c b E. by rewrite (to_flags flags c). Qed.

(** The characters of bytes are units that are converted back. *)
Lemma units_of_bytes data text : Forall is_byte data -> Forall2 (fun b c => from 0 b = Some (Some c)) data text ->
  Forall is_unit text /\ Forall (fun c => CFStringEncodingIsValidCombiningCharacterForLatin1 c = Some false) text /\
  Forall2 (fun c b => to 0 c = Some (Some b)) text data.
Proof.
  intros Hb Hf. induction Hf as [|b c data text E Hf IH]; [split_and!; constructor|].
  apply Forall_cons_1 in Hb as [Hb Hbs]. destruct (IH Hbs) as (Hu & Hc & Ht).
  destruct (from_byte 0 b Hb) as (r & Er & Hr). rewrite E in Er. injection Er as <-. destruct (Hr c eq_refl) as (H1 & H2 & H3 & H4).
  split_and!; constructor; auto using never_combining.
Qed.
End Units.

Section Theorems.
Context (T : unichar_tables) (D : decomposition_tables) (P : precomposition_tables) (junk : Z) (ICUName : Z -> bool) (systemEncoding : Z).
Context (icu platform : Z -> Z -> list Z -> Z -> list Z -> Z -> option converted).

(** The registries of a program: any sequence of calls. *)
Inductive registry_reached : converters -> Prop :=
| registry_new : registry_reached no_converters
| registry_get cs encoding :
    registry_reached cs -> registry_reached (snd (__CFGetConverter T D P junk ICUName systemEncoding cs encoding))
| registry_fallbacks cs encoding f g :
    registry_reached cs -> registry_reached (CFStringEncodingRegisterFallbackProcedures T D P junk ICUName systemEncoding cs encoding f g)
| registry_to_bytes fuel cs encoding flags text numChars bytes max r cs' :
    registry_reached cs ->
    CFStringEncodingUnicodeToBytes T D P junk ICUName systemEncoding icu platform fuel cs encoding flags text numChars bytes max = Some (r, cs') ->
    registry_reached cs'
| registry_to_unicode fuel cs encoding flags bytes numBytes chars max r cs' :
    registry_reached cs ->
    CFStringEncodingBytesToUnicode T D P junk ICUName systemEncoding icu platform fuel cs encoding flags bytes numBytes chars max = Some (r, cs') ->
    registry_reached cs'.

Lemma UnicodeToBytes_registry fuel cs encoding flags text numChars bytes max r cs' :
  CFStringEncodingUnicodeToBytes T D P junk ICUName systemEncoding icu platform fuel cs encoding flags text numChars bytes max = Some (r, cs') ->
  cs' = cs \/ cs' = snd (__CFGetConverter T D P junk ICUName systemEncoding cs encoding).
Proof.
  unfold CFStringEncodingUnicodeToBytes. destruct (Z.eqb_spec encoding kCFStringEncodingUTF8) as [->|_].
  - destruct (unicode_to_utf8 _ _ _ _ _ _ _ _); [|done]. cbn [opt_bind]. intros [= _ <-]. destruct (_ || _); [by left|].
    right. unfold CFStringEncodingGetConverter. by destruct (__CFGetConverter _ _ _ _ _ _ _ _).
  - destruct (__CFGetConverter _ _ _ _ _ _ _ _) as [[conv|] cs1]; [|intros [= _ <-]; by right].
    destruct (if has_flag flags _ then _ else _) as [[combining precompose] flags'].
    match goal with |- opt_bind ?x _ = _ -> _ => destruct x end; [|done]. cbn [opt_bind]. intros [= _ <-]. by right.
Qed.

Lemma BytesToUnicode_registry fuel cs encoding flags bytes numBytes chars max r cs' :
  CFStringEncodingBytesToUnicode T D P junk ICUName systemEncoding icu platform fuel cs encoding flags bytes numBytes chars max = Some (r, cs') ->
  cs' = snd (__CFGetConverter T D P junk ICUName systemEncoding cs encoding).
Proof.
  unfold CFStringEncodingBytesToUnicode. destruct (__CFGetConverter _ _ _ _ _ _ _ _) as [[conv|] cs1]; [|by intros [= _ <-]].
  match goal with |- opt_bind ?x _ = _ -> _ => destruct x end; [|done]. cbn [opt_bind]. by intros [= _ <-].
Qed.

Lemma registry_reached_ok cs : registry_reached cs -> registry_ok T D P junk ICUName systemEncoding cs.
Proof.
  assert (forall cs encoding, registry_ok T D P junk ICUName systemEncoding cs ->
    registry_ok T D P junk ICUName systemEncoding (snd (__CFGetConverter T D P junk ICUName systemEncoding cs encoding))) as Hget.
  { intros cs' encoding Hok. pose proof (__CFGetConverter_kept T D P junk ICUName systemEncoding cs' encoding Hok) as Hk.
    destruct (__CFGetConverter _ _ _ _ _ _ _ _). tauto. }
  induction 1 as [|cs encoding _ IH|cs encoding f g _ IH|fuel cs encoding flags text numChars bytes max r cs' _ IH E|fuel cs encoding flags bytes numBytes chars max r cs' _ IH E].
  - apply no_converters_ok.
  - auto.
  - by apply RegisterFallbackProcedures_ok.
  - apply UnicodeToBytes_registry in E as [-> | ->]; auto.
  - apply BytesToUnicode_registry in E as ->. auto.
Qed.



Lemma single_bytes_registered cs encoding to from lost : single_bytes encoding to from lost -> registry_reached cs ->
  exists conv cs', __CFGetConverter T D P junk ICUName systemEncoding cs encoding = (Some conv, cs') /\
    encodingClass (definition conv) = kCFStringEncodingConverterCheapEightBit to from /\ encoding <> kCFStringEncodingUTF8 /\
    registry_reached cs' /\
    (isValidCombiningChar (definition conv) = None \/
     isValidCombiningChar (definition conv) = Some CFStringEncodingIsValidCombiningCharacterForLatin1).
Proof.
  intros Hsb Hreach. destruct (single_bytes_definition T D P junk ICUName encoding to from lost Hsb) as (pre & comb & Hd & Hcomb & Hne).
  destruct (registered T D P junk ICUName systemEncoding cs encoding _ (registry_reached_ok cs Hreach) Hd) as (conv & cs' & Eg & Hdef & _).
  exists conv, cs'. rewrite Hdef. split_and!; try done. pose proof (registry_get cs encoding Hreach) as Hr. by rewrite Eg in Hr.
Qed.

(** C13: converting text without the combining characters that the converters for
    Latin may compose to one of the five encodings of single bytes, strictly or with
    a lossy byte, with a registry of any history: one byte is stored for each character, its own or,
    when lossy conversion is allowed with a lossy byte, that byte for a
    character without one.  The conversion ends; it ends with success exactly
    when all characters are converted, reports an insufficient buffer exactly
    when all of it is used and characters are left, and invalid input at
    the first character without a byte.  With no destination (length 0)
    it counts the bytes. *)
Theorem CFStringEncodingUnicodeToBytes_single_bytes fuel cs encoding to from lost flags text bytes maxByteLen :
  single_bytes encoding to from lost -> registry_reached cs ->
  lossy_flag flags = false \/ CFStringEncodingMaskToLossyByte flags <> 0 ->
  Forall is_unit text -> Forall (fun c => CFStringEncodingIsValidCombiningCharacterForLatin1 c = Some false) text ->
  0 <= maxByteLen <= Z.of_nat (length bytes) -> (length text <= fuel)%nat ->
  exists t1 t2 bs code cs' bytes',
    text = t1 ++ t2 /\ Forall2 (fun c b => byte_of flags to c = Some b) t1 bs /\
    CFStringEncodingUnicodeToBytes T D P junk ICUName systemEncoding icu platform fuel cs encoding flags text (Z.of_nat (length text)) bytes maxByteLen =
      Some (Converted code (Z.of_nat (length t1)) bytes' (Z.of_nat (length t1)), cs') /\
    bytes' = (if maxByteLen =? 0 then bytes else bs ++ drop (length bs) bytes) /\
    conversion_result (byte_of flags to) maxByteLen (Z.of_nat (length t1)) t2 code.
Proof.
  intros Hsb Hreach Hflags Hu Hcomb Hmax Hfuel.
  destruct (single_bytes_registered cs encoding to from lost Hsb Hreach) as (conv & cs' & Hconv & Hclass & Hne & _ & Hv).
  pose proof (single_bytes_converter encoding to from lost Hsb) as Heb.
  destruct (unicode_to_bytes_loop T D P junk ICUName systemEncoding icu platform to from lost fuel cs encoding flags text bytes maxByteLen conv cs')
    as (code & u & dst & E & t1 & t2 & bs & dst' & code' & Ht & Hf & Er & Hst & Hle & Hend); try done; [by destruct Hv as [-> | ->]|]. injection Er as -> Hu1 _ ->. subst u.
  cbn [length] in *. change (Z.of_nat 0) with 0 in *. rewrite !Z.add_0_l in *.
  exists t1, t2, bs, (final_code maxByteLen (Z.of_nat (length t1)) (Z.of_nat (length text)) code'), cs', dst'. split_and!; [done|done|done| |].
  - unfold stored_at in Hst. by destruct (_ =? _).
  - rewrite Ht. by apply final_code_result.
Qed.

(** C14: bytes of one of the five encodings that stand for characters, converted to
    Unicode and back with room for them, are the same bytes, and both conversions
    succeed; and each character that has a byte, but for two (U+2126 in Mac Roman
    and U+FFFD in NextStep Latin), is the character of that byte. *)
Theorem single_bytes_round_trip fuel fuel' cs encoding to from lost flags flags' data text chars bytes maxCharLen maxByteLen :
  single_bytes encoding to from lost -> registry_reached cs -> canonical_flag flags = false ->
  (has_flag flags kCFStringEncodingAllowLossyConversion = false) ->
  lossy_flag flags' = false \/ CFStringEncodingMaskToLossyByte flags' <> 0 ->
  Forall is_byte data -> Forall2 (fun b c => from 0 b = Some (Some c)) data text ->
  Z.of_nat (length data) <= maxCharLen <= Z.of_nat (length chars) -> Z.of_nat (length data) <= maxByteLen <= Z.of_nat (length bytes) ->
  (length data <= fuel)%nat -> (length data <= fuel')%nat ->
  (exists cs1 cs2,
    CFStringEncodingBytesToUnicode T D P junk ICUName systemEncoding icu platform fuel cs encoding flags data (Z.of_nat (length data)) chars maxCharLen =
      Some (Converted kCFStringEncodingConversionSuccess (Z.of_nat (length data)) (text ++ drop (length text) chars) (Z.of_nat (length text)), cs1) /\
    CFStringEncodingUnicodeToBytes T D P junk ICUName systemEncoding icu platform fuel' cs1 encoding flags' text (Z.of_nat (length text)) bytes maxByteLen =
      Some (Converted kCFStringEncodingConversionSuccess (Z.of_nat (length text)) (data ++ drop (length data) bytes) (Z.of_nat (length data)), cs2)) /\
  (forall c b, is_unit c -> to 0 c = Some (Some b) -> lost c = false -> is_byte b /\ from 0 b = Some (Some c)).
Proof.
  intros Hsb Hreach Hcan Hstrict Hflags Hbytes Hf Hm1 Hm2 Hf1 Hf2. pose proof (single_bytes_converter encoding to from lost Hsb) as Heb.
  split; [|intros c b Hc Eto Hl; destruct (to_byte 0 c Hc) as (r & Er & Hr); rewrite Eto in Er; injection Er as <-; destruct (Hr b eq_refl); auto].
  pose proof (Forall2_length Hf) as Hlen. destruct (units_of_bytes to from lost data text Hbytes Hf) as (Hu & Hcomb & Hback).
  destruct (single_bytes_registered cs encoding to from lost Hsb Hreach) as (conv & cs1 & Hconv & Hclass & Hne & Hreach1 & Hv).
  destruct (single_bytes_registered cs1 encoding to from lost Hsb Hreach1) as (conv' & cs2 & Hconv' & Hclass' & _ & _ & Hv').
  exists cs1, cs2. split.
  - destruct (bytes_to_unicode_loop T D P junk ICUName systemEncoding icu platform to from lost fuel cs encoding flags data chars maxCharLen conv cs1)
      as (code & u & dst & E & Hc); try done; [by rewrite Hstrict|lia|].
    destruct (converts_all _ _ _ _ _ _ _ _ Hc (character_of_converted flags to from lost data text (from_any_flags to from lost flags data text Hf)) ltac:(lia)) as (-> & Ec & ->).
    by rewrite E, Ec, Hlen.
  - destruct (unicode_to_bytes_loop T D P junk ICUName systemEncoding icu platform to from lost fuel' cs1 encoding flags' text bytes maxByteLen conv' cs2)
      as (code & u & dst & E & Hc); try done; [lia|by destruct Hv' as [-> | ->]|lia|].
    destruct (converts_all _ _ _ _ _ _ _ _ Hc (byte_of_converted flags' to from lost text data (to_any_flags to from lost flags' data text Hback)) ltac:(lia)) as (-> & Ec & ->).
    by rewrite E, Ec, Hlen.
Qed.
End Theorems.

(** ** Theorems: UTF-8 *)

Section UTF8.
Context (T : unichar_tables) (D : decomposition_tables) (P : precomposition_tables) (junk : Z) (ICUName : Z -> bool) (systemEncoding : Z).
Context (icu platform : Z -> Z -> list Z -> Z -> list Z -> Z -> option converted).

Lemma stray_ill_formed pre rest : ill_formed16 rest ->
  stray_surrogate (pre ++ rest) (Z.of_nat (length (pre ++ rest))) (Z.of_nat (length pre)) = Some true.
Proof.
  intros Hill. destruct rest as [|u r]; [done|]. unfold stray_surrogate. rewrite rd_app_here by done. cbn [opt_bind].
  cbn [ill_formed16] in Hill. unfold CFUniCharIsSurrogateLowCharacter, CFUniCharIsSurrogateHighCharacter in Hill.
  destruct ((0xDC00 <=? u) && (u <=? 0xDFFF)) eqn:El; [done|]. destruct Hill as [?|[Hh Hr]]; [lia|].
  destruct ((0xD800 <=? u) && (u <=? 0xDBFF)) eqn:Eh; [|lia]. rewrite length_app. cbn [length].
  destruct r as [|l r]; [by match goal with |- context [1 =? ?x] => destruct (Z.eqb_spec 1 x); [|simpl in *; lia] end|]. destruct (1 =? _); [done|].
  assert (rd (pre ++ u :: l :: r) (Z.of_nat (length pre) + 1) = Some l) as ->.
  { replace (pre ++ u :: l :: r) with ((pre ++ [u]) ++ l :: r) by (by rewrite <- (assoc_L (++))). rewrite rd_app_here; [done|rewrite length_app; simpl; lia]. }
  cbn [opt_bind]. f_equal. lia.
Qed.

Lemma stray_scalar pre c rest : scalar c ->
  stray_surrogate (pre ++ utf16 c ++ rest) (Z.of_nat (length (pre ++ utf16 c ++ rest))) (Z.of_nat (length pre)) = Some false.
Proof.
  intros Hc. unfold scalar in Hc. unfold stray_surrogate, utf16. destruct (Z.ltb_spec c 0x10000); cbn [app].
  - rewrite rd_app_here by done. cbn [opt_bind]. destruct (_ && _) eqn:E; [lia|]. destruct (_ && _) eqn:E2 in |- *; [lia|done].
  - rewrite rd_app_here by done. cbn [opt_bind]. set (h := 0xD800 + _). set (l := 0xDC00 + _).
    assert (0xD800 <= h <= 0xDBFF /\ 0xDC00 <= l <= 0xDFFF) as [Hh Hl] by (unfold h, l; Z.to_euclidean_division_equations; lia).
    destruct ((0xDC00 <=? h) && (h <=? 0xDFFF)) eqn:E; [lia|]. destruct ((0xD800 <=? h) && (h <=? 0xDBFF)) eqn:E2; [|lia].
    destruct (Z.eqb_spec 1 (Z.of_nat (length (pre ++ h :: l :: rest)) - Z.of_nat (length pre))); [rewrite length_app in *; simpl in *; lia|].
    replace (pre ++ h :: l :: rest) with ((pre ++ [h]) ++ l :: rest) by (by rewrite <- (assoc_L (++))).
    rewrite rd_app_here by (rewrite length_app; simpl; lia). cbn [opt_bind]. f_equal. lia.
Qed.

(** C15: converting any text to UTF-8, without decomposition: the units consumed
    are whole characters and the bytes their UTF-8 form.  The code is success
    exactly when the whole text is converted, insufficient buffer exactly when
    the next character is well-formed and its bytes do not fit, and
    invalid input exactly when a surrogate without its partner comes
    next. *)
Theorem CFStringEncodingUnicodeToBytes_UTF8 fuel cs flags text bytes maxByteLen :
  has_flag flags kCFStringEncodingUseCanonical = false -> has_flag flags kCFStringEncodingUseHFSPlusCanonical = false ->
  Forall is_unit text -> 0 <= maxByteLen < 2 ^ 32 -> maxByteLen <= Z.of_nat (length bytes) ->
  exists cs1 rest code cs' bytes', text = encode16 cs1 ++ rest /\ Forall scalar cs1 /\
    CFStringEncodingUnicodeToBytes T D P junk ICUName systemEncoding icu platform fuel cs kCFStringEncodingUTF8 flags text
      (Z.of_nat (length text)) bytes maxByteLen =
      Some (Converted code (Z.of_nat (length (encode16 cs1))) bytes' (Z.of_nat (length (encode8 cs1))), cs') /\
    length bytes' = length bytes /\ (maxByteLen = 0 -> bytes' = bytes) /\ (maxByteLen <> 0 -> take (length (encode8 cs1)) bytes' = encode8 cs1) /\
    ((rest = [] /\ code = kCFStringEncodingConversionSuccess) \/
     (exists c r, rest = utf16 c ++ r /\ scalar c /\ maxByteLen <> 0 /\
        maxByteLen < Z.of_nat (length (encode8 cs1)) + Z.of_nat (length (utf8 c)) /\ code = kCFStringEncodingInsufficientOutputBufferLength) \/
     (ill_formed16 rest /\ code = kCFStringEncodingInvalidInputStream)).
Proof.
  intros Hcan Hhfs Hu Hm Hmb. destruct (utf16_split text Hu) as (chars & tail & -> & Hcs & Ht).
  destruct (to_utf8_loop_ok chars tail (length (encode16 chars ++ tail)) [] bytes [] maxByteLen Hcs Ht Hm
    (stored8_empty maxByteLen bytes ltac:(lia)) ltac:(lia)) as (cs1 & cs2 & bytes' & -> & E & Hl & Hz & Hs & Hfull).
  cbn [app length] in *. change (Z.of_nat 0) with 0 in *. rewrite !Z.add_0_l in *.
  apply Forall_app in Hcs as [Hcs1 Hcs2]. rewrite encode_app, <- (assoc_L (++)) in *.
  unfold CFStringEncodingUnicodeToBytes. rewrite Z.eqb_refl. unfold unicode_to_utf8. rewrite Hcan, Hhfs. cbn [orb].
  unfold __CFToUTF8. change (has_flag 0 _) with false. rewrite Nat2Z.id. cbn [negb]. rewrite E. cbn [opt_bind].
  set (rest := encode16 cs2 ++ tail) in *.
  assert (stored8 maxByteLen bytes' (encode8 cs1) /\ (maxByteLen = 0 -> bytes' = bytes) /\
    (maxByteLen <> 0 -> take (length (encode8 cs1)) bytes' = encode8 cs1)) as (_ & Hz' & Htake).
  { split_and!; [done|tauto|]. intros Hne. destruct (Hs Hne) as (_ & _ & r & ->). by rewrite take_app_length. }
  assert (Z.of_nat (length (encode16 cs1)) =? Z.of_nat (length (encode16 cs1 ++ rest)) = bool_decide (rest = [])) as ->.
  { generalize rest. intros [|x r]; rewrite length_app; case_bool_decide; try done; cbn [length]; [apply Z.eqb_eq|apply Z.eqb_neq]; lia. }
  destruct cs2 as [|c cs2]; [cbn [encode flat_map app] in rest|].
  - destruct Ht as [Ht|Hill].
    + subst tail rest. rewrite bool_decide_true by done. cbn [opt_bind].
      do 5 eexists. split_and!; [done|done|done|done|done|done|by left].
    + subst rest. rewrite bool_decide_false by (by intros ->). rewrite stray_ill_formed by done. cbn [opt_bind].
      do 5 eexists. split_and!; [done|done|destruct (_ && _); reflexivity|done|done|done|by right; right].
  - apply Forall_cons_1 in Hcs2 as [Hc _]. pose proof (utf16_app_nonempty c) as Hne. pose proof (utf8_length_bounds c).
    specialize (Hfull c cs2 eq_refl). assert (maxByteLen <> 0) as Hmz by (intros ->; destruct (Hz eq_refl); done).
    assert (rest = utf16 c ++ encode16 cs2 ++ tail) as -> by (unfold rest; by rewrite encode16_cons, <- (assoc_L (++))).
    rewrite bool_decide_false by (by intros [? _]%app_nil).
    replace (_ && _) with true by lia. rewrite stray_scalar by done. cbn [opt_bind].
    do 5 eexists. split_and!; [done|done|done|done|done|done|right; left]. by exists c, (encode16 cs2 ++ tail).
Qed.
End UTF8.

(** ** Witnesses *)

Definition no_precompositions : precomposition_tables := {|
  __CFUniCharPrecompSourceTable := []; __CFUniCharBMPPrecompDestinationTable := []; __CFUniCharNonBMPPrecompDestinationTable := [];
  __CFUniCharNonBaseBitmapForBMP_P := None; __CFUniCharCombiningClassForBMP := None |}.
Definition no_icu (encoding : Z) : bool := false.
Definition no_conversion (encoding flags : Z) (src : list Z) (n : Z) (dst : list Z) (max : Z) : option converted := None.



(** "A", U+00E9 and U+20AC to Windows Latin 1, with room for two. *)
Lemma CFStringEncodingUnicodeToBytes_single_bytes_witness :
  exists t1 t2 bs code cs' bytes',
    [0x41; 0xE9; 0x20AC] = t1 ++ t2 /\ Forall2 (fun c b => byte_of 0 __CFToWinLatin1 c = Some b) t1 bs /\
    CFStringEncodingUnicodeToBytes no_tables no_decompositions no_precompositions 0 no_icu 0 no_conversion no_conversion 3 no_converters
      kCFStringEncodingWindowsLatin1 0 [0x41; 0xE9; 0x20AC] 3 [0; 0] 2 =
      Some (Converted code (Z.of_nat (length t1)) bytes' (Z.of_nat (length t1)), cs') /\
    bytes' = bs ++ drop (length bs) [0; 0] /\
    conversion_result (byte_of 0 __CFToWinLatin1) 2 (Z.of_nat (length t1)) t2 code.
Proof.
  apply (CFStringEncodingUnicodeToBytes_single_bytes no_tables no_decompositions no_precompositions 0 no_icu 0 no_conversion no_conversion 3 no_converters
    kCFStringEncodingWindowsLatin1 __CFToWinLatin1 __CFFromWinLatin1 nothing_lost 0 [0x41; 0xE9; 0x20AC] [0; 0] 2 win_latin1_bytes (registry_new _ _ _ _ _ _ _ _)).
  - left. reflexivity.
  - repeat constructor; lia.
  - repeat constructor.
  - simpl. lia.
  - simpl. lia.
Defined.

Lemma single_bytes_round_trip_witness :
  (exists cs1 cs2,
    CFStringEncodingBytesToUnicode no_tables no_decompositions no_precompositions 0 no_icu 0 no_conversion no_conversion 3 no_converters
      kCFStringEncodingMacRoman 0 [0x41; 0x8E; 0xDB] 3 [0; 0; 0; 7] 4 =
      Some (Converted kCFStringEncodingConversionSuccess 3 [0x41; 0xE9; 0x20AC; 7] 3, cs1) /\
    CFStringEncodingUnicodeToBytes no_tables no_decompositions no_precompositions 0 no_icu 0 no_conversion no_conversion 3 cs1
      kCFStringEncodingMacRoman 0 [0x41; 0xE9; 0x20AC] 3 [0; 0; 0] 3 =
      Some (Converted kCFStringEncodingConversionSuccess 3 [0x41; 0x8E; 0xDB] 3, cs2)) /\
  (forall c b, is_unit c -> __CFToMacRoman 0 c = Some (Some b) -> (0x2126 =? c) = false -> is_byte b /\ __CFFromMacRoman 0 b = Some (Some c)).
Proof.
  apply (single_bytes_round_trip no_tables no_decompositions no_precompositions 0 no_icu 0 no_conversion no_conversion 3 3 no_converters
    kCFStringEncodingMacRoman __CFToMacRoman __CFFromMacRoman (Z.eqb 0x2126) 0 0 [0x41; 0x8E; 0xDB] [0x41; 0xE9; 0x20AC] [0; 0; 0; 7] [0; 0; 0] 4 3
    mac_roman_bytes (registry_new _ _ _ _ _ _ _ _) eq_refl eq_refl).
  - left. reflexivity.
  - repeat constructor; lia.
  - repeat constructor; reflexivity.
  - simpl. lia.
  - simpl. lia.
  - simpl. lia.
  - simpl. lia.
Defined.

(** U+00E9 and U+1F600 with room for four bytes. *)
Lemma CFStringEncodingUnicodeToBytes_UTF8_witness :
  exists cs1 rest code cs' bytes', [0xE9; 0xD83D; 0xDE00] = encode16 cs1 ++ rest /\ Forall scalar cs1 /\
    CFStringEncodingUnicodeToBytes no_tables no_decompositions no_precompositions 0 no_icu 0 no_conversion no_conversion 0 no_converters
      kCFStringEncodingUTF8 0 [0xE9; 0xD83D; 0xDE00] 3 [0; 0; 0; 0] 4 =
      Some (Converted code (Z.of_nat (length (encode16 cs1))) bytes' (Z.of_nat (length (encode8 cs1))), cs').
Proof.
  destruct (CFStringEncodingUnicodeToBytes_UTF8 no_tables no_decompositions no_precompositions 0 no_icu 0 no_conversion no_conversion 0 no_converters
    0 [0xE9; 0xD83D; 0xDE00] [0; 0; 0; 0] 4) as (cs1 & rest & code & cs' & bytes' & H1 & H2 & H3 & _).
  - reflexivity.
  - reflexivity.
  - repeat constructor; lia.
  - lia.
  - simpl. lia.
  - exists cs1, rest, code, cs', bytes'. exact (conj H1 (conj H2 H3)).
Defined.

(** ** Conversions that go wrong

    With the tables of the sources. *)

Notation to_bytes_shipped := (CFStringEncodingUnicodeToBytes shipped_tables shipped_decompositions shipped_precompositions 0 no_icu 0 no_conversion no_conversion).
Notation to_unicode_shipped := (CFStringEncodingBytesToUnicode shipped_tables shipped_decompositions shipped_precompositions 0 no_icu 0 no_conversion no_conversion).

Definition latin1_shipped : _CFEncodingConverter :=
  __CFEncodingConverterFromDefinition shipped_tables shipped_decompositions 0 (__CFConverterISOLatin1 shipped_tables shipped_precompositions).

(** The rounds of the lossy conversion of "q" with two acute accents. *)
Definition latin1_round (usedLen used : Z) (bytes : list Z) : option to_bytes_round :=
  to_bytes_body latin1_shipped (Z.lor kCFStringEncodingAllowLossyConversion kCFStringEncodingComposeCombinings) [0x71; 0x301; 0x301] 3 8
    (isValidCombiningChar (definition latin1_shipped)) (toBytesPrecompose (definition latin1_shipped)) usedLen used bytes.

Lemma latin1_first_round : latin1_round 0 0 (replicate 8 0) = Some (Continue 2 1 (0x3F :: replicate 7 0)).
Proof. vm_compute. reflexivity. Qed.

Lemma latin1_next_round : latin1_round 2 1 (0x3F :: replicate 7 0) = Some (Continue 2 1 (0x3F :: replicate 7 0)).
Proof. vm_compute. reflexivity. Qed.

Lemma to_bytes_loop_continues conv flags text n max combining precompose fuel usedLen used bytes usedLen' used' bytes' :
  (usedLen <? n) && ((max =? 0) || (used <? max)) = true ->
  to_bytes_body conv flags text n max combining precompose usedLen used bytes = Some (Continue usedLen' used' bytes') ->
  to_bytes_loop conv flags text n max combining precompose (S fuel) usedLen used bytes =
    to_bytes_loop conv flags text n max combining precompose fuel usedLen' used' bytes'.
Proof. intros Hc Hb. cbn [to_bytes_loop]. by rewrite Hc, Hb. Qed.

(** The loop from either state. *)
Lemma latin1_loop_ends_never fuel (first : bool) :
  to_bytes_loop latin1_shipped (Z.lor kCFStringEncodingAllowLossyConversion kCFStringEncodingComposeCombinings) [0x71; 0x301; 0x301] 3 8
    (isValidCombiningChar (definition latin1_shipped)) (toBytesPrecompose (definition latin1_shipped)) fuel
    (if first then 0 else 2) (if first then 0 else 1) (if first then replicate 8 0 else 0x3F :: replicate 7 0) = None.
Proof.
  revert first. induction fuel as [|fuel IH]; intros first; [by destruct first|].
  rewrite (to_bytes_loop_continues _ _ _ _ _ _ _ fuel _ _ _ 2 1 (0x3F :: replicate 7 0)); [exact (IH false)|by destruct first|].
  destruct first; [exact latin1_first_round|exact latin1_next_round].
Qed.

(** C40: a lossy conversion of text need not end: "q" with two acute accents, which
    do not compose, to ISO Latin 1.  After its first round the loop is where
    it is after each further round: it goes back over the accents to the base,
    substitutes the first accent and starts again at the second. *)
Theorem lossy_conversion_does_not_end :
  latin1_round 0 0 (replicate 8 0) = Some (Continue 2 1 (0x3F :: replicate 7 0)) /\
  latin1_round 2 1 (0x3F :: replicate 7 0) = Some (Continue 2 1 (0x3F :: replicate 7 0)) /\
  (forall fuel, to_bytes_shipped fuel no_converters kCFStringEncodingISOLatin1 kCFStringEncodingAllowLossyConversion
    [0x71; 0x301; 0x301] 3 (replicate 8 0) 8 = None).
Proof.
  split_and!; [exact latin1_first_round|exact latin1_next_round|]. intros fuel. unfold CFStringEncodingUnicodeToBytes.
  change (kCFStringEncodingISOLatin1 =? kCFStringEncodingUTF8) with false. cbn iota.
  assert (fst (__CFGetConverter shipped_tables shipped_decompositions shipped_precompositions 0 no_icu 0 no_converters kCFStringEncodingISOLatin1) =
    Some latin1_shipped) as Hc by reflexivity.
  destruct (__CFGetConverter _ _ _ _ _ _ _ _) as [conv cs]. cbn [fst] in Hc. subst conv.
  change (has_flag kCFStringEncodingAllowLossyConversion kCFStringEncodingSubstituteCombinings) with false.
  change (has_flag kCFStringEncodingAllowLossyConversion kCFStringEncodingIgnoreCombinings) with false. cbn [negb].
  by rewrite (latin1_loop_ends_never fuel true).
Qed.

(** U+00B0 has no byte in NextStep Latin and an empty substitute; the accent after
    it makes the conversion store its substitute before the first byte. *)
Lemma conversion_before_buffer :
  fst <$> to_bytes_shipped 9 no_converters kCFStringEncodingNextStepLatin kCFStringEncodingAllowLossyConversion [0xB0] 1 (replicate 8 0) 8 =
    Some (Converted kCFStringEncodingConversionSuccess 1 (replicate 8 0) 0) /\
  to_bytes_shipped 9 no_converters kCFStringEncodingNextStepLatin kCFStringEncodingAllowLossyConversion [0xB0; 0x301] 2 (replicate 8 0) 8 = None.
Proof. split; vm_compute; reflexivity. Qed.

(** With a lossy byte the combining characters are skipped to the first unit that
    is none, even behind the end of the text: what is read there decides. *)
Lemma conversion_past_text :
  to_bytes_shipped 9 no_converters kCFStringEncodingISOLatin1 0x3F000001 [0x71; 0x301] 2 (replicate 8 0) 8 = None /\
  fst <$> to_bytes_shipped 9 no_converters kCFStringEncodingISOLatin1 0x3F000001 [0x71; 0x301; 0x301; 0x41] 2 (replicate 8 0) 8 =
    Some (Converted kCFStringEncodingConversionSuccess 3 (0x3F :: replicate 7 0) 1).
Proof. split; vm_compute; reflexivity. Qed.

(** A character of two units in a destination of one: all bytes are used, no
    character is stored, and the result is success. *)
Lemma UTF8_pair_lost :
  fst <$> to_unicode_shipped 9 no_converters kCFStringEncodingUTF8 0 [0xF0; 0x9F; 0x98; 0x80] 4 [7] 1 =
    Some (Converted kCFStringEncodingConversionSuccess 4 [7] 0).
Proof. vm_compute. reflexivity. Qed.

(** Counting canonical characters of single bytes stops at the first that is
    decomposed. *)
Lemma canonical_count_fails :
  fst <$> to_unicode_shipped 9 no_converters kCFStringEncodingISOLatin1 kCFStringEncodingUseCanonical [0x41; 0xE9] 2 [0; 0; 0] 3 =
    Some (Converted kCFStringEncodingConversionSuccess 2 [0x41; 0x65; 0x301] 3) /\
  fst <$> to_unicode_shipped 9 no_converters kCFStringEncodingISOLatin1 kCFStringEncodingUseCanonical [0x41; 0xE9] 2 [] 0 =
    Some (Converted kCFStringEncodingInvalidInputStream 1 [] 1).
Proof. split; vm_compute; reflexivity. Qed.

(** Registering no procedures leaves a built-in converter without any. *)
Lemma fallbacks_reset_to_null :
  let cs := CFStringEncodingRegisterFallbackProcedures shipped_tables shipped_decompositions shipped_precompositions 0 no_icu 0
              no_converters kCFStringEncodingASCII None None in
  fst <$> to_bytes_shipped 9 no_converters kCFStringEncodingASCII kCFStringEncodingAllowLossyConversion [0xE9] 1 [0] 1 =
    Some (Converted kCFStringEncodingConversionSuccess 1 [0x65] 1) /\
  to_bytes_shipped 9 cs kCFStringEncodingASCII kCFStringEncodingAllowLossyConversion [0xE9] 1 [0] 1 = None.
Proof. split; vm_compute; reflexivity. Qed.

(** A decomposed character that needs more than ten bytes. *)
Lemma canonical_UTF8_misreported :
  fst <$> to_bytes_shipped 0 no_converters kCFStringEncodingUTF8 kCFStringEncodingUseCanonical
    [0xE9; 0x302; 0x303; 0x304; 0x306; 0x307] 6 (replicate 13 0) 13 =
    Some (Converted kCFStringEncodingConversionSuccess 6 [0x65; 0xCC; 0x81; 0xCC; 0x82; 0xCC; 0x83; 0xCC; 0x84; 0xCC; 0x86; 0xCC; 0x87] 13) /\
  fst <$> to_bytes_shipped 0 no_converters kCFStringEncodingUTF8 kCFStringEncodingUseCanonical
    [0xE9; 0x302; 0x303; 0x304; 0x306; 0x307] 6 (replicate 10 0) 10 =
    Some (Converted kCFStringEncodingInvalidInputStream 0 [0x65; 0xCC; 0x81; 0xCC; 0x82; 0xCC; 0x83; 0xCC; 0x84; 0] 0).
Proof. split; vm_compute; reflexivity. Qed.

(** ** The list of encodings *)

Lemma comparator_lex a b :
  let cmp := __CFStringEncodingComparator in
  cmp a b <= 0 <-> Z.land a 0xFFFF < Z.land b 0xFFFF \/ (Z.land a 0xFFFF = Z.land b 0xFFFF /\ a <= b).
Proof. intros cmp. unfold cmp, __CFStringEncodingComparator. destruct (Z.eqb_spec (Z.land a 0xFFFF) (Z.land b 0xFFFF)); lia. Qed.

#[export] Instance encoding_order : CompareOrder __CFStringEncodingComparator.
Proof.
  split.
  - intros a b. rewrite !comparator_lex. lia.
  - intros a b c. rewrite !comparator_lex. lia.
Qed.

Lemma comparator_antisym a b : __CFStringEncodingComparator a b <= 0 -> __CFStringEncodingComparator b a <= 0 -> a = b.
Proof. rewrite !comparator_lex. lia. Qed.

(** The id that ends the list comes after all encodings. *)
Lemma comparator_last x : 0 <= x < 2 ^ 32 -> __CFStringEncodingComparator x kCFStringEncodingInvalidId <= 0.
Proof.
  intros Hx. rewrite comparator_lex. change (Z.land kCFStringEncodingInvalidId 0xFFFF) with 0xFFFF. unfold kCFStringEncodingInvalidId.
  change 0xFFFF with (Z.ones 16). rewrite Z.land_ones by lia. change (Z.ones 16) with 0xFFFF. pose proof (Z.mod_pos_bound x (2 ^ 16) ltac:(lia)). lia.
Qed.

(** What the filter keeps of elements that follow [last]. *)
Fixpoint kept_after (last : Z) (l : list Z) : list Z :=
  match l with
  | [] => []
  | x :: l => if last =? x then kept_after last l else x :: kept_after x l
  end.

(** Moving the elements behind one that is dropped leaves a cell behind them. *)
Lemma drop_element (pre : list Z) x r tail :
  let limit := Z.of_nat (length pre) + Z.of_nat (length (x :: r)) in
  exists y, (if Z.of_nat (length pre) + 1 <? limit
     then memmove (pre ++ (x :: r) ++ tail) (Z.of_nat (length pre)) (pre ++ (x :: r) ++ tail) (Z.of_nat (length pre) + 1) (limit - Z.of_nat (length pre) - 1)
     else Some (pre ++ (x :: r) ++ tail)) = Some (pre ++ r ++ y :: tail).
Proof.
  intros limit. unfold limit. cbn [length]. destruct (Z.ltb_spec (Z.of_nat (length pre) + 1) (Z.of_nat (length pre) + Z.of_nat (S (length r)))).
  - replace (Z.of_nat (length pre) + Z.of_nat (S (length r)) - Z.of_nat (length pre) - 1) with (Z.of_nat (length r)) by lia.
    rewrite memmove_ok by (rewrite ?length_app; cbn [length]; lia).
    replace (Z.to_nat (Z.of_nat (length pre) + 1)) with (length pre + 1)%nat by lia.
    replace (Z.to_nat (Z.of_nat (length pre) + Z.of_nat (length r))) with (length pre + length r)%nat by lia.
    rewrite !Nat2Z.id, take_app_length, <- !drop_drop, drop_app_length. cbn [app drop].
    rewrite drop_0, take_app_length. destruct (drop (length r) (x :: r ++ tail)) as [|y z] eqn:E.
    { apply (f_equal length) in E. rewrite length_drop in E. simpl in E. rewrite length_app in E. simpl in E. lia. }
    exists y. do 3 f_equal. apply (f_equal (drop 1)) in E. rewrite drop_drop in E. cbn [drop] in E.
    replace (length r + 1)%nat with (S (length r)) in E by lia. cbn [drop] in E. rewrite drop_app_length, ?drop_0 in E. by subst.
  - destruct r; [|simpl in *; lia]. by exists x.
Qed.

Lemma filter_loop_keeps fuel pre rest tail last : (length rest <= fuel)%nat ->
  exists tail', filter_loop fuel (pre ++ rest ++ tail) (Z.of_nat (length pre)) (Z.of_nat (length pre) + Z.of_nat (length rest)) last =
    Some (pre ++ kept_after last rest ++ tail').
Proof.
  revert pre rest tail last. induction fuel as [|fuel IH]; intros pre rest tail last Hf; cbn [filter_loop];
    (destruct rest as [|x r]; [exists tail; cbn [length]; by rewrite Z.add_0_r, Z.ltb_irrefl|]).
  { simpl in Hf. lia. }
  destruct (Z.ltb_spec (Z.of_nat (length pre)) (Z.of_nat (length pre) + Z.of_nat (length (x :: r)))); [|simpl in *; lia].
  cbn [app]. rewrite rd_app_here by done. cbn [opt_bind kept_after app]. simpl in Hf. destruct (Z.eqb_spec last x) as [->|Hne].
  - destruct (drop_element pre x r tail) as [y Ey]. cbn [app] in Ey. rewrite Ey. cbn [opt_bind].
    replace (Z.of_nat (length pre) + Z.of_nat (length (x :: r)) - 1) with (Z.of_nat (length pre) + Z.of_nat (length r)) by (cbn [length]; lia).
    apply IH. lia.
  - destruct (IH (pre ++ [x]) r tail x ltac:(lia)) as [tail' E]. exists tail'. rewrite <- !(assoc_L (++)) in E. cbn [app] in E.
    rewrite length_app in E. cbn [length] in *. etransitivity; [|exact E]. f_equal; lia.
Qed.

(** Of a sorted list each element is kept once. *)
Lemma kept_after_sorted last l :
  StronglySorted (fun a b => __CFStringEncodingComparator a b <= 0) (last :: l) ->
  StronglySorted (fun a b => __CFStringEncodingComparator a b <= 0 /\ a <> b) (last :: kept_after last l) /\
  (forall x, x ∈ last :: kept_after last l <-> x ∈ last :: l).
Proof.
  revert last. induction l as [|x l IH]; intros last Hs; [split; [repeat constructor|done]|].
  apply StronglySorted_inv in Hs as [Hs Hall]. cbn [kept_after]. apply Forall_cons_1 in Hall as [Hx Hall].
  destruct (IH x Hs) as [IHs IHi]. destruct (Z.eqb_spec last x) as [->|Hne].
  - split; [done|]. intros y. rewrite IHi, !elem_of_cons. tauto.
  - split; [|intros y; rewrite (elem_of_cons _ y last), IHi, !elem_of_cons; tauto]. constructor; [done|].
    apply StronglySorted_inv in IHs as [_ Hk]. apply StronglySorted_inv in Hs as [_ Hxl].
    apply list.Forall_forall. intros y Hy. apply IHi in Hy. assert (__CFStringEncodingComparator x y <= 0) as Hxy.
    { apply elem_of_cons in Hy as [->|Hy]; [rewrite comparator_lex; lia|]. rewrite list.Forall_forall in Hxl. auto. }
    split; [by eapply cmp_trans|]. intros ->. by apply Hne, comparator_antisym.
Qed.

(** The greatest element ends a list without duplicates. *)
Lemma greatest_ends (m : Z) l :
  StronglySorted (fun a b => __CFStringEncodingComparator a b <= 0 /\ a <> b) l -> m ∈ l ->
  Forall (fun x => __CFStringEncodingComparator x m <= 0) l ->
  exists l1, l = l1 ++ [m] /\ m ∉ l1 /\ StronglySorted (fun a b => __CFStringEncodingComparator a b <= 0 /\ a <> b) l1 /\ NoDup l1.
Proof.
  induction l as [|x l IH]; intros Hs Hm Hg; [by apply elem_of_nil in Hm|].
  apply StronglySorted_inv in Hs as [Hs Hx]. apply Forall_cons_1 in Hg as [Hgx Hg]. rewrite list.Forall_forall in Hx, Hg.
  destruct (decide (m ∈ l)) as [Hl|Hl].
  - destruct (IH Hs Hl ltac:(by apply list.Forall_forall)) as (l1 & -> & Hn & Hs1 & Hd). exists (x :: l1).
    assert (forall y, y ∈ l1 -> __CFStringEncodingComparator x y <= 0 /\ x <> y) as Hx1
      by (intros y Hy; apply Hx, elem_of_app; by left).
    split_and!; [done| | |].
    + intros [->|?]%elem_of_cons; [|done]. by destruct (Hx x).
    + constructor; [done|]. by apply list.Forall_forall.
    + constructor; [|done]. intros Hin. by destruct (Hx1 x Hin).
  - apply elem_of_cons in Hm as [->|?]; [|done]. exists []. destruct l as [|y l].
    + split_and!; [done|apply not_elem_of_nil|constructor|constructor].
    + exfalso. destruct (Hx y) as [Hxy Hne]; [by left|]. apply Hne, comparator_antisym; [done|]. apply Hg. by left.
Qed.

(** The list of available encodings, with lists of ICU and of the platform or
    without: up to kCFStringEncodingInvalidId, which ends it, it names every
    built-in encoding and every encoding of the lists, each once; when there
    is a list of ICU or of the platform it is in order of the low 16 bits of
    the encodings and then of the encodings. *)
Lemma CFStringEncodingListOfAvailableEncodings_complete (icu platform : option (list Z)) :
  Forall (fun e => 0 <= e < 2 ^ 32) (default [] icu ++ default [] platform) ->
  Z.of_nat (length (default [] icu ++ default [] platform)) + 14 <= INTPTR_MAX / sizeof_CFIndex ->
  exists encodings tail,
    CFStringEncodingListOfAvailableEncodings icu platform = Some (encodings ++ kCFStringEncodingInvalidId :: tail) /\
    NoDup encodings /\
    (forall e, e ∈ encodings <-> e <> kCFStringEncodingInvalidId /\ (e ∈ __CFBuiltinEncodings \/ e ∈ default [] icu \/ e ∈ default [] platform)) /\
    (icu <> None \/ platform <> None ->
      StronglySorted (fun a b => __CFStringEncodingComparator a b <= 0 /\ a <> b) encodings).
Proof.
  intros He Hlen. assert (Forall (fun e => 0 <= e < 2 ^ 32) __CFBuiltinEncodings) as Hb by (apply (bool_decide_unpack _); vm_compute; exact I).
  destruct (decide (icu = None /\ platform = None)) as [[-> ->]|Hsome].
  { exists (take 13 __CFBuiltinEncodings), []. split_and!; [done| | |by intros [?|?]].
    - apply (bool_decide_unpack _). vm_compute. exact I.
    - intros e. cbn [default]. rewrite !elem_of_nil. unfold __CFBuiltinEncodings. cbn [take]. rewrite !elem_of_cons, !elem_of_nil.
      unfold kCFStringEncodingInvalidId. split; [|tauto]. intros Hin. split; [|tauto].
      intros ->. repeat destruct Hin as [Hin|Hin]; done. }
  set (all := __CFBuiltinEncodings ++ default [] icu ++ default [] platform).
  assert (CFStringEncodingListOfAvailableEncodings icu platform =
    (let* encodings := CFQSortArray __CFStringEncodingComparator all (Z.of_nat (length all)) 4 in
     __CFStringEncodingFliterDupes encodings (Z.of_nat (length all)))) as ->.
  { destruct icu, platform; [done..|]. destruct Hsome. done. }
  assert (length all = 14 + length (default [] icu ++ default [] platform))%nat as Hall by (unfold all; by rewrite length_app).
  destruct (qsort_routine Z __CFStringEncodingComparator all (Z.of_nat (length all)) 4) as (l' & E & [Hperm Hsorted _]); [apply _|lia|lia|lia|].
  rewrite E. cbn [opt_bind]. rewrite Nat2Z.id in *. rewrite drop_all, app_nil_r in *. rewrite firstn_all in Hperm.
  assert (Forall (fun e => 0 <= e < 2 ^ 32) l') as Hrange by (rewrite Hperm; unfold all; by apply Forall_app).
  assert (kCFStringEncodingInvalidId ∈ l' /\ 0 ∈ l') as [Hinv H0].
  { rewrite Hperm. unfold all. rewrite !elem_of_app. split; left; unfold __CFBuiltinEncodings; rewrite !elem_of_cons; tauto. }
  destruct l' as [|x l]; [by apply elem_of_nil in H0|].
  assert (x <> kCFStringEncodingInvalidId) as Hx.
  { intros ->. apply StronglySorted_inv in Hsorted as [_ Hfirst]. apply elem_of_cons in H0 as [?|H0]; [done|].
    rewrite list.Forall_forall in Hfirst. apply Hfirst in H0. by vm_compute in H0. }
  unfold __CFStringEncodingFliterDupes. rewrite <- (Permutation_length Hperm), Nat2Z.id.
  destruct (filter_loop_keeps (length (x :: l)) [] (x :: l) [] kCFStringEncodingInvalidId ltac:(done)) as [tail Ef].
  rewrite app_nil_r in Ef. cbn [app] in Ef. change (Z.of_nat (length [])) with 0 in Ef. rewrite Z.add_0_l in Ef. rewrite Ef. cbn [kept_after].
  destruct (Z.eqb_spec kCFStringEncodingInvalidId x); [by subst|]. destruct (kept_after_sorted x l Hsorted) as [Hks Hki].
  destruct (greatest_ends kCFStringEncodingInvalidId (x :: kept_after x l) Hks) as (l1 & E1 & Hn & Hs1 & Hd1); [by apply Hki|..].
  { apply list.Forall_forall. intros y Hy. apply Hki in Hy. rewrite list.Forall_forall in Hrange. by apply comparator_last, Hrange. }
  exists l1, tail. rewrite E1, <- (assoc_L (++)). split_and!; [done|done| |done]. intros e.
  assert (e ∈ l1 ++ [kCFStringEncodingInvalidId] <-> e ∈ all) as Hin by (rewrite <- E1, Hki, Hperm; done).
  unfold all in Hin. rewrite !elem_of_app, list_elem_of_singleton in Hin.
  destruct (decide (e = kCFStringEncodingInvalidId)) as [->|]; tauto.
Qed.

Lemma CFStringEncodingListOfAvailableEncodings_complete_witness :
  exists encodings tail,
    CFStringEncodingListOfAvailableEncodings (Some [0x0628; 0x0201; 0x0A06; 0x0628]) None = Some (encodings ++ kCFStringEncodingInvalidId :: tail) /\
    NoDup encodings /\
    StronglySorted (fun a b => __CFStringEncodingComparator a b <= 0 /\ a <> b) encodings.
Proof.
  destruct (CFStringEncodingListOfAvailableEncodings_complete (Some [0x0628; 0x0201; 0x0A06; 0x0628]) None)
    as (encodings & tail & H1 & H2 & _ & H3).
  - repeat constructor; lia.
  - vm_compute. discriminate.
  - exists encodings, tail. split; [exact H1|]. split; [exact H2|]. apply H3. left. discriminate.
Defined.
