(* ===== verification/CFStringScanner.v ===== *)
(** * CFStringScanner: scanning numbers in strings

    CFStringInlineBuffer (CFString.h, ForFoundationOnly.h), the window through
    which the characters of a string are read one at a time, and the scanners of
    CFStringScanner.c that read through it.  A string is what the window asks of
    it: its characters and the pointers to its contents that CFString may give.
    [strtod_l] is a parameter. *)

From S2P Require Import Prelude CFInternal.
From stdpp Require Import base list numbers option.
From Stdlib Require Import ZArith Lia.
Open Scope Z_scope.
Open Scope cf_scope.

(** ** Strings, as the buffer sees them *)

(** The characters, and what CFStringGetCharactersPtr and
    CFStringGetCStringPtr(.., kCFStringEncodingASCII) return. *)
Record string_contents : Type := {
  characters_of : list Z;
  CFStringGetCharactersPtr : option (list Z);
  CFStringGetCStringPtr : option (list Z)
}.

(** What CFString promises of these pointers. *)
Definition string_ok (str : string_contents) : Prop :=
  (forall p, CFStringGetCharactersPtr str = Some p -> p = characters_of str) /\
  (forall p, CFStringGetCStringPtr str = Some p -> p = characters_of str /\ Forall (fun c => 0 <= c < 128) p).

(** [buffer] gets the characters of a range. *)
Definition CFStringGetCharacters (str : string_contents) (location length : Z) (buffer : list Z) : option (list Z) :=
  memmove buffer 0 (characters_of str) location length.

(** ** The inline buffer *)

Definition __kCFStringInlineBufferLength : Z := 64.

Record CFStringInlineBuffer : Type := {
  buffer : list Z;
  theString : string_contents;
  directUniCharBuffer : option (list Z);
  directCStringBuffer : option (list Z);
  range_location : Z;
  range_length : Z;
  bufferedRangeStart : Z;
  bufferedRangeEnd : Z
}.

(** [junk] is what the window holds before it is filled. *)
Definition CFStringInitInlineBuffer (str : string_contents) (junk : list Z) (location length : Z) : CFStringInlineBuffer := {|
  buffer := junk; theString := str;
  directUniCharBuffer := CFStringGetCharactersPtr str;
  directCStringBuffer := match CFStringGetCharactersPtr str with Some _ => None | None => CFStringGetCStringPtr str end;
  range_location := location; range_length := length; bufferedRangeStart := 0; bufferedRangeEnd := 0 |}.

(** The character at [idx] inside the range, and the buffer, whose window may
    have moved. *)
Definition __CFStringGetCharacterFromInlineBufferQuick (buf : CFStringInlineBuffer) (idx : Z) : option (Z * CFStringInlineBuffer) :=
  match directUniCharBuffer buf with
  | Some p => let* c := rd p (idx + range_location buf) in Some (c, buf)
  | None =>
      match directCStringBuffer buf with
      | Some p => let* c := rd p (idx + range_location buf) in Some (uwrap 16 (swrap 8 c), buf)
      | None =>
          let* buf :=
            (if (bufferedRangeEnd buf <=? idx) || (idx <? bufferedRangeStart buf) then
               let start := if idx - 4 <? 0 then 0 else idx - 4 in
               let end_ := start + __kCFStringInlineBufferLength in
               let end_ := if range_length buf <? end_ then range_length buf else end_ in
               let* b := CFStringGetCharacters (theString buf) (range_location buf + start) (end_ - start) (buffer buf) in
               Some {| buffer := b; theString := theString buf; directUniCharBuffer := None; directCStringBuffer := None;
                       range_location := range_location buf; range_length := range_length buf;
                       bufferedRangeStart := start; bufferedRangeEnd := end_ |}
             else Some buf) in
          let* c := rd (buffer buf) (idx - bufferedRangeStart buf) in Some (c, buf)
      end
  end.

(** [outside] is what an index outside the range gives. *)
Definition get_character (outside : Z) (buf : CFStringInlineBuffer) (idx : Z) : option (Z * CFStringInlineBuffer) :=
  if (idx <? 0) || (range_length buf <=? idx) then Some (outside, buf) else __CFStringGetCharacterFromInlineBufferQuick buf idx.

Definition CFStringGetCharacterFromInlineBuffer := get_character 0.
Definition __CFStringGetCharacterFromInlineBufferAux := get_character 0xFFFF.

(** ** Classes of characters *)

Definition __CFIsWhitespace (theChar : Z) : bool :=
  (theChar <? 0x21) || ((0x7E <? theChar) && (theChar <? 0xA1)) || ((0x2000 <=? theChar) && (theChar <=? 0x200B)) || (theChar =? 0x3000).

Definition __CFCharacterIsADigit (ch : Z) : bool := (0x30 <=? ch) && (ch <=? 0x39).

Definition __CFCharacterNumericOrHexValue (ch : Z) : Z :=
  if (0x30 <=? ch) && (ch <=? 0x39) then ch - 0x30
  else if (0x41 <=? ch) && (ch <=? 0x46) then ch + 10 - 0x41
  else if (0x61 <=? ch) && (ch <=? 0x66) then ch + 10 - 0x61
  else -1.

Definition __CFCharacterNumericValue (ch : Z) : Z :=
  if (0x30 <=? ch) && (ch <=? 0x39) then ch - 0x30 else -1.

Definition INT_MAX : Z := 2 ^ 31 - 1.
Definition INT_MIN : Z := - 2 ^ 31.
Definition LLONG_MAX : Z := 2 ^ 63 - 1.
Definition LLONG_MIN : Z := - 2 ^ 63.
Definition UINT_MAX : Z := 2 ^ 32 - 1.

(** Signed arithmetic of [w] bits; undefined when the result does not fit. *)
Definition checked (w x : Z) : option Z := if (- 2 ^ (w - 1) <=? x) && (x <? 2 ^ (w - 1)) then Some x else None.

(** ** Integers *)

(** [while (__CFIsWhitespace(ch = ..)) ( *indexPtr)++;] *)
Fixpoint __CFStringGetFirstNonSpaceCharacterFromInlineBuffer (fuel : nat) (buf : CFStringInlineBuffer) (index : Z)
    : option (Z * CFStringInlineBuffer * Z) :=
  match fuel with
  | O => None
  | S fuel =>
      let* (ch, buf) := __CFStringGetCharacterFromInlineBufferAux buf index in
      if __CFIsWhitespace ch then
        let* index := checked 32 (index + 1) in __CFStringGetFirstNonSpaceCharacterFromInlineBuffer fuel buf index
      else Some (ch, buf, index)
  end.

(** [while (__CFCharacterIsADigit(ch = .. ++( *indexPtr)));] *)
Fixpoint skip_digits (fuel : nat) (buf : CFStringInlineBuffer) (index : Z) : option (Z * CFStringInlineBuffer * Z) :=
  match fuel with
  | O => None
  | S fuel =>
      let* index := checked 32 (index + 1) in
      let* (ch, buf) := __CFStringGetCharacterFromInlineBufferAux buf index in
      if __CFCharacterIsADigit ch then skip_digits fuel buf index else Some (ch, buf, index)
  end.

(** The locals of the loop. *)
Record integer_locals : Type := {
  i_ch : Z;
  i_neg : bool;
  i_int : Z;
  i_long : Z;
  i_doing : bool;
  i_buf : CFStringInlineBuffer;
  i_index : Z
}.

(** The test for overflow, for the type of [w] bits with the greatest value
    [max]. *)
Definition overflows (w max result : Z) (neg : bool) (ch : Z) : option bool :=
  if max / 10 <=? result then
    if max / 10 <? result then Some true
    else
      let* product := checked w (result * 10) in
      let* rest := checked w (max - product) in
      Some (rest <=? __CFCharacterNumericValue ch - (if neg then 1 else 0))
  else Some false.

(** [result * 10 + __CFCharacterNumericValue(ch)] *)
Definition add_digit (w result ch : Z) : option Z :=
  let* product := checked w (result * 10) in checked w (product + __CFCharacterNumericValue ch).

(** The body of [do .. while]; [fuel] is for the skipping of digits. *)
Definition integer_step (fuel : nat) (doLonglong : bool) (l : integer_locals) : option integer_locals :=
  let next buf int long :=
    let* index := checked 32 (i_index l + 1) in
    let* (ch, buf) := __CFStringGetCharacterFromInlineBufferAux buf index in
    Some {| i_ch := ch; i_neg := i_neg l; i_int := int; i_long := long; i_doing := i_doing l; i_buf := buf; i_index := index |} in
  if i_doing l then
    let* over := overflows 64 LLONG_MAX (i_long l) (i_neg l) (i_ch l) in
    if (over : bool) then
      let* (ch, buf, index) := skip_digits fuel (i_buf l) (i_index l) in
      Some {| i_ch := ch; i_neg := false; i_int := i_int l; i_long := if i_neg l then LLONG_MIN else LLONG_MAX; i_doing := true;
              i_buf := buf; i_index := index |}
    else let* long := add_digit 64 (i_long l) (i_ch l) in next (i_buf l) (i_int l) long
  else
    let* over := overflows 32 INT_MAX (i_int l) (i_neg l) (i_ch l) in
    if (over : bool) then
      if doLonglong then
        Some {| i_ch := i_ch l; i_neg := i_neg l; i_int := i_int l; i_long := i_int l; i_doing := true; i_buf := i_buf l; i_index := i_index l |}
      else
        let* (ch, buf, index) := skip_digits fuel (i_buf l) (i_index l) in
        Some {| i_ch := ch; i_neg := false; i_int := if i_neg l then INT_MIN else INT_MAX; i_long := i_long l; i_doing := false;
                i_buf := buf; i_index := index |}
    else let* int := add_digit 32 (i_int l) (i_ch l) in next (i_buf l) int (i_long l).

Fixpoint integer_loop (fuel skip : nat) (doLonglong : bool) (l : integer_locals) : option integer_locals :=
  match fuel with
  | O => None
  | S fuel =>
      let* l := integer_step skip doLonglong l in
      if __CFCharacterIsADigit (i_ch l) then integer_loop fuel skip doLonglong l else Some l
  end.

(** The result ([None]: false), the buffer and [*indexPtr].  A loop makes at most
    two rounds more than there are characters in the range. *)
Definition __CFStringScanInteger (buf : CFStringInlineBuffer) (index : Z) (doLonglong : bool)
    : option (option Z * CFStringInlineBuffer * Z) :=
  let fuel := S (S (Z.to_nat (range_length buf))) in
  let* (ch, buf, index) := __CFStringGetFirstNonSpaceCharacterFromInlineBuffer fuel buf index in
  let* (ch, neg, buf, index) :=
    (if (ch =? 0x2D) || (ch =? 0x2B) then
       let* index := checked 32 (index + 1) in
       let* (ch', buf, index) := __CFStringGetFirstNonSpaceCharacterFromInlineBuffer fuel buf index in
       Some (ch', ch =? 0x2D, buf, index)
     else Some (ch, false, buf, index)) in
  if negb (__CFCharacterIsADigit ch) then Some (None, buf, index)
  else
    let* l := integer_loop fuel fuel doLonglong
        {| i_ch := ch; i_neg := neg; i_int := 0; i_long := 0; i_doing := false; i_buf := buf; i_index := index |} in
    let result := if doLonglong then (if i_doing l then i_long l else i_int l) else i_int l in
    let* result := (if i_neg l then checked (if doLonglong then 64 else 32) (- result) else Some result) in
    Some (Some result, i_buf l, i_index l).

(** ** Hexadecimal numbers *)

(** [do .. while (curDigit != -1)] *)
Fixpoint hex_loop (fuel : nat) (buf : CFStringInlineBuffer) (index value curDigit : Z) : option (Z * CFStringInlineBuffer * Z) :=
  match fuel with
  | O => None
  | S fuel =>
      let value := if Z.shiftr UINT_MAX 4 <? value then UINT_MAX else uwrap 32 (Z.shiftl value 4 + curDigit) in
      let* index := checked 32 (index + 1) in
      let* (ch, buf) := __CFStringGetCharacterFromInlineBufferAux buf index in
      let curDigit := __CFCharacterNumericOrHexValue ch in
      if negb (curDigit =? -1) then hex_loop fuel buf index value curDigit else Some (value, buf, index)
  end.

Definition __CFStringScanHex (buf : CFStringInlineBuffer) (index : Z) : option (option Z * CFStringInlineBuffer * Z) :=
  let fuel := S (S (Z.to_nat (range_length buf))) in
  let loop buf index curDigit :=
    let* (value, buf, index) := hex_loop fuel buf index 0 curDigit in Some (Some value, buf, index) in
  let* (ch, buf, index) := __CFStringGetFirstNonSpaceCharacterFromInlineBuffer fuel buf index in
  if ch =? 0x30 then
    let* index := checked 32 (index + 1) in
    let* (ch, buf) := __CFStringGetCharacterFromInlineBufferAux buf index in
    let* (ch, buf, index) :=
      (if (ch =? 0x78) || (ch =? 0x58) then
         let* index := checked 32 (index + 1) in
         let* (ch, buf) := __CFStringGetCharacterFromInlineBufferAux buf index in Some (ch, buf, index)
       else Some (ch, buf, index)) in
    let curDigit := __CFCharacterNumericOrHexValue ch in
    if curDigit =? -1 then let* index := checked 32 (index - 1) in Some (Some 0, buf, index) else loop buf index curDigit
  else
    let curDigit := __CFCharacterNumericOrHexValue ch in
    if curDigit =? -1 then Some (None, buf, index) else loop buf index curDigit.

(** ** Floating-point numbers *)

Definition __CFNumberSet : list Z :=
  [0x00; 0x00; 0x00; 0x00; 0x00; 0x68; 0xFF; 0x03; 0x20; 0x00; 0x00; 0x00; 0x20; 0x00; 0x00; 0x00].

Definition STACK_BUFFER_SIZE : Z := 256.
Definition ALLOC_CHUNK_SIZE : Z := 256.

Section Double.
(** What [strtod_l] gives for a C string that starts a block of memory: the
    number and how many characters it has used. *)
Context {double : Type} (strtod_l : list Z -> double * Z).
(** what fresh memory holds *)
Context (junk : Z).

(** [(ch < 128) && (__CFNumberSet[ch >> 3] & (1 << (ch & 7)))] *)
Definition is_number_character (ch : Z) : option bool :=
  if ch <? 128 then
    let* set := rd __CFNumberSet (Z.shiftr ch 3) in Some (negb (Z.land set (Z.shiftl 1 (Z.land ch 7)) =? 0))
  else Some false.

(** Room for one more character and the null byte: the block, its [capacity] and
    whether it is on the stack. *)
Definition grow_chars (chars : list Z) (onStack : bool) (numChars capacity : Z) : option (list Z * bool * Z) :=
  if capacity - 1 <=? numChars then
    let* capacity := checked 32 (capacity + ALLOC_CHUNK_SIZE) in
    let fresh := replicate (Z.to_nat capacity) junk in
    let* chars := (if onStack then memmove fresh 0 chars 0 numChars
                   else memmove fresh 0 chars 0 (Z.of_nat (length chars))) in
    Some (chars, false, capacity)
  else Some (chars, onStack, capacity).

(** [while ((ch < 128) && ..)] *)
Fixpoint gather_number (fuel : nat) (buf : CFStringInlineBuffer) (index ch : Z) (chars : list Z) (onStack : bool) (numChars capacity : Z)
    : option (list Z * Z * CFStringInlineBuffer) :=
  let* more := is_number_character ch in
  if (more : bool) then
    match fuel with
    | O => None
    | S fuel =>
        let* (chars, onStack, capacity) := grow_chars chars onStack numChars capacity in
        let* chars := wr chars numChars (swrap 8 ch) in
        let* numChars := checked 32 (numChars + 1) in
        let* at_ := checked 32 (index + numChars) in
        let* (ch, buf) := __CFStringGetCharacterFromInlineBufferAux buf at_ in
        gather_number fuel buf index ch chars onStack numChars capacity
    end
  else Some (chars, numChars, buf).

Definition __CFStringScanDouble (buf : CFStringInlineBuffer) (index : Z) : option (option double * CFStringInlineBuffer * Z) :=
  let fuel := S (S (Z.to_nat (range_length buf))) in
  let* (ch, buf, index) := __CFStringGetFirstNonSpaceCharacterFromInlineBuffer fuel buf index in
  let* (chars, numChars, buf) :=
    gather_number fuel buf index ch (replicate (Z.to_nat STACK_BUFFER_SIZE) junk) true 0 STACK_BUFFER_SIZE in
  let* chars := wr chars numChars 0 in
  let '(result, used) := strtod_l chars in
  if used =? 0 then Some (None, buf, index)
  else Some (Some result, buf, swrap 32 (index + used)).
End Double.

(** ** What the inline buffer shows *)

(** [views buf text]: the range of the buffer is [text], and the window holds what
    it says. *)
Record views (buf : CFStringInlineBuffer) (text : list Z) : Prop := {
  view_direct p : directUniCharBuffer buf = Some p -> p = characters_of (theString buf);
  view_cstring p : directCStringBuffer buf = Some p -> p = characters_of (theString buf) /\ Forall (fun c => 0 <= c < 128) p;
  view_location : 0 <= range_location buf;
  view_length : range_length buf = Z.of_nat (length text);
  view_text : text = take (Z.to_nat (range_length buf)) (drop (Z.to_nat (range_location buf)) (characters_of (theString buf)));
  view_window : Z.of_nat (length (buffer buf)) = __kCFStringInlineBufferLength;
  view_bounds : 0 <= bufferedRangeStart buf <= bufferedRangeEnd buf /\ bufferedRangeEnd buf <= range_length buf /\
    bufferedRangeEnd buf - bufferedRangeStart buf <= __kCFStringInlineBufferLength;
  view_buffer i : bufferedRangeStart buf <= i < bufferedRangeEnd buf -> rd (buffer buf) (i - bufferedRangeStart buf) = rd text i
}.

(** The character at an index of a text. *)
Definition char_at (outside : Z) (text : list Z) (idx : Z) : Z := match rd text idx with Some c => c | None => outside end.

Lemma view_rd buf text i : views buf text -> 0 <= i < range_length buf ->
  rd (characters_of (theString buf)) (i + range_location buf) = rd text i.
Proof.
  intros V Hi. pose proof (view_location _ _ V). rewrite (view_text _ _ V). unfold rd.
  destruct (Z.leb_spec 0 i); [|lia]. destruct (Z.leb_spec 0 (i + range_location buf)); [|lia].
  rewrite lookup_take_lt, lookup_drop by lia. f_equal. lia.
Qed.

Lemma view_inside buf text : views buf text -> range_length buf <> 0 ->
  range_location buf + range_length buf <= Z.of_nat (length (characters_of (theString buf))).
Proof.
  intros V Hne. pose proof (view_length _ _ V) as Hl. rewrite (view_text _ _ V) in Hl. rewrite length_take, length_drop in Hl.
  pose proof (view_location _ _ V). pose proof (view_bounds _ _ V). lia.
Qed.

Lemma init_views str junk location length :
  string_ok str -> Z.of_nat (List.length junk) = __kCFStringInlineBufferLength -> 0 <= location -> 0 <= length ->
  location + length <= Z.of_nat (List.length (characters_of str)) ->
  views (CFStringInitInlineBuffer str junk location length) (take (Z.to_nat length) (drop (Z.to_nat location) (characters_of str))).
Proof.
  intros [H1 H2] Hj Hl0 Hn Hin. split; cbn; try done.
  - destruct (CFStringGetCharactersPtr str); [done|]. apply H2.
  - rewrite length_take, length_drop. lia.
  - unfold __kCFStringInlineBufferLength in *. lia.
Qed.

(** The window moved to [start]. *)
Lemma refill_views buf text start end_ b :
  views buf text -> directUniCharBuffer buf = None -> directCStringBuffer buf = None ->
  0 <= start < end_ -> end_ <= range_length buf -> end_ - start <= __kCFStringInlineBufferLength ->
  CFStringGetCharacters (theString buf) (range_location buf + start) (end_ - start) (buffer buf) = Some b ->
  views {| buffer := b; theString := theString buf; directUniCharBuffer := None; directCStringBuffer := None;
           range_location := range_location buf; range_length := range_length buf;
           bufferedRangeStart := start; bufferedRangeEnd := end_ |} text.
Proof.
  intros V Hd Hc Hs He Hw E. pose proof (view_location _ _ V) as Hloc. pose proof (view_inside _ _ V ltac:(lia)) as Hin.
  split; cbn; try done; [exact (view_length _ _ V)|exact (view_text _ _ V)| |lia|].
  - unfold CFStringGetCharacters in E. apply length_memmove in E. rewrite E. apply (view_window _ _ V).
  - intros i Hi. rewrite <- (view_rd buf text i V ltac:(lia)). unfold CFStringGetCharacters in E. pose proof (view_window _ _ V).
    rewrite memmove_ok in E by lia. injection E as <-. change (Z.to_nat 0) with O. cbn [take app]. unfold rd.
    destruct (Z.leb_spec 0 (i - start)); [|lia]. destruct (Z.leb_spec 0 (i + range_location buf)); [|lia].
    rewrite lookup_app_l by (rewrite length_take, length_drop; lia). rewrite lookup_take_lt, lookup_drop by lia. f_equal. lia.
Qed.

(** Reading through the buffer is reading the text. *)
Lemma get_character_views outside buf text idx : views buf text ->
  exists buf', get_character outside buf idx = Some (char_at outside text idx, buf') /\ views buf' text /\ range_length buf' = range_length buf.
Proof.
  intros V. unfold get_character, char_at. pose proof (view_length _ _ V) as Hl.
  destruct ((idx <? 0) || (range_length buf <=? idx)) eqn:Eout.
  { exists buf. split; [|done]. replace (rd text idx) with (@None Z); [done|]. unfold rd. destruct (Z.leb_spec 0 idx); [|done].
    symmetry. apply lookup_ge_None. lia. }
  destruct (rd_Some text idx) as [c Ec]; [lia|]. rewrite Ec. unfold __CFStringGetCharacterFromInlineBufferQuick.
  pose proof (view_rd buf text idx V ltac:(lia)) as Hr. rewrite Ec in Hr.
  destruct (directUniCharBuffer buf) as [p|] eqn:Ed.
  { rewrite (view_direct _ _ V p Ed), Hr. by exists buf. }
  destruct (directCStringBuffer buf) as [p|] eqn:Ecs.
  { destruct (view_cstring _ _ V p Ecs) as [-> Hascii]. rewrite Hr. cbn [opt_bind]. exists buf. split; [|done]. do 2 f_equal.
    apply rd_inv in Hr as [_ Hr]. rewrite Forall_lookup in Hascii. specialize (Hascii _ _ Hr). cbn beta in Hascii.
    rewrite swrap_id by (unfold in_signed; lia). apply uwrap_id. unfold in_unsigned. lia. }
  destruct ((bufferedRangeEnd buf <=? idx) || (idx <? bufferedRangeStart buf)) eqn:Ewin.
  - set (start := if idx - 4 <? 0 then 0 else idx - 4). set (end_ := if range_length buf <? start + _ then _ else _).
    assert (0 <= start <= idx /\ idx < end_ /\ end_ <= range_length buf /\ end_ - start <= 64) as (Hs & Hi & He & Hw).
    { unfold end_, start, __kCFStringInlineBufferLength. destruct (Z.ltb_spec (idx - 4) 0); case_match; lia. }
    pose proof (view_inside _ _ V ltac:(lia)) as Hin. pose proof (view_location _ _ V). pose proof (view_window _ _ V) as Hwin.
    assert (exists b, CFStringGetCharacters (theString buf) (range_location buf + start) (end_ - start) (buffer buf) = Some b) as [b Eb].
    { unfold CFStringGetCharacters, __kCFStringInlineBufferLength in *. rewrite memmove_ok by lia. by eexists. }
    rewrite Eb. cbn [opt_bind buffer bufferedRangeStart].
    pose proof (refill_views buf text start end_ b V Ed Ecs ltac:(lia) He Hw Eb) as V'.
    pose proof (view_buffer _ _ V' idx ltac:(cbn; lia)) as Hb. cbn [buffer bufferedRangeStart] in Hb. rewrite Hb, Ec. cbn [opt_bind]. by eexists.
  - cbn [opt_bind]. rewrite (view_buffer _ _ V idx) by lia. rewrite Ec. by exists buf.
Qed.

(** ** What the scanners read *)

Fixpoint take_while (p : Z -> bool) (l : list Z) : list Z :=
  match l with [] => [] | c :: l => if p c then c :: take_while p l else [] end.

Fixpoint skip_while (p : Z -> bool) (l : list Z) : list Z :=
  match l with [] => [] | c :: r => if p c then skip_while p r else l end.

Lemma take_skip_while p l : take_while p l ++ skip_while p l = l.
Proof. induction l as [|c l IH]; cbn; [done|]. destruct (p c); cbn; by rewrite ?IH. Qed.

Lemma skip_while_length p l : (length (skip_while p l) <= length l)%nat.
Proof. induction l as [|c l IH]; cbn; [lia|]. destruct (p c); cbn; lia. Qed.

Lemma hd_skip_while p outside l : p outside = false -> p (hd outside (skip_while p l)) = false.
Proof. intros Ho. induction l as [|c l IH]; cbn; [done|]. by destruct (p c) eqn:E. Qed.

Lemma char_at_hd outside pre t : char_at outside (pre ++ t) (Z.of_nat (length pre)) = hd outside t.
Proof.
  unfold char_at. rewrite rd_nat, lookup_app_r, Nat.sub_diag by lia. by destruct t.
Qed.

(** Indexes are [SInt32]: the ranges are shorter than 2^31. *)
Definition short (text : list Z) : Prop := Z.of_nat (length text) < 2 ^ 31 - 1.

Lemma checked_ok w x : in_signed w x -> checked w x = Some x.
Proof. unfold in_signed, checked. intros Hx. destruct (Z.leb_spec (- 2 ^ (w - 1)) x); [|lia]. destruct (Z.ltb_spec x (2 ^ (w - 1))); [done|lia]. Qed.

Lemma index_step (pre t : list Z) c : short (pre ++ c :: t) ->
  checked 32 (Z.of_nat (length pre) + 1) = Some (Z.of_nat (length (pre ++ [c]))).
Proof.
  unfold short. rewrite !length_app. cbn [length]. intros Hs. rewrite checked_ok; [f_equal; lia|]. unfold in_signed. change (2 ^ (32 - 1)) with (2 ^ 31). lia.
Qed.

Section Scanning.
Context (text : list Z) (Hshort : short text).

Lemma text_char pre t : text = pre ++ t -> char_at 0xFFFF text (Z.of_nat (length pre)) = hd 0xFFFF t.
Proof. intros Ht. rewrite Ht. apply char_at_hd. Qed.

Lemma first_non_space fuel buf pre t : views buf text -> text = pre ++ t -> (length t < fuel)%nat ->
  exists buf', __CFStringGetFirstNonSpaceCharacterFromInlineBuffer fuel buf (Z.of_nat (length pre)) =
    Some (hd 0xFFFF (skip_while __CFIsWhitespace t), buf', Z.of_nat (length (pre ++ take_while __CFIsWhitespace t))) /\
    views buf' text /\ range_length buf' = range_length buf.
Proof.
  revert buf pre t. induction fuel as [|fuel IH]; intros buf pre t V Ht Hf; [lia|]. cbn [__CFStringGetFirstNonSpaceCharacterFromInlineBuffer].
  destruct (get_character_views 0xFFFF buf text (Z.of_nat (length pre)) V) as (buf1 & E & V1 & Hr1).
  unfold __CFStringGetCharacterFromInlineBufferAux. rewrite E, (text_char pre t Ht). cbn [opt_bind]. destruct t as [|c t]; cbn [hd].
  { exists buf1. cbn. by rewrite app_nil_r. }
  cbn [take_while skip_while]. destruct (__CFIsWhitespace c) eqn:Ec; [|exists buf1; by rewrite app_nil_r].
  rewrite (index_step pre t c) by (by rewrite <- Ht). cbn [opt_bind].
  destruct (IH buf1 (pre ++ [c]) t V1) as (buf2 & E2 & V2 & Hr2); [by rewrite <- (assoc_L (++))|simpl in Hf; lia|].
  exists buf2. rewrite E2, <- (assoc_L (++)). cbn [app]. split; [done|]. split; [done|]. lia.
Qed.

(** The digits that follow the one at the index. *)
Lemma skip_digits_views fuel buf pre c t : views buf text -> text = pre ++ c :: t -> (length t < fuel)%nat ->
  exists buf', skip_digits fuel buf (Z.of_nat (length pre)) =
    Some (hd 0xFFFF (skip_while __CFCharacterIsADigit t), buf', Z.of_nat (length (pre ++ c :: take_while __CFCharacterIsADigit t))) /\
    views buf' text.
Proof.
  revert buf pre c t. induction fuel as [|fuel IH]; intros buf pre c t V Ht Hf; [lia|]. cbn [skip_digits].
  rewrite (index_step pre t c) by (by rewrite <- Ht). cbn [opt_bind].
  destruct (get_character_views 0xFFFF buf text (Z.of_nat (length (pre ++ [c]))) V) as (buf1 & E & V1 & _).
  unfold __CFStringGetCharacterFromInlineBufferAux. rewrite E, (text_char (pre ++ [c]) t) by (by rewrite Ht, <- (assoc_L (++))). cbn [opt_bind]. destruct t as [|d t]; cbn [hd].
  { exists buf1. cbn. done. }
  cbn [take_while skip_while]. destruct (__CFCharacterIsADigit d) eqn:Ed; [|by exists buf1].
  destruct (IH buf1 (pre ++ [c]) d t V1) as (buf2 & E2 & V2); [by rewrite <- (assoc_L (++))|simpl in Hf; lia|].
  exists buf2. rewrite E2, <- (assoc_L (++)). done.
Qed.

(** *** Integers *)

(** The number that digits denote, after [v]. *)
Definition digits_value (v : Z) (ds : list Z) : Z := fold_left (fun v c => v * 10 + (c - 0x30)) ds v.

Definition clamp (low high v : Z) : Z := Z.max low (Z.min high v).

Lemma digits_value_grows v ds : 0 <= v -> Forall (fun c => __CFCharacterIsADigit c = true) ds -> v <= digits_value v ds.
Proof.
  unfold digits_value. intros Hv Hd. revert v Hv. induction Hd as [|c ds Hc Hd IH]; intros v Hv; cbn [fold_left]; [lia|].
  unfold __CFCharacterIsADigit in Hc. specialize (IH (v * 10 + (c - 0x30)) ltac:(lia)). lia.
Qed.

Lemma take_while_all p l : Forall (fun c => p c = true) (take_while p l).
Proof. induction l as [|c l IH]; cbn; [constructor|]. destruct (p c) eqn:E; by constructor. Qed.

Lemma digit_value c : __CFCharacterIsADigit c = true -> __CFCharacterNumericValue c = c - 0x30 /\ 0x30 <= c <= 0x39.
Proof. unfold __CFCharacterNumericValue, __CFCharacterIsADigit. intros Hc. rewrite Hc. split; [done|]. lia. Qed.

(** The types: how wide they are and their greatest value. *)
Definition int_type (w max : Z) : Prop := (w = 32 /\ max = INT_MAX) \/ (w = 64 /\ max = LLONG_MAX).

Lemma int_type_checked w max v : int_type w max -> 0 <= v <= max -> checked w v = Some v.
Proof. intros [[-> ->]|[-> ->]] Hv; apply checked_ok; unfold in_signed, INT_MAX, LLONG_MAX in *; lia. Qed.

(** The test for overflow is exact and does not overflow itself. *)
Lemma overflows_spec w max v neg c : int_type w max -> 0 <= v <= max -> __CFCharacterIsADigit c = true ->
  overflows w max v neg c = Some (max <=? v * 10 + (c - 0x30) - (if neg then 1 else 0)).
Proof.
  intros Hmax Hv Hc. destruct (digit_value c Hc) as [Hn Hr]. unfold overflows. rewrite Hn.
  assert (max = 10 * (max / 10) + 7 /\ 0 <= max / 10) as [Hm Hq] by (destruct Hmax as [[_ ->]|[_ ->]]; done).
  set (q := max / 10) in *. destruct (Z.leb_spec q v), (Z.ltb_spec q v); try lia.
  - f_equal. symmetry. apply Z.leb_le. destruct neg; lia.
  - assert (v = q) as -> by lia. rewrite (int_type_checked w max (q * 10)) by (done || lia). cbn [opt_bind].
    rewrite (int_type_checked w max (max - q * 10)) by (done || lia). cbn [opt_bind]. f_equal. apply Bool.eq_iff_eq_true. destruct neg; lia.
  - f_equal. symmetry. apply Z.leb_gt. destruct neg; lia.
Qed.

Lemma add_digit_ok w max v c : int_type w max -> 0 <= v -> v * 10 + (c - 0x30) <= max -> __CFCharacterIsADigit c = true -> add_digit w v c = Some (v * 10 + (c - 0x30)).
Proof.
  intros Ht Hv Hm Hc. destruct (digit_value c Hc) as [Hn Hr]. unfold add_digit. rewrite (int_type_checked w max) by (done || lia). cbn [opt_bind]. rewrite Hn.
  apply (int_type_checked w max); [done|lia].
Qed.

Definition current (l : integer_locals) : Z := if i_doing l then i_long l else i_int l.
Definition current_max (l : integer_locals) : Z := if i_doing l then LLONG_MAX else INT_MAX.
Definition current_width (l : integer_locals) : Z := if i_doing l then 64 else 32.
Definition scan_max (doLonglong : bool) : Z := if doLonglong then LLONG_MAX else INT_MAX.

(** [scanning l pre c t]: the loop is at the digit [c] with [t] behind it. *)
Record scanning (doLonglong : bool) (l : integer_locals) (pre : list Z) (c : Z) (t : list Z) : Prop := {
  s_views : views (i_buf l) text;
  s_text : text = pre ++ c :: t;
  s_index : i_index l = Z.of_nat (length pre);
  s_ch : i_ch l = c;
  s_digit : __CFCharacterIsADigit c = true;
  s_doing : i_doing l = true -> doLonglong = true;
  s_range : 0 <= current l <= current_max l
}.

(** [scanned l pre c t l']: the loop from there has ended. *)
Definition scanned (doLonglong : bool) (l : integer_locals) (pre : list Z) (c : Z) (t : list Z) (l' : integer_locals) : Prop :=
  let v := digits_value (current l) (c :: take_while __CFCharacterIsADigit t) in
  views (i_buf l') text /\ i_index l' = Z.of_nat (length (pre ++ c :: take_while __CFCharacterIsADigit t)) /\
  (i_doing l' = true -> doLonglong = true) /\ (i_neg l' = true -> 0 <= current l' <= scan_max doLonglong) /\
  (if i_neg l' then - current l' else current l') = clamp (- scan_max doLonglong - 1) (scan_max doLonglong) (if i_neg l then - v else v).

Lemma current_type l : int_type (current_width l) (current_max l).
Proof. unfold int_type, current_width, current_max. destruct (i_doing l); auto. Qed.

Lemma current_max_le doLonglong l : (i_doing l = true -> doLonglong = true) -> current_max l <= scan_max doLonglong.
Proof. unfold current_max, scan_max, LLONG_MAX, INT_MAX. destruct (i_doing l), doLonglong; intros H; lia || (by specialize (H eq_refl)). Qed.

Lemma digits_value_cons v c ds : digits_value v (c :: ds) = digits_value (v * 10 + (c - 0x30)) ds.
Proof. done. Qed.

(** The digits that are left when the value is too great. *)
Lemma scanned_overflow doLonglong l pre c t fuel :
  scanning doLonglong l pre c t -> (i_doing l = doLonglong) -> (length t < fuel)%nat ->
  overflows (current_width l) (current_max l) (current l) (i_neg l) c = Some true ->
  exists l', integer_step fuel doLonglong l = Some l' /\ __CFCharacterIsADigit (i_ch l') = false /\ scanned doLonglong l pre c t l'.
Proof.
  intros S Hd Hf Ho. pose proof (s_range _ _ _ _ _ S) as Hv. pose proof (s_digit _ _ _ _ _ S) as Hc.
  destruct (skip_digits_views fuel (i_buf l) pre c t (s_views _ _ _ _ _ S) (s_text _ _ _ _ _ S) Hf) as (buf' & E & V).
  assert (__CFCharacterIsADigit (hd 0xFFFF (skip_while __CFCharacterIsADigit t)) = false) as Hend by (by apply hd_skip_while).
  pose proof (overflows_spec _ _ (current l) (i_neg l) c (current_type l) Hv Hc) as Hspec.
  rewrite Ho in Hspec. injection Hspec as Hspec. symmetry in Hspec. apply Z.leb_le in Hspec.
  assert (current l * 10 + (c - 0x30) <= digits_value (current l) (c :: take_while __CFCharacterIsADigit t)) as Hgrow.
  { rewrite digits_value_cons. apply digits_value_grows; [unfold __CFCharacterIsADigit in Hc; lia|apply take_while_all]. }
  assert (current_max l = scan_max doLonglong) as Hm by (unfold current_max, scan_max; by rewrite Hd).
  assert (integer_step fuel doLonglong l = Some {| i_ch := hd 0xFFFF (skip_while __CFCharacterIsADigit t); i_neg := false;
    i_int := if i_doing l then i_int l else (if i_neg l then INT_MIN else INT_MAX);
    i_long := if i_doing l then (if i_neg l then LLONG_MIN else LLONG_MAX) else i_long l; i_doing := i_doing l; i_buf := buf';
    i_index := Z.of_nat (length (pre ++ c :: take_while __CFCharacterIsADigit t)) |}) as ->.
  { unfold integer_step, current_max, current_width, current in *. rewrite (s_ch _ _ _ _ _ S), (s_index _ _ _ _ _ S).
    destruct (i_doing l) eqn:Edo; rewrite Ho; cbn [opt_bind]; [by rewrite E|]. subst doLonglong. by rewrite E. }
  eexists. split; [done|]. split; [done|]. split_and!; cbn [i_doing i_neg i_buf i_index]; try done; [by rewrite Hd|].
  rewrite Hm in Hspec. unfold current, clamp, scan_max, LLONG_MIN, LLONG_MAX, INT_MIN, INT_MAX in *. cbn [i_doing i_long i_int]. rewrite Hd in *.
  destruct doLonglong, (i_neg l); lia.
Qed.

(** The next character, when the digit is taken. *)
Lemma integer_step_next doLonglong l pre c t fuel :
  scanning doLonglong l pre c t -> overflows (current_width l) (current_max l) (current l) (i_neg l) c = Some false ->
  exists buf', integer_step fuel doLonglong l = Some {| i_ch := hd 0xFFFF t; i_neg := i_neg l;
    i_int := if i_doing l then i_int l else current l * 10 + (c - 0x30); i_long := if i_doing l then current l * 10 + (c - 0x30) else i_long l;
    i_doing := i_doing l; i_buf := buf'; i_index := Z.of_nat (length (pre ++ [c])) |} /\ views buf' text /\
    0 <= current l * 10 + (c - 0x30) <= current_max l.
Proof.
  intros S Ho. pose proof (s_range _ _ _ _ _ S) as Hv. pose proof (s_digit _ _ _ _ _ S) as Hc.
  pose proof (overflows_spec _ _ (current l) (i_neg l) c (current_type l) Hv Hc) as Hspec.
  rewrite Ho in Hspec. injection Hspec as Hspec. symmetry in Hspec. apply Z.leb_gt in Hspec.
  destruct (get_character_views 0xFFFF (i_buf l) text (Z.of_nat (length (pre ++ [c]))) (s_views _ _ _ _ _ S)) as (buf' & E & V & _).
  assert (0 <= current l * 10 + (c - 0x30) <= current_max l) as Hr by (unfold __CFCharacterIsADigit in Hc; destruct (i_neg l); lia).
  exists buf'. split; [|done]. unfold integer_step. rewrite (s_ch _ _ _ _ _ S), (s_index _ _ _ _ _ S).
  rewrite (index_step pre t c) by (rewrite <- (s_text _ _ _ _ _ S); exact Hshort). cbn [opt_bind].
  unfold __CFStringGetCharacterFromInlineBufferAux. rewrite E.
  rewrite (text_char (pre ++ [c]) t) by (rewrite <- (assoc_L (++)); apply (s_text _ _ _ _ _ S)). cbn [opt_bind].
  pose proof (add_digit_ok _ _ (current l) c (current_type l) ltac:(lia) ltac:(lia) Hc) as Ha.
  unfold current_max, current_width, current in *. destruct (i_doing l); rewrite Ho; cbn [opt_bind]; rewrite Ha; done.
Qed.

Lemma integer_loop_scans doLonglong fuel skip l pre c t :
  scanning doLonglong l pre c t -> (length t + (if i_doing l then 1 else 2) <= fuel)%nat -> (length t < skip)%nat ->
  exists l', integer_loop fuel skip doLonglong l = Some l' /\ scanned doLonglong l pre c t l'.
Proof.
  revert l pre c t. induction fuel as [|fuel IH]; intros l pre c t S Hf Hs; [destruct (i_doing l); lia|]. cbn [integer_loop].
  destruct (overflows (current_width l) (current_max l) (current l) (i_neg l) c) as [[]|] eqn:Ho;
    [| |by rewrite (overflows_spec _ _ _ _ _ (current_type l) (s_range _ _ _ _ _ S) (s_digit _ _ _ _ _ S)) in Ho].
  - destruct (decide (i_doing l = doLonglong)) as [Hd|Hd].
    + destruct (scanned_overflow doLonglong l pre c t skip S Hd Hs Ho) as (l' & -> & Hend & Hsc). cbn [opt_bind]. rewrite Hend. by exists l'.
    + destruct (i_doing l) eqn:Edo; [by destruct Hd; rewrite (s_doing _ _ _ _ _ S Edo)|]. destruct doLonglong; [|done].
      set (l1 := {| i_ch := i_ch l; i_neg := i_neg l; i_int := i_int l; i_long := i_int l; i_doing := true; i_buf := i_buf l; i_index := i_index l |}).
      assert (integer_step skip true l = Some l1) as ->.
      { unfold integer_step, current_max, current_width, current in *. rewrite Edo in *. rewrite <- (s_ch _ _ _ _ _ S) in Ho. by rewrite Ho. }
      assert (current l1 = current l) as Hcur by (unfold current, l1; cbn; by rewrite Edo).
      assert (scanning true l1 pre c t) as S1.
      { destruct S. split; try done. rewrite Hcur. unfold current_max in *. rewrite Edo in *. cbn. unfold LLONG_MAX, INT_MAX in *. lia. }
      cbn [opt_bind i_ch]. unfold l1 at 1. cbn [i_ch]. rewrite (s_ch _ _ _ _ _ S), (s_digit _ _ _ _ _ S).
      destruct (IH l1 pre c t S1) as (l' & -> & Hsc); [cbn; lia|done|]. exists l'. split; [done|].
      unfold scanned in *. by rewrite Hcur in Hsc.
  - destruct (integer_step_next doLonglong l pre c t skip S Ho) as (buf' & -> & V & Hr). cbn [opt_bind i_ch].
    set (l1 := {| i_ch := hd 0xFFFF t; i_neg := i_neg l; i_int := _; i_long := _; i_doing := _; i_buf := _; i_index := _ |}).
    assert (current l1 = current l * 10 + (c - 0x30)) as Hcur by (unfold current at 1, l1; cbn; by destruct (i_doing l)).
    pose proof (current_max_le doLonglong l (s_doing _ _ _ _ _ S)) as Hle.
    destruct t as [|d t]; cbn [hd]; [|destruct (__CFCharacterIsADigit d) eqn:Ed].
    + exists l1. split; [done|]. unfold scanned. rewrite Hcur. split_and!; try done; [apply (s_doing _ _ _ _ _ S)|cbn; lia|].
      cbn [take_while]. rewrite digits_value_cons. unfold digits_value, clamp. cbn [fold_left]. unfold l1. cbn [i_neg]. destruct (i_neg l); lia.
    + assert (scanning doLonglong l1 (pre ++ [c]) d t) as S1.
      { split; try done; [by rewrite <- (assoc_L (++)); apply (s_text _ _ _ _ _ S)|apply (s_doing _ _ _ _ _ S)|by rewrite Hcur]. }
      destruct (IH l1 (pre ++ [c]) d t S1) as (l' & -> & Hsc); [unfold l1; cbn [i_doing length] in *; destruct (i_doing l); lia|simpl in Hs; lia|].
      exists l'. split; [done|]. unfold scanned in *. rewrite Hcur in Hsc. cbn [take_while]. rewrite Ed, digits_value_cons.
      rewrite <- (assoc_L (++)) in Hsc. exact Hsc.
    + exists l1. split; [done|]. unfold scanned. rewrite Hcur. cbn [take_while]. rewrite Ed. split_and!; try done; [apply (s_doing _ _ _ _ _ S)|cbn; lia|].
      rewrite digits_value_cons. unfold digits_value, clamp. cbn [fold_left]. unfold l1. cbn [i_neg]. destruct (i_neg l); lia.
Qed.
End Scanning.

(** *** Hexadecimal digits *)

Definition is_hex (c : Z) : bool := negb (__CFCharacterNumericOrHexValue c =? -1).

Definition hex_value (v : Z) (ds : list Z) : Z := fold_left (fun v c => v * 16 + __CFCharacterNumericOrHexValue c) ds v.

Lemma hex_digit_range c : is_hex c = true -> 0 <= __CFCharacterNumericOrHexValue c < 16.
Proof. unfold is_hex, __CFCharacterNumericOrHexValue. repeat case_match; lia. Qed.

Lemma hex_value_grows v ds : 0 <= v -> Forall (fun c => is_hex c = true) ds -> v <= hex_value v ds.
Proof.
  unfold hex_value. intros Hv Hd. revert v Hv. induction Hd as [|c ds Hc Hd IH]; intros v Hv; cbn [fold_left]; [lia|].
  apply hex_digit_range in Hc. specialize (IH (v * 16 + __CFCharacterNumericOrHexValue c) ltac:(lia)). lia.
Qed.

(** A value that is kept at its greatest stays there. *)
Lemma hex_value_min v ds : 0 <= v -> Forall (fun c => is_hex c = true) ds ->
  Z.min UINT_MAX (hex_value (Z.min UINT_MAX v) ds) = Z.min UINT_MAX (hex_value v ds).
Proof.
  intros Hv Hd. destruct (Z.le_gt_cases v UINT_MAX); [by rewrite (Z.min_r UINT_MAX v) by lia|]. rewrite (Z.min_l UINT_MAX v) by lia.
  pose proof (hex_value_grows v ds Hv Hd). pose proof (hex_value_grows UINT_MAX ds ltac:(unfold UINT_MAX; lia) Hd). lia.
Qed.

Lemma hex_loop_scans text fuel buf pre c t v : short text -> views buf text -> text = pre ++ c :: t -> is_hex c = true ->
  0 <= v <= UINT_MAX -> (length t < fuel)%nat ->
  exists buf', hex_loop fuel buf (Z.of_nat (length pre)) v (__CFCharacterNumericOrHexValue c) =
    Some (Z.min UINT_MAX (hex_value v (c :: take_while is_hex t)), buf', Z.of_nat (length (pre ++ c :: take_while is_hex t))) /\ views buf' text.
Proof.
  intros Hsh. revert buf pre c t v. induction fuel as [|fuel IH]; intros buf pre c t v V Ht Hc Hv Hf; [lia|]. cbn [hex_loop].
  rewrite (index_step pre t c) by (by rewrite <- Ht). cbn [opt_bind].
  destruct (get_character_views 0xFFFF buf text (Z.of_nat (length (pre ++ [c]))) V) as (buf1 & E & V1 & _).
  unfold __CFStringGetCharacterFromInlineBufferAux. rewrite E, (text_char text (pre ++ [c]) t) by (by rewrite Ht, <- (assoc_L (++))).
  cbn [opt_bind]. pose proof (hex_digit_range c Hc) as Hr.
  set (v1 := if Z.shiftr UINT_MAX 4 <? v then UINT_MAX else _).
  assert (v1 = Z.min UINT_MAX (v * 16 + __CFCharacterNumericOrHexValue c)) as Ev1.
  { unfold v1. change (Z.shiftr UINT_MAX 4) with (2 ^ 28 - 1). unfold UINT_MAX in *. destruct (Z.ltb_spec (2 ^ 28 - 1) v); [lia|].
    rewrite Z.shiftl_mul_pow2 by lia. change (2 ^ 4) with 16. rewrite uwrap_id by (unfold in_unsigned; lia). lia. }
  assert (0 <= v1 <= UINT_MAX) as Hv1 by (unfold UINT_MAX in *; lia).
  destruct t as [|d t]; cbn [hd take_while].
  { change (__CFCharacterNumericOrHexValue 0xFFFF =? -1) with true. cbn [negb]. exists buf1. split; [|done]. by rewrite Ev1. }
  fold (is_hex d). destruct (is_hex d) eqn:Ed.
  - destruct (IH buf1 (pre ++ [c]) d t v1 V1) as (buf2 & E2 & V2); [by rewrite <- (assoc_L (++))|done|done|simpl in Hf; lia|].
    exists buf2. split; [|done]. rewrite E2, <- (assoc_L (++)). cbn [app]. do 3 f_equal. rewrite Ev1.
    rewrite hex_value_min; [done|lia|]. constructor; [done|apply take_while_all].
  - exists buf1. split; [|done]. by rewrite Ev1.
Qed.

(** ** Theorems *)

(** The integer at the start of a text: spaces, a sign that spaces may follow,
    digits.  The value is the nearest one of the type, the count that of the
    characters used; without digits the spaces and the sign are used. *)
Definition integer_of (doLonglong : bool) (t : list Z) : option Z * nat :=
  let t1 := skip_while __CFIsWhitespace t in
  let '(neg, t2) :=
    match t1 with
    | c :: r => if (c =? 0x2D) || (c =? 0x2B) then (c =? 0x2D, skip_while __CFIsWhitespace r) else (false, t1)
    | [] => (false, t1)
    end in
  let digits := take_while __CFCharacterIsADigit t2 in
  let v := digits_value 0 digits in
  (match digits with
   | [] => None
   | _ => Some (clamp (- scan_max doLonglong - 1) (scan_max doLonglong) (if neg then - v else v))
   end, length t - length (skip_while __CFCharacterIsADigit t2))%nat.

(** Where the number begins. *)
Lemma sign_scanned text buf pre t fuel : short text -> views buf text -> text = pre ++ t -> (length text < fuel)%nat ->
  let t1 := skip_while __CFIsWhitespace t in
  let '(neg, t2) :=
    match t1 with
    | c :: r => if (c =? 0x2D) || (c =? 0x2B) then (c =? 0x2D, skip_while __CFIsWhitespace r) else (false, t1)
    | [] => (false, t1)
    end in
  exists pre2 buf2, text = pre2 ++ t2 /\ views buf2 text /\ (length t2 <= length t)%nat /\
    (let* (ch, buf, index) := __CFStringGetFirstNonSpaceCharacterFromInlineBuffer fuel buf (Z.of_nat (length pre)) in
     if (ch =? 0x2D) || (ch =? 0x2B) then
       let* index := checked 32 (index + 1) in
       let* (ch', buf, index) := __CFStringGetFirstNonSpaceCharacterFromInlineBuffer fuel buf index in
       Some (ch', ch =? 0x2D, buf, index)
     else Some (ch, false, buf, index)) = Some (hd 0xFFFF t2, neg, buf2, Z.of_nat (length pre2)).
Proof.
  intros Hsh V Ht Hf t1. assert (length t < fuel)%nat as Hft by (rewrite Ht, length_app in Hf; lia).
  destruct (first_non_space text Hsh fuel buf pre t V Ht Hft) as (buf1 & -> & V1 & _). cbn [opt_bind]. fold t1.
  pose proof (skip_while_length __CFIsWhitespace t) as Hl1. fold t1 in Hl1.
  assert (text = (pre ++ take_while __CFIsWhitespace t) ++ t1) as Ht1 by (unfold t1; by rewrite <- (assoc_L (++)), take_skip_while).
  destruct t1 as [|c r] eqn:E1; cbn [hd].
  { exists (pre ++ take_while __CFIsWhitespace t), buf1. split_and!; [done|done|done|by cbn]. }
  destruct ((c =? 0x2D) || (c =? 0x2B)) eqn:Ec.
  2: { exists (pre ++ take_while __CFIsWhitespace t), buf1. split_and!; [done|done|done|done]. }
  set (pre1 := pre ++ take_while __CFIsWhitespace t) in *. rewrite (index_step pre1 r c) by (by rewrite <- Ht1). cbn [opt_bind].
  destruct (first_non_space text Hsh fuel buf1 (pre1 ++ [c]) r V1) as (buf2 & -> & V2 & _); [by rewrite <- (assoc_L (++))|simpl in Hl1; lia|].
  exists ((pre1 ++ [c]) ++ take_while __CFIsWhitespace r), buf2. pose proof (skip_while_length __CFIsWhitespace r). simpl in Hl1.
  split_and!; [by rewrite <- (assoc_L (++)), take_skip_while, <- (assoc_L (++))|done|lia|done].
Qed.

(** C16: scanning an integer of either width through the inline buffer reads spaces,
    a sign and digits and gives the value of the digits, or the least or greatest
    value of the type when it is out of range, and leaves the index behind the
    digits; without digits it fails behind the spaces and the sign.  No sum,
    product, difference or negation of the code, each of which is undefined when it
    does not fit, overflows, the loops end, and the window of the buffer shows the
    text of the string all along.  The range is shorter than 2^31 - 1 and the index
    in it. *)
Theorem __CFStringScanInteger_clamps buf text index doLonglong :
  views buf text -> Z.of_nat (length text) < 2 ^ 31 - 1 -> 0 <= index <= Z.of_nat (length text) ->
  exists buf', __CFStringScanInteger buf index doLonglong =
    Some (fst (integer_of doLonglong (drop (Z.to_nat index) text)), buf',
          index + Z.of_nat (snd (integer_of doLonglong (drop (Z.to_nat index) text)))) /\ views buf' text.
Proof.
  intros V Hsh Hi. set (pre := take (Z.to_nat index) text). set (t := drop (Z.to_nat index) text).
  assert (text = pre ++ t) as Ht by (unfold pre, t; by rewrite take_drop).
  assert (index = Z.of_nat (length pre)) as Hidx by (unfold pre; rewrite length_take; lia).
  rewrite Hidx. unfold __CFStringScanInteger. rewrite (view_length _ _ V), Nat2Z.id. set (fuel := S (S (length text))).
  pose proof (sign_scanned text buf pre t fuel Hsh V Ht ltac:(unfold fuel; lia)) as Hs. cbv zeta in Hs. unfold integer_of.
  destruct (match skip_while __CFIsWhitespace t with [] => _ | c :: r => _ end) as [neg t2].
  destruct Hs as (pre2 & buf2 & Ht2 & V2 & Hl2 & E).
  destruct (__CFStringGetFirstNonSpaceCharacterFromInlineBuffer fuel buf (Z.of_nat (length pre))) as [[[ch b] i]|]; [|done].
  cbn [opt_bind] in E |- *. rewrite E. cbn [opt_bind].
  assert (Z.of_nat (length pre2) + Z.of_nat (length t2) = Z.of_nat (length pre) + Z.of_nat (length t)) as Hlen
    by (apply (f_equal length) in Ht, Ht2; rewrite length_app in *; lia).
  destruct t2 as [|c t2]; cbn [hd fst snd].
  { exists buf2. split; [|done]. change (__CFCharacterIsADigit 0xFFFF) with false. cbn [negb take_while skip_while]. do 2 f_equal. simpl in *. lia. }
  destruct (__CFCharacterIsADigit c) eqn:Ec; cbn [negb take_while skip_while]; rewrite Ec.
  2: { exists buf2. split; [|done]. do 2 f_equal. simpl in *. lia. }
  set (l := {| i_ch := c; i_neg := neg; i_int := 0; i_long := 0; i_doing := false; i_buf := buf2; i_index := Z.of_nat (length pre2) |}).
  destruct (integer_loop_scans text Hsh doLonglong fuel fuel l pre2 c t2) as (l' & -> & V' & Hi' & Hd' & Hn' & Hr');
    [split; try done; cbn; unfold INT_MAX; lia|cbn; unfold fuel; simpl in Hl2; rewrite Ht, length_app; lia|
     unfold fuel; simpl in Hl2; rewrite Ht, length_app; lia|].
  cbn [opt_bind]. exists (i_buf l'). split; [|done]. cbn [current i_doing i_int l i_neg] in Hr'. 
  assert ((if doLonglong then if i_doing l' then i_long l' else i_int l' else i_int l') = current l') as ->.
  { unfold current. destruct doLonglong; [done|]. destruct (i_doing l'); [|done]. by specialize (Hd' eq_refl). }
  change (current l) with 0 in Hr'. rewrite <- Hr', Hi'. clear Hr'.
  assert ((if i_neg l' then checked (if doLonglong then 64 else 32) (- current l') else Some (current l')) = Some (if i_neg l' then - current l' else current l')) as ->.
  { destruct (i_neg l'); [|done]. specialize (Hn' eq_refl). apply checked_ok. unfold in_signed, scan_max, LLONG_MAX, INT_MAX in *. destruct doLonglong; lia. }
  cbn [opt_bind]. do 2 f_equal.
  pose proof (f_equal length (take_skip_while __CFCharacterIsADigit t2)) as Hts. rewrite length_app in Hts. rewrite length_app. cbn [length] in *. lia.
Qed.

(** The hexadecimal number at the start of a text: spaces, digits that 0x may
    precede.  A 0 that is followed by neither a digit nor x is not counted as
    used. *)
Definition is_x (c : Z) : bool := (c =? 0x78) || (c =? 0x58).

Definition hex_of (t : list Z) : option Z * nat :=
  let t1 := skip_while __CFIsWhitespace t in
  let zero := hd 0xFFFF t1 =? 0x30 in
  let r := if zero then (if is_x (hd 0xFFFF (tl t1)) then tl (tl t1) else tl t1) else t1 in
  match take_while is_hex r with
  | [] => if zero then (Some 0, (length t - length r - 1)%nat) else (None, (length t - length r)%nat)
  | ds => (Some (Z.min UINT_MAX (hex_value 0 ds)), (length t - length (skip_while is_hex r))%nat)
  end.

(** From where the digits should begin: [none] is the result without digits. *)
Lemma hex_digits_scanned text buf pre r fuel (n : nat) (none : option Z * CFStringInlineBuffer * Z) :
  short text -> views buf text -> text = pre ++ r -> (length text < fuel)%nat -> (length r <= n <= length text)%nat ->
  views (snd (fst none)) text ->
  exists buf', (if __CFCharacterNumericOrHexValue (hd 0xFFFF r) =? -1 then Some none
     else let* (value, buf, index) := hex_loop fuel buf (Z.of_nat (length pre)) 0 (__CFCharacterNumericOrHexValue (hd 0xFFFF r)) in
          Some (Some value, buf, index)) =
    Some (match take_while is_hex r with
          | [] => (fst (fst none), buf', snd none)
          | ds => (Some (Z.min UINT_MAX (hex_value 0 ds)), buf',
                   Z.of_nat (length text) - Z.of_nat n + Z.of_nat (n - length (skip_while is_hex r)))
          end) /\ views buf' text.
Proof.
  intros Hsh V Ht Hf Hn Vn. destruct r as [|c r]; cbn [hd take_while].
  { exists (snd (fst none)). split; [|done]. by destruct none as [[? ?] ?]. }
  destruct (is_hex c) eqn:Ec; unfold is_hex in Ec.
  2: { apply negb_false_iff in Ec. rewrite Ec. exists (snd (fst none)). split; [|done]. by destruct none as [[? ?] ?]. }
  apply negb_true_iff in Ec as Ec'. rewrite Ec'. destruct (hex_loop_scans text fuel buf pre c r 0 Hsh V Ht Ec) as (buf' & -> & V');
    [unfold UINT_MAX; lia|rewrite Ht, length_app in Hf; simpl in Hf; lia|].
  exists buf'. split; [|done]. cbn [opt_bind skip_while]. unfold is_hex at 4. rewrite Ec. do 2 f_equal.
  pose proof (f_equal length (take_skip_while is_hex r)) as Hts. rewrite length_app in Hts. apply (f_equal length) in Ht.
  rewrite length_app in Ht |- *. cbn [length] in *. pose proof (skip_while_length is_hex r). lia.
Qed.

(** Scanning a hexadecimal number gives its value, or the greatest one of 32
    bits, after an optional 0x, and leaves the index behind the digits; 0x that
    no digit follows is the number 0 before the x.  After a single 0 the index
    stays before the 0, though the result is success. *)
Lemma __CFStringScanHex_clamps buf text index :
  views buf text -> Z.of_nat (length text) < 2 ^ 31 - 1 -> 0 <= index <= Z.of_nat (length text) ->
  exists buf', __CFStringScanHex buf index =
    Some (fst (hex_of (drop (Z.to_nat index) text)), buf', index + Z.of_nat (snd (hex_of (drop (Z.to_nat index) text)))) /\ views buf' text.
Proof.
  intros V Hsh Hi. set (pre := take (Z.to_nat index) text). set (t := drop (Z.to_nat index) text).
  assert (text = pre ++ t) as Ht by (unfold pre, t; by rewrite take_drop).
  assert (index = Z.of_nat (length text) - Z.of_nat (length t)) as Hidx by (unfold t; rewrite length_drop; lia).
  assert (index = Z.of_nat (length pre)) as Hpre by (unfold pre; rewrite length_take; lia).
  unfold __CFStringScanHex. rewrite (view_length _ _ V), Nat2Z.id. set (fuel := S (S (length text))).
  destruct (first_non_space text Hsh fuel buf pre t V Ht) as (buf1 & E0 & V1 & _); [unfold fuel; rewrite Ht, length_app; lia|].
  rewrite <- Hpre in E0. rewrite E0.
  cbn [opt_bind]. unfold hex_of. set (t1 := skip_while __CFIsWhitespace t).
  pose proof (skip_while_length __CFIsWhitespace t) as Hl1. fold t1 in Hl1.
  set (pre1 := pre ++ take_while __CFIsWhitespace t).
  assert (text = pre1 ++ t1) as Ht1 by (unfold t1, pre1; by rewrite <- (assoc_L (++)), take_skip_while).
  assert (Z.of_nat (length pre1) = Z.of_nat (length text) - Z.of_nat (length t1)) as Hp1 by (rewrite Ht1, length_app; lia).
  destruct (Z.eqb_spec (hd 0xFFFF t1) 0x30) as [H0|H0].
  2: { destruct (hex_digits_scanned text buf1 pre1 t1 fuel (length t) (None, buf1, Z.of_nat (length pre1)) Hsh V1 Ht1) as (buf' & E & V');
      [unfold fuel; lia|rewrite Ht, length_app; lia|done|].
    exists buf'. split; [|done]. rewrite E. rewrite <- Hidx. destruct (take_while is_hex t1); cbn [fst snd]; do 2 f_equal; lia. }
  destruct t1 as [|c r] eqn:E1; [done|]. cbn [hd] in H0. subst c. cbn [tl] in *. rewrite (index_step pre1 r 0x30) by (by rewrite <- Ht1). cbn [opt_bind].
  destruct (get_character_views 0xFFFF buf1 text (Z.of_nat (length (pre1 ++ [0x30]))) V1) as (buf2 & E2 & V2 & _).
  unfold __CFStringGetCharacterFromInlineBufferAux. rewrite E2, (text_char text (pre1 ++ [0x30]) r) by (by rewrite <- (assoc_L (++))). cbn [opt_bind].
  fold (is_x (hd 0xFFFF r)). set (r2 := if is_x (hd 0xFFFF r) then tl r else r).
  set (read := if is_x (hd 0xFFFF r) then _ else _).
  assert (exists pre3 buf3, read = Some (hd 0xFFFF r2, buf3, Z.of_nat (length pre3)) /\ text = pre3 ++ r2 /\ views buf3 text /\ (length r2 <= length r)%nat)
    as (pre3 & buf3 & -> & Ht3 & V3 & Hl3).
  { unfold read, r2. destruct (is_x (hd 0xFFFF r)) eqn:Ex.
    - destruct r as [|x r]; [done|]. cbn [tl hd] in *. rewrite (index_step (pre1 ++ [0x30]) r x) by (rewrite <- (assoc_L (++)); cbn [app]; by rewrite <- Ht1). cbn [opt_bind].
      destruct (get_character_views 0xFFFF buf2 text (Z.of_nat (length ((pre1 ++ [0x30]) ++ [x]))) V2) as (buf3 & E3 & V3 & _).
      rewrite E3, (text_char text ((pre1 ++ [0x30]) ++ [x]) r) by (by rewrite <- !(assoc_L (++))). cbn [opt_bind].
      exists ((pre1 ++ [0x30]) ++ [x]), buf3. split_and!; [done|by rewrite <- !(assoc_L (++))|done|simpl; lia].
    - exists (pre1 ++ [0x30]), buf2. split_and!; [done|by rewrite <- (assoc_L (++))|done|lia]. }
  cbn [opt_bind]. cbn [length] in *.
  assert (Z.of_nat (length pre3) = Z.of_nat (length text) - Z.of_nat (length r2)) as Hp3 by (rewrite Ht3, length_app; lia).
  assert (Z.of_nat (length text) - Z.of_nat (length t) + 1 + Z.of_nat (length r2) <= Z.of_nat (length text)) as Hroom by lia.
  rewrite (checked_ok 32 (Z.of_nat (length pre3) - 1)) by (unfold in_signed; change (2 ^ (32 - 1)) with (2 ^ 31); lia). cbn [opt_bind].
  destruct (hex_digits_scanned text buf3 pre3 r2 fuel (length t) (Some 0, buf3, Z.of_nat (length pre3) - 1) Hsh V3 Ht3) as (buf' & E & V');
    [unfold fuel; lia|rewrite Ht, length_app; lia|done|].
  exists buf'. split; [|done]. rewrite E. rewrite <- Hidx. destruct (take_while is_hex r2); cbn [fst snd]; [|done]. do 2 f_equal. lia.
Qed.

(** *** Floating-point numbers *)

Section DoubleTheory.
Context {double : Type} (strtod_l : list Z -> double * Z) (junk : Z).

Definition number_character (c : Z) : bool := match is_number_character c with Some b => b | None => false end.

(** The digits, the signs, the point and the letter of an exponent. *)
Lemma number_character_spec c : 0 <= c -> is_number_character c = Some (number_character c) /\
  number_character c = (((0x30 <=? c) && (c <=? 0x39)) || (c =? 0x2B) || (c =? 0x2D) || (c =? 0x2E) || (c =? 0x45) || (c =? 0x65)).
Proof.
  intros Hc. destruct (Z.ltb_spec c 128) as [Hlt|Hge].
  - pose proof (forall_below (fun c => match is_number_character c with
        | Some b => Bool.eqb b (((0x30 <=? c) && (c <=? 0x39)) || (c =? 0x2B) || (c =? 0x2D) || (c =? 0x2E) || (c =? 0x45) || (c =? 0x65))
        | None => false end) 128 ltac:(vm_compute; reflexivity) c ltac:(lia)) as Hck.
    cbn beta in Hck. unfold number_character. destruct (is_number_character c); [|done]. by apply Bool.eqb_prop in Hck.
  - assert (is_number_character c = Some false) as E by (unfold is_number_character; by destruct (Z.ltb_spec c 128); [lia|]).
    unfold number_character. rewrite E. split; [done|]. lia.
Qed.

(** [holds chars cap out]: a block of [cap] cells that begins with [out] and has
    room for the null byte. *)
Definition holds (chars : list Z) (capacity : Z) (out : list Z) : Prop :=
  Z.of_nat (length chars) = capacity /\ Z.of_nat (length out) < capacity /\ exists rest, chars = out ++ rest.

Lemma grow_chars_holds chars onStack out capacity : holds chars capacity out -> 2 <= capacity -> capacity + 256 < 2 ^ 31 ->
  exists chars' onStack' capacity', grow_chars junk chars onStack (Z.of_nat (length out)) capacity = Some (chars', onStack', capacity') /\
    holds chars' capacity' out /\ Z.of_nat (length out) + 1 < capacity' /\
    capacity <= capacity' /\ (capacity' = capacity \/ capacity' = capacity + 256 /\ capacity <= Z.of_nat (length out) + 1).
Proof.
  intros (Hl & Ho & rest & ->) Hc2 Hbig. unfold grow_chars. rewrite length_app in Hl.
  destruct (Z.leb_spec (capacity - 1) (Z.of_nat (length out))).
  2: { exists (out ++ rest), onStack, capacity. unfold holds. rewrite length_app. split_and!; eauto; lia. }
  unfold ALLOC_CHUNK_SIZE. rewrite checked_ok by (unfold in_signed; change (2 ^ (32 - 1)) with (2 ^ 31); lia). cbn [opt_bind].
  set (fresh := replicate (Z.to_nat (capacity + 256)) junk).
  assert (Z.of_nat (length fresh) = capacity + 256) as Hfresh by (unfold fresh; rewrite length_replicate; lia).
  set (n := if onStack then Z.of_nat (length out) else Z.of_nat (length (out ++ rest))).
  assert (Z.of_nat (length out) <= n <= capacity) as Hn by (unfold n; destruct onStack; rewrite ?length_app; lia).
  assert ((if onStack then memmove fresh 0 (out ++ rest) 0 (Z.of_nat (length out)) else memmove fresh 0 (out ++ rest) 0 (Z.of_nat (length (out ++ rest)))) =
    Some (out ++ take (Z.to_nat n - length out) rest ++ drop (Z.to_nat n) fresh)) as ->.
  { transitivity (memmove fresh 0 (out ++ rest) 0 n); [unfold n; by destruct onStack|].
    rewrite memmove_ok by (rewrite ?length_app; lia). change (Z.to_nat 0) with O. cbn [take drop app].
    rewrite drop_0, take_app_ge, <- (assoc_L (++)) by lia. done. }
  cbn [opt_bind]. eexists _, _, _. split; [done|]. unfold holds. rewrite !length_app, length_take, length_drop. split_and!; eauto; lia.
Qed.

Lemma gather_number_holds text fuel buf pre out t chars onStack capacity :
  Forall (fun c => 0 <= c < 0x10000) text -> Z.of_nat (length text) < 2 ^ 31 - 2048 ->
  views buf text -> text = pre ++ out ++ t -> holds chars capacity out -> 256 <= capacity <= Z.of_nat (length out) + 1000 -> (length t < fuel)%nat ->
  exists chars' buf', gather_number junk fuel buf (Z.of_nat (length pre)) (hd 0xFFFF t) chars onStack (Z.of_nat (length out)) capacity =
    Some (chars', Z.of_nat (length (out ++ take_while number_character t)), buf') /\ views buf' text /\
    exists capacity', holds chars' capacity' (out ++ take_while number_character t).
Proof.
  intros Hu Hsh. revert buf out t chars onStack capacity. induction fuel as [|fuel IH]; intros buf out t chars onStack capacity V Ht Hh Hc Hf; [lia|].
  cbn [gather_number]. destruct t as [|c t]; cbn [hd take_while].
  { change (is_number_character 0xFFFF) with (Some false). cbn [opt_bind]. rewrite app_nil_r. exists chars, buf. split; [done|]. split; [done|by exists capacity]. }
  assert (0 <= c < 0x10000) as Hcu.
  { rewrite Ht in Hu. apply Forall_app in Hu as [_ Hu]. apply Forall_app in Hu as [_ Hu]. by apply Forall_cons_1 in Hu as [? _]. }
  destruct (number_character_spec c ltac:(lia)) as [-> Hspec]. cbn [opt_bind]. destruct (number_character c) eqn:Ec.
  2: { rewrite app_nil_r. exists chars, buf. split; [done|]. split; [done|by exists capacity]. }
  assert (c < 128) as Hc128 by lia. assert (Z.of_nat (length pre) + Z.of_nat (length out) + Z.of_nat (length t) + 1 = Z.of_nat (length text)) as Hlen
    by (rewrite Ht, !length_app; simpl; lia).
  destruct (grow_chars_holds chars onStack out capacity Hh ltac:(lia) ltac:(lia)) as (chars1 & onStack1 & capacity1 & -> & (Hl1 & Ho1 & rest & ->) & Hroom & Hc1 & Hc2).
  cbn [opt_bind]. rewrite length_app in Hl1. destruct rest as [|x rest]; [simpl in *; lia|].
  rewrite wr_nat by (rewrite length_app; simpl; lia). cbn [opt_bind]. rewrite insert_app_r_alt, Nat.sub_diag by lia. cbn [insert list_insert].
  rewrite (swrap_id 8) by (try (unfold in_signed); lia).
  replace (Z.of_nat (length out) + 1) with (Z.of_nat (length (out ++ [c]))) by (rewrite length_app; simpl; lia).
  rewrite !checked_ok by (unfold in_signed; rewrite length_app; change (2 ^ (32 - 1)) with (2 ^ 31); cbn [length]; lia). cbn [opt_bind].
  rewrite !checked_ok by (unfold in_signed; rewrite length_app; change (2 ^ (32 - 1)) with (2 ^ 31); cbn [length]; lia). cbn [opt_bind].
  replace (Z.of_nat (length pre) + Z.of_nat (length (out ++ [c]))) with (Z.of_nat (length (pre ++ out ++ [c]))) by (rewrite !length_app; lia).
  destruct (get_character_views 0xFFFF buf text (Z.of_nat (length (pre ++ out ++ [c]))) V) as (buf1 & E & V1 & _).
  unfold __CFStringGetCharacterFromInlineBufferAux. rewrite E, (text_char text (pre ++ out ++ [c]) t) by (by rewrite Ht, <- !(assoc_L (++))).
  cbn [opt_bind]. destruct (IH buf1 (out ++ [c]) t (out ++ c :: rest) onStack1 capacity1 V1) as (chars' & buf' & -> & V' & Hh').
  - by rewrite Ht, <- (assoc_L (++)).
  - split_and!; [rewrite length_app in *; simpl in *; lia|rewrite length_app; simpl; lia|exists rest; by rewrite <- (assoc_L (++))].
  - rewrite length_app. simpl. lia.
  - simpl in Hf. lia.
  - exists chars', buf'. rewrite <- !(assoc_L (++)) in *. cbn [app] in *. done.
Qed.

(** C36: scanning a floating-point number gathers the characters that may be part
    of one (digits, signs, point and exponent letters) behind the spaces and
    gives exactly those to strtod, with a null byte behind them, whatever their
    number: every store is inside the buffer, which is moved to the heap and
    grown as needed.  The index moves over the spaces and what strtod used. *)
Theorem __CFStringScanDouble_gathers buf text index :
  views buf text -> Forall (fun c => 0 <= c < 0x10000) text -> Z.of_nat (length text) < 2 ^ 31 - 2048 -> 0 <= index <= Z.of_nat (length text) ->
  let t := skip_while __CFIsWhitespace (drop (Z.to_nat index) text) in
  exists block rest buf', block = take_while number_character t ++ 0 :: rest /\ views buf' text /\
    __CFStringScanDouble strtod_l junk buf index =
      Some (if snd (strtod_l block) =? 0 then (None, buf', Z.of_nat (length text) - Z.of_nat (length t))
            else (Some (fst (strtod_l block)), buf', swrap 32 (Z.of_nat (length text) - Z.of_nat (length t) + snd (strtod_l block)))).
Proof.
  intros V Hu Hsh Hi. set (t0 := drop (Z.to_nat index) text). set (pre := take (Z.to_nat index) text). intros t.
  assert (text = pre ++ t0) as Ht0 by (unfold pre, t0; by rewrite take_drop).
  assert (index = Z.of_nat (length pre)) as Hidx by (unfold pre; rewrite length_take; lia).
  unfold __CFStringScanDouble. rewrite (view_length _ _ V), Nat2Z.id. set (fuel := S (S (length text))). rewrite Hidx.
  destruct (first_non_space text ltac:(unfold short; lia) fuel buf pre t0 V Ht0) as (buf1 & -> & V1 & _); [unfold fuel; rewrite Ht0, length_app; lia|].
  cbn [opt_bind]. fold t. set (pre1 := pre ++ take_while __CFIsWhitespace t0).
  assert (text = pre1 ++ [] ++ t) as Ht by (unfold pre1, t; by rewrite <- (assoc_L (++)), take_skip_while).
  destruct (gather_number_holds text fuel buf1 pre1 [] t (replicate (Z.to_nat STACK_BUFFER_SIZE) junk) true STACK_BUFFER_SIZE Hu Hsh V1 Ht)
    as (chars & buf' & E & V' & capacity & Hl & Ho & rest & ->).
  { split_and!; [done|unfold STACK_BUFFER_SIZE; simpl; lia|by eexists]. }
  { unfold STACK_BUFFER_SIZE. simpl. lia. }
  { unfold fuel. apply (f_equal length) in Ht. rewrite !length_app in Ht. lia. }
  cbn [app length] in *. change (Z.of_nat 0) with 0 in E. rewrite E. cbn [opt_bind]. rewrite length_app in Hl.
  destruct rest as [|x rest]; [simpl in *; lia|]. rewrite wr_nat by (rewrite length_app; simpl; lia).
  rewrite insert_app_r_alt, Nat.sub_diag by lia. cbn [insert list_insert opt_bind].
  exists (take_while number_character t ++ 0 :: rest), rest, buf'. split; [done|]. split; [done|].
  assert (Z.of_nat (length pre1) = Z.of_nat (length text) - Z.of_nat (length t)) as -> by (apply (f_equal length) in Ht; rewrite length_app in Ht; lia).
  destruct (strtod_l (take_while number_character t ++ 0 :: rest)) as [result used]. cbn [fst snd]. by destruct (used =? 0).
Qed.
End DoubleTheory.

(** *** Reads in any order *)

Fixpoint read_all (outside : Z) (buf : CFStringInlineBuffer) (idxs : list Z) : option (list Z) :=
  match idxs with
  | [] => Some []
  | idx :: idxs =>
      let* (c, buf) := get_character outside buf idx in
      let* cs := read_all outside buf idxs in Some (c :: cs)
  end.

Lemma read_all_views outside buf text idxs : views buf text -> read_all outside buf idxs = Some (char_at outside text <$> idxs).
Proof.
  intros V. revert buf V. induction idxs as [|idx idxs IH]; intros buf V; [done|]. cbn [read_all].
  destruct (get_character_views outside buf text idx V) as (buf' & -> & V' & _). cbn [opt_bind]. by rewrite (IH buf' V').
Qed.

(** C37: characters read through an inline buffer, in any order and any number of
    times, are those of the range of the string it was set up for; outside it
    CFStringGetCharacterFromInlineBuffer gives 0 and the variant of the scanners
    0xFFFF.  Every access to the window and to the string is inside them, whether
    the string gives out a pointer to its contents or the window of 64 units
    has to be filled. *)
Theorem CFStringInlineBuffer_shows_string str junk location length idxs outside :
  string_ok str -> List.length junk = 64%nat -> 0 <= location -> 0 <= length ->
  location + length <= Z.of_nat (List.length (characters_of str)) ->
  read_all outside (CFStringInitInlineBuffer str junk location length) idxs =
    Some ((fun idx => if (0 <=? idx) && (idx <? length)
                      then nth (Z.to_nat (location + idx)) (characters_of str) outside else outside) <$> idxs).
Proof.
  intros Hstr Hj Hloc Hn Hin. erewrite read_all_views by (apply init_views; try done; unfold __kCFStringInlineBufferLength; lia).
  f_equal. apply list_fmap_ext. intros _ idx _. unfold char_at, rd.
  destruct (Z.leb_spec 0 idx), (Z.ltb_spec idx length); cbn [andb]; try done.
  - rewrite lookup_take_lt, lookup_drop by lia. rewrite nth_lookup.
    replace (Z.to_nat location + Z.to_nat idx)%nat with (Z.to_nat (location + idx)) by lia. done.
  - by rewrite lookup_take_ge by lia.
Qed.

(** ** Witnesses *)

Definition plain_string (chars : list Z) : string_contents :=
  {| characters_of := chars; CFStringGetCharactersPtr := None; CFStringGetCStringPtr := None |}.

Lemma plain_string_ok chars : string_ok (plain_string chars).
Proof. by split. Qed.

Definition whole_buffer (chars : list Z) : CFStringInlineBuffer :=
  CFStringInitInlineBuffer (plain_string chars) (replicate 64 0) 0 (Z.of_nat (length chars)).

Lemma whole_buffer_views chars : views (whole_buffer chars) chars.
Proof.
  assert (views (whole_buffer chars) (take (Z.to_nat (Z.of_nat (length chars))) (drop (Z.to_nat 0) (characters_of (plain_string chars))))) as V.
  { apply init_views; [apply plain_string_ok|done|lia|lia|cbn; lia]. }
  rewrite Nat2Z.id in V. change (Z.to_nat 0) with O in V. cbn [characters_of plain_string] in V. by rewrite drop_0, firstn_all in V.
Qed.

Lemma CFStringInlineBuffer_shows_string_witness :
  read_all 0 (CFStringInitInlineBuffer (plain_string [0x61; 0x62; 0x63]) (replicate 64 0) 1 2) [1; 0; 2; 1] =
    Some [0x63; 0x62; 0; 0x63].
Proof.
  rewrite (CFStringInlineBuffer_shows_string (plain_string [0x61; 0x62; 0x63]) (replicate 64 0) 1 2 [1; 0; 2; 1] 0).
  - reflexivity.
  - apply plain_string_ok.
  - reflexivity.
  - lia.
  - lia.
  - cbn. lia.
Defined.

(** " -2147483649x" *)
Lemma __CFStringScanInteger_clamps_witness :
  exists buf', __CFStringScanInteger (whole_buffer [0x20; 0x2D; 0x32; 0x31; 0x34; 0x37; 0x34; 0x38; 0x33; 0x36; 0x34; 0x39; 0x78]) 0 false =
    Some (Some (- 2147483648), buf', 12) /\
    views buf' [0x20; 0x2D; 0x32; 0x31; 0x34; 0x37; 0x34; 0x38; 0x33; 0x36; 0x34; 0x39; 0x78].
Proof.
  apply (__CFStringScanInteger_clamps (whole_buffer [0x20; 0x2D; 0x32; 0x31; 0x34; 0x37; 0x34; 0x38; 0x33; 0x36; 0x34; 0x39; 0x78])
    [0x20; 0x2D; 0x32; 0x31; 0x34; 0x37; 0x34; 0x38; 0x33; 0x36; 0x34; 0x39; 0x78] 0 false (whole_buffer_views _)).
  - cbn. lia.
  - cbn. lia.
Defined.

(** "0xFFg" *)
Lemma __CFStringScanHex_clamps_witness :
  exists buf', __CFStringScanHex (whole_buffer [0x30; 0x78; 0x46; 0x46; 0x67]) 0 = Some (Some 255, buf', 4) /\
    views buf' [0x30; 0x78; 0x46; 0x46; 0x67].
Proof.
  apply (__CFStringScanHex_clamps (whole_buffer [0x30; 0x78; 0x46; 0x46; 0x67]) [0x30; 0x78; 0x46; 0x46; 0x67] 0 (whole_buffer_views _)).
  - cbn. lia.
  - cbn. lia.
Defined.

(** A single 0 is scanned as often as one likes: the index does not move. *)
Lemma hex_zero_not_consumed :
  snd <$> __CFStringScanHex (whole_buffer [0x30; 0x20; 0x31]) 0 = Some 0 /\
  snd <$> __CFStringScanHex (whole_buffer [0x30; 0x78; 0x67]) 0 = Some 1 /\
  snd <$> __CFStringScanInteger (whole_buffer [0x30; 0x20; 0x31]) 0 false = Some 1.
Proof. vm_compute. done. Qed.

(** A [strtod_l] that reads nothing but a digit. *)
Definition one_digit (block : list Z) : Z * Z :=
  match block with c :: _ => if __CFCharacterIsADigit c then (c - 0x30, 1) else (0, 0) | [] => (0, 0) end.

Lemma __CFStringScanDouble_gathers_witness :
  exists block rest buf', block = [0x37; 0x2E; 0x35; 0] ++ rest /\ views buf' [0x20; 0x37; 0x2E; 0x35; 0x20] /\
    __CFStringScanDouble one_digit 0 (whole_buffer [0x20; 0x37; 0x2E; 0x35; 0x20]) 0 =
      Some (if snd (one_digit block) =? 0 then (None, buf', 1) else (Some (fst (one_digit block)), buf', swrap 32 (1 + snd (one_digit block)))).
Proof.
  destruct (__CFStringScanDouble_gathers one_digit 0 (whole_buffer [0x20; 0x37; 0x2E; 0x35; 0x20]) [0x20; 0x37; 0x2E; 0x35; 0x20] 0 (whole_buffer_views _))
    as (block & rest & buf' & H1 & H2 & H3).
  - repeat constructor; lia.
  - cbn. lia.
  - cbn. lia.
  - exists block, rest, buf'. exact (conj H1 (conj H2 H3)).
Defined.
