(* ===== verification/CFUUID.v ===== *)
(** * CFUUID: universally unique identifiers

    CFUUID.c without garbage collection: the objects, the table that keeps one
    object for each value, and the text form.  The keys of the table are pointers
    to the bytes inside the objects, so a search reads the objects.  Reference
    counts are those of the runtime, without its limits.  On the platform of the
    build the system has no generator: [CFUUIDCreate] returns NULL. *)

From S2P Require Import Prelude CFInternal.
From stdpp Require Import base list numbers option gmap.
From Stdlib Require Import ZArith Lia.
Open Scope Z_scope.
Open Scope cf_scope.

(** ** Objects and the table *)

(** [CFUUIDBytes]: [byte0] to [byte15]. *)
Notation CFUUIDBytes := (list Z) (only parsing).

Record __CFUUID : Type := { _bytes : CFUUIDBytes; retain_count : Z }.

(** The objects by address, and [_uniquedUUIDs]: the entries of the dictionary,
    each the object whose bytes are the key, and the value. *)
Record uuid_state : Type := {
  uuids : gmap Z __CFUUID;
  _uniquedUUIDs : option (list (Z * Z))
}.

Fixpoint __CFisEqualUUIDBytes (p1 p2 : CFUUIDBytes) : bool :=
  match p1, p2 with
  | b1 :: p1, b2 :: p2 => (b1 =? b2) && __CFisEqualUUIDBytes p1 p2
  | [], [] => true
  | _, _ => false
  end.

(** The value of the key that equals [bytes]; 0 without one. *)
Fixpoint CFDictionaryGetValue_uuids (objects : gmap Z __CFUUID) (table : list (Z * Z)) (bytes : CFUUIDBytes) : option Z :=
  match table with
  | [] => Some 0
  | (key, value) :: table =>
      let* o := objects !! key in
      if __CFisEqualUUIDBytes (_bytes o) bytes then Some value else CFDictionaryGetValue_uuids objects table bytes
  end.

(** An entry with an equal key keeps its key and gets the value. *)
Fixpoint CFDictionarySetValue_uuids (objects : gmap Z __CFUUID) (table : list (Z * Z)) (bytes : CFUUIDBytes) (key value : Z)
    : option (list (Z * Z)) :=
  match table with
  | [] => Some [(key, value)]
  | (k, v) :: table =>
      let* o := objects !! k in
      if __CFisEqualUUIDBytes (_bytes o) bytes then Some ((k, value) :: table)
      else let* table := CFDictionarySetValue_uuids objects table bytes key value in Some ((k, v) :: table)
  end.

Fixpoint CFDictionaryRemoveValue_uuids (objects : gmap Z __CFUUID) (table : list (Z * Z)) (bytes : CFUUIDBytes) : option (list (Z * Z)) :=
  match table with
  | [] => Some []
  | (k, v) :: table =>
      let* o := objects !! k in
      if __CFisEqualUUIDBytes (_bytes o) bytes then Some table
      else let* table := CFDictionaryRemoveValue_uuids objects table bytes in Some ((k, v) :: table)
  end.

Definition __CFUUIDAddUniqueUUIDHasLock (s : uuid_state) (uuid : Z) : option uuid_state :=
  let table := default [] (_uniquedUUIDs s) in
  let* o := uuids s !! uuid in
  let* table := CFDictionarySetValue_uuids (uuids s) table (_bytes o) uuid uuid in
  Some {| uuids := uuids s; _uniquedUUIDs := Some table |}.

Definition __CFUUIDRemoveUniqueUUIDHasLock (s : uuid_state) (uuid : Z) : option uuid_state :=
  match _uniquedUUIDs s with
  | None => Some s
  | Some table =>
      let* o := uuids s !! uuid in
      let* table := CFDictionaryRemoveValue_uuids (uuids s) table (_bytes o) in
      Some {| uuids := uuids s; _uniquedUUIDs := Some table |}
  end.

Definition __CFUUIDGetUniquedUUIDHasLock (s : uuid_state) (bytes : CFUUIDBytes) : option Z :=
  match _uniquedUUIDs s with
  | None => Some 0
  | Some table => CFDictionaryGetValue_uuids (uuids s) table bytes
  end.

Definition __CFUUIDDeallocate (s : uuid_state) (uuid : Z) : option uuid_state := __CFUUIDRemoveUniqueUUIDHasLock s uuid.

(** *** Counting references *)

Definition CFRetain (s : uuid_state) (uuid : Z) : option uuid_state :=
  let* o := uuids s !! uuid in
  Some {| uuids := <[uuid := {| _bytes := _bytes o; retain_count := retain_count o + 1 |}]> (uuids s); _uniquedUUIDs := _uniquedUUIDs s |}.

(** The last release finalizes the object and frees it. *)
Definition CFRelease (s : uuid_state) (uuid : Z) : option uuid_state :=
  let* o := uuids s !! uuid in
  if retain_count o =? 1 then
    let* s := __CFUUIDDeallocate s uuid in
    Some {| uuids := delete uuid (uuids s); _uniquedUUIDs := _uniquedUUIDs s |}
  else
    Some {| uuids := <[uuid := {| _bytes := _bytes o; retain_count := retain_count o - 1 |}]> (uuids s); _uniquedUUIDs := _uniquedUUIDs s |}.

(** *** Creation: [new] is the address of a new object, 0 without memory. *)

Definition __CFUUIDCreateWithBytesPrimitive (new : Z) (s : uuid_state) (bytes : CFUUIDBytes) (isConst : bool) : option (Z * uuid_state) :=
  let* uuid := __CFUUIDGetUniquedUUIDHasLock s bytes in
  if uuid =? 0 then
    if new =? 0 then Some (0, s)
    else
      let s := {| uuids := <[new := {| _bytes := bytes; retain_count := 1 |}]> (uuids s); _uniquedUUIDs := _uniquedUUIDs s |} in
      let* s := __CFUUIDAddUniqueUUIDHasLock s new in
      Some (new, s)
  else if negb isConst then let* s := CFRetain s uuid in Some (uuid, s)
  else Some (uuid, s).

Definition CFUUIDCreate (new : Z) (s : uuid_state) : option (Z * uuid_state) := Some (0, s).

Definition CFUUIDCreateWithBytes (new : Z) (s : uuid_state) (bytes : CFUUIDBytes) := __CFUUIDCreateWithBytesPrimitive new s bytes false.
Definition CFUUIDGetConstantUUIDWithBytes (new : Z) (s : uuid_state) (bytes : CFUUIDBytes) := __CFUUIDCreateWithBytesPrimitive new s bytes true.
Definition CFUUIDCreateFromUUIDBytes (new : Z) (s : uuid_state) (bytes : CFUUIDBytes) := __CFUUIDCreateWithBytesPrimitive new s bytes false.

Definition CFUUIDGetUUIDBytes (s : uuid_state) (uuid : Z) : option CFUUIDBytes := _bytes <$> (uuids s !! uuid).

(** ** Text *)

(** [while (--digits >= 0)] *)
Fixpoint _intToHexChars (in_ : Z) (out : list Z) (at_ : Z) (digits : nat) : option (list Z) :=
  match digits with
  | O => Some out
  | S digits =>
      let shift := Z.shiftl (Z.of_nat digits) 2 in
      let d := Z.land 0x0F (Z.shiftr in_ shift) in
      let* out := wr out at_ (if d <=? 9 then 0x30 + d else 0x41 + (d - 10)) in
      _intToHexChars in_ out (at_ + 1) digits
  end.

(** The digit of a character. *)
Definition hex_digit (c : Z) : option Z :=
  if (0x30 <=? c) && (c <=? 0x39) then Some (c - 0x30)
  else if (0x61 <=? c) && (c <=? 0x66) then Some (c - (0x61 - 10))
  else if (0x41 <=? c) && (c <=? 0x46) then Some (c - (0x41 - 10))
  else None.

(** [for (i=0; i<2; i++)]; the result is 0 when a character is no digit. *)
Definition _byteFromHexChars (in_ : list Z) (at_ : Z) : option Z :=
  let* c0 := rd in_ at_ in
  match hex_digit c0 with
  | None => Some 0
  | Some d0 =>
      let result := uwrap 8 (Z.lor (Z.shiftl 0 4) d0) in
      let* c1 := rd in_ (at_ + 1) in
      match hex_digit c1 with
      | None => Some 0
      | Some d1 => Some (uwrap 8 (Z.lor (Z.shiftl result 4) d1))
      end
  end.

Definition _isHexChar (c : Z) : bool :=
  ((0x30 <=? c) && (c <=? 0x39)) || ((0x61 <=? c) && (c <=? 0x66)) || ((0x41 <=? c) && (c <=? 0x46)).

(** [READ_A_BYTE] into the byte [n]. *)
Definition READ_A_BYTE (chars : list Z) (len : Z) (st : CFUUIDBytes * Z) (n : Z) : option (CFUUIDBytes * Z) :=
  let '(bytes, i) := st in
  if i + 1 <? len then
    let* b := _byteFromHexChars chars i in
    let* bytes := wr bytes n b in Some (bytes, i + 2)
  else Some (bytes, i).

(** Several of them, from byte [n] on. *)
Fixpoint read_bytes (chars : list Z) (len : Z) (count : nat) (st : CFUUIDBytes * Z) (n : Z) : option (CFUUIDBytes * Z) :=
  match count with
  | O => Some st
  | S count => let* st := READ_A_BYTE chars len st n in read_bytes chars len count st (n + 1)
  end.

(** [while (!_isHexChar(chars[i]) && i < len) i++;] *)
Fixpoint skip_non_hex (fuel : nat) (chars : list Z) (len i : Z) : option Z :=
  match fuel with
  | O => None
  | S fuel =>
      let* c := rd chars i in
      if negb (_isHexChar c) && (i <? len) then skip_non_hex fuel chars len (i + 1) else Some i
  end.

(** The bytes of a text; [junk] is what [chars] holds.  [None] inside: the text is
    empty. *)
Definition bytes_from_string (junk text : list Z) : option (option CFUUIDBytes) :=
  let len := Z.of_nat (length text) in
  let len := if 100 <? len then 100 else len in
  if len =? 0 then Some None
  else
    let* chars := memmove junk 0 text 0 len in
    let* i := skip_non_hex 101 chars len 0 in
    let* (bytes, i) := read_bytes chars len 4 (replicate 16 0, i) 0 in
    let* (bytes, i) := read_bytes chars len 2 (bytes, i + 1) 4 in
    let* (bytes, i) := read_bytes chars len 2 (bytes, i + 1) 6 in
    let* (bytes, i) := read_bytes chars len 2 (bytes, i + 1) 8 in
    let* (bytes, i) := read_bytes chars len 6 (bytes, i + 1) 10 in
    Some (Some bytes).

(** [uuidStr] may be NULL. *)
Definition CFUUIDCreateFromString (new : Z) (s : uuid_state) (junk : list Z) (uuidStr : option (list Z)) : option (Z * uuid_state) :=
  match uuidStr with
  | None => Some (0, s)
  | Some text =>
      let* bytes := bytes_from_string junk text in
      match bytes with
      | None => Some (0, s)
      | Some bytes => __CFUUIDCreateWithBytesPrimitive new s bytes false
      end
  end.

(** The digits of [count] bytes from [n] on, into [buff] from [at_] on. *)
Fixpoint hex_bytes (bytes : CFUUIDBytes) (n : Z) (buff : list Z) (at_ : Z) (count : nat) : option (list Z) :=
  match count with
  | O => Some buff
  | S count =>
      let* b := rd bytes n in
      let* buff := _intToHexChars b buff at_ 2 in
      hex_bytes bytes (n + 1) buff (at_ + 2) count
  end.

(** A segment: its digits and the dash, appended to the string. *)
Definition append_segment (bytes : CFUUIDBytes) (str buff : list Z) (n : Z) (count : nat) : option (list Z * list Z) :=
  let* buff := hex_bytes bytes n buff 0 count in
  let* buff := wr buff (2 * Z.of_nat count) 0x2D in
  Some (str ++ take (2 * count + 1) buff, buff).

(** [junk] is what [buff] holds. *)
Definition CFUUIDCreateString (junk : list Z) (s : uuid_state) (uuid : Z) : option (list Z) :=
  let* o := uuids s !! uuid in
  let bytes := _bytes o in
  let* (str, buff) := append_segment bytes [] junk 0 4 in
  let* (str, buff) := append_segment bytes str buff 4 2 in
  let* (str, buff) := append_segment bytes str buff 6 2 in
  let* (str, buff) := append_segment bytes str buff 8 2 in
  let* buff := hex_bytes bytes 10 buff 0 6 in
  Some (str ++ take 12 buff).

(** ** The text form *)

Definition hex_char (d : Z) : Z := if d <=? 9 then 0x30 + d else 0x41 + (d - 10).

Definition hex_pair (b : Z) : list Z := [hex_char (Z.land 0x0F (Z.shiftr b 4)); hex_char (Z.land 0x0F (Z.shiftr b 0))].

(** The bytes in hexadecimal, in groups of 4, 2, 2, 2 and 6 with dashes
    between. *)
Definition uuid_text (bytes : CFUUIDBytes) : list Z :=
  flat_map hex_pair (take 4 bytes) ++ [0x2D] ++ flat_map hex_pair (take 2 (drop 4 bytes)) ++ [0x2D] ++
  flat_map hex_pair (take 2 (drop 6 bytes)) ++ [0x2D] ++ flat_map hex_pair (take 2 (drop 8 bytes)) ++ [0x2D] ++ flat_map hex_pair (drop 10 bytes).

Definition is_uuid (bytes : CFUUIDBytes) : Prop := length bytes = 16%nat /\ Forall (fun b => 0 <= b < 256) bytes.

Lemma CreateString_text junk s uuid bytes :
  CFUUIDGetUUIDBytes s uuid = Some bytes -> length junk = 12%nat -> length bytes = 16%nat -> CFUUIDCreateString junk s uuid = Some (uuid_text bytes).
Proof.
  unfold CFUUIDGetUUIDBytes, CFUUIDCreateString. destruct (uuids s !! uuid) as [o|]; [|done]. intros [= E] Hj Hb. cbn [opt_bind]. rewrite E. clear E.
  do 12 (destruct junk as [|? junk]; [done|]). destruct junk; [|done].
  do 16 (destruct bytes as [|? bytes]; [done|]). destruct bytes; [|done]. reflexivity.
Qed.

(** [spells cs bs]: the digits [cs], two for each, denote the bytes [bs]. *)
Inductive spells : list Z -> list Z -> Prop :=
| spells_nil : spells [] []
| spells_byte c0 c1 d0 d1 cs bs : hex_digit c0 = Some d0 -> hex_digit c1 = Some d1 -> spells cs bs -> spells (c0 :: c1 :: cs) (d0 * 16 + d1 :: bs).

Lemma hex_digit_char d : 0 <= d < 16 -> hex_digit (hex_char d) = Some d.
Proof.
  intros Hd. pose proof (forall_below (fun d => match hex_digit (hex_char d) with Some e => e =? d | None => false end) 16 ltac:(vm_compute; reflexivity) d Hd) as H.
  cbn beta in H. destruct (hex_digit (hex_char d)); [|done]. apply Z.eqb_eq in H. by subst.
Qed.

Lemma hex_digit_bounds c d : hex_digit c = Some d -> 0 <= d < 16.
Proof. unfold hex_digit. repeat case_match; intros; simplify_eq; lia. Qed.

Lemma hex_digit_is_hex c d : hex_digit c = Some d -> _isHexChar c = true.
Proof. unfold hex_digit, _isHexChar. repeat case_match; intros; simplify_eq; lia. Qed.

Lemma spells_pairs bs : Forall (fun b => 0 <= b < 256) bs -> spells (flat_map hex_pair bs) bs.
Proof.
  induction 1 as [|b bs Hb Hbs IH]; cbn [flat_map]; [constructor|]. cbn [hex_pair app].
  assert (b = Z.land 0x0F (Z.shiftr b 4) * 16 + Z.land 0x0F (Z.shiftr b 0)) as Heq.
  { rewrite !(Z.land_comm 0x0F). change 0x0F with (Z.ones 4). rewrite !Z.land_ones, Z.shiftr_0_r, Z.shiftr_div_pow2 by lia.
    change (2 ^ 4) with 16. Z.to_euclidean_division_equations. lia. }
  rewrite Heq at 3. constructor; [..|done]; apply hex_digit_char; rewrite (Z.land_comm 0x0F); change 0x0F with (Z.ones 4); rewrite Z.land_ones by lia;
    apply Z.mod_pos_bound; lia.
Qed.

Lemma spells_length cs bs : spells cs bs -> length cs = (2 * length bs)%nat.
Proof. induction 1; simpl; lia. Qed.

Lemma byteFromHexChars_spells pre c0 c1 rest d0 d1 : hex_digit c0 = Some d0 -> hex_digit c1 = Some d1 ->
  _byteFromHexChars (pre ++ c0 :: c1 :: rest) (Z.of_nat (length pre)) = Some (d0 * 16 + d1).
Proof.
  intros H0 H1. apply hex_digit_bounds in H0 as R0. apply hex_digit_bounds in H1 as R1. unfold _byteFromHexChars.
  rewrite rd_nat, lookup_app_r, Nat.sub_diag by lia. cbn [lookup list_lookup opt_bind]. rewrite H0.
  replace (Z.of_nat (length pre) + 1) with (Z.of_nat (length pre + 1)) by lia. rewrite rd_nat, lookup_app_r by lia.
  replace (length pre + 1 - length pre)%nat with 1%nat by lia. cbn [lookup list_lookup opt_bind]. rewrite H1. f_equal.
  rewrite Z.shiftl_0_l, Z.lor_0_l, (uwrap_id 8 d0) by (unfold in_unsigned; lia). 
  assert (Z.lor (Z.shiftl d0 4) d1 = d0 * 16 + d1) as ->.
  { pose proof (forall_below (fun k => Z.lor (Z.shiftl (k / 16) 4) (k mod 16) =? k) 256 ltac:(vm_compute; reflexivity) (d0 * 16 + d1) ltac:(lia)) as H.
    cbn beta in H. apply Z.eqb_eq in H. etransitivity; [|exact H]. do 2 f_equal; Z.to_euclidean_division_equations; lia. }
  apply uwrap_id. unfold in_unsigned. lia.
Qed.

(** Reading the digits of a group. *)
Lemma read_bytes_spells cs bs chars pre rest len bytes n :
  spells cs bs -> chars = pre ++ cs ++ rest -> Z.of_nat (length pre) + Z.of_nat (length cs) <= len -> (n + length bs <= length bytes)%nat ->
  read_bytes chars len (length bs) (bytes, Z.of_nat (length pre)) (Z.of_nat n) =
    Some (take n bytes ++ bs ++ drop (n + length bs) bytes, Z.of_nat (length pre) + Z.of_nat (length cs)).
Proof.
  intros Hs. revert pre bytes n. induction Hs as [|c0 c1 d0 d1 cs bs H0 H1 Hs IH]; intros pre bytes n Hc Hl Hn; cbn [length read_bytes].
  { cbn [app]. by rewrite Nat.add_0_r, take_drop, Z.add_0_r. }
  unfold READ_A_BYTE. cbn [length] in Hl, Hn. destruct (Z.ltb_spec (Z.of_nat (length pre) + 1) len); [|lia].
  assert (_byteFromHexChars chars (Z.of_nat (length pre)) = Some (d0 * 16 + d1)) as -> by (rewrite Hc; by apply byteFromHexChars_spells).
  cbn [opt_bind]. rewrite wr_nat by lia. cbn [opt_bind].
  replace (Z.of_nat (length pre) + 2) with (Z.of_nat (length (pre ++ [c0; c1]))) by (rewrite length_app; simpl; lia).
  replace (Z.of_nat n + 1) with (Z.of_nat (S n)) by lia.
  rewrite (IH (pre ++ [c0; c1]) (<[n:=d0 * 16 + d1]> bytes) (S n));
    [|by rewrite Hc, <- (assoc_L (++))|rewrite length_app; simpl; lia|rewrite length_insert; lia].
  do 2 f_equal; [|rewrite length_app; simpl; lia].
  rewrite (take_S_r _ n (d0 * 16 + d1)) by (apply list_lookup_insert_eq; lia). rewrite take_insert_ge, <- (assoc_L (++)) by lia. cbn [app].
  do 3 f_equal. rewrite drop_insert_lt by lia. f_equal. lia.
Qed.

Lemma skip_non_hex_prefix p chars len pre c rest fuel :
  chars = pre ++ p ++ c :: rest -> Forall (fun x => _isHexChar x = false) p -> _isHexChar c = true ->
  Z.of_nat (length pre) + Z.of_nat (length p) < len -> (length p < fuel)%nat ->
  skip_non_hex fuel chars len (Z.of_nat (length pre)) = Some (Z.of_nat (length pre) + Z.of_nat (length p)).
Proof.
  intros Hc Hp Hx. revert pre fuel Hc. induction Hp as [|x p Hxp Hp IH]; intros pre fuel Hc Hl Hf; (destruct fuel as [|fuel]; [simpl in Hf; lia|]);
    cbn [skip_non_hex app length] in *.
  { assert (rd chars (Z.of_nat (length pre)) = Some c) as -> by (by rewrite Hc, rd_nat, lookup_app_r, Nat.sub_diag by lia). cbn [opt_bind]. rewrite Hx. cbn. by rewrite Z.add_0_r. }
  assert (rd chars (Z.of_nat (length pre)) = Some x) as -> by (by rewrite Hc, rd_nat, lookup_app_r, Nat.sub_diag by lia). cbn [opt_bind].
  rewrite Hxp. destruct (Z.ltb_spec (Z.of_nat (length pre)) len); [|lia]. cbn [negb andb].
  replace (Z.of_nat (length pre) + 1) with (Z.of_nat (length (pre ++ [x]))) by (rewrite length_app; simpl; lia).
  rewrite (IH (pre ++ [x]) fuel); [f_equal; rewrite length_app; simpl; lia|by rewrite Hc, <- (assoc_L (++))|rewrite length_app; simpl; lia|lia].
Qed.

(** The digits of a UUID: groups of 4, 2, 2, 2 and 6 bytes with any character
    between two groups. *)
Definition spelled_uuid (text : list Z) (bytes : CFUUIDBytes) : Prop :=
  exists s0 s1 s2 s3 s4 b0 b1 b2 b3 b4 x0 x1 x2 x3,
    text = s0 ++ [x0] ++ s1 ++ [x1] ++ s2 ++ [x2] ++ s3 ++ [x3] ++ s4 /\ bytes = b0 ++ b1 ++ b2 ++ b3 ++ b4 /\
    spells s0 b0 /\ spells s1 b1 /\ spells s2 b2 /\ spells s3 b3 /\ spells s4 b4 /\
    length b0 = 4%nat /\ length b1 = 2%nat /\ length b2 = 2%nat /\ length b3 = 2%nat /\ length b4 = 6%nat.

Lemma uuid_text_spelled bytes : is_uuid bytes -> spelled_uuid (uuid_text bytes) bytes.
Proof.
  intros [Hl Hb]. do 16 (destruct bytes as [|? bytes]; [done|]). destruct bytes; [|done].
  unfold uuid_text. eexists _, _, _, _, _, [_; _; _; _], [_; _], [_; _], [_; _], [_; _; _; _; _; _], _, _, _, _.
  repeat (apply Forall_cons_1 in Hb as [? Hb]).
  split; [reflexivity|]. split; [reflexivity|]. split_and!; try done; apply spells_pairs; cbn [take drop]; repeat constructor; lia.
Qed.

Lemma spelled_uuid_length u bytes : spelled_uuid u bytes -> length u = 36%nat /\ length bytes = 16%nat.
Proof.
  intros (s0 & s1 & s2 & s3 & s4 & b0 & b1 & b2 & b3 & b4 & x0 & x1 & x2 & x3 & -> & -> & H0 & H1 & H2 & H3 & H4 & L0 & L1 & L2 & L3 & L4).
  apply spells_length in H0, H1, H2, H3, H4. rewrite !length_app. cbn [length]. lia.
Qed.

(** A group, behind the bytes [done]. *)
Lemma group_read cs bs chars pre rest len done k count n i :
  spells cs bs -> count = length bs -> n = Z.of_nat (length done) -> i = Z.of_nat (length pre) -> chars = pre ++ cs ++ rest ->
  i + Z.of_nat (length cs) <= len ->
  read_bytes chars len count (done ++ replicate (count + k) 0, i) n = Some ((done ++ bs) ++ replicate k 0, i + Z.of_nat (length cs)).
Proof.
  intros Hs -> -> -> Hc Hl. rewrite (read_bytes_spells cs bs chars pre rest len _ (length done) Hs Hc Hl) by (rewrite length_app, length_replicate; lia).
  rewrite take_app_length, <- drop_drop, drop_app_length, drop_replicate. do 2 f_equal. rewrite <- (assoc_L (++)). do 3 f_equal. lia.
Qed.

(** The groups, one after the other, from where the digits begin. *)
Lemma groups_read chars len p u bytes rest : spelled_uuid u bytes -> chars = p ++ u ++ rest -> Z.of_nat (length p) + 36 <= len ->
  (let* (bytes, i) := read_bytes chars len 4 (replicate 16 0, Z.of_nat (length p)) 0 in
   let* (bytes, i) := read_bytes chars len 2 (bytes, i + 1) 4 in
   let* (bytes, i) := read_bytes chars len 2 (bytes, i + 1) 6 in
   let* (bytes, i) := read_bytes chars len 2 (bytes, i + 1) 8 in
   let* (bytes, i) := read_bytes chars len 6 (bytes, i + 1) 10 in
   Some (Some bytes)) = Some (Some bytes).
Proof.
  intros (s0 & s1 & s2 & s3 & s4 & b0 & b1 & b2 & b3 & b4 & x0 & x1 & x2 & x3 & -> & -> & H0 & H1 & H2 & H3 & H4 & L0 & L1 & L2 & L3 & L4) Hc Hl.
  pose proof (spells_length _ _ H0) as M0. pose proof (spells_length _ _ H1) as M1. pose proof (spells_length _ _ H2) as M2.
  pose proof (spells_length _ _ H3) as M3. pose proof (spells_length _ _ H4) as M4.
  set (p1 := p ++ s0 ++ [x0]). set (p2 := p1 ++ s1 ++ [x1]). set (p3 := p2 ++ s2 ++ [x2]). set (p4 := p3 ++ s3 ++ [x3]).
  assert (chars = p ++ s0 ++ ([x0] ++ s1 ++ [x1] ++ s2 ++ [x2] ++ s3 ++ [x3] ++ s4 ++ rest)) as C0 by (by rewrite Hc, <- !(assoc_L (++))).
  assert (chars = p1 ++ s1 ++ ([x1] ++ s2 ++ [x2] ++ s3 ++ [x3] ++ s4 ++ rest)) as C1 by (unfold p1; by rewrite C0, <- !(assoc_L (++))).
  assert (chars = p2 ++ s2 ++ ([x2] ++ s3 ++ [x3] ++ s4 ++ rest)) as C2 by (unfold p2; by rewrite C1, <- !(assoc_L (++))).
  assert (chars = p3 ++ s3 ++ ([x3] ++ s4 ++ rest)) as C3 by (unfold p3; by rewrite C2, <- !(assoc_L (++))).
  assert (chars = p4 ++ s4 ++ rest) as C4 by (unfold p4; by rewrite C3, <- !(assoc_L (++))).
  assert (length p1 = length p + 9 /\ length p2 = length p1 + 5 /\ length p3 = length p2 + 5 /\ length p4 = length p3 + 5)%nat as (P1 & P2 & P3 & P4)
    by (unfold p4, p3, p2, p1; rewrite !length_app; cbn [length]; lia).
  assert (read_bytes chars len 4 (replicate 16 0, Z.of_nat (length p)) 0 = Some (b0 ++ replicate 12 0, Z.of_nat (length p) + Z.of_nat (length s0))) as ->
    by (eapply (group_read s0 b0 chars p _ len [] 12); [done|done|done|done|exact C0|lia]).
  cbn [opt_bind]. replace (Z.of_nat (length p) + Z.of_nat (length s0) + 1) with (Z.of_nat (length p1)) by lia.
  assert (read_bytes chars len 2 (b0 ++ replicate 12 0, Z.of_nat (length p1)) 4 =
    Some ((b0 ++ b1) ++ replicate 10 0, Z.of_nat (length p1) + Z.of_nat (length s1))) as ->
    by (eapply (group_read s1 b1 chars p1 _ len b0 10); [done|done|lia|done|exact C1|lia]).
  cbn [opt_bind]. replace (Z.of_nat (length p1) + Z.of_nat (length s1) + 1) with (Z.of_nat (length p2)) by lia.
  assert (read_bytes chars len 2 ((b0 ++ b1) ++ replicate 10 0, Z.of_nat (length p2)) 6 =
    Some (((b0 ++ b1) ++ b2) ++ replicate 8 0, Z.of_nat (length p2) + Z.of_nat (length s2))) as ->
    by (eapply (group_read s2 b2 chars p2 _ len (b0 ++ b1) 8); [done|done|rewrite length_app; lia|done|exact C2|lia]).
  cbn [opt_bind]. replace (Z.of_nat (length p2) + Z.of_nat (length s2) + 1) with (Z.of_nat (length p3)) by lia.
  assert (read_bytes chars len 2 (((b0 ++ b1) ++ b2) ++ replicate 8 0, Z.of_nat (length p3)) 8 =
    Some ((((b0 ++ b1) ++ b2) ++ b3) ++ replicate 6 0, Z.of_nat (length p3) + Z.of_nat (length s3))) as ->
    by (eapply (group_read s3 b3 chars p3 _ len ((b0 ++ b1) ++ b2) 6); [done|done|rewrite !length_app; lia|done|exact C3|lia]).
  cbn [opt_bind]. replace (Z.of_nat (length p3) + Z.of_nat (length s3) + 1) with (Z.of_nat (length p4)) by lia.
  assert (read_bytes chars len 6 ((((b0 ++ b1) ++ b2) ++ b3) ++ replicate 6 0, Z.of_nat (length p4)) 10 =
    Some (((((b0 ++ b1) ++ b2) ++ b3) ++ b4) ++ replicate 0 0, Z.of_nat (length p4) + Z.of_nat (length s4))) as ->
    by (eapply (group_read s4 b4 chars p4 _ len (((b0 ++ b1) ++ b2) ++ b3) 0); [done|done|rewrite !length_app; lia|done|exact C4|lia]).
  cbn [opt_bind]. by rewrite app_nil_r, <- !(assoc_L (++)).
Qed.

Lemma bytes_from_string_spelled junk p u rest bytes :
  spelled_uuid u bytes -> Forall (fun x => _isHexChar x = false) p -> (length p + 36 <= 100)%nat -> length junk = 100%nat ->
  bytes_from_string junk (p ++ u ++ rest) = Some (Some bytes).
Proof.
  intros Hu Hp Hl Hj. destruct (spelled_uuid_length u bytes Hu) as [Hu36 _]. unfold bytes_from_string.
  set (text := p ++ u ++ rest). set (len := if 100 <? Z.of_nat (length text) then 100 else Z.of_nat (length text)).
  assert (Z.of_nat (length p) + 36 <= len <= 100 /\ len <= Z.of_nat (length text)) as [Hlen Hlt].
  { unfold len, text. rewrite !length_app. destruct (Z.ltb_spec 100 (Z.of_nat (length p + (length u + length rest)))); lia. }
  destruct (Z.eqb_spec len 0); [lia|]. rewrite memmove_ok by lia. cbn [opt_bind]. change (Z.to_nat 0) with O. rewrite drop_0, take_0. cbn [app].
  set (chars := take (Z.to_nat len) text ++ _).
  assert (exists tail, chars = p ++ u ++ tail) as [tail Hc].
  { unfold chars, text. rewrite take_app_ge, take_app_ge by lia. rewrite <- !(assoc_L (++)). by eexists. }
  pose proof Hu as (s0 & s1 & s2 & s3 & s4 & b0 & b1 & b2 & b3 & b4 & x0 & x1 & x2 & x3 & Eu & Eb & H0 & _ & _ & _ & _ & L0 & _).
  assert (exists c r, u = c :: r /\ _isHexChar c = true) as (c & r & Ecr & Hcx).
  { destruct H0 as [|c0 c1 d0 d1 cs bs E0 E1 H0]; [done|]. rewrite Eu. cbn [app]. eauto using hex_digit_is_hex. }
  assert (skip_non_hex 101 chars len 0 = Some (Z.of_nat (length p))) as ->
    by (apply (skip_non_hex_prefix p chars len [] c (r ++ tail) 101); [by rewrite Hc, Ecr|done|done|simpl; lia|lia]).
  cbn [opt_bind]. apply (groups_read chars len p u bytes tail); [done|done|lia].
Qed.

(** ** One object for each value *)

Lemma isEqualUUIDBytes_spec p1 p2 : __CFisEqualUUIDBytes p1 p2 = true <-> p1 = p2.
Proof.
  revert p2. induction p1 as [|b1 p1 IH]; intros [|b2 p2]; cbn; try done. rewrite andb_true_iff, Z.eqb_eq, IH. split; [by intros [-> ->]|by intros [= -> ->]].
Qed.

(** The table holds each object once, and no two objects have the same bytes. *)
Record uuids_ok (s : uuid_state) : Prop := {
  table_values k v : (k, v) ∈ default [] (_uniquedUUIDs s) -> v = k;
  table_keys k : k ∈ (default [] (_uniquedUUIDs s)).*1 <-> is_Some (uuids s !! k);
  table_nodup : NoDup (default [] (_uniquedUUIDs s)).*1;
  no_null : uuids s !! 0 = None;
  one_object u u' o o' : uuids s !! u = Some o -> uuids s !! u' = Some o' -> _bytes o = _bytes o' -> u = u'
}.

Definition holds_bytes (objects : gmap Z __CFUUID) (u : Z) (bytes : list Z) : Prop := exists o, objects !! u = Some o /\ _bytes o = bytes.

Lemma uuid_get_value_spec objects table bytes :
  (forall k v, (k, v) ∈ table -> v = k) -> (forall k, k ∈ table.*1 -> is_Some (objects !! k)) ->
  exists u, CFDictionaryGetValue_uuids objects table bytes = Some u /\
    ((u = 0 /\ forall k, k ∈ table.*1 -> ~ holds_bytes objects k bytes) \/ (u ∈ table.*1 /\ holds_bytes objects u bytes)).
Proof.
  intros Hv Hk. induction table as [|[k v] table IH]; cbn [CFDictionaryGetValue_uuids].
  { exists 0. split; [done|]. left. split; [done|]. intros k Hin. by apply elem_of_nil in Hin. }
  assert (v = k) as -> by (apply Hv; by left). destruct (Hk k) as [o Ho]; [by left|]. rewrite Ho. cbn [opt_bind].
  destruct (__CFisEqualUUIDBytes (_bytes o) bytes) eqn:E.
  { apply isEqualUUIDBytes_spec in E. exists k. split; [done|]. right. split; [by left|by exists o]. }
  destruct IH as (u & -> & Hu); [intros; apply Hv; by right|intros; apply Hk; by right|]. exists u. split; [done|].
  destruct Hu as [[-> Hno]|[Hin Hb]]; [left|right; split; [by right|done]]. split; [done|].
  intros k' [->|Hin]%elem_of_cons; [|by apply Hno]. intros (o' & Ho' & Hb). cbn in Ho'. rewrite Ho in Ho'. injection Ho' as <-.
  apply isEqualUUIDBytes_spec in Hb. congruence.
Qed.

Lemma set_value_new objects table bytes key value :
  (forall k, k ∈ table.*1 -> is_Some (objects !! k) /\ ~ holds_bytes objects k bytes) ->
  CFDictionarySetValue_uuids objects table bytes key value = Some (table ++ [(key, value)]).
Proof.
  intros Hk. induction table as [|[k v] table IH]; cbn [CFDictionarySetValue_uuids app]; [done|].
  destruct (Hk k) as [[o Ho] Hn]; [by left|]. rewrite Ho. cbn [opt_bind]. destruct (__CFisEqualUUIDBytes (_bytes o) bytes) eqn:E.
  { apply isEqualUUIDBytes_spec in E. destruct Hn. by exists o. }
  rewrite IH; [done|]. intros k' Hin. apply Hk. by right.
Qed.

Lemma uuid_remove_value_spec objects table u bytes :
  (forall k, k ∈ table.*1 -> is_Some (objects !! k)) -> u ∈ table.*1 -> holds_bytes objects u bytes -> NoDup table.*1 ->
  (forall k, k ∈ table.*1 -> holds_bytes objects k bytes -> k = u) ->
  exists t1 v t2, table = t1 ++ (u, v) :: t2 /\ CFDictionaryRemoveValue_uuids objects table bytes = Some (t1 ++ t2).
Proof.
  intros Hk Hu Hb Hd H1. induction table as [|[k v] table IH]; cbn [CFDictionaryRemoveValue_uuids]; [by apply elem_of_nil in Hu|].
  destruct (Hk k) as [o Ho]; [by left|]. rewrite Ho. cbn [opt_bind]. destruct (__CFisEqualUUIDBytes (_bytes o) bytes) eqn:E.
  { apply isEqualUUIDBytes_spec in E. assert (k = u) as -> by (apply H1; [by left|by exists o]). by exists [], v, table. }
  assert (k <> u). { intros ->. destruct Hb as (o' & Ho' & Hb). rewrite Ho in Ho'. injection Ho' as <-. apply isEqualUUIDBytes_spec in Hb. congruence. }
  cbn [fmap list_fmap fst] in Hu, Hd. apply NoDup_cons in Hd as [_ Hd]. apply elem_of_cons in Hu as [?|Hu]; [done|].
  destruct IH as (t1 & v' & t2 & -> & ->); [intros; apply Hk; by right|done|done|intros; apply H1; [by right|done]|]. by exists ((k, v) :: t1), v', t2.
Qed.

(** What a search finds. *)
Lemma uniqued_spec s bytes : uuids_ok s -> exists u, __CFUUIDGetUniquedUUIDHasLock s bytes = Some u /\
  ((u = 0 /\ forall k, ~ holds_bytes (uuids s) k bytes) \/ (u <> 0 /\ holds_bytes (uuids s) u bytes)).
Proof.
  intros Hok. unfold __CFUUIDGetUniquedUUIDHasLock. pose proof (table_keys s Hok) as Hk. pose proof (table_values s Hok) as Hv.
  destruct (_uniquedUUIDs s) as [table|]; cbn [default] in *.
  - destruct (uuid_get_value_spec (uuids s) table bytes Hv (fun k => proj1 (Hk k))) as (u & -> & Hu). exists u. split; [done|].
    destruct Hu as [[-> Hno]|[Hin Hb]]; [left|right].
    + split; [done|]. intros k (o & Ho & Hb). apply (Hno k); [by apply Hk; exists o|by exists o].
    + split; [|done]. intros ->. apply Hk in Hin as [? Hin]. by rewrite (no_null s Hok) in Hin.
  - exists 0. split; [done|]. left. split; [done|]. intros k (o & Ho & _).
    assert (is_Some (uuids s !! k)) as Hin by (by exists o). apply Hk in Hin. by apply elem_of_nil in Hin.
Qed.

(** A new count of an object changes nothing else. *)
Definition set_count (s : uuid_state) (u : Z) (o : __CFUUID) (n : Z) : uuid_state :=
  {| uuids := <[u := {| _bytes := _bytes o; retain_count := n |}]> (uuids s); _uniquedUUIDs := _uniquedUUIDs s |}.

Lemma set_count_bytes s u o n k o' : uuids s !! u = Some o -> uuids (set_count s u o n) !! k = Some o' ->
  exists o'', uuids s !! k = Some o'' /\ _bytes o'' = _bytes o'.
Proof. intros Hu. cbn. rewrite lookup_insert_Some. intros [[<- <-]|[_ ?]]; [by exists o|by exists o']. Qed.

Lemma set_count_ok s u o n : uuids_ok s -> uuids s !! u = Some o -> uuids_ok (set_count s u o n).
Proof.
  intros Hok Hu. split.
  - apply (table_values s Hok).
  - intros k. cbn. rewrite (table_keys s Hok), lookup_insert_is_Some. split; [|intros [<-|[_ ?]]; [by exists o|done]].
    intros Hk. destruct (decide (u = k)); auto.
  - apply (table_nodup s Hok).
  - cbn. rewrite lookup_insert_ne; [apply (no_null s Hok)|]. intros ->. by rewrite (no_null s Hok) in Hu.
  - intros k k' ok ok' Hk Hk' Hb. destruct (set_count_bytes s u o n k ok Hu Hk) as (p & Hp & Ep). destruct (set_count_bytes s u o n k' ok' Hu Hk') as (p' & Hp' & Ep').
    apply (one_object s Hok k k' p p' Hp Hp'). congruence.
Qed.

(** A new object with bytes that no other has. *)
Lemma add_unique_ok s new bytes : uuids_ok s -> uuids s !! new = None -> new <> 0 -> (forall k, ~ holds_bytes (uuids s) k bytes) ->
  let s1 := {| uuids := <[new := {| _bytes := bytes; retain_count := 1 |}]> (uuids s); _uniquedUUIDs := _uniquedUUIDs s |} in
  exists table, __CFUUIDAddUniqueUUIDHasLock s1 new = Some {| uuids := uuids s1; _uniquedUUIDs := Some table |} /\
    uuids_ok {| uuids := uuids s1; _uniquedUUIDs := Some table |}.
Proof.
  intros Hok Hfresh Hn0 Hno s1. set (table := default [] (_uniquedUUIDs s)).
  assert (forall k, k ∈ table.*1 -> k <> new /\ is_Some (uuids s !! k)) as Hkeys.
  { intros k Hk. apply (table_keys s Hok) in Hk. split; [|done]. intros ->. destruct Hk as [? Hk]. congruence. }
  exists (table ++ [(new, new)]). split.
  - unfold __CFUUIDAddUniqueUUIDHasLock. cbn. rewrite lookup_insert_eq. cbn [opt_bind _bytes]. fold table.
    rewrite set_value_new; [done|]. intros k Hk. destruct (Hkeys k Hk) as [Hkn Hsome]. split; [by rewrite lookup_insert_ne|].
    intros (o & Ho & Hb). rewrite lookup_insert_ne in Ho by done. apply (Hno k). by exists o.
  - split; cbn.
    + intros k v. rewrite elem_of_app, list_elem_of_singleton. intros [Hin|[= <- <-]]; [by apply (table_values s Hok)|done].
    + intros k. rewrite fmap_app, elem_of_app, lookup_insert_is_Some. cbn [fmap list_fmap fst]. rewrite list_elem_of_singleton. unfold table.
      rewrite (table_keys s Hok). split; [intros [Hk|<-]; [destruct (decide (new = k)); auto|by left]|intros [<-|[_ ?]]; auto].
    + rewrite fmap_app. apply NoDup_app. split; [apply (table_nodup s Hok)|]. split; [|apply NoDup_singleton].
      intros k Hk Hin. cbn in Hin. apply list_elem_of_singleton in Hin. by destruct (Hkeys k Hk).
    + rewrite lookup_insert_ne by done. apply (no_null s Hok).
    + intros k k' o o'. rewrite !lookup_insert_Some. intros [[<- <-]|[Hk Ho]] [[<- <-]|[Hk' Ho']] Hb; cbn in Hb; [done|..].
      * destruct (Hno k'). by exists o'.
      * destruct (Hno k). by exists o.
      * by apply (one_object s Hok k k' o o').
Qed.

(** What creation does. *)
Lemma uuid_create_spec new s bytes isConst : uuids_ok s -> uuids s !! new = None ->
  exists u s', __CFUUIDCreateWithBytesPrimitive new s bytes isConst = Some (u, s') /\ uuids_ok s' /\
    ((exists o, u <> 0 /\ uuids s !! u = Some o /\ _bytes o = bytes /\ s' = if isConst then s else set_count s u o (retain_count o + 1)) \/
     ((forall k, ~ holds_bytes (uuids s) k bytes) /\ u = new /\
      if new =? 0 then s' = s else uuids s' = <[new := {| _bytes := bytes; retain_count := 1 |}]> (uuids s))).
Proof.
  intros Hok Hfresh. unfold __CFUUIDCreateWithBytesPrimitive. destruct (uniqued_spec s bytes Hok) as (u & -> & Hu). cbn [opt_bind].
  destruct Hu as [[-> Hno]|[Hu0 (o & Ho & Hb)]].
  - rewrite Z.eqb_refl. destruct (Z.eqb_spec new 0) as [->|Hn0]; [exists 0, s; split; [done|]; split; [done|]; by right|].
    destruct (add_unique_ok s new bytes Hok Hfresh Hn0 Hno) as (table & -> & Hok'). cbn [opt_bind].
    eexists _, _. split; [done|]. split; [done|]. right. by destruct (Z.eqb_spec new 0).
  - destruct (Z.eqb_spec u 0); [done|]. destruct isConst; cbn [negb].
    + exists u, s. split; [done|]. split; [done|]. left. by exists o.
    + unfold CFRetain. rewrite Ho. cbn [opt_bind]. eexists _, _. split; [done|]. split; [by apply (set_count_ok s u o)|]. left. by exists o.
Qed.

(** What a release does. *)
Lemma release_spec s u o : uuids_ok s -> uuids s !! u = Some o ->
  exists s', CFRelease s u = Some s' /\ uuids_ok s' /\
    if retain_count o =? 1 then uuids s' = delete u (uuids s) else s' = set_count s u o (retain_count o - 1).
Proof.
  intros Hok Ho. unfold CFRelease. rewrite Ho. cbn [opt_bind]. destruct (Z.eqb_spec (retain_count o) 1) as [H1|H1].
  2: { eexists. split; [done|]. split; [by apply (set_count_ok s u o)|done]. }
  unfold __CFUUIDDeallocate, __CFUUIDRemoveUniqueUUIDHasLock.
  pose proof (table_keys s Hok) as Hk. pose proof (table_values s Hok) as Hv. pose proof (table_nodup s Hok) as Hd.
  assert (u ∈ (default [] (_uniquedUUIDs s)).*1) as Hin by (apply Hk; by exists o).
  destruct (_uniquedUUIDs s) as [table|]; [|by apply elem_of_nil in Hin]. change (default [] (Some table)) with table in *.
  rewrite Ho. cbn [opt_bind].
  destruct (uuid_remove_value_spec (uuids s) table u (_bytes o) (fun k => proj1 (Hk k)) Hin ltac:(by exists o) Hd) as (t1 & v & t2 & -> & ->).
  { intros k _ (o' & Ho' & Hb). by apply (one_object s Hok k u o' o). }
  cbn [opt_bind uuids _uniquedUUIDs]. eexists. split; [done|]. split; [|done].
  rewrite fmap_app in Hd, Hk. cbn [fmap list_fmap fst] in Hd, Hk. apply NoDup_app in Hd as (Hd1 & Hd12 & [Hu2 Hd2]%NoDup_cons).
  split; cbn [uuids _uniquedUUIDs]; change (default [] (Some (t1 ++ t2))) with (t1 ++ t2).
  - intros k w Hkw. apply Hv. rewrite elem_of_app in *. destruct Hkw; [by left|right; by right].
  - intros k. rewrite fmap_app, elem_of_app, lookup_delete_is_Some, <- Hk, elem_of_app, elem_of_cons. split.
    + intros [Hk1|Hk2]; [split; [|by left]|split; [|by right; right]]; intros ->; [apply (Hd12 k Hk1); by left|done].
    + intros [Hne [?|[->|?]]]; [by left|done|by right].
  - rewrite fmap_app. apply NoDup_app. split; [done|]. split; [|done]. intros k Hk1 Hk2. apply (Hd12 k Hk1). by right.
  - rewrite lookup_delete_None. right. apply (no_null s Hok).
  - intros k k' ok ok' [_ Hk1]%lookup_delete_Some [_ Hk2]%lookup_delete_Some. by apply (one_object s Hok).
Qed.

(** *** Programs that own what they use

    [owned] are the references that have been created or retained and not yet
    released. *)

Inductive uuid_reached : uuid_state -> list Z -> Prop :=
| uuid_start : uuid_reached {| uuids := ∅; _uniquedUUIDs := None |} []
| uuid_create new s owned bytes u s' :
    uuid_reached s owned -> uuids s !! new = None -> CFUUIDCreateWithBytes new s bytes = Some (u, s') ->
    uuid_reached s' (if u =? 0 then owned else u :: owned)
| uuid_from_string new s owned junk text u s' :
    uuid_reached s owned -> uuids s !! new = None -> CFUUIDCreateFromString new s junk text = Some (u, s') ->
    uuid_reached s' (if u =? 0 then owned else u :: owned)
| uuid_retain s owned u s' : uuid_reached s owned -> u ∈ owned -> CFRetain s u = Some s' -> uuid_reached s' (u :: owned)
| uuid_release s owned1 u owned2 s' :
    uuid_reached s (owned1 ++ u :: owned2) -> CFRelease s u = Some s' -> uuid_reached s' (owned1 ++ owned2).

Definition counted (objects : gmap Z __CFUUID) (owned : list Z) : Prop :=
  forall u, match objects !! u with
            | Some o => retain_count o = Z.of_nat (count_occ Z.eq_dec owned u) /\ 1 <= retain_count o
            | None => count_occ Z.eq_dec owned u = 0%nat
            end.

Lemma counted_insert objects owned u o o' :
  counted objects owned -> objects !! u = o -> retain_count o' = (match o with Some o => retain_count o | None => 0 end) + 1 ->
  counted (<[u := o']> objects) (u :: owned).
Proof.
  intros Hc Ho Hn k. specialize (Hc k). destruct (decide (u = k)) as [->|Hne].
  - rewrite lookup_insert_eq, count_occ_cons_eq by done. rewrite Ho in Hc. destruct o; lia.
  - rewrite lookup_insert_ne, count_occ_cons_neq by done. done.
Qed.

Lemma count_occ_middle (l1 l2 : list Z) u k :
  count_occ Z.eq_dec (l1 ++ u :: l2) k = (count_occ Z.eq_dec (l1 ++ l2) k + (if decide (u = k) then 1 else 0))%nat.
Proof. rewrite !count_occ_app. cbn [count_occ]. destruct (Z.eq_dec u k), (decide (u = k)); try done; lia. Qed.

Lemma counted_create new s owned bytes u s' : uuids_ok s -> counted (uuids s) owned -> uuids s !! new = None ->
  CFUUIDCreateWithBytes new s bytes = Some (u, s') -> uuids_ok s' /\ counted (uuids s') (if u =? 0 then owned else u :: owned).
Proof.
  intros Hok Hc Hfresh E. destruct (uuid_create_spec new s bytes false Hok Hfresh) as (u1 & s1 & E1 & Hok1 & Hcases).
  unfold CFUUIDCreateWithBytes in E. rewrite E1 in E. injection E as -> ->. split; [done|].
  destruct Hcases as [(o & Hu0 & Ho & Hb & ->)|(Hno & -> & Hs')].
  - destruct (Z.eqb_spec u 0); [done|]. by apply (counted_insert (uuids s) owned u (Some o)).
  - destruct (new =? 0); [by subst|]. rewrite Hs'. by apply (counted_insert (uuids s) owned new None).
Qed.

Lemma from_string_creates new s junk text u s' : CFUUIDCreateFromString new s junk text = Some (u, s') ->
  (u = 0 /\ s' = s) \/ exists bytes, CFUUIDCreateWithBytes new s bytes = Some (u, s').
Proof.
  unfold CFUUIDCreateFromString. destruct text as [text|]; [|intros [= <- <-]; by left].
  destruct (bytes_from_string junk text) as [[bytes|]|]; cbn [opt_bind]; [|intros [= <- <-]; by left|done]. intros E. right. by exists bytes.
Qed.

Lemma uuid_reached_ok s owned : uuid_reached s owned -> uuids_ok s /\ counted (uuids s) owned.
Proof.
  induction 1 as [|new s owned bytes u s' _ [Hok Hc] Hfresh E|new s owned junk text u s' _ [Hok Hc] Hfresh E|s owned u s' _ [Hok Hc] Hin E|s owned1 u owned2 s' _ [Hok Hc] E].
  - split; [split; cbn [uuids _uniquedUUIDs]; change (default [] (@None (list (Z * Z)))) with (@nil (Z * Z))|intros u; reflexivity].
    + intros k v Hin. by apply elem_of_nil in Hin.
    + intros k. cbn [fmap list_fmap]. split; [by intros Hin%elem_of_nil|by intros [? ?]].
    + constructor.
    + reflexivity.
    + intros k k' o o' Hk. done.
  - by apply (counted_create new s owned bytes).
  - apply from_string_creates in E as [[-> ->]|[bytes E]]; [done|]. by apply (counted_create new s owned bytes).
  - unfold CFRetain in E. destruct (uuids s !! u) as [o|] eqn:Ho; [|done]. injection E as <-.
    split; [by apply (set_count_ok s u o)|]. by apply (counted_insert (uuids s) owned u (Some o)).
  - pose proof (Hc u) as Hu. destruct (uuids s !! u) as [o|] eqn:Ho; [|by unfold CFRelease in E; rewrite Ho in E].
    destruct (release_spec s u o Hok Ho) as (s1 & E1 & Hok1 & Hs1). rewrite E1 in E. injection E as ->. split; [done|].
    rewrite count_occ_middle in Hu. rewrite decide_True in Hu by done. intros k. specialize (Hc k). rewrite count_occ_middle in Hc.
    destruct (Z.eqb_spec (retain_count o) 1).
    + rewrite Hs1. destruct (decide (u = k)) as [->|Hne]; [rewrite lookup_delete_eq; lia|]. rewrite lookup_delete_ne by done. by rewrite Nat.add_0_r in Hc.
    + subst s'. cbn. destruct (decide (u = k)) as [->|Hne]; [rewrite lookup_insert_eq; cbn; lia|]. rewrite lookup_insert_ne by done. by rewrite Nat.add_0_r in Hc.
Qed.

(** C17: in a program that creates UUIDs from bytes or text, retains and releases
    them as it owns them, no two objects have the same bytes: creating one again
    gives the object that exists, with one reference more, so that equal UUIDs
    are equal pointers.  An object exists exactly as long as a reference to it is
    owned, its count is the number of these references, and no operation on an
    owned object touches memory that was freed. *)
Theorem CFUUID_one_object_per_value s owned : uuid_reached s owned ->
  (forall u, u ∈ owned <-> is_Some (CFUUIDGetUUIDBytes s u)) /\
  (forall u o, uuids s !! u = Some o -> retain_count o = Z.of_nat (count_occ Z.eq_dec owned u)) /\
  (forall u u' bytes, CFUUIDGetUUIDBytes s u = Some bytes -> CFUUIDGetUUIDBytes s u' = Some bytes -> u = u') /\
  (forall new bytes, uuids s !! new = None ->
     exists u s', CFUUIDCreateWithBytes new s bytes = Some (u, s') /\ (u <> 0 -> CFUUIDGetUUIDBytes s' u = Some bytes) /\
       (forall k, CFUUIDGetUUIDBytes s k = Some bytes -> u = k) /\
       ((forall k, CFUUIDGetUUIDBytes s k <> Some bytes) -> u = new)) /\
  (forall u, u ∈ owned -> is_Some (CFRetain s u) /\ is_Some (CFRelease s u)).
Proof.
  intros Hr. destruct (uuid_reached_ok s owned Hr) as [Hok Hc]. unfold CFUUIDGetUUIDBytes.
  assert (forall u, u ∈ owned <-> is_Some (uuids s !! u)) as Hlive.
  { intros u. specialize (Hc u). rewrite <- elem_of_list_In || rewrite list_elem_of_In. rewrite (count_occ_In Z.eq_dec).
    destruct (uuids s !! u); [split; [by eexists|lia]|split; [lia|by intros [? ?]]]. }
  split_and!.
  - intros u. rewrite Hlive, fmap_is_Some. done.
  - intros u o Ho. specialize (Hc u). rewrite Ho in Hc. tauto.
  - intros u u' bytes (o & Ho & Hb)%fmap_Some (o' & Ho' & Hb')%fmap_Some. apply (one_object s Hok u u' o o' Ho Ho'). congruence.
  - intros new bytes Hfresh. destruct (uuid_create_spec new s bytes false Hok Hfresh) as (u & s' & E & _ & Hcases). exists u, s'. split; [done|].
    destruct Hcases as [(o & Hu0 & Ho & Hb & ->)|(Hno & -> & Hs')].
    + split; [intros _; cbn; by rewrite lookup_insert_eq; cbn; rewrite Hb|]. split.
      * intros k (o' & Ho' & Hb')%fmap_Some. apply (one_object s Hok u k o o' Ho Ho'). congruence.
      * intros Hnone. destruct (Hnone u). rewrite Ho. cbn. by rewrite Hb.
    + split; [intros Hn0; destruct (Z.eqb_spec new 0); [done|]; by rewrite Hs', lookup_insert_eq|]. split; [|done].
      intros k (o' & Ho' & Hb')%fmap_Some. destruct (Hno k). by exists o'.
  - intros u Hu. apply Hlive in Hu as [o Ho]. split; [unfold CFRetain; rewrite Ho; by eexists|].
    destruct (release_spec s u o Hok Ho) as (s' & -> & _). by eexists.
Qed.

(** *** A program that creates a UUID twice and gives one reference back. *)

Definition demo_bytes : CFUUIDBytes := [0xC2; 0x44; 0x58; 0x54; 0xD8; 0x45; 0x48; 0xCF; 0x93; 0x21; 0x9F; 0x6E; 0x10; 0x60; 0x61; 0x12].

Definition demo_uuids : uuid_state :=
  {| uuids := {[ 16 := {| _bytes := demo_bytes; retain_count := 1 |} ]}; _uniquedUUIDs := Some [(16, 16)] |}.

Definition demo_uuids_twice : uuid_state :=
  {| uuids := {[ 16 := {| _bytes := demo_bytes; retain_count := 2 |} ]}; _uniquedUUIDs := Some [(16, 16)] |}.

Lemma demo_uuids_reached : uuid_reached demo_uuids [16].
Proof.
  apply (uuid_release demo_uuids_twice [] 16 [16]); [|reflexivity].
  apply (uuid_create 32 demo_uuids [16] demo_bytes 16 demo_uuids_twice); [|reflexivity..].
  apply (uuid_create 16 {| uuids := ∅; _uniquedUUIDs := None |} [] demo_bytes 16 demo_uuids); [|reflexivity..]. constructor.
Qed.

Lemma CFUUID_one_object_per_value_witness :
  uuid_reached demo_uuids [16] /\ exists s', CFUUIDCreateWithBytes 32 demo_uuids demo_bytes = Some (16, s').
Proof.
  split; [exact demo_uuids_reached|].
  destruct (CFUUID_one_object_per_value demo_uuids [16] demo_uuids_reached) as (_ & _ & _ & H & _).
  destruct (H 32 demo_bytes eq_refl) as (u & s' & E & _ & Hk & _). rewrite (Hk 16 eq_refl) in E. by exists s'.
Defined.

(** C18: the text of a UUID is 36 characters and reads back as the same UUID: the
    bytes in capital hexadecimal with four dashes, from which
    [CFUUIDCreateFromString] returns the existing object with one more reference,
    without reading or writing past its buffers.  It accepts more than that text:
    capital or small digits, any character in place of a dash, up to 64 characters
    before the first digit as long as none of them is a digit, and anything
    behind. *)
Theorem CFUUIDCreateString_round_trip s owned u bytes new junk junk' :
  uuid_reached s owned -> CFUUIDGetUUIDBytes s u = Some bytes -> is_uuid bytes -> uuids s !! new = None ->
  length junk = 12%nat -> length junk' = 100%nat ->
  exists text s', CFUUIDCreateString junk s u = Some text /\ length text = 36%nat /\ spelled_uuid text bytes /\
    CFUUIDCreateFromString new s junk' (Some text) = Some (u, s') /\ CFRetain s u = Some s' /\
    (forall p t rest, Forall (fun c => _isHexChar c = false) p -> (length p <= 64)%nat -> spelled_uuid t bytes ->
       CFUUIDCreateFromString new s junk' (Some (p ++ t ++ rest)) = Some (u, s')).
Proof.
  intros Hr Hu Hb Hfresh Hj Hj'. destruct (uuid_reached_ok s owned Hr) as [Hok _].
  pose proof (uuid_text_spelled bytes Hb) as Hs. destruct (spelled_uuid_length _ _ Hs) as [H36 _].
  assert (exists s', __CFUUIDCreateWithBytesPrimitive new s bytes false = Some (u, s') /\ CFRetain s u = Some s') as (s' & Hc & Hret).
  { destruct (uuid_create_spec new s bytes false Hok Hfresh) as (k & s' & E & _ & Hcases). apply fmap_Some in Hu as (o & Ho & Eb).
    destruct Hcases as [(o' & Hk0 & Ho' & Hb' & ->)|(Hno & _)]; [|destruct (Hno u); by exists o].
    assert (k = u) as -> by (apply (one_object s Hok k u o' o Ho' Ho); congruence).
    eexists. split; [exact E|]. unfold CFRetain. by rewrite Ho'. }
  assert (forall p t rest, Forall (fun c => _isHexChar c = false) p -> (length p <= 64)%nat -> spelled_uuid t bytes ->
    CFUUIDCreateFromString new s junk' (Some (p ++ t ++ rest)) = Some (u, s')) as Hp.
  { intros p t rest Hp Hl Ht. unfold CFUUIDCreateFromString. rewrite (bytes_from_string_spelled junk' p t rest bytes) by (done || lia). exact Hc. }
  exists (uuid_text bytes), s'. split_and!; try done; [apply CreateString_text; [done..|apply Hb]|].
  pose proof (Hp [] (uuid_text bytes) [] ltac:(constructor) ltac:(simpl; lia) Hs) as H. by rewrite app_nil_r in H.
Qed.

Lemma CFUUIDCreateString_round_trip_witness :
  uuid_reached demo_uuids [16] /\ CFUUIDGetUUIDBytes demo_uuids 16 = Some demo_bytes /\ is_uuid demo_bytes /\
  exists text, CFUUIDCreateString (replicate 12 7) demo_uuids 16 = Some text /\
    CFUUIDCreateFromString 32 demo_uuids (replicate 100 7) (Some text) = Some (16, demo_uuids_twice).
Proof.
  split; [exact demo_uuids_reached|]. split; [reflexivity|].
  assert (is_uuid demo_bytes) as Hb by (split; [reflexivity|unfold demo_bytes; repeat (apply Forall_cons; split; [lia|]); apply Forall_nil; exact I]). split; [exact Hb|].
  destruct (CFUUIDCreateString_round_trip demo_uuids [16] 16 demo_bytes 32 (replicate 12 7) (replicate 100 7)
    demo_uuids_reached eq_refl Hb eq_refl eq_refl eq_refl) as (text & s' & E & _ & _ & E' & Hret & _).
  exists text. split; [exact E|]. rewrite E'. do 2 f_equal. cbv in Hret. injection Hret as <-. reflexivity.
Defined.

(** *** Where the code does not keep its contract *)

(** The constant UUID of a value that exists already is that object, without a
    reference of its own: when its last owner releases it, it is freed. *)
Lemma constant_uuid_freed :
  CFUUIDGetConstantUUIDWithBytes 32 demo_uuids demo_bytes = Some (16, demo_uuids) /\
  exists s', CFRelease demo_uuids 16 = Some s' /\ CFUUIDGetUUIDBytes s' 16 = None.
Proof. split; [reflexivity|]. eexists. split; reflexivity. Qed.

(** A text of 100 or more characters without a digit among the first hundred: the
    loop reads the character behind the buffer before it compares the index. *)
Lemma digitless_text_overread junk text :
  length junk = 100%nat -> text = replicate 100 0x2D -> bytes_from_string junk text = None.
Proof. intros Hj ->. do 100 (destruct junk as [|? junk]; [done|]). destruct junk; [|done]. vm_compute. reflexivity. Qed.

(** A text without digits denotes the UUID of zeros. *)
Lemma digitless_text_is_zero :
  bytes_from_string (replicate 100 0) [0x78; 0x79; 0x7A] = Some (Some (replicate 16 0)).
Proof. reflexivity. Qed.
