(* ===== verification/CFBinaryPList.v ===== *)
(** * CFBinaryPList: binary property lists

    The writer and the reader of CFBinaryPList.c.  The writer walks a graph of
    objects in memory and appends to a data object through a buffer; the reader
    takes a block of bytes at an address and returns the property list, with every
    pointer computed in 64 bits and every byte read from the block ([None] outside
    it).  The reader is modelled without key paths, as its callers in this file
    use it.  Strings convert to and from ASCII through a class. *)

From S2P Require Import Prelude CFInternal CFEightBit.
From stdpp Require Import base list numbers option gmap.
From Stdlib Require Import ZArith Lia.
Open Scope Z_scope.
Open Scope cf_scope.

(** ** Values *)

(** What a CFNumber stores: an integer of up to 64 bits, one of 128 bits as two
    words, or the bits of a floating-point number. *)
Inductive CFNumber : Type :=
| SInt64 (v : Z)
| SInt128 (high low : Z)
| Float32 (bits : Z)
| Float64 (bits : Z).

Definition BITSFORDOUBLENAN : Z := 0x7ff8000000000000.
Definition BITSFORDOUBLEPOSINF : Z := 0x7ff0000000000000.
Definition BITSFORDOUBLENEGINF : Z := 0xfff0000000000000.

(** [CFNumberCreate] with the bits of a [Float32] or a [Float64]: NaN and the
    infinities are constant objects of type [Float64]. *)
Definition CFNumberCreate_Float32 (bits : Z) : CFNumber :=
  let exponent := Z.land (Z.shiftr bits 23) 0xff in
  let mantissa := Z.land bits 0x7fffff in
  if exponent =? 0xff then
    if negb (mantissa =? 0) then Float64 BITSFORDOUBLENAN
    else if Z.testbit bits 31 then Float64 BITSFORDOUBLENEGINF else Float64 BITSFORDOUBLEPOSINF
  else Float32 bits.

Definition CFNumberCreate_Float64 (bits : Z) : CFNumber :=
  let exponent := Z.land (Z.shiftr bits 52) 0x7ff in
  let mantissa := Z.land bits 0xfffffffffffff in
  if exponent =? 0x7ff then
    if negb (mantissa =? 0) then Float64 BITSFORDOUBLENAN
    else if Z.testbit bits 63 then Float64 BITSFORDOUBLENEGINF else Float64 BITSFORDOUBLEPOSINF
  else Float64 bits.

(** The objects of a graph; a dictionary in the order in which it lists its keys
    and values.  [OOther] is an object of a type that has no place in a property
    list. *)
Inductive plist_object : Type :=
| OString (chars : list Z)
| ONumber (num : CFNumber)
| OBoolean (b : bool)
| OData (bytes : list Z)
| ODate (bits : Z)
| ODictionary (entries : list (Z * Z))
| OArray (values : list Z)
| OUID (value : Z)
| OOther.

(** A property list as the reader returns it; of a dictionary, the keys and the
    values it was created from. *)
Inductive plist : Type :=
| PNull
| PBoolean (b : bool)
| PNumber (num : CFNumber)
| PDate (bits : Z)
| PData (bytes : list Z)
| PString (chars : list Z)
| PUID (value : Z)
| PArray (values : list plist)
| PSet (values : list plist)
| PDictionary (keys values : list plist).

(** What CFString does for property lists: how many characters of a string it can
    store as ASCII, with the bytes, and the string of ASCII bytes. *)
Class ASCIIStrings : Type := {
  CFStringGetBytes : list Z -> Z * list Z;
  CFStringCreateWithBytes : list Z -> option (list Z)
}.

Definition is_ascii (c : Z) : Prop := 0 <= c < 128.

Class ASCIIStringsLaws `{!ASCIIStrings} : Prop := {
  get_bytes_ascii chars : Forall is_ascii chars -> CFStringGetBytes chars = (Z.of_nat (length chars), chars);
  get_bytes_other chars : ~ Forall is_ascii chars -> fst (CFStringGetBytes chars) <> Z.of_nat (length chars);
  create_ascii bytes : Forall is_ascii bytes -> CFStringCreateWithBytes bytes = Some bytes
}.

(** ** Checked arithmetic *)

Definition ULLONG_MAX : Z := 2 ^ 64 - 1.
Definition LONG_MAX : Z := 2 ^ 63 - 1.

Definition __check_uint64_add_unsigned_unsigned (x y : Z) (err : bool) : Z * bool :=
  (uwrap 64 (x + y), err || (ULLONG_MAX - y <? x)).

Definition __check_uint64_mul_unsigned_unsigned (x y : Z) (err : bool) : Z * bool :=
  if x =? 0 then (0, err) else (uwrap 64 (x * y), err || (ULLONG_MAX / x <? y)).

Definition check_ptr_add (p a : Z) (err : bool) : Z * bool :=
  __check_uint64_add_unsigned_unsigned (uwrap 64 p) (uwrap 64 a) err.

Definition check_size_t_mul (b a : Z) (err : bool) : Z * bool :=
  __check_uint64_mul_unsigned_unsigned (uwrap 64 b) (uwrap 64 a) err.

(** ** Bytes *)

(** The [n] bytes of an integer in big-endian order. *)
Fixpoint bigEndian (n : nat) (v : Z) : list Z :=
  match n with
  | O => []
  | S n => uwrap 8 (Z.shiftr v (8 * Z.of_nat n)) :: bigEndian n v
  end.

(** [length] bytes from [at_] on. *)
Definition byte_block (bytes : list Z) (at_ length : Z) : option (list Z) :=
  if (0 <=? at_) && (0 <=? length) && (at_ + length <=? Z.of_nat (List.length bytes))
  then Some (take (Z.to_nat length) (drop (Z.to_nat at_) bytes)) else None.

Definition kCFBinaryPlistMarkerNull : Z := 0x00.
Definition kCFBinaryPlistMarkerFalse : Z := 0x08.
Definition kCFBinaryPlistMarkerTrue : Z := 0x09.
Definition kCFBinaryPlistMarkerInt : Z := 0x10.
Definition kCFBinaryPlistMarkerReal : Z := 0x20.
Definition kCFBinaryPlistMarkerDate : Z := 0x33.
Definition kCFBinaryPlistMarkerData : Z := 0x40.
Definition kCFBinaryPlistMarkerASCIIString : Z := 0x50.
Definition kCFBinaryPlistMarkerUnicode16String : Z := 0x60.
Definition kCFBinaryPlistMarkerUID : Z := 0x80.
Definition kCFBinaryPlistMarkerArray : Z := 0xA0.
Definition kCFBinaryPlistMarkerSet : Z := 0xC0.
Definition kCFBinaryPlistMarkerDict : Z := 0xD0.

(** [_unused] and [_sortVersion] are always 0 in what is written and are not
    looked at when reading. *)
Record CFBinaryPlistTrailer : Type := {
  _offsetIntSize : Z;
  _objectRefSize : Z;
  _numObjects : Z;
  _topObject : Z;
  _offsetTableOffset : Z
}.

Definition sizeof_trailer : Z := 32.

(** ** The write buffer *)

(** [stream] is the contents of the data object, [databytes] the block written
    to as well, each if there is one; [error] tells whether an error has been
    made. *)
Record __CFBinaryPlistWriteBuffer : Type := {
  stream : option (list Z);
  databytes : option (list Z);
  datalen : Z;
  error : bool;
  written : Z;
  used : Z;
  streamIsData : bool;
  buffer : list Z
}.

Definition sizeof_buffer : Z := 8192 - 32.

Definition set_used (buf : __CFBinaryPlistWriteBuffer) (n : Z) : __CFBinaryPlistWriteBuffer :=
  {| stream := stream buf; databytes := databytes buf; datalen := datalen buf; error := error buf; written := written buf;
     used := swrap 32 n; streamIsData := streamIsData buf; buffer := buffer buf |}.

Definition set_buffer (buf : __CFBinaryPlistWriteBuffer) (b : list Z) : __CFBinaryPlistWriteBuffer :=
  {| stream := stream buf; databytes := databytes buf; datalen := datalen buf; error := error buf; written := written buf;
     used := used buf; streamIsData := streamIsData buf; buffer := b |}.

(** Whether [databytes] has no room for [length] more bytes. *)
Definition databytes_full (buf : __CFBinaryPlistWriteBuffer) (length : Z) : bool :=
  match databytes buf with
  | None => false
  | Some _ =>
      let '(tmpSum, err) := __check_uint64_add_unsigned_unsigned (written buf) (uwrap 64 length) false in
      err || (datalen buf <? tmpSum)
  end.

(** The bytes are those of [bytes] from [at_] on. *)
Definition writeBytes (buf : __CFBinaryPlistWriteBuffer) (bytes : list Z) (at_ length : Z) : option __CFBinaryPlistWriteBuffer :=
  if length <=? 0 then Some buf
  else if error buf then Some buf
  else if databytes_full buf length then
    Some {| stream := stream buf; databytes := databytes buf; datalen := datalen buf; error := true; written := written buf;
            used := used buf; streamIsData := streamIsData buf; buffer := buffer buf |}
  else
    let* databytes' := (match databytes buf with
                        | None => Some None
                        | Some d => let* d := memmove d (written buf) bytes at_ length in Some (Some d)
                        end) in
    if streamIsData buf then
      let* stream' := (match stream buf with
                       | None => Some None
                       | Some s => let* b := byte_block bytes at_ length in Some (Some (s ++ b))
                       end) in
      Some {| stream := stream'; databytes := databytes'; datalen := datalen buf; error := error buf;
              written := uwrap 64 (written buf + length); used := used buf; streamIsData := streamIsData buf; buffer := buffer buf |}
    else
      Some {| stream := stream buf; databytes := databytes'; datalen := datalen buf; error := error buf; written := written buf;
              used := used buf; streamIsData := streamIsData buf; buffer := buffer buf |}.

Definition bufferFlush (buf : __CFBinaryPlistWriteBuffer) : option __CFBinaryPlistWriteBuffer :=
  let* buf := writeBytes buf (buffer buf) 0 (used buf) in Some (set_used buf 0).

(** One byte of the unrolled copy. *)
Definition copy_byte (dst : list Z) (u : Z) (src : list Z) (at_ k : Z) : option (list Z) :=
  let* b := rd src (at_ + k) in wr dst (u + k) b.

(** [switch (copyLen)] *)
Definition copy_bytes (dst : list Z) (u : Z) (src : list Z) (at_ copyLen : Z) : option (list Z) :=
  if copyLen =? 4 then
    let* dst := copy_byte dst u src at_ 3 in let* dst := copy_byte dst u src at_ 2 in
    let* dst := copy_byte dst u src at_ 1 in copy_byte dst u src at_ 0
  else if copyLen =? 3 then
    let* dst := copy_byte dst u src at_ 2 in let* dst := copy_byte dst u src at_ 1 in copy_byte dst u src at_ 0
  else if copyLen =? 2 then
    let* dst := copy_byte dst u src at_ 1 in copy_byte dst u src at_ 0
  else if copyLen =? 1 then copy_byte dst u src at_ 0
  else memmove dst u src at_ copyLen.

Definition has_target (buf : __CFBinaryPlistWriteBuffer) : bool :=
  match stream buf, databytes buf with None, None => false | _, _ => true end.

Definition bufferWrite (buf : __CFBinaryPlistWriteBuffer) (src : list Z) (at_ count : Z) : option __CFBinaryPlistWriteBuffer :=
  if 0 =? count then Some buf
  else if sizeof_buffer <=? count then
    let* buf := bufferFlush buf in writeBytes buf src at_ count
  else
    let copyLen := Z.min count (sizeof_buffer - used buf) in
    let* b := (if has_target buf then copy_bytes (buffer buf) (used buf) src at_ copyLen else Some (buffer buf)) in
    let buf := set_used (set_buffer buf b) (used buf + copyLen) in
    if sizeof_buffer =? used buf then
      let* buf := writeBytes buf (buffer buf) 0 sizeof_buffer in
      let* b := (if has_target buf then memmove (buffer buf) 0 src (at_ + copyLen) (count - copyLen) else Some (buffer buf)) in
      Some (set_used (set_buffer buf b) (count - copyLen))
    else Some buf.

(** ** Appending objects *)

(** How many bytes the integer takes. *)
Definition int_bytes (bigint : Z) : Z :=
  if bigint <=? 0xff then 1 else if bigint <=? 0xffff then 2 else if bigint <=? 0xffffffff then 4 else 8.

(** The marker: 2^n bytes. *)
Definition int_marker (bigint : Z) : Z :=
  Z.lor kCFBinaryPlistMarkerInt (if bigint <=? 0xff then 0 else if bigint <=? 0xffff then 1 else if bigint <=? 0xffffffff then 2 else 3).

Definition _appendInt (buf : __CFBinaryPlistWriteBuffer) (bigint : Z) : option __CFBinaryPlistWriteBuffer :=
  let* buf := bufferWrite buf [int_marker bigint] 0 1 in
  bufferWrite buf (bigEndian 8 bigint) (8 - int_bytes bigint) (int_bytes bigint).

Definition _appendUID (buf : __CFBinaryPlistWriteBuffer) (value : Z) : option __CFBinaryPlistWriteBuffer :=
  let nbytes := int_bytes value in
  let* buf := bufferWrite buf [Z.lor kCFBinaryPlistMarkerUID (uwrap 8 (nbytes - 1))] 0 1 in
  bufferWrite buf (bigEndian 8 value) (8 - nbytes) nbytes.

(** A marker with a count, which follows as an integer from 15 on. *)
Definition append_count (buf : __CFBinaryPlistWriteBuffer) (marker count : Z) : option __CFBinaryPlistWriteBuffer :=
  let* buf := bufferWrite buf [uwrap 8 (Z.lor marker (if count <? 15 then count else 0xf))] 0 1 in
  if 15 <=? count then _appendInt buf (uwrap 64 count) else Some buf.

Definition _appendNumber (buf : __CFBinaryPlistWriteBuffer) (num : CFNumber) : option __CFBinaryPlistWriteBuffer :=
  match num with
  | Float32 bits =>
      let* buf := bufferWrite buf [Z.lor kCFBinaryPlistMarkerReal 2] 0 1 in bufferWrite buf (bigEndian 4 bits) 0 4
  | Float64 bits =>
      let* buf := bufferWrite buf [Z.lor kCFBinaryPlistMarkerReal 3] 0 1 in bufferWrite buf (bigEndian 8 bits) 0 8
  | SInt128 high low =>
      let* buf := bufferWrite buf [Z.lor kCFBinaryPlistMarkerInt 4] 0 1 in bufferWrite buf (bigEndian 8 high ++ bigEndian 8 low) 0 16
  | SInt64 v => _appendInt buf (uwrap 64 v)
  end.

Section Strings.
Context `{!ASCIIStrings}.

Definition _appendString (buf : __CFBinaryPlistWriteBuffer) (str : list Z) : option __CFBinaryPlistWriteBuffer :=
  let count := Z.of_nat (length str) in
  let '(ret, bytes) := CFStringGetBytes str in
  if ret =? count then
    let needed := Z.of_nat (length bytes) in
    let* buf := append_count buf kCFBinaryPlistMarkerASCIIString needed in bufferWrite buf bytes 0 needed
  else
    let* buf := append_count buf kCFBinaryPlistMarkerUnicode16String count in
    bufferWrite buf (flat_map (bigEndian 2) str) 0 (count * 2).

(** The reference to an object: the last bytes of its number. *)
Definition append_ref (objtable : gmap Z Z) (objRefSize : Z) (buf : __CFBinaryPlistWriteBuffer) (value : Z) : option __CFBinaryPlistWriteBuffer :=
  let refnum := uwrap 32 (default 0 (objtable !! value)) in
  bufferWrite buf (bigEndian 4 refnum) (4 - objRefSize) objRefSize.

Fixpoint append_refs (objtable : gmap Z Z) (objRefSize : Z) (buf : __CFBinaryPlistWriteBuffer) (list : list Z) : option __CFBinaryPlistWriteBuffer :=
  match list with
  | [] => Some buf
  | value :: list => let* buf := append_ref objtable objRefSize buf value in append_refs objtable objRefSize buf list
  end.

(** [None] inside: the object has no place in a property list.  There always is a
    table. *)
Definition _appendObject (buf : __CFBinaryPlistWriteBuffer) (obj : plist_object) (objtable : gmap Z Z) (objRefSize : Z)
    : option (option __CFBinaryPlistWriteBuffer) :=
  match obj with
  | OString str => Some <$> _appendString buf str
  | ONumber num => Some <$> _appendNumber buf num
  | OBoolean b => Some <$> bufferWrite buf [if b then kCFBinaryPlistMarkerTrue else kCFBinaryPlistMarkerFalse] 0 1
  | OData bytes =>
      let count := Z.of_nat (length bytes) in
      let* buf := append_count buf kCFBinaryPlistMarkerData count in
      Some <$> bufferWrite buf bytes 0 count
  | ODate bits =>
      let* buf := bufferWrite buf [kCFBinaryPlistMarkerDate] 0 1 in
      Some <$> bufferWrite buf (bigEndian 8 bits) 0 8
  | ODictionary entries =>
      let* buf := append_count buf kCFBinaryPlistMarkerDict (Z.of_nat (length entries)) in
      Some <$> append_refs objtable objRefSize buf (entries.*1 ++ entries.*2)
  | OArray values =>
      let* buf := append_count buf kCFBinaryPlistMarkerArray (Z.of_nat (length values)) in
      Some <$> append_refs objtable objRefSize buf values
  | OUID value => Some <$> _appendUID buf value
  | OOther => Some None
  end.

(** ** Flattening the graph *)

(** [objlist] is the objects in the order in which they are written, [objtable]
    their numbers, [uniquingset] the leaves that are in the list.  The
    collections compare pointers. *)
Record flattened : Type := { objlist : list Z; objtable : gmap Z Z; uniquingset : gset Z }.

(** Strings, numbers, dates and data. *)
Definition is_uniqued (obj : plist_object) : bool :=
  match obj with OString _ | ONumber _ | ODate _ | OData _ => true | _ => false end.

(** [CFDictionaryAddValue]: nothing changes when the key is there. *)
Definition table_add (table : gmap Z Z) (key value : Z) : gmap Z Z :=
  match table !! key with Some _ => table | None => <[key := value]> table end.

Definition children (obj : plist_object) : list Z :=
  match obj with
  | ODictionary entries => entries.*1 ++ entries.*2
  | OArray values => values
  | _ => []
  end.

Fixpoint flatten_all (flatten : Z -> flattened -> option flattened) (list : list Z) (s : flattened) : option flattened :=
  match list with
  | [] => Some s
  | p :: list => let* s := flatten p s in flatten_all flatten list s
  end.

(** [fuel] is the depth of the recursion. *)
Fixpoint _flattenPlist (fuel : nat) (objects : gmap Z plist_object) (plist : Z) (s : flattened) : option flattened :=
  match fuel with
  | O => None
  | S fuel =>
      let* obj := objects !! plist in
      let before := size (uniquingset s) in
      let s := if is_uniqued obj then {| objlist := objlist s; objtable := objtable s; uniquingset := {[plist]} ∪ uniquingset s |} else s in
      let after := size (uniquingset s) in
      if is_uniqued obj && (after =? before)%nat then
        let unique := if decide (plist ∈ uniquingset s) then plist else 0 in
        if negb (unique =? plist) then
          let refnum := uwrap 32 (default 0 (objtable s !! unique)) in
          Some {| objlist := objlist s; objtable := table_add (objtable s) plist refnum; uniquingset := uniquingset s |}
        else Some s
      else
        let refnum := uwrap 32 (Z.of_nat (length (objlist s))) in
        let s := {| objlist := objlist s ++ [plist]; objtable := table_add (objtable s) plist refnum; uniquingset := uniquingset s |} in
        flatten_all (_flattenPlist fuel objects) (children obj) s
  end.

(** ** The file *)

(** [while (count & mask)]; [size] has grown to 8 when no bits are left. *)
Fixpoint byte_count_loop (fuel : nat) (count mask size : Z) : option Z :=
  if negb (Z.land count mask =? 0) then
    match fuel with O => None | S fuel => byte_count_loop fuel count (uwrap 64 (Z.shiftl mask 8)) (size + 1) end
  else Some size.

(** [while ((size != 1 && .. && size != 8) && size <= 8)] *)
Fixpoint byte_count_round (fuel : nat) (size : Z) : option Z :=
  if (negb (size =? 1) && negb (size =? 2) && negb (size =? 4) && negb (size =? 8)) && (size <=? 8) then
    match fuel with O => None | S fuel => byte_count_round fuel (size + 1) end
  else Some size.

Definition _byteCount (count : Z) : option Z :=
  let* size := byte_count_loop 8 count (2 ^ 64 - 1) 0 in byte_count_round 8 size.

(** [for (idx = 0; idx < cnt; idx++)]: the objects and their offsets; false when
    one of them has no place in a property list. *)
Fixpoint append_objects (objects : gmap Z plist_object) (table : gmap Z Z) (objRefSize : Z) (objs : list Z)
    (buf : __CFBinaryPlistWriteBuffer) (offsets : list Z) : option (bool * __CFBinaryPlistWriteBuffer * list Z) :=
  match objs with
  | [] => Some (true, buf, offsets)
  | p :: objs =>
      let offset := uwrap 64 (written buf + used buf) in
      let* obj := objects !! p in
      let* r := _appendObject buf obj table objRefSize in
      match r with
      | None => Some (false, buf, offsets)
      | Some buf => append_objects objects table objRefSize objs buf (offsets ++ [offset])
      end
  end.

Fixpoint append_offsets (offsetIntSize : Z) (offsets : list Z) (buf : __CFBinaryPlistWriteBuffer) : option __CFBinaryPlistWriteBuffer :=
  match offsets with
  | [] => Some buf
  | o :: offsets =>
      let* buf := bufferWrite buf (bigEndian 8 o) (8 - offsetIntSize) offsetIntSize in append_offsets offsetIntSize offsets buf
  end.

(** The trailer as it lies in memory, its integers swapped. *)
Definition trailer_bytes (t : CFBinaryPlistTrailer) : list Z :=
  [0; 0; 0; 0; 0; 0; _offsetIntSize t; _objectRefSize t] ++
  bigEndian 8 (_numObjects t) ++ bigEndian 8 (_topObject t) ++ bigEndian 8 (_offsetTableOffset t).

Definition bplist00 : list Z := [0x62; 0x70; 0x6C; 0x69; 0x73; 0x74; 0x30; 0x30].

(** [junk] is what the buffer holds, [isData] whether the stream is a data object.
    The result with the contents of the stream and whether an error was made. *)
Definition __CFBinaryPlistWrite (fuel : nat) (objects : gmap Z plist_object) (junk : list Z) (plist : Z) (contents : list Z) (isData : bool)
    : option (Z * list Z * bool) :=
  let* s := _flattenPlist fuel objects plist {| objlist := []; objtable := ∅; uniquingset := ∅ |} in
  let cnt := Z.of_nat (length (objlist s)) in
  let buf := {| stream := Some contents; databytes := None; datalen := 0; error := false; written := 0; used := 0;
                streamIsData := isData; buffer := junk |} in
  let* buf := bufferWrite buf bplist00 0 8 in
  let* objectRefSize := _byteCount cnt in
  let* (success, buf, offsets) := append_objects objects (objtable s) objectRefSize (objlist s) buf [] in
  if negb success then Some (0, default [] (stream buf), error buf)
  else
    let length_so_far := uwrap 64 (written buf + used buf) in
    let* offsetIntSize := _byteCount length_so_far in
    let trailer := {| _offsetIntSize := offsetIntSize; _objectRefSize := objectRefSize; _numObjects := cnt; _topObject := 0;
                      _offsetTableOffset := length_so_far |} in
    let* buf := append_offsets offsetIntSize offsets buf in
    let length_so_far := uwrap 64 (length_so_far + cnt * offsetIntSize) in
    let* buf := bufferWrite buf (trailer_bytes trailer) 0 sizeof_trailer in
    let* buf := bufferFlush buf in
    let length_so_far := uwrap 64 (length_so_far + sizeof_trailer) in
    if error buf then Some (0, default [] (stream buf), true)
    else Some (swrap 64 length_so_far, default [] (stream buf), false).

Definition __CFBinaryPlistWriteToStream (fuel : nat) (objects : gmap Z plist_object) (junk : list Z) (plist : Z) (contents : list Z) (isData : bool) :=
  __CFBinaryPlistWrite fuel objects junk plist contents isData.

(** ** Reading *)

(** [FAIL_FALSE] is [Some None]. *)
Definition try_bind {A B} (m : option (option A)) (k : A -> option (option B)) : option (option B) :=
  match m with
  | None => None
  | Some None => Some None
  | Some (Some x) => k x
  end.

Notation "'try*' x := m 'in' k" := (try_bind m (fun x => k))
  (at level 10, x pattern, m at level 100, k at level 200) : cf_scope.

Notation "'guard*' b 'in' k" := (if (b : bool) then k else Some None)
  (at level 10, b at level 100, k at level 200) : cf_scope.

Definition UINT64_MAX : Z := 2 ^ 64 - 1.
Definition UINT32_MAX : Z := 2 ^ 32 - 1.

Definition from_big (bytes : list Z) : Z := fold_left (fun res b => Z.shiftl res 8 + b) bytes 0.

Definition kCFPropertyListImmutable : Z := 0.
Definition kCFPropertyListMutableContainers : Z := 1.
Definition kCFPropertyListMutableContainersAndLeaves : Z := 2.

(** The objects that have been read, by their offsets, and the offsets of the
    collections that are being read; each if there is one. *)
Notation object_cache := (option (gmap Z plist)) (only parsing).
Notation offset_path := (option (gset Z)) (only parsing).

Definition _plistIsPrimitive (pl : plist) : bool :=
  match pl with PDictionary _ _ | PArray _ | PSet _ => false | _ => true end.

(** Two bytes for each character. *)
Fixpoint unichars (bytes : list Z) : list Z :=
  match bytes with
  | b0 :: b1 :: bytes => Z.shiftl b0 8 + b1 :: unichars bytes
  | _ => []
  end.

Section Reading.
(** The block of bytes and its address. *)
Context (base : Z) (data : list Z).

Definition byte_at (p : Z) : option Z := rd data (p - base).

(** [for (idx = 0; idx < valSize; idx++) res = (res << 8) + data[idx];] *)
Fixpoint sized_int_loop (n : nat) (p res : Z) : option Z :=
  match n with
  | O => Some res
  | S n => let* b := byte_at p in sized_int_loop n (p + 1) (uwrap 64 (Z.shiftl res 8 + b))
  end.

Definition _getSizedInt (p valSize : Z) : option Z :=
  let valSize := uwrap 8 valSize in
  if (valSize =? 1) || (valSize =? 2) || (valSize =? 4) || (valSize =? 8) then
    let* bytes := byte_block data (p - base) valSize in Some (from_big bytes)
  else sized_int_loop (Z.to_nat valSize) p 0.

(** The trailer, its integers swapped back. *)
Definition read_trailer (at_ : Z) : option CFBinaryPlistTrailer :=
  let* b := byte_block data at_ sizeof_trailer in
  let* offsetIntSize := b !! 6%nat in
  let* objectRefSize := b !! 7%nat in
  Some {| _offsetIntSize := offsetIntSize; _objectRefSize := objectRefSize; _numObjects := from_big (take 8 (drop 8 b));
          _topObject := from_big (take 8 (drop 16 b)); _offsetTableOffset := from_big (take 8 (drop 24 b)) |}.

(** [for (idx = 0; idx < trail._numObjects; idx++)]: whether every offset is at
    most [maxOffset]. *)
Fixpoint offsets_valid (n : nat) (bytesptr offsetIntSize maxOffset : Z) : option bool :=
  match n with
  | O => Some true
  | S n =>
      let* off := _getSizedInt bytesptr offsetIntSize in
      if maxOffset <? off then Some false else offsets_valid n (bytesptr + offsetIntSize) offsetIntSize maxOffset
  end.

Definition datalen_of : Z := Z.of_nat (length data).

(** What the trailer must be, before the table is looked at. *)
Definition trailer_valid (trail : CFBinaryPlistTrailer) : bool :=
  let datalen := datalen_of in
  let '(offsetTableSize, err1) := __check_uint64_mul_unsigned_unsigned (_numObjects trail) (_offsetIntSize trail) false in
  let objectDataSize := uwrap 64 (_offsetTableOffset trail - 8) in
  let '(tmpSum, err2) := __check_uint64_add_unsigned_unsigned 8 objectDataSize false in
  let '(tmpSum, err2) := __check_uint64_add_unsigned_unsigned tmpSum offsetTableSize err2 in
  let '(tmpSum, err2) := __check_uint64_add_unsigned_unsigned tmpSum sizeof_trailer err2 in
  let '(_, err3) := check_ptr_add base 8 false in
  let '(offsetsFirstByte, err4) := check_ptr_add base (_offsetTableOffset trail) err3 in
  let '(_, err5) := check_ptr_add offsetsFirstByte (uwrap 64 (offsetTableSize - 1)) err4 in
  negb (LONG_MAX <? _numObjects trail) && negb (LONG_MAX <? _offsetTableOffset trail) && negb (_numObjects trail <? 1) &&
  negb (_numObjects trail <=? _topObject trail) && negb (_offsetTableOffset trail <? 9) &&
  negb (uwrap 64 (datalen - sizeof_trailer) <=? _offsetTableOffset trail) &&
  negb (_offsetIntSize trail <? 1) && negb (_objectRefSize trail <? 1) && negb err1 && negb (offsetTableSize <? 1) && negb err2 &&
  (datalen =? tmpSum) &&
  negb ((_objectRefSize trail <? 8) && (Z.shiftl 1 (8 * _objectRefSize trail) <=? _numObjects trail)) &&
  negb ((_offsetIntSize trail <? 8) && (Z.shiftl 1 (8 * _offsetIntSize trail) <=? _offsetTableOffset trail)) &&
  negb err3 && negb err4 && negb err5.

(** The marker, the offset and the trailer. *)
Definition __CFBinaryPlistGetTopLevelInfo : option (option (Z * Z * CFBinaryPlistTrailer)) :=
  let datalen := datalen_of in
  guard* negb (base =? 0) && negb (datalen <? sizeof_trailer + 8 + 1) in
  let* magic := byte_block data 0 7 in
  guard* (if decide (magic = take 7 bplist00) then true else false) in
  let* trail := read_trailer (datalen - sizeof_trailer) in
  guard* trailer_valid trail in
  let bytesptr := base + _offsetTableOffset trail in
  let maxOffset := _offsetTableOffset trail - 1 in
  let* valid := offsets_valid (Z.to_nat (_numObjects trail)) bytesptr (_offsetIntSize trail) maxOffset in
  guard* valid in
  let bytesptr := base + _offsetTableOffset trail + _topObject trail * _offsetIntSize trail in
  let* off := _getSizedInt bytesptr (_offsetIntSize trail) in
  guard* negb ((off <? 8) || (_offsetTableOffset trail <=? off)) in
  let* marker := byte_at (base + off) in
  Some (Some (marker, off, trail)).

(** The integer and the pointer behind it. *)
Definition _readInt (ptr end_byte_ptr : Z) : option (option (Z * Z)) :=
  guard* negb (end_byte_ptr <? ptr) in
  let* marker := byte_at ptr in
  let ptr := ptr + 1 in
  guard* (Z.land marker 0xf0 =? kCFBinaryPlistMarkerInt) in
  let cnt := Z.shiftl 1 (Z.land marker 0x0f) in
  let '(p, err) := check_ptr_add ptr cnt false in
  let extent := uwrap 64 (p - 1) in
  guard* negb err in
  guard* negb (end_byte_ptr <? extent) in
  let* bigint := _getSizedInt ptr cnt in
  Some (Some (bigint, ptr + cnt)).

Section Trailer.
Context (trailer : CFBinaryPlistTrailer).

Definition objectsRangeEnd : Z := uwrap 64 (_offsetTableOffset trailer - 1).

Definition _getOffsetOfRefAt (bytesptr : Z) : option Z :=
  let objectsFirstByte := base + 8 in
  let offsetsFirstByte := base + _offsetTableOffset trailer in
  if (bytesptr <? objectsFirstByte) || (offsetsFirstByte - _objectRefSize trailer <? bytesptr) then Some UINT64_MAX
  else
    let* ref := _getSizedInt bytesptr (_objectRefSize trailer) in
    if _numObjects trailer <=? ref then Some UINT64_MAX
    else _getSizedInt (base + _offsetTableOffset trailer + ref * _offsetIntSize trailer) (_offsetIntSize trailer).

(** The count of a marker, and the pointer behind it. *)
Definition read_count (marker ptr : Z) : option (option (Z * Z)) :=
  let cnt := Z.land marker 0x0f in
  if 0xf =? cnt then
    try* (bigint, ptr) := _readInt ptr (base + objectsRangeEnd) in
    guard* negb (LONG_MAX <? bigint) in
    Some (Some (bigint, ptr))
  else Some (Some (cnt, ptr)).

(** Whether [cnt] bytes from [ptr] on end before the table. *)
Definition extent_valid (ptr cnt : Z) : bool :=
  let '(p, err) := check_ptr_add ptr cnt false in
  negb err && negb (base + objectsRangeEnd <? uwrap 64 (p - 1)).

(** The pointer behind the marker. *)
Definition after_marker (startOffset : Z) : option (option Z) :=
  let '(ptr, err) := check_ptr_add (base + startOffset) 1 false in
  guard* negb err in Some (Some ptr).

(** The [cnt] bytes at [ptr]. *)
Definition read_bytes_at (ptr cnt : Z) : option (option (list Z)) :=
  guard* extent_valid ptr cnt in
  let* bytes := byte_block data (ptr - base) cnt in Some (Some bytes).

(** [if (objects && ..) CFDictionarySetValue(objects, startOffset, *plist)] *)
Definition cache (keep : bool) (objects : object_cache) (startOffset : Z) (pl : plist) : object_cache :=
  if keep then (fun m => <[startOffset := pl]> m) <$> objects else objects.

(** *** Leaves

    The object at [startOffset], which [marker] begins. *)

Definition read_simple (marker : Z) : option (option plist) :=
  if marker =? kCFBinaryPlistMarkerNull then Some (Some PNull)
  else if marker =? kCFBinaryPlistMarkerFalse then Some (Some (PBoolean false))
  else if marker =? kCFBinaryPlistMarkerTrue then Some (Some (PBoolean true))
  else Some None.

Definition read_int_object (startOffset marker : Z) : option (option plist) :=
  try* ptr := after_marker startOffset in
  let cnt := Z.shiftl 1 (Z.land marker 0x0f) in
  guard* extent_valid ptr cnt in
  guard* negb (16 <? cnt) in
  let* bigint := _getSizedInt ptr cnt in
  Some (Some (PNumber (if 8 <? cnt then SInt128 0 bigint else SInt64 (swrap 64 bigint)))).

Definition read_real (startOffset marker : Z) : option (option plist) :=
  let n := Z.land marker 0x0f in
  if n =? 2 then
    try* ptr := after_marker startOffset in
    try* bytes := read_bytes_at ptr 4 in Some (Some (PNumber (CFNumberCreate_Float32 (from_big bytes))))
  else if n =? 3 then
    try* ptr := after_marker startOffset in
    try* bytes := read_bytes_at ptr 8 in Some (Some (PNumber (CFNumberCreate_Float64 (from_big bytes))))
  else Some None.

Definition read_date (startOffset marker : Z) : option (option plist) :=
  if marker =? kCFBinaryPlistMarkerDate then
    try* ptr := after_marker startOffset in
    try* bytes := read_bytes_at ptr 8 in Some (Some (PDate (from_big bytes)))
  else Some None.

Definition read_data (startOffset marker : Z) : option (option plist) :=
  try* ptr := after_marker startOffset in
  try* (cnt, ptr) := read_count marker ptr in
  try* bytes := read_bytes_at ptr cnt in Some (Some (PData bytes)).

Definition read_ascii (startOffset marker : Z) : option (option plist) :=
  try* ptr := after_marker startOffset in
  try* (cnt, ptr) := read_count marker ptr in
  try* bytes := read_bytes_at ptr cnt in
  Some (PString <$> CFStringCreateWithBytes bytes).

(** Memory for no characters is NULL. *)
Definition read_unicode (startOffset marker : Z) : option (option plist) :=
  try* ptr := after_marker startOffset in
  try* (cnt, ptr) := read_count marker ptr in
  let '(p, err) := check_ptr_add ptr cnt false in
  let '(extent, err) := check_ptr_add (uwrap 64 (p - 1)) cnt err in
  guard* negb err in
  guard* negb (base + objectsRangeEnd <? extent) in
  let '(byte_cnt, err) := check_size_t_mul cnt 2 err in
  guard* negb err in
  guard* negb (byte_cnt =? 0) in
  let* bytes := byte_block data (ptr - base) byte_cnt in
  Some (Some (PString (unichars bytes))).

Definition read_uid (startOffset marker : Z) : option (option plist) :=
  try* ptr := after_marker startOffset in
  let cnt := Z.land marker 0x0f + 1 in
  guard* extent_valid ptr cnt in
  let* bigint := _getSizedInt ptr cnt in
  guard* negb (UINT32_MAX <? bigint) in
  Some (Some (PUID bigint)).

(** The cases of the switch that are no collections. *)
Definition read_leaf (startOffset marker : Z) : option (option plist) :=
  let type := Z.land marker 0xf0 in
  if type =? kCFBinaryPlistMarkerNull then read_simple marker
  else if type =? kCFBinaryPlistMarkerInt then read_int_object startOffset marker
  else if type =? kCFBinaryPlistMarkerReal then read_real startOffset marker
  else if type =? Z.land kCFBinaryPlistMarkerDate 0xf0 then read_date startOffset marker
  else if type =? kCFBinaryPlistMarkerData then read_data startOffset marker
  else if type =? kCFBinaryPlistMarkerASCIIString then read_ascii startOffset marker
  else if type =? kCFBinaryPlistMarkerUnicode16String then read_unicode startOffset marker
  else if type =? kCFBinaryPlistMarkerUID then read_uid startOffset marker
  else Some None.

(** Which leaves are kept in the cache: not the constants, and no data and
    strings when they are mutable. *)
Definition keeps_leaf (mutabilityOption marker : Z) : bool :=
  let type := Z.land marker 0xf0 in
  if type =? kCFBinaryPlistMarkerNull then false
  else if (type =? kCFBinaryPlistMarkerData) || (type =? kCFBinaryPlistMarkerASCIIString) || (type =? kCFBinaryPlistMarkerUnicode16String)
  then negb (mutabilityOption =? kCFPropertyListMutableContainersAndLeaves)
  else true.

(** *** Collections *)

Definition is_collection (marker : Z) : bool :=
  let type := Z.land marker 0xf0 in
  (type =? kCFBinaryPlistMarkerArray) || (type =? kCFBinaryPlistMarkerSet) || (type =? kCFBinaryPlistMarkerDict).

(** The collection of the objects; for a dictionary, the keys come first. *)
Definition make_collection (marker : Z) (pls : list plist) : plist :=
  let type := Z.land marker 0xf0 in
  if type =? kCFBinaryPlistMarkerDict then PDictionary (take (Nat.div2 (length pls)) pls) (drop (Nat.div2 (length pls)) pls)
  else if type =? kCFBinaryPlistMarkerArray then PArray pls else PSet pls.

(** How many of [n] objects are keys. *)
Definition key_count (marker : Z) (n : nat) : nat := if Z.land marker 0xf0 =? kCFBinaryPlistMarkerDict then Nat.div2 n else 0%nat.

(** The objects that the references at [ptr] denote; the first [keys] of them must
    be leaves. *)
Fixpoint read_objects (create : Z -> object_cache -> offset_path -> option (option (plist * object_cache * offset_path)))
    (n keys : nat) (ptr : Z) (objects : object_cache) (set : offset_path) : option (option (list plist * object_cache * offset_path)) :=
  match n with
  | O => Some (Some ([], objects, set))
  | S n =>
      let* off := _getOffsetOfRefAt ptr in
      try* (pl, objects, set) := create off objects set in
      guard* (match keys with O => true | S _ => _plistIsPrimitive pl end) in
      try* (pls, objects, set) := read_objects create n (pred keys) (ptr + _objectRefSize trailer) objects set in
      Some (Some (pl :: pls, objects, set))
  end.

(** The path with [startOffset] on it; from depth 16 on there is one. *)
Definition enter_path (set : offset_path) (curDepth startOffset : Z) : offset_path :=
  (fun s => {[startOffset]} ∪ s) <$> (match set with None => if 15 <? curDepth then Some ∅ else None | Some s => Some s end).

(** A path that was made here is released. *)
Definition leave_path (set inner : offset_path) (startOffset : Z) : offset_path :=
  match set with None => None | Some _ => (fun s => s ∖ {[startOffset]}) <$> inner end.

(** How many references there are, two for each entry of a dictionary, and where
    they begin. *)
Definition collection_refs (startOffset marker : Z) : option (option (Z * Z)) :=
  try* ptr := after_marker startOffset in
  try* (count, ptr) := read_count marker ptr in
  let '(count, err) := (if Z.land marker 0xf0 =? kCFBinaryPlistMarkerDict then check_size_t_mul count 2 false else (count, false)) in
  guard* negb err in
  let '(byte_cnt, err) := check_size_t_mul count (_objectRefSize trailer) err in
  guard* negb err in
  guard* extent_valid ptr byte_cnt in
  let '(_, err) := check_size_t_mul count 8 err in
  guard* negb err in
  Some (Some (count, ptr)).

(** [keyPaths] is NULL.  [fuel] is the depth of the recursion. *)
Fixpoint __CFBinaryPlistCreateObjectFiltered (fuel : nat) (mutabilityOption startOffset : Z) (objects : object_cache) (set : offset_path)
    (curDepth : Z) : option (option (plist * object_cache * offset_path)) :=
  match fuel with
  | O => None
  | S fuel =>
      match objects ≫= (.!! startOffset) with
      | Some pl => Some (Some (pl, objects, set))
      | None =>
          guard* negb (match set with Some s => bool_decide (startOffset ∈ s) | None => false end) in
          guard* negb ((startOffset <? 8) || (objectsRangeEnd <? startOffset)) in
          let* marker := byte_at (base + startOffset) in
          if is_collection marker then
            try* (count, ptr) := collection_refs startOffset marker in
            let n := Z.to_nat count in
            try* (pls, objects, inner) :=
              read_objects (fun off objects set => __CFBinaryPlistCreateObjectFiltered fuel mutabilityOption off objects set (curDepth + 1))
                n (key_count marker n) ptr objects (enter_path set curDepth startOffset) in
            let pl := make_collection marker pls in
            Some (Some (pl, cache (mutabilityOption =? kCFPropertyListImmutable) objects startOffset pl, leave_path set inner startOffset))
          else
            try* pl := read_leaf startOffset marker in
            Some (Some (pl, cache (keeps_leaf mutabilityOption marker) objects startOffset pl, set))
      end
  end.
End Trailer.

Definition __CFBinaryPlistCreateObject (fuel : nat) (mutabilityOption startOffset : Z) (trailer : CFBinaryPlistTrailer) (objects : object_cache) :=
  __CFBinaryPlistCreateObjectFiltered trailer fuel mutabilityOption startOffset objects None 0.

(** *** Looking up without reading the collection *)

(** The offset of the value at [idx] of the array at [startOffset]. *)
Definition __CFBinaryPlistGetOffsetForValueFromArray2 (startOffset : Z) (trailer : CFBinaryPlistTrailer) (idx : Z) : option (option Z) :=
  guard* negb ((startOffset <? 8) || (objectsRangeEnd trailer <? startOffset)) in
  let* marker := byte_at (base + startOffset) in
  guard* (Z.land marker 0xf0 =? kCFBinaryPlistMarkerArray) in
  try* ptr := after_marker startOffset in
  try* (cnt, ptr) := read_count trailer marker ptr in
  guard* negb (cnt <=? uwrap 64 idx) in
  let '(byte_cnt, err) := check_size_t_mul cnt (_objectRefSize trailer) false in
  guard* negb err in
  guard* extent_valid trailer ptr byte_cnt in
  let* off := _getOffsetOfRefAt trailer (ptr + idx * _objectRefSize trailer) in
  Some (Some off).

(** A key: its value, the pointer CFStringGetCStringPtr gives for it, and what
    [keyBuffer] holds after CFStringGetCString. *)
Record dictionary_key : Type := { key_value : plist; key_cstring : option (list Z); key_buffer : list Z }.

Definition KEY_BUFF_SIZE : Z := 16.

(** The length of a string; -1 for another key. *)
Definition stringKeyLen (key : dictionary_key) : Z :=
  match key_value key with PString chars => Z.of_nat (length chars) | _ => -1 end.

Definition keyBufferPtr (key : dictionary_key) : option (list Z) :=
  if stringKeyLen key =? -1 then None
  else match key_cstring key with
       | Some p => Some p
       | None => if stringKeyLen key <? KEY_BUFF_SIZE then Some (key_buffer key) else None
       end.

Section Lookup.
Context (trailer : CFBinaryPlistTrailer) (fuel : nat) (CFEqual : plist -> plist -> bool) (key : dictionary_key).

(** The comparison with a string in ASCII at [off]. *)
Definition match_ascii (keyPtr : list Z) (off marker : Z) : option (option bool) :=
  try* ptr2 := after_marker off in
  try* (len, ptr2) :=
    (if (0xf =? Z.land marker 0x0f) && (0xf <=? stringKeyLen key) then
       try* (bigint, ptr2) := _readInt ptr2 (base + objectsRangeEnd trailer) in
       guard* negb (LONG_MAX <? bigint) in Some (Some (bigint, ptr2))
     else Some (Some (Z.land marker 0x0f, ptr2))) in
  if len =? stringKeyLen key then
    let '(extent, err) := check_ptr_add ptr2 len false in
    guard* negb err in
    guard* negb (base + _offsetTableOffset trailer <=? extent) in
    let* b := byte_block data (ptr2 - base) (stringKeyLen key) in
    let* k := byte_block keyPtr 0 (stringKeyLen key) in
    Some (Some (if decide (b = k) then true else false))
  else Some (Some false).

(** The comparison with any object at [off]. *)
Definition match_object (off : Z) : option (option bool) :=
  try* (keyInData, _, _) := __CFBinaryPlistCreateObjectFiltered trailer fuel kCFPropertyListImmutable off None None 0 in
  guard* _plistIsPrimitive keyInData in
  Some (Some (CFEqual (key_value key) keyInData)).

(** [for (idx = 0; idx < cnt; idx++)] *)
Fixpoint search_keys (n : nat) (ptr totalKeySize : Z) : option (option (Z * Z)) :=
  match n with
  | O => Some None
  | S n =>
      let* off := _getOffsetOfRefAt trailer ptr in
      let* marker := byte_at (uwrap 64 (base + off)) in
      try* found := (match keyBufferPtr key with
                     | Some keyPtr => if Z.land marker 0xf0 =? kCFBinaryPlistMarkerASCIIString then match_ascii keyPtr off marker else match_object off
                     | None => match_object off
                     end) in
      if (found : bool) then let* voffset := _getOffsetOfRefAt trailer (ptr + totalKeySize) in Some (Some (off, voffset))
      else search_keys n (ptr + _objectRefSize trailer) totalKeySize
  end.

(** The offsets of the key and of the value. *)
Definition __CFBinaryPlistGetOffsetForValueFromDictionary3 (startOffset : Z) : option (option (Z * Z)) :=
  guard* _plistIsPrimitive (key_value key) in
  guard* negb ((startOffset <? 8) || (objectsRangeEnd trailer <? startOffset)) in
  let* marker := byte_at (base + startOffset) in
  guard* (Z.land marker 0xf0 =? kCFBinaryPlistMarkerDict) in
  try* ptr := after_marker startOffset in
  try* (cnt, ptr) := read_count trailer marker ptr in
  let '(cnt, err) := check_size_t_mul cnt 2 false in
  guard* negb err in
  let '(byte_cnt, err) := check_size_t_mul cnt (_objectRefSize trailer) err in
  guard* negb err in
  guard* extent_valid trailer ptr byte_cnt in
  let cnt := cnt / 2 in
  search_keys (Z.to_nat cnt) ptr (uwrap 64 (cnt * _objectRefSize trailer)).
End Lookup.

(** The property list; false is [Some None]. *)
Definition __CFTryParseBinaryPlist (fuel : nat) (option_ : Z) : option (option plist) :=
  guard* (8 <=? datalen_of) in
  try* (_, offset, trailer) := __CFBinaryPlistGetTopLevelInfo in
  try* (pl, _, _) := __CFBinaryPlistCreateObjectFiltered trailer fuel option_ offset (Some ∅) None 0 in
  Some (Some pl).
End Reading.
End Strings.

(** ** ASCII, as the built-in converter has it *)

(** The leading characters that have a byte; characters are unsigned. *)
Fixpoint ascii_bytes (chars : list Z) : list Z :=
  match chars with
  | c :: chars => if c <? 0 then [] else match __CFToASCII 0 c with Some (Some b) => b :: ascii_bytes chars | _ => [] end
  | [] => []
  end.

Fixpoint ascii_chars (bytes : list Z) : option (list Z) :=
  match bytes with
  | [] => Some []
  | b :: bytes => match __CFFromASCII 0 b with Some (Some c) => cons c <$> ascii_chars bytes | _ => None end
  end.

#[export] Instance converter_strings : ASCIIStrings :=
  {| CFStringGetBytes chars := (Z.of_nat (length (ascii_bytes chars)), ascii_bytes chars); CFStringCreateWithBytes := ascii_chars |}.

Lemma ascii_bytes_cons c chars : ascii_bytes (c :: chars) = if bool_decide (is_ascii c) then c :: ascii_bytes chars else [].
Proof.
  cbn [ascii_bytes]. unfold __CFToASCII. rewrite paragraph_separator_unmapped. unfold is_ascii. destruct (Z.ltb_spec c 0), (Z.ltb_spec c 0x80);
    try (rewrite bool_decide_eq_false_2 by lia; done). rewrite bool_decide_eq_true_2 by lia. by rewrite uwrap_id by (unfold in_unsigned; lia).
Qed.

#[export] Instance converter_strings_laws : ASCIIStringsLaws.
Proof.
  split; cbn [CFStringGetBytes CFStringCreateWithBytes converter_strings].
  - intros chars H. assert (ascii_bytes chars = chars) as ->; [|done]. induction H as [|c chars Hc _ IH]; [done|]. by rewrite ascii_bytes_cons, bool_decide_eq_true_2, IH.
  - intros chars Hn Hl. apply Hn. cbn [fst] in Hl. apply Nat2Z.inj in Hl. clear Hn. induction chars as [|c chars IH]; [constructor|]. rewrite ascii_bytes_cons in Hl.
    destruct (bool_decide_reflect (is_ascii c)); [|done]. injection Hl as Hl. constructor; [done|by apply IH].
  - intros bytes H. induction H as [|b bytes [_ Hb] _ IH]; [done|]. cbn [ascii_chars]. unfold __CFFromASCII. destruct (Z.ltb_spec b 0x80); [|lia]. by rewrite IH.
Qed.
