(* ===== verification/CFBinaryPListRead.v ===== *)
(** * Reading binary property lists

    What the reader does with arbitrary bytes: it reads inside the block, ends,
    and returns the finite unfolding of the top object, if there is one.  Its
    cache and its search for cycles change nothing in the result. *)

From S2P Require Import Prelude CFInternal CFBinaryPList.
From stdpp Require Import base list numbers option gmap sets.
From Stdlib Require Import ZArith Lia.
Open Scope Z_scope.
Open Scope cf_scope.

Definition is_octet (b : Z) : Prop := 0 <= b < 256.

Lemma is_octet_iff b : is_octet b <-> 0 <= b < 256.
Proof. done. Qed.

(** ** Blocks and integers *)

Lemma block_ok bytes at_ n : 0 <= at_ -> 0 <= n -> at_ + n <= Z.of_nat (length bytes) ->
  byte_block bytes at_ n = Some (take (Z.to_nat n) (drop (Z.to_nat at_) bytes)).
Proof. intros. unfold byte_block. bool_case. done. Qed.

Lemma block_inside bytes at_ n : 0 <= at_ -> 0 <= n -> at_ + n <= Z.of_nat (length bytes) -> Forall is_octet bytes ->
  exists b, byte_block bytes at_ n = Some b /\ Z.of_nat (length b) = n /\ Forall is_octet b.
Proof.
  intros. eexists. split; [by apply block_ok|]. rewrite length_take, length_drop. split; [lia|]. by apply Forall_take, Forall_drop.
Qed.

(** The bytes between what comes before and behind. *)
Lemma block_between pre bytes post : byte_block (pre ++ bytes ++ post) (Z.of_nat (length pre)) (Z.of_nat (length bytes)) = Some bytes.
Proof. rewrite block_ok by (rewrite ?length_app; lia). by rewrite !Nat2Z.id, drop_app_length, take_app_length. Qed.

Lemma from_big_snoc bytes b : from_big (bytes ++ [b]) = from_big bytes * 256 + b.
Proof. unfold from_big. rewrite fold_left_app. cbn [fold_left]. rewrite Z.shiftl_mul_pow2 by lia. done. Qed.

Lemma from_big_bounds bytes : Forall is_octet bytes -> 0 <= from_big bytes < 256 ^ Z.of_nat (length bytes).
Proof.
  induction bytes as [|b bytes IH] using rev_ind; [done|]. rewrite Forall_app, Forall_singleton. intros [Hb [Hb0 Hb1]].
  rewrite from_big_snoc, length_app. cbn [length]. rewrite Nat2Z.inj_add, Z.pow_add_r by lia. specialize (IH Hb). nia.
Qed.

Lemma uwrap_bounds_64 v : 0 <= uwrap 64 v < 2 ^ 64.
Proof. unfold uwrap. apply Z.mod_pos_bound. lia. Qed.

(** ** The block at its address *)

(** A block that lies in memory, not in the first page. *)
Record memory_block (base : Z) (data : list Z) : Prop := {
  block_low : 256 <= base;
  block_high : base + Z.of_nat (length data) < 2 ^ 64;
  block_octets : Forall is_octet data
}.

Section Reading.
Context (base : Z) (data : list Z) (Hm : memory_block base data).

Local Notation limit := (base + Z.of_nat (length data)).

Lemma byte_at_inside p : base <= p < limit -> exists b, byte_at base data p = Some b /\ is_octet b.
Proof.
  intros Hp. unfold byte_at. rewrite rd_lookup by lia. destruct (lookup_lt_is_Some_2 data (Z.to_nat (p - base))) as [b Hb]; [lia|].
  exists b. split; [done|]. by apply (Forall_lookup_1 _ _ _ _ (block_octets _ _ Hm) Hb).
Qed.

Lemma sized_int_loop_inside n p res : base <= p -> p + Z.of_nat n <= limit -> 0 <= res < 2 ^ 64 ->
  exists v, sized_int_loop base data n p res = Some v /\ 0 <= v < 2 ^ 64.
Proof.
  revert p res. induction n as [|n IH]; intros p res Hp Hn Hr; cbn [sized_int_loop]; [by exists res|].
  destruct (byte_at_inside p) as (b & -> & _); [lia|]. cbn [opt_bind]. apply IH; [lia..|]. apply uwrap_bounds_64.
Qed.

Lemma getSizedInt_inside p n : base <= p -> 0 <= n -> p + n <= limit ->
  exists v, _getSizedInt base data p n = Some v /\ 0 <= v < 2 ^ 64.
Proof.
  intros Hp Hn Hl. unfold _getSizedInt. assert (0 <= uwrap 8 n <= n) as Hw.
  { unfold uwrap. split; [apply Z.mod_pos_bound; lia|apply Z.mod_le; lia]. }
  destruct (_ || _) eqn:E.
  - destruct (block_inside data (p - base) (uwrap 8 n)) as (b & -> & Hb & Ho); [lia..|apply (block_octets _ _ Hm)|]. cbn [opt_bind].
    exists (from_big b). split; [done|]. pose proof (from_big_bounds b Ho) as Hf. rewrite Hb in Hf.
    assert (256 ^ uwrap 8 n <= 256 ^ 8) by (apply Z.pow_le_mono_r; lia). change (256 ^ 8) with (2 ^ 64) in *. lia.
  - apply sized_int_loop_inside; lia.
Qed.

Lemma check_ptr_add_sum p a err : 0 <= p < 2 ^ 64 -> 0 <= a < 2 ^ 64 ->
  check_ptr_add p a err = (uwrap 64 (p + a), err || (2 ^ 64 <=? p + a)).
Proof.
  intros Hp Ha. unfold check_ptr_add, __check_uint64_add_unsigned_unsigned. rewrite (uwrap_id 64 p), (uwrap_id 64 a) by (unfold in_unsigned; lia).
  unfold ULLONG_MAX. do 2 f_equal. destruct (Z.ltb_spec (2 ^ 64 - 1 - a) p), (Z.leb_spec (2 ^ 64) (p + a)); lia.
Qed.

Lemma check_size_t_mul_product b a err : 0 <= b < 2 ^ 64 -> 0 <= a < 2 ^ 64 ->
  check_size_t_mul b a err = (uwrap 64 (b * a), err || (2 ^ 64 <=? b * a)).
Proof.
  intros Hb Ha. unfold check_size_t_mul, __check_uint64_mul_unsigned_unsigned. rewrite (uwrap_id 64 b), (uwrap_id 64 a) by (unfold in_unsigned; lia).
  destruct (Z.eqb_spec b 0) as [->|Hb0]; [by rewrite Z.mul_0_l, orb_false_r|]. do 2 f_equal. unfold ULLONG_MAX.
  pose proof (Z.mul_div_le (2 ^ 64 - 1) b). pose proof (Z.mul_succ_div_gt (2 ^ 64 - 1) b).
  destruct (Z.ltb_spec ((2 ^ 64 - 1) / b) a), (Z.leb_spec (2 ^ 64) (b * a)); try lia; nia.
Qed.

(** ** The trailer *)

(** What [__CFBinaryPlistGetTopLevelInfo] has checked. *)
Record trailer_ok (t : CFBinaryPlistTrailer) : Prop := {
  table_low : 9 <= _offsetTableOffset t;
  table_fits : _offsetTableOffset t + _numObjects t * _offsetIntSize t + 32 = Z.of_nat (length data);
  int_size : 1 <= _offsetIntSize t < 256;
  ref_size : 1 <= _objectRefSize t < 256;
  num_objects : 1 <= _numObjects t;
  offsets_low : forall i, 0 <= i < _numObjects t ->
    exists off, _getSizedInt base data (base + _offsetTableOffset t + i * _offsetIntSize t) (_offsetIntSize t) = Some off /\
      0 <= off < _offsetTableOffset t
}.

Lemma read_trailer_inside at_ : 0 <= at_ -> at_ + 32 <= Z.of_nat (length data) ->
  exists t, read_trailer data at_ = Some t /\ is_octet (_offsetIntSize t) /\ is_octet (_objectRefSize t) /\
    0 <= _numObjects t < 2 ^ 64 /\ 0 <= _topObject t < 2 ^ 64 /\ 0 <= _offsetTableOffset t < 2 ^ 64.
Proof.
  intros H0 H1. unfold read_trailer. destruct (block_inside data at_ sizeof_trailer) as (b & -> & Hb & Ho);
    [unfold sizeof_trailer; lia..|apply (block_octets _ _ Hm)|]. cbn [opt_bind]. unfold sizeof_trailer in Hb.
  destruct (lookup_lt_is_Some_2 b 6) as [b6 H6]; [lia|]. destruct (lookup_lt_is_Some_2 b 7) as [b7 H7]; [lia|]. rewrite H6, H7. cbn [opt_bind].
  eexists. split; [done|]. cbn [_offsetIntSize _objectRefSize _numObjects _topObject _offsetTableOffset].
  split; [by apply (Forall_lookup_1 _ _ _ _ Ho H6)|]. split; [by apply (Forall_lookup_1 _ _ _ _ Ho H7)|].
  assert (forall k, (k + 8 <= 32)%nat -> 0 <= from_big (take 8 (drop k b)) < 2 ^ 64) as Hw.
  { intros k Hk. pose proof (from_big_bounds (take 8 (drop k b)) ltac:(by apply Forall_take, Forall_drop)) as Hf.
    rewrite length_take, length_drop, Nat.min_l in Hf by lia. exact Hf. }
  split_and!; apply Hw; lia.
Qed.

Lemma offsets_valid_inside n p isz maxOffset : base <= p -> 0 <= isz -> p + Z.of_nat n * isz <= limit ->
  exists r, offsets_valid base data n p isz maxOffset = Some r /\
    (r = true -> forall i, 0 <= i < Z.of_nat n -> exists off, _getSizedInt base data (p + i * isz) isz = Some off /\ 0 <= off <= maxOffset).
Proof.
  revert p. induction n as [|n IH]; intros p Hp Hz Hl; cbn [offsets_valid]; [by exists true; split; [|intros _ i Hi; lia]|].
  destruct (getSizedInt_inside p isz) as (v & Hv & Hvr); [lia..|nia|]. rewrite Hv. cbn [opt_bind].
  destruct (Z.ltb_spec maxOffset v); [by exists false|].
  destruct (IH (p + isz)) as (r & -> & Hr); [lia..|nia|]. exists r. split; [done|]. intros -> i Hi.
  destruct (Z.eq_dec i 0) as [->|Hi0]; [exists v; rewrite Z.mul_0_l, Z.add_0_r; split; [done|lia]|].
  destruct (Hr eq_refl (i - 1)) as (off & Ho & Hr'); [lia|]. exists off. split; [|done]. rewrite <- Ho. f_equal. lia.
Qed.

Lemma trailer_valid_facts t : is_octet (_offsetIntSize t) -> is_octet (_objectRefSize t) ->
  0 <= _numObjects t < 2 ^ 64 -> 0 <= _topObject t < 2 ^ 64 -> 0 <= _offsetTableOffset t < 2 ^ 64 -> 32 <= Z.of_nat (length data) ->
  trailer_valid base data t = true ->
  9 <= _offsetTableOffset t /\ _offsetTableOffset t + _numObjects t * _offsetIntSize t + 32 = Z.of_nat (length data) /\
  1 <= _offsetIntSize t < 256 /\ 1 <= _objectRefSize t < 256 /\ 1 <= _numObjects t /\ _topObject t < _numObjects t.
Proof.
  intros [Hi0 Hi1] [Hr0 Hr1] Hn Ht Ho Hd. pose proof (block_low _ _ Hm). pose proof (block_high _ _ Hm).
  unfold trailer_valid, datalen_of. pose proof (check_size_t_mul_product (_numObjects t) (_offsetIntSize t) false Hn ltac:(lia)) as Emul.
  unfold check_size_t_mul in Emul. rewrite !uwrap_id in Emul by (unfold in_unsigned; lia). rewrite Emul. clear Emul.
  unfold __check_uint64_add_unsigned_unsigned. cbn [orb].
  destruct (check_ptr_add base 8 false) as [p3 e3]. destruct (check_ptr_add base (_offsetTableOffset t) e3) as [p4 e4].
  destruct (check_ptr_add p4 _ e4) as [p5 e5]. rewrite !andb_true_iff, !negb_true_iff, !Z.ltb_ge, !orb_false_iff, !Z.ltb_ge, !Z.leb_gt, Z.eqb_eq.
  unfold LONG_MAX, ULLONG_MAX, sizeof_trailer. intros Hall. destruct_and! Hall.
  set (prod := _numObjects t * _offsetIntSize t) in *. assert (0 <= prod) by (unfold prod; nia).
  rewrite (uwrap_id 64 prod) in * by (unfold in_unsigned; lia).
  rewrite (uwrap_id 64 (_offsetTableOffset t - 8)) in * by (unfold in_unsigned; lia).
  replace (8 + (_offsetTableOffset t - 8)) with (_offsetTableOffset t) in * by lia.
  rewrite (uwrap_id 64 (_offsetTableOffset t)) in * by (unfold in_unsigned; lia).
  rewrite (uwrap_id 64 (_offsetTableOffset t + prod)) in * by (unfold in_unsigned; lia).
  rewrite (uwrap_id 64 (_offsetTableOffset t + prod + 32)) in * by (unfold in_unsigned; lia). lia.
Qed.

(** Finding the top object reads inside the block, and what it returns is
    checked. *)
Lemma GetTopLevelInfo_inside :
  exists r, __CFBinaryPlistGetTopLevelInfo base data = Some r /\
    forall marker off t, r = Some (marker, off, t) -> trailer_ok t /\ 8 <= off < _offsetTableOffset t.
Proof.
  unfold __CFBinaryPlistGetTopLevelInfo, datalen_of. pose proof (block_low _ _ Hm). set (len := Z.of_nat (length data)).
  destruct (negb (base =? 0) && negb (len <? sizeof_trailer + 8 + 1)) eqn:E0; [|by exists None].
  apply andb_true_iff in E0 as [_ E0%negb_true_iff%Z.ltb_ge]. unfold sizeof_trailer in E0 |- *.
  destruct (block_inside data 0 7) as (magic & -> & _ & _); [lia..|apply (block_octets _ _ Hm)|]. cbn [opt_bind].
  destruct (decide _); [|by exists None].
  destruct (read_trailer_inside (len - 32)) as (t & -> & Hi & Hr & Hn & Ht & Ho); [lia..|]. cbn [opt_bind].
  destruct (trailer_valid base data t) eqn:Ev; [|by exists None].
  destruct (trailer_valid_facts t Hi Hr Hn Ht Ho ltac:(lia) Ev) as (H9 & Hsum & Hi1 & Hr1 & Hn1 & Htop).
  destruct (offsets_valid_inside (Z.to_nat (_numObjects t)) (base + _offsetTableOffset t) (_offsetIntSize t) (_offsetTableOffset t - 1))
    as (v & -> & Hv); [lia|lia|nia|]. cbn [opt_bind]. destruct v; [|by exists None]. specialize (Hv eq_refl).
  destruct (Hv (_topObject t)) as (off & -> & Hoff); [lia|]. cbn [opt_bind].
  destruct (negb _) eqn:E1; [|by exists None]. apply negb_true_iff, orb_false_iff in E1 as [E1%Z.ltb_ge E2%Z.leb_gt].
  destruct (byte_at_inside (base + off)) as (m & -> & _); [nia|]. cbn [opt_bind].
  eexists. split; [done|]. intros marker off' t' [= <- <- <-]. split; [|lia]. split; [done..|].
  intros i Hi'. destruct (Hv i) as (o & E & Ho'); [lia|]. exists o. split; [done|lia].
Qed.

(** ** Counts, extents and leaves *)

Section Objects.
Context (t : CFBinaryPlistTrailer) (Ht : trailer_ok t).

Local Notation table := (_offsetTableOffset t).

Lemma table_inside : base + table + 32 <= limit /\ 9 <= table < 2 ^ 64.
Proof. pose proof (table_fits t Ht). pose proof (table_low t Ht). pose proof (int_size t Ht). pose proof (num_objects t Ht). pose proof (block_high _ _ Hm).
  pose proof (block_low _ _ Hm). nia. Qed.

Lemma objectsRangeEnd_eq : objectsRangeEnd t = table - 1.
Proof. pose proof table_inside. unfold objectsRangeEnd. apply uwrap_id. unfold in_unsigned. lia. Qed.

(** A result that exists and satisfies [P] if it is no failure. *)
Definition sound {A} (m : option (option A)) (P : A -> Prop) : Prop := exists r, m = Some r /\ forall x, r = Some x -> P x.

Lemma sound_fail {A} (P : A -> Prop) : sound (Some None) P.
Proof. by exists None. Qed.

Lemma sound_ret {A} (x : A) (P : A -> Prop) : P x -> sound (Some (Some x)) P.
Proof. intros. eexists. split; [done|]. by intros ? [= <-]. Qed.

Lemma sound_bind {A B} (m : option (option A)) (k : A -> option (option B)) (P : A -> Prop) (Q : B -> Prop) :
  sound m P -> (forall x, P x -> sound (k x) Q) -> sound (try_bind m k) Q.
Proof. intros ([x|] & -> & Hx) Hk; cbn [try_bind]; [by apply Hk, Hx|by exists None]. Qed.

Lemma sound_guard {B} (b : bool) (k : option (option B)) (Q : B -> Prop) : (b = true -> sound k Q) -> sound (if b then k else Some None) Q.
Proof. intros Hk. destruct b; [by apply Hk|apply sound_fail]. Qed.

Lemma sound_weaken {A} (m : option (option A)) (P Q : A -> Prop) : sound m P -> (forall x, P x -> Q x) -> sound m Q.
Proof. intros (r & -> & Hr) HPQ. exists r. eauto. Qed.

Lemma after_marker_sound off : 0 <= off < table -> sound (after_marker base off) (fun p => p = base + off + 1).
Proof.
  intros Hoff. pose proof table_inside. pose proof (block_low _ _ Hm). pose proof (block_high _ _ Hm). unfold after_marker.
  rewrite check_ptr_add_sum by lia. apply sound_guard. intros _. apply sound_ret. apply uwrap_id. unfold in_unsigned. lia.
Qed.

Lemma extent_valid_inside p cnt : base <= p <= limit -> 0 <= cnt < 2 ^ 64 -> extent_valid base t p cnt = true -> p + cnt <= base + table.
Proof.
  intros Hp Hc. pose proof table_inside. pose proof (block_low _ _ Hm). pose proof (block_high _ _ Hm). unfold extent_valid.
  rewrite check_ptr_add_sum, objectsRangeEnd_eq by lia. cbn [orb]. rewrite andb_true_iff, !negb_true_iff, Z.leb_gt, Z.ltb_ge. intros [Hs He].
  rewrite (uwrap_id 64 (p + cnt)) in He by (unfold in_unsigned; lia). rewrite uwrap_id in He by (unfold in_unsigned; lia). lia.
Qed.

Lemma readInt_sound p : base <= p -> sound (_readInt base data p (base + (table - 1))) (fun r => 0 <= fst r < 2 ^ 64 /\ p < snd r <= base + table).
Proof.
  intros Hp. pose proof table_inside. pose proof (block_low _ _ Hm). pose proof (block_high _ _ Hm). unfold _readInt.
  apply sound_guard. intros E%negb_true_iff%Z.ltb_ge. destruct (byte_at_inside p) as (m & -> & Hb); [lia|]. cbn [opt_bind].
  apply sound_guard. intros _. assert (0 < Z.shiftl 1 (Z.land m 15) < 2 ^ 16) as Hc.
  { rewrite Z.shiftl_mul_pow2, Z.mul_1_l by (apply Z.land_nonneg; lia). change 15 with (Z.ones 4). rewrite Z.land_ones by lia.
    pose proof (Z.mod_pos_bound m (2 ^ 4)). split; [apply Z.pow_pos_nonneg; lia|]. apply Z.pow_lt_mono_r; lia. }
  set (cnt := Z.shiftl 1 (Z.land m 15)) in *. rewrite check_ptr_add_sum by lia. cbn [orb].
  apply sound_guard. intros Es%negb_true_iff%Z.leb_gt. rewrite (uwrap_id 64 (p + 1 + cnt)) by (unfold in_unsigned; lia).
  rewrite uwrap_id by (unfold in_unsigned; lia). apply sound_guard. intros Ee%negb_true_iff%Z.ltb_ge.
  destruct (getSizedInt_inside (p + 1) cnt) as (v & -> & Hv); [lia..|]. cbn [opt_bind]. apply sound_ret. cbn [fst snd]. lia.
Qed.

Lemma read_count_sound marker p : base <= p <= base + table -> 0 <= marker ->
  sound (read_count base data t marker p) (fun r => 0 <= fst r < 2 ^ 63 /\ base <= snd r <= base + table).
Proof.
  intros Hp Hmk. unfold read_count. rewrite objectsRangeEnd_eq. assert (0 <= Z.land marker 15 < 16) as Hc.
  { change 15 with (Z.ones 4). rewrite Z.land_ones by lia. apply Z.mod_pos_bound. lia. }
  destruct (Z.eqb_spec 15 (Z.land marker 15)); [|apply sound_ret; cbn [fst snd]; lia].
  eapply sound_bind; [apply readInt_sound; lia|]. intros [v q]. cbn [fst snd]. intros Hq. apply sound_guard.
  unfold LONG_MAX. intros E%negb_true_iff%Z.ltb_ge. apply sound_ret. cbn [fst snd]. lia.
Qed.

Lemma read_bytes_at_sound p cnt : base <= p <= base + table -> 0 <= cnt < 2 ^ 64 -> sound (read_bytes_at base data t p cnt) (fun b => Z.of_nat (length b) = cnt).
Proof.
  intros Hp Hc. pose proof table_inside. unfold read_bytes_at. apply sound_guard. intros E%extent_valid_inside; [|lia..].
  destruct (block_inside data (p - base) cnt) as (b & -> & Hb & _); [lia..|apply (block_octets _ _ Hm)|]. cbn [opt_bind]. by apply sound_ret.
Qed.

Lemma low_nibble marker : 0 <= Z.land marker 0x0f < 16.
Proof. change 0x0f with (Z.ones 4). rewrite Z.land_ones by lia. apply Z.mod_pos_bound. lia. Qed.

(** Every leaf is read inside the block. *)
Section Leaves.
Context `{!ASCIIStrings}.

Lemma read_leaf_sound off marker : 0 <= off < table -> is_octet marker -> sound (read_leaf base data t off marker) (fun _ => True).
Proof.
  intros Hoff [Hm0 Hm1]. pose proof table_inside as Hin. pose proof (block_low _ _ Hm). pose proof (low_nibble marker) as Hn.
  assert (sound (after_marker base off) (fun p => p = base + off + 1)) as Ha by by apply after_marker_sound.
  unfold read_leaf. repeat case_match.
  - unfold read_simple. repeat case_match; (by apply sound_ret) || apply sound_fail.
  - unfold read_int_object. eapply sound_bind; [exact Ha|]. intros p ->. apply sound_guard. intros E. apply sound_guard.
    intros E16%negb_true_iff%Z.ltb_ge. assert (0 <= Z.shiftl 1 (Z.land marker 15)) by (apply Z.shiftl_nonneg; lia).
    apply extent_valid_inside in E; [|lia..]. destruct (getSizedInt_inside (base + off + 1) (Z.shiftl 1 (Z.land marker 15))) as (v & -> & _); [lia..|].
    by apply sound_ret.
  - unfold read_real. repeat case_match; [..|apply sound_fail]; (eapply sound_bind; [exact Ha|]; intros p ->;
      eapply sound_bind; [apply read_bytes_at_sound; lia|]; intros b _; by apply sound_ret).
  - unfold read_date. case_match; [|apply sound_fail]. eapply sound_bind; [exact Ha|]. intros p ->.
    eapply sound_bind; [apply read_bytes_at_sound; lia|]. intros b _. by apply sound_ret.
  - unfold read_data. eapply sound_bind; [exact Ha|]. intros p ->. eapply sound_bind; [apply read_count_sound; lia|]. intros [c q]. cbn [fst snd]. intros Hc.
    eapply sound_bind; [apply read_bytes_at_sound; lia|]. intros b _. by apply sound_ret.
  - unfold read_ascii. eapply sound_bind; [exact Ha|]. intros p ->. eapply sound_bind; [apply read_count_sound; lia|]. intros [c q]. cbn [fst snd]. intros Hc.
    eapply sound_bind; [apply read_bytes_at_sound; lia|]. intros b _. by eexists.
  - unfold read_unicode. eapply sound_bind; [exact Ha|]. intros p ->. eapply sound_bind; [apply read_count_sound; lia|]. intros [c q]. cbn [fst snd]. intros [Hc Hq].
    pose proof (block_high _ _ Hm). rewrite (check_ptr_add_sum q c) by lia. cbn [orb].
    pose proof (uwrap_bounds_64 (uwrap 64 (q + c) - 1)). rewrite check_ptr_add_sum by lia. apply sound_guard.
    rewrite negb_true_iff, orb_false_iff, !Z.leb_gt. intros [E1 E2]. rewrite (uwrap_id 64 (q + c)) in * by (unfold in_unsigned; lia).
    rewrite (uwrap_id 64 (q + c - 1)) in * by (unfold in_unsigned; lia). rewrite (uwrap_id 64 (q + c - 1 + c)) by (unfold in_unsigned; lia).
    apply sound_guard. rewrite objectsRangeEnd_eq. intros E3%negb_true_iff%Z.ltb_ge. rewrite check_size_t_mul_product by lia. apply sound_guard. intros _.
    apply sound_guard. intros _. rewrite uwrap_id by (unfold in_unsigned; lia).
    destruct (block_inside data (q - base) (c * 2)) as (b & -> & _); [lia..|apply (block_octets _ _ Hm)|]. by apply sound_ret.
  - unfold read_uid. eapply sound_bind; [exact Ha|]. intros p ->. apply sound_guard. intros E%extent_valid_inside; [|lia..].
    destruct (getSizedInt_inside (base + off + 1) (Z.land marker 15 + 1)) as (v & -> & _); [lia..|]. cbn [opt_bind].
    apply sound_guard. intros _. by apply sound_ret.
  - apply sound_fail.
Qed.

(** A reference is a number of the table or fails. *)
Lemma getOffsetOfRefAt_inside p : exists off, _getOffsetOfRefAt base data t p = Some off /\ 0 <= off /\ (off < table \/ off = UINT64_MAX).
Proof.
  pose proof table_inside as Hin. pose proof (ref_size t Ht). pose proof (block_low _ _ Hm). unfold _getOffsetOfRefAt.
  destruct (_ || _) eqn:E; [exists UINT64_MAX; split; [done|]; unfold UINT64_MAX; lia|].
  apply orb_false_iff in E as [E1%Z.ltb_ge E2%Z.ltb_ge].
  destruct (getSizedInt_inside p (_objectRefSize t)) as (ref & -> & Hr); [lia..|]. cbn [opt_bind].
  destruct (Z.leb_spec (_numObjects t) ref); [exists UINT64_MAX; split; [done|]; unfold UINT64_MAX; lia|].
  destruct (offsets_low t Ht ref) as (off & -> & Ho); [lia|]. exists off. split; [done|lia].
Qed.

Lemma collection_refs_sound off marker : 0 <= off < table -> is_octet marker ->
  sound (collection_refs base data t off marker) (fun r => 0 <= fst r /\ base <= snd r /\ snd r + fst r * _objectRefSize t <= base + table).
Proof.
  intros Hoff [Hm0 Hm1]. pose proof table_inside as Hin. pose proof (block_low _ _ Hm). pose proof (ref_size t Ht) as Hrs. pose proof (block_high _ _ Hm). unfold collection_refs.
  eapply sound_bind; [by apply after_marker_sound|]. intros p ->. eapply sound_bind; [apply read_count_sound; lia|].
  intros [c q]. cbn [fst snd]. intros [Hc Hq].
  assert (exists c', 0 <= c' < 2 ^ 64 /\ (if Z.land marker 0xf0 =? kCFBinaryPlistMarkerDict then check_size_t_mul c 2 false else (c, false)) = (c', false)) as (c' & Hc' & ->).
  { case_match; [|exists c; split; [lia|done]]. exists (c * 2). split; [lia|]. rewrite check_size_t_mul_product by lia.
    rewrite uwrap_id by (unfold in_unsigned; lia). by destruct (Z.leb_spec (2 ^ 64) (c * 2)); [lia|]. }
  apply sound_guard. intros _. rewrite check_size_t_mul_product by lia. cbn [orb]. apply sound_guard. intros E%negb_true_iff%Z.leb_gt.
  rewrite uwrap_id by (unfold in_unsigned; nia). apply sound_guard. intros Ee%extent_valid_inside; [|nia..].
  destruct (check_size_t_mul c' 8 _) as [x e]. apply sound_guard. intros _. apply sound_ret. cbn [fst snd]. lia.
Qed.

(** ** The reference: unfolding without cache and path *)

Fixpoint decode_refs (decode_object : Z -> option plist) (n : nat) (ptr : Z) : option (list plist) :=
  match n with
  | O => Some []
  | S n =>
      let* off := _getOffsetOfRefAt base data t ptr in
      let* pl := decode_object off in
      let* pls := decode_refs decode_object n (ptr + _objectRefSize t) in
      Some (pl :: pls)
  end.

(** The object at [off], if it is well formed and at most [depth] deep. *)
Fixpoint decode_object (depth : nat) (off : Z) : option plist :=
  match depth with
  | O => None
  | S depth =>
      if (off <? 8) || (table <=? off) then None
      else
        let* marker := byte_at base data (base + off) in
        if is_collection marker then
          let* (count, ptr) := mjoin (collection_refs base data t off marker) in
          let* pls := decode_refs (decode_object depth) (Z.to_nat count) ptr in
          if forallb _plistIsPrimitive (take (key_count marker (Z.to_nat count)) pls) then Some (make_collection marker pls) else None
        else mjoin (read_leaf base data t off marker)
  end.

Lemma decode_refs_mono (d1 d2 : Z -> option plist) n ptr pls :
  (forall off pl, d1 off = Some pl -> d2 off = Some pl) -> decode_refs d1 n ptr = Some pls -> decode_refs d2 n ptr = Some pls.
Proof.
  intros Hd. revert ptr pls. induction n as [|n IH]; intros ptr pls; cbn [decode_refs]; [done|].
  intros (off & -> & (pl & E & (pls' & E' & [= <-])%opt_bind_Some)%opt_bind_Some)%opt_bind_Some. cbn [opt_bind].
  rewrite (Hd off pl E). cbn [opt_bind]. by rewrite (IH _ _ E').
Qed.

Lemma decode_step depth off pl : decode_object depth off = Some pl -> decode_object (S depth) off = Some pl.
Proof.
  revert off pl. induction depth as [|depth IH]; intros off pl; [done|]. intros E. change (decode_object (S (S depth)) off = Some pl).
  cbn [decode_object] in E. remember (S depth) as d eqn:Hd. cbn [decode_object]. subst d.
  destruct (_ || _); [done|]. destruct (byte_at base data (base + off)) as [marker|]; [|done]. cbn [opt_bind] in E |- *.
  destruct (is_collection marker); [|done]. destruct (mjoin _) as [[count ptr]|]; [|done]. cbn [opt_bind] in E |- *.
  apply opt_bind_Some in E as (pls & Er & E). by rewrite (decode_refs_mono _ _ _ _ _ IH Er).
Qed.

Lemma decode_mono d1 d2 off pl : (d1 <= d2)%nat -> decode_object d1 off = Some pl -> decode_object d2 off = Some pl.
Proof. induction 1 as [|d2 _ IH]; [done|]. intros E. by apply decode_step, IH. Qed.

Lemma decode_unique d1 d2 off pl1 pl2 : decode_object d1 off = Some pl1 -> decode_object d2 off = Some pl2 -> pl1 = pl2.
Proof.
  intros E1%(decode_mono _ (Nat.max d1 d2)) E2%(decode_mono _ (Nat.max d1 d2)); [congruence|lia..].
Qed.

(** ** The cache and the path *)

Definition cache_sound (objects : option (gmap Z plist)) : Prop :=
  forall off pl, objects ≫= (.!! off) = Some pl -> exists d, decode_object d off = Some pl.

Lemma cache_sound_add keep objects off pl d : cache_sound objects -> decode_object d off = Some pl -> cache_sound (cache keep objects off pl).
Proof.
  intros Hc E. unfold cache. destruct keep, objects as [m|]; [|done..]. intros off' pl'. cbn. rewrite lookup_insert_Some.
  intros [[<- <-]|[_ Hm']]; [by exists d|by apply Hc].
Qed.

Definition all_offsets : gset Z := list_to_set (seqZ 8 (table - 8)).

(** How much deeper the recursion can go. *)
Definition room (set : option (gset Z)) (depth : Z) : nat :=
  match set with
  | None => Z.to_nat (16 - depth) + 1 + size all_offsets
  | Some s => size (all_offsets ∖ s)
  end.

Lemma elem_of_all_offsets off : off ∈ all_offsets <-> 8 <= off < table.
Proof. unfold all_offsets. rewrite elem_of_list_to_set, elem_of_seqZ. lia. Qed.

Lemma room_enter set depth off : 8 <= off < table -> (forall s, set = Some s -> off ∉ s) ->
  (room (enter_path set depth off) (depth + 1) < room set depth)%nat.
Proof.
  intros Hoff Hs. pose proof (proj2 (elem_of_all_offsets off) Hoff) as Hin. unfold enter_path, room. destruct set as [s|]; cbn [fmap option_fmap option_map].
  - apply subset_size. specialize (Hs s eq_refl). set_solver.
  - destruct (Z.ltb_spec 15 depth); cbn [fmap option_fmap option_map]; [|lia].
    assert (size (all_offsets ∖ ({[off]} ∪ ∅)) < size all_offsets)%nat; [|lia]. apply subset_size. set_solver.
Qed.

Lemma leave_enter set depth off : (forall s, set = Some s -> off ∉ s) -> leave_path set (enter_path set depth off) off = set.
Proof.
  intros Hs. unfold leave_path, enter_path. destruct set as [s|]; [|done]. cbn [fmap option_fmap option_map]. f_equal.
  specialize (Hs s eq_refl). apply leibniz_equiv. set_solver.
Qed.

(** ** The reader is total *)

Local Notation create := (__CFBinaryPlistCreateObjectFiltered base data t).

(** What every call keeps: the path. *)
Notation keeps_path set := (fun r : plist * option (gmap Z plist) * option (gset Z) => r.2 = set).

Lemma read_objects_total (c : Z -> option (gmap Z plist) -> option (gset Z) -> option (option (plist * option (gmap Z plist) * option (gset Z))))
    n keys ptr objects set :
  (forall off objects, 0 <= off -> sound (c off objects set) (keeps_path set)) ->
  sound (read_objects base data t c n keys ptr objects set) (fun r => r.2 = set /\ length r.1.1 = n).
Proof.
  intros Hc. revert keys ptr objects. induction n as [|n IH]; intros keys ptr objects; cbn [read_objects]; [by apply sound_ret|].
  destruct (getOffsetOfRefAt_inside ptr) as (off & -> & Hoff & _). cbn [opt_bind].
  eapply sound_bind; [by apply Hc|]. intros [[pl objects'] set']. cbn [snd]. intros ->. apply sound_guard. intros _.
  eapply sound_bind; [apply IH|]. intros [[pls objects''] set'']. cbn. intros [-> <-]. by apply sound_ret.
Qed.

Lemma not_on_path set off : negb (match set with Some s => bool_decide (off ∈ s) | None => false end) = true ->
  forall s : gset Z, set = Some s -> off ∉ s.
Proof. intros E%negb_true_iff s ->. by apply bool_decide_eq_false in E. Qed.

Lemma in_table off : negb ((off <? 8) || (objectsRangeEnd t <? off)) = true -> 8 <= off < table.
Proof. rewrite objectsRangeEnd_eq, negb_true_iff, orb_false_iff, !Z.ltb_ge. lia. Qed.

Lemma create_total fuel option_ off objects set depth : 0 <= off -> (room set depth < fuel)%nat ->
  sound (create fuel option_ off objects set depth) (keeps_path set).
Proof.
  revert off objects set depth. induction fuel as [|fuel IH]; intros off objects set depth Hoff Hroom; [lia|]. cbn [__CFBinaryPlistCreateObjectFiltered].
  destruct (objects ≫= (.!! off)) as [pl|]; [by apply sound_ret|].
  apply sound_guard. intros Hs. pose proof (not_on_path _ _ Hs) as Hpath. apply sound_guard. intros Hin%in_table. pose proof table_inside.
  destruct (byte_at_inside (base + off)) as (marker & -> & Hmk); [lia|]. cbn [opt_bind]. destruct (is_collection marker).
  - eapply sound_bind; [apply collection_refs_sound; [lia|done]|]. intros [count ptr] _.
    eapply sound_bind; [apply read_objects_total; intros; apply IH; [done|]|].
    + pose proof (room_enter set depth off Hin Hpath). lia.
    + intros [[pls objects'] inner]. cbn [fst snd]. intros [-> _]. apply sound_ret. cbn [snd]. by apply leave_enter.
  - eapply sound_bind; [apply read_leaf_sound; [lia|done]|]. intros pl _. by apply sound_ret.
Qed.

(** ** What it returns is the unfolding *)

Lemma read_objects_sound (c : Z -> option (gmap Z plist) -> option (gset Z) -> option (option (plist * option (gmap Z plist) * option (gset Z))))
    n keys ptr objects set pls objects' set' :
  (forall off objects pl objects' set', 0 <= off -> cache_sound objects -> c off objects set = Some (Some (pl, objects', set')) ->
     set' = set /\ cache_sound objects' /\ exists d, decode_object d off = Some pl) ->
  cache_sound objects -> read_objects base data t c n keys ptr objects set = Some (Some (pls, objects', set')) ->
  set' = set /\ cache_sound objects' /\ length pls = n /\ forallb _plistIsPrimitive (take keys pls) = true /\
  exists d, decode_refs (decode_object d) n ptr = Some pls.
Proof.
  intros Hc. revert keys ptr objects pls. induction n as [|n IH]; intros keys ptr objects pls Hs; cbn [read_objects decode_refs].
  { intros [= <- <- <-]. split; [done|]; split; [done|]; split; [done|]; split; [by destruct keys|by exists 0%nat]. }
  intros (off & Eo & E)%opt_bind_Some. rewrite Eo. cbn [opt_bind]. assert (0 <= off) as Hoff.
  { destruct (getOffsetOfRefAt_inside ptr) as (off' & E' & ? & _). congruence. }
  destruct (c off objects set) as [[[[pl objects1] set1]|]|] eqn:Ec; [|done..].
  cbn [try_bind] in E. destruct (Hc _ _ _ _ _ Hoff Hs Ec) as (-> & Hs1 & d1 & Hd1).
  destruct (match keys with O => true | S _ => _plistIsPrimitive pl end) eqn:Ek; [|done].
  destruct (read_objects _ _ _ _ n (pred keys) _ objects1 set) as [[[[pls1 objects2] set2]|]|] eqn:Er; [|done..].
  cbn [try_bind] in E. injection E as <- <- <-. destruct (IH _ _ _ _ Hs1 Er) as (-> & Hs2 & <- & Hp & d2 & Hd2).
  split_and!; try done.
  - destruct keys; [done|]. cbn. by rewrite Ek.
  - exists (Nat.max d1 d2). rewrite (decode_mono d1 _ _ _ (Nat.le_max_l _ _) Hd1). cbn [opt_bind].
    rewrite (decode_refs_mono (decode_object d2) (decode_object (Nat.max d1 d2)) _ _ pls1); [done| |done]. intros off' pl'. apply decode_mono. lia.
Qed.

Lemma create_sound fuel option_ off objects set depth pl objects' set' :
  0 <= off -> (room set depth < fuel)%nat -> cache_sound objects -> create fuel option_ off objects set depth = Some (Some (pl, objects', set')) ->
  set' = set /\ cache_sound objects' /\ exists d, decode_object d off = Some pl.
Proof.
  revert off objects set depth pl objects' set'.
  induction fuel as [|fuel IH]; intros off objects set depth pl objects' set' Hoff Hroom Hs E; [done|]. cbn [__CFBinaryPlistCreateObjectFiltered] in E.
  destruct (objects ≫= (.!! off)) as [pl'|] eqn:Eh; [injection E as -> -> ->; split_and!; [done..|by apply Hs]|].
  destruct (negb (match set with Some s => _ | None => _ end)) eqn:E1; [|done]. pose proof (not_on_path _ _ E1) as Hpath.
  destruct (negb _) eqn:E2 in E; [|done]. apply in_table in E2. pose proof table_inside.
  destruct (byte_at base data (base + off)) as [marker|] eqn:Eb; [|done]. cbn [opt_bind] in E.
  assert (((off <? 8) || (table <=? off)) = false) as Hr by (bool_case; done).
  destruct (is_collection marker) eqn:Ecol.
  - destruct (collection_refs _ _ _ off marker) as [[[count ptr]|]|] eqn:Ecr; [|done..]. cbn [try_bind] in E.
    pose proof (room_enter set depth off E2 Hpath) as Hre.
    destruct (read_objects _ _ _ _ _ _ _ _ _) as [[[[pls objects1] set1]|]|] eqn:Er; [|done..]. cbn [try_bind] in E. injection E as <- <- <-.
    apply read_objects_sound in Er as (-> & Hs1 & Hl & Hp & d & Hd); [| |done].
    + assert (decode_object (S d) off = Some (make_collection marker pls)) as Hdec.
      { cbn [decode_object]. rewrite Hr, Eb. cbn [opt_bind]. rewrite Ecol, Ecr. cbn [mjoin option_join opt_bind]. rewrite Hd. cbn [opt_bind]. by rewrite Hp. }
      split_and!; [by apply leave_enter|by apply (cache_sound_add _ _ _ _ (S d))|by exists (S d)].
    + intros off' objects2 pl' objects2' set2' Hoff' Hs2 Ec2. apply (IH _ _ _ _ _ _ _ Hoff') in Ec2; [done|lia|done].
  - destruct (read_leaf _ _ _ off marker) as [[pl'|]|] eqn:El; [|done..]. cbn [try_bind] in E. injection E as -> <- <-.
    assert (decode_object 1 off = Some pl) as Hdec.
    { cbn [decode_object]. rewrite Hr, Eb. cbn [opt_bind]. by rewrite Ecol, El. }
    split_and!; [done|by apply (cache_sound_add _ _ _ _ 1)|by exists 1%nat].
Qed.

(** ** Whatever unfolds is returned *)

Lemma read_objects_complete (c : Z -> option (gmap Z plist) -> option (gset Z) -> option (option (plist * option (gmap Z plist) * option (gset Z))))
    d n keys ptr objects set pls :
  (forall off objects pl, 0 <= off -> cache_sound objects -> decode_object d off = Some pl ->
     exists objects', c off objects set = Some (Some (pl, objects', set)) /\ cache_sound objects') ->
  cache_sound objects -> decode_refs (decode_object d) n ptr = Some pls -> forallb _plistIsPrimitive (take keys pls) = true ->
  exists objects', read_objects base data t c n keys ptr objects set = Some (Some (pls, objects', set)) /\ cache_sound objects'.
Proof.
  intros Hc. revert keys ptr objects pls. induction n as [|n IH]; intros keys ptr objects pls Hs; cbn [read_objects decode_refs].
  { intros [= <-] _. by exists objects. }
  intros (off & Eo & (pl & Ed & (pls' & Er & [= <-])%opt_bind_Some)%opt_bind_Some)%opt_bind_Some Hp. rewrite Eo. cbn [opt_bind].
  assert (0 <= off) as Hoff. { destruct (getOffsetOfRefAt_inside ptr) as (off' & E' & ? & _). congruence. }
  destruct (Hc off objects pl Hoff Hs Ed) as (objects1 & -> & Hs1). cbn [try_bind].
  assert ((match keys with O => true | S _ => _plistIsPrimitive pl end) = true /\ forallb _plistIsPrimitive (take (pred keys) pls') = true) as [-> Hp'].
  { destruct keys; [by destruct pls'|]. cbn in Hp. by apply andb_true_iff in Hp. }
  destruct (IH (pred keys) _ _ _ Hs1 Er Hp') as (objects2 & -> & Hs2). cbn [try_bind]. by exists objects2.
Qed.

(** The path holds offsets that are not at most as deep as [off]. *)
Lemma create_complete d off pl : decode_object d off = Some pl -> forall fuel option_ objects set depth,
  (room set depth < fuel)%nat -> cache_sound objects -> (forall s x, set = Some s -> x ∈ s -> decode_object d x = None) ->
  exists objects', create fuel option_ off objects set depth = Some (Some (pl, objects', set)) /\ cache_sound objects'.
Proof.
  revert off pl. induction d as [|d IH]; intros off pl E fuel option_ objects set depth Hroom Hs Hset; [done|].
  assert (forall x, decode_object (S d) x = None -> decode_object d x = None) as Hdown.
  { intros x Hx. destruct (decode_object d x) as [y|] eqn:Ey; [|done]. apply decode_step in Ey. congruence. }
  destruct (decode_object d off) as [pl'|] eqn:Ed.
  { pose proof (decode_unique _ _ _ _ _ Ed E) as ->. apply IH; try done. eauto. }
  destruct fuel as [|fuel]; [lia|]. cbn [__CFBinaryPlistCreateObjectFiltered].
  destruct (objects ≫= (.!! off)) as [pl'|] eqn:Eh.
  { destruct (Hs _ _ Eh) as [d' Hd']. rewrite (decode_unique _ _ _ _ _ Hd' E). by exists objects. }
  assert (forall s, set = Some s -> off ∉ s) as Hpath. { intros s Hss Hin. rewrite (Hset s off Hss Hin) in E. done. }
  assert ((match set with Some s => bool_decide (off ∈ s) | None => false end) = false) as ->.
  { destruct set; [|done]. apply bool_decide_eq_false. by apply Hpath. }
  cbn [negb]. pose proof E as Hdec. cbn [decode_object] in E. destruct ((off <? 8) || (table <=? off)) eqn:Er; [done|]. apply orb_false_iff in Er as [Er1%Z.ltb_ge Er2%Z.leb_gt].
  rewrite objectsRangeEnd_eq. destruct (Z.ltb_spec off 8); [lia|]. destruct (Z.ltb_spec (table - 1) off); [lia|]. cbn [orb negb].
  apply opt_bind_Some in E as (marker & -> & E). cbn [opt_bind]. destruct (is_collection marker) eqn:Ecol.
  - apply opt_bind_Some in E as ([count ptr] & Ecr & E). apply opt_bind_Some in E as (pls & Erf & E).
    destruct (collection_refs _ _ _ off marker) as [[cp|]|]; [|done..]. injection Ecr as ->. cbn [try_bind].
    destruct (forallb _ _) eqn:Ep in E; [|done]. injection E as <-.
    pose proof (room_enter set depth off (conj Er1 Er2) Hpath) as Hre.
    destruct (read_objects_complete (fun o ob s => create fuel option_ o ob s (depth + 1)) d (Z.to_nat count) (key_count marker (Z.to_nat count)) ptr objects
      (enter_path set depth off) pls) as (objects1 & -> & Hs1); [|done..|].
    + intros off' objects' pl' _ Hs' Ed'. apply IH; [done|lia|done|]. intros s x Hx Hin. unfold enter_path in Hx. destruct set as [s0|].
      * cbn in Hx. injection Hx as <-. apply elem_of_union in Hin as [->%elem_of_singleton|Hin]; [done|]. by apply Hdown, (Hset s0).
      * destruct (15 <? depth); [|done]. cbn in Hx. injection Hx as <-. apply elem_of_union in Hin as [->%elem_of_singleton|Hin]; [done|set_solver].
    + cbn [try_bind]. rewrite leave_enter by done. eexists. split; [done|]. apply (cache_sound_add _ _ _ _ (S d) Hs1 Hdec).
  - destruct (read_leaf _ _ _ off marker) as [[pl'|]|] eqn:El; [|done..]. injection E as ->. cbn [try_bind]. eexists. split; [done|].
    apply (cache_sound_add _ _ _ _ (S d) Hs Hdec).
Qed.
End Leaves.
End Objects.
End Reading.

(** ** Parsing *)

Section Parsing.
Context `{!ASCIIStrings}.

(** The property list that a block of bytes denotes. *)
Definition denotes_plist (base : Z) (data : list Z) (pl : plist) : Prop :=
  exists marker off t depth, __CFBinaryPlistGetTopLevelInfo base data = Some (Some (marker, off, t)) /\ decode_object base data t depth off = Some pl.

Lemma room_bound base data t : memory_block base data -> trailer_ok base data t -> (room t None 0 <= length data + 20)%nat.
Proof.
  intros Hm Ht. unfold room, all_offsets. pose proof (table_inside base data Hm t Ht). rewrite size_list_to_set by apply NoDup_seqZ.
  rewrite length_seqZ. lia.
Qed.

Lemma parse_spec base data fuel option_ : memory_block base data -> (length data + 20 < fuel)%nat ->
  exists r, __CFTryParseBinaryPlist base data fuel option_ = Some r /\ forall pl, r = Some pl <-> denotes_plist base data pl.
Proof.
  intros Hm Hf. unfold __CFTryParseBinaryPlist, datalen_of, denotes_plist.
  destruct (GetTopLevelInfo_inside base data Hm) as (r & Er & Hr).
  destruct (Z.leb_spec 8 (Z.of_nat (length data))) as [H8|H8].
  2: { exists None. split; [done|]. intros pl. split; [done|]. intros (marker & off & t & d & E & _). rewrite Er in E. injection E as ->.
       destruct (Hr _ _ _ eq_refl) as [Ht _]. pose proof (table_inside base data Hm t Ht). lia. }
  rewrite Er. destruct r as [[[marker off] t]|]; cbn [try_bind].
  2: { exists None. split; [done|]. intros pl. split; [done|]. by intros (marker & off & t & d & E & _). }
  destruct (Hr _ _ _ eq_refl) as [Ht Hoff]. pose proof (room_bound base data t Hm Ht) as Hroom.
  assert (cache_sound base data t (Some ∅)) as Hs0. { intros o p. cbn. by rewrite lookup_empty. }
  destruct (create_total base data Hm t Ht fuel option_ off (Some ∅) None 0) as (r & E & _); [lia..|]. rewrite E. destruct r as [[[pl objs] set]|]; cbn [try_bind].
  - eexists. split; [done|]. destruct (create_sound base data Hm t Ht fuel option_ off (Some ∅) None 0 pl objs set ltac:(lia) ltac:(lia) Hs0 E) as (_ & _ & d & Hd).
    intros pl'. split; [intros [= <-]; by exists marker, off, t, d|]. intros (marker' & off' & t' & d' & [= <- <- <-] & Hd').
    by rewrite (decode_unique _ _ _ _ _ _ _ _ Hd Hd').
  - exists None. split; [done|]. intros pl. split; [done|]. intros (marker' & off' & t' & d' & [= <- <- <-] & Hd').
    destruct (create_complete base data Hm t Ht d' off pl Hd' fuel option_ (Some ∅) None 0) as (objs & E' & _); [lia|done|done|congruence].
Qed.

(** C22: reading any block of bytes in memory, above address 256 and not reaching the end
    of the address space, ends, with a recursion no deeper than the length of the block
    and 20, and without reading a byte outside the block.  It returns exactly the property list that the trailer, the table of offsets
    and the references denote, when the objects that are reached from the top object are
    all valid and their unfolding is finite; a file whose references lead round in a
    circle is refused.  The cache of the objects that were read, the path on which
    circles are looked for, which exists from depth 16 on only, and the mutability
    option make no difference. *)
Theorem __CFTryParseBinaryPlist_ends base data fuel option_ : memory_block base data -> (length data + 20 < fuel)%nat ->
  exists r, __CFTryParseBinaryPlist base data fuel option_ = Some r /\ forall pl, r = Some pl <-> denotes_plist base data pl.
Proof. apply parse_spec. Qed.
End Parsing.

(** *** Examples *)

(** The trailer of a file of [n] objects before [table]. *)
Definition small_trailer (n table : Z) : list Z := [0; 0; 0; 0; 0; 0; 1; 1; 0; 0; 0; 0; 0; 0; 0; n; 0; 0; 0; 0; 0; 0; 0; 0; 0; 0; 0; 0; 0; 0; 0; table].

(** An array that holds itself. *)
Definition circular_file : list Z := bplist00 ++ [0xA1; 0x00] ++ [8] ++ small_trailer 1 10.

Lemma small_block base data : 256 <= base < 2 ^ 62 -> (length data < 1000)%nat -> forallb (fun b => (0 <=? b) && (b <? 256)) data = true -> memory_block base data.
Proof.
  intros Hb Hl Hf. split; [lia|lia|]. apply Forall_forall. intros b Hb'. rewrite forallb_forall in Hf. apply list_elem_of_In, Hf in Hb'. unfold is_octet. lia.
Qed.

Lemma __CFTryParseBinaryPlist_ends_witness :
  exists r, __CFTryParseBinaryPlist 4096 circular_file 100 kCFPropertyListImmutable = Some r /\
    forall pl, r = Some pl <-> denotes_plist 4096 circular_file pl.
Proof. apply (__CFTryParseBinaryPlist_ends 4096 circular_file 100 kCFPropertyListImmutable); [apply small_block; [lia|cbn; lia|reflexivity]|cbn; lia]. Defined.

Lemma circular_file_refused : __CFTryParseBinaryPlist 4096 circular_file 100 kCFPropertyListImmutable = Some None.
Proof. vm_compute. reflexivity. Qed.

(** A string without characters, marked as UTF-16, is refused. *)
Lemma empty_unicode_refused :
  __CFTryParseBinaryPlist 4096 (bplist00 ++ [0x60] ++ [8] ++ small_trailer 1 9) 100 kCFPropertyListImmutable = Some None /\
  __CFTryParseBinaryPlist 4096 (bplist00 ++ [0x50] ++ [8] ++ small_trailer 1 9) 100 kCFPropertyListImmutable = Some (Some (PString [])).
Proof. split; vm_compute; reflexivity. Qed.

(** Of an integer of 16 bytes only the low ones are read. *)
Lemma high_word_dropped :
  __CFTryParseBinaryPlist 4096 (bplist00 ++ [0x14; 0; 0; 0; 0; 0; 0; 0; 1; 0; 0; 0; 0; 0; 0; 0; 2] ++ [8] ++ small_trailer 1 25) 100 kCFPropertyListImmutable =
    Some (Some (PNumber (SInt128 0 2))).
Proof. vm_compute. reflexivity. Qed.

(** The string k, as a key to look for. *)
Definition key_k : dictionary_key := {| key_value := PString [0x6B]; key_cstring := Some [0x6B]; key_buffer := [] |}.

(** A dictionary from k to itself, whose key is the last object before the table:
    the parser finds it, the search refuses the file. *)
Lemma last_key_not_found :
  let file := bplist00 ++ [0xD1; 0x01; 0x01; 0x51; 0x6B] ++ [8; 11] ++ small_trailer 2 13 in
  let t := {| _offsetIntSize := 1; _objectRefSize := 1; _numObjects := 2; _topObject := 0; _offsetTableOffset := 13 |} in
  __CFTryParseBinaryPlist 4096 file 100 kCFPropertyListImmutable = Some (Some (PDictionary [PString [0x6B]] [PString [0x6B]])) /\
  __CFBinaryPlistGetOffsetForValueFromDictionary3 4096 file t 100 (fun a b => false) key_k 8 = Some None.
Proof. split; vm_compute; reflexivity. Qed.

(** A dictionary whose key refers to an object that does not exist: the search reads
    the byte before the block. *)
Lemma invalid_key_read_before :
  let file := bplist00 ++ [0xD1; 0x07; 0x01; 0x51; 0x6B] ++ [8; 11] ++ small_trailer 2 13 in
  let t := {| _offsetIntSize := 1; _objectRefSize := 1; _numObjects := 2; _topObject := 0; _offsetTableOffset := 13 |} in
  __CFBinaryPlistGetTopLevelInfo 4096 file = Some (Some (0xD1, 8, t)) /\
  __CFBinaryPlistGetOffsetForValueFromDictionary3 4096 file t 100 (fun a b => false) key_k 8 = None /\
  __CFTryParseBinaryPlist 4096 file 100 kCFPropertyListImmutable = Some None.
Proof. split_and!; vm_compute; reflexivity. Qed.
