(* ===== verification/CFBinaryPListWrite.v ===== *)
(** * Writing binary property lists

    The buffer delivers what is written to it in order; an object is written as
    the format says; the list of objects holds every object that is referred to.
    Together they give the bytes of a file. *)

From S2P Require Import Prelude CFInternal CFBinaryPList CFBinaryPListRead.
From stdpp Require Import base list numbers option gmap sets.
From Stdlib Require Import ZArith Lia.
Open Scope Z_scope.
Open Scope cf_scope.

(** ** The buffer *)

(** [out] has been written to a buffer for the data object [contents]. *)
Record buffer_holds (contents out : list Z) (buf : __CFBinaryPlistWriteBuffer) : Prop := {
  holds_target : streamIsData buf = true /\ databytes buf = None /\ error buf = false;
  holds_size : Z.of_nat (length (buffer buf)) = sizeof_buffer;
  holds_used : 0 <= used buf < sizeof_buffer;
  holds_written : written buf + used buf = Z.of_nat (length out);
  holds_stream : stream buf = Some (contents ++ take (Z.to_nat (written buf)) out);
  holds_rest : take (Z.to_nat (used buf)) (buffer buf) = drop (Z.to_nat (written buf)) out;
  holds_low : 0 <= written buf
}.

(** The largest amount that is followed. *)
Definition write_limit : Z := 2 ^ 62.

Lemma copy_byte_ok dst u src at_ k : 0 <= u + k < Z.of_nat (length dst) -> 0 <= at_ + k < Z.of_nat (length src) ->
  exists b, src !! Z.to_nat (at_ + k) = Some b /\ copy_byte dst u src at_ k = Some (<[Z.to_nat (u + k) := b]> dst).
Proof.
  intros Hu Ha. unfold copy_byte. rewrite rd_lookup by lia. destruct (lookup_lt_is_Some_2 src (Z.to_nat (at_ + k))) as [b Hb]; [lia|].
  exists b. rewrite Hb. cbn [opt_bind]. split; [done|]. by apply wr_ok.
Qed.

Lemma block_cells (src : list Z) at_ (n : nat) k b : 0 <= at_ -> (Z.of_nat k < Z.of_nat n)%Z -> src !! Z.to_nat (at_ + Z.of_nat k) = Some b ->
  take n (drop (Z.to_nat at_) src) !! k = Some b.
Proof. intros Ha Hk Hb. rewrite lookup_take_lt, lookup_drop by lia. rewrite <- Hb. f_equal. lia. Qed.

(** The unrolled copy is a [memmove]. *)
Lemma copy_bytes_ok dst u src at_ n : 0 <= u -> 0 <= at_ -> 0 <= n -> u + n <= Z.of_nat (length dst) -> at_ + n <= Z.of_nat (length src) ->
  copy_bytes dst u src at_ n = Some (take (Z.to_nat u) dst ++ take (Z.to_nat n) (drop (Z.to_nat at_) src) ++ drop (Z.to_nat (u + n)) dst).
Proof.
  intros Hu Ha Hn Hd Hs. rewrite <- memmove_ok by lia. unfold copy_bytes.
  assert (forall k, k = n -> 0 < k <= 4 -> exists d', length d' = length dst /\
    (forall i, d' !! i = if decide (Z.to_nat u <= i < Z.to_nat u + Z.to_nat k)%nat then src !! (i - Z.to_nat u + Z.to_nat at_)%nat else dst !! i) /\
    memmove dst u src at_ n = Some d') as Hmove.
  { intros k -> Hk. rewrite memmove_ok by lia. eexists. split; [|split; [|done]].
    - rewrite !length_app, !length_take, !length_drop. lia.
    - intros i. replace (Z.to_nat (u + n)) with (Z.to_nat u + Z.to_nat n)%nat by lia.
      rewrite lookup_window by (rewrite ?length_take, ?length_drop; lia). case_decide; [|done].
      rewrite lookup_take_lt, lookup_drop by lia. f_equal. lia. }
  assert (forall d' (d'' : list Z), length d' = length dst -> length d'' = length dst -> (forall i, d' !! i = d'' !! i) -> Some d' = Some d'') as Hext.
  { intros d' d'' _ _ Hi. f_equal. by apply list_eq. }
  destruct (Z.eqb_spec n 4) as [H4|H4]; [|destruct (Z.eqb_spec n 3) as [H3|H3]; [|destruct (Z.eqb_spec n 2) as [H2|H2]; [|destruct (Z.eqb_spec n 1) as [H1|H1]; [|done]]]];
  (destruct (Hmove n eq_refl) as (d & Hl & Hc & ->); [lia|]);
  repeat match goal with
    | |- context [copy_byte ?ds u src at_ ?k] =>
        destruct (copy_byte_ok ds u src at_ k) as (? & ? & ->); [rewrite ?length_insert; lia|lia|cbn [opt_bind]]
    end;
  (apply Hext; [rewrite ?length_insert; done|done|]; intros i; rewrite Hc; case_decide as Hi;
   [|by rewrite !list_lookup_insert_ne by lia]).
  all: assert (exists j, 0 <= j < n /\ i = Z.to_nat (u + j)) as (j & Hj & ->) by (exists (Z.of_nat i - u); lia);
    replace (Z.to_nat (u + j) - Z.to_nat u + Z.to_nat at_)%nat with (Z.to_nat (at_ + j)) by lia;
    assert (j = 0 \/ j = 1 \/ j = 2 \/ j = 3) as [->|[->|[-> | ->]]] by lia; try lia;
    repeat first [rewrite list_lookup_insert_eq by (rewrite ?length_insert; lia)|rewrite list_lookup_insert_ne by lia]; congruence.
Qed.

Lemma writeBytes_data buf src at_ n s :
  streamIsData buf = true -> databytes buf = None -> error buf = false -> stream buf = Some s ->
  0 <= at_ -> 0 <= n -> at_ + n <= Z.of_nat (length src) -> 0 <= written buf -> written buf + n < 2 ^ 64 ->
  exists buf', writeBytes buf src at_ n = Some buf' /\ streamIsData buf' = true /\ databytes buf' = None /\ error buf' = false /\
    stream buf' = Some (s ++ take (Z.to_nat n) (drop (Z.to_nat at_) src)) /\ written buf' = written buf + n /\ used buf' = used buf /\ buffer buf' = buffer buf.
Proof.
  intros H1 H2 H3 H4 Ha Hn Hs Hw Hl. unfold writeBytes. destruct (Z.leb_spec n 0) as [H0|H0].
  { exists buf. assert (n = 0) as -> by lia. cbn [Z.to_nat take]. rewrite app_nil_r, Z.add_0_r. done. }
  unfold databytes_full. rewrite H3, H2, H1, H4. cbn [opt_bind]. rewrite block_ok by lia. cbn [opt_bind]. eexists. split; [done|]. cbn.
  rewrite uwrap_id by (unfold in_unsigned; lia). done.
Qed.

Lemma bufferFlush_ok contents out buf : buffer_holds contents out buf -> Z.of_nat (length out) < write_limit ->
  exists buf', bufferFlush buf = Some buf' /\ buffer_holds contents out buf' /\ used buf' = 0.
Proof.
  intros [(H1 & H2 & H3) Hsz Hu Hw Hs Hr Hl] Hlim. unfold write_limit in Hlim. unfold bufferFlush.
  destruct (writeBytes_data buf (buffer buf) 0 (used buf) (contents ++ take (Z.to_nat (written buf)) out)) as (buf' & -> & H1' & H2' & H3' & Hs' & Hw' & Hu' & Hb'); try done; try lia.
  cbn [opt_bind]. eexists. split; [done|]. split; [|reflexivity]. change (Z.to_nat 0) with 0%nat in Hs'. rewrite drop_0, Hr in Hs'.
  rewrite <- (assoc_L (++)), take_drop in Hs'.
  split; cbn [set_used streamIsData databytes error buffer used written stream]; change (swrap 32 0) with 0; try done; try lia.
  - by rewrite Hb'.
  - rewrite Hs', take_ge by lia. done.
  - rewrite drop_ge by lia. done.
Qed.

Lemma set_used_small buf n : 0 <= n <= sizeof_buffer -> used (set_used buf n) = n.
Proof. intros Hn. unfold sizeof_buffer in Hn. cbn. apply swrap_id; [lia|]. unfold in_signed. lia. Qed.

(** What is written is appended. *)
Lemma bufferWrite_ok contents out buf src at_ n :
  buffer_holds contents out buf -> 0 <= at_ -> 0 <= n -> at_ + n <= Z.of_nat (length src) -> Z.of_nat (length out) + n < write_limit ->
  exists buf', bufferWrite buf src at_ n = Some buf' /\ buffer_holds contents (out ++ take (Z.to_nat n) (drop (Z.to_nat at_) src)) buf'.
Proof.
  intros Hh Ha Hn Hs Hlim. unfold bufferWrite. set (new := take (Z.to_nat n) (drop (Z.to_nat at_) src)).
  assert (Z.of_nat (length new) = n) as Hnew by (unfold new; rewrite length_take, length_drop; lia).
  destruct (Z.eqb_spec 0 n) as [H0|H0].
  { exists buf. split; [done|]. assert (new = []) as -> by (destruct new; [done|cbn in Hnew; lia]). by rewrite app_nil_r. }
  pose proof Hh as [(H1 & H2 & H3) Hsz Hu Hw Hst Hr Hl]. unfold write_limit in Hlim.
  destruct (Z.leb_spec sizeof_buffer n) as [Hbig|Hsmall].
  { destruct (bufferFlush_ok contents out buf Hh) as (b1 & -> & [(G1 & G2 & G3) Gsz Gu Gw Gst Gr Gl] & Gu0); [unfold write_limit; lia|]. cbn [opt_bind].
    destruct (writeBytes_data b1 src at_ n (contents ++ take (Z.to_nat (written b1)) out)) as (b2 & -> & K1 & K2 & K3 & Ks & Kw & Ku & Kb); try done; try lia.
    exists b2. split; [done|]. rewrite take_ge in Ks by lia. split; try done; rewrite ?Ku, ?Kb, ?Kw, ?length_app; try lia.
    - rewrite Ks, (take_ge (out ++ new)) by (rewrite length_app; lia). by rewrite (assoc_L (++)).
    - rewrite Gu0, drop_ge by (rewrite length_app; lia). done. }
  assert (has_target buf = true) as Ht by (unfold has_target; by rewrite Hst). rewrite Ht.
  set (c := Z.min n (sizeof_buffer - used buf)). rewrite copy_bytes_ok by lia. cbn [opt_bind].
  set (b' := take (Z.to_nat (used buf)) (buffer buf) ++ _).
  assert (Z.of_nat (length b') = sizeof_buffer) as Hb' by (unfold b'; rewrite !length_app, !length_take, !length_drop; lia).
  rewrite set_used_small by lia.
  assert (take (Z.to_nat (used buf + c)) b' = drop (Z.to_nat (written buf)) out ++ take (Z.to_nat c) new) as Htake.
  { unfold b'. rewrite (assoc_L (++)), take_app_le by (rewrite length_app, !length_take, !length_drop; lia).
    rewrite take_ge by (rewrite length_app, !length_take, !length_drop; lia). rewrite Hr. f_equal. unfold new. rewrite take_take. f_equal. lia. }
  destruct (Z.eqb_spec sizeof_buffer (used buf + c)) as [Hfull|Hroom].
  - destruct (writeBytes_data (set_used (set_buffer buf b') (used buf + c)) b' 0 sizeof_buffer (contents ++ take (Z.to_nat (written buf)) out))
      as (b2 & E2 & K1 & K2 & K3 & Ks & Kw & Ku & Kb); try done; try (cbn; lia).
    change (buffer (set_used (set_buffer buf b') (used buf + c))) with b'. rewrite E2. cbn [opt_bind]. cbn in Kw, Kb.
    assert (has_target b2 = true) as Ht2 by (unfold has_target; by rewrite Ks). rewrite Ht2, Kb. rewrite memmove_ok by lia. cbn [opt_bind].
    eexists. split; [done|]. change (Z.to_nat 0) with 0%nat in *. rewrite drop_0, Hfull, Htake, <- (assoc_L (++)) in Ks.
    assert (used (set_used (set_buffer b2 (take 0 b' ++ take (Z.to_nat (n - c)) (drop (Z.to_nat (at_ + c)) src) ++ drop (Z.to_nat (0 + (n - c))) b')) (n - c)) = n - c) as Hused
      by (apply set_used_small; lia).
    split; rewrite ?Hused; cbn [set_used set_buffer streamIsData databytes error buffer written stream]; rewrite ?Kw; try done.
    + rewrite take_0, app_nil_l, length_app, length_take, !length_drop. lia.
    + lia.
    + rewrite length_app. lia.
    + rewrite Ks. do 2 f_equal. rewrite (assoc_L (++)), take_drop. rewrite take_app_ge by lia. f_equal. f_equal. lia.
    + rewrite take_0, app_nil_l, take_app_le by (rewrite length_take, length_drop; lia). rewrite take_ge by (rewrite length_take, length_drop; lia).
      rewrite drop_app_ge by lia. unfold new. replace (Z.to_nat (written buf + sizeof_buffer) - length out)%nat with (Z.to_nat c) by lia.
      rewrite skipn_firstn_comm, drop_drop. f_equal; [lia|]. f_equal. lia.
    + lia.
  - eexists. split; [done|]. assert (c = n) as Hc by lia. rewrite Hc in *.
    assert (used (set_used (set_buffer buf b') (used buf + n)) = used buf + n) as Hused by (apply set_used_small; lia).
    split; rewrite ?Hused; cbn [set_used set_buffer streamIsData databytes error buffer written stream]; try done; try lia.
    + rewrite length_app. lia.
    + rewrite Hst, take_app_le by lia. done.
    + rewrite Htake, drop_app_le by lia. f_equal. apply take_ge. lia.
Qed.

(** ** Integers in big-endian bytes *)

Lemma length_bigEndian n v : length (bigEndian n v) = n.
Proof. induction n; cbn; [done|]. by f_equal. Qed.

Lemma drop_bigEndian k n v : drop k (bigEndian n v) = bigEndian (n - k) v.
Proof. revert n. induction k as [|k IH]; intros [|n]; cbn [drop bigEndian Nat.sub]; done || apply IH. Qed.

Lemma bigEndian_octets n v : Forall is_octet (bigEndian n v).
Proof.
  induction n as [|n IH]; cbn [bigEndian]; constructor; [|done]. unfold uwrap, is_octet. pose proof (Z.mod_pos_bound (Z.shiftr v (8 * Z.of_nat n)) (2 ^ 8)). lia.
Qed.

Lemma from_big_cons b bytes : from_big (b :: bytes) = b * 256 ^ Z.of_nat (length bytes) + from_big bytes.
Proof.
  induction bytes as [|c bytes IH] using rev_ind; [change (from_big [b]) with (0 + b); change (from_big []) with 0; change (256 ^ Z.of_nat (length (@nil Z))) with 1; lia|]. change (b :: bytes ++ [c]) with ((b :: bytes) ++ [c]).
  rewrite !from_big_snoc, IH, length_app. cbn [length]. rewrite Nat2Z.inj_add, Z.pow_add_r by lia. change (256 ^ Z.of_nat 1) with 256. ring.
Qed.

Lemma from_big_bigEndian_mod n v : from_big (bigEndian n v) = v mod 256 ^ Z.of_nat n.
Proof.
  induction n as [|n IH]; cbn [bigEndian]; [by rewrite Z.mod_1_r|]. rewrite from_big_cons, length_bigEndian, IH. unfold uwrap.
  change (2 ^ 8) with 256. rewrite Z.shiftr_div_pow2, Z.pow_mul_r by lia. change (2 ^ 8) with 256.
  rewrite Nat2Z.inj_succ, Z.pow_succ_r, (Z.mul_comm 256), Z.rem_mul_r by lia. ring.
Qed.

Lemma from_big_bigEndian n v : 0 <= v < 256 ^ Z.of_nat n -> from_big (bigEndian n v) = v.
Proof. intros Hv. rewrite from_big_bigEndian_mod. by apply Z.mod_small. Qed.

(** ** What an operation on the buffer appends *)

Definition appends (f : __CFBinaryPlistWriteBuffer -> option __CFBinaryPlistWriteBuffer) (bytes : list Z) : Prop :=
  forall contents out buf, buffer_holds contents out buf -> Z.of_nat (length out) + Z.of_nat (length bytes) < write_limit ->
  exists buf', f buf = Some buf' /\ buffer_holds contents (out ++ bytes) buf'.

Lemma appends_bind f g a b : appends f a -> appends g b -> appends (fun buf => let* buf := f buf in g buf) (a ++ b).
Proof.
  intros Hf Hg contents out buf Hh Hl. rewrite length_app in Hl. destruct (Hf contents out buf Hh) as (b1 & -> & H1); [lia|]. cbn [opt_bind].
  destruct (Hg contents (out ++ a) b1 H1) as (b2 & -> & H2); [rewrite length_app; lia|]. exists b2. by rewrite (assoc_L (++)).
Qed.

Lemma appends_nothing : appends Some [].
Proof. intros contents out buf Hh _. exists buf. by rewrite app_nil_r. Qed.

Lemma appends_write src at_ n bytes : 0 <= at_ -> 0 <= n -> at_ + n <= Z.of_nat (length src) -> take (Z.to_nat n) (drop (Z.to_nat at_) src) = bytes ->
  appends (fun buf => bufferWrite buf src at_ n) bytes.
Proof.
  intros Ha Hn Hs <- contents out buf Hh Hl. rewrite length_take, length_drop in Hl. apply bufferWrite_ok; [done..|lia].
Qed.

Lemma appends_all bytes n : n = Z.of_nat (length bytes) -> appends (fun buf => bufferWrite buf bytes 0 n) bytes.
Proof. intros ->. apply appends_write; [lia..|]. rewrite Nat2Z.id. change (Z.to_nat 0) with 0%nat. rewrite drop_0. by apply take_ge. Qed.

(** The last [n] bytes of an integer. *)
Lemma appends_tail (m : nat) v n : 0 <= n <= Z.of_nat m -> appends (fun buf => bufferWrite buf (bigEndian m v) (Z.of_nat m - n) n) (bigEndian (Z.to_nat n) v).
Proof.
  intros Hn. apply appends_write; [lia..|rewrite length_bigEndian; lia|]. rewrite drop_bigEndian, take_ge by (rewrite length_bigEndian; lia). f_equal. lia.
Qed.

(** ** The encoding of objects *)

Definition enc_int (v : Z) : list Z := int_marker v :: bigEndian (Z.to_nat (int_bytes v)) v.

Definition enc_count (marker count : Z) : list Z :=
  uwrap 8 (Z.lor marker (if count <? 15 then count else 0xf)) :: (if 15 <=? count then enc_int count else []).

Definition enc_number (num : CFNumber) : list Z :=
  match num with
  | Float32 bits => 0x22 :: bigEndian 4 bits
  | Float64 bits => 0x23 :: bigEndian 8 bits
  | SInt128 high low => 0x14 :: bigEndian 8 high ++ bigEndian 8 low
  | SInt64 v => enc_int (uwrap 64 v)
  end.

Definition enc_refs (table : gmap Z Z) (refSize : Z) (ps : list Z) : list Z :=
  flat_map (fun p => bigEndian (Z.to_nat refSize) (uwrap 32 (default 0 (table !! p)))) ps.

Definition enc_uid (v : Z) : list Z := Z.lor 0x80 (uwrap 8 (int_bytes v - 1)) :: bigEndian (Z.to_nat (int_bytes v)) v.

Lemma int_bytes_range v : 1 <= int_bytes v <= 8.
Proof. unfold int_bytes. repeat case_match; lia. Qed.

Lemma appendInt_appends v : appends (fun buf => _appendInt buf v) (enc_int v).
Proof.
  unfold _appendInt. change (enc_int v) with ([int_marker v] ++ bigEndian (Z.to_nat (int_bytes v)) v).
  pose proof (int_bytes_range v). apply appends_bind; [by apply appends_all|]. apply (appends_tail 8). lia.
Qed.

Lemma appendUID_appends v : appends (fun buf => _appendUID buf v) (enc_uid v).
Proof.
  unfold _appendUID. change (enc_uid v) with ([Z.lor 0x80 (uwrap 8 (int_bytes v - 1))] ++ bigEndian (Z.to_nat (int_bytes v)) v).
  pose proof (int_bytes_range v). apply appends_bind; [by apply appends_all|]. apply (appends_tail 8). lia.
Qed.

Lemma append_count_appends marker count : 0 <= count < 2 ^ 64 -> appends (fun buf => append_count buf marker count) (enc_count marker count).
Proof.
  intros Hc. unfold append_count, enc_count. rewrite (uwrap_id 64 count) by (unfold in_unsigned; lia).
  match goal with |- appends _ (?m :: ?r) => change (m :: r) with ([m] ++ r) end.
  apply appends_bind; [by apply appends_all|]. destruct (15 <=? count); [apply appendInt_appends|apply appends_nothing].
Qed.

Lemma appendNumber_appends num : appends (fun buf => _appendNumber buf num) (enc_number num).
Proof.
  destruct num as [v|high low|bits|bits]; unfold _appendNumber, enc_number; [apply appendInt_appends|..].
  - change (0x14 :: ?r) with ([Z.lor 0x10 4] ++ r). apply appends_bind; [by apply appends_all|]. apply appends_all. by rewrite length_app, !length_bigEndian.
  - change (0x22 :: ?r) with ([Z.lor 0x20 2] ++ r). apply appends_bind; [by apply appends_all|]. apply appends_all. by rewrite length_bigEndian.
  - change (0x23 :: ?r) with ([Z.lor 0x20 3] ++ r). apply appends_bind; [by apply appends_all|]. apply appends_all. by rewrite length_bigEndian.
Qed.

Lemma append_refs_appends table refSize ps : 0 <= refSize <= 4 -> appends (fun buf => append_refs table refSize buf ps) (enc_refs table refSize ps).
Proof.
  intros Hr. induction ps as [|p ps IH]; [apply appends_nothing|]. cbn [append_refs enc_refs flat_map].
  apply (appends_bind (fun buf => append_ref table refSize buf p)); [|exact IH]. unfold append_ref. by apply (appends_tail 4).
Qed.

(** ** The size of integers *)

(** The mask after [k] rounds. *)
Definition byte_mask (k : Z) : Z := Z.shiftl (Z.ones (64 - 8 * k)) (8 * k).

Lemma byte_mask_next k : 0 <= k < 8 -> uwrap 64 (Z.shiftl (byte_mask k) 8) = byte_mask (k + 1).
Proof.
  intros Hk. assert (k = 0 \/ k = 1 \/ k = 2 \/ k = 3 \/ k = 4 \/ k = 5 \/ k = 6 \/ k = 7) as Hc by lia.
  repeat destruct Hc as [->|Hc]; subst; reflexivity.
Qed.

Lemma byte_mask_test count k : 0 <= count < 2 ^ 64 -> 0 <= k <= 8 -> (Z.land count (byte_mask k) =? 0) = (count <? 256 ^ k).
Proof.
  intros Hc Hk. assert (Z.land count (byte_mask k) = Z.shiftl (Z.shiftr count (8 * k)) (8 * k)) as ->.
  { unfold byte_mask. apply Z.bits_inj'. intros n Hn. rewrite Z.land_spec, !Z.shiftl_spec by lia. destruct (Z.ltb_spec n (8 * k)).
    { rewrite !(Z.testbit_neg_r _ (n - 8 * k)) by lia. by rewrite andb_false_r. }
    rewrite Z.shiftr_spec by lia. replace (n - 8 * k + 8 * k) with n by lia. destruct (Z.ltb_spec n 64).
    { rewrite Z.ones_spec_low by lia. by rewrite andb_true_r. }
    rewrite (Z.bits_above_log2 count n); [done|lia|]. destruct (Z.eq_dec count 0) as [->|]; [cbn; lia|].
    assert (Z.log2 count < 64) by (apply Z.log2_lt_pow2; lia). lia. }
  rewrite Z.shiftr_div_pow2, Z.shiftl_mul_pow2, Z.pow_mul_r by lia. change (2 ^ 8) with 256. assert (0 < 256 ^ k) by (apply Z.pow_pos_nonneg; lia).
  destruct (Z.ltb_spec count (256 ^ k)).
  - rewrite Z.div_small by lia. done.
  - assert (1 <= count / 256 ^ k) by (apply Z.div_le_lower_bound; lia). destruct (Z.eqb_spec (count / 256 ^ k * 256 ^ k) 0); [nia|done].
Qed.

Lemma byte_count_loop_spec fuel count k : 0 <= count < 2 ^ 64 -> 0 <= k -> k + Z.of_nat fuel = 8 ->
  exists s, byte_count_loop fuel count (byte_mask k) k = Some s /\ k <= s <= 8 /\ count < 256 ^ s /\ (s = k \/ 256 ^ (s - 1) <= count).
Proof.
  intros Hc. revert k. induction fuel as [|fuel IH]; intros k Hk Hf; cbn [byte_count_loop]; rewrite byte_mask_test by lia.
  - assert (k = 8) as -> by lia. change (256 ^ 8) with (2 ^ 64). destruct (Z.ltb_spec count (2 ^ 64)); [|lia]. cbn [negb]. exists 8. split; [done|]. change (256 ^ 8) with (2 ^ 64). lia.
  - destruct (Z.ltb_spec count (256 ^ k)) as [Hlt|Hge]; cbn [negb]; [exists k; split; [done|]; lia|]. rewrite byte_mask_next by lia.
    destruct (IH (k + 1)) as (s & -> & Hs & Hlt & Hor); [lia..|]. exists s. split_and!; [done|lia..|]. right.
    destruct Hor as [->|]; [|done]. by replace (k + 1 - 1) with k by lia.
Qed.

(** A size of 1, 2, 4 or 8 that is big enough, and no bigger than needed. *)
Lemma byteCount_spec count : 0 <= count < 2 ^ 64 ->
  exists s, _byteCount count = Some s /\ 1 <= s <= 8 /\ count < 256 ^ s /\ (count < 2 ^ 32 -> s <= 4).
Proof.
  intros Hc. unfold _byteCount. destruct (byte_count_loop_spec 8 count 0 Hc) as (s & E & Hs & Hlt & Hor); [lia..|].
  change (byte_mask 0) with (2 ^ 64 - 1) in E. rewrite E. cbn [opt_bind].
  assert (count < 2 ^ 32 -> s <= 4) as H4.
  { intros H32. destruct Hor as [->|Hle]; [lia|]. destruct (Z.leb_spec s 4); [done|]. assert (256 ^ 4 <= 256 ^ (s - 1)) by (apply Z.pow_le_mono_r; lia).
    change (256 ^ 4) with (2 ^ 32) in *. lia. }
  assert (s = 0 \/ s = 1 \/ s = 2 \/ s = 3 \/ s = 4 \/ s = 5 \/ s = 6 \/ s = 7 \/ s = 8) as Hcs by lia. clear E Hor Hs.
  repeat destruct Hcs as [->|Hcs]; subst; cbn [byte_count_round Z.eqb Z.leb Z.compare Pos.compare Pos.compare_cont Pos.eqb negb andb Z.add Pos.add Pos.succ];
    eexists; (split; [reflexivity|]); (split; [lia|]); (split; [|lia]); (eapply Z.lt_le_trans; [exact Hlt|apply Z.pow_le_mono_r; lia]).
Qed.

(** ** The bytes of an object *)

#[export] Instance is_ascii_dec c : Decision (is_ascii c).
Proof. unfold is_ascii. apply _. Defined.

Section Strings.
Context `{!ASCIIStrings} `{!ASCIIStringsLaws}.

Definition enc_string (chars : list Z) : list Z :=
  if decide (Forall is_ascii chars) then enc_count kCFBinaryPlistMarkerASCIIString (Z.of_nat (length chars)) ++ chars
  else enc_count kCFBinaryPlistMarkerUnicode16String (Z.of_nat (length chars)) ++ flat_map (bigEndian 2) chars.

Lemma length_flat_bigEndian (n : nat) l : length (flat_map (bigEndian n) l) = (n * length l)%nat.
Proof. induction l as [|x l IH]; cbn [flat_map]; [cbn; lia|]. rewrite length_app, length_bigEndian, IH. cbn [length]. lia. Qed.

Lemma appendString_appends chars : Z.of_nat (length chars) < write_limit -> appends (fun buf => _appendString buf chars) (enc_string chars).
Proof.
  intros Hl. unfold write_limit in Hl. unfold _appendString, enc_string. destruct (decide (Forall is_ascii chars)) as [Ha|Ha].
  - rewrite (get_bytes_ascii chars Ha), Z.eqb_refl. apply (appends_bind (fun buf => append_count buf _ _)); [apply append_count_appends; lia|by apply appends_all].
  - pose proof (get_bytes_other chars Ha) as Hne. destruct (CFStringGetBytes chars) as [ret bytes]. cbn [fst] in Hne. apply Z.eqb_neq in Hne. rewrite Hne.
    apply (appends_bind (fun buf => append_count buf _ _)); [apply append_count_appends; lia|]. apply appends_all. rewrite length_flat_bigEndian. lia.
Qed.

Definition enc_object (table : gmap Z Z) (refSize : Z) (obj : plist_object) : option (list Z) :=
  match obj with
  | OString chars => Some (enc_string chars)
  | ONumber num => Some (enc_number num)
  | OBoolean b => Some [if b then kCFBinaryPlistMarkerTrue else kCFBinaryPlistMarkerFalse]
  | OData bytes => Some (enc_count kCFBinaryPlistMarkerData (Z.of_nat (length bytes)) ++ bytes)
  | ODate bits => Some (kCFBinaryPlistMarkerDate :: bigEndian 8 bits)
  | ODictionary entries => Some (enc_count kCFBinaryPlistMarkerDict (Z.of_nat (length entries)) ++ enc_refs table refSize (entries.*1 ++ entries.*2))
  | OArray values => Some (enc_count kCFBinaryPlistMarkerArray (Z.of_nat (length values)) ++ enc_refs table refSize values)
  | OUID value => Some (enc_uid value)
  | OOther => None
  end.

(** How much there is to an object: itself, its characters, bytes and
    references. *)
Definition own_weight (obj : plist_object) : Z :=
  1 + match obj with
      | OString chars => Z.of_nat (length chars)
      | OData bytes => Z.of_nat (length bytes)
      | _ => Z.of_nat (length (children obj))
      end.

Lemma appendObject_appends table refSize obj bytes contents out buf :
  enc_object table refSize obj = Some bytes -> 0 <= refSize <= 4 -> own_weight obj < write_limit ->
  buffer_holds contents out buf -> Z.of_nat (length out) + Z.of_nat (length bytes) < write_limit ->
  exists buf', _appendObject buf obj table refSize = Some (Some buf') /\ buffer_holds contents (out ++ bytes) buf'.
Proof.
  intros He Hr Hw. unfold write_limit in *. revert contents out buf.
  assert (forall f b, appends f b -> forall contents out buf, buffer_holds contents out buf -> Z.of_nat (length out) + Z.of_nat (length b) < write_limit ->
    exists buf', Some <$> f buf = Some (Some buf') /\ buffer_holds contents (out ++ b) buf') as Hmap.
  { intros f b Hf contents out buf Hh Hl. destruct (Hf contents out buf Hh Hl) as (buf' & -> & Hb). by exists buf'. }
  assert (forall f g a b, appends f a -> appends g b -> forall contents out buf, buffer_holds contents out buf ->
    Z.of_nat (length out) + Z.of_nat (length (a ++ b)) < write_limit ->
    exists buf', (let* buf := f buf in Some <$> g buf) = Some (Some buf') /\ buffer_holds contents (out ++ (a ++ b)) buf') as Hbind.
  { intros f g a b Hf Hg contents out buf Hh Hl. destruct (appends_bind f g a b Hf Hg contents out buf Hh Hl) as (buf' & E & Hb).
    destruct (f buf) as [b1|]; [|done]. cbn [opt_bind] in E |- *. rewrite E. by exists buf'. }
  destruct obj as [chars|num|b|bs|bits|entries|values|v|]; cbn [enc_object] in He; simplify_eq; unfold _appendObject, own_weight in *; cbn [children] in Hw.
  - apply Hmap, appendString_appends. unfold write_limit. lia.
  - apply Hmap, appendNumber_appends.
  - apply (Hmap (fun buf => bufferWrite buf _ 0 1)). by apply appends_all.
  - apply (Hbind (fun buf => append_count buf _ _) (fun buf => bufferWrite buf _ 0 _)); [apply append_count_appends; lia|by apply appends_all].
  - apply (Hbind (fun buf => bufferWrite buf _ 0 _) (fun buf => bufferWrite buf _ 0 _) [kCFBinaryPlistMarkerDate]); apply appends_all; [done|by rewrite length_bigEndian].
  - rewrite length_app, !length_fmap in Hw.
    apply (Hbind (fun buf => append_count buf _ _) (fun buf => append_refs _ _ buf _)); [apply append_count_appends; lia|by apply append_refs_appends].
  - apply (Hbind (fun buf => append_count buf _ _) (fun buf => append_refs _ _ buf _)); [apply append_count_appends; lia|by apply append_refs_appends].
  - apply Hmap, appendUID_appends.
Qed.

(** ** The objects, their offsets and the file *)

Definition enc_objects (objects : gmap Z plist_object) (table : gmap Z Z) (refSize : Z) (ps : list Z) : option (list (list Z)) :=
  mapM (fun p => objects !! p ≫= enc_object table refSize) ps.

Fixpoint offsets_from (start : Z) (encs : list (list Z)) : list Z :=
  match encs with
  | [] => []
  | e :: encs => start :: offsets_from (start + Z.of_nat (length e)) encs
  end.

Lemma length_offsets_from start encs : length (offsets_from start encs) = length encs.
Proof. revert start. induction encs as [|e encs IH]; intros start; cbn; [done|]. by rewrite IH. Qed.

Lemma append_objects_ok objects table refSize ps encs contents out buf offsets :
  enc_objects objects table refSize ps = Some encs -> 0 <= refSize <= 4 ->
  (forall p obj, p ∈ ps -> objects !! p = Some obj -> own_weight obj < write_limit) ->
  buffer_holds contents out buf -> Z.of_nat (length out) + Z.of_nat (length (concat encs)) < write_limit ->
  exists buf', append_objects objects table refSize ps buf offsets = Some (true, buf', offsets ++ offsets_from (Z.of_nat (length out)) encs) /\
    buffer_holds contents (out ++ concat encs) buf'.
Proof.
  unfold enc_objects. intros He Hr. apply mapM_Some_1 in He. revert out buf offsets. induction He as [|p e ps encs Hp _ IH]; intros out buf offsets Hw Hh Hl; cbn [append_objects concat offsets_from].
  { exists buf. by rewrite !app_nil_r. }
  apply bind_Some in Hp as (obj & Ho & He). rewrite Ho. cbn [opt_bind]. cbn [concat] in Hl. rewrite length_app in Hl.
  destruct (appendObject_appends table refSize obj e contents out buf He Hr) as (b1 & -> & H1); [apply (Hw p obj); [by left|done]|done|lia|]. cbn [opt_bind].
  assert (uwrap 64 (written buf + used buf) = Z.of_nat (length out)) as ->.
  { rewrite (holds_written _ _ _ Hh). unfold write_limit in Hl. apply uwrap_id. unfold in_unsigned. lia. }
  destruct (IH (out ++ e) b1 (offsets ++ [Z.of_nat (length out)])) as (b2 & -> & H2); [intros q o Hq; apply Hw; by right|done|rewrite length_app; lia|].
  exists b2. rewrite <- !(assoc_L (++)), length_app, Nat2Z.inj_add. rewrite <- (assoc_L (++)) in H2. done.
Qed.


Lemma append_offsets_appends size offsets : 0 <= size <= 8 -> appends (append_offsets size offsets) (flat_map (bigEndian (Z.to_nat size)) offsets).
Proof.
  intros Hs. induction offsets as [|o offsets IH]; [apply appends_nothing|]. cbn [append_offsets flat_map].
  apply (appends_bind (fun buf => bufferWrite buf _ _ _)); [by apply (appends_tail 8)|exact IH].
Qed.

(** The trailer of a file whose objects are [encs]. *)
Definition file_trailer (encs : list (list Z)) (refSize intSize : Z) : CFBinaryPlistTrailer :=
  {| _offsetIntSize := intSize; _objectRefSize := refSize; _numObjects := Z.of_nat (length encs); _topObject := 0;
     _offsetTableOffset := 8 + Z.of_nat (length (concat encs)) |}.

Definition file_bytes (encs : list (list Z)) (refSize intSize : Z) : list Z :=
  bplist00 ++ concat encs ++ flat_map (bigEndian (Z.to_nat intSize)) (offsets_from 8 encs) ++ trailer_bytes (file_trailer encs refSize intSize).

Lemma length_trailer_bytes t : length (trailer_bytes t) = 32%nat.
Proof. unfold trailer_bytes. rewrite !length_app, !length_bigEndian. done. Qed.

Lemma length_file encs refSize intSize : 0 <= intSize ->
  Z.of_nat (length (file_bytes encs refSize intSize)) = 8 + Z.of_nat (length (concat encs)) + Z.of_nat (length encs) * intSize + 32.
Proof.
  intros Hi. unfold file_bytes. rewrite !length_app, length_flat_bigEndian, length_offsets_from, length_trailer_bytes. change (length bplist00) with 8%nat. nia.
Qed.

Lemma mapM_length_enc objects table refSize ps encs : enc_objects objects table refSize ps = Some encs -> length ps = length encs.
Proof. intros He%mapM_Some_1. by apply Forall2_length in He. Qed.

(** The new buffer. *)
Lemma buffer_starts contents junk : Z.of_nat (length junk) = sizeof_buffer ->
  buffer_holds contents [] {| stream := Some contents; databytes := None; datalen := 0; error := false; written := 0; used := 0; streamIsData := true; buffer := junk |}.
Proof. intros Hj. split; cbn; try done. by rewrite app_nil_r. Qed.

(** The file that is written for a list of objects. *)
Lemma write_file fuel objects junk p contents s encs :
  Z.of_nat (length junk) = sizeof_buffer ->
  _flattenPlist fuel objects p {| objlist := []; objtable := ∅; uniquingset := ∅ |} = Some s ->
  Z.of_nat (length (objlist s)) < 2 ^ 32 ->
  (forall refSize, 1 <= refSize <= 4 -> _byteCount (Z.of_nat (length (objlist s))) = Some refSize -> enc_objects objects (objtable s) refSize (objlist s) = Some (encs refSize)) ->
  (forall refSize, 1 <= refSize <= 4 -> 48 + Z.of_nat (length (concat (encs refSize))) + 8 * Z.of_nat (length (objlist s)) < write_limit) ->
  (forall q obj, q ∈ objlist s -> objects !! q = Some obj -> own_weight obj < write_limit) ->
  exists refSize intSize, 1 <= refSize <= 4 /\ 1 <= intSize <= 8 /\ Z.of_nat (length (objlist s)) < 256 ^ refSize /\
    8 + Z.of_nat (length (concat (encs refSize))) < 256 ^ intSize /\ enc_objects objects (objtable s) refSize (objlist s) = Some (encs refSize) /\
    __CFBinaryPlistWrite fuel objects junk p contents true =
      Some (Z.of_nat (length (file_bytes (encs refSize) refSize intSize)), contents ++ file_bytes (encs refSize) refSize intSize, false).
Proof.
  intros Hj Hf Hcnt Henc Hlim Hw. unfold __CFBinaryPlistWrite. rewrite Hf. cbn [opt_bind].
  destruct (byteCount_spec (Z.of_nat (length (objlist s)))) as (refSize & Eref & Hr & Hr256 & Hr4); [lia|]. specialize (Hr4 Hcnt).
  specialize (Henc refSize ltac:(lia) Eref). specialize (Hlim refSize ltac:(lia)). pose proof (mapM_length_enc _ _ _ _ _ Henc) as Hlen. unfold write_limit in *.
  destruct (appends_all bplist00 8 eq_refl contents [] _ (buffer_starts contents junk Hj)) as (b1 & -> & H1); [cbn; unfold write_limit; lia|]. cbn [opt_bind].
  rewrite Eref. cbn [opt_bind]. change ([] ++ bplist00) with bplist00 in H1.
  destruct (append_objects_ok objects (objtable s) refSize (objlist s) (encs refSize) contents bplist00 b1 [] Henc) as (b2 & -> & H2);
    [lia|done|done|change (length bplist00) with 8%nat; unfold write_limit; lia|]. cbn [opt_bind negb app].
  assert (uwrap 64 (written b2 + used b2) = 8 + Z.of_nat (length (concat (encs refSize)))) as ->.
  { rewrite (holds_written _ _ _ H2), length_app. change (length bplist00) with 8%nat. rewrite uwrap_id by (unfold in_unsigned; lia). lia. }
  destruct (byteCount_spec (8 + Z.of_nat (length (concat (encs refSize))))) as (intSize & Eint & Hi & Hi256 & _); [lia|]. rewrite Eint. cbn [opt_bind].
  destruct (append_offsets_appends intSize (offsets_from 8 (encs refSize)) ltac:(lia) contents _ b2 H2) as (b3 & E3 & H3).
  { rewrite length_flat_bigEndian, length_offsets_from, length_app. change (length bplist00) with 8%nat. unfold write_limit. nia. }
  change (Z.of_nat (length bplist00)) with 8. rewrite E3. cbn [opt_bind]. rewrite Hlen.
  destruct (appends_all (trailer_bytes (file_trailer (encs refSize) refSize intSize)) sizeof_trailer ltac:(by rewrite length_trailer_bytes) contents _ b3 H3) as (b4 & E4 & H4).
  { rewrite length_trailer_bytes, !length_app, length_flat_bigEndian, length_offsets_from. change (length bplist00) with 8%nat. unfold write_limit. nia. }
  unfold file_trailer in E4. rewrite E4. cbn [opt_bind].
  assert (((bplist00 ++ concat (encs refSize)) ++ flat_map (bigEndian (Z.to_nat intSize)) (offsets_from 8 (encs refSize))) ++
    trailer_bytes (file_trailer (encs refSize) refSize intSize) = file_bytes (encs refSize) refSize intSize) as Efile
    by (unfold file_bytes; by rewrite !(assoc_L (++))). rewrite Efile in H4. pose proof (length_file (encs refSize) refSize intSize ltac:(lia)) as Hfl.
  destruct (bufferFlush_ok contents (file_bytes (encs refSize) refSize intSize) b4 H4) as (b5 & -> & H5 & Hu5); [unfold write_limit; nia|]. cbn [opt_bind].
  destruct H5 as [(_ & _ & Herr) _ _ Hw5 Hs5 _ _]. rewrite Herr. exists refSize, intSize. split_and!; try done; try lia. do 3 f_equal.
  - unfold sizeof_trailer. assert (Z.of_nat (length (encs refSize)) * intSize <= 8 * Z.of_nat (length (encs refSize))) by nia.
    rewrite (uwrap_id 64 (_ + _ * _)), (uwrap_id 64 (_ + 32)), swrap_id; unfold in_unsigned, in_signed; lia.
  - rewrite Hs5. change (default [] (Some ?x)) with x. rewrite take_ge by lia. done.
Qed.

(** ** Flattening *)

(** Every object that is reached exists, at most [depth] deep. *)
Fixpoint closed (depth : nat) (objects : gmap Z plist_object) (p : Z) : Prop :=
  match depth with
  | O => False
  | S depth => exists obj, objects !! p = Some obj /\ Forall (closed depth objects) (children obj)
  end.

Lemma closed_step depth objects p : closed depth objects p -> closed (S depth) objects p.
Proof.
  revert p. induction depth as [|depth IH]; intros p; [done|]. intros (obj & Ho & Hc). exists obj. split; [done|]. eapply list.Forall_impl; [exact Hc|exact IH].
Qed.

(** The weight of everything that is reached, counted as often as it is
    referred to. *)
Fixpoint graph_weight (depth : nat) (objects : gmap Z plist_object) (p : Z) : Z :=
  match depth with
  | O => 0
  | S depth => match objects !! p with
               | None => 0
               | Some obj => own_weight obj + foldr (fun q w => graph_weight depth objects q + w) 0 (children obj)
               end
  end.

Definition weights (depth : nat) (objects : gmap Z plist_object) (ps : list Z) : Z := foldr (fun q w => graph_weight depth objects q + w) 0 ps.

Definition list_weight (objects : gmap Z plist_object) (ps : list Z) : Z :=
  foldr (fun q w => (match objects !! q with Some obj => own_weight obj | None => 0 end) + w) 0 ps.

Lemma own_weight_pos obj : 1 <= own_weight obj.
Proof. unfold own_weight. destruct obj; lia. Qed.

Lemma list_weight_app objects l1 l2 : list_weight objects (l1 ++ l2) = list_weight objects l1 + list_weight objects l2.
Proof. unfold list_weight. induction l1 as [|q l1 IH]; cbn [app foldr]; [done|]. rewrite IH. lia. Qed.

Lemma foldr_sum_nonneg (f : Z -> Z) ps : (forall q, 0 <= f q) -> 0 <= foldr (fun q w => f q + w) 0 ps.
Proof. intros Hf. induction ps as [|q ps IH]; cbn [foldr]; [lia|]. specialize (Hf q). lia. Qed.

Lemma graph_weight_nonneg depth objects p : 0 <= graph_weight depth objects p.
Proof.
  revert p. induction depth as [|depth IH]; intros p; cbn [graph_weight]; [lia|]. destruct (objects !! p) as [obj|]; [|lia].
  pose proof (own_weight_pos obj). pose proof (foldr_sum_nonneg _ (children obj) IH). lia.
Qed.

Lemma weights_nonneg depth objects ps : 0 <= weights depth objects ps.
Proof. apply foldr_sum_nonneg. intros. apply graph_weight_nonneg. Qed.

(** The table numbers the objects of the list. *)
Record flat_ok (s : flattened) : Prop := {
  flat_numbers : forall q i, objtable s !! q = Some i -> 0 <= i /\ objlist s !! Z.to_nat i = Some q;
  flat_listed : forall q, q ∈ objlist s -> is_Some (objtable s !! q);
  flat_unique : forall q, q ∈ uniquingset s -> q ∈ objlist s
}.

Section Flattening.
(** What the objects satisfy that are reached from an object that does. *)
Context (P : Z -> Prop).

(** [s'] has the objects [new] behind those of [s]. *)
Record flat_grows (objects : gmap Z plist_object) (depth : nat) (s s' : flattened) (new : list Z) : Prop := {
  grow_list : objlist s' = objlist s ++ new;
  grow_table : forall q i, objtable s !! q = Some i -> objtable s' !! q = Some i;
  grow_new : forall q, q ∈ new -> exists obj, objects !! q = Some obj /\ closed depth objects q /\ P q /\
    forall c, c ∈ children obj -> is_Some (objtable s' !! c)
}.

Lemma grows_refl objects depth s : flat_grows objects depth s s [].
Proof. split; [by rewrite app_nil_r|done|]. intros q Hq. by apply elem_of_nil in Hq. Qed.

Lemma grows_trans objects depth s1 s2 s3 new1 new2 :
  flat_grows objects depth s1 s2 new1 -> flat_grows objects depth s2 s3 new2 -> flat_grows objects depth s1 s3 (new1 ++ new2).
Proof.
  intros [L1 T1 N1] [L2 T2 N2]. split; [by rewrite L2, L1, (assoc_L (++))|eauto|]. intros q [Hq|Hq]%elem_of_app; [|eauto].
  destruct (N1 q Hq) as (obj & Ho & Hc & HP & Hch). exists obj. split_and!; try done. intros c [i Hi]%Hch. exists i. by apply T2.
Qed.

Lemma grows_deeper objects depth s1 s2 new : flat_grows objects depth s1 s2 new -> flat_grows objects (S depth) s1 s2 new.
Proof. intros [L T N]. split; [done..|]. intros q (obj & Ho & Hc & HP & Hch)%N. exists obj. split_and!; try done. by apply closed_step. Qed.

Lemma set_size_test (p : Z) (X : gset Z) : (size ({[p]} ∪ X) =? size X)%nat = bool_decide (p ∈ X).
Proof.
  destruct (decide (p ∈ X)) as [Hin|Hout].
  - rewrite bool_decide_eq_true_2 by done. apply Nat.eqb_eq. f_equal. apply leibniz_equiv. set_solver.
  - rewrite bool_decide_eq_false_2 by done. rewrite size_union by set_solver. rewrite size_singleton. apply Nat.eqb_neq. lia.
Qed.

Definition flatten_spec objects (flatten : Z -> flattened -> option flattened) depth p : Prop := forall s,
  flat_ok s -> Z.of_nat (length (objlist s)) + graph_weight depth objects p < 2 ^ 32 ->
  exists s' new, flatten p s = Some s' /\ flat_ok s' /\ flat_grows objects depth s s' new /\ is_Some (objtable s' !! p) /\
    (p ∉ uniquingset s -> objtable s !! p = None -> objtable s' !! p = Some (Z.of_nat (length (objlist s)))) /\
    Z.of_nat (length new) <= list_weight objects new <= graph_weight depth objects p.

Lemma flatten_all_spec objects depth flatten ps s :
  Forall (flatten_spec objects flatten depth) ps -> flat_ok s -> Z.of_nat (length (objlist s)) + weights depth objects ps < 2 ^ 32 ->
  exists s' new, flatten_all flatten ps s = Some s' /\ flat_ok s' /\ flat_grows objects depth s s' new /\ Forall (fun p => is_Some (objtable s' !! p)) ps /\
    Z.of_nat (length new) <= list_weight objects new <= weights depth objects ps.
Proof.
  intros Hps. revert s. induction Hps as [|p ps Hp _ IH]; intros s Hok Hl; cbn [flatten_all weights foldr].
  { exists s, []. split; [done|]. split; [done|]. split; [apply grows_refl|]. by split; [constructor|]. }
  cbn [weights foldr] in Hl. fold (weights depth objects ps) in *. pose proof (weights_nonneg depth objects ps).
  destruct (Hp s Hok) as (s1 & new1 & -> & Hok1 & G1 & Hin1 & _ & Hw1); [lia|]. cbn [opt_bind].
  destruct (IH s1 Hok1) as (s2 & new2 & -> & Hok2 & G2 & Hin2 & Hw2); [rewrite (grow_list _ _ _ _ _ G1), length_app; lia|].
  exists s2, (new1 ++ new2). split_and!; try done; [by apply (grows_trans _ _ _ s1)| |rewrite ?length_app, ?list_weight_app; lia..].
  constructor; [|done]. destruct Hin1 as [i Hi]. exists i. by apply (grow_table _ _ _ _ _ G2).
Qed.

(** Putting an object on the list. *)
Lemma flat_ok_add s p (X : gset Z) : flat_ok s -> Z.of_nat (length (objlist s)) < 2 ^ 32 -> (forall q, q ∈ X -> q = p \/ q ∈ uniquingset s) ->
  flat_ok {| objlist := objlist s ++ [p]; objtable := table_add (objtable s) p (uwrap 32 (Z.of_nat (length (objlist s)))); uniquingset := X |}.
Proof.
  intros [Hn Hli Hu] Hl HX. rewrite uwrap_id by (unfold in_unsigned; lia). unfold table_add. split; cbn [objlist objtable uniquingset].
  - intros q i. destruct (objtable s !! p) as [j|] eqn:Ep; [|rewrite lookup_insert_Some; intros [[<- <-]|[_ Hq]]].
    + intros [? Hq]%Hn. split; [done|]. by apply lookup_app_l_Some.
    + split; [lia|]. rewrite Nat2Z.id, lookup_app_r, Nat.sub_diag by lia. done.
    + apply Hn in Hq as [? Hq]. split; [done|]. by apply lookup_app_l_Some.
  - intros q [Hq| ->%list_elem_of_singleton]%elem_of_app.
    + destruct (objtable s !! p); [by apply Hli|]. rewrite lookup_insert_is_Some. destruct (decide (p = q)); auto.
    + destruct (objtable s !! p) eqn:Ep; [by eexists|]. rewrite lookup_insert_eq. by eexists.
  - intros q [->|Hq]%HX; apply elem_of_app; [right; by left|left; by apply Hu].
Qed.

Lemma table_add_keeps table p v q i : table !! q = Some i -> table_add table p v !! q = Some i.
Proof. intros Hq. unfold table_add. destruct (table !! p) eqn:Ep; [done|]. rewrite lookup_insert_ne; [done|congruence]. Qed.

Lemma table_add_has (table : gmap Z Z) p v : is_Some (table_add table p v !! p).
Proof. unfold table_add. destruct (table !! p) eqn:Ep; [by eexists|]. rewrite lookup_insert_eq. by eexists. Qed.

Lemma flattenPlist_spec objects depth p :
  (forall q obj c, P q -> objects !! q = Some obj -> c ∈ children obj -> P c) -> P p -> closed depth objects p -> flatten_spec objects (_flattenPlist depth objects) depth p.
Proof.
  intros HP. revert p. induction depth as [|depth IH]; intros p Hp Hcl s Hok Hl; [done|]. destruct Hcl as (obj & Ho & Hch).
  cbn [_flattenPlist graph_weight] in *. rewrite Ho in *. cbn [opt_bind]. fold (weights depth objects (children obj)) in *.
  pose proof (own_weight_pos obj). pose proof (weights_nonneg depth objects (children obj)).
  set (s0 := if is_uniqued obj then _ else s).
  assert (flat_ok s -> objlist s0 = objlist s /\ objtable s0 = objtable s) as Hs0 by (unfold s0; by destruct (is_uniqued obj)).
  destruct (Hs0 Hok) as [HL HT]. clear Hs0.
  destruct (is_uniqued obj && (size (uniquingset s0) =? size (uniquingset s))%nat) eqn:Eu.
  - apply andb_true_iff in Eu as [Eu Es]. subst s0. rewrite Eu in *. cbn [uniquingset objlist objtable] in *. rewrite set_size_test in Es.
    apply bool_decide_eq_true in Es. rewrite decide_True by set_solver. rewrite Z.eqb_refl. cbn [negb].
    eexists _, []. split; [done|]. split; [|split; [|split; [|split]]].
    + split; cbn; [apply (flat_numbers s Hok)|apply (flat_listed s Hok)|]. intros q [->%elem_of_singleton|Hq]%elem_of_union; by apply (flat_unique s Hok).
    + split; cbn; [by rewrite app_nil_r|done|]. intros q Hq. by apply elem_of_nil in Hq.
    + cbn. apply (flat_listed s Hok). by apply (flat_unique s Hok).
    + done.
    + cbn. lia.
  - rewrite HL, HT. set (s1 := {| objlist := objlist s ++ [p]; objtable := _; uniquingset := _ |}).
    assert (flat_ok s1) as Hok1.
    { apply flat_ok_add; [done|lia|]. intros q Hq. subst s0. destruct (is_uniqued obj); [|by right]. cbn in Hq.
      apply elem_of_union in Hq as [->%elem_of_singleton|Hq]; [by left|by right]. }
    destruct (flatten_all_spec objects depth (_flattenPlist depth objects) (children obj) s1) as (s2 & new & -> & Hok2 & G & Hin & Hw).
    { apply Forall_forall. intros q Hq. apply IH; [by apply (HP p obj)|]. by apply (proj1 (Forall_forall _ _) Hch). }
    { done. }
    { cbn [objlist s1]. rewrite length_app. cbn [length]. lia. }
    exists s2, (p :: new). split_and!; try done.
    + destruct (grows_deeper _ _ _ _ _ G) as [L T N]. split.
      * rewrite L. cbn [objlist s1]. by rewrite <- (assoc_L (++)).
      * intros q i Hq. apply T. by apply table_add_keeps.
      * intros q [->|Hq]%elem_of_cons; [|by apply N]. exists obj. split_and!; [done|by exists obj|done|]. intros c Hc.
        by apply (proj1 (Forall_forall _ _) Hin).
    + destruct (table_add_has (objtable s) p (uwrap 32 (Z.of_nat (length (objlist s))))) as [i Hi]. exists i. by apply (grow_table _ _ _ _ _ G).
    + intros _ Hnone. apply (grow_table _ _ _ _ _ G). cbn [objtable s1]. unfold table_add. rewrite Hnone, lookup_insert_eq.
      f_equal. apply uwrap_id. unfold in_unsigned. lia.
    + cbn [length list_weight foldr]. fold (list_weight objects new). rewrite Ho. lia.
    + cbn [list_weight foldr]. fold (list_weight objects new). rewrite Ho. lia.
Qed.
End Flattening.

(** ** The property list of a graph, and the size of its file *)

(** The property list at [p], if it is at most [depth] deep and has no other
    objects. *)
Fixpoint plist_of (depth : nat) (objects : gmap Z plist_object) (p : Z) : option plist :=
  match depth with
  | O => None
  | S depth =>
      let* obj := objects !! p in
      match obj with
      | OString chars => Some (PString chars)
      | ONumber num => Some (PNumber num)
      | OBoolean b => Some (PBoolean b)
      | OData bytes => Some (PData bytes)
      | ODate bits => Some (PDate bits)
      | OUID value => Some (PUID value)
      | OArray values => let* pls := mapM (plist_of depth objects) values in Some (PArray pls)
      | ODictionary entries =>
          let* keys := mapM (plist_of depth objects) entries.*1 in
          let* values := mapM (plist_of depth objects) entries.*2 in Some (PDictionary keys values)
      | OOther => None
      end
  end.

Lemma plist_of_closed depth objects p t : plist_of depth objects p = Some t -> closed depth objects p.
Proof.
  revert p t. induction depth as [|depth IH]; intros p t; [done|]. cbn [plist_of closed]. destruct (objects !! p) as [obj|]; [|done]. cbn [opt_bind].
  assert (forall ps pls, mapM (plist_of depth objects) ps = Some pls -> Forall (closed depth objects) ps) as Hall.
  { intros ps pls Hm%mapM_Some_1. eapply Forall2_Forall_l; [exact Hm|]. apply Forall_forall. intros pl _ q. apply IH. }
  intros E. exists obj. split; [done|]. destruct obj as [| | | | |entries|values| |]; try constructor; cbn [children].
  - apply opt_bind_Some in E as (ks & Ek & E). apply opt_bind_Some in E as (vs & Ev & _). apply Forall_app. split; eauto.
  - apply opt_bind_Some in E as (vs & Ev & _). eauto.
Qed.

Lemma plist_of_supported depth objects p t : plist_of depth objects p = Some t -> exists obj, objects !! p = Some obj /\ obj <> OOther.
Proof.
  destruct depth; [done|]. cbn [plist_of]. destruct (objects !! p) as [obj|]; [|done]. cbn [opt_bind]. intros E. exists obj. split; [done|]. by intros ->.
Qed.

Lemma plist_of_children depth objects p t obj : plist_of depth objects p = Some t -> objects !! p = Some obj ->
  forall c, c ∈ children obj -> exists t', plist_of depth objects c = Some t'.
Proof.
  revert p t obj. induction depth as [|depth IH]; intros p t obj; [done|]. cbn [plist_of]. intros E Ho c Hc. rewrite Ho in E. cbn [opt_bind] in E.
  assert (forall ps pls, mapM (plist_of depth objects) ps = Some pls -> c ∈ ps -> exists t', plist_of depth objects c = Some t') as Hall.
  { intros ps pls Hm%mapM_Some_1 [i Hi]%list_elem_of_lookup. destruct (Forall2_lookup_l _ _ _ _ _ Hm Hi) as (t' & _ & Ht'). by exists t'. }
  assert (exists t', plist_of depth objects c = Some t') as [t' Ht'].
  { destruct obj as [| | | | |entries|values| |]; cbn [children] in Hc; try (by apply elem_of_nil in Hc).
    - apply opt_bind_Some in E as (ks & Ek & E). apply opt_bind_Some in E as (vs & Ev & _). apply elem_of_app in Hc as [Hc|Hc]; eauto.
    - apply opt_bind_Some in E as (vs & Ev & _). eauto. }
  exists t'. revert Ht'. clear. revert c t'. induction depth as [|depth IH]; intros c t'; [done|]. intros E.
  remember (S depth) as d eqn:Hd. cbn [plist_of]. subst d. cbn [plist_of] in E. destruct (objects !! c) as [obj|]; [|done]. cbn [opt_bind] in *.
  assert (forall ps pls, mapM (plist_of depth objects) ps = Some pls -> mapM (plist_of (S depth) objects) ps = Some pls) as Hm.
  { intros ps pls Hm%mapM_Some_1. apply mapM_Some_2. eapply list.Forall2_impl; [exact Hm|exact IH]. }
  destruct obj; try done.
  - apply opt_bind_Some in E as (ks & Ek & E). apply opt_bind_Some in E as (vs & Ev & E). rewrite (Hm _ _ Ek). cbn [opt_bind]. rewrite (Hm _ _ Ev). done.
  - apply opt_bind_Some in E as (vs & Ev & E). rewrite (Hm _ _ Ev). done.
Qed.

Lemma length_enc_int v : (2 <= length (enc_int v) <= 9)%nat.
Proof. pose proof (int_bytes_range v). unfold enc_int. cbn [length]. rewrite length_bigEndian. lia. Qed.

Lemma length_enc_count marker count : (1 <= length (enc_count marker count) <= 10)%nat.
Proof. unfold enc_count. cbn [length]. case_match; cbn [length]; [pose proof (length_enc_int count)|]; lia. Qed.

Lemma length_enc_refs table refSize ps : length (enc_refs table refSize ps) = (Z.to_nat refSize * length ps)%nat.
Proof. unfold enc_refs. induction ps as [|p ps IH]; cbn [flat_map length]; [lia|]. rewrite length_app, length_bigEndian, IH. lia. Qed.

Lemma length_enc_object table refSize obj e : enc_object table refSize obj = Some e -> 1 <= refSize <= 4 ->
  1 <= Z.of_nat (length e) <= 17 * own_weight obj.
Proof.
  intros E Hr. unfold own_weight. destruct obj as [chars|num|b|bs|bits|entries|values|v|]; cbn [enc_object children] in *; simplify_eq.
  - unfold enc_string. case_match; rewrite length_app; [|rewrite length_flat_bigEndian];
      [pose proof (length_enc_count kCFBinaryPlistMarkerASCIIString (Z.of_nat (length chars)))|pose proof (length_enc_count kCFBinaryPlistMarkerUnicode16String (Z.of_nat (length chars)))]; lia.
  - destruct num as [w|high low|bits|bits]; cbn [enc_number length]; rewrite ?length_app, ?length_bigEndian; try lia. pose proof (length_enc_int (uwrap 64 w)). cbn [length] in *. lia.
  - cbn. lia.
  - rewrite length_app. pose proof (length_enc_count kCFBinaryPlistMarkerData (Z.of_nat (length bs))). lia.
  - cbn [length]. rewrite length_bigEndian. lia.
  - rewrite !length_app, length_enc_refs, length_app. pose proof (length_enc_count kCFBinaryPlistMarkerDict (Z.of_nat (length entries))). nia.
  - rewrite length_app, length_enc_refs. pose proof (length_enc_count kCFBinaryPlistMarkerArray (Z.of_nat (length values))). nia.
  - unfold enc_uid. cbn [length]. rewrite length_bigEndian. pose proof (int_bytes_range v). lia.
Qed.

Lemma length_enc_objects objects table refSize ps encs : enc_objects objects table refSize ps = Some encs -> 1 <= refSize <= 4 ->
  Z.of_nat (length (concat encs)) <= 17 * list_weight objects ps.
Proof.
  intros He%mapM_Some_1 Hr. induction He as [|p e ps encs Hp _ IH]; cbn [concat list_weight foldr]; [cbn; lia|]. fold (list_weight objects ps).
  apply bind_Some in Hp as (obj & Ho & He). rewrite Ho, length_app. pose proof (length_enc_object _ _ _ _ He Hr). lia.
Qed.

Lemma enc_objects_total objects table refSize ps :
  (forall p, p ∈ ps -> exists obj, objects !! p = Some obj /\ obj <> OOther) -> exists encs, enc_objects objects table refSize ps = Some encs.
Proof.
  intros Hps. unfold enc_objects. induction ps as [|p ps IH]; [by exists []|]. destruct IH as [encs IH]; [intros q Hq; apply Hps; by right|].
  destruct (Hps p) as (obj & Ho & Hne); [by left|]. cbn. rewrite Ho. cbn. destruct (enc_object table refSize obj) as [e|] eqn:Ee; [|by destruct obj].
  cbn. rewrite IH. by eexists.
Qed.

Lemma list_weight_nonneg objects ps : 0 <= list_weight objects ps.
Proof. apply foldr_sum_nonneg. intros q. destruct (objects !! q) as [o|]; [pose proof (own_weight_pos o)|]; lia. Qed.

Lemma list_weight_elem objects ps p obj : p ∈ ps -> objects !! p = Some obj -> own_weight obj <= list_weight objects ps.
Proof.
  intros Hp Ho.
  induction ps as [|q ps IH]; [by apply elem_of_nil in Hp|]. cbn [list_weight foldr]. fold (list_weight objects ps). pose proof (list_weight_nonneg objects ps).
  apply elem_of_cons in Hp as [<-|Hp]; [rewrite Ho; lia|]. specialize (IH Hp). destruct (objects !! q) as [o|]; [pose proof (own_weight_pos o)|]; lia.
Qed.

(** ** Writing *)

Notation no_objects := {| objlist := []; objtable := ∅; uniquingset := ∅ |} (only parsing).

Lemma flat_ok_empty : flat_ok no_objects.
Proof. split; cbn; [intros q i; by rewrite lookup_empty|intros q Hq; by apply elem_of_nil in Hq|set_solver]. Qed.

(** The list of the objects of a graph. *)
Lemma flatten_graph (P : Z -> Prop) depth objects p :
  (forall q obj c, P q -> objects !! q = Some obj -> c ∈ children obj -> P c) -> P p ->
  closed depth objects p -> graph_weight depth objects p < 2 ^ 31 ->
  exists s, _flattenPlist depth objects p no_objects = Some s /\ flat_ok s /\ objtable s !! p = Some 0 /\
    (forall q, q ∈ objlist s -> exists obj, objects !! q = Some obj /\ P q /\ forall c, c ∈ children obj -> is_Some (objtable s !! c)) /\
    Z.of_nat (length (objlist s)) <= list_weight objects (objlist s) < 2 ^ 31.
Proof.
  intros HP Hp Hcl Hw. destruct (flattenPlist_spec P objects depth p HP Hp Hcl no_objects flat_ok_empty) as (s & new & E & Hok & G & _ & Hroot & Hlen); [cbn; lia|].
  exists s. pose proof (grow_list _ _ _ _ _ _ G) as HL. cbn in HL. rewrite HL. split_and!; try done; try lia.
  - apply Hroot; [set_solver|apply lookup_empty].
  - intros q Hq. destruct (grow_new _ _ _ _ _ _ G q Hq) as (obj & Ho & _ & HPq & Hc). eauto.
Qed.

(** A graph without other objects gives a file, and its length. *)
Lemma write_plist depth objects junk p contents t :
  Z.of_nat (length junk) = sizeof_buffer -> plist_of depth objects p = Some t -> graph_weight depth objects p < 2 ^ 31 ->
  exists s encs refSize intSize,
    flat_ok s /\ objtable s !! p = Some 0 /\ 1 <= refSize <= 4 /\ 1 <= intSize <= 8 /\
    Z.of_nat (length encs) < 256 ^ refSize /\ 8 + Z.of_nat (length (concat encs)) < 256 ^ intSize /\
    Z.of_nat (length encs) < 2 ^ 31 /\ Z.of_nat (length (concat encs)) < 2 ^ 36 /\
    enc_objects objects (objtable s) refSize (objlist s) = Some encs /\
    (forall q, q ∈ objlist s -> exists obj, objects !! q = Some obj /\ forall c, c ∈ children obj -> is_Some (objtable s !! c)) /\
    (forall q obj, q ∈ objlist s -> objects !! q = Some obj -> own_weight obj < 2 ^ 31) /\
    __CFBinaryPlistWrite depth objects junk p contents true =
      Some (Z.of_nat (length (file_bytes encs refSize intSize)), contents ++ file_bytes encs refSize intSize, false).
Proof.
  intros Hj Ht Hw.
  destruct (flatten_graph (fun q => exists t, plist_of depth objects q = Some t) depth objects p) as (s & E & Hok & Hroot & Hq & Hlen).
  { intros q obj c [tq Hq] Ho Hc. by apply (plist_of_children depth objects q tq obj). }
  { by exists t. }
  { by apply (plist_of_closed depth objects p t). }
  { done. }
  assert (forall refSize, exists encs, enc_objects objects (objtable s) refSize (objlist s) = Some encs) as Hencs.
  { intros refSize. apply enc_objects_total. intros q (obj & _ & [tq Htq] & _)%Hq. by apply (plist_of_supported depth objects q tq). }
  set (encs := fun refSize => default [] (enc_objects objects (objtable s) refSize (objlist s))).
  assert (forall refSize, enc_objects objects (objtable s) refSize (objlist s) = Some (encs refSize)) as Henc.
  { intros refSize. unfold encs. by destruct (Hencs refSize) as [e ->]. }
  destruct (write_file depth objects junk p contents s encs) as (refSize & intSize & Hr & Hi & H1 & H2 & He & HW); try done; try lia.
  { intros refSize Hr. pose proof (length_enc_objects _ _ _ _ _ (Henc refSize) Hr). unfold write_limit. lia. }
  { intros q obj Hin Ho. pose proof (list_weight_elem objects (objlist s) q obj Hin Ho). unfold write_limit. lia. }
  exists s, (encs refSize), refSize, intSize. pose proof (mapM_length_enc _ _ _ _ _ He) as Hl. pose proof (length_enc_objects _ _ _ _ _ He Hr).
  split_and!; try done; try lia.
  - intros q Hin. destruct (Hq q Hin) as (obj & Ho & _ & Hc). eauto.
  - intros q obj Hin Ho. pose proof (list_weight_elem objects (objlist s) q obj Hin Ho). lia.
Qed.




End Strings.



(** Two strings with the same characters are both written: the set of the objects that
    are written once compares their pointers. *)
Lemma equal_strings_written_twice :
  let graph : gmap Z plist_object := <[1 := OArray [2; 3]]> (<[2 := OString [0x6B]]> (<[3 := OString [0x6B]]> ∅)) in
  objlist <$> _flattenPlist 2 graph 1 {| objlist := []; objtable := ∅; uniquingset := ∅ |} = Some [1; 2; 3].
Proof. vm_compute. reflexivity. Qed.
