(* ===== verification/CFBinaryPListRoundTrip.v ===== *)
(** * Binary property lists: what is written is read back

    Every part of a file that the writer makes is found by the reader: the trailer,
    the offsets, the objects by their numbers. *)

From S2P Require Import Prelude CFInternal CFEightBit CFBinaryPList CFBinaryPListRead CFBinaryPListWrite.
From stdpp Require Import base list numbers option gmap sets.
From Stdlib Require Import ZArith Lia.
Open Scope Z_scope.
Open Scope cf_scope.

(** ** Integers in place *)

Lemma byte_at_between base pre b post : byte_at base (pre ++ b :: post) (base + Z.of_nat (length pre)) = Some b.
Proof. unfold byte_at. rewrite rd_lookup by lia. replace (Z.to_nat (base + Z.of_nat (length pre) - base)) with (length pre) by lia.
  by rewrite lookup_app_r, Nat.sub_diag by lia. Qed.

Lemma sized_int_loop_exact base pre bytes post res : Forall is_octet bytes -> 0 <= res ->
  res * 256 ^ Z.of_nat (length bytes) + from_big bytes < 2 ^ 64 ->
  sized_int_loop base (pre ++ bytes ++ post) (length bytes) (base + Z.of_nat (length pre)) res = Some (res * 256 ^ Z.of_nat (length bytes) + from_big bytes).
Proof.
  intros Hb. revert pre res. induction Hb as [|b bytes Hb0 Hb IH]; intros pre res Hr Hl; cbn [length sized_int_loop].
  { f_equal. change (from_big []) with 0. change (256 ^ Z.of_nat 0) with 1. lia. }
  rewrite <- app_comm_cons, byte_at_between. cbn [opt_bind]. rewrite from_big_cons in Hl |- *. cbn [length] in Hl.
  rewrite Nat2Z.inj_succ, Z.pow_succ_r in Hl |- * by lia. pose proof (from_big_bounds bytes Hb). destruct Hb0 as [Hb0 Hb1].
  assert (1 <= 256 ^ Z.of_nat (length bytes)) by (apply Z.pow_le_mono_r with (b := 0); lia).
  rewrite Z.shiftl_mul_pow2 by lia. change (2 ^ 8) with 256. rewrite uwrap_id by (unfold in_unsigned; nia).
  replace (pre ++ b :: bytes ++ post) with ((pre ++ [b]) ++ bytes ++ post) by (by rewrite <- (assoc_L (++))).
  replace (base + Z.of_nat (length pre) + 1) with (base + Z.of_nat (length (pre ++ [b]))) by (rewrite length_app; cbn [length]; lia).
  rewrite IH; [f_equal; ring|nia|nia].
Qed.

Lemma getSizedInt_exact base pre bytes post n : Forall is_octet bytes -> n = Z.of_nat (length bytes) -> 0 <= n < 256 -> from_big bytes < 2 ^ 64 ->
  _getSizedInt base (pre ++ bytes ++ post) (base + Z.of_nat (length pre)) n = Some (from_big bytes).
Proof.
  intros Hb Hn Hr Hf. unfold _getSizedInt. rewrite uwrap_id by (unfold in_unsigned; lia). destruct (_ || _).
  - replace (base + Z.of_nat (length pre) - base) with (Z.of_nat (length pre)) by lia. rewrite Hn, block_between. done.
  - rewrite Hn, Nat2Z.id, sized_int_loop_exact; [f_equal; lia|done|lia|lia].
Qed.

Lemma getSizedInt_bigEndian base pre n v post : 0 <= v < 256 ^ Z.of_nat n -> (n <= 8)%nat ->
  _getSizedInt base (pre ++ bigEndian n v ++ post) (base + Z.of_nat (length pre)) (Z.of_nat n) = Some v.
Proof.
  intros Hv Hn. assert (256 ^ Z.of_nat n <= 256 ^ 8) by (apply Z.pow_le_mono_r; lia). change (256 ^ 8) with (2 ^ 64) in *.
  rewrite getSizedInt_exact; [by rewrite from_big_bigEndian|apply bigEndian_octets|by rewrite length_bigEndian|lia|rewrite from_big_bigEndian; lia].
Qed.

(** ** Markers *)

Lemma nibbles j k : 0 <= j < 16 -> 0 <= k < 16 ->
  uwrap 8 (Z.lor (16 * j) k) = 16 * j + k /\ Z.land (16 * j + k) 0x0f = k /\ Z.land (16 * j + k) 0xf0 = 16 * j.
Proof.
  intros Hj Hk. pose proof (forall_below (fun x => (uwrap 8 (Z.lor (16 * (x / 16)) (x mod 16)) =? x) && (Z.land x 0x0f =? x mod 16) && (Z.land x 0xf0 =? 16 * (x / 16))) 256
    ltac:(vm_compute; reflexivity) (16 * j + k) ltac:(lia)) as H. cbn beta in H.
  replace ((16 * j + k) / 16) with j in H by (Z.to_euclidean_division_equations; lia). replace ((16 * j + k) mod 16) with k in H by (Z.to_euclidean_division_equations; lia).
  rewrite !andb_true_iff, !Z.eqb_eq in H. tauto.
Qed.

Lemma int_marker_size v : exists k, 0 <= k < 4 /\ int_marker v = 16 + k /\ Z.shiftl 1 k = int_bytes v.
Proof.
  unfold int_marker, int_bytes, kCFBinaryPlistMarkerInt. repeat case_match; [exists 0|exists 1|exists 2|exists 3]; (split; [lia|]); done.
Qed.

Lemma int_bytes_enough v : 0 <= v < 2 ^ 64 -> v < 256 ^ int_bytes v.
Proof.
  intros Hv. unfold int_bytes. destruct (Z.leb_spec v 0xff); [cbn; lia|]. destruct (Z.leb_spec v 0xffff); [change (256 ^ 2) with 65536; lia|].
  destruct (Z.leb_spec v 0xffffffff); [change (256 ^ 4) with 4294967296; lia|]. change (256 ^ 8) with (2 ^ 64). lia.
Qed.

Lemma shift_bytes k : 1 <= k <= 8 -> Z.shiftl 1 (8 * k) = 256 ^ k.
Proof. intros Hk. rewrite Z.shiftl_mul_pow2, Z.mul_1_l, Z.pow_mul_r by lia. done. Qed.

(** ** The table of offsets *)

Lemma offsets_from_lookup start encs i o : offsets_from start encs !! i = Some o -> o = start + Z.of_nat (length (concat (take i encs))).
Proof.
  revert start i. induction encs as [|e encs IH]; intros start [|i]; cbn [offsets_from take concat]; try done; [intros [= <-]; cbn; lia|].
  cbn [lookup list_lookup]. intros ->%IH. rewrite length_app. lia.
Qed.

Lemma concat_around (encs : list (list Z)) i e : encs !! i = Some e -> concat encs = concat (take i encs) ++ e ++ concat (drop (S i) encs).
Proof. intros He. rewrite <- (take_drop_middle _ _ _ He) at 1. by rewrite concat_app. Qed.

Section File.
Context (base : Z) (encs : list (list Z)) (refSize intSize : Z).
Context (Hmem : memory_block base (file_bytes encs refSize intSize)) (Hne : encs <> []) (Hpos : Forall (fun e => e <> []) encs).
Context (Hr : 1 <= refSize <= 4) (Hi : 1 <= intSize <= 8).
Context (Hcnt : Z.of_nat (length encs) < 256 ^ refSize) (Htab : 8 + Z.of_nat (length (concat encs)) < 256 ^ intSize).
Context (Hcnt31 : Z.of_nat (length encs) < 2 ^ 31) (Hlen : Z.of_nat (length (concat encs)) < 2 ^ 36).

Local Notation data := (file_bytes encs refSize intSize).
Local Notation trailer := (file_trailer encs refSize intSize).
Local Notation tab := (8 + Z.of_nat (length (concat encs))).

(** Where the object [i] begins. *)
Definition offset_of (i : nat) : Z := 8 + Z.of_nat (length (concat (take i encs))).

Lemma offset_in_table i e : encs !! i = Some e -> 8 <= offset_of i /\ offset_of i + Z.of_nat (length e) <= tab /\ 1 <= Z.of_nat (length e).
Proof.
  intros He. unfold offset_of. rewrite (concat_around encs i e He), !length_app. pose proof (Forall_lookup_1 _ _ _ _ Hpos He) as Hp. destruct e; [done|]. cbn [length]. lia.
Qed.

(** The entry [i] of the table. *)
Lemma offset_entry i e : encs !! i = Some e ->
  _getSizedInt base data (base + tab + Z.of_nat i * intSize) intSize = Some (offset_of i).
Proof.
  intros He. destruct (lookup_lt_is_Some_2 (offsets_from 8 encs) i) as [o Ho]; [rewrite length_offsets_from; by eapply lookup_lt_Some|].
  pose proof (offsets_from_lookup _ _ _ _ Ho) as Eo. destruct (offset_in_table i e He) as (H8 & Hin & He1). unfold offset_of in *. rewrite <- Eo in *.
  unfold file_bytes. rewrite <- (take_drop_middle _ _ _ Ho), flat_map_app. cbn [flat_map]. set (l1 := take i _). set (l2 := drop (S i) _).
  assert (length l1 = i) as Hl1. { unfold l1. rewrite length_take, length_offsets_from. apply lookup_lt_Some in He. lia. }
  replace (bplist00 ++ concat encs ++ (flat_map (bigEndian (Z.to_nat intSize)) l1 ++ bigEndian (Z.to_nat intSize) o ++ flat_map (bigEndian (Z.to_nat intSize)) l2) ++ trailer_bytes trailer)
    with ((bplist00 ++ concat encs ++ flat_map (bigEndian (Z.to_nat intSize)) l1) ++ bigEndian (Z.to_nat intSize) o ++ (flat_map (bigEndian (Z.to_nat intSize)) l2 ++ trailer_bytes trailer))
    by (by rewrite <- !(assoc_L (++))).
  replace (base + tab + Z.of_nat i * intSize) with (base + Z.of_nat (length (bplist00 ++ concat encs ++ flat_map (bigEndian (Z.to_nat intSize)) l1))).
  2: { rewrite !length_app, length_flat_bigEndian, Hl1. change (length bplist00) with 8%nat. nia. }
  pose proof (getSizedInt_bigEndian base (bplist00 ++ concat encs ++ flat_map (bigEndian (Z.to_nat intSize)) l1) (Z.to_nat intSize) o
    (flat_map (bigEndian (Z.to_nat intSize)) l2 ++ trailer_bytes trailer)) as Hg.
  rewrite Z2Nat.id in Hg by lia. apply Hg; lia.
Qed.

(** ** The trailer *)

Lemma data_split_end : data = (bplist00 ++ concat encs ++ flat_map (bigEndian (Z.to_nat intSize)) (offsets_from 8 encs)) ++ trailer_bytes trailer ++ [].
Proof. unfold file_bytes. by rewrite app_nil_r, <- !(assoc_L (++)). Qed.

Lemma read_file_trailer : read_trailer data (Z.of_nat (length data) - 32) = Some trailer.
Proof.
  pose proof (length_file encs refSize intSize ltac:(lia)) as Hl. unfold read_trailer. rewrite data_split_end at 1.
  set (pre := bplist00 ++ concat encs ++ _).
  assert (Z.of_nat (length data) - 32 = Z.of_nat (length pre)) as ->.
  { rewrite data_split_end. fold pre. rewrite !length_app, length_trailer_bytes. cbn [length]. lia. }
  change sizeof_trailer with (Z.of_nat 32). rewrite <- (length_trailer_bytes trailer), block_between. cbn [opt_bind].
  assert (forall v, 0 <= v < 2 ^ 64 -> from_big (bigEndian 8 v) = v) as Hv by (intros v Hv'; apply from_big_bigEndian; change (256 ^ Z.of_nat 8) with (2 ^ 64); lia).
  change (trailer_bytes trailer !! 6%nat) with (Some intSize). change (trailer_bytes trailer !! 7%nat) with (Some refSize). cbn [opt_bind].
  change (take 8 (drop 8 (trailer_bytes trailer))) with (bigEndian 8 (Z.of_nat (length encs))).
  change (take 8 (drop 16 (trailer_bytes trailer))) with (bigEndian 8 0). change (take 8 (drop 24 (trailer_bytes trailer))) with (bigEndian 8 tab).
  by rewrite !Hv by lia.
Qed.

Lemma first_object : exists e0, encs !! 0%nat = Some e0.
Proof. clear -Hne. destruct encs as [|e0 ?]; [done|]. by exists e0. Qed.

Lemma file_trailer_valid : trailer_valid base data trailer = true.
Proof.
  pose proof (length_file encs refSize intSize ltac:(lia)) as Hl. destruct first_object as [e0 E0].
  assert (1 <= Z.of_nat (length encs)) as Hn by (apply lookup_lt_Some in E0; lia).
  pose proof (block_low _ _ Hmem). pose proof (block_high _ _ Hmem). destruct (offset_in_table 0 e0 E0) as (_ & Ht & He). unfold offset_of in Ht. cbn [take concat length] in Ht.
  unfold trailer_valid, datalen_of. cbn [file_trailer _numObjects _offsetIntSize _offsetTableOffset _objectRefSize _topObject].
  set (n := Z.of_nat (length encs)) in *. set (L := Z.of_nat (length (concat encs))) in *. set (len := Z.of_nat (length data)) in *.
  assert (n * intSize < 2 ^ 36) by nia. assert (1 <= n * intSize) by nia.
  pose proof (check_size_t_mul_product n intSize false ltac:(lia) ltac:(lia)) as Em. unfold check_size_t_mul in Em. rewrite !uwrap_id in Em by (unfold in_unsigned; lia).
  rewrite Em. clear Em. rewrite (uwrap_id 64 (8 + L - 8)) by (unfold in_unsigned; lia). unfold __check_uint64_add_unsigned_unsigned, sizeof_trailer.
  rewrite (uwrap_id 64 (8 + (8 + L - 8))) by (unfold in_unsigned; lia). rewrite (uwrap_id 64 (8 + (8 + L - 8) + n * intSize)) by (unfold in_unsigned; lia).
  rewrite (uwrap_id 64 (8 + (8 + L - 8) + n * intSize + 32)) by (unfold in_unsigned; lia). rewrite (uwrap_id 64 (n * intSize - 1)) by (unfold in_unsigned; lia).
  rewrite (check_ptr_add_sum base 8), (check_ptr_add_sum base (8 + L)) by lia. rewrite (uwrap_id 64 (base + (8 + L))) by (unfold in_unsigned; lia).
  rewrite check_ptr_add_sum by lia. rewrite (uwrap_id 64 (len - 32)) by (unfold in_unsigned; lia). rewrite !shift_bytes by lia. unfold LONG_MAX, ULLONG_MAX.
  rewrite !andb_true_iff, !negb_true_iff, !orb_false_iff, !andb_false_iff, !Z.ltb_ge, !Z.leb_gt, Z.eqb_eq. split_and!; try done; try lia.
Qed.

Lemma offsets_valid_true n p isz maxOffset :
  (forall i, (i < n)%nat -> exists off, _getSizedInt base data (p + Z.of_nat i * isz) isz = Some off /\ off <= maxOffset) ->
  offsets_valid base data n p isz maxOffset = Some true.
Proof.
  revert p. induction n as [|n IH]; intros p Hall; cbn [offsets_valid]; [done|].
  destruct (Hall 0%nat) as (off & E & Ho); [lia|]. rewrite Z.mul_0_l, Z.add_0_r in E. rewrite E. cbn [opt_bind]. destruct (Z.ltb_spec maxOffset off); [lia|].
  apply IH. intros i Hin. destruct (Hall (S i)) as (off' & E' & Ho'); [lia|]. exists off'. split; [|done]. rewrite <- E'. f_equal. lia.
Qed.

(** The reader finds the top object of the file. *)
Lemma file_top : exists marker, __CFBinaryPlistGetTopLevelInfo base data = Some (Some (marker, 8, trailer)).
Proof.
  pose proof (length_file encs refSize intSize ltac:(lia)) as Hl. destruct first_object as [e0 E0]. pose proof (lookup_lt_Some _ _ _ E0) as Hn.
  destruct (offset_in_table 0 e0 E0) as (_ & Ht & He). change (offset_of 0) with 8 in Ht. pose proof (block_low _ _ Hmem) as Hlow.
  unfold __CFBinaryPlistGetTopLevelInfo, datalen_of. destruct (Z.eqb_spec base 0); [lia|]. unfold sizeof_trailer.
  destruct (Z.ltb_spec (Z.of_nat (length data)) (32 + 8 + 1)); [nia|]. cbn [negb andb].
  rewrite (block_ok data 0 7) by nia. cbn [opt_bind]. change (take (Z.to_nat 7) (drop (Z.to_nat 0) data)) with (take 7 bplist00).
  rewrite decide_True by done. rewrite read_file_trailer. cbn [opt_bind]. rewrite file_trailer_valid.
  cbn [file_trailer _offsetTableOffset _offsetIntSize _numObjects _topObject]. rewrite Nat2Z.id, offsets_valid_true.
  2: { intros i Hin. destruct (lookup_lt_is_Some_2 encs i Hin) as [e Ei]. exists (offset_of i). rewrite (offset_entry i e Ei). split; [done|].
       destruct (offset_in_table i e Ei) as (_ & Hi1 & Hi2). lia. }
  cbn [opt_bind]. pose proof (offset_entry 0 e0 E0) as Eo. rewrite Z.mul_0_l in Eo |- *. rewrite Eo. cbn [opt_bind]. change (offset_of 0) with 8.
  destruct (Z.leb_spec tab 8); [lia|]. cbn [Z.ltb Z.compare Pos.compare Pos.compare_cont orb negb].
  destruct (byte_at_inside base data Hmem (base + 8)) as (m & -> & _); [nia|]. cbn [opt_bind]. by exists m.
Qed.

Lemma file_trailer_ok : trailer_ok base data trailer.
Proof.
  destruct file_top as [marker E]. destruct (GetTopLevelInfo_inside base data Hmem) as (r & E' & Hok). rewrite E in E'. injection E' as <-.
  by destruct (Hok _ _ _ eq_refl).
Qed.

(** The reference to the object [i]. *)
Lemma reference_found pre i e post : data = pre ++ bigEndian (Z.to_nat refSize) (Z.of_nat i) ++ post -> 8 <= Z.of_nat (length pre) ->
  Z.of_nat (length pre) + refSize <= tab -> encs !! i = Some e ->
  _getOffsetOfRefAt base data trailer (base + Z.of_nat (length pre)) = Some (offset_of i).
Proof.
  intros Hd H8 Hp Ei. pose proof (lookup_lt_Some _ _ _ Ei) as Hin. unfold _getOffsetOfRefAt.
  cbn [file_trailer _offsetTableOffset _offsetIntSize _numObjects _objectRefSize].
  destruct (Z.ltb_spec (base + Z.of_nat (length pre)) (base + 8)); [lia|]. destruct (Z.ltb_spec (base + tab - refSize) (base + Z.of_nat (length pre))); [lia|]. cbn [orb].
  pose proof (getSizedInt_bigEndian base pre (Z.to_nat refSize) (Z.of_nat i) post) as Hg. rewrite Z2Nat.id, <- Hd in Hg by lia. rewrite Hg by lia. cbn [opt_bind].
  destruct (Z.leb_spec (Z.of_nat (length encs)) (Z.of_nat i)); [lia|]. by apply (offset_entry i e).
Qed.

(** ** Markers, counts and bytes in place *)

Lemma range_end : objectsRangeEnd trailer = tab - 1.
Proof. rewrite (objectsRangeEnd_eq base data Hmem trailer file_trailer_ok). done. Qed.

Lemma inside : base + tab + 32 <= base + Z.of_nat (length data) < 2 ^ 64 /\ 256 <= base.
Proof. destruct (table_inside base data Hmem trailer file_trailer_ok) as [H _]. cbn [file_trailer _offsetTableOffset] in H.
  pose proof (block_high _ _ Hmem). pose proof (block_low _ _ Hmem). lia. Qed.

Lemma after_marker_at off : 0 <= off < tab -> after_marker base off = Some (Some (base + off + 1)).
Proof.
  intros Ho. pose proof inside. unfold after_marker. rewrite check_ptr_add_sum by lia. cbn [orb]. destruct (Z.leb_spec (2 ^ 64) (base + off + 1)); [lia|]. cbn [negb].
  by rewrite uwrap_id by (unfold in_unsigned; lia).
Qed.

Lemma extent_valid_at p cnt : base <= p -> 0 <= cnt -> p + cnt <= base + tab -> extent_valid base trailer p cnt = true.
Proof.
  intros Hp Hc Hpc. pose proof inside. unfold extent_valid. rewrite check_ptr_add_sum, range_end by lia. cbn [orb].
  destruct (Z.leb_spec (2 ^ 64) (p + cnt)); [lia|]. rewrite (uwrap_id 64 (p + cnt)), uwrap_id by (unfold in_unsigned; lia).
  by destruct (Z.ltb_spec (base + (tab - 1)) (p + cnt - 1)); [lia|].
Qed.

Lemma read_bytes_in_place pre bytes post : data = pre ++ bytes ++ post -> Z.of_nat (length pre) + Z.of_nat (length bytes) <= tab ->
  read_bytes_at base data trailer (base + Z.of_nat (length pre)) (Z.of_nat (length bytes)) = Some (Some bytes).
Proof.
  intros Hd Hl. unfold read_bytes_at. rewrite extent_valid_at by lia. replace (base + Z.of_nat (length pre) - base) with (Z.of_nat (length pre)) by lia.
  rewrite Hd, block_between. done.
Qed.

Lemma getSizedInt_enc pre v post : data = pre ++ enc_int v ++ post -> 0 <= v < 2 ^ 64 ->
  _getSizedInt base data (base + Z.of_nat (length pre) + 1) (int_bytes v) = Some v.
Proof.
  intros Hd Hv. pose proof (int_bytes_range v). pose proof (int_bytes_enough v Hv). unfold enc_int in Hd. rewrite <- app_comm_cons in Hd.
  pose proof (getSizedInt_bigEndian base (pre ++ [int_marker v]) (Z.to_nat (int_bytes v)) v post) as Hg. rewrite Z2Nat.id in Hg by lia.
  rewrite <- (assoc_L (++)) in Hg. cbn [app] in Hg. rewrite <- Hd in Hg. rewrite <- Hg by lia. f_equal. rewrite length_app. cbn [length]. lia.
Qed.

Lemma readInt_in_place pre v post : data = pre ++ enc_int v ++ post -> 0 <= v < 2 ^ 64 -> Z.of_nat (length pre) + Z.of_nat (length (enc_int v)) <= tab ->
  _readInt base data (base + Z.of_nat (length pre)) (base + (tab - 1)) = Some (Some (v, base + Z.of_nat (length pre) + Z.of_nat (length (enc_int v)))).
Proof.
  intros Hd Hv Hl. pose proof inside. pose proof (length_enc_int v). destruct (int_marker_size v) as (k & Hk & Em & Es). pose proof (int_bytes_range v).
  assert (Z.of_nat (length (enc_int v)) = 1 + int_bytes v) as Hle by (unfold enc_int; cbn [length]; rewrite length_bigEndian; lia).
  unfold _readInt. destruct (Z.ltb_spec (base + (tab - 1)) (base + Z.of_nat (length pre))); [lia|]. cbn [negb].
  assert (byte_at base data (base + Z.of_nat (length pre)) = Some (int_marker v)) as ->. { rewrite Hd. unfold enc_int. rewrite <- app_comm_cons. apply byte_at_between. }
  cbn [opt_bind]. rewrite Em. change (16 + k) with (16 * 1 + k). destruct (nibbles 1 k) as (_ & -> & ->); [lia..|]. cbn [Z.eqb Z.mul Pos.mul kCFBinaryPlistMarkerInt Pos.eqb]. rewrite Es.
  rewrite check_ptr_add_sum by lia. cbn [orb]. destruct (Z.leb_spec (2 ^ 64) (base + Z.of_nat (length pre) + 1 + int_bytes v)); [lia|]. cbn [negb].
  rewrite (uwrap_id 64 (base + Z.of_nat (length pre) + 1 + int_bytes v)), uwrap_id by (unfold in_unsigned; lia).
  destruct (Z.ltb_spec (base + (tab - 1)) (base + Z.of_nat (length pre) + 1 + int_bytes v - 1)); [lia|]. cbn [negb].
  rewrite (getSizedInt_enc pre v post Hd Hv). cbn [opt_bind]. do 3 f_equal. lia.
Qed.

(** A marker with its count. *)
Lemma count_in_place pre j count post : data = pre ++ enc_count (16 * j) count ++ post -> 0 <= j < 16 -> 0 <= count < 2 ^ 63 ->
  Z.of_nat (length pre) + Z.of_nat (length (enc_count (16 * j) count)) <= tab ->
  exists marker, byte_at base data (base + Z.of_nat (length pre)) = Some marker /\ Z.land marker 0xf0 = 16 * j /\
    after_marker base (Z.of_nat (length pre)) = Some (Some (base + Z.of_nat (length pre) + 1)) /\
    read_count base data trailer marker (base + Z.of_nat (length pre) + 1) =
      Some (Some (count, base + Z.of_nat (length (pre ++ enc_count (16 * j) count)))).
Proof.
  intros Hd Hj Hc Hl. pose proof (length_enc_count (16 * j) count). set (k := if count <? 15 then count else 15).
  assert (0 <= k < 16) as Hk by (unfold k; destruct (Z.ltb_spec count 15); lia). destruct (nibbles j k Hj Hk) as (Eu & El & Eh).
  assert (enc_count (16 * j) count = 16 * j + k :: (if 15 <=? count then enc_int count else [])) as Eenc by (unfold enc_count; fold k; by rewrite Eu).
  rewrite Eenc in *. exists (16 * j + k). split_and!.
  - rewrite Hd, <- app_comm_cons. apply byte_at_between.
  - done.
  - apply after_marker_at. lia.
  - unfold read_count. rewrite El, length_app. unfold k in *. destruct (Z.ltb_spec count 15), (Z.leb_spec 15 count); try lia.
    + destruct (Z.eqb_spec 15 count); [lia|]. cbn [length]. do 3 f_equal. lia.
    + change (15 =? 15) with true. cbn iota. rewrite range_end. rewrite <- app_comm_cons in Hd.
      assert (data = (pre ++ [16 * j + 15]) ++ enc_int count ++ post) as Hd' by (by rewrite <- (assoc_L (++))).
      cbn [length] in Hl. pose proof (readInt_in_place (pre ++ [16 * j + 15]) count post Hd' ltac:(lia)) as Hri. rewrite length_app in Hri. cbn [length] in Hri.
      replace (base + Z.of_nat (length pre) + 1) with (base + Z.of_nat (length pre + 1)) by lia. rewrite Hri by lia. cbn [try_bind].
      unfold LONG_MAX. destruct (Z.ltb_spec (2 ^ 63 - 1) count); [lia|]. cbn [negb length]. do 3 f_equal. lia.
Qed.

(** ** Leaves *)

Section Strings.
Context `{!ASCIIStrings} `{!ASCIIStringsLaws}.

Lemma object_in_place i e : encs !! i = Some e ->
  exists pre post, data = pre ++ e ++ post /\ Z.of_nat (length pre) = offset_of i.
Proof.
  intros Ei. exists (bplist00 ++ concat (take i encs)), (concat (drop (S i) encs) ++ flat_map (bigEndian (Z.to_nat intSize)) (offsets_from 8 encs) ++ trailer_bytes trailer).
  split; [|rewrite length_app; unfold offset_of; change (length bplist00) with 8%nat; lia].
  unfold file_bytes. rewrite (concat_around encs i e Ei) at 1. by rewrite <- !(assoc_L (++)).
Qed.

Lemma decode_leaf d off marker pl : 8 <= off < tab -> byte_at base data (base + off) = Some marker -> is_collection marker = false ->
  read_leaf base data trailer off marker = Some (Some pl) -> decode_object base data trailer (S d) off = Some pl.
Proof.
  intros Ho Hb Hc Hr'. cbn [decode_object file_trailer _offsetTableOffset]. destruct (Z.ltb_spec off 8); [lia|]. destruct (Z.leb_spec tab off); [lia|]. cbn [orb].
  rewrite Hb. cbn [opt_bind]. by rewrite Hc, Hr'.
Qed.

(** Which case of the switch a marker belongs to. *)
Lemma leaf_case marker j off : Z.land marker 0xf0 = 16 * j -> 0 <= j < 9 ->
  is_collection marker = false /\
  read_leaf base data trailer off marker =
    nth (Z.to_nat j) [read_simple marker; read_int_object base data trailer off marker; read_real base data trailer off marker; read_date base data trailer off marker;
      read_data base data trailer off marker; read_ascii base data trailer off marker; read_unicode base data trailer off marker; Some None; read_uid base data trailer off marker]
      (Some None).
Proof.
  intros Hm Hj. unfold is_collection, read_leaf. rewrite Hm.
  assert (j = 0 \/ j = 1 \/ j = 2 \/ j = 3 \/ j = 4 \/ j = 5 \/ j = 6 \/ j = 7 \/ j = 8) as Hc by lia. repeat destruct Hc as [->|Hc]; subst; done.
Qed.

(** The objects that a program can have made, and numbers that the format can
    hold. *)
Definition number_ok (num : CFNumber) : Prop :=
  match num with
  | SInt64 v => in_signed 64 v
  | SInt128 high low => high = 0 /\ 0 <= low < 2 ^ 64
  | Float32 bits => 0 <= bits < 2 ^ 32 /\ CFNumberCreate_Float32 bits = Float32 bits
  | Float64 bits => 0 <= bits < 2 ^ 64 /\ CFNumberCreate_Float64 bits = Float64 bits
  end.

Definition object_ok (obj : plist_object) : Prop :=
  match obj with
  | OString chars => Forall (fun c => 0 <= c < 2 ^ 16) chars
  | ONumber num => number_ok num
  | OData bytes => Forall is_octet bytes
  | ODate bits => 0 <= bits < 2 ^ 64
  | OUID value => 0 <= value < 2 ^ 32
  | _ => True
  end.

Lemma unichars_bigEndian chars : Forall (fun c => 0 <= c < 2 ^ 16) chars -> unichars (flat_map (bigEndian 2) chars) = chars.
Proof.
  induction 1 as [|c chars Hc _ IH]; [done|].
  change (flat_map (bigEndian 2) (c :: chars)) with (uwrap 8 (Z.shiftr c 8) :: uwrap 8 (Z.shiftr c 0) :: flat_map (bigEndian 2) chars).
  cbn [unichars]. rewrite IH. f_equal. rewrite Z.shiftr_0_r, Z.shiftr_div_pow2, Z.shiftl_mul_pow2 by lia. unfold uwrap. change (2 ^ 8) with 256 in *. change (2 ^ 16) with 65536 in Hc.
  Z.to_euclidean_division_equations; lia.
Qed.

(** An object that begins with the marker [16 * j + k]. *)
Lemma leaf_start pre j k rest post : data = pre ++ (16 * j + k :: rest) ++ post -> 0 <= j < 9 -> 0 <= k < 16 -> 8 <= Z.of_nat (length pre) ->
  Z.of_nat (length pre) + 1 + Z.of_nat (length rest) <= tab ->
  let off := Z.of_nat (length pre) in let marker := 16 * j + k in
  (forall d pl, read_leaf base data trailer off marker = Some (Some pl) -> decode_object base data trailer (S d) off = Some pl) /\
  is_collection marker = false /\ Z.land marker 0x0f = k /\ Z.land marker 0xf0 = 16 * j /\ after_marker base off = Some (Some (base + off + 1)) /\
  data = (pre ++ [marker]) ++ rest ++ post /\ base + off + 1 = base + Z.of_nat (length (pre ++ [marker])).
Proof.
  intros Hd Hj Hk H8 Hl off marker. rewrite <- app_comm_cons in Hd. destruct (nibbles j k) as (_ & El & Eh); [lia..|].
  destruct (leaf_case marker j off Eh Hj) as [Hc _]. split_and!; try done.
  - intros d pl. apply decode_leaf; [unfold off; lia| |done]. rewrite Hd. apply byte_at_between.
  - apply after_marker_at. unfold off. lia.
  - by rewrite <- (assoc_L (++)).
  - rewrite length_app. cbn [length]. unfold off. lia.
Qed.

(** A marker and a fixed number of bytes. *)
Lemma fixed_bytes pre j k n v post : data = pre ++ (16 * j + k :: bigEndian n v) ++ post -> 0 <= j < 9 -> 0 <= k < 16 -> 8 <= Z.of_nat (length pre) ->
  Z.of_nat (length pre) + 1 + Z.of_nat n <= tab -> 0 <= v < 256 ^ Z.of_nat n ->
  read_bytes_at base data trailer (base + Z.of_nat (length pre) + 1) (Z.of_nat n) = Some (Some (bigEndian n v)) /\ from_big (bigEndian n v) = v.
Proof.
  intros Hd Hj Hk H8 Hl Hv. destruct (leaf_start _ _ _ _ _ Hd Hj Hk H8) as (_ & _ & _ & _ & _ & Hd' & ->); [rewrite length_bigEndian; lia|].
  split; [|by apply from_big_bigEndian]. rewrite <- (length_bigEndian n v) at 1. apply (read_bytes_in_place _ _ post Hd'). rewrite length_app, length_bigEndian. cbn [length]. lia.
Qed.

Lemma decode_sint64 d pre v post : data = pre ++ enc_int (uwrap 64 v) ++ post -> in_signed 64 v -> 8 <= Z.of_nat (length pre) ->
  Z.of_nat (length pre) + Z.of_nat (length (enc_int (uwrap 64 v))) <= tab -> decode_object base data trailer (S d) (Z.of_nat (length pre)) = Some (PNumber (SInt64 v)).
Proof.
  intros Hd Hv H8 Hl. pose proof (uwrap_bounds_64 v) as Hu. destruct (int_marker_size (uwrap 64 v)) as (k & Hk & Em & Es). pose proof (int_bytes_range (uwrap 64 v)) as Hb.
  pose proof Hd as Hd0. unfold enc_int in Hd, Hl. rewrite Em in Hd. change (16 + k) with (16 * 1 + k) in Hd. cbn [length] in Hl. rewrite length_bigEndian in Hl.
  destruct (leaf_start _ _ _ _ _ Hd) as (Hdec & Hc & El & Eh & Ha & _ & _); [lia..|rewrite length_bigEndian; lia|]. apply Hdec.
  destruct (leaf_case _ 1 (Z.of_nat (length pre)) Eh ltac:(lia)) as [_ ->]. change (Z.to_nat 1) with 1%nat. cbn [nth]. unfold read_int_object. rewrite Ha. cbn [try_bind].
  rewrite El, Es, extent_valid_at by lia. destruct (Z.ltb_spec 16 (int_bytes (uwrap 64 v))); [lia|]. cbn [negb].
  rewrite (getSizedInt_enc pre _ post Hd0 Hu). cbn [opt_bind]. destruct (Z.ltb_spec 8 (int_bytes (uwrap 64 v))); [lia|]. do 4 f_equal.
  unfold swrap, uwrap, in_signed in *. change (64 - 1) with 63 in *. rewrite Zplus_mod_idemp_l. rewrite Z.mod_small by lia. lia.
Qed.

Lemma decode_sint128 d pre low post : data = pre ++ enc_number (SInt128 0 low) ++ post -> 0 <= low < 2 ^ 64 -> 8 <= Z.of_nat (length pre) ->
  Z.of_nat (length pre) + 17 <= tab -> decode_object base data trailer (S d) (Z.of_nat (length pre)) = Some (PNumber (SInt128 0 low)).
Proof.
  intros Hd Hlow H8 Hl. cbn [enc_number] in Hd. change 0x14 with (16 * 1 + 4) in Hd at 1.
  assert (Z.of_nat (length (bigEndian 8 0 ++ bigEndian 8 low)) = 16) as Hlen16 by (by rewrite length_app, !length_bigEndian).
  destruct (leaf_start _ _ _ _ _ Hd) as (Hdec & Hc & El & Eh & Ha & Hd' & Hp); [lia..|]. apply Hdec.
  destruct (leaf_case _ 1 (Z.of_nat (length pre)) Eh ltac:(lia)) as [_ ->]. change (Z.to_nat 1) with 1%nat. cbn [nth]. unfold read_int_object. rewrite Ha. cbn [try_bind].
  rewrite El. change (Z.shiftl 1 4) with 16. rewrite extent_valid_at by lia. change (16 <? 16) with false. cbn [negb].
  assert (from_big (bigEndian 8 0 ++ bigEndian 8 low) = low) as Hf.
  { change (bigEndian 8 0) with (replicate 8 0). transitivity (from_big (bigEndian 8 low)); [reflexivity|]. apply from_big_bigEndian. change (256 ^ Z.of_nat 8) with (2 ^ 64). lia. }
  rewrite Hp. rewrite Hd' at 1. rewrite getSizedInt_exact; [|apply Forall_app; split; apply bigEndian_octets|lia|lia|lia]. cbn [opt_bind]. rewrite Hf. done.
Qed.

Lemma decode_number d pre num post : data = pre ++ enc_number num ++ post -> number_ok num -> 8 <= Z.of_nat (length pre) ->
  Z.of_nat (length pre) + Z.of_nat (length (enc_number num)) <= tab -> decode_object base data trailer (S d) (Z.of_nat (length pre)) = Some (PNumber num).
Proof.
  intros Hd Hok H8 Hl. destruct num as [v|high low|bits|bits]; cbn [enc_number length number_ok] in *.
  - by apply (decode_sint64 d pre v post).
  - destruct Hok as [-> Hlow]. rewrite length_app, !length_bigEndian in Hl. apply (decode_sint128 d pre low post); [done..|lia].
  - destruct Hok as [Hbits Hfin]. rewrite length_bigEndian in Hl. change 0x22 with (16 * 2 + 2) in Hd at 1.
    destruct (leaf_start _ _ _ _ _ Hd) as (Hdec & Hc & El & Eh & Ha & _); [lia..|rewrite length_bigEndian; lia|]. apply Hdec.
    destruct (fixed_bytes _ _ _ _ _ _ Hd) as [Hrb Hf]; [lia..|change (256 ^ Z.of_nat 4) with (2 ^ 32); lia|]. change (Z.of_nat 4) with 4 in Hrb.
    destruct (leaf_case _ 2 (Z.of_nat (length pre)) Eh ltac:(lia)) as [_ ->]. change (Z.to_nat 2) with 2%nat. cbn [nth]. unfold read_real. rewrite El, Ha. cbn [try_bind Z.eqb Pos.eqb].
    by rewrite Hrb; cbn [try_bind]; rewrite Hf, Hfin.
  - destruct Hok as [Hbits Hfin]. rewrite length_bigEndian in Hl. change 0x23 with (16 * 2 + 3) in Hd at 1.
    destruct (leaf_start _ _ _ _ _ Hd) as (Hdec & Hc & El & Eh & Ha & _); [lia..|rewrite length_bigEndian; lia|]. apply Hdec.
    destruct (fixed_bytes _ _ _ _ _ _ Hd) as [Hrb Hf]; [lia..|change (256 ^ Z.of_nat 8) with (2 ^ 64); lia|]. change (Z.of_nat 8) with 8 in Hrb.
    destruct (leaf_case _ 2 (Z.of_nat (length pre)) Eh ltac:(lia)) as [_ ->]. change (Z.to_nat 2) with 2%nat. cbn [nth]. unfold read_real. rewrite El, Ha. cbn [try_bind Z.eqb Pos.eqb].
    by rewrite Hrb; cbn [try_bind]; rewrite Hf, Hfin.
Qed.

(** Bytes behind a marker with a count. *)
Lemma counted_bytes pre j count body post : data = pre ++ (enc_count (16 * j) count ++ body) ++ post -> 0 <= j < 16 -> 0 <= count < 2 ^ 63 -> 8 <= Z.of_nat (length pre) ->
  Z.of_nat (length pre) + Z.of_nat (length (enc_count (16 * j) count ++ body)) <= tab ->
  let p := pre ++ enc_count (16 * j) count in
  data = p ++ body ++ post /\ Z.of_nat (length p) + Z.of_nat (length body) <= tab /\
  exists marker, byte_at base data (base + Z.of_nat (length pre)) = Some marker /\ Z.land marker 0xf0 = 16 * j /\
    after_marker base (Z.of_nat (length pre)) = Some (Some (base + Z.of_nat (length pre) + 1)) /\
    read_count base data trailer marker (base + Z.of_nat (length pre) + 1) = Some (Some (count, base + Z.of_nat (length p))) /\
    8 <= Z.of_nat (length pre) < tab.
Proof.
  intros Hd Hj Hc H8 Hl p. rewrite <- (assoc_L (++)) in Hd. rewrite length_app in Hl. pose proof (length_enc_count (16 * j) count).
  split; [unfold p; by rewrite <- (assoc_L (++))|]. split; [unfold p; rewrite length_app; lia|].
  destruct (count_in_place pre j count (body ++ post) Hd Hj Hc) as (marker & Hb & Eh & Ha & Hrc); [lia|]. exists marker. split_and!; try done; lia.
Qed.

Lemma decode_data d pre bytes post : data = pre ++ (enc_count kCFBinaryPlistMarkerData (Z.of_nat (length bytes)) ++ bytes) ++ post -> Z.of_nat (length bytes) < 2 ^ 62 ->
  8 <= Z.of_nat (length pre) -> Z.of_nat (length pre) + Z.of_nat (length (enc_count kCFBinaryPlistMarkerData (Z.of_nat (length bytes)) ++ bytes)) <= tab ->
  decode_object base data trailer (S d) (Z.of_nat (length pre)) = Some (PData bytes).
Proof.
  intros Hd Hn H8 Hl. change kCFBinaryPlistMarkerData with (16 * 4) in *.
  destruct (counted_bytes _ _ _ _ _ Hd) as (Hd' & Hl' & marker & Hb & Eh & Ha & Hrc & Ho); [lia..|].
  destruct (leaf_case marker 4 (Z.of_nat (length pre)) Eh ltac:(lia)) as [Hc Hleaf]. apply (decode_leaf _ _ marker); [done..|]. rewrite Hleaf. change (Z.to_nat 4) with 4%nat. cbn [nth].
  unfold read_data. rewrite Ha. cbn [try_bind]. rewrite Hrc. cbn [try_bind]. rewrite (read_bytes_in_place _ _ _ Hd' Hl'). done.
Qed.

Lemma decode_string d pre chars post : data = pre ++ enc_string chars ++ post -> Z.of_nat (length chars) < 2 ^ 60 -> Forall (fun c => 0 <= c < 2 ^ 16) chars ->
  8 <= Z.of_nat (length pre) -> Z.of_nat (length pre) + Z.of_nat (length (enc_string chars)) <= tab ->
  decode_object base data trailer (S d) (Z.of_nat (length pre)) = Some (PString chars).
Proof.
  intros Hd Hn Hok H8 Hl. unfold enc_string in *. destruct (decide (Forall is_ascii chars)) as [Ha|Hna].
  - change kCFBinaryPlistMarkerASCIIString with (16 * 5) in *. destruct (counted_bytes _ _ _ _ _ Hd) as (Hd' & Hl' & marker & Hb & Eh & Haf & Hrc & Ho); [lia..|].
    destruct (leaf_case marker 5 (Z.of_nat (length pre)) Eh ltac:(lia)) as [Hc Hleaf]. apply (decode_leaf _ _ marker); [done..|]. rewrite Hleaf. change (Z.to_nat 5) with 5%nat. cbn [nth].
    unfold read_ascii. rewrite Haf. cbn [try_bind]. rewrite Hrc. cbn [try_bind]. rewrite (read_bytes_in_place _ _ _ Hd' Hl'). cbn [try_bind]. by rewrite (create_ascii chars Ha).
  - change kCFBinaryPlistMarkerUnicode16String with (16 * 6) in *. destruct (counted_bytes _ _ _ _ _ Hd) as (Hd' & Hl' & marker & Hb & Eh & Haf & Hrc & Ho); [lia..|].
    destruct (leaf_case marker 6 (Z.of_nat (length pre)) Eh ltac:(lia)) as [Hc Hleaf]. apply (decode_leaf _ _ marker); [done..|]. rewrite Hleaf. change (Z.to_nat 6) with 6%nat. cbn [nth].
    unfold read_unicode. rewrite Haf. cbn [try_bind]. rewrite Hrc. cbn [try_bind]. set (p := pre ++ enc_count _ _) in *. set (n := Z.of_nat (length chars)) in *.
    assert (length chars <> 0%nat) as Hn0 by (destruct chars; [by destruct Hna|done]). rewrite length_flat_bigEndian in Hl'. pose proof inside as Hin.
    assert (8 <= Z.of_nat (length p)) as Hp8 by (unfold p; rewrite length_app; lia).
    rewrite (check_ptr_add_sum (base + Z.of_nat (length p)) n) by lia. rewrite (uwrap_id 64 (base + Z.of_nat (length p) + n)), (uwrap_id 64 (_ - 1)) by (unfold in_unsigned; lia).
    rewrite check_ptr_add_sum by lia. rewrite (uwrap_id 64 (base + Z.of_nat (length p) + n - 1 + n)) by (unfold in_unsigned; lia). cbn [orb].
    destruct (Z.leb_spec (2 ^ 64) (base + Z.of_nat (length p) + n)); [lia|]. destruct (Z.leb_spec (2 ^ 64) (base + Z.of_nat (length p) + n - 1 + n)); [lia|]. cbn [orb negb].
    rewrite range_end. destruct (Z.ltb_spec (base + (tab - 1)) (base + Z.of_nat (length p) + n - 1 + n)); [lia|]. cbn [negb].
    rewrite check_size_t_mul_product by lia. cbn [orb]. destruct (Z.leb_spec (2 ^ 64) (n * 2)); [lia|]. cbn [negb]. rewrite uwrap_id by (unfold in_unsigned; lia).
    destruct (Z.eqb_spec (n * 2) 0); [lia|]. cbn [negb]. replace (base + Z.of_nat (length p) - base) with (Z.of_nat (length p)) by lia.
    replace (n * 2) with (Z.of_nat (length (flat_map (bigEndian 2) chars))) by (rewrite length_flat_bigEndian; lia).
    rewrite Hd' at 1. rewrite block_between. cbn [opt_bind]. by rewrite unichars_bigEndian.
Qed.

Lemma decode_uid d pre v post : data = pre ++ enc_uid v ++ post -> 0 <= v < 2 ^ 32 -> 8 <= Z.of_nat (length pre) ->
  Z.of_nat (length pre) + Z.of_nat (length (enc_uid v)) <= tab -> decode_object base data trailer (S d) (Z.of_nat (length pre)) = Some (PUID v).
Proof.
  intros Hd Hv H8 Hl. pose proof (int_bytes_range v) as Hb. pose proof (int_bytes_enough v ltac:(lia)) as He. pose proof inside. unfold enc_uid in Hd, Hl. cbn [length] in Hl. rewrite length_bigEndian in Hl.
  assert (Z.lor 0x80 (uwrap 8 (int_bytes v - 1)) = 16 * 8 + (int_bytes v - 1)) as Em.
  { destruct (nibbles 8 (int_bytes v - 1)) as (E & _ & _); [lia..|]. rewrite uwrap_id by (unfold in_unsigned; lia). change (16 * 8) with 0x80 in *. rewrite <- E. symmetry. apply uwrap_id.
    unfold in_unsigned. split; [apply Z.lor_nonneg; lia|]. apply Z.log2_lt_cancel. rewrite Z.log2_lor by lia. assert (Z.log2 (int_bytes v - 1) <= Z.log2 7) by (apply Z.log2_le_mono; lia).
    change (Z.log2 (2 ^ 8)) with 8. change (Z.log2 0x80) with 7. change (Z.log2 7) with 2 in *. lia. }
  rewrite Em in Hd. destruct (leaf_start _ _ _ _ _ Hd) as (Hdec & Hc & El & Eh & Ha & Hd' & Hp); [lia..|rewrite length_bigEndian; lia|]. apply Hdec.
  destruct (leaf_case _ 8 (Z.of_nat (length pre)) Eh ltac:(lia)) as [_ ->]. change (Z.to_nat 8) with 8%nat. cbn [nth]. unfold read_uid. rewrite Ha. cbn [try_bind].
  rewrite El, extent_valid_at by lia. replace (int_bytes v - 1 + 1) with (int_bytes v) by lia. rewrite Hp.
  pose proof (getSizedInt_bigEndian base (pre ++ [16 * 8 + (int_bytes v - 1)]) (Z.to_nat (int_bytes v)) v post) as Hg. rewrite <- Hd', Z2Nat.id in Hg by lia. rewrite Hg by lia. cbn [opt_bind].
  unfold UINT32_MAX. by destruct (Z.ltb_spec (2 ^ 32 - 1) v); [lia|].
Qed.

Lemma decode_simple d pre (b : bool) post : data = pre ++ [if b then kCFBinaryPlistMarkerTrue else kCFBinaryPlistMarkerFalse] ++ post -> 8 <= Z.of_nat (length pre) ->
  Z.of_nat (length pre) + 1 <= tab -> decode_object base data trailer (S d) (Z.of_nat (length pre)) = Some (PBoolean b).
Proof.
  intros Hd H8 Hl. assert (data = pre ++ (16 * 0 + (if b then 9 else 8) :: []) ++ post) as Hd' by (rewrite Hd; by destruct b).
  destruct (leaf_start _ _ _ _ _ Hd') as (Hdec & _); [lia|destruct b; lia|lia|cbn [length]; lia|]. apply Hdec. by destruct b.
Qed.

Lemma decode_date d pre bits post : data = pre ++ (kCFBinaryPlistMarkerDate :: bigEndian 8 bits) ++ post -> 0 <= bits < 2 ^ 64 -> 8 <= Z.of_nat (length pre) ->
  Z.of_nat (length pre) + 9 <= tab -> decode_object base data trailer (S d) (Z.of_nat (length pre)) = Some (PDate bits).
Proof.
  intros Hd Hv H8 Hl. change kCFBinaryPlistMarkerDate with (16 * 3 + 3) in Hd at 1.
  destruct (leaf_start _ _ _ _ _ Hd) as (Hdec & Hc & El & Eh & Ha & _); [lia..|rewrite length_bigEndian; lia|]. apply Hdec.
  destruct (fixed_bytes _ _ _ _ _ _ Hd) as [Hrb Hf]; [lia..|change (256 ^ Z.of_nat 8) with (2 ^ 64); lia|]. change (Z.of_nat 8) with 8 in Hrb.
  destruct (leaf_case _ 3 (Z.of_nat (length pre)) Eh ltac:(lia)) as [_ ->]. change (Z.to_nat 3) with 3%nat. cbn [nth]. unfold read_date. rewrite Ha.
  change (16 * 3 + 3 =? kCFBinaryPlistMarkerDate) with true. cbn [try_bind]. rewrite Hrb. cbn [try_bind]. by rewrite Hf.
Qed.

(** ** Collections *)

Lemma collection_start pre j count refs post :
  data = pre ++ (enc_count (16 * j) (Z.of_nat count) ++ refs) ++ post -> j = 10 \/ j = 13 -> Z.of_nat count < 2 ^ 31 ->
  Z.of_nat (length refs) = Z.of_nat count * (if j =? 13 then 2 else 1) * refSize ->
  8 <= Z.of_nat (length pre) -> Z.of_nat (length pre) + Z.of_nat (length (enc_count (16 * j) (Z.of_nat count) ++ refs)) <= tab ->
  exists marker, byte_at base data (base + Z.of_nat (length pre)) = Some marker /\ Z.land marker 0xf0 = 16 * j /\ is_collection marker = true /\
    8 <= Z.of_nat (length pre) < tab /\
    collection_refs base data trailer (Z.of_nat (length pre)) marker =
      Some (Some (Z.of_nat count * (if j =? 13 then 2 else 1), base + Z.of_nat (length (pre ++ enc_count (16 * j) (Z.of_nat count))))) /\
    data = (pre ++ enc_count (16 * j) (Z.of_nat count)) ++ refs ++ post /\
    Z.of_nat (length (pre ++ enc_count (16 * j) (Z.of_nat count))) + Z.of_nat (length refs) <= tab.
Proof.
  intros Hd Hj Hc Hrefs H8 Hl. destruct (counted_bytes _ _ _ _ _ Hd) as (Hd' & Hl' & marker & Hb & Eh & Ha & Hrc & Ho); [lia..|]. pose proof inside as Hin.
  exists marker. split; [done|]. split; [done|]. split; [unfold is_collection; rewrite Eh; by destruct Hj as [-> | ->]|]. split; [done|]. split; [|done].
  unfold collection_refs. rewrite Ha. cbn [try_bind]. rewrite Hrc. cbn [try_bind]. rewrite Eh.
  set (w := if j =? 13 then 2 else 1) in *. set (p := base + _).
  assert ((if 16 * j =? kCFBinaryPlistMarkerDict then check_size_t_mul (Z.of_nat count) 2 false else (Z.of_nat count, false)) = (Z.of_nat count * w, false)) as ->.
  { unfold w. destruct Hj as [-> | ->]; cbn [Z.eqb Pos.eqb Z.mul Pos.mul kCFBinaryPlistMarkerDict]; [by rewrite Z.mul_1_r|].
    rewrite check_size_t_mul_product, uwrap_id by (unfold in_unsigned; lia). by destruct (Z.leb_spec (2 ^ 64) (Z.of_nat count * 2)); [lia|]. }
  assert (1 <= w <= 2) by (unfold w; destruct (j =? 13); lia). cbn [negb]. cbn [file_trailer _objectRefSize]. rewrite check_size_t_mul_product by nia. cbn [orb].
  destruct (Z.leb_spec (2 ^ 64) (Z.of_nat count * w * refSize)); [nia|]. cbn [negb]. rewrite uwrap_id by (unfold in_unsigned; nia).
  rewrite extent_valid_at by (unfold p; lia). rewrite check_size_t_mul_product by nia. cbn [orb]. by destruct (Z.leb_spec (2 ^ 64) (Z.of_nat count * w * 8)); [nia|].
Qed.

(** The objects that references denote. *)
Lemma decode_refs_exact (dec : Z -> option plist) (table : gmap Z Z) pre ps post ts :
  data = pre ++ enc_refs table refSize ps ++ post -> 8 <= Z.of_nat (length pre) -> Z.of_nat (length pre) + Z.of_nat (length (enc_refs table refSize ps)) <= tab ->
  Forall2 (fun p t => exists i e, table !! p = Some (Z.of_nat i) /\ encs !! i = Some e /\ dec (offset_of i) = Some t) ps ts ->
  decode_refs base data trailer dec (length ps) (base + Z.of_nat (length pre)) = Some ts.
Proof.
  intros Hd H8 Hl Hf. revert pre Hd H8 Hl. induction Hf as [|p t ps ts (i & e & Hi' & He & Ht) _ IH]; intros pre Hd H8 Hl; [done|].
  cbn [length decode_refs]. cbn [enc_refs flat_map] in Hd, Hl. fold (enc_refs table refSize ps) in Hd, Hl. rewrite Hi' in Hd, Hl. change (default 0 (Some (Z.of_nat i))) with (Z.of_nat i) in Hd, Hl.
  rewrite length_app, length_bigEndian in Hl. pose proof (lookup_lt_Some _ _ _ He). rewrite (uwrap_id 32 (Z.of_nat i)) in Hd by (unfold in_unsigned; lia). rewrite <- (assoc_L (++)) in Hd.
  rewrite (reference_found pre i e (enc_refs table refSize ps ++ post) Hd) by (done || lia). cbn [opt_bind]. rewrite Ht. cbn [opt_bind]. cbn [file_trailer _objectRefSize].
  assert (data = (pre ++ bigEndian (Z.to_nat refSize) (Z.of_nat i)) ++ enc_refs table refSize ps ++ post) as Hd' by (by rewrite <- (assoc_L (++))).
  replace (base + Z.of_nat (length pre) + refSize) with (base + Z.of_nat (length (pre ++ bigEndian (Z.to_nat refSize) (Z.of_nat i)))) by (rewrite length_app, length_bigEndian; lia).
  rewrite (IH _ Hd'); [done|rewrite length_app, length_bigEndian; lia..].
Qed.

(** ** Every object is read back *)

Context (objects : gmap Z plist_object) (table : gmap Z Z) (ps : list Z).
Context (Hnum : forall q i, table !! q = Some i -> 0 <= i /\ ps !! Z.to_nat i = Some q).
Context (Hencs : enc_objects objects table refSize ps = Some encs).
Context (Hkids : forall q, q ∈ ps -> exists obj, objects !! q = Some obj /\ forall c, c ∈ children obj -> is_Some (table !! c)).
Context (Hok : forall q obj, objects !! q = Some obj -> object_ok obj).
Context (Hweight : forall q obj, q ∈ ps -> objects !! q = Some obj -> own_weight obj < 2 ^ 31).

(** Keys are leaves. *)
Definition leaf_object (obj : plist_object) : Prop := match obj with ODictionary _ | OArray _ => False | _ => True end.

Context (Hkeys : forall q entries k, objects !! q = Some (ODictionary entries) -> k ∈ entries.*1 -> exists obj, objects !! k = Some obj /\ leaf_object obj).

Lemma encoded q i : table !! q = Some i -> exists obj e, objects !! q = Some obj /\ encs !! Z.to_nat i = Some e /\ enc_object table refSize obj = Some e /\ q ∈ ps.
Proof.
  intros Hq. apply Hnum in Hq as [_ Hq]. apply mapM_Some_1 in Hencs. destruct (Forall2_lookup_l _ _ _ _ _ Hencs Hq) as (e & He & Hb).
  apply bind_Some in Hb as (obj & Ho & Hobj). exists obj, e. split_and!; try done. by eapply list_elem_of_lookup_2.
Qed.

Lemma leaf_primitive depth q obj t : objects !! q = Some obj -> leaf_object obj -> plist_of depth objects q = Some t -> _plistIsPrimitive t = true.
Proof. destruct depth; [done|]. cbn [plist_of]. intros -> Hl. cbn [opt_bind]. destruct obj; try done; by intros [= <-]. Qed.

Lemma refs_decoded depth qs ts : (forall q t i, plist_of depth objects q = Some t -> table !! q = Some i -> decode_object base data trailer depth (offset_of (Z.to_nat i)) = Some t) ->
  (forall c, c ∈ qs -> is_Some (table !! c)) -> mapM (plist_of depth objects) qs = Some ts ->
  Forall2 (fun p t => exists i e, table !! p = Some (Z.of_nat i) /\ encs !! i = Some e /\ decode_object base data trailer depth (offset_of i) = Some t) qs ts.
Proof.
  intros Hdec Htab' Hm%mapM_Some_1. apply Forall2_same_length_lookup_2; [by eapply Forall2_length|]. intros k q t Hq Ht.
  pose proof (Forall2_lookup_lr _ _ _ _ _ _ Hm Hq Ht) as Hpl. destruct (Htab' q) as [i Hi']; [by eapply list_elem_of_lookup_2|].
  destruct (encoded q i Hi') as (_ & e & _ & He & _). pose proof (Hnum q i Hi') as [Hi0 _]. exists (Z.to_nat i), e. rewrite Z2Nat.id by done. split_and!; try done. by apply (Hdec q t i).
Qed.

Lemma decode_collection depth pre j count qs post ts :
  data = pre ++ (enc_count (16 * j) (Z.of_nat count) ++ enc_refs table refSize qs) ++ post -> j = 10 \/ j = 13 -> Z.of_nat count < 2 ^ 31 ->
  Z.of_nat (length qs) = Z.of_nat count * (if j =? 13 then 2 else 1) -> 8 <= Z.of_nat (length pre) ->
  Z.of_nat (length pre) + Z.of_nat (length (enc_count (16 * j) (Z.of_nat count) ++ enc_refs table refSize qs)) <= tab ->
  Forall2 (fun p t => exists i e, table !! p = Some (Z.of_nat i) /\ encs !! i = Some e /\ decode_object base data trailer depth (offset_of i) = Some t) qs ts ->
  (j = 13 -> Forall (fun t => _plistIsPrimitive t = true) (take count ts)) ->
  decode_object base data trailer (S depth) (Z.of_nat (length pre)) =
    Some (if j =? 13 then PDictionary (take count ts) (drop count ts) else PArray ts).
Proof.
  intros Hd Hj Hc Hq H8 Hl Hf Hprim. destruct (collection_start pre j count _ post Hd Hj Hc) as (marker & Hb & Eh & Hcol & Ho & Hrefs & Hd' & Hl'); [rewrite length_enc_refs; nia|done..|].
  cbn [decode_object]. cbn [file_trailer _offsetTableOffset]. destruct (Z.ltb_spec (Z.of_nat (length pre)) 8); [lia|]. destruct (Z.leb_spec tab (Z.of_nat (length pre))); [lia|]. cbn [orb].
  rewrite Hb. cbn [opt_bind]. rewrite Hcol. fold trailer. rewrite Hrefs. cbn [mjoin option_join opt_bind].
  rewrite <- Hq, Nat2Z.id. rewrite (decode_refs_exact _ table _ qs post ts Hd') by (done || (rewrite length_app; lia)). cbn [opt_bind].
  apply Forall2_length in Hf as Hlen'. unfold key_count, make_collection. rewrite Eh. destruct Hj as [-> | ->]; cbn [Z.eqb Pos.eqb Z.mul Pos.mul kCFBinaryPlistMarkerDict kCFBinaryPlistMarkerArray] in *.
  - by rewrite take_0.
  - assert (length qs = 2 * count)%nat as Hq2 by lia. rewrite <- Hlen', Hq2, Nat.div2_double. specialize (Hprim eq_refl). change (16 * 13 =? kCFBinaryPlistMarkerDict) with true. cbn iota.
    assert (forallb _plistIsPrimitive (take count ts) = true) as ->; [|done]. apply forallb_forall. intros x Hx. apply (proj1 (Forall_forall _ _) Hprim). by apply list_elem_of_In.
Qed.

Lemma mapM_app_some {A B} (f : A -> option B) l1 l2 r1 r2 : mapM f l1 = Some r1 -> mapM f l2 = Some r2 -> mapM f (l1 ++ l2) = Some (r1 ++ r2).
Proof. intros H1%mapM_Some_1 H2%mapM_Some_1. apply mapM_Some_2. by apply Forall2_app. Qed.

(** The keys of a dictionary are read as leaves. *)
Lemma keys_primitive depth q entries ks : objects !! q = Some (ODictionary entries) -> mapM (plist_of depth objects) entries.*1 = Some ks ->
  Forall (fun t => _plistIsPrimitive t = true) ks.
Proof.
  intros Hq Hm%mapM_Some_1. apply Forall_lookup_2. intros i t Ht. destruct (Forall2_lookup_r _ _ _ _ _ Hm Ht) as (k & Hk & Hpl).
  destruct (Hkeys q entries k Hq) as (obj & Ho & Hl); [by eapply list_elem_of_lookup_2|]. by apply (leaf_primitive depth k obj).
Qed.

Lemma decode_all depth q t i : plist_of depth objects q = Some t -> table !! q = Some i ->
  decode_object base data trailer depth (offset_of (Z.to_nat i)) = Some t.
Proof.
  revert q t i. induction depth as [|depth IH]; intros q t i Hpl Hq; [done|]. cbn [plist_of] in Hpl.
  destruct (encoded q i Hq) as (obj & e & Ho & He & Henc & Hin). rewrite Ho in Hpl. cbn [opt_bind] in Hpl.
  destruct (object_in_place _ _ He) as (pre & post & Hd & Hp). destruct (offset_in_table _ _ He) as (H8 & Hend & _). rewrite <- Hp in *.
  pose proof (Hok q obj Ho) as Hobj. pose proof (Hweight q obj Hin Ho) as Hw. unfold own_weight in Hw.
  destruct (Hkids q Hin) as (obj' & Ho' & Hch). rewrite Ho in Ho'. injection Ho' as <-.
  destruct obj as [chars|num|b|bs|bits|entries|values|v|]; cbn [enc_object object_ok children] in *; try done; apply (inj Some) in Henc as <-; simplify_eq.
  - apply (decode_string depth pre chars post); (done || lia).
  - by apply (decode_number depth pre num post).
  - apply (decode_simple depth pre b post); (done || (cbn in Hend; lia)).
  - apply (decode_data depth pre bs post); (done || lia).
  - change (length (kCFBinaryPlistMarkerDate :: bigEndian 8 bits)) with 9%nat in Hend. apply (decode_date depth pre bits post); (done || lia).
  - apply opt_bind_Some in Hpl as (ks & Ek & Hpl). apply opt_bind_Some in Hpl as (vs & Ev & [= <-]).
    pose proof (Forall2_length _ _ _ (mapM_Some_1 _ _ _ Ek)) as Hlk. rewrite length_fmap in Hlk. rewrite length_app, !length_fmap in Hw.
    pose proof (decode_collection depth pre 13 (length entries) (entries.*1 ++ entries.*2) post (ks ++ vs) Hd) as Hdec.
    rewrite take_app_length', drop_app_length' in Hdec by done. apply Hdec; try done; try lia.
    + rewrite length_app, !length_fmap. change (13 =? 13) with true. lia.
    + apply refs_decoded; [done..|]. by apply mapM_app_some.
    + intros _. by apply (keys_primitive depth q entries).
  - apply opt_bind_Some in Hpl as (vs & Ev & [= <-]). 
    apply (decode_collection depth pre 10 (length values) values post vs Hd); try done; try lia; [change (10 =? 13) with false; lia|by apply refs_decoded].
  - apply (decode_uid depth pre v post); (done || lia).
Qed.
End Strings.
End File.

(** ** Octets *)

Lemma bigEndian_flat_octets n l : Forall is_octet (flat_map (bigEndian n) l).
Proof. induction l as [|x l IH]; cbn [flat_map]; [constructor|]. apply Forall_app. split; [apply bigEndian_octets|done]. Qed.

Lemma enc_int_octets v : Forall is_octet (enc_int v).
Proof. constructor; [|apply bigEndian_octets]. destruct (int_marker_size v) as (k & Hk & -> & _). unfold is_octet. lia. Qed.

Lemma enc_count_octets marker count : Forall is_octet (enc_count marker count).
Proof. constructor; [unfold is_octet, uwrap; apply Z.mod_pos_bound; lia|]. case_match; [apply enc_int_octets|constructor]. Qed.

Lemma enc_refs_octets table refSize ps : Forall is_octet (enc_refs table refSize ps).
Proof. unfold enc_refs. induction ps as [|p ps IH]; cbn [flat_map]; [constructor|]. apply Forall_app. split; [apply bigEndian_octets|done]. Qed.

Lemma enc_object_octets table refSize obj e : object_ok obj -> enc_object table refSize obj = Some e -> Forall is_octet e.
Proof.
  intros Hok. destruct obj as [chars|num|b|bs|bits|entries|values|v|]; cbn [enc_object object_ok] in *; [intros E; apply (inj Some) in E as <-..|done].
  - unfold enc_string. case_match; apply Forall_app; split; try apply enc_count_octets; [|apply bigEndian_flat_octets].
    eapply list.Forall_impl; [eassumption|]. unfold is_ascii, is_octet. lia.
  - destruct num; cbn [enc_number]; [apply enc_int_octets|constructor; [unfold is_octet; lia|]..]; [|apply bigEndian_octets..]. apply Forall_app. split; apply bigEndian_octets.
  - constructor; [unfold is_octet, kCFBinaryPlistMarkerTrue, kCFBinaryPlistMarkerFalse; destruct b; lia|constructor].
  - apply Forall_app. split; [apply enc_count_octets|done].
  - constructor; [unfold is_octet, kCFBinaryPlistMarkerDate; lia|apply bigEndian_octets].
  - apply Forall_app. split; [apply enc_count_octets|apply enc_refs_octets].
  - apply Forall_app. split; [apply enc_count_octets|apply enc_refs_octets].
  - constructor; [|apply bigEndian_octets]. unfold int_bytes, is_octet. repeat case_match; vm_compute; split; congruence.
Qed.

Lemma file_octets objects table refSize ps encs intSize : (forall q obj, objects !! q = Some obj -> object_ok obj) ->
  enc_objects objects table refSize ps = Some encs -> 1 <= refSize <= 4 -> 1 <= intSize <= 8 -> Forall is_octet (file_bytes encs refSize intSize).
Proof.
  intros Hok He%mapM_Some_1 Hr Hi. unfold file_bytes. rewrite !Forall_app. split_and!.
  - unfold bplist00, is_octet. repeat constructor; lia.
  - induction He as [|p e ps encs Hp _ IH]; cbn [concat]; [constructor|]. apply bind_Some in Hp as (obj & Ho & He). apply Forall_app. split; [|done].
    apply (enc_object_octets table refSize obj); [by apply (Hok p)|done].
  - apply bigEndian_flat_octets.
  - unfold trailer_bytes. cbn [file_trailer _offsetIntSize _objectRefSize]. rewrite !Forall_app. split_and!; try apply bigEndian_octets. unfold is_octet. repeat constructor; lia.
Qed.

(** ** The round trip *)

(** A graph of objects that a program can have made: characters, bytes and numbers
    in range, and keys of dictionaries that are no collections. *)
Definition graph_ok (objects : gmap Z plist_object) : Prop :=
  (forall q obj, objects !! q = Some obj -> object_ok obj) /\
  (forall q entries k, objects !! q = Some (ODictionary entries) -> k ∈ entries.*1 -> exists obj, objects !! k = Some obj /\ leaf_object obj).

Lemma encs_nonempty objects table refSize ps encs : enc_objects objects table refSize ps = Some encs -> 1 <= refSize <= 4 -> Forall (fun e => e <> []) encs.
Proof.
  intros He%mapM_Some_1 Hr. induction He as [|p e ps encs Hp _ IH]; [constructor|]. constructor; [|done]. apply bind_Some in Hp as (obj & _ & He).
  intros ->. destruct (length_enc_object _ _ _ _ He Hr) as [H _]. by cbn in H.
Qed.

Section RoundTrip.
Context `{!ASCIIStrings} `{!ASCIIStringsLaws}.

(** C21: the bytes that __CFBinaryPlistWrite appends for a graph of objects are read
    back by __CFTryParseBinaryPlist as the property list of the graph, for every
    mutability option: numbers with their kind (an integer of up to 64 bits, one of 128
    bits, a float, a double), strings in ASCII or UTF-16, data,
    dates, UIDs, booleans, arrays and dictionaries in order, objects that are referred
    to several times at every place.  The writer returns the number of bytes and makes
    no error, the reader stays inside the block.  The graph weighs less than 2^31
    (counting every object, character, byte and reference, as often as it is reached),
    its numbers of 128 bits have a high word of 0, and the block lies in the lower
    half of the address space. *)
Theorem CFBinaryPlist_round_trip depth objects junk p contents t base :
  Z.of_nat (length junk) = sizeof_buffer -> graph_ok objects -> plist_of depth objects p = Some t ->
  graph_weight depth objects p < 2 ^ 31 -> 256 <= base < 2 ^ 63 ->
  exists file, __CFBinaryPlistWrite depth objects junk p contents true = Some (Z.of_nat (length file), contents ++ file, false) /\
    forall fuel option_, (length file + 20 < fuel)%nat -> __CFTryParseBinaryPlist base file fuel option_ = Some (Some t).
Proof.
  intros Hj [Hok Hkeys] Ht Hw Hbase.
  destruct (write_plist depth objects junk p contents t Hj Ht Hw) as (s & encs & refSize & intSize & Hflat & Hroot & Hr & Hi & Hc & Htab & Hc31 & Hl36 & Henc & Hkids & Hwt & HW).
  exists (file_bytes encs refSize intSize). split; [done|]. intros fuel option_ Hfuel.
  assert (encs <> []) as Hne.
  { intros ->. apply mapM_length_enc in Henc. apply (flat_numbers s Hflat) in Hroot as [_ Hroot]. apply lookup_lt_Some in Hroot. cbn in *. lia. }
  pose proof (encs_nonempty _ _ _ _ _ Henc Hr) as Hpos. pose proof (length_file encs refSize intSize ltac:(lia)) as Hlen.
  assert (memory_block base (file_bytes encs refSize intSize)) as Hm.
  { split; [lia|nia|]. by apply (file_octets objects (objtable s) refSize (objlist s)). }
  destruct (parse_spec base (file_bytes encs refSize intSize) fuel option_ Hm Hfuel) as (r & -> & Hr'). f_equal. apply Hr'.
  destruct (file_top base encs refSize intSize Hm Hne Hpos Hr Hi Hc Htab Hc31 Hl36) as [marker Htop].
  exists marker, 8, (file_trailer encs refSize intSize), depth. split; [done|].
  apply (decode_all base encs refSize intSize Hm Hne Hpos Hr Hi Hc Htab Hc31 Hl36 objects (objtable s) (objlist s) (flat_numbers s Hflat) Henc Hkids Hok Hwt Hkeys depth p t 0); done.
Qed.
End RoundTrip.

(** ** Witness *)

(** An array of a string, a dictionary with that string for a key, and a number. *)
Definition example_graph : gmap Z plist_object :=
  <[1 := OArray [2; 3; 4; 2]]> (<[2 := OString [0x6B]]> (<[3 := ODictionary [(2, 5)]]> (<[4 := ONumber (SInt64 (-3))]> (<[5 := OString [0x4E2D; 0x6587]]> ∅)))).

Definition example_plist : plist :=
  PArray [PString [0x6B]; PDictionary [PString [0x6B]] [PString [0x4E2D; 0x6587]]; PNumber (SInt64 (-3)); PString [0x6B]].

Lemma example_graph_ok : graph_ok example_graph.
Proof.
  unfold example_graph. split; intros q.
  - intros obj. rewrite !lookup_insert_Some, lookup_empty. intros H. repeat (destruct H as [[_ <-]|[_ H]]; [cbn; unfold in_signed; repeat constructor; lia|]). done.
  - intros entries k. rewrite !lookup_insert_Some, lookup_empty. intros H Hk. repeat (destruct H as [[_ H]|[_ H]]; [simplify_eq|]); [|done].
    cbn in Hk. apply list_elem_of_singleton in Hk as ->. by exists (OString [0x6B]).
Qed.

Lemma CFBinaryPlist_round_trip_witness :
  exists file, __CFBinaryPlistWrite 3 example_graph (replicate 8160 0) 1 [] true = Some (Z.of_nat (length file), [] ++ file, false) /\
    forall fuel option_, (length file + 20 < fuel)%nat -> __CFTryParseBinaryPlist 4096 file fuel option_ = Some (Some example_plist).
Proof.
  apply (CFBinaryPlist_round_trip 3 example_graph (replicate 8160 0) 1 [] example_plist 4096).
  - rewrite length_replicate. reflexivity.
  - exact example_graph_ok.
  - vm_compute. reflexivity.
  - vm_compute. reflexivity.
  - lia.
Defined.
